(* ===== verification/_CoqProject ===== *)
-Q . S2P
Prelude.v
CString.v
Codec.v
Crc.v
NorFlash.v
SimFlash.v
FlashLayout.v
AbStore.v
HealthCheckConfig.v
UserStore.v
CallbackConfig.v
TlsTypes.v
HealthCheckLog.v
Accounts.v
AuthService.v
Spi.v
W25q64.v
FactoryReset.v
ServerCredentials.v
TrustStore.v
CivilTime.v
Ssl.v
TlsTransport.v
CallbackService.v
TimeService.v
TelemetryService.v
BuzzerService.v
HealthCheckService.v
ApiJson.v
ApiRequest.v
ApiResponse.v
Ethernet.v
EthernetLink.v
Board.v
Buzzer.v
System.v
Peripherals.v
Main.v
Tasks.v
NetworkInterface.v
NetworkService.v
TlsPlatform.v
SharedFlash.v
ApiService.v
ApiSafety.v
ApiInvariant.v
Startup.v
KernelList.v
KernelTasks.v
KernelSched.v
KernelQueue.v
KernelSync.v
KernelTimeout.v
SysArch.v
Timeouts.v
Sntp.v
Console.v
Mem.v
Memp.v
Pbuf.v
