(* ===== verification/Prelude.v ===== *)
(** * Verification of the STM32F767 health-check firmware

    The program polls HTTPS resources from an STM32F767 board, keeps a log of
    the results, alerts a callback address and a buzzer, and is managed through
    an HTTPS API.  Its own code is under [src/Core], [src/Periph], [src/Srv] and
    [src/TLS]; FreeRTOS, lwIP and the CMSIS headers are vendored, and Mbed TLS
    is not part of the repository.

    ** Parts and files

    - Vocabulary: this file (machine integers with explicit wrap-around, C
      strings, byte lists, list lemmas, tactics); [CString] (the C library's
      scanning functions and [lwip_strnicmp]); [Codec] (the byte layout of C
      structures, with both round trips); [Crc] (the CRC-32 every store uses).
    - Flash: [NorFlash] is the interface of the driver, classes [Flash] and
      [FlashLaws], that all stores are proved against; [W25q64] models
      [Periph/Src/w25q64.c] over [Spi] ([Periph/Src/spi.c]) and a model of the
      chip: called while the chip is not busy its operations keep that contract,
      and they discharge the interface under the assumption that the chip has
      settled between calls ([driver_flash]); [SimFlash] is a second instance with
      injected failures and power cuts, used for concrete runs; [FlashLayout] is
      [Periph/Inc/flash_layout.h].
    - Stores: [AbStore] is the commit discipline that alternates between two
      sectors, and what a start-up finds after a power cut at any point of it.
      [HealthCheckConfig], [UserStore], [CallbackConfig], [TrustStore] and
      [ServerCredentials] model the files of the same names under [Srv/Src] and
      [TLS/Src]: record layouts, validation, migrations, saving, start-up and
      every operation.  [HealthCheckLog] is the two-sector ring of
      [health_check_log.c].
    - Services: [Accounts] is what [auth_service.c] needs of the user store, a
      class with laws; [AuthService] is proved against it; [FactoryReset] models
      the button gestures, the marker and the erase of [factory_reset_service.c];
      [CivilTime], [Ssl] and [TlsTransport] model [tls_transport.c], with the
      date arithmetic of certificates; [CallbackService], [TimeService],
      [TelemetryService], [BuzzerService] and [HealthCheckService] are the tasks
      of these names.
    - Management API ([api_service.c]): [ApiJson] (member readers and the string
      writer), [ApiRequest] (the request reader), [ApiResponse] (the answers),
      [ApiService] (every route of [apiService_Dispatch] on the state of the
      whole device, and one connection of [apiService_Task]).
    - Network: [Ethernet] (the descriptor rings of [ethernet_ll.c], with the DMA
      engine beside them and between the writes of a submission), [EthernetLink] (its management bus, initialisation,
      link supervision and station address, over the classes [Peripheral] and
      [PhyLaws]), [NetworkInterface] ([network_interface.c], over the class
      [Lwip]), [NetworkService] ([network_service.c], with lwIP's interface
      record and DHCP client reduced to what the service sees of them).
    - Board: [Board] (pins and station address of [init_ll.c], [gpio.c] and
      [user_button.c]), [Buzzer] ([buzzer.c]), [System] ([system.c]: clocks,
      memory region, RTC domain), [Peripherals] (busy wait, console, UART and SPI
      set-up), [Main] (the sequence of [main.c]), [Tasks] (watchdog, heart beat,
      time task, listening socket), [TlsPlatform] ([tls_platform.c]).  An
      operation on registers is a function of their values, or the list of its
      writes where the states in between matter.
    - Composition: [SharedFlash] (the stores on one Flash: each depends on and
      changes its own sectors only), [ApiSafety] and [ApiInvariant] (theorems
      about the dispatcher on the whole device), [Startup] (the start of all
      services on the shared Flash).
    - Kernel (the parts of FreeRTOS that the project's configuration compiles and
      its code uses): [KernelList] ([list.c], pointers in a heap), [KernelTasks]
      (the data and operations of [tasks.c], over sequences that [KernelList]
      shows to be implemented by its lists), [KernelSched] (the kernel as a state
      machine of critical sections and interrupts), [KernelQueue] ([queue.c]),
      [KernelSync] (queues and mutexes shared by tasks), [KernelTimeout] (block
      times); [SysArch] is the project's [sys_arch.c], lwIP's system interface on
      that kernel; [Console] is [Common_Printf] as a sequence of calls that tasks
      carry out under a mutex of that kernel ([common.c]), with the stubs of [syscalls.c] and the fault handlers.
    - lwIP, as far as the project's own services depend on its state: [Mem] (the
      heap of [mem.c], headers linked in memory), [Memp] (the pools of [memp.c]),
      [Pbuf] (the packet buffers of [pbuf.c]), [Timeouts] ([timeouts.c]) and [Sntp] ([sntp.c]), the client that sets the clock of
      [TimeService].

    A store's state is a record of the copy in RAM, the active address and the
    Flash ([AbStore.store]); an operation takes and returns that state with the
    status the C function returns.  Arguments that may be [NULL] are options.

    ** What the theorems show

    - Refinement: the configuration store implements a table of slots, the user
      store a finite map of names, the trust store a table of certificates, the
      log a sequence of which the newest entries are kept; the driver's operations
      on a chip that is not busy have the effects the Flash interface promises; the descriptor rings implement queues of frames; the
      lists of the kernel implement sequences with an index, its queues bounded
      sequences, its recursive mutexes recursive locks, lwIP's mailboxes FIFO
      queues of messages, its timers a queue of deadlines on a clock that does
      not wrap, its heap a first-fit allocator on a list of segments, its chained
      packets strings of bytes.
    - Scheduling: every sequence of the kernel's steps but the one that ends the
      inheritance of a timed-out mutex take keeps the invariant of the scheduler; a delay ends after exactly its ticks, across the overflow of the
      tick count; a context switch takes a task of the highest priority, and its
      equals take turns; a blocking call fails only after its time and returns
      then; queues stay well typed under any sections; messages of tasks that
      call [Common_Printf] at the same time are not mixed.
    - Time: an SNTP answer sets the clock to the server's time for every 32-bit
      Unix time, and the client never stops asking.
    - Atomicity: after any failure or power cut a restart finds the state before
      or after the interrupted operation, or an image whose damage the CRC does
      not show ([torn_boot] says exactly which; [crc32_detects_byte] bounds it).
    - Safety: tokens belong to entitled users, revoked ones stay refused, the
      served certificate and key pair, outgoing requests are authenticated, a
      factory reset is completed after power loss and leaves nothing behind,
      requests without an administrator's token change sessions at most, and no
      sequence of requests breaks the joint invariant of all stores.
    - Start: the clocks stay inside their limits in every state of their set-up,
      the scheduler is reached only with every pin in its function and, if the
      Flash identified itself, no factory reset unfinished, and a restart brings
      back every store with the joint invariant, at the cost of the older log
      sector when the newer one is full.
    - Progress: the network becomes ready within the DHCP time-out, two polls and
      twice the jitter of its task,
      the input loop, the loop over expired timers and the random generator end,
      the watchdog is fed in time.
    - Text: requests are framed independently of the pieces they arrive in,
      printed requests and members are read back, every message fits its buffer,
      dates convert back and forth.
    - Deviations of the code from what it means to do, stated as theorems:
      [mutex_timeout_leaves_stale_ready_bit], and the lemmas
      [eof_accepts_stale_request], [eof_reports_ok], [expired_token_revives],
      [log_hole_loses_records], [failed_reads_reset_trust_store],
      [busy_erase_reports_ok], [failed_marker_still_resets],
      [json_value_taken_for_key], [lost_lease_stays_ready],
      [first_tone_undriven], [delay_wraps], [trim_last_block_complains].

    ** Bounds

    Loops of the code that are not structural carry fuel that the theorems show
    to be enough, or are bounded by the code itself: [Ssl.write_loop] by the
    length of the data (each round sends a byte at least), [ApiRequest.receive]
    by the capacity of the buffer, [find_authorization] and [has_key] by the
    length of the text, the status line by its 127 bytes, the polling loops of
    [Spi], [W25q64], [EthernetLink] and [System] by their time-outs, the input
    loop by the frames that arrive, the random generator by its time-out and the
    rate of its clock, the busy wait by the cycles it counts, decimal numbers by
    ten digits, the year search of [gmtime_r] by the 137 years of a 32-bit time.
    In the kernel, [insert_position] has fuel for one visit of each item and the
    end marker, [unblock_loop] and [pending_loop] for each task of their list,
    [unlock_loop] counts the lock; each is shown to be enough.  The loop of
    [sys_check_timeouts] needs one turn more than the milliseconds, begun, that
    the expired timers are overdue together ([backlog]); the searches of the heap
    have fuel for the 512 blocks it can hold; the loops over a chain of buffers
    take fuel, and are shown to return when it is more than the chain's length.  The blocking calls
    are functions of a list of views, one per turn, that say what other tasks and
    interrupts made of the queue and the kernel before each section; the theorems
    hold for every such list, and [blocking_calls_keep_time] shows that a call
    whose time is over returns.

    ** Taken from outside

    Mbed TLS (parsing certificates and keys, pairing, PBKDF2, SHA-256, the
    session), the random generator, lwIP's resolver and sockets, the tick
    counter and the queue state appear as parameters, inputs or a class
    ([Ssl]); what is assumed of them is a named hypothesis: sizes of digests and
    salts, strings without NUL, the result range of reads and writes.  Mutexes
    are waited for with [portMAX_DELAY]; where the code looks at the result, the
    model has both branches.  The tasks share the stores under these mutexes, so
    that operations are modelled as atomic steps.

    ** Not modelled

    The formatting of diagnostic messages by newlib, and its reads from the
    console, which nothing uses; the allocator of Mbed TLS; the vendor
    driver [lan8742.c], which nothing calls; of the vendored code, what is not
    named above: the protocols of lwIP (the effects of its interface and
    DHCP functions on the record of the interface enter), and
    of FreeRTOS the options the project does not enable, the stacks of tasks,
    run-time statistics, and the assembly of the port.  The services are not
    interleaved instruction by instruction: what they share is protected by
    mutexes or owned by one task, and the mutexes are proved in [KernelSync]. *)
From Stdlib Require Export ZArith Lia ZifyBool ZifyNat.
From stdpp Require Export base numbers list option.
From Stdlib Require String Ascii.
Export String.StringSyntax.

#[global] Open Scope Z_scope.
#[global] Set Default Goal Selector "!".

(** ** Machine integers

    A w-bit unsigned integer is a [Z]; every C expression that can leave the
    range of its type is wrapped explicitly. *)

Definition u8 (z : Z) : Z := z mod 256.
Definition u16 (z : Z) : Z := z mod 65536.
Definition u32 (z : Z) : Z := z mod 4294967296.

(** The value of an [int32_t] holding the low 32 bits of [z]. *)
Definition i32 (z : Z) : Z :=
  let w := u32 z in if w <? 2147483648 then w else w - 4294967296.

Definition is_u8 (z : Z) : Prop := 0 <= z < 256.
Definition is_u16 (z : Z) : Prop := 0 <= z < 65536.
Definition is_u32 (z : Z) : Prop := 0 <= z < 4294967296.

#[global] Instance is_u8_dec z : Decision (is_u8 z).
Proof. unfold is_u8. apply _. Defined.
#[global] Instance is_u16_dec z : Decision (is_u16 z).
Proof. unfold is_u16. apply _. Defined.
#[global] Instance is_u32_dec z : Decision (is_u32 z).
Proof. unfold is_u32. apply _. Defined.

Lemma u8_range z : is_u8 (u8 z).
Proof. unfold is_u8, u8. apply Z.mod_pos_bound. lia. Qed.
Lemma u16_range z : is_u16 (u16 z).
Proof. unfold is_u16, u16. apply Z.mod_pos_bound. lia. Qed.
Lemma u32_range z : is_u32 (u32 z).
Proof. unfold is_u32, u32. apply Z.mod_pos_bound. lia. Qed.

Lemma u8_id z : is_u8 z -> u8 z = z.
Proof. apply Z.mod_small. Qed.
Lemma u16_id z : is_u16 z -> u16 z = z.
Proof. apply Z.mod_small. Qed.
Lemma u32_id z : is_u32 z -> u32 z = z.
Proof. apply Z.mod_small. Qed.

Create HintDb word.
#[export] Hint Resolve u8_range u16_range u32_range : word.

(** Arithmetic with the range predicates and wrap-arounds spelled out. *)
Ltac word :=
  unfold is_u8, is_u16, is_u32, u8, u16, u32 in *;
  Z.div_mod_to_equations; lia.

(** ** Bytes and memory images *)

Abbreviation bytes := (list Z).

Fixpoint le_enc (n : nat) (z : Z) : bytes :=
  match n with
  | O => []
  | S n => z mod 256 :: le_enc n (z / 256)
  end.

Fixpoint le_dec (bs : bytes) : Z :=
  match bs with
  | [] => 0
  | b :: bs => b + 256 * le_dec bs
  end.

Lemma length_le_enc n z : length (le_enc n z) = n.
Proof. revert z; induction n as [|n IH]; intros z; simpl; [done|by rewrite IH]. Qed.

Lemma le_enc_bytes n z : Forall is_u8 (le_enc n z).
Proof.
  revert z; induction n as [|n IH]; intros z; simpl; constructor; [|done].
  apply u8_range.
Qed.

Lemma le_dec_enc n z : 0 <= z < 256 ^ Z.of_nat n -> le_dec (le_enc n z) = z.
Proof.
  revert z; induction n as [|n IH]; intros z Hz.
  - simpl in *. lia.
  - rewrite Nat2Z.inj_succ, Z.pow_succ_r in Hz by lia. cbn [le_enc le_dec].
    rewrite IH; [|split; [apply Z.div_pos; lia|apply Z.div_lt_upper_bound; lia]].
    pose proof (Z.div_mod z 256). lia.
Qed.

Lemma le_dec_bound bs : Forall is_u8 bs -> 0 <= le_dec bs < 256 ^ Z.of_nat (length bs).
Proof.
  induction 1 as [|b bs Hb _ IH]; [simpl; lia|].
  cbn [le_dec length]. rewrite Nat2Z.inj_succ, Z.pow_succ_r by lia.
  unfold is_u8 in Hb. nia.
Qed.

Lemma le_enc_dec bs : Forall is_u8 bs -> le_enc (length bs) (le_dec bs) = bs.
Proof.
  induction 1 as [|b bs Hb _ IH]; [done|]. cbn [le_dec length le_enc].
  unfold is_u8 in Hb.
  rewrite (Z.mul_comm 256), Z.mod_add, Z.mod_small, Z.div_add, Z.div_small by lia.
  by rewrite Z.add_0_l, IH.
Qed.

(** [zeros n] is a zeroed object of [n] bytes, as [memset(p, 0, n)] leaves it. *)
Definition zeros (n : nat) : bytes := replicate n 0.

Lemma zeros_bytes n : Forall is_u8 (zeros n).
Proof. apply Forall_replicate. unfold is_u8. lia. Qed.

(** ** C strings

    A [char] array is the list of its bytes; [cstr] is the string it holds,
    the bytes before the first NUL. *)

Fixpoint cstr (a : bytes) : bytes :=
  match a with
  | [] => []
  | c :: a => if c =? 0 then [] else c :: cstr a
  end.

(** [strlen] of the string held by [a]. *)
Definition strlen (a : bytes) : nat := length (cstr a).

(** [strcmp(a, b) == 0]. *)
Definition strcmp_eq (a b : bytes) : bool := bool_decide (cstr a = cstr b).

(** [strncpy(dst, src, n)] into a destination of [length dst >= n] bytes:
    the string is copied up to [n] bytes, the rest of the first [n] bytes is
    zero filled and the destination beyond [n] is left alone. *)
Definition strncpy (dst src : bytes) (n : nat) : bytes :=
  let s := take n (cstr src) in s ++ zeros (n - length s) ++ drop n dst.

(** The array holds a terminated string. *)
Definition terminated (a : bytes) : bool := existsb (Z.eqb 0) a.

(** Bytes of a string literal, without the terminator. *)
Fixpoint str (s : String.string) : bytes :=
  match s with
  | String.EmptyString => []
  | String.String c s => Z.of_N (Ascii.N_of_ascii c) :: str s
  end.

Arguments str _%_string_scope.

Lemma str_bytes s : Forall is_u8 (str s).
Proof.
  induction s as [|c s IH]; simpl; constructor; [|done].
  pose proof (Ascii.N_ascii_bounded c). unfold is_u8. lia.
Qed.

Lemma length_zeros n : length (zeros n) = n.
Proof. apply length_replicate. Qed.

Lemma cstr_app_0 s t : Forall (fun c => c <> 0) s -> cstr (s ++ 0 :: t) = s.
Proof.
  induction 1 as [|c s Hc _ IH]; [done|]. simpl.
  destruct (Z.eqb_spec c 0); [done|]. by rewrite IH.
Qed.

Lemma cstr_nonzero a : Forall (fun c => c <> 0) (cstr a).
Proof.
  induction a as [|c a IH]; simpl; [constructor|].
  destruct (Z.eqb_spec c 0); constructor; auto.
Qed.

Lemma cstr_id s : Forall (fun c => c <> 0) s -> cstr s = s.
Proof.
  induction 1 as [|c s Hc _ IH]; [done|]. simpl.
  destruct (Z.eqb_spec c 0); [done|]. by rewrite IH.
Qed.

Lemma cstr_idemp a : cstr (cstr a) = cstr a.
Proof. apply cstr_id, cstr_nonzero. Qed.

Lemma cstr_bytes a : Forall is_u8 a -> Forall is_u8 (cstr a).
Proof.
  induction 1 as [|c a Hc _ IH]; simpl; [constructor|].
  destruct (c =? 0); constructor; auto.
Qed.

Lemma length_cstr a : (length (cstr a) <= length a)%nat.
Proof. induction a as [|c a IH]; simpl; [lia|]. destruct (c =? 0); simpl; lia. Qed.

Lemma length_strncpy dst src n :
  (n <= length dst)%nat -> length (strncpy dst src n) = length dst.
Proof.
  intros Hn. unfold strncpy. rewrite !length_app, length_zeros, length_drop, length_take. lia.
Qed.

Lemma strncpy_bytes dst src n :
  Forall is_u8 dst -> Forall is_u8 src -> Forall is_u8 (strncpy dst src n).
Proof.
  intros Hd Hs. unfold strncpy. repeat apply Forall_app_2.
  - by apply Forall_take, cstr_bytes.
  - apply zeros_bytes.
  - by apply Forall_drop.
Qed.

(** Copying a string that fits, with room for the terminator, into a zeroed
    (or at least zero-terminated) array stores exactly that string. *)
Lemma cstr_strncpy_fits dst src n :
  (strlen src < n)%nat -> cstr (strncpy dst src n) = cstr src.
Proof.
  unfold strlen, strncpy. intros Hn. rewrite take_ge by lia.
  destruct (n - length (cstr src))%nat as [|k] eqn:E; [lia|].
  simpl. apply cstr_app_0, cstr_nonzero.
Qed.

Lemma cstr_strncpy_zeros k src n :
  (strlen src <= n < k)%nat -> cstr (strncpy (zeros k) src n) = cstr src.
Proof.
  unfold strlen, strncpy. intros [Hn Hk]. rewrite take_ge by lia.
  rewrite app_assoc. unfold zeros at 2. rewrite drop_replicate.
  destruct (k - n)%nat as [|j] eqn:E; [lia|].
  destruct (n - length (cstr src))%nat as [|i]; simpl.
  - rewrite app_nil_r. apply cstr_app_0, cstr_nonzero.
  - rewrite <-app_assoc. apply cstr_app_0, cstr_nonzero.
Qed.

(** The usual bounded copy: [strncpy] and then a forced terminator. *)
Lemma cstr_bounded_copy dst src n :
  (strlen src <= n)%nat -> cstr (take n (strncpy dst src n) ++ [0]) = cstr src.
Proof.
  unfold strlen, strncpy. intros Hn. rewrite (take_ge (cstr src)) by lia.
  rewrite app_assoc, take_app_le by (rewrite length_app, length_zeros; lia).
  rewrite take_ge by (rewrite length_app, length_zeros; lia).
  replace ((cstr src ++ zeros (n - length (cstr src))) ++ [0]) with (cstr src ++ 0 :: zeros (n - length (cstr src))).
  - apply cstr_app_0, cstr_nonzero.
  - rewrite <-app_assoc. f_equal. unfold zeros. by rewrite <-replicate_S_end.
Qed.

Lemma terminated_strlen a : terminated a = true -> (strlen a < length a)%nat.
Proof.
  unfold terminated, strlen. induction a as [|c a IH]; [done|]. cbn [existsb cstr].
  rewrite (Z.eqb_sym 0 c). destruct (c =? 0); simpl; [lia|]. intros H. specialize (IH H). lia.
Qed.

Lemma strlen_terminated a : (strlen a < length a)%nat -> terminated a = true.
Proof.
  unfold terminated, strlen. induction a as [|c a IH]; [simpl; lia|].
  cbn [existsb cstr]. rewrite (Z.eqb_sym 0 c). destruct (c =? 0); simpl; [done|].
  intros H. apply IH. lia.
Qed.

Lemma strcmp_eq_true a b : strcmp_eq a b = true <-> cstr a = cstr b.
Proof. apply bool_decide_eq_true. Qed.

(** ** Decimal printing: the digits of [%u], [%lu] and [%ld] *)

Fixpoint dec_digits (fuel : nat) (n : Z) : bytes :=
  match fuel with
  | O => []
  | S fuel =>
      if n <? 10 then [48 + n] else dec_digits fuel (n / 10) ++ [48 + n mod 10]
  end.

(** A 32-bit value has at most ten digits. *)
Definition fmt_u (n : Z) : bytes := dec_digits 10 n.
Definition fmt_d (n : Z) : bytes := if n <? 0 then 45 :: fmt_u (- n) else fmt_u n.

Lemma length_dec_digits fuel n : (length (dec_digits fuel n) <= fuel)%nat.
Proof.
  revert n; induction fuel as [|k IH]; intros n; simpl; [lia|].
  destruct (n <? 10); simpl; [lia|]. rewrite length_app. simpl. specialize (IH (n / 10)). lia.
Qed.

Lemma length_fmt_u n : (length (fmt_u n) <= 10)%nat.
Proof. apply length_dec_digits. Qed.

Lemma pair_snd {A B} (p : A * B) b : p.2 = b -> p = (p.1, b).
Proof. intros <-. by destruct p. Qed.
