(* ===== verification/CString.v ===== *)
(** The C library on strings, as the network code uses it.

    A [char*] is the list of the bytes from it on, up to and excluding the NUL:
    [*p] is [chr p], [p + n] is [drop n p].  [strstr] and [strchr] return the
    offset of the match.  [strtoul] and [strtol] are those of a target with a
    32-bit [long].  The lemmas say that searches are stable when text is
    appended, and that printing a number and scanning it again is the
    identity. *)
From S2P Require Import Prelude.

(** [*p] *)
Definition chr (s : bytes) : Z := nth 0 s 0.

(** A literal in which single quotes stand for double quotes. *)
Definition quoted (s : String.string) : bytes := map (fun c => if c =? 39 then 34 else c) (str s).

Arguments quoted _%_string_scope.

Definition crlf : bytes := [13; 10].

(** ** Characters *)

(** [isspace] of the C locale. *)
Definition isspace (c : Z) : bool := (c =? 32) || ((9 <=? c) && (c <=? 13)).
Definition isdigit (c : Z) : bool := (48 <=? c) && (c <=? 57).
(** The test [(c == ' ') || (c == '\t')]. *)
Definition isblank (c : Z) : bool := (c =? 32) || (c =? 9).

(** [while (p( *s)) s++] *)
Fixpoint skip_while (p : Z -> bool) (s : bytes) : bytes :=
  match s with
  | c :: s' => if p c then skip_while p s' else s
  | [] => []
  end.

Definition skip_space : bytes -> bytes := skip_while isspace.
Definition skip_blank : bytes -> bytes := skip_while isblank.

(** ** Searching *)

(** [strncmp(s, p, strlen(p)) == 0] *)
Fixpoint starts_with (p s : bytes) : bool :=
  match p, s with
  | [], _ => true
  | a :: p, b :: s => (a =? b) && starts_with p s
  | _ :: _, [] => false
  end.

Fixpoint strstr (s needle : bytes) : option nat :=
  if starts_with needle s then Some 0%nat
  else match s with [] => None | _ :: s => S <$> strstr s needle end.

Definition strchr (s : bytes) (c : Z) : option nat := strstr s [c].

(** ** Numbers *)

(** At most [width] digits: their value, how many, and the rest. *)
Fixpoint scan_digits (width : nat) (s : bytes) (value : Z) (count : nat) : Z * nat * bytes :=
  match s, width with
  | c :: s', S width =>
      if isdigit c then scan_digits width s' (value * 10 + (c - 48)) (S count) else (value, count, s)
  | _, _ => (value, count, s)
  end.

Definition ULONG_MAX : Z := 4294967295.
Definition LONG_MAX : Z := 2147483647.
Definition LONG_MIN : Z := -2147483648.

(** White space, an optional sign and all the digits there are: whether the
    sign is negative, the magnitude and the rest; [None] without digits. *)
Definition scan_integer (s : bytes) : option (bool * Z * bytes) :=
  let s := skip_space s in
  let '(negative, s) := if chr s =? 45 then (true, tl s) else if chr s =? 43 then (false, tl s) else (false, s) in
  let '(value, count, rest) := scan_digits (length s) s 0 0 in
  if (count =? 0)%nat then None else Some (negative, value, rest).

(** [strtoul(s, &end, 10)]: the value, whether [errno] became [ERANGE], and
    [end]; [None] when nothing was converted ([end == s]). *)
Definition strtoul (s : bytes) : option (Z * bool * bytes) :=
  match scan_integer s with
  | None => None
  | Some (negative, value, rest) =>
      if ULONG_MAX <? value then Some (ULONG_MAX, true, rest)
      else Some (u32 (if negative then - value else value), false, rest)
  end.

(** [strtol(s, &end, 10)]: the value and [end]. *)
Definition strtol (s : bytes) : option (Z * bytes) :=
  match scan_integer s with
  | None => None
  | Some (negative, value, rest) =>
      Some (Z.max LONG_MIN (Z.min LONG_MAX (if negative then - value else value)), rest)
  end.

(** ** [lwip_strnicmp] *)

(** One position of the comparison: equal, or letters equal without case. *)
Definition same_letter (c1 c2 : Z) : bool :=
  (c1 =? c2)
  || (let c1_upc := Z.lor c1 0x20 in (97 <=? c1_upc) && (c1_upc <=? 122) && (c1_upc =? Z.lor c2 0x20)).

(** [lwip_strnicmp(s1, s2, len) == 0], for a positive [len]. *)
Fixpoint lwip_strnicmp (s1 s2 : bytes) (len : nat) : bool :=
  match len with
  | O => true
  | S len =>
      same_letter (chr s1) (chr s2)
      && ((len =? 0)%nat || (chr s1 =? 0) || lwip_strnicmp (tl s1) (tl s2) len)
  end.

(** ** Lemmas *)

Lemma starts_with_app p s t : starts_with p s = true -> starts_with p (s ++ t) = true.
Proof.
  revert s. induction p as [|a p IH]; intros [|b s] E; try done. cbn in *.
  apply andb_true_iff in E as [-> E]. by rewrite IH.
Qed.

Lemma starts_with_self p t : starts_with p (p ++ t) = true.
Proof. induction p as [|a p IH]; [done|]. cbn. by rewrite Z.eqb_refl. Qed.

Lemma starts_with_spec p s : starts_with p s = true <-> exists t, s = p ++ t.
Proof.
  split; [|intros [t ->]; apply starts_with_self]. revert s.
  induction p as [|a p IH]; intros [|b s] E; try done; [by exists []|by eexists|].
  cbn in E. apply andb_true_iff in E as [->%Z.eqb_eq E]. destruct (IH _ E) as [t ->]. by exists t.
Qed.

Lemma starts_with_shorter p s t :
  (length p <= length s)%nat -> starts_with p (s ++ t) = starts_with p s.
Proof.
  revert s. induction p as [|a p IH]; intros [|b s] Hl; cbn in *; try done; [lia|].
  by rewrite IH by lia.
Qed.

Lemma starts_with_length p s : starts_with p s = true -> (length p <= length s)%nat.
Proof. rewrite starts_with_spec. intros [t ->]. rewrite length_app. lia. Qed.

(** The first offset at which the needle starts. *)
Lemma strstr_spec s needle k :
  strstr s needle = Some k <->
  starts_with needle (drop k s) = true /\ (k <= length s)%nat
  /\ forall j, (j < k)%nat -> starts_with needle (drop j s) = false.
Proof.
  revert k. induction s as [|c s IH]; intros k; cbn [strstr].
  - rewrite drop_nil. split.
    + intros E. destruct (starts_with needle []); [|done]. injection E as <-. split_and!; [done|lia|lia].
    + intros (-> & Hk & _). cbn in Hk. by replace k with 0%nat by lia.
  - destruct (starts_with needle (c :: s)) eqn:Es.
    + split.
      * intros E. injection E as <-. split_and!; [done|lia|lia].
      * intros (_ & _ & Hj). destruct k as [|k]; [done|]. specialize (Hj 0%nat). cbn in Hj.
        rewrite Hj in Es by lia. done.
    + split.
      * intros E. destruct (strstr s needle) as [j|] eqn:Ej; [|done]. injection E as <-.
        destruct (proj1 (IH j) eq_refl) as (H1 & H2 & H3).
        split_and!; [done|cbn; lia|]. intros [|i] Hi; [done|]. apply H3. lia.
      * intros (H1 & H2 & H3). destruct k as [|k]; [cbn in H1; congruence|].
        rewrite (proj2 (IH k)); [done|]. cbn in H2. split_and!; [done|lia|].
        intros j Hj. apply (H3 (S j)). lia.
Qed.

Lemma strstr_bound s needle k : strstr s needle = Some k -> (k + length needle <= length s)%nat.
Proof.
  intros (H & Hk & _)%strstr_spec. apply starts_with_length in H. rewrite length_drop in H. lia.
Qed.

Lemma strstr_none s needle :
  strstr s needle = None <-> forall j, (j <= length s)%nat -> starts_with needle (drop j s) = false.
Proof.
  split.
  - revert needle. induction s as [|c s IH]; intros needle E j Hj; cbn [strstr] in E.
    + destruct (starts_with needle []) eqn:Es; [done|]. by rewrite drop_nil.
    + destruct (starts_with needle (c :: s)) eqn:Es; [done|]. destruct (strstr s needle) eqn:Ej; [done|].
      destruct j as [|j]; [done|]. cbn. apply IH; [done|]. cbn in Hj. lia.
  - intros Hj. destruct (strstr s needle) as [k|] eqn:E; [|done].
    apply strstr_spec in E as (H & Hk & _). rewrite Hj in H; [done|lia].
Qed.

(** A match stays the first match when text is appended. *)
Lemma strstr_app s t needle k : strstr s needle = Some k -> strstr (s ++ t) needle = Some k.
Proof.
  intros E. pose proof (strstr_bound _ _ _ E) as Hb. apply strstr_spec in E as (H1 & H2 & H3).
  apply strstr_spec. rewrite length_app, drop_app_le by done. split_and!; [by apply starts_with_app|lia|].
  intros j Hj. rewrite drop_app_le by lia. rewrite starts_with_shorter; [by apply H3|].
  rewrite length_drop. lia.
Qed.

(** A needle that occurs nowhere before [s]'s own match is found there. *)
Lemma strstr_at pre needle post :
  (forall j, (j < length pre)%nat -> starts_with needle (drop j (pre ++ needle ++ post)) = false) ->
  strstr (pre ++ needle ++ post) needle = Some (length pre).
Proof.
  intros H. apply strstr_spec. rewrite drop_app_length, length_app.
  split_and!; [apply starts_with_self|lia|done].
Qed.

Lemma cstr_app a b : exists c, cstr (a ++ b) = cstr a ++ c /\ (length (cstr a) = length a -> c = cstr b).
Proof.
  induction a as [|x a (c & E & H)]; cbn [cstr app]; [by exists (cstr b)|].
  destruct (x =? 0); [exists []; by split|]. exists c. rewrite E. split; [done|].
  cbn. intros Hl. apply H. lia.
Qed.

(** ** Searching past text that cannot match *)

Lemma strstr_skip a b needle :
  (forall j, (j < length a)%nat -> starts_with needle (drop j (a ++ b)) = false) ->
  strstr (a ++ b) needle = (fun k => (length a + k)%nat) <$> strstr b needle.
Proof.
  induction a as [|c a IH]; intros H; cbn [app length].
  - destruct (strstr b needle); done.
  - cbn [strstr]. pose proof (H 0%nat ltac:(cbn; lia)) as H0. cbn [drop app] in H0. rewrite H0, IH.
    + destruct (strstr b needle); done.
    + intros j Hj. apply (H (S j)). cbn. lia.
Qed.

(** The first character of the needle does not occur. *)
Lemma strstr_skip_absent (a b : bytes) (x : Z) (needle : bytes) :
  Forall (fun c => c <> x) a ->
  strstr (a ++ b) (x :: needle) = (fun k => (length a + k)%nat) <$> strstr b (x :: needle).
Proof.
  intros Ha. apply strstr_skip. intros j Hj. destruct (lookup_lt_is_Some_2 a j Hj) as [c Hc].
  rewrite (drop_S (a ++ b) c) by (by rewrite lookup_app_l). cbn [starts_with].
  rewrite (proj2 (Z.eqb_neq x c)); [done|].
  intros ->. by apply (Forall_lookup_1 _ _ _ _ Ha Hc).
Qed.

Lemma strstr_here needle t : strstr (needle ++ t) needle = Some 0%nat.
Proof. apply strstr_spec. cbn [drop]. split_and!; [apply starts_with_self|lia|lia]. Qed.

(** Two texts up to the first occurrence of a delimiter. *)
Lemma split_delimiter (x : Z) (a b s t : bytes) :
  Forall (fun c => c <> x) a -> Forall (fun c => c <> x) b -> a ++ x :: s = b ++ x :: t -> a = b /\ s = t.
Proof.
  intros Ha. revert b. induction Ha as [|c a Hc _ IH]; intros b Hb E; destruct Hb as [|d b Hd Hb]; cbn in E.
  - by injection E.
  - injection E as E1 E2. congruence.
  - injection E as E1 E2. congruence.
  - injection E as -> E2. destruct (IH b Hb E2) as [-> ->]. done.
Qed.

(** ** Printing and scanning *)

Lemma isdigit_digit n : 0 <= n < 10 -> isdigit (48 + n) = true.
Proof. intros H. unfold isdigit. apply andb_true_iff. lia. Qed.

Lemma scan_dec_digits fuel n w s v c :
  0 <= n < 10 ^ Z.of_nat fuel ->
  scan_digits (length (dec_digits fuel n) + w) (dec_digits fuel n ++ s) v c
  = scan_digits w s (v * 10 ^ Z.of_nat (length (dec_digits fuel n)) + n) (c + length (dec_digits fuel n)).
Proof.
  revert n w s v c. induction fuel as [|fuel IH]; intros n w s v c Hn.
  { cbn in Hn. assert (n = 0) as -> by lia. cbn. f_equal; lia. }
  rewrite Nat2Z.inj_succ, Z.pow_succ_r in Hn by lia. cbn [dec_digits].
  destruct (Z.ltb_spec n 10).
  - cbn [app length Nat.add scan_digits]. rewrite isdigit_digit by lia. f_equal; lia.
  - rewrite <-app_assoc, length_app. cbn [app length]. rewrite <-Nat.add_assoc, IH; [|Z.div_mod_to_equations; lia].
    cbn [Nat.add scan_digits]. rewrite isdigit_digit by (apply Z.mod_pos_bound; lia).
    rewrite Nat2Z.inj_add, Z.pow_add_r by lia. f_equal; [|lia].
    pose proof (Z.div_mod n 10). change (10 ^ Z.of_nat 1) with 10. lia.
Qed.

(** The printed digits begin with a digit. *)
Lemma dec_digits_chr fuel n :
  0 <= n < 10 ^ Z.of_nat fuel -> (0 < fuel)%nat -> exists d s, dec_digits fuel n = (48 + d) :: s /\ 0 <= d < 10.
Proof.
  revert n. induction fuel as [|fuel IH]; intros n Hn Hf; [lia|]. cbn [dec_digits].
  destruct (Z.ltb_spec n 10); [exists n, []; split; [done|lia]|].
  rewrite Nat2Z.inj_succ, Z.pow_succ_r in Hn by lia. destruct fuel as [|fuel]; [cbn in Hn; lia|].
  destruct (IH (n / 10)) as (d & s & -> & Hd); [Z.div_mod_to_equations; lia|lia|]. by exists d, (s ++ [48 + n mod 10]).
Qed.

Lemma scan_integer_fmt_u n s :
  0 <= n < 10 ^ 10 -> isdigit (chr s) = false -> scan_integer (fmt_u n ++ s) = Some (false, n, s).
Proof.
  intros Hn Hs. unfold scan_integer, fmt_u.
  destruct (dec_digits_chr 10 n) as (d & r & E & Hd); [done|lia|].
  assert (skip_space (dec_digits 10 n ++ s) = dec_digits 10 n ++ s) as ->.
  { rewrite E. cbn [app skip_space skip_while]. unfold skip_space. cbn [skip_while]. unfold isspace.
    replace ((48 + d =? 32) || (9 <=? 48 + d) && (48 + d <=? 13)) with false by lia. done. }
  assert (chr (dec_digits 10 n ++ s) = 48 + d) as -> by (by rewrite E).
  replace (48 + d =? 45) with false by lia. replace (48 + d =? 43) with false by lia.
  rewrite length_app, scan_dec_digits by done. cbn [Nat.add].
  assert (scan_digits (length s) s (0 * 10 ^ Z.of_nat (length (dec_digits 10 n)) + n) (length (dec_digits 10 n))
          = (n, length (dec_digits 10 n), s)) as ->.
  { destruct s as [|c s]; cbn [scan_digits length]; [done|]. cbn in Hs. by rewrite Hs. }
  rewrite (proj2 (Nat.eqb_neq _ 0)); [done|]. rewrite E. cbn. lia.
Qed.

(** A printed 32-bit number is read back, whatever follows it. *)
Lemma strtoul_fmt_u n s :
  is_u32 n -> isdigit (chr s) = false -> strtoul (fmt_u n ++ s) = Some (n, false, s).
Proof.
  intros Hn Hs. unfold strtoul. rewrite scan_integer_fmt_u; [|word|done]. unfold ULONG_MAX.
  replace (4294967295 <? n) with false by word. by rewrite u32_id.
Qed.
