(* ===== verification/Codec.v ===== *)
(** Memory layout of the persisted C structures.

    A [codec A] describes how a C object of type [A] is laid out in memory on
    the target (little-endian, explicit padding): its size, the bytes of a
    value, the value of any byte image, and the proofs that the two are
    inverse.  Structures are assembled from the scalar codecs with [c_pair],
    [c_array] and [c_iso], so that each structure of the firmware gets its
    layout and both round trips from one definition. *)
From S2P Require Import Prelude.

#[local] Obligation Tactic := cbn beta.

Record codec (A : Type) := Codec {
  c_size : nat;
  c_enc : A -> bytes;
  c_dec : bytes -> A;
  c_wf : A -> Prop;
  c_enc_length : forall a, c_wf a -> length (c_enc a) = c_size;
  c_enc_bytes : forall a, c_wf a -> Forall is_u8 (c_enc a);
  c_dec_wf : forall bs, length bs = c_size -> Forall is_u8 bs -> c_wf (c_dec bs);
  c_dec_enc : forall a, c_wf a -> c_dec (c_enc a) = a;
  c_enc_dec : forall bs, length bs = c_size -> Forall is_u8 bs -> c_enc (c_dec bs) = bs;
}.
Arguments Codec {A}.
Arguments c_size {A}.
Arguments c_enc {A}.
Arguments c_dec {A}.
Arguments c_wf {A}.
Arguments c_enc_length {A}.
Arguments c_enc_bytes {A}.
Arguments c_dec_wf {A}.
Arguments c_dec_enc {A}.
Arguments c_enc_dec {A}.

(** ** Scalars and raw byte arrays *)

Program Definition c_le (n : nat) : codec Z := {|
  c_size := n;
  c_enc := le_enc n;
  c_dec := le_dec;
  c_wf := fun z => 0 <= z < 256 ^ Z.of_nat n;
|}.
Next Obligation. intros. apply length_le_enc. Qed.
Next Obligation. intros. apply le_enc_bytes. Qed.
Next Obligation. intros n bs <- Hb. by apply le_dec_bound. Qed.
Next Obligation. intros. by apply le_dec_enc. Qed.
Next Obligation. intros n bs <- Hb. by apply le_enc_dec. Qed.

Definition c_u8 : codec Z := c_le 1.
Definition c_u16 : codec Z := c_le 2.
Definition c_u32 : codec Z := c_le 4.

(** A signed 32-bit integer, in two's complement. *)
Program Definition c_i32 : codec Z := {|
  c_size := 4;
  c_enc := fun z => le_enc 4 (u32 z);
  c_dec := fun bs => i32 (le_dec bs);
  c_wf := fun z => -2147483648 <= z < 2147483648;
|}.
Next Obligation. intros. apply length_le_enc. Qed.
Next Obligation. intros. apply le_enc_bytes. Qed.
Next Obligation.
  intros bs Hl Hb. pose proof (le_dec_bound bs Hb) as H. rewrite Hl in H. unfold i32.
  pose proof (u32_range (le_dec bs)). unfold is_u32 in *. cbv zeta.
  destruct (Z.ltb_spec (u32 (le_dec bs)) 2147483648); lia.
Qed.
Next Obligation.
  intros z Hz. rewrite le_dec_enc by apply u32_range. unfold i32.
  rewrite (u32_id (u32 z)) by apply u32_range. cbv zeta. unfold u32.
  destruct (Z.ltb_spec (z mod 4294967296) 2147483648); Z.div_mod_to_equations; lia.
Qed.
Next Obligation.
  intros bs Hl Hb. pose proof (le_dec_bound bs Hb) as H. rewrite Hl in H.
  change (256 ^ Z.of_nat 4) with 4294967296 in H.
  assert (u32 (i32 (le_dec bs)) = le_dec bs) as ->.
  { unfold i32. rewrite (u32_id (le_dec bs)) by (unfold is_u32; lia). cbv zeta. unfold u32.
    destruct (Z.ltb_spec (le_dec bs) 2147483648); Z.div_mod_to_equations; lia. }
  rewrite <-Hl. by apply le_enc_dec.
Qed.

Program Definition c_bytes (n : nat) : codec bytes := {|
  c_size := n;
  c_enc := fun bs => bs;
  c_dec := fun bs => bs;
  c_wf := fun bs => length bs = n /\ Forall is_u8 bs;
|}.
Solve All Obligations with (simpl; tauto).

(** ** Structures and arrays *)

Section pair.
Context {A B : Type} (ca : codec A) (cb : codec B).

Program Definition c_pair : codec (A * B) := {|
  c_size := c_size ca + c_size cb;
  c_enc := fun '(a, b) => c_enc ca a ++ c_enc cb b;
  c_dec := fun bs => (c_dec ca (take (c_size ca) bs), c_dec cb (drop (c_size ca) bs));
  c_wf := fun '(a, b) => c_wf ca a /\ c_wf cb b;
|}.
Next Obligation.
  intros [a b] [Ha Hb]. simpl. by rewrite length_app, !c_enc_length.
Qed.
Next Obligation. intros [a b] [Ha Hb]. simpl. apply Forall_app_2; by apply c_enc_bytes. Qed.
Next Obligation.
  intros bs Hl Hb. simpl. split; apply c_dec_wf.
  - rewrite length_take. lia.
  - by apply Forall_take.
  - rewrite length_drop. lia.
  - by apply Forall_drop.
Qed.
Next Obligation.
  intros [a b] [Ha Hb]. simpl.
  rewrite take_app_length', drop_app_length' by (by rewrite c_enc_length).
  by rewrite !c_dec_enc.
Qed.
Next Obligation.
  intros bs Hl Hb. simpl. rewrite !c_enc_dec.
  - apply take_drop.
  - rewrite length_drop. lia.
  - by apply Forall_drop.
  - rewrite length_take. lia.
  - by apply Forall_take.
Qed.
End pair.

Section array.
Context {A : Type} (ca : codec A).

Fixpoint array_dec (n : nat) (bs : bytes) : list A :=
  match n with
  | O => []
  | S n => c_dec ca (take (c_size ca) bs) :: array_dec n (drop (c_size ca) bs)
  end.

Definition array_enc (l : list A) : bytes := concat (map (c_enc ca) l).

Lemma length_array_enc l :
  Forall (c_wf ca) l -> length (array_enc l) = (length l * c_size ca)%nat.
Proof.
  induction 1 as [|a l Ha _ IH]; [done|]. unfold array_enc in *. simpl.
  by rewrite length_app, c_enc_length, IH.
Qed.

Lemma array_enc_bytes l : Forall (c_wf ca) l -> Forall is_u8 (array_enc l).
Proof.
  induction 1 as [|a l Ha _ IH]; [constructor|]. unfold array_enc in *. simpl.
  apply Forall_app_2; [by apply c_enc_bytes|done].
Qed.

Lemma array_dec_wf n bs :
  length bs = (n * c_size ca)%nat -> Forall is_u8 bs ->
  length (array_dec n bs) = n /\ Forall (c_wf ca) (array_dec n bs).
Proof.
  revert bs; induction n as [|n IH]; intros bs Hl Hb; simpl; [by split|].
  simpl in Hl. destruct (IH (drop (c_size ca) bs)) as [H1 H2].
  - rewrite length_drop. lia.
  - by apply Forall_drop.
  - split; [by rewrite H1|]. constructor; [|done].
    apply c_dec_wf; [rewrite length_take; lia|by apply Forall_take].
Qed.

Lemma array_dec_enc l : Forall (c_wf ca) l -> array_dec (length l) (array_enc l) = l.
Proof.
  induction 1 as [|a l Ha _ IH]; [done|]. unfold array_enc in *. simpl.
  rewrite take_app_length', drop_app_length' by (by rewrite c_enc_length).
  by rewrite c_dec_enc, IH.
Qed.

Lemma array_enc_dec n bs :
  length bs = (n * c_size ca)%nat -> Forall is_u8 bs -> array_enc (array_dec n bs) = bs.
Proof.
  revert bs; induction n as [|n IH]; intros bs Hl Hb; simpl.
  - by destruct bs.
  - simpl in Hl. unfold array_enc in *. simpl. rewrite IH, c_enc_dec.
    + apply take_drop.
    + rewrite length_take. lia.
    + by apply Forall_take.
    + rewrite length_drop. lia.
    + by apply Forall_drop.
Qed.

Program Definition c_array (n : nat) : codec (list A) := {|
  c_size := n * c_size ca;
  c_enc := array_enc;
  c_dec := array_dec n;
  c_wf := fun l => length l = n /\ Forall (c_wf ca) l;
|}.
Next Obligation. intros n l [<- Hl]. by apply length_array_enc. Qed.
Next Obligation. intros n l [<- Hl]. by apply array_enc_bytes. Qed.
Next Obligation. intros n bs Hl Hb. by apply array_dec_wf. Qed.
Next Obligation. intros n l [<- Hl]. by apply array_dec_enc. Qed.
Next Obligation. intros n bs Hl Hb. by apply array_enc_dec. Qed.
End array.

(** A structure is its tuple of fields up to a bijection. *)
Section iso.
Context {A B : Type} (ca : codec A) (to : A -> B) (from : B -> A).
Context (to_from : forall b, to (from b) = b) (from_to : forall a, from (to a) = a).

Program Definition c_iso : codec B := {|
  c_size := c_size ca;
  c_enc := fun b => c_enc ca (from b);
  c_dec := fun bs => to (c_dec ca bs);
  c_wf := fun b => c_wf ca (from b);
|}.
Next Obligation. intros. by apply c_enc_length. Qed.
Next Obligation. intros. by apply c_enc_bytes. Qed.
Next Obligation. intros. cbn beta. rewrite from_to. by apply c_dec_wf. Qed.
Next Obligation. intros. cbn beta. by rewrite c_dec_enc, to_from. Qed.
Next Obligation. intros. cbn beta. by rewrite from_to, c_enc_dec. Qed.
End iso.

Arguments c_le : simpl never.
Arguments c_i32 : simpl never.
Arguments c_bytes : simpl never.
Arguments c_pair : simpl never.
Arguments c_array : simpl never.
Arguments c_iso : simpl never.

(** A snapshot is a payload followed by a 32-bit checksum of its bytes: the
    bytes before the checksum field are a prefix of the image. *)
Definition prefix_before_crc {A} (c : codec A) (a : A) : bytes :=
  take (c_size c - 4) (c_enc c a).

Lemma prefix_bytes {A} (c : codec A) a : c_wf c a -> Forall is_u8 (prefix_before_crc c a).
Proof. intros Ha. by apply Forall_take, c_enc_bytes. Qed.

(** The checksummed prefix does not depend on the checksum field. *)
Lemma prefix_crc_field x y : prefix_before_crc c_u32 x = prefix_before_crc c_u32 y.
Proof. reflexivity. Qed.

Lemma prefix_pair {A B} (ca : codec A) (cb : codec B) a x y :
  c_wf ca a -> (4 <= c_size cb)%nat ->
  prefix_before_crc cb x = prefix_before_crc cb y ->
  prefix_before_crc (c_pair ca cb) (a, x) = prefix_before_crc (c_pair ca cb) (a, y).
Proof.
  intros Ha Hs E. unfold prefix_before_crc in *.
  unfold c_pair. cbn [c_size c_enc].
  rewrite !take_app, c_enc_length by done. f_equal.
  by replace (c_size ca + c_size cb - 4 - c_size ca)%nat with (c_size cb - 4)%nat by lia.
Qed.

Declare Scope codec_scope.
Delimit Scope codec_scope with codec.
Infix "**" := c_pair (at level 39, right associativity) : codec_scope.
