(* ===== verification/Crc.v ===== *)
(** The CRC-32 that guards every persisted record.

    [healthCheckConfig_Crc], [healthCheckLog_Crc], [callbackConfig_Crc],
    [userStore_Crc], [tlsTrustStore_Crc] and [tlsServerCredentials_Crc] are the
    same bitwise loop (reflected polynomial 0xEDB88320, initial register and
    final complement 0xFFFFFFFF); [crc32] translates it once.  The theorems say
    what the checksum promises the stores: it is a 32-bit value, and two images
    of the same length that differ in a single byte never have the same
    checksum. *)
From S2P Require Import Prelude.

(** [crc = (crc >> 1U) ^ ((crc & 1U) ? 0xEDB88320UL : 0U)] *)
Definition crc_bit (r : Z) : Z :=
  Z.lxor (Z.shiftr r 1) (if Z.land r 1 =? 0 then 0 else 0xEDB88320).

(** [crc ^= *bytes++], then eight rounds of [crc_bit]. *)
Definition crc_byte (r b : Z) : Z := Nat.iter 8 crc_bit (Z.lxor r b).

(** Conversion unfolds a byte round before the bit rounds inside it. *)
#[global] Strategy -100 [crc_byte].
#[global] Strategy 100 [crc_bit].
Arguments crc_byte : simpl never.
Arguments crc_bit : simpl never.

Definition crc_run (r : Z) (bs : bytes) : Z := fold_left crc_byte bs r.

(** [return ~crc], on a [uint32_t]. *)
Definition crc32 (bs : bytes) : Z := Z.lxor (crc_run 0xFFFFFFFF bs) 0xFFFFFFFF.

(** The check value of the CRC-32 catalogue: CRC-32 of "123456789". *)
Example crc32_check : crc32 (str "123456789") = 0xCBF43926.
Proof. vm_compute. reflexivity. Qed.

(** Stated for any function, so that the kernel never compares a register with
    its update. *)
Lemma fold_left_cons {A B} (f : A -> B -> A) b bs r :
  fold_left f (b :: bs) r = fold_left f bs (f r b).
Proof. reflexivity. Qed.

Lemma crc_run_cons r b bs : crc_run r (b :: bs) = crc_run (crc_byte r b) bs.
Proof. apply fold_left_cons. Qed.

(** ** Range *)

Lemma is_u32_testbit z :
  is_u32 z <-> 0 <= z /\ forall i, 32 <= i -> Z.testbit z i = false.
Proof.
  unfold is_u32. split.
  - intros Hz. split; [lia|]. intros i Hi.
    destruct (Z.eq_dec z 0) as [->|]; [apply Z.bits_0|].
    apply Z.bits_above_log2; [lia|]. apply Z.log2_lt_pow2; [lia|].
    apply Z.lt_le_trans with (2 ^ 32); [lia|]. apply Z.pow_le_mono_r; lia.
  - intros [Hz Hb]. split; [done|].
    destruct (Z.eq_dec z 0) as [->|]; [lia|].
    change 4294967296 with (2 ^ 32). apply Z.log2_lt_pow2; [lia|].
    destruct (Z.lt_ge_cases (Z.log2 z) 32); [done|].
    specialize (Hb (Z.log2 z)). rewrite Z.bit_log2 in Hb by lia. naive_solver.
Qed.

Lemma lxor_u32 a b : is_u32 a -> is_u32 b -> is_u32 (Z.lxor a b).
Proof.
  rewrite !is_u32_testbit. intros [Ha Ha'] [Hb Hb']. split.
  - by apply Z.lxor_nonneg.
  - intros i Hi. by rewrite Z.lxor_spec, Ha', Hb' by done.
Qed.

Lemma u8_u32 b : is_u8 b -> is_u32 b.
Proof. unfold is_u8, is_u32. lia. Qed.

Lemma crc_bit_u32 r : is_u32 r -> is_u32 (crc_bit r).
Proof.
  intros Hr. unfold crc_bit. apply lxor_u32.
  - rewrite Z.shiftr_div_pow2 by lia. unfold is_u32 in *. change (2 ^ 1) with 2. word.
  - destruct (Z.land r 1 =? 0); unfold is_u32; lia.
Qed.

Lemma iter_crc_bit_u32 n r : is_u32 r -> is_u32 (Nat.iter n crc_bit r).
Proof. intros Hr. induction n as [|n IH]; simpl; [done|by apply crc_bit_u32]. Qed.

Lemma crc_byte_u32 r b : is_u32 r -> is_u8 b -> is_u32 (crc_byte r b).
Proof.
  intros Hr Hb. unfold crc_byte. apply (iter_crc_bit_u32 8), lxor_u32; [done|by apply u8_u32].
Qed.

Lemma crc_run_u32 r bs : is_u32 r -> Forall is_u8 bs -> is_u32 (crc_run r bs).
Proof.
  intros Hr Hb. revert r Hr. induction Hb as [|b bs Hb _ IH]; intros r Hr; [done|].
  rewrite crc_run_cons. by apply IH, crc_byte_u32.
Qed.

Lemma crc32_u32 bs : Forall is_u8 bs -> is_u32 (crc32 bs).
Proof.
  intros Hb. apply lxor_u32; [apply crc_run_u32|]; [unfold is_u32; lia|done|unfold is_u32; lia].
Qed.

(** ** Injectivity of the register update

    The feedback polynomial has bit 31 set, so the bit shifted out can be read
    back from bit 31 of the result: every round is a bijection of the 32-bit
    register. *)

Lemma crc_bit_31 r : is_u32 r -> Z.testbit (crc_bit r) 31 = negb (Z.land r 1 =? 0).
Proof.
  intros Hr. apply is_u32_testbit in Hr as [Hr Hb]. unfold crc_bit.
  rewrite Z.lxor_spec, Z.shiftr_spec by lia. rewrite Hb by lia.
  destruct (Z.land r 1 =? 0); reflexivity.
Qed.

Lemma land_1_odd r : Z.land r 1 = r mod 2.
Proof. change 1 with (Z.ones 1). by rewrite Z.land_ones by lia. Qed.

Lemma crc_bit_inj r1 r2 : is_u32 r1 -> is_u32 r2 -> crc_bit r1 = crc_bit r2 -> r1 = r2.
Proof.
  intros H1 H2 E.
  assert ((Z.land r1 1 =? 0) = (Z.land r2 1 =? 0)) as Ep.
  { apply (f_equal (fun z => Z.testbit z 31)) in E. rewrite !crc_bit_31 in E by done.
    by destruct (Z.land r1 1 =? 0), (Z.land r2 1 =? 0). }
  unfold crc_bit in E. rewrite Ep in E.
  assert (Z.shiftr r1 1 = Z.shiftr r2 1) as Es.
  { remember (if Z.land r2 1 =? 0 then _ else _) as k eqn:Hk. clear Hk Ep.
    apply (f_equal (fun z => Z.lxor z k)) in E.
    by rewrite !Z.lxor_assoc, Z.lxor_nilpotent, !Z.lxor_0_r in E. }
  rewrite !Z.shiftr_div_pow2 in Es by lia. change (2 ^ 1) with 2 in Es.
  rewrite !land_1_odd in Ep. unfold is_u32 in *.
  destruct (Z.eqb_spec (r1 mod 2) 0), (Z.eqb_spec (r2 mod 2) 0); try done;
    Z.div_mod_to_equations; lia.
Qed.

Lemma iter_crc_bit_inj n r1 r2 :
  is_u32 r1 -> is_u32 r2 -> Nat.iter n crc_bit r1 = Nat.iter n crc_bit r2 -> r1 = r2.
Proof.
  intros H1 H2. induction n as [|n IH]; simpl; [done|]. intros E. apply IH.
  apply crc_bit_inj in E; [done|by apply iter_crc_bit_u32..].
Qed.

Lemma lxor_cancel_r a b k : Z.lxor a k = Z.lxor b k -> a = b.
Proof.
  intros E. apply (f_equal (fun z => Z.lxor z k)) in E.
  by rewrite !Z.lxor_assoc, Z.lxor_nilpotent, !Z.lxor_0_r in E.
Qed.

Lemma crc_byte_inj_reg r1 r2 b :
  is_u32 r1 -> is_u32 r2 -> is_u8 b -> crc_byte r1 b = crc_byte r2 b -> r1 = r2.
Proof.
  intros H1 H2 Hb E. unfold crc_byte in E. apply (iter_crc_bit_inj 8) in E.
  - by apply lxor_cancel_r in E.
  - apply lxor_u32; [done|by apply u8_u32].
  - apply lxor_u32; [done|by apply u8_u32].
Qed.

Lemma crc_byte_inj_byte r b1 b2 :
  is_u32 r -> is_u8 b1 -> is_u8 b2 -> crc_byte r b1 = crc_byte r b2 -> b1 = b2.
Proof.
  intros Hr H1 H2 E. unfold crc_byte in E. apply (iter_crc_bit_inj 8) in E.
  - rewrite !(Z.lxor_comm r) in E. by apply lxor_cancel_r in E.
  - apply lxor_u32; [done|by apply u8_u32].
  - apply lxor_u32; [done|by apply u8_u32].
Qed.

Lemma crc_run_inj_reg bs r1 r2 :
  is_u32 r1 -> is_u32 r2 -> Forall is_u8 bs -> crc_run r1 bs = crc_run r2 bs -> r1 = r2.
Proof.
  intros H1 H2 Hb. revert r1 r2 H1 H2.
  induction Hb as [|b bs Hb _ IH]; intros r1 r2 H1 H2; [done|]. rewrite !crc_run_cons. intros E.
  apply IH in E; [|by apply crc_byte_u32..]. by apply crc_byte_inj_reg in E.
Qed.

Lemma crc_run_app r xs ys : crc_run r (xs ++ ys) = crc_run (crc_run r xs) ys.
Proof. apply fold_left_app. Qed.

Lemma crc32_inj_run bs1 bs2 :
  crc32 bs1 = crc32 bs2 -> crc_run 0xFFFFFFFF bs1 = crc_run 0xFFFFFFFF bs2.
Proof. apply lxor_cancel_r. Qed.

(** The checksum detects every corruption confined to one byte: images
    that differ exactly in the byte between [pre] and [post] have different
    CRC-32 values. *)
Lemma crc32_detects_byte pre post b1 b2 :
  Forall is_u8 pre -> Forall is_u8 post -> is_u8 b1 -> is_u8 b2 -> b1 <> b2 ->
  crc32 (pre ++ b1 :: post) <> crc32 (pre ++ b2 :: post).
Proof.
  intros Hpre Hpost H1 H2 Hne E. apply crc32_inj_run in E.
  rewrite !crc_run_app in E. set (r := crc_run _ pre) in E.
  assert (is_u32 r) by (apply crc_run_u32; [unfold is_u32; lia|done]).
  rewrite !crc_run_cons in E.
  apply crc_run_inj_reg in E; [|by apply crc_byte_u32..|done].
  by apply crc_byte_inj_byte in E.
Qed.

Lemma crc32_detects_byte_witness :
  crc32 ([1; 2] ++ 3 :: [4]) <> crc32 ([1; 2] ++ 7 :: [4]).
Proof.
  apply (crc32_detects_byte [1; 2] [4] 3 7); repeat constructor; unfold is_u8; lia.
Defined.

(** Checksums are computed by [vm_compute] only: conversion in the stores'
    proofs never unfolds them. *)
#[global] Opaque crc32.
