(* ===== verification/NorFlash.v ===== *)
(** The contract between the NOR Flash driver and the persistent stores.

    [Flash] is the interface of [Periph/Inc/w25q64.h] as the stores use it, and
    [FlashLaws] what the driver promises: a successful read returns the array,
    a successful erase or program has its NOR effect (bits to one in the
    sector, bitwise AND in the range), and an operation that fails (or is cut
    by a power loss) has touched nothing outside its own range.  [W25q64.v]
    proves that the driver keeps this promise; the stores are proved against
    the class.  [simflash] is an executable instance with injected faults. *)
From S2P Require Import Prelude.

(** [W25Q64_StatusTypeDef] *)
Inductive W25Q64_StatusTypeDef :=
  | W25Q64_STATUS_OK
  | W25Q64_STATUS_INVALID_ARGUMENT
  | W25Q64_STATUS_IO_ERROR
  | W25Q64_STATUS_TIMEOUT
  | W25Q64_STATUS_UNAVAILABLE.

#[global] Instance W25Q64_Status_eq_dec : EqDecision W25Q64_StatusTypeDef.
Proof. solve_decision. Defined.

Definition flash_ok (s : W25Q64_StatusTypeDef) : bool := bool_decide (s = W25Q64_STATUS_OK).

Lemma flash_ok_true s : flash_ok s = true <-> s = W25Q64_STATUS_OK.
Proof. apply bool_decide_eq_true. Qed.
Lemma flash_ok_false s : flash_ok s = false <-> s <> W25Q64_STATUS_OK.
Proof. apply bool_decide_eq_false. Qed.

(** [HealthCheck_StatusTypeDef] *)
Inductive HealthCheck_StatusTypeDef :=
  | HEALTH_CHECK_STATUS_OK
  | HEALTH_CHECK_STATUS_ERROR.

#[global] Instance HealthCheck_Status_eq_dec : EqDecision HealthCheck_StatusTypeDef.
Proof. solve_decision. Defined.

Definition W25Q64_CAPACITY_BYTES : Z := 8 * 1024 * 1024.
Definition W25Q64_SECTOR_SIZE : Z := 4096.
Definition W25Q64_PAGE_SIZE : Z := 256.

(** Linear arithmetic with the geometry of the device unfolded. *)
Ltac flia := unfold W25Q64_CAPACITY_BYTES, W25Q64_SECTOR_SIZE, W25Q64_PAGE_SIZE in *; lia.

(** ** The array *)

Definition mem : Type := Z -> Z.

Definition in_range (a len x : Z) : bool := (a <=? x) && (x <? a + len).

Lemma in_range_true a len x : in_range a len x = true <-> a <= x < a + len.
Proof. unfold in_range. rewrite andb_true_iff, Z.leb_le, Z.ltb_lt. done. Qed.
Lemma in_range_false a len x : in_range a len x = false <-> ~ (a <= x < a + len).
Proof. rewrite <-in_range_true. destruct (in_range a len x); naive_solver. Qed.

(** The [n] bytes from address [a]. *)
Fixpoint slice (m : mem) (a : Z) (n : nat) : bytes :=
  match n with
  | O => []
  | S n => m a :: slice m (a + 1) n
  end.

(** Erasing sets every bit of the range. *)
Definition mem_erase (m : mem) (a len : Z) : mem :=
  fun x => if in_range a len x then 255 else m x.

(** Programming can only clear bits. *)
Definition mem_program (m : mem) (a : Z) (bs : bytes) : mem :=
  fun x => if in_range a (Z.of_nat (length bs)) x
           then Z.land (m x) (nth (Z.to_nat (x - a)) bs 255) else m x.

Definition same_outside (m m' : mem) (a len : Z) : Prop :=
  forall x, ~ (a <= x < a + len) -> m' x = m x.

Definition mem_eq (m m' : mem) : Prop := forall x, m x = m' x.

#[global] Instance mem_eq_equiv : Equivalence mem_eq.
Proof.
  split.
  - by intros m x.
  - by intros m m' H x.
  - intros m1 m2 m3 H1 H2 x. by rewrite H1.
Qed.

#[global] Instance slice_proper : Proper (mem_eq ==> eq ==> eq ==> eq) slice.
Proof.
  intros m m' Hm a ? <- n ? <-. revert a.
  induction n as [|n IH]; intros a; simpl; [done|]. by rewrite Hm, IH.
Qed.

Lemma length_slice m a n : length (slice m a n) = n.
Proof. revert a; induction n as [|n IH]; intros a; simpl; [done|by rewrite IH]. Qed.

Lemma slice_bytes m a n : (forall x, is_u8 (m x)) -> Forall is_u8 (slice m a n).
Proof. intros H. revert a; induction n as [|n IH]; intros a; simpl; by constructor. Qed.

Lemma slice_ext m m' a n :
  (forall x, a <= x < a + Z.of_nat n -> m' x = m x) -> slice m' a n = slice m a n.
Proof.
  revert a; induction n as [|n IH]; intros a H; simpl; [done|].
  rewrite H by lia. f_equal. apply IH. intros x Hx. apply H. lia.
Qed.

(** Two ranges with no common address. *)
Definition disjoint_ranges (a la b lb : Z) : Prop := a + la <= b \/ b + lb <= a.

Lemma slice_same_outside m m' t len a n :
  same_outside m m' t len -> disjoint_ranges a (Z.of_nat n) t len ->
  slice m' a n = slice m a n.
Proof. intros H Hd. apply slice_ext. intros x Hx. apply H. unfold disjoint_ranges in Hd. lia. Qed.

Lemma same_outside_refl m a len : same_outside m m a len.
Proof. by intros x _. Qed.

Lemma same_outside_trans m1 m2 m3 a len :
  same_outside m1 m2 a len -> same_outside m2 m3 a len -> same_outside m1 m3 a len.
Proof. intros H1 H2 x Hx. by rewrite H2, H1. Qed.

Lemma same_outside_weaken m m' a la b lb :
  same_outside m m' a la -> b <= a -> a + la <= b + lb -> same_outside m m' b lb.
Proof. intros H Hl Hr x Hx. apply H. lia. Qed.

Lemma land_255_byte b : is_u8 b -> Z.land 255 b = b.
Proof.
  intros Hb. rewrite Z.land_comm. change 255 with (Z.ones 8).
  rewrite Z.land_ones by lia. by apply Z.mod_small.
Qed.

(** Programming an erased range stores exactly the data. *)
Lemma slice_program m a bs :
  (forall x, a <= x < a + Z.of_nat (length bs) -> m x = 255) -> Forall is_u8 bs ->
  slice (mem_program m a bs) a (length bs) = bs.
Proof.
  intros Hm Hb.
  enough (forall k, (k <= length bs)%nat ->
    slice (mem_program m a bs) (a + Z.of_nat k) (length bs - k) = drop k bs) as H.
  { specialize (H 0%nat). rewrite Nat.sub_0_r, Z.add_0_r in H. apply H. lia. }
  intros k Hk. remember (length bs - k)%nat as n eqn:Hn. revert k Hk Hn.
  induction n as [|n IH]; intros k Hk Hn.
  - simpl. by rewrite drop_ge by lia.
  - simpl. replace (a + Z.of_nat k + 1) with (a + Z.of_nat (S k)) by lia.
    rewrite IH by lia. destruct (lookup_lt_is_Some_2 bs k) as [b Hkb]; [lia|].
    rewrite (drop_S _ _ _ Hkb). f_equal. unfold mem_program.
    rewrite (proj2 (in_range_true _ _ _)), Hm by lia.
    replace (Z.to_nat (a + Z.of_nat k - a)) with k by lia.
    rewrite (nth_lookup_Some _ _ _ _ Hkb).
    apply land_255_byte. by eapply Forall_lookup_1.
Qed.

Lemma slice_erase m a len b n :
  a <= b -> b + Z.of_nat n <= a + len -> slice (mem_erase m a len) b n = replicate n 255.
Proof.
  revert b; induction n as [|n IH]; intros b Ha Hl; simpl; [done|].
  rewrite IH by lia. f_equal. unfold mem_erase. by rewrite (proj2 (in_range_true _ _ _)) by lia.
Qed.

(** ** The interface *)

(** [w25q64_IsRangeValid], with its unsigned arguments: [length] is a
    [size_t], [address] a [uint32_t]. *)
Definition w25q64_IsRangeValid (address length : Z) : bool :=
  negb (length =? 0) && (length <=? W25Q64_CAPACITY_BYTES)
  && (address <=? W25Q64_CAPACITY_BYTES - length).

(** Arguments [W25Q64_EraseSector] accepts. *)
Definition sector_valid (address : Z) : bool :=
  (address <? W25Q64_CAPACITY_BYTES) && (address mod W25Q64_SECTOR_SIZE =? 0).

(** Arguments [W25Q64_EraseRange] accepts. *)
Definition erase_range_valid (address length : Z) : bool :=
  negb (length =? 0) && (address mod W25Q64_SECTOR_SIZE =? 0)
  && (length mod W25Q64_SECTOR_SIZE =? 0) && w25q64_IsRangeValid address length.

Class Flash (F : Type) := {
  fl_mem : F -> mem;
  W25Q64_Read : F -> Z -> nat -> F * W25Q64_StatusTypeDef * bytes;
  W25Q64_EraseSector : F -> Z -> F * W25Q64_StatusTypeDef;
  W25Q64_EraseRange : F -> Z -> Z -> F * W25Q64_StatusTypeDef;
  W25Q64_Program : F -> Z -> bytes -> F * W25Q64_StatusTypeDef;
  (** The device answers: no SPI or lock failure is ahead. *)
  fl_ready : F -> Prop;
}.

(** What a top-down erase of whole sectors that stopped early has left: the
    sectors above [c] erased, the sector at [c] in any state, everything else
    as it was. *)
Definition erased_down_to (m m' : mem) (a len c : Z) : Prop :=
  a <= c < a + len /\ (c - a) mod W25Q64_SECTOR_SIZE = 0
  /\ (forall x, c + W25Q64_SECTOR_SIZE <= x < a + len -> m' x = 255)
  /\ (forall x, x < c \/ a + len <= x -> m' x = m x).

Class FlashLaws (F : Type) `{Flash F} := {
  fl_mem_byte : forall f x, is_u8 (fl_mem f x);
  read_mem : forall f a n f' s d,
    W25Q64_Read f a n = (f', s, d) -> mem_eq (fl_mem f') (fl_mem f);
  (** The destination buffer afterwards, whatever the status. *)
  read_buffer : forall f a n f' s d,
    W25Q64_Read f a n = (f', s, d) -> length d = n /\ Forall is_u8 d;
  read_ok : forall f a n f' d,
    0 <= a -> W25Q64_Read f a n = (f', W25Q64_STATUS_OK, d) -> d = slice (fl_mem f) a n;
  erase_outside : forall f a f' s,
    0 <= a -> W25Q64_EraseSector f a = (f', s) ->
    same_outside (fl_mem f) (fl_mem f') a W25Q64_SECTOR_SIZE;
  erase_ok : forall f a f',
    0 <= a -> W25Q64_EraseSector f a = (f', W25Q64_STATUS_OK) ->
    mem_eq (fl_mem f') (mem_erase (fl_mem f) a W25Q64_SECTOR_SIZE);
  program_outside : forall f a bs f' s,
    0 <= a -> W25Q64_Program f a bs = (f', s) ->
    same_outside (fl_mem f) (fl_mem f') a (Z.of_nat (length bs));
  program_ok : forall f a bs f',
    0 <= a -> Forall is_u8 bs -> W25Q64_Program f a bs = (f', W25Q64_STATUS_OK) ->
    mem_eq (fl_mem f') (mem_program (fl_mem f) a bs);
  erase_range_ok : forall f a len f',
    0 <= a -> 0 <= len -> W25Q64_EraseRange f a len = (f', W25Q64_STATUS_OK) ->
    mem_eq (fl_mem f') (mem_erase (fl_mem f) a len);
  erase_range_failed : forall f a len f' s,
    0 <= a -> 0 <= len -> W25Q64_EraseRange f a len = (f', s) -> s <> W25Q64_STATUS_OK ->
    mem_eq (fl_mem f') (fl_mem f) \/ exists c, erased_down_to (fl_mem f) (fl_mem f') a len c;
  ready_read : forall f a n f' s d,
    fl_ready f -> 0 <= a -> w25q64_IsRangeValid a (Z.of_nat n) = true ->
    W25Q64_Read f a n = (f', s, d) -> s = W25Q64_STATUS_OK /\ fl_ready f';
  ready_erase : forall f a f' s,
    fl_ready f -> 0 <= a -> sector_valid a = true ->
    W25Q64_EraseSector f a = (f', s) -> s = W25Q64_STATUS_OK /\ fl_ready f';
  ready_program : forall f a bs f' s,
    fl_ready f -> 0 <= a -> w25q64_IsRangeValid a (Z.of_nat (length bs)) = true ->
    W25Q64_Program f a bs = (f', s) -> s = W25Q64_STATUS_OK /\ fl_ready f';
  ready_erase_range : forall f a len f' s,
    fl_ready f -> 0 <= a -> 0 <= len -> erase_range_valid a len = true ->
    W25Q64_EraseRange f a len = (f', s) -> s = W25Q64_STATUS_OK /\ fl_ready f';
}.
