(* ===== verification/SimFlash.v ===== *)
(** Erasing a range sector by sector from the top, and an executable Flash.

    [erase_down] is the loop shape of [W25Q64_EraseRange], proved once from the
    contract of a single sector erase.  [simflash] is an in-memory device whose
    operations can be told to fail after any number of bytes; it satisfies
    [FlashLaws] and is the device the concrete instances of the theorems run
    on. *)
From S2P Require Import Prelude NorFlash.

Section erase_down.
Context {F : Type} (memf : F -> mem) (erase1 : F -> Z -> F * W25Q64_StatusTypeDef).
(** Devices that can take a command, and addresses of sectors. *)
Context (good : F -> Prop) (sector : Z -> Prop).
Context (erase1_outside : forall f a f' s, good f -> sector a -> erase1 f a = (f', s) ->
  same_outside (memf f) (memf f') a W25Q64_SECTOR_SIZE).
Context (erase1_ok : forall f a f', good f -> sector a -> erase1 f a = (f', W25Q64_STATUS_OK) ->
  good f' /\ mem_eq (memf f') (mem_erase (memf f) a W25Q64_SECTOR_SIZE)).

(** Erase [n] sectors from [a], the highest first, stopping at a failure. *)
Fixpoint erase_down (f : F) (a : Z) (n : nat) : F * W25Q64_StatusTypeDef :=
  match n with
  | O => (f, W25Q64_STATUS_OK)
  | S n =>
      let '(f, s) := erase1 f (a + Z.of_nat n * W25Q64_SECTOR_SIZE) in
      if flash_ok s then erase_down f a n else (f, s)
  end.

Definition sectors_from (a : Z) (n : nat) : Prop :=
  forall i, (i < n)%nat -> sector (a + Z.of_nat i * W25Q64_SECTOR_SIZE).

Lemma erase_down_ok f a n f' :
  good f -> sectors_from a n -> erase_down f a n = (f', W25Q64_STATUS_OK) ->
  mem_eq (memf f') (mem_erase (memf f) a (Z.of_nat n * W25Q64_SECTOR_SIZE)).
Proof.
  revert f. induction n as [|n IH]; intros f Hg Ha E; cbn [erase_down] in E.
  - injection E as <-. intros x. unfold mem_erase.
    rewrite (proj2 (in_range_false _ _ _)) by flia. done.
  - destruct (erase1 f _) as [f1 s] eqn:E1. destruct (flash_ok s) eqn:Es; [|naive_solver].
    apply flash_ok_true in Es as ->.
    destruct (erase1_ok _ _ _ Hg (Ha n (Nat.lt_succ_diag_r n)) E1) as [Hg1 H1].
    specialize (IH _ Hg1 (fun i Hi => Ha i (le_S _ _ Hi)) E). intros x. rewrite IH.
    unfold mem_erase.
    destruct (in_range a _ x) eqn:Ex; [apply in_range_true in Ex|apply in_range_false in Ex].
    + rewrite (proj2 (in_range_true _ _ _)); [done|flia].
    + rewrite H1. unfold mem_erase.
      destruct (in_range (a + _) _ x) eqn:Ey.
      * apply in_range_true in Ey.
        rewrite (proj2 (in_range_true _ _ _)); [done|flia].
      * apply in_range_false in Ey.
        rewrite (proj2 (in_range_false _ _ _)); [done|flia].
Qed.

Lemma erase_down_good f a n f' :
  good f -> sectors_from a n -> erase_down f a n = (f', W25Q64_STATUS_OK) -> good f'.
Proof.
  revert f. induction n as [|n IH]; intros f Hg Ha E; cbn [erase_down] in E; [naive_solver|].
  destruct (erase1 f _) as [f1 s] eqn:E1. destruct (flash_ok s) eqn:Es; [|naive_solver].
  apply flash_ok_true in Es as ->.
  destruct (erase1_ok _ _ _ Hg (Ha n (Nat.lt_succ_diag_r n)) E1) as [Hg1 _].
  exact (IH _ Hg1 (fun i Hi => Ha i (le_S _ _ Hi)) E).
Qed.

Lemma erase_down_failed f a n f' s :
  good f -> sectors_from a n -> erase_down f a n = (f', s) -> s <> W25Q64_STATUS_OK ->
  exists c, erased_down_to (memf f) (memf f') a (Z.of_nat n * W25Q64_SECTOR_SIZE) c.
Proof.
  revert f. induction n as [|n IH]; intros f Hg Ha E Hs; cbn [erase_down] in E;
    [naive_solver|].
  destruct (erase1 f _) as [f1 s1] eqn:E1.
  pose proof E1 as Hout. apply erase1_outside in Hout; [|done|apply Ha; lia].
  destruct (flash_ok s1) eqn:Es.
  - apply flash_ok_true in Es as ->.
    destruct (erase1_ok _ _ _ Hg (Ha n (Nat.lt_succ_diag_r n)) E1) as [Hg1 H1].
    destruct (IH _ Hg1 (fun i Hi => Ha i (le_S _ _ Hi)) E Hs)
      as (c & Hc & Hm & Herased & Hsame). exists c.
    repeat split; [lia|flia|done| |].
    + intros x Hx. destruct (Z.lt_ge_cases x (a + Z.of_nat n * W25Q64_SECTOR_SIZE)).
      * apply Herased. lia.
      * rewrite Hsame by lia. rewrite H1. unfold mem_erase.
        rewrite (proj2 (in_range_true _ _ _)); [done|flia].
    + intros x Hx. rewrite Hsame by (flia). apply Hout.
      flia.
  - injection E as <- <-. exists (a + Z.of_nat n * W25Q64_SECTOR_SIZE).
    unfold erased_down_to. repeat split.
    + flia.
    + flia.
    + replace (_ - a) with (Z.of_nat n * W25Q64_SECTOR_SIZE) by lia. by apply Z.mod_mul.
    + flia.
    + intros x Hx. apply Hout. flia.
Qed.
End erase_down.

(** The number of sectors of a valid range. *)
Lemma range_sectors a len :
  0 <= len -> erase_range_valid a len = true ->
  Z.of_nat (Z.to_nat (len / W25Q64_SECTOR_SIZE)) * W25Q64_SECTOR_SIZE = len.
Proof.
  intros Hl Ev. unfold erase_range_valid in Ev. unfold W25Q64_SECTOR_SIZE in *.
  rewrite !andb_true_iff in Ev. destruct Ev as [[[_ _] Hm] _]. apply Z.eqb_eq in Hm.
  rewrite Z2Nat.id by word. word.
Qed.

(** ** The simulated device *)

(** The next operations' outcomes: [None] succeeds, [Some k] fails after [k]
    bytes of its effect. An exhausted list only succeeds. *)
Record simflash := SimFlash { sim_mem : mem; sim_faults : list (option nat) }.

Definition sim_view (f : simflash) : mem := fun x => u8 (sim_mem f x).

Definition sim_read (f : simflash) (a : Z) (n : nat) :
    simflash * W25Q64_StatusTypeDef * bytes :=
  let f' := SimFlash (sim_mem f) (tail (sim_faults f)) in
  if w25q64_IsRangeValid a (Z.of_nat n) then
    match head (sim_faults f) with
    | Some (Some _) => (f', W25Q64_STATUS_TIMEOUT, zeros n)
    | _ => (f', W25Q64_STATUS_OK, slice (sim_view f) a n)
    end
  else (f', W25Q64_STATUS_INVALID_ARGUMENT, zeros n).

Definition sim_erase1 (f : simflash) (a : Z) : simflash * W25Q64_StatusTypeDef :=
  match head (sim_faults f) with
  | Some (Some k) =>
      (SimFlash (mem_erase (sim_mem f) a (Z.min (Z.of_nat k) W25Q64_SECTOR_SIZE))
                (tail (sim_faults f)), W25Q64_STATUS_TIMEOUT)
  | _ => (SimFlash (mem_erase (sim_mem f) a W25Q64_SECTOR_SIZE) (tail (sim_faults f)),
          W25Q64_STATUS_OK)
  end.

Definition sim_erase (f : simflash) (a : Z) : simflash * W25Q64_StatusTypeDef :=
  if sector_valid a then sim_erase1 f a else (f, W25Q64_STATUS_INVALID_ARGUMENT).

Definition sim_erase_range (f : simflash) (a len : Z) : simflash * W25Q64_StatusTypeDef :=
  if erase_range_valid a len
  then erase_down sim_erase1 f a (Z.to_nat (len / W25Q64_SECTOR_SIZE))
  else (f, W25Q64_STATUS_INVALID_ARGUMENT).

Definition sim_program (f : simflash) (a : Z) (bs : bytes) : simflash * W25Q64_StatusTypeDef :=
  if w25q64_IsRangeValid a (Z.of_nat (length bs)) then
    match head (sim_faults f) with
    | Some (Some k) =>
        (SimFlash (mem_program (sim_mem f) a (take k bs)) (tail (sim_faults f)),
         W25Q64_STATUS_IO_ERROR)
    | _ => (SimFlash (mem_program (sim_view f) a bs) (tail (sim_faults f)), W25Q64_STATUS_OK)
    end
  else (f, W25Q64_STATUS_INVALID_ARGUMENT).

Definition sim_ready (f : simflash) : Prop := Forall (fun x => x = None) (sim_faults f).

#[global] Instance sim_flash : Flash simflash := {|
  fl_mem := sim_view;
  W25Q64_Read := sim_read;
  W25Q64_EraseSector := sim_erase;
  W25Q64_EraseRange := sim_erase_range;
  W25Q64_Program := sim_program;
  fl_ready := sim_ready;
|}.

Lemma sim_ready_head f : sim_ready f -> head (sim_faults f) = None \/ head (sim_faults f) = Some None.
Proof. unfold sim_ready. destruct (sim_faults f); [by left|]. inversion_clear 1; subst. by right. Qed.

Lemma sim_ready_tail f m : sim_ready f -> sim_ready (SimFlash m (tail (sim_faults f))).
Proof. unfold sim_ready. destruct (sim_faults f); simpl; [done|]. by inversion_clear 1. Qed.

Lemma sim_erase1_outside f a f' s :
  0 <= a -> sim_erase1 f a = (f', s) -> same_outside (sim_view f) (sim_view f') a W25Q64_SECTOR_SIZE.
Proof.
  intros Ha E x Hx. unfold sim_erase1 in E. unfold sim_view.
  destruct (head (sim_faults f)) as [[k|]|]; injection E as <- <-; simpl; unfold mem_erase;
    rewrite (proj2 (in_range_false _ _ _)) by lia; done.
Qed.

Lemma sim_erase1_ok f a f' :
  0 <= a -> sim_erase1 f a = (f', W25Q64_STATUS_OK) ->
  mem_eq (sim_view f') (mem_erase (sim_view f) a W25Q64_SECTOR_SIZE).
Proof.
  intros Ha E x. unfold sim_erase1 in E. unfold sim_view.
  destruct (head (sim_faults f)) as [[k|]|]; [done|..]; injection E as <-; simpl; unfold mem_erase;
    by destruct (in_range _ _ x).
Qed.

Lemma sim_erase_range_ready f a n f' s :
  sim_ready f -> erase_down sim_erase1 f a n = (f', s) -> s = W25Q64_STATUS_OK /\ sim_ready f'.
Proof.
  revert f; induction n as [|n IH]; intros f Hr E; cbn [erase_down] in E; [naive_solver|].
  unfold sim_erase1 in E at 1.
  destruct (sim_ready_head f Hr) as [Eh|Eh]; rewrite Eh in E; cbn in E;
    (eapply IH; [|exact E]); by apply sim_ready_tail.
Qed.

Lemma nth_bytes bs i : Forall is_u8 bs -> is_u8 (nth i bs 255).
Proof.
  intros H. destruct (bs !! i) as [b|] eqn:E.
  - rewrite (nth_lookup_Some _ _ _ _ E). by eapply Forall_lookup_1.
  - rewrite nth_lookup, E. simpl. unfold is_u8. lia.
Qed.

Lemma land_u8 a b : is_u8 b -> is_u8 (Z.land a b).
Proof.
  intros Hb. unfold is_u8 in *. split; [apply Z.land_nonneg; lia|].
  assert (b = Z.land b (Z.ones 8)) as ->.
  { rewrite Z.land_ones by lia. symmetry. by apply Z.mod_small. }
  rewrite Z.land_assoc, Z.land_ones by lia. apply Z.mod_pos_bound. done.
Qed.

#[global] Instance sim_flash_laws : FlashLaws simflash.
Proof.
  split; simpl.
  - intros f x. apply u8_range.
  - intros f a n f' s d E x. unfold sim_read in E.
    destruct (w25q64_IsRangeValid _ _), (head (sim_faults f)) as [[k|]|];
      by injection E as <- <- <-.
  - intros f a n f' s d E. unfold sim_read in E.
    destruct (w25q64_IsRangeValid _ _), (head (sim_faults f)) as [[k|]|];
      injection E as <- <- <-; split;
      first [apply length_zeros|apply zeros_bytes|apply length_slice
            |apply slice_bytes; intros; apply u8_range].
  - intros f a n f' d _ E. unfold sim_read in E.
    destruct (w25q64_IsRangeValid _ _), (head (sim_faults f)) as [[k|]|]; naive_solver.
  - intros f a f' s Ha E. unfold sim_erase in E. destruct (sector_valid a).
    + by eapply sim_erase1_outside.
    + injection E as <- <-. apply same_outside_refl.
  - intros f a f' Ha E. unfold sim_erase in E. destruct (sector_valid a); [|done].
    by eapply sim_erase1_ok.
  - intros f a bs f' s Ha E x Hx. unfold sim_program in E. unfold sim_view.
    destruct (w25q64_IsRangeValid _ _), (head (sim_faults f)) as [[k|]|]; injection E as <- <-;
      simpl; unfold mem_program;
      rewrite ?length_take, ?(proj2 (in_range_false _ _ _)) by lia; unfold sim_view, u8;
      by rewrite ?Zmod_mod.
  - intros f a bs f' Ha Hb E x. unfold sim_program in E. unfold sim_view.
    destruct (w25q64_IsRangeValid _ _), (head (sim_faults f)) as [[k|]|];
      try done; injection E as <-; simpl; unfold mem_program;
      (destruct (in_range _ _ x); [apply u8_id, land_u8, nth_bytes; done|apply Zmod_mod]).
  - intros f a len f' Ha Hl E. unfold sim_erase_range in E.
    destruct (erase_range_valid a len) eqn:Ev; [|done].
    rewrite <-(range_sectors a len Hl Ev).
    eapply (erase_down_ok sim_view sim_erase1 (fun _ => True) (Z.le 0));
      eauto using sim_erase1_ok; intros i _; flia.
  - intros f a len f' s Ha Hl E Hs. unfold sim_erase_range in E.
    destruct (erase_range_valid a len) eqn:Ev; [|injection E as <- <-; by left].
    right. rewrite <-(range_sectors a len Hl Ev).
    eapply (erase_down_failed sim_view sim_erase1 (fun _ => True) (Z.le 0));
      eauto using sim_erase1_outside, sim_erase1_ok; intros i _; flia.
  - intros f a n f' s d Hr Ha Hv E. unfold sim_read in E. rewrite Hv in E.
    destruct (sim_ready_head f Hr) as [Eh|Eh]; rewrite Eh in E; injection E as <- <- <-;
      split; [done|by apply sim_ready_tail|done|by apply sim_ready_tail].
  - intros f a f' s Hr Ha Hv E. unfold sim_erase, sim_erase1 in E. rewrite Hv in E.
    destruct (sim_ready_head f Hr) as [Eh|Eh]; rewrite Eh in E; injection E as <- <-;
      split; [done|by apply sim_ready_tail|done|by apply sim_ready_tail].
  - intros f a bs f' s Hr Ha Hv E. unfold sim_program in E. rewrite Hv in E.
    destruct (sim_ready_head f Hr) as [Eh|Eh]; rewrite Eh in E; injection E as <- <-;
      split; [done|by apply sim_ready_tail|done|by apply sim_ready_tail].
  - intros f a len f' s Hr Ha Hl Hv E. unfold sim_erase_range in E. rewrite Hv in E.
    by eapply sim_erase_range_ready.
Qed.

(** A blank device, every byte erased. *)
Definition blank : simflash := SimFlash (fun _ => 255) [].

Lemma blank_ready : fl_ready blank.
Proof. constructor. Qed.
