(* ===== verification/FlashLayout.v ===== *)
(** [Periph/Inc/flash_layout.h]: the sectors each persistent store owns. *)
From S2P Require Import Prelude NorFlash.

(** The sector [n] places below the top of the device. *)
Definition from_top (n : Z) : Z := W25Q64_CAPACITY_BYTES - n * W25Q64_SECTOR_SIZE.

Definition FLASH_LAYOUT_USER_STORE_SECTOR_A := from_top 2.
Definition FLASH_LAYOUT_USER_STORE_SECTOR_B := from_top 1.
Definition FLASH_LAYOUT_HEALTH_CHECK_CONFIG_SECTOR_A := from_top 4.
Definition FLASH_LAYOUT_HEALTH_CHECK_CONFIG_SECTOR_B := from_top 3.
Definition FLASH_LAYOUT_TLS_SERVER_CREDENTIALS_SECTOR_A := from_top 6.
Definition FLASH_LAYOUT_TLS_SERVER_CREDENTIALS_SECTOR_B := from_top 5.
Definition FLASH_LAYOUT_HEALTH_CHECK_LOG_SECTOR_0 := from_top 8.
Definition FLASH_LAYOUT_HEALTH_CHECK_LOG_SECTOR_1 := from_top 7.
Definition FLASH_LAYOUT_TLS_TRUST_STORE_LEGACY_BANK_A := from_top 12.
Definition FLASH_LAYOUT_TLS_TRUST_STORE_LEGACY_BANK_B := from_top 10.
Definition FLASH_LAYOUT_TLS_TRUST_STORE_LEGACY_BANK_SECTORS : Z := 2.
Definition FLASH_LAYOUT_TLS_TRUST_STORE_BANK_A := from_top 26.
Definition FLASH_LAYOUT_TLS_TRUST_STORE_BANK_B := from_top 22.
Definition FLASH_LAYOUT_TLS_TRUST_STORE_BANK_SECTORS : Z := 4.
Definition FLASH_LAYOUT_FACTORY_RESET_MARKER_SECTOR := from_top 27.
Definition FLASH_LAYOUT_FACTORY_RESET_DATA_START := from_top 26.
Definition FLASH_LAYOUT_FACTORY_RESET_DATA_LENGTH : Z := 26 * W25Q64_SECTOR_SIZE.
Definition FLASH_LAYOUT_CALLBACK_CONFIG_SECTOR_A := from_top 29.
Definition FLASH_LAYOUT_CALLBACK_CONFIG_SECTOR_B := from_top 28.
Definition FLASH_LAYOUT_TLS_TRUST_STORE_PREVIOUS_BANK_A := from_top 18.
Definition FLASH_LAYOUT_TLS_TRUST_STORE_PREVIOUS_BANK_B := from_top 15.
Definition FLASH_LAYOUT_TLS_TRUST_STORE_PREVIOUS_BANK_SECTORS : Z := 3.

(** Every allocation, as (first address, number of sectors). *)
Definition flash_regions : list (Z * Z) := [
  (FLASH_LAYOUT_USER_STORE_SECTOR_A, 1);
  (FLASH_LAYOUT_USER_STORE_SECTOR_B, 1);
  (FLASH_LAYOUT_HEALTH_CHECK_CONFIG_SECTOR_A, 1);
  (FLASH_LAYOUT_HEALTH_CHECK_CONFIG_SECTOR_B, 1);
  (FLASH_LAYOUT_TLS_SERVER_CREDENTIALS_SECTOR_A, 1);
  (FLASH_LAYOUT_TLS_SERVER_CREDENTIALS_SECTOR_B, 1);
  (FLASH_LAYOUT_HEALTH_CHECK_LOG_SECTOR_0, 1);
  (FLASH_LAYOUT_HEALTH_CHECK_LOG_SECTOR_1, 1);
  (FLASH_LAYOUT_TLS_TRUST_STORE_LEGACY_BANK_A, FLASH_LAYOUT_TLS_TRUST_STORE_LEGACY_BANK_SECTORS);
  (FLASH_LAYOUT_TLS_TRUST_STORE_LEGACY_BANK_B, FLASH_LAYOUT_TLS_TRUST_STORE_LEGACY_BANK_SECTORS);
  (FLASH_LAYOUT_TLS_TRUST_STORE_PREVIOUS_BANK_A, FLASH_LAYOUT_TLS_TRUST_STORE_PREVIOUS_BANK_SECTORS);
  (FLASH_LAYOUT_TLS_TRUST_STORE_PREVIOUS_BANK_B, FLASH_LAYOUT_TLS_TRUST_STORE_PREVIOUS_BANK_SECTORS);
  (FLASH_LAYOUT_TLS_TRUST_STORE_BANK_A, FLASH_LAYOUT_TLS_TRUST_STORE_BANK_SECTORS);
  (FLASH_LAYOUT_TLS_TRUST_STORE_BANK_B, FLASH_LAYOUT_TLS_TRUST_STORE_BANK_SECTORS);
  (FLASH_LAYOUT_FACTORY_RESET_MARKER_SECTOR, 1);
  (FLASH_LAYOUT_CALLBACK_CONFIG_SECTOR_A, 1);
  (FLASH_LAYOUT_CALLBACK_CONFIG_SECTOR_B, 1) ].

(** Ranges a factory reset erases (see [factoryResetService_ErasePersistentState]). *)
Definition reset_ranges : list (Z * Z) := [
  (FLASH_LAYOUT_CALLBACK_CONFIG_SECTOR_A, W25Q64_SECTOR_SIZE);
  (FLASH_LAYOUT_CALLBACK_CONFIG_SECTOR_B, W25Q64_SECTOR_SIZE);
  (FLASH_LAYOUT_FACTORY_RESET_MARKER_SECTOR,
   FLASH_LAYOUT_FACTORY_RESET_DATA_LENGTH + W25Q64_SECTOR_SIZE) ].

Definition region_ok (r : Z * Z) : bool :=
  (0 <=? r.1) && (r.1 mod W25Q64_SECTOR_SIZE =? 0)
  && (r.1 + r.2 * W25Q64_SECTOR_SIZE <=? W25Q64_CAPACITY_BYTES).

Definition regions_apart (r1 r2 : Z * Z) : bool :=
  (r1.1 + r1.2 * W25Q64_SECTOR_SIZE <=? r2.1) || (r2.1 + r2.2 * W25Q64_SECTOR_SIZE <=? r1.1).

Fixpoint pairwise {A} (p : A -> A -> bool) (l : list A) : bool :=
  match l with
  | [] => true
  | x :: l => forallb (p x) l && pairwise p l
  end.

Lemma pairwise_lookup {A} (p : A -> A -> bool) l i j x y :
  (i < j)%nat -> pairwise p l = true -> l !! i = Some x -> l !! j = Some y -> p x y = true.
Proof.
  revert i j; induction l as [|z l IH]; intros i j Hij H Hi Hj; [done|].
  apply andb_true_iff in H as [H1 H2]. destruct j as [|j]; [lia|].
  destruct i as [|i]; simpl in Hi, Hj.
  - injection Hi as ->. rewrite forallb_forall in H1. apply H1.
    apply list_elem_of_In, list_elem_of_lookup. eauto.
  - eapply IH; [|done..]. lia.
Qed.

(** Flash allocations never overlap: any two distinct regions of the
    layout are sector aligned, inside the device and share no address, and
    every region is inside one of the ranges a factory reset erases. *)
Lemma flash_layout_sound :
  (forall i r, flash_regions !! i = Some r ->
     0 <= r.1 /\ r.1 mod W25Q64_SECTOR_SIZE = 0
     /\ r.1 + r.2 * W25Q64_SECTOR_SIZE <= W25Q64_CAPACITY_BYTES
     /\ exists e, e ∈ reset_ranges /\ e.1 <= r.1 /\ r.1 + r.2 * W25Q64_SECTOR_SIZE <= e.1 + e.2)
  /\ (forall i j r1 r2, i <> j -> flash_regions !! i = Some r1 -> flash_regions !! j = Some r2 ->
     disjoint_ranges r1.1 (r1.2 * W25Q64_SECTOR_SIZE) r2.1 (r2.2 * W25Q64_SECTOR_SIZE)).
Proof.
  split.
  - intros i r Hi.
    assert (forallb (fun r => region_ok r && existsb (fun e =>
      (e.1 <=? r.1) && (r.1 + r.2 * W25Q64_SECTOR_SIZE <=? e.1 + e.2)) reset_ranges)
      flash_regions = true) as H by (vm_compute; reflexivity).
    rewrite forallb_forall in H.
    specialize (H r (proj1 (list_elem_of_In _ _) (list_elem_of_lookup_2 _ _ _ Hi))).
    unfold region_ok in H. rewrite !andb_true_iff, existsb_exists in H.
    destruct H as [[[H1 H2] H3] (e & He & H4)]. apply andb_true_iff in H4 as [H4 H5].
    repeat split; [lia..|]. exists e. split; [by apply list_elem_of_In|lia].
  - assert (pairwise regions_apart flash_regions = true) as H by (vm_compute; reflexivity).
    intros i j r1 r2 Hij Hi Hj. unfold disjoint_ranges.
    destruct (Nat.lt_total i j) as [Hl|[Hl|Hl]]; [|done|].
    + pose proof (pairwise_lookup _ _ _ _ _ _ Hl H Hi Hj) as Hp. unfold regions_apart in Hp. lia.
    + pose proof (pairwise_lookup _ _ _ _ _ _ Hl H Hj Hi) as Hp. unfold regions_apart in Hp. lia.
Qed.

Lemma flash_layout_sound_witness :
  disjoint_ranges FLASH_LAYOUT_USER_STORE_SECTOR_A (1 * W25Q64_SECTOR_SIZE)
    FLASH_LAYOUT_CALLBACK_CONFIG_SECTOR_B (1 * W25Q64_SECTOR_SIZE).
Proof.
  apply (proj2 flash_layout_sound 0%nat 16%nat
    (FLASH_LAYOUT_USER_STORE_SECTOR_A, 1) (FLASH_LAYOUT_CALLBACK_CONFIG_SECTOR_B, 1));
    [done|reflexivity|reflexivity].
Defined.
