(* ===== verification/AbStore.v ===== *)
(** The alternating-snapshot discipline shared by the persistent stores.

    [userStore_Save], [callbackConfig_Save], [healthCheckConfig_Save] and
    [tlsServerCredentials_Save] erase the inactive sector of a pair, program
    the new image, read it back and only then publish it; the [Init] functions
    read both sectors and keep the valid image with the larger generation.
    This file proves, once for all of them, that the pair always holds the
    published image, whatever happened to the other sector. *)
From S2P Require Import Prelude Codec NorFlash.

(** The geometry of a store: two areas of [len] bytes at [A] and [B], apart from
    each other, each large enough for the image, and valid arguments of every
    Flash operation the store performs on them. *)
Class AbPair {S : Type} (cd : codec S) (A B len : Z) : Prop := {
  ab_size_le : Z.of_nat (c_size cd) <= len;
  ab_size_pos : (0 < c_size cd)%nat;
  ab_apart : disjoint_ranges A len B len;
  ab_pos : 0 <= A /\ 0 <= B;
  ab_sectors : sector_valid A = true /\ sector_valid B = true;
  ab_areas : erase_range_valid A len = true /\ erase_range_valid B len = true;
  ab_images : w25q64_IsRangeValid A (Z.of_nat (c_size cd)) = true
    /\ w25q64_IsRangeValid B (Z.of_nat (c_size cd)) = true;
}.

Arguments ab_size_le {S} cd A B len {_}.
Arguments ab_size_pos {S} cd A B len {_}.
Arguments ab_apart {S} cd A B len {_}.
Arguments ab_pos {S} cd A B len {_}.
Arguments ab_sectors {S} cd A B len {_}.
Arguments ab_areas {S} cd A B len {_}.
Arguments ab_images {S} cd A B len {_}.

(** Geometry of concrete stores, by computation. *)
Ltac ab_pair := constructor;
  [ by vm_compute | apply Nat.ltb_lt; by vm_compute
  | unfold disjoint_ranges; rewrite <-!Z.leb_le, <-orb_true_iff; by vm_compute
  | split; by vm_compute .. ].

Section ab.
Context {S : Type} (cd : codec S) (valid : S -> bool) (generation : S -> Z) (A B len : Z).
Context `{!AbPair cd A B len}.

(** The structure a reader of the sector at [addr] sees. *)
Definition image (m : mem) (addr : Z) : S := c_dec cd (slice m addr (c_size cd)).

Definition other (active : Z) : Z := if active =? A then B else A.

(** The choice every [Init] makes between the two images, from their validity
    flags: the first when it is valid and not older, else the second. *)
Definition pick (first second : S) (firstValid secondValid : bool) : option (S * Z) :=
  if firstValid && (negb secondValid || (generation second <=? generation first))
  then Some (first, A)
  else if secondValid then Some (second, B) else None.

Definition choose (first second : S) : option (S * Z) :=
  pick first second (valid first) (valid second).

Definition boot (m : mem) : option (S * Z) := choose (image m A) (image m B).

Lemma ab_ne : A <> B.
Proof.
  pose proof (ab_apart cd A B len). pose proof (ab_size_le cd A B len).
  pose proof (ab_size_pos cd A B len).
  unfold disjoint_ranges in *. lia.
Qed.

Lemma boot_active m snap active : boot m = Some (snap, active) -> active = A \/ active = B.
Proof. clear dependent len. unfold boot, choose, pick. repeat case_match; naive_solver. Qed.

Lemma boot_image m snap active :
  boot m = Some (snap, active) -> image m active = snap /\ valid snap = true.
Proof.
  clear dependent len.
  unfold boot, choose, pick. intros E. destruct (valid (image m A)) eqn:VA; simpl in E.
  - destruct (negb _ || _); [naive_solver|]. destruct (valid (image m B)) eqn:VB; naive_solver.
  - destruct (valid (image m B)) eqn:VB; naive_solver.
Qed.

Lemma image_ext m m' addr :
  (forall x, addr <= x < addr + len -> m' x = m x) -> image m' addr = image m addr.
Proof.
  intros H. unfold image. f_equal. apply slice_ext. intros x Hx. apply H.
  pose proof (ab_size_le cd A B len). lia.
Qed.

(** Writing the inactive sector leaves the active image alone. *)
Lemma image_other m m' active :
  active = A \/ active = B -> same_outside m m' (other active) len ->
  image m' active = image m active.
Proof.
  intros Ha H. apply image_ext. intros x Hx. apply H.
  pose proof (ab_apart cd A B len). unfold other, disjoint_ranges in *.
  pose proof ab_ne. destruct (Z.eqb_spec active A); lia.
Qed.

Lemma boot_sides m active :
  active = A \/ active = B ->
  boot m = choose (if active =? A then image m active else image m (other active))
                  (if active =? A then image m (other active) else image m active).
Proof.
  intros Ha. unfold boot, other. pose proof ab_ne.
  destruct (Z.eqb_spec active A) as [->|]; [done|]. by destruct Ha as [->| ->].
Qed.

(** The invariant of a running store: the sector at [active] holds exactly
    the snapshot in RAM, and that snapshot is valid. *)
Definition holds (m : mem) (snap : S) (active : Z) : Prop :=
  (active = A \/ active = B) /\ image m active = snap /\ valid snap = true.

Lemma boot_holds m snap active : boot m = Some (snap, active) -> holds m snap active.
Proof. intros E. split; [by eapply boot_active|]. by apply boot_image. Qed.

Lemma holds_other m m' snap active :
  holds m snap active -> same_outside m m' (other active) len -> holds m' snap active.
Proof. intros (Ha & Hi & Hv) Ho. by rewrite <-(image_other _ _ _ Ha Ho) in Hi. Qed.

(** Whatever the inactive sector holds, a boot finds the published image,
    unless the inactive sector passes the validity check with a generation
    that is not older. *)
Lemma boot_cases m snap active :
  holds m snap active ->
  boot m = Some (snap, active)
  \/ (valid (image m (other active)) = true
      /\ generation snap <= generation (image m (other active))
      /\ boot m = Some (image m (other active), other active)).
Proof.
  intros (Ha & Hi & Hv). rewrite (boot_sides m active Ha), Hi. unfold choose, pick, other in *.
  destruct (Z.eqb_spec active A) as [->|Hne].
  - rewrite Hv. simpl. destruct (valid (image m B)); simpl; [|by left].
    destruct (Z.leb_spec (generation (image m B)) (generation snap)); [by left|].
    right. repeat split; auto; lia.
  - assert (active = B) as -> by (destruct Ha; congruence). rewrite Hv. simpl.
    destruct (valid (image m A)); simpl; [|by left].
    destruct (Z.leb_spec (generation snap) (generation (image m A))); [|by left].
    by right.
Qed.

(** A newer valid image in the inactive sector is what the next boot loads. *)
Lemma boot_publish m snap active new :
  holds m snap active -> image m (other active) = new -> valid new = true ->
  generation snap < generation new -> boot m = Some (new, other active).
Proof.
  intros Hh Hn Hv Hg. destruct (boot_cases _ _ _ Hh) as [E|(_ & _ & E)]; [|by rewrite Hn in E].
  exfalso. destruct Hh as (Ha & Hi & Hvs). rewrite (boot_sides m active Ha), Hi, Hn in E.
  pose proof ab_ne. unfold choose, pick, other in E.
  destruct (Z.eqb_spec active A) as [->|]; rewrite Hv, Hvs in E; simpl in E.
  - destruct (Z.leb_spec (generation new) (generation snap)); [lia|]. congruence.
  - destruct (Z.leb_spec (generation snap) (generation new)); [|lia]. congruence.
Qed.

(** So is a valid image beside a sector that is not valid. *)
Lemma boot_fresh m active new :
  active = A \/ active = B -> valid (image m active) = false ->
  image m (other active) = new -> valid new = true -> boot m = Some (new, other active).
Proof.
  intros Ha Hi Hn Hv. rewrite (boot_sides m active Ha), Hn. pose proof ab_ne.
  unfold choose, pick, other. destruct (Z.eqb_spec active A) as [->|]; rewrite Hv, Hi; done.
Qed.

(** Damage the validity check does not see: the sector at [addr] passes it,
    but does not hold the image that was being written. *)
Definition undetected (m : mem) (addr : Z) (c : S) : Prop :=
  valid (image m addr) = true /\ image m addr <> c.

(** A write to the inactive sector that was cut short, wherever it stopped,
    leaves the old image or the new one for the next boot. *)
Lemma boot_torn `{EqDecision S} m snap active c :
  holds m snap active ->
  boot m = Some (snap, active) \/ boot m = Some (c, other active)
  \/ undetected m (other active) c.
Proof.
  intros Hh. destruct (boot_cases _ _ _ Hh) as [E|(Hv & _ & E)]; [by left|].
  right. unfold undetected. destruct (decide (image m (other active) = c)) as [<-|]; auto.
Qed.

(** What a start-up may load after a write of [c] to the inactive sector that
    did not report success: the image published before, the image that was
    being written, or else a damaged one, that is an image of the inactive
    sector that passes the validity check, is not older than the published
    one, is not [c], and was not there before the write either if the
    published image was what a start-up loaded then. *)
Definition torn_boot (m m' : mem) (snap : S) (active : Z) (c : S) : Prop :=
  boot m' = Some (snap, active)
  \/ boot m' = Some (c, other active)
  \/ exists x, boot m' = Some (x, other active) /\ image m' (other active) = x
      /\ valid x = true /\ generation snap <= generation x /\ x <> c
      /\ (boot m = Some (snap, active) -> x <> image m (other active)).

Lemma boot_torn_cases `{EqDecision S} m m' snap active c :
  holds m snap active -> same_outside m m' (other active) len -> torn_boot m m' snap active c.
Proof.
  intros Hh Ho. pose proof (holds_other _ _ _ _ Hh Ho) as Hh'. unfold torn_boot.
  destruct (boot_cases _ _ _ Hh') as [E|(Hv & Hg & E)]; [by left|right].
  destruct (decide (image m' (other active) = c)) as [<-|Hc]; [by left|right].
  eexists. do 5 (split; [done|]). intros Hb Hx. destruct Hh as (Ha & Hi & _), Hh' as (_ & Hi' & _).
  rewrite (boot_sides m' active Ha), Hi', Hx, <-Hi, <-(boot_sides m active Ha), Hb in E.
  injection E as _ E. pose proof ab_ne. unfold other in E.
  destruct (Z.eqb_spec active A), Ha; congruence.
Qed.

Lemma boot_none m :
  boot m = None -> forall active, active = A \/ active = B -> valid (image m active) = false.
Proof.
  unfold boot, choose, pick. intros E active Ha.
  destruct (valid (image m A)) eqn:VA, (valid (image m B)) eqn:VB; simpl in E;
    try (destruct (_ <=? _)); try done; by destruct Ha as [->| ->].
Qed.

(** The sector not in use holds no image that a start-up would take for the
    published one: what passes the validity check there is older than a
    published image, and there is no such image when none is published. *)
Definition spare_older (m : mem) (snap : S) (active : Z) : Prop :=
  valid (image m (other active)) = true ->
  valid (image m active) = true /\ generation (image m (other active)) < generation snap.

Lemma boot_spare m snap active :
  holds m snap active -> spare_older m snap active -> boot m = Some (snap, active).
Proof.
  intros Hh Hs. destruct (boot_cases _ _ _ Hh) as [E|(Hv & Hg & _)]; [done|].
  destruct (Hs Hv). lia.
Qed.

Lemma boot_spare_fresh m snap active :
  active = A \/ active = B -> valid (image m active) = false -> spare_older m snap active ->
  boot m = None.
Proof.
  intros Ha Hv Hs. rewrite (boot_sides m active Ha). unfold choose, pick.
  destruct (valid (image m (other active))) eqn:V; [destruct (Hs V); congruence|].
  destruct (active =? A); by rewrite Hv, V.
Qed.

(** Publishing a newer image in the inactive sector makes the old one the spare. *)
Lemma publish_spare m m' active c :
  same_outside m m' (other active) len -> image m' (other active) = c -> valid c = true ->
  (exists snap, holds m snap active /\ generation snap < generation c)
  \/ (active = A \/ active = B) /\ valid (image m active) = false ->
  spare_older m' c (other active).
Proof.
  intros Ho Hi Hok Hs Hv. rewrite Hi. split; [done|].
  assert (active = A \/ active = B) as Hab by (destruct Hs as [(? & [? _] & _)|[? _]]; done).
  assert (other (other active) = active) as Hoo.
  { pose proof ab_ne. unfold other. destruct (Z.eqb_spec active A) as [->|]; [|destruct Hab; [done|]].
    - by destruct (Z.eqb_spec B A).
    - by rewrite Z.eqb_refl. }
  rewrite Hoo, (image_other m m' active Hab Ho) in *.
  destruct Hs as [(snap & (_ & -> & _) & Hg)|[_ Hf]]; [done|congruence].
Qed.

#[export] Instance image_proper : Proper (mem_eq ==> eq ==> eq) image.
Proof. intros m m' Hm a ? <-. unfold image. by rewrite Hm. Qed.

#[export] Instance boot_proper : Proper (mem_eq ==> eq) boot.
Proof. intros m m' Hm. unfold boot. by rewrite Hm. Qed.

Lemma other_in active : other active = A \/ other active = B.
Proof. unfold other. case_match; auto. Qed.
End ab.

(** ** Committing one sector *)

Section commit.
Context {F : Type} `{FlashLaws F}.
Context {S : Type} (cd : codec S) (valid : S -> bool) (generation : S -> Z).
Context (A B : Z) `{!AbPair cd A B W25Q64_SECTOR_SIZE} `{EqDecision S}.

(** [(W25Q64_Read(addr, &x, sizeof(x)) == W25Q64_STATUS_OK) && IsValid(&x)] *)
Definition read_checked (f : F) (addr : Z) : F * S * bool :=
  let '(f, s, d) := W25Q64_Read f addr (c_size cd) in
  (f, c_dec cd d, flash_ok s && valid (c_dec cd d)).

(** The reads every [Init] makes, and its choice. *)
Definition load_newest (f : F) : F * option (S * Z) :=
  let '(f, first, firstValid) := read_checked f A in
  let '(f, second, secondValid) := read_checked f B in
  (f, pick generation A B first second firstValid secondValid).

(** Erase, program, read back and check. *)
Definition ab_commit (f : F) (target : Z) (c : S) : F * HealthCheck_StatusTypeDef :=
  let '(f, s1) := W25Q64_EraseSector f target in
  if negb (flash_ok s1) then (f, HEALTH_CHECK_STATUS_ERROR) else
  let '(f, s2) := W25Q64_Program f target (c_enc cd c) in
  if negb (flash_ok s2) then (f, HEALTH_CHECK_STATUS_ERROR) else
  let '(f, s3, d) := W25Q64_Read f target (c_size cd) in
  let verification := c_dec cd d in
  if negb (flash_ok s3) || negb (valid verification)
     || negb (generation verification =? generation c)
  then (f, HEALTH_CHECK_STATUS_ERROR)
  else (f, HEALTH_CHECK_STATUS_OK).

Lemma ab_commit_outside f target c f' s :
  0 <= target -> c_wf cd c -> ab_commit f target c = (f', s) ->
  same_outside (fl_mem f) (fl_mem f') target W25Q64_SECTOR_SIZE.
Proof.
  intros Ht Hc E. unfold ab_commit in E.
  destruct (W25Q64_EraseSector f target) as [f1 s1] eqn:E1.
  pose proof (erase_outside _ _ _ _ Ht E1) as H1.
  destruct (flash_ok s1); simpl in E; [|by injection E as <- <-].
  destruct (W25Q64_Program f1 target _) as [f2 s2] eqn:E2.
  pose proof (program_outside _ _ _ _ _ Ht E2) as H2. rewrite c_enc_length in H2 by done.
  assert (same_outside (fl_mem f) (fl_mem f2) target W25Q64_SECTOR_SIZE) as H12.
  { eapply same_outside_trans; [done|]. pose proof (ab_size_le cd A B W25Q64_SECTOR_SIZE).
    eapply same_outside_weaken; [done|lia..]. }
  destruct (flash_ok s2); simpl in E; [|by injection E as <- <-].
  destruct (W25Q64_Read f2 target _) as [[f3 s3] d] eqn:E3.
  pose proof (read_mem _ _ _ _ _ _ E3) as H3.
  assert (f' = f3) as -> by (destruct (negb (flash_ok s3) || _ || _); congruence).
  intros x Hx. rewrite H3. by apply H12.
Qed.

(** A successful erase and program leave exactly the image. *)
Lemma commit_slice f target c f1 f2 :
  0 <= target -> c_wf cd c ->
  W25Q64_EraseSector f target = (f1, W25Q64_STATUS_OK) ->
  W25Q64_Program f1 target (c_enc cd c) = (f2, W25Q64_STATUS_OK) ->
  slice (fl_mem f2) target (c_size cd) = c_enc cd c.
Proof.
  intros Ht Hc E1 E2. pose proof (erase_ok _ _ _ Ht E1) as H1.
  rewrite (program_ok _ _ _ _ Ht (c_enc_bytes cd c Hc) E2).
  rewrite <-(c_enc_length cd c Hc) at 1. apply slice_program; [|by apply c_enc_bytes].
  intros x Hx. rewrite c_enc_length in Hx by done. rewrite H1. unfold mem_erase.
  pose proof (ab_size_le cd A B W25Q64_SECTOR_SIZE).
  by rewrite (proj2 (in_range_true _ _ _)) by lia.
Qed.

Lemma ab_commit_ok f target c f' :
  0 <= target -> c_wf cd c -> ab_commit f target c = (f', HEALTH_CHECK_STATUS_OK) ->
  image cd (fl_mem f') target = c /\ valid c = true.
Proof.
  intros Ht Hc E. unfold ab_commit in E.
  destruct (W25Q64_EraseSector f target) as [f1 s1] eqn:E1.
  destruct (flash_ok s1) eqn:S1; simpl in E; [|done]. apply flash_ok_true in S1 as ->.
  destruct (W25Q64_Program f1 target _) as [f2 s2] eqn:E2.
  destruct (flash_ok s2) eqn:S2; simpl in E; [|done]. apply flash_ok_true in S2 as ->.
  destruct (W25Q64_Read f2 target _) as [[f3 s3] d] eqn:E3.
  pose proof (read_mem _ _ _ _ _ _ E3) as H3.
  destruct (flash_ok s3) eqn:S3; simpl in E; [|done]. apply flash_ok_true in S3 as ->.
  pose proof (read_ok _ _ _ _ _ Ht E3) as ->.
  pose proof (commit_slice _ _ _ _ _ Ht Hc E1 E2) as Hs.
  rewrite Hs, c_dec_enc in E by done.
  destruct (valid c) eqn:V; simpl in E; [|done]. split; [|done].
  assert (f' = f3) as -> by (destruct (negb _); congruence).
  unfold image. by rewrite H3, Hs, c_dec_enc.
Qed.

(** *** A commit of the inactive sector of a pair *)

Lemma other_pos active : 0 <= other A B active.
Proof. unfold other. pose proof (ab_pos cd A B W25Q64_SECTOR_SIZE) as []. by case_match. Qed.

Lemma other_valid active :
  sector_valid (other A B active) = true
  /\ w25q64_IsRangeValid (other A B active) (Z.of_nat (c_size cd)) = true.
Proof.
  unfold other. pose proof (ab_sectors cd A B W25Q64_SECTOR_SIZE) as [].
  pose proof (ab_images cd A B W25Q64_SECTOR_SIZE) as []. by case_match.
Qed.

Lemma ab_commit_ready f active c :
  fl_ready f -> c_wf cd c -> valid c = true ->
  exists f', ab_commit f (other A B active) c = (f', HEALTH_CHECK_STATUS_OK) /\ fl_ready f'.
Proof.
  intros Hr Hc V. pose proof (other_pos active) as Ht.
  destruct (other_valid active) as [Hsv Hrv]. unfold ab_commit.
  destruct (W25Q64_EraseSector f _) as [f1 s1] eqn:E1.
  destruct (ready_erase _ _ _ _ Hr Ht Hsv E1) as [-> Hr1].
  destruct (W25Q64_Program f1 _ _) as [f2 s2] eqn:E2.
  rewrite <-(c_enc_length cd c Hc) in Hrv.
  destruct (ready_program _ _ _ _ _ Hr1 Ht Hrv E2) as [-> Hr2].
  rewrite (c_enc_length cd c Hc) in Hrv.
  destruct (W25Q64_Read f2 _ _) as [[f3 s3] d] eqn:E3.
  destruct (ready_read _ _ _ _ _ _ Hr2 Ht Hrv E3) as [-> Hr3].
  pose proof (read_ok _ _ _ _ _ Ht E3) as ->. simpl.
  pose proof (commit_slice _ _ _ _ _ Ht Hc E1 E2) as Hs.
  rewrite Hs, c_dec_enc, V, Z.eqb_refl by done. simpl. eauto.
Qed.

(** The published image is never touched, and a commit that reports success
    leaves a sector that holds the new one. *)
Lemma ab_commit_holds f snap active c f' s :
  holds cd valid A B (fl_mem f) snap active -> c_wf cd c ->
  ab_commit f (other A B active) c = (f', s) ->
  holds cd valid A B (fl_mem f') snap active
  /\ (s = HEALTH_CHECK_STATUS_OK -> holds cd valid A B (fl_mem f') c (other A B active)).
Proof.
  intros Hh Hc E. pose proof E as Ho.
  apply ab_commit_outside in Ho; [|apply other_pos|done]. split.
  - by eapply (holds_other cd valid A B W25Q64_SECTOR_SIZE).
  - intros ->. apply ab_commit_ok in E as [Hi Hv]; [|apply other_pos|done].
    split; [apply other_in|done].
Qed.

(** What the next boot loads: the new image after a success; after a failure
    or a power loss at any point, the old image or the new one. *)
Lemma ab_commit_boot f snap active c f' s :
  holds cd valid A B (fl_mem f) snap active -> c_wf cd c -> generation snap < generation c ->
  ab_commit f (other A B active) c = (f', s) ->
  match s with
  | HEALTH_CHECK_STATUS_OK =>
      boot cd valid generation A B (fl_mem f') = Some (c, other A B active)
  | HEALTH_CHECK_STATUS_ERROR =>
      boot cd valid generation A B (fl_mem f') = Some (snap, active)
      \/ boot cd valid generation A B (fl_mem f') = Some (c, other A B active)
      \/ undetected cd valid (fl_mem f') (other A B active) c
  end.
Proof.
  intros Hh Hc Hg E. destruct (ab_commit_holds _ _ _ _ _ _ Hh Hc E) as [Hh' Hn]. destruct s.
  - destruct (Hn eq_refl) as (_ & Hi & Hv).
    by eapply (boot_publish cd valid generation A B W25Q64_SECTOR_SIZE).
  - by eapply (boot_torn cd valid generation A B W25Q64_SECTOR_SIZE).
Qed.

(** A commit beside a sector that is not valid, as the migrations do. *)
Lemma ab_commit_fresh f active c f' :
  active = A \/ active = B -> valid (image cd (fl_mem f) active) = false -> c_wf cd c ->
  ab_commit f (other A B active) c = (f', HEALTH_CHECK_STATUS_OK) ->
  boot cd valid generation A B (fl_mem f') = Some (c, other A B active).
Proof.
  intros Ha Hi Hc E. pose proof E as Ho.
  apply ab_commit_outside in Ho; [|apply other_pos|done].
  apply ab_commit_ok in E as [Hn Hv]; [|apply other_pos|done].
  eapply (boot_fresh cd valid generation A B W25Q64_SECTOR_SIZE); try done.
  by rewrite (image_other cd A B W25Q64_SECTOR_SIZE _ _ _ Ha Ho).
Qed.

(** *** Loading at start-up *)

Lemma holds_wf f snap active :
  holds cd valid A B (fl_mem f) snap active -> c_wf cd snap.
Proof.
  intros (_ & <- & _). apply c_dec_wf; [apply length_slice|].
  apply slice_bytes. intros x. apply fl_mem_byte.
Qed.

Lemma read_checked_spec f addr f' x v :
  0 <= addr -> read_checked f addr = (f', x, v) ->
  mem_eq (fl_mem f') (fl_mem f)
  /\ (v = true -> x = image cd (fl_mem f) addr /\ valid x = true).
Proof.
  intros Ha E. unfold read_checked in E.
  destruct (W25Q64_Read f addr _) as [[f1 s1] d] eqn:E1. injection E as <- <- <-.
  split; [by eapply read_mem|]. intros [Hs%flash_ok_true Hv]%andb_true_iff. subst s1.
  by rewrite (read_ok _ _ _ _ _ Ha E1) in *.
Qed.

Lemma read_checked_at f addr :
  fl_ready f -> 0 <= addr -> w25q64_IsRangeValid addr (Z.of_nat (c_size cd)) = true ->
  exists f', read_checked f addr
      = (f', image cd (fl_mem f) addr, valid (image cd (fl_mem f) addr))
    /\ fl_ready f' /\ mem_eq (fl_mem f') (fl_mem f).
Proof.
  intros Hr Hp Hv. unfold read_checked.
  destruct (W25Q64_Read f addr _) as [[f1 s1] d] eqn:E1.
  destruct (ready_read _ _ _ _ _ _ Hr Hp Hv E1) as [-> Hr1].
  pose proof (read_ok _ _ _ _ _ Hp E1) as ->. exists f1.
  split; [done|]. split; [done|]. by eapply read_mem.
Qed.

Lemma read_checked_ready f addr :
  fl_ready f -> addr = A \/ addr = B ->
  exists f', read_checked f addr
      = (f', image cd (fl_mem f) addr, valid (image cd (fl_mem f) addr))
    /\ fl_ready f' /\ mem_eq (fl_mem f') (fl_mem f).
Proof.
  intros Hr Ha. pose proof (ab_pos cd A B W25Q64_SECTOR_SIZE) as [].
  pose proof (ab_images cd A B W25Q64_SECTOR_SIZE) as [].
  destruct Ha as [->| ->]; by apply read_checked_at.
Qed.

(** What was loaded is on the device, even if a read failed. *)
Lemma load_newest_spec f f' r :
  load_newest f = (f', r) ->
  mem_eq (fl_mem f') (fl_mem f)
  /\ forall snap active, r = Some (snap, active) -> holds cd valid A B (fl_mem f') snap active.
Proof.
  unfold load_newest. intros E. pose proof (ab_pos cd A B W25Q64_SECTOR_SIZE) as [PA PB].
  destruct (read_checked f A) as [[f1 x1] v1] eqn:E1.
  destruct (read_checked f1 B) as [[f2 x2] v2] eqn:E2. injection E as <- <-.
  apply read_checked_spec in E1 as [M1 H1]; [|done].
  apply read_checked_spec in E2 as [M2 H2]; [|done].
  split; [by etrans|]. intros snap active E. unfold pick, holds, image in *.
  rewrite M2, M1. rewrite M1 in H2.
  destruct v1; simpl in E; [destruct (negb v2 || _)|]; [|destruct v2; [|done]..];
    injection E as <- <-;
    [destruct (H1 eq_refl)|destruct (H2 eq_refl)..]; auto.
Qed.

(** On a device that answers, it is exactly the newest valid image. *)
Lemma load_newest_ready f :
  fl_ready f ->
  exists f', load_newest f = (f', boot cd valid generation A B (fl_mem f))
    /\ fl_ready f' /\ mem_eq (fl_mem f') (fl_mem f).
Proof.
  intros Hr. unfold load_newest.
  destruct (read_checked_ready f A Hr (or_introl eq_refl)) as (f1 & -> & Hr1 & M1).
  destruct (read_checked_ready f1 B Hr1 (or_intror eq_refl)) as (f2 & -> & Hr2 & M2).
  exists f2. split; [|split; [done|by etrans]].
  unfold boot, choose, image. by rewrite M1.
Qed.
End commit.

(** ** The running store

    Every store file keeps the same variables: the snapshot in RAM and the
    address of the sector it was loaded from or last written to. *)

Record store (S F : Type) := Store { snapshot : S; activeAddress : Z; flash : F }.
Arguments Store {S F}.
Arguments snapshot {S F}.
Arguments activeAddress {S F}.
Arguments flash {S F}.

Section saving.
Context {F : Type} `{FlashLaws F}.
Context {S : Type} (cd : codec S) (valid : S -> bool) (generation : S -> Z).
Context (A B : Z) `{!AbPair cd A B W25Q64_SECTOR_SIZE} `{EqDecision S}.

(** Commit [c] to the inactive sector and publish it. *)
Definition ab_save (s : store S F) (c : S) : store S F * HealthCheck_StatusTypeDef :=
  let '(f, status) := ab_commit cd valid generation (flash s) (other A B (activeAddress s)) c in
  (match status with
   | HEALTH_CHECK_STATUS_OK => Store c (other A B (activeAddress s)) f
   | HEALTH_CHECK_STATUS_ERROR => Store (snapshot s) (activeAddress s) f
   end, status).

(** The active sector holds the snapshot in RAM. *)
Definition ab_inv (s : store S F) : Prop :=
  holds cd valid A B (fl_mem (flash s)) (snapshot s) (activeAddress s).

(** Nothing was ever published: the sector that counts as active is not valid. *)
Definition ab_fresh (s : store S F) : Prop :=
  (activeAddress s = A \/ activeAddress s = B)
  /\ valid (image cd (fl_mem (flash s)) (activeAddress s)) = false.

(** What a restart would load. *)
Definition ab_boots (s : store S F) : option (S * Z) :=
  boot cd valid generation A B (fl_mem (flash s)).

Lemma ab_inv_wf s : ab_inv s -> c_wf cd (snapshot s).
Proof. apply holds_wf. Qed.

Lemma ab_inv_valid s : ab_inv s -> valid (snapshot s) = true.
Proof. by intros (_ & _ & Hv). Qed.

Lemma ab_save_inv s c s' r :
  c_wf cd c -> ab_save s c = (s', r) ->
  match r with
  | HEALTH_CHECK_STATUS_OK => ab_inv s' /\ snapshot s' = c
  | HEALTH_CHECK_STATUS_ERROR =>
      snapshot s' = snapshot s /\ activeAddress s' = activeAddress s
      /\ (ab_inv s -> ab_inv s') /\ (ab_fresh s -> ab_fresh s')
  end.
Proof.
  intros Hc E. unfold ab_save in E. destruct (ab_commit _ _ _ _ _ _) as [f st] eqn:Ec.
  pose proof Ec as Ho. eapply (ab_commit_outside (F := F) _ _ _ A B) in Ho;
    [|by apply (other_pos cd A B)|done].
  destruct st; injection E as <- <-.
  - eapply (ab_commit_ok (F := F) _ _ _ A B) in Ec as [Hi Hv]; [|by apply (other_pos cd A B)|done].
    split; [|done]. split; [apply other_in|done].
  - split; [done|]. split; [done|]. split.
    + intros Hh. exact (holds_other cd valid A B W25Q64_SECTOR_SIZE _ _ _ _ Hh Ho).
    + intros [Ha Hv]. split; [done|]. simpl.
      by rewrite (image_other cd A B W25Q64_SECTOR_SIZE _ _ _ Ha Ho).
Qed.

(** A published snapshot is what a restart loads. *)
Lemma ab_save_boots s c s' :
  (ab_inv s /\ generation (snapshot s) < generation c) \/ ab_fresh s -> c_wf cd c ->
  ab_save s c = (s', HEALTH_CHECK_STATUS_OK) -> ab_boots s' = Some (c, activeAddress s').
Proof.
  intros Hs Hc E. unfold ab_save in E. destruct (ab_commit _ _ _ _ _ _) as [f st] eqn:Ec.
  destruct st; [|done]. injection E as <-. unfold ab_boots. simpl. destruct Hs as [[Hi Hg]|[Ha Hv]].
  - exact (ab_commit_boot (F := F) _ _ _ A B _ _ _ _ _ _ Hi Hc Hg Ec).
  - exact (ab_commit_fresh (F := F) _ _ _ A B _ _ _ _ Ha Hv Hc Ec).
Qed.

(** After a save that failed or was cut, a restart loads what was published
    before, or the new snapshot. *)
Lemma ab_save_torn s c s' :
  ab_inv s -> c_wf cd c -> ab_save s c = (s', HEALTH_CHECK_STATUS_ERROR) ->
  ab_boots s' = Some (snapshot s, activeAddress s)
  \/ ab_boots s' = Some (c, other A B (activeAddress s))
  \/ undetected cd valid (fl_mem (flash s')) (other A B (activeAddress s)) c.
Proof.
  intros Hi Hc E. pose proof (ab_save_inv _ _ _ _ Hc E) as (Es & Ea & Hk & _).
  specialize (Hk Hi). unfold ab_inv in Hk. rewrite Es, Ea in Hk.
  exact (boot_torn cd valid generation A B W25Q64_SECTOR_SIZE _ _ _ c Hk).
Qed.

(** It writes the inactive sector only. *)
Lemma ab_save_outside s c s' r :
  c_wf cd c -> ab_save s c = (s', r) ->
  same_outside (fl_mem (flash s)) (fl_mem (flash s')) (other A B (activeAddress s))
    W25Q64_SECTOR_SIZE
  /\ activeAddress s'
     = match r with
       | HEALTH_CHECK_STATUS_OK => other A B (activeAddress s)
       | HEALTH_CHECK_STATUS_ERROR => activeAddress s
       end.
Proof.
  intros Hc E. unfold ab_save in E. destruct (ab_commit _ _ _ _ _ _) as [f st] eqn:Ec.
  eapply (ab_commit_outside (F := F) _ _ _ A B) in Ec; [|by apply (other_pos cd A B)|done].
  by destruct st; injection E as <- <-.
Qed.

Lemma ab_save_torn_fresh s c s' :
  ab_fresh s -> c_wf cd c -> ab_save s c = (s', HEALTH_CHECK_STATUS_ERROR) ->
  ab_boots s' = None
  \/ ab_boots s' = Some (c, other A B (activeAddress s))
  \/ undetected cd valid (fl_mem (flash s')) (other A B (activeAddress s)) c.
Proof.
  intros Hf Hc E. pose proof (ab_save_inv _ _ _ _ Hc E) as (_ & Ea & _ & Hk).
  destruct (Hk Hf) as [Ha Hv]. rewrite Ea in Ha, Hv. unfold ab_boots.
  destruct (valid (image cd (fl_mem (flash s')) (other A B (activeAddress s)))) eqn:V.
  - right. rewrite (boot_fresh cd valid generation A B W25Q64_SECTOR_SIZE _ _ _ Ha Hv eq_refl V).
    destruct (decide (image cd (fl_mem (flash s')) (other A B (activeAddress s)) = c)) as [<-|];
      [by left|]. right. by split.
  - left. rewrite (boot_sides cd valid generation A B W25Q64_SECTOR_SIZE _ _ Ha).
    unfold choose, pick. destruct (activeAddress s =? A); by rewrite Hv, V.
Qed.

(** After a successful save the image it replaced is the spare one: a
    start-up finds what was published, however often the store was saved. *)
Lemma ab_save_spare s c s' :
  (ab_inv s /\ generation (snapshot s) < generation c) \/ ab_fresh s -> c_wf cd c ->
  ab_save s c = (s', HEALTH_CHECK_STATUS_OK) ->
  spare_older cd valid generation A B (fl_mem (flash s')) (snapshot s') (activeAddress s').
Proof.
  intros Hs Hc E. destruct (ab_save_outside _ _ _ _ Hc E) as [Ho Ha].
  destruct (ab_save_inv _ _ _ _ Hc E) as [(_ & Hi & Hok) Hsn]. rewrite Ha, Hsn in *.
  eapply (publish_spare cd valid generation A B W25Q64_SECTOR_SIZE); [exact Ho|exact Hi|exact Hok|].
  destruct Hs as [[Hh Hg]|[Hab Hf]]; [left; by exists (snapshot s)|by right].
Qed.

Lemma ab_save_ready s c :
  fl_ready (flash s) -> c_wf cd c -> valid c = true ->
  exists s', ab_save s c = (s', HEALTH_CHECK_STATUS_OK) /\ fl_ready (flash s').
Proof.
  intros Hr Hc Hv. unfold ab_save.
  destruct (ab_commit_ready (F := F) cd valid generation A B (flash s) (activeAddress s) c
    Hr Hc Hv) as (f & -> & Hf). eexists. by split.
Qed.
End saving.
