(* ===== verification/HealthCheckConfig.v ===== *)
(** [Srv/Src/health_check_config.c]: the persisted list of checked resources.

    The configuration lives in a pair of alternating Flash sectors.  The file
    models the stored structures of all four format versions, the start-up
    migration, the mutators and the readers, and proves: the sector pair always
    holds the snapshot in RAM; every mutator refines an abstract table of
    resource slots; a save that is cut short leaves the old or the new
    configuration; start-up loads the newest valid configuration or migrates
    an older format. *)
From S2P Require Import Prelude Codec Crc NorFlash SimFlash FlashLayout AbStore.

(** ** Constants *)

Definition HEALTH_CHECK_CONFIG_MAGIC : Z := 0x48434643.
Definition HEALTH_CHECK_CONFIG_VERSION : Z := 4.
Definition HEALTH_CHECK_CONFIG_FACTORY_VERSION : Z := 3.
Definition HEALTH_CHECK_CONFIG_PREVIOUS_VERSION : Z := 2.
Definition HEALTH_CHECK_CONFIG_LEGACY_VERSION : Z := 1.
Definition HEALTH_CHECK_CONFIG_PREVIOUS_MAX_RESOURCES : nat := 3.
Definition HEALTH_CHECK_CONFIG_SECTOR_A := FLASH_LAYOUT_HEALTH_CHECK_CONFIG_SECTOR_A.
Definition HEALTH_CHECK_CONFIG_SECTOR_B := FLASH_LAYOUT_HEALTH_CHECK_CONFIG_SECTOR_B.
Definition HEALTH_CHECK_CONFIG_DEFAULT_PERIOD_SECONDS : Z := 60.
Definition HEALTH_CHECK_CONFIG_MAX_RESOURCES : nat := 6.
Definition HEALTH_CHECK_CONFIG_HOST_SIZE : nat := 64.
Definition HEALTH_CHECK_CONFIG_PATH_SIZE : nat := 80.
Definition HEALTH_CHECK_CONFIG_MIN_PERIOD_SECONDS : Z := 60.
Definition HEALTH_CHECK_CONFIG_MAX_PERIOD_SECONDS : Z := 1800.
Definition TLS_TRUST_STORE_MIN_ID : Z := 1.
Definition TLS_TRUST_STORE_MAX_PERSISTED : Z := 6.

Inductive HealthCheckConfig_StatusTypeDef :=
  | HEALTH_CHECK_CONFIG_STATUS_OK
  | HEALTH_CHECK_CONFIG_STATUS_INVALID_ARGUMENT
  | HEALTH_CHECK_CONFIG_STATUS_NOT_FOUND
  | HEALTH_CHECK_CONFIG_STATUS_FULL
  | HEALTH_CHECK_CONFIG_STATUS_STORAGE_ERROR.

#[global] Instance HealthCheckConfig_Status_eq_dec : EqDecision HealthCheckConfig_StatusTypeDef.
Proof. solve_decision. Defined.

(** ** Stored structures *)

Record HealthCheckConfig_ResourceTypeDef := Resource {
  occupied : Z;
  enabled : Z;
  trustAnchorId : Z;
  res_reserved : Z;
  port : Z;
  host : bytes;
  path : bytes;
}.

#[global] Instance Resource_eq_dec : EqDecision HealthCheckConfig_ResourceTypeDef.
Proof. solve_decision. Defined.

Definition c_resource : codec HealthCheckConfig_ResourceTypeDef.
Proof.
  refine (c_iso (c_u8 ** c_u8 ** c_u8 ** c_u8 ** c_u16
                 ** c_bytes HEALTH_CHECK_CONFIG_HOST_SIZE
                 ** c_bytes HEALTH_CHECK_CONFIG_PATH_SIZE)%codec
    (fun '(o, (e, (t, (r, (p, (h, q)))))) => Resource o e t r p h q)
    (fun x => (occupied x, (enabled x, (trustAnchorId x, (res_reserved x,
       (port x, (host x, path x)))))))  _ _).
  - by intros [].
  - by intros (?&?&?&?&?&?&?).
Defined.

(** [HealthCheckConfig_SnapshotTypeDef] *)
Record HealthCheckConfig_SnapshotTypeDef := Snapshot {
  magic : Z;
  version : Z;
  reserved : Z;
  generation : Z;
  periodSeconds : Z;
  resources : list HealthCheckConfig_ResourceTypeDef;
  crc : Z;
}.

#[global] Instance Snapshot_eq_dec : EqDecision HealthCheckConfig_SnapshotTypeDef.
Proof. solve_decision. Defined.

Definition c_snapshot : codec HealthCheckConfig_SnapshotTypeDef.
Proof.
  refine (c_iso (c_u32 ** c_u16 ** c_u16 ** c_u32 ** c_u32
                 ** c_array c_resource HEALTH_CHECK_CONFIG_MAX_RESOURCES ** c_u32)%codec
    (fun '(m, (v, (r, (g, (p, (l, c)))))) => Snapshot m v r g p l c)
    (fun x => (magic x, (version x, (reserved x, (generation x,
       (periodSeconds x, (resources x, crc x))))))) _ _).
  - by intros [].
  - by intros (?&?&?&?&?&?&?).
Defined.

(** [HealthCheckConfig_PreviousSnapshotTypeDef]; the 16 + 3 * 150 bytes before
    [crc] are followed by two bytes of padding. *)
Record HealthCheckConfig_PreviousSnapshotTypeDef := PreviousSnapshot {
  prev_magic : Z;
  prev_version : Z;
  prev_reserved : Z;
  prev_generation : Z;
  prev_periodSeconds : Z;
  prev_resources : list HealthCheckConfig_ResourceTypeDef;
  prev_padding : bytes;
  prev_crc : Z;
}.

Definition c_previous : codec HealthCheckConfig_PreviousSnapshotTypeDef.
Proof.
  refine (c_iso (c_u32 ** c_u16 ** c_u16 ** c_u32 ** c_u32
                 ** c_array c_resource HEALTH_CHECK_CONFIG_PREVIOUS_MAX_RESOURCES
                 ** c_bytes 2 ** c_u32)%codec
    (fun '(m, (v, (r, (g, (p, (l, (d, c))))))) => PreviousSnapshot m v r g p l d c)
    (fun x => (prev_magic x, (prev_version x, (prev_reserved x, (prev_generation x,
       (prev_periodSeconds x, (prev_resources x, (prev_padding x, prev_crc x)))))))) _ _).
  - by intros [].
  - by intros (?&?&?&?&?&?&?&?).
Defined.

Record HealthCheckConfig_LegacyResourceTypeDef := LegacyResource {
  leg_occupied : Z;
  leg_enabled : Z;
  leg_port : Z;
  leg_host : bytes;
  leg_path : bytes;
}.

Definition c_legacy_resource : codec HealthCheckConfig_LegacyResourceTypeDef.
Proof.
  refine (c_iso (c_u8 ** c_u8 ** c_u16 ** c_bytes HEALTH_CHECK_CONFIG_HOST_SIZE
                 ** c_bytes HEALTH_CHECK_CONFIG_PATH_SIZE)%codec
    (fun '(o, (e, (p, (h, q)))) => LegacyResource o e p h q)
    (fun x => (leg_occupied x, (leg_enabled x, (leg_port x, (leg_host x, leg_path x))))) _ _).
  - by intros [].
  - by intros (?&?&?&?&?).
Defined.

Record HealthCheckConfig_LegacySnapshotTypeDef := LegacySnapshot {
  leg_magic : Z;
  leg_version : Z;
  leg_reserved : Z;
  leg_generation : Z;
  leg_periodSeconds : Z;
  leg_resources : list HealthCheckConfig_LegacyResourceTypeDef;
  leg_crc : Z;
}.

Definition c_legacy : codec HealthCheckConfig_LegacySnapshotTypeDef.
Proof.
  refine (c_iso (c_u32 ** c_u16 ** c_u16 ** c_u32 ** c_u32
                 ** c_array c_legacy_resource HEALTH_CHECK_CONFIG_PREVIOUS_MAX_RESOURCES
                 ** c_u32)%codec
    (fun '(m, (v, (r, (g, (p, (l, c)))))) => LegacySnapshot m v r g p l c)
    (fun x => (leg_magic x, (leg_version x, (leg_reserved x, (leg_generation x,
       (leg_periodSeconds x, (leg_resources x, leg_crc x))))))) _ _).
  - by intros [].
  - by intros (?&?&?&?&?&?&?).
Defined.

Arguments c_resource : simpl never.
Arguments c_snapshot : simpl never.
Arguments c_previous : simpl never.
Arguments c_legacy_resource : simpl never.
Arguments c_legacy : simpl never.

(** The sizes the compiler gives the structures. *)
Example config_sizes :
  (c_size c_resource, c_size c_snapshot, c_size c_previous, c_size c_legacy)
  = (150, 920, 472, 464)%nat.
Proof. reflexivity. Qed.

(** ** Pure helpers *)

(** The checksum of the bytes before the [crc] field. *)
Definition healthCheckConfig_Crc (c : HealthCheckConfig_SnapshotTypeDef) : Z :=
  crc32 (prefix_before_crc c_snapshot c).

Definition period_in_range (p : Z) : bool :=
  (HEALTH_CHECK_CONFIG_MIN_PERIOD_SECONDS <=? p) && (p <=? HEALTH_CHECK_CONFIG_MAX_PERIOD_SECONDS).

Definition healthCheckConfig_IsValid (c : HealthCheckConfig_SnapshotTypeDef) : bool :=
  (magic c =? HEALTH_CHECK_CONFIG_MAGIC) && (version c =? HEALTH_CHECK_CONFIG_VERSION)
  && period_in_range (periodSeconds c) && (crc c =? healthCheckConfig_Crc c).

Definition healthCheckConfig_IsFactoryVersionValid (c : HealthCheckConfig_SnapshotTypeDef) : bool :=
  (magic c =? HEALTH_CHECK_CONFIG_MAGIC) && (version c =? HEALTH_CHECK_CONFIG_FACTORY_VERSION)
  && period_in_range (periodSeconds c) && (crc c =? healthCheckConfig_Crc c).

Definition healthCheckConfig_IsLegacyValid (c : HealthCheckConfig_LegacySnapshotTypeDef) : bool :=
  (leg_magic c =? HEALTH_CHECK_CONFIG_MAGIC) && (leg_version c =? HEALTH_CHECK_CONFIG_LEGACY_VERSION)
  && period_in_range (leg_periodSeconds c)
  && (leg_crc c =? crc32 (prefix_before_crc c_legacy c)).

Definition healthCheckConfig_IsPreviousValid (c : HealthCheckConfig_PreviousSnapshotTypeDef) : bool :=
  (prev_magic c =? HEALTH_CHECK_CONFIG_MAGIC)
  && (prev_version c =? HEALTH_CHECK_CONFIG_PREVIOUS_VERSION)
  && period_in_range (prev_periodSeconds c)
  && (prev_crc c =? crc32 (prefix_before_crc c_previous c)).

(** A resource slot cleared with [memset]. *)
Definition zero_resource : HealthCheckConfig_ResourceTypeDef :=
  Resource 0 0 0 0 0 (zeros HEALTH_CHECK_CONFIG_HOST_SIZE) (zeros HEALTH_CHECK_CONFIG_PATH_SIZE).

Definition zero_snapshot : HealthCheckConfig_SnapshotTypeDef :=
  Snapshot 0 0 0 0 0 (replicate HEALTH_CHECK_CONFIG_MAX_RESOURCES zero_resource) 0.

Definition with_resources (c : HealthCheckConfig_SnapshotTypeDef) l :=
  Snapshot (magic c) (version c) (reserved c) (generation c) (periodSeconds c) l (crc c).

Definition with_period (c : HealthCheckConfig_SnapshotTypeDef) p :=
  Snapshot (magic c) (version c) (reserved c) (generation c) p (resources c) (crc c).

(** A slot that refers to the removed built-in anchor is cleared. *)
Definition remove_factory_reference (r : HealthCheckConfig_ResourceTypeDef) :=
  if negb (occupied r =? 0) && (trustAnchorId r =? 0) then zero_resource else r.

Definition healthCheckConfig_RemoveFactoryReferences (target : HealthCheckConfig_SnapshotTypeDef) :=
  with_resources target (map remove_factory_reference (resources target)).

(** [memset], the two scalars, the first slots by [memcpy], then the removal. *)
Definition healthCheckConfig_MigratePrevious (previous : HealthCheckConfig_PreviousSnapshotTypeDef) :=
  healthCheckConfig_RemoveFactoryReferences
    (Snapshot 0 0 0 (prev_generation previous) (prev_periodSeconds previous)
       (prev_resources previous
        ++ drop HEALTH_CHECK_CONFIG_PREVIOUS_MAX_RESOURCES (resources zero_snapshot)) 0).

Definition healthCheckConfig_MigrateLegacy (legacy : HealthCheckConfig_LegacySnapshotTypeDef) :=
  Snapshot 0 0 0 (leg_generation legacy) (leg_periodSeconds legacy) (resources zero_snapshot) 0.

Definition healthCheckConfig_SetDefault : HealthCheckConfig_SnapshotTypeDef :=
  with_period zero_snapshot HEALTH_CHECK_CONFIG_DEFAULT_PERIOD_SECONDS.

(** The header [healthCheckConfig_Save] writes into the candidate, then the
    checksum of everything before [crc]. *)
Definition stamp_header (c : HealthCheckConfig_SnapshotTypeDef) :=
  Snapshot HEALTH_CHECK_CONFIG_MAGIC HEALTH_CHECK_CONFIG_VERSION (reserved c)
    (u32 (generation c + 1)) (periodSeconds c) (resources c) (crc c).

Definition with_crc (c : HealthCheckConfig_SnapshotTypeDef) x :=
  Snapshot (magic c) (version c) (reserved c) (generation c) (periodSeconds c) (resources c) x.

Definition stamp (c : HealthCheckConfig_SnapshotTypeDef) : HealthCheckConfig_SnapshotTypeDef :=
  let c := stamp_header c in with_crc c (healthCheckConfig_Crc c).

(** The guards shared by the two mutators that take a resource; [None] is a
    [NULL] pointer. *)
Definition resource_arguments_invalid (h : option bytes) (p : Z) (q : option bytes) (anchor : Z) :
    bool :=
  match h, q with
  | Some h, Some q =>
      (nth 0 h 0 =? 0) || negb (nth 0 q 0 =? 47) || (p =? 0)
      || (anchor <? TLS_TRUST_STORE_MIN_ID) || (TLS_TRUST_STORE_MAX_PERSISTED <? anchor)
      || (HEALTH_CHECK_CONFIG_HOST_SIZE <=? strlen h)%nat
      || (HEALTH_CHECK_CONFIG_PATH_SIZE <=? strlen q)%nat
  | _, _ => true
  end.

(** The first slot whose [occupied] is zero. *)
Fixpoint first_free (l : list HealthCheckConfig_ResourceTypeDef) : option nat :=
  match l with
  | [] => None
  | r :: l => if occupied r =? 0 then Some O else S <$> first_free l
  end.

(** ** Operations *)

Section ops.
Context {F : Type} `{Flash F}.

(** The file-scope variables and the device they are stored on. *)
Abbreviation state := (store HealthCheckConfig_SnapshotTypeDef F).

(** The result carries the candidate too: [HealthCheckConfig_Init] passes
    [&snapshot], so that its header is written even when the save fails. *)
Definition healthCheckConfig_Save (s : state) (candidate : HealthCheckConfig_SnapshotTypeDef) :
    state * HealthCheckConfig_SnapshotTypeDef * HealthCheck_StatusTypeDef :=
  let target := if activeAddress s =? HEALTH_CHECK_CONFIG_SECTOR_A
                then HEALTH_CHECK_CONFIG_SECTOR_B else HEALTH_CHECK_CONFIG_SECTOR_A in
  let candidate := stamp candidate in
  let failed f := (Store (snapshot s) (activeAddress s) f, candidate,
                   HEALTH_CHECK_STATUS_ERROR) in
  let '(f, s1) := W25Q64_EraseSector (flash s) target in
  if negb (flash_ok s1) then failed f else
  let '(f, s2) := W25Q64_Program f target (c_enc c_snapshot candidate) in
  if negb (flash_ok s2) then failed f else
  let '(f, s3, d) := W25Q64_Read f target (c_size c_snapshot) in
  let verification := c_dec c_snapshot d in
  if negb (flash_ok s3) || negb (healthCheckConfig_IsValid verification)
     || negb (generation verification =? generation candidate)
  then failed f
  else (Store candidate target f, candidate, HEALTH_CHECK_STATUS_OK).

(** [healthCheckConfig_Save(&snapshot)] *)
Definition save_snapshot (s : state) : state * HealthCheck_StatusTypeDef :=
  let '(s', candidate, status) := healthCheckConfig_Save s (snapshot s) in
  (Store candidate (activeAddress s') (flash s'), status).

(** The start-up sequence; [created] is whether the mutex was created.  Each
    format is looked for in both sectors, the newest format first. *)
Definition HealthCheckConfig_Init (created : bool) (s : state) :
    state * HealthCheck_StatusTypeDef :=
  if negb created then (s, HEALTH_CHECK_STATUS_ERROR) else
  let SA := HEALTH_CHECK_CONFIG_SECTOR_A in
  let SB := HEALTH_CHECK_CONFIG_SECTOR_B in
  let '(f, current) :=
    load_newest c_snapshot healthCheckConfig_IsValid generation SA SB (flash s) in
  match current with
  | Some (x, address) => (Store x address f, HEALTH_CHECK_STATUS_OK)
  | None =>
  let '(f, factory) :=
    load_newest c_snapshot healthCheckConfig_IsFactoryVersionValid generation SA SB f in
  match factory with
  | Some (previous, address) =>
      save_snapshot (Store (healthCheckConfig_RemoveFactoryReferences previous) address f)
  | None =>
  let '(f, previous) :=
    load_newest c_previous healthCheckConfig_IsPreviousValid prev_generation SA SB f in
  match previous with
  | Some (previous, address) =>
      save_snapshot (Store (healthCheckConfig_MigratePrevious previous) address f)
  | None =>
  let '(f, legacy) :=
    load_newest c_legacy healthCheckConfig_IsLegacyValid leg_generation SA SB f in
  match legacy with
  | Some (legacy, address) =>
      save_snapshot (Store (healthCheckConfig_MigrateLegacy legacy) address f)
  | None => save_snapshot (Store healthCheckConfig_SetDefault SB f)
  end end end end.

(** [taken] is the outcome of [xSemaphoreTake] on the mutex. *)
Definition HealthCheckConfig_GetPeriodSeconds (taken : bool) (s : state) : Z :=
  if taken then periodSeconds (snapshot s) else HEALTH_CHECK_CONFIG_DEFAULT_PERIOD_SECONDS.

(** A mutator's last steps: save the candidate, translate the status. *)
Definition save_status (s : state) (candidate : HealthCheckConfig_SnapshotTypeDef) :
    state * HealthCheckConfig_StatusTypeDef :=
  let '(s, _, status) := healthCheckConfig_Save s candidate in
  (s, match status with
      | HEALTH_CHECK_STATUS_OK => HEALTH_CHECK_CONFIG_STATUS_OK
      | HEALTH_CHECK_STATUS_ERROR => HEALTH_CHECK_CONFIG_STATUS_STORAGE_ERROR
      end).

Definition HealthCheckConfig_SetPeriodSeconds (taken : bool) (s : state) (period : Z) :
    state * HealthCheckConfig_StatusTypeDef :=
  if (period <? HEALTH_CHECK_CONFIG_MIN_PERIOD_SECONDS)
     || (HEALTH_CHECK_CONFIG_MAX_PERIOD_SECONDS <? period)
  then (s, HEALTH_CHECK_CONFIG_STATUS_INVALID_ARGUMENT) else
  if negb taken then (s, HEALTH_CHECK_CONFIG_STATUS_STORAGE_ERROR) else
  save_status s (with_period (snapshot s) period).

(** The array the caller passed, [None] for [NULL], afterwards. *)
Definition HealthCheckConfig_GetResources (taken : bool) (s : state)
    (out : option (list HealthCheckConfig_ResourceTypeDef)) :=
  match out with
  | None => None
  | Some out => Some (if taken then resources (snapshot s) else out)
  end.

(** The new slot of [HealthCheckConfig_AddResource]. *)
Definition new_resource (h : bytes) (p : Z) (q : bytes) (en anchor : Z) :=
  Resource 1 (if en =? 0 then 0 else 1) anchor 0 p
    (strncpy (zeros HEALTH_CHECK_CONFIG_HOST_SIZE) h (HEALTH_CHECK_CONFIG_HOST_SIZE - 1))
    (strncpy (zeros HEALTH_CHECK_CONFIG_PATH_SIZE) q (HEALTH_CHECK_CONFIG_PATH_SIZE - 1)).

(** The third component is what is stored through [assignedIndex]. *)
Definition HealthCheckConfig_AddResource (taken : bool) (s : state)
    (h : option bytes) (p : Z) (q : option bytes) (en anchor : Z) :
    state * HealthCheckConfig_StatusTypeDef * option Z :=
  if resource_arguments_invalid h p q anchor
  then (s, HEALTH_CHECK_CONFIG_STATUS_INVALID_ARGUMENT, None) else
  if negb taken then (s, HEALTH_CHECK_CONFIG_STATUS_STORAGE_ERROR, None) else
  let candidate := snapshot s in
  match first_free (resources candidate) with
  | None => (s, HEALTH_CHECK_CONFIG_STATUS_FULL, None)
  | Some index =>
      let candidate := with_resources candidate
        (<[index := new_resource (default [] h) p (default [] q) en anchor]>
           (resources candidate)) in
      let '(s, status) := save_status s candidate in
      (s, status, match status with
                  | HEALTH_CHECK_CONFIG_STATUS_OK => Some (Z.of_nat index)
                  | _ => None
                  end)
  end.

Definition HealthCheckConfig_UpdateResource (taken : bool) (s : state)
    (index : nat) (h : option bytes) (p : Z) (q : option bytes) (en anchor : Z) :
    state * HealthCheckConfig_StatusTypeDef :=
  if (HEALTH_CHECK_CONFIG_MAX_RESOURCES <=? index)%nat || resource_arguments_invalid h p q anchor
  then (s, HEALTH_CHECK_CONFIG_STATUS_INVALID_ARGUMENT) else
  if negb taken then (s, HEALTH_CHECK_CONFIG_STATUS_STORAGE_ERROR) else
  let r := nth index (resources (snapshot s)) zero_resource in
  if occupied r =? 0 then (s, HEALTH_CHECK_CONFIG_STATUS_NOT_FOUND) else
  let r := Resource (occupied r) (if en =? 0 then 0 else 1) anchor (res_reserved r) p
    (strncpy (zeros HEALTH_CHECK_CONFIG_HOST_SIZE) (default [] h)
       (HEALTH_CHECK_CONFIG_HOST_SIZE - 1))
    (strncpy (zeros HEALTH_CHECK_CONFIG_PATH_SIZE) (default [] q)
       (HEALTH_CHECK_CONFIG_PATH_SIZE - 1)) in
  save_status s (with_resources (snapshot s) (<[index := r]> (resources (snapshot s)))).

Definition HealthCheckConfig_DeleteResource (taken : bool) (s : state) (index : nat) :
    state * HealthCheckConfig_StatusTypeDef :=
  if (HEALTH_CHECK_CONFIG_MAX_RESOURCES <=? index)%nat
  then (s, HEALTH_CHECK_CONFIG_STATUS_INVALID_ARGUMENT) else
  if negb taken then (s, HEALTH_CHECK_CONFIG_STATUS_STORAGE_ERROR) else
  if occupied (nth index (resources (snapshot s)) zero_resource) =? 0
  then (s, HEALTH_CHECK_CONFIG_STATUS_NOT_FOUND) else
  save_status s (with_resources (snapshot s) (<[index := zero_resource]> (resources (snapshot s)))).

Definition HealthCheckConfig_IsTrustAnchorInUse (taken : bool) (s : state) (anchor : Z) : bool :=
  taken && existsb (fun r => negb (occupied r =? 0) && (trustAnchorId r =? anchor))
             (resources (snapshot s)).
End ops.
Abbreviation state := (store HealthCheckConfig_SnapshotTypeDef).

(** ** Well-formed values *)

Lemma resource_wf r :
  c_wf c_resource r <->
  is_u8 (occupied r) /\ is_u8 (enabled r) /\ is_u8 (trustAnchorId r) /\ is_u8 (res_reserved r)
  /\ is_u16 (port r)
  /\ (length (host r) = HEALTH_CHECK_CONFIG_HOST_SIZE /\ Forall is_u8 (host r))
  /\ (length (path r) = HEALTH_CHECK_CONFIG_PATH_SIZE /\ Forall is_u8 (path r)).
Proof. reflexivity. Qed.

Lemma cfg_snapshot_wf c :
  c_wf c_snapshot c <->
  is_u32 (magic c) /\ is_u16 (version c) /\ is_u16 (reserved c) /\ is_u32 (generation c)
  /\ is_u32 (periodSeconds c)
  /\ (length (resources c) = HEALTH_CHECK_CONFIG_MAX_RESOURCES
      /\ Forall (c_wf c_resource) (resources c))
  /\ is_u32 (crc c).
Proof. reflexivity. Qed.

Lemma cfg_crc_field_indep c x :
  c_wf c_snapshot c -> healthCheckConfig_Crc (with_crc c x) = healthCheckConfig_Crc c.
Proof.
  destruct c as [m v r g p l y]. intros (H1 & H2 & H3 & H4 & H5 & H6 & _).
  unfold healthCheckConfig_Crc. f_equal.
  repeat (apply prefix_pair; [done|simpl; lia|]). apply prefix_crc_field.
Qed.

Lemma cfg_stamp_header_wf c : c_wf c_snapshot c -> c_wf c_snapshot (stamp_header c).
Proof.
  intros (H1 & H2 & H3 & H4 & H5 & H6 & H7). apply cfg_snapshot_wf. simpl.
  split_and!; try done; try word; apply H6.
Qed.

Lemma cfg_stamp_wf c : c_wf c_snapshot c -> c_wf c_snapshot (stamp c).
Proof.
  intros H%cfg_stamp_header_wf. pose proof (crc32_u32 _ (prefix_bytes _ _ H)) as Hc.
  destruct H as (H1 & H2 & H3 & H4 & H5 & H6 & H7). by split_and!.
Qed.

Lemma cfg_stamp_valid c :
  c_wf c_snapshot c -> healthCheckConfig_IsValid (stamp c) = period_in_range (periodSeconds c).
Proof.
  intros H%cfg_stamp_header_wf. unfold healthCheckConfig_IsValid, stamp.
  rewrite cfg_crc_field_indep by done. simpl. by rewrite Z.eqb_refl, andb_true_r.
Qed.

Lemma previous_wf p :
  c_wf c_previous p ->
  is_u32 (prev_generation p) /\ is_u32 (prev_periodSeconds p)
  /\ length (prev_resources p) = 3%nat /\ Forall (c_wf c_resource) (prev_resources p).
Proof. intros (H1 & H2 & H3 & H4 & H5 & [H6 H6'] & _). by split_and!. Qed.

Lemma legacy_wf l :
  c_wf c_legacy l -> is_u32 (leg_generation l) /\ is_u32 (leg_periodSeconds l).
Proof. intros (H1 & H2 & H3 & H4 & H5 & _). by split_and!. Qed.

(** From here on the layouts are used through their lemmas only. *)
#[global] Opaque c_resource c_snapshot c_previous c_legacy.

#[global] Instance config_pair :
  AbPair c_snapshot HEALTH_CHECK_CONFIG_SECTOR_A HEALTH_CHECK_CONFIG_SECTOR_B W25Q64_SECTOR_SIZE.
Proof. ab_pair. Qed.
#[global] Instance config_previous_pair :
  AbPair c_previous HEALTH_CHECK_CONFIG_SECTOR_A HEALTH_CHECK_CONFIG_SECTOR_B W25Q64_SECTOR_SIZE.
Proof. ab_pair. Qed.
#[global] Instance config_legacy_pair :
  AbPair c_legacy HEALTH_CHECK_CONFIG_SECTOR_A HEALTH_CHECK_CONFIG_SECTOR_B W25Q64_SECTOR_SIZE.
Proof. ab_pair. Qed.

(** ** The abstract resource table

    What the API manages: a period and a fixed number of slots, each empty or
    holding a resource with its strings. *)

Record slot := Slot {
  slot_host : bytes; slot_port : Z; slot_path : bytes; slot_enabled : bool; slot_anchor : Z }.

Record table := Table { t_period : Z; t_slots : list (option slot) }.

Definition abs_slot (r : HealthCheckConfig_ResourceTypeDef) : option slot :=
  if occupied r =? 0 then None
  else Some (Slot (cstr (host r)) (port r) (cstr (path r)) (negb (enabled r =? 0)) (trustAnchorId r)).

Definition abs (c : HealthCheckConfig_SnapshotTypeDef) : table :=
  Table (periodSeconds c) (map abs_slot (resources c)).

Inductive op :=
  | OpSetPeriod (period : Z)
  | OpAdd (h : option bytes) (p : Z) (q : option bytes) (en anchor : Z)
  | OpUpdate (i : nat) (h : option bytes) (p : Z) (q : option bytes) (en anchor : Z)
  | OpDelete (i : nat).

(** A resource request as its strings, when it is acceptable. *)
Definition request (h : option bytes) (p : Z) (q : option bytes) (en anchor : Z) : option slot :=
  match h, q with
  | Some h, Some q =>
      if bool_decide (cstr h <> [] /\ head (cstr q) = Some 47 /\ p <> 0 /\ 1 <= anchor <= 6
                      /\ (length (cstr h) < 64)%nat /\ (length (cstr q) < 80)%nat)
      then Some (Slot (cstr h) p (cstr q) (negb (en =? 0)) anchor) else None
  | _, _ => None
  end.

Fixpoint first_none {A} (l : list (option A)) : option nat :=
  match l with
  | [] => None
  | None :: _ => Some O
  | Some _ :: l => S <$> first_none l
  end.

(** The specification of the mutators. *)
Definition spec (t : table) (o : op) : table * HealthCheckConfig_StatusTypeDef * option Z :=
  match o with
  | OpSetPeriod p =>
      if period_in_range p then (Table p (t_slots t), HEALTH_CHECK_CONFIG_STATUS_OK, None)
      else (t, HEALTH_CHECK_CONFIG_STATUS_INVALID_ARGUMENT, None)
  | OpAdd h p q en anchor =>
      match request h p q en anchor with
      | None => (t, HEALTH_CHECK_CONFIG_STATUS_INVALID_ARGUMENT, None)
      | Some r =>
          match first_none (t_slots t) with
          | None => (t, HEALTH_CHECK_CONFIG_STATUS_FULL, None)
          | Some i => (Table (t_period t) (<[i := Some r]> (t_slots t)),
                       HEALTH_CHECK_CONFIG_STATUS_OK, Some (Z.of_nat i))
          end
      end
  | OpUpdate i h p q en anchor =>
      match t_slots t !! i, request h p q en anchor with
      | Some (Some _), Some r =>
          (Table (t_period t) (<[i := Some r]> (t_slots t)), HEALTH_CHECK_CONFIG_STATUS_OK, None)
      | Some None, Some _ => (t, HEALTH_CHECK_CONFIG_STATUS_NOT_FOUND, None)
      | _, _ => (t, HEALTH_CHECK_CONFIG_STATUS_INVALID_ARGUMENT, None)
      end
  | OpDelete i =>
      match t_slots t !! i with
      | Some (Some _) =>
          (Table (t_period t) (<[i := None]> (t_slots t)), HEALTH_CHECK_CONFIG_STATUS_OK, None)
      | Some None => (t, HEALTH_CHECK_CONFIG_STATUS_NOT_FOUND, None)
      | None => (t, HEALTH_CHECK_CONFIG_STATUS_INVALID_ARGUMENT, None)
      end
  end.

(** Arguments have the range of their C types. *)
Definition string_wf (s : option bytes) : Prop := Forall is_u8 (default [] s).

Definition op_wf (o : op) : Prop :=
  match o with
  | OpSetPeriod p => is_u32 p
  | OpAdd h p q en anchor | OpUpdate _ h p q en anchor =>
      string_wf h /\ is_u16 p /\ string_wf q /\ is_u8 en /\ is_u8 anchor
  | OpDelete i => True
  end.

Section theory.
Context {F : Type} `{FlashLaws F}.

Abbreviation SA := HEALTH_CHECK_CONFIG_SECTOR_A.
Abbreviation SB := HEALTH_CHECK_CONFIG_SECTOR_B.

(** The mutator an operation stands for. *)
Definition run (taken : bool) (s : state F) (o : op) :
    state F * HealthCheckConfig_StatusTypeDef * option Z :=
  match o with
  | OpSetPeriod p => (HealthCheckConfig_SetPeriodSeconds taken s p, None)
  | OpAdd h p q en anchor => HealthCheckConfig_AddResource taken s h p q en anchor
  | OpUpdate i h p q en anchor =>
      (HealthCheckConfig_UpdateResource taken s i h p q en anchor, None)
  | OpDelete i => (HealthCheckConfig_DeleteResource taken s i, None)
  end.

Definition Inv (s : state F) : Prop := ab_inv c_snapshot healthCheckConfig_IsValid SA SB s.

(** What a restart would load. *)
Definition boots (s : state F) : option (HealthCheckConfig_SnapshotTypeDef * Z) :=
  ab_boots c_snapshot healthCheckConfig_IsValid generation SA SB s.

(** The save follows the shared discipline. *)
Lemma cfg_save_ab (s : state F) c :
  healthCheckConfig_Save s c =
  let '(s', r) := ab_save c_snapshot healthCheckConfig_IsValid generation SA SB s (stamp c) in
  (s', stamp c, r).
Proof.
  unfold healthCheckConfig_Save, ab_save, ab_commit, other.
  destruct (W25Q64_EraseSector _ _) as [f1 s1]. destruct (flash_ok s1); [|done].
  destruct (W25Q64_Program _ _ _) as [f2 s2]. cbn [negb]. destruct (flash_ok s2); [|done].
  destruct (W25Q64_Read _ _ _) as [[f3 s3] d]. cbn [negb].
  by destruct (negb (flash_ok s3) || _ || _).
Qed.

Lemma Inv_wf s : Inv s -> c_wf c_snapshot (snapshot s).
Proof. apply ab_inv_wf. Qed.

(** A save keeps the invariant, whatever its outcome. *)
Lemma save_status_inv s c s' r :
  Inv s -> c_wf c_snapshot c -> save_status s c = (s', r) ->
  Inv s' /\ (r = HEALTH_CHECK_CONFIG_STATUS_OK /\ snapshot s' = stamp c
             \/ r = HEALTH_CHECK_CONFIG_STATUS_STORAGE_ERROR /\ snapshot s' = snapshot s).
Proof.
  intros Hi Hc%cfg_stamp_wf E. unfold save_status in E. rewrite cfg_save_ab in E.
  destruct (ab_save _ _ _ _ _ _ _) as [s1 r1] eqn:Es.
  pose proof (ab_save_inv _ _ _ _ _ _ _ _ _ Hc Es) as Hs.
  destruct r1; injection E as <- <-; unfold Inv in *; intuition.
Qed.

(** What a save leaves on the device, and what a restart finds there. *)
Lemma save_status_boots s c s' r :
  Inv s -> c_wf c_snapshot c -> generation (snapshot s) < generation (stamp c) ->
  save_status s c = (s', r) ->
  same_outside (fl_mem (flash s)) (fl_mem (flash s')) (other SA SB (activeAddress s))
    W25Q64_SECTOR_SIZE
  /\ (r = HEALTH_CHECK_CONFIG_STATUS_OK /\ activeAddress s' = other SA SB (activeAddress s)
        /\ boots s' = Some (stamp c, activeAddress s')
      \/ r = HEALTH_CHECK_CONFIG_STATUS_STORAGE_ERROR /\ activeAddress s' = activeAddress s
        /\ torn_boot c_snapshot healthCheckConfig_IsValid generation SA SB
             (fl_mem (flash s)) (fl_mem (flash s')) (snapshot s) (activeAddress s) (stamp c)).
Proof.
  intros Hi Hc%cfg_stamp_wf Hg E. unfold save_status in E. rewrite cfg_save_ab in E.
  destruct (ab_save _ _ _ _ _ _ _) as [s1 r1] eqn:Es.
  destruct (ab_save_outside _ _ _ _ _ _ _ _ _ Hc Es) as [Ho Ha].
  destruct r1; injection E as <- <-; (split; [done|]); [left|right]; (split; [done|]); (split; [done|]).
  - exact (ab_save_boots _ _ _ _ _ _ _ _ (or_introl (conj Hi Hg)) Hc Es).
  - exact (boot_torn_cases _ _ _ SA SB W25Q64_SECTOR_SIZE _ _ _ _ _ Hi Ho).
Qed.

(** On a device that answers, a save of a valid candidate succeeds. *)
Lemma save_status_ready s c :
  fl_ready (flash s) -> c_wf c_snapshot c -> period_in_range (periodSeconds c) = true ->
  exists s', save_status s c = (s', HEALTH_CHECK_CONFIG_STATUS_OK) /\ fl_ready (flash s').
Proof.
  intros Hr Hc Hp. unfold save_status. rewrite cfg_save_ab.
  destruct (ab_save_ready c_snapshot healthCheckConfig_IsValid generation SA SB s (stamp c))
    as (s' & -> & Hs'); [done|by apply cfg_stamp_wf|by rewrite cfg_stamp_valid|]. eauto.
Qed.
End theory.

(** ** The mutators compute the specified table *)

Lemma cstr_nil a : nth 0 a 0 = 0 <-> cstr a = [].
Proof. destruct a as [|c a]; simpl; [done|]. destruct (Z.eqb_spec c 0); naive_solver. Qed.

Lemma cstr_head a x : x <> 0 -> (nth 0 a 0 = x <-> head (cstr a) = Some x).
Proof. intros Hx. destruct a as [|c a]; simpl; [naive_solver|]. destruct (Z.eqb_spec c 0); naive_solver. Qed.

Lemma request_arguments h p q en anchor :
  match request h p q en anchor with
  | Some r => resource_arguments_invalid h p q anchor = false
      /\ r = Slot (cstr (default [] h)) p (cstr (default [] q)) (negb (en =? 0)) anchor
      /\ (strlen (default [] h) < 64)%nat /\ (strlen (default [] q) < 80)%nat
  | None => resource_arguments_invalid h p q anchor = true
  end.
Proof.
  unfold request, resource_arguments_invalid. destruct h as [h|]; [|done]. destruct q as [q|]; [|done].
  unfold TLS_TRUST_STORE_MIN_ID, TLS_TRUST_STORE_MAX_PERSISTED, strlen.
  unfold HEALTH_CHECK_CONFIG_HOST_SIZE, HEALTH_CHECK_CONFIG_PATH_SIZE.
  pose proof (cstr_nil h) as Hh. pose proof (cstr_head q 47 ltac:(lia)) as Hq.
  case_bool_decide as E.
  - destruct E as (H1 & H2 & H3 & H4 & H5 & H6). rewrite <-Hh in H1. rewrite <-Hq in H2.
    clear Hh Hq. split_and!; [lia|done..].
  - rewrite <-Hh, <-Hq in E. clear Hh Hq. lia.
Qed.

Lemma first_free_abs l : first_free l = first_none (map abs_slot l).
Proof.
  induction l as [|r l IH]; simpl; [done|]. unfold abs_slot at 1.
  destruct (occupied r =? 0); [done|]. by rewrite IH.
Qed.

Lemma first_none_lookup {A} (l : list (option A)) i : first_none l = Some i -> l !! i = Some None.
Proof.
  revert i; induction l as [|[x|] l IH]; intros i E; simpl in E; [done| |naive_solver].
  apply fmap_Some in E as (j & Hj & ->). by apply IH.
Qed.

Lemma zero_resource_wf : c_wf c_resource zero_resource.
Proof. apply resource_wf. by split_and!; try done; apply zeros_bytes. Qed.

(** A slot filled from acceptable arguments, with the bytes the code leaves
    alone taken from the old slot. *)
Lemma stored_resource o h p q en anchor rsv :
  is_u8 o -> o <> 0 -> is_u8 rsv -> Forall is_u8 h -> Forall is_u8 q -> is_u16 p -> is_u8 anchor ->
  (strlen h < 64)%nat -> (strlen q < 80)%nat ->
  let r := Resource o (if en =? 0 then 0 else 1) anchor rsv p
             (strncpy (zeros HEALTH_CHECK_CONFIG_HOST_SIZE) h (HEALTH_CHECK_CONFIG_HOST_SIZE - 1))
             (strncpy (zeros HEALTH_CHECK_CONFIG_PATH_SIZE) q (HEALTH_CHECK_CONFIG_PATH_SIZE - 1)) in
  c_wf c_resource r
  /\ abs_slot r = Some (Slot (cstr h) p (cstr q) (negb (en =? 0)) anchor).
Proof.
  intros Ho Hn Hrsv Hh Hq Hp Ha Lh Lq. cbv zeta. split.
  - apply resource_wf. cbn [occupied enabled trustAnchorId res_reserved port host path].
    split_and!; try done.
    + by destruct (en =? 0).
    + apply length_strncpy. rewrite length_zeros. lia.
    + apply strncpy_bytes; [apply zeros_bytes|done].
    + apply length_strncpy. rewrite length_zeros. lia.
    + apply strncpy_bytes; [apply zeros_bytes|done].
  - unfold abs_slot. cbn [occupied enabled trustAnchorId res_reserved port host path].
    destruct (Z.eqb_spec o 0); [done|]. rewrite !cstr_strncpy_zeros.
    + by destruct (en =? 0).
    + unfold HEALTH_CHECK_CONFIG_PATH_SIZE. lia.
    + unfold HEALTH_CHECK_CONFIG_HOST_SIZE. lia.
Qed.

Lemma with_resources_wf c i r :
  c_wf c_snapshot c -> c_wf c_resource r ->
  c_wf c_snapshot (with_resources c (<[i := r]> (resources c))).
Proof.
  intros (H1 & H2 & H3 & H4 & H5 & [Hl Hf] & H7)%cfg_snapshot_wf Hr. apply cfg_snapshot_wf. simpl.
  split_and!; try done; [by rewrite length_insert|by apply Forall_insert].
Qed.

Lemma abs_insert c i r :
  abs (with_resources c (<[i := r]> (resources c)))
  = Table (t_period (abs c)) (<[i := abs_slot r]> (t_slots (abs c))).
Proof. unfold abs. simpl. f_equal. apply list_fmap_insert. Qed.

Lemma abs_lookup c i r :
  resources c !! i = Some r -> t_slots (abs c) !! i = Some (abs_slot r).
Proof. intros Hr. unfold abs. simpl. rewrite list_lookup_fmap. by rewrite Hr. Qed.

Lemma abs_lookup_none c i : resources c !! i = None -> t_slots (abs c) !! i = None.
Proof. intros Hr. unfold abs. simpl. rewrite list_lookup_fmap. by rewrite Hr. Qed.

(** The candidate of a mutator whose guards pass: it is what the specification
    prescribes, and differs from the snapshot in nothing else. *)
Definition candidate_for (c : HealthCheckConfig_SnapshotTypeDef) (o : op)
    (c' : HealthCheckConfig_SnapshotTypeDef) (idx : option Z) : Prop :=
  spec (abs c) o = (abs c', HEALTH_CHECK_CONFIG_STATUS_OK, idx) /\ c_wf c_snapshot c'
  /\ generation c' = generation c
  /\ (period_in_range (periodSeconds c) = true -> period_in_range (periodSeconds c') = true).

Section refinement.
Context {F : Type} `{FlashLaws F}.

(** How a mutator behaves once it has the mutex: it rejects the request as
    specified and changes nothing, or saves the specified candidate. *)
Definition behaves (s : state F) (o : op)
    (res : state F * HealthCheckConfig_StatusTypeDef * option Z) : Prop :=
  (exists r, r <> HEALTH_CHECK_CONFIG_STATUS_OK
     /\ res = (s, r, None) /\ spec (abs (snapshot s)) o = (abs (snapshot s), r, None))
  \/ (exists c idx, candidate_for (snapshot s) o c idx
        /\ res = let '(s', r) := save_status s c in
                 (s', r, match r with HEALTH_CHECK_CONFIG_STATUS_OK => idx | _ => None end)).

Lemma save_status_none (s : state F) c :
  (save_status s c, @None Z) = let '(s', r) := save_status s c in
    (s', r, match r with HEALTH_CHECK_CONFIG_STATUS_OK => None | _ => None end).
Proof. by destruct (save_status s c) as [s' []]. Qed.

Lemma run_set_period s p :
  c_wf c_snapshot (snapshot s) -> is_u32 p -> behaves s (OpSetPeriod p) (run true s (OpSetPeriod p)).
Proof.
  intros Hc Hp. unfold behaves, run, HealthCheckConfig_SetPeriodSeconds. cbn [spec].
  destruct (period_in_range p) eqn:E.
  - right. exists (with_period (snapshot s) p), None. split.
    + apply cfg_snapshot_wf in Hc as (H1 & H2 & H3 & H4 & H5 & H6 & H7).
      unfold candidate_for. cbn [spec]. rewrite E. by split_and!.
    + rewrite <-save_status_none. unfold period_in_range in E.
      destruct (_ || _) eqn:E'; [lia|done].
  - left. eexists. split; [|split]; [|unfold period_in_range in E; destruct (_ || _) eqn:E'|];
      [..|done]; [done|done|lia].
Qed.

Lemma run_add s h p q en anchor :
  c_wf c_snapshot (snapshot s) -> op_wf (OpAdd h p q en anchor) ->
  behaves s (OpAdd h p q en anchor) (run true s (OpAdd h p q en anchor)).
Proof.
  intros Hc (Hh & Hp & Hq & He & Ha). unfold behaves, run, HealthCheckConfig_AddResource.
  unfold candidate_for. cbn [spec]. pose proof (request_arguments h p q en anchor) as Hr.
  destruct (request h p q en anchor) as [r|]; [|left; exists HEALTH_CHECK_CONFIG_STATUS_INVALID_ARGUMENT; by rewrite Hr].
  destruct Hr as (-> & -> & Lh & Lq). cbn [negb]. rewrite first_free_abs.
  change (map abs_slot (resources (snapshot s))) with (t_slots (abs (snapshot s))).
  destruct (first_none _) as [i|]; [|left; by exists HEALTH_CHECK_CONFIG_STATUS_FULL].
  right. destruct (stored_resource 1 (default [] h) p (default [] q) en anchor 0)
    as [Hw Habs]; try done.
  eexists _, _. split; [|reflexivity]. unfold new_resource. rewrite abs_insert, Habs.
  split_and!; try done. by apply with_resources_wf.
Qed.

Lemma lookup_slot (s : state F) i :
  c_wf c_snapshot (snapshot s) ->
  if (HEALTH_CHECK_CONFIG_MAX_RESOURCES <=? i)%nat
  then t_slots (abs (snapshot s)) !! i = None
  else let r := nth i (resources (snapshot s)) zero_resource in
       t_slots (abs (snapshot s)) !! i = Some (abs_slot r) /\ c_wf c_resource r.
Proof.
  intros (_ & _ & _ & _ & _ & [Hl Hf] & _)%cfg_snapshot_wf. destruct (Nat.leb_spec HEALTH_CHECK_CONFIG_MAX_RESOURCES i).
  - apply abs_lookup_none, lookup_ge_None. by rewrite Hl.
  - destruct (lookup_lt_is_Some_2 (resources (snapshot s)) i) as [r Hr]; [by rewrite Hl|].
    cbv zeta. rewrite (nth_lookup_Some _ _ _ _ Hr).
    split; [by apply abs_lookup|]. by eapply Forall_lookup_1.
Qed.

Lemma run_update s i h p q en anchor :
  c_wf c_snapshot (snapshot s) -> op_wf (OpUpdate i h p q en anchor) ->
  behaves s (OpUpdate i h p q en anchor) (run true s (OpUpdate i h p q en anchor)).
Proof.
  intros Hc (Hh & Hp & Hq & He & Ha). unfold behaves, run, HealthCheckConfig_UpdateResource.
  unfold candidate_for. cbn [spec]. pose proof (request_arguments h p q en anchor) as Hr.
  pose proof (lookup_slot s i Hc) as Hl.
  destruct (_ <=? i)%nat; cbn [orb]; [rewrite Hl; left; by exists HEALTH_CHECK_CONFIG_STATUS_INVALID_ARGUMENT|].
  set (r := nth i _ _) in *. cbv zeta in Hl. destruct Hl as [-> Hw].
  destruct (request h p q en anchor) as [x|];
    [|rewrite Hr; left; exists HEALTH_CHECK_CONFIG_STATUS_INVALID_ARGUMENT; by destruct (abs_slot r)].
  destruct Hr as (-> & -> & Lh & Lq). cbn [negb].
  unfold abs_slot. destruct (Z.eqb_spec (occupied r) 0);
    [left; by exists HEALTH_CHECK_CONFIG_STATUS_NOT_FOUND|].
  apply resource_wf in Hw as (W1 & _ & _ & W4 & _).
  right. destruct (stored_resource (occupied r) (default [] h) p (default [] q) en anchor
    (res_reserved r)) as [Hw Habs]; try done.
  eexists _, _. split; [|apply save_status_none]. rewrite abs_insert, Habs.
  split_and!; try done. by apply with_resources_wf.
Qed.

Lemma run_delete s i :
  c_wf c_snapshot (snapshot s) -> behaves s (OpDelete i) (run true s (OpDelete i)).
Proof.
  intros Hc. unfold behaves, run, HealthCheckConfig_DeleteResource, candidate_for. cbn [spec].
  pose proof (lookup_slot s i Hc) as Hl.
  destruct (_ <=? i)%nat; [rewrite Hl; left; by exists HEALTH_CHECK_CONFIG_STATUS_INVALID_ARGUMENT|].
  set (r := nth i _ _) in *. cbv zeta in Hl. destruct Hl as [-> Hw]. cbn [negb].
  unfold abs_slot. destruct (occupied r =? 0); [left; by exists HEALTH_CHECK_CONFIG_STATUS_NOT_FOUND|].
  right. eexists _, _. split; [|apply save_status_none]. rewrite abs_insert.
  split_and!; try done. apply with_resources_wf; [done|apply zero_resource_wf].
Qed.

Lemma cfg_run_behaves s o :
  c_wf c_snapshot (snapshot s) -> op_wf o -> behaves s o (run true s o).
Proof.
  intros Hc Ho. destruct o;
    eauto using run_set_period, run_add, run_update, run_delete.
Qed.
End refinement.

Section theorems.
Context {F : Type} `{FlashLaws F}.

Lemma Inv_period (s : state F) : Inv s -> period_in_range (periodSeconds (snapshot s)) = true.
Proof. intros (_ & _ & Hv). unfold healthCheckConfig_IsValid in Hv. rewrite !andb_true_iff in Hv. apply Hv. Qed.

(** C2. Every mutator of the configuration refines the abstract resource table:
    it returns the specified status and slot index and leaves the specified
    table in RAM and in the active sector, or reports a storage error and
    changes nothing in RAM; on a device that answers the first always
    happens. *)
Theorem config_refines (s : state F) (o : op) s' r idx :
  Inv s -> op_wf o -> run true s o = (s', r, idx) ->
  Inv s'
  /\ ((abs (snapshot s'), r, idx) = spec (abs (snapshot s)) o
      \/ r = HEALTH_CHECK_CONFIG_STATUS_STORAGE_ERROR /\ idx = None /\ snapshot s' = snapshot s)
  /\ (fl_ready (flash s) ->
      (abs (snapshot s'), r, idx) = spec (abs (snapshot s)) o /\ fl_ready (flash s')).
Proof.
  intros Hi Ho E. pose proof (cfg_run_behaves s o (Inv_wf s Hi) Ho) as Hb. rewrite E in Hb.
  destruct Hb as [(r0 & Hr & [= -> -> ->] & Hs)|(c & i & (Hs & Hw & Hg & Hp) & Hres)].
  - split; [done|]. rewrite Hs. auto.
  - destruct (save_status s c) as [s1 r1] eqn:Es. injection Hres as -> -> ->.
    destruct (save_status_inv s c s1 r1 Hi Hw Es) as [Hi' Hcase]. split; [done|].
    rewrite Hs. split.
    + destruct Hcase as [[-> ->]|[-> ->]]; auto.
    + intros Hr. destruct (save_status_ready s c Hr Hw (Hp (Inv_period s Hi))) as (s2 & E2 & Hr2).
      rewrite E2 in Es. injection Es as -> <-. destruct Hcase as [[_ ->]|[[=] _]]. auto.
Qed.
End theorems.

(** ** Start-up *)

(** The table an older format is migrated to: slots bound to the removed
    built-in anchor 0 are dropped, version 1 keeps only the period. *)
Definition drop_builtin (o : option slot) : option slot :=
  match o with
  | Some x => if slot_anchor x =? 0 then None else Some x
  | None => None
  end.

Definition migrated_table (m : mem) : table :=
  let SA := HEALTH_CHECK_CONFIG_SECTOR_A in
  let SB := HEALTH_CHECK_CONFIG_SECTOR_B in
  match boot c_snapshot healthCheckConfig_IsFactoryVersionValid generation SA SB m with
  | Some (p, _) => Table (periodSeconds p) (map drop_builtin (t_slots (abs p)))
  | None =>
  match boot c_previous healthCheckConfig_IsPreviousValid prev_generation SA SB m with
  | Some (p, _) => Table (prev_periodSeconds p)
      (map drop_builtin (map abs_slot (prev_resources p)) ++ [None; None; None])
  | None =>
  match boot c_legacy healthCheckConfig_IsLegacyValid leg_generation SA SB m with
  | Some (l, _) => Table (leg_periodSeconds l) (replicate 6 None)
  | None => Table 60 (replicate 6 None)
  end end end.

Lemma remove_factory_reference_abs r :
  abs_slot (remove_factory_reference r) = drop_builtin (abs_slot r).
Proof.
  unfold remove_factory_reference, abs_slot. destruct (occupied r =? 0) eqn:E; simpl.
  - by rewrite E.
  - destruct (trustAnchorId r =? 0); simpl; [done|]. by rewrite E.
Qed.

Lemma remove_factory_reference_wf r :
  c_wf c_resource r -> c_wf c_resource (remove_factory_reference r).
Proof. intros Hr. unfold remove_factory_reference. case_match; [apply zero_resource_wf|done]. Qed.

Lemma remove_references_wf c :
  c_wf c_snapshot c -> c_wf c_snapshot (healthCheckConfig_RemoveFactoryReferences c).
Proof.
  intros (H1 & H2 & H3 & H4 & H5 & [Hl Hf] & H7)%cfg_snapshot_wf. apply cfg_snapshot_wf. simpl.
  split_and!; try done; [by rewrite length_map|].
  apply Forall_fmap. eapply Forall_impl; [|exact Hf]. intros r. apply remove_factory_reference_wf.
Qed.

Lemma remove_references_abs c :
  abs (healthCheckConfig_RemoveFactoryReferences c)
  = Table (periodSeconds c) (map drop_builtin (t_slots (abs c))).
Proof.
  unfold abs, healthCheckConfig_RemoveFactoryReferences. simpl. f_equal.
  rewrite !map_map. apply map_ext. apply remove_factory_reference_abs.
Qed.

Lemma zero_slots_wf n : Forall (c_wf c_resource) (replicate n zero_resource).
Proof. apply Forall_replicate, zero_resource_wf. Qed.

Lemma migrate_previous_wf p :
  c_wf c_previous p -> c_wf c_snapshot (healthCheckConfig_MigratePrevious p).
Proof.
  intros (H1 & H2 & Hl & Hf)%previous_wf. apply remove_references_wf, cfg_snapshot_wf.
  cbn [magic version reserved generation periodSeconds resources crc].
  split_and!; try done.
  - rewrite length_app, Hl. done.
  - apply Forall_app_2; [done|]. apply (zero_slots_wf 3).
Qed.

Lemma migrate_legacy_wf l :
  c_wf c_legacy l -> c_wf c_snapshot (healthCheckConfig_MigrateLegacy l).
Proof.
  intros [H1 H2]%legacy_wf. apply cfg_snapshot_wf. split_and!; try done.
  apply (zero_slots_wf 6).
Qed.

Lemma default_wf : c_wf c_snapshot healthCheckConfig_SetDefault.
Proof. apply cfg_snapshot_wf. split_and!; try done. apply (zero_slots_wf 6). Qed.

Section startup.
Context {F : Type} `{FlashLaws F}.

Abbreviation SA := HEALTH_CHECK_CONFIG_SECTOR_A.
Abbreviation SB := HEALTH_CHECK_CONFIG_SECTOR_B.

(** A migration's save: on success the new image is in its sector. *)
Lemma save_snapshot_inv s s' :
  c_wf c_snapshot (snapshot s) -> save_snapshot s = (s', HEALTH_CHECK_STATUS_OK) -> Inv s'.
Proof.
  intros Hc%cfg_stamp_wf E. unfold save_snapshot in E. rewrite cfg_save_ab in E.
  destruct (ab_save _ _ _ _ _ _ _) as [s1 r1] eqn:Es. injection E as <- ->.
  destruct (ab_save_inv _ _ _ _ _ _ _ _ _ Hc Es) as [Hi Hs]. unfold Inv, ab_inv in *.
  simpl. by rewrite Hs in Hi.
Qed.

Lemma save_snapshot_ready s :
  fl_ready (flash s) -> activeAddress s = SA \/ activeAddress s = SB -> boots s = None ->
  c_wf c_snapshot (snapshot s) -> period_in_range (periodSeconds (snapshot s)) = true ->
  exists s', save_snapshot s = (s', HEALTH_CHECK_STATUS_OK) /\ fl_ready (flash s') /\ Inv s'
    /\ boots s' = Some (snapshot s', activeAddress s') /\ abs (snapshot s') = abs (snapshot s).
Proof.
  intros Hr Ha Hb Hc Hp. pose proof (cfg_stamp_wf _ Hc) as Hw.
  destruct (ab_save_ready c_snapshot healthCheckConfig_IsValid generation SA SB s
    (stamp (snapshot s)) Hr Hw) as (s' & Es & Hr'); [by rewrite cfg_stamp_valid|].
  assert (ab_fresh c_snapshot healthCheckConfig_IsValid SA SB s) as Hf.
  { split; [exact Ha|].
    exact (boot_none c_snapshot healthCheckConfig_IsValid generation SA SB _ Hb _ Ha). }
  pose proof (ab_save_boots _ _ _ _ _ _ _ _ (or_intror Hf) Hw Es) as Hb'.
  destruct (ab_save_inv _ _ _ _ _ _ _ _ _ Hw Es) as [Hi Hs].
  exists s'. unfold save_snapshot. rewrite cfg_save_ab, Es. rewrite Hs. destruct s' as [x a f].
  simpl in *. subst x. by split_and!.
Qed.

(** Any start-up that reports success, on a faulty device too. *)
Lemma cfg_init_inv created s s' :
  HealthCheckConfig_Init created s = (s', HEALTH_CHECK_STATUS_OK) -> Inv s'.
Proof.
  intros E. unfold HealthCheckConfig_Init in E. destruct created; [|done]. cbn [negb] in E.
  destruct (load_newest c_snapshot healthCheckConfig_IsValid _ _ _ _) as [f1 r1] eqn:E1.
  destruct (load_newest_spec _ _ _ SA SB _ _ _ E1) as [_ H1].
  destruct r1 as [[x a]|]; [injection E as <-; exact (H1 _ _ eq_refl)|].
  destruct (load_newest c_snapshot healthCheckConfig_IsFactoryVersionValid _ _ _ _)
    as [f2 r2] eqn:E2.
  destruct (load_newest_spec _ _ _ SA SB _ _ _ E2) as [_ H2].
  destruct r2 as [[x a]|].
  { eapply save_snapshot_inv; [|exact E]. apply remove_references_wf.
    exact (holds_wf _ _ SA SB _ _ _ (H2 _ _ eq_refl)). }
  destruct (load_newest c_previous _ _ _ _ _) as [f3 r3] eqn:E3.
  destruct (load_newest_spec _ _ _ SA SB _ _ _ E3) as [_ H3].
  destruct r3 as [[x a]|].
  { eapply save_snapshot_inv; [|exact E]. apply migrate_previous_wf.
    exact (holds_wf _ _ SA SB _ _ _ (H3 _ _ eq_refl)). }
  destruct (load_newest c_legacy _ _ _ _ _) as [f4 r4] eqn:E4.
  destruct (load_newest_spec _ _ _ SA SB _ _ _ E4) as [_ H4].
  destruct r4 as [[x a]|].
  { eapply save_snapshot_inv; [|exact E]. apply migrate_legacy_wf.
    exact (holds_wf _ _ SA SB _ _ _ (H4 _ _ eq_refl)). }
  eapply save_snapshot_inv; [|exact E]. apply default_wf.
Qed.
Lemma period_valid_factory x :
  healthCheckConfig_IsFactoryVersionValid x = true -> period_in_range (periodSeconds x) = true.
Proof. unfold healthCheckConfig_IsFactoryVersionValid. rewrite !andb_true_iff. tauto. Qed.
Lemma period_valid_previous x :
  healthCheckConfig_IsPreviousValid x = true -> period_in_range (prev_periodSeconds x) = true.
Proof. unfold healthCheckConfig_IsPreviousValid. rewrite !andb_true_iff. tauto. Qed.
Lemma period_valid_legacy x :
  healthCheckConfig_IsLegacyValid x = true -> period_in_range (leg_periodSeconds x) = true.
Proof. unfold healthCheckConfig_IsLegacyValid. rewrite !andb_true_iff. tauto. Qed.

(** Loading one format on a device that answers. *)
Lemma load_step {A} (c : codec A) (valid : A -> bool) (gen : A -> Z) f m :
  AbPair c SA SB W25Q64_SECTOR_SIZE -> fl_ready f -> mem_eq (fl_mem f) m ->
  exists f', load_newest c valid gen SA SB f = (f', boot c valid gen SA SB m)
    /\ fl_ready f' /\ mem_eq (fl_mem f') m
    /\ forall x a, boot c valid gen SA SB m = Some (x, a) ->
         (a = SA \/ a = SB) /\ valid x = true /\ c_wf c x.
Proof.
  intros Hp Hr Hm. destruct (load_newest_ready c valid gen SA SB f Hr) as (f' & E & Hr' & Hm').
  exists f'. rewrite Hm in E. split; [done|]. split; [done|]. split; [by etrans|].
  intros x a Hb. rewrite <-Hm in Hb. pose proof (boot_holds c valid gen SA SB _ _ _ Hb) as Hh.
  pose proof (holds_wf (F := F) _ _ SA SB _ _ _ Hh). destruct Hh as (? & _ & ?). auto.
Qed.

(** Saving what was migrated. *)
Lemma migrate_step f x a m t :
  boot c_snapshot healthCheckConfig_IsValid generation SA SB m = None ->
  fl_ready f -> mem_eq (fl_mem f) m -> a = SA \/ a = SB -> c_wf c_snapshot x ->
  period_in_range (periodSeconds x) = true -> abs x = t ->
  exists s', save_snapshot (Store x a f) = (s', HEALTH_CHECK_STATUS_OK)
    /\ fl_ready (flash s') /\ Inv s' /\ boots s' = Some (snapshot s', activeAddress s')
    /\ abs (snapshot s') = t.
Proof.
  intros Hb Hr Hm Ha Hw Hp <-. rewrite <-Hm in Hb.
  exact (save_snapshot_ready (Store x a f) Hr Ha Hb Hw Hp).
Qed.

Lemma migrate_previous_abs x :
  abs (healthCheckConfig_MigratePrevious x)
  = Table (prev_periodSeconds x)
      (map drop_builtin (map abs_slot (prev_resources x)) ++ [None; None; None]).
Proof.
  unfold healthCheckConfig_MigratePrevious. rewrite remove_references_abs. unfold abs. simpl.
  by rewrite !map_app.
Qed.

(** Start-up on a device that answers always succeeds: it loads the newest
    valid configuration of the pair without writing, or, when there is none,
    migrates the newest image of the newest older format (or the defaults)
    and makes the result what the next restart loads. *)
Lemma config_init (s : state F) :
  fl_ready (flash s) ->
  exists s', HealthCheckConfig_Init true s = (s', HEALTH_CHECK_STATUS_OK)
    /\ fl_ready (flash s') /\ Inv s' /\ boots s' = Some (snapshot s', activeAddress s')
    /\ match boots s with
       | Some (x, a) => snapshot s' = x /\ activeAddress s' = a
           /\ mem_eq (fl_mem (flash s')) (fl_mem (flash s))
       | None => abs (snapshot s') = migrated_table (fl_mem (flash s))
       end.
Proof.
  intros Hr. unfold HealthCheckConfig_Init, boots, ab_boots, migrated_table. cbn [negb]. cbv zeta.
  destruct (load_step c_snapshot healthCheckConfig_IsValid generation (flash s)
    (fl_mem (flash s)) _ Hr) as (f1 & -> & R1 & M1 & W1); [done|].
  destruct (boot c_snapshot healthCheckConfig_IsValid _ _ _ _) as [[x a]|] eqn:B1.
  { eexists. split; [reflexivity|]. cbn [snapshot activeAddress flash]. rewrite M1.
    split_and!; [done| |done..]. rewrite <-M1 in B1. exact (boot_holds _ _ _ _ _ _ _ _ B1). }
  destruct (load_step c_snapshot healthCheckConfig_IsFactoryVersionValid generation f1
    _ _ R1 M1) as (f2 & -> & R2 & M2 & W2).
  destruct (boot c_snapshot healthCheckConfig_IsFactoryVersionValid _ _ _ _) as [[x a]|].
  { destruct (W2 _ _ eq_refl) as (Ha & Hv & Hw).
    apply (migrate_step f2 _ a _ _ B1 R2 M2 Ha (remove_references_wf _ Hw)
      (period_valid_factory _ Hv)). apply remove_references_abs. }
  destruct (load_step c_previous healthCheckConfig_IsPreviousValid prev_generation f2
    _ _ R2 M2) as (f3 & -> & R3 & M3 & W3).
  destruct (boot c_previous _ _ _ _ _) as [[x a]|].
  { destruct (W3 _ _ eq_refl) as (Ha & Hv & Hw).
    apply (migrate_step f3 _ a _ _ B1 R3 M3 Ha (migrate_previous_wf _ Hw)
      (period_valid_previous _ Hv)). apply migrate_previous_abs. }
  destruct (load_step c_legacy healthCheckConfig_IsLegacyValid leg_generation f3
    _ _ R3 M3) as (f4 & -> & R4 & M4 & W4).
  destruct (boot c_legacy _ _ _ _ _) as [[x a]|].
  { destruct (W4 _ _ eq_refl) as (Ha & Hv & Hw).
    by apply (migrate_step f4 _ a _ _ B1 R4 M4 Ha (migrate_legacy_wf _ Hw)
      (period_valid_legacy _ Hv)). }
  apply (migrate_step f4 _ SB _ _ B1 R4 M4 (or_intror eq_refl) default_wf); reflexivity.
Qed.

(** A start-up on a device that holds the memory [m] and answers loads [c]
    from the sector [a], without writing. *)
Definition next_start (m : mem) (c : HealthCheckConfig_SnapshotTypeDef) (a : Z) : Prop :=
  forall s0 : state F, fl_ready (flash s0) -> mem_eq (fl_mem (flash s0)) m ->
  exists s1, HealthCheckConfig_Init true s0 = (s1, HEALTH_CHECK_STATUS_OK)
    /\ snapshot s1 = c /\ activeAddress s1 = a /\ mem_eq (fl_mem (flash s1)) m.

Lemma boots_next_start (s : state F) c a :
  boots s = Some (c, a) -> next_start (fl_mem (flash s)) c a.
Proof.
  intros Hb s0 Hr Hm. destruct (config_init s0 Hr) as (s1 & E & _ & _ & _ & H1).
  assert (boots s0 = Some (c, a)) as Hb0 by (unfold boots, ab_boots in *; by rewrite Hm).
  rewrite Hb0 in H1. destruct H1 as (? & ? & H1). exists s1. split_and!; try done. by etrans.
Qed.

End startup.

(** ** Concrete instances: a blank device, then a first resource *)

Definition demo0 : state simflash := (HealthCheckConfig_Init true (Store zero_snapshot 0 blank)).1.

Definition demo_add : op :=
  OpAdd (Some (str "example.org")) 443 (Some (str "/health")) 1 2.

Lemma cfg_demo0_inv : Inv demo0.
Proof.
  assert ((HealthCheckConfig_Init true (Store zero_snapshot 0 blank)).2 = HEALTH_CHECK_STATUS_OK)
    as H by (vm_compute; reflexivity).
  unfold demo0. exact (cfg_init_inv _ _ _ (pair_snd _ _ H)).
Qed.

Lemma demo_add_wf : op_wf demo_add.
Proof. split_and!; try apply str_bytes; unfold is_u8, is_u16; lia. Qed.

Lemma config_init_witness :
  exists s', HealthCheckConfig_Init true (Store zero_snapshot 0 blank) = (s', HEALTH_CHECK_STATUS_OK)
    /\ abs (snapshot s') = Table 60 (replicate 6 None).
Proof.
  destruct (config_init (Store zero_snapshot 0 blank) blank_ready)
    as (s' & E & _ & _ & _ & Hm). exists s'. split; [exact E|].
  assert (boots (Store zero_snapshot 0 blank) = None) as B by (vm_compute; reflexivity).
  rewrite B in Hm. rewrite Hm. vm_compute. reflexivity.
Defined.

(** What evaluation shows of the outcome: its status, index and generation. *)
Lemma demo_add_outcome s' r idx :
  run true demo0 demo_add = (s', r, idx) ->
  r = HEALTH_CHECK_CONFIG_STATUS_OK /\ idx = Some 0
  /\ generation (snapshot s') = 2 /\ generation (snapshot demo0) = 1.
Proof.
  intros E.
  assert (let '(s', r, idx) := run true demo0 demo_add in
          (r, idx, generation (snapshot s')) = (HEALTH_CHECK_CONFIG_STATUS_OK, Some 0, 2)) as H
    by (vm_compute; reflexivity).
  rewrite E in H. injection H as -> -> ->. do 3 (split; [reflexivity|]). vm_compute. reflexivity.
Qed.

Lemma config_refines_witness :
  exists s', run true demo0 demo_add = (s', HEALTH_CHECK_CONFIG_STATUS_OK, Some 0)
    /\ Inv s' /\ abs (snapshot s') = (spec (abs (snapshot demo0)) demo_add).1.1.
Proof.
  destruct (run true demo0 demo_add) as [[s' r] idx] eqn:E.
  destruct (demo_add_outcome _ _ _ E) as (Hr & Hidx & _).
  destruct (config_refines demo0 demo_add s' r idx cfg_demo0_inv demo_add_wf E)
    as (Hi & [Hs|[Hs _]] & _).
  - exists s'. rewrite Hr, Hidx. split; [reflexivity|]. split; [exact Hi|].
    rewrite <-Hs. reflexivity.
  - rewrite Hr in Hs. discriminate Hs.
Defined.

(** The same device, whose next program operation stops after 200 bytes. *)
Definition demo_torn : state simflash :=
  Store (snapshot demo0) (activeAddress demo0) (SimFlash (sim_mem (flash demo0)) [None; Some 200%nat]).

Lemma cfg_demo_torn_inv : Inv demo_torn.
Proof. exact cfg_demo0_inv. Qed.

Lemma cfg_demo_torn_outcome s' r idx :
  run true demo_torn demo_add = (s', r, idx) ->
  r = HEALTH_CHECK_CONFIG_STATUS_STORAGE_ERROR /\ idx = None
  /\ boots s' = Some (snapshot demo0, activeAddress demo0)
  /\ sim_mem (flash s') (other HEALTH_CHECK_CONFIG_SECTOR_A HEALTH_CHECK_CONFIG_SECTOR_B
                            (activeAddress demo0)) <> 255.
Proof.
  intros E.
  pose (x := run true demo_torn demo_add).
  assert ((x.1.2, x.2, boots x.1.1) = (HEALTH_CHECK_CONFIG_STATUS_STORAGE_ERROR, None,
            Some (snapshot demo0, activeAddress demo0))) as H by (vm_compute; reflexivity).
  assert ((sim_mem (flash x.1.1) (other HEALTH_CHECK_CONFIG_SECTOR_A HEALTH_CHECK_CONFIG_SECTOR_B
            (activeAddress demo0)) =? 255) = false) as H2 by (vm_compute; reflexivity).
  unfold x in H, H2. rewrite E in H, H2. cbn [fst snd] in H, H2. injection H as -> -> ->.
  split; [reflexivity|]. split; [reflexivity|]. split; [reflexivity|]. by apply Z.eqb_neq.
Qed.

