(* ===== verification/UserStore.v ===== *)
(** [Srv/Src/user_store.c]: the persisted management accounts.

    The store keeps at most eight records in a pair of alternating sectors.  The
    file models every operation and proves that the store refines a finite map
    from account names to records: names stay unique, [Put] inserts or
    replaces, [Delete] removes and closes the gap, [Find] and [List] read the
    map, and a save that is cut short leaves the old or the new accounts. *)
From stdpp Require Import gmap.
From S2P Require Import Prelude Codec Crc NorFlash SimFlash FlashLayout AbStore.

Definition USER_STORE_MAGIC : Z := 0x55534552.
Definition USER_STORE_VERSION : Z := 1.
Definition USER_STORE_SECTOR_A := FLASH_LAYOUT_USER_STORE_SECTOR_A.
Definition USER_STORE_SECTOR_B := FLASH_LAYOUT_USER_STORE_SECTOR_B.
Definition USER_STORE_MAX_USERS : nat := 8.
Definition USER_STORE_USERNAME_SIZE : nat := 25.
Definition USER_STORE_SALT_SIZE : nat := 16.
Definition USER_STORE_VERIFIER_SIZE : nat := 32.

(** [UserStore_RoleTypeDef] *)
Definition USER_ROLE_USER : Z := 0.
Definition USER_ROLE_ADMINISTRATOR : Z := 1.

(** [UserStore_RecordTypeDef]: the 75 bytes before [iterations] are followed by
    one byte of padding. *)
Record UserStore_RecordTypeDef := User {
  u_enabled : Z;
  u_role : Z;
  u_username : bytes;
  u_salt : bytes;
  u_verifier : bytes;
  u_padding : Z;
  u_iterations : Z;
}.

#[global] Instance User_eq_dec : EqDecision UserStore_RecordTypeDef.
Proof. solve_decision. Defined.

Definition c_user : codec UserStore_RecordTypeDef.
Proof.
  refine (c_iso (c_u8 ** c_u8 ** c_bytes USER_STORE_USERNAME_SIZE ** c_bytes USER_STORE_SALT_SIZE
                 ** c_bytes USER_STORE_VERIFIER_SIZE ** c_u8 ** c_u32)%codec
    (fun '(e, (r, (n, (s, (v, (p, i)))))) => User e r n s v p i)
    (fun x => (u_enabled x, (u_role x, (u_username x, (u_salt x, (u_verifier x,
       (u_padding x, u_iterations x))))))) _ _).
  - by intros [].
  - by intros (?&?&?&?&?&?&?).
Defined.

(** [UserStore_SnapshotTypeDef] *)
Record UserStore_SnapshotTypeDef := Snapshot {
  magic : Z;
  version : Z;
  count : Z;
  generation : Z;
  users : list UserStore_RecordTypeDef;
  crc : Z;
}.

#[global] Instance Snapshot_eq_dec : EqDecision UserStore_SnapshotTypeDef.
Proof. solve_decision. Defined.

Definition c_snapshot : codec UserStore_SnapshotTypeDef.
Proof.
  refine (c_iso (c_u32 ** c_u16 ** c_u16 ** c_u32 ** c_array c_user USER_STORE_MAX_USERS
                 ** c_u32)%codec
    (fun '(m, (v, (n, (g, (l, c))))) => Snapshot m v n g l c)
    (fun x => (magic x, (version x, (count x, (generation x, (users x, crc x)))))) _ _).
  - by intros [].
  - by intros (?&?&?&?&?&?).
Defined.

Arguments c_user : simpl never.
Arguments c_snapshot : simpl never.

Example user_store_sizes : (c_size c_user, c_size c_snapshot) = (80, 656)%nat.
Proof. reflexivity. Qed.

(** ** Pure helpers *)

Definition userStore_Crc (c : UserStore_SnapshotTypeDef) : Z :=
  crc32 (prefix_before_crc c_snapshot c).

Definition userStore_IsValid (c : UserStore_SnapshotTypeDef) : bool :=
  (magic c =? USER_STORE_MAGIC) && (version c =? USER_STORE_VERSION)
  && (count c <=? Z.of_nat USER_STORE_MAX_USERS) && (crc c =? userStore_Crc c).

Definition zero_user : UserStore_RecordTypeDef :=
  User 0 0 (zeros USER_STORE_USERNAME_SIZE) (zeros USER_STORE_SALT_SIZE)
    (zeros USER_STORE_VERIFIER_SIZE) 0 0.

Definition zero_snapshot : UserStore_SnapshotTypeDef :=
  Snapshot 0 0 0 0 (replicate USER_STORE_MAX_USERS zero_user) 0.

(** The header [userStore_Save] writes into the candidate. *)
Definition stamp_header (c : UserStore_SnapshotTypeDef) :=
  Snapshot USER_STORE_MAGIC USER_STORE_VERSION (count c) (u32 (generation c + 1)) (users c) (crc c).

Definition with_crc (c : UserStore_SnapshotTypeDef) x :=
  Snapshot (magic c) (version c) (count c) (generation c) (users c) x.

Definition stamp (c : UserStore_SnapshotTypeDef) :=
  let c := stamp_header c in with_crc c (userStore_Crc c).

Definition with_users (c : UserStore_SnapshotTypeDef) (n : Z) l :=
  Snapshot (magic c) (version c) n (generation c) l (crc c).

(** The search loop of [Find], [Put] and [Delete]: the first position below
    [n] whose name matches, or [n]. *)
Fixpoint find_position (n : nat) (l : list UserStore_RecordTypeDef) (name : bytes) : nat :=
  match n, l with
  | S n, r :: l => if strcmp_eq (u_username r) name then O else S (find_position n l name)
  | _, _ => O
  end.

(** [for (tail = position; tail + 1 < count; ++tail) users[tail] = users[tail + 1]] *)
Fixpoint shift_down (fuel : nat) (tail count : nat) (l : list UserStore_RecordTypeDef) :=
  match fuel with
  | O => l
  | S fuel =>
      if (tail + 1 <? count)%nat
      then shift_down fuel (tail + 1) count (<[tail := nth (tail + 1) l zero_user]> l)
      else l
  end.

(** ** Operations *)

Section ops.
Context {F : Type} `{Flash F}.
Abbreviation state := (store UserStore_SnapshotTypeDef F).

Definition userStore_Save (s : state) (candidate : UserStore_SnapshotTypeDef) :
    state * HealthCheck_StatusTypeDef :=
  let target := if activeAddress s =? USER_STORE_SECTOR_A
                then USER_STORE_SECTOR_B else USER_STORE_SECTOR_A in
  let candidate := stamp candidate in
  let failed f := (Store (snapshot s) (activeAddress s) f, HEALTH_CHECK_STATUS_ERROR) in
  let '(f, s1) := W25Q64_EraseSector (flash s) target in
  if negb (flash_ok s1) then failed f else
  let '(f, s2) := W25Q64_Program f target (c_enc c_snapshot candidate) in
  if negb (flash_ok s2) then failed f else
  let '(f, s3, d) := W25Q64_Read f target (c_size c_snapshot) in
  let verification := c_dec c_snapshot d in
  if negb (flash_ok s3) || negb (userStore_IsValid verification)
     || negb (generation verification =? generation candidate)
  then failed f
  else (Store candidate target f, HEALTH_CHECK_STATUS_OK).

(** [created] is whether the mutex was created. *)
Definition UserStore_Init (created : bool) (s : state) : state * HealthCheck_StatusTypeDef :=
  if negb created then (s, HEALTH_CHECK_STATUS_ERROR) else
  let '(f, newest) := load_newest c_snapshot userStore_IsValid generation
    USER_STORE_SECTOR_A USER_STORE_SECTOR_B (flash s) in
  (match newest with
   | Some (x, address) => Store x address f
   | None => Store zero_snapshot USER_STORE_SECTOR_B f
   end, HEALTH_CHECK_STATUS_OK).

(** The record and its position, or [None] for an error status; [None] for a
    [NULL] name.  [taken] is the outcome of [xSemaphoreTake]. *)
Definition UserStore_Find (taken : bool) (s : state) (name : option bytes) :
    option (UserStore_RecordTypeDef * nat) :=
  match name with
  | None => None
  | Some name =>
      if negb taken then None else
      let n := Z.to_nat (count (snapshot s)) in
      let position := find_position n (users (snapshot s)) name in
      if (position <? n)%nat
      then Some (nth position (users (snapshot s)) zero_user, position) else None
  end.

Definition UserStore_Put (taken : bool) (s : state) (record : option UserStore_RecordTypeDef) :
    state * HealthCheck_StatusTypeDef :=
  match record with
  | None => (s, HEALTH_CHECK_STATUS_ERROR)
  | Some record =>
      if nth 0 (u_username record) 0 =? 0 then (s, HEALTH_CHECK_STATUS_ERROR) else
      if negb taken then (s, HEALTH_CHECK_STATUS_ERROR) else
      let candidate := snapshot s in
      let position :=
        find_position (Z.to_nat (count candidate)) (users candidate) (u_username record) in
      if Z.of_nat position =? count candidate then
        if Z.of_nat USER_STORE_MAX_USERS <=? count candidate
        then (s, HEALTH_CHECK_STATUS_ERROR)
        else userStore_Save s (with_users candidate (u16 (count candidate + 1))
                                 (<[position := record]> (users candidate)))
      else userStore_Save s (with_users candidate (count candidate)
                               (<[position := record]> (users candidate)))
  end.

Definition UserStore_Delete (taken : bool) (s : state) (name : option bytes) :
    state * HealthCheck_StatusTypeDef :=
  match name with
  | None => (s, HEALTH_CHECK_STATUS_ERROR)
  | Some name =>
      if negb taken then (s, HEALTH_CHECK_STATUS_ERROR) else
      let candidate := snapshot s in
      let n := Z.to_nat (count candidate) in
      let position := find_position n (users candidate) name in
      if Z.of_nat position =? count candidate then (s, HEALTH_CHECK_STATUS_ERROR) else
      let l := shift_down n position n (users candidate) in
      userStore_Save s (with_users candidate (u16 (count candidate - 1))
                          (<[(n - 1)%nat := zero_user]> l))
  end.

(** The records copied into the caller's array of [capacity] elements; [None]
    for [NULL]. *)
Definition UserStore_List (taken : bool) (s : state) (capacity : option nat) :
    list UserStore_RecordTypeDef :=
  match capacity with
  | None | Some O => []
  | Some capacity =>
      if negb taken then [] else
      take (Nat.min (Z.to_nat (count (snapshot s))) capacity) (users (snapshot s))
  end.
End ops.

(** ** Well-formed values *)

Lemma user_wf r :
  c_wf c_user r <->
  is_u8 (u_enabled r) /\ is_u8 (u_role r)
  /\ (length (u_username r) = USER_STORE_USERNAME_SIZE /\ Forall is_u8 (u_username r))
  /\ (length (u_salt r) = USER_STORE_SALT_SIZE /\ Forall is_u8 (u_salt r))
  /\ (length (u_verifier r) = USER_STORE_VERIFIER_SIZE /\ Forall is_u8 (u_verifier r))
  /\ is_u8 (u_padding r) /\ is_u32 (u_iterations r).
Proof. reflexivity. Qed.

Lemma usr_snapshot_wf c :
  c_wf c_snapshot c <->
  is_u32 (magic c) /\ is_u16 (version c) /\ is_u16 (count c) /\ is_u32 (generation c)
  /\ (length (users c) = USER_STORE_MAX_USERS /\ Forall (c_wf c_user) (users c))
  /\ is_u32 (crc c).
Proof. reflexivity. Qed.

Lemma usr_crc_field_indep c x :
  c_wf c_snapshot c -> userStore_Crc (with_crc c x) = userStore_Crc c.
Proof.
  destruct c as [m v n g l y]. intros (H1 & H2 & H3 & H4 & H5 & _).
  unfold userStore_Crc. f_equal.
  repeat (apply prefix_pair; [done|simpl; lia|]). apply prefix_crc_field.
Qed.

#[global] Opaque c_user c_snapshot.

Lemma usr_stamp_header_wf c : c_wf c_snapshot c -> c_wf c_snapshot (stamp_header c).
Proof.
  intros (H1 & H2 & H3 & H4 & [H5 H5'] & H6)%usr_snapshot_wf. apply usr_snapshot_wf. simpl.
  split_and!; done || word.
Qed.

Lemma usr_stamp_wf c : c_wf c_snapshot c -> c_wf c_snapshot (stamp c).
Proof.
  intros H%usr_stamp_header_wf. pose proof (crc32_u32 _ (prefix_bytes _ _ H)) as Hc.
  apply usr_snapshot_wf in H as (H1 & H2 & H3 & H4 & [H5 H5'] & H6). apply usr_snapshot_wf. by split_and!.
Qed.

Lemma usr_stamp_valid c :
  c_wf c_snapshot c -> userStore_IsValid (stamp c) = (count c <=? 8).
Proof.
  intros H%usr_stamp_header_wf. unfold userStore_IsValid, stamp.
  rewrite usr_crc_field_indep by done. simpl. by rewrite Z.eqb_refl, andb_true_r.
Qed.

Lemma zero_user_wf : c_wf c_user zero_user.
Proof. apply user_wf. split_and!; done || apply zeros_bytes. Qed.

Lemma zero_snapshot_wf : c_wf c_snapshot zero_snapshot.
Proof. apply usr_snapshot_wf. split_and!; try done. apply Forall_replicate, zero_user_wf. Qed.

#[global] Instance user_pair :
  AbPair c_snapshot USER_STORE_SECTOR_A USER_STORE_SECTOR_B W25Q64_SECTOR_SIZE.
Proof. ab_pair. Qed.

(** ** The account map *)

Definition name (r : UserStore_RecordTypeDef) : bytes := cstr (u_username r).

Definition active_users (c : UserStore_SnapshotTypeDef) : list UserStore_RecordTypeDef :=
  take (Z.to_nat (count c)) (users c).

Definition keyed (l : list UserStore_RecordTypeDef) : list (bytes * UserStore_RecordTypeDef) :=
  (fun r => (name r, r)) <$> l.

Definition accounts (c : UserStore_SnapshotTypeDef) : gmap bytes UserStore_RecordTypeDef :=
  list_to_map (keyed (active_users c)).

Definition names_unique (c : UserStore_SnapshotTypeDef) : Prop :=
  NoDup (name <$> active_users c).

Lemma keyed_names l : (keyed l).*1 = name <$> l.
Proof. unfold keyed. by rewrite <-list_fmap_compose. Qed.

(** A record in the middle of a list of distinct names. *)
Lemma map_middle l1 r l2 :
  NoDup (name <$> l1 ++ r :: l2) ->
  (list_to_map (keyed (l1 ++ r :: l2)) : gmap bytes _)
    = <[name r := r]> (list_to_map (keyed (l1 ++ l2)))
  /\ (list_to_map (keyed (l1 ++ l2)) : gmap bytes UserStore_RecordTypeDef) !! name r = None.
Proof.
  intros Hn. split.
  - rewrite (list_to_map_proper (keyed (l1 ++ r :: l2)) (keyed (r :: l1 ++ l2))); [done| |].
    + by rewrite keyed_names.
    + unfold keyed. by rewrite <-Permutation_middle.
  - apply not_elem_of_list_to_map_1. rewrite keyed_names.
    rewrite <-Permutation_middle in Hn. by apply list.NoDup_cons in Hn as [].
Qed.

Lemma find_position_spec n l nm :
  (n <= length l)%nat ->
  let p := find_position n l nm in
  (p = n /\ cstr nm ∉ name <$> take n l)
  \/ (exists l1 r l2, take n l = l1 ++ r :: l2 /\ p = length l1 /\ (p < n)%nat
        /\ name r = cstr nm /\ nth p l zero_user = r).
Proof.
  revert l; induction n as [|n IH]; intros l Hl; simpl.
  - left. split; [done|]. apply not_elem_of_nil.
  - destruct l as [|r l]; simpl in *; [lia|].
    destruct (strcmp_eq (u_username r) nm) eqn:E.
    + apply strcmp_eq_true in E. right. exists [], r, (take n l). split_and!; [done..|lia|done|done].
    + assert (name r <> cstr nm) as Hne by (intros H%strcmp_eq_true; congruence).
      destruct (IH l ltac:(lia)) as [[-> Hn]|(l1 & r' & l2 & E1 & E2 & E3 & E4 & E5)].
      * left. split; [done|]. simpl. rewrite elem_of_cons. intros [?|?]; auto.
      * right. exists (r :: l1), r', l2. rewrite E1. simpl. split_and!; auto; lia.
Qed.

(** The shift loop closes the gap at [p]. *)
Lemma shift_down_spec fuel p n l :
  (p < n)%nat -> (n <= length l)%nat -> (n - p <= fuel)%nat ->
  shift_down fuel p n l = take p l ++ drop (S p) (take n l) ++ drop (n - 1) l.
Proof.
  revert p l; induction fuel as [|fuel IH]; intros p l Hp Hl Hf; [lia|]. cbn [shift_down].
  destruct (Nat.ltb_spec (p + 1) n).
  - rewrite IH by (rewrite ?length_insert; lia).
    destruct (lookup_lt_is_Some_2 l (p + 1)) as [x Hx]; [lia|].
    rewrite (nth_lookup_Some _ _ _ _ Hx).
    replace (p + 1)%nat with (S p) in * by lia.
    rewrite (take_S_r _ _ x) by (apply list_lookup_insert_eq; lia).
    rewrite take_insert_ge, take_insert_lt, !drop_insert_lt by lia.
    rewrite (drop_S (take n l) x (S p)) by (rewrite lookup_take_lt by lia; done).
    by rewrite <-app_assoc.
  - replace n with (S p) by lia. rewrite (drop_ge (take (S p) l)) by (rewrite length_take; lia).
    simpl. rewrite Nat.sub_0_r. by rewrite take_drop.
Qed.

(** ** Specification over the account map *)

Abbreviation account_map := (gmap bytes UserStore_RecordTypeDef).

Inductive op :=
  | OpPut (record : option UserStore_RecordTypeDef)
  | OpDelete (username : option bytes).

(** [None] is a request the store refuses. *)
Definition spec (m : account_map) (o : op) : option account_map :=
  match o with
  | OpPut (Some r) =>
      if decide (name r = []) then None
      else if decide (is_Some (m !! name r) \/ (size m < 8)%nat) then Some (<[name r := r]> m)
      else None
  | OpDelete (Some nm) =>
      match m !! cstr nm with Some _ => Some (delete (cstr nm) m) | None => None end
  | _ => None
  end.

Definition op_wf (o : op) : Prop :=
  match o with OpPut (Some r) => c_wf c_user r | _ => True end.

Definition good (c : UserStore_SnapshotTypeDef) : Prop :=
  c_wf c_snapshot c /\ count c <= 8 /\ names_unique c.

Lemma good_count c : good c -> (Z.to_nat (count c) <= length (users c))%nat.
Proof.
  intros ((_ & _ & Hu & _ & [Hl _] & _)%usr_snapshot_wf & Hc & _). rewrite Hl.
  unfold is_u16, USER_STORE_MAX_USERS in *. lia.
Qed.

Lemma size_accounts c : good c -> size (accounts c) = Z.to_nat (count c).
Proof.
  intros Hg. unfold accounts. rewrite map_size_list_to_map.
  - unfold keyed, active_users. rewrite length_fmap, length_take.
    pose proof (good_count c Hg). lia.
  - rewrite keyed_names. apply Hg.
Qed.

(** Looking an account up by its position agrees with the map. *)
Lemma position_lookup c nm :
  good c ->
  let n := Z.to_nat (count c) in
  let p := find_position n (users c) nm in
  match accounts c !! cstr nm with
  | None => p = n
  | Some r => (p < n)%nat /\ nth p (users c) zero_user = r /\ name r = cstr nm
  end.
Proof.
  intros Hg. cbv zeta. pose proof (good_count c Hg) as Hl. destruct Hg as (_ & _ & Hn).
  unfold accounts, names_unique, active_users in *.
  destruct (find_position_spec _ _ nm Hl) as [[Hp Hnot]|(l1 & r & l2 & E & Hp & Hlt & Hr & Hnth)].
  - rewrite not_elem_of_list_to_map_1; [done|]. by rewrite keyed_names.
  - rewrite E in *. destruct (map_middle _ _ _ Hn) as [-> _].
    rewrite <-Hr, lookup_insert_eq. by split_and!.
Qed.

Lemma with_users_wf c n l :
  c_wf c_snapshot c -> is_u16 n -> length l = USER_STORE_MAX_USERS -> Forall (c_wf c_user) l ->
  c_wf c_snapshot (with_users c n l).
Proof.
  intros (H1 & H2 & H3 & H4 & _ & H6)%usr_snapshot_wf Hn Hl Hf. apply usr_snapshot_wf. by split_and!.
Qed.

Lemma users_wf c :
  c_wf c_snapshot c -> length (users c) = USER_STORE_MAX_USERS /\ Forall (c_wf c_user) (users c).
Proof. by intros (_ & _ & _ & _ & H & _)%usr_snapshot_wf. Qed.

Lemma count_u16 c : c_wf c_snapshot c -> is_u16 (count c).
Proof. by intros (_ & _ & H & _)%usr_snapshot_wf. Qed.

Lemma usr_generation_u32 c : c_wf c_snapshot c -> is_u32 (generation c).
Proof. by intros (_ & _ & _ & H & _)%usr_snapshot_wf. Qed.

(** Replacing the record at the position found. *)
Lemma put_replace c r :
  good c -> c_wf c_user r -> is_Some (accounts c !! name r) ->
  let p := find_position (Z.to_nat (count c)) (users c) (u_username r) in
  let c' := with_users c (count c) (<[p := r]> (users c)) in
  good c' /\ accounts c' = <[name r := r]> (accounts c).
Proof.
  intros Hg Hr Hsome. cbv zeta. pose proof (good_count c Hg) as Hl.
  destruct Hg as (Hw & Hc & Hn). unfold names_unique, accounts, active_users in *.
  destruct (find_position_spec _ _ (u_username r) Hl)
    as [[Hp Hnot]|(l1 & r0 & l2 & E & Hp & Hlt & Hr0 & _)].
  { exfalso. rewrite not_elem_of_list_to_map_1 in Hsome; [by destruct Hsome|].
    by rewrite keyed_names. }
  destruct (users_wf _ Hw) as [Hlen Hf].
  assert (take (Z.to_nat (count c)) (<[length l1 := r]> (users c)) = l1 ++ r :: l2) as E'.
  { rewrite take_insert_lt, E by lia. rewrite insert_app_r_alt by lia.
    by rewrite Nat.sub_diag. }
  rewrite E in Hn. destruct (map_middle _ _ _ Hn) as [Em Hnone].
  assert (NoDup (name <$> l1 ++ r :: l2)) as Hn'.
  { rewrite fmap_app in *. simpl in *. fold (name r) in Hr0. by rewrite <-Hr0. }
  destruct (map_middle _ _ _ Hn') as [Em' _].
  rewrite Hp. split.
  - split; [|split; [done|]].
    + apply with_users_wf; [done| |by rewrite length_insert|by apply Forall_insert].
      by apply usr_snapshot_wf in Hw as (_ & _ & ? & _).
    + unfold names_unique, active_users. simpl. by rewrite E'.
  - simpl. rewrite E, E', Em, Em'. fold (name r) in Hr0. by rewrite Hr0, insert_insert_eq.
Qed.

(** Appending a record with a new name. *)
Lemma put_append c r :
  good c -> c_wf c_user r -> accounts c !! name r = None -> count c < 8 ->
  let p := find_position (Z.to_nat (count c)) (users c) (u_username r) in
  let c' := with_users c (u16 (count c + 1)) (<[p := r]> (users c)) in
  good c' /\ accounts c' = <[name r := r]> (accounts c).
Proof.
  intros Hg Hr Hnone Hlt. cbv zeta. pose proof (good_count c Hg) as Hl.
  pose proof (position_lookup c (u_username r) Hg) as Hp. cbv zeta in Hp.
  fold (name r) in Hp. rewrite Hnone in Hp. rewrite Hp.
  destruct Hg as (Hw & Hc & Hn). destruct (users_wf _ Hw) as [Hlen Hf].
  pose proof (count_u16 _ Hw) as Hu. unfold is_u16 in Hu.
  rewrite u16_id by (unfold is_u16; lia).
  assert (exists n, n = Z.to_nat (count c)) as [n En] by eauto. rewrite <-En in *.
  assert (active_users (with_users c (count c + 1) (<[n := r]> (users c)))
          = active_users c ++ [r]) as E.
  { unfold active_users. simpl. replace (Z.to_nat (count c + 1)) with (S n) by lia.
    unfold USER_STORE_MAX_USERS in *. rewrite (take_S_r _ _ r) by (apply list_lookup_insert_eq; lia).
    by rewrite <-En, take_insert_ge by lia. }
  assert (NoDup (name <$> active_users c ++ [r])) as Hn'.
  { rewrite fmap_app. simpl. apply list.NoDup_app. split; [done|]. split; [|apply NoDup_singleton].
    intros x Hx ->%list_elem_of_singleton.
    apply not_elem_of_list_to_map_2 in Hnone. by rewrite keyed_names in Hnone. }
  destruct (map_middle _ _ _ Hn') as [Em _]. rewrite app_nil_r in Em. split.
  - split; [|split; [simpl; lia|]].
    + apply with_users_wf; [done|unfold is_u16; lia|by rewrite length_insert|by apply Forall_insert].
    + unfold names_unique. by rewrite E.
  - unfold accounts at 1. by rewrite E, Em.
Qed.

(** The array after the shift and the clearing of the last record. *)
Lemma removed_list n l l1 r l2 :
  take n l = l1 ++ r :: l2 -> (n <= length l)%nat ->
  <[(n - 1)%nat := zero_user]> (shift_down n (length l1) n l) = (l1 ++ l2) ++ zero_user :: drop n l.
Proof.
  intros E Hl.
  assert (length l1 + S (length l2) = n)%nat as Hlen.
  { apply (f_equal length) in E. rewrite length_take, length_app in E. simpl in E. lia. }
  assert (l = l1 ++ r :: l2 ++ drop n l) as El.
  { rewrite <-(take_drop n l) at 1. by rewrite E, <-app_assoc. }
  rewrite shift_down_spec, E by lia.
  assert (take (length l1) l = l1) as -> by (rewrite El; apply take_app_length).
  replace (S (length l1)) with (length l1 + 1)%nat by lia. rewrite drop_app_add.
  destruct (lookup_lt_is_Some_2 l (n - 1)) as [x Hx]; [lia|].
  rewrite (drop_S _ _ _ Hx), app_assoc. replace (S (n - 1)) with n by lia.
  simpl. rewrite drop_0.
  rewrite insert_app_r_alt by (rewrite length_app; lia).
  rewrite length_app. by replace (n - 1 - (length l1 + length l2))%nat with 0%nat by lia.
Qed.

(** Removing the record at the position found. *)
Lemma delete_position c nm :
  good c -> is_Some (accounts c !! cstr nm) ->
  let n := Z.to_nat (count c) in
  let p := find_position n (users c) nm in
  let c' := with_users c (u16 (count c - 1))
              (<[(n - 1)%nat := zero_user]> (shift_down n p n (users c))) in
  good c' /\ accounts c' = delete (cstr nm) (accounts c).
Proof.
  intros Hg Hsome. cbv zeta. pose proof (good_count c Hg) as Hl.
  destruct Hg as (Hw & Hc & Hn). destruct (users_wf _ Hw) as [Hlen Hf].
  pose proof (count_u16 _ Hw) as Hu. unfold is_u16 in Hu.
  unfold names_unique, accounts, active_users in *.
  assert (exists n, n = Z.to_nat (count c)) as [n En] by eauto. rewrite <-En in *.
  destruct (find_position_spec _ _ nm Hl) as [[Hp Hnot]|(l1 & r0 & l2 & E & Hp & Hlt & Hr0 & _)].
  { exfalso. rewrite not_elem_of_list_to_map_1 in Hsome; [by destruct Hsome|].
    by rewrite keyed_names. }
  rewrite Hp, (removed_list _ _ _ _ _ E Hl).
  assert (length l1 + S (length l2) = n)%nat as Hlen'.
  { apply (f_equal length) in E. rewrite length_take, length_app in E. simpl in E. lia. }
  rewrite u16_id by (unfold is_u16; lia). cbn [count users with_users].
  replace (Z.to_nat (count c - 1)) with (length (l1 ++ l2)) by (rewrite length_app; lia).
  rewrite take_app_length. rewrite E in Hn. destruct (map_middle _ _ _ Hn) as [Em Hnone].
  split; [|by rewrite E, Em, <-Hr0, delete_insert_id].
  split; [|split; [simpl; lia|]].
  - apply (Forall_take _ n) in Hf as Ht. rewrite E in Ht. apply Forall_app in Ht as [Hf1 Hf2].
    inversion Hf2; subst. apply with_users_wf; [done|unfold is_u16; lia| |].
    + rewrite !length_app. simpl. rewrite length_drop, Hlen. unfold USER_STORE_MAX_USERS in *. lia.
    + repeat apply Forall_app_2; try done. constructor; [apply zero_user_wf|by apply Forall_drop].
  - unfold names_unique, active_users. cbn [count users with_users].
    replace (Z.to_nat (count c - 1)) with (length (l1 ++ l2)) by (rewrite length_app; lia).
    rewrite take_app_length.
    rewrite <-Permutation_middle in Hn. by apply list.NoDup_cons in Hn as [].
Qed.

Lemma zero_snapshot_good : good zero_snapshot.
Proof. split; [apply zero_snapshot_wf|]. split; [done|]. apply NoDup_nil_2. Qed.

Lemma accounts_zero : accounts zero_snapshot = ∅.
Proof. reflexivity. Qed.

Section theory.
Context {F : Type} `{FlashLaws F}.
Abbreviation state := (store UserStore_SnapshotTypeDef F).
Abbreviation SA := USER_STORE_SECTOR_A.
Abbreviation SB := USER_STORE_SECTOR_B.

Definition run (taken : bool) (s : state) (o : op) : state * HealthCheck_StatusTypeDef :=
  match o with
  | OpPut r => UserStore_Put taken s r
  | OpDelete nm => UserStore_Delete taken s nm
  end.

Abbreviation published := (ab_inv (F := F) c_snapshot userStore_IsValid SA SB).
Abbreviation fresh := (ab_fresh (F := F) c_snapshot userStore_IsValid SA SB).

(** The accounts in RAM are those of the active sector, or nothing was ever
    stored; their names are distinct. *)
Definition Inv (s : state) : Prop :=
  (published s \/ fresh s /\ snapshot s = zero_snapshot) /\ good (snapshot s).

Definition boots (s : state) : option (UserStore_SnapshotTypeDef * Z) :=
  ab_boots c_snapshot userStore_IsValid generation SA SB s.

(** The accounts a restart would load. *)
Definition loaded (s : state) : account_map :=
  match boots s with Some (x, _) => accounts x | None => ∅ end.

Lemma usr_save_ab (s : state) c :
  userStore_Save s c = ab_save c_snapshot userStore_IsValid generation SA SB s (stamp c).
Proof.
  unfold userStore_Save, ab_save, ab_commit, other.
  destruct (W25Q64_EraseSector _ _) as [f1 s1]. destruct (flash_ok s1); [|done].
  destruct (W25Q64_Program _ _ _) as [f2 s2]. cbn [negb]. destruct (flash_ok s2); [|done].
  destruct (W25Q64_Read _ _ _) as [[f3 s3] d]. cbn [negb].
  by destruct (negb (flash_ok s3) || _ || _).
Qed.

(** With the mutex, a request is refused as specified or its specified result
    is saved. *)
Lemma usr_run_behaves s o :
  good (snapshot s) -> op_wf o ->
  match spec (accounts (snapshot s)) o with
  | None => run true s o = (s, HEALTH_CHECK_STATUS_ERROR)
  | Some m' => exists c, good c /\ accounts c = m' /\ generation c = generation (snapshot s)
      /\ run true s o = userStore_Save s c
  end.
Proof.
  intros Hg Ho. pose proof (count_u16 _ (proj1 Hg)) as Hu. unfold is_u16 in Hu.
  pose proof (proj1 (proj2 Hg)) as Hc8.
  destruct o as [[r|]|[nm|]]; simpl; [|done| |done].
  - pose proof (position_lookup (snapshot s) (u_username r) Hg) as Hp. cbv zeta in Hp.
    fold (name r) in Hp. rewrite (size_accounts _ Hg).
    destruct (decide (name r = [])) as [He|He].
    { destruct (Z.eqb_spec (nth 0 (u_username r) 0) 0); [done|]. exfalso.
      unfold name in He. destruct (u_username r) as [|x l]; [done|]. simpl in *.
      by destruct (Z.eqb_spec x 0). }
    destruct (Z.eqb_spec (nth 0 (u_username r) 0) 0) as [E0|_].
    { exfalso. apply He. unfold name. destruct (u_username r) as [|x l]; [done|]. simpl in *.
      by subst x. }
    destruct (accounts (snapshot s) !! name r) as [x|] eqn:Ex.
    + rewrite decide_True by (left; eauto). destruct Hp as (Hlt & _ & _).
      destruct (Z.eqb_spec (Z.of_nat (find_position (Z.to_nat (count (snapshot s)))
        (users (snapshot s)) (u_username r))) (count (snapshot s))); [lia|].
      destruct (put_replace (snapshot s) r Hg Ho) as [Hg' Ha]; [by eexists|].
      eexists. split; [exact Hg'|]. by split_and!.
    + rewrite Hp. rewrite Z2Nat.id, Z.eqb_refl by lia.
      change (Z.of_nat USER_STORE_MAX_USERS) with 8. destruct (Z.leb_spec 8 (count (snapshot s))).
      { rewrite decide_False; [done|]. intros [[? ?]|?]; [done|lia]. }
      rewrite decide_True by (right; lia).
      destruct (put_append (snapshot s) r Hg Ho Ex) as [Hg' Ha]; [lia|]. rewrite Hp in Hg', Ha.
      eexists. split; [exact Hg'|]. by split_and!.
  - pose proof (position_lookup (snapshot s) nm Hg) as Hp. cbv zeta in Hp.
    destruct (accounts (snapshot s) !! cstr nm) as [x|] eqn:Ex.
    + destruct Hp as (Hlt & _ & _). destruct (Z.eqb_spec (Z.of_nat (find_position
        (Z.to_nat (count (snapshot s))) (users (snapshot s)) nm)) (count (snapshot s))); [lia|].
      destruct (delete_position (snapshot s) nm Hg) as [Hg' Ha]; [by eexists|].
      eexists. split; [exact Hg'|]. by split_and!.
    + rewrite Hp, Z2Nat.id, Z.eqb_refl by lia. done.
Qed.

Lemma save_inv s c s' r :
  Inv s -> good c -> userStore_Save s c = (s', r) ->
  Inv s' /\ match r with
            | HEALTH_CHECK_STATUS_OK => snapshot s' = stamp c
            | HEALTH_CHECK_STATUS_ERROR => snapshot s' = snapshot s
            end.
Proof.
  intros [Hs Hg] (Hw & Hc & Hn) E. rewrite usr_save_ab in E.
  pose proof (ab_save_inv _ _ _ _ _ _ _ _ _ (usr_stamp_wf _ Hw) E) as Hi. destruct r.
  - destruct Hi as [Hi Es]. split; [|done]. split; [by left|]. rewrite Es.
    by split; [apply usr_stamp_wf|].
  - destruct Hi as (Es & Ea & Hp & Hf). split; [|done]. unfold Inv. rewrite Es.
    split; [|done]. destruct Hs as [Hs|[Hs Hz]];
      [left; exact (Hp Hs)|right; split; [exact (Hf Hs)|exact Hz]].
Qed.

(** C3. The user store refines a finite map from account names to records: with
    the mutex, an insertion, replacement or removal the specification allows
    is performed on RAM and Flash or reported as an error without changing
    the accounts in RAM, any other request is refused and changes nothing,
    and on a device that answers an allowed request succeeds. *)
Theorem user_store_refines (s : state) (o : op) s' r :
  Inv s -> op_wf o -> run true s o = (s', r) ->
  Inv s'
  /\ match spec (accounts (snapshot s)) o with
     | None => s' = s /\ r = HEALTH_CHECK_STATUS_ERROR
     | Some m' =>
         match r with
         | HEALTH_CHECK_STATUS_OK => accounts (snapshot s') = m'
         | HEALTH_CHECK_STATUS_ERROR => snapshot s' = snapshot s /\ ~ fl_ready (flash s)
         end
     end.
Proof.
  intros Hi Ho E. pose proof (usr_run_behaves s o (proj2 Hi) Ho) as Hb. rewrite E in Hb.
  destruct (spec _ _) as [m'|]; [|by injection Hb as -> ->].
  destruct Hb as (c & Hg & Ha & _ & Hsave). symmetry in Hsave.
  destruct (save_inv s c s' r Hi Hg Hsave) as [Hi' Hr]. split; [exact Hi'|]. destruct r.
  - rewrite Hr. exact Ha.
  - split; [exact Hr|]. intros Hready. rewrite usr_save_ab in Hsave. destruct Hg as (Hw & Hc & _).
    destruct (ab_save_ready c_snapshot userStore_IsValid generation SA SB s (stamp c) Hready
      (usr_stamp_wf _ Hw)) as (s2 & E2 & _); [rewrite usr_stamp_valid by done; lia|]. congruence.
Qed.

(** Account changes are atomic across power loss and device failures: a
    restart loads the specified accounts after a reported success, and after
    a failure the old accounts, the new ones, or an image whose damage the
    CRC does not show. *)
Lemma user_store_crash_atomic (taken : bool) (s : state) (o : op) s' r :
  Inv s -> op_wf o -> generation (snapshot s) < 4294967295 -> run taken s o = (s', r) ->
  s' = s
  \/ (r = HEALTH_CHECK_STATUS_OK /\ spec (accounts (snapshot s)) o = Some (loaded s'))
  \/ (r = HEALTH_CHECK_STATUS_ERROR
      /\ (loaded s' = accounts (snapshot s)
          \/ spec (accounts (snapshot s)) o = Some (loaded s')
          \/ exists c a, spec (accounts (snapshot s)) o = Some (accounts c)
               /\ undetected c_snapshot userStore_IsValid (fl_mem (flash s')) a c)).
Proof.
  intros [Hi Hgs] Ho Hgen E. destruct taken.
  - pose proof (usr_run_behaves s o Hgs Ho) as Hb. rewrite E in Hb.
    destruct (spec _ _) as [m'|]; [right|left; by injection Hb].
    destruct Hb as (c & Hg & Ha & Egen & Hsave). symmetry in Hsave. rewrite usr_save_ab in Hsave.
    pose proof (usr_stamp_wf _ (proj1 Hg)) as Hw.
    assert (generation (snapshot s) < generation (stamp c)) as Hlt.
    { simpl. rewrite Egen. pose proof (usr_generation_u32 _ (proj1 Hgs)) as Hu.
      unfold is_u32 in Hu. rewrite u32_id by (unfold is_u32; lia). lia. }
    destruct r; [left|right]; split; try done; unfold loaded, boots.
    + assert ((published s /\ generation (snapshot s) < generation (stamp c)) \/ fresh s) as Hpre
        by (destruct Hi as [Hi|[Hi _]]; auto).
      rewrite (ab_save_boots _ _ _ _ _ _ _ _ Hpre Hw Hsave). by rewrite <-Ha.
    + destruct Hi as [Hi|[Hi Hz]].
      * destruct (ab_save_torn _ _ _ _ _ _ _ _ Hi Hw Hsave) as [Eb|[Eb|Hu]];
          [left; by rewrite Eb|right; left; by rewrite Eb, <-Ha|].
        right; right. exists (stamp c). rewrite <-Ha. eauto.
      * destruct (ab_save_torn_fresh _ _ _ _ _ _ _ _ Hi Hw Hsave) as [Eb|[Eb|Hu]];
          [left; rewrite Eb, Hz; symmetry; exact accounts_zero|right; left; by rewrite Eb, <-Ha|].
        right; right. exists (stamp c). rewrite <-Ha. eauto.
  - left. destruct o as [[r0|]|[nm|]]; simpl in E; repeat case_match; by simplify_eq.
Qed.
(** Reading the store reads the account map: a lookup returns the record of
    that name and its slot exactly when the account exists, and listing
    returns every account once (as many as fit the caller's array). *)
Lemma user_store_reads (s : state) (nm : bytes) (capacity : nat) :
  good (snapshot s) -> (0 < capacity)%nat ->
  match accounts (snapshot s) !! cstr nm with
  | Some r => exists position, UserStore_Find true s (Some nm) = Some (r, position)
      /\ users (snapshot s) !! position = Some r
  | None => UserStore_Find true s (Some nm) = None
  end
  /\ length (UserStore_List true s (Some capacity))
     = Nat.min (size (accounts (snapshot s))) capacity
  /\ ((size (accounts (snapshot s)) <= capacity)%nat ->
      keyed (UserStore_List true s (Some capacity)) ≡ₚ map_to_list (accounts (snapshot s))).
Proof.
  intros Hg Hcap. pose proof (good_count _ Hg) as Hl. rewrite (size_accounts _ Hg). split_and!.
  - pose proof (position_lookup (snapshot s) nm Hg) as Hp. cbv zeta in Hp. simpl.
    destruct (accounts (snapshot s) !! cstr nm) as [r|].
    + destruct Hp as (Hlt & Hn & _). rewrite (proj2 (Nat.ltb_lt _ _) Hlt), Hn.
      eexists. split; [done|]. destruct (lookup_lt_is_Some_2 (users (snapshot s))
        (find_position (Z.to_nat (count (snapshot s))) (users (snapshot s)) nm)) as [x Hx]; [lia|].
      by rewrite (nth_lookup_Some _ _ _ _ Hx) in Hn; subst x.
    + by rewrite Hp, Nat.ltb_irrefl.
  - destruct capacity as [|k]; [lia|]. simpl negb. unfold UserStore_List. cbn [negb].
    rewrite length_take. lia.
  - intros Hle. destruct capacity as [|k]; [lia|]. unfold UserStore_List. cbn [negb].
    rewrite Nat.min_l by lia. unfold accounts. rewrite map_to_list_to_map; [done|].
    rewrite keyed_names. apply Hg.
Qed.

Lemma usr_init_inv s :
  fl_ready (flash s) -> match boots s with Some (x, _) => names_unique x | None => True end ->
  Inv (UserStore_Init true s).1.
Proof.
  intros Hr. unfold UserStore_Init, boots, ab_boots. cbn [negb].
  destruct (load_newest_ready c_snapshot userStore_IsValid generation SA SB (flash s) Hr)
    as (f & E & Hf & Hm). rewrite E.
  destruct (boot _ _ _ _ _ _) as [[x a]|] eqn:Eb; intros Hn.
  - rewrite <-Hm in Eb. apply boot_holds in Eb. split; [by left|].
    pose proof (ab_inv_wf _ _ _ _ (Store x a f) Eb) as Hw.
    pose proof (ab_inv_valid _ _ _ _ (Store x a f) Eb) as Hv. cbn [fst snapshot] in *.
    split; [done|]. split; [|done]. unfold userStore_IsValid in Hv.
    rewrite !andb_true_iff in Hv. apply Z.leb_le, Hv.
  - split; [right; split; [split; [by right|]|reflexivity]|apply zero_snapshot_good].
    cbn [fst flash activeAddress]. rewrite Hm.
    exact (boot_none _ _ _ _ _ _ Eb SB (or_intror eq_refl)).
Qed.

(** Start-up on a device that answers succeeds without writing and brings
    back exactly the accounts of the newest valid image, or an empty store
    when there is none. *)
Lemma user_store_init (s : state) :
  fl_ready (flash s) ->
  exists s', UserStore_Init true s = (s', HEALTH_CHECK_STATUS_OK)
    /\ mem_eq (fl_mem (flash s')) (fl_mem (flash s))
    /\ accounts (snapshot s') = loaded s
    /\ (match boots s with Some (x, _) => names_unique x | None => True end -> Inv s').
Proof.
  intros Hr. pose proof (usr_init_inv s Hr) as Hi. revert Hi.
  unfold UserStore_Init, loaded, boots, ab_boots. cbn [negb].
  destruct (load_newest_ready c_snapshot userStore_IsValid generation SA SB (flash s) Hr)
    as (f & E & Hf & Hm). rewrite E.
  destruct (boot _ _ _ _ _ _) as [[x a]|]; intros Hi; eexists; (split; [reflexivity|]);
    (split; [exact Hm|]); (split; [reflexivity|exact Hi]).
Qed.
End theory.

(** ** Concrete instances: the first account on a blank device *)

Definition demo0 : store UserStore_SnapshotTypeDef simflash :=
  (UserStore_Init true (Store zero_snapshot 0 blank)).1.

Definition demo_user : UserStore_RecordTypeDef :=
  User 1 USER_ROLE_ADMINISTRATOR (strncpy (zeros 25) (str "admin") 24) (zeros 16) (zeros 32) 0 120000.

Lemma demo_user_wf : c_wf c_user demo_user.
Proof.
  apply user_wf. split_and!; try done; try apply zeros_bytes.
  apply strncpy_bytes; [apply zeros_bytes|apply str_bytes].
Qed.

(** What evaluation shows of inserting it. *)
Lemma demo_put_outcome s' r :
  run true demo0 (OpPut (Some demo_user)) = (s', r) ->
  r = HEALTH_CHECK_STATUS_OK /\ count (snapshot s') = 1 /\ count (snapshot demo0) = 0.
Proof.
  intros E.
  assert (let '(s', r) := run true demo0 (OpPut (Some demo_user)) in
          (r, count (snapshot s')) = (HEALTH_CHECK_STATUS_OK, 1)) as H by (vm_compute; reflexivity).
  rewrite E in H. injection H as -> ->. do 2 (split; [reflexivity|]). vm_compute. reflexivity.
Qed.

Lemma usr_demo0_inv : Inv demo0.
Proof.
  apply (usr_init_inv (Store zero_snapshot 0 blank) blank_ready).
  assert (boots (Store zero_snapshot 0 blank) = None) as -> by (vm_compute; reflexivity). done.
Qed.

Lemma user_store_refines_witness :
  exists s', run true demo0 (OpPut (Some demo_user)) = (s', HEALTH_CHECK_STATUS_OK)
    /\ Inv s' /\ accounts (snapshot s') !! str "admin" = Some demo_user.
Proof.
  destruct (run true demo0 (OpPut (Some demo_user))) as [s' r] eqn:E.
  destruct (demo_put_outcome _ _ E) as (Hr & _).
  destruct (user_store_refines demo0 (OpPut (Some demo_user)) s' r usr_demo0_inv demo_user_wf E)
    as [Hi Hm]. subst r.
  assert (spec (accounts (snapshot demo0)) (OpPut (Some demo_user))
    = Some {[ str "admin" := demo_user ]}) as Hs by (vm_compute; reflexivity).
  rewrite Hs in Hm. exists s'. split; [reflexivity|]. split; [exact Hi|]. rewrite Hm.
  apply lookup_singleton_eq.
Defined.

Lemma user_store_crash_atomic_witness :
  exists s', run true demo0 (OpPut (Some demo_user)) = (s', HEALTH_CHECK_STATUS_OK)
    /\ spec (accounts (snapshot demo0)) (OpPut (Some demo_user)) = Some (loaded s').
Proof.
  destruct (run true demo0 (OpPut (Some demo_user))) as [s' r] eqn:E.
  destruct (demo_put_outcome _ _ E) as (Hr & Hc & Hc0).
  destruct (user_store_crash_atomic true demo0 (OpPut (Some demo_user)) s' r usr_demo0_inv demo_user_wf)
    as [Hs|[[_ Hl]|[Hs _]]].
  - vm_compute. reflexivity.
  - exact E.
  - rewrite Hs, Hc0 in Hc. discriminate Hc.
  - exists s'. rewrite Hr. split; [reflexivity|exact Hl].
  - rewrite Hr in Hs. discriminate Hs.
Defined.

Lemma user_store_reads_witness :
  UserStore_Find true demo0 (Some (str "admin")) = None
  /\ length (UserStore_List true demo0 (Some 8%nat)) = 0%nat.
Proof.
  destruct (user_store_reads demo0 (str "admin") 8 (proj2 usr_demo0_inv)) as (Hf & Hl & _);
    [apply Nat.ltb_lt; reflexivity|].
  assert (accounts (snapshot demo0) = ∅) as E by (vm_compute; reflexivity).
  rewrite E in Hf, Hl. split; [exact Hf|]. rewrite Hl. reflexivity.
Defined.

Lemma user_store_init_witness :
  exists s', UserStore_Init true (Store zero_snapshot 0 blank) = (s', HEALTH_CHECK_STATUS_OK)
    /\ accounts (snapshot s') = ∅.
Proof.
  destruct (user_store_init (Store zero_snapshot 0 blank) blank_ready) as (s' & E & _ & Ha & _).
  exists s'. split; [exact E|]. rewrite Ha.
  assert (boots (Store zero_snapshot 0 blank) = None) as B by (vm_compute; reflexivity).
  unfold loaded. rewrite B. reflexivity.
Defined.
