(* ===== verification/CallbackConfig.v ===== *)
(** [Srv/Src/callback_config.c]: the persisted callback destination.

    Models the field checks, the check that the longest encoded GET target fits
    its buffer, the alternating-sector save, start-up and the accessors, and
    proves that what is stored is always a valid configuration, that a
    successful [Set] is what readers and the next start-up see, and that an
    interrupted one leaves the old or the new configuration. *)
From S2P Require Import Prelude Codec Crc NorFlash SimFlash FlashLayout AbStore.

Definition CALLBACK_CONFIG_MAGIC : Z := 0x43424B43.
Definition CALLBACK_CONFIG_VERSION : Z := 1.
Definition CALLBACK_CONFIG_HOST_SIZE : nat := 64.
Definition CALLBACK_CONFIG_PATH_SIZE : nat := 80.
Definition CALLBACK_METHOD_GET : Z := 0.
Definition CALLBACK_METHOD_POST : Z := 1.
Definition TLS_TRUST_STORE_MIN_ID : Z := 1.
Definition TLS_TRUST_STORE_MAX_PERSISTED : Z := 6.

Record CallbackConfig_TypeDef := Config {
  cb_enabled : Z;
  cb_method : Z;
  cb_trustAnchorId : Z;
  cb_reserved : Z;
  cb_port : Z;
  cb_host : bytes;
  cb_path : bytes;
}.

#[global] Instance Config_eq_dec : EqDecision CallbackConfig_TypeDef.
Proof. solve_decision. Defined.

Definition c_config : codec CallbackConfig_TypeDef.
Proof.
  refine (c_iso (c_u8 ** c_u8 ** c_u8 ** c_u8 ** c_u16 ** c_bytes CALLBACK_CONFIG_HOST_SIZE
                 ** c_bytes CALLBACK_CONFIG_PATH_SIZE)%codec
    (fun '(e, (m, (t, (r, (p, (h, q)))))) => Config e m t r p h q)
    (fun x => (cb_enabled x, (cb_method x, (cb_trustAnchorId x, (cb_reserved x, (cb_port x,
       (cb_host x, cb_path x))))))) _ _).
  - by intros [].
  - by intros (?&?&?&?&?&?&?).
Defined.

(** [CallbackConfig_SnapshotTypeDef]: 12 + 150 bytes and two of padding before
    [crc]. *)
Record CallbackConfig_SnapshotTypeDef := Snapshot {
  magic : Z;
  version : Z;
  reserved : Z;
  generation : Z;
  config : CallbackConfig_TypeDef;
  padding : bytes;
  crc : Z;
}.

#[global] Instance Snapshot_eq_dec : EqDecision CallbackConfig_SnapshotTypeDef.
Proof. solve_decision. Defined.

Definition c_snapshot : codec CallbackConfig_SnapshotTypeDef.
Proof.
  refine (c_iso (c_u32 ** c_u16 ** c_u16 ** c_u32 ** c_config ** c_bytes 2 ** c_u32)%codec
    (fun '(m, (v, (r, (g, (f, (p, c)))))) => Snapshot m v r g f p c)
    (fun x => (magic x, (version x, (reserved x, (generation x, (config x, (padding x, crc x)))))))
    _ _).
  - by intros [].
  - by intros (?&?&?&?&?&?&?).
Defined.

Arguments c_config : simpl never.
Arguments c_snapshot : simpl never.

Example callback_config_sizes : (c_size c_config, c_size c_snapshot) = (150, 168)%nat.
Proof. reflexivity. Qed.

(** ** Validation *)

Definition between (a x b : Z) : bool := (a <=? x) && (x <=? b).

Definition host_character (c : Z) : bool :=
  between 97 c 122 || between 65 c 90 || between 48 c 57 || (c =? 46) || (c =? 45).

(** The scan of a [char] array up to its NUL, [ok] being the characters
    accepted; an array without NUL is rejected. *)
Fixpoint scan_until_nul (ok : Z -> bool) (a : bytes) : bool :=
  match a with
  | [] => false
  | c :: a => if c =? 0 then true else ok c && scan_until_nul ok a
  end.

Definition callbackConfig_HostValid (h : bytes) : bool :=
  negb (nth 0 h 0 =? 0) && scan_until_nul host_character (take CALLBACK_CONFIG_HOST_SIZE h).

Definition path_character (c : Z) : bool :=
  negb ((c <? 0x21) || (0x7E <? c) || (c =? 34) || (c =? 92) || (c =? 35)).

Definition callbackConfig_PathValid (q : bytes) : bool :=
  (nth 0 q 0 =? 47) && scan_until_nul path_character (take CALLBACK_CONFIG_PATH_SIZE q).

(** [strchr(path, '?') == NULL ? '?' : '&'] *)
Definition separator (q : bytes) : Z := if existsb (Z.eqb 63) (cstr q) then 38 else 63.

(** The longest query the callback task appends. *)
Definition longest_query : bytes :=
  str "sequence=4294967295&timestamp=4294967295&resource_index=255&" ++
  str "status=fail&stage=certificate_error&http_status=65535&" ++
  str "elapsed_ms=4294967295&detail=-2147483648".

Definition CallbackConfig_IsValid (c : CallbackConfig_TypeDef) : bool :=
  (cb_enabled c <=? 1) && (cb_method c <=? CALLBACK_METHOD_POST) && negb (cb_port c =? 0)
  && (TLS_TRUST_STORE_MIN_ID <=? cb_trustAnchorId c)
  && (cb_trustAnchorId c <=? TLS_TRUST_STORE_MAX_PERSISTED)
  && callbackConfig_HostValid (cb_host c) && callbackConfig_PathValid (cb_path c)
  && let length := length (cstr (cb_path c) ++ separator (cb_path c) :: longest_query) in
     (0 <? length)%nat && (length <? 256)%nat.

Definition callbackConfig_Crc (c : CallbackConfig_SnapshotTypeDef) : Z :=
  crc32 (prefix_before_crc c_snapshot c).

Definition callbackConfig_IsValid (c : CallbackConfig_SnapshotTypeDef) : bool :=
  (magic c =? CALLBACK_CONFIG_MAGIC) && (version c =? CALLBACK_CONFIG_VERSION)
  && CallbackConfig_IsValid (config c) && (crc c =? callbackConfig_Crc c).

(** The header [callbackConfig_Save] writes into the candidate. *)
Definition stamp_header (c : CallbackConfig_SnapshotTypeDef) :=
  Snapshot CALLBACK_CONFIG_MAGIC CALLBACK_CONFIG_VERSION (reserved c) (u32 (generation c + 1))
    (config c) (padding c) (crc c).

Definition with_crc (c : CallbackConfig_SnapshotTypeDef) x :=
  Snapshot (magic c) (version c) (reserved c) (generation c) (config c) (padding c) x.

Definition stamp (c : CallbackConfig_SnapshotTypeDef) :=
  let c := stamp_header c in with_crc c (callbackConfig_Crc c).

Definition with_config (c : CallbackConfig_SnapshotTypeDef) x :=
  Snapshot (magic c) (version c) (reserved c) (generation c) x (padding c) (crc c).

(** The configuration of a device that never had one: disabled, POST. *)
Definition default_config : CallbackConfig_TypeDef :=
  Config 0 CALLBACK_METHOD_POST TLS_TRUST_STORE_MIN_ID 0 443
    (strncpy (zeros CALLBACK_CONFIG_HOST_SIZE) (str "callback.invalid") (CALLBACK_CONFIG_HOST_SIZE - 1))
    (strncpy (zeros CALLBACK_CONFIG_PATH_SIZE) (str "/") (CALLBACK_CONFIG_PATH_SIZE - 1)).

Definition zero_config : CallbackConfig_TypeDef :=
  Config 0 0 0 0 0 (zeros CALLBACK_CONFIG_HOST_SIZE) (zeros CALLBACK_CONFIG_PATH_SIZE).

Definition default_snapshot : CallbackConfig_SnapshotTypeDef :=
  Snapshot 0 0 0 0 default_config (zeros 2) 0.

(** ** Operations *)

Section ops.
Context {F : Type} `{Flash F}.
Abbreviation state := (store CallbackConfig_SnapshotTypeDef F).
Abbreviation SA := FLASH_LAYOUT_CALLBACK_CONFIG_SECTOR_A.
Abbreviation SB := FLASH_LAYOUT_CALLBACK_CONFIG_SECTOR_B.

(** The candidate is returned too: start-up passes [&snapshot]. *)
Definition callbackConfig_Save (s : state) (candidate : CallbackConfig_SnapshotTypeDef) :
    state * CallbackConfig_SnapshotTypeDef * HealthCheck_StatusTypeDef :=
  let target := if activeAddress s =? SA then SB else SA in
  let candidate := stamp candidate in
  let failed f := (Store (snapshot s) (activeAddress s) f, candidate,
                   HEALTH_CHECK_STATUS_ERROR) in
  let '(f, s1) := W25Q64_EraseSector (flash s) target in
  if negb (flash_ok s1) then failed f else
  let '(f, s2) := W25Q64_Program f target (c_enc c_snapshot candidate) in
  if negb (flash_ok s2) then failed f else
  let '(f, s3, d) := W25Q64_Read f target (c_size c_snapshot) in
  let verification := c_dec c_snapshot d in
  if negb (flash_ok s3) || negb (callbackConfig_IsValid verification)
     || negb (generation verification =? generation candidate)
  then failed f
  else (Store candidate target f, candidate, HEALTH_CHECK_STATUS_OK).

(** [created] is whether the mutex was created. *)
Definition CallbackConfig_Init (created : bool) (s : state) : state * HealthCheck_StatusTypeDef :=
  if negb created then (s, HEALTH_CHECK_STATUS_ERROR) else
  let '(f, newest) := load_newest c_snapshot callbackConfig_IsValid generation SA SB (flash s) in
  match newest with
  | Some (x, address) => (Store x address f, HEALTH_CHECK_STATUS_OK)
  | None =>
      let '(s, candidate, status) := callbackConfig_Save (Store default_snapshot SB f)
                                       default_snapshot in
      (Store candidate (activeAddress s) (flash s), status)
  end.

(** The caller's structure afterwards; [taken] is the outcome of
    [xSemaphoreTake]. *)
Definition CallbackConfig_Get (taken : bool) (s : state) : CallbackConfig_TypeDef :=
  if taken then config (snapshot s) else zero_config.

(** [None] is a [NULL] pointer. *)
Definition CallbackConfig_Set (taken : bool) (s : state) (c : option CallbackConfig_TypeDef) :
    state * HealthCheck_StatusTypeDef :=
  match c with
  | None => (s, HEALTH_CHECK_STATUS_ERROR)
  | Some c =>
      if negb (CallbackConfig_IsValid c) then (s, HEALTH_CHECK_STATUS_ERROR) else
      if negb taken then (s, HEALTH_CHECK_STATUS_ERROR) else
      let '(s, _, status) := callbackConfig_Save s (with_config (snapshot s) c) in (s, status)
  end.

Definition CallbackConfig_IsTrustAnchorInUse (taken : bool) (s : state) (anchor : Z) : bool :=
  let c := CallbackConfig_Get taken s in
  negb (cb_enabled c =? 0) && (cb_trustAnchorId c =? anchor).
End ops.

(** ** Well-formed values *)

Lemma config_wf c :
  c_wf c_config c <->
  is_u8 (cb_enabled c) /\ is_u8 (cb_method c) /\ is_u8 (cb_trustAnchorId c)
  /\ is_u8 (cb_reserved c) /\ is_u16 (cb_port c)
  /\ (length (cb_host c) = CALLBACK_CONFIG_HOST_SIZE /\ Forall is_u8 (cb_host c))
  /\ (length (cb_path c) = CALLBACK_CONFIG_PATH_SIZE /\ Forall is_u8 (cb_path c)).
Proof. reflexivity. Qed.

Lemma cbc_snapshot_wf c :
  c_wf c_snapshot c <->
  is_u32 (magic c) /\ is_u16 (version c) /\ is_u16 (reserved c) /\ is_u32 (generation c)
  /\ c_wf c_config (config c) /\ (length (padding c) = 2%nat /\ Forall is_u8 (padding c))
  /\ is_u32 (crc c).
Proof. reflexivity. Qed.

Lemma cbc_crc_field_indep c x :
  c_wf c_snapshot c -> callbackConfig_Crc (with_crc c x) = callbackConfig_Crc c.
Proof.
  destruct c as [m v r g f p y]. intros (H1 & H2 & H3 & H4 & H5 & H6 & _).
  unfold callbackConfig_Crc. f_equal.
  repeat (apply prefix_pair; [done|simpl; lia|]). apply prefix_crc_field.
Qed.

#[global] Opaque c_config c_snapshot.

Lemma cbc_stamp_header_wf c : c_wf c_snapshot c -> c_wf c_snapshot (stamp_header c).
Proof.
  intros H. apply cbc_snapshot_wf in H as (H1 & H2 & H3 & H4 & H5 & [H6 H6'] & H7).
  apply cbc_snapshot_wf. simpl. split_and!; done || word.
Qed.

Lemma cbc_stamp_wf c : c_wf c_snapshot c -> c_wf c_snapshot (stamp c).
Proof.
  intros H%cbc_stamp_header_wf. pose proof (crc32_u32 _ (prefix_bytes _ _ H)) as Hc.
  apply cbc_snapshot_wf in H as (H1 & H2 & H3 & H4 & H5 & [H6 H6'] & H7). apply cbc_snapshot_wf.
  by split_and!.
Qed.

Lemma cbc_stamp_valid c :
  c_wf c_snapshot c -> callbackConfig_IsValid (stamp c) = CallbackConfig_IsValid (config c).
Proof.
  intros H%cbc_stamp_header_wf. unfold callbackConfig_IsValid, stamp.
  rewrite cbc_crc_field_indep by done. simpl. by rewrite Z.eqb_refl, andb_true_r.
Qed.

Lemma with_config_wf c x :
  c_wf c_snapshot c -> c_wf c_config x -> c_wf c_snapshot (with_config c x).
Proof.
  intros H Hx. apply cbc_snapshot_wf in H as (H1 & H2 & H3 & H4 & _ & [H6 H6'] & H7).
  apply cbc_snapshot_wf. by split_and!.
Qed.

Lemma cbc_generation_u32 c : c_wf c_snapshot c -> is_u32 (generation c).
Proof. by intros (_ & _ & _ & H & _)%cbc_snapshot_wf. Qed.

Lemma default_snapshot_wf : c_wf c_snapshot default_snapshot.
Proof.
  apply cbc_snapshot_wf. split_and!; try done; [|apply zeros_bytes].
  apply config_wf. split_and!; try done; apply strncpy_bytes; apply zeros_bytes || apply str_bytes.
Qed.

Lemma default_valid : CallbackConfig_IsValid default_config = true.
Proof. vm_compute. reflexivity. Qed.

#[global] Instance callback_pair :
  AbPair c_snapshot FLASH_LAYOUT_CALLBACK_CONFIG_SECTOR_A FLASH_LAYOUT_CALLBACK_CONFIG_SECTOR_B
    W25Q64_SECTOR_SIZE.
Proof. ab_pair. Qed.

(** ** What validation guarantees *)

Lemma scan_until_nul_spec ok a :
  scan_until_nul ok a = true -> terminated a = true /\ Forall (fun c => ok c = true) (cstr a).
Proof.
  unfold terminated. induction a as [|c a IH]; [done|]. cbn [scan_until_nul existsb cstr].
  rewrite (Z.eqb_sym 0 c).
  destruct (c =? 0); [by split|]. intros [Hc Ha]%andb_true_iff.
  destruct (IH Ha). split; [done|by constructor].
Qed.

Lemma valid_path_length c :
  CallbackConfig_IsValid c = true ->
  (length (cstr (cb_path c)) + 1 + length longest_query < 256)%nat.
Proof.
  unfold CallbackConfig_IsValid. rewrite !andb_true_iff. intros [_ [_ H]].
  apply Nat.ltb_lt in H. rewrite length_app in H. cbn [length] in H. lia.
Qed.

Section theory.
Context {F : Type} `{FlashLaws F}.
Abbreviation state := (store CallbackConfig_SnapshotTypeDef F).
Abbreviation SA := FLASH_LAYOUT_CALLBACK_CONFIG_SECTOR_A.
Abbreviation SB := FLASH_LAYOUT_CALLBACK_CONFIG_SECTOR_B.

Definition Inv (s : state) : Prop := ab_inv c_snapshot callbackConfig_IsValid SA SB s.
Definition boots (s : state) : option (CallbackConfig_SnapshotTypeDef * Z) :=
  ab_boots c_snapshot callbackConfig_IsValid generation SA SB s.

Lemma cbc_save_ab (s : state) c :
  callbackConfig_Save s c =
  let '(s', r) := ab_save c_snapshot callbackConfig_IsValid generation SA SB s (stamp c) in
  (s', stamp c, r).
Proof.
  unfold callbackConfig_Save, ab_save, ab_commit, other.
  destruct (W25Q64_EraseSector _ _) as [f1 s1]. destruct (flash_ok s1); [|done].
  destruct (W25Q64_Program _ _ _) as [f2 s2]. cbn [negb]. destruct (flash_ok s2); [|done].
  destruct (W25Q64_Read _ _ _) as [[f3 s3] d]. cbn [negb].
  by destruct (negb (flash_ok s3) || _ || _).
Qed.

(** A stored configuration is always a valid one. *)
Lemma Inv_config_valid s : Inv s -> CallbackConfig_IsValid (config (snapshot s)) = true.
Proof.
  intros Hv%ab_inv_valid. unfold callbackConfig_IsValid in Hv. rewrite !andb_true_iff in Hv.
  apply Hv.
Qed.

(** The configuration a restart would load, the default when there is none. *)
Definition loaded (s : state) : CallbackConfig_TypeDef :=
  match boots s with Some (x, _) => config x | None => default_config end.

(** Setting the callback destination is validated and atomic: an invalid
    configuration changes nothing; a reported success is what readers and
    the next restart see; after a failure or power loss readers still see
    the old configuration and a restart loads the old or the new one (or an
    image whose damage the CRC does not show); on a device that answers a
    valid configuration is stored. *)
Lemma callback_set_atomic (s : state) (c : CallbackConfig_TypeDef) s' r :
  Inv s -> c_wf c_config c -> generation (snapshot s) < 4294967295 ->
  CallbackConfig_Set true s (Some c) = (s', r) ->
  Inv s'
  /\ match r with
     | HEALTH_CHECK_STATUS_OK =>
         CallbackConfig_IsValid c = true /\ CallbackConfig_Get true s' = c /\ loaded s' = c
     | HEALTH_CHECK_STATUS_ERROR =>
         CallbackConfig_Get true s' = CallbackConfig_Get true s
         /\ (CallbackConfig_IsValid c = true -> ~ fl_ready (flash s))
         /\ (s' = s \/ loaded s' = config (snapshot s) \/ loaded s' = c
             \/ exists x a, config x = c
                  /\ undetected c_snapshot callbackConfig_IsValid (fl_mem (flash s')) a x)
     end.
Proof.
  intros Hi Hc Hg E. unfold CallbackConfig_Set in E.
  destruct (CallbackConfig_IsValid c) eqn:V; cbn [negb] in E;
    [|injection E as <- <-; split_and!; auto; done].
  rewrite cbc_save_ab in E.
  set (x := with_config (snapshot s) c) in *.
  assert (c_wf c_snapshot x) as Hx by (apply with_config_wf; [by eapply ab_inv_wf|done]).
  pose proof (cbc_stamp_wf _ Hx) as Hw.
  destruct (ab_save _ _ _ _ _ _ _) as [s1 r1] eqn:Es. injection E as <- <-.
  pose proof (ab_save_inv _ _ _ _ _ _ _ _ _ Hw Es) as Hs. destruct r1.
  - destruct Hs as [Hi' Hs]. split; [done|]. split; [done|].
    unfold CallbackConfig_Get, loaded. rewrite Hs. split; [done|].
    assert (generation (snapshot s) < generation (stamp x)) as Hlt.
    { pose proof (cbc_generation_u32 _ (ab_inv_wf _ _ _ _ _ Hi)) as W. simpl. unfold is_u32 in W. rewrite u32_id by (unfold is_u32; lia). lia. }
    unfold boots. by rewrite (ab_save_boots _ _ _ _ _ _ _ _ (or_introl (conj Hi Hlt)) Hw Es).
  - destruct Hs as (Hs & _ & Hk & _). split; [exact (Hk Hi)|].
    unfold CallbackConfig_Get, loaded. rewrite Hs. split; [done|]. split.
    + intros _ Hr. destruct (ab_save_ready c_snapshot callbackConfig_IsValid generation SA SB s
        (stamp x) Hr Hw) as (s2 & E2 & _); [by rewrite cbc_stamp_valid|]. congruence.
    + right. unfold boots. destruct (ab_save_torn _ _ _ _ _ _ _ _ Hi Hw Es) as [->|[->|Hu]];
        [by left|by right; left|]. right; right. exists (stamp x). eauto.
Qed.

Lemma cbc_init_inv created s s' :
  CallbackConfig_Init created s = (s', HEALTH_CHECK_STATUS_OK) -> Inv s'.
Proof.
  unfold CallbackConfig_Init. destruct created; [|done]. cbn [negb]. intros E.
  destruct (load_newest _ _ _ _ _ _) as [f r] eqn:El.
  destruct (load_newest_spec _ _ _ SA SB _ _ _ El) as [_ Hl].
  destruct r as [[x a]|]; [injection E as <-; exact (Hl _ _ eq_refl)|].
  rewrite cbc_save_ab in E. destruct (ab_save _ _ _ _ _ _ _) as [s1 r1] eqn:Es.
  injection E as <- ->.
  destruct (ab_save_inv _ _ _ _ _ _ _ _ _ (cbc_stamp_wf _ default_snapshot_wf) Es) as [Hi Hs].
  unfold Inv, ab_inv in *. cbn [snapshot activeAddress flash] in *. by rewrite Hs in Hi.
Qed.
End theory.

Definition demo0 : store CallbackConfig_SnapshotTypeDef simflash :=
  (CallbackConfig_Init true (Store default_snapshot 0 blank)).1.

Definition demo_config : CallbackConfig_TypeDef :=
  Config 1 CALLBACK_METHOD_GET 2 0 8443 (strncpy (zeros 64) (str "alerts.example.org") 63)
    (strncpy (zeros 80) (str "/hook?key=1") 79).

Lemma cbc_demo0_inv : Inv demo0.
Proof.
  assert ((CallbackConfig_Init true (Store default_snapshot 0 blank)).2 = HEALTH_CHECK_STATUS_OK)
    as H by (vm_compute; reflexivity).
  unfold demo0. exact (cbc_init_inv _ _ _ (pair_snd _ _ H)).
Qed.

Lemma demo_config_wf : c_wf c_config demo_config.
Proof.
  apply config_wf. split_and!; try done; apply strncpy_bytes; apply zeros_bytes || apply str_bytes.
Qed.

Lemma callback_set_atomic_witness :
  exists s', CallbackConfig_Set true demo0 (Some demo_config) = (s', HEALTH_CHECK_STATUS_OK)
    /\ loaded s' = demo_config.
Proof.
  destruct (CallbackConfig_Set true demo0 (Some demo_config)) as [s' r] eqn:E.
  assert ((CallbackConfig_Set true demo0 (Some demo_config)).2 = HEALTH_CHECK_STATUS_OK) as Hr
    by (vm_compute; reflexivity).
  rewrite E in Hr. cbn [snd] in Hr. subst r.
  destruct (callback_set_atomic demo0 demo_config s' HEALTH_CHECK_STATUS_OK cbc_demo0_inv demo_config_wf)
    as [_ (_ & _ & Hl)].
  - vm_compute. reflexivity.
  - exact E.
  - exists s'. split; [reflexivity|exact Hl].
Defined.
