(* ===== verification/TlsTypes.v ===== *)
(** [TLS/Inc/tls_transport.h]: the result of one outbound request. *)
From S2P Require Import Prelude.

Inductive TlsTransport_StatusTypeDef :=
  | TLS_TRANSPORT_OK
  | TLS_TRANSPORT_DNS_ERROR
  | TLS_TRANSPORT_CONNECT_ERROR
  | TLS_TRANSPORT_CONFIG_ERROR
  | TLS_TRANSPORT_CERTIFICATE_ERROR
  | TLS_TRANSPORT_HANDSHAKE_ERROR
  | TLS_TRANSPORT_IO_ERROR
  | TLS_TRANSPORT_PROTOCOL_ERROR.

#[global] Instance TlsTransport_Status_eq_dec : EqDecision TlsTransport_StatusTypeDef.
Proof. solve_decision. Defined.

(** The value of the enumerator, as stored in a byte. *)
Definition status_code (s : TlsTransport_StatusTypeDef) : Z :=
  match s with
  | TLS_TRANSPORT_OK => 0
  | TLS_TRANSPORT_DNS_ERROR => 1
  | TLS_TRANSPORT_CONNECT_ERROR => 2
  | TLS_TRANSPORT_CONFIG_ERROR => 3
  | TLS_TRANSPORT_CERTIFICATE_ERROR => 4
  | TLS_TRANSPORT_HANDSHAKE_ERROR => 5
  | TLS_TRANSPORT_IO_ERROR => 6
  | TLS_TRANSPORT_PROTOCOL_ERROR => 7
  end.

(** [TlsTransport_ResultTypeDef], without the two diagnostic string pointers,
    which no modelled code reads. *)
Record TlsTransport_ResultTypeDef := TlsResult {
  r_status : TlsTransport_StatusTypeDef;
  r_detail : Z;
  r_httpStatus : Z;
  r_elapsedMs : Z;
  r_certificateExpiresAt : Z;
}.

Definition result_wf (r : TlsTransport_ResultTypeDef) : Prop :=
  -2147483648 <= r_detail r < 2147483648 /\ is_u16 (r_httpStatus r)
  /\ is_u32 (r_elapsedMs r) /\ is_u32 (r_certificateExpiresAt r).
