(* ===== verification/HealthCheckLog.v ===== *)
(** [Srv/Src/health_check_log.c]: the append-only ring of check results.

    Two sectors are filled with 40-byte records in turn.  The file models the
    boot scan, the sector roll, append and the newest-first read-out, and
    proves, for a log in which every slot below the write position was used:
    an append puts its record at the head of the history and keeps the rest;
    the history's sequence numbers are strictly decreasing; reading returns
    exactly the newest part of the history; a restart keeps the history of the
    newest sector; the stored days-left value is the calendar quotient.  It
    also proves what happens when a failed write leaves its slot erased: the
    records behind it are lost at the next restart. *)
From Stdlib Require Import Sorted.
From S2P Require Import Prelude Codec Crc NorFlash SimFlash FlashLayout TlsTypes.

Definition HEALTH_CHECK_LOG_ERASED_SEQUENCE : Z := 0xFFFFFFFF.
Definition HEALTH_CHECK_LOG_RECORD_MAGIC : Z := 0x48434C32.
Definition HEALTH_CHECK_LOG_EXPIRING_SECONDS : Z := 10 * 24 * 60 * 60.

Record healthCheckLog_RecordTypeDef := LogRecord {
  magic : Z;
  sequence : Z;
  timestampUnix : Z;
  elapsedMs : Z;
  detail : Z;
  certificateExpiresAt : Z;
  certificateDaysLeft : Z;
  httpStatus : Z;
  resourceIndex : Z;
  status : Z;
  certificateAnchorId : Z;
  certificateExpiring : Z;
  reserved : bytes;
  crc : Z;
}.

#[global] Instance LogRecord_eq_dec : EqDecision healthCheckLog_RecordTypeDef.
Proof. solve_decision. Defined.

Definition c_record : codec healthCheckLog_RecordTypeDef.
Proof.
  refine (c_iso (c_u32 ** c_u32 ** c_u32 ** c_u32 ** c_i32 ** c_u32 ** c_i32 ** c_u16 ** c_u8
                 ** c_u8 ** c_u8 ** c_u8 ** c_bytes 2 ** c_u32)%codec
    (fun '(a, (b, (c, (d, (e, (f, (g, (h, (i, (j, (k, (l, (m, n))))))))))))) =>
       LogRecord a b c d e f g h i j k l m n)
    (fun x => (magic x, (sequence x, (timestampUnix x, (elapsedMs x, (detail x,
       (certificateExpiresAt x, (certificateDaysLeft x, (httpStatus x, (resourceIndex x,
       (status x, (certificateAnchorId x, (certificateExpiring x, (reserved x, crc x))))))))))))))
    _ _).
  - by intros [].
  - by intros (?&?&?&?&?&?&?&?&?&?&?&?&?&?).
Defined.
Arguments c_record : simpl never.

Example record_size : c_size c_record = 40%nat.
Proof. reflexivity. Qed.

Definition HEALTH_CHECK_LOG_SLOTS_PER_SECTOR : nat := 102.

Example slots_per_sector :
  Z.of_nat HEALTH_CHECK_LOG_SLOTS_PER_SECTOR = W25Q64_SECTOR_SIZE / Z.of_nat (c_size c_record).
Proof. reflexivity. Qed.

(** [HealthCheckLog_EntryTypeDef]: the fields handed to callers. *)
Record HealthCheckLog_EntryTypeDef := Entry {
  e_sequence : Z;
  e_timestampUnix : Z;
  e_elapsedMs : Z;
  e_detail : Z;
  e_certificateExpiresAt : Z;
  e_certificateDaysLeft : Z;
  e_httpStatus : Z;
  e_resourceIndex : Z;
  e_status : Z;
  e_certificateAnchorId : Z;
  e_certificateExpiring : Z;
}.

Definition entry_of (r : healthCheckLog_RecordTypeDef) : HealthCheckLog_EntryTypeDef :=
  Entry (sequence r) (timestampUnix r) (elapsedMs r) (detail r) (certificateExpiresAt r)
    (certificateDaysLeft r) (httpStatus r) (resourceIndex r) (status r) (certificateAnchorId r)
    (certificateExpiring r).

(** ** Pure helpers *)

Definition healthCheckLog_SectorBase (sector : Z) : Z :=
  if sector =? 0 then FLASH_LAYOUT_HEALTH_CHECK_LOG_SECTOR_0
  else FLASH_LAYOUT_HEALTH_CHECK_LOG_SECTOR_1.

Definition slot_address (sector : Z) (slot : nat) : Z :=
  healthCheckLog_SectorBase sector + Z.of_nat slot * Z.of_nat (c_size c_record).

Definition healthCheckLog_Crc (r : healthCheckLog_RecordTypeDef) : Z :=
  crc32 (prefix_before_crc c_record r).

(** Whole days left and the warning flag of a certificate seen at [now]. *)
Definition certificate_days (expires now : Z) : Z * Z :=
  if expires =? 0 then (0, 0) else
  if expires <=? now then
    let overdue := u32 (now - expires) in (- i32 ((overdue + 86399) / 86400), 0)
  else
    let remaining := u32 (expires - now) in
    (i32 (remaining / 86400), if remaining <? HEALTH_CHECK_LOG_EXPIRING_SECONDS then 1 else 0).

Definition with_crc (r : healthCheckLog_RecordTypeDef) x :=
  LogRecord (magic r) (sequence r) (timestampUnix r) (elapsedMs r) (detail r)
    (certificateExpiresAt r) (certificateDaysLeft r) (httpStatus r) (resourceIndex r) (status r)
    (certificateAnchorId r) (certificateExpiring r) (reserved r) x.

(** The record [HealthCheckLog_Append] builds. *)
Definition make_record (seq resource anchor now : Z) (result : TlsTransport_ResultTypeDef) :=
  let '(days, expiring) := certificate_days (r_certificateExpiresAt result) now in
  let r := LogRecord HEALTH_CHECK_LOG_RECORD_MAGIC seq now (r_elapsedMs result) (r_detail result)
    (r_certificateExpiresAt result) days (r_httpStatus result) resource
    (status_code (r_status result)) anchor expiring [0; 0] 0 in
  with_crc r (healthCheckLog_Crc r).

(** ** Operations *)

Section ops.
Context {F : Type} `{Flash F}.

Record state := State { activeSector : Z; nextSlot : nat; nextSequence : Z; flash : F }.

Definition with_flash (s : state) (f : F) := State (activeSector s) (nextSlot s) (nextSequence s) f.

(** The loop of [healthCheckLog_ScanSector] from [slot], with [n] slots to go; [valid], [next] and [last] are its accumulators. *)
Fixpoint scan_loop (f : F) (sector : Z) (slot n : nat) (valid next : nat) (last : Z) :
    F * (nat * nat * Z) :=
  match n with
  | O => (f, (valid, next, last))
  | S n =>
      let '(f, st, d) := W25Q64_Read f (slot_address sector slot) (c_size c_record) in
      if negb (flash_ok st) then scan_loop f sector (S slot) n valid (slot + 1) last else
      let record := c_dec c_record d in
      if sequence record =? HEALTH_CHECK_LOG_ERASED_SEQUENCE then (f, (valid, slot, last)) else
      if negb (magic record =? HEALTH_CHECK_LOG_RECORD_MAGIC)
         || negb (crc record =? healthCheckLog_Crc record)
      then scan_loop f sector (S slot) n valid (slot + 1) last
      else scan_loop f sector (S slot) n (S valid) (slot + 1) (sequence record)
  end.

(** [count], [nextAvailableSlot] and [lastSequence]. *)
Definition healthCheckLog_ScanSector (f : F) (sector : Z) : F * (nat * nat * Z) :=
  scan_loop f sector 0 HEALTH_CHECK_LOG_SLOTS_PER_SECTOR 0 HEALTH_CHECK_LOG_SLOTS_PER_SECTOR 0.

Definition healthCheckLog_RollToSector (s : state) (sector : Z) : state * bool :=
  let '(f, st) := W25Q64_EraseSector (flash s) (healthCheckLog_SectorBase sector) in
  if negb (flash_ok st) then (with_flash s f, false)
  else (State sector 0 (nextSequence s) f, true).

Definition roll_status (r : state * bool) : state * HealthCheck_StatusTypeDef :=
  let '(s, ok) := r in
  (s, if ok then HEALTH_CHECK_STATUS_OK else HEALTH_CHECK_STATUS_ERROR).

(** [created] is whether the mutex was created. *)
Definition HealthCheckLog_Init (created : bool) (s : state) : state * HealthCheck_StatusTypeDef :=
  if negb created then (s, HEALTH_CHECK_STATUS_ERROR) else
  let '(f, (count0, available0, last0)) := healthCheckLog_ScanSector (flash s) 0 in
  let '(f, (count1, available1, last1)) := healthCheckLog_ScanSector f 1 in
  if (count0 =? 0)%nat && (count1 =? 0)%nat then
    roll_status (healthCheckLog_RollToSector (State (activeSector s) (nextSlot s) 1 f) 0)
  else
  let active := if last1 <=? last0 then 0 else 1 in
  let available := if active =? 0 then available0 else available1 in
  let last := if active =? 0 then last0 else last1 in
  if (available <? HEALTH_CHECK_LOG_SLOTS_PER_SECTOR)%nat then
    (State active available (u32 (last + 1)) f, HEALTH_CHECK_STATUS_OK)
  else
    roll_status (healthCheckLog_RollToSector
      (State (activeSector s) (nextSlot s) (u32 (last + 1)) f) (Z.lxor active 1)).

(** The entry is written only on success; [None] is a [NULL] result. *)
Definition HealthCheckLog_Append (taken : bool) (s : state) (resource anchor now : Z)
    (result : option TlsTransport_ResultTypeDef) :
    state * HealthCheck_StatusTypeDef * option HealthCheckLog_EntryTypeDef :=
  match result with
  | None => (s, HEALTH_CHECK_STATUS_ERROR, None)
  | Some result =>
      if negb taken then (s, HEALTH_CHECK_STATUS_ERROR, None) else
      let '(s, rolled) :=
        if (HEALTH_CHECK_LOG_SLOTS_PER_SECTOR <=? nextSlot s)%nat
        then healthCheckLog_RollToSector s (Z.lxor (activeSector s) 1) else (s, true) in
      if negb rolled then (s, HEALTH_CHECK_STATUS_ERROR, None) else
      let record := make_record (nextSequence s) resource anchor now result in
      let address := slot_address (activeSector s) (nextSlot s) in
      let done f := State (activeSector s) (S (nextSlot s)) (u32 (nextSequence s + 1)) f in
      let '(f, st) := W25Q64_Program (flash s) address (c_enc c_record record) in
      if negb (flash_ok st) then (done f, HEALTH_CHECK_STATUS_ERROR, None) else
      let '(f, st, d) := W25Q64_Read f address (c_size c_record) in
      if negb (flash_ok st) || negb (bool_decide (d = c_enc c_record record))
      then (done f, HEALTH_CHECK_STATUS_ERROR, None)
      else (done f, HEALTH_CHECK_STATUS_OK, Some (entry_of (c_dec c_record d)))
  end.

(** A record [GetRecent] returns. *)
Definition readable (r : healthCheckLog_RecordTypeDef) : bool :=
  negb ((sequence r =? HEALTH_CHECK_LOG_ERASED_SEQUENCE)
        || negb (magic r =? HEALTH_CHECK_LOG_RECORD_MAGIC)
        || negb (crc r =? healthCheckLog_Crc r)).

(** The inner loop: [remaining] slots downwards, at most [room] entries. *)
Fixpoint recent_loop (f : F) (sector : Z) (remaining room : nat) :
    F * list HealthCheckLog_EntryTypeDef :=
  match remaining, room with
  | S remaining, S room' =>
      let '(f, st, d) := W25Q64_Read f (slot_address sector remaining) (c_size c_record) in
      if negb (flash_ok st) then (f, []) else
      let record := c_dec c_record d in
      if readable record then
        let '(f, l) := recent_loop f sector remaining room' in (f, entry_of record :: l)
      else recent_loop f sector remaining room
  | _, _ => (f, [])
  end.

(** The entries written to the caller's array of [capacity] elements. *)
Definition HealthCheckLog_GetRecent (taken : bool) (s : state) (capacity : nat) :
    state * list HealthCheckLog_EntryTypeDef :=
  if (capacity =? 0)%nat || negb taken then (s, []) else
  let other := Z.lxor (activeSector s) 1 in
  let '(f, (_, available, _)) := healthCheckLog_ScanSector (flash s) other in
  let '(f, l0) := recent_loop f (activeSector s) (nextSlot s) capacity in
  let '(f, l1) := recent_loop f other available (capacity - length l0) in
  (with_flash s f, l0 ++ l1).
End ops.
Arguments state : clear implicits.

(** ** Well-formed records *)

Lemma record_wf r :
  c_wf c_record r <->
  is_u32 (magic r) /\ is_u32 (sequence r) /\ is_u32 (timestampUnix r) /\ is_u32 (elapsedMs r)
  /\ -2147483648 <= detail r < 2147483648 /\ is_u32 (certificateExpiresAt r)
  /\ -2147483648 <= certificateDaysLeft r < 2147483648 /\ is_u16 (httpStatus r)
  /\ is_u8 (resourceIndex r) /\ is_u8 (status r) /\ is_u8 (certificateAnchorId r)
  /\ is_u8 (certificateExpiring r)
  /\ (length (reserved r) = 2%nat /\ Forall is_u8 (reserved r)) /\ is_u32 (crc r).
Proof. reflexivity. Qed.

Lemma log_crc_field_indep r x :
  c_wf c_record r -> healthCheckLog_Crc (with_crc r x) = healthCheckLog_Crc r.
Proof.
  destruct r. intros (H1 & H2 & H3 & H4 & H5 & H6 & H7 & H8 & H9 & H10 & H11 & H12 & H13 & _).
  unfold healthCheckLog_Crc. f_equal.
  repeat (apply prefix_pair; [done|simpl; lia|]). apply prefix_crc_field.
Qed.

Lemma c_record_size : c_size c_record = 40%nat.
Proof. reflexivity. Qed.

#[global] Opaque c_record.

(** The stored days-left value is the quotient of the remaining seconds by the
    length of a day, rounded down, also after expiry, and the warning flag
    says that less than ten days, but some time, remain. *)
Lemma certificate_days_spec expires now :
  is_u32 expires -> is_u32 now -> expires <> 0 ->
  certificate_days expires now
  = ((expires - now) / 86400, if decide (0 < expires - now < 864000) then 1 else 0)
  /\ -49711 <= (expires - now) / 86400 <= 49710.
Proof.
  unfold is_u32. intros He Hn Hz. unfold certificate_days, HEALTH_CHECK_LOG_EXPIRING_SECONDS.
  rewrite (proj2 (Z.eqb_neq _ _) Hz).
  assert (forall x, 0 <= x < 2147483648 -> i32 x = x) as Hi.
  { intros x Hx. unfold i32. rewrite u32_id by (unfold is_u32; lia). cbv zeta.
    destruct (Z.ltb_spec x 2147483648); lia. }
  split; [|Z.div_mod_to_equations; lia].
  destruct (Z.leb_spec expires now); cbv zeta; rewrite u32_id by (unfold is_u32; lia).
  - rewrite Hi by (Z.div_mod_to_equations; lia). rewrite decide_False by lia. f_equal.
    Z.div_mod_to_equations; lia.
  - rewrite Hi by (Z.div_mod_to_equations; lia). f_equal.
    destruct (Z.ltb_spec (expires - now) (10 * 24 * 60 * 60)); case_decide; lia.
Qed.

Lemma certificate_days_bounds expires now :
  is_u32 expires -> is_u32 now ->
  -49711 <= (certificate_days expires now).1 <= 49710
  /\ ((certificate_days expires now).2 = 0 \/ (certificate_days expires now).2 = 1).
Proof.
  intros He Hn. destruct (Z.eq_dec expires 0) as [->|Hz].
  - simpl. split; [lia|by left].
  - destruct (certificate_days_spec _ _ He Hn Hz) as [-> Hb]. split; [done|].
    simpl. case_decide; auto.
Qed.

Lemma make_record_spec seq resource anchor now result :
  is_u32 seq -> is_u8 resource -> is_u8 anchor -> is_u32 now -> result_wf result ->
  let r := make_record seq resource anchor now result in
  c_wf c_record r /\ sequence r = seq /\ magic r = HEALTH_CHECK_LOG_RECORD_MAGIC
  /\ crc r = healthCheckLog_Crc r.
Proof.
  intros Hs Hr Ha Hn (Hd & Hh & He & Hx). unfold make_record.
  pose proof (certificate_days_bounds (r_certificateExpiresAt result) now Hx Hn) as [Hb Hf].
  destruct (certificate_days _ _) as [days expiring]. simpl in Hb, Hf. cbv zeta.
  set (r0 := LogRecord _ _ _ _ _ _ _ _ _ _ _ _ _ _).
  assert (c_wf c_record r0) as Hw.
  { apply record_wf. simpl. unfold HEALTH_CHECK_LOG_RECORD_MAGIC. split_and!;
      try done; try lia; try (by destruct (r_status result)); try (by destruct Hf as [->| ->]).
    by repeat constructor. }
  split; [|split; [done|split; [done|by rewrite log_crc_field_indep]]].
  pose proof (crc32_u32 _ (prefix_bytes _ _ Hw)) as Hc.
  apply record_wf in Hw as (H1 & H2 & H3 & H4 & H5 & H6 & H7 & H8 & H9 & H10 & H11 & H12 & H13 & _).
  apply record_wf. do 13 (split; [assumption|]). exact Hc.
Qed.

(** ** The records on the device *)

Definition rec (m : mem) (sector : Z) (slot : nat) : healthCheckLog_RecordTypeDef :=
  c_dec c_record (slice m (slot_address sector slot) (c_size c_record)).

Definition recs (m : mem) (sector : Z) (slot n : nat) : list healthCheckLog_RecordTypeDef :=
  map (rec m sector) (seq slot n).

(** The records before the first slot whose sequence field is erased. *)
Fixpoint leading (l : list healthCheckLog_RecordTypeDef) : list healthCheckLog_RecordTypeDef :=
  match l with
  | [] => []
  | r :: l => if sequence r =? HEALTH_CHECK_LOG_ERASED_SEQUENCE then [] else r :: leading l
  end.

(** The newest-first readable records of a list of slots. *)
Definition newest (l : list healthCheckLog_RecordTypeDef) : list healthCheckLog_RecordTypeDef :=
  List.filter readable (rev l).

Definition view (m : mem) (sector : Z) : list healthCheckLog_RecordTypeDef :=
  recs m sector 0 HEALTH_CHECK_LOG_SLOTS_PER_SECTOR.

(** The readable records of the active sector and of the other one. *)
Definition active_part {F} `{Flash F} (s : state F) : list healthCheckLog_RecordTypeDef :=
  newest (recs (fl_mem (flash s)) (activeSector s) 0 (nextSlot s)).

Definition other_part {F} `{Flash F} (s : state F) : list healthCheckLog_RecordTypeDef :=
  newest (leading (view (fl_mem (flash s)) (Z.lxor (activeSector s) 1))).

(** The log as callers see it, newest first. *)
Definition history {F} `{Flash F} (s : state F) : list healthCheckLog_RecordTypeDef :=
  active_part s ++ other_part s.

Definition last_sequence (d : Z) (l : list healthCheckLog_RecordTypeDef) : Z :=
  match head l with Some r => sequence r | None => d end.

Lemma slot_address_eq b i :
  slot_address b i = (if b =? 0 then 8355840 else 8359936) + Z.of_nat i * 40.
Proof. unfold slot_address, healthCheckLog_SectorBase. rewrite c_record_size. by destruct (b =? 0). Qed.

Lemma sector_base_eq b :
  healthCheckLog_SectorBase b = (if b =? 0 then 8355840 else 8359936).
Proof. by destruct (b =? 0) eqn:E; unfold healthCheckLog_SectorBase; rewrite E. Qed.

Lemma sector_base_pos b : 0 <= healthCheckLog_SectorBase b.
Proof. rewrite sector_base_eq. by destruct (b =? 0). Qed.

Lemma length_recs m b k n : length (recs m b k n) = n.
Proof. unfold recs. by rewrite length_map, length_seq. Qed.

Lemma recs_S m b k n : recs m b k (S n) = rec m b k :: recs m b (S k) n.
Proof. reflexivity. Qed.

Lemma recs_snoc m b k n : recs m b k (S n) = recs m b k n ++ [rec m b (k + n)].
Proof. unfold recs. by rewrite seq_S, map_app. Qed.

Lemma recs_app m b k n j : recs m b k (n + j) = recs m b k n ++ recs m b (k + n) j.
Proof. unfold recs. by rewrite seq_app, map_app. Qed.

Lemma take_recs m b n j : (j <= n)%nat -> take j (recs m b 0 n) = recs m b 0 j.
Proof.
  intros Hj. replace n with (j + (n - j))%nat by lia. rewrite recs_app.
  rewrite take_app_length'; [done|]. by rewrite length_recs.
Qed.

Lemma rec_ext m m' b i :
  (forall x, slot_address b i <= x < slot_address b i + 40 -> m' x = m x) -> rec m' b i = rec m b i.
Proof. intros E. unfold rec. f_equal. apply slice_ext. intros x. rewrite c_record_size. apply E. Qed.

Lemma recs_ext m m' b k n :
  (forall x, slot_address b k <= x < slot_address b (k + n) -> m' x = m x) ->
  recs m' b k n = recs m b k n.
Proof.
  intros E. apply map_ext_in. intros i Hi. apply in_seq in Hi. apply rec_ext.
  intros x Hx. apply E. rewrite !slot_address_eq in *. lia.
Qed.

#[global] Instance recs_proper : Proper (mem_eq ==> eq ==> eq ==> eq ==> eq) recs.
Proof. intros m m' Hm b ? <- k ? <- n ? <-. apply recs_ext. intros x _. by rewrite Hm. Qed.

#[global] Instance view_proper : Proper (mem_eq ==> eq ==> eq) view.
Proof. intros m m' Hm b ? <-. unfold view. by rewrite Hm. Qed.

#[global] Instance rec_proper : Proper (mem_eq ==> eq ==> eq ==> eq) rec.
Proof. intros m m' Hm b ? <- i ? <-. apply rec_ext. intros x _. by rewrite Hm. Qed.

Lemma newest_app l1 l2 : newest (l1 ++ l2) = newest l2 ++ newest l1.
Proof. unfold newest. by rewrite rev_app_distr, filter_app. Qed.

Lemma newest_nil : newest [] = [].
Proof. reflexivity. Qed.

Lemma newest_cons r l : newest (r :: l) = newest l ++ (if readable r then [r] else []).
Proof. change (r :: l) with ([r] ++ l). rewrite newest_app. unfold newest at 2. simpl. by destruct (readable r). Qed.

Lemma leading_used l : Forall (fun r => sequence r <> HEALTH_CHECK_LOG_ERASED_SEQUENCE) l -> leading l = l.
Proof.
  induction 1 as [|r l Hr _ IH]; [done|]. cbn [leading].
  rewrite (proj2 (Z.eqb_neq _ _) Hr). by rewrite IH.
Qed.

Lemma leading_stop l1 r l2 :
  Forall (fun r => sequence r <> HEALTH_CHECK_LOG_ERASED_SEQUENCE) l1 ->
  sequence r = HEALTH_CHECK_LOG_ERASED_SEQUENCE -> leading (l1 ++ r :: l2) = l1.
Proof.
  induction 1 as [|x l Hx _ IH]; intros Hr; simpl.
  - by rewrite (proj2 (Z.eqb_eq _ _) Hr).
  - rewrite (proj2 (Z.eqb_neq _ _) Hx). by rewrite IH.
Qed.

Lemma leading_all l : Forall (fun r => sequence r <> HEALTH_CHECK_LOG_ERASED_SEQUENCE) (leading l).
Proof.
  induction l as [|r l IH]; simpl; [constructor|].
  destruct (Z.eqb_spec (sequence r) HEALTH_CHECK_LOG_ERASED_SEQUENCE); by constructor.
Qed.

Lemma leading_prefix l : exists t, l = leading l ++ t.
Proof.
  induction l as [|r l [t IH]]; [by exists []|]. cbn [leading].
  destruct (sequence r =? _); [by exists (r :: l)|]. exists t. simpl. by rewrite <-IH.
Qed.

Lemma length_leading m b : (length (leading (view m b)) <= 102)%nat.
Proof.
  destruct (leading_prefix (view m b)) as [t Et]. apply (f_equal length) in Et.
  unfold view in Et at 1. rewrite length_recs, length_app in Et.
  unfold HEALTH_CHECK_LOG_SLOTS_PER_SECTOR in Et. lia.
Qed.

Lemma recs_leading m b : recs m b 0 (length (leading (view m b))) = leading (view m b).
Proof.
  destruct (leading_prefix (view m b)) as [t Et].
  rewrite <-(take_recs m b 102) by apply length_leading.
  change (recs m b 0 102) with (view m b). rewrite Et at 2. apply take_app_length.
Qed.

(** An erased slot has the erased sequence number. *)
Lemma rec_erased m b i :
  (forall x, slot_address b i <= x < slot_address b i + 40 -> m x = 255) ->
  sequence (rec m b i) = HEALTH_CHECK_LOG_ERASED_SEQUENCE.
Proof.
  intros E. unfold rec. rewrite (slice_ext (fun _ => 255)).
  - rewrite c_record_size. generalize (slot_address b i). intros a.
    replace (slice (fun _ : Z => 255) a 40) with (replicate 40 255) by (by vm_compute).
    by vm_compute.
  - intros x. rewrite c_record_size. apply E.
Qed.

Lemma readable_used r :
  sequence r <> HEALTH_CHECK_LOG_ERASED_SEQUENCE ->
  readable r = negb (negb (magic r =? HEALTH_CHECK_LOG_RECORD_MAGIC)
                     || negb (crc r =? healthCheckLog_Crc r)).
Proof. intros Hr. unfold readable. by rewrite (proj2 (Z.eqb_neq _ _) Hr). Qed.

Lemma last_sequence_app d l1 l2 :
  last_sequence d (l1 ++ l2) = last_sequence (last_sequence d l2) l1.
Proof. by destruct l1. Qed.

Section scanning.
Context {F : Type} `{FlashLaws F}.

(** A read of one slot on a device that answers. *)
Lemma read_slot f m b i :
  fl_ready f -> mem_eq (fl_mem f) m -> (i < 102)%nat ->
  exists f' d, W25Q64_Read f (slot_address b i) (c_size c_record) = (f', W25Q64_STATUS_OK, d)
    /\ c_dec c_record d = rec m b i /\ fl_ready f' /\ mem_eq (fl_mem f') m.
Proof.
  intros Hr Hm Hi. destruct (W25Q64_Read f _ _) as [[f' st] d] eqn:E.
  assert (0 <= slot_address b i) as Hp by (rewrite slot_address_eq; destruct (b =? 0); lia).
  assert (w25q64_IsRangeValid (slot_address b i) (Z.of_nat (c_size c_record)) = true) as Hv
    by (rewrite c_record_size, slot_address_eq; unfold w25q64_IsRangeValid; destruct (b =? 0); flia).
  destruct (ready_read _ _ _ _ _ _ Hr Hp Hv E) as [-> Hr'].
  exists f', d. split; [done|]. split; [|split; [done|]].
  - unfold rec. rewrite (read_ok _ _ _ _ _ Hp E). by rewrite Hm.
  - rewrite <-Hm. by eapply read_mem.
Qed.

Lemma scan_loop_spec m b n : forall f slot valid next last,
  fl_ready f -> mem_eq (fl_mem f) m -> (slot + n <= 102)%nat -> (n = 0%nat -> next = slot) ->
  exists f', scan_loop f b slot n valid next last
    = (f', (valid + length (newest (leading (recs m b slot n))),
            slot + length (leading (recs m b slot n)),
            last_sequence last (newest (leading (recs m b slot n)))))%nat
    /\ fl_ready f' /\ mem_eq (fl_mem f') m.
Proof.
  induction n as [|n IH]; intros f slot valid next last Hr Hm Hs Hn.
  - exists f. rewrite (Hn eq_refl). cbn [scan_loop recs leading newest]. simpl.
    by rewrite !Nat.add_0_r.
  - cbn [scan_loop]. destruct (read_slot f m b slot Hr Hm ltac:(lia)) as (f1 & d & -> & -> & Hr1 & Hm1).
    change (flash_ok W25Q64_STATUS_OK) with true. cbn [negb]. rewrite recs_S. cbn [leading].
    destruct (Z.eqb_spec (sequence (rec m b slot)) HEALTH_CHECK_LOG_ERASED_SEQUENCE) as [He|He].
    { exists f1. simpl. by rewrite !Nat.add_0_r. }
    rewrite newest_cons, last_sequence_app, length_app, (readable_used _ He). cbn [length].
    destruct (negb _ || _); cbn [negb].
    + destruct (IH f1 (S slot) valid (slot + 1)%nat last Hr1 Hm1 ltac:(lia) ltac:(lia))
        as (f' & -> & Hr' & Hm'). exists f'. split; [|done].
      by rewrite Nat.add_0_r, Nat.add_succ_r.
    + destruct (IH f1 (S slot) (S valid) (slot + 1)%nat (sequence (rec m b slot)) Hr1 Hm1
        ltac:(lia) ltac:(lia)) as (f' & -> & Hr' & Hm'). exists f'. split; [|done].
      cbn [length last_sequence head]. by rewrite Nat.add_1_r, !Nat.add_succ_r.
Qed.

Lemma scan_sector_spec f m b :
  fl_ready f -> mem_eq (fl_mem f) m ->
  exists f', healthCheckLog_ScanSector f b
    = (f', (length (newest (leading (view m b))), length (leading (view m b)),
            last_sequence 0 (newest (leading (view m b)))))
    /\ fl_ready f' /\ mem_eq (fl_mem f') m.
Proof.
  intros Hr Hm. exact (scan_loop_spec m b 102 f 0 0 102 0 Hr Hm (le_n _) (fun E => match E with end)).
Qed.

Lemma recent_loop_spec m b k : forall f room,
  fl_ready f -> mem_eq (fl_mem f) m -> (k <= 102)%nat ->
  exists f', recent_loop f b k room = (f', take room (map entry_of (newest (recs m b 0 k))))
    /\ fl_ready f' /\ mem_eq (fl_mem f') m.
Proof.
  induction k as [|k IH]; intros f room Hr Hm Hk; [exists f; by destruct room|].
  destruct room as [|room]; [by exists f|]. cbn [recent_loop].
  destruct (read_slot f m b k Hr Hm ltac:(lia)) as (f1 & d & -> & -> & Hr1 & Hm1).
  change (flash_ok W25Q64_STATUS_OK) with true. cbn [negb].
  rewrite recs_snoc, newest_app, Nat.add_0_l. unfold newest at 1. cbn [rev app List.filter].
  destruct (readable (rec m b k)).
  - destruct (IH f1 room Hr1 Hm1 ltac:(lia)) as (f' & -> & Hr' & Hm'). by exists f'.
  - destruct (IH f1 (S room) Hr1 Hm1 ltac:(lia)) as (f' & -> & Hr' & Hm'). by exists f'.
Qed.

(** Reading the log returns exactly the newest [capacity] entries of the
    history, the active sector's records first, newest first. *)
Lemma log_get_recent (s : state F) (capacity : nat) :
  fl_ready (flash s) -> (nextSlot s <= HEALTH_CHECK_LOG_SLOTS_PER_SECTOR)%nat ->
  exists s', HealthCheckLog_GetRecent true s capacity
    = (s', take capacity (map entry_of (history s))) /\ fl_ready (flash s')
    /\ mem_eq (fl_mem (flash s')) (fl_mem (flash s)).
Proof.
  intros Hr Hn. unfold HealthCheckLog_GetRecent. cbn [negb]. rewrite orb_false_r.
  destruct (Nat.eqb_spec capacity 0) as [->|Hc]; [by exists s|].
  destruct (scan_sector_spec (flash s) _ (Z.lxor (activeSector s) 1) Hr ltac:(reflexivity))
    as (f1 & -> & Hr1 & Hm1).
  destruct (recent_loop_spec (fl_mem (flash s)) (activeSector s) (nextSlot s) f1 capacity Hr1 Hm1 Hn)
    as (f2 & -> & Hr2 & Hm2). fold (active_part s).
  set (l0 := map entry_of (active_part s)).
  set (other := Z.lxor (activeSector s) 1).
  pose proof (length_leading (fl_mem (flash s)) other) as Hlen.
  destruct (recent_loop_spec (fl_mem (flash s)) other _ f2 (capacity - length (take capacity l0))
    Hr2 Hm2 Hlen) as (f3 & -> & Hr3 & Hm3).
  exists (with_flash s f3). split; [|done]. f_equal. unfold history. rewrite map_app, take_app. f_equal.
  rewrite length_take, recs_leading. unfold l0. f_equal. rewrite length_map. lia.
Qed.
End scanning.

(** ** The invariant of a log without holes *)

Lemma recs_0 m b k : recs m b k 0 = [].
Proof. reflexivity. Qed.

Lemma view_recs m b : view m b = recs m b 0 102.
Proof. reflexivity. Qed.

Lemma newest_forall (P : healthCheckLog_RecordTypeDef -> Prop) l : Forall P l -> Forall P (newest l).
Proof.
  intros Hl. unfold newest. apply Forall_rev in Hl. induction Hl as [|r t Hr _ IH]; simpl; [constructor|].
  destruct (readable r); [by constructor|done].
Qed.

#[global] Opaque recs view newest.

Abbreviation flip b := (Z.lxor b 1).

Record Inv {F} `{Flash F} (s : state F) : Prop := {
  inv_sector : activeSector s = 0 \/ activeSector s = 1;
  inv_slot : (nextSlot s <= 102)%nat;
  inv_next : 1 <= nextSequence s <= HEALTH_CHECK_LOG_ERASED_SEQUENCE;
  (** Every slot below the write position was used, *)
  inv_used : Forall (fun r => sequence r <> HEALTH_CHECK_LOG_ERASED_SEQUENCE)
               (recs (fl_mem (flash s)) (activeSector s) 0 (nextSlot s));
  (** and every slot from it on is erased. *)
  inv_clean : forall x, slot_address (activeSector s) (nextSlot s) <= x
                        < slot_address (activeSector s) 102 -> fl_mem (flash s) x = 255;
  inv_sorted : StronglySorted Z.gt (map sequence (history s));
  inv_bound : Forall (fun r => 1 <= sequence r < nextSequence s) (history s);
  (** The other sector was filled before this one was started. *)
  inv_other : active_part s = [] -> other_part s = []
                \/ length (leading (view (fl_mem (flash s)) (flip (activeSector s)))) = 102%nat;
}.

Lemma flip_cases b : b = 0 \/ b = 1 ->
  (flip b = 0 \/ flip b = 1) /\ flip (flip b) = b /\ (flip b =? 0) = negb (b =? 0).
Proof. intros [->| ->]; by split_and!; auto. Qed.

(** Erasing one sector leaves the records of the other. *)
Lemma recs_erase_other m b k n :
  b = 0 \/ b = 1 -> (k + n <= 102)%nat ->
  recs (mem_erase m (healthCheckLog_SectorBase (flip b)) W25Q64_SECTOR_SIZE) b k n = recs m b k n.
Proof.
  intros Hb Hk. destruct (flip_cases b Hb) as (_ & _ & Hf). apply recs_ext. intros x Hx.
  unfold mem_erase. rewrite (proj2 (in_range_false _ _ _)); [done|].
  rewrite sector_base_eq, Hf. rewrite !slot_address_eq in Hx. destruct (b =? 0); simpl; flia.
Qed.

Lemma erased_sector m b x :
  slot_address b 0 <= x < slot_address b 102 ->
  mem_erase m (healthCheckLog_SectorBase b) W25Q64_SECTOR_SIZE x = 255.
Proof.
  intros Hx. unfold mem_erase. rewrite (proj2 (in_range_true _ _ _)); [done|].
  rewrite sector_base_eq. rewrite !slot_address_eq in Hx. flia.
Qed.

Lemma leading_erased m b :
  (forall x, slot_address b 0 <= x < slot_address b 102 -> m x = 255) -> leading (view m b) = [].
Proof.
  intros E. rewrite view_recs. change 102%nat with (S 101). rewrite recs_S.
  cbn [leading]. rewrite rec_erased; [done|]. intros x Hx. apply E. rewrite !slot_address_eq in *. lia.
Qed.

(** Writing a record into an erased slot. *)
Lemma rec_program m b i r :
  c_wf c_record r -> (forall x, slot_address b i <= x < slot_address b i + 40 -> m x = 255) ->
  rec (mem_program m (slot_address b i) (c_enc c_record r)) b i = r.
Proof.
  intros Hr E. unfold rec. rewrite <-(c_enc_length c_record r Hr) at 1. rewrite slice_program.
  - by apply c_dec_enc.
  - intros x. rewrite (c_enc_length _ _ Hr), c_record_size. apply E.
  - by apply c_enc_bytes.
Qed.

Lemma recs_outside_slot m m' b b' i k n :
  same_outside m m' (slot_address b i) 40 -> (b =? 0) <> (b' =? 0) \/ (k + n <= i)%nat ->
  (i < 102)%nat -> (k + n <= 102)%nat -> recs m' b' k n = recs m b' k n.
Proof.
  intros Ho Hd Hi Hk. apply recs_ext. intros x Hx. apply Ho.
  rewrite !slot_address_eq in *. destruct (b =? 0), (b' =? 0); destruct Hd; try done; lia.
Qed.

(** Appending to the abstract log: into the active sector, or when that is
    full into the older one, whose records are given up. *)
Definition log_add (l : nat * list healthCheckLog_RecordTypeDef * list healthCheckLog_RecordTypeDef)
    (r : healthCheckLog_RecordTypeDef) :=
  let '(n, active, older) := l in
  if (n <? 102)%nat then (S n, r :: active, older) else (1%nat, [r], active).

Lemma log_adds n active older rs :
  (n + length rs <= 102)%nat ->
  fold_left log_add rs (n, active, older) = ((n + length rs)%nat, rev rs ++ active, older).
Proof.
  revert n active. induction rs as [|r rs IH]; intros n active Hn; cbn [fold_left length rev] in *.
  { by rewrite Nat.add_0_r. }
  unfold log_add at 2. rewrite (proj2 (Nat.ltb_lt _ _)) by lia. rewrite IH by lia.
  rewrite <-app_assoc. f_equal. f_equal. lia.
Qed.

(** At most a sector's worth of records is all kept, the newest first. *)
Lemma log_adds_kept n active older rs :
  (n <= 102)%nat -> (length rs <= 102)%nat ->
  exists kept, let '(_, active', older') := fold_left log_add rs (n, active, older) in
    active' ++ older' = rev rs ++ kept.
Proof.
  intros Hn Hl. destruct (Nat.le_gt_cases (n + length rs) 102) as [Hs|Hs].
  { rewrite log_adds by done. exists (active ++ older). by rewrite app_assoc. }
  rewrite <-(take_drop (102 - n) rs), fold_left_app, rev_app_distr.
  rewrite log_adds by (rewrite length_take; lia). rewrite length_take, Nat.min_l by lia.
  destruct (drop (102 - n) rs) as [|r l] eqn:Ed.
  { apply (f_equal length) in Ed. rewrite length_drop in Ed. simpl in Ed. lia. }
  apply (f_equal length) in Ed as Hd. rewrite length_drop in Hd. cbn [length fold_left] in *.
  unfold log_add at 2. rewrite (proj2 (Nat.ltb_ge _ _)) by lia. rewrite log_adds by lia.
  exists active. cbn [rev]. by rewrite !app_assoc.
Qed.

Section append.
Context {F : Type} `{FlashLaws F}.
Implicit Types s : state F.

Lemma inv_active_leading s :
  Inv s -> nextSlot s = 102%nat ->
  leading (view (fl_mem (flash s)) (activeSector s)) = recs (fl_mem (flash s)) (activeSector s) 0 102.
Proof.
  intros Hi Hn. pose proof (inv_used s Hi) as Hu. rewrite Hn in Hu. rewrite view_recs.
  by apply leading_used.
Qed.

Lemma sorted_app_l (l1 l2 : list Z) : StronglySorted Z.gt (l1 ++ l2) -> StronglySorted Z.gt l1.
Proof.
  induction l1 as [|x l1 IH]; simpl; intros Hs; [constructor|]. inversion Hs as [|? ? Hs' Hf]; subst.
  apply Forall_app in Hf as [Hf _]. constructor; auto.
Qed.

Lemma sorted_app_r (l1 l2 : list Z) : StronglySorted Z.gt (l1 ++ l2) -> StronglySorted Z.gt l2.
Proof. induction l1 as [|x l1 IH]; simpl; intros Hs; [done|]. inversion Hs; auto. Qed.

Lemma sorted_app_cross (l1 l2 : list Z) :
  StronglySorted Z.gt (l1 ++ l2) -> forall x y, x ∈ l1 -> y ∈ l2 -> x > y.
Proof.
  induction l1 as [|z l1 IH]; simpl; intros Hs x y Hx Hy; [by apply not_elem_of_nil in Hx|].
  inversion Hs as [|? ? Hs' Hf]; subst. apply elem_of_cons in Hx as [->|Hx]; [|by eapply IH].
  rewrite list.Forall_forall in Hf. apply Hf. apply elem_of_app. by right.
Qed.

(** A roll starts an empty sector beside what the other one holds. *)
Lemma roll_to s b s1 :
  b = 0 \/ b = 1 -> 1 <= nextSequence s <= HEALTH_CHECK_LOG_ERASED_SEQUENCE ->
  let kept := newest (leading (view (fl_mem (flash s)) (flip b))) in
  StronglySorted Z.gt (map sequence kept) ->
  Forall (fun r => 1 <= sequence r < nextSequence s) kept ->
  kept = [] \/ length (leading (view (fl_mem (flash s)) (flip b))) = 102%nat ->
  healthCheckLog_RollToSector s b = (s1, true) ->
  Inv s1 /\ history s1 = kept /\ nextSlot s1 = 0%nat /\ nextSequence s1 = nextSequence s
  /\ activeSector s1 = b
  /\ view (fl_mem (flash s1)) (flip b) = view (fl_mem (flash s)) (flip b).
Proof.
  intros Hb Hq kept Hs Hf Hk E. unfold healthCheckLog_RollToSector in E.
  destruct (W25Q64_EraseSector _ _) as [f st] eqn:Ee. destruct (flash_ok st) eqn:Hst; [|done].
  apply flash_ok_true in Hst as ->. injection E as <-.
  apply erase_ok in Ee as Hm; [|apply sector_base_pos].
  destruct (flip_cases _ Hb) as (Hb' & Hff & Hfe).
  assert (view (fl_mem f) (flip b) = view (fl_mem (flash s)) (flip b)) as Hv.
  { rewrite !view_recs, Hm.
    pose proof (recs_erase_other (fl_mem (flash s)) (flip b) 0 102 Hb' (le_n _)) as Hr.
    by rewrite Hff in Hr. }
  set (s1 := State b 0 (nextSequence s) f).
  assert (active_part s1 = []) as Ha
    by (unfold active_part; cbn [activeSector nextSlot s1]; by rewrite recs_0, newest_nil).
  assert (other_part s1 = kept) as Ho
    by (unfold other_part; cbn [activeSector flash s1]; by rewrite Hv).
  assert (history s1 = kept) as Hh by (unfold history; rewrite Ha; exact Ho).
  split; [|exact (conj Hh (conj eq_refl (conj eq_refl (conj eq_refl Hv))))].
  split; cbn [activeSector nextSlot nextSequence flash s1].
  - exact Hb.
  - lia.
  - exact Hq.
  - rewrite recs_0. constructor.
  - intros x Hx. rewrite Hm. by apply erased_sector.
  - rewrite Hh. exact Hs.
  - rewrite Hh. exact Hf.
  - intros _. change (State _ _ _ _) with s1. rewrite Ho, Hv. exact Hk.
Qed.

Lemma history_parts s :
  Inv s ->
  (StronglySorted Z.gt (map sequence (active_part s))
   /\ Forall (fun r => 1 <= sequence r < nextSequence s) (active_part s))
  /\ (StronglySorted Z.gt (map sequence (other_part s))
      /\ Forall (fun r => 1 <= sequence r < nextSequence s) (other_part s))
  /\ forall x y, x ∈ active_part s -> y ∈ other_part s -> sequence y < sequence x.
Proof.
  intros Hi. pose proof (inv_sorted s Hi) as Hs. pose proof (inv_bound s Hi) as Hb.
  unfold history in *. rewrite map_app in Hs. apply Forall_app in Hb as [Hb1 Hb2].
  split_and!; [by eapply sorted_app_l|done|by eapply sorted_app_r|done|].
  intros x y Hx Hy. pose proof (sorted_app_cross _ _ Hs) as Hc.
  enough (sequence x > sequence y) by lia. apply Hc; by apply list_elem_of_fmap_2.
Qed.

(** In particular when the sector it leaves is full. *)
Lemma roll_inv s s1 :
  Inv s -> nextSlot s = 102%nat ->
  healthCheckLog_RollToSector s (flip (activeSector s)) = (s1, true) ->
  Inv s1 /\ history s1 = active_part s /\ nextSlot s1 = 0%nat
  /\ nextSequence s1 = nextSequence s /\ activeSector s1 = flip (activeSector s)
  /\ recs (fl_mem (flash s1)) (activeSector s) 0 102 = recs (fl_mem (flash s)) (activeSector s) 0 102.
Proof.
  intros Hi Hn E. destruct (flip_cases _ (inv_sector s Hi)) as (Hb & Hff & _).
  destruct (history_parts s Hi) as ([Hs Hf] & _). pose proof (inv_active_leading s Hi Hn) as Hl.
  assert (active_part s = newest (leading (view (fl_mem (flash s)) (activeSector s)))) as Ha
    by (rewrite Hl; unfold active_part; rewrite Hn; reflexivity).
  rewrite Ha in Hs, Hf. rewrite <-Hff in Hs, Hf.
  destruct (roll_to s (flip (activeSector s)) s1 Hb (inv_next s Hi) Hs Hf) as (H1 & H2 & H3 & H4 & H5 & H6);
    [right; rewrite Hff, Hl; apply length_recs|exact E|].
  rewrite Hff in H2, H6. rewrite Ha, <-!view_recs.
  exact (conj H1 (conj H2 (conj H3 (conj H4 (conj H5 H6))))).
Qed.

(** A roll on a device that answers succeeds; one that fails leaves the
    sector it leaves. *)
Lemma roll_ready_ok s b s1 ok :
  b = 0 \/ b = 1 -> fl_ready (flash s) ->
  healthCheckLog_RollToSector s b = (s1, ok) -> ok = true /\ fl_ready (flash s1).
Proof.
  intros Hb Hr E. unfold healthCheckLog_RollToSector in E.
  destruct (W25Q64_EraseSector _ _) as [f st] eqn:Ee.
  destruct (ready_erase (flash s) (healthCheckLog_SectorBase b) f st Hr) as [-> Hr'];
    [by destruct Hb as [->| ->]..|exact Ee|]. by injection E as <- <-.
Qed.

(** It writes only the sector it starts. *)
Lemma roll_outside s b s1 ok :
  healthCheckLog_RollToSector s b = (s1, ok) ->
  same_outside (fl_mem (flash s)) (fl_mem (flash s1)) (healthCheckLog_SectorBase b)
    W25Q64_SECTOR_SIZE.
Proof.
  intros E. unfold healthCheckLog_RollToSector in E.
  destruct (W25Q64_EraseSector _ _) as [f st] eqn:Ee.
  apply erase_outside in Ee; [|apply sector_base_pos]. destruct (flash_ok st); by injection E as <- <-.
Qed.

Lemma roll_failed_recs s s1 n :
  activeSector s = 0 \/ activeSector s = 1 -> (n <= 102)%nat ->
  healthCheckLog_RollToSector s (flip (activeSector s)) = (s1, false) ->
  recs (fl_mem (flash s1)) (activeSector s) 0 n = recs (fl_mem (flash s)) (activeSector s) 0 n.
Proof.
  intros Hb Hn E. unfold healthCheckLog_RollToSector in E.
  destruct (W25Q64_EraseSector _ _) as [f st] eqn:Ee.
  apply erase_outside in Ee as Ho; [|apply sector_base_pos].
  destruct (flash_ok st); [done|]. injection E as <-. destruct (flip_cases _ Hb) as (_ & _ & Hf).
  apply recs_ext. intros x Hx. apply Ho. rewrite sector_base_eq, Hf.
  rewrite !slot_address_eq in Hx. destruct (activeSector s =? 0); simpl; flia.
Qed.

(** Writing slot [nextSlot]: the history gains the record in that slot when
    it is readable, and nothing else changes. *)
Lemma write_slot_history s f' :
  activeSector s = 0 \/ activeSector s = 1 -> (nextSlot s < 102)%nat ->
  same_outside (fl_mem (flash s)) (fl_mem f') (slot_address (activeSector s) (nextSlot s)) 40 ->
  let r := rec (fl_mem f') (activeSector s) (nextSlot s) in
  let s' := State (activeSector s) (S (nextSlot s)) (u32 (nextSequence s + 1)) f' in
  recs (fl_mem f') (activeSector s) 0 (nextSlot s)
    = recs (fl_mem (flash s)) (activeSector s) 0 (nextSlot s)
  /\ active_part s' = (if readable r then [r] else []) ++ active_part s
  /\ view (fl_mem f') (flip (activeSector s)) = view (fl_mem (flash s)) (flip (activeSector s))
  /\ other_part s' = other_part s.
Proof.
  intros Hb Hn Ho. cbv zeta. destruct (flip_cases _ Hb) as (_ & _ & Hf).
  assert (recs (fl_mem f') (activeSector s) 0 (nextSlot s)
          = recs (fl_mem (flash s)) (activeSector s) 0 (nextSlot s)) as Hr.
  { eapply recs_outside_slot; [exact Ho|right; lia|lia|lia]. }
  assert (view (fl_mem f') (flip (activeSector s)) = view (fl_mem (flash s)) (flip (activeSector s))) as Hv.
  { rewrite !view_recs. eapply recs_outside_slot; [exact Ho| |lia|lia].
    left. rewrite Hf. by destruct (activeSector s =? 0). }
  split; [exact Hr|]. split; [|split; [exact Hv|]].
  - unfold active_part. cbn [activeSector nextSlot flash].
    rewrite recs_snoc, newest_app, Hr, Nat.add_0_l. f_equal.
  - unfold other_part. cbn [activeSector nextSlot flash]. by rewrite Hv.
Qed.

(** The slot written was used, and is unreadable or holds the record: the
    invariant is kept. *)
Lemma write_slot_inv s f' :
  Inv s -> (nextSlot s < 102)%nat -> nextSequence s < HEALTH_CHECK_LOG_ERASED_SEQUENCE ->
  same_outside (fl_mem (flash s)) (fl_mem f') (slot_address (activeSector s) (nextSlot s)) 40 ->
  let r := rec (fl_mem f') (activeSector s) (nextSlot s) in
  sequence r <> HEALTH_CHECK_LOG_ERASED_SEQUENCE ->
  (readable r = true -> sequence r = nextSequence s) ->
  let s' := State (activeSector s) (S (nextSlot s)) (u32 (nextSequence s + 1)) f' in
  Inv s' /\ history s' = (if readable r then [r] else []) ++ history s.
Proof.
  intros Hi Hn Hlt Ho r Hu Hr s'. pose proof (inv_next s Hi) as Hpos.
  unfold HEALTH_CHECK_LOG_ERASED_SEQUENCE in *.
  destruct (write_slot_history s f' (inv_sector s Hi) Hn Ho) as (H1 & H2 & H3 & H4).
  fold r in H2. change (State _ _ _ _) with s' in H2, H4.
  assert (history s' = (if readable r then [r] else []) ++ history s) as Hh
    by (unfold history; by rewrite H2, H4, app_assoc).
  assert (nextSequence s' = nextSequence s + 1) as Hq
    by (unfold s'; cbn [nextSequence]; apply u32_id; unfold is_u32; lia).
  pose proof (inv_bound s Hi) as Hbd. pose proof (inv_sorted s Hi) as Hsd.
  split; [|exact Hh]. split; cbn [activeSector nextSlot flash s'].
  - apply Hi.
  - lia.
  - change (nextSequence (State _ _ _ _)) with (nextSequence s'). rewrite Hq.
    unfold HEALTH_CHECK_LOG_ERASED_SEQUENCE. lia.
  - rewrite recs_snoc, H1, Nat.add_0_l. apply Forall_app_2; [apply Hi|by constructor].
  - intros x Hx. rewrite Ho; [apply (inv_clean s Hi)|]; rewrite !slot_address_eq in *; lia.
  - rewrite Hh, map_app. destruct (readable r); [|exact Hsd]. simpl. constructor; [exact Hsd|].
    rewrite Hr by done. apply Forall_fmap. eapply Forall_impl; [|exact Hbd]. simpl. lia.
  - rewrite Hh, Hq. apply Forall_app_2.
    + destruct (readable r); constructor; [|constructor]. rewrite Hr by done. lia.
    + eapply Forall_impl; [|exact Hbd]. simpl. lia.
  - rewrite H2, H3, H4. intros [_ Ha]%app_nil. exact (inv_other s Hi Ha).
Qed.
(** The write half of an append, at a slot inside the active sector. *)
Definition write_record s (r : healthCheckLog_RecordTypeDef) :
    state F * HealthCheck_StatusTypeDef * option HealthCheckLog_EntryTypeDef :=
  let address := slot_address (activeSector s) (nextSlot s) in
  let done f := State (activeSector s) (S (nextSlot s)) (u32 (nextSequence s + 1)) f in
  let '(f, st) := W25Q64_Program (flash s) address (c_enc c_record r) in
  if negb (flash_ok st) then (done f, HEALTH_CHECK_STATUS_ERROR, None) else
  let '(f, st, d) := W25Q64_Read f address (c_size c_record) in
  if negb (flash_ok st) || negb (bool_decide (d = c_enc c_record r))
  then (done f, HEALTH_CHECK_STATUS_ERROR, None)
  else (done f, HEALTH_CHECK_STATUS_OK, Some (entry_of (c_dec c_record d))).

Lemma slot_valid b i :
  (i < 102)%nat -> 0 <= slot_address b i
  /\ w25q64_IsRangeValid (slot_address b i) (Z.of_nat (c_size c_record)) = true.
Proof.
  intros Hi. rewrite c_record_size, slot_address_eq. unfold w25q64_IsRangeValid.
  split; destruct (b =? 0); flia.
Qed.

Lemma write_record_spec s r s' st e :
  Inv s -> (nextSlot s < 102)%nat -> nextSequence s < HEALTH_CHECK_LOG_ERASED_SEQUENCE ->
  c_wf c_record r -> sequence r = nextSequence s -> magic r = HEALTH_CHECK_LOG_RECORD_MAGIC ->
  crc r = healthCheckLog_Crc r -> write_record s r = (s', st, e) ->
  match st with
  | HEALTH_CHECK_STATUS_OK => Inv s' /\ e = Some (entry_of r) /\ history s' = r :: history s
  | HEALTH_CHECK_STATUS_ERROR => e = None
  end
  /\ same_outside (fl_mem (flash s)) (fl_mem (flash s'))
       (slot_address (activeSector s) (nextSlot s)) 40.
Proof.
  intros Hi Hn Hlt Hw Hq Hmg Hc E. unfold write_record in E.
  destruct (slot_valid (activeSector s) (nextSlot s) Hn) as [Hp _].
  destruct (W25Q64_Program _ _ _) as [f1 st1] eqn:E1.
  apply program_outside in E1 as Ho; [|exact Hp].
  rewrite (c_enc_length _ _ Hw), c_record_size in Ho. change (Z.of_nat 40) with 40 in Ho.
  destruct (flash_ok st1) eqn:S1; cbn [negb] in E; [|by injection E as <- <- <-].
  apply flash_ok_true in S1 as ->.
  apply program_ok in E1 as Hm; [|exact Hp|by apply c_enc_bytes].
  destruct (W25Q64_Read _ _ _) as [[f2 st2] d] eqn:E2.
  pose proof (read_mem _ _ _ _ _ _ E2) as Hm2.
  assert (same_outside (fl_mem (flash s)) (fl_mem f2)
    (slot_address (activeSector s) (nextSlot s)) 40) as Ho2
    by (intros x Hx; rewrite Hm2; by apply Ho).
  destruct (negb (flash_ok st2) || _) eqn:Ev; injection E as <- <- <-; [done|].
  apply orb_false_iff in Ev as [_ Hd]. apply negb_false_iff, bool_decide_eq_true in Hd.
  assert (rec (fl_mem f2) (activeSector s) (nextSlot s) = r) as Hrec.
  { rewrite Hm2, Hm. apply rec_program; [done|]. intros x Hx. apply (inv_clean s Hi).
    rewrite !slot_address_eq in *. lia. }
  destruct (write_slot_inv s f2 Hi Hn Hlt Ho2) as [Hi' Hh'].
  - rewrite Hrec, Hq. lia.
  - by rewrite Hrec.
  - rewrite Hrec in Hh'. split; [|exact Ho2]. split; [exact Hi'|].
    rewrite Hd, c_dec_enc by done. split; [done|]. rewrite Hh'.
    rewrite readable_used by (rewrite Hq; lia). by rewrite Hmg, Hc, !Z.eqb_refl.
Qed.

Lemma write_record_ready s r :
  Inv s -> (nextSlot s < 102)%nat -> c_wf c_record r -> fl_ready (flash s) ->
  exists s' e, write_record s r = (s', HEALTH_CHECK_STATUS_OK, Some e) /\ fl_ready (flash s').
Proof.
  intros Hi Hn Hw Hr. unfold write_record.
  destruct (slot_valid (activeSector s) (nextSlot s) Hn) as [Hp Hv].
  destruct (W25Q64_Program _ _ _) as [f1 st1] eqn:E1.
  pose proof Hv as Hv'. rewrite <-(c_enc_length _ _ Hw) in Hv'.
  destruct (ready_program _ _ _ _ _ Hr Hp Hv' E1) as [-> Hr1].
  apply program_ok in E1 as Hm; [|exact Hp|by apply c_enc_bytes].
  destruct (W25Q64_Read _ _ _) as [[f2 st2] d] eqn:E2.
  destruct (ready_read _ _ _ _ _ _ Hr1 Hp Hv E2) as [-> Hr2].
  assert (d = c_enc c_record r) as ->.
  { rewrite (read_ok _ _ _ _ _ Hp E2), Hm. rewrite <-(c_enc_length _ _ Hw) at 1.
    apply slice_program; [|by apply c_enc_bytes]. intros x Hx. apply (inv_clean s Hi).
    rewrite (c_enc_length _ _ Hw), c_record_size in Hx. rewrite !slot_address_eq in *. lia. }
  rewrite bool_decide_true by done. simpl. eauto.
Qed.

Lemma append_unfold s resource anchor now result :
  HealthCheckLog_Append true s resource anchor now (Some result) =
  let '(s1, rolled) :=
    if (102 <=? nextSlot s)%nat
    then healthCheckLog_RollToSector s (flip (activeSector s)) else (s, true) in
  if negb rolled then (s1, HEALTH_CHECK_STATUS_ERROR, None)
  else write_record s1 (make_record (nextSequence s1) resource anchor now result).
Proof. reflexivity. Qed.

(** On a device that answers, the record is appended and handed back. *)
Lemma append_ready (s : state F) resource anchor now result :
  Inv s -> nextSequence s < HEALTH_CHECK_LOG_ERASED_SEQUENCE -> fl_ready (flash s) ->
  is_u8 resource -> is_u8 anchor -> is_u32 now -> result_wf result ->
  let r := make_record (nextSequence s) resource anchor now result in
  exists s', HealthCheckLog_Append true s resource anchor now (Some result)
      = (s', HEALTH_CHECK_STATUS_OK, Some (entry_of r))
    /\ Inv s' /\ fl_ready (flash s') /\ nextSequence s' = nextSequence s + 1.
Proof.
  intros Hi Hlt Hr Hres Hanc Hnow Hwf r. rewrite append_unfold.
  pose proof (inv_next s Hi) as Hq. pose proof (inv_slot s Hi) as Hsl.
  destruct (make_record_spec (nextSequence s) resource anchor now result) as (Rw & Rs & Rm & Rc);
    try done; [unfold is_u32, HEALTH_CHECK_LOG_ERASED_SEQUENCE in *; lia|]. fold r in Rw, Rs, Rm, Rc.
  assert (forall s1, Inv s1 -> (nextSlot s1 < 102)%nat -> nextSequence s1 = nextSequence s -> fl_ready (flash s1) ->
    exists s', write_record s1 r = (s', HEALTH_CHECK_STATUS_OK, Some (entry_of r))
      /\ Inv s' /\ fl_ready (flash s') /\ nextSequence s' = nextSequence s + 1) as Hwrite.
  { intros s1 Hi1 Hn1 Hq1 Hr1. destruct (write_record_ready s1 r Hi1 Hn1 Rw Hr1) as (s' & e & E & Hr').
    destruct (write_record_spec s1 r s' HEALTH_CHECK_STATUS_OK (Some e) Hi1 Hn1) as [(Hi' & He & _) _]; [by rewrite Hq1|exact Rw|by rewrite Hq1|done|done|exact E|].
    exists s'. rewrite E, He. split_and!; try done. unfold write_record in E.
    destruct (W25Q64_Program _ _ _) as [f1 st1]. destruct (flash_ok st1); cbn [negb] in E; [|done].
    destruct (W25Q64_Read _ _ _) as [[f2 st2] d]. destruct (negb (flash_ok st2) || _); [done|].
    injection E as <- _. cbn [nextSequence]. rewrite Hq1. apply u32_id.
    unfold is_u32, HEALTH_CHECK_LOG_ERASED_SEQUENCE in *. lia. }
  destruct (Nat.leb_spec 102 (nextSlot s)) as [Hn|Hn]; [|cbn [negb]; by apply Hwrite].
  destruct (healthCheckLog_RollToSector s _) as [s1 rolled] eqn:Er.
  destruct (roll_ready_ok _ _ _ _ (proj1 (flip_cases _ (inv_sector s Hi))) Hr Er) as [-> Hr1]. cbn [negb].
  destruct (roll_inv s s1 Hi ltac:(lia) Er) as (Hi1 & _ & Hn1 & Hq1 & _).
  fold r. rewrite Hq1. apply Hwrite; [done|lia|done|done].
Qed.

(** A write leaves the position after the slot, whatever its outcome. *)
Lemma write_record_position s r s' st e :
  write_record s r = (s', st, e) ->
  s' = State (activeSector s) (S (nextSlot s)) (u32 (nextSequence s + 1)) (flash s').
Proof.
  unfold write_record. destruct (W25Q64_Program _ _ _) as [f1 st1].
  destruct (flash_ok st1); cbn [negb]; [|intros [= <- <- <-]; done].
  destruct (W25Q64_Read _ _ _) as [[f2 st2] d].
  destruct (negb (flash_ok st2) || _); intros [= <- <- <-]; done.
Qed.

(** The history [h] after a write that failed beside the history [l]: the slot
    that was being written is unreadable, or its bytes happen to form a record. *)
Definition torn_onto (h l : list healthCheckLog_RecordTypeDef) (x : healthCheckLog_RecordTypeDef) :
    Prop := h = (if readable x then [x] else []) ++ l.

Lemma write_record_torn s r s' e :
  Inv s -> (nextSlot s < 102)%nat ->
  same_outside (fl_mem (flash s)) (fl_mem (flash s'))
    (slot_address (activeSector s) (nextSlot s)) 40 ->
  write_record s r = (s', HEALTH_CHECK_STATUS_ERROR, e) ->
  torn_onto (history s') (history s) (rec (fl_mem (flash s')) (activeSector s) (nextSlot s))
  /\ activeSector s' = activeSector s /\ nextSlot s' = S (nextSlot s)
  /\ nextSequence s' = u32 (nextSequence s + 1).
Proof.
  intros Hi Hn Ho E. apply write_record_position in E.
  destruct (write_slot_history s (flash s') (inv_sector s Hi) Hn Ho) as (_ & H2 & _ & H4).
  cbv zeta in H2, H4. rewrite <-E in H2, H4. split.
  { unfold torn_onto, history. by rewrite H2, H4, app_assoc. }
  rewrite E. cbn [activeSector nextSlot nextSequence]. auto.
Qed.

(** A roll that fails changes nothing but the sector it was erasing. *)
Lemma roll_failed s s1 :
  Inv s -> nextSlot s = 102%nat ->
  healthCheckLog_RollToSector s (flip (activeSector s)) = (s1, false) ->
  active_part s1 = active_part s /\ activeSector s1 = activeSector s
  /\ nextSlot s1 = nextSlot s /\ nextSequence s1 = nextSequence s
  /\ same_outside (fl_mem (flash s)) (fl_mem (flash s1))
       (healthCheckLog_SectorBase (flip (activeSector s))) W25Q64_SECTOR_SIZE.
Proof.
  intros Hi Hn E. pose proof (roll_failed_recs s s1 (nextSlot s) (inv_sector s Hi) ltac:(lia) E) as Hr.
  pose proof (roll_outside s _ s1 _ E) as Ho. unfold healthCheckLog_RollToSector in E.
  destruct (W25Q64_EraseSector _ _) as [f st].
  destruct (flash_ok st); [done|]. injection E as <-. split; [|done].
  unfold active_part. cbn [activeSector nextSlot flash with_flash] in *. by rewrite Hr.
Qed.

(** The log as a client sees it: the write position and the records of the
    active and of the older sector, newest first; appending to it. *)
Definition log_abs (s : state F) :
    nat * list healthCheckLog_RecordTypeDef * list healthCheckLog_RecordTypeDef :=
  (nextSlot s, active_part s, other_part s).

Lemma write_record_abs s r s' e :
  Inv s -> (nextSlot s < 102)%nat ->
  same_outside (fl_mem (flash s)) (fl_mem (flash s'))
    (slot_address (activeSector s) (nextSlot s)) 40 ->
  write_record s r = (s', HEALTH_CHECK_STATUS_OK, e) -> history s' = r :: history s ->
  log_abs s' = (S (nextSlot s), r :: active_part s, other_part s).
Proof.
  intros Hi Hn Ho E Hh. apply write_record_position in E.
  destruct (write_slot_history s (flash s') (inv_sector s Hi) Hn Ho) as (_ & H2 & _ & H4).
  cbv zeta in H2, H4. rewrite <-E in H2, H4. apply (f_equal nextSlot) in E. cbn [nextSlot] in E.
  revert H2. generalize (rec (fl_mem (flash s')) (activeSector s) (nextSlot s)). intros x H2.
  unfold log_abs, history in *. rewrite H2, H4, <-app_assoc in Hh. rewrite E, H2, H4.
  destruct (readable x).
  - injection Hh as ->. reflexivity.
  - apply (f_equal length) in Hh. rewrite app_nil_l in Hh. cbn [length] in Hh. lia.
Qed.

Lemma append_abs (s : state F) resource anchor now result s' e :
  Inv s -> nextSequence s < HEALTH_CHECK_LOG_ERASED_SEQUENCE ->
  is_u8 resource -> is_u8 anchor -> is_u32 now -> result_wf result ->
  HealthCheckLog_Append true s resource anchor now (Some result)
    = (s', HEALTH_CHECK_STATUS_OK, e) ->
  log_abs s' = log_add (log_abs s) (make_record (nextSequence s) resource anchor now result).
Proof.
  intros Hi Hlt Hres Hanc Hnow Hwf E. rewrite append_unfold in E.
  pose proof (inv_next s Hi) as Hq. pose proof (inv_slot s Hi) as Hsl.
  destruct (make_record_spec (nextSequence s) resource anchor now result) as (Rw & Rs & Rm & Rc);
    try done; [unfold is_u32, HEALTH_CHECK_LOG_ERASED_SEQUENCE in *; lia|].
  set (r := make_record _ _ _ _ _) in *.
  assert (forall s1, Inv s1 -> (nextSlot s1 < 102)%nat -> nextSequence s1 = nextSequence s ->
    write_record s1 r = (s', HEALTH_CHECK_STATUS_OK, e) ->
    log_abs s' = (S (nextSlot s1), r :: active_part s1, other_part s1)) as Hw.
  { intros s1 Hi1 Hn1 Hq1 E1.
    destruct (write_record_spec s1 r s' HEALTH_CHECK_STATUS_OK e Hi1 Hn1) as [(_ & _ & Hh) Ho];
      [by rewrite Hq1|exact Rw|by rewrite Hq1|exact Rm|exact Rc|exact E1|].
    by eapply write_record_abs. }
  unfold log_abs at 2, log_add. destruct (Nat.leb_spec 102 (nextSlot s)) as [Hn|Hn].
  - rewrite (proj2 (Nat.ltb_ge _ _) Hn).
    destruct (healthCheckLog_RollToSector s _) as [s1 rolled] eqn:Er.
    destruct rolled; cbn [negb] in E; [|done].
    destruct (roll_inv s s1 Hi ltac:(lia) Er) as (Hi1 & Hh1 & Hn1 & Hq1 & _). rewrite Hq1 in E.
    rewrite (Hw s1 Hi1 ltac:(lia) Hq1 E), Hn1. f_equal; [f_equal|].
    + unfold active_part. by rewrite Hn1, recs_0, newest_nil.
    + unfold history, active_part at 1 in Hh1. by rewrite Hn1, recs_0, newest_nil in Hh1.
  - rewrite (proj2 (Nat.ltb_lt _ _) Hn). cbn [negb] in E. by apply Hw.
Qed.
End append.

(** ** Restart *)

Lemma sorted_head_max l x :
  StronglySorted Z.gt (map sequence l) -> x ∈ l -> sequence x <= last_sequence 0 l.
Proof.
  destruct l as [|r l]; simpl; intros Hs Hx; [by apply not_elem_of_nil in Hx|].
  unfold last_sequence. cbn [head]. inversion Hs as [|? ? _ Hf]; subst.
  apply elem_of_cons in Hx as [->|Hx]; [lia|]. rewrite list.Forall_forall in Hf.
  specialize (Hf (sequence x) (list_elem_of_fmap_2 _ _ _ Hx)). lia.
Qed.

Lemma last_sequence_in d l : l <> [] -> exists r, r ∈ l /\ last_sequence d l = sequence r.
Proof. destruct l as [|r l]; [done|]. intros _. exists r. split; [by apply elem_of_cons; left|done]. Qed.

Section restart.
Context {F : Type} `{FlashLaws F}.
Implicit Types s : state F.

(** The used prefix of the active sector is what was written. *)
Lemma active_scan s :
  Inv s ->
  leading (view (fl_mem (flash s)) (activeSector s))
  = recs (fl_mem (flash s)) (activeSector s) 0 (nextSlot s).
Proof.
  intros Hi. pose proof (inv_slot s Hi) as Hn.
  destruct (Nat.eq_dec (nextSlot s) 102%nat) as [E|E].
  - rewrite (inv_active_leading s Hi E), E. reflexivity.
  - rewrite view_recs. replace 102%nat with (nextSlot s + S (101 - nextSlot s))%nat by lia.
    rewrite recs_app, recs_S. apply leading_stop; [apply Hi|]. apply rec_erased.
    intros x Hx. apply (inv_clean s Hi). rewrite !slot_address_eq in *. lia.
Qed.

(** The two scans and the choice [HealthCheckLog_Init] makes: [act] is the
    sector whose last sequence number is the larger. *)
Lemma init_choice s0 m act :
  fl_ready (flash s0) -> mem_eq (fl_mem (flash s0)) m -> act = 0 \/ act = 1 ->
  let kept b := newest (leading (view m b)) in
  last_sequence 0 (kept (flip act)) < last_sequence 0 (kept act) -> kept act <> [] ->
  exists f, fl_ready f /\ mem_eq (fl_mem f) m
    /\ HealthCheckLog_Init true s0 =
       if (length (leading (view m act)) <? 102)%nat
       then (State act (length (leading (view m act))) (u32 (last_sequence 0 (kept act) + 1)) f,
             HEALTH_CHECK_STATUS_OK)
       else roll_status (healthCheckLog_RollToSector
              (State (activeSector s0) (nextSlot s0) (u32 (last_sequence 0 (kept act) + 1)) f)
              (flip act)).
Proof.
  intros Hr Hm Ha kept Hlt Hne. unfold HealthCheckLog_Init. cbn [negb].
  destruct (scan_sector_spec (flash s0) m 0 Hr Hm) as (f1 & -> & Hr1 & Hm1).
  destruct (scan_sector_spec f1 m 1 Hr1 Hm1) as (f2 & -> & Hr2 & Hm2).
  exists f2. split; [exact Hr2|]. split; [exact Hm2|]. fold (kept 0) (kept 1).
  assert (0 < length (kept act))%nat as Hpos by (destruct (kept act); [done|simpl; lia]).
  destruct Ha as [->| ->]; cbn [Z.lxor] in Hlt.
  - rewrite (proj2 (Nat.eqb_neq (length (kept 0)) 0)) by lia. cbn [andb].
    change (flip 0) with 1 in *. rewrite (proj2 (Z.leb_le _ _)) by lia. reflexivity.
  - rewrite (proj2 (Nat.eqb_neq (length (kept 1)) 0)) by lia. rewrite andb_false_r.
    change (flip 1) with 0 in *. rewrite (proj2 (Z.leb_gt _ _)) by lia. reflexivity.
Qed.

Lemma init_empty s0 m :
  fl_ready (flash s0) -> mem_eq (fl_mem (flash s0)) m ->
  newest (leading (view m 0)) = [] -> newest (leading (view m 1)) = [] ->
  exists f, fl_ready f /\ mem_eq (fl_mem f) m
    /\ HealthCheckLog_Init true s0 =
       roll_status (healthCheckLog_RollToSector (State (activeSector s0) (nextSlot s0) 1 f) 0).
Proof.
  intros Hr Hm E0 E1. unfold HealthCheckLog_Init. cbn [negb].
  destruct (scan_sector_spec (flash s0) m 0 Hr Hm) as (f1 & -> & Hr1 & Hm1).
  destruct (scan_sector_spec f1 m 1 Hr1 Hm1) as (f2 & -> & Hr2 & Hm2).
  exists f2. split; [exact Hr2|]. split; [exact Hm2|]. by rewrite E0, E1.
Qed.

(** Rolling at start-up, on a device that answers. *)
Lemma init_roll s b :
  fl_ready (flash s) -> b = 0 \/ b = 1 ->
  1 <= nextSequence s <= HEALTH_CHECK_LOG_ERASED_SEQUENCE ->
  let kept := newest (leading (view (fl_mem (flash s)) (flip b))) in
  StronglySorted Z.gt (map sequence kept) ->
  Forall (fun r => 1 <= sequence r < nextSequence s) kept ->
  kept = [] \/ length (leading (view (fl_mem (flash s)) (flip b))) = 102%nat ->
  exists s', roll_status (healthCheckLog_RollToSector s b) = (s', HEALTH_CHECK_STATUS_OK)
    /\ fl_ready (flash s') /\ Inv s' /\ history s' = kept.
Proof.
  intros Hr Hb Hq kept Hs Hf Hk.
  destruct (healthCheckLog_RollToSector s b) as [s1 ok] eqn:E.
  destruct (roll_ready_ok s b s1 ok Hb Hr E) as [-> Hr1].
  destruct (roll_to s b s1 Hb Hq Hs Hf Hk E) as (Hi & Hh & _). exists s1.
  exact (conj eq_refl (conj Hr1 (conj Hi Hh))).
Qed.

(** The state a restart rebuilds when the active sector has room. *)
Lemma restart_same s f :
  Inv s -> mem_eq (fl_mem f) (fl_mem (flash s)) -> active_part s <> [] ->
  let s' := State (activeSector s) (nextSlot s) (u32 (last_sequence 0 (active_part s) + 1)) f in
  Inv s' /\ history s' = history s.
Proof.
  intros Hi Hm Hne s'. destruct (history_parts s Hi) as ([Hs Hb] & [Hs2 Hb2] & Hx).
  destruct (last_sequence_in 0 _ Hne) as (r & Hr & El).
  pose proof (inv_next s Hi) as Hq. pose proof (proj1 (list.Forall_forall _ _) Hb r Hr) as Hr1.
  cbv beta in Hr1. unfold HEALTH_CHECK_LOG_ERASED_SEQUENCE in *.
  assert (nextSequence s' = sequence r + 1) as Hq'
    by (unfold s'; cbn [nextSequence]; rewrite El; apply u32_id; unfold is_u32; lia).
  assert (active_part s' = active_part s) as Ea
    by (unfold active_part, s'; cbn [activeSector nextSlot flash]; rewrite Hm; reflexivity).
  assert (other_part s' = other_part s) as Eo
    by (unfold other_part, s'; cbn [activeSector nextSlot flash]; rewrite Hm; reflexivity).
  assert (history s' = history s) as Eh by (unfold history; rewrite Ea, Eo; reflexivity).
  split; [|exact Eh]. split.
  - apply Hi.
  - apply Hi.
  - rewrite Hq'. unfold HEALTH_CHECK_LOG_ERASED_SEQUENCE. lia.
  - unfold s'; cbn [activeSector nextSlot flash]. rewrite Hm. apply Hi.
  - unfold s'; cbn [activeSector nextSlot flash]. intros x Hx'. rewrite Hm. exact (inv_clean s Hi x Hx').
  - rewrite Eh. apply Hi.
  - rewrite Eh, Hq'. apply list.Forall_forall. intros x Hin.
    pose proof (proj1 (list.Forall_forall _ _) (inv_bound s Hi) x Hin) as Hxb. cbv beta in Hxb.
    unfold history in Hin. apply elem_of_app in Hin as [Hin|Hin].
    + pose proof (sorted_head_max _ _ Hs Hin). lia.
    + specialize (Hx r x Hr Hin). lia.
  - rewrite Ea. intros E. by destruct Hne.
Qed.

(** The choice falls on a full sector: the other one is rolled. *)
Lemma init_full s0 m act :
  fl_ready (flash s0) -> mem_eq (fl_mem (flash s0)) m -> act = 0 \/ act = 1 ->
  let kept b := newest (leading (view m b)) in
  last_sequence 0 (kept (flip act)) < last_sequence 0 (kept act) -> kept act <> [] ->
  length (leading (view m act)) = 102%nat -> StronglySorted Z.gt (map sequence (kept act)) ->
  Forall (fun r => 1 <= sequence r < HEALTH_CHECK_LOG_ERASED_SEQUENCE) (kept act) ->
  exists s', HealthCheckLog_Init true s0 = (s', HEALTH_CHECK_STATUS_OK)
    /\ fl_ready (flash s') /\ Inv s' /\ history s' = kept act.
Proof.
  intros Hr Hm Ha kept Hlt Hne Hlen Hs Hb.
  destruct (init_choice s0 m act Hr Hm Ha Hlt Hne) as (f & Hf & Hmf & ->).
  rewrite Hlen, Nat.ltb_irrefl. destruct (flip_cases _ Ha) as (Ha' & Hff & _). fold (kept act).
  destruct (last_sequence_in 0 _ Hne) as (r & Hr' & El).
  pose proof (proj1 (list.Forall_forall _ _) Hb r Hr') as Hr1. cbv beta in Hr1.
  unfold HEALTH_CHECK_LOG_ERASED_SEQUENCE in *.
  rewrite El, u32_id by (unfold is_u32; lia).
  assert (newest (leading (view (fl_mem f) (flip (flip act)))) = kept act) as Ek
    by (rewrite Hff, Hmf; reflexivity).
  rewrite <-Ek. apply init_roll; cbn [flash nextSequence]; try assumption.
  - unfold HEALTH_CHECK_LOG_ERASED_SEQUENCE. lia.
  - rewrite Ek. exact Hs.
  - rewrite Ek. apply list.Forall_forall. intros x Hx.
    pose proof (proj1 (list.Forall_forall _ _) Hb x Hx). cbv beta in *.
    pose proof (sorted_head_max _ _ Hs Hx). lia.
  - right. rewrite Hff, Hmf. exact Hlen.
Qed.

(** A restart keeps the log: on a device that answers, start-up succeeds,
    re-establishes the invariant and finds the same history, except that
    when the active sector was full it is rolled at once, which keeps the
    whole of the full (newest) sector. *)
Lemma log_restart (s s0 : state F) :
  Inv s -> fl_ready (flash s) -> flash s0 = flash s ->
  exists s', HealthCheckLog_Init true s0 = (s', HEALTH_CHECK_STATUS_OK)
    /\ fl_ready (flash s') /\ Inv s'
    /\ (history s' = history s \/ nextSlot s = 102%nat /\ history s' = active_part s).
Proof.
  intros Hi Hr E0. rewrite <-E0 in Hr.
  assert (mem_eq (fl_mem (flash s0)) (fl_mem (flash s))) as Hm by (rewrite E0; reflexivity).
  pose proof (active_scan s Hi) as Hscan. pose proof (inv_sector s Hi) as Hb.
  destruct (flip_cases _ Hb) as (Hb' & Hff & _).
  destruct (history_parts s Hi) as ([Hs1 Hb1] & [Hs2 Hb2] & Hx).
  pose proof (inv_next s Hi) as Hq.
  set (m := fl_mem (flash s)) in *.
  assert (newest (leading (view m (activeSector s))) = active_part s) as Ea
    by (rewrite Hscan; reflexivity).
  assert (newest (leading (view m (flip (activeSector s)))) = other_part s) as Eo by reflexivity.
  assert (forall l, Forall (fun r => 1 <= sequence r < nextSequence s) l ->
    Forall (fun r => 1 <= sequence r < HEALTH_CHECK_LOG_ERASED_SEQUENCE) l) as Hup
    by (intros l Hl; eapply Forall_impl; [|exact Hl]; simpl; lia).
  destruct (decide (active_part s = [])) as [An|An].
  - destruct (decide (other_part s = [])) as [On|On].
    + assert (forall b, b = 0 \/ b = 1 -> newest (leading (view m b)) = []) as Hnone.
      { intros b Hb0. assert (b = activeSector s \/ b = flip (activeSector s)) as [->| ->].
        - destruct Hb as [->| ->], Hb0 as [->| ->]; auto.
        - rewrite Ea. exact An.
        - rewrite Eo. exact On. }
      destruct (init_empty s0 m Hr Hm) as (f & Hf & Hmf & ->); [apply Hnone; auto..|].
      assert (newest (leading (view (fl_mem f) (flip 0))) = []) as Ek
        by (rewrite Hmf; apply Hnone; auto).
      destruct (init_roll (State (activeSector s0) (nextSlot s0) 1 f) 0 Hf (or_introl eq_refl))
        as (s' & E' & H1 & H2 & H3); cbn [flash nextSequence]; rewrite ?Ek;
        [done|constructor|constructor|by left|].
      exists s'. split; [exact E'|]. split; [exact H1|]. split; [exact H2|]. left.
      rewrite H3. unfold history. rewrite An, On. exact Ek.
    + destruct (inv_other s Hi An) as [|Hlen]; [done|].
      destruct (init_full s0 m (flip (activeSector s)) Hr Hm Hb') as (s' & E' & H1 & H2 & H3);
        rewrite ?Hff, ?Ea, ?Eo; try assumption; [|by apply Hup|].
      { rewrite An. destruct (last_sequence_in 0 _ On) as (r & Hr' & ->).
        pose proof (proj1 (list.Forall_forall _ _) Hb2 r Hr') as Hr2. cbv beta in Hr2.
        unfold last_sequence. simpl. lia. }
      exists s'. split; [exact E'|]. split; [exact H1|]. split; [exact H2|]. left.
      rewrite H3, Eo. unfold history. rewrite An. reflexivity.
  - assert (last_sequence 0 (other_part s) < last_sequence 0 (active_part s)) as Hlast.
    { destruct (last_sequence_in 0 _ An) as (r & Hr' & ->).
      destruct (decide (other_part s = [])) as [On|On].
      - pose proof (proj1 (list.Forall_forall _ _) Hb1 r Hr') as Hr2. cbv beta in Hr2.
        rewrite On. unfold last_sequence. simpl. lia.
      - destruct (last_sequence_in 0 _ On) as (r2 & Hr2 & ->). by apply Hx. }
    destruct (Nat.eq_dec (nextSlot s) 102%nat) as [En|En].
    + destruct (init_full s0 m (activeSector s) Hr Hm Hb) as (s' & E' & H1 & H2 & H3);
        rewrite ?Ea, ?Eo; try assumption; [|by apply Hup|].
      { rewrite Hscan, En. apply length_recs. }
      exists s'. split; [exact E'|]. split; [exact H1|]. split; [exact H2|]. right.
      split; [exact En|]. rewrite H3. exact Ea.
    + destruct (init_choice s0 m (activeSector s) Hr Hm Hb) as (f & Hf & Hmf & ->);
        rewrite ?Ea, ?Eo; try assumption.
      rewrite Hscan, length_recs. pose proof (inv_slot s Hi).
      rewrite (proj2 (Nat.ltb_lt _ _)) by lia.
      destruct (restart_same s f Hi Hmf An) as [Hinv Hhist].
      eexists. split; [reflexivity|]. split; [exact Hf|]. split; [exact Hinv|]. left. exact Hhist.
Qed.
End restart.

(** The days left that a record stores for a certificate with a known expiry
    are the remaining seconds divided by a day, rounded down (negative after
    expiry), within the range of the field, and the warning flag is set
    exactly when some time but less than ten days remain. *)
Lemma log_certificate_days seq resource anchor now result :
  is_u32 now -> is_u32 (r_certificateExpiresAt result) -> r_certificateExpiresAt result <> 0 ->
  let r := make_record seq resource anchor now result in
  let remaining := r_certificateExpiresAt result - now in
  certificateDaysLeft r = remaining / 86400
  /\ -49711 <= certificateDaysLeft r <= 49710
  /\ (certificateExpiring r = 1 <-> 0 < remaining < 864000).
Proof.
  intros Hn He Hz. cbv zeta. unfold make_record.
  destruct (certificate_days_spec _ _ He Hn Hz) as [-> Hb]. simpl.
  split; [done|]. split; [done|]. case_decide; split; done || lia.
Qed.

(** ** Concrete instances *)

Definition demo_state (faults : list (option nat)) : state simflash :=
  (HealthCheckLog_Init true (State 0 0 0 (SimFlash (fun _ => 255) faults))).1.

Definition demo_check : TlsTransport_ResultTypeDef := TlsResult TLS_TRANSPORT_OK 0 200 150 1900000000.

Definition demo_append (s : state simflash) :=
  HealthCheckLog_Append true s 0 2 1800000000 (Some demo_check).

Definition demo0 : state simflash := demo_state [].

Lemma demo_check_wf : result_wf demo_check.
Proof. unfold result_wf, is_u16, is_u32. simpl. lia. Qed.

Lemma log_demo0_inv : Inv demo0 /\ fl_ready (flash demo0).
Proof.
  destruct (init_empty (State 0 0 0 blank) (fl_mem blank) blank_ready) as (f & Hf & Hm & E);
    [reflexivity|vm_compute; reflexivity..|].
  destruct (init_roll (State 0 0 1 f) 0 Hf (or_introl eq_refl)) as (s' & E' & Hr & Hi & _);
    cbn [flash nextSequence].
  - done.
  - rewrite Hm. vm_compute. constructor.
  - rewrite Hm. vm_compute. constructor.
  - left. rewrite Hm. vm_compute. reflexivity.
  - unfold demo0, demo_state. change (SimFlash (fun _ => 255) []) with blank.
    rewrite E. cbn [activeSector nextSlot]. rewrite E'. split; [exact Hi|exact Hr].
Qed.

Lemma log_get_recent_witness :
  exists s', HealthCheckLog_GetRecent true demo0 50 = (s', []).
Proof.
  destruct (log_get_recent demo0 50) as (s' & E & _); [apply log_demo0_inv|apply log_demo0_inv|].
  exists s'. rewrite E.
  assert (history demo0 = []) as Eh by (vm_compute; reflexivity). rewrite Eh. reflexivity.
Defined.

(** What evaluation shows of the first append. *)
Lemma demo_append_outcome s' st e :
  HealthCheckLog_Append true demo0 0 2 1800000000 (Some demo_check) = (s', st, e) ->
  st = HEALTH_CHECK_STATUS_OK /\ nextSequence demo0 < HEALTH_CHECK_LOG_ERASED_SEQUENCE.
Proof.
  intros E. split; [|vm_compute; reflexivity].
  assert ((HealthCheckLog_Append true demo0 0 2 1800000000 (Some demo_check)).1.2
          = HEALTH_CHECK_STATUS_OK) as Hst by (vm_compute; reflexivity).
  rewrite E in Hst. exact Hst.
Qed.

(** The same log on a device whose next program operation stops after 10 bytes. *)
Definition demo_torn : state simflash :=
  with_flash demo0 (SimFlash (sim_mem (flash demo0)) [Some 10%nat]).

Lemma log_demo_torn_inv : Inv demo_torn.
Proof. destruct (proj1 log_demo0_inv). split; assumption. Qed.

Lemma log_demo_torn_outcome s' st e :
  HealthCheckLog_Append true demo_torn 0 2 1800000000 (Some demo_check) = (s', st, e) ->
  st = HEALTH_CHECK_STATUS_ERROR /\ nextSequence demo_torn < HEALTH_CHECK_LOG_ERASED_SEQUENCE
  /\ (nextSlot demo_torn <? 102)%nat = true
  /\ readable (rec (fl_mem (flash s')) (activeSector demo_torn) (nextSlot demo_torn)) = false.
Proof.
  intros E. pose (x := HealthCheckLog_Append true demo_torn 0 2 1800000000 (Some demo_check)).
  assert (x.1.2 = HEALTH_CHECK_STATUS_ERROR) as Hst by (vm_compute; reflexivity).
  assert (readable (rec (fl_mem (flash x.1.1)) (activeSector demo_torn) (nextSlot demo_torn)) = false)
    as Hr by (vm_compute; reflexivity).
  unfold x in Hst, Hr. rewrite E in Hst, Hr. split; [exact Hst|].
  split; [vm_compute; reflexivity|]. split; [vm_compute; reflexivity|exact Hr].
Qed.


Lemma log_restart_witness :
  exists s', HealthCheckLog_Init true (State 0 0 0 (flash demo0)) = (s', HEALTH_CHECK_STATUS_OK)
    /\ Inv s'.
Proof.
  destruct (log_restart demo0 (State 0 0 0 (flash demo0)) (proj1 log_demo0_inv) (proj2 log_demo0_inv) eq_refl)
    as (s' & E & _ & Hi & _).
  exists s'. split; [exact E|exact Hi].
Defined.

Lemma log_certificate_days_witness :
  certificateDaysLeft (make_record 1 0 2 1800000000 demo_check) = 1157.
Proof.
  rewrite (proj1 (log_certificate_days 1 0 2 1800000000 demo_check ltac:(done) ltac:(done) ltac:(done))).
  reflexivity.
Defined.

(** The sequence numbers a reader sees before and after a restart, for a log
    whose first write failed without reaching the device and whose second one
    succeeded. *)
Definition hole_run : HealthCheck_StatusTypeDef * HealthCheck_StatusTypeDef * list Z * list Z :=
  let s := demo_state [None; None; None; Some 0%nat] in
  let '(s, st1, _) := demo_append s in
  let '(s, st2, _) := demo_append s in
  let '(s, before) := HealthCheckLog_GetRecent true s 50 in
  let '(s, _) := HealthCheckLog_Init true (State 0 0 0 (flash s)) in
  let '(s, after) := HealthCheckLog_GetRecent true s 50 in
  (st1, st2, map e_sequence before, map e_sequence after).

(** A write that fails without programming anything leaves an erased slot in
    the middle of the log, and the records written behind it, although
    reported as stored and readable until then, are lost at the next restart:
    the boot scan stops at the erased slot. *)
Lemma log_hole_loses_records :
  hole_run = (HEALTH_CHECK_STATUS_ERROR, HEALTH_CHECK_STATUS_OK, [2], []).
Proof. vm_compute. reflexivity. Qed.
