(* ===== verification/Accounts.v ===== *)
(** The contract between the user store and the authentication service.

    [Accounts] is the interface of [Srv/Inc/user_store.h] as
    [Srv/Src/auth_service.c] uses it, with the mutex always obtained;
    [AccountsLaws] is what the store promises: its operations read and update a
    finite map of at most eight accounts, or fail without changing it.  The
    instance shows that the Flash-backed store keeps the promise; the
    authentication service is proved against the class. *)
From stdpp Require Import gmap.
From S2P Require Import Prelude Codec NorFlash SimFlash AbStore UserStore.

Class Accounts (T : Type) := {
  acc_ok : T -> Prop;
  acc_map : T -> account_map;
  (** [UserStore_Find]: the record, when the status is OK. *)
  acc_find : T -> bytes -> option UserStore_RecordTypeDef;
  acc_put : T -> UserStore_RecordTypeDef -> T * HealthCheck_StatusTypeDef;
  acc_delete : T -> bytes -> T * HealthCheck_StatusTypeDef;
  acc_list : T -> nat -> list UserStore_RecordTypeDef;
}.

Class AccountsLaws (T : Type) `{Accounts T} := {
  acc_size : forall t, acc_ok t -> (size (acc_map t) <= 8)%nat;
  acc_wf : forall t k r, acc_ok t -> acc_map t !! k = Some r -> c_wf c_user r /\ name r = k;
  acc_find_spec : forall t nm, acc_ok t -> acc_find t nm = acc_map t !! cstr nm;
  acc_put_spec : forall t r t' st,
    acc_ok t -> c_wf c_user r -> acc_put t r = (t', st) ->
    acc_ok t' /\ match st with
                 | HEALTH_CHECK_STATUS_OK => acc_map t' = <[name r := r]> (acc_map t)
                 | HEALTH_CHECK_STATUS_ERROR => acc_map t' = acc_map t
                 end;
  acc_delete_spec : forall t nm t' st,
    acc_ok t -> acc_delete t nm = (t', st) ->
    acc_ok t' /\ match st with
                 | HEALTH_CHECK_STATUS_OK => acc_map t' = delete (cstr nm) (acc_map t)
                 | HEALTH_CHECK_STATUS_ERROR => acc_map t' = acc_map t
                 end;
}.

(** ** The Flash-backed store keeps the promise *)

Section instance.
Context {F : Type} `{FlashLaws F}.
Abbreviation T := (store UserStore.UserStore_SnapshotTypeDef F).

#[global] Instance store_accounts : Accounts T := {|
  acc_ok := UserStore.Inv;
  acc_map t := UserStore.accounts (snapshot t);
  acc_find t nm := fst <$> UserStore.UserStore_Find true t (Some nm);
  acc_put t r := UserStore.UserStore_Put true t (Some r);
  acc_delete t nm := UserStore.UserStore_Delete true t (Some nm);
  acc_list t capacity := UserStore.UserStore_List true t (Some capacity);
|}.

#[global] Instance store_accounts_laws : AccountsLaws T.
Proof.
  split.
  - intros t [_ Hg]. cbn [acc_map store_accounts]. rewrite UserStore.size_accounts by done.
    destruct Hg as (_ & Hc & _). lia.
  - intros t k r [_ Hg] Hk. cbn [acc_map store_accounts] in Hk. unfold UserStore.accounts in Hk.
    apply elem_of_list_to_map_2 in Hk. unfold keyed in Hk.
    apply list_elem_of_fmap in Hk as (x & [= -> ->] & Hx). split; [|done].
    unfold active_users in Hx. apply elem_of_take in Hx as (i & Hi & _).
    eapply Forall_lookup_1; [|exact Hi]. by apply UserStore.users_wf, (proj1 Hg).
  - intros t nm [_ Hg]. cbn [acc_find acc_map store_accounts].
    pose proof (UserStore.position_lookup (snapshot t) nm Hg) as Hp. cbv zeta in Hp.
    unfold UserStore.UserStore_Find. cbn [negb].
    destruct (UserStore.accounts (snapshot t) !! cstr nm) as [r|].
    + destruct Hp as (Hlt & Hn & _). rewrite (proj2 (Nat.ltb_lt _ _) Hlt), Hn. done.
    + by rewrite Hp, Nat.ltb_irrefl.
  - intros t r t' st Hi Hw E. cbn [acc_put acc_map acc_ok store_accounts] in *.
    pose proof (UserStore.usr_run_behaves t (UserStore.OpPut (Some r)) (proj2 Hi) Hw) as Hb.
    cbn [UserStore.run] in Hb. rewrite E in Hb. cbn [UserStore.spec] in Hb.
    destruct (decide (name r = [])); [injection Hb as -> ->; done|].
    destruct (decide (is_Some _ \/ _)); [|injection Hb as -> ->; done].
    destruct Hb as (c & Hg & Ha & _ & Hs). symmetry in Hs.
    destruct (UserStore.save_inv t c t' st Hi Hg Hs) as [Hi' Hst]. split; [exact Hi'|].
    destruct st; rewrite Hst; [exact Ha|reflexivity].
  - intros t nm t' st Hi E. cbn [acc_delete acc_map acc_ok store_accounts] in *.
    pose proof (UserStore.usr_run_behaves t (UserStore.OpDelete (Some nm)) (proj2 Hi) I) as Hb.
    cbn [UserStore.run] in Hb. rewrite E in Hb. cbn [UserStore.spec] in Hb.
    destruct (UserStore.accounts (snapshot t) !! cstr nm); [|injection Hb as -> ->; done].
    destruct Hb as (c & Hg & Ha & _ & Hs). symmetry in Hs.
    destruct (UserStore.save_inv t c t' st Hi Hg Hs) as [Hi' Hst]. split; [exact Hi'|].
    destruct st; rewrite Hst; [exact Ha|reflexivity].
Qed.
End instance.
