(* ===== verification/AuthService.v ===== *)
(** [Srv/Src/auth_service.c]: sessions, tokens and account administration.

    The session table has one slot per storable account and one for the master
    user.  The file models login, refresh, authorization, revocation and the
    account operations over the [Accounts] contract, with the cryptographic
    primitives, the random generator, the clock and the mutex outcomes as
    parameters.  It proves that sessions always belong to the master user or to
    an enabled account with that role, one per user; that a login which passed
    its checks always finds a free slot; what a token authorizes and for how
    long; and that the 32-bit uptime makes an expired token acceptable again
    when the counter has wrapped. *)
From stdpp Require Import gmap.
From S2P Require Import Prelude Codec NorFlash SimFlash AbStore UserStore Accounts.

Definition AUTH_SERVICE_MASTER_USERNAME : bytes := str "master".
Definition AUTH_SERVICE_MAX_PASSWORD_LENGTH : nat := 128.
Definition AUTH_SERVICE_MIN_PASSWORD_LENGTH : nat := 12.
Definition AUTH_SERVICE_ACCESS_LIFETIME_SEC : Z := 900.
Definition AUTH_SERVICE_REFRESH_LIFETIME_SEC : Z := 604800.
Definition AUTH_SERVICE_TOKEN_BYTES : nat := 32.
Definition AUTH_SERVICE_TOKEN_TEXT_SIZE : nat := 65.
Definition AUTH_SERVICE_SESSION_COUNT : nat := USER_STORE_MAX_USERS + 1.
Definition AUTH_SERVICE_USER_ITERATIONS : Z := 100000.

Inductive AuthService_StatusTypeDef :=
  | AUTH_SERVICE_STATUS_OK
  | AUTH_SERVICE_STATUS_INVALID_PASSWORD
  | AUTH_SERVICE_STATUS_INVALID_ARGUMENT
  | AUTH_SERVICE_STATUS_CRYPTO_ERROR
  | AUTH_SERVICE_STATUS_NOT_FOUND
  | AUTH_SERVICE_STATUS_FORBIDDEN
  | AUTH_SERVICE_STATUS_STORAGE_ERROR.

#[global] Instance AuthService_Status_eq_dec : EqDecision AuthService_StatusTypeDef.
Proof. solve_decision. Defined.

Record AuthService_SessionTypeDef := Session {
  active : Z;
  s_role : Z;
  s_username : bytes;
  accessDigest : bytes;
  refreshDigest : bytes;
  accessIssuedAt : Z;
  refreshIssuedAt : Z;
}.

Record AuthService_TokenPairTypeDef := TokenPair {
  accessToken : bytes;
  refreshToken : bytes;
  accessExpiresIn : Z;
  refreshExpiresIn : Z;
}.

Record AuthService_PrincipalTypeDef := Principal { p_username : bytes; p_role : Z }.

Definition zero_session : AuthService_SessionTypeDef :=
  Session 0 0 (zeros USER_STORE_USERNAME_SIZE) (zeros 32) (zeros 32) 0 0.

Definition authService_DummySalt : bytes :=
  [0x8E; 0xC5; 0x31; 0xA9; 0x44; 0x76; 0xD2; 0x0B;
   0xF3; 0x18; 0x65; 0x9C; 0x27; 0xBA; 0x50; 0xDE].

(** ** Helpers *)

(** [None] is a [NULL] principal. *)
Definition authService_IsAdministrator (principal : option AuthService_PrincipalTypeDef) : bool :=
  match principal with Some p => p_role p =? USER_ROLE_ADMINISTRATOR | None => false end.

Definition hex_digit (d : Z) : Z := nth (Z.to_nat d) (str "0123456789abcdef") 0.

(** Without the terminating NUL. *)
Definition authService_Hex (input : bytes) : bytes :=
  concat (map (fun b => [hex_digit (Z.shiftr b 4); hex_digit (Z.land b 0x0F)]) input).

(** The slot of an active session of that name, else the first inactive one. *)
Fixpoint find_slot (p : AuthService_SessionTypeDef -> bool) (l : list AuthService_SessionTypeDef) :
    option nat :=
  match l with
  | [] => None
  | s :: l => if p s then Some O else S <$> find_slot p l
  end.

Definition is_active (s : AuthService_SessionTypeDef) : bool := negb (active s =? 0).

Definition session_of (username : bytes) (s : AuthService_SessionTypeDef) : bool :=
  is_active s && strcmp_eq (s_username s) username.

Definition authService_FindSession (sessions : list AuthService_SessionTypeDef) (username : bytes) :
    option nat :=
  match find_slot (session_of username) sessions with
  | Some i => Some i
  | None => find_slot (fun s => negb (is_active s)) sessions
  end.

Section service.
(** Mbed TLS: PBKDF2-HMAC-SHA-256 (password, salt, iterations) and SHA-256,
    [None] when the call reports an error; and the generated credentials of
    the master user. *)
Context (pbkdf2 : bytes -> bytes -> Z -> option bytes) (sha256 : bytes -> option bytes).
Context (masterPasswordSalt masterPasswordVerifier : bytes) (MASTER_PASSWORD_PBKDF2_ITERATIONS : Z).
Context {T : Type} `{Accounts T}.

Record state := State { sessions : list AuthService_SessionTypeDef; accounts_store : T }.

(** [locked] is whether the shared crypto lock was obtained. *)
Definition authService_Derive (locked : bool) (password salt : bytes) (iterations : Z) :
    AuthService_StatusTypeDef * bytes :=
  if negb locked then (AUTH_SERVICE_STATUS_CRYPTO_ERROR, []) else
  match pbkdf2 password salt iterations with
  | Some v => (AUTH_SERVICE_STATUS_OK, v)
  | None => (AUTH_SERVICE_STATUS_CRYPTO_ERROR, [])
  end.

Definition authService_HashToken (token : bytes) : option bytes := sha256 (cstr token).

(** [random] are the two draws of [TlsPlatform_Random], [None] when it fails;
    [now] is [TimeService_GetUptimeMs()]. The tokens are [None] when they are
    not handed out. *)
Definition authService_Issue (now : Z) (random : option (bytes * bytes))
    (sessions : list AuthService_SessionTypeDef) (username : bytes) (role : Z) :
    list AuthService_SessionTypeDef * AuthService_StatusTypeDef * option AuthService_TokenPairTypeDef :=
  match random with
  | None => (sessions, AUTH_SERVICE_STATUS_CRYPTO_ERROR, None)
  | Some (access, refresh) =>
      let accessText := authService_Hex access in
      let refreshText := authService_Hex refresh in
      match authService_HashToken accessText, authService_HashToken refreshText with
      | Some digestA, Some digestR =>
          match authService_FindSession sessions username with
          | None => (sessions, AUTH_SERVICE_STATUS_CRYPTO_ERROR, None)
          | Some i =>
              let session := Session 1 (u8 role)
                (strncpy (zeros USER_STORE_USERNAME_SIZE) username (USER_STORE_USERNAME_SIZE - 1))
                digestA digestR now now in
              (<[i := session]> sessions, AUTH_SERVICE_STATUS_OK,
               Some (TokenPair accessText refreshText AUTH_SERVICE_ACCESS_LIFETIME_SEC
                       AUTH_SERVICE_REFRESH_LIFETIME_SEC))
          end
      | _, _ => (sessions, AUTH_SERVICE_STATUS_CRYPTO_ERROR, None)
      end
  end.

Definition AuthService_VerifyMasterPassword (locked : bool) (password : option bytes) :
    AuthService_StatusTypeDef :=
  match password with
  | None => AUTH_SERVICE_STATUS_INVALID_ARGUMENT
  | Some password =>
      if (length password =? 0)%nat || (AUTH_SERVICE_MAX_PASSWORD_LENGTH <? length password)%nat
      then AUTH_SERVICE_STATUS_INVALID_ARGUMENT else
      let '(status, derived) :=
        authService_Derive locked password masterPasswordSalt MASTER_PASSWORD_PBKDF2_ITERATIONS in
      match status with
      | AUTH_SERVICE_STATUS_OK =>
          if bool_decide (derived = masterPasswordVerifier)
          then AUTH_SERVICE_STATUS_OK else AUTH_SERVICE_STATUS_INVALID_PASSWORD
      | _ => status
      end
  end.

(** The credential check of [AuthService_Login]: the status and the role. *)
Definition login_check (locked : bool) (s : state) (username password : bytes) :
    AuthService_StatusTypeDef * Z :=
  if strcmp_eq username AUTH_SERVICE_MASTER_USERNAME
  then (AuthService_VerifyMasterPassword locked (Some password), USER_ROLE_ADMINISTRATOR) else
  let found := acc_find (accounts_store s) username in
  let enabled := match found with Some r => negb (u_enabled r =? 0) | None => false end in
  let salt := match found with Some r => u_salt r | None => authService_DummySalt end in
  let iterations := match found with
                    | Some r => u_iterations r | None => AUTH_SERVICE_USER_ITERATIONS end in
  let '(status, verifier) := authService_Derive locked password salt iterations in
  let status :=
    match status with
    | AUTH_SERVICE_STATUS_OK =>
        if enabled && bool_decide (Some verifier = (u_verifier <$> found))
        then AUTH_SERVICE_STATUS_OK else AUTH_SERVICE_STATUS_INVALID_PASSWORD
    | _ => status
    end in
  (status, match found with
           | Some r => if enabled then u_role r else USER_ROLE_ADMINISTRATOR
           | None => USER_ROLE_ADMINISTRATOR
           end).

(** [taken] is the outcome of [xSemaphoreTake] on the session mutex. *)
Definition AuthService_Login (locked taken : bool) (now : Z) (random : option (bytes * bytes))
    (s : state) (username password : option bytes) :
    state * AuthService_StatusTypeDef * option AuthService_TokenPairTypeDef :=
  match username, password with
  | Some username, Some password =>
      let '(status, role) := login_check locked s username password in
      match status with
      | AUTH_SERVICE_STATUS_OK =>
          if negb taken then (s, AUTH_SERVICE_STATUS_CRYPTO_ERROR, None) else
          let '(l, status, tokens) := authService_Issue now random (sessions s) username role in
          (State l (accounts_store s), status, tokens)
      | _ => (s, status, None)
      end
  | _, _ => (s, AUTH_SERVICE_STATUS_INVALID_ARGUMENT, None)
  end.

(** [(now - issuedAt) <= lifetime * 1000], on unsigned 32-bit integers. *)
Definition not_expired (now issued lifetime : Z) : bool := u32 (now - issued) <=? u32 (lifetime * 1000).

Definition AuthService_Refresh (taken : bool) (now : Z) (random : option (bytes * bytes))
    (s : state) (token : option bytes) :
    state * AuthService_StatusTypeDef * option AuthService_TokenPairTypeDef :=
  match token with
  | None => (s, AUTH_SERVICE_STATUS_INVALID_ARGUMENT, None)
  | Some token =>
      if negb (strlen token =? AUTH_SERVICE_TOKEN_TEXT_SIZE - 1)%nat
      then (s, AUTH_SERVICE_STATUS_INVALID_ARGUMENT, None) else
      match authService_HashToken token with
      | None => (s, AUTH_SERVICE_STATUS_CRYPTO_ERROR, None)
      | Some digest =>
          if negb taken then (s, AUTH_SERVICE_STATUS_CRYPTO_ERROR, None) else
          match find_slot (fun x => is_active x
                   && not_expired now (refreshIssuedAt x) AUTH_SERVICE_REFRESH_LIFETIME_SEC
                   && bool_decide (digest = refreshDigest x)) (sessions s) with
          | None => (s, AUTH_SERVICE_STATUS_INVALID_PASSWORD, None)
          | Some i =>
              let session := nth i (sessions s) zero_session in
              let username := take (USER_STORE_USERNAME_SIZE - 1)
                (strncpy (zeros USER_STORE_USERNAME_SIZE) (s_username session)
                   USER_STORE_USERNAME_SIZE) ++ [0] in
              let '(l, status, tokens) :=
                authService_Issue now random (sessions s) username (s_role session) in
              (State l (accounts_store s), status, tokens)
          end
      end
  end.

Definition AuthService_Authorize (taken : bool) (now : Z) (s : state) (token : option bytes) :
    AuthService_StatusTypeDef * option AuthService_PrincipalTypeDef :=
  match token with
  | None => (AUTH_SERVICE_STATUS_INVALID_ARGUMENT, None)
  | Some token =>
      if negb (strlen token =? AUTH_SERVICE_TOKEN_TEXT_SIZE - 1)%nat
      then (AUTH_SERVICE_STATUS_INVALID_ARGUMENT, None) else
      match authService_HashToken token with
      | None => (AUTH_SERVICE_STATUS_CRYPTO_ERROR, None)
      | Some digest =>
          if negb taken then (AUTH_SERVICE_STATUS_CRYPTO_ERROR, None) else
          match find_slot (fun x => is_active x
                   && not_expired now (accessIssuedAt x) AUTH_SERVICE_ACCESS_LIFETIME_SEC
                   && bool_decide (digest = accessDigest x)) (sessions s) with
          | None => (AUTH_SERVICE_STATUS_INVALID_PASSWORD, None)
          | Some i =>
              let session := nth i (sessions s) zero_session in
              (AUTH_SERVICE_STATUS_OK,
               Some (Principal
                 (take (USER_STORE_USERNAME_SIZE - 1)
                    (strncpy (zeros USER_STORE_USERNAME_SIZE) (s_username session)
                       USER_STORE_USERNAME_SIZE) ++ [0])
                 (s_role session)))
          end
      end
  end.

(** [taken1] and [taken2] are the outcomes of the two takes. *)
Definition AuthService_Revoke (taken1 taken2 : bool) (now : Z) (s : state) (token : option bytes) :
    state * AuthService_StatusTypeDef :=
  match AuthService_Authorize taken1 now s token with
  | (AUTH_SERVICE_STATUS_OK, Some principal) =>
      if negb taken2 then (s, AUTH_SERVICE_STATUS_CRYPTO_ERROR) else
      (State (match authService_FindSession (sessions s) (p_username principal) with
              | Some i => <[i := zero_session]> (sessions s)
              | None => sessions s
              end) (accounts_store s), AUTH_SERVICE_STATUS_OK)
  | (status, _) => (s, status)
  end.

(** Drop the session of [username], if any. *)
Definition drop_session (l : list AuthService_SessionTypeDef) (username : bytes) :=
  match authService_FindSession l username with
  | Some i => if session_of username (nth i l zero_session) then <[i := zero_session]> l else l
  | None => l
  end.

Definition AuthService_PutUser (locked taken : bool) (salt : option bytes) (s : state)
    (actor : option AuthService_PrincipalTypeDef) (username password : option bytes)
    (role enabled mustExist : Z) : state * AuthService_StatusTypeDef :=
  match username, password with
  | Some username, Some password =>
      if negb (authService_IsAdministrator actor)
         || (length password <? AUTH_SERVICE_MIN_PASSWORD_LENGTH)%nat
         || (AUTH_SERVICE_MAX_PASSWORD_LENGTH <? length password)%nat
         || (USER_STORE_USERNAME_SIZE <=? strlen username)%nat
         || strcmp_eq username AUTH_SERVICE_MASTER_USERNAME
      then (s, AUTH_SERVICE_STATUS_FORBIDDEN) else
      let exists_ := match acc_find (accounts_store s) username with Some _ => true | None => false end in
      if negb (mustExist =? 0) && negb exists_ then (s, AUTH_SERVICE_STATUS_NOT_FOUND) else
      if (mustExist =? 0) && exists_ then (s, AUTH_SERVICE_STATUS_INVALID_ARGUMENT) else
      match salt with
      | None => (s, AUTH_SERVICE_STATUS_CRYPTO_ERROR)
      | Some salt =>
          let '(status, verifier) :=
            authService_Derive locked password salt AUTH_SERVICE_USER_ITERATIONS in
          match status with
          | AUTH_SERVICE_STATUS_OK =>
              let record := User (if enabled =? 0 then 0 else 1) (u8 role)
                (strncpy (zeros USER_STORE_USERNAME_SIZE) username (USER_STORE_USERNAME_SIZE - 1))
                salt verifier 0 AUTH_SERVICE_USER_ITERATIONS in
              let '(t, st) := acc_put (accounts_store s) record in
              match st with
              | HEALTH_CHECK_STATUS_OK =>
                  (State (if taken then drop_session (sessions s) username else sessions s) t,
                   AUTH_SERVICE_STATUS_OK)
              | HEALTH_CHECK_STATUS_ERROR =>
                  (State (sessions s) t, AUTH_SERVICE_STATUS_STORAGE_ERROR)
              end
          | _ => (s, status)
          end
      end
  | _, _ => (s, AUTH_SERVICE_STATUS_FORBIDDEN)
  end.

Definition AuthService_DeleteUser (taken : bool) (s : state)
    (actor : option AuthService_PrincipalTypeDef) (username : option bytes) :
    state * AuthService_StatusTypeDef :=
  match username with
  | None => (s, AUTH_SERVICE_STATUS_FORBIDDEN)
  | Some username =>
      if negb (authService_IsAdministrator actor)
         || strcmp_eq username AUTH_SERVICE_MASTER_USERNAME
      then (s, AUTH_SERVICE_STATUS_FORBIDDEN) else
      match acc_find (accounts_store s) username with
      | None => (s, AUTH_SERVICE_STATUS_NOT_FOUND)
      | Some _ =>
          let '(t, st) := acc_delete (accounts_store s) username in
          match st with
          | HEALTH_CHECK_STATUS_ERROR => (State (sessions s) t, AUTH_SERVICE_STATUS_STORAGE_ERROR)
          | HEALTH_CHECK_STATUS_OK =>
              (State (if taken then drop_session (sessions s) username else sessions s) t,
               AUTH_SERVICE_STATUS_OK)
          end
      end
  end.

(** [store_init] is [UserStore_Init] on the store, [created] whether the mutex
    was created. *)
Definition AuthService_Init (created : bool) (store_init : T -> T * HealthCheck_StatusTypeDef)
    (s : state) : state * AuthService_StatusTypeDef :=
  if negb created then (s, AUTH_SERVICE_STATUS_STORAGE_ERROR) else
  let '(t, st) := store_init (accounts_store s) in
  match st with
  | HEALTH_CHECK_STATUS_ERROR => (State (sessions s) t, AUTH_SERVICE_STATUS_STORAGE_ERROR)
  | HEALTH_CHECK_STATUS_OK =>
      (State (replicate AUTH_SERVICE_SESSION_COUNT zero_session) t, AUTH_SERVICE_STATUS_OK)
  end.

Definition AuthService_ListUsers (s : state) (actor : option AuthService_PrincipalTypeDef)
    (capacity : nat) : list UserStore_RecordTypeDef :=
  if authService_IsAdministrator actor then acc_list (accounts_store s) capacity else [].
End service.
Arguments state : clear implicits.

(** ** Tokens *)

Lemma length_hex l : length (authService_Hex l) = (2 * length l)%nat.
Proof. unfold authService_Hex. induction l as [|b l IH]; simpl in *; [done|]. rewrite IH. lia. Qed.

Lemma hex_digit_nonzero d : 0 <= d < 16 -> hex_digit d <> 0.
Proof.
  intros Hd. unfold hex_digit. assert (Z.to_nat d < 16)%nat as Hn by lia.
  revert Hn. generalize (Z.to_nat d). intros n Hn. do 16 (destruct n as [|n]; [done|]). lia.
Qed.

Lemma hex_nonzero l : Forall is_u8 l -> Forall (fun c => c <> 0) (authService_Hex l).
Proof.
  unfold authService_Hex. induction 1 as [|b l Hb _ IH]; simpl; [constructor|].
  unfold is_u8 in Hb. constructor; [|constructor; [|exact IH]]; apply hex_digit_nonzero.
  - rewrite Z.shiftr_div_pow2 by lia. change (2 ^ 4) with 16. Z.div_mod_to_equations. lia.
  - change 0x0F with (Z.ones 4). rewrite Z.land_ones by lia. apply Z.mod_pos_bound. lia.
Qed.

(** A token is a string of 64 characters. *)
Lemma token_text b :
  length b = AUTH_SERVICE_TOKEN_BYTES -> Forall is_u8 b ->
  cstr (authService_Hex b) = authService_Hex b
  /\ strlen (authService_Hex b) = (AUTH_SERVICE_TOKEN_TEXT_SIZE - 1)%nat.
Proof.
  intros Hl Hb. assert (cstr (authService_Hex b) = authService_Hex b) as E
    by (by apply cstr_id, hex_nonzero).
  split; [exact E|]. unfold strlen. by rewrite E, length_hex, Hl.
Qed.

(** ** The session table *)

Lemma find_slot_some p l i : find_slot p l = Some i -> exists x, l !! i = Some x /\ p x = true.
Proof.
  revert i; induction l as [|x l IH]; intros i E; simpl in E; [done|].
  destruct (p x) eqn:Ex; [injection E as <-; by exists x|].
  apply fmap_Some in E as (j & Hj & ->). by apply IH.
Qed.

Lemma find_slot_none p l : find_slot p l = None -> Forall (fun x => p x = false) l.
Proof.
  induction l as [|x l IH]; simpl; intros E; [constructor|]. destruct (p x) eqn:Ex; [done|].
  constructor; [done|]. apply IH. by destruct (find_slot p l).
Qed.

(** The first match is the only one when matches are unique. *)
Lemma find_slot_unique p l i x :
  l !! i = Some x -> p x = true -> (forall j y, l !! j = Some y -> p y = true -> j = i) ->
  find_slot p l = Some i.
Proof.
  intros Hi Hp Hu. destruct (find_slot p l) as [j|] eqn:E.
  - apply find_slot_some in E as (y & Hj & Hy). by rewrite (Hu j y Hj Hy).
  - apply find_slot_none in E. pose proof (Forall_lookup_1 _ _ _ _ E Hi). simpl in *. congruence.
Qed.

Definition s_name (x : AuthService_SessionTypeDef) : bytes := cstr (s_username x).

(** At most one active session per name. *)
Definition one_per_user (l : list AuthService_SessionTypeDef) : Prop :=
  forall i j x y, l !! i = Some x -> l !! j = Some y -> is_active x = true -> is_active y = true ->
    s_name x = s_name y -> i = j.

(** The name array of a session: 25 bytes, NUL terminated. *)
Definition name_wf (a : bytes) : Prop := length a = USER_STORE_USERNAME_SIZE /\ (strlen a <= 24)%nat.

Lemma session_of_true nm x : session_of nm x = true <-> is_active x = true /\ s_name x = cstr nm.
Proof. unfold session_of. by rewrite andb_true_iff, strcmp_eq_true. Qed.

Lemma zero_session_inactive : is_active zero_session = false.
Proof. reflexivity. Qed.

(** Writing one slot keeps the table well formed when no other active slot has
    the new name. *)
Lemma one_per_user_insert l i z :
  one_per_user l ->
  (forall j y, j <> i -> l !! j = Some y -> is_active y = true -> is_active z = true ->
     s_name y <> s_name z) ->
  one_per_user (<[i := z]> l).
Proof.
  intros Hu Hz j k x y Hj Hk Ax Ay E. apply list_lookup_insert_Some in Hj, Hk.
  destruct Hj as [(<- & <- & _)|[Hij Hj]], Hk as [(<- & <- & _)|[Hik Hk]]; try done.
  - exfalso. by apply (Hz k y).
  - exfalso. by apply (Hz j x).
  - by eapply Hu.
Qed.

Lemma find_session_cases l nm i :
  authService_FindSession l nm = Some i ->
  exists x, l !! i = Some x
    /\ ((is_active x = true /\ s_name x = cstr nm)
        \/ (is_active x = false
            /\ forall j y, l !! j = Some y -> is_active y = true -> s_name y <> cstr nm)).
Proof.
  unfold authService_FindSession. destruct (find_slot (session_of nm) l) as [j|] eqn:E.
  - intros [= <-]. apply find_slot_some in E as (x & Hx & Hs). exists x. split; [done|].
    left. by apply session_of_true.
  - intros E2. apply find_slot_some in E2 as (x & Hx & Hs). exists x. split; [done|]. right.
    split; [by apply negb_true_iff|]. intros k y Hy Ay Ey.
    apply find_slot_none in E. pose proof (Forall_lookup_1 _ _ _ _ E Hy) as Hf. cbv beta in Hf.
    rewrite (proj2 (session_of_true nm y)) in Hf; [done|by split].
Qed.

(** No other active session has the name of the slot that was found. *)
Lemma find_session_other l nm i j y :
  one_per_user l -> authService_FindSession l nm = Some i -> j <> i -> l !! j = Some y ->
  is_active y = true -> s_name y <> cstr nm.
Proof.
  intros Hu E Hj Hy Ay En. destruct (find_session_cases _ _ _ E) as (x & Hx & [[Ax Ex]|[_ Hno]]).
  - apply Hj. eapply Hu; eauto. congruence.
  - by apply (Hno j y).
Qed.

(** Dropping a session leaves no active one of that name, and every other. *)
Lemma drop_session_spec l nm :
  one_per_user l ->
  one_per_user (drop_session l nm) /\ length (drop_session l nm) = length l
  /\ forall i x, drop_session l nm !! i = Some x -> is_active x = true ->
       l !! i = Some x /\ s_name x <> cstr nm.
Proof.
  intros Hu. unfold drop_session. destruct (authService_FindSession l nm) as [i|] eqn:E.
  - destruct (find_session_cases _ _ _ E) as (x & Hx & Hcase).
    rewrite (nth_lookup_Some _ _ _ _ Hx). destruct (session_of nm x) eqn:Es.
    + split; [apply one_per_user_insert; [done|by intros ? ? ? ? ? ?]|].
      split; [by rewrite length_insert|]. intros j y Hj Ay.
      apply list_lookup_insert_Some in Hj as [(<- & <- & _)|[Hij Hj]]; [done|].
      split; [done|]. by eapply find_session_other.
    + destruct Hcase as [[Ax Ex]|[_ Hno]].
      { rewrite (proj2 (session_of_true nm x)) in Es; [done|by split]. }
      split; [done|]. split; [done|]. eauto.
  - split; [done|]. split; [done|]. intros i x Hx Ax. split; [done|]. intros En.
    unfold authService_FindSession in E. destruct (find_slot (session_of nm) l) eqn:E2; [done|].
    apply find_slot_none in E2. pose proof (Forall_lookup_1 _ _ _ _ E2 Hx) as Hf. cbv beta in Hf.
    rewrite (proj2 (session_of_true nm x)) in Hf; [done|by split].
Qed.

(** The table never fills up: nine slots, and distinct active names drawn from
    the master user and at most eight accounts. *)
Lemma session_available (m : account_map) l nm :
  length l = AUTH_SERVICE_SESSION_COUNT -> one_per_user l -> (size m <= 8)%nat ->
  (forall i x, l !! i = Some x -> is_active x = true ->
     s_name x = AUTH_SERVICE_MASTER_USERNAME \/ is_Some (m !! s_name x)) ->
  cstr nm = AUTH_SERVICE_MASTER_USERNAME \/ is_Some (m !! cstr nm) ->
  is_Some (authService_FindSession l nm).
Proof.
  intros Hl Hu Hm Hs Hn. unfold authService_FindSession.
  destruct (find_slot (session_of nm) l) eqn:E1; [by eexists|].
  destruct (find_slot (fun s => negb (is_active s)) l) eqn:E2; [by eexists|]. exfalso.
  apply find_slot_none in E1, E2.
  assert (forall i x, l !! i = Some x -> is_active x = true /\ s_name x <> cstr nm) as Hall.
  { intros i x Hx. pose proof (Forall_lookup_1 _ _ _ _ E2 Hx) as A. apply negb_false_iff in A.
    split; [done|]. intros En. pose proof (Forall_lookup_1 _ _ _ _ E1 Hx) as B. cbv beta in B.
    rewrite (proj2 (session_of_true nm x)) in B; [done|by split]. }
  assert (NoDup (s_name <$> l)) as Hnd.
  { apply NoDup_fmap_2_strong; [|].
    - intros x y Hx Hy Exy. apply list_elem_of_lookup in Hx as [i Hx], Hy as [j Hy].
      assert (i = j) as -> by (eapply Hu; eauto; by eapply Hall). congruence.
    - apply NoDup_alt. intros i j x Hi Hj. eapply Hu; eauto; by eapply Hall. }
  clear E1 E2. pose (names := ({[ AUTH_SERVICE_MASTER_USERNAME ]} ∪ dom m : gset bytes)).
  assert (list_to_set (s_name <$> l) ⊆ names ∖ {[ cstr nm ]}) as Hsub.
  { intros k Hk. apply elem_of_list_to_set, list_elem_of_fmap in Hk as (x & -> & Hx).
    apply list_elem_of_lookup in Hx as [i Hx]. destruct (Hall i x Hx) as [Ax Ex].
    apply elem_of_difference. split; [|by rewrite elem_of_singleton].
    apply elem_of_union. rewrite elem_of_singleton, elem_of_dom. by apply (Hs i x). }
  apply subseteq_size in Hsub. rewrite size_list_to_set, length_fmap, Hl in Hsub by done.
  rewrite size_difference, size_singleton in Hsub.
  - assert (size names <= 9)%nat as Hsz.
    { unfold names. rewrite size_union_alt, size_singleton.
      assert (size (dom m ∖ {[AUTH_SERVICE_MASTER_USERNAME]}) <= size (dom m : gset bytes))%nat
        by (apply subseteq_size; intros k Hk; by apply elem_of_difference in Hk as [? _]).
      rewrite size_dom in *. lia. }
    unfold AUTH_SERVICE_SESSION_COUNT, USER_STORE_MAX_USERS in Hsub. lia.
  - intros k ->%elem_of_singleton. unfold names.
    apply elem_of_union. rewrite elem_of_singleton, elem_of_dom. exact Hn.
Qed.

(** The bounded copy of a session's name is that name. *)
Lemma copy_name a :
  (strlen a <= 24)%nat ->
  cstr (take (USER_STORE_USERNAME_SIZE - 1)
          (strncpy (zeros USER_STORE_USERNAME_SIZE) a USER_STORE_USERNAME_SIZE) ++ [0]) = cstr a.
Proof.
  intros Ha. unfold strncpy, strlen in *. unfold USER_STORE_USERNAME_SIZE.
  rewrite (take_ge (cstr a)), take_app_ge by lia. rewrite <-app_assoc.
  destruct (25 - length (cstr a))%nat as [|k] eqn:Ek; [lia|].
  destruct (25 - 1 - length (cstr a))%nat; simpl; apply cstr_app_0, cstr_nonzero.
Qed.

(** ** The invariant of the service *)

Section invariant.
Context (pbkdf2 : bytes -> bytes -> Z -> option bytes) (sha256 : bytes -> option bytes).
Context (masterPasswordSalt masterPasswordVerifier : bytes) (MASTER_PASSWORD_PBKDF2_ITERATIONS : Z).
Context {T : Type} `{AccountsLaws T}.
(** PBKDF2 is asked for [USER_STORE_VERIFIER_SIZE] bytes. *)
Hypothesis pbkdf2_size : forall p s n v,
  pbkdf2 p s n = Some v -> length v = USER_STORE_VERIFIER_SIZE /\ Forall is_u8 v.

Abbreviation Login := (AuthService_Login pbkdf2 sha256 masterPasswordSalt masterPasswordVerifier
  MASTER_PASSWORD_PBKDF2_ITERATIONS).
Abbreviation Check := (login_check pbkdf2 masterPasswordSalt masterPasswordVerifier
  MASTER_PASSWORD_PBKDF2_ITERATIONS).

(** Who may hold a session: the master user as administrator, or an enabled
    account with the role it has now. *)
Definition entitled (m : account_map) (nm : bytes) (role : Z) : Prop :=
  (nm = AUTH_SERVICE_MASTER_USERNAME /\ role = USER_ROLE_ADMINISTRATOR)
  \/ exists r, m !! nm = Some r /\ u_enabled r <> 0 /\ u_role r = role.

Definition session_ok (m : account_map) (x : AuthService_SessionTypeDef) : Prop :=
  (strlen (s_username x) <= 24)%nat /\ entitled m (s_name x) (s_role x).

Record Inv (s : state T) : Prop := {
  inv_store : acc_ok (accounts_store s);
  inv_names : forall k r, acc_map (accounts_store s) !! k = Some r -> (length k <= 24)%nat;
  inv_count : length (sessions s) = AUTH_SERVICE_SESSION_COUNT;
  inv_unique : one_per_user (sessions s);
  inv_sessions : forall i x, sessions s !! i = Some x -> is_active x = true ->
    session_ok (acc_map (accounts_store s)) x;
}.

(** One call of an operation that changes state, with the outcomes of the mutex, the
    random generator, the clock and the crypto lock it meets. *)
Inductive op :=
  | OpLogin (locked taken : bool) (now : Z) (random : option (bytes * bytes))
      (username password : option bytes)
  | OpRefresh (taken : bool) (now : Z) (random : option (bytes * bytes)) (token : option bytes)
  | OpRevoke (taken1 taken2 : bool) (now : Z) (token : option bytes)
  | OpPut (locked : bool) (salt : option bytes) (actor : option AuthService_PrincipalTypeDef)
      (username password : option bytes) (role enabled mustExist : Z)
  | OpDelete (actor : option AuthService_PrincipalTypeDef) (username : option bytes).

(** The session mutex is taken with [portMAX_DELAY]: in the two operations that
    ignore its outcome it is obtained. *)
Definition run (s : state T) (o : op) : state T * AuthService_StatusTypeDef :=
  match o with
  | OpLogin locked taken now random u p =>
      let '(s', st, _) := Login locked taken now random s u p in (s', st)
  | OpRefresh taken now random tok =>
      let '(s', st, _) := AuthService_Refresh sha256 taken now random s tok in (s', st)
  | OpRevoke t1 t2 now tok => AuthService_Revoke sha256 t1 t2 now s tok
  | OpPut locked salt actor u p role enabled mustExist =>
      AuthService_PutUser pbkdf2 locked true salt s actor u p role enabled mustExist
  | OpDelete actor u => AuthService_DeleteUser true s actor u
  end.

(** Random salts have the size that was asked for; names are made of bytes. *)
Definition op_ok (o : op) : Prop :=
  match o with
  | OpPut _ (Some salt) _ (Some u) _ _ _ _ =>
      length salt = USER_STORE_SALT_SIZE /\ Forall is_u8 salt /\ Forall is_u8 u
  | _ => True
  end.

Lemma entitled_known (m : account_map) nm role :
  entitled m nm role -> nm = AUTH_SERVICE_MASTER_USERNAME \/ is_Some (m !! nm).
Proof. intros [[-> _]|(r & -> & _)]; [by left|right; by eexists]. Qed.

(** What issuing tokens for an entitled user does. *)
Lemma issue_inv s now random nm role l st toks :
  Inv s -> (strlen nm <= 24)%nat -> is_u8 role ->
  entitled (acc_map (accounts_store s)) (cstr nm) role ->
  authService_Issue sha256 now random (sessions s) nm role = (l, st, toks) ->
  Inv (State l (accounts_store s)).
Proof.
  intros Hi Hn Hr He E. unfold authService_Issue in E.
  destruct random as [[a r]|]; [|injection E as <- <- <-; by destruct s].
  destruct (authService_HashToken _ _); [|injection E as <- <- <-; by destruct s].
  destruct (authService_HashToken _ _); [|injection E as <- <- <-; by destruct s].
  destruct (authService_FindSession _ _) as [i|] eqn:Ef; [|injection E as <- <- <-; by destruct s].
  injection E as <- <- <-. destruct Hi as [Hs Hk Hc Hu Hse].
  assert (cstr (strncpy (zeros USER_STORE_USERNAME_SIZE) nm 24) = cstr nm)
    as Hcp by (apply cstr_strncpy_zeros; unfold USER_STORE_USERNAME_SIZE; lia).
  split; cbn [sessions accounts_store]; [done|done|by rewrite length_insert| |].
  - apply one_per_user_insert; [done|]. intros j y Hj Hy Ay _.
    unfold s_name at 2; cbn [s_username]. rewrite Hcp. by eapply find_session_other.
  - intros j x Hx Ax. apply list_lookup_insert_Some in Hx as [(<- & <- & _)|[_ Hx]]; [|by eapply Hse].
    unfold session_ok, s_name, strlen; cbn [s_username s_role]. rewrite Hcp, u8_id by done.
    by split.
Qed.

(** A login that passes its check is entitled. *)
Lemma check_entitled s locked u p role :
  Inv s -> Check locked s u p = (AUTH_SERVICE_STATUS_OK, role) ->
  entitled (acc_map (accounts_store s)) (cstr u) role /\ (strlen u <= 24)%nat /\ is_u8 role.
Proof.
  intros [Hs Hk _ _ _] E. unfold login_check in E.
  destruct (strcmp_eq u _) eqn:Em.
  - apply strcmp_eq_true in Em. injection E as _ <-. unfold entitled, strlen. rewrite Em.
    split; [left; by split|]. split; [vm_compute; lia|]. unfold is_u8, USER_ROLE_ADMINISTRATOR. lia.
  - rewrite acc_find_spec in E by done.
    destruct (acc_map (accounts_store s) !! cstr u) as [r|] eqn:Er.
    + destruct (authService_Derive _ _ _ _ _) as [st v]. destruct st; try done.
      destruct (negb (u_enabled r =? 0)) eqn:Een; [|done]. cbn [andb] in E.
      destruct (bool_decide _); [|done]. injection E as <-.
      split; [right; exists r; split; [done|]; split; [lia|done]|].
      split; [by eapply Hk|]. pose proof (acc_wf _ _ _ Hs Er) as [Hw _]. apply user_wf in Hw. apply Hw.
    + destruct (authService_Derive _ _ _ _ _) as [st v]. by destruct st.
Qed.

Lemma login_inv s locked taken now random u p s' st toks :
  Inv s -> Login locked taken now random s u p = (s', st, toks) -> Inv s'.
Proof.
  intros Hi E. unfold AuthService_Login in E.
  destruct u as [u|]; [|injection E as <- <- <-; done].
  destruct p as [p|]; [|injection E as <- <- <-; done].
  destruct (Check locked s u p) as [st0 role] eqn:Ec.
  destruct st0; try (injection E as <- <- <-; done).
  destruct taken; cbn [negb] in E; [|injection E as <- <- <-; done].
  destruct (authService_Issue _ _ _ _ _ _) as [[l st1] tk] eqn:Ei. injection E as <- <- <-.
  destruct (check_entitled _ _ _ _ _ Hi Ec) as (He & Hn & Hr). by eapply issue_inv.
Qed.

Lemma session_role_u8 s i x :
  Inv s -> sessions s !! i = Some x -> is_active x = true -> is_u8 (s_role x).
Proof.
  intros Hi Hx Ax. destruct (inv_sessions s Hi i x Hx Ax) as [_ [[_ ->]|(r & Er & _ & <-)]].
  - unfold is_u8, USER_ROLE_ADMINISTRATOR. lia.
  - destruct (acc_wf _ _ _ (inv_store s Hi) Er) as [Hw _]. apply user_wf in Hw. apply Hw.
Qed.

Lemma refresh_inv s taken now random tok s' st toks :
  Inv s -> AuthService_Refresh sha256 taken now random s tok = (s', st, toks) -> Inv s'.
Proof.
  intros Hi E. unfold AuthService_Refresh in E.
  destruct tok as [tok|]; [|injection E as <- <- <-; done].
  destruct (negb _); [injection E as <- <- <-; done|].
  destruct (authService_HashToken _ _) as [d|]; [|injection E as <- <- <-; done].
  destruct (negb taken); [injection E as <- <- <-; done|].
  destruct (find_slot _ _) as [i|] eqn:Ef; [|injection E as <- <- <-; done].
  apply find_slot_some in Ef as (x & Hx & Hp). rewrite (nth_lookup_Some _ _ _ _ Hx) in E.
  apply andb_true_iff in Hp as [[Ax _]%andb_true_iff _].
  destruct (authService_Issue _ _ _ _ _ _) as [[l st1] tk] eqn:Ei. injection E as <- <- <-.
  destruct (inv_sessions s Hi i x Hx Ax) as [Hn He]. pose proof (copy_name _ Hn) as Hc.
  eapply issue_inv; [done| | | |exact Ei].
  - unfold strlen. by rewrite Hc.
  - by eapply session_role_u8.
  - by rewrite Hc.
Qed.

(** What [AuthService_Authorize] accepts: the token of an active session whose
    access token has not expired. *)
Lemma authorize_found (s : state T) taken now tok p :
  AuthService_Authorize sha256 taken now s tok = (AUTH_SERVICE_STATUS_OK, Some p) ->
  exists t d i x, tok = Some t /\ sha256 (cstr t) = Some d /\ sessions s !! i = Some x
    /\ is_active x = true /\ accessDigest x = d
    /\ not_expired now (accessIssuedAt x) AUTH_SERVICE_ACCESS_LIFETIME_SEC = true
    /\ p_role p = s_role x
    /\ ((strlen (s_username x) <= 24)%nat -> cstr (p_username p) = s_name x).
Proof.
  unfold AuthService_Authorize, authService_HashToken. intros E.
  destruct tok as [t|]; [|done]. destruct (negb _); [done|].
  destruct (sha256 (cstr t)) as [d|] eqn:Ed; [|done]. destruct (negb taken); [done|].
  destruct (find_slot _ _) as [i|] eqn:Ef; [|done].
  apply find_slot_some in Ef as (x & Hx & Hp). rewrite (nth_lookup_Some _ _ _ _ Hx) in E.
  apply andb_true_iff in Hp as [[Ax Hn]%andb_true_iff Hd]. apply bool_decide_eq_true in Hd as ->.
  injection E as <-. exists t, (accessDigest x), i, x. cbn [p_role p_username].
  do 7 (split; [done|]). intros Hl. by apply copy_name.
Qed.

Lemma authorize_some (s : state T) taken now tok :
  AuthService_Authorize sha256 taken now s tok <> (AUTH_SERVICE_STATUS_OK, None).
Proof.
  unfold AuthService_Authorize. destruct tok as [t|]; [|done]. destruct (negb _); [done|].
  destruct (authService_HashToken _ _); [|done]. destruct (negb taken); [done|].
  by destruct (find_slot _ _).
Qed.

Lemma revoke_inv s t1 t2 now tok s' st :
  Inv s -> AuthService_Revoke sha256 t1 t2 now s tok = (s', st) -> Inv s'.
Proof.
  intros Hi E. unfold AuthService_Revoke in E.
  destruct (AuthService_Authorize _ _ _ _ _) as [a p].
  destruct a; try (injection E as <- <-; done). destruct p as [p|]; [|injection E as <- <-; done].
  destruct (negb t2); [injection E as <- <-; done|].
  destruct (authService_FindSession _ _) as [i|] eqn:Ef; injection E as <- <-; [|by destruct s].
  destruct Hi as [Hs Hk Hc Hu Hse]. split; cbn [sessions accounts_store];
    [done|done|by rewrite length_insert| |].
  - apply one_per_user_insert; [done|]. by intros ? ? ? ? ? ?.
  - intros j x Hx Ax. apply list_lookup_insert_Some in Hx as [(<- & <- & _)|[_ Hx]]; [done|].
    by eapply Hse.
Qed.

(** Changing one account and dropping its session. *)
Lemma drop_inv (s : state T) (nm : bytes) (t : T) (m' : account_map) :
  Inv s -> acc_ok t -> acc_map t = m' ->
  (forall k, k <> cstr nm -> m' !! k = acc_map (accounts_store s) !! k) ->
  (forall r, m' !! cstr nm = Some r -> (strlen nm <= 24)%nat) ->
  Inv (State (drop_session (sessions s) nm) t).
Proof.
  intros [Hs Hk Hc Hu Hse] Ht Em Hne Hnm.
  destruct (drop_session_spec _ nm Hu) as (Hu' & Hl & Hd).
  split; cbn [sessions accounts_store]; [done| |by rewrite Hl|done|].
  - intros k r. rewrite Em. destruct (decide (k = cstr nm)) as [->|Hn]; [apply Hnm|].
    rewrite Hne by done. apply Hk.
  - intros i x Hx Ax. destruct (Hd i x Hx Ax) as [Hx' Hn]. destruct (Hse i x Hx' Ax) as [H24 He].
    split; [done|]. unfold entitled. rewrite Em, Hne by done. exact He.
Qed.

Lemma put_record_wf salt v u role enabled :
  length salt = USER_STORE_SALT_SIZE -> Forall is_u8 salt ->
  length v = USER_STORE_VERIFIER_SIZE -> Forall is_u8 v -> Forall is_u8 u ->
  c_wf c_user (User (if enabled =? 0 then 0 else 1) (u8 role)
    (strncpy (zeros USER_STORE_USERNAME_SIZE) u (USER_STORE_USERNAME_SIZE - 1))
    salt v 0 AUTH_SERVICE_USER_ITERATIONS).
Proof.
  intros Hsl Hs Hvl Hv Hu. apply user_wf.
  cbn [u_enabled u_role u_username u_salt u_verifier u_padding u_iterations].
  split; [destruct (enabled =? 0); unfold is_u8; lia|]. split; [apply u8_range|].
  split; [split; [apply length_strncpy; cbn; lia|apply strncpy_bytes; [apply zeros_bytes|done]]|].
  do 2 (split; [by split|]). unfold is_u8, is_u32, AUTH_SERVICE_USER_ITERATIONS. lia.
Qed.

Lemma put_inv s locked salt actor u p role enabled mustExist s' st :
  Inv s -> op_ok (OpPut locked salt actor u p role enabled mustExist) ->
  AuthService_PutUser pbkdf2 locked true salt s actor u p role enabled mustExist = (s', st) -> Inv s'.
Proof.
  intros Hi Hok E. unfold AuthService_PutUser in E.
  destruct u as [u|]; [|injection E as <- <-; done].
  destruct p as [p|]; [|injection E as <- <-; done].
  destruct (_ || strcmp_eq _ _) eqn:Eg in E; [injection E as <- <-; done|].
  apply orb_false_iff in Eg as [[_ Hlen]%orb_false_iff _]. apply Nat.leb_gt in Hlen.
  destruct (negb _ && negb _) in E; [injection E as <- <-; done|].
  destruct ((mustExist =? 0) && _) in E; [injection E as <- <-; done|].
  destruct salt as [salt|]; [|injection E as <- <-; done].
  destruct Hok as (Hsl & Hs8 & Hu8). unfold authService_Derive in E.
  destruct locked; cbn [negb] in E; [|injection E as <- <-; done].
  destruct (pbkdf2 p salt _) as [v|] eqn:Ev; [|injection E as <- <-; done].
  destruct (pbkdf2_size _ _ _ _ Ev) as [Hvl Hv8].
  pose proof (put_record_wf salt v u role enabled Hsl Hs8 Hvl Hv8 Hu8) as Hw.
  destruct (acc_put _ _) as [t st0] eqn:Ep.
  destruct (acc_put_spec _ _ _ _ (inv_store s Hi) Hw Ep) as [Ht Hm].
  destruct st0; injection E as <- <-.
  - eapply (drop_inv s u t); [done|done|exact Hm| |].
    + intros k Hk. apply lookup_insert_ne. unfold name; cbn [u_username].
      rewrite cstr_strncpy_zeros by (unfold USER_STORE_USERNAME_SIZE in *; lia). done.
    + intros _ _. unfold USER_STORE_USERNAME_SIZE in Hlen. lia.
  - destruct Hi as [_ Hk Hc Hu Hse]. split; cbn [sessions accounts_store]; rewrite ?Hm; done.
Qed.

Lemma delete_inv s actor u s' st :
  Inv s -> AuthService_DeleteUser true s actor u = (s', st) -> Inv s'.
Proof.
  intros Hi E. unfold AuthService_DeleteUser in E.
  destruct u as [u|]; [|injection E as <- <-; done].
  destruct (_ || strcmp_eq _ _) in E; [injection E as <- <-; done|].
  destruct (acc_find _ _); [|injection E as <- <-; done].
  destruct (acc_delete _ _) as [t st0] eqn:Ed.
  destruct (acc_delete_spec _ _ _ _ (inv_store s Hi) Ed) as [Ht Hm].
  destruct st0; injection E as <- <-.
  - eapply (drop_inv s u t); [done|done|exact Hm| |].
    + intros k Hk. by apply lookup_delete_ne.
    + intros r Hr. by rewrite lookup_delete_eq in Hr.
  - destruct Hi as [_ Hk Hc Hu Hse]. split; cbn [sessions accounts_store]; rewrite ?Hm; done.
Qed.

Lemma run_inv s o : Inv s -> op_ok o -> Inv (run s o).1.
Proof.
  intros Hi Ho. destruct o; cbn [run].
  - destruct (Login _ _ _ _ _ _ _) as [[s' st] tk] eqn:E. by eapply login_inv.
  - destruct (AuthService_Refresh _ _ _ _ _ _) as [[s' st] tk] eqn:E. by eapply refresh_inv.
  - destruct (AuthService_Revoke _ _ _ _ _ _) as [s' st] eqn:E. by eapply revoke_inv.
  - destruct (AuthService_PutUser _ _ _ _ _ _ _ _ _ _ _) as [s' st] eqn:E. by eapply put_inv.
  - destruct (AuthService_DeleteUser _ _ _ _) as [s' st] eqn:E. by eapply delete_inv.
Qed.

(** A history of calls. *)
Definition runs (s : state T) (ops : list op) : state T := fold_left (fun s o => (run s o).1) ops s.

Lemma runs_inv ops s : Inv s -> Forall op_ok ops -> Inv (runs s ops).
Proof.
  revert s. induction ops as [|o ops IH]; intros s Hi Ho; [done|].
  apply list.Forall_cons in Ho as [Ho Hos]. cbn. by apply IH, Hos; apply run_inv.
Qed.

(** The first state after a successful start. *)
Lemma auth_init_inv created store_init s s' :
  (forall t t', store_init t = (t', HEALTH_CHECK_STATUS_OK) ->
     acc_ok t' /\ forall k r, acc_map t' !! k = Some r -> (length k <= 24)%nat) ->
  AuthService_Init created store_init s = (s', AUTH_SERVICE_STATUS_OK) -> Inv s'.
Proof.
  unfold AuthService_Init. intros Hst E. destruct (negb created); [done|].
  destruct (store_init _) as [t st] eqn:Et. destruct st; [|done].
  assert (s' = State (replicate AUTH_SERVICE_SESSION_COUNT zero_session) t) as -> by congruence.
  destruct (Hst _ _ Et) as [Ht Hk]. split; cbn [sessions accounts_store]; [done|done|done| |].
  - intros i j x y Hi _ Ax. apply lookup_replicate in Hi as [-> _]. done.
  - intros i x Hi Ax. apply lookup_replicate in Hi as [-> _]. done.
Qed.

(** ** What a token authorizes *)

(** The session of a token, when no other active session has its digest. *)
Lemma authorize_session (s : state T) now t d i x :
  sha256 (cstr t) = Some d -> strlen t = (AUTH_SERVICE_TOKEN_TEXT_SIZE - 1)%nat ->
  sessions s !! i = Some x -> is_active x = true -> accessDigest x = d ->
  (forall j y, j <> i -> sessions s !! j = Some y -> is_active y = true -> accessDigest y <> d) ->
  AuthService_Authorize sha256 true now s (Some t) =
    if not_expired now (accessIssuedAt x) AUTH_SERVICE_ACCESS_LIFETIME_SEC
    then (AUTH_SERVICE_STATUS_OK, Some (Principal
           (take (USER_STORE_USERNAME_SIZE - 1)
              (strncpy (zeros USER_STORE_USERNAME_SIZE) (s_username x) USER_STORE_USERNAME_SIZE) ++ [0])
           (s_role x)))
    else (AUTH_SERVICE_STATUS_INVALID_PASSWORD, None).
Proof.
  intros Ed El Hx Ax Dx Hu. unfold AuthService_Authorize, authService_HashToken. rewrite El, Ed.
  cbn [negb Nat.eqb AUTH_SERVICE_TOKEN_TEXT_SIZE Nat.sub]. set (p := fun _ => _).
  destruct (not_expired now (accessIssuedAt x) _) eqn:En.
  - assert (p x = true) as Px by (unfold p; by rewrite Ax, En, bool_decide_true).
    rewrite (find_slot_unique p _ i x Hx Px); [by rewrite (nth_lookup_Some _ _ _ _ Hx)|].
    intros j y Hy Py. unfold p in Py. apply andb_true_iff in Py as [[Ay _]%andb_true_iff Dy].
    apply bool_decide_eq_true in Dy. destruct (decide (j = i)) as [|Hn]; [done|].
    by destruct (Hu j y Hn Hy Ay).
  - destruct (find_slot p _) as [j|] eqn:Ej; [|done].
    apply find_slot_some in Ej as (y & Hy & Py). unfold p in Py.
    apply andb_true_iff in Py as [[Ay Ny]%andb_true_iff Dy]. apply bool_decide_eq_true in Dy.
    destruct (decide (j = i)) as [->|Hn]; [|by destruct (Hu j y Hn Hy Ay)].
    rewrite Hx in Hy. injection Hy as <-. congruence.
Qed.

(** A token no active session has the digest of is refused. *)
Lemma authorize_unknown (s : state T) now t d :
  sha256 (cstr t) = Some d -> strlen t = (AUTH_SERVICE_TOKEN_TEXT_SIZE - 1)%nat ->
  (forall j y, sessions s !! j = Some y -> is_active y = true -> accessDigest y <> d) ->
  AuthService_Authorize sha256 true now s (Some t) = (AUTH_SERVICE_STATUS_INVALID_PASSWORD, None).
Proof.
  intros Ed El Hu. unfold AuthService_Authorize, authService_HashToken. rewrite El, Ed.
  cbn [negb Nat.eqb AUTH_SERVICE_TOKEN_TEXT_SIZE Nat.sub].
  destruct (find_slot _ _) as [j|] eqn:Ej; [|done].
  apply find_slot_some in Ej as (y & Hy & Py). apply andb_true_iff in Py as [[Ay _]%andb_true_iff Dy].
  apply bool_decide_eq_true in Dy. by destruct (Hu j y Hy Ay).
Qed.

(** Valid credentials, as the account database and the build define them. *)
Definition valid_credentials (s : state T) (u p : bytes) (role : Z) : Prop :=
  (cstr u = AUTH_SERVICE_MASTER_USERNAME /\ role = USER_ROLE_ADMINISTRATOR
   /\ (0 < length p <= AUTH_SERVICE_MAX_PASSWORD_LENGTH)%nat
   /\ pbkdf2 p masterPasswordSalt MASTER_PASSWORD_PBKDF2_ITERATIONS = Some masterPasswordVerifier)
  \/ (cstr u <> AUTH_SERVICE_MASTER_USERNAME
      /\ exists r, acc_map (accounts_store s) !! cstr u = Some r /\ u_enabled r <> 0 /\ role = u_role r
           /\ pbkdf2 p (u_salt r) (u_iterations r) = Some (u_verifier r)).

Lemma login_check_spec s u p role :
  Inv s -> valid_credentials s u p role <-> Check true s u p = (AUTH_SERVICE_STATUS_OK, role).
Proof.
  intros Hi. unfold valid_credentials, login_check, AuthService_VerifyMasterPassword, authService_Derive.
  destruct (strcmp_eq u _) eqn:Em; [apply strcmp_eq_true in Em|]; cbn [negb].
  - change (cstr AUTH_SERVICE_MASTER_USERNAME) with AUTH_SERVICE_MASTER_USERNAME in Em.
    unfold AUTH_SERVICE_MAX_PASSWORD_LENGTH. split.
    + intros [(_ & -> & Hl & Hp)|[Hn _]]; [|done]. rewrite Hp, bool_decide_true by done.
      destruct (_ || _) eqn:Eg; [lia|done].
    + intros E. left. destruct (_ || _) eqn:Eg; [done|].
      destruct (pbkdf2 _ _ _) as [v|]; [|done]. destruct (bool_decide_reflect (v = masterPasswordVerifier));
        [|done]. injection E as <-. subst v. repeat split; done || lia.
  - assert (cstr u <> AUTH_SERVICE_MASTER_USERNAME) as Hn.
    { intros E. rewrite (proj2 (strcmp_eq_true u AUTH_SERVICE_MASTER_USERNAME)) in Em; [done|].
      rewrite E. reflexivity. }
    rewrite acc_find_spec by apply Hi. split.
    + intros [[E _]|(_ & r & Er & He & -> & Hp)]; [done|]. rewrite Er, Hp.
      rewrite (proj2 (Z.eqb_neq _ _) He). cbn. by rewrite bool_decide_true.
    + intros E. right. split; [done|].
      destruct (acc_map _ !! cstr u) as [r|]; [|by destruct (pbkdf2 _ _ _)].
      exists r. split; [done|]. destruct (pbkdf2 _ _ _) as [v|]; [|done].
      destruct (u_enabled r =? 0) eqn:Ee; cbn in E; [done|].
      destruct (bool_decide_reflect (Some v = Some (u_verifier r))) as [Ev|]; [|done].
      injection E as <-. apply Z.eqb_neq in Ee. by rewrite Ev.
Qed.

(** No active session of another user has the digest. *)
Definition digest_fresh (s : state T) (nm d : bytes) : Prop :=
  forall j y, sessions s !! j = Some y -> is_active y = true -> s_name y <> cstr nm ->
    accessDigest y <> d.

(** A draw of two tokens, and their digests. *)
Definition token_draw (a r da dr : bytes) : Prop :=
  length a = AUTH_SERVICE_TOKEN_BYTES /\ Forall is_u8 a
  /\ sha256 (authService_Hex a) = Some da
  /\ length r = AUTH_SERVICE_TOKEN_BYTES /\ Forall is_u8 r
  /\ sha256 (authService_Hex r) = Some dr.

Definition lifetime_ms : Z := 900000.

Lemma login_issues s t0 a r da dr u p role :
  Inv s -> valid_credentials s u p role -> token_draw a r da dr ->
  exists i,
    authService_FindSession (sessions s) u = Some i
    /\ Login true true t0 (Some (a, r)) s (Some u) (Some p) =
       (State (<[i := Session 1 role
                  (strncpy (zeros USER_STORE_USERNAME_SIZE) u (USER_STORE_USERNAME_SIZE - 1))
                  da dr t0 t0]> (sessions s)) (accounts_store s),
        AUTH_SERVICE_STATUS_OK,
        Some (TokenPair (authService_Hex a) (authService_Hex r) AUTH_SERVICE_ACCESS_LIFETIME_SEC
                AUTH_SERVICE_REFRESH_LIFETIME_SEC)).
Proof.
  intros Hi Hv (Hal & Ha & Eda & Hrl & Hr & Edr). apply login_check_spec in Hv; [|done].
  destruct (check_entitled _ _ _ _ _ Hi Hv) as (He & Hn & Hr8).
  assert (is_Some (authService_FindSession (sessions s) u)) as [i Ei].
  { eapply (session_available (acc_map (accounts_store s)));
      [apply Hi|apply Hi|apply acc_size, Hi| |by eapply entitled_known].
    intros j x Hx Ax. eapply entitled_known, (inv_sessions s Hi j x Hx Ax). }
  exists i. split; [done|]. unfold AuthService_Login. rewrite Hv. cbn [negb].
  unfold authService_Issue, authService_HashToken.
  rewrite (proj1 (token_text a Hal Ha)), (proj1 (token_text r Hrl Hr)), Eda, Edr, Ei.
  by rewrite u8_id.
Qed.

Lemma login_token s t0 a r da dr u p role s' toks now :
  Inv s -> valid_credentials s u p role -> token_draw a r da dr -> digest_fresh s u da ->
  Login true true t0 (Some (a, r)) s (Some u) (Some p) = (s', AUTH_SERVICE_STATUS_OK, Some toks) ->
  exists nm, cstr nm = cstr u /\
  AuthService_Authorize sha256 true now s' (Some (accessToken toks)) =
    if u32 (now - t0) <=? lifetime_ms
    then (AUTH_SERVICE_STATUS_OK, Some (Principal nm role))
    else (AUTH_SERVICE_STATUS_INVALID_PASSWORD, None).
Proof.
  intros Hi Hv Hd Hf E. destruct (login_issues s t0 a r da dr u p role Hi Hv Hd) as (i & Ei & El).
  rewrite El in E. injection E as <- <-. cbn [accessToken].
  apply login_check_spec in Hv; [|done]. destruct (check_entitled _ _ _ _ _ Hi Hv) as (_ & Hn & _).
  destruct Hd as (Hal & Ha & Eda & _). destruct (token_text a Hal Ha) as [Ht Hl].
  assert (cstr (strncpy (zeros USER_STORE_USERNAME_SIZE) u 24) = cstr u)
    as Hcp by (apply cstr_strncpy_zeros; unfold USER_STORE_USERNAME_SIZE; lia).
  destruct (find_session_cases _ _ _ Ei) as (x & Hx & _).
  match goal with |- context [<[i := ?z]>] => set (x' := z) end.
  eexists. split; [|rewrite (authorize_session _ now _ da i x'); [reflexivity|by rewrite Ht|done|
    apply list_lookup_insert_eq; by eapply lookup_lt_Some|done|done|]].
  - rewrite copy_name; [exact Hcp|]. cbn [s_username x']. unfold strlen. rewrite Hcp. exact Hn.
  - cbn [sessions]. intros j y Hj Hy Ay. rewrite list_lookup_insert_ne in Hy by done.
    apply (Hf j y Hy Ay). by eapply find_session_other; [apply Hi|exact Ei|..].
Qed.

(** C8. Whatever sequence of logins, refreshes, revocations and account changes the
    device has served, a token that is accepted belongs to the master user as
    administrator, or to an account that exists now, is enabled now, and has
    now the role that is reported. *)
Theorem auth_sound s ops taken now tok p :
  Inv s -> Forall op_ok ops ->
  AuthService_Authorize sha256 taken now (runs s ops) tok = (AUTH_SERVICE_STATUS_OK, Some p) ->
  entitled (acc_map (accounts_store (runs s ops))) (cstr (p_username p)) (p_role p).
Proof.
  intros Hi Ho E. apply (runs_inv ops s Hi) in Ho.
  destruct (authorize_found _ _ _ _ _ E) as (t & d & i & x & _ & _ & Hx & Ax & _ & _ & Hr & Hn).
  destruct (inv_sessions _ Ho i x Hx Ax) as [Hl He]. by rewrite Hr, (Hn Hl).
Qed.

(** With valid credentials a login never fails for want of a session slot, and
    the access token it returns is accepted, as that user with that role,
    exactly while the elapsed milliseconds modulo 2^32 are at most 15 minutes. *)
Lemma login_token_lifetime s t0 a r da dr u p role :
  Inv s -> valid_credentials s u p role -> token_draw a r da dr -> digest_fresh s u da ->
  exists s' toks,
    Login true true t0 (Some (a, r)) s (Some u) (Some p) = (s', AUTH_SERVICE_STATUS_OK, Some toks)
    /\ accounts_store s' = accounts_store s
    /\ forall elapsed, exists nm, cstr nm = cstr u
       /\ AuthService_Authorize sha256 true (u32 (t0 + elapsed)) s' (Some (accessToken toks)) =
          if elapsed mod 4294967296 <=? 900000
          then (AUTH_SERVICE_STATUS_OK, Some (Principal nm role))
          else (AUTH_SERVICE_STATUS_INVALID_PASSWORD, None).
Proof.
  intros Hi Hv Hd Hf. destruct (login_issues s t0 a r da dr u p role Hi Hv Hd) as (i & Ei & El).
  do 2 eexists. split; [exact El|]. split; [done|]. intros e.
  destruct (login_token _ _ _ _ _ _ _ _ _ _ _ (u32 (t0 + e)) Hi Hv Hd Hf El) as (nm & Hn & Ea).
  exists nm. split; [done|]. rewrite Ea. unfold u32, lifetime_ms.
  by rewrite Zminus_mod_idemp_l, Z.add_simpl_l.
Qed.

(** Without valid credentials a login changes nothing and hands out no token. *)
Lemma login_refused s locked taken now random u p :
  Inv s -> (forall role, ~ valid_credentials s u p role) ->
  exists st, st <> AUTH_SERVICE_STATUS_OK
    /\ Login locked taken now random s (Some u) (Some p) = (s, st, None).
Proof.
  intros Hi Hno. unfold AuthService_Login.
  destruct (Check locked s u p) as [st role] eqn:Ec.
  assert (st <> AUTH_SERVICE_STATUS_OK) as Hst.
  { intros ->. destruct locked; [by apply (Hno role), login_check_spec|].
    unfold login_check, AuthService_VerifyMasterPassword, authService_Derive in Ec.
    cbn [negb] in Ec. destruct (strcmp_eq _ _); [|done]. by destruct (_ || _). }
  exists st. split; [done|]. by destruct st.
Qed.

(** Issuing tokens leaves no session of that user but the new one. *)
Lemma issue_replaces l now a r nm role l' toks :
  one_per_user l ->
  authService_Issue sha256 now (Some (a, r)) l nm role = (l', AUTH_SERVICE_STATUS_OK, toks) ->
  forall j y, l' !! j = Some y -> is_active y = true ->
    (l !! j = Some y /\ s_name y <> cstr nm)
    \/ authService_HashToken sha256 (authService_Hex a) = Some (accessDigest y).
Proof.
  intros Hu E j y Hy Ay. unfold authService_Issue in E.
  destruct (authService_HashToken sha256 (authService_Hex a)) as [da|]; [|done].
  destruct (authService_HashToken _ _); [|done].
  destruct (authService_FindSession l nm) as [i|] eqn:Ei; [|done]. injection E as <- _.
  apply list_lookup_insert_Some in Hy as [(<- & <- & _)|[Hij Hy]]; [by right|left].
  split; [done|]. by eapply find_session_other.
Qed.

(** The operations that end a session of [nm], other than by issuing a token
    with digest [d]; [tok] is the access token of that session. *)
Definition ends (s : state T) (nm tok d : bytes) (o : op) : Prop :=
  match o with
  | OpLogin _ _ _ (Some (a, _)) (Some u) _ =>
      cstr u = cstr nm /\ authService_HashToken sha256 (authService_Hex a) <> Some d
  | OpRefresh _ _ (Some (a, _)) (Some t) =>
      authService_HashToken sha256 (authService_Hex a) <> Some d
      /\ forall j y, sessions s !! j = Some y -> is_active y = true ->
           sha256 (cstr t) = Some (refreshDigest y) -> s_name y = cstr nm
  | OpRevoke _ _ _ (Some t) => cstr t = cstr tok
  | OpPut _ _ _ (Some u) _ _ _ _ | OpDelete _ (Some u) => cstr u = cstr nm
  | _ => False
  end.

Lemma ends_session s o nm tok d :
  Inv s -> sha256 (cstr tok) = Some d ->
  (forall j y, sessions s !! j = Some y -> is_active y = true -> accessDigest y = d ->
     s_name y = cstr nm) ->
  ends s nm tok d o -> (run s o).2 = AUTH_SERVICE_STATUS_OK ->
  forall j y, sessions (run s o).1 !! j = Some y -> is_active y = true -> accessDigest y <> d.
Proof.
  intros Hi Ed Hown He Hok j y Hy Ay Dy. pose proof (inv_unique s Hi) as Hu.
  destruct o as [lk tk t0 [[a r]|] [u|] p|tk t0 [[a r]|] [t|]|t1 t2 t0 [t|]
                |lk salt actor [u|] p role en me|actor [u|]]; cbn [ends] in He; try done;
    cbn [run] in *.
  - destruct He as [Hn Hne]. unfold AuthService_Login in *. destruct p as [p|]; [|done].
    destruct (Check lk s u p) as [st0 role]. destruct st0; try done.
    destruct (negb tk); [done|].
    destruct (authService_Issue _ _ _ _ _ _) as [[l st1] toks] eqn:Ei. cbn in *. subst st1.
    destruct (issue_replaces _ _ _ _ _ _ _ _ Hu Ei j y Hy Ay) as [[Hy' Hn']|Hd]; [|congruence].
    apply Hn'. rewrite Hn. by eapply Hown.
  - destruct He as [Hne Hr]. unfold AuthService_Refresh in *. destruct (negb _); [done|].
    destruct (authService_HashToken sha256 t) as [dt|] eqn:Et; [|done].
    unfold authService_HashToken in Et.
    destruct (negb tk); [done|]. destruct (find_slot _ _) as [i|] eqn:Ef; [|done].
    apply find_slot_some in Ef as (x & Hx & Hp). rewrite (nth_lookup_Some _ _ _ _ Hx) in *.
    apply andb_true_iff in Hp as [[Ax _]%andb_true_iff Hd%bool_decide_eq_true].
    destruct (authService_Issue _ _ _ _ _ _) as [[l st1] toks] eqn:Ei. cbn in Hok, Hy. subst st1.
    destruct (issue_replaces _ _ _ _ _ _ _ _ Hu Ei j y Hy Ay) as [[Hy' Hn']|Hd']; [|congruence].
    apply Hn'. rewrite copy_name by apply (inv_sessions s Hi i x Hx Ax).
    rewrite (Hown j y Hy' Ay Dy). symmetry. apply (Hr i x Hx Ax). congruence.
  - unfold AuthService_Revoke in *. destruct (AuthService_Authorize _ _ _ _ _) as [st0 pr] eqn:Ea.
    destruct st0; try done. destruct pr as [pr|]; [|by apply authorize_some in Ea].
    destruct (negb t2); [done|].
    destruct (authorize_found _ _ _ _ _ Ea) as (? & d' & i & x & [= <-] & Ed' & Hx & Ax & Dx & _ & _ & Hn).
    rewrite He, Ed in Ed'. injection Ed' as <-.
    specialize (Hn (proj1 (inv_sessions s Hi i x Hx Ax))).
    rewrite (Hown i x Hx Ax Dx) in Hn. cbn [fst sessions] in Hy.
    destruct (authService_FindSession _ _) as [k|] eqn:Ek.
    + apply list_lookup_insert_Some in Hy as [(<- & <- & _)|[Hkj Hy]]; [done|].
      apply (find_session_other _ _ _ j y Hu Ek); [congruence|done|done|].
      rewrite Hn. by eapply Hown.
    + unfold authService_FindSession in Ek. destruct (find_slot (session_of _) _) eqn:E2; [done|].
      apply find_slot_none in E2. pose proof (Forall_lookup_1 _ _ _ _ E2 Hx) as Hf. cbv beta in Hf.
      rewrite (proj2 (session_of_true _ x)) in Hf; [done|]. split; [done|].
      rewrite Hn. by eapply Hown.
  - unfold AuthService_PutUser in *. destruct p as [p|]; [|done].
    destruct (_ || strcmp_eq _ _); [done|]. destruct (negb _ && negb _); [done|].
    destruct ((me =? 0) && _); [done|]. destruct salt as [salt|]; [|done].
    destruct (authService_Derive _ _ _ _ _) as [st0 v]. destruct st0; try done.
    destruct (acc_put _ _) as [t st0]. destruct st0; [|done]. cbn [fst sessions] in Hy.
    destruct (proj2 (proj2 (drop_session_spec _ u Hu)) j y Hy Ay) as [Hy' Hn].
    apply Hn. rewrite He. by eapply Hown.
  - unfold AuthService_DeleteUser in *. destruct (_ || strcmp_eq _ _); [done|].
    destruct (acc_find _ _); [|done]. destruct (acc_delete _ _) as [t st0]. destruct st0; [|done].
    cbn [fst sessions] in Hy.
    destruct (proj2 (proj2 (drop_session_spec _ u Hu)) j y Hy Ay) as [Hy' Hn].
    apply Hn. rewrite He. by eapply Hown.
Qed.

(** An access token stops working, at every later reading of the clock, as soon
    as its user logs in again, refreshes or revokes the session, or an
    administrator rewrites or deletes the account. *)
Lemma token_revoked s o nm tok d now :
  Inv s -> sha256 (cstr tok) = Some d -> strlen tok = (AUTH_SERVICE_TOKEN_TEXT_SIZE - 1)%nat ->
  (forall j y, sessions s !! j = Some y -> is_active y = true -> accessDigest y = d ->
     s_name y = cstr nm) ->
  ends s nm tok d o -> (run s o).2 = AUTH_SERVICE_STATUS_OK ->
  AuthService_Authorize sha256 true now (run s o).1 (Some tok) =
    (AUTH_SERVICE_STATUS_INVALID_PASSWORD, None).
Proof.
  intros Hi Ed El Hown He Hok. eapply authorize_unknown; [exact Ed|exact El|].
  by eapply ends_session.
Qed.

(** The uptime counter wraps: a token refused as expired one millisecond after
    its 15 minutes is accepted again 2^32 ms after it was issued. *)
Lemma expired_token_revives s t0 a r da dr u p role s' toks :
  Inv s -> valid_credentials s u p role -> token_draw a r da dr -> digest_fresh s u da ->
  Login true true t0 (Some (a, r)) s (Some u) (Some p) = (s', AUTH_SERVICE_STATUS_OK, Some toks) ->
  (AuthService_Authorize sha256 true (u32 (t0 + 900001)) s' (Some (accessToken toks))).1
    = AUTH_SERVICE_STATUS_INVALID_PASSWORD
  /\ (AuthService_Authorize sha256 true (u32 (t0 + 4294967296)) s' (Some (accessToken toks))).1
    = AUTH_SERVICE_STATUS_OK.
Proof.
  intros Hi Hv Hd Hf E. split.
  - destruct (login_token _ _ _ _ _ _ _ _ _ _ _ (u32 (t0 + 900001)) Hi Hv Hd Hf E) as (nm & _ & ->).
    unfold u32. by rewrite Zminus_mod_idemp_l, Z.add_simpl_l.
  - destruct (login_token _ _ _ _ _ _ _ _ _ _ _ (u32 (t0 + 4294967296)) Hi Hv Hd Hf E)
      as (nm & _ & ->).
    unfold u32. by rewrite Zminus_mod_idemp_l, Z.add_simpl_l.
Qed.
End invariant.

(** ** Concrete instances: the Flash-backed store with toy primitives *)

Definition demo_pbkdf2 (p s : bytes) (n : Z) : option bytes := Some (map u8 (take 32 (p ++ zeros 32))).
Definition demo_sha256 (x : bytes) : option bytes := Some x.
Definition demo_verifier : bytes := map u8 (take 32 (str "master-secret" ++ zeros 32)).

Lemma demo_pbkdf2_size p s n v :
  demo_pbkdf2 p s n = Some v -> length v = USER_STORE_VERIFIER_SIZE /\ Forall is_u8 v.
Proof.
  intros [= <-]. split.
  - rewrite length_map, length_take, length_app, length_zeros. unfold USER_STORE_VERIFIER_SIZE. lia.
  - apply Forall_forall. intros x (y & <- & _)%in_map_iff. apply u8_range.
Qed.

Definition demo_state : state (store UserStore.UserStore_SnapshotTypeDef simflash) :=
  State (replicate AUTH_SERVICE_SESSION_COUNT zero_session) UserStore.demo0.

Lemma demo_state_inv : Inv demo_state.
Proof.
  assert (UserStore.accounts (snapshot UserStore.demo0) = ∅) as E by (vm_compute; reflexivity).
  split.
  - exact UserStore.usr_demo0_inv.
  - intros k r Hk. cbn [acc_map store_accounts demo_state accounts_store] in Hk. by rewrite E in Hk.
  - reflexivity.
  - intros i j x y Hi _ Ax. apply lookup_replicate in Hi as [-> _]. discriminate Ax.
  - intros i x Hi Ax. apply lookup_replicate in Hi as [-> _]. discriminate Ax.
Qed.

Definition demo_random (n : Z) : bytes := n :: zeros 31.

Definition master_login : op :=
  OpLogin true true 5 (Some (demo_random 1, demo_random 2)) (Some (str "master"))
    (Some (str "master-secret")).

(** The master user logs in and creates an account, which logs in. *)
Definition demo_history : list op :=
  [master_login;
   OpPut true (Some (zeros 16)) (Some (Principal (str "master") USER_ROLE_ADMINISTRATOR))
     (Some (str "alice")) (Some (str "correct horse")) USER_ROLE_USER 1 0;
   OpLogin true true 7 (Some (demo_random 3, demo_random 4)) (Some (str "alice"))
     (Some (str "correct horse"))].

Abbreviation demo_runs := (runs demo_pbkdf2 demo_sha256 (zeros 16) demo_verifier 100000 demo_state).

Lemma demo_history_outcome :
  exists nm, cstr nm = str "alice" /\
  AuthService_Authorize demo_sha256 true 8 (demo_runs demo_history)
    (Some (authService_Hex (demo_random 3))) =
    (AUTH_SERVICE_STATUS_OK, Some (Principal nm USER_ROLE_USER)).
Proof. eexists. split; [|vm_compute; reflexivity]. vm_compute. reflexivity. Qed.

Lemma auth_sound_witness :
  entitled (acc_map (accounts_store (demo_runs demo_history))) (str "alice") USER_ROLE_USER.
Proof.
  destruct demo_history_outcome as (nm & Hn & E).
  rewrite <-Hn. refine (auth_sound demo_pbkdf2 demo_sha256 (zeros 16) demo_verifier 100000
    demo_pbkdf2_size demo_state demo_history true 8 _ _ demo_state_inv _ E).
  constructor; [exact I|]. constructor; [|constructor; [exact I|constructor]].
  split; [reflexivity|]. split; [apply zeros_bytes|apply str_bytes].
Defined.

Lemma demo_valid :
  valid_credentials demo_pbkdf2 (zeros 16) demo_verifier 100000 demo_state (str "master")
    (str "master-secret") USER_ROLE_ADMINISTRATOR.
Proof.
  left. split; [reflexivity|]. split; [reflexivity|]. split; [|reflexivity].
  vm_compute. lia.
Qed.

Lemma demo_draw :
  token_draw demo_sha256 (demo_random 1) (demo_random 2)
    (authService_Hex (demo_random 1)) (authService_Hex (demo_random 2)).
Proof.
  assert (forall n, is_u8 n -> Forall is_u8 (demo_random n)) as Hb
    by (intros n Hn; constructor; [exact Hn|apply zeros_bytes]).
  split_and!; try reflexivity; apply Hb; unfold is_u8; lia.
Qed.

Lemma demo_fresh d : digest_fresh demo_state (str "master") d.
Proof. intros j y Hj Ay. apply lookup_replicate in Hj as [-> _]. discriminate Ay. Qed.

Abbreviation demo_login := (AuthService_Login demo_pbkdf2 demo_sha256 (zeros 16) demo_verifier 100000
  true true 5 (Some (demo_random 1, demo_random 2)) demo_state (Some (str "master"))
  (Some (str "master-secret"))).

Lemma login_token_lifetime_witness :
  exists s' toks nm, demo_login = (s', AUTH_SERVICE_STATUS_OK, Some toks)
    /\ AuthService_Authorize demo_sha256 true (u32 (5 + 1000)) s' (Some (accessToken toks))
       = (AUTH_SERVICE_STATUS_OK, Some (Principal nm USER_ROLE_ADMINISTRATOR)).
Proof.
  destruct (login_token_lifetime demo_pbkdf2 demo_sha256 (zeros 16) demo_verifier 100000
    demo_state 5 _ _ _ _ _ _ _ demo_state_inv demo_valid demo_draw (demo_fresh _))
    as (s' & toks & E & _ & Ha).
  destruct (Ha 1000) as (nm & _ & En). exists s', toks, nm. split; [exact E|exact En].
Defined.

Lemma login_refused_witness :
  exists st, st <> AUTH_SERVICE_STATUS_OK
    /\ AuthService_Login demo_pbkdf2 demo_sha256 (zeros 16) demo_verifier 100000 true true 5
         (Some (demo_random 1, demo_random 2)) demo_state (Some (str "bob")) (Some (str "guess"))
       = (demo_state, st, None).
Proof.
  apply (login_refused demo_pbkdf2 demo_sha256 (zeros 16) demo_verifier 100000 demo_state true true 5
    (Some (demo_random 1, demo_random 2)) (str "bob") (str "guess") demo_state_inv).
  intros role [(E & _)|(_ & r & E & _)]; [discriminate E|].
  assert (acc_map (accounts_store demo_state) !! cstr (str "bob") = None) as N
    by (vm_compute; reflexivity).
  congruence.
Defined.

Lemma expired_token_revives_witness :
  exists s' toks, demo_login = (s', AUTH_SERVICE_STATUS_OK, Some toks)
    /\ (AuthService_Authorize demo_sha256 true (u32 (5 + 4294967296)) s' (Some (accessToken toks))).1
       = AUTH_SERVICE_STATUS_OK.
Proof.
  destruct (login_issues demo_pbkdf2 demo_sha256 (zeros 16) demo_verifier 100000 demo_state 5
    _ _ _ _ _ _ _ demo_state_inv demo_valid demo_draw) as (i & _ & E).
  eexists _, _. split; [exact E|].
  apply (expired_token_revives demo_pbkdf2 demo_sha256 (zeros 16) demo_verifier 100000 demo_state 5
    _ _ _ _ _ _ _ _ _ demo_state_inv demo_valid demo_draw (demo_fresh _) E).
Defined.

(** The state after the master login, and a revocation of its token. *)
Definition demo_logged := demo_runs [master_login].

Lemma demo_logged_inv : Inv demo_logged.
Proof.
  apply (runs_inv demo_pbkdf2 demo_sha256 (zeros 16) demo_verifier 100000 demo_pbkdf2_size);
    [exact demo_state_inv|]. repeat constructor.
Qed.

Lemma demo_revoke_outcome :
  (run demo_pbkdf2 demo_sha256 (zeros 16) demo_verifier 100000 demo_logged
    (OpRevoke true true 6 (Some (authService_Hex (demo_random 1))))).2 = AUTH_SERVICE_STATUS_OK.
Proof. vm_compute. reflexivity. Qed.

Lemma demo_logged_owner j y :
  sessions demo_logged !! j = Some y -> is_active y = true -> s_name y = cstr (str "master").
Proof.
  assert (forallb (fun y => negb (is_active y) || bool_decide (s_name y = cstr (str "master")))
    (sessions demo_logged) = true) as H by (vm_compute; reflexivity).
  rewrite forallb_forall in H. intros Hj Ay.
  assert (In y (sessions demo_logged)) as Hin by (by apply list_elem_of_In, (list_elem_of_lookup_2 _ j)).
  specialize (H y Hin). rewrite Ay in H. by apply bool_decide_eq_true in H.
Qed.

Lemma token_revoked_witness :
  AuthService_Authorize demo_sha256 true 7
    (run demo_pbkdf2 demo_sha256 (zeros 16) demo_verifier 100000 demo_logged
       (OpRevoke true true 6 (Some (authService_Hex (demo_random 1))))).1
    (Some (authService_Hex (demo_random 1)))
  = (AUTH_SERVICE_STATUS_INVALID_PASSWORD, None).
Proof.
  apply (token_revoked demo_pbkdf2 demo_sha256 (zeros 16) demo_verifier 100000 demo_logged _
    (str "master") _ (authService_Hex (demo_random 1)) 7 demo_logged_inv).
  - vm_compute. reflexivity.
  - vm_compute. reflexivity.
  - intros j y Hj Ay _. exact (demo_logged_owner j y Hj Ay).
  - reflexivity.
  - exact demo_revoke_outcome.
Defined.
