(* ===== verification/Spi.v ===== *)
(** [Periph/Src/spi.c]: the polled SPI1 byte transfer.

    [SpiDevice] is what hangs on the bus: it is selected, exchanges one byte for
    another, and is deselected.  The peripheral is its data register and the
    sequence of values the status register will read as; an exhausted sequence
    reads as ready.  The file shows that, whatever the status register does, a
    transfer returns, that success means exactly the requested bytes were
    exchanged, and that a failure has exchanged a prefix of them. *)
From S2P Require Import Prelude.

(** [Spi_StatusTypeDef] *)
Inductive Spi_StatusTypeDef :=
  | SPI_STATUS_OK
  | SPI_STATUS_INVALID_ARGUMENT
  | SPI_STATUS_TIMEOUT.

#[global] Instance Spi_Status_eq_dec : EqDecision Spi_StatusTypeDef.
Proof. solve_decision. Defined.

Definition SPI1_WAIT_LOOPS : nat := Z.to_nat 1000000.
(** Bits of the status register. *)
Definition SPI_SR_RXNE : Z := 0x01.
Definition SPI_SR_TXE : Z := 0x02.
Definition SPI_SR_BSY : Z := 0x80.

Class SpiDevice (D : Type) := {
  dev_select : D -> D;
  dev_deselect : D -> D;
  dev_exchange : D -> Z -> D * Z;
}.

(** What the device does with, and answers to, a sequence of bytes. *)
Fixpoint clock {D} `{SpiDevice D} (d : D) (bs : bytes) : D * bytes :=
  match bs with
  | [] => (d, [])
  | b :: bs =>
      let '(d1, o) := dev_exchange d b in
      let '(d2, os) := clock d1 bs in (d2, o :: os)
  end.

Record spi (D : Type) := Spi { device : D; data_register : Z; status_reads : list Z }.
Arguments Spi {D}.
Arguments device {D}.
Arguments data_register {D}.
Arguments status_reads {D}.

Section transfer.
Context {D : Type} `{SpiDevice D}.

Definition with_device (s : spi D) (d : D) : spi D := Spi d (data_register s) (status_reads s).

(** One read of [SPI1->SR]. *)
Definition read_sr (s : spi D) : spi D * Z :=
  match status_reads s with
  | [] => (s, Z.lor SPI_SR_TXE SPI_SR_RXNE)
  | v :: l => (Spi (device s) (data_register s) l, v)
  end.

(** Writing the data register shifts one byte out and one in. *)
Definition write_dr (s : spi D) (b : Z) : spi D :=
  let '(d, o) := dev_exchange (device s) b in Spi d o (status_reads s).

(** [remaining] is the loop budget, [SPI1_WAIT_LOOPS] at the call. *)
Fixpoint spi1_WaitForFlag_loop (remaining : nat) (s : spi D) (mask : Z) (mustBeSet : bool) :
    spi D * Spi_StatusTypeDef :=
  match remaining with
  | O => (s, SPI_STATUS_TIMEOUT)
  | S r =>
      let '(s, v) := read_sr s in
      if Bool.eqb (negb (Z.land v mask =? 0)) mustBeSet then (s, SPI_STATUS_OK)
      else spi1_WaitForFlag_loop r s mask mustBeSet
  end.

Definition spi1_WaitForFlag := spi1_WaitForFlag_loop SPI1_WAIT_LOOPS.

(** The byte loop of [Spi1_Transfer]; the bytes received so far come with the
    status. *)
Fixpoint spi1_exchange (s : spi D) (tx : bytes) : spi D * Spi_StatusTypeDef * bytes :=
  match tx with
  | [] => (spi1_WaitForFlag s SPI_SR_BSY false, [])
  | b :: tx =>
      let '(s, st) := spi1_WaitForFlag s SPI_SR_TXE true in
      match st with
      | SPI_STATUS_OK =>
          let '(s, st) := spi1_WaitForFlag (write_dr s b) SPI_SR_RXNE true in
          match st with
          | SPI_STATUS_OK =>
              let received := data_register s in
              let '(s, st, rx) := spi1_exchange s tx in (s, st, received :: rx)
          | _ => (s, SPI_STATUS_TIMEOUT, [])
          end
      | _ => (s, SPI_STATUS_TIMEOUT, [])
      end
  end.

(** [None] is a [NULL] source, for which 0xFF is sent. *)
Definition Spi1_Transfer (s : spi D) (transmitData : option bytes) (length : nat) :
    spi D * Spi_StatusTypeDef * bytes :=
  if (length =? 0)%nat then (s, SPI_STATUS_INVALID_ARGUMENT, []) else
  spi1_exchange s (match transmitData with
                   | Some t => take length t | None => replicate length 0xFF end).

(** ** Lemmas *)

Lemma read_sr_device s : device (read_sr s).1 = device s /\ data_register (read_sr s).1 = data_register s.
Proof. unfold read_sr. by destruct (status_reads s). Qed.

(** Waiting only consumes reads of the status register. *)
Lemma wait_loop_device r s mask b s' st :
  spi1_WaitForFlag_loop r s mask b = (s', st) ->
  device s' = device s /\ data_register s' = data_register s.
Proof.
  revert s. induction r as [|r IH]; intros s E; cbn [spi1_WaitForFlag_loop] in E.
  - by injection E as <- <-.
  - destruct (read_sr_device s) as [Hd Hr]. destruct (read_sr s) as [s1 v]. cbn [fst] in *.
    destruct (Bool.eqb _ _); [injection E as <- <-; done|].
    destruct (IH _ E) as [-> ->]. done.
Qed.

Lemma wait_device s mask b s' st :
  spi1_WaitForFlag s mask b = (s', st) ->
  device s' = device s /\ data_register s' = data_register s.
Proof. apply wait_loop_device. Qed.

Lemma wait_status s mask b s' st :
  spi1_WaitForFlag s mask b = (s', st) -> st = SPI_STATUS_OK \/ st = SPI_STATUS_TIMEOUT.
Proof.
  unfold spi1_WaitForFlag. generalize SPI1_WAIT_LOOPS. intros r. revert s.
  induction r as [|r IH]; intros s E; cbn [spi1_WaitForFlag_loop] in E.
  - injection E as <- <-. by right.
  - destruct (read_sr s) as [s1 v].
    destruct (Bool.eqb _ _); [injection E as <- <-; by left|by eapply IH].
Qed.

(** A peripheral that is ready never makes the driver wait. *)
Lemma wait_ready s mask b :
  status_reads s = [] ->
  Bool.eqb (negb (Z.land (Z.lor SPI_SR_TXE SPI_SR_RXNE) mask =? 0)) b = true ->
  spi1_WaitForFlag s mask b = (s, SPI_STATUS_OK).
Proof.
  intros Hs Hb. unfold spi1_WaitForFlag.
  assert (exists r, SPI1_WAIT_LOOPS = S r) as [r ->].
  { exists (Z.to_nat 999999). unfold SPI1_WAIT_LOOPS. lia. }
  cbn [spi1_WaitForFlag_loop]. unfold read_sr. rewrite Hs. cbv iota beta. by rewrite Hb.
Qed.

Lemma clock_app d bs1 bs2 :
  clock d (bs1 ++ bs2) =
    ((clock (clock d bs1).1 bs2).1, (clock d bs1).2 ++ (clock (clock d bs1).1 bs2).2).
Proof.
  revert d. induction bs1 as [|b bs IH]; intros d; cbn [clock app].
  - cbn. by destruct (clock d bs2).
  - destruct (dev_exchange d b) as [d1 o]. rewrite IH.
    destruct (clock d1 bs) as [d2 os]. reflexivity.
Qed.

Lemma length_clock d bs : length (clock d bs).2 = length bs.
Proof.
  revert d. induction bs as [|b bs IH]; intros d; cbn [clock]; [done|].
  destruct (dev_exchange d b) as [d1 o]. specialize (IH d1).
  destruct (clock d1 bs) as [d2 os]. cbn in *. lia.
Qed.

(** Whatever the status register reads as, the bytes are exchanged in order:
    all of them on success, a prefix on failure. *)
Lemma exchange_spec s tx s' st rx :
  spi1_exchange s tx = (s', st, rx) ->
  (st = SPI_STATUS_OK /\ (device s', rx) = clock (device s) tx)
  \/ (st = SPI_STATUS_TIMEOUT /\ exists k, (length rx <= k <= length tx)%nat
        /\ device s' = (clock (device s) (take k tx)).1
        /\ rx `prefix_of` (clock (device s) (take k tx)).2).
Proof.
  revert s s' st rx. induction tx as [|b tx IH]; intros s s' st rx E; cbn [spi1_exchange] in E.
  - destruct (spi1_WaitForFlag s SPI_SR_BSY false) as [s1 st1] eqn:E1. injection E as <- <- <-.
    destruct (wait_device _ _ _ _ _ E1) as [Hd _].
    destruct (wait_status _ _ _ _ _ E1) as [->| ->]; [left; cbn; by rewrite Hd|right].
    split; [done|]. exists 0%nat. cbn. split; [lia|]. by split.
  - destruct (spi1_WaitForFlag s SPI_SR_TXE true) as [s1 st1] eqn:E1.
    destruct (wait_device _ _ _ _ _ E1) as [Hd1 _].
    destruct st1.
    2,3: injection E as <- <- <-; right; split; [done|]; exists 0%nat; cbn;
      split; [lia|]; split; [done|]; apply prefix_nil.
    destruct (spi1_WaitForFlag (write_dr s1 b) SPI_SR_RXNE true) as [s2 st2] eqn:E2.
    destruct (wait_device _ _ _ _ _ E2) as [Hd2 Hr2]. unfold write_dr in Hd2, Hr2.
    rewrite Hd1 in Hd2, Hr2. destruct (dev_exchange (device s) b) as [d o] eqn:Ex.
    cbn [device data_register] in Hd2, Hr2.
    destruct st2.
    2,3: injection E as <- <- <-; right; split; [done|]; exists 1%nat; cbn [take clock length];
      rewrite Ex; cbn [take clock length fst snd]; split; [lia|]; split; [done|]; apply prefix_nil.
    destruct (spi1_exchange s2 tx) as [[s3 st3] rx3] eqn:E3. injection E as <- <- <-.
    rewrite Hr2. destruct (IH _ _ _ _ E3) as [[-> Hc]|[-> (k & Hk & Hdk & Hp)]].
    + left. split; [done|]. cbn [clock]. rewrite Ex, <-Hd2, <-Hc. done.
    + right. split; [done|]. exists (S k). cbn [length take clock]. rewrite Ex.
      rewrite Hd2 in Hdk, Hp. destruct (clock d (take k tx)) as [d' os]. cbn [fst snd] in *.
      split; [lia|]. split; [done|]. by apply prefix_cons.
Qed.

Lemma exchange_ready s tx s' st rx :
  status_reads s = [] -> spi1_exchange s tx = (s', st, rx) ->
  st = SPI_STATUS_OK /\ status_reads s' = [].
Proof.
  revert s s' st rx. induction tx as [|b tx IH]; intros s s' st rx Hs E; cbn [spi1_exchange] in E.
  - rewrite wait_ready in E by done. by injection E as <- <- <-.
  - rewrite wait_ready in E by done.
    assert (status_reads (write_dr s b) = []) as Hw
      by (unfold write_dr; by destruct (dev_exchange _ _)).
    rewrite wait_ready in E by done. destruct (spi1_exchange _ tx) as [[s3 st3] rx3] eqn:E3.
    injection E as <- <- <-. by eapply IH.
Qed.
End transfer.

Section theorems.
Context {D : Type} `{SpiDevice D}.

(** The bytes [Spi1_Transfer] sends. *)
Definition sent (t : option bytes) (n : nat) : bytes :=
  match t with Some t => take n t | None => replicate n 0xFF end.

(** A transfer always returns within its polling budgets, whatever the
    status register reads as; success means exactly the requested bytes were
    exchanged with the device, in order, and all answers were stored; a
    timeout means a prefix of them was, and what was stored is what the device
    answered. *)
Lemma spi_transfer_prefix (s : spi D) t n s' st rx :
  n <> O -> Spi1_Transfer s t n = (s', st, rx) ->
  (st = SPI_STATUS_OK /\ (device s', rx) = clock (device s) (sent t n))
  \/ (st = SPI_STATUS_TIMEOUT /\ exists k, (length rx <= k <= length (sent t n))%nat
        /\ device s' = (clock (device s) (take k (sent t n))).1
        /\ rx `prefix_of` (clock (device s) (take k (sent t n))).2).
Proof.
  intros Hn E. unfold Spi1_Transfer in E. rewrite (proj2 (Nat.eqb_neq _ _) Hn) in E.
  by apply exchange_spec in E.
Qed.
End theorems.

(** A device that answers with the byte it was sent before, and a status
    register that is slow once and then ready. *)
#[local] Instance echo : SpiDevice Z := {|
  dev_select d := d; dev_deselect d := d; dev_exchange d b := (b, d) |}.

Lemma spi_transfer_prefix_witness :
  exists s', Spi1_Transfer (Spi 7 0 [0; SPI_SR_TXE]) (Some [1; 2; 3]) 2 = (s', SPI_STATUS_OK, [7; 1])
    /\ device s' = 2.
Proof.
  destruct (Spi1_Transfer (Spi 7 0 [0; SPI_SR_TXE]) (Some [1; 2; 3]) 2) as [[s' st] rx] eqn:E.
  assert ((let '(_, st, rx) := Spi1_Transfer (Spi 7 0 [0; SPI_SR_TXE]) (Some [1; 2; 3]) 2 in (st, rx))
    = (SPI_STATUS_OK, [7; 1])) as H by (vm_compute; reflexivity).
  rewrite E in H. injection H as -> ->.
  destruct (spi_transfer_prefix _ _ _ _ _ _ (Nat.neq_succ_0 1) E) as [[_ Hc]|[Hc _]];
    [|discriminate Hc].
  exists s'. split; [reflexivity|]. injection Hc as Hd. exact Hd.
Defined.
