(* ===== verification/W25q64.v ===== *)
(** [Periph/Src/w25q64.c]: the driver of the W25Q64 NOR Flash on SPI1.

    The chip is a parameter: [Chip] states the parts of its data sheet the
    driver relies on (commands take effect when the chip is deselected, erase
    and page program need the write-enable latch and an idle chip, the status
    byte shows when it is idle again).  The driver is modelled down to the SPI
    transfers of [Spi.v], with the status register and the mutex free to fail
    at any point.  The file proves what the operations of the driver promise
    when they are called while the chip is not busy, and that a successful call
    leaves it so; from that it derives the promise [FlashLaws] the stores are
    built on, in an environment that lets the chip finish its job between a
    call that failed and the next one ([settle]); [busy_erase_reports_ok] shows
    why that assumption is needed. *)
From S2P Require Import Prelude NorFlash SimFlash Spi.

Definition W25Q64_COMMAND_JEDEC_ID : Z := 0x9F.
Definition W25Q64_COMMAND_READ : Z := 0x03.
Definition W25Q64_COMMAND_WRITE_ENABLE : Z := 0x06.
Definition W25Q64_COMMAND_STATUS : Z := 0x05.
Definition W25Q64_COMMAND_PAGE_PROGRAM : Z := 0x02.
Definition W25Q64_COMMAND_SECTOR_ERASE : Z := 0x20.
Definition W25Q64_STATUS_BUSY : Z := 0x01.
Definition W25Q64_PROGRAM_TIMEOUT_MS : nat := 100.
Definition W25Q64_ERASE_TIMEOUT_MS : nat := 2000.

(** ** The driver *)

(** SPI1 with the chip on it, whether the mutex exists, and the outcomes of
    the next [xSemaphoreTake] calls (an exhausted list: obtained). *)
Record driver (D : Type) := Driver { bus : spi D; created : bool; takes : list bool }.
Arguments Driver {D}.
Arguments bus {D}.
Arguments created {D}.
Arguments takes {D}.

Section driver.
Context {D : Type} `{SpiDevice D}.

Definition w25q64_Select (b : spi D) : spi D := with_device b (dev_select (device b)).
Definition w25q64_Deselect (b : spi D) : spi D := with_device b (dev_deselect (device b)).

(** The received bytes come with the status. *)
Definition w25q64_Command (b : spi D) (command : bytes) (receiveLength : nat) :
    spi D * W25Q64_StatusTypeDef * bytes :=
  let '(b, spiStatus, _) := Spi1_Transfer (w25q64_Select b) (Some command) (length command) in
  let '(b, spiStatus, receive) :=
    if bool_decide (spiStatus = SPI_STATUS_OK) && negb (receiveLength =? 0)%nat
    then Spi1_Transfer b None receiveLength else (b, spiStatus, []) in
  (w25q64_Deselect b,
   match spiStatus with
   | SPI_STATUS_OK => W25Q64_STATUS_OK
   | SPI_STATUS_TIMEOUT => W25Q64_STATUS_TIMEOUT
   | SPI_STATUS_INVALID_ARGUMENT => W25Q64_STATUS_IO_ERROR
   end, receive).

Definition w25q64_WriteEnable (b : spi D) : spi D * W25Q64_StatusTypeDef :=
  let '(b, status, _) := w25q64_Command b [W25Q64_COMMAND_WRITE_ENABLE] 0 in (b, status).

(** [polls] is the number of polls left, [timeoutMs] at the call. The delay
    between two polls only lets time pass. *)
Fixpoint w25q64_WaitReady (b : spi D) (polls : nat) : spi D * W25Q64_StatusTypeDef :=
  match polls with
  | O => (b, W25Q64_STATUS_TIMEOUT)
  | S polls =>
      let '(b, st, rx) := w25q64_Command b [W25Q64_COMMAND_STATUS] 1 in
      if negb (flash_ok st) then (b, W25Q64_STATUS_IO_ERROR) else
      if Z.land (nth 0 rx 0) W25Q64_STATUS_BUSY =? 0 then (b, W25Q64_STATUS_OK)
      else w25q64_WaitReady b polls
  end.

(** A command byte and a 24-bit address. *)
Definition address_command (command address : Z) : bytes :=
  [command; u8 (Z.shiftr address 16); u8 (Z.shiftr address 8); u8 address].

Definition w25q64_EraseSectorUnlocked (b : spi D) (address : Z) : spi D * W25Q64_StatusTypeDef :=
  let '(b, status) := w25q64_WriteEnable b in
  if negb (flash_ok status) then (b, status) else
  let '(b, status, _) := w25q64_Command b (address_command W25Q64_COMMAND_SECTOR_ERASE address) 0 in
  if negb (flash_ok status) then (b, status) else
  w25q64_WaitReady b W25Q64_ERASE_TIMEOUT_MS.

(** [flashMutex == NULL || xSemaphoreTake(...) != pdTRUE], negated. *)
Definition take_mutex (f : driver D) : driver D * bool :=
  if created f
  then (Driver (bus f) true (tail (takes f)), match head (takes f) with Some t => t | None => true end)
  else (f, false).

Definition with_bus (f : driver D) (b : spi D) : driver D := Driver b (created f) (takes f).

(** [buffer] is the destination before the call; [None] a [NULL] one. *)
Definition Read (f : driver D) (address : Z) (buffer : option bytes) :
    driver D * W25Q64_StatusTypeDef * bytes :=
  match buffer with
  | None => (f, W25Q64_STATUS_INVALID_ARGUMENT, [])
  | Some data =>
      let len := length data in
      if negb (w25q64_IsRangeValid address (Z.of_nat len))
      then (f, W25Q64_STATUS_INVALID_ARGUMENT, data) else
      let '(f, taken) := take_mutex f in
      if negb taken then (f, W25Q64_STATUS_IO_ERROR, data) else
      let '(b, status, rx) :=
        w25q64_Command (bus f) (address_command W25Q64_COMMAND_READ address) len in
      (with_bus f b, status, rx ++ drop (length rx) data)
  end.

Definition EraseSector (f : driver D) (address : Z) : driver D * W25Q64_StatusTypeDef :=
  if negb (sector_valid address) then (f, W25Q64_STATUS_INVALID_ARGUMENT) else
  let '(f, taken) := take_mutex f in
  if negb taken then (f, W25Q64_STATUS_IO_ERROR) else
  let '(b, status) := w25q64_EraseSectorUnlocked (bus f) address in (with_bus f b, status).

(** The loop of [W25Q64_EraseRange] from [currentAddress] down to
    [firstAddress]; [fuel] bounds the number of sectors. *)
Fixpoint erase_loop (fuel : nat) (b : spi D) (firstAddress currentAddress : Z) :
    spi D * W25Q64_StatusTypeDef :=
  match fuel with
  | O => (b, W25Q64_STATUS_OK)
  | S fuel =>
      let '(b, status) := w25q64_EraseSectorUnlocked b currentAddress in
      if negb (flash_ok status) || (currentAddress =? firstAddress) then (b, status)
      else erase_loop fuel b firstAddress (u32 (currentAddress - W25Q64_SECTOR_SIZE))
  end.

Definition sector_count : nat := Z.to_nat (W25Q64_CAPACITY_BYTES / W25Q64_SECTOR_SIZE).

Definition EraseRange (f : driver D) (address length : Z) : driver D * W25Q64_StatusTypeDef :=
  if negb (erase_range_valid address length) then (f, W25Q64_STATUS_INVALID_ARGUMENT) else
  let '(f, taken) := take_mutex f in
  if negb taken then (f, W25Q64_STATUS_IO_ERROR) else
  let '(b, status) :=
    erase_loop sector_count (bus f) address
      (u32 (address + length - W25Q64_SECTOR_SIZE)) in
  (with_bus f b, status).

(** Programming one chunk, inside one page. *)
Definition program_page (b : spi D) (address : Z) (chunk : bytes) : spi D * W25Q64_StatusTypeDef :=
  let '(b, status) := w25q64_WriteEnable b in
  if negb (flash_ok status) then (b, status) else
  let b := w25q64_Select b in
  let '(b, st1, _) :=
    Spi1_Transfer b (Some (address_command W25Q64_COMMAND_PAGE_PROGRAM address)) 4 in
  let '(b, st2, _) :=
    if bool_decide (st1 = SPI_STATUS_OK) then Spi1_Transfer b (Some chunk) (length chunk)
    else (b, st1, []) in
  let b := w25q64_Deselect b in
  if negb (bool_decide (st2 = SPI_STATUS_OK)) then (b, W25Q64_STATUS_IO_ERROR) else
  w25q64_WaitReady b W25Q64_PROGRAM_TIMEOUT_MS.

(** The loop of [W25Q64_Program]: one chunk per round, up to the end of the
    page. *)
Fixpoint program_loop (fuel : nat) (b : spi D) (address : Z) (source : bytes) :
    spi D * W25Q64_StatusTypeDef :=
  match fuel with
  | O => (b, W25Q64_STATUS_OK)
  | S fuel =>
      if (length source =? 0)%nat then (b, W25Q64_STATUS_OK) else
      let chunk := Nat.min (Z.to_nat (W25Q64_PAGE_SIZE - address mod W25Q64_PAGE_SIZE))
                     (length source) in
      let '(b, status) := program_page b address (take chunk source) in
      if negb (flash_ok status) then (b, status)
      else program_loop fuel b (address + Z.of_nat chunk) (drop chunk source)
  end.

Definition Program (f : driver D) (address : Z) (source : option bytes) :
    driver D * W25Q64_StatusTypeDef :=
  match source with
  | None => (f, W25Q64_STATUS_INVALID_ARGUMENT)
  | Some source =>
      if negb (w25q64_IsRangeValid address (Z.of_nat (length source)))
      then (f, W25Q64_STATUS_INVALID_ARGUMENT) else
      let '(f, taken) := take_mutex f in
      if negb taken then (f, W25Q64_STATUS_IO_ERROR) else
      let '(b, status) := program_loop (S (length source)) (bus f) address source in
      (with_bus f b, status)
  end.

Definition W25Q64_IsAvailable (f : driver D) : driver D * bool :=
  let '(f, taken) := take_mutex f in
  if negb taken then (f, false) else
  let '(b, status, identity_bytes) := w25q64_Command (bus f) [W25Q64_COMMAND_JEDEC_ID] 3 in
  (with_bus f b, flash_ok status && bool_decide (identity_bytes = [0xEF; 0x40; 0x17])).

(** [create] is whether [xSemaphoreCreateMutexStatic] returns a handle. *)
Definition W25Q64_Init (create : bool) (f : driver D) : driver D * W25Q64_StatusTypeDef :=
  let f := if created f then f else Driver (bus f) create (takes f) in
  if negb (created f) then (f, W25Q64_STATUS_IO_ERROR) else
  let '(f, available) := W25Q64_IsAvailable f in
  (f, if available then W25Q64_STATUS_OK else W25Q64_STATUS_UNAVAILABLE).
End driver.

(** ** The chip *)

(** One selection of the chip, clocking [bs] in. *)
Definition txn {D} `{SpiDevice D} (d : D) (bs : bytes) : D := dev_deselect (clock (dev_select d) bs).1.

(** Byte sequences of the driver that an idle chip does not act on: reads,
    write enable, and erase or program commands that were cut short. *)
Definition harmless (bs : bytes) : bool :=
  match bs with
  | [] => true
  | c :: rest =>
      if c =? W25Q64_COMMAND_SECTOR_ERASE then (length rest <? 3)%nat
      else if c =? W25Q64_COMMAND_PAGE_PROGRAM then (length rest <=? 3)%nat
      else (c =? W25Q64_COMMAND_READ) || (c =? W25Q64_COMMAND_STATUS)
           || (c =? W25Q64_COMMAND_WRITE_ENABLE) || (c =? W25Q64_COMMAND_JEDEC_ID)
  end.

(** The array, whether no job is running, the write-enable latch, the chip
    once its job has finished, and the number of status reads that will still
    show it busy. *)
Class Chip (D : Type) `{SpiDevice D} := {
  ch_mem : D -> mem;
  ch_idle : D -> Prop;
  ch_wel : D -> Prop;
  ch_settle : D -> D;
  ch_polls : D -> nat;
}.

Class ChipLaws (D : Type) `{Chip D} := {
  ch_mem_byte : forall d x, is_u8 (ch_mem d x);
  exchange_byte : forall d b, is_u8 (dev_exchange d b).2;
  settle_idle : forall d, ch_idle (ch_settle d);
  idle_settle : forall d, ch_idle d -> mem_eq (ch_mem (ch_settle d)) (ch_mem d);
  harmless_idle : forall d bs, ch_idle d -> harmless bs = true ->
    ch_idle (txn d bs) /\ mem_eq (ch_mem (txn d bs)) (ch_mem d);
  write_enabled : forall d, ch_idle d -> ch_wel (txn d [W25Q64_COMMAND_WRITE_ENABLE]);
  read_data : forall d a pad, ch_idle d -> 0 <= a -> a + Z.of_nat (length pad) <= W25Q64_CAPACITY_BYTES ->
    drop 4 (clock (dev_select d) (address_command W25Q64_COMMAND_READ a ++ pad)).2
    = slice (ch_mem d) a (length pad);
  (** The chip finishes an erase in 400 ms and a page program in 3 ms; polls
      are at least one millisecond apart. *)
  erase_starts : forall d a, ch_idle d -> ch_wel d -> 0 <= a -> sector_valid a = true ->
    let d' := txn d (address_command W25Q64_COMMAND_SECTOR_ERASE a) in
    mem_eq (ch_mem (ch_settle d')) (mem_erase (ch_mem d) a W25Q64_SECTOR_SIZE)
    /\ (ch_polls d' <= 400)%nat;
  (** Data that stays inside one page. *)
  program_starts : forall d a bs, ch_idle d -> ch_wel d -> 0 <= a < W25Q64_CAPACITY_BYTES ->
    bs <> [] -> a mod W25Q64_PAGE_SIZE + Z.of_nat (length bs) <= W25Q64_PAGE_SIZE ->
    let d' := txn d (address_command W25Q64_COMMAND_PAGE_PROGRAM a ++ bs) in
    mem_eq (ch_mem (ch_settle d')) (mem_program (ch_mem d) a (map u8 bs))
    /\ (ch_polls d' <= 3)%nat;
  (** Reading the status, even partly, disturbs nothing. *)
  poll_settle : forall d k pad,
    mem_eq (ch_mem (ch_settle (txn d (take k [W25Q64_COMMAND_STATUS; pad])))) (ch_mem (ch_settle d));
  poll_idle : forall d pad,
    Z.land (nth 1 (clock (dev_select d) [W25Q64_COMMAND_STATUS; pad]).2 0) W25Q64_STATUS_BUSY = 0 ->
    ch_idle (txn d [W25Q64_COMMAND_STATUS; pad]);
  poll_busy : forall d pad,
    Z.land (nth 1 (clock (dev_select d) [W25Q64_COMMAND_STATUS; pad]).2 0) W25Q64_STATUS_BUSY <> 0 ->
    (ch_polls (txn d [W25Q64_COMMAND_STATUS; pad]) < ch_polls d)%nat;
}.

(** ** Transfers under one selection *)

Section transfers.
Context {D : Type} `{SpiDevice D}.

(** A command and an optional second phase. *)
Definition phases (b : spi D) (command : bytes) (t : option bytes) (n : nat) :
    spi D * Spi_StatusTypeDef * bytes :=
  let '(b, st, _) := Spi1_Transfer b (Some command) (length command) in
  if bool_decide (st = SPI_STATUS_OK) && negb (n =? 0)%nat then Spi1_Transfer b t n else (b, st, []).

Lemma phases_spec b command t n b' st rx :
  command <> [] -> length (sent t n) = n -> phases b command t n = (b', st, rx) ->
  (st = SPI_STATUS_OK /\ device b' = (clock (device b) (command ++ sent t n)).1
    /\ rx = drop (length command) (clock (device b) (command ++ sent t n)).2)
  \/ (st = SPI_STATUS_TIMEOUT /\ exists k, (k <= length command + n)%nat
    /\ device b' = (clock (device b) (take k (command ++ sent t n))).1
    /\ (length rx <= n)%nat
    /\ rx `prefix_of` drop (length command) (clock (device b) (take k (command ++ sent t n))).2).
Proof.
  intros Hc Hn E. unfold phases in E.
  destruct (Spi1_Transfer b (Some command) (length command)) as [[b1 st1] rx1] eqn:E1.
  unfold Spi1_Transfer in E1. rewrite take_ge in E1 by lia.
  rewrite (proj2 (Nat.eqb_neq (length command) 0)) in E1 by (by destruct command).
  apply exchange_spec in E1. destruct E1 as [[-> Hd1]|[-> (k & Hk & Hd1 & _)]].
  2: { cbn in E. injection E as <- <- <-. right. split; [done|]. exists k.
       rewrite take_app_le by lia. split; [lia|]. split; [done|]. split; [cbn; lia|apply prefix_nil]. }
  cbn [bool_decide] in E. rewrite bool_decide_true in E by done. cbn [andb] in E.
  destruct (n =? 0)%nat eqn:En; cbn [negb] in E.
  - apply Nat.eqb_eq in En as ->. apply length_zero_iff_nil in Hn. rewrite Hn, app_nil_r.
    injection E as <- <- <-. left. split; [done|]. rewrite <-Hd1. cbn. split; [done|].
    rewrite drop_ge; [done|]. replace rx1 with (clock (device b) command).2 by (by rewrite <-Hd1).
    by rewrite length_clock.
  - unfold Spi1_Transfer in E. rewrite En in E. fold (sent t n) in E. apply exchange_spec in E.
    replace (device b1) with (clock (device b) command).1 in E by (by rewrite <-Hd1).
    destruct E as [[-> Hd]|[-> (k & Hk & Hd & Hp)]]; [left|right]; (split; [done|]).
    + rewrite clock_app, <-Hd. cbn [fst snd]. split; [done|].
      rewrite drop_app_ge, length_clock, Nat.sub_diag; [done|by rewrite length_clock].
    + exists (length command + k)%nat. rewrite Hn in Hk. split; [lia|].
      rewrite take_app_ge by lia. replace (length command + k - length command)%nat with k by lia.
      rewrite clock_app. cbn [fst snd]. split; [done|]. split; [lia|].
      rewrite drop_app_ge, length_clock, Nat.sub_diag; [done|by rewrite length_clock].
Qed.

Lemma phases_ready b command t n b' st rx :
  command <> [] -> status_reads b = [] -> phases b command t n = (b', st, rx) ->
  st = SPI_STATUS_OK /\ status_reads b' = [].
Proof.
  intros Hc Hs E. unfold phases in E.
  destruct (Spi1_Transfer b (Some command) (length command)) as [[b1 st1] rx1] eqn:E1.
  unfold Spi1_Transfer in E1.
  rewrite (proj2 (Nat.eqb_neq (length command) 0)) in E1 by (by destruct command).
  apply exchange_ready in E1 as [-> Hs1]; [|done]. rewrite bool_decide_true in E by done.
  cbn [andb] in E. destruct (n =? 0)%nat eqn:En; cbn [negb] in E; [by injection E as <- <- <-|].
  unfold Spi1_Transfer in E. rewrite En in E. by apply exchange_ready in E.
Qed.

Lemma command_phases b command n :
  w25q64_Command b command n =
    let '(b', st, rx) := phases (w25q64_Select b) command None n in
    (w25q64_Deselect b',
     match st with
     | SPI_STATUS_OK => W25Q64_STATUS_OK
     | SPI_STATUS_TIMEOUT => W25Q64_STATUS_TIMEOUT
     | SPI_STATUS_INVALID_ARGUMENT => W25Q64_STATUS_IO_ERROR
     end, rx).
Proof.
  unfold w25q64_Command, phases. destruct (Spi1_Transfer _ _ _) as [[b1 st1] rx1].
  reflexivity.
Qed.

(** What one command of the driver did to the chip. *)
Lemma command_spec b command n b' st rx :
  command <> [] -> w25q64_Command b command n = (b', st, rx) ->
  (st = W25Q64_STATUS_OK /\ device b' = txn (device b) (command ++ replicate n 255)
    /\ rx = drop (length command) (clock (dev_select (device b)) (command ++ replicate n 255)).2)
  \/ (st <> W25Q64_STATUS_OK /\ (length rx <= n)%nat
      /\ exists k, device b' = txn (device b) (take k (command ++ replicate n 255))
         /\ rx `prefix_of` drop (length command)
              (clock (dev_select (device b)) (take k (command ++ replicate n 255))).2).
Proof.
  intros Hc E. rewrite command_phases in E.
  destruct (phases _ _ _ _) as [[b1 st1] rx1] eqn:Ep.
  apply phases_spec in Ep; [|done|apply length_replicate]. injection E as <- <- <-.
  destruct Ep as [(-> & Hd & Hr)|(-> & k & Hk & Hd & Hl & Hr)]; [left|right].
  - split; [done|]. unfold txn. cbn [w25q64_Deselect device with_device]. by rewrite Hd.
  - split; [done|]. split; [done|]. exists k. unfold txn.
    cbn [w25q64_Deselect device with_device]. by rewrite Hd.
Qed.

Lemma command_ready b command n b' st rx :
  command <> [] -> status_reads b = [] -> w25q64_Command b command n = (b', st, rx) ->
  st = W25Q64_STATUS_OK /\ status_reads b' = [].
Proof.
  intros Hc Hs E. rewrite command_phases in E.
  destruct (phases _ _ _ _) as [[b1 st1] rx1] eqn:Ep.
  apply phases_ready in Ep as [-> Hs1]; [|done|done]. by injection E as <- <- <-.
Qed.
End transfers.

(** ** The driver on the chip *)

Section correctness.
Context {D : Type} `{ChipLaws D}.

(** The array once the running job, if any, has finished. *)
Definition settled (b : spi D) : mem := ch_mem (ch_settle (device b)).
Definition idle (b : spi D) : Prop := ch_idle (device b).

Lemma settled_idle b : idle b -> mem_eq (settled b) (ch_mem (device b)).
Proof. apply idle_settle. Qed.

Lemma cons_ne (x : Z) l : x :: l <> [].
Proof. done. Qed.

Lemma harmless_prefix k bs : harmless bs = true -> harmless (take k bs) = true.
Proof.
  destruct k as [|k]; [done|]. destruct bs as [|c l]; [done|]. cbn [take harmless].
  rewrite length_take. destruct (c =? W25Q64_COMMAND_SECTOR_ERASE); [lia|].
  destruct (c =? W25Q64_COMMAND_PAGE_PROGRAM); [lia|exact (fun h => h)].
Qed.

(** A command the chip does not act on leaves it idle with its contents. *)
Lemma command_harmless b command n b' st rx :
  idle b -> command <> [] -> harmless (command ++ replicate n 255) = true ->
  w25q64_Command b command n = (b', st, rx) ->
  idle b' /\ mem_eq (ch_mem (device b')) (ch_mem (device b)).
Proof.
  intros Hi Hc Hh E. unfold idle.
  destruct (command_spec _ _ _ _ _ _ Hc E) as [(_ & -> & _)|(_ & _ & k & -> & _)];
    apply harmless_idle; try done. by apply harmless_prefix.
Qed.

Lemma write_enable_spec b b' st :
  idle b -> w25q64_WriteEnable b = (b', st) ->
  idle b' /\ mem_eq (ch_mem (device b')) (ch_mem (device b))
  /\ (st = W25Q64_STATUS_OK -> ch_wel (device b')).
Proof.
  intros Hi E. unfold w25q64_WriteEnable in E.
  destruct (w25q64_Command _ _ _) as [[b1 st1] rx] eqn:Ec. injection E as <- <-.
  destruct (command_harmless _ [W25Q64_COMMAND_WRITE_ENABLE] 0 _ _ _ Hi (cons_ne _ _) eq_refl Ec) as [Hi1 Hm].
  split; [done|]. split; [done|]. intros ->.
  destruct (command_spec _ _ _ _ _ _ (cons_ne _ _) Ec) as [(_ & -> & _)|(Hn & _)]; [|done].
  by apply write_enabled.
Qed.

Lemma write_enable_ready b b' st :
  status_reads b = [] -> w25q64_WriteEnable b = (b', st) ->
  st = W25Q64_STATUS_OK /\ status_reads b' = [].
Proof.
  intros Hs E. unfold w25q64_WriteEnable in E.
  destruct (w25q64_Command _ _ _) as [[b1 st1] rx] eqn:Ec. injection E as <- <-.
  exact (command_ready _ _ _ _ _ _ (cons_ne _ _) Hs Ec).
Qed.

(** What one poll of the status register shows. *)
Lemma poll_spec b b' st rx :
  w25q64_Command b [W25Q64_COMMAND_STATUS] 1 = (b', st, rx) ->
  mem_eq (settled b') (settled b)
  /\ (st = W25Q64_STATUS_OK -> Z.land (nth 0 rx 0) W25Q64_STATUS_BUSY = 0 -> idle b')
  /\ (st = W25Q64_STATUS_OK -> Z.land (nth 0 rx 0) W25Q64_STATUS_BUSY <> 0 ->
      (ch_polls (device b') < ch_polls (device b))%nat).
Proof.
  intros E. unfold settled, idle.
  destruct (command_spec _ _ _ _ _ _ (cons_ne _ _) E) as [(-> & -> & ->)|(Hn & _ & k & -> & _)].
  - cbn [app replicate length]. split; [apply (poll_settle (device b) 2)|].
    assert (forall l : bytes, nth 0 (drop 1 l) 0 = nth 1 l 0) as Hnth by (by intros [|x [|y l]]).
    rewrite Hnth. split; intros _; [apply poll_idle|apply poll_busy].
  - split; [apply (poll_settle (device b) k)|]. by split.
Qed.

Lemma wait_ready_spec n b b' st :
  w25q64_WaitReady b n = (b', st) ->
  mem_eq (settled b') (settled b) /\ (st = W25Q64_STATUS_OK -> idle b').
Proof.
  revert b. induction n as [|n IH]; intros b E; cbn [w25q64_WaitReady] in E.
  - injection E as <- <-. by split.
  - destruct (w25q64_Command _ _ _) as [[b1 st1] rx] eqn:Ec.
    destruct (poll_spec _ _ _ _ Ec) as (Hm & Hi & _).
    destruct (flash_ok st1) eqn:Eo; cbn [negb] in E; [|injection E as <- <-; by split].
    apply flash_ok_true in Eo. destruct (_ =? 0) eqn:Ez.
    + apply Z.eqb_eq in Ez. injection E as <- <-. auto.
    + destruct (IH _ E) as [Hm' Hi']. split; [by rewrite Hm'|done].
Qed.

Lemma wait_ready_ready n b b' st :
  status_reads b = [] -> (ch_polls (device b) < n)%nat -> w25q64_WaitReady b n = (b', st) ->
  st = W25Q64_STATUS_OK /\ status_reads b' = [].
Proof.
  revert b. induction n as [|n IH]; intros b Hs Hp E; cbn [w25q64_WaitReady] in E; [lia|].
  destruct (w25q64_Command _ _ _) as [[b1 st1] rx] eqn:Ec.
  destruct (poll_spec _ _ _ _ Ec) as (_ & _ & Hb).
  destruct (command_ready _ _ _ _ _ _ (cons_ne _ _) Hs Ec) as [-> Hs1]. cbn [flash_ok] in E.
  change (flash_ok W25Q64_STATUS_OK) with true in E. cbn [negb] in E.
  destruct (_ =? 0) eqn:Ez; [by injection E as <- <-|]. apply Z.eqb_neq in Ez.
  eapply IH; [done| |exact E]. specialize (Hb eq_refl Ez). lia.
Qed.

(** Commands that were cut short have a prefix that is harmless, or are
    complete. *)
Lemma erase_prefix k a :
  harmless (take k (address_command W25Q64_COMMAND_SECTOR_ERASE a)) = true
  \/ take k (address_command W25Q64_COMMAND_SECTOR_ERASE a)
     = address_command W25Q64_COMMAND_SECTOR_ERASE a.
Proof. do 4 (destruct k as [|k]; [by left|]). right. apply take_ge. cbn. lia. Qed.

(** One sector erase: success has erased the sector and left the chip idle,
    any outcome has touched nothing else. *)
Lemma erase_unlocked_spec b a b' st :
  idle b -> 0 <= a -> sector_valid a = true -> w25q64_EraseSectorUnlocked b a = (b', st) ->
  same_outside (settled b) (settled b') a W25Q64_SECTOR_SIZE
  /\ (st = W25Q64_STATUS_OK ->
      idle b' /\ mem_eq (settled b') (mem_erase (settled b) a W25Q64_SECTOR_SIZE)).
Proof.
  intros Hi Ha Hv E. unfold w25q64_EraseSectorUnlocked in E.
  destruct (w25q64_WriteEnable b) as [b1 st1] eqn:Ew.
  destruct (write_enable_spec _ _ _ Hi Ew) as (Hi1 & Hm1 & Hw).
  assert (mem_eq (settled b1) (settled b)) as Hs1.
  { rewrite (settled_idle _ Hi1), (settled_idle _ Hi). exact Hm1. }
  destruct (flash_ok st1) eqn:Eo; cbn [negb] in E.
  2: { injection E as <- <-. split; [intros x _; apply Hs1|by apply flash_ok_false in Eo]. }
  apply flash_ok_true in Eo. specialize (Hw Eo).
  destruct (w25q64_Command b1 _ 0) as [[b2 st2] rx] eqn:Ec.
  destruct (erase_starts _ _ Hi1 Hw Ha Hv) as [Hdone _].
  assert (forall m, mem_eq m (mem_erase (ch_mem (device b1)) a W25Q64_SECTOR_SIZE) ->
    mem_eq m (mem_erase (settled b) a W25Q64_SECTOR_SIZE)) as Hconv.
  { intros m Hm x. rewrite Hm. unfold mem_erase. destruct (in_range _ _ x); [done|].
    rewrite <-(settled_idle _ Hi1). apply Hs1. }
  assert (forall m, mem_eq m (mem_erase (settled b) a W25Q64_SECTOR_SIZE) ->
    same_outside (settled b) m a W25Q64_SECTOR_SIZE) as Hout.
  { intros m Hm x Hx. rewrite Hm. unfold mem_erase.
    by rewrite (proj2 (in_range_false _ _ _) Hx). }
  destruct (command_spec _ _ _ _ _ _ (cons_ne _ _) Ec) as [(-> & Hd & _)|(Hn & _ & k & Hd & _)].
  - change (flash_ok W25Q64_STATUS_OK) with true in E. cbn [negb] in E.
    destruct (wait_ready_spec _ _ _ _ E) as [Hm Hidle].
    assert (mem_eq (settled b') (mem_erase (settled b) a W25Q64_SECTOR_SIZE)) as Hfin.
    { apply Hconv. rewrite Hm. unfold settled. rewrite Hd, app_nil_r. exact Hdone. }
    split; [by apply Hout|]. intros ->. by split; [apply Hidle|].
  - rewrite (proj2 (flash_ok_false st2) Hn) in E. cbn [negb] in E. injection E as <- <-.
    split; [|done]. cbn [replicate] in Hd. rewrite app_nil_r in Hd.
    destruct (erase_prefix k a) as [Hh|Hfull].
    + destruct (harmless_idle _ _ Hi1 Hh) as [Hi2 Hm2]. intros x _. unfold settled at 1.
      rewrite Hd, (idle_settle _ Hi2), Hm2, <-(settled_idle _ Hi1). apply Hs1.
    + apply Hout, Hconv. unfold settled.
      replace (device b2) with (txn (device b1) (address_command W25Q64_COMMAND_SECTOR_ERASE a))
        by (rewrite Hd; f_equal; exact (eq_sym Hfull)).
      exact Hdone.
Qed.

Lemma erase_unlocked_ready b a b' st :
  idle b -> status_reads b = [] -> 0 <= a -> sector_valid a = true ->
  w25q64_EraseSectorUnlocked b a = (b', st) -> st = W25Q64_STATUS_OK /\ status_reads b' = [].
Proof.
  intros Hi Hs Ha Hv E. unfold w25q64_EraseSectorUnlocked in E.
  destruct (w25q64_WriteEnable b) as [b1 st1] eqn:Ew.
  destruct (write_enable_spec _ _ _ Hi Ew) as (Hi1 & _ & Hw).
  destruct (write_enable_ready _ _ _ Hs Ew) as [-> Hs1]. specialize (Hw eq_refl).
  change (flash_ok W25Q64_STATUS_OK) with true in E. cbn [negb] in E.
  destruct (w25q64_Command b1 _ 0) as [[b2 st2] rx] eqn:Ec.
  destruct (command_ready _ _ _ _ _ _ (cons_ne _ _) Hs1 Ec) as [-> Hs2].
  change (flash_ok W25Q64_STATUS_OK) with true in E. cbn [negb] in E.
  destruct (command_spec _ _ _ _ _ _ (cons_ne _ _) Ec) as [(_ & Hd & _)|(Hn & _)]; [|done].
  eapply wait_ready_ready; [done| |exact E]. rewrite Hd, app_nil_r.
  destruct (erase_starts _ _ Hi1 Hw Ha Hv) as [_ Hp].
  eapply Nat.le_lt_trans; [exact Hp|]. unfold W25Q64_ERASE_TIMEOUT_MS. lia.
Qed.

Lemma program_page_phases b a chunk :
  chunk <> [] ->
  program_page b a chunk =
    let '(b, status) := w25q64_WriteEnable b in
    if negb (flash_ok status) then (b, status) else
    let '(b, st, _) := phases (w25q64_Select b)
                         (address_command W25Q64_COMMAND_PAGE_PROGRAM a) (Some chunk) (length chunk) in
    if negb (bool_decide (st = SPI_STATUS_OK)) then (w25q64_Deselect b, W25Q64_STATUS_IO_ERROR) else
    w25q64_WaitReady (w25q64_Deselect b) W25Q64_PROGRAM_TIMEOUT_MS.
Proof.
  intros Hc. unfold program_page, phases. destruct (w25q64_WriteEnable b) as [b1 st1].
  destruct (negb (flash_ok st1)); [done|].
  change (length (address_command W25Q64_COMMAND_PAGE_PROGRAM a)) with 4%nat.
  destruct (Spi1_Transfer _ _ 4) as [[b2 st2] rx2].
  rewrite (proj2 (Nat.eqb_neq (length chunk) 0)) by (by destruct chunk).
  cbn [negb]. rewrite andb_true_r. reflexivity.
Qed.

Lemma program_bytes_outside m m' a bs n :
  mem_eq m' (mem_program m a bs) -> (length bs <= n)%nat -> same_outside m m' a (Z.of_nat n).
Proof.
  intros Hm Hn x Hx. rewrite Hm. unfold mem_program.
  rewrite (proj2 (in_range_false _ _ _)); [done|lia].
Qed.

Lemma mem_program_eq m m' a bs :
  mem_eq m m' -> mem_eq (mem_program m a bs) (mem_program m' a bs).
Proof. intros Hm x. unfold mem_program. by rewrite Hm. Qed.

(** One page program: success has programmed the chunk, any outcome has
    touched nothing else. *)
Lemma program_page_spec b a chunk b' st :
  idle b -> 0 <= a < W25Q64_CAPACITY_BYTES -> chunk <> [] ->
  a mod W25Q64_PAGE_SIZE + Z.of_nat (length chunk) <= W25Q64_PAGE_SIZE ->
  program_page b a chunk = (b', st) ->
  same_outside (settled b) (settled b') a (Z.of_nat (length chunk))
  /\ (st = W25Q64_STATUS_OK ->
      idle b' /\ mem_eq (settled b') (mem_program (settled b) a (map u8 chunk))).
Proof.
  intros Hi Ha Hc Hp E. rewrite program_page_phases in E by done.
  destruct (w25q64_WriteEnable b) as [b1 st1] eqn:Ew.
  destruct (write_enable_spec _ _ _ Hi Ew) as (Hi1 & Hm1 & Hw).
  assert (mem_eq (ch_mem (device b1)) (settled b)) as Hs1
    by (rewrite (settled_idle _ Hi); exact Hm1).
  assert (mem_eq (settled b1) (settled b)) as Hs1' by (rewrite (settled_idle _ Hi1); exact Hs1).
  destruct (flash_ok st1) eqn:Eo; cbn [negb] in E.
  2: { injection E as <- <-. split; [intros x _; apply Hs1'|by apply flash_ok_false in Eo]. }
  apply flash_ok_true in Eo. specialize (Hw Eo).
  destruct (phases _ _ _ _) as [[b2 st2] rx] eqn:Ep.
  assert (sent (Some chunk) (length chunk) = chunk) as Hsent by (cbn; by apply take_ge).
  apply phases_spec in Ep; [|done|by rewrite Hsent]. rewrite Hsent in Ep.
  change (device (w25q64_Select b1)) with (dev_select (device b1)) in Ep.
  destruct Ep as [(-> & Hd & _)|(-> & k & Hk & Hd & _)].
  - rewrite bool_decide_true in E by done. cbn [negb] in E.
    destruct (wait_ready_spec _ _ _ _ E) as [Hm Hidle].
    destruct (program_starts _ _ _ Hi1 Hw Ha Hc Hp) as [Hdone _].
    assert (mem_eq (settled b') (mem_program (settled b) a (map u8 chunk))) as Hfin.
    { rewrite Hm. unfold settled at 1. cbn [w25q64_Deselect device with_device]. rewrite Hd.
      etransitivity; [exact Hdone|]. by apply mem_program_eq. }
    split; [eapply program_bytes_outside; [exact Hfin|by rewrite length_map]|].
    intros ->. by split; [apply Hidle|].
  - rewrite bool_decide_false in E by done. cbn [negb] in E. injection E as <- <-.
    split; [|done]. unfold settled at 2. cbn [w25q64_Deselect device with_device]. rewrite Hd.
    destruct (le_gt_dec k 4) as [H4|H4].
    + assert (harmless (take k (address_command W25Q64_COMMAND_PAGE_PROGRAM a ++ chunk)) = true) as Hh.
      { rewrite take_app_le by (cbn; lia). do 5 (destruct k as [|k]; [done|]). lia. }
      destruct (harmless_idle _ _ Hi1 Hh) as [Hi2 Hm2]. intros x _.
      change (ch_mem (ch_settle (txn (device b1)
        (take k (address_command W25Q64_COMMAND_PAGE_PROGRAM a ++ chunk)))) x = settled b x).
      rewrite (idle_settle _ Hi2), Hm2. apply Hs1.
    + rewrite take_app_ge by (cbn; lia). set (part := take _ chunk).
      assert (length part <= length chunk)%nat as Hl by (unfold part; rewrite length_take; lia).
      assert (part <> []) as Hne.
      { unfold part. intros Hz%(f_equal length). rewrite length_take in Hz.
        destruct chunk; [done|]. cbn [length address_command] in *. lia. }
      destruct (program_starts _ a part Hi1 Hw Ha Hne ltac:(lia)) as [Hdone _].
      eapply program_bytes_outside; [|by rewrite length_map].
      etransitivity; [exact Hdone|]. by apply mem_program_eq.
Qed.

Lemma program_page_ready b a chunk b' st :
  idle b -> status_reads b = [] -> 0 <= a < W25Q64_CAPACITY_BYTES -> chunk <> [] ->
  a mod W25Q64_PAGE_SIZE + Z.of_nat (length chunk) <= W25Q64_PAGE_SIZE ->
  program_page b a chunk = (b', st) -> st = W25Q64_STATUS_OK /\ status_reads b' = [].
Proof.
  intros Hi Hs Ha Hc Hp E. rewrite program_page_phases in E by done.
  destruct (w25q64_WriteEnable b) as [b1 st1] eqn:Ew.
  destruct (write_enable_spec _ _ _ Hi Ew) as (Hi1 & _ & Hw).
  destruct (write_enable_ready _ _ _ Hs Ew) as [-> Hs1]. specialize (Hw eq_refl).
  change (flash_ok W25Q64_STATUS_OK) with true in E. cbn [negb] in E.
  destruct (phases _ _ _ _) as [[b2 st2] rx] eqn:Ep. pose proof Ep as Ep'.
  assert (sent (Some chunk) (length chunk) = chunk) as Hsent by (cbn; by apply take_ge).
  apply phases_ready in Ep' as [-> Hs2]; [|done|done].
  apply phases_spec in Ep; [|done|by rewrite Hsent]. rewrite Hsent in Ep.
  destruct Ep as [(_ & Hd & _)|(Hn & _)]; [|done].
  rewrite bool_decide_true in E by done. cbn [negb] in E.
  eapply (wait_ready_ready _ (w25q64_Deselect b2)); [exact Hs2| |exact E].
  cbn [w25q64_Deselect device with_device]. rewrite Hd.
  destruct (program_starts _ _ _ Hi1 Hw Ha Hc Hp) as [_ Hpl].
  eapply Nat.le_lt_trans; [exact Hpl|]. unfold W25Q64_PROGRAM_TIMEOUT_MS. lia.
Qed.

Lemma mem_program_app m a bs1 bs2 :
  mem_eq (mem_program (mem_program m a bs1) (a + Z.of_nat (length bs1)) bs2)
         (mem_program m a (bs1 ++ bs2)).
Proof.
  intros x. unfold mem_program. rewrite length_app.
  destruct (in_range (a + _) _ x) eqn:E2; [apply in_range_true in E2|apply in_range_false in E2];
    (destruct (in_range a (Z.of_nat (length bs1)) x) eqn:E1;
      [apply in_range_true in E1|apply in_range_false in E1]); try lia.
  - rewrite (proj2 (in_range_true _ _ _)) by lia. f_equal.
    rewrite app_nth2 by lia. f_equal. lia.
  - rewrite (proj2 (in_range_true _ _ _)) by lia. by rewrite app_nth1 by lia.
  - by rewrite (proj2 (in_range_false _ _ _)) by lia.
Qed.

(** The chunk of one round stays in its page and is not empty. *)
Lemma chunk_fits a (source : bytes) :
  source <> [] ->
  let chunk := Nat.min (Z.to_nat (W25Q64_PAGE_SIZE - a mod W25Q64_PAGE_SIZE)) (length source) in
  (0 < chunk <= length source)%nat
  /\ a mod W25Q64_PAGE_SIZE + Z.of_nat (length (take chunk source)) <= W25Q64_PAGE_SIZE.
Proof.
  intros Hs chunk. rewrite length_take. unfold chunk, W25Q64_PAGE_SIZE.
  pose proof (Z.mod_pos_bound a 256). assert (length source <> 0)%nat by (by destruct source). lia.
Qed.

Lemma program_loop_spec fuel b a source b' st :
  idle b -> 0 <= a -> a + Z.of_nat (length source) <= W25Q64_CAPACITY_BYTES ->
  (length source < fuel)%nat -> program_loop fuel b a source = (b', st) ->
  same_outside (settled b) (settled b') a (Z.of_nat (length source))
  /\ (st = W25Q64_STATUS_OK ->
      idle b' /\ mem_eq (settled b') (mem_program (settled b) a (map u8 source))).
Proof.
  revert b a source. induction fuel as [|fuel IH]; intros b a source Hi Ha Hc Hf E; [lia|].
  cbn [program_loop] in E. destruct source as [|c0 rest].
  { injection E as <- <-. split; [apply same_outside_refl|]. intros _. split; [done|].
    intros x. unfold mem_program. by rewrite (proj2 (in_range_false _ _ _)) by (cbn; lia). }
  set (source := c0 :: rest) in *. change (length source =? 0)%nat with false in E. cbv iota in E.
  destruct (chunk_fits a source (cons_ne _ _)) as [Hlen Hpage].
  set (chunk := Nat.min _ _) in *.
  destruct (program_page b a (take chunk source)) as [b1 st1] eqn:Ep.
  assert (length (take chunk source) = chunk) as Hlt by (rewrite length_take; lia).
  assert (take chunk source <> []) as Hne.
  { intros Hz. rewrite Hz in Hlt. cbn [length] in Hlt. lia. }
  assert (0 <= a < W25Q64_CAPACITY_BYTES) as Ha' by lia.
  destruct (program_page_spec _ _ _ _ _ Hi Ha' Hne Hpage Ep) as [Ho1 Hok1].
  rewrite Hlt in Ho1.
  assert (same_outside (settled b) (settled b1) a (Z.of_nat (length source))) as Ho1'
    by (eapply same_outside_weaken; [exact Ho1|lia|lia]).
  destruct (flash_ok st1) eqn:Eo; cbn [negb] in E.
  2: { injection E as <- <-. split; [exact Ho1'|by apply flash_ok_false in Eo]. }
  apply flash_ok_true in Eo. destruct (Hok1 Eo) as [Hi1 Hm1].
  assert (length (drop chunk source) = length source - chunk)%nat as Hld by apply length_drop.
  destruct (IH b1 (a + Z.of_nat chunk) (drop chunk source) Hi1 ltac:(lia) ltac:(lia) ltac:(lia) E) as [Ho2 Hok2].
  split.
  - eapply same_outside_trans; [exact Ho1'|]. eapply same_outside_weaken; [exact Ho2|lia|lia].
  - intros ->. destruct (Hok2 eq_refl) as [Hi2 Hm2]. split; [exact Hi2|]. rewrite Hm2.
    etransitivity; [apply mem_program_eq, Hm1|].
    replace (a + Z.of_nat chunk) with (a + Z.of_nat (length (map u8 (take chunk source))))
      by (rewrite length_map; lia).
    rewrite mem_program_app. by rewrite <-map_app, take_drop.
Qed.

Lemma program_loop_ready fuel b a source b' st :
  idle b -> status_reads b = [] -> 0 <= a ->
  a + Z.of_nat (length source) <= W25Q64_CAPACITY_BYTES ->
  program_loop fuel b a source = (b', st) -> st = W25Q64_STATUS_OK /\ status_reads b' = [].
Proof.
  revert b a source. induction fuel as [|fuel IH]; intros b a source Hi Hs Ha Hc E;
    cbn [program_loop] in E; [by injection E as <- <-|].
  destruct source as [|c0 rest]; [by injection E as <- <-|].
  set (source := c0 :: rest) in *. change (length source =? 0)%nat with false in E. cbv iota in E.
  destruct (chunk_fits a source (cons_ne _ _)) as [Hlen Hpage].
  set (chunk := Nat.min _ _) in *.
  destruct (program_page b a (take chunk source)) as [b1 st1] eqn:Ep.
  assert (length (take chunk source) = chunk) as Hlt by (rewrite length_take; lia).
  assert (take chunk source <> []) as Hne.
  { intros Hz. rewrite Hz in Hlt. cbn [length] in Hlt. lia. }
  assert (0 <= a < W25Q64_CAPACITY_BYTES) as Ha' by lia.
  destruct (program_page_ready _ _ _ _ _ Hi Hs Ha' Hne Hpage Ep) as [-> Hs1].
  destruct (program_page_spec _ _ _ _ _ Hi Ha' Hne Hpage Ep) as [_ Hok1].
  change (flash_ok W25Q64_STATUS_OK) with true in E. cbn [negb] in E.
  eapply IH; [apply (Hok1 eq_refl)|exact Hs1| | |exact E]; [lia|rewrite length_drop; lia].
Qed.

(** The fuel of the loop: every sector of the device. *)
Lemma sectors_total : Z.of_nat sector_count = 2048.
Proof. unfold sector_count. rewrite Z2Nat.id; [reflexivity|by apply Z.div_pos]. Qed.

(** The loop of [W25Q64_EraseRange] is [erase_down]. *)
Lemma erase_loop_down n fuel b a :
  (S n <= fuel)%nat -> 0 <= a -> a + Z.of_nat (S n) * W25Q64_SECTOR_SIZE <= W25Q64_CAPACITY_BYTES ->
  erase_loop fuel b a (a + Z.of_nat n * W25Q64_SECTOR_SIZE)
  = erase_down w25q64_EraseSectorUnlocked b a (S n).
Proof.
  revert fuel b. induction n as [|n IH]; intros fuel b Hf Ha Hc; (destruct fuel as [|fuel]; [lia|]);
    cbn [erase_loop erase_down];
    destruct (w25q64_EraseSectorUnlocked b _) as [b1 st1]; (destruct (flash_ok st1) eqn:Eo; cbn [negb orb];
      [|done]).
  - apply flash_ok_true in Eo as ->. rewrite (proj2 (Z.eqb_eq _ _)) by flia. reflexivity.
  - rewrite (proj2 (Z.eqb_neq _ _)) by flia.
    replace (u32 (a + Z.of_nat (S n) * W25Q64_SECTOR_SIZE - W25Q64_SECTOR_SIZE))
      with (a + Z.of_nat n * W25Q64_SECTOR_SIZE)
      by (rewrite u32_id; [flia|unfold is_u32; flia]).
    apply IH; [lia|lia|flia].
Qed.

Lemma erase_range_loop b a len n :
  0 <= a -> a + len - W25Q64_SECTOR_SIZE = a + Z.of_nat n * W25Q64_SECTOR_SIZE ->
  a + Z.of_nat (S n) * W25Q64_SECTOR_SIZE <= W25Q64_CAPACITY_BYTES ->
  erase_loop sector_count b a (u32 (a + len - W25Q64_SECTOR_SIZE))
  = erase_down w25q64_EraseSectorUnlocked b a (S n).
Proof.
  intros Ha Hend Hcap. pose proof sectors_total as Ht.
  rewrite Hend, u32_id by (unfold is_u32; flia). apply erase_loop_down; [flia|exact Ha|exact Hcap].
Qed.

Definition sector (a : Z) : Prop := 0 <= a /\ sector_valid a = true.

Lemma erase_down_ready b a n b' st :
  idle b -> status_reads b = [] -> sectors_from sector a n ->
  erase_down w25q64_EraseSectorUnlocked b a n = (b', st) ->
  st = W25Q64_STATUS_OK /\ status_reads b' = [].
Proof.
  revert b. induction n as [|n IH]; intros b Hi Hs Ha E; cbn [erase_down] in E;
    [by injection E as <- <-|].
  destruct (w25q64_EraseSectorUnlocked b _) as [b1 st1] eqn:E1.
  destruct (Ha n (Nat.lt_succ_diag_r n)) as [Hn Hv].
  destruct (erase_unlocked_ready _ _ _ _ Hi Hs Hn Hv E1) as [-> Hs1].
  destruct (erase_unlocked_spec _ _ _ _ Hi Hn Hv E1) as [_ Hok].
  change (flash_ok W25Q64_STATUS_OK) with true in E. cbv iota in E.
  eapply IH; [apply (Hok eq_refl)|exact Hs1| |exact E]. intros i Hlt. apply Ha. lia.
Qed.

Lemma range_sectors_valid a len :
  0 <= a -> 0 <= len -> erase_range_valid a len = true ->
  exists n, Z.to_nat (len / W25Q64_SECTOR_SIZE) = S n
    /\ a + len - W25Q64_SECTOR_SIZE = a + Z.of_nat n * W25Q64_SECTOR_SIZE
    /\ a + Z.of_nat (S n) * W25Q64_SECTOR_SIZE <= W25Q64_CAPACITY_BYTES
    /\ sectors_from sector a (S n).
Proof.
  intros Ha Hl Hv. pose proof (range_sectors a len Hl Hv) as Hr.
  unfold erase_range_valid, w25q64_IsRangeValid in Hv. rewrite !andb_true_iff in Hv.
  destruct Hv as [[[Hz Hm] _] [[_ Hcap] Hend]].
  destruct (Z.to_nat (len / W25Q64_SECTOR_SIZE)) as [|n] eqn:En; [flia|].
  exists n. split; [done|]. split; [flia|]. split; [flia|]. intros i Hi.
  unfold sector, sector_valid. split; [flia|]. apply andb_true_iff. split; [flia|].
  rewrite Z.mod_add by done. exact Hm.
Qed.

(** ** The operations on an idle chip *)

#[local] Opaque w25q64_EraseSectorUnlocked sector_count erase_loop erase_down.

Lemma take_mutex_bus (f : driver D) f' t : take_mutex f = (f', t) -> bus f' = bus f.
Proof. unfold take_mutex. intros E. destruct (created f); by injection E as <- <-. Qed.

Lemma take_mutex_ready (f : driver D) :
  created f = true -> takes f = [] -> take_mutex f = (Driver (bus f) true [], true).
Proof. intros Hc Ht. unfold take_mutex. by rewrite Hc, Ht. Qed.

Lemma clock_bytes (d : D) bs : Forall is_u8 (clock d bs).2.
Proof.
  revert d. induction bs as [|b bs IH]; intros d; cbn [clock]; [constructor|].
  pose proof (exchange_byte d b) as Hb. destruct (dev_exchange d b) as [d1 o]. specialize (IH d1).
  destruct (clock d1 bs) as [d2 os]. by constructor.
Qed.

Lemma prefix_of_bytes (l k : bytes) : l `prefix_of` k -> Forall is_u8 k -> Forall is_u8 l.
Proof. intros [r ->] H'. by apply Forall_app in H' as [? _]. Qed.

Lemma read_command_bytes b a n b' st rx :
  w25q64_Command b (address_command W25Q64_COMMAND_READ a) n = (b', st, rx) ->
  (length rx <= n)%nat /\ Forall is_u8 rx.
Proof.
  intros E. destruct (command_spec _ _ _ _ _ _ (cons_ne _ _) E) as [(_ & _ & ->)|(_ & Hl & k & _ & Hp)].
  - split; [|apply Forall_drop, clock_bytes].
    rewrite length_drop, length_clock, length_app, length_replicate. cbn [length address_command]. lia.
  - split; [done|]. eapply prefix_of_bytes; [exact Hp|]. apply Forall_drop, clock_bytes.
Qed.

Lemma map_u8_id bs : Forall is_u8 bs -> map u8 bs = bs.
Proof. induction 1 as [|b l Hx _ IH]; cbn; [done|]. by rewrite IH, u8_id. Qed.

Lemma read_idle f a data f' s d :
  idle (bus f) -> Forall is_u8 data -> Read f a (Some data) = (f', s, d) ->
  idle (bus f') /\ mem_eq (settled (bus f')) (settled (bus f))
  /\ (length d = length data /\ Forall is_u8 d)
  /\ (0 <= a -> s = W25Q64_STATUS_OK -> d = slice (settled (bus f)) a (length data)).
Proof.
  intros Hi Hz E. unfold Read in E. cbv zeta in E.
  destruct (w25q64_IsRangeValid a (Z.of_nat (length data))) eqn:Ev; cbn [negb] in E;
    [|injection E as <- <- <-; done].
  destruct (take_mutex f) as [f1 t] eqn:Et. pose proof (take_mutex_bus _ _ _ Et) as Hb.
  rewrite <-Hb in *. destruct t; cbn [negb] in E; [|injection E as <- <- <-; done].
  destruct (w25q64_Command _ _ (length data)) as [[b st] rx] eqn:Ec. injection E as <- <- <-.
  cbn [with_bus bus]. destruct (read_command_bytes _ _ _ _ _ _ Ec) as [Hl Hby].
  destruct (command_harmless _ (address_command W25Q64_COMMAND_READ a) (length data) _ _ _
    Hi (cons_ne _ _) eq_refl Ec) as [Hi' Hmem].
  split; [exact Hi'|].
  split; [rewrite (settled_idle _ Hi'), Hmem; symmetry; exact (settled_idle _ Hi)|].
  split.
  { rewrite length_app, length_drop. split; [lia|].
    apply Forall_app. split; [done|]. by apply Forall_drop. }
  intros Ha ->. destruct (command_spec _ _ _ _ _ _ (cons_ne _ _) Ec) as [(_ & _ & Hr)|(Hn & _)]; [|done].
  unfold w25q64_IsRangeValid in Ev. rewrite !andb_true_iff in Ev. destruct Ev as [[_ Hcap] Hend].
  pose proof (read_data (device (bus f1)) a (replicate (length data) 255) Hi Ha) as Hd.
  rewrite length_replicate in Hd. specialize (Hd ltac:(flia)).
  assert (rx = slice (ch_mem (device (bus f1))) a (length data)) as -> by (rewrite Hr; exact Hd).
  rewrite length_slice, drop_ge, app_nil_r by lia.
  apply slice_proper; [|done|done]. symmetry. by apply settled_idle.
Qed.

Lemma erase_idle f a f' s :
  idle (bus f) -> 0 <= a -> EraseSector f a = (f', s) ->
  same_outside (settled (bus f)) (settled (bus f')) a W25Q64_SECTOR_SIZE
  /\ (s = W25Q64_STATUS_OK -> idle (bus f')
      /\ mem_eq (settled (bus f')) (mem_erase (settled (bus f)) a W25Q64_SECTOR_SIZE)).
Proof.
  intros Hi Ha E. unfold EraseSector in E.
  destruct (sector_valid a) eqn:Ev; cbn [negb] in E;
    [|injection E as <- <-; split; [apply same_outside_refl|done]].
  destruct (take_mutex f) as [f1 t] eqn:Et. pose proof (take_mutex_bus _ _ _ Et) as Hb.
  rewrite <-Hb in *.
  destruct t; cbn [negb] in E; [|injection E as <- <-; split; [apply same_outside_refl|done]].
  destruct (w25q64_EraseSectorUnlocked _ _) as [b st] eqn:Ee. injection E as <- <-.
  exact (erase_unlocked_spec _ _ _ _ Hi Ha Ev Ee).
Qed.

Lemma program_any_idle f a bs f' s :
  idle (bus f) -> 0 <= a -> Program f a (Some bs) = (f', s) ->
  same_outside (settled (bus f)) (settled (bus f')) a (Z.of_nat (length bs))
  /\ (s = W25Q64_STATUS_OK -> idle (bus f')
      /\ mem_eq (settled (bus f')) (mem_program (settled (bus f)) a (map u8 bs))).
Proof.
  intros Hi Ha E. unfold Program in E.
  destruct (w25q64_IsRangeValid _ _) eqn:Ev; cbn [negb] in E;
    [|injection E as <- <-; split; [apply same_outside_refl|done]].
  destruct (take_mutex f) as [f1 t] eqn:Et. pose proof (take_mutex_bus _ _ _ Et) as Hbus.
  rewrite <-Hbus in *.
  destruct t; cbn [negb] in E; [|injection E as <- <-; split; [apply same_outside_refl|done]].
  destruct (program_loop _ _ _ _) as [b st] eqn:Ee. injection E as <- <-. cbn [with_bus bus].
  unfold w25q64_IsRangeValid in Ev. rewrite !andb_true_iff in Ev. destruct Ev as [[_ Hcap] Hend].
  exact (program_loop_spec (S (length bs)) (bus f1) a bs b st Hi Ha ltac:(flia) ltac:(lia) Ee).
Qed.

Lemma program_idle f a bs f' s :
  idle (bus f) -> 0 <= a -> Forall is_u8 bs -> Program f a (Some bs) = (f', s) ->
  same_outside (settled (bus f)) (settled (bus f')) a (Z.of_nat (length bs))
  /\ (s = W25Q64_STATUS_OK -> idle (bus f')
      /\ mem_eq (settled (bus f')) (mem_program (settled (bus f)) a bs)).
Proof.
  intros Hi Ha Hb E. pose proof (program_any_idle _ _ _ _ _ Hi Ha E) as Hp.
  by rewrite (map_u8_id bs Hb) in Hp.
Qed.

Lemma erase_range_idle f a len f' s :
  idle (bus f) -> 0 <= a -> 0 <= len -> EraseRange f a len = (f', s) ->
  (s = W25Q64_STATUS_OK -> idle (bus f')
     /\ mem_eq (settled (bus f')) (mem_erase (settled (bus f)) a len))
  /\ (s <> W25Q64_STATUS_OK -> mem_eq (settled (bus f')) (settled (bus f))
      \/ exists c, erased_down_to (settled (bus f)) (settled (bus f')) a len c).
Proof.
  intros Hi Ha Hl E. unfold EraseRange in E.
  destruct (erase_range_valid a len) eqn:Ev; cbn [negb] in E;
    [|injection E as <- <-; split; [done|by left]].
  destruct (take_mutex f) as [f1 t] eqn:Et. pose proof (take_mutex_bus _ _ _ Et) as Hb.
  rewrite <-Hb in *. destruct t; cbn [negb] in E; [|injection E as <- <-; split; [done|by left]].
  destruct (range_sectors_valid a len Ha Hl Ev) as (n & Hn & Hend & Hcap & Hsec).
  pose proof (range_sectors a len Hl Ev) as Hlen. rewrite Hn in Hlen.
  rewrite (erase_range_loop _ a len n Ha Hend Hcap) in E.
  destruct (erase_down _ _ _ _) as [b st] eqn:Ee. injection E as <- <-. cbn [with_bus bus].
  assert (forall b a b' s, idle b -> sector a -> w25q64_EraseSectorUnlocked b a = (b', s) ->
    same_outside (settled b) (settled b') a W25Q64_SECTOR_SIZE) as Hone.
  { intros ? ? ? ? Hi' [Ha' Hv'] E'. by eapply erase_unlocked_spec. }
  assert (forall b a b', idle b -> sector a -> w25q64_EraseSectorUnlocked b a = (b', W25Q64_STATUS_OK) ->
    idle b' /\ mem_eq (settled b') (mem_erase (settled b) a W25Q64_SECTOR_SIZE)) as Htwo.
  { intros ? ? ? Hi' [Ha' Hv'] E'. by eapply erase_unlocked_spec. }
  rewrite <-Hlen. split.
  - intros ->. split; [exact (erase_down_good settled _ idle sector Htwo _ _ _ _ Hi Hsec Ee)|].
    exact (erase_down_ok settled _ idle sector Htwo _ _ _ _ Hi Hsec Ee).
  - intros Hs. right. exact (erase_down_failed settled _ idle sector Hone Htwo _ _ _ _ _ Hi Hsec Ee Hs).
Qed.

(** *** A device that answers *)

(** The mutex is obtained and the SPI flags come in time. *)
Definition answers (f : driver D) : Prop :=
  created f = true /\ takes f = [] /\ status_reads (bus f) = [].

Lemma read_answers f a data f' s d :
  answers f -> w25q64_IsRangeValid a (Z.of_nat (length data)) = true ->
  Read f a (Some data) = (f', s, d) -> s = W25Q64_STATUS_OK /\ answers f'.
Proof.
  intros (Hc & Ht & Hs) Hv E. unfold Read in E. cbv zeta in E.
  rewrite Hv, (take_mutex_ready f Hc Ht) in E. cbn [negb bus] in E.
  destruct (w25q64_Command _ _ _) as [[b st] rx] eqn:Ec. injection E as <- <- <-.
  destruct (command_ready _ _ _ _ _ _ (cons_ne _ _) Hs Ec) as [-> Hb]. done.
Qed.

Lemma erase_answers f a f' s :
  idle (bus f) -> answers f -> 0 <= a -> sector_valid a = true ->
  EraseSector f a = (f', s) -> s = W25Q64_STATUS_OK /\ answers f'.
Proof.
  intros Hi (Hc & Ht & Hs) Ha Hv E. unfold EraseSector in E.
  rewrite Hv, (take_mutex_ready f Hc Ht) in E. cbn [negb bus] in E.
  destruct (w25q64_EraseSectorUnlocked _ _) as [b st] eqn:Ee. injection E as <- <-.
  destruct (erase_unlocked_ready _ _ _ _ Hi Hs Ha Hv Ee) as [-> Hb]. done.
Qed.

Lemma program_answers f a bs f' s :
  idle (bus f) -> answers f -> 0 <= a -> w25q64_IsRangeValid a (Z.of_nat (length bs)) = true ->
  Program f a (Some bs) = (f', s) -> s = W25Q64_STATUS_OK /\ answers f'.
Proof.
  intros Hi (Hc & Ht & Hs) Ha Hv E. unfold Program in E.
  rewrite Hv, (take_mutex_ready f Hc Ht) in E. cbn [negb bus] in E.
  destruct (program_loop _ _ _ _) as [b st] eqn:Ee. injection E as <- <-.
  unfold w25q64_IsRangeValid in Hv. rewrite !andb_true_iff in Hv. destruct Hv as [[_ Hcap] Hend].
  destruct (program_loop_ready _ _ a bs _ _ Hi Hs Ha ltac:(flia) Ee) as [-> Hb]. done.
Qed.

Lemma erase_range_answers f a len f' s :
  idle (bus f) -> answers f -> 0 <= a -> 0 <= len -> erase_range_valid a len = true ->
  EraseRange f a len = (f', s) -> s = W25Q64_STATUS_OK /\ answers f'.
Proof.
  intros Hi (Hc & Ht & Hs) Ha Hl Hv E. unfold EraseRange in E.
  rewrite Hv, (take_mutex_ready f Hc Ht) in E. cbn [negb bus] in E.
  destruct (range_sectors_valid a len Ha Hl Hv) as (n & Hn & Hend & Hcap & Hsec).
  rewrite (erase_range_loop _ a len n Ha Hend Hcap) in E.
  destruct (erase_down _ _ _ _) as [b st] eqn:Ee. injection E as <- <-.
  destruct (erase_down_ready _ _ _ _ _ Hi Hs Hsec Ee) as [-> Hb]. done.
Qed.

(** C10. The driver's operations, called while the chip is not busy, over any
    chip that follows its data sheet and whatever the SPI status register and
    the mutex do: a successful [W25Q64_Read] returns exactly the bytes of the
    array and no read changes it; a successful [W25Q64_EraseSector],
    [W25Q64_EraseRange] or [W25Q64_Program] has exactly its NOR effect (erased
    bytes, sources AND-ed across page boundaries) and leaves the chip not busy
    again, so that the promise carries over to the next call; a failed one has
    changed, once the chip has settled, nothing outside its range, and a range
    that was not erased completely is erased from its top downwards; and on a
    device that answers every valid call succeeds.  After a failure of an
    erase or program the chip may be left busy, and the promise then holds
    again only once it has settled. *)
Theorem w25q64_implements_flash (f : driver D) :
  idle (bus f) ->
  (forall a data f' s d, 0 <= a -> Forall is_u8 data -> Read f a (Some data) = (f', s, d) ->
     idle (bus f') /\ mem_eq (settled (bus f')) (settled (bus f))
     /\ length d = length data /\ Forall is_u8 d
     /\ (s = W25Q64_STATUS_OK -> d = slice (settled (bus f)) a (length data))
     /\ (answers f -> w25q64_IsRangeValid a (Z.of_nat (length data)) = true ->
         s = W25Q64_STATUS_OK /\ answers f'))
  /\ (forall a f' s, 0 <= a -> EraseSector f a = (f', s) ->
     same_outside (settled (bus f)) (settled (bus f')) a W25Q64_SECTOR_SIZE
     /\ (s = W25Q64_STATUS_OK -> idle (bus f')
         /\ mem_eq (settled (bus f')) (mem_erase (settled (bus f)) a W25Q64_SECTOR_SIZE))
     /\ (answers f -> sector_valid a = true -> s = W25Q64_STATUS_OK /\ answers f'))
  /\ (forall a len f' s, 0 <= a -> 0 <= len -> EraseRange f a len = (f', s) ->
     (s = W25Q64_STATUS_OK -> idle (bus f')
       /\ mem_eq (settled (bus f')) (mem_erase (settled (bus f)) a len))
     /\ (s <> W25Q64_STATUS_OK -> mem_eq (settled (bus f')) (settled (bus f))
         \/ exists c, erased_down_to (settled (bus f)) (settled (bus f')) a len c)
     /\ (answers f -> erase_range_valid a len = true -> s = W25Q64_STATUS_OK /\ answers f'))
  /\ (forall a bs f' s, 0 <= a -> Forall is_u8 bs -> Program f a (Some bs) = (f', s) ->
     same_outside (settled (bus f)) (settled (bus f')) a (Z.of_nat (length bs))
     /\ (s = W25Q64_STATUS_OK -> idle (bus f')
         /\ mem_eq (settled (bus f')) (mem_program (settled (bus f)) a bs))
     /\ (answers f -> w25q64_IsRangeValid a (Z.of_nat (length bs)) = true ->
         s = W25Q64_STATUS_OK /\ answers f')).
Proof.
  intros Hi. split_and!.
  - intros a data f' s d Ha Hb E. destruct (read_idle _ _ _ _ _ _ Hi Hb E) as (K1 & K2 & [K3 K4] & K5).
    split_and!; try done; [by apply K5|]. intros Hr Hv. exact (read_answers _ _ _ _ _ _ Hr Hv E).
  - intros a f' s Ha E. destruct (erase_idle _ _ _ _ Hi Ha E) as [K1 K2].
    split_and!; try done. intros Hr Hv. exact (erase_answers _ _ _ _ Hi Hr Ha Hv E).
  - intros a len f' s Ha Hl E. destruct (erase_range_idle _ _ _ _ _ Hi Ha Hl E) as [K1 K2].
    split_and!; try done. intros Hr Hv. exact (erase_range_answers _ _ _ _ _ Hi Hr Ha Hl Hv E).
  - intros a bs f' s Ha Hb E. destruct (program_idle _ _ _ _ _ Hi Ha Hb E) as [K1 K2].
    split_and!; try done. intros Hr Hv. exact (program_answers _ _ _ _ _ Hi Hr Ha Hv E).
Qed.

(** ** The promise of [NorFlash.v]

    The stores are proved against [FlashLaws], which has no notion of a busy
    chip.  The driver keeps that promise in an environment that gives the chip
    time to finish between two calls: [settle] is that environment, it is not
    part of the driver.  After a successful call it is the identity on what
    the array holds and on whether the chip is busy; it is an assumption only
    about the call after a failed erase or program. *)
Definition settle (f : driver D) : driver D :=
  with_bus f (with_device (bus f) (ch_settle (device (bus f)))).

#[global] Instance driver_flash : Flash (driver D) := {|
  fl_mem f := settled (bus f);
  W25Q64_Read f a n := Read (settle f) a (Some (zeros n));
  W25Q64_EraseSector f a := EraseSector (settle f) a;
  W25Q64_EraseRange f a len := EraseRange (settle f) a len;
  W25Q64_Program f a bs := Program (settle f) a (Some bs);
  fl_ready := answers;
|}.

Lemma settle_mem f : mem_eq (settled (bus (settle f))) (settled (bus f)).
Proof. apply idle_settle, settle_idle. Qed.

Lemma settle_bus_idle f : idle (bus (settle f)).
Proof. apply settle_idle. Qed.

Lemma settle_answers f : answers f -> answers (settle f).
Proof. done. Qed.

Lemma outside_settle f m a len :
  same_outside (settled (bus (settle f))) m a len -> same_outside (settled (bus f)) m a len.
Proof. intros Ho x Hx. rewrite Ho by done. apply settle_mem. Qed.

Lemma mem_erase_eq m m' a len : mem_eq m m' -> mem_eq (mem_erase m a len) (mem_erase m' a len).
Proof. intros Hm x. unfold mem_erase. by rewrite Hm. Qed.

Lemma driver_laws : FlashLaws (driver D).
Proof.
  split; cbn [fl_mem fl_ready driver_flash W25Q64_Read W25Q64_EraseSector W25Q64_EraseRange W25Q64_Program].
  - intros f x. apply ch_mem_byte.
  - intros f a n f' s d E.
    destruct (read_idle _ _ _ _ _ _ (settle_bus_idle f) (zeros_bytes n) E) as (_ & Hm & _).
    etransitivity; [exact Hm|apply settle_mem].
  - intros f a n f' s d E.
    destruct (read_idle _ _ _ _ _ _ (settle_bus_idle f) (zeros_bytes n) E) as (_ & _ & Hd & _).
    by rewrite length_zeros in Hd.
  - intros f a n f' d Ha E.
    destruct (read_idle _ _ _ _ _ _ (settle_bus_idle f) (zeros_bytes n) E) as (_ & _ & _ & Hd).
    rewrite (Hd Ha eq_refl), length_zeros. apply slice_proper; [apply settle_mem|done|done].
  - intros f a f' s Ha E. apply outside_settle. exact (proj1 (erase_idle _ _ _ _ (settle_bus_idle f) Ha E)).
  - intros f a f' Ha E. destruct (erase_idle _ _ _ _ (settle_bus_idle f) Ha E) as [_ Hm].
    destruct (Hm eq_refl) as [_ ->]. apply mem_erase_eq, settle_mem.
  - intros f a bs f' s Ha E. apply outside_settle.
    exact (proj1 (program_any_idle _ _ _ _ _ (settle_bus_idle f) Ha E)).
  - intros f a bs f' Ha Hb E. destruct (program_idle _ _ _ _ _ (settle_bus_idle f) Ha Hb E) as [_ Hm].
    destruct (Hm eq_refl) as [_ ->]. apply mem_program_eq, settle_mem.
  - intros f a len f' Ha Hl E. destruct (erase_range_idle _ _ _ _ _ (settle_bus_idle f) Ha Hl E) as [Hm _].
    destruct (Hm eq_refl) as [_ ->]. apply mem_erase_eq, settle_mem.
  - intros f a len f' s Ha Hl E Hs.
    destruct (erase_range_idle _ _ _ _ _ (settle_bus_idle f) Ha Hl E) as [_ Hm].
    destruct (Hm Hs) as [Hu|(c & K1 & K2 & K3 & K4)]; [left|right].
    + etransitivity; [exact Hu|apply settle_mem].
    + exists c. split; [done|]. split; [done|]. split; [done|].
      intros x Hx. rewrite K4 by done. apply settle_mem.
  - intros f a n f' s d Hr Ha Hv E.
    eapply (read_answers _ a (zeros n)); [by apply settle_answers, Hr|by rewrite length_zeros|exact E].
  - intros f a f' s Hr Ha Hv E.
    exact (erase_answers _ _ _ _ (settle_bus_idle f) (settle_answers f Hr) Ha Hv E).
  - intros f a bs f' s Hr Ha Hv E.
    exact (program_answers _ _ _ _ _ (settle_bus_idle f) (settle_answers f Hr) Ha Hv E).
  - intros f a len f' s Hr Ha Hl Hv E.
    exact (erase_range_answers _ _ _ _ _ (settle_bus_idle f) (settle_answers f Hr) Ha Hl Hv E).
Qed.

#[global] Instance driver_flash_laws : FlashLaws (driver D) := driver_laws.

End correctness.

(** ** A concrete chip *)

(** The array, the latch, the running job (its result and the status reads it
    outlasts) and the bytes received since the chip was selected. *)
Record nor := Nor { nor_mem : mem; nor_wel : bool; nor_job : option (mem * nat); nor_in : bytes }.

Definition nor_view (d : nor) : mem := fun x => u8 (nor_mem d x).
Definition nor_busy (d : nor) : bool := match nor_job d with Some _ => true | None => false end.
Definition address24 (a2 a1 a0 : Z) : Z := u8 a2 * 65536 + u8 a1 * 256 + u8 a0.

(** A page program wraps around inside its page. *)
Definition page_program (m : mem) (a : Z) (bs : bytes) : mem :=
  let k := Z.to_nat (W25Q64_PAGE_SIZE - a mod W25Q64_PAGE_SIZE) in
  mem_program (mem_program m a (take k bs)) (a - a mod W25Q64_PAGE_SIZE) (drop k bs).

Definition nor_answer (d : nor) : Z :=
  match nor_in d with
  | c :: rest =>
      if c =? W25Q64_COMMAND_STATUS then (if nor_busy d then 1 else 0)
      else if nor_busy d then 255
      else if c =? W25Q64_COMMAND_JEDEC_ID then nth (length rest) [0xEF; 0x40; 0x17] 255
      else match rest with
           | a2 :: a1 :: a0 :: l =>
               if c =? W25Q64_COMMAND_READ
               then nor_view d (address24 a2 a1 a0 + Z.of_nat (length l)) else 255
           | _ => 255
           end
  | [] => 255
  end.

Definition nor_finish (d : nor) : nor :=
  match nor_job d with
  | Some (m, _) => Nor m (nor_wel d) None (nor_in d)
  | None => d
  end.

Definition nor_act (d : nor) : nor :=
  match nor_job d with
  | Some (m, k) =>
      match nor_in d with
      | c :: _ :: _ =>
          if c =? W25Q64_COMMAND_STATUS
          then match k with
               | O => Nor m (nor_wel d) None []
               | S k => Nor (nor_mem d) (nor_wel d) (Some (m, k)) []
               end
          else d
      | _ => d
      end
  | None =>
      match nor_in d with
      | [c] => if c =? W25Q64_COMMAND_WRITE_ENABLE then Nor (nor_mem d) true None [] else d
      | c :: a2 :: a1 :: a0 :: l =>
          if nor_wel d && (c =? W25Q64_COMMAND_SECTOR_ERASE) && (length l =? 0)%nat
          then Nor (nor_mem d) false
                 (Some (mem_erase (nor_mem d) (address24 a2 a1 a0) W25Q64_SECTOR_SIZE, 40%nat)) []
          else if nor_wel d && (c =? W25Q64_COMMAND_PAGE_PROGRAM) && negb (length l =? 0)%nat
          then Nor (nor_mem d) false
                 (Some (page_program (nor_view d) (address24 a2 a1 a0) (map u8 l), 1%nat)) []
          else d
      | _ => d
      end
  end.

#[global] Instance nor_device : SpiDevice nor := {|
  dev_select d := Nor (nor_mem d) (nor_wel d) (nor_job d) [];
  dev_deselect := nor_act;
  dev_exchange d b := (Nor (nor_mem d) (nor_wel d) (nor_job d) (nor_in d ++ [b]), u8 (nor_answer d));
|}.

#[global] Instance nor_chip : Chip nor := {|
  ch_mem := nor_view;
  ch_idle d := nor_job d = None;
  ch_wel d := nor_wel d = true;
  ch_settle := nor_finish;
  ch_polls d := match nor_job d with Some (_, k) => S k | None => O end;
|}.

Lemma nor_clock d bs : (clock d bs).1 = Nor (nor_mem d) (nor_wel d) (nor_job d) (nor_in d ++ bs).
Proof.
  revert d. induction bs as [|b bs IH]; intros d; cbn [clock].
  - rewrite app_nil_r. by destruct d.
  - cbn [dev_exchange nor_device]. specialize (IH (Nor (nor_mem d) (nor_wel d) (nor_job d) (nor_in d ++ [b]))).
    destruct (clock _ bs) as [d2 os]. cbn [fst nor_mem nor_wel nor_job nor_in] in *.
    by rewrite IH, <-app_assoc.
Qed.

Lemma nor_txn d bs : txn d bs = nor_act (Nor (nor_mem d) (nor_wel d) (nor_job d) bs).
Proof. unfold txn. rewrite nor_clock. reflexivity. Qed.

Lemma address24_id a :
  0 <= a < W25Q64_CAPACITY_BYTES -> address24 (u8 (Z.shiftr a 16)) (u8 (Z.shiftr a 8)) (u8 a) = a.
Proof.
  intros Ha. unfold address24, u8, W25Q64_CAPACITY_BYTES in *. rewrite !Zmod_mod.
  rewrite !Z.shiftr_div_pow2 by lia. change (2 ^ 16) with 65536. change (2 ^ 8) with 256. word.
Qed.

Lemma nor_read d w a2 a1 a0 l pad :
  (clock (Nor d w None (W25Q64_COMMAND_READ :: a2 :: a1 :: a0 :: l)) pad).2
  = slice (fun x => u8 (d x)) (address24 a2 a1 a0 + Z.of_nat (length l)) (length pad).
Proof.
  revert l. induction pad as [|b pad IH]; intros l; [done|]. cbn [clock dev_exchange nor_device].
  cbn [nor_mem nor_wel nor_job nor_in]. specialize (IH (l ++ [b])). cbn [app] in *.
  destruct (clock _ pad) as [d2 os]. cbn [snd length slice] in *. rewrite IH. f_equal.
  - unfold nor_answer, nor_busy, nor_view. cbn. apply u8_id, u8_range.
  - f_equal. rewrite length_app. cbn. lia.
Qed.

Lemma view_erase m a : mem_eq (fun x => u8 (mem_erase m a W25Q64_SECTOR_SIZE x))
  (mem_erase (fun x => u8 (m x)) a W25Q64_SECTOR_SIZE).
Proof. intros x. unfold mem_erase. by destruct (in_range _ _ x). Qed.

Lemma view_program m a bs :
  Forall is_u8 bs ->
  mem_eq (fun x => u8 (mem_program (fun x => u8 (m x)) a bs x)) (mem_program (fun x => u8 (m x)) a bs).
Proof.
  intros Hb x. unfold mem_program. destruct (in_range _ _ x); [|apply u8_id, u8_range].
  apply u8_id, land_u8, nth_bytes, Hb.
Qed.

Lemma page_program_fits m a bs :
  a mod W25Q64_PAGE_SIZE + Z.of_nat (length bs) <= W25Q64_PAGE_SIZE ->
  mem_eq (page_program m a bs) (mem_program m a bs).
Proof.
  intros Hp. unfold page_program. rewrite take_ge, drop_ge by lia. intros x.
  unfold mem_program at 1. rewrite (proj2 (in_range_false _ _ _)); [done|cbn; lia].
Qed.

Lemma nor_harmless m w bs :
  harmless bs = true ->
  nor_job (nor_act (Nor m w None bs)) = None /\ nor_mem (nor_act (Nor m w None bs)) = m.
Proof.
  intros Hh. unfold nor_act. cbn [nor_job nor_in nor_mem nor_wel].
  destruct bs as [|c [|a2 [|a1 [|a0 l]]]]; try done; [by destruct (_ =? _)|].
  cbn [harmless length] in Hh. destruct (c =? W25Q64_COMMAND_SECTOR_ERASE) eqn:Ee.
  { apply Nat.ltb_lt in Hh. lia. }
  rewrite andb_false_r. cbn [andb]. destruct (c =? W25Q64_COMMAND_PAGE_PROGRAM) eqn:Ep.
  - apply Nat.leb_le in Hh. destruct l; [|cbn in Hh; lia]. cbn. by rewrite andb_false_r.
  - by rewrite andb_false_r.
Qed.

#[global] Instance nor_laws : ChipLaws nor.
Proof.
  split; cbn [ch_mem ch_idle ch_wel ch_settle ch_polls nor_chip].
  - intros d x. apply u8_range.
  - intros d b. apply u8_range.
  - intros [m w [[m' k]|] i]; done.
  - intros d Hd. unfold nor_finish. by rewrite Hd.
  - intros d bs Hd Hh. rewrite nor_txn, Hd. destruct (nor_harmless (nor_mem d) (nor_wel d) bs Hh) as [Hj Hm].
    split; [done|]. intros x. unfold nor_view. by rewrite Hm.
  - intros d Hd. rewrite nor_txn, Hd. done.
  - intros d a pad Hd Ha Hc. rewrite clock_app. cbn [snd].
    rewrite drop_app_ge by (rewrite length_clock; cbn; lia). rewrite length_clock.
    change (4 - length (address_command W25Q64_COMMAND_READ a))%nat with 0%nat. cbn [drop].
    rewrite nor_clock. cbn [dev_select nor_device nor_mem nor_wel nor_job nor_in app address_command].
    rewrite Hd, drop_0. unfold address_command. rewrite nor_read. cbn [length]. rewrite Z.add_0_r.
    destruct pad as [|p0 pad]; [done|]. rewrite address24_id; [done|]. cbn [length] in Hc. lia.
  - intros d a Hd Hw Ha Hv. cbv zeta. rewrite nor_txn, Hd. unfold nor_act, address_command.
    cbn [nor_job nor_in nor_mem nor_wel]. rewrite Hw. cbn [andb length Nat.eqb].
    rewrite Z.eqb_refl. cbv iota. split; [|cbn; lia].
    unfold nor_view, nor_finish. cbn [nor_job nor_mem].
    rewrite address24_id; [apply view_erase|]. unfold sector_valid in Hv.
    apply andb_true_iff in Hv as [Hv _]. lia.
  - intros d a bs Hd Hw Ha Hne Hp. cbv zeta. rewrite nor_txn, Hd. unfold nor_act, address_command.
    cbn [nor_job nor_in nor_mem nor_wel app]. rewrite Hw. cbn [andb].
    change (W25Q64_COMMAND_PAGE_PROGRAM =? W25Q64_COMMAND_SECTOR_ERASE) with false. cbn [andb].
    rewrite (proj2 (Nat.eqb_neq (length bs) 0)), Z.eqb_refl by (by destruct bs). cbn [negb andb].
    split; [|cbn; lia]. unfold nor_finish. cbn [nor_job]. unfold nor_view at 1. cbn [nor_mem].
    rewrite address24_id by done.
    assert (Forall is_u8 (map u8 bs)) as Hb
      by (apply Forall_forall; intros x (y & <- & _)%in_map_iff; apply u8_range).
    intros x. rewrite (page_program_fits _ a (map u8 bs)) by (by rewrite length_map).
    apply (view_program (nor_mem d) a _ Hb).
  - intros d k pad. rewrite nor_txn. destruct d as [m w [[m' j]|] i].
    + do 2 (destruct k as [|k]; [done|]). cbn [take]. rewrite take_nil. by destruct j.
    + do 2 (destruct k as [|k]; [done|]). cbn [take]. by rewrite take_nil.
  - intros d pad. rewrite nor_txn. destruct d as [m w [[m' j]|] i]; done.
  - intros d pad. rewrite nor_txn. destruct d as [m w [[m' j]|] i]; [|done].
    intros _. destruct j; cbn; lia.
Qed.

(** ** Concrete runs *)

(** A driver on an idle chip whose array holds zeros. *)
Definition demo_chip (m : mem) (job : option (mem * nat)) : driver nor :=
  Driver (Spi (Nor m false job []) 0 []) true [].

(** Ten bytes programmed across the boundary at 256. *)
Lemma w25q64_implements_flash_witness :
  exists f', Program (demo_chip (fun _ => 255) None) 250 (Some [1; 2; 3; 4; 5; 6; 7; 8; 9; 10])
      = (f', W25Q64_STATUS_OK)
    /\ idle (bus f') /\ slice (settled (bus f')) 250 10 = [1; 2; 3; 4; 5; 6; 7; 8; 9; 10].
Proof.
  destruct (Program (demo_chip (fun _ => 255) None) 250 (Some [1; 2; 3; 4; 5; 6; 7; 8; 9; 10]))
    as [f' st] eqn:E.
  assert (Forall is_u8 [1; 2; 3; 4; 5; 6; 7; 8; 9; 10]) as Hb
    by (repeat constructor; unfold is_u8; lia).
  assert (idle (bus (demo_chip (fun _ => 255) None))) as Hi by reflexivity.
  destruct (w25q64_implements_flash _ Hi) as (_ & _ & _ & Hp).
  destruct (Hp 250 _ _ _ ltac:(lia) Hb E) as (_ & Hok & Hr).
  assert (answers (demo_chip (fun _ => 255) None)) as Ha by (split_and!; reflexivity).
  assert (w25q64_IsRangeValid 250 (Z.of_nat (length [1; 2; 3; 4; 5; 6; 7; 8; 9; 10])) = true) as Hv
    by reflexivity.
  destruct (Hr Ha Hv) as [Hst _]. destruct (Hok Hst) as [Hi' Hm]. subst st. exists f'.
  split; [reflexivity|]. split; [exact Hi'|].
  rewrite (slice_proper _ _ Hm 250 _ eq_refl 10%nat _ eq_refl). reflexivity.
Defined.

(** An operation never checks that the chip is idle: while a job that an
    earlier call gave up on is still running, the chip ignores the write
    enable and the erase command, and the wait that follows sees that job end.
    The call reports success and the sector is not erased. *)
Lemma busy_erase_reports_ok :
  let f := demo_chip (fun _ => 0) (Some (fun _ => 0, 3%nat)) in
  (EraseSector f 4096).2 = W25Q64_STATUS_OK
  /\ slice (settled (bus (EraseSector f 4096).1)) 4096 4 = [0; 0; 0; 0].
Proof. vm_compute. split; reflexivity. Qed.
