(* ===== verification/FactoryReset.v ===== *)
(** [Srv/Src/factory_reset_service.c]: the factory-reset gesture and the
    durable erase.

    The gesture is modelled as the code samples it: a debounced button, the
    ten-second hold, the warning, and the double-click that cancels; button
    samples and tick counts are the inputs of the loops.  The erase is modelled
    over the Flash interface.  The theorems: a reset that has been accepted
    survives any failure or power loss until every store is erased, start-up
    completes it, afterwards every store starts empty, and nothing is erased
    unless the gesture was held and not cancelled. *)
From S2P Require Import Prelude Codec NorFlash SimFlash FlashLayout AbStore.
From S2P Require Import HealthCheckConfig UserStore CallbackConfig.

Definition FACTORY_RESET_HOLD_SAMPLES : Z := 500.
Definition FACTORY_RESET_DEBOUNCE_SAMPLES : Z := 3.
Definition FACTORY_RESET_CANCEL_WINDOW_MS : Z := 10000.
Definition FACTORY_RESET_DOUBLE_CLICK_MS : Z := 600.
Definition FACTORY_RESET_MARKER_MAGIC : Z := 0x46525354.

(** ** The gesture *)

Inductive FactoryReset_ButtonEventTypeDef :=
  | FACTORY_RESET_BUTTON_EVENT_NONE
  | FACTORY_RESET_BUTTON_EVENT_PRESSED
  | FACTORY_RESET_BUTTON_EVENT_RELEASED.

#[global] Instance ButtonEvent_eq_dec : EqDecision FactoryReset_ButtonEventTypeDef.
Proof. solve_decision. Defined.

Record FactoryReset_ButtonStateTypeDef := Button {
  stablePressed : bool;
  candidatePressed : bool;
  candidateSamples : Z;
}.

(** [pressed] is the raw sample of [UserButton_IsPressed()]. *)
Definition factoryResetService_UpdateButton (button : FactoryReset_ButtonStateTypeDef)
    (pressed : bool) : FactoryReset_ButtonStateTypeDef * FactoryReset_ButtonEventTypeDef :=
  if negb (Bool.eqb pressed (candidatePressed button))
  then (Button (stablePressed button) pressed 1, FACTORY_RESET_BUTTON_EVENT_NONE) else
  let n := if candidateSamples button <? FACTORY_RESET_DEBOUNCE_SAMPLES
           then candidateSamples button + 1 else candidateSamples button in
  if (n <? FACTORY_RESET_DEBOUNCE_SAMPLES)
     || Bool.eqb (stablePressed button) (candidatePressed button)
  then (Button (stablePressed button) (candidatePressed button) n, FACTORY_RESET_BUTTON_EVENT_NONE)
  else (Button (candidatePressed button) (candidatePressed button) n,
        if candidatePressed button then FACTORY_RESET_BUTTON_EVENT_PRESSED
        else FACTORY_RESET_BUTTON_EVENT_RELEASED).

(** The loops read one sample (and the tick counts they look at) per round; the
    result is [None] while the samples given so far leave the loop running,
    and else the button and the inputs not yet read. *)
Fixpoint long_press_loop (pressedSamples : Z) (button : FactoryReset_ButtonStateTypeDef)
    (samples : list bool) : option (FactoryReset_ButtonStateTypeDef * list bool) :=
  if pressedSamples <? FACTORY_RESET_HOLD_SAMPLES then
    match samples with
    | [] => None
    | s :: samples =>
        let '(button, _) := factoryResetService_UpdateButton button s in
        long_press_loop (if stablePressed button then pressedSamples + 1 else 0) button samples
    end
  else Some (button, samples).

Definition factoryResetService_WaitForLongPress := long_press_loop 0.

(** While the warning sounds: (tick count, sample) per round. *)
Fixpoint warning_loop (warningStarted warningWait : Z) (button : FactoryReset_ButtonStateTypeDef)
    (l : list (Z * bool)) : option FactoryReset_ButtonStateTypeDef :=
  match l with
  | [] => None
  | (t, s) :: l =>
      if u32 (t - warningStarted) <? warningWait
      then warning_loop warningStarted warningWait (factoryResetService_UpdateButton button s).1 l
      else Some button
  end.

(** The cancellation window: (tick count of the loop test, sample, tick count
    after it) per round; [true] is a double click. *)
Fixpoint cancellation_loop (windowStarted firstClickAt clickCount : Z) (armed : bool)
    (button : FactoryReset_ButtonStateTypeDef) (l : list (Z * bool * Z)) :
    option (bool * FactoryReset_ButtonStateTypeDef) :=
  match l with
  | [] => None
  | (t, s, now) :: l =>
      if u32 (t - windowStarted) <? FACTORY_RESET_CANCEL_WINDOW_MS then
        let '(button, event) := factoryResetService_UpdateButton button s in
        if negb armed then
          cancellation_loop windowStarted firstClickAt clickCount
            (bool_decide (event = FACTORY_RESET_BUTTON_EVENT_RELEASED)) button l
        else if bool_decide (event = FACTORY_RESET_BUTTON_EVENT_PRESSED) then
          if (clickCount =? 0) || (FACTORY_RESET_DOUBLE_CLICK_MS <? u32 (now - firstClickAt))
          then cancellation_loop windowStarted now 1 armed button l
          else Some (true, button)
        else cancellation_loop windowStarted firstClickAt clickCount armed button l
      else Some (false, button)
  end.

Definition factoryResetService_WaitForCancellation (windowStarted : Z)
    (button : FactoryReset_ButtonStateTypeDef) (l : list (Z * bool * Z)) :=
  cancellation_loop windowStarted 0 0 (negb (stablePressed button)) button l.

Fixpoint factoryResetService_WaitForRelease (button : FactoryReset_ButtonStateTypeDef)
    (samples : list bool) : option FactoryReset_ButtonStateTypeDef :=
  if stablePressed button then
    match samples with
    | [] => None
    | s :: samples =>
        factoryResetService_WaitForRelease (factoryResetService_UpdateButton button s).1 samples
    end
  else Some button.

(** ** The durable erase *)

Record FactoryResetMarker_TypeDef := Marker { magic : Z; inverseMagic : Z }.

Definition c_marker : codec FactoryResetMarker_TypeDef.
Proof.
  refine (c_iso (c_u32 ** c_u32)%codec (fun '(m, i) => Marker m i)
    (fun x => (magic x, inverseMagic x)) _ _).
  - by intros [].
  - by intros [].
Defined.

Definition marker_ok (m : FactoryResetMarker_TypeDef) : bool :=
  (magic m =? FACTORY_RESET_MARKER_MAGIC)
  && (inverseMagic m =? u32 (Z.lnot FACTORY_RESET_MARKER_MAGIC)).

Definition reset_marker : FactoryResetMarker_TypeDef :=
  Marker FACTORY_RESET_MARKER_MAGIC (u32 (Z.lnot FACTORY_RESET_MARKER_MAGIC)).

Section service.
Context {F : Type} `{Flash F}.

(** The flag is meaningful when the status is OK. *)
Definition factoryResetService_ReadMarker (f : F) : F * W25Q64_StatusTypeDef * bool :=
  let '(f, status, d) := W25Q64_Read f FLASH_LAYOUT_FACTORY_RESET_MARKER_SECTOR (c_size c_marker) in
  if negb (flash_ok status) then (f, status, false)
  else (f, W25Q64_STATUS_OK, marker_ok (c_dec c_marker d)).

Definition factoryResetService_WriteMarker (f : F) : F * W25Q64_StatusTypeDef :=
  let '(f, status) := W25Q64_EraseSector f FLASH_LAYOUT_FACTORY_RESET_MARKER_SECTOR in
  let '(f, operationStatus) :=
    if flash_ok status
    then W25Q64_Program f FLASH_LAYOUT_FACTORY_RESET_MARKER_SECTOR (c_enc c_marker reset_marker)
    else (f, status) in
  let '(f, status, isValid) := factoryResetService_ReadMarker f in
  if flash_ok status && isValid then (f, W25Q64_STATUS_OK)
  else if negb (flash_ok operationStatus) then (f, operationStatus)
  else (f, if flash_ok status then W25Q64_STATUS_IO_ERROR else status).

Definition factoryResetService_ErasePersistentState (f : F) : F * W25Q64_StatusTypeDef :=
  let '(f, status) := W25Q64_EraseSector f FLASH_LAYOUT_CALLBACK_CONFIG_SECTOR_A in
  if negb (flash_ok status) then (f, status) else
  let '(f, status) := W25Q64_EraseSector f FLASH_LAYOUT_CALLBACK_CONFIG_SECTOR_B in
  if negb (flash_ok status) then (f, status) else
  W25Q64_EraseRange f FLASH_LAYOUT_FACTORY_RESET_MARKER_SECTOR
    (FLASH_LAYOUT_FACTORY_RESET_DATA_LENGTH + W25Q64_SECTOR_SIZE).

(** [NVIC_SystemReset] does not return. *)
Inductive resumed := Returned (status : W25Q64_StatusTypeDef) | Restarted.

Definition FactoryResetService_ResumePending (f : F) : F * resumed :=
  let '(f, status, isValid) := factoryResetService_ReadMarker f in
  if negb (flash_ok status) then (f, Returned status) else
  if negb isValid then (f, Returned W25Q64_STATUS_OK) else
  let '(f, status) := factoryResetService_ErasePersistentState f in
  if negb (flash_ok status) then (f, Returned status) else (f, Restarted).

(** The inputs of one round of the task. *)
Record round_inputs := RoundInputs {
  hold : list bool;
  warningStarted : Z;
  warningWait : Z;
  warning : list (Z * bool);
  windowStarted : Z;
  window : list (Z * bool * Z);
  release : list bool;
}.

(** How a round of [factoryResetService_Task] ends: still in one of its loops,
    back at the top (cancelled, or the marker could not be written), or in the
    restart, with the status of the erase. *)
Inductive round_end :=
  | RoundRunning
  | RoundCancelled (button : FactoryReset_ButtonStateTypeDef)
  | RoundMarkerFailed (status : W25Q64_StatusTypeDef) (button : FactoryReset_ButtonStateTypeDef)
  | RoundRestart (status : W25Q64_StatusTypeDef).

Definition factoryResetService_Task_round (f : F) (button : FactoryReset_ButtonStateTypeDef)
    (i : round_inputs) : F * round_end :=
  match factoryResetService_WaitForLongPress button (hold i) with
  | None => (f, RoundRunning)
  | Some (button, _) =>
      match warning_loop (warningStarted i) (warningWait i) button (warning i) with
      | None => (f, RoundRunning)
      | Some button =>
          match factoryResetService_WaitForCancellation (windowStarted i) button (window i) with
          | None => (f, RoundRunning)
          | Some (true, button) =>
              match factoryResetService_WaitForRelease button (release i) with
              | None => (f, RoundRunning)
              | Some button => (f, RoundCancelled button)
              end
          | Some (false, button) =>
              let '(f, status) := factoryResetService_WriteMarker f in
              if negb (flash_ok status) then
                match factoryResetService_WaitForRelease button (release i) with
                | None => (f, RoundRunning)
                | Some button => (f, RoundMarkerFailed status button)
                end
              else
                let '(f, status) := factoryResetService_ErasePersistentState f in
                (f, RoundRestart status)
          end
      end
  end.
End service.

Lemma reset_marker_wf : c_wf c_marker reset_marker.
Proof. repeat split; discriminate. Qed.

#[global] Opaque c_marker.

(** ** What the Flash array says *)

Definition range_erased (m : mem) (a len : Z) : Prop := forall x, a <= x < a + len -> m x = 255.

(** A reset has been accepted and not completed. *)
Definition reset_pending (m : mem) : Prop :=
  marker_ok (c_dec c_marker (slice m FLASH_LAYOUT_FACTORY_RESET_MARKER_SECTOR (c_size c_marker))) = true.

(** Every sector of every store is erased. *)
Definition data_erased (m : mem) : Prop :=
  range_erased m FLASH_LAYOUT_CALLBACK_CONFIG_SECTOR_A W25Q64_SECTOR_SIZE
  /\ range_erased m FLASH_LAYOUT_CALLBACK_CONFIG_SECTOR_B W25Q64_SECTOR_SIZE
  /\ range_erased m FLASH_LAYOUT_FACTORY_RESET_DATA_START FLASH_LAYOUT_FACTORY_RESET_DATA_LENGTH.

Ltac layout := unfold FLASH_LAYOUT_CALLBACK_CONFIG_SECTOR_A, FLASH_LAYOUT_CALLBACK_CONFIG_SECTOR_B,
  FLASH_LAYOUT_FACTORY_RESET_DATA_START, FLASH_LAYOUT_FACTORY_RESET_DATA_LENGTH,
  FLASH_LAYOUT_FACTORY_RESET_MARKER_SECTOR, from_top, W25Q64_SECTOR_SIZE, W25Q64_CAPACITY_BYTES in *; lia.

Lemma marker_pos : 0 <= FLASH_LAYOUT_FACTORY_RESET_MARKER_SECTOR.
Proof. layout. Qed.
Lemma callback_a_pos : 0 <= FLASH_LAYOUT_CALLBACK_CONFIG_SECTOR_A.
Proof. layout. Qed.
Lemma callback_b_pos : 0 <= FLASH_LAYOUT_CALLBACK_CONFIG_SECTOR_B.
Proof. layout. Qed.
Lemma reset_length_pos : 0 <= FLASH_LAYOUT_FACTORY_RESET_DATA_LENGTH + W25Q64_SECTOR_SIZE.
Proof. layout. Qed.

Lemma marker_size : c_size c_marker = 8%nat.
Proof. reflexivity. Qed.

Lemma marker_erased m :
  range_erased m FLASH_LAYOUT_FACTORY_RESET_MARKER_SECTOR W25Q64_SECTOR_SIZE -> ~ reset_pending m.
Proof.
  intros He. unfold reset_pending. rewrite marker_size.
  rewrite (slice_ext (fun _ => 255) m).
  - vm_compute. discriminate.
  - intros x Hx. apply He. layout.
Qed.

#[global] Instance reset_pending_proper : Proper (mem_eq ==> iff) reset_pending.
Proof. intros m m' Hm. unfold reset_pending. by rewrite Hm. Qed.

#[global] Instance data_erased_proper : Proper (mem_eq ==> iff) data_erased.
Proof.
  intros m m' Hm. unfold data_erased, range_erased.
  assert (forall a len, (forall x, a <= x < a + len -> m x = 255)
                   <-> (forall x, a <= x < a + len -> m' x = 255)) as E.
  { intros a len. split; intros E x Hx; [rewrite <-Hm|rewrite Hm]; auto. }
  by rewrite !E.
Qed.

Lemma pending_outside m m' a len :
  same_outside m m' a len ->
  disjoint_ranges FLASH_LAYOUT_FACTORY_RESET_MARKER_SECTOR 8 a len ->
  reset_pending m -> reset_pending m'.
Proof.
  intros Ho Hd. unfold reset_pending. rewrite marker_size.
  by rewrite (slice_same_outside m m' a len) by done.
Qed.

Section theory.
Context {F : Type} `{FlashLaws F}.

Lemma read_marker_spec f f' st v :
  factoryResetService_ReadMarker f = (f', st, v) ->
  mem_eq (fl_mem f') (fl_mem f)
  /\ (st = W25Q64_STATUS_OK -> v = true <-> reset_pending (fl_mem f)).
Proof.
  unfold factoryResetService_ReadMarker. intros E.
  destruct (W25Q64_Read _ _ _) as [[f1 s1] d] eqn:Er. pose proof (read_mem _ _ _ _ _ _ Er) as Hm.
  destruct (flash_ok s1) eqn:Es; cbn [negb] in E; injection E as <- <- <-.
  - apply flash_ok_true in Es as ->. split; [done|]. intros _. unfold reset_pending.
    by rewrite (read_ok _ _ _ _ _ marker_pos Er).
  - split; [done|]. apply flash_ok_false in Es. done.
Qed.

Lemma read_marker_ready f :
  fl_ready f -> exists f' v, factoryResetService_ReadMarker f = (f', W25Q64_STATUS_OK, v) /\ fl_ready f'.
Proof.
  intros Hr. unfold factoryResetService_ReadMarker.
  destruct (W25Q64_Read _ _ _) as [[f1 s1] d] eqn:Er.
  destruct (ready_read _ _ (c_size c_marker) _ _ _ Hr marker_pos eq_refl Er) as [-> Hr1].
  change (flash_ok W25Q64_STATUS_OK) with true. cbn [negb]. by eexists _, _.
Qed.

(** A marker write that reports success is on the device. *)
Lemma write_marker_ok f f' :
  factoryResetService_WriteMarker f = (f', W25Q64_STATUS_OK) -> reset_pending (fl_mem f').
Proof.
  unfold factoryResetService_WriteMarker. intros E.
  destruct (W25Q64_EraseSector _ _) as [f1 s1].
  destruct (if flash_ok s1 then _ else _) as [f2 s2].
  destruct (factoryResetService_ReadMarker f2) as [[f3 s3] v] eqn:Er.
  destruct (read_marker_spec _ _ _ _ Er) as [Hm Hv].
  destruct (flash_ok s3 && v) eqn:Eb.
  - apply andb_true_iff in Eb as [Es ->]. apply flash_ok_true in Es. injection E as <-.
    rewrite Hm. by apply Hv.
  - destruct (negb (flash_ok s2)) eqn:E2.
    + injection E as <- ->. by change (flash_ok W25Q64_STATUS_OK) with true in E2.
    + destruct (flash_ok s3) eqn:E3; [done|]. injection E as <- ->. by apply flash_ok_false in E3.
Qed.

(** Writing the marker touches its own sector only. *)
Lemma write_marker_outside f f' st :
  factoryResetService_WriteMarker f = (f', st) ->
  same_outside (fl_mem f) (fl_mem f') FLASH_LAYOUT_FACTORY_RESET_MARKER_SECTOR W25Q64_SECTOR_SIZE.
Proof.
  unfold factoryResetService_WriteMarker. intros E.
  destruct (W25Q64_EraseSector _ _) as [f1 s1] eqn:Ee.
  pose proof (erase_outside _ _ _ _ marker_pos Ee) as H1.
  destruct (if flash_ok s1 then _ else _) as [f2 s2] eqn:Ep.
  assert (same_outside (fl_mem f1) (fl_mem f2) FLASH_LAYOUT_FACTORY_RESET_MARKER_SECTOR W25Q64_SECTOR_SIZE)
    as H2.
  { destruct (flash_ok s1); [|injection Ep as <- <-; apply same_outside_refl].
    apply program_outside in Ep; [|layout]. eapply same_outside_weaken; [exact Ep|lia|].
    rewrite (c_enc_length _ _ reset_marker_wf), marker_size. layout. }
  destruct (factoryResetService_ReadMarker f2) as [[f3 s3] v] eqn:Er.
  destruct (read_marker_spec _ _ _ _ Er) as [Hm _].
  assert (f' = f3) as -> by (destruct (flash_ok s3 && v); [|destruct (negb (flash_ok s2))]; congruence).
  intros x Hx. rewrite Hm, H2, H1; done.
Qed.

(** The erase, at whatever point it stops. *)
Lemma erase_state_spec f f' st :
  factoryResetService_ErasePersistentState f = (f', st) ->
  (reset_pending (fl_mem f) -> reset_pending (fl_mem f') \/ data_erased (fl_mem f'))
  /\ (st = W25Q64_STATUS_OK -> data_erased (fl_mem f') /\ ~ reset_pending (fl_mem f')).
Proof.
  unfold factoryResetService_ErasePersistentState. intros E.
  destruct (W25Q64_EraseSector f _) as [f1 s1] eqn:E1.
  pose proof (erase_outside _ _ _ _ callback_a_pos E1) as O1.
  assert (reset_pending (fl_mem f) -> reset_pending (fl_mem f1)) as P1
    by (eapply pending_outside; [exact O1|unfold disjoint_ranges; layout]).
  destruct (flash_ok s1) eqn:S1; cbn [negb] in E.
  2: { injection E as <- <-. apply flash_ok_false in S1. split; [auto|done]. }
  apply flash_ok_true in S1 as ->. pose proof (erase_ok _ _ _ callback_a_pos E1) as M1.
  destruct (W25Q64_EraseSector f1 _) as [f2 s2] eqn:E2.
  pose proof (erase_outside _ _ _ _ callback_b_pos E2) as O2.
  assert (reset_pending (fl_mem f) -> reset_pending (fl_mem f2)) as P2.
  { intros Hp%P1. revert Hp. eapply pending_outside; [exact O2|unfold disjoint_ranges; layout]. }
  destruct (flash_ok s2) eqn:S2; cbn [negb] in E.
  2: { injection E as <- <-. apply flash_ok_false in S2. split; [auto|done]. }
  apply flash_ok_true in S2 as ->. pose proof (erase_ok _ _ _ callback_b_pos E2) as M2.
  assert (range_erased (fl_mem f2) FLASH_LAYOUT_CALLBACK_CONFIG_SECTOR_A W25Q64_SECTOR_SIZE) as CA.
  { intros x Hx. rewrite O2 by layout. rewrite M1. unfold mem_erase.
    by rewrite (proj2 (in_range_true _ _ _)) by layout. }
  assert (range_erased (fl_mem f2) FLASH_LAYOUT_CALLBACK_CONFIG_SECTOR_B W25Q64_SECTOR_SIZE) as CB.
  { intros x Hx. rewrite M2. unfold mem_erase. by rewrite (proj2 (in_range_true _ _ _)) by layout. }
  destruct (decide (st = W25Q64_STATUS_OK)) as [->|Hst].
  - pose proof (erase_range_ok _ _ _ _ marker_pos reset_length_pos E) as M3.
    assert (data_erased (fl_mem f')) as Hd.
    { rewrite M3. split_and!; intros x Hx; unfold mem_erase.
      - rewrite (proj2 (in_range_false _ _ _)) by layout. by apply CA.
      - rewrite (proj2 (in_range_false _ _ _)) by layout. by apply CB.
      - by rewrite (proj2 (in_range_true _ _ _)) by layout. }
    split; [auto|]. intros _. split; [done|]. rewrite M3. apply marker_erased. intros x Hx.
    unfold mem_erase. by rewrite (proj2 (in_range_true _ _ _)) by layout.
  - split; [|done]. intros Hp%P2.
    destruct (erase_range_failed _ _ _ _ _ marker_pos reset_length_pos E Hst)
      as [Hm|(c & Hc & Hmod & He & Hu)]; [left; by rewrite Hm|].
    destruct (decide (c = FLASH_LAYOUT_FACTORY_RESET_MARKER_SECTOR)) as [->|Hne].
    + right. split_and!; intros x Hx.
      * rewrite Hu by layout. by apply CA.
      * rewrite Hu by layout. by apply CB.
      * apply He. layout.
    + left. revert Hp. unfold reset_pending. rewrite marker_size.
      rewrite (slice_ext (fl_mem f2) (fl_mem f')); [done|].
      intros x Hx. apply Hu. left.
      assert (FLASH_LAYOUT_FACTORY_RESET_MARKER_SECTOR + W25Q64_SECTOR_SIZE <= c); [|layout].
      revert Hne Hc Hmod. unfold W25Q64_SECTOR_SIZE. intros. Z.div_mod_to_equations. lia.
Qed.

Lemma erase_state_ready f :
  fl_ready f -> exists f', factoryResetService_ErasePersistentState f = (f', W25Q64_STATUS_OK) /\ fl_ready f'.
Proof.
  intros Hr. unfold factoryResetService_ErasePersistentState.
  destruct (W25Q64_EraseSector f _) as [f1 s1] eqn:E1.
  destruct (ready_erase _ FLASH_LAYOUT_CALLBACK_CONFIG_SECTOR_A _ _ Hr callback_a_pos eq_refl E1)
    as [-> R1].
  change (flash_ok W25Q64_STATUS_OK) with true. cbn [negb].
  destruct (W25Q64_EraseSector f1 _) as [f2 s2] eqn:E2.
  destruct (ready_erase _ FLASH_LAYOUT_CALLBACK_CONFIG_SECTOR_B _ _ R1 callback_b_pos eq_refl E2)
    as [-> R2].
  change (flash_ok W25Q64_STATUS_OK) with true. cbn [negb].
  destruct (W25Q64_EraseRange f2 _ _) as [f3 s3] eqn:E3.
  destruct (ready_erase_range _ FLASH_LAYOUT_FACTORY_RESET_MARKER_SECTOR
    (FLASH_LAYOUT_FACTORY_RESET_DATA_LENGTH + W25Q64_SECTOR_SIZE) _ _ R2 marker_pos reset_length_pos
    eq_refl E3) as [-> R3]. by exists f3.
Qed.

(** One start-up. *)
Lemma resume_spec f f' r :
  FactoryResetService_ResumePending f = (f', r) ->
  (reset_pending (fl_mem f) \/ data_erased (fl_mem f) ->
   reset_pending (fl_mem f') \/ data_erased (fl_mem f'))
  /\ (r = Restarted -> data_erased (fl_mem f') /\ ~ reset_pending (fl_mem f'))
  /\ (r = Returned W25Q64_STATUS_OK ->
      ~ reset_pending (fl_mem f') /\ mem_eq (fl_mem f') (fl_mem f)).
Proof.
  unfold FactoryResetService_ResumePending. intros E.
  destruct (factoryResetService_ReadMarker f) as [[f1 s1] v] eqn:E1.
  destruct (read_marker_spec _ _ _ _ E1) as [Hm Hv].
  destruct (flash_ok s1) eqn:S1; cbn [negb] in E.
  2: { injection E as <- <-. apply flash_ok_false in S1. rewrite Hm. split; [done|]. split; [done|].
       by intros [= ->]. }
  apply flash_ok_true in S1 as ->. specialize (Hv eq_refl). destruct v; cbn [negb] in E.
  2: { injection E as <- <-. rewrite Hm. split; [done|]. split; [done|]. intros _. split; [|done].
       intros Hp%Hv. done. }
  destruct (factoryResetService_ErasePersistentState f1) as [f2 s2] eqn:E2.
  destruct (erase_state_spec _ _ _ E2) as [Hp Hok]. rewrite Hm in Hp. specialize (Hp (proj1 Hv eq_refl)).
  destruct (flash_ok s2) eqn:S2; cbn [negb] in E; injection E as <- <-.
  - apply flash_ok_true in S2. split; [done|]. split; [auto|done].
  - apply flash_ok_false in S2. split; [done|]. split; [done|]. by intros [= ->].
Qed.

(** Start-ups, each of which may fail or be cut at any point. *)
Fixpoint startups (n : nat) (f : F) : F :=
  match n with
  | O => f
  | S n => startups n (FactoryResetService_ResumePending f).1
  end.

Lemma startups_safe n f :
  reset_pending (fl_mem f) \/ data_erased (fl_mem f) ->
  reset_pending (fl_mem (startups n f)) \/ data_erased (fl_mem (startups n f)).
Proof.
  revert f. induction n as [|n IH]; intros f Hp; [done|]. cbn [startups]. apply IH.
  destruct (FactoryResetService_ResumePending f) as [f' r] eqn:E.
  by apply (proj1 (resume_spec _ _ _ E)).
Qed.

(** C9. A factory reset that has been accepted cannot be lost halfway: once
    the marker is on the device, an erase that fails or is cut by a power loss
    at any point, followed by any number of start-ups that fail or are cut as
    well, leaves either the marker in place or every store erased; and the
    first start-up on a device that answers either restarts with everything
    erased, marker included, or finds that already done and changes nothing. *)
Theorem factory_reset_survives f f1 st n :
  reset_pending (fl_mem f) -> factoryResetService_ErasePersistentState f = (f1, st) ->
  let f2 := startups n f1 in
  (reset_pending (fl_mem f2) \/ data_erased (fl_mem f2))
  /\ (fl_ready f2 -> exists f3 r, FactoryResetService_ResumePending f2 = (f3, r)
        /\ data_erased (fl_mem f3) /\ ~ reset_pending (fl_mem f3)
        /\ (r = Restarted \/ (r = Returned W25Q64_STATUS_OK /\ mem_eq (fl_mem f3) (fl_mem f2)))).
Proof.
  intros Hp E f2.
  assert (reset_pending (fl_mem f2) \/ data_erased (fl_mem f2)) as Hs
    by (apply startups_safe, (proj1 (erase_state_spec _ _ _ E) Hp)).
  split; [done|]. intros Hr. destruct (FactoryResetService_ResumePending f2) as [f3 r] eqn:Er.
  exists f3, r. split; [done|]. destruct (resume_spec _ _ _ Er) as (_ & Hre & Hok).
  unfold FactoryResetService_ResumePending in Er.
  destruct (read_marker_ready f2 Hr) as (f4 & v & Em & R4). rewrite Em in Er.
  destruct (read_marker_spec _ _ _ _ Em) as [_ Hv]. specialize (Hv eq_refl).
  change (flash_ok W25Q64_STATUS_OK) with true in Er. cbn [negb] in Er. destruct v; cbn [negb] in Er.
  - destruct (erase_state_ready f4 R4) as (f5 & Ee & _). rewrite Ee in Er.
    change (flash_ok W25Q64_STATUS_OK) with true in Er. cbn [negb] in Er. injection Er as <- <-.
    destruct (Hre eq_refl). auto.
  - injection Er as <- <-. destruct (Hok eq_refl) as [Hnp Hm]. split; [|auto].
    destruct Hs as [Hs|Hs]; [|by rewrite Hm]. by apply Hv in Hs.
Qed.

(** ** What the stores load afterwards *)

Lemma erased_slice m a len n b :
  range_erased m a len -> a <= b -> b + Z.of_nat n <= a + len -> slice m b n = replicate n 255.
Proof.
  intros He Ha Hl. rewrite (slice_ext (fun _ => 255) m) by (intros x Hx; apply He; lia).
  clear. revert b. induction n as [|n IH]; intros b; cbn; [done|]. by rewrite IH.
Qed.

Lemma erased_boot {S} (cd : codec S) valid generation A B m :
  valid (c_dec cd (replicate (c_size cd) 255)) = false ->
  slice m A (c_size cd) = replicate (c_size cd) 255 ->
  slice m B (c_size cd) = replicate (c_size cd) 255 ->
  boot cd valid generation A B m = None.
Proof. intros Hv HA HB. unfold boot, choose, image. by rewrite HA, HB, Hv. Qed.

(** After a completed reset every store starts from nothing: no accounts,
    the default callback destination, and the default check configuration (a
    60-second period and six free slots), no older format being found either. *)
Lemma factory_reset_clears_stores (f : F) uc ua cc ca hc ha :
  data_erased (fl_mem f) ->
  UserStore.loaded (Store uc ua f) = ∅
  /\ CallbackConfig.loaded (Store cc ca f) = CallbackConfig.default_config
  /\ HealthCheckConfig.boots (Store hc ha f) = None
  /\ HealthCheckConfig.migrated_table (fl_mem f) = HealthCheckConfig.Table 60 (replicate 6 None).
Proof.
  intros (CA & CB & D).
  assert (forall b n, FLASH_LAYOUT_FACTORY_RESET_DATA_START <= b ->
    b + Z.of_nat n <= FLASH_LAYOUT_FACTORY_RESET_DATA_START + FLASH_LAYOUT_FACTORY_RESET_DATA_LENGTH ->
    slice (fl_mem f) b n = replicate n 255) as HD by (intros; by eapply erased_slice).
  split_and!.
  - unfold UserStore.loaded, UserStore.boots, ab_boots.
    rewrite erased_boot; [done|vm_compute; reflexivity|apply HD..]; by vm_compute.
  - unfold CallbackConfig.loaded, CallbackConfig.boots, ab_boots.
    rewrite erased_boot; [done|vm_compute; reflexivity
      |apply (erased_slice _ _ _ _ _ CA); by vm_compute|apply (erased_slice _ _ _ _ _ CB); by vm_compute].
  - unfold HealthCheckConfig.boots, ab_boots.
    apply erased_boot; [vm_compute; reflexivity|apply HD..]; by vm_compute.
  - unfold HealthCheckConfig.migrated_table.
    rewrite !erased_boot; [reflexivity|..];
      first [vm_compute; reflexivity|apply HD; by vm_compute].
Qed.

(** A round of the reset task erases nothing unless the hold was completed
    and the cancellation window expired without a double click: while it is
    still waiting, and when it was cancelled, no Flash operation outside the
    marker sector has been made; when it restarts, the marker had been written
    and read back first, so the erase is durable. *)
Lemma factory_reset_round f b i f' e :
  factoryResetService_Task_round f b i = (f', e) ->
  match e with
  | RoundCancelled _ => f' = f
  | RoundRunning | RoundMarkerFailed _ _ =>
      same_outside (fl_mem f) (fl_mem f') FLASH_LAYOUT_FACTORY_RESET_MARKER_SECTOR W25Q64_SECTOR_SIZE
  | RoundRestart st =>
      (exists b1 rest b2 b3,
        factoryResetService_WaitForLongPress b (hold i) = Some (b1, rest)
        /\ warning_loop (warningStarted i) (warningWait i) b1 (warning i) = Some b2
        /\ factoryResetService_WaitForCancellation (windowStarted i) b2 (window i) = Some (false, b3))
      /\ (reset_pending (fl_mem f') \/ data_erased (fl_mem f'))
      /\ (st = W25Q64_STATUS_OK -> data_erased (fl_mem f') /\ ~ reset_pending (fl_mem f'))
  end.
Proof.
  unfold factoryResetService_Task_round. intros E.
  assert (forall m : mem, same_outside m m FLASH_LAYOUT_FACTORY_RESET_MARKER_SECTOR W25Q64_SECTOR_SIZE)
    as Hrefl by (intros m; apply same_outside_refl).
  destruct (factoryResetService_WaitForLongPress b (hold i)) as [[b1 rest]|];
    [|injection E as <- <-; apply Hrefl].
  destruct (warning_loop _ _ b1 (warning i)) as [b2|] eqn:Ew; [|injection E as <- <-; apply Hrefl].
  destruct (factoryResetService_WaitForCancellation _ b2 (window i)) as [[[] b3]|] eqn:Ec;
    [..|injection E as <- <-; apply Hrefl].
  - destruct (factoryResetService_WaitForRelease b3 (release i)); injection E as <- <-;
      [done|apply Hrefl].
  - destruct (factoryResetService_WriteMarker f) as [f1 s1] eqn:Em.
    pose proof (write_marker_outside _ _ _ Em) as Ho.
    destruct (flash_ok s1) eqn:S1; cbn [negb] in E.
    2: { destruct (factoryResetService_WaitForRelease b3 (release i)); injection E as <- <-; exact Ho. }
    apply flash_ok_true in S1 as ->. pose proof (write_marker_ok _ _ Em) as Hp.
    destruct (factoryResetService_ErasePersistentState f1) as [f2 s2] eqn:Ee. injection E as <- <-.
    destruct (erase_state_spec _ _ _ Ee) as [Hs Hok]. split; [|split; [auto|exact Hok]].
    by exists b1, rest, b2, b3.
Qed.
End theory.

(** ** The gesture *)

(** After three equal samples the debounced state is that sample. *)
Lemma debounce_three b s :
  0 <= candidateSamples b ->
  stablePressed (factoryResetService_UpdateButton
    (factoryResetService_UpdateButton (factoryResetService_UpdateButton b s).1 s).1 s).1 = s.
Proof.
  intros H0. destruct b as [st c n]. cbn [candidateSamples] in H0.
  assert (n = 0 \/ n = 1 \/ n = 2 \/ 3 <= n) as [->|[->|[->|Hn]]] by lia;
    [by destruct s, st, c..|].
  unfold factoryResetService_UpdateButton, FACTORY_RESET_DEBOUNCE_SAMPLES.
  destruct s, st, c; cbn [Bool.eqb negb stablePressed candidatePressed candidateSamples fst orb];
    do 4 (rewrite ?(proj2 (Z.ltb_ge n 3)) by lia;
      cbn [Bool.eqb negb stablePressed candidatePressed candidateSamples fst orb]); reflexivity.
Qed.

Lemma update_samples b s :
  0 <= candidateSamples b -> 0 <= candidateSamples (factoryResetService_UpdateButton b s).1.
Proof.
  intros H0. unfold factoryResetService_UpdateButton. destruct (negb _); [cbn; lia|].
  destruct (_ || _); cbn [fst candidateSamples]; destruct (_ <? _); lia.
Qed.

(** The counting of [factoryResetService_WaitForLongPress], without its end. *)
Definition count_step (x : Z * FactoryReset_ButtonStateTypeDef) (s : bool) :=
  let b := (factoryResetService_UpdateButton x.2 s).1 in
  (if stablePressed b then x.1 + 1 else 0, b).

Definition counted := fold_left count_step.

(** The loop ends after a prefix of the samples that counts to the limit, the
    first such. *)
Lemma long_press_prefix k b l b' rest :
  long_press_loop k b l = Some (b', rest) ->
  exists used, l = used ++ rest /\ counted used (k, b) = ((counted used (k, b)).1, b')
    /\ FACTORY_RESET_HOLD_SAMPLES <= (counted used (k, b)).1.
Proof.
  revert k b. induction l as [|s l IH]; intros k b E; cbn [long_press_loop] in E;
    (destruct (k <? FACTORY_RESET_HOLD_SAMPLES) eqn:Ek;
      [|injection E as <- <-; exists []; split; [done|]; split; [done|]; cbn; lia]); [done|].
  destruct (factoryResetService_UpdateButton b s) as [b1 ev] eqn:Eu.
  destruct (IH _ _ E) as (used & -> & Hc & Hh). exists (s :: used). split; [done|].
  unfold counted in *. cbn [fold_left]. unfold count_step at 2 4 6. cbn [fst snd]. rewrite Eu.
  cbn [fst]. by split.
Qed.

Lemma counted_bound l k b : (counted l (k, b)).1 <= Z.max 0 k + Z.of_nat (length l).
Proof.
  unfold counted. revert k b. induction l as [|s l IH]; intros k b; cbn [fold_left length]; [cbn; lia|].
  unfold count_step at 2. cbn [fst snd]. etransitivity; [apply IH|].
  destruct (stablePressed _); lia.
Qed.

Lemma counted_samples l k b :
  0 <= candidateSamples b -> 0 <= candidateSamples (counted l (k, b)).2.
Proof.
  unfold counted. revert k b. induction l as [|s l IH]; intros k b H0; cbn [fold_left]; [done|].
  unfold count_step at 2. cbn [fst snd]. apply IH, update_samples, H0.
Qed.

Lemma counted_app l1 l2 x : counted (l1 ++ l2) x = counted l2 (counted l1 x).
Proof. apply fold_left_app. Qed.

Lemma counted_three x s :
  0 <= candidateSamples x.2 ->
  stablePressed (counted [s; s; s] x).2 = s /\ (s = false -> (counted [s; s; s] x).1 = 0).
Proof.
  intros H0. destruct x as [k b]. cbn [snd] in H0. pose proof (debounce_three b s H0) as Hd.
  unfold counted. cbn [fold_left]. unfold count_step. cbn [fst snd]. rewrite Hd.
  split; [done|]. by intros ->.
Qed.

(** Holding the button keeps the debounced state. *)
Lemma counted_held n k b :
  stablePressed b = true -> candidatePressed b = true -> 0 <= candidateSamples b ->
  (counted (replicate n true) (k, b)).1 = k + Z.of_nat n.
Proof.
  revert k b. induction n as [|n IH]; intros k b Hs Hc H0; [cbn; lia|].
  unfold counted in *. cbn [replicate fold_left]. unfold count_step at 2. cbn [fst snd].
  assert (stablePressed (factoryResetService_UpdateButton b true).1 = true
    /\ candidatePressed (factoryResetService_UpdateButton b true).1 = true) as [E1 E2].
  { unfold factoryResetService_UpdateButton. rewrite Hs, Hc. cbn [Bool.eqb negb].
    rewrite orb_true_r. done. }
  rewrite E1, IH; [lia|done|done|by apply update_samples].
Qed.

Lemma long_press_reached l k b tail :
  FACTORY_RESET_HOLD_SAMPLES <= (counted l (k, b)).1 -> is_Some (long_press_loop k b (l ++ tail)).
Proof.
  revert k b. induction l as [|s l IH]; intros k b Hc.
  - cbn in Hc. destruct tail; cbn [app long_press_loop];
      rewrite (proj2 (Z.ltb_ge k FACTORY_RESET_HOLD_SAMPLES)) by lia; by eexists.
  - cbn [app long_press_loop]. destruct (k <? FACTORY_RESET_HOLD_SAMPLES); [|by eexists].
    unfold counted in Hc. cbn [fold_left] in Hc. unfold count_step at 2 in Hc. cbn [fst snd] in Hc.
    destruct (factoryResetService_UpdateButton b s) as [b1 ev]. by apply IH.
Qed.

Lemma update_candidate b s : candidatePressed (factoryResetService_UpdateButton b s).1 = s.
Proof.
  unfold factoryResetService_UpdateButton. destruct s, (candidatePressed b); cbn; try done;
    by destruct (_ || _).
Qed.

(** The hold gesture: the wait ends only after at least 500 samples (ten
    seconds), and a release of three samples (60 ms) starts the ten seconds
    again; and 502 consecutive pressed samples always end it, from any state
    of the button. *)
Lemma long_press_held b l tail :
  0 <= candidateSamples b ->
  (forall b' rest, factoryResetService_WaitForLongPress b l = Some (b', rest) ->
     exists used, l = used ++ rest /\ (500 <= length used)%nat
       /\ forall pre post, used = pre ++ [false; false; false] ++ post -> (500 <= length post)%nat)
  /\ is_Some (factoryResetService_WaitForLongPress b (replicate 502 true ++ tail)).
Proof.
  intros H0. split.
  - intros b' rest E. destruct (long_press_prefix _ _ _ _ _ E) as (used & -> & _ & Hh).
    exists used. split; [done|]. unfold FACTORY_RESET_HOLD_SAMPLES in Hh. split.
    + pose proof (counted_bound used 0 b). lia.
    + intros pre post ->. rewrite !counted_app in Hh.
      destruct (counted_three (counted pre (0, b)) false (counted_samples pre 0 b H0)) as [_ Hz].
      specialize (Hz eq_refl). destruct (counted [false; false; false] _) as [k1 b1].
      cbn [fst] in Hz. subst k1. pose proof (counted_bound post 0 b1). lia.
  - apply long_press_reached. change 502%nat with (3 + 499)%nat. rewrite replicate_add, counted_app.
    change (replicate 3 true) with [true; true; true].
    destruct (counted_three (0, b) true H0) as [Hst _].
    assert (candidatePressed (counted [true; true; true] (0, b)).2 = true) as Hc
      by apply update_candidate.
    pose proof (counted_samples [true; true; true] 0 b H0) as Hn.
    assert (1 <= (counted [true; true; true] (0, b)).1) as Hk.
    { revert Hst. unfold counted. cbn [fold_left]. unfold count_step. cbn [fst snd]. intros ->.
      repeat destruct (stablePressed _); lia. }
    destruct (counted [true; true; true] (0, b)) as [k1 b1]. cbn [fst snd] in *.
    rewrite counted_held by done. unfold FACTORY_RESET_HOLD_SAMPLES. lia.
Qed.

(** The button and the event after each round of the cancellation window. *)
Fixpoint button_events (b : FactoryReset_ButtonStateTypeDef) (l : list (Z * bool * Z)) :
    list (FactoryReset_ButtonEventTypeDef * Z) :=
  match l with
  | [] => []
  | (_, s, now) :: l =>
      let '(b, e) := factoryResetService_UpdateButton b s in (e, now) :: button_events b l
  end.

Definition clicked (ev : list (FactoryReset_ButtonEventTypeDef * Z)) (i : nat) (t : Z) : Prop :=
  ev !! i = Some (FACTORY_RESET_BUTTON_EVENT_PRESSED, t).

Lemma cancellation_clicks w first n armed b l b' :
  cancellation_loop w first n armed b l = Some (true, b') ->
  (exists i j t1 t2, (i < j)%nat /\ clicked (button_events b l) i t1 /\ clicked (button_events b l) j t2
     /\ u32 (t2 - t1) <= FACTORY_RESET_DOUBLE_CLICK_MS)
  \/ (n <> 0 /\ exists j t2, clicked (button_events b l) j t2
        /\ u32 (t2 - first) <= FACTORY_RESET_DOUBLE_CLICK_MS).
Proof.
  revert first n armed b. induction l as [|[[t s] now] l IH]; intros first n armed b E;
    cbn [cancellation_loop] in E; [done|].
  destruct (_ <? FACTORY_RESET_CANCEL_WINDOW_MS); [|done]. cbn [button_events].
  destruct (factoryResetService_UpdateButton b s) as [b1 ev].
  assert (forall first' n' armed', cancellation_loop w first' n' armed' b1 l = Some (true, b') ->
    (exists i j t1 t2, (i < j)%nat /\ clicked ((ev, now) :: button_events b1 l) i t1
       /\ clicked ((ev, now) :: button_events b1 l) j t2
       /\ u32 (t2 - t1) <= FACTORY_RESET_DOUBLE_CLICK_MS)
    \/ (n' <> 0 /\ exists j t2, clicked ((ev, now) :: button_events b1 l) (S j) t2
          /\ u32 (t2 - first') <= FACTORY_RESET_DOUBLE_CLICK_MS)) as Hrec.
  { intros first' n' armed' E'. destruct (IH _ _ _ _ E') as [(i & j & t1 & t2 & Hij & H1 & H2 & Hd)|
      (Hn & j & t2 & H2 & Hd)]; [left; exists (S i), (S j), t1, t2; split; [lia|done]|].
    right. split; [done|]. by exists j, t2. }
  destruct (negb armed).
  - destruct (Hrec _ _ _ E) as [Hl|(Hn & j & t2 & H2 & Hd)]; [by left|]. right. eauto.
  - destruct (decide (ev = FACTORY_RESET_BUTTON_EVENT_PRESSED)) as [Hev|Hev];
      [rewrite bool_decide_true in E by done; subst ev|rewrite bool_decide_false in E by done].
    + destruct (_ || _) eqn:Eb.
      * destruct (Hrec _ _ _ E) as [Hl|(_ & j & t2 & H2 & Hd)]; [by left|].
        left. exists 0%nat, (S j), now, t2. split; [lia|]. by split.
      * right. apply orb_false_iff in Eb as [En Et]. apply Z.eqb_neq in En. apply Z.ltb_ge in Et.
        split; [done|]. by exists 0%nat, now.
    + destruct (Hrec _ _ _ E) as [Hl|(Hn & j & t2 & H2 & Hd)]; [by left|]. right. eauto.
Qed.

(** A reset is cancelled only by a real double click: two debounced presses
    after the window opened, at most 600 ms apart on the tick counter. *)
Lemma cancellation_is_double_click w b l b' :
  factoryResetService_WaitForCancellation w b l = Some (true, b') ->
  exists i j t1 t2, (i < j)%nat /\ clicked (button_events b l) i t1 /\ clicked (button_events b l) j t2
    /\ u32 (t2 - t1) <= 600.
Proof. intros E. destruct (cancellation_clicks _ _ _ _ _ _ _ E) as [Hl|[Hn _]]; done. Qed.

(** ** Concrete runs *)

Definition idle_button : FactoryReset_ButtonStateTypeDef := Button false false 0.

(** A reset accepted on a blank device. *)
Definition demo_marked : simflash := (factoryResetService_WriteMarker blank).1.

(** The erase is cut in its sixth sector, and so is the next start-up. *)
Definition demo_cut : simflash :=
  SimFlash (sim_mem demo_marked)
    [None; None; None; None; None; Some 100%nat; None; None; None; Some 7%nat].

Lemma demo_cut_pending : reset_pending (fl_mem demo_cut).
Proof. vm_compute. reflexivity. Qed.

Lemma demo_cut_ready : fl_ready (startups 1 (factoryResetService_ErasePersistentState demo_cut).1).
Proof. vm_compute. constructor. Qed.

Lemma factory_reset_survives_witness :
  exists f3 r, FactoryResetService_ResumePending
      (startups 1 (factoryResetService_ErasePersistentState demo_cut).1) = (f3, r)
    /\ data_erased (fl_mem f3) /\ ~ reset_pending (fl_mem f3).
Proof.
  destruct (factoryResetService_ErasePersistentState demo_cut) as [f1 st] eqn:E.
  destruct (factory_reset_survives demo_cut f1 st 1 demo_cut_pending E) as [_ Hr].
  pose proof demo_cut_ready as Hready. rewrite E in Hready. cbn [fst] in *.
  destruct (Hr Hready) as (f3 & r & Er & Hd & Hp & _). exists f3, r. split; [exact Er|]. split; [exact Hd|exact Hp].
Defined.

Lemma blank_erased : data_erased (fl_mem blank).
Proof. split; [|split]; intros x _; reflexivity. Qed.

Lemma factory_reset_clears_stores_witness :
  UserStore.loaded (Store UserStore.zero_snapshot 0 blank) = ∅.
Proof.
  exact (proj1 (factory_reset_clears_stores blank UserStore.zero_snapshot 0
    CallbackConfig.default_snapshot 0 HealthCheckConfig.healthCheckConfig_SetDefault 0 blank_erased)).
Defined.

(** Ten seconds of holding, and a window in which nothing happens. *)
Definition demo_inputs : round_inputs :=
  RoundInputs (replicate 502 true) 0 100 [(50, true); (120, false)] 200 [(300, false, 301); (10300, false, 10301)] [false; false; false].

Lemma demo_round_outcome f' e :
  factoryResetService_Task_round blank idle_button demo_inputs = (f', e) -> e = RoundRestart W25Q64_STATUS_OK.
Proof.
  intros E. assert ((factoryResetService_Task_round blank idle_button demo_inputs).2
    = RoundRestart W25Q64_STATUS_OK) as H by (vm_compute; reflexivity).
  rewrite E in H. exact H.
Qed.

Lemma factory_reset_round_witness :
  data_erased (fl_mem (factoryResetService_Task_round blank idle_button demo_inputs).1).
Proof.
  destruct (factoryResetService_Task_round blank idle_button demo_inputs) as [f' e] eqn:E.
  pose proof (factory_reset_round _ _ _ _ _ E) as H. rewrite (demo_round_outcome _ _ E) in H.
  destruct H as (_ & _ & H). exact (proj1 (H eq_refl)).
Defined.

Lemma long_press_held_witness :
  is_Some (factoryResetService_WaitForLongPress idle_button (replicate 502 true ++ [])).
Proof. exact (proj2 (long_press_held idle_button [] [] (Z.le_refl 0))). Defined.

Definition demo_clicks : list (Z * bool * Z) :=
  [(0, true, 0); (20, true, 20); (40, true, 40); (60, false, 60); (80, false, 80); (100, false, 100);
   (120, true, 120); (140, true, 140); (160, true, 160)].

Lemma cancellation_is_double_click_witness :
  exists i j t1 t2, (i < j)%nat /\ clicked (button_events idle_button demo_clicks) i t1
    /\ clicked (button_events idle_button demo_clicks) j t2 /\ u32 (t2 - t1) <= 600.
Proof.
  apply (cancellation_is_double_click 0 idle_button demo_clicks (Button true true 3)).
  vm_compute. reflexivity.
Defined.

(** A reset reported as cancelled may still happen: when the marker was
    written but its read-back fails, the round reports a failed marker and goes
    on, while the marker is on the device and the next start-up erases
    everything. *)
Lemma failed_marker_still_resets :
  let f := SimFlash (sim_mem blank) [None; None; Some 0%nat] in
  exists st b, (factoryResetService_Task_round f idle_button demo_inputs).2 = RoundMarkerFailed st b
    /\ (FactoryResetService_ResumePending
          (factoryResetService_Task_round f idle_button demo_inputs).1).2 = Restarted.
Proof. eexists _, _. split; vm_compute; reflexivity. Qed.
