(* ===== verification/ServerCredentials.v ===== *)
(** [TLS/Src/tls_server_credentials.c]: the management server's certificate and
    private key.

    A new certificate and key are staged one at a time; when the staged part
    and its counterpart (staged too, or stored) form a pair they are committed
    together to the inactive Flash sector and the staging area is cleared.
    Mbed TLS is a parameter: whether the random generator could be seeded, the
    parsers, and the pairing check.  The file proves that the certificate and
    key the server uses always form a pair, also across failures and power
    losses at any point of a commit, and what each outcome leaves staged. *)
From S2P Require Import Prelude Codec Crc NorFlash SimFlash FlashLayout AbStore.

Definition TLS_SERVER_CREDENTIALS_MAGIC : Z := 0x54534352.
Definition TLS_SERVER_CREDENTIALS_VERSION : Z := 3.
Definition TLS_SERVER_CREDENTIALS_MAX_CERTIFICATE_SIZE : nat := 1152.
Definition TLS_SERVER_CREDENTIALS_MAX_KEY_SIZE : nat := 384.
Abbreviation SA := FLASH_LAYOUT_TLS_SERVER_CREDENTIALS_SECTOR_A.
Abbreviation SB := FLASH_LAYOUT_TLS_SERVER_CREDENTIALS_SECTOR_B.
Abbreviation MAX_CERT := TLS_SERVER_CREDENTIALS_MAX_CERTIFICATE_SIZE.
Abbreviation MAX_KEY := TLS_SERVER_CREDENTIALS_MAX_KEY_SIZE.

Inductive TlsServerCredentials_StatusTypeDef :=
  | TLS_SERVER_CREDENTIALS_STATUS_ACTIVATED
  | TLS_SERVER_CREDENTIALS_STATUS_PENDING
  | TLS_SERVER_CREDENTIALS_STATUS_INVALID_DATA
  | TLS_SERVER_CREDENTIALS_STATUS_MISMATCH
  | TLS_SERVER_CREDENTIALS_STATUS_STORAGE_ERROR.

#[global] Instance TlsServerCredentials_Status_eq_dec : EqDecision TlsServerCredentials_StatusTypeDef.
Proof. solve_decision. Defined.

Record TlsServerCredentials_SnapshotTypeDef := Snapshot {
  magic : Z;
  version : Z;
  reserved : Z;
  generation : Z;
  certificateLength : Z;
  keyLength : Z;
  certificate : bytes;
  key : bytes;
  crc : Z;
}.

#[global] Instance Snapshot_eq_dec : EqDecision TlsServerCredentials_SnapshotTypeDef.
Proof. solve_decision. Defined.

Definition c_snapshot : codec TlsServerCredentials_SnapshotTypeDef.
Proof.
  refine (c_iso (c_u32 ** c_u16 ** c_u16 ** c_u32 ** c_u16 ** c_u16 ** c_bytes MAX_CERT
                 ** c_bytes MAX_KEY ** c_u32)%codec
    (fun '(m, (v, (r, (g, (cl, (kl, (c, (k, x)))))))) => Snapshot m v r g cl kl c k x)
    (fun x => (magic x, (version x, (reserved x, (generation x, (certificateLength x, (keyLength x,
       (certificate x, (key x, crc x))))))))) _ _).
  - by intros [].
  - by intros (?&?&?&?&?&?&?&?&?).
Defined.

Arguments c_snapshot : simpl never.

(** ** Pure helpers *)

Definition tlsServerCredentials_Crc (c : TlsServerCredentials_SnapshotTypeDef) : Z :=
  crc32 (prefix_before_crc c_snapshot c).

Definition tlsServerCredentials_IsValid (c : TlsServerCredentials_SnapshotTypeDef) : bool :=
  (magic c =? TLS_SERVER_CREDENTIALS_MAGIC) && (version c =? TLS_SERVER_CREDENTIALS_VERSION)
  && (certificateLength c <=? Z.of_nat MAX_CERT) && (keyLength c <=? Z.of_nat MAX_KEY)
  && (crc c =? tlsServerCredentials_Crc c).

Definition zero_snapshot : TlsServerCredentials_SnapshotTypeDef :=
  Snapshot 0 0 0 0 0 0 (zeros MAX_CERT) (zeros MAX_KEY) 0.

(** The header [tlsServerCredentials_Save] writes into the candidate. *)
Definition stamp_header (c : TlsServerCredentials_SnapshotTypeDef) :=
  Snapshot TLS_SERVER_CREDENTIALS_MAGIC TLS_SERVER_CREDENTIALS_VERSION (reserved c)
    (u32 (generation c + 1)) (certificateLength c) (keyLength c) (certificate c) (key c) (crc c).

Definition with_crc (c : TlsServerCredentials_SnapshotTypeDef) x :=
  Snapshot (magic c) (version c) (reserved c) (generation c) (certificateLength c) (keyLength c)
    (certificate c) (key c) x.

Definition stamp (c : TlsServerCredentials_SnapshotTypeDef) :=
  let c := stamp_header c in with_crc c (tlsServerCredentials_Crc c).

(** [memcpy] to the start of a buffer. *)
Definition copy_in (dst src : bytes) : bytes := src ++ drop (length src) dst.

(** The candidate [tlsServerCredentials_TryActivate] builds. *)
Definition candidate_of (c : TlsServerCredentials_SnapshotTypeDef) (cert k : bytes) :=
  Snapshot (magic c) (version c) (reserved c) (generation c)
    (u16 (Z.of_nat (length cert))) (u16 (Z.of_nat (length k)))
    (copy_in (zeros MAX_CERT) cert) (copy_in (zeros MAX_KEY) k) (crc c).

(** The certificate and the key a snapshot holds. *)
Definition cert_of (c : TlsServerCredentials_SnapshotTypeDef) : bytes :=
  take (Z.to_nat (certificateLength c)) (certificate c).
Definition key_of (c : TlsServerCredentials_SnapshotTypeDef) : bytes :=
  take (Z.to_nat (keyLength c)) (key c).

(** ** Operations *)

(** One staged part: its buffer, its length and its flag. *)
Record staged := Staged { pending : bytes; pendingLength : nat; isStaged : bool }.

(** What a staged buffer offers. *)
Definition staged_data (x : staged) : bytes := take (pendingLength x) (pending x).

Section ops.
Context {F : Type} `{Flash F}.

Record state := State {
  st_store : store TlsServerCredentials_SnapshotTypeDef F;
  hasValidSnapshot : bool;
  stagedCertificate : staged;
  stagedKey : staged;
}.

Definition tlsServerCredentials_ClearStaging (s : state) : state :=
  State (st_store s) (hasValidSnapshot s) (Staged (zeros MAX_CERT) 0 false)
    (Staged (zeros MAX_KEY) 0 false).

Definition tlsServerCredentials_Save (s : state) (candidate : TlsServerCredentials_SnapshotTypeDef) :
    state * HealthCheck_StatusTypeDef :=
  let st := st_store s in
  let target := if activeAddress st =? SA then SB else SA in
  let candidate := stamp candidate in
  let failed f := (State (Store (snapshot st) (activeAddress st) f) (hasValidSnapshot s)
                     (stagedCertificate s) (stagedKey s), HEALTH_CHECK_STATUS_ERROR) in
  let '(f, s1) := W25Q64_EraseSector (flash st) target in
  if negb (flash_ok s1) then failed f else
  let '(f, s2) := W25Q64_Program f target (c_enc c_snapshot candidate) in
  if negb (flash_ok s2) then failed f else
  let '(f, s3, d) := W25Q64_Read f target (c_size c_snapshot) in
  let verification := c_dec c_snapshot d in
  if negb (flash_ok s3) || negb (tlsServerCredentials_IsValid verification)
     || negb (generation verification =? generation candidate)
  then failed f
  else (State (Store candidate target f) true (stagedCertificate s) (stagedKey s),
        HEALTH_CHECK_STATUS_OK).

Definition TlsServerCredentials_Init (s : state) : state * HealthCheck_StatusTypeDef :=
  let '(f, newest) := load_newest c_snapshot tlsServerCredentials_IsValid generation SA SB
                        (flash (st_store s)) in
  (match newest with
   | Some (x, address) => State (Store x address f) true (stagedCertificate s) (stagedKey s)
   | None => State (Store zero_snapshot SB f) false (stagedCertificate s) (stagedKey s)
   end, HEALTH_CHECK_STATUS_OK).

(** Mbed TLS: the two parsers and the pairing check, on what they are given. *)
Context (parse_certificate parse_key : bytes -> bool) (check_pair : bytes -> bytes -> bool).

(** [seeded] is whether the random generator could be seeded. *)
Definition tlsServerCredentials_TryActivate (seeded : bool) (s : state) :
    state * TlsServerCredentials_StatusTypeDef :=
  let c := snapshot (st_store s) in
  let pick x stored := if isStaged x then Some (staged_data x)
                       else if hasValidSnapshot s then Some stored else None in
  match pick (stagedCertificate s) (cert_of c) with
  | None => (s, TLS_SERVER_CREDENTIALS_STATUS_PENDING)
  | Some cert =>
      match pick (stagedKey s) (key_of c) with
      | None => (s, TLS_SERVER_CREDENTIALS_STATUS_PENDING)
      | Some k =>
          if negb (seeded && parse_certificate cert && parse_key k)
          then (tlsServerCredentials_ClearStaging s, TLS_SERVER_CREDENTIALS_STATUS_INVALID_DATA)
          else if negb (check_pair cert k) then
            if negb (isStaged (stagedCertificate s)) || negb (isStaged (stagedKey s))
            then (s, TLS_SERVER_CREDENTIALS_STATUS_PENDING)
            else (tlsServerCredentials_ClearStaging s, TLS_SERVER_CREDENTIALS_STATUS_MISMATCH)
          else
            let '(s', r) := tlsServerCredentials_Save s (candidate_of c cert k) in
            (tlsServerCredentials_ClearStaging s',
             match r with
             | HEALTH_CHECK_STATUS_OK => TLS_SERVER_CREDENTIALS_STATUS_ACTIVATED
             | HEALTH_CHECK_STATUS_ERROR => TLS_SERVER_CREDENTIALS_STATUS_STORAGE_ERROR
             end)
      end
  end.

(** [locked] is whether [TlsPlatform_Lock] succeeds; [None] is a [NULL]
    pointer. *)
Definition TlsServerCredentials_StageCertificate (locked seeded : bool) (s : state)
    (der : option bytes) : state * TlsServerCredentials_StatusTypeDef :=
  match der with
  | None => (s, TLS_SERVER_CREDENTIALS_STATUS_INVALID_DATA)
  | Some der =>
      if (length der =? 0)%nat || (MAX_CERT <? length der)%nat
      then (s, TLS_SERVER_CREDENTIALS_STATUS_INVALID_DATA) else
      if negb locked then (s, TLS_SERVER_CREDENTIALS_STATUS_STORAGE_ERROR) else
      tlsServerCredentials_TryActivate seeded
        (State (st_store s) (hasValidSnapshot s)
           (Staged (copy_in (pending (stagedCertificate s)) der) (length der) true) (stagedKey s))
  end.

Definition TlsServerCredentials_StagePrivateKey (locked seeded : bool) (s : state)
    (der : option bytes) : state * TlsServerCredentials_StatusTypeDef :=
  match der with
  | None => (s, TLS_SERVER_CREDENTIALS_STATUS_INVALID_DATA)
  | Some der =>
      if (length der =? 0)%nat || (MAX_KEY <? length der)%nat
      then (s, TLS_SERVER_CREDENTIALS_STATUS_INVALID_DATA) else
      if negb locked then (s, TLS_SERVER_CREDENTIALS_STATUS_STORAGE_ERROR) else
      tlsServerCredentials_TryActivate seeded
        (State (st_store s) (hasValidSnapshot s) (stagedCertificate s)
           (Staged (copy_in (pending (stagedKey s)) der) (length der) true))
  end.

(** The built-in credentials of the generated header. *)
Context (managementServerCertificate managementServerPrivateKey : bytes).

Definition TlsServerCredentials_GetCertificate (s : state) : bytes :=
  if hasValidSnapshot s then cert_of (snapshot (st_store s)) else managementServerCertificate.

Definition TlsServerCredentials_GetPrivateKey (s : state) : bytes :=
  if hasValidSnapshot s then key_of (snapshot (st_store s)) else managementServerPrivateKey.
End ops.
Arguments state : clear implicits.

(** ** Well-formed values *)

Lemma tsc_snapshot_wf c :
  c_wf c_snapshot c <->
  is_u32 (magic c) /\ is_u16 (version c) /\ is_u16 (reserved c) /\ is_u32 (generation c)
  /\ is_u16 (certificateLength c) /\ is_u16 (keyLength c)
  /\ (length (certificate c) = MAX_CERT /\ Forall is_u8 (certificate c))
  /\ (length (key c) = MAX_KEY /\ Forall is_u8 (key c)) /\ is_u32 (crc c).
Proof. reflexivity. Qed.

Lemma tsc_crc_field_indep c x :
  c_wf c_snapshot c -> tlsServerCredentials_Crc (with_crc c x) = tlsServerCredentials_Crc c.
Proof.
  destruct c as [m v r g cl kl ce k y]. intros (H1 & H2 & H3 & H4 & H5 & H6 & H7 & H8 & _).
  unfold tlsServerCredentials_Crc. f_equal.
  repeat (apply prefix_pair; [done|simpl; lia|]). apply prefix_crc_field.
Qed.

Lemma tsc_generation_u32 c : c_wf c_snapshot c -> is_u32 (generation c).
Proof. intros Hw. exact (proj1 (proj2 (proj2 (proj2 (proj1 (tsc_snapshot_wf c) Hw))))). Qed.

#[global] Opaque c_snapshot.

Lemma tsc_stamp_header_wf c : c_wf c_snapshot c -> c_wf c_snapshot (stamp_header c).
Proof.
  intros (H1 & H2 & H3 & H4 & H5 & H6 & H7 & H8 & H9)%tsc_snapshot_wf. apply tsc_snapshot_wf.
  cbn [magic version reserved generation certificateLength keyLength certificate key crc stamp_header].
  split_and!; done || apply u32_range || apply H7 || apply H8 || by vm_compute.
Qed.

Lemma tsc_stamp_wf c : c_wf c_snapshot c -> c_wf c_snapshot (stamp c).
Proof.
  intros H%tsc_stamp_header_wf. pose proof (crc32_u32 _ (prefix_bytes _ _ H)) as Hc.
  apply tsc_snapshot_wf in H as (H1 & H2 & H3 & H4 & H5 & H6 & H7 & H8 & H9).
  apply tsc_snapshot_wf. by split_and!; try apply H7; try apply H8.
Qed.

Lemma tsc_stamp_valid c :
  c_wf c_snapshot c ->
  tlsServerCredentials_IsValid (stamp c)
  = (certificateLength c <=? Z.of_nat MAX_CERT) && (keyLength c <=? Z.of_nat MAX_KEY).
Proof.
  intros H%tsc_stamp_header_wf. unfold tlsServerCredentials_IsValid, stamp.
  rewrite tsc_crc_field_indep by done. cbn [magic version certificateLength keyLength crc with_crc stamp_header].
  by rewrite !Z.eqb_refl, andb_true_r.
Qed.

#[global] Instance credentials_pair : AbPair c_snapshot SA SB W25Q64_SECTOR_SIZE.
Proof. ab_pair. Qed.

(** Lengths that fit the buffers. *)
Definition part_ok (max : nat) (d : bytes) : Prop := (length d <= max)%nat /\ Forall is_u8 d.

Lemma copy_in_spec max d :
  part_ok max d ->
  length (copy_in (zeros max) d) = max /\ Forall is_u8 (copy_in (zeros max) d)
  /\ take (Z.to_nat (Z.of_nat (length d))) (copy_in (zeros max) d) = d.
Proof.
  intros [Hl Hb]. unfold copy_in. split; [|split].
  - rewrite length_app, length_drop, length_zeros. lia.
  - apply Forall_app. split; [done|]. apply Forall_drop, zeros_bytes.
  - by rewrite Nat2Z.id, take_app_length.
Qed.

Lemma u16_length max d : (max <= 4096)%nat -> (length d <= max)%nat ->
  u16 (Z.of_nat (length (d : bytes))) = Z.of_nat (length d).
Proof. intros Hm Hl. apply u16_id. unfold is_u16. lia. Qed.

Lemma candidate_spec c cert k :
  c_wf c_snapshot c -> part_ok MAX_CERT cert -> part_ok MAX_KEY k ->
  c_wf c_snapshot (candidate_of c cert k)
  /\ cert_of (stamp (candidate_of c cert k)) = cert /\ key_of (stamp (candidate_of c cert k)) = k
  /\ tlsServerCredentials_IsValid (stamp (candidate_of c cert k)) = true.
Proof.
  intros Hw Hc Hk. destruct (copy_in_spec _ _ Hc) as (C1 & C2 & C3).
  destruct (copy_in_spec _ _ Hk) as (K1 & K2 & K3).
  pose proof (u16_length MAX_CERT cert ltac:(unfold MAX_CERT; lia) (proj1 Hc)) as Ec.
  pose proof (u16_length MAX_KEY k ltac:(unfold MAX_KEY; lia) (proj1 Hk)) as Ek.
  assert (c_wf c_snapshot (candidate_of c cert k)) as Hw'.
  { apply tsc_snapshot_wf in Hw as (H1 & H2 & H3 & H4 & _ & _ & _ & _ & H9). apply tsc_snapshot_wf.
    unfold candidate_of. cbn [magic version reserved generation certificateLength keyLength certificate key crc].
    split_and!; done || apply u16_range. }
  split; [done|]. unfold cert_of, key_of. rewrite tsc_stamp_valid by done.
  unfold stamp, with_crc, stamp_header, candidate_of.
  cbn [certificate key certificateLength keyLength]. rewrite Ec, Ek. split; [done|]. split; [done|].
  destruct Hc, Hk. apply andb_true_iff. split; apply Z.leb_le; lia.
Qed.

Lemma zero_credentials_wf : c_wf c_snapshot zero_snapshot.
Proof. apply tsc_snapshot_wf. split_and!; try done; apply zeros_bytes. Qed.

(** ** The invariant *)

Section theory.
Context {F : Type} `{FlashLaws F}.
Context (parse_certificate parse_key : bytes -> bool) (check_pair : bytes -> bytes -> bool).

Abbreviation TryActivate := (tlsServerCredentials_TryActivate parse_certificate parse_key check_pair).
Abbreviation published := (ab_inv (F := F) c_snapshot tlsServerCredentials_IsValid SA SB).
Abbreviation fresh := (ab_fresh (F := F) c_snapshot tlsServerCredentials_IsValid SA SB).

(** A certificate and a key that can be served: both parse and they pair. *)
Definition usable (cert k : bytes) : Prop :=
  parse_certificate cert = true /\ parse_key k = true /\ check_pair cert k = true.

Definition staged_ok (max : nat) (x : staged) : Prop :=
  length (pending x) = max /\ Forall is_u8 (pending x) /\ (pendingLength x <= max)%nat.

(** Stored credentials are those of the active sector, and usable; without any
    the built-in ones are served. *)
Record Inv (s : state F) : Prop := {
  inv_stored : hasValidSnapshot s = true ->
    published (st_store s)
    /\ usable (cert_of (snapshot (st_store s))) (key_of (snapshot (st_store s)));
  inv_builtin : hasValidSnapshot s = false -> fresh (st_store s) /\ snapshot (st_store s) = zero_snapshot;
  inv_certificate : staged_ok MAX_CERT (stagedCertificate s);
  inv_key : staged_ok MAX_KEY (stagedKey s);
}.

(** What a restart would load. *)
Definition boots (s : state F) : option (TlsServerCredentials_SnapshotTypeDef * Z) :=
  ab_boots c_snapshot tlsServerCredentials_IsValid generation SA SB (st_store s).

Lemma tsc_save_ab (s : state F) c :
  tlsServerCredentials_Save s c =
  let '(st, r) := ab_save c_snapshot tlsServerCredentials_IsValid generation SA SB (st_store s) (stamp c) in
  (State st (match r with HEALTH_CHECK_STATUS_OK => true | HEALTH_CHECK_STATUS_ERROR => hasValidSnapshot s end)
     (stagedCertificate s) (stagedKey s), r).
Proof.
  unfold tlsServerCredentials_Save, ab_save, ab_commit, other.
  destruct (W25Q64_EraseSector _ _) as [f1 s1]. destruct (flash_ok s1); [|done].
  destruct (W25Q64_Program _ _ _) as [f2 s2]. cbn [negb]. destruct (flash_ok s2); [|done].
  destruct (W25Q64_Read _ _ _) as [[f3 s3] d]. cbn [negb].
  by destruct (negb (flash_ok s3) || _ || _).
Qed.

Lemma snapshot_of_inv s : Inv s -> c_wf c_snapshot (snapshot (st_store s)).
Proof.
  intros Hi. destruct (hasValidSnapshot s) eqn:E.
  - apply (ab_inv_wf _ _ _ _ _ (proj1 (inv_stored s Hi E))).
  - rewrite (proj2 (inv_builtin s Hi E)). apply zero_credentials_wf.
Qed.

Lemma cleared_ok max : staged_ok max (Staged (zeros max) 0 false).
Proof. split; [apply length_zeros|]. split; [apply zeros_bytes|cbn; lia]. Qed.

Lemma staged_part max x : staged_ok max x -> part_ok max (staged_data x).
Proof.
  intros (Hl & Hb & Hn). split; [unfold staged_data; rewrite length_take; lia|]. by apply Forall_take.
Qed.

Lemma stored_part s :
  Inv s -> part_ok MAX_CERT (cert_of (snapshot (st_store s))) /\ part_ok MAX_KEY (key_of (snapshot (st_store s))).
Proof.
  intros Hi. pose proof (snapshot_of_inv s Hi) as Hw.
  apply tsc_snapshot_wf in Hw as (_ & _ & _ & _ & _ & _ & [Hc Hcb] & [Hk Hkb] & _).
  unfold cert_of, key_of. split; (split; [rewrite length_take; lia|by apply Forall_take]).
Qed.

(** The parts [tlsServerCredentials_TryActivate] looks at. *)
Definition chosen (s : state F) (x : staged) (stored : bytes) : option bytes :=
  if isStaged x then Some (staged_data x) else if hasValidSnapshot s then Some stored else None.

Definition chosen_cert (s : state F) := chosen s (stagedCertificate s) (cert_of (snapshot (st_store s))).
Definition chosen_key (s : state F) := chosen s (stagedKey s) (key_of (snapshot (st_store s))).

Lemma chosen_part s cert k :
  Inv s -> chosen_cert s = Some cert -> chosen_key s = Some k -> part_ok MAX_CERT cert /\ part_ok MAX_KEY k.
Proof.
  intros Hi Hc Hk. destruct (stored_part s Hi). unfold chosen_cert, chosen_key, chosen in *. split.
  - destruct (isStaged _); [injection Hc as <-; apply staged_part, Hi|].
    destruct (hasValidSnapshot s); [by injection Hc as <-|done].
  - destruct (isStaged (stagedKey s)); [injection Hk as <-; apply staged_part, Hi|].
    destruct (hasValidSnapshot s); [by injection Hk as <-|done].
Qed.

(** Every way an activation attempt ends: nothing stored changes, or a usable
    pair is saved. *)
Lemma try_activate_cases seeded s s' st :
  TryActivate seeded s = (s', st) ->
  (st <> TLS_SERVER_CREDENTIALS_STATUS_ACTIVATED /\ st <> TLS_SERVER_CREDENTIALS_STATUS_STORAGE_ERROR
   /\ (s' = s \/ s' = tlsServerCredentials_ClearStaging s))
  \/ (exists cert k s1 r, chosen_cert s = Some cert /\ chosen_key s = Some k /\ usable cert k
      /\ tlsServerCredentials_Save s (candidate_of (snapshot (st_store s)) cert k) = (s1, r)
      /\ s' = tlsServerCredentials_ClearStaging s1
      /\ st = match r with
              | HEALTH_CHECK_STATUS_OK => TLS_SERVER_CREDENTIALS_STATUS_ACTIVATED
              | HEALTH_CHECK_STATUS_ERROR => TLS_SERVER_CREDENTIALS_STATUS_STORAGE_ERROR
              end).
Proof.
  unfold tlsServerCredentials_TryActivate. cbv zeta. fold (chosen_cert s) (chosen_key s). intros E.
  change (if isStaged (stagedCertificate s) then _ else _) with (chosen_cert s) in E.
  change (if isStaged (stagedKey s) then Some _ else _) with (chosen_key s) in E.
  destruct (chosen_cert s) as [cert|] eqn:Ec; [|injection E as <- <-; left; auto].
  destruct (chosen_key s) as [k|] eqn:Ek; [|injection E as <- <-; left; auto].
  destruct (seeded && parse_certificate cert && parse_key k) eqn:Ep; cbn [negb] in E;
    [|injection E as <- <-; left; auto].
  apply andb_true_iff in Ep as [[_ Pc]%andb_true_iff Pk].
  destruct (check_pair cert k) eqn:Epair; cbn [negb] in E.
  - destruct (tlsServerCredentials_Save s _) as [s1 r] eqn:Es. injection E as <- <-. right.
    exists cert, k, s1, r. done.
  - destruct (_ || _); injection E as <- <-; left; auto.
Qed.

Lemma clear_staging_inv s : Inv s -> Inv (tlsServerCredentials_ClearStaging s).
Proof. intros [H1 H2 H3 H4]. split; try done; apply cleared_ok. Qed.

(** One call of an operation that changes state. *)
Inductive op := OpCertificate (der : option bytes) | OpKey (der : option bytes).

Definition op_ok (o : op) : Prop :=
  match o with OpCertificate (Some d) | OpKey (Some d) => Forall is_u8 d | _ => True end.

Definition run (locked seeded : bool) (s : state F) (o : op) :
    state F * TlsServerCredentials_StatusTypeDef :=
  match o with
  | OpCertificate d =>
      TlsServerCredentials_StageCertificate parse_certificate parse_key check_pair locked seeded s d
  | OpKey d => TlsServerCredentials_StagePrivateKey parse_certificate parse_key check_pair locked seeded s d
  end.

Lemma stage_ok max x d :
  staged_ok max x -> (length d <= max)%nat -> Forall is_u8 d ->
  staged_ok max (Staged (copy_in (pending x) d) (length d) true).
Proof.
  intros (Hl & Hb & _) Hd H8. unfold copy_in. split; cbn [pending pendingLength].
  - rewrite length_app, length_drop. lia.
  - split; [|done]. apply Forall_app. split; [done|]. by apply Forall_drop.
Qed.

(** A call is refused, or stages its argument and tries to activate. *)
Lemma run_cases locked seeded s o s' st :
  Inv s -> op_ok o -> run locked seeded s o = (s', st) ->
  (s' = s /\ st <> TLS_SERVER_CREDENTIALS_STATUS_ACTIVATED)
  \/ exists s0, Inv s0 /\ st_store s0 = st_store s /\ hasValidSnapshot s0 = hasValidSnapshot s
       /\ TryActivate seeded s0 = (s', st).
Proof.
  intros Hi Ho E.
  destruct o as [[d|]|[d|]]; cbn [run] in E; try (injection E as <- <-; by left);
    unfold TlsServerCredentials_StageCertificate, TlsServerCredentials_StagePrivateKey in E;
    (destruct (_ || _) eqn:El; [injection E as <- <-; by left|]);
    (destruct (negb locked); [injection E as <- <-; by left|]); right; eexists; (split; [|split_and!; [..|exact E]; done]);
    apply orb_false_iff in El as [_ El%Nat.ltb_ge]; destruct Hi as [H1 H2 H3 H4];
    split; try done; by apply stage_ok.
Qed.

Lemma save_credentials_inv s cert k s1 r :
  Inv s -> part_ok MAX_CERT cert -> part_ok MAX_KEY k -> usable cert k ->
  tlsServerCredentials_Save s (candidate_of (snapshot (st_store s)) cert k) = (s1, r) ->
  Inv s1
  /\ match r with
     | HEALTH_CHECK_STATUS_OK => hasValidSnapshot s1 = true
         /\ cert_of (snapshot (st_store s1)) = cert /\ key_of (snapshot (st_store s1)) = k
     | HEALTH_CHECK_STATUS_ERROR => hasValidSnapshot s1 = hasValidSnapshot s
         /\ snapshot (st_store s1) = snapshot (st_store s)
     end.
Proof.
  intros Hi Hc Hk Hu E. rewrite tsc_save_ab in E.
  destruct (candidate_spec _ _ _ (snapshot_of_inv s Hi) Hc Hk) as (Hw & Ec & Ek & _).
  destruct (ab_save _ _ _ _ _ _ _) as [st1 r1] eqn:Es. injection E as <- <-.
  pose proof (ab_save_inv _ _ _ _ _ _ _ _ _ (tsc_stamp_wf _ Hw) Es) as Ha.
  destruct Hi as [H1 H2 H3 H4]. destruct r1.
  - destruct Ha as [Hp Hs]. cbn [st_store hasValidSnapshot]. rewrite Hs, Ec, Ek. split; [|done].
    split; cbn [st_store hasValidSnapshot stagedCertificate stagedKey]; try done.
    intros _. rewrite Hs, Ec, Ek. by split.
  - destruct Ha as (Hs & _ & Hp & Hf). cbn [st_store hasValidSnapshot]. split; [|by rewrite Hs].
    split; cbn [st_store hasValidSnapshot stagedCertificate stagedKey]; try done; rewrite Hs.
    + intros Hv. destruct (H1 Hv) as [Hpub Hus]. split; [exact (Hp Hpub)|exact Hus].
    + intros Hv. destruct (H2 Hv) as [Hfr Hz]. split; [exact (Hf Hfr)|exact Hz].
Qed.

Lemma run_credentials_inv locked seeded s o s' st :
  Inv s -> op_ok o -> run locked seeded s o = (s', st) -> Inv s'.
Proof.
  intros Hi Ho E. destruct (run_cases _ _ _ _ _ _ Hi Ho E) as [[-> _]|(s0 & Hi0 & _ & _ & Et)]; [done|].
  destruct (try_activate_cases _ _ _ _ Et) as [(_ & _ & [->| ->])|(cert & k & s1 & r & Hc & Hk & Hu & Es & -> & _)].
  - done.
  - by apply clear_staging_inv.
  - destruct (chosen_part _ _ _ Hi0 Hc Hk) as [Pc Pk].
    apply clear_staging_inv. by eapply save_credentials_inv.
Qed.

Definition runs (s : state F) (ops : list (bool * bool * op)) : state F :=
  fold_left (fun s '(locked, seeded, o) => (run locked seeded s o).1) ops s.

Lemma runs_credentials_inv ops s :
  Inv s -> Forall (fun x => op_ok x.2) ops -> Inv (runs s ops).
Proof.
  unfold runs. revert s. induction ops as [|[[l d] o] ops IH]; intros s Hi Ho; [done|].
  apply list.Forall_cons in Ho as [Ho Hos]. cbn [fold_left]. apply IH; [|done].
  destruct (run l d s o) as [s' st] eqn:E. by eapply run_credentials_inv.
Qed.

(** C11. The management server never serves a certificate with a key that does
    not belong to it: after any sequence of uploads, refused, mismatched,
    interrupted by storage failures or activated, the certificate and the key
    it would use both parse and pair (the built-in ones being a pair). *)
Theorem server_credentials_paired s ops builtinCert builtinKey :
  Inv s -> Forall (fun x => op_ok x.2) ops -> usable builtinCert builtinKey ->
  usable (TlsServerCredentials_GetCertificate builtinCert (runs s ops))
    (TlsServerCredentials_GetPrivateKey builtinKey (runs s ops)).
Proof.
  intros Hi Ho Hb. pose proof (runs_credentials_inv ops s Hi Ho) as Hr.
  unfold TlsServerCredentials_GetCertificate, TlsServerCredentials_GetPrivateKey.
  destruct (hasValidSnapshot (runs s ops)) eqn:E; [|exact Hb]. apply (inv_stored _ Hr E).
Qed.

(** What a restart loads when the running state is [s]. *)
Definition prior (s : state F) : option (TlsServerCredentials_SnapshotTypeDef * Z) :=
  if hasValidSnapshot s then Some (snapshot (st_store s), activeAddress (st_store s)) else None.

Lemma save_credentials_boots s cert k s1 r :
  Inv s -> generation (snapshot (st_store s)) < 4294967295 ->
  part_ok MAX_CERT cert -> part_ok MAX_KEY k ->
  tlsServerCredentials_Save s (candidate_of (snapshot (st_store s)) cert k) = (s1, r) ->
  let c := stamp (candidate_of (snapshot (st_store s)) cert k) in
  match r with
  | HEALTH_CHECK_STATUS_OK => boots s1 = prior s1
  | HEALTH_CHECK_STATUS_ERROR =>
      boots s1 = prior s \/ boots s1 = Some (c, other SA SB (activeAddress (st_store s)))
      \/ undetected c_snapshot tlsServerCredentials_IsValid (fl_mem (flash (st_store s1)))
           (other SA SB (activeAddress (st_store s))) c
  end.
Proof.
  intros Hi Hg Hc Hk E. rewrite tsc_save_ab in E. pose proof (snapshot_of_inv s Hi) as Hw0.
  destruct (candidate_spec _ _ _ Hw0 Hc Hk) as (Hw & _). pose proof (tsc_stamp_wf _ Hw) as Hws.
  set (c := stamp _) in *. cbv zeta.
  destruct (ab_save _ _ _ _ _ _ _) as [st1 r1] eqn:Es. injection E as <- <-.
  unfold boots, prior. cbn [st_store hasValidSnapshot].
  assert (generation c = generation (snapshot (st_store s)) + 1) as Hgc.
  { change (u32 (generation (snapshot (st_store s)) + 1) = generation (snapshot (st_store s)) + 1).
    apply u32_id. pose proof (tsc_generation_u32 _ Hw0). unfold is_u32 in *. lia. }
  destruct r1.
  - assert ((published (st_store s) /\ generation (snapshot (st_store s)) < generation c)
      \/ fresh (st_store s)) as Hpre.
    { destruct (hasValidSnapshot s) eqn:V; [left; split; [apply (inv_stored s Hi V)|lia]|].
      right. apply (inv_builtin s Hi V). }
    rewrite (ab_save_boots _ _ _ _ _ _ c _ Hpre Hws Es).
    f_equal. by rewrite (proj2 (ab_save_inv _ _ _ _ _ _ _ _ _ Hws Es)).
  - destruct (hasValidSnapshot s) eqn:V.
    + exact (ab_save_torn _ _ _ _ _ _ _ _ (proj1 (inv_stored s Hi V)) Hws Es).
    + exact (ab_save_torn_fresh _ _ _ _ _ _ _ _ (proj1 (inv_builtin s Hi V)) Hws Es).
Qed.

(** Replacing the credentials is atomic: a reported activation is what is
    served and what the next restart loads; any other outcome keeps the
    credentials being served; and after a storage failure or a power loss at
    any point of the commit a restart loads the old pair or the new one, never
    one half of each (or an image whose damage the CRC does not show). *)
Lemma server_credentials_atomic locked seeded s o s' st :
  Inv s -> op_ok o -> generation (snapshot (st_store s)) < 4294967295 ->
  run locked seeded s o = (s', st) ->
  (st = TLS_SERVER_CREDENTIALS_STATUS_ACTIVATED -> hasValidSnapshot s' = true /\ boots s' = prior s')
  /\ (st <> TLS_SERVER_CREDENTIALS_STATUS_ACTIVATED ->
      hasValidSnapshot s' = hasValidSnapshot s /\ snapshot (st_store s') = snapshot (st_store s)
      /\ (flash (st_store s') = flash (st_store s)
          \/ boots s' = prior s
          \/ exists c a, usable (cert_of c) (key_of c)
             /\ (boots s' = Some (c, a)
                 \/ undetected c_snapshot tlsServerCredentials_IsValid (fl_mem (flash (st_store s'))) a c))).
Proof.
  intros Hi Ho Hg E. destruct (run_cases _ _ _ _ _ _ Hi Ho E) as [[-> Hne]|(s0 & Hi0 & Est & Ev & Et)];
    [split; [done|auto]|].
  destruct (try_activate_cases _ _ _ _ Et) as [(Hne & _ & Hs)|(cert & k & s1 & r & Hc & Hk & Hu & Es & -> & ->)].
  { split; [done|]. intros _. destruct Hs as [->| ->]; cbn [st_store hasValidSnapshot tlsServerCredentials_ClearStaging];
      rewrite Est, Ev; auto. }
  destruct (chosen_part _ _ _ Hi0 Hc Hk) as [Pc Pk]. rewrite <-Est in Hg.
  pose proof (save_credentials_boots _ _ _ _ _ Hi0 Hg Pc Pk Es) as Hb. cbv zeta in Hb.
  destruct (save_credentials_inv _ _ _ _ _ Hi0 Pc Pk Hu Es) as [_ Hr].
  destruct (candidate_spec _ _ _ (snapshot_of_inv s0 Hi0) Pc Pk) as (_ & Ec & Ek & _).
  unfold boots, prior in *. cbn [st_store hasValidSnapshot tlsServerCredentials_ClearStaging].
  rewrite <-Est, <-Ev. destruct r.
  - split; [|done]. intros _. destruct Hr as (Hv & _). by split.
  - split; [done|]. intros _. destruct Hr as [Hv Hs]. split; [done|]. split; [done|]. right.
    destruct Hb as [Hb|Hb]; [by left|right]. eexists _, _. split; [by rewrite Ec, Ek|exact Hb].
Qed.
End theory.

(** ** Concrete runs: the first upload on a blank device *)

Definition demo_parse (d : bytes) : bool := negb (length d =? 0)%nat.
Definition demo_check (c k : bytes) : bool := nth 0 c 0 =? nth 0 k 0.

Definition demo_state : state simflash :=
  (TlsServerCredentials_Init (State (Store zero_snapshot 0 blank) false
    (Staged (zeros MAX_CERT) 0 false) (Staged (zeros MAX_KEY) 0 false))).1.

Lemma demo_credentials_inv : Inv demo_parse demo_parse demo_check demo_state.
Proof.
  assert (hasValidSnapshot demo_state = false) as Hv by (vm_compute; reflexivity).
  split.
  - rewrite Hv. discriminate.
  - intros _. split.
    + split; [right; vm_compute; reflexivity|vm_compute; reflexivity].
    + vm_compute. reflexivity.
  - exact (cleared_ok MAX_CERT).
  - exact (cleared_ok MAX_KEY).
Qed.

Abbreviation demo_run := (run demo_parse demo_parse demo_check true true).

Definition demo_uploads : list (bool * bool * op) :=
  [(true, true, OpCertificate (Some [7; 1; 2])); (true, true, OpKey (Some [7; 9]))].

Lemma demo_uploads_ok : Forall (fun x : bool * bool * op => op_ok x.2) demo_uploads.
Proof. repeat constructor; unfold is_u8; lia. Qed.

Lemma server_credentials_paired_witness :
  usable demo_parse demo_parse demo_check
    (TlsServerCredentials_GetCertificate [1] (runs demo_parse demo_parse demo_check demo_state demo_uploads))
    (TlsServerCredentials_GetPrivateKey [1] (runs demo_parse demo_parse demo_check demo_state demo_uploads)).
Proof.
  apply (server_credentials_paired demo_parse demo_parse demo_check demo_state demo_uploads [1] [1]
    demo_credentials_inv demo_uploads_ok). repeat split.
Defined.

(** The state with the certificate staged, and the upload of its key. *)
Definition demo_staged : state simflash := (demo_run demo_state (OpCertificate (Some [7; 1; 2]))).1.

Lemma demo_staged_inv : Inv demo_parse demo_parse demo_check demo_staged.
Proof.
  unfold demo_staged. destruct (demo_run demo_state _) as [s' st] eqn:E.
  apply (run_credentials_inv demo_parse demo_parse demo_check true true demo_state
    (OpCertificate (Some [7; 1; 2])) s' st demo_credentials_inv); [|exact E].
  repeat constructor; unfold is_u8; lia.
Qed.

Lemma demo_key_outcome s' st :
  demo_run demo_staged (OpKey (Some [7; 9])) = (s', st) -> st = TLS_SERVER_CREDENTIALS_STATUS_ACTIVATED.
Proof.
  intros E. assert ((demo_run demo_staged (OpKey (Some [7; 9]))).2 = TLS_SERVER_CREDENTIALS_STATUS_ACTIVATED)
    as H by (vm_compute; reflexivity).
  rewrite E in H. exact H.
Qed.

Lemma server_credentials_atomic_witness :
  exists s', demo_run demo_staged (OpKey (Some [7; 9])) = (s', TLS_SERVER_CREDENTIALS_STATUS_ACTIVATED)
    /\ boots s' = prior s'.
Proof.
  destruct (demo_run demo_staged (OpKey (Some [7; 9]))) as [s' st] eqn:E.
  pose proof (demo_key_outcome _ _ E) as Hst. subst st. exists s'. split; [reflexivity|].
  assert (op_ok (OpKey (Some [7; 9]))) as Ho by (repeat constructor; unfold is_u8; lia).
  refine (proj2 (proj1 (server_credentials_atomic demo_parse demo_parse demo_check true true demo_staged
    _ s' _ demo_staged_inv Ho _ E) eq_refl)).
  vm_compute. reflexivity.
Defined.
