(* ===== verification/TrustStore.v ===== *)
(** [TLS/Src/tls_trust_store.c]: the persistent CA certificates.

    The store keeps up to six DER certificates in one of two Flash banks of
    four sectors; a change goes to the inactive bank, which is erased sector by
    sector, programmed, and read back before it is published.  Two older
    layouts, with five and with three slots, are migrated at start-up.  Mbed
    TLS is a parameter: what parsing a DER certificate yields.  The theorems:
    the operations refine a table of six optional anchors, a change is atomic
    under failures and power loss, only CA certificates are ever stored, and
    start-up loads the newest bank or migrates the newest older one. *)
From S2P Require Import Prelude Codec Crc NorFlash SimFlash FlashLayout AbStore.

Definition TLS_TRUST_STORE_MIN_ID : Z := 1.
Definition TLS_TRUST_STORE_MAX_PERSISTED : nat := 6.
Definition TLS_TRUST_STORE_PREVIOUS_MAX_PERSISTED : nat := 5.
Definition TLS_TRUST_STORE_LEGACY_MAX_PERSISTED : nat := 3.
Definition TLS_TRUST_STORE_MAX_DER_SIZE : nat := 2048.
Definition TLS_TRUST_STORE_SUBJECT_SIZE : nat := 128.
Definition TLS_TRUST_STORE_MAGIC : Z := 0x54525354.
Definition TLS_TRUST_STORE_VERSION : Z := 3.
Definition TLS_TRUST_STORE_PREVIOUS_VERSION : Z := 2.
Definition TLS_TRUST_STORE_LEGACY_VERSION : Z := 1.
Definition BANK_BYTES : Z := FLASH_LAYOUT_TLS_TRUST_STORE_BANK_SECTORS * W25Q64_SECTOR_SIZE.
Abbreviation BA := FLASH_LAYOUT_TLS_TRUST_STORE_BANK_A.
Abbreviation BB := FLASH_LAYOUT_TLS_TRUST_STORE_BANK_B.

Inductive TlsTrustStore_StatusTypeDef :=
  | TLS_TRUST_STORE_STATUS_OK
  | TLS_TRUST_STORE_STATUS_INVALID_ARGUMENT
  | TLS_TRUST_STORE_STATUS_INVALID_CERTIFICATE
  | TLS_TRUST_STORE_STATUS_NO_MEMORY
  | TLS_TRUST_STORE_STATUS_NOT_CA
  | TLS_TRUST_STORE_STATUS_NOT_FOUND
  | TLS_TRUST_STORE_STATUS_FULL
  | TLS_TRUST_STORE_STATUS_STORAGE_ERROR.

#[global] Instance TlsTrustStore_Status_eq_dec : EqDecision TlsTrustStore_StatusTypeDef.
Proof. solve_decision. Defined.

Record TlsTrustStore_AnchorTypeDef := Anchor {
  occupied : Z;
  a_reserved : Z;
  derLength : Z;
  subject : bytes;
  der : bytes;
}.

#[global] Instance Anchor_eq_dec : EqDecision TlsTrustStore_AnchorTypeDef.
Proof. solve_decision. Defined.

Definition c_anchor : codec TlsTrustStore_AnchorTypeDef.
Proof.
  refine (c_iso (c_u8 ** c_u8 ** c_u16 ** c_bytes TLS_TRUST_STORE_SUBJECT_SIZE
                 ** c_bytes TLS_TRUST_STORE_MAX_DER_SIZE)%codec
    (fun '(o, (r, (l, (s, d)))) => Anchor o r l s d)
    (fun x => (occupied x, (a_reserved x, (derLength x, (subject x, der x))))) _ _).
  - by intros [].
  - by intros (?&?&?&?&?).
Defined.

(** The three snapshot structures differ in the length of [anchors] only. *)
Record TlsTrustStore_SnapshotTypeDef := Snapshot {
  magic : Z;
  version : Z;
  reserved : Z;
  generation : Z;
  anchors : list TlsTrustStore_AnchorTypeDef;
  crc : Z;
}.

#[global] Instance Snapshot_eq_dec : EqDecision TlsTrustStore_SnapshotTypeDef.
Proof. solve_decision. Defined.

Definition c_layout (n : nat) : codec TlsTrustStore_SnapshotTypeDef.
Proof.
  refine (c_iso (c_u32 ** c_u16 ** c_u16 ** c_u32 ** c_array c_anchor n ** c_u32)%codec
    (fun '(m, (v, (r, (g, (l, c))))) => Snapshot m v r g l c)
    (fun x => (magic x, (version x, (reserved x, (generation x, (anchors x, crc x)))))) _ _).
  - by intros [].
  - by intros (?&?&?&?&?&?).
Defined.

Definition c_snapshot := c_layout TLS_TRUST_STORE_MAX_PERSISTED.
Definition c_previous := c_layout TLS_TRUST_STORE_PREVIOUS_MAX_PERSISTED.
Definition c_legacy := c_layout TLS_TRUST_STORE_LEGACY_MAX_PERSISTED.

Arguments c_anchor : simpl never.
Arguments c_layout : simpl never.

Example trust_store_sizes :
  map (fun c => Z.of_nat (c_size c)) [c_snapshot; c_previous; c_legacy] = [13096; 10916; 6556].
Proof. vm_compute. reflexivity. Qed.

(** ** Pure helpers *)

Definition tlsTrustStore_Crc (cd : codec TlsTrustStore_SnapshotTypeDef)
    (c : TlsTrustStore_SnapshotTypeDef) : Z := crc32 (prefix_before_crc cd c).

Definition anchor_ok (a : TlsTrustStore_AnchorTypeDef) : bool :=
  (occupied a =? 0)
  || (negb (derLength a =? 0) && (derLength a <=? Z.of_nat TLS_TRUST_STORE_MAX_DER_SIZE)
      && terminated (subject a)).

Definition layout_valid (cd : codec TlsTrustStore_SnapshotTypeDef) (v : Z)
    (c : TlsTrustStore_SnapshotTypeDef) : bool :=
  (magic c =? TLS_TRUST_STORE_MAGIC) && (version c =? v) && (crc c =? tlsTrustStore_Crc cd c)
  && forallb anchor_ok (anchors c).

Definition tlsTrustStore_IsSnapshotValid := layout_valid c_snapshot TLS_TRUST_STORE_VERSION.
Definition tlsTrustStore_IsPreviousSnapshotValid := layout_valid c_previous TLS_TRUST_STORE_PREVIOUS_VERSION.
Definition tlsTrustStore_IsLegacySnapshotValid := layout_valid c_legacy TLS_TRUST_STORE_LEGACY_VERSION.

Definition zero_anchor : TlsTrustStore_AnchorTypeDef :=
  Anchor 0 0 0 (zeros TLS_TRUST_STORE_SUBJECT_SIZE) (zeros TLS_TRUST_STORE_MAX_DER_SIZE).

Definition zero_snapshot : TlsTrustStore_SnapshotTypeDef :=
  Snapshot 0 0 0 0 (replicate TLS_TRUST_STORE_MAX_PERSISTED zero_anchor) 0.

(** [memset] of the target, its generation, and the [memcpy] of the anchors. *)
Definition migrate (old : TlsTrustStore_SnapshotTypeDef) : TlsTrustStore_SnapshotTypeDef :=
  Snapshot 0 0 0 (generation old)
    (anchors old ++ drop (length (anchors old)) (replicate TLS_TRUST_STORE_MAX_PERSISTED zero_anchor)) 0.

Definition tlsTrustStore_MigratePrevious := migrate.
Definition tlsTrustStore_MigrateLegacy := migrate.

(** The header [tlsTrustStore_CommitCandidate] writes. *)
Definition stamp_header (c : TlsTrustStore_SnapshotTypeDef) :=
  Snapshot TLS_TRUST_STORE_MAGIC TLS_TRUST_STORE_VERSION 0 (u32 (generation c + 1)) (anchors c) (crc c).

Definition with_crc (c : TlsTrustStore_SnapshotTypeDef) x :=
  Snapshot (magic c) (version c) (reserved c) (generation c) (anchors c) x.

Definition stamp (c : TlsTrustStore_SnapshotTypeDef) :=
  let c := stamp_header c in with_crc c (tlsTrustStore_Crc c_snapshot c).

Definition with_anchors (c : TlsTrustStore_SnapshotTypeDef) l :=
  Snapshot (magic c) (version c) (reserved c) (generation c) l (crc c).

(** ** Certificates *)

(** Mbed TLS on a DER certificate: the error code of the parser, or whether it
    is a CA, whether its key usage allows signing certificates, and what
    [mbedtls_x509_dn_gets] returns for its subject ([None]: a result that is
    not positive, or an error). *)
Inductive x509 :=
  | X509Error (code : Z)
  | X509 (ca : bool) (key_cert_sign : bool) (dn : option bytes).

Section validate.
Context (parse_der : bytes -> x509).
(** Error codes of Mbed TLS. *)
Context (MBEDTLS_ERR_X509_ALLOC_FAILED MBEDTLS_ERR_PK_ALLOC_FAILED : Z).
Context (MBEDTLS_ERR_MPI_ALLOC_FAILED MBEDTLS_ERR_ASN1_ALLOC_FAILED : Z).

(** The parser failed for want of memory. *)
Definition alloc_failed (code : Z) : bool :=
  (code =? MBEDTLS_ERR_X509_ALLOC_FAILED) || (code =? MBEDTLS_ERR_PK_ALLOC_FAILED)
  || (Z.land (u32 (- code)) 0x7F =? - MBEDTLS_ERR_MPI_ALLOC_FAILED)
  || (Z.land (u32 (- code)) 0x7F =? - MBEDTLS_ERR_ASN1_ALLOC_FAILED).

(** [None] is a [NULL] pointer; the anchor is meaningful on success. *)
Definition tlsTrustStore_ValidateDer (d : option bytes) :
    TlsTrustStore_StatusTypeDef * TlsTrustStore_AnchorTypeDef :=
  match d with
  | None => (TLS_TRUST_STORE_STATUS_INVALID_ARGUMENT, zero_anchor)
  | Some d =>
      if (length d =? 0)%nat || (TLS_TRUST_STORE_MAX_DER_SIZE <? length d)%nat
      then (TLS_TRUST_STORE_STATUS_INVALID_ARGUMENT, zero_anchor) else
      match parse_der d with
      | X509Error code =>
          (if alloc_failed code then TLS_TRUST_STORE_STATUS_NO_MEMORY
           else TLS_TRUST_STORE_STATUS_INVALID_CERTIFICATE, zero_anchor)
      | X509 ca sign dn =>
          if negb ca || negb sign then (TLS_TRUST_STORE_STATUS_NOT_CA, zero_anchor) else
          match dn with
          | Some text =>
              if (length text =? 0)%nat || (TLS_TRUST_STORE_SUBJECT_SIZE <=? length text)%nat
              then (TLS_TRUST_STORE_STATUS_INVALID_CERTIFICATE, zero_anchor) else
              (TLS_TRUST_STORE_STATUS_OK,
               Anchor 1 0 (u16 (Z.of_nat (length d)))
                 (text ++ zeros (TLS_TRUST_STORE_SUBJECT_SIZE - length text))
                 (d ++ zeros (TLS_TRUST_STORE_MAX_DER_SIZE - length d)))
          | None => (TLS_TRUST_STORE_STATUS_INVALID_CERTIFICATE, zero_anchor)
          end
      end
  end.
End validate.

(** ** Operations *)

Record TlsTrustStore_InfoTypeDef := Info { i_id : Z; i_derLength : Z; i_subject : bytes }.

Section ops.
Context {F : Type} `{Flash F}.
Abbreviation state := (store TlsTrustStore_SnapshotTypeDef F).

(** The buffer as read, and whether the read succeeded and it is valid. *)
Definition tlsTrustStore_ReadSnapshot (f : F) (address : Z) : F * TlsTrustStore_SnapshotTypeDef * bool :=
  read_checked c_snapshot tlsTrustStore_IsSnapshotValid f address.

Definition tlsTrustStore_ReadPreviousSnapshot (f : F) (address : Z) :=
  read_checked c_previous tlsTrustStore_IsPreviousSnapshotValid f address.

Definition tlsTrustStore_ReadLegacySnapshot (f : F) (address : Z) :=
  read_checked c_legacy tlsTrustStore_IsLegacySnapshotValid f address.

(** The erase loop of [tlsTrustStore_Save]: [n] sectors from [address]. *)
Fixpoint erase_sectors (n : nat) (f : F) (address : Z) : F * bool :=
  match n with
  | O => (f, true)
  | S n =>
      let '(f, s) := W25Q64_EraseSector f address in
      if negb (flash_ok s) then (f, false) else erase_sectors n f (address + W25Q64_SECTOR_SIZE)
  end.

Definition tlsTrustStore_Save (s : state) (candidate : TlsTrustStore_SnapshotTypeDef) :
    state * HealthCheck_StatusTypeDef :=
  let target := if activeAddress s =? BA then BB else BA in
  let failed f := (Store (snapshot s) (activeAddress s) f, HEALTH_CHECK_STATUS_ERROR) in
  let '(f, erased) := erase_sectors (Z.to_nat FLASH_LAYOUT_TLS_TRUST_STORE_BANK_SECTORS) (flash s) target in
  if negb erased then failed f else
  let '(f, s2) := W25Q64_Program f target (c_enc c_snapshot candidate) in
  if negb (flash_ok s2) then failed f else
  let '(f, readback, ok) := tlsTrustStore_ReadSnapshot f target in
  if negb ok then failed f else (Store readback target f, HEALTH_CHECK_STATUS_OK).

Definition tlsTrustStore_CommitCandidate (s : state) (candidate : TlsTrustStore_SnapshotTypeDef) :
    state * TlsTrustStore_StatusTypeDef :=
  let '(s, r) := tlsTrustStore_Save s (stamp candidate) in
  (s, match r with
      | HEALTH_CHECK_STATUS_OK => TLS_TRUST_STORE_STATUS_OK
      | HEALTH_CHECK_STATUS_ERROR => TLS_TRUST_STORE_STATUS_STORAGE_ERROR
      end).

(** [TlsTrustStore_CommitCandidate() == TLS_TRUST_STORE_STATUS_OK ? OK : ERROR] *)
Definition init_status (x : state * TlsTrustStore_StatusTypeDef) : state * HealthCheck_StatusTypeDef :=
  (x.1, match x.2 with
        | TLS_TRUST_STORE_STATUS_OK => HEALTH_CHECK_STATUS_OK | _ => HEALTH_CHECK_STATUS_ERROR end).

(** The newest of two older images: the second when it is not older. *)
Definition newest_older (first second : TlsTrustStore_SnapshotTypeDef) (firstValid secondValid : bool) :
    option TlsTrustStore_SnapshotTypeDef :=
  if secondValid && (negb firstValid || (generation first <=? generation second)) then Some second
  else if firstValid then Some first else None.

(** The reads of two older banks, and the choice between them. *)
Definition load_older (read : F -> Z -> F * TlsTrustStore_SnapshotTypeDef * bool) (f : F) (A B : Z) :
    F * option TlsTrustStore_SnapshotTypeDef :=
  let '(f, first, firstValid) := read f A in
  let '(f, second, secondValid) := read f B in
  (f, newest_older first second firstValid secondValid).

(** The part of [TlsTrustStore_Init] that runs when neither current bank is
    valid; [ram] is what the first read left in [trustStoreSnapshot]. *)
Definition init_from_older (ram : TlsTrustStore_SnapshotTypeDef) (f : F) : state * HealthCheck_StatusTypeDef :=
  let '(f, previous) := load_older tlsTrustStore_ReadPreviousSnapshot f
    FLASH_LAYOUT_TLS_TRUST_STORE_PREVIOUS_BANK_A FLASH_LAYOUT_TLS_TRUST_STORE_PREVIOUS_BANK_B in
  match previous with
  | Some p =>
      let m := tlsTrustStore_MigratePrevious p in
      init_status (tlsTrustStore_CommitCandidate (Store m BA f) m)
  | None =>
      let '(f, legacy) := load_older tlsTrustStore_ReadLegacySnapshot f
        FLASH_LAYOUT_TLS_TRUST_STORE_LEGACY_BANK_A FLASH_LAYOUT_TLS_TRUST_STORE_LEGACY_BANK_B in
      match legacy with
      | Some l =>
          let m := tlsTrustStore_MigrateLegacy l in
          init_status (tlsTrustStore_CommitCandidate (Store m BB f) m)
      | None => init_status (tlsTrustStore_CommitCandidate (Store ram BB f) zero_snapshot)
      end
  end.

(** [created] is whether the mutex was created. *)
Definition TlsTrustStore_Init (created : bool) (s : state) : state * HealthCheck_StatusTypeDef :=
  if negb created then (s, HEALTH_CHECK_STATUS_ERROR) else
  let '(f, first, firstValid) := tlsTrustStore_ReadSnapshot (flash s) BA in
  let '(f, second, secondValid) := tlsTrustStore_ReadSnapshot f BB in
  if firstValid && (negb secondValid || (generation second <=? generation first)) then
    let '(f, again, ok) := tlsTrustStore_ReadSnapshot f BA in
    if negb ok then (Store again (activeAddress s) f, HEALTH_CHECK_STATUS_ERROR)
    else (Store again BA f, HEALTH_CHECK_STATUS_OK)
  else if secondValid then (Store second BB f, HEALTH_CHECK_STATUS_OK)
  else init_from_older first f.

(** [created && taken] in the operations below: the mutex exists and is
    obtained; they do not distinguish the two except by their status. *)
Definition id_valid (id : Z) : bool :=
  (TLS_TRUST_STORE_MIN_ID <=? id) && (id <=? Z.of_nat TLS_TRUST_STORE_MAX_PERSISTED).

Definition slot (s : state) (id : Z) : TlsTrustStore_AnchorTypeDef :=
  nth (Z.to_nat (id - 1)) (anchors (snapshot s)) zero_anchor.

Definition TlsTrustStore_Exists (created taken : bool) (s : state) (id : Z) : bool :=
  id_valid id && created && taken && negb (occupied (slot s id) =? 0).

Definition info_of (id : Z) (a : TlsTrustStore_AnchorTypeDef) : TlsTrustStore_InfoTypeDef :=
  Info id (derLength a)
    (take (TLS_TRUST_STORE_SUBJECT_SIZE - 1)
       (strncpy (zeros TLS_TRUST_STORE_SUBJECT_SIZE) (subject a) (TLS_TRUST_STORE_SUBJECT_SIZE - 1)) ++ [0]).

(** The copying loop of [TlsTrustStore_List] from slot [id] on. *)
Fixpoint list_loop (l : list TlsTrustStore_AnchorTypeDef) (id : Z) (room : nat) :
    list TlsTrustStore_InfoTypeDef :=
  match l, room with
  | a :: l, S r =>
      if occupied a =? 0 then list_loop l (id + 1) room else info_of id a :: list_loop l (id + 1) r
  | _, _ => []
  end.

(** [None] is a [NULL] output array. *)
Definition TlsTrustStore_List (created taken : bool) (s : state) (capacity : option nat) :
    list TlsTrustStore_InfoTypeDef :=
  match capacity with
  | None => []
  | Some capacity =>
      if (capacity =? 0)%nat || negb created || negb taken then []
      else list_loop (anchors (snapshot s)) 1 capacity
  end.

(** [parses] is [mbedtls_x509_crt_parse_der]; the certificate handed to it
    comes with the status. *)
Definition TlsTrustStore_Parse (created taken : bool) (parses : bytes -> bool) (s : state) (id : Z) :
    TlsTrustStore_StatusTypeDef * option bytes :=
  if negb (id_valid id) || negb created then (TLS_TRUST_STORE_STATUS_NOT_FOUND, None) else
  if negb taken then (TLS_TRUST_STORE_STATUS_STORAGE_ERROR, None) else
  let a := slot s id in
  if occupied a =? 0 then (TLS_TRUST_STORE_STATUS_NOT_FOUND, None) else
  let d := take (Z.to_nat (derLength a)) (der a) in
  (if parses d then TLS_TRUST_STORE_STATUS_OK else TLS_TRUST_STORE_STATUS_INVALID_CERTIFICATE, Some d).

(** The first slot that is not occupied, or the number of slots. *)
Fixpoint first_free (l : list TlsTrustStore_AnchorTypeDef) : nat :=
  match l with
  | [] => O
  | a :: l => if occupied a =? 0 then O else S (first_free l)
  end.

Context (validate : option bytes -> TlsTrustStore_StatusTypeDef * TlsTrustStore_AnchorTypeDef).

(** [validate] is [tlsTrustStore_ValidateDer]; the assigned id comes with the
    status. *)
Definition TlsTrustStore_Add (created taken : bool) (s : state) (d : option bytes) :
    state * TlsTrustStore_StatusTypeDef * option Z :=
  if negb created || negb taken then (s, TLS_TRUST_STORE_STATUS_STORAGE_ERROR, None) else
  let index := first_free (anchors (snapshot s)) in
  if (index =? TLS_TRUST_STORE_MAX_PERSISTED)%nat then (s, TLS_TRUST_STORE_STATUS_FULL, None) else
  let '(status, a) := validate d in
  match status with
  | TLS_TRUST_STORE_STATUS_OK =>
      let '(s, status) := tlsTrustStore_CommitCandidate s
                            (with_anchors (snapshot s) (<[index := a]> (anchors (snapshot s)))) in
      (s, status, match status with
                  | TLS_TRUST_STORE_STATUS_OK => Some (u8 (Z.of_nat index + 1)) | _ => None end)
  | _ => (s, status, None)
  end.

Definition TlsTrustStore_Replace (created taken : bool) (s : state) (id : Z) (d : option bytes) :
    state * TlsTrustStore_StatusTypeDef :=
  if negb (id_valid id) || negb created then (s, TLS_TRUST_STORE_STATUS_NOT_FOUND) else
  if negb taken then (s, TLS_TRUST_STORE_STATUS_STORAGE_ERROR) else
  if occupied (slot s id) =? 0 then (s, TLS_TRUST_STORE_STATUS_NOT_FOUND) else
  let '(status, a) := validate d in
  match status with
  | TLS_TRUST_STORE_STATUS_OK =>
      tlsTrustStore_CommitCandidate s
        (with_anchors (snapshot s) (<[Z.to_nat (id - 1) := a]> (anchors (snapshot s))))
  | _ => (s, status)
  end.

Definition TlsTrustStore_Delete (created taken : bool) (s : state) (id : Z) :
    state * TlsTrustStore_StatusTypeDef :=
  if negb (id_valid id) || negb created then (s, TLS_TRUST_STORE_STATUS_NOT_FOUND) else
  if negb taken then (s, TLS_TRUST_STORE_STATUS_STORAGE_ERROR) else
  if occupied (slot s id) =? 0 then (s, TLS_TRUST_STORE_STATUS_NOT_FOUND) else
  tlsTrustStore_CommitCandidate s
    (with_anchors (snapshot s) (<[Z.to_nat (id - 1) := zero_anchor]> (anchors (snapshot s)))).

Definition TlsTrustStore_Reset (created taken : bool) (s : state) : state * TlsTrustStore_StatusTypeDef :=
  if negb created || negb taken then (s, TLS_TRUST_STORE_STATUS_STORAGE_ERROR) else
  tlsTrustStore_CommitCandidate s
    (Snapshot 0 0 0 (generation (snapshot s)) (replicate TLS_TRUST_STORE_MAX_PERSISTED zero_anchor) 0).
End ops.

(** ** Well-formed values *)

Lemma tts_anchor_wf a :
  c_wf c_anchor a <->
  is_u8 (occupied a) /\ is_u8 (a_reserved a) /\ is_u16 (derLength a)
  /\ (length (subject a) = TLS_TRUST_STORE_SUBJECT_SIZE /\ Forall is_u8 (subject a))
  /\ (length (der a) = TLS_TRUST_STORE_MAX_DER_SIZE /\ Forall is_u8 (der a)).
Proof. reflexivity. Qed.

Lemma tts_layout_wf n c :
  c_wf (c_layout n) c <->
  is_u32 (magic c) /\ is_u16 (version c) /\ is_u16 (reserved c) /\ is_u32 (generation c)
  /\ (length (anchors c) = n /\ Forall (c_wf c_anchor) (anchors c)) /\ is_u32 (crc c).
Proof. reflexivity. Qed.

Lemma tts_crc_field_indep c x :
  c_wf c_snapshot c -> tlsTrustStore_Crc c_snapshot (with_crc c x) = tlsTrustStore_Crc c_snapshot c.
Proof.
  destruct c as [m v r g l y]. intros (H1 & H2 & H3 & H4 & H5 & _). unfold tlsTrustStore_Crc. f_equal.
  repeat (apply prefix_pair; [exact H1 || exact H2 || exact H3 || exact H4 || exact H5
    |apply Nat.leb_le; vm_compute; reflexivity|]). apply prefix_crc_field.
Qed.

#[global] Instance trust_store_pair : AbPair c_snapshot BA BB BANK_BYTES.
Proof. ab_pair. Qed.

#[global] Opaque c_anchor c_layout.

Lemma tts_anchors_wf n c :
  c_wf (c_layout n) c -> length (anchors c) = n /\ Forall (c_wf c_anchor) (anchors c).
Proof. intros Hw. apply (proj1 (tts_layout_wf n c) Hw). Qed.

Lemma tts_generation_u32 n c : c_wf (c_layout n) c -> is_u32 (generation c).
Proof. intros Hw. apply (proj1 (tts_layout_wf n c) Hw). Qed.

Lemma tts_stamp_header_wf c : c_wf c_snapshot c -> c_wf c_snapshot (stamp_header c).
Proof.
  intros (H1 & H2 & H3 & H4 & H5 & H6)%tts_layout_wf. apply tts_layout_wf.
  cbn [magic version reserved generation anchors crc stamp_header].
  split_and!; done || apply u32_range || apply H5 || by vm_compute.
Qed.

Lemma tts_stamp_wf c : c_wf c_snapshot c -> c_wf c_snapshot (stamp c).
Proof.
  intros H%tts_stamp_header_wf. pose proof (crc32_u32 _ (prefix_bytes _ _ H)) as Hc.
  apply tts_layout_wf in H as (H1 & H2 & H3 & H4 & H5 & H6).
  apply tts_layout_wf. split_and!; exact Hc || exact H1 || exact H2 || exact H3 || exact H4 || apply H5.
Qed.

Lemma tts_stamp_valid c :
  c_wf c_snapshot c -> tlsTrustStore_IsSnapshotValid (stamp c) = forallb anchor_ok (anchors c).
Proof.
  intros H%tts_stamp_header_wf. unfold tlsTrustStore_IsSnapshotValid, layout_valid, stamp.
  rewrite tts_crc_field_indep by done. cbn [magic version crc with_crc stamp_header anchors].
  by rewrite !Z.eqb_refl.
Qed.

Lemma zero_anchor_wf : c_wf c_anchor zero_anchor.
Proof.
  apply tts_anchor_wf. cbn [occupied a_reserved derLength subject der zero_anchor].
  split_and!; try apply zeros_bytes; try apply length_zeros; unfold is_u8, is_u16; lia.
Qed.

(** A candidate whose slots are [l], with the generation of [c]. *)
Lemma candidate_wf c m v r x l :
  c_wf c_snapshot c -> is_u32 m -> is_u16 v -> is_u16 r -> is_u32 x ->
  length l = TLS_TRUST_STORE_MAX_PERSISTED -> Forall (c_wf c_anchor) l ->
  c_wf c_snapshot (Snapshot m v r (generation c) l x).
Proof.
  intros Hc Hm Hv Hr Hx Hl Hf. apply tts_layout_wf.
  cbn [magic version reserved generation anchors crc]. pose proof (tts_generation_u32 _ _ Hc). by split_and!.
Qed.

Lemma with_anchors_wf c l :
  c_wf c_snapshot c -> length l = TLS_TRUST_STORE_MAX_PERSISTED -> Forall (c_wf c_anchor) l ->
  c_wf c_snapshot (with_anchors c l).
Proof.
  intros Hc Hl Hf. pose proof (proj1 (tts_layout_wf _ _) Hc) as (H1 & H2 & H3 & _ & _ & H6).
  by apply candidate_wf.
Qed.

(** ** Saving to the inactive bank *)

Section saving.
Context {F : Type} `{FlashLaws F}.
Abbreviation state := (store TlsTrustStore_SnapshotTypeDef F).
Abbreviation other_bank := (other BA BB).

Lemma tts_erase_spec n f a f' ok :
  0 <= a -> erase_sectors n f a = (f', ok) ->
  same_outside (fl_mem f) (fl_mem f') a (Z.of_nat n * W25Q64_SECTOR_SIZE)
  /\ (ok = true -> forall x, a <= x < a + Z.of_nat n * W25Q64_SECTOR_SIZE -> fl_mem f' x = 255).
Proof.
  revert f a. induction n as [|n IH]; intros f a Ha E; cbn [erase_sectors] in E.
  { injection E as <- <-. split; [by intros x _|]. intros _ x Hx. lia. }
  destruct (W25Q64_EraseSector f a) as [f1 s1] eqn:E1.
  pose proof (erase_outside _ _ _ _ Ha E1) as H1.
  destruct (flash_ok s1) eqn:S1; cbn [negb] in E.
  - apply flash_ok_true in S1 as ->. pose proof (erase_ok _ _ _ Ha E1) as M1.
    apply IH in E as [Ho He]; [|flia]. split.
    + intros x Hx. rewrite Ho, H1 by flia. done.
    + intros Hok x Hx. destruct (decide (a + W25Q64_SECTOR_SIZE <= x)); [apply He; [done|flia]|].
      rewrite Ho, M1 by flia. unfold mem_erase. by rewrite (proj2 (in_range_true _ _ _)) by flia.
  - injection E as <- <-. split; [|done]. intros x Hx. apply H1. flia.
Qed.

Lemma tts_erase_ready n f a :
  fl_ready f -> 0 <= a -> a mod W25Q64_SECTOR_SIZE = 0 ->
  a + Z.of_nat n * W25Q64_SECTOR_SIZE <= W25Q64_CAPACITY_BYTES ->
  exists f', erase_sectors n f a = (f', true) /\ fl_ready f'.
Proof.
  revert f a. induction n as [|n IH]; intros f a Hr Ha Hm Hc; cbn [erase_sectors]; [by exists f|].
  destruct (W25Q64_EraseSector f a) as [f1 s1] eqn:E1.
  assert (sector_valid a = true) as Hv.
  { unfold sector_valid. apply andb_true_iff. split; [apply Z.ltb_lt; flia|by apply Z.eqb_eq]. }
  destruct (ready_erase _ _ _ _ Hr Ha Hv E1) as [-> Hr1]. change (flash_ok W25Q64_STATUS_OK) with true.
  cbn [negb]. apply IH; [done|flia| |flia]. rewrite Z.add_mod, Hm, Z.mod_same by flia. done.
Qed.

Lemma bank_sectors : Z.of_nat (Z.to_nat FLASH_LAYOUT_TLS_TRUST_STORE_BANK_SECTORS) * W25Q64_SECTOR_SIZE = BANK_BYTES.
Proof. reflexivity. Qed.

Lemma bank_pos active : 0 <= other_bank active.
Proof. unfold other. case_match; by vm_compute. Qed.

Lemma bank_fits active :
  other_bank active mod W25Q64_SECTOR_SIZE = 0 /\ other_bank active + BANK_BYTES <= W25Q64_CAPACITY_BYTES.
Proof. unfold other. case_match; split; by vm_compute. Qed.

(** An erased bank that was programmed with an image holds it. *)
Lemma tts_programmed f a c f' :
  0 <= a -> c_wf c_snapshot c -> (forall x, a <= x < a + BANK_BYTES -> fl_mem f x = 255) ->
  W25Q64_Program f a (c_enc c_snapshot c) = (f', W25Q64_STATUS_OK) ->
  image c_snapshot (fl_mem f') a = c.
Proof.
  intros Ha Hc He E. unfold image. rewrite (program_ok _ _ _ _ Ha (c_enc_bytes _ _ Hc) E).
  rewrite <-(c_enc_length c_snapshot c Hc), slice_program.
  - by apply c_dec_enc.
  - intros x Hx. rewrite (c_enc_length _ _ Hc) in Hx. apply He.
    pose proof (ab_size_le c_snapshot BA BB BANK_BYTES). lia.
  - by apply c_enc_bytes.
Qed.

Lemma tts_save_spec (s : state) c s' r :
  c_wf c_snapshot c -> tlsTrustStore_Save s c = (s', r) ->
  same_outside (fl_mem (flash s)) (fl_mem (flash s')) (other_bank (activeAddress s)) BANK_BYTES
  /\ match r with
     | HEALTH_CHECK_STATUS_OK => snapshot s' = c /\ activeAddress s' = other_bank (activeAddress s)
         /\ image c_snapshot (fl_mem (flash s')) (activeAddress s') = c
         /\ tlsTrustStore_IsSnapshotValid c = true
     | HEALTH_CHECK_STATUS_ERROR => snapshot s' = snapshot s /\ activeAddress s' = activeAddress s
     end.
Proof.
  intros Hc E. unfold tlsTrustStore_Save in E. fold (other_bank (activeAddress s)) in E.
  pose proof (bank_pos (activeAddress s)) as Hp.
  destruct (erase_sectors _ _ _) as [f1 erased] eqn:E1. apply tts_erase_spec in E1 as [O1 X1]; [|exact Hp].
  rewrite bank_sectors in O1, X1. destruct erased; cbn [negb] in E; [|by injection E as <- <-].
  destruct (W25Q64_Program _ _ _) as [f2 s2] eqn:E2.
  pose proof (program_outside _ _ _ _ _ Hp E2) as O2. rewrite (c_enc_length _ _ Hc) in O2.
  assert (same_outside (fl_mem (flash s)) (fl_mem f2) (other_bank (activeAddress s)) BANK_BYTES) as O.
  { eapply same_outside_trans; [exact O1|]. eapply same_outside_weaken; [exact O2|lia|].
    pose proof (ab_size_le c_snapshot BA BB BANK_BYTES). lia. }
  destruct (flash_ok s2) eqn:S2; cbn [negb] in E; [|by injection E as <- <-].
  apply flash_ok_true in S2 as ->. pose proof (tts_programmed _ _ _ _ Hp Hc (X1 eq_refl) E2) as Hi.
  destruct (tlsTrustStore_ReadSnapshot _ _) as [[f3 x] ok] eqn:E3.
  apply read_checked_spec in E3 as [M3 H3]; [|exact Hp].
  assert (same_outside (fl_mem (flash s)) (fl_mem f3) (other_bank (activeAddress s)) BANK_BYTES) as O'.
  { intros y Hy. rewrite M3. by apply O. }
  destruct ok; cbn [negb] in E; injection E as <- <-; split; try exact O'; [|done].
  destruct (H3 eq_refl) as [-> Hv]. cbn [snapshot activeAddress flash]. rewrite Hi in Hv |- *.
  split_and!; try done. by rewrite (image_proper c_snapshot _ _ M3 _ _ eq_refl).
Qed.

Lemma tts_save_ready (s : state) c :
  fl_ready (flash s) -> c_wf c_snapshot c -> tlsTrustStore_IsSnapshotValid c = true ->
  exists s', tlsTrustStore_Save s c = (s', HEALTH_CHECK_STATUS_OK) /\ fl_ready (flash s').
Proof.
  intros Hr Hc Hv. unfold tlsTrustStore_Save. fold (other_bank (activeAddress s)).
  pose proof (bank_pos (activeAddress s)) as Hp. destruct (bank_fits (activeAddress s)) as [Hm Hf].
  destruct (tts_erase_ready (Z.to_nat FLASH_LAYOUT_TLS_TRUST_STORE_BANK_SECTORS) _ _ Hr Hp Hm Hf)
    as (f1 & E1 & Hr1). rewrite E1. apply tts_erase_spec in E1 as [_ X1]; [|exact Hp]. cbn [negb].
  assert (w25q64_IsRangeValid (other_bank (activeAddress s)) (Z.of_nat (c_size c_snapshot)) = true) as Hrv.
  { pose proof (ab_images c_snapshot BA BB BANK_BYTES) as []. unfold other. by case_match. }
  pose proof Hrv as Hpv. rewrite <-(c_enc_length _ _ Hc) in Hpv.
  destruct (W25Q64_Program _ _ _) as [f2 s2] eqn:E2.
  destruct (ready_program _ _ _ _ _ Hr1 Hp Hpv E2) as [-> Hr2].
  pose proof (tts_programmed _ _ _ _ Hp Hc (X1 eq_refl) E2) as Hi.
  change (flash_ok W25Q64_STATUS_OK) with true. cbn [negb].
  unfold tlsTrustStore_ReadSnapshot, read_checked.
  destruct (W25Q64_Read _ _ _) as [[f3 s3] d] eqn:E3.
  destruct (ready_read _ _ _ _ _ _ Hr2 Hp Hrv E3) as [-> Hr3].
  pose proof (read_ok _ _ _ _ _ Hp E3) as ->. fold (image c_snapshot (fl_mem f2) (other_bank (activeAddress s))).
  rewrite Hi, Hv. change (flash_ok W25Q64_STATUS_OK) with true. cbn [negb andb]. eauto.
Qed.
End saving.

(** ** The table of certificates a store stands for *)

(** A trusted certificate: its subject and its DER bytes. *)
Abbreviation certificate := (bytes * bytes)%type.
Abbreviation table := (list (option certificate)).

Definition abs_anchor (a : TlsTrustStore_AnchorTypeDef) : option certificate :=
  if occupied a =? 0 then None
  else Some (cstr (subject a), take (Z.to_nat (derLength a)) (der a)).

Definition table_of (c : TlsTrustStore_SnapshotTypeDef) : table := map abs_anchor (anchors c).

Fixpoint free_slot (t : table) : nat :=
  match t with
  | Some _ :: t => S (free_slot t)
  | _ => O
  end.

Inductive op :=
  | OpAdd (d : option bytes)
  | OpReplace (id : Z) (d : option bytes)
  | OpDelete (id : Z)
  | OpReset.

Definition op_ok (o : op) : Prop :=
  match o with OpAdd (Some d) | OpReplace _ (Some d) => Forall is_u8 d | _ => True end.

Lemma first_free_slot l : first_free l = free_slot (map abs_anchor l).
Proof.
  induction l as [|a l IH]; [done|]. cbn [first_free map free_slot]. unfold abs_anchor at 1.
  destruct (occupied a =? 0); [done|]. by rewrite IH.
Qed.

Lemma free_slot_le t : (free_slot t <= length t)%nat.
Proof. induction t as [|[x|] t IH]; cbn [free_slot length]; lia. Qed.

Lemma zero_anchor_empty : abs_anchor zero_anchor = None.
Proof. reflexivity. Qed.

Lemma map_insert l i a : map abs_anchor (<[i := a]> l) = <[i := abs_anchor a]> (map abs_anchor l).
Proof. apply (list_fmap_insert abs_anchor). Qed.

Lemma anchors_ok_insert l i a :
  forallb anchor_ok l = true -> anchor_ok a = true -> forallb anchor_ok (<[i := a]> l) = true.
Proof.
  revert i. induction l as [|b l IH]; intros i Hl Ha; [done|]. cbn [forallb] in Hl.
  apply andb_true_iff in Hl as [Hb Hl]. destruct i; cbn; [by rewrite Ha, Hl|]. by rewrite Hb, IH.
Qed.

Section spec.
Context (parse_der : bytes -> x509).
Context (MBEDTLS_ERR_X509_ALLOC_FAILED MBEDTLS_ERR_PK_ALLOC_FAILED : Z).
Context (MBEDTLS_ERR_MPI_ALLOC_FAILED MBEDTLS_ERR_ASN1_ALLOC_FAILED : Z).

Abbreviation out_of_memory := (alloc_failed MBEDTLS_ERR_X509_ALLOC_FAILED MBEDTLS_ERR_PK_ALLOC_FAILED
  MBEDTLS_ERR_MPI_ALLOC_FAILED MBEDTLS_ERR_ASN1_ALLOC_FAILED).
Abbreviation validate := (tlsTrustStore_ValidateDer parse_der MBEDTLS_ERR_X509_ALLOC_FAILED
  MBEDTLS_ERR_PK_ALLOC_FAILED MBEDTLS_ERR_MPI_ALLOC_FAILED MBEDTLS_ERR_ASN1_ALLOC_FAILED).

(** [mbedtls_x509_dn_gets] writes a string. *)
Definition dn_strings : Prop := forall d ca sign text,
  parse_der d = X509 ca sign (Some text) -> Forall (fun c => is_u8 c /\ c <> 0) text.

(** A CA certificate that may sign certificates, of a size that fits, whose
    subject fits; anything else is refused with the given status. *)
Definition accept (d : option bytes) : TlsTrustStore_StatusTypeDef + certificate :=
  match d with
  | None => inl TLS_TRUST_STORE_STATUS_INVALID_ARGUMENT
  | Some d =>
      if bool_decide (1 <= length d <= TLS_TRUST_STORE_MAX_DER_SIZE)%nat then
        match parse_der d with
        | X509 true true (Some text) =>
            if bool_decide (1 <= length text < TLS_TRUST_STORE_SUBJECT_SIZE)%nat then inr (text, d)
            else inl TLS_TRUST_STORE_STATUS_INVALID_CERTIFICATE
        | X509 true true None => inl TLS_TRUST_STORE_STATUS_INVALID_CERTIFICATE
        | X509 _ _ _ => inl TLS_TRUST_STORE_STATUS_NOT_CA
        | X509Error code => inl (if out_of_memory code then TLS_TRUST_STORE_STATUS_NO_MEMORY
                                 else TLS_TRUST_STORE_STATUS_INVALID_CERTIFICATE)
        end
      else inl TLS_TRUST_STORE_STATUS_INVALID_ARGUMENT
  end.

(** The operations on a table of six slots: the table, the status and the id
    assigned to a new certificate. *)
Definition set_slot (t : table) (i : nat) (d : option bytes) (id : option Z) :
    table * TlsTrustStore_StatusTypeDef * option Z :=
  match accept d with
  | inl refused => (t, refused, None)
  | inr c => (<[i := Some c]> t, TLS_TRUST_STORE_STATUS_OK, id)
  end.

Definition spec_step (t : table) (o : op) : table * TlsTrustStore_StatusTypeDef * option Z :=
  match o with
  | OpAdd d =>
      let i := free_slot t in
      if (i =? TLS_TRUST_STORE_MAX_PERSISTED)%nat then (t, TLS_TRUST_STORE_STATUS_FULL, None)
      else set_slot t i d (Some (Z.of_nat i + 1))
  | OpReplace id d =>
      if id_valid id && bool_decide (is_Some (default None (t !! Z.to_nat (id - 1))))
      then set_slot t (Z.to_nat (id - 1)) d None else (t, TLS_TRUST_STORE_STATUS_NOT_FOUND, None)
  | OpDelete id =>
      if id_valid id && bool_decide (is_Some (default None (t !! Z.to_nat (id - 1))))
      then (<[Z.to_nat (id - 1) := None]> t, TLS_TRUST_STORE_STATUS_OK, None)
      else (t, TLS_TRUST_STORE_STATUS_NOT_FOUND, None)
  | OpReset => (replicate TLS_TRUST_STORE_MAX_PERSISTED None, TLS_TRUST_STORE_STATUS_OK, None)
  end.

Lemma accepted_anchor text d :
  Forall is_u8 d -> Forall (fun c => is_u8 c /\ c <> 0) text ->
  (1 <= length d <= TLS_TRUST_STORE_MAX_DER_SIZE)%nat ->
  (1 <= length text < TLS_TRUST_STORE_SUBJECT_SIZE)%nat ->
  let a := Anchor 1 0 (u16 (Z.of_nat (length d)))
             (text ++ zeros (TLS_TRUST_STORE_SUBJECT_SIZE - length text))
             (d ++ zeros (TLS_TRUST_STORE_MAX_DER_SIZE - length d)) in
  c_wf c_anchor a /\ anchor_ok a = true /\ abs_anchor a = Some (text, d).
Proof.
  intros Hd Ht Ld Lt a. assert (u16 (Z.of_nat (length d)) = Z.of_nat (length d)) as Hu.
  { apply u16_id. unfold is_u16, TLS_TRUST_STORE_MAX_DER_SIZE in *. lia. }
  assert (Forall is_u8 text) as Ht8 by (by eapply Forall_impl; [|exact Ht]; intros c []).
  assert (Forall (fun c => c <> 0) text) as Ht0 by (by eapply Forall_impl; [|exact Ht]; intros c []).
  assert (cstr (subject a) = text) as Hs.
  { cbn [subject a]. destruct (TLS_TRUST_STORE_SUBJECT_SIZE - length text)%nat as [|n] eqn:E; [lia|].
    by apply cstr_app_0. }
  split; [|split].
  - apply tts_anchor_wf. cbn [occupied a_reserved derLength subject der a].
    rewrite !length_app, !length_zeros. split_and!; try apply u16_range; try (unfold is_u8; lia); try lia;
      apply Forall_app; (split; [assumption|apply zeros_bytes]).
  - unfold anchor_ok. cbn [occupied derLength a]. rewrite Hu. apply orb_true_iff. right.
    rewrite !andb_true_iff. split; [split|].
    + apply negb_true_iff, Z.eqb_neq. lia.
    + apply Z.leb_le. lia.
    + apply strlen_terminated. unfold strlen. rewrite Hs. cbn [subject a].
      rewrite length_app, length_zeros. lia.
  - unfold abs_anchor. rewrite Hs. cbn [occupied derLength der a]. rewrite Hu, Nat2Z.id, take_app_length. done.
Qed.

Lemma validate_spec d status a :
  dn_strings -> match d with Some d => Forall is_u8 d | None => True end -> validate d = (status, a) ->
  match accept d with
  | inl refused => status = refused /\ status <> TLS_TRUST_STORE_STATUS_OK
  | inr c => status = TLS_TRUST_STORE_STATUS_OK
      /\ c_wf c_anchor a /\ anchor_ok a = true /\ abs_anchor a = Some c
  end.
Proof.
  intros Hdn Hd E. destruct d as [d|]; cbn [tlsTrustStore_ValidateDer accept] in *; [|by injection E as <- <-].
  destruct ((length d =? 0)%nat || (TLS_TRUST_STORE_MAX_DER_SIZE <? length d)%nat) eqn:El.
  { rewrite bool_decide_eq_false_2; [by injection E as <- <-|].
    apply orb_true_iff in El as [El%Nat.eqb_eq|El%Nat.ltb_lt]; lia. }
  apply orb_false_iff in El as [El%Nat.eqb_neq El'%Nat.ltb_ge].
  rewrite bool_decide_eq_true_2 by lia.
  destruct (parse_der d) as [code|ca sign dn] eqn:Ep.
  { injection E as <- <-. by destruct (out_of_memory code). }
  destruct ca, sign; cbn [negb orb] in E; try by injection E as <- <-.
  destruct dn as [text|]; [|by injection E as <- <-].
  destruct ((length text =? 0)%nat || _) eqn:Et.
  { rewrite bool_decide_eq_false_2; [by injection E as <- <-|].
    apply orb_true_iff in Et as [Et%Nat.eqb_eq|Et%Nat.leb_le]; lia. }
  apply orb_false_iff in Et as [Et%Nat.eqb_neq Et'%Nat.leb_gt].
  rewrite bool_decide_eq_true_2 by lia. injection E as <- <-. split; [done|].
  apply accepted_anchor; [done|by eapply Hdn|lia|lia].
Qed.
End spec.

(** ** The running store *)

Section theory.
Context {F : Type} `{FlashLaws F}.
Context (parse_der : bytes -> x509).
Context (MBEDTLS_ERR_X509_ALLOC_FAILED MBEDTLS_ERR_PK_ALLOC_FAILED : Z).
Context (MBEDTLS_ERR_MPI_ALLOC_FAILED MBEDTLS_ERR_ASN1_ALLOC_FAILED : Z).

Abbreviation state := (store TlsTrustStore_SnapshotTypeDef F).
Abbreviation validate := (tlsTrustStore_ValidateDer parse_der MBEDTLS_ERR_X509_ALLOC_FAILED
  MBEDTLS_ERR_PK_ALLOC_FAILED MBEDTLS_ERR_MPI_ALLOC_FAILED MBEDTLS_ERR_ASN1_ALLOC_FAILED).
Abbreviation accepts := (accept parse_der MBEDTLS_ERR_X509_ALLOC_FAILED
  MBEDTLS_ERR_PK_ALLOC_FAILED MBEDTLS_ERR_MPI_ALLOC_FAILED MBEDTLS_ERR_ASN1_ALLOC_FAILED).
Abbreviation step := (spec_step parse_der MBEDTLS_ERR_X509_ALLOC_FAILED
  MBEDTLS_ERR_PK_ALLOC_FAILED MBEDTLS_ERR_MPI_ALLOC_FAILED MBEDTLS_ERR_ASN1_ALLOC_FAILED).
Abbreviation strings := (dn_strings parse_der).

(** One call that changes the store, after a successful start-up; [taken] is
    whether the mutex is obtained. *)
Definition run (taken : bool) (s : state) (o : op) : state * TlsTrustStore_StatusTypeDef * option Z :=
  match o with
  | OpAdd d => TlsTrustStore_Add validate true taken s d
  | OpReplace id d => (TlsTrustStore_Replace validate true taken s id d, None)
  | OpDelete id => (TlsTrustStore_Delete true taken s id, None)
  | OpReset => (TlsTrustStore_Reset true taken s, None)
  end.

(** The active bank holds the snapshot in RAM. *)
Definition Inv (s : state) : Prop :=
  holds c_snapshot tlsTrustStore_IsSnapshotValid BA BB (fl_mem (flash s)) (snapshot s) (activeAddress s).

(** What a restart would load. *)
Definition boots (s : state) : option (TlsTrustStore_SnapshotTypeDef * Z) :=
  boot c_snapshot tlsTrustStore_IsSnapshotValid generation BA BB (fl_mem (flash s)).

Abbreviation contents s := (table_of (snapshot s)).

Lemma tts_inv_wf s : Inv s -> c_wf c_snapshot (snapshot s).
Proof. apply holds_wf. Qed.

Lemma tts_inv_ok s : Inv s -> forallb anchor_ok (anchors (snapshot s)) = true.
Proof. intros (_ & _ & Hv). by apply andb_true_iff in Hv as [_ Hv]. Qed.

Lemma length_contents s : Inv s -> length (contents s) = TLS_TRUST_STORE_MAX_PERSISTED.
Proof.
  intros Hi. unfold table_of. rewrite length_map. apply (tts_anchors_wf _ _ (tts_inv_wf s Hi)).
Qed.

Lemma tts_commit_spec (s : state) c s' st :
  c_wf c_snapshot c -> tlsTrustStore_CommitCandidate s c = (s', st) ->
  same_outside (fl_mem (flash s)) (fl_mem (flash s')) (other BA BB (activeAddress s)) BANK_BYTES
  /\ ((st = TLS_TRUST_STORE_STATUS_OK /\ Inv s' /\ snapshot s' = stamp c
       /\ activeAddress s' = other BA BB (activeAddress s))
      \/ (st = TLS_TRUST_STORE_STATUS_STORAGE_ERROR /\ snapshot s' = snapshot s
          /\ activeAddress s' = activeAddress s)).
Proof.
  intros Hc E. unfold tlsTrustStore_CommitCandidate in E.
  destruct (tlsTrustStore_Save s (stamp c)) as [s1 r] eqn:Es. injection E as <- <-.
  apply tts_save_spec in Es as [Ho Hr]; [|by apply tts_stamp_wf]. split; [exact Ho|].
  destruct r; [left|by right]. destruct Hr as (E1 & E2 & Hi & Hv). split; [reflexivity|]. split; [|exact (conj E1 E2)].
  unfold Inv, holds. rewrite E2 in Hi |- *. rewrite E1. split_and!; [apply other_in|exact Hi|exact Hv].
Qed.

(** After a successful commit the bank it left holds only what is older. *)
Lemma tts_commit_spare (s : state) c s' :
  Inv s -> generation (snapshot s) < generation (stamp c) -> c_wf c_snapshot c ->
  tlsTrustStore_CommitCandidate s c = (s', TLS_TRUST_STORE_STATUS_OK) ->
  spare_older c_snapshot tlsTrustStore_IsSnapshotValid generation BA BB
    (fl_mem (flash s')) (snapshot s') (activeAddress s').
Proof.
  intros Hi Hg Hc E. apply tts_commit_spec in E as [Ho [(_ & (_ & Hm & Hv) & Hs & Ha)|[? _]]]; [|done|done].
  rewrite Ha, Hs in *.
  eapply (publish_spare c_snapshot _ _ BA BB BANK_BYTES); [exact Ho|exact Hm|exact Hv|].
  left. by exists (snapshot s).
Qed.

Lemma tts_commit_ready (s : state) c :
  fl_ready (flash s) -> c_wf c_snapshot c -> forallb anchor_ok (anchors c) = true ->
  exists s', tlsTrustStore_CommitCandidate s c = (s', TLS_TRUST_STORE_STATUS_OK) /\ fl_ready (flash s').
Proof.
  intros Hr Hc Ha. destruct (tts_save_ready s (stamp c) Hr (tts_stamp_wf _ Hc)) as (s' & E & Hr').
  { by rewrite tts_stamp_valid. }
  exists s'. unfold tlsTrustStore_CommitCandidate. by rewrite E.
Qed.

(** A candidate that is ready to be committed for the table [t]. *)
Record proposes (s : state) (c : TlsTrustStore_SnapshotTypeDef) (t : table) : Prop := {
  prop_wf : c_wf c_snapshot c;
  prop_ok : forallb anchor_ok (anchors c) = true;
  prop_generation : generation c = generation (snapshot s);
  prop_table : table_of c = t;
}.

Lemma set_anchor_proposes s i a :
  Inv s -> c_wf c_anchor a -> anchor_ok a = true ->
  proposes s (with_anchors (snapshot s) (<[i := a]> (anchors (snapshot s)))) (<[i := abs_anchor a]> (contents s)).
Proof.
  intros Hi Hw Ha. pose proof (tts_inv_wf s Hi) as Hs. destruct (tts_anchors_wf _ _ Hs) as [Hl Hf]. split.
  - apply with_anchors_wf; [done|by rewrite length_insert|by apply Forall_insert].
  - apply anchors_ok_insert; [by apply tts_inv_ok|done].
  - done.
  - apply map_insert.
Qed.

Lemma reset_proposes s :
  Inv s ->
  proposes s (Snapshot 0 0 0 (generation (snapshot s)) (replicate TLS_TRUST_STORE_MAX_PERSISTED zero_anchor) 0)
    (replicate TLS_TRUST_STORE_MAX_PERSISTED None).
Proof.
  intros Hi. split; [|reflexivity..].
  pose proof (tts_inv_wf s Hi) as Hw.
  apply (candidate_wf (snapshot s)); [exact Hw|unfold is_u32, is_u16; lia..|apply length_replicate|].
  apply Forall_replicate, zero_anchor_wf.
Qed.

(** How a call ends: refused as the table would refuse it, or the table's new
    contents are committed. *)
Definition outcome (s : state) (o : op) (s' : state) (st : TlsTrustStore_StatusTypeDef) (id : option Z) : Prop :=
  (s' = s /\ id = None /\ st <> TLS_TRUST_STORE_STATUS_OK /\ step (contents s) o = (contents s, st, None))
  \/ exists c t i, proposes s c t /\ step (contents s) o = (t, TLS_TRUST_STORE_STATUS_OK, i)
       /\ tlsTrustStore_CommitCandidate s c = (s', st)
       /\ id = (if decide (st = TLS_TRUST_STORE_STATUS_OK) then i else None).

Lemma slot_contents (s : state) i :
  contents s !! i = (abs_anchor <$> (anchors (snapshot s) !! i)).
Proof. apply list_lookup_fmap. Qed.

(** The occupancy test of the code is that of the table. *)
Lemma slot_occupied s id :
  Inv s -> id_valid id = true ->
  bool_decide (is_Some (default None (contents s !! Z.to_nat (id - 1)))) = negb (occupied (slot s id) =? 0).
Proof.
  intros Hi Hid. destruct (tts_anchors_wf _ _ (tts_inv_wf s Hi)) as [Hl _].
  apply andb_true_iff in Hid as [H1%Z.leb_le H2%Z.leb_le].
  destruct (lookup_lt_is_Some_2 (anchors (snapshot s)) (Z.to_nat (id - 1))) as [a Ha].
  { rewrite Hl. unfold TLS_TRUST_STORE_MIN_ID, TLS_TRUST_STORE_MAX_PERSISTED in *. lia. }
  unfold slot. rewrite slot_contents, (nth_lookup_Some _ _ _ _ Ha), Ha. cbn. unfold abs_anchor.
  by destruct (occupied a =? 0).
Qed.

(** Validating and committing a certificate into slot [i]. *)
Lemma store_outcome s i d o n :
  strings -> Inv s -> match d with Some d => Forall is_u8 d | None => True end ->
  step (contents s) o = set_slot parse_der MBEDTLS_ERR_X509_ALLOC_FAILED MBEDTLS_ERR_PK_ALLOC_FAILED
    MBEDTLS_ERR_MPI_ALLOC_FAILED MBEDTLS_ERR_ASN1_ALLOC_FAILED (contents s) i d n ->
  forall status a s' st id, validate d = (status, a) ->
  match status with
  | TLS_TRUST_STORE_STATUS_OK =>
      let '(s, status) := tlsTrustStore_CommitCandidate s
                            (with_anchors (snapshot s) (<[i := a]> (anchors (snapshot s)))) in
      (s, status, match status with TLS_TRUST_STORE_STATUS_OK => n | _ => None end)
  | _ => (s, status, None)
  end = (s', st, id) -> outcome s o s' st id.
Proof.
  intros Hdn Hi Hd Hstep status a s' st id Ev E. apply validate_spec in Ev; [|done..].
  unfold set_slot in Hstep. destruct (accepts d) as [refused|c].
  - destruct Ev as [<- Hne]. left. destruct status; try done; injection E as <- <- <-; split_and!; done.
  - destruct Ev as (-> & Hw & Ha & Hab). right. pose proof (set_anchor_proposes s i a Hi Hw Ha) as Hp.
    rewrite Hab in Hp. eexists _, _, n. split; [exact Hp|]. split; [exact Hstep|].
    destruct (tlsTrustStore_CommitCandidate _ _) as [s1 st1]. injection E as <- <- <-. split; [done|].
    by destruct st1.
Qed.

Lemma run_outcome s o s' st id :
  strings -> Inv s -> op_ok o -> run true s o = (s', st, id) -> outcome s o s' st id.
Proof.
  intros Hdn Hi Ho E. pose proof (length_contents s Hi) as Hlen. destruct o as [d|i d|i|]; cbn [run] in E.
  - unfold TlsTrustStore_Add in E. cbn [negb orb] in E.
    rewrite first_free_slot in E. fold (contents s) in E.
    destruct (free_slot (contents s) =? TLS_TRUST_STORE_MAX_PERSISTED)%nat eqn:Ef.
    { injection E as <- <- <-. left. split_and!; try done. cbn [spec_step]. by rewrite Ef. }
    destruct (validate d) as [status a] eqn:Ev.
    eapply (store_outcome s (free_slot (contents s)) d _ (Some (Z.of_nat (free_slot (contents s)) + 1)));
      [done..|cbn [spec_step]; by rewrite Ef|exact Ev|].
    pose proof (free_slot_le (contents s)) as Hf.
    assert (u8 (Z.of_nat (free_slot (contents s)) + 1) = Z.of_nat (free_slot (contents s)) + 1) as Hu.
    { apply u8_id. unfold is_u8, TLS_TRUST_STORE_MAX_PERSISTED in *. lia. }
    by rewrite Hu in E.
  - unfold TlsTrustStore_Replace in E. rewrite orb_false_r in E. destruct (id_valid i) eqn:Ei; cbn [negb] in E;
      [|injection E as <- <- <-; left; split_and!; try done; cbn [spec_step]; by rewrite Ei].
    pose proof (slot_occupied s i Hi Ei) as Hocc.
    destruct (occupied (slot s i) =? 0) eqn:Eo.
    { injection E as <- <- <-. left. split_and!; try done. cbn [spec_step]. by rewrite Ei, Hocc. }
    destruct (validate d) as [status a] eqn:Ev.
    eapply (store_outcome s (Z.to_nat (i - 1)) d _ None);
      [done..|cbn [spec_step]; by rewrite Ei, Hocc|exact Ev|].
    rewrite <-E. destruct status; try done. destruct (tlsTrustStore_CommitCandidate _ _) as [s1 []]; done.
  - unfold TlsTrustStore_Delete in E. rewrite orb_false_r in E. destruct (id_valid i) eqn:Ei; cbn [negb] in E;
      [|injection E as <- <- <-; left; split_and!; try done; cbn [spec_step]; by rewrite Ei].
    pose proof (slot_occupied s i Hi Ei) as Hocc.
    destruct (occupied (slot s i) =? 0) eqn:Eo.
    { injection E as <- <- <-. left. split_and!; try done. cbn [spec_step]. by rewrite Ei, Hocc. }
    right. eexists _, _, None. split; [apply (set_anchor_proposes s (Z.to_nat (i - 1)) zero_anchor Hi zero_anchor_wf eq_refl)|].
    split; [cbn [spec_step]; by rewrite Ei, Hocc|].
    destruct (tlsTrustStore_CommitCandidate _ _) as [s1 st1]. injection E as <- <- <-. by case_decide.
  - right. eexists _, _, None. split; [by apply reset_proposes|]. split; [done|].
    unfold TlsTrustStore_Reset in E. cbn [negb orb] in E.
    destruct (tlsTrustStore_CommitCandidate _ _) as [s1 st1]. injection E as <- <- <-. by case_decide.
Qed.

Lemma untaken_refused s o s' st id :
  run false s o = (s', st, id) -> s' = s /\ id = None /\ st <> TLS_TRUST_STORE_STATUS_OK.
Proof.
  destruct o as [d|i d|i|]; cbn [run]; unfold TlsTrustStore_Add, TlsTrustStore_Replace, TlsTrustStore_Delete,
    TlsTrustStore_Reset; cbn [negb orb]; try destruct (negb _ || _); intros E; by injection E as <- <- <-.
Qed.

Lemma outcome_inv s o s' st id : Inv s -> outcome s o s' st id -> Inv s'.
Proof.
  intros Hi [(-> & _)|(c & t & i & Hp & _ & E & _)]; [exact Hi|].
  apply tts_commit_spec in E as [Ho [(_ & H' & _)|(_ & Es & Ea)]]; [exact H'| |apply Hp].
  unfold Inv. rewrite Es, Ea. exact (holds_other c_snapshot _ BA BB BANK_BYTES _ _ _ _ Hi Ho).
Qed.

(** C6. The trust store implements a table of six optional certificates:
    adding fills the first free slot with the given certificate when it is a
    CA that may sign, and reports the slot's id; replacing and deleting change
    the named slot only when it is occupied; every refusal has the table's
    status.  A storage error leaves the table as it was, and none occurs on a
    device that answers. *)
Theorem trust_store_refines s o s' st id :
  strings -> Inv s -> op_ok o -> run true s o = (s', st, id) ->
  Inv s'
  /\ (step (contents s) o = (contents s', st, id)
      \/ (st = TLS_TRUST_STORE_STATUS_STORAGE_ERROR /\ id = None /\ snapshot s' = snapshot s
          /\ ~ fl_ready (flash s))).
Proof.
  intros Hdn Hi Ho E. pose proof (run_outcome _ _ _ _ _ Hdn Hi Ho E) as Hout.
  split; [exact (outcome_inv _ _ _ _ _ Hi Hout)|].
  destruct Hout as [(-> & -> & _ & Hs)|(c & t & i & [Hw Hok Hg Ht] & Hs & Ec & ->)]; [by left|].
  pose proof Ec as Hc. apply tts_commit_spec in Hc as [_ [(-> & _ & Es & _)|(-> & Es & _)]]; [| |exact Hw].
  - left. rewrite Hs, Es. unfold table_of in *. cbn [anchors stamp with_crc stamp_header]. by rewrite Ht.
  - right. split; [done|]. split; [done|]. split; [exact Es|]. intros Hr.
    destruct (tts_commit_ready s c Hr Hw Hok) as (s2 & E2 & _). congruence.
Qed.

(** A change of the trust store is atomic: after any outcome of any call,
    a failed or interrupted commit included, a restart finds the table as it
    was before the call or as the call should leave it (or a bank whose damage
    the CRC does not show); a reported success is what the restart finds. *)
Lemma trust_store_crash_atomic taken s o s' st id :
  strings -> Inv s -> op_ok o -> generation (snapshot s) < 4294967295 ->
  boots s = Some (snapshot s, activeAddress s) -> run taken s o = (s', st, id) ->
  if decide (st = TLS_TRUST_STORE_STATUS_OK)
  then boots s' = Some (snapshot s', activeAddress s') /\ (step (contents s) o).1.1 = contents s'
  else snapshot s' = snapshot s
       /\ (boots s' = Some (snapshot s, activeAddress s)
           \/ exists c a, table_of c = (step (contents s) o).1.1
                /\ (boots s' = Some (c, a)
                    \/ undetected c_snapshot tlsTrustStore_IsSnapshotValid (fl_mem (flash s')) a c)).
Proof.
  intros Hdn Hi Ho Hg Hb E. destruct taken.
  2: { apply untaken_refused in E as (-> & _ & Hne). rewrite decide_False by done. auto. }
  destruct (run_outcome _ _ _ _ _ Hdn Hi Ho E)
    as [(-> & -> & Hne & _)|(c & t & i & [Hw Hok Hgc Ht] & Hs & Ec & ->)].
  { rewrite decide_False by done. auto. }
  rewrite Hs. cbn [fst snd]. apply tts_commit_spec in Ec as [Hout Hc]; [|exact Hw].
  pose proof (holds_other c_snapshot _ BA BB BANK_BYTES _ _ _ _ Hi Hout) as Hi'.
  destruct Hc as [(-> & (_ & Him & Hv) & Es & Ea)|(-> & Es & Ea)].
  - rewrite decide_True by done. split; [|rewrite Es; by rewrite <-Ht].
    unfold boots. rewrite Ea. rewrite Ea in Him.
    apply (boot_publish c_snapshot _ generation BA BB BANK_BYTES _ _ _ _ Hi' Him Hv).
    rewrite Es. cbn [generation stamp with_crc stamp_header]. rewrite Hgc, u32_id; [lia|].
    pose proof (tts_generation_u32 _ _ (tts_inv_wf s Hi)). unfold is_u32 in *. lia.
  - rewrite decide_False by done. split; [exact Es|].
    destruct (boot_torn c_snapshot _ generation BA BB BANK_BYTES _ _ _ (stamp c) Hi') as [Hold|Hnew].
    + left. exact Hold.
    + right. exists (stamp c), (other BA BB (activeAddress s)). split; [exact Ht|exact Hnew].
Qed.

(** The certificate of a slot, as the reading operations see it. *)
Definition lookup_id (t : table) (id : Z) : option certificate :=
  if id_valid id then default None (t !! Z.to_nat (id - 1)) else None.

Lemma abs_slot s id :
  Inv s -> id_valid id = true -> default None (contents s !! Z.to_nat (id - 1)) = abs_anchor (slot s id).
Proof.
  intros Hi Hid. destruct (tts_anchors_wf _ _ (tts_inv_wf s Hi)) as [Hl _].
  apply andb_true_iff in Hid as [H1%Z.leb_le H2%Z.leb_le].
  destruct (lookup_lt_is_Some_2 (anchors (snapshot s)) (Z.to_nat (id - 1))) as [a Ha].
  { rewrite Hl. unfold TLS_TRUST_STORE_MIN_ID, TLS_TRUST_STORE_MAX_PERSISTED in *. lia. }
  unfold slot. by rewrite slot_contents, (nth_lookup_Some _ _ _ _ Ha), Ha.
Qed.

(** The reading operations answer from the table. *)
Lemma exists_spec s id :
  Inv s -> TlsTrustStore_Exists true true s id = bool_decide (is_Some (lookup_id (contents s) id)).
Proof.
  intros Hi. unfold TlsTrustStore_Exists, lookup_id. destruct (id_valid id) eqn:E; [|done].
  rewrite abs_slot by done. unfold abs_anchor. by destruct (occupied (slot s id) =? 0).
Qed.

Lemma parse_spec parses s id :
  Inv s ->
  TlsTrustStore_Parse true true parses s id =
  match lookup_id (contents s) id with
  | Some (_, d) => (if parses d then TLS_TRUST_STORE_STATUS_OK else TLS_TRUST_STORE_STATUS_INVALID_CERTIFICATE, Some d)
  | None => (TLS_TRUST_STORE_STATUS_NOT_FOUND, None)
  end.
Proof.
  intros Hi. unfold TlsTrustStore_Parse, lookup_id. destruct (id_valid id) eqn:E; [|done].
  rewrite abs_slot by done. unfold abs_anchor. by destruct (occupied (slot s id) =? 0).
Qed.

(** The listing of a table: id, size and subject of each certificate. *)
Fixpoint listing (t : table) (id : Z) : list (Z * Z * bytes) :=
  match t with
  | [] => []
  | None :: t => listing t (id + 1)
  | Some (subject, d) :: t => (id, Z.of_nat (length d), subject) :: listing t (id + 1)
  end.

Definition info_view (i : TlsTrustStore_InfoTypeDef) : Z * Z * bytes :=
  (i_id i, i_derLength i, cstr (i_subject i)).

Lemma info_subject a :
  length (subject a) = TLS_TRUST_STORE_SUBJECT_SIZE -> terminated (subject a) = true ->
  forall id, cstr (i_subject (info_of id a)) = cstr (subject a).
Proof.
  intros Hl Ht id. apply terminated_strlen in Ht. rewrite Hl in Ht. apply cstr_bounded_copy.
  unfold TLS_TRUST_STORE_SUBJECT_SIZE in *. lia.
Qed.

Lemma list_loop_spec l id room :
  Forall (c_wf c_anchor) l -> forallb anchor_ok l = true ->
  map info_view (list_loop l id room) = take room (listing (map abs_anchor l) id).
Proof.
  revert id room. induction l as [|a l IH]; intros id room Hw Hok.
  - cbn. by rewrite take_nil.
  - apply list.Forall_cons in Hw as [Hw Hws]. cbn [forallb] in Hok. apply andb_true_iff in Hok as [Ho Hok].
    destruct room as [|r]; [reflexivity|]. cbn [list_loop map listing]. unfold abs_anchor at 1.
    unfold anchor_ok in Ho. destruct (occupied a =? 0) eqn:E; [by apply IH|]. cbn [map listing].
    rewrite firstn_cons, IH by done. f_equal.
    destruct (proj1 (tts_anchor_wf a) Hw) as (_ & _ & Hu & [Hs _] & [Hd _]).
    cbn [orb] in Ho. rewrite !andb_true_iff in Ho. destruct Ho as [[_ Hlen%Z.leb_le] Ht].
    unfold info_view. rewrite (info_subject a Hs Ht). cbn [i_id i_derLength info_of].
    rewrite length_take, Hd. unfold is_u16 in Hu. f_equal. f_equal. lia.
Qed.

Lemma run_ok s o s' id :
  strings -> Inv s -> op_ok o -> run true s o = (s', TLS_TRUST_STORE_STATUS_OK, id) ->
  Inv s' /\ step (contents s) o = (contents s', TLS_TRUST_STORE_STATUS_OK, id).
Proof.
  intros Hdn Hi Ho E. pose proof (run_outcome _ _ _ _ _ Hdn Hi Ho E) as Hout.
  split; [exact (outcome_inv _ _ _ _ _ Hi Hout)|].
  destruct Hout as [(_ & _ & Hne & _)|(c & t & i & [Hw Hok Hg Ht] & Hs & Ec & ->)]; [done|].
  rewrite Hs. apply tts_commit_spec in Ec as [_ [(_ & _ & Es & _)|(Ee & _)]]; [|done|exact Hw].
  by rewrite Es, <-Ht.
Qed.

Lemma free_slot_lookup t : (free_slot t < length t)%nat -> t !! free_slot t = Some None.
Proof.
  induction t as [|[x|] t IH]; cbn [free_slot length]; intros Hl; [lia| |done]. apply IH. lia.
Qed.

Lemma listing_lookup t i subject d id :
  t !! i = Some (Some (subject, d)) ->
  (id + Z.of_nat i, Z.of_nat (length d), subject) ∈ listing t id.
Proof.
  revert i id. induction t as [|x t IH]; intros i id Hi; [done|]. destruct i as [|i]; cbn in Hi.
  - injection Hi as ->. cbn [listing]. rewrite Z.add_0_r. left.
  - replace (id + Z.of_nat (S i)) with (id + 1 + Z.of_nat i) by lia. specialize (IH i (id + 1) Hi).
    destruct x as [[? ?]|]; cbn [listing]; [by right|done].
Qed.

Lemma length_listing t id : (length (listing t id) <= length t)%nat.
Proof.
  revert id. induction t as [|[[? ?]|] t IH]; intros id; cbn [listing length]; [lia|specialize (IH (id + 1)); lia..].
Qed.

Lemma list_spec s n :
  Inv s -> (n <> 0)%nat ->
  map info_view (TlsTrustStore_List true true s (Some n)) = take n (listing (contents s) 1).
Proof.
  intros Hi Hn. unfold TlsTrustStore_List. apply Nat.eqb_neq in Hn. rewrite Hn. cbn [negb orb].
  apply list_loop_spec; [apply (tts_anchors_wf _ _ (tts_inv_wf s Hi))|by apply tts_inv_ok].
Qed.

(** A successful addition, on the table. *)
Lemma add_step t d t' id :
  length t = TLS_TRUST_STORE_MAX_PERSISTED ->
  step t (OpAdd (Some d)) = (t', TLS_TRUST_STORE_STATUS_OK, Some id) ->
  id_valid id = true /\ t !! Z.to_nat (id - 1) = Some None
  /\ exists text, parse_der d = X509 true true (Some text) /\ t' = <[Z.to_nat (id - 1) := Some (text, d)]> t.
Proof.
  intros Hl E. cbn [spec_step] in E. destruct (Nat.eqb_spec (free_slot t) TLS_TRUST_STORE_MAX_PERSISTED) as [|Hf]; [done|].
  pose proof (free_slot_le t) as Hle. unfold set_slot in E. cbn [accept] in E.
  case_bool_decide as Hd; [|injection E; congruence].
  destruct (parse_der d) as [code|[] [] [text|]]; try (injection E; congruence).
  case_bool_decide as Ht; [|injection E; congruence]. injection E as <- <-.
  replace (Z.to_nat (Z.of_nat (free_slot t) + 1 - 1)) with (free_slot t) by lia. split; [|split].
  - apply andb_true_iff. unfold TLS_TRUST_STORE_MIN_ID, TLS_TRUST_STORE_MAX_PERSISTED in *.
    split; apply Z.leb_le; lia.
  - apply free_slot_lookup. lia.
  - by exists text.
Qed.

(** A certificate that was added is handed back byte for byte: the id the
    call reports exists afterwards, parsing it gives Mbed TLS exactly the bytes
    that were uploaded, and the listing shows it with its size and the subject
    of the certificate, which is a CA that may sign; every other slot is as before. *)
Lemma trust_store_roundtrip parses s d s' id :
  strings -> Inv s -> Forall is_u8 d ->
  run true s (OpAdd (Some d)) = (s', TLS_TRUST_STORE_STATUS_OK, Some id) ->
  TlsTrustStore_Exists true true s' id = true
  /\ (TlsTrustStore_Parse true true parses s' id).2 = Some d
  /\ (exists text, parse_der d = X509 true true (Some text)
      /\ (id, Z.of_nat (length d), text)
         ∈ map info_view (TlsTrustStore_List true true s' (Some TLS_TRUST_STORE_MAX_PERSISTED)))
  /\ TlsTrustStore_Exists true true s id = false
  /\ (forall i, i <> id -> lookup_id (contents s') i = lookup_id (contents s) i).
Proof.
  intros Hdn Hi Hd E. destruct (run_ok s (OpAdd (Some d)) s' _ Hdn Hi Hd E) as [Hi' Hs].
  destruct (add_step _ _ _ _ (length_contents s Hi) Hs) as (Hid & Hfree & text & Hp & Ht).
  assert (contents s' !! Z.to_nat (id - 1) = Some (Some (text, d))) as Hl.
  { rewrite Ht. apply list_lookup_insert_eq. by eapply lookup_lt_Some. }
  assert (lookup_id (contents s') id = Some (text, d) /\ lookup_id (contents s) id = None) as [L1 L0].
  { unfold lookup_id. by rewrite Hid, Hl, Hfree. }
  rewrite !exists_spec, parse_spec, L1, L0 by assumption.
  split; [done|]. split; [done|]. split; [|split; [done|]].
  - exists text. split; [done|]. rewrite list_spec by done. rewrite take_ge.
    + replace id with (1 + Z.of_nat (Z.to_nat (id - 1))) at 1; [by apply listing_lookup|].
      apply andb_true_iff in Hid as [H1%Z.leb_le _]. unfold TLS_TRUST_STORE_MIN_ID in H1. lia.
    + rewrite length_listing, length_contents by done. done.
  - intros i Hne. unfold lookup_id. destruct (id_valid i) eqn:Ei; [|done].
    rewrite Ht, list_lookup_insert_ne; [done|].
    apply andb_true_iff in Ei as [H1%Z.leb_le _]. apply andb_true_iff in Hid as [H2%Z.leb_le _].
    unfold TLS_TRUST_STORE_MIN_ID in *. lia.
Qed.

(** *** Start-up *)

(** What the older banks of an array offer. *)
Definition older (n : nat) (v : Z) (A B : Z) (m : mem) : option TlsTrustStore_SnapshotTypeDef :=
  let x := image (c_layout n) m A in
  let y := image (c_layout n) m B in
  newest_older x y (layout_valid (c_layout n) v x) (layout_valid (c_layout n) v y).

Definition previous_of : mem -> option TlsTrustStore_SnapshotTypeDef :=
  older TLS_TRUST_STORE_PREVIOUS_MAX_PERSISTED TLS_TRUST_STORE_PREVIOUS_VERSION
    FLASH_LAYOUT_TLS_TRUST_STORE_PREVIOUS_BANK_A FLASH_LAYOUT_TLS_TRUST_STORE_PREVIOUS_BANK_B.

Definition legacy_of : mem -> option TlsTrustStore_SnapshotTypeDef :=
  older TLS_TRUST_STORE_LEGACY_MAX_PERSISTED TLS_TRUST_STORE_LEGACY_VERSION
    FLASH_LAYOUT_TLS_TRUST_STORE_LEGACY_BANK_A FLASH_LAYOUT_TLS_TRUST_STORE_LEGACY_BANK_B.

(** The table a device without a current bank starts with, and the
    generation it continues from. *)
Definition pad (t : table) : table := t ++ replicate (TLS_TRUST_STORE_MAX_PERSISTED - length t) None.

Definition initial (m : mem) : table * Z :=
  match previous_of m, legacy_of m with
  | Some p, _ => (pad (table_of p), generation p)
  | None, Some l => (pad (table_of l), generation l)
  | None, None => (pad [], 0)
  end.

Lemma empty_slots_ok k : forallb anchor_ok (replicate k zero_anchor) = true.
Proof. by induction k. Qed.

Lemma migrate_spec n p :
  (n <= TLS_TRUST_STORE_MAX_PERSISTED)%nat -> c_wf (c_layout n) p -> forallb anchor_ok (anchors p) = true ->
  c_wf c_snapshot (migrate p) /\ forallb anchor_ok (anchors (migrate p)) = true
  /\ table_of (migrate p) = pad (table_of p) /\ generation (migrate p) = generation p.
Proof.
  intros Hn Hw Hok. destruct (tts_anchors_wf n p Hw) as [Hl Hf]. pose proof (tts_generation_u32 n p Hw).
  assert (anchors (migrate p) = anchors p ++ replicate (TLS_TRUST_STORE_MAX_PERSISTED - n) zero_anchor) as Ea.
  { cbn [anchors migrate]. by rewrite drop_replicate, Hl. }
  split; [|split; [|split; [|done]]].
  - apply tts_layout_wf. rewrite Ea. cbn [magic version reserved generation crc migrate].
    rewrite length_app, length_replicate. split_and!; try (unfold is_u32, is_u16; lia); try done.
    apply Forall_app. split; [done|]. apply Forall_replicate, zero_anchor_wf.
  - by rewrite Ea, forallb_app, Hok, empty_slots_ok.
  - unfold table_of, pad. rewrite Ea, map_app, length_map, Hl. f_equal.
    exact (fmap_replicate abs_anchor _ zero_anchor).
Qed.

Lemma image_wf n (f : F) a : c_wf (c_layout n) (image (c_layout n) (fl_mem f) a).
Proof. apply c_dec_wf; [apply length_slice|]. apply slice_bytes. intros x. apply fl_mem_byte. Qed.

Lemma load_older_spec n v f A B f' x :
  0 <= A -> 0 <= B ->
  load_older (read_checked (c_layout n) (layout_valid (c_layout n) v)) f A B = (f', x) ->
  mem_eq (fl_mem f') (fl_mem f)
  /\ forall p, x = Some p -> c_wf (c_layout n) p /\ forallb anchor_ok (anchors p) = true.
Proof.
  intros HA HB E. unfold load_older in E.
  destruct (read_checked _ _ f A) as [[f1 x1] v1] eqn:E1. destruct (read_checked _ _ f1 B) as [[f2 x2] v2] eqn:E2.
  injection E as <- <-. apply read_checked_spec in E1 as [M1 H1]; [|done].
  apply read_checked_spec in E2 as [M2 H2]; [|done]. split; [by etrans|].
  assert (forall g a y, y = image (c_layout n) (fl_mem (F := F) g) a /\ layout_valid (c_layout n) v y = true ->
    c_wf (c_layout n) y /\ forallb anchor_ok (anchors y) = true) as Hy.
  { intros g a y [-> Hv]. split; [apply image_wf|]. by apply andb_true_iff in Hv as [_ Hv]. }
  unfold newest_older. intros p E. destruct v2; cbn [andb] in E.
  - destruct (negb v1 || _); [injection E as <-; exact (Hy _ _ _ (H2 eq_refl))|].
    destruct v1; [|done]. injection E as <-. exact (Hy _ _ _ (H1 eq_refl)).
  - destruct v1; [|done]. injection E as <-. exact (Hy _ _ _ (H1 eq_refl)).
Qed.

Lemma load_older_ready n v f A B :
  fl_ready f -> 0 <= A -> 0 <= B ->
  w25q64_IsRangeValid A (Z.of_nat (c_size (c_layout n))) = true ->
  w25q64_IsRangeValid B (Z.of_nat (c_size (c_layout n))) = true ->
  exists f', load_older (read_checked (c_layout n) (layout_valid (c_layout n) v)) f A B
      = (f', older n v A B (fl_mem f)) /\ fl_ready f' /\ mem_eq (fl_mem f') (fl_mem f).
Proof.
  intros Hr HA HB VA VB. unfold load_older, older.
  destruct (read_checked_at (c_layout n) (layout_valid (c_layout n) v) f A Hr HA VA) as (f1 & -> & Hr1 & M1).
  destruct (read_checked_at (c_layout n) (layout_valid (c_layout n) v) f1 B Hr1 HB VB) as (f2 & -> & Hr2 & M2).
  exists f2. split; [|split; [exact Hr2|by etrans]].
  by rewrite (image_proper (c_layout n) _ _ M1 B B eq_refl).
Qed.

Lemma zero_trust_store_wf : c_wf c_snapshot zero_snapshot.
Proof.
  apply tts_layout_wf. cbn [magic version reserved generation anchors crc zero_snapshot].
  split_and!; try (unfold is_u32, is_u16; lia); [apply length_replicate|]. apply Forall_replicate, zero_anchor_wf.
Qed.

(** The migration commits one candidate; on a device that answers, the one for
    the initial table. *)
Lemma init_from_older_spec ram f s' r :
  init_from_older ram f = (s', r) ->
  exists base a f' c, mem_eq (fl_mem f') (fl_mem f) /\ (a = BA \/ a = BB) /\ c_wf c_snapshot c
    /\ init_status (tlsTrustStore_CommitCandidate (Store base a f') c) = (s', r).
Proof.
  intros E. unfold init_from_older in E.
  destruct (load_older tlsTrustStore_ReadPreviousSnapshot _ _ _) as [f3 p] eqn:E3.
  apply load_older_spec in E3 as [M3 H3]; [|by vm_compute..]. destruct p as [p|].
  { destruct (H3 p eq_refl) as [Hw Hok]. eexists _, _, _, _. split; [exact M3|]. split; [by left|]. split; [|exact E].
    by apply (migrate_spec _ p (proj1 (Nat.leb_le 5 6) eq_refl) Hw Hok). }
  destruct (load_older tlsTrustStore_ReadLegacySnapshot _ _ _) as [f4 l] eqn:E4.
  apply load_older_spec in E4 as [M4 H4]; [|by vm_compute..].
  assert (mem_eq (fl_mem f4) (fl_mem f)) as M by (by rewrite M4, M3). destruct l as [l|].
  { destruct (H4 l eq_refl) as [Hw Hok]. eexists _, _, _, _. split; [exact M|]. split; [by right|]. split; [|exact E].
    by apply (migrate_spec _ l (proj1 (Nat.leb_le 3 6) eq_refl) Hw Hok). }
  eexists _, _, _, _. split; [exact M|]. split; [by right|]. split; [apply zero_trust_store_wf|exact E].
Qed.

#[export] Instance older_proper n v A B : Proper (mem_eq ==> eq) (older n v A B).
Proof. intros m m' Hm. unfold older. by rewrite !(image_proper _ _ _ Hm _ _ eq_refl). Qed.

#[export] Instance previous_of_proper : Proper (mem_eq ==> eq) previous_of.
Proof. exact (older_proper _ _ _ _). Qed.
#[export] Instance legacy_of_proper : Proper (mem_eq ==> eq) legacy_of.
Proof. exact (older_proper _ _ _ _). Qed.
#[export] Instance initial_proper : Proper (mem_eq ==> eq) initial.
Proof.
  intros m m' Hm. unfold initial. by rewrite (previous_of_proper _ _ Hm), (legacy_of_proper _ _ Hm).
Qed.

Lemma init_from_older_ready ram f s' r :
  fl_ready f -> init_from_older ram f = (s', r) ->
  exists base a f' c, mem_eq (fl_mem f') (fl_mem f) /\ fl_ready f'
    /\ (a = BB \/ (a = BA /\ previous_of (fl_mem f) <> None))
    /\ c_wf c_snapshot c /\ forallb anchor_ok (anchors c) = true
    /\ (table_of c, generation c) = initial (fl_mem f)
    /\ init_status (tlsTrustStore_CommitCandidate (Store base a f') c) = (s', r).
Proof.
  intros Hr E. unfold init_from_older in E.
  destruct (load_older_ready TLS_TRUST_STORE_PREVIOUS_MAX_PERSISTED TLS_TRUST_STORE_PREVIOUS_VERSION f
    FLASH_LAYOUT_TLS_TRUST_STORE_PREVIOUS_BANK_A FLASH_LAYOUT_TLS_TRUST_STORE_PREVIOUS_BANK_B Hr)
    as (f3 & E3 & Hr3 & M3); [by vm_compute..|].
  pose proof E3 as S3. apply load_older_spec in S3 as [_ S3]; [|by vm_compute..].
  fold c_previous tlsTrustStore_IsPreviousSnapshotValid (previous_of (fl_mem f)) in E3, S3.
  change tlsTrustStore_ReadPreviousSnapshot with
    (read_checked (F := F) c_previous tlsTrustStore_IsPreviousSnapshotValid) in E. rewrite E3 in E. unfold initial.
  destruct (previous_of (fl_mem f)) as [p|].
  { destruct (S3 p eq_refl) as [Hw Hok].
    destruct (migrate_spec _ p (proj1 (Nat.leb_le 5 6) eq_refl) Hw Hok) as (Hw' & Hok' & Ht & Hg).
    eexists _, _, _, _. split_and!; [exact M3|exact Hr3|by right|exact Hw'|exact Hok'|by rewrite Ht, Hg|exact E]. }
  destruct (load_older_ready TLS_TRUST_STORE_LEGACY_MAX_PERSISTED TLS_TRUST_STORE_LEGACY_VERSION f3
    FLASH_LAYOUT_TLS_TRUST_STORE_LEGACY_BANK_A FLASH_LAYOUT_TLS_TRUST_STORE_LEGACY_BANK_B Hr3)
    as (f4 & E4 & Hr4 & M4); [by vm_compute..|].
  pose proof E4 as S4. apply load_older_spec in S4 as [_ S4]; [|by vm_compute..].
  rewrite (older_proper _ _ _ _ _ _ M3) in E4, S4.
  fold c_legacy tlsTrustStore_IsLegacySnapshotValid (legacy_of (fl_mem f)) in E4, S4.
  change tlsTrustStore_ReadLegacySnapshot with
    (read_checked (F := F) c_legacy tlsTrustStore_IsLegacySnapshotValid) in E. rewrite E4 in E.
  assert (mem_eq (fl_mem f4) (fl_mem f)) as M by (by rewrite M4, M3).
  destruct (legacy_of (fl_mem f)) as [l|].
  { destruct (S4 l eq_refl) as [Hw Hok].
    destruct (migrate_spec _ l (proj1 (Nat.leb_le 3 6) eq_refl) Hw Hok) as (Hw' & Hok' & Ht & Hg).
    eexists _, _, _, _. split_and!; [exact M|exact Hr4|by left|exact Hw'|exact Hok'|by rewrite Ht, Hg|exact E]. }
  eexists _, _, _, _. split_and!; [exact M|exact Hr4|by left|apply zero_trust_store_wf|reflexivity..|exact E].
Qed.

(** Loading one of the current banks. *)
Lemma init_current s s' r :
  TlsTrustStore_Init true s = (s', r) ->
  (mem_eq (fl_mem (flash s')) (fl_mem (flash s)) /\ (r = HEALTH_CHECK_STATUS_OK -> Inv s'))
  \/ exists ram f, mem_eq (fl_mem f) (fl_mem (flash s)) /\ init_from_older ram f = (s', r).
Proof.
  intros E. unfold TlsTrustStore_Init in E. cbn [negb] in E.
  assert (0 <= BA /\ 0 <= BB) as [PA PB] by (split; by vm_compute).
  destruct (tlsTrustStore_ReadSnapshot (flash s) BA) as [[f1 x1] v1] eqn:E1.
  destruct (tlsTrustStore_ReadSnapshot f1 BB) as [[f2 x2] v2] eqn:E2.
  apply read_checked_spec in E1 as [M1 H1]; [|exact PA]. apply read_checked_spec in E2 as [M2 H2]; [|exact PB].
  destruct (v1 && _).
  { left. destruct (tlsTrustStore_ReadSnapshot f2 BA) as [[f3 x3] v3] eqn:E3.
    apply read_checked_spec in E3 as [M3 H3]; [|exact PA].
    destruct v3; cbn [negb] in E; injection E as <- <-; (split; [cbn [flash]; by rewrite M3, M2, M1|]); [|done].
    intros _. destruct (H3 eq_refl) as [-> Hv]. split; [by left|]. cbn [snapshot activeAddress flash].
    by rewrite (image_proper c_snapshot _ _ M3 _ _ eq_refl). }
  destruct v2.
  - left. injection E as <- <-. split; [cbn [flash]; by rewrite M2, M1|]. intros _.
    destruct (H2 eq_refl) as [-> Hv]. split; [by right|]. cbn [snapshot activeAddress flash].
    by rewrite (image_proper c_snapshot _ _ M2 _ _ eq_refl).
  - right. exists x1, f2. split; [by rewrite M2, M1|exact E].
Qed.

Lemma init_current_ready s s' r :
  fl_ready (flash s) -> TlsTrustStore_Init true s = (s', r) ->
  match boots s with
  | Some (x, a) => r = HEALTH_CHECK_STATUS_OK /\ snapshot s' = x /\ activeAddress s' = a
      /\ mem_eq (fl_mem (flash s')) (fl_mem (flash s)) /\ fl_ready (flash s')
  | None => exists ram f, fl_ready f /\ mem_eq (fl_mem f) (fl_mem (flash s)) /\ init_from_older ram f = (s', r)
  end.
Proof.
  intros Hr E. unfold TlsTrustStore_Init, tlsTrustStore_ReadSnapshot in E. cbn [negb] in E.
  assert (0 <= BA /\ 0 <= BB) as [PA PB] by (split; by vm_compute).
  destruct (ab_images c_snapshot BA BB BANK_BYTES) as [VA VB].
  set (valid := tlsTrustStore_IsSnapshotValid) in *.
  destruct (read_checked_at c_snapshot valid (flash s) BA Hr PA VA) as (f1 & E1 & Hr1 & M1). rewrite E1 in E.
  destruct (read_checked_at c_snapshot valid f1 BB Hr1 PB VB) as (f2 & E2 & Hr2 & M2). rewrite E2 in E.
  rewrite (image_proper c_snapshot _ _ M1 BB BB eq_refl) in E.
  assert (mem_eq (fl_mem f2) (fl_mem (flash s))) as M by (by rewrite M2, M1).
  unfold boots, boot, choose, pick. fold valid.
  set (x := image c_snapshot (fl_mem (flash s)) BA) in *. set (y := image c_snapshot (fl_mem (flash s)) BB) in *.
  destruct (valid x && (negb (valid y) || (generation y <=? generation x))) eqn:Ex.
  - destruct (read_checked_at c_snapshot valid f2 BA Hr2 PA VA) as (f3 & E3 & Hr3 & M3). rewrite E3 in E.
    rewrite (image_proper c_snapshot _ _ M BA BA eq_refl) in E. fold x in E.
    apply andb_true_iff in Ex as [Hx _]. rewrite Hx in E. cbn [negb] in E. injection E as <- <-.
    cbn [snapshot activeAddress flash]. split_and!; try done. by rewrite M3.
  - destruct (valid y); [by injection E as <- <-|]. by exists x, f2.
Qed.

(** Committing a bank leaves the older banks alone. *)
Lemma older_kept m m' a :
  same_outside m m' (other BA BB a) BANK_BYTES ->
  previous_of m' = previous_of m /\ legacy_of m' = legacy_of m.
Proof.
  intros Ho.
  assert (forall n x, (BB + BANK_BYTES <=? x) = true -> image (c_layout n) m' x = image (c_layout n) m x) as Hi.
  { intros n x Hx%Z.leb_le. unfold image. f_equal. eapply slice_same_outside; [exact Ho|].
    right. apply (Z.le_trans _ (BB + BANK_BYTES)); [|exact Hx]. unfold other. case_match; by vm_compute. }
  unfold previous_of, legacy_of, older. by rewrite !Hi by (by vm_compute).
Qed.

Lemma init_status_inv s c s' r :
  init_status (tlsTrustStore_CommitCandidate s c) = (s', r) ->
  exists st, tlsTrustStore_CommitCandidate s c = (s', st)
    /\ (r = HEALTH_CHECK_STATUS_OK <-> st = TLS_TRUST_STORE_STATUS_OK).
Proof.
  destruct (tlsTrustStore_CommitCandidate s c) as [s1 st]. intros E. exists st.
  unfold init_status in E. cbn [fst snd] in E. injection E as <- <-. split; [done|]. by destruct st.
Qed.

Lemma init_safe s s' r :
  TlsTrustStore_Init true s = (s', r) ->
  previous_of (fl_mem (flash s')) = previous_of (fl_mem (flash s))
  /\ legacy_of (fl_mem (flash s')) = legacy_of (fl_mem (flash s))
  /\ (r = HEALTH_CHECK_STATUS_OK -> Inv s').
Proof.
  intros E. destruct (init_current _ _ _ E) as [[M Hok]|(ram & f & M & Eo)].
  { split; [exact (previous_of_proper _ _ M)|]. split; [exact (legacy_of_proper _ _ M)|exact Hok]. }
  destruct (init_from_older_spec _ _ _ _ Eo) as (base & a & f' & c & M' & _ & Hw & Ei).
  destruct (init_status_inv _ _ _ _ Ei) as (st & Ec & Hst).
  apply tts_commit_spec in Ec as [Ho Hr]; [|exact Hw].
  apply older_kept in Ho as [Hp Hl]. cbn [flash] in Hp, Hl. rewrite Hp, Hl.
  assert (mem_eq (fl_mem f') (fl_mem (flash s))) as Mf by (by rewrite M', M).
  split; [exact (previous_of_proper _ _ Mf)|]. split; [exact (legacy_of_proper _ _ Mf)|].
  intros ->. destruct Hr as [(_ & Hi & _)|(Hne & _)]; [exact Hi|]. by rewrite (proj1 Hst eq_refl) in Hne.
Qed.

(** Committing beside a bank that is not valid. *)
Lemma commit_fresh base a f c s' :
  (a = BA \/ a = BB) -> tlsTrustStore_IsSnapshotValid (image c_snapshot (fl_mem f) a) = false ->
  c_wf c_snapshot c ->
  tlsTrustStore_CommitCandidate (Store base a f) c = (s', TLS_TRUST_STORE_STATUS_OK) ->
  boots s' = Some (snapshot s', activeAddress s') /\ snapshot s' = stamp c.
Proof.
  intros Ha Hinv Hw E. apply tts_commit_spec in E as [Ho [(_ & (_ & Hi & Hv) & Es & Ea)|(Hne & _)]];
    [|done|exact Hw]. split; [|exact Es]. cbn [activeAddress flash] in *. unfold boots. rewrite Ea in Hi |- *.
  apply (boot_fresh c_snapshot _ generation BA BB BANK_BYTES _ a); [exact Ha| |exact Hi|exact Hv].
  by rewrite (image_other c_snapshot BA BB BANK_BYTES _ _ a Ha Ho).
Qed.

Lemma migration_commits ram f s' r :
  fl_ready f -> boot c_snapshot tlsTrustStore_IsSnapshotValid generation BA BB (fl_mem f) = None ->
  init_from_older ram f = (s', r) ->
  r = HEALTH_CHECK_STATUS_OK /\ fl_ready (flash s') /\ boots s' = Some (snapshot s', activeAddress s')
  /\ (contents s', generation (snapshot s')) = ((initial (fl_mem f)).1, u32 ((initial (fl_mem f)).2 + 1)).
Proof.
  intros Hrf Eb Eo.
  destruct (init_from_older_ready _ _ _ _ Hrf Eo) as (base & a & f' & c & M' & Hr' & Ha & Hw & Hok & Ht & Ei).
  assert (a = BA \/ a = BB) as Hab by (destruct Ha as [->|[-> _]]; [by right|by left]).
  destruct (init_status_inv _ _ _ _ Ei) as (st & Ec & Hst).
  destruct (tts_commit_ready (Store base a f') c Hr' Hw Hok) as (s2 & E2 & Hr2).
  rewrite E2 in Ec. injection Ec as -> <-. split; [by apply Hst|]. split; [exact Hr2|].
  rewrite <-Ht. cbn [fst snd]. apply commit_fresh in E2 as [Hb Es]; [|exact Hab| |exact Hw].
  - split; [exact Hb|]. rewrite Es. reflexivity.
  - rewrite (image_proper c_snapshot _ _ M' a a eq_refl). exact (boot_none c_snapshot _ generation BA BB _ Eb a Hab).
Qed.

Lemma init_migrates s s' r :
  fl_ready (flash s) -> boots s = None -> TlsTrustStore_Init true s = (s', r) ->
  r = HEALTH_CHECK_STATUS_OK /\ fl_ready (flash s') /\ boots s' = Some (snapshot s', activeAddress s')
  /\ (contents s', generation (snapshot s'))
     = ((initial (fl_mem (flash s))).1, u32 ((initial (fl_mem (flash s))).2 + 1)).
Proof.
  intros Hr Eb E. pose proof (init_current_ready _ _ _ Hr E) as Hc. rewrite Eb in Hc.
  destruct Hc as (ram & f & Hrf & M & Eo). rewrite <-(initial_proper _ _ M).
  apply (migration_commits ram f); [exact Hrf| |exact Eo].
  unfold boots in Eb. by rewrite (boot_proper _ _ _ _ _ _ _ M).
Qed.

(** Start-up of the trust store: whatever fails, the banks of the two
    older layouts are never touched, and a reported success leaves the store
    on a valid bank.  On a device that answers it succeeds: the newest valid
    bank is loaded unchanged; without one the newest image of the previous
    layout, else of the legacy layout, is carried over slot by slot (else the
    store starts empty), and the next start-up loads it. *)
Lemma trust_store_init s s' r :
  TlsTrustStore_Init true s = (s', r) ->
  previous_of (fl_mem (flash s')) = previous_of (fl_mem (flash s))
  /\ legacy_of (fl_mem (flash s')) = legacy_of (fl_mem (flash s))
  /\ (r = HEALTH_CHECK_STATUS_OK -> Inv s')
  /\ (fl_ready (flash s) ->
      r = HEALTH_CHECK_STATUS_OK /\ boots s' = Some (snapshot s', activeAddress s')
      /\ match boots s with
         | Some (x, a) => snapshot s' = x /\ activeAddress s' = a
         | None => (contents s', generation (snapshot s'))
             = ((initial (fl_mem (flash s))).1, u32 ((initial (fl_mem (flash s))).2 + 1))
         end).
Proof.
  intros E. destruct (init_safe _ _ _ E) as (Hp & Hl & Hi). do 3 (split; [assumption|]). intros Hr.
  destruct (boots s) as [[x a]|] eqn:Eb.
  2: { destruct (init_migrates _ _ _ Hr Eb E) as (Hok & _ & Hb & Ht). exact (conj Hok (conj Hb Ht)). }
  pose proof (init_current_ready _ _ _ Hr E) as Hc. rewrite Eb in Hc. destruct Hc as (-> & Ex & Ea & M & _).
  split; [reflexivity|]. split; [|exact (conj Ex Ea)]. unfold boots in *. by rewrite (boot_proper _ _ _ _ _ _ _ M), Ex, Ea.
Qed.

(** Start-up treats a read error as the absence of a valid bank: when
    both banks fail to be read (a transient SPI or lock failure) on a device
    that answers afterwards, the call reports success with an empty store, and
    the certificates that were published in the first bank are overwritten. *)
Lemma failed_reads_reset_trust_store s f1 st1 d1 f2 st2 d2 s' r :
  W25Q64_Read (flash s) BA (c_size c_snapshot) = (f1, st1, d1) -> st1 <> W25Q64_STATUS_OK ->
  W25Q64_Read f1 BB (c_size c_snapshot) = (f2, st2, d2) -> st2 <> W25Q64_STATUS_OK ->
  fl_ready f2 -> previous_of (fl_mem f2) = None -> legacy_of (fl_mem f2) = None ->
  TlsTrustStore_Init true s = (s', r) ->
  r = HEALTH_CHECK_STATUS_OK /\ contents s' = replicate TLS_TRUST_STORE_MAX_PERSISTED None
  /\ activeAddress s' = BA /\ image c_snapshot (fl_mem (flash s')) BA = snapshot s'.
Proof.
  intros E1 N1 E2 N2 Hr Hp Hl E. unfold TlsTrustStore_Init, tlsTrustStore_ReadSnapshot, read_checked in E.
  rewrite E1, E2 in E. apply flash_ok_false in N1, N2. rewrite N1, N2 in E. cbn [negb andb] in E.
  destruct (init_from_older_ready _ _ _ _ Hr E) as (base & a & f' & c & M' & Hr' & Ha & Hw & Hok & Ht & Ei).
  assert (a = BB) as -> by (destruct Ha as [->|[_ Hne]]; [done|congruence]).
  unfold initial in Ht. rewrite Hp, Hl in Ht. injection Ht as Ht _.
  destruct (init_status_inv _ _ _ _ Ei) as (st & Ec & Hst).
  destruct (tts_commit_ready (Store base BB f') c Hr' Hw Hok) as (s2 & E3 & _).
  rewrite E3 in Ec. injection Ec as -> <-. split; [by apply Hst|].
  apply tts_commit_spec in E3 as [_ [(_ & (_ & Hi & _) & Es & Ea)|(Hne & _)]]; [|discriminate|exact Hw].
  rewrite Ea in Hi. split; [rewrite Es; exact Ht|]. exact (conj Ea Hi).
Qed.
End theory.

(** ** Concrete runs *)

(** A parser that knows one kind of certificate. *)
Definition demo_parse (d : bytes) : x509 :=
  if nth 0 d 0 =? 48 then X509 true true (Some (str "CN=Root")) else X509Error (-8576).

Lemma demo_strings : dn_strings demo_parse.
Proof.
  intros d ca sign text E. unfold demo_parse in E. destruct (nth 0 d 0 =? 48); [|done].
  injection E as <- <- <-. repeat constructor; unfold is_u8; lia.
Qed.

Definition demo_blank : store TlsTrustStore_SnapshotTypeDef simflash := Store zero_snapshot 0 blank.

Lemma demo_blank_boots : boots demo_blank = None.
Proof. vm_compute. reflexivity. Qed.

Lemma demo_blank_older : previous_of (fl_mem blank) = None /\ legacy_of (fl_mem blank) = None.
Proof. split; vm_compute; reflexivity. Qed.

Lemma trust_store_init_witness :
  exists s', TlsTrustStore_Init true demo_blank = (s', HEALTH_CHECK_STATUS_OK)
    /\ boots s' = Some (snapshot s', activeAddress s').
Proof.
  destruct (TlsTrustStore_Init true demo_blank) as [s' r] eqn:E. exists s'.
  destruct (trust_store_init demo_blank s' r E) as (_ & _ & _ & Hr).
  destruct (Hr blank_ready) as (Hok & Hb & _). rewrite Hok. split; [reflexivity|exact Hb].
Defined.

(** The store a blank device starts with. *)
Definition demo_started := (TlsTrustStore_Init true demo_blank).1.

Lemma demo_started_spec :
  Inv demo_started /\ fl_ready (flash demo_started)
  /\ boots demo_started = Some (snapshot demo_started, activeAddress demo_started)
  /\ table_of (snapshot demo_started) = replicate TLS_TRUST_STORE_MAX_PERSISTED None
  /\ generation (snapshot demo_started) = 1.
Proof.
  unfold demo_started. destruct (TlsTrustStore_Init true demo_blank) as [s' r] eqn:E. cbn [fst].
  destruct (init_migrates demo_blank s' r blank_ready demo_blank_boots E) as (-> & Hr & Hb & Ht).
  destruct (init_safe demo_blank s' _ E) as (_ & _ & Hi). unfold initial in Ht. cbn [flash demo_blank] in Ht.
  destruct demo_blank_older as [Hp Hl]. rewrite Hp, Hl in Ht. injection Ht as Ht Hg.
  split; [exact (Hi eq_refl)|]. split; [exact Hr|]. split; [exact Hb|]. split; [exact Ht|exact Hg].
Qed.

Abbreviation demo_run := (run demo_parse (-10368) (-16256) (-16) (-106) true demo_started).
Abbreviation demo_der := [48; 3; 2; 1; 0].

Lemma demo_der_ok : op_ok (OpAdd (Some demo_der)).
Proof. repeat constructor; unfold is_u8; lia. Qed.

Lemma trust_store_refines_witness :
  exists s', demo_run (OpAdd (Some demo_der)) = (s', TLS_TRUST_STORE_STATUS_OK, Some 1)
    /\ table_of (snapshot s') = Some (str "CN=Root", demo_der) :: replicate 5 None.
Proof.
  destruct demo_started_spec as (Hi & Hr & _ & Ht & _).
  destruct (demo_run (OpAdd (Some demo_der))) as [[s' st] id] eqn:E. exists s'.
  destruct (trust_store_refines demo_parse (-10368) (-16256) (-16) (-106) demo_started
    (OpAdd (Some demo_der)) s' st id demo_strings Hi demo_der_ok E) as [_ [Hs|(_ & _ & _ & Hn)]];
    [|exfalso; exact (Hn Hr)].
  rewrite Ht in Hs.
  change (([Some (str "CN=Root", demo_der); None; None; None; None; None], TLS_TRUST_STORE_STATUS_OK, Some 1)
    = (table_of (snapshot s'), st, id)) in Hs.
  injection Hs as Hc Hst Hid. rewrite <-Hst, <-Hid. split; [reflexivity|]. rewrite <-Hc. reflexivity.
Defined.

Lemma trust_store_crash_atomic_witness :
  exists s' st id, demo_run (OpAdd (Some demo_der)) = (s', st, id)
    /\ (if decide (st = TLS_TRUST_STORE_STATUS_OK)
        then boots s' = Some (snapshot s', activeAddress s')
        else snapshot s' = snapshot demo_started).
Proof.
  destruct demo_started_spec as (Hi & _ & Hb & _ & Hg).
  destruct (demo_run (OpAdd (Some demo_der))) as [[s' st] id] eqn:E. exists s', st, id. split; [reflexivity|].
  assert (generation (snapshot demo_started) < 4294967295) as Hlt by (rewrite Hg; lia).
  pose proof (trust_store_crash_atomic demo_parse (-10368) (-16256) (-16) (-106) true demo_started
    (OpAdd (Some demo_der)) s' st id demo_strings Hi demo_der_ok Hlt Hb E) as Hc.
  destruct (decide (st = TLS_TRUST_STORE_STATUS_OK)); exact (proj1 Hc).
Defined.

Lemma tts_demo_add_outcome s' st id :
  demo_run (OpAdd (Some demo_der)) = (s', st, id) -> st = TLS_TRUST_STORE_STATUS_OK /\ id = Some 1.
Proof.
  intros E. destruct demo_started_spec as (Hi & Hr & _ & Ht & _).
  destruct (run_outcome demo_parse (-10368) (-16256) (-16) (-106) demo_started
    (OpAdd (Some demo_der)) s' st id demo_strings Hi demo_der_ok E)
    as [(_ & _ & Hne & Hs)|(c & t & i & [Hw Hok _ _] & Hs & Ec & Hid)]; rewrite Ht in Hs.
  - vm_compute in Hs. injection Hs as Hs. congruence.
  - destruct (tts_commit_ready demo_started c Hr Hw Hok) as (s2 & E2 & _). rewrite E2 in Ec.
    injection Ec as _ <-. split; [reflexivity|]. rewrite Hid. vm_compute in Hs. injection Hs as _ <-. reflexivity.
Qed.

Lemma trust_store_roundtrip_witness :
  exists s', demo_run (OpAdd (Some demo_der)) = (s', TLS_TRUST_STORE_STATUS_OK, Some 1)
    /\ (TlsTrustStore_Parse true true (fun _ => true) s' 1).2 = Some demo_der.
Proof.
  destruct (demo_run (OpAdd (Some demo_der))) as [[s' st] id] eqn:E.
  destruct (tts_demo_add_outcome _ _ _ E) as [Hst Hid]. subst st id. exists s'. split; [reflexivity|].
  exact (proj1 (proj2 (trust_store_roundtrip demo_parse (-10368) (-16256) (-16) (-106) (fun _ => true)
    demo_started demo_der s' 1 demo_strings (proj1 demo_started_spec) demo_der_ok E))).
Defined.

(** The same device, with its next two operations failing. *)
Definition demo_faulty : store TlsTrustStore_SnapshotTypeDef simflash :=
  Store zero_snapshot 0 (SimFlash (fun _ => 255) [Some 0%nat; Some 0%nat]).

Lemma demo_read_fails a k faults :
  w25q64_IsRangeValid a (Z.of_nat (c_size c_snapshot)) = true ->
  W25Q64_Read (SimFlash (fun _ => 255) (Some k :: faults)) a (c_size c_snapshot)
  = (SimFlash (fun _ => 255) faults, W25Q64_STATUS_TIMEOUT, zeros (c_size c_snapshot)).
Proof. intros Hv. cbn [W25Q64_Read sim_flash]. unfold sim_read. by rewrite Hv. Qed.

Lemma failed_reads_reset_trust_store_witness :
  exists s', TlsTrustStore_Init true demo_faulty = (s', HEALTH_CHECK_STATUS_OK)
    /\ table_of (snapshot s') = replicate TLS_TRUST_STORE_MAX_PERSISTED None.
Proof.
  destruct (TlsTrustStore_Init true demo_faulty) as [s' r] eqn:E. exists s'.
  assert (W25Q64_STATUS_TIMEOUT <> W25Q64_STATUS_OK) as Hne by discriminate.
  destruct demo_blank_older as [Hp Hl]. destruct (ab_images c_snapshot BA BB BANK_BYTES) as [VA VB].
  destruct (failed_reads_reset_trust_store demo_faulty
    (SimFlash (fun _ => 255) [Some 0%nat]) W25Q64_STATUS_TIMEOUT (zeros (c_size c_snapshot))
    blank W25Q64_STATUS_TIMEOUT (zeros (c_size c_snapshot)) s' r (demo_read_fails BA 0 [Some 0%nat] VA) Hne
    (demo_read_fails BB 0 [] VB) Hne blank_ready Hp Hl E)
    as (Hr & Hc & _).
  rewrite Hr. split; [reflexivity|exact Hc].
Defined.
