(* ===== verification/CivilTime.v ===== *)
(** [tlsTransport_X509TimeToUnix] of [TLS/Src/tls_transport.c]: the expiry date
    of a certificate as a Unix time.

    The code uses the closed form over 400-year eras with years that start in
    March.  The reference is the calendar itself: the days of every year since
    1970 and of every month before the given one.  The theorem says that they
    agree on every date the code accepts, that the code's unsigned intermediate
    values never wrap, and which dates have no 32-bit Unix time. *)
From S2P Require Import Prelude.

(** [mbedtls_x509_time] *)
Record mbedtls_x509_time := X509Time {
  year : Z; mon : Z; day : Z; hour : Z; min : Z; sec : Z;
}.

Definition UINT32_MAX : Z := 4294967295.

(** ** The code *)

Definition time_rejected (v : mbedtls_x509_time) : bool :=
  (year v <? 1970) || (mon v <? 1) || (12 <? mon v) || (day v <? 1) || (31 <? day v)
  || (hour v <? 0) || (23 <? hour v) || (min v <? 0) || (59 <? min v) || (sec v <? 0) || (59 <? sec v).

Definition x509_days (v : mbedtls_x509_time) : Z :=
  let month := u32 (mon v) in
  let y := year v - (if month <=? 2 then 1 else 0) in
  let era := Z.quot y 400 in
  let yearOfEra := u32 (y - era * 400) in
  let shiftedMonth := if 2 <? month then u32 (month - 3) else u32 (month + 9) in
  let dayOfYear := u32 (u32 (153 * shiftedMonth + 2) / 5 + u32 (day v) - 1) in
  let dayOfEra := u32 (u32 (u32 (u32 (yearOfEra * 365) + yearOfEra / 4) - yearOfEra / 100) + dayOfYear) in
  era * 146097 + dayOfEra - 719468.

(** [None] is a [NULL] pointer. *)
Definition tlsTransport_X509TimeToUnix (value : option mbedtls_x509_time) : Z :=
  match value with
  | None => 0
  | Some v =>
      if time_rejected v then 0 else
      let seconds := x509_days v * 86400 + hour v * 3600 + min v * 60 + sec v in
      if (0 <? seconds) && (seconds <=? UINT32_MAX) then u32 seconds else 0
  end.

(** ** The calendar *)

Definition is_leap (y : Z) : bool :=
  (y mod 4 =? 0) && (negb (y mod 100 =? 0) || (y mod 400 =? 0)).

Definition days_in_year (y : Z) : Z := if is_leap y then 366 else 365.

Definition days_in_month (leap : bool) (m : Z) : Z :=
  if m =? 2 then (if leap then 29 else 28)
  else if (m =? 4) || (m =? 6) || (m =? 9) || (m =? 11) then 30 else 31.

(** The days of [n] years from [y] on, and of [n] months from January on. *)
Fixpoint days_of_years (n : nat) (y : Z) : Z :=
  match n with
  | O => 0
  | S n => days_of_years n y + days_in_year (y + Z.of_nat n)
  end.

Fixpoint days_of_months (n : nat) (leap : bool) : Z :=
  match n with
  | O => 0
  | S n => days_of_months n leap + days_in_month leap (Z.of_nat n + 1)
  end.

(** Seconds from 1970-01-01T00:00:00Z to the given time. *)
Definition unix_time (v : mbedtls_x509_time) : Z :=
  (days_of_years (Z.to_nat (year v - 1970)) 1970 + days_of_months (Z.to_nat (mon v - 1)) (is_leap (year v)) + day v - 1)
    * 86400 + hour v * 3600 + min v * 60 + sec v.

(** ** Equivalence *)

(** Days from the start of year 0 to 1 March of year [y]. *)
Definition march (y : Z) : Z := 365 * y + y / 4 - y / 100 + y / 400.

Lemma leap_march y : march y - march (y - 1) = days_in_year y.
Proof.
  unfold march, days_in_year, is_leap.
  destruct (Z.eqb_spec (y mod 4) 0), (Z.eqb_spec (y mod 100) 0), (Z.eqb_spec (y mod 400) 0);
    cbn [negb andb orb]; Z.div_mod_to_equations; lia.
Qed.

Lemma days_of_years_march n : days_of_years n 1970 = march (1969 + Z.of_nat n) - march 1969.
Proof.
  induction n as [|n IH]; [cbn [days_of_years]; rewrite Z.add_0_r; lia|].
  cbn [days_of_years]. rewrite IH. pose proof (leap_march (1970 + Z.of_nat n)) as H.
  replace (1970 + Z.of_nat n - 1) with (1969 + Z.of_nat n) in H by lia.
  replace (1969 + Z.of_nat (S n)) with (1970 + Z.of_nat n) by lia. lia.
Qed.

Lemma era_march y : 0 <= y -> march y = Z.quot y 400 * 146097 + (y - Z.quot y 400 * 400) * 365
  + (y - Z.quot y 400 * 400) / 4 - (y - Z.quot y 400 * 400) / 100.
Proof.
  intros Hy. rewrite Z.quot_div_nonneg by lia. unfold march. Z.div_mod_to_equations. lia.
Qed.

(** The unsigned arithmetic of the code never wraps. *)
Lemma x509_days_march v :
  time_rejected v = false ->
  let y := year v - (if mon v <=? 2 then 1 else 0) in
  let shifted := if 2 <? mon v then mon v - 3 else mon v + 9 in
  x509_days v = march y + (153 * shifted + 2) / 5 + day v - 1 - 719468.
Proof.
  intros H y shifted. unfold time_rejected in H. rewrite !orb_false_iff, !Z.ltb_ge in H.
  assert (u32 (mon v) = mon v) as Em by (apply u32_id; unfold is_u32; lia).
  assert (u32 (day v) = day v) as Ed by (apply u32_id; unfold is_u32; lia).
  assert (0 <= shifted <= 11) as Hs by (unfold shifted; destruct (Z.ltb_spec 2 (mon v)); lia).
  assert (0 <= y) as Hy by (unfold y; destruct (mon v <=? 2); lia).
  rewrite (era_march y Hy). unfold x509_days. rewrite Em, Ed. fold y.
  assert ((if 2 <? mon v then u32 (mon v - 3) else u32 (mon v + 9)) = shifted) as ->.
  { unfold shifted. destruct (Z.ltb_spec 2 (mon v)); apply u32_id; unfold is_u32; lia. }
  set (e := Z.quot y 400). assert (0 <= y - e * 400 < 400) as Hr.
  { unfold e. rewrite Z.quot_div_nonneg by lia. Z.div_mod_to_equations. lia. }
  rewrite (u32_id (y - e * 400)) by (unfold is_u32; lia). set (r := y - e * 400) in *.
  rewrite (u32_id (153 * shifted + 2)) by (unfold is_u32; lia).
  assert (0 <= (153 * shifted + 2) / 5 <= 337) as Hd by (Z.div_mod_to_equations; lia).
  assert (0 <= r / 4 < 100 /\ 0 <= r / 100 < 4) as [H4 H100] by (Z.div_mod_to_equations; lia).
  rewrite (u32_id ((153 * shifted + 2) / 5 + day v - 1)) by (unfold is_u32; lia).
  rewrite (u32_id (r * 365)) by (unfold is_u32; lia).
  rewrite (u32_id (r * 365 + r / 4)) by (unfold is_u32; lia).
  assert (r / 100 <= r * 365) by (Z.div_mod_to_equations; lia).
  rewrite (u32_id (r * 365 + r / 4 - r / 100)) by (unfold is_u32; lia).
  rewrite u32_id by (unfold is_u32; lia). lia.
Qed.

(** Months, counted from March in the code. *)
Lemma months_march y m :
  1 <= m <= 12 ->
  march (y - (if m <=? 2 then 1 else 0)) + (153 * (if 2 <? m then m - 3 else m + 9) + 2) / 5
  = march (y - 1) + 306 + days_of_months (Z.to_nat (m - 1)) (is_leap y).
Proof.
  intros Hm. pose proof (leap_march y) as Hl. unfold days_in_year in Hl.
  assert (m = 1 \/ m = 2 \/ m = 3 \/ m = 4 \/ m = 5 \/ m = 6 \/ m = 7 \/ m = 8 \/ m = 9 \/ m = 10
    \/ m = 11 \/ m = 12) as Hc by lia.
  repeat (destruct Hc as [->|Hc]); [..|subst m];
    (match goal with |- march (y - ?c) + _ = _ => let k := eval vm_compute in c in change c with k end);
    rewrite ?Z.sub_0_r; revert Hl; generalize (march y) (march (y - 1)); intros a b Hl;
    destruct (is_leap y);
    match goal with |- _ + ?c = _ + _ + ?d =>
      let c' := eval vm_compute in c in let d' := eval vm_compute in d in
      change c with c'; change d with d' end; lia.
Qed.

Lemma x509_days_calendar v :
  time_rejected v = false ->
  x509_days v = days_of_years (Z.to_nat (year v - 1970)) 1970
    + days_of_months (Z.to_nat (mon v - 1)) (is_leap (year v)) + day v - 1.
Proof.
  intros Hv. rewrite (x509_days_march v Hv). unfold time_rejected in Hv.
  rewrite !orb_false_iff, !Z.ltb_ge in Hv. rewrite months_march by lia.
  rewrite days_of_years_march. replace (1969 + Z.of_nat (Z.to_nat (year v - 1970))) with (year v - 1) by lia.
  change (march 1969) with 719162. lia.
Qed.

(** A Unix time with a meaning: positive and of 32 bits. *)
Definition representable (t : Z) : bool := (0 <? t) && (t <=? UINT32_MAX).

Lemma x509_to_unix v :
  time_rejected v = false ->
  tlsTransport_X509TimeToUnix (Some v) = if representable (unix_time v) then unix_time v else 0.
Proof.
  intros Hv. unfold tlsTransport_X509TimeToUnix. rewrite Hv.
  rewrite (x509_days_calendar v Hv). fold (unix_time v). unfold representable.
  destruct (Z.ltb_spec 0 (unix_time v)), (Z.leb_spec (unix_time v) UINT32_MAX); cbn [andb]; try done.
  apply u32_id. unfold is_u32, UINT32_MAX in *. lia.
Qed.

(** C39. The closed-form date conversion is the calendar: for every time of
    day and every day number from 1 to 31 of every month since 1970 the result
    is the number of seconds since 1970-01-01T00:00:00Z counted year by year
    and month by month with the Gregorian leap rule, when that is positive and
    fits 32 bits, and zero otherwise; fields out of range give zero. *)
Theorem x509_time_is_calendar v :
  tlsTransport_X509TimeToUnix (Some v)
  = if negb (time_rejected v) && representable (unix_time v) then unix_time v else 0.
Proof.
  destruct (time_rejected v) eqn:Hv; [|by apply x509_to_unix].
  unfold tlsTransport_X509TimeToUnix. by rewrite Hv.
Qed.

Lemma x509_time_u32 v : is_u32 (tlsTransport_X509TimeToUnix v).
Proof.
  unfold tlsTransport_X509TimeToUnix. destruct v as [v|]; [|by vm_compute].
  destruct (time_rejected v); [by vm_compute|]. case_match; [apply u32_range|by vm_compute].
Qed.

Example y2038 : tlsTransport_X509TimeToUnix (Some (X509Time 2038 1 19 3 14 8)) = 2147483648.
Proof. reflexivity. Qed.
Example leap_day : tlsTransport_X509TimeToUnix (Some (X509Time 2024 2 29 12 0 0)) = 1709208000.
Proof. reflexivity. Qed.

(** ** [gmtime_r]

    The C library's inverse: the year and the month are found by counting off
    whole years and months.  The fields are those of [struct tm] as the code
    prints them, [tm_year + 1900] and [tm_mon + 1]. *)

Fixpoint count_years (fuel : nat) (y days : Z) : Z * Z :=
  match fuel with
  | O => (y, days)
  | S fuel => if days <? days_in_year y then (y, days) else count_years fuel (y + 1) (days - days_in_year y)
  end.

Fixpoint count_months (fuel : nat) (leap : bool) (m days : Z) : Z * Z :=
  match fuel with
  | O => (m, days)
  | S fuel =>
      if days <? days_in_month leap m then (m, days) else count_months fuel leap (m + 1) (days - days_in_month leap m)
  end.

(** A 32-bit time is at most 136 years after 1970. *)
Definition gmtime_r (t : Z) : mbedtls_x509_time :=
  let '(y, days) := count_years 137 1970 (t / 86400) in
  let '(m, days) := count_months 12 (is_leap y) 1 days in
  let s := t mod 86400 in
  X509Time y m (days + 1) (s / 3600) (s mod 3600 / 60) (s mod 60).

Lemma days_in_year_range y : 365 <= days_in_year y <= 366.
Proof. unfold days_in_year. destruct (is_leap y); lia. Qed.

Lemma days_in_month_range leap m : 28 <= days_in_month leap m <= 31.
Proof. unfold days_in_month. repeat case_match; lia. Qed.

Lemma count_years_spec fuel n days y' days' :
  0 <= days < 365 * Z.of_nat fuel -> count_years fuel (1970 + Z.of_nat n) days = (y', days') ->
  exists k, (k <= fuel)%nat /\ y' = 1970 + Z.of_nat (n + k) /\ 0 <= days' < days_in_year y'
    /\ days_of_years n 1970 + days = days_of_years (n + k) 1970 + days'.
Proof.
  revert n days. induction fuel as [|fuel IH]; intros n days Hd; cbn [count_years]; [lia|].
  pose proof (days_in_year_range (1970 + Z.of_nat n)) as Hy.
  destruct (Z.ltb_spec days (days_in_year (1970 + Z.of_nat n))).
  - intros [= <- <-]. exists 0%nat. rewrite Nat.add_0_r. split_and!; [lia|done|lia|lia|lia].
  - intros E. replace (1970 + Z.of_nat n + 1) with (1970 + Z.of_nat (S n)) in E by lia.
    destruct (IH (S n) (days - days_in_year (1970 + Z.of_nat n)) ltac:(lia) E) as (k & Hk & Ey & Hr & Es).
    exists (S k). replace (n + S k)%nat with (S n + k)%nat by lia. split_and!; [lia|done|lia|lia|].
    cbn [days_of_years] in Es. lia.
Qed.

Lemma count_months_spec fuel leap n days m' days' :
  0 <= days -> days_of_months n leap + days < days_of_months (n + fuel) leap ->
  count_months fuel leap (Z.of_nat n + 1) days = (m', days') ->
  exists k, (k < fuel)%nat /\ m' = Z.of_nat (n + k) + 1 /\ 0 <= days' < days_in_month leap m'
    /\ days_of_months n leap + days = days_of_months (n + k) leap + days'.
Proof.
  revert n days. induction fuel as [|fuel IH]; intros n days Hd Hf; cbn [count_months].
  { rewrite Nat.add_0_r in Hf. lia. }
  destruct (Z.ltb_spec days (days_in_month leap (Z.of_nat n + 1))).
  - intros [= <- <-]. exists 0%nat. rewrite Nat.add_0_r. split_and!; [lia|done|lia|lia|lia].
  - intros E. replace (Z.of_nat n + 1 + 1) with (Z.of_nat (S n) + 1) in E by lia.
    replace (n + S fuel)%nat with (S n + fuel)%nat in Hf by lia.
    destruct (IH (S n) (days - days_in_month leap (Z.of_nat n + 1)) ltac:(lia) ltac:(cbn [days_of_months]; lia) E)
      as (k & Hk & Em & Hr & Es).
    exists (S k). replace (n + S k)%nat with (S n + k)%nat by lia. split_and!; [lia|done|lia|lia|].
    cbn [days_of_months] in Es. lia.
Qed.

(** The broken-down time of a 32-bit time: in range, and the same instant. *)
Lemma gmtime_spec t :
  is_u32 t ->
  let v := gmtime_r t in
  time_rejected v = false /\ 1970 <= year v <= 2107 /\ unix_time v = t.
Proof.
  intros Ht. unfold gmtime_r. destruct (count_years 137 1970 (t / 86400)) as [y d] eqn:Ey.
  destruct (count_years_spec 137 0 (t / 86400) y d) as (k & Hk & -> & Hr & Es); [word|done|].
  cbn [Nat.add days_of_years] in *. set (y := 1970 + Z.of_nat k) in *.
  destruct (count_months 12 (is_leap y) 1 d) as [m d'] eqn:Em.
  destruct (count_months_spec 12 (is_leap y) 0 d m d') as (j & Hj & -> & Hr' & Es'); [lia| |done|].
  { unfold days_in_year in Hr. destruct (is_leap y).
    - change (days_of_months (0 + 12) true) with 366. cbn [days_of_months]. lia.
    - change (days_of_months (0 + 12) false) with 365. cbn [days_of_months]. lia. }
  cbn [Nat.add days_of_months] in Es', Hr' |- *. cbn zeta. pose proof (days_in_month_range (is_leap y) (Z.of_nat j + 1)).
  split; [|split].
  - unfold time_rejected. cbn [year mon day hour min sec]. rewrite !orb_false_iff, !Z.ltb_ge.
    pose proof (Z.mod_pos_bound t 86400 ltac:(lia)) as Hs. set (s := t mod 86400) in *. clearbody s.
    assert (0 <= s / 3600 <= 23) by (Z.div_mod_to_equations; lia).
    assert (0 <= s mod 3600 / 60 <= 59) by (Z.div_mod_to_equations; lia).
    pose proof (Z.mod_pos_bound s 60 ltac:(lia)). unfold y. lia.
  - cbn [year]. unfold y. lia.
  - unfold unix_time. cbn [year mon day hour min sec].
    replace (Z.to_nat (y - 1970)) with k by (unfold y; lia). replace (Z.to_nat (Z.of_nat j + 1 - 1)) with j by lia.
    replace (days_of_years k 1970 + days_of_months j (is_leap y) + (d' + 1) - 1) with (t / 86400) by lia.
    Z.div_mod_to_equations. lia.
Qed.

(** The expiry date a log entry shows is the certificate's: breaking a
    32-bit Unix time down with [gmtime_r] gives a valid calendar date, and the
    certificate conversion of that date is the same time again. *)
Lemma gmtime_roundtrip t :
  is_u32 t -> tlsTransport_X509TimeToUnix (Some (gmtime_r t)) = t.
Proof.
  intros Ht. destruct (gmtime_spec t Ht) as (Hv & _ & Hu). rewrite (x509_to_unix _ Hv), Hu.
  unfold representable. destruct (Z.ltb_spec 0 t) as [|H0]; cbn [andb]; [|unfold is_u32 in Ht; lia].
  by rewrite (proj2 (Z.leb_le t UINT32_MAX)) by (unfold UINT32_MAX, is_u32 in *; lia).
Qed.

Lemma gmtime_roundtrip_witness : tlsTransport_X509TimeToUnix (Some (gmtime_r 1900000000)) = 1900000000.
Proof. apply (gmtime_roundtrip 1900000000). by vm_compute. Defined.
