(* ===== verification/Ssl.v ===== *)
(** The TLS session interface of Mbed TLS, as the outbound transport and the
    management server use it.

    Mbed TLS is not part of the repository: [Ssl] names the calls the code
    makes on an established context and [SslLaws] what their documentation
    promises about the number of bytes written and read.  [WriteAll] is the
    loop that [tlsTransport_WriteAll] and [apiService_WriteAll] share.
    [scripted] is an executable instance that replays given results. *)
From S2P Require Import Prelude CivilTime.

Class Ssl (T : Type) := {
  (** Runs the handshake. *)
  mbedtls_ssl_handshake : T -> T * Z;
  (** Verification flags of the peer's certificate, zero when it is good. *)
  mbedtls_ssl_get_verify_result : T -> Z;
  (** [valid_to] of the peer's certificate, if there is one. *)
  mbedtls_ssl_get_peer_cert : T -> option mbedtls_x509_time;
  mbedtls_ssl_write : T -> bytes -> T * Z;
  (** The result and the bytes stored in the caller's buffer. *)
  mbedtls_ssl_read : T -> nat -> T * Z * bytes;
  (** The last [errno] the socket callbacks recorded. *)
  lastError : T -> Z;
  (** The application data accepted for sending so far. *)
  sent : T -> bytes;
}.

Class SslLaws (T : Type) `{Ssl T} := {
  (** A positive result is the number of leading bytes that were accepted. *)
  write_accepts : forall t d t' r,
    mbedtls_ssl_write t d = (t', r) ->
    r <= Z.of_nat (length d) /\ sent t' = sent t ++ take (Z.to_nat r) d;
  (** A positive result is the number of bytes stored. *)
  read_stores : forall t n t' r d,
    mbedtls_ssl_read t n = (t', r, d) ->
    r <= Z.of_nat n /\ length d = Z.to_nat r /\ sent t' = sent t;
}.

(** ** Writing a whole buffer *)

Section write_all.
Context {T : Type} `{Ssl T}.

(** [while (offset < length)]; every accepted byte shortens what is left, so
    the length of the data is fuel enough. *)
Fixpoint write_loop (fuel : nat) (t : T) (data : bytes) : T * Z :=
  match data, fuel with
  | [], _ => (t, 0)
  | _, O => (t, 0)
  | _, S fuel =>
      let '(t, result) := mbedtls_ssl_write t data in
      if result <=? 0 then (t, result) else write_loop fuel t (drop (Z.to_nat result) data)
  end.

Definition WriteAll (t : T) (data : bytes) : T * Z := write_loop (length data) t data.
End write_all.

(** The loop returns zero after all of the data, or stops at the first result
    that is not positive, having sent a strict prefix. *)
Lemma write_all_spec `{SslLaws T} t data t' r :
  WriteAll t data = (t', r) ->
  (r = 0 /\ sent t' = sent t ++ data)
  \/ (r <= 0 /\ exists n, (n < length data)%nat /\ sent t' = sent t ++ take n data
      /\ exists t1, mbedtls_ssl_write t1 (drop n data) = (t', r)).
Proof.
  unfold WriteAll.
  enough (forall fuel t data, (length data <= fuel)%nat -> write_loop fuel t data = (t', r) ->
    (r = 0 /\ sent t' = sent t ++ data)
    \/ (r <= 0 /\ exists n, (n < length data)%nat /\ sent t' = sent t ++ take n data
        /\ exists t1, mbedtls_ssl_write t1 (drop n data) = (t', r))) as Hf by (intros E; by eapply Hf).
  clear t data. intros fuel. induction fuel as [|fuel IH]; intros t data Hl E.
  { destruct data; [|cbn in Hl; lia]. injection E as <- <-. left. by rewrite app_nil_r. }
  destruct data as [|b data]; cbn [write_loop] in E; [injection E as <- <-; left; by rewrite app_nil_r|].
  destruct (mbedtls_ssl_write t (b :: data)) as [t1 r1] eqn:Ew.
  pose proof (write_accepts _ _ _ _ Ew) as [Hle Hs]. destruct (Z.leb_spec r1 0).
  - injection E as <- <-. right. split; [done|]. exists 0%nat. cbn [length].
    split; [lia|]. rewrite Hs. replace (Z.to_nat r1) with 0%nat by lia. split; [done|]. by exists t.
  - apply IH in E; [|rewrite length_drop; cbn [length] in *; lia]. rewrite Hs in E.
    destruct E as [[-> E]|(Hr & n & Hn & E & t2 & Hw)].
    + left. split; [done|]. by rewrite E, <-app_assoc, take_drop.
    + right. split; [done|]. exists (Z.to_nat r1 + n)%nat. rewrite length_drop in Hn.
      split; [lia|]. split; [by rewrite E, <-app_assoc, take_take_drop|]. exists t2.
      by rewrite <-drop_drop.
Qed.

(** ** A scripted session *)

(** Each call takes its result from a list; an exhausted list of writes
    accepts everything, an exhausted list of reads reports end of file. *)
Record scripted := Scripted {
  s_handshake : Z;
  s_verify : Z;
  s_cert : option mbedtls_x509_time;
  s_writes : list Z;
  s_reads : bytes;
  s_end : Z;
  s_error : Z;
  s_sent : bytes;
}.

Definition scripted_write (t : scripted) (d : bytes) : scripted * Z :=
  let r := Z.min (hd (Z.of_nat (length d)) (s_writes t)) (Z.of_nat (length d)) in
  (Scripted (s_handshake t) (s_verify t) (s_cert t) (tl (s_writes t)) (s_reads t) (s_end t) (s_error t)
     (s_sent t ++ take (Z.to_nat r) d), r).

Definition scripted_read (t : scripted) (n : nat) : scripted * Z * bytes :=
  match s_reads t with
  | [] => (t, Z.min 0 (s_end t), [])
  | _ => (Scripted (s_handshake t) (s_verify t) (s_cert t) (s_writes t) (drop n (s_reads t)) (s_end t)
            (s_error t) (s_sent t), Z.of_nat (length (take n (s_reads t))), take n (s_reads t))
  end.

#[global] Instance scripted_ssl : Ssl scripted := {|
  mbedtls_ssl_handshake := fun t => (t, s_handshake t);
  mbedtls_ssl_get_verify_result := s_verify;
  mbedtls_ssl_get_peer_cert := s_cert;
  mbedtls_ssl_write := scripted_write;
  mbedtls_ssl_read := scripted_read;
  lastError := s_error;
  sent := s_sent;
|}.

#[global] Instance scripted_ssl_laws : SslLaws scripted.
Proof.
  split; cbn.
  - intros t d t' r E. injection E as <- <-. cbn [sent s_sent]. split; [lia|done].
  - intros t n t' r d E. unfold scripted_read in E. destruct (s_reads t) as [|b l].
    + injection E as <- <- <-. cbn. split_and!; [lia|lia|done].
    + injection E as <- <- <-. cbn [s_sent]. rewrite length_take, Nat2Z.id. split_and!; [lia|done|done].
Qed.
