(* ===== verification/TlsTransport.v ===== *)
(** [TLS/Src/tls_transport.c]: one authenticated HTTPS request.

    The model follows [TlsTransport_Request] from its argument checks through
    the trust anchor, the connection attempts, the handshake, the request text
    and the status line to the clean-up every path shares.  What the network
    stack and Mbed TLS answer is input: the resolver's result and the outcome
    of each connection attempt, the results of the configuration calls, and
    the TLS session behind [Ssl].  The theorems: a request that succeeds was
    made over a verified session for the named host under the named trust
    anchor, every socket that was opened is closed again, the status line is
    parsed as [sscanf] does, and a connection that ends before any answer is
    reported as a success. *)
From S2P Require Import Prelude CString NorFlash TlsTypes TrustStore CivilTime Ssl.

Definition TLS_TRANSPORT_STATUS_LINE_SIZE : nat := 128.
Definition TLS_TRANSPORT_REQUEST_SIZE : nat := 512.
Definition TLS_TRANSPORT_HOST_HEADER_SIZE : nat := 70.

(** [p != NULL] *)
Definition is_Some_b {A} (o : option A) : bool := match o with Some _ => true | None => false end.

(** ** Socket callbacks *)

Section callbacks.
(** Error numbers of the C library and error codes of Mbed TLS. *)
Context (EAGAIN EWOULDBLOCK ETIMEDOUT : Z).
Context (MBEDTLS_ERR_SSL_TIMEOUT MBEDTLS_ERR_NET_SEND_FAILED : Z).
Context (MBEDTLS_ERR_NET_RECV_FAILED MBEDTLS_ERR_SSL_CONN_EOF : Z).

Definition tlsTransport_IsTimeoutError (socketError : Z) : bool :=
  (socketError =? EAGAIN) || (socketError =? EWOULDBLOCK) || (socketError =? ETIMEDOUT).

(** The result of [lwip_send] and [errno] in; the result of the callback and
    [lastError] out. *)
Definition tlsTransport_Send (sent errno lastError : Z) : Z * Z :=
  if 0 <=? sent then (sent, lastError)
  else (if tlsTransport_IsTimeoutError errno then MBEDTLS_ERR_SSL_TIMEOUT else MBEDTLS_ERR_NET_SEND_FAILED, errno).

Definition tlsTransport_Receive (received errno lastError : Z) : Z * Z :=
  if 0 <? received then (received, lastError)
  else if received =? 0 then (MBEDTLS_ERR_SSL_CONN_EOF, lastError)
  else (if tlsTransport_IsTimeoutError errno then MBEDTLS_ERR_SSL_TIMEOUT else MBEDTLS_ERR_NET_RECV_FAILED, errno).
End callbacks.

(** ** Connecting *)

(** What happens with one address of the resolver's list: no socket, a refused
    connection (with [errno], and the pending socket error when
    [lwip_getsockopt] answers), or a connection. *)
Inductive attempt :=
  | NoSocket (errno : Z)
  | Refused (fd errno : Z) (so_error : option Z)
  | Connected (fd : Z).

Inductive event := Opened (fd : Z) | Closed (fd : Z).

(** The descriptor (negative on failure), [*detail] and the sockets opened and
    closed. *)
Fixpoint connect_loop (l : list attempt) (socketDescriptor detail : Z) (trace : list event) :
    Z * Z * list event :=
  match l with
  | [] => (socketDescriptor, detail, trace)
  | NoSocket errno :: l => connect_loop l (-1) (- errno) trace
  | Connected fd :: _ => (fd, detail, trace ++ [Opened fd])
  | Refused fd errno so_error :: l =>
      let detail := match so_error with
                    | Some e => if e =? 0 then - errno else - e
                    | None => - errno
                    end in
      connect_loop l (-1) detail (trace ++ [Opened fd; Closed fd])
  end.

(** [inl]: the resolver's error. *)
Definition tlsTransport_Connect (resolver : Z + list attempt) :
    Z * TlsTransport_StatusTypeDef * Z * list event :=
  match resolver with
  | inl resolverResult => (-1, TLS_TRANSPORT_DNS_ERROR, resolverResult, [])
  | inr addresses =>
      let '(fd, detail, trace) := connect_loop addresses (-1) 0 [] in
      (fd, TLS_TRANSPORT_CONNECT_ERROR, detail, trace)
  end.

(** ** The status line *)

(** The conversion [%u] with a field width: white space, an optional sign that
    counts as a character, and at least one digit. *)
Definition scan_u (width : nat) (s : bytes) : option (Z * bytes) :=
  let s := skip_space s in
  let '(negative, width, s) :=
    match s, width with
    | c :: s', S w => if c =? 45 then (true, w, s') else if c =? 43 then (false, w, s') else (false, width, s)
    | _, _ => (false, width, s)
    end in
  let '(value, count, rest) := scan_digits width s 0 0 in
  if (count =? 0)%nat then None else Some (u32 (if negative then - value else value), rest).

(** Literal characters of a format. *)
Fixpoint scan_literal (lit s : bytes) : option bytes :=
  match lit, s with
  | [], _ => Some s
  | a :: lit, b :: s => if a =? b then scan_literal lit s else None
  | _ :: _, [] => None
  end.

(** [sscanf(line, "HTTP/1.%*u %3u", &status)]: [Some] when one item was
    assigned.  A [%u] without width takes all the digits there are. *)
Definition sscanf_status (line : bytes) : option Z :=
  match scan_literal (str "HTTP/1.") line with
  | None => None
  | Some s =>
      match scan_u (length s) s with
      | None => None
      | Some (_, s) => option_map fst (scan_u 3 (skip_space s))
      end
  end.

Definition ends_with_crlf (line : bytes) : bool :=
  match rev line with 10 :: 13 :: _ => true | _ => false end.

Section request.
Context {T : Type} `{Ssl T}.
Context (MBEDTLS_ERR_SSL_BAD_INPUT_DATA MBEDTLS_ERR_X509_CERT_VERIFY_FAILED : Z).

(** The reading loop, byte by byte, until the line ends, [room] bytes were
    read, or the session reports the end or an error. *)
Fixpoint read_line (room : nat) (t : T) (line : bytes) : T * (Z + bytes) :=
  match room with
  | O => (t, inr line)
  | S room =>
      let '(t, result, d) := mbedtls_ssl_read t 1 in
      if result <=? 0 then (t, inl result) else
      let line := line ++ take 1 d in
      if (2 <=? length line)%nat && ends_with_crlf line then (t, inr line) else read_line room t line
  end.

(** The result and, when the line was accepted, [*httpStatus]. *)
Definition tlsTransport_ReadStatus (t : T) : T * Z * option Z :=
  match read_line (TLS_TRANSPORT_STATUS_LINE_SIZE - 1) t [] with
  | (t, inl result) => (t, result, None)
  | (t, inr line) =>
      if (length line <? 12)%nat then (t, MBEDTLS_ERR_SSL_BAD_INPUT_DATA, None) else
      match sscanf_status (cstr line) with
      | None => (t, MBEDTLS_ERR_SSL_BAD_INPUT_DATA, None)
      | Some status =>
          if 999 <? status then (t, MBEDTLS_ERR_SSL_BAD_INPUT_DATA, None) else (t, 0, Some (u16 status))
      end
  end.

Definition tlsTransport_WriteAll : T -> bytes -> T * Z := WriteAll.

(** ** The request *)

(** A string argument is the bytes before its NUL; [None] is [NULL]. *)
Record arguments := Arguments_ {
  method : option bytes;
  host : option bytes;
  port : Z;
  resource : option bytes;
  trustAnchorId : Z;
  body : option bytes;
  contentType : option bytes;
}.

Definition is_method (m : bytes) : bool :=
  bool_decide (m = str "HEAD") || bool_decide (m = str "GET") || bool_decide (m = str "POST").

(** The [Host] header's value. *)
Definition host_header (host : bytes) (port : Z) : bytes :=
  if port =? 443 then host else host ++ [58] ++ fmt_u port.

Definition request_text (method resource hostHeader body : bytes) (contentType : bytes) : bytes :=
  method ++ str " " ++ resource ++ str " HTTP/1.1" ++ crlf ++ str "Host: " ++ hostHeader ++ crlf
  ++ str "Connection: close" ++ crlf ++ str "User-Agent: stm32-health-check/1" ++ crlf
  ++ (if (length body =? 0)%nat then crlf
      else str "Content-Type: " ++ contentType ++ crlf
           ++ str "Content-Length: " ++ fmt_u (Z.of_nat (length body)) ++ crlf ++ crlf ++ body).

(** The text [TlsTransport_Request] builds in its two buffers, when it fits
    them. *)
Definition build_request (method host resource body : bytes) (port : Z) (contentType : option bytes) :
    option bytes :=
  let hostHeader := host_header host port in
  if (length hostHeader =? 0)%nat || (TLS_TRANSPORT_HOST_HEADER_SIZE <=? length hostHeader)%nat then None else
  if negb (length body =? 0)%nat && (negb (bool_decide (method = str "POST")) || negb (is_Some_b contentType))
  then None else
  let text := request_text method resource hostHeader body (default [] contentType) in
  if (length text =? 0)%nat || (TLS_TRANSPORT_REQUEST_SIZE <=? length text)%nat then None else Some text.

(** What the platform answers before there is a session. *)
Record answers := Answers {
  locked : bool;
  started : Z;
  finished : Z;
  seed : Z;
  config_defaults : Z;
  setup : Z;
  set_hostname : Z;
  resolver : Z + list attempt;
}.

Record outcome := Outcome { o_result : TlsTransport_ResultTypeDef; o_trace : list event }.

(** [anchor] is [TlsTrustStore_Parse]; [session der host fd] is a context
    configured for TLS 1.3 with required verification against the certificate
    [der], the server name [host] and the socket [fd]. *)
Context (anchor : Z -> TlsTrustStore_StatusTypeDef * option bytes).
Context (session : option bytes -> bytes -> Z -> T).

(** [certificateExpiresAt] after the handshake. *)
Definition peer_expiry (t : T) : Z :=
  match mbedtls_ssl_get_peer_cert t with
  | Some valid_to => tlsTransport_X509TimeToUnix (Some valid_to)
  | None => 0
  end.

(** The part after a connection was made, up to [cleanup]: the session at the
    end, the status, [detail], [httpStatus] and [certificateExpiresAt].
    [status] is the status the connection left behind. *)
Definition exchange (t : T) (status : TlsTransport_StatusTypeDef) (text : option bytes) :
    T * TlsTransport_StatusTypeDef * Z * Z * Z :=
  let '(t, detail) := mbedtls_ssl_handshake t in
  let expires := peer_expiry t in
  if negb (detail =? 0) then
    (t, if negb (mbedtls_ssl_get_verify_result t =? 0) then TLS_TRANSPORT_CERTIFICATE_ERROR
        else TLS_TRANSPORT_HANDSHAKE_ERROR, detail, 0, expires)
  else if negb (mbedtls_ssl_get_verify_result t =? 0) then
    (t, TLS_TRANSPORT_CERTIFICATE_ERROR, MBEDTLS_ERR_X509_CERT_VERIFY_FAILED, 0, expires)
  else
    match text with
    | None => (t, status, MBEDTLS_ERR_SSL_BAD_INPUT_DATA, 0, expires)
    | Some text =>
        let '(t, detail) := tlsTransport_WriteAll t text in
        if negb (detail =? 0) then (t, TLS_TRANSPORT_IO_ERROR, detail, 0, expires) else
        let '(t, detail, httpStatus) := tlsTransport_ReadStatus t in
        if negb (detail =? 0) then (t, TLS_TRANSPORT_PROTOCOL_ERROR, detail, default 0 httpStatus, expires)
        else (t, TLS_TRANSPORT_OK, 0, default 0 httpStatus, expires)
    end.

Definition arguments_invalid (a : arguments) : bool :=
  match method a, host a, resource a, body a with
  | Some m, Some _, Some r, Some _ => (port a =? 0) || negb (nth 0 r 0 =? 47) || negb (is_method m)
  | _, _, _, _ => true
  end.

(** The label [cleanup]: [err] is [socketContext.lastError]. *)
Definition cleanup (e : answers) (status : TlsTransport_StatusTypeDef) (detail httpStatus expires err fd : Z)
    (trace : list event) : outcome :=
  let detail := if negb (detail =? 0) && negb (err =? 0) then - err else detail in
  Outcome (TlsResult status detail httpStatus (u32 (finished e - started e)) expires)
    (trace ++ if 0 <=? fd then [Closed fd] else []).

Definition TlsTransport_Request (e : answers) (a : arguments) : outcome :=
  let refused := Outcome (TlsResult TLS_TRANSPORT_CONFIG_ERROR 0 0 0 0) [] in
  if arguments_invalid a then refused else
  if negb (locked e) then refused else
  let stop status detail := cleanup e status detail 0 0 0 (-1) [] in
  if negb (seed e =? 0) then stop TLS_TRANSPORT_CONFIG_ERROR (seed e) else
  let '(trustStatus, der) := anchor (trustAnchorId a) in
  if negb (bool_decide (trustStatus = TLS_TRUST_STORE_STATUS_OK))
  then stop TLS_TRANSPORT_CERTIFICATE_ERROR MBEDTLS_ERR_X509_CERT_VERIFY_FAILED else
  if negb (config_defaults e =? 0) then stop TLS_TRANSPORT_CONFIG_ERROR (config_defaults e) else
  if negb (setup e =? 0) then stop TLS_TRANSPORT_CONFIG_ERROR (setup e) else
  if negb (set_hostname e =? 0) then stop TLS_TRANSPORT_CONFIG_ERROR (set_hostname e) else
  let '(fd, status, detail, trace) := tlsTransport_Connect (resolver e) in
  if fd <? 0 then cleanup e status detail 0 0 0 fd trace else
  let host := default [] (host a) in
  let text := build_request (default [] (method a)) host (default [] (resource a)) (default [] (body a))
                (port a) (contentType a) in
  let '(t, status, detail, httpStatus, expires) := exchange (session der host fd) status text in
  cleanup e status detail httpStatus expires (lastError t) fd trace.

Definition TlsTransport_Head (e : answers) (host : option bytes) (port : Z) (resource : option bytes)
    (trustAnchorId : Z) : outcome :=
  TlsTransport_Request e (Arguments_ (Some (str "HEAD")) host port resource trustAnchorId (Some []) None).
End request.

(** ** Sockets *)

(** Every socket is closed before the next one is opened. *)
Fixpoint balanced (l : list event) : bool :=
  match l with
  | [] => true
  | Opened a :: Closed b :: l => (a =? b) && balanced l
  | _ => false
  end.

(** [lwip_connect] is only called on a descriptor that [lwip_socket] returned. *)
Definition attempt_ok (a : attempt) : Prop :=
  match a with NoSocket _ => True | Refused fd _ _ | Connected fd => 0 <= fd end.

Lemma balanced_app l fd : balanced l = true -> balanced (l ++ [Opened fd; Closed fd]) = true.
Proof.
  enough (forall n l, (length l <= n)%nat -> balanced l = true -> balanced (l ++ [Opened fd; Closed fd]) = true)
    as Hn by (by apply (Hn (length l))).
  clear l. intros n. induction n as [|n IH]; intros l Hl Hb.
  - destruct l; [cbn; by rewrite Z.eqb_refl|cbn in Hl; lia].
  - destruct l as [|[a|a] [|[b|b] l]]; try done; [cbn; by rewrite Z.eqb_refl|].
    cbn [balanced app] in *. apply andb_true_iff in Hb as [Hab Hb]. rewrite Hab. cbn [andb].
    apply IH; [cbn in Hl; lia|done].
Qed.

Lemma connect_loop_spec l fd detail trace fd' detail' trace' :
  Forall attempt_ok l -> fd < 0 -> balanced trace = true ->
  connect_loop l fd detail trace = (fd', detail', trace') ->
  (fd' < 0 /\ balanced trace' = true)
  \/ (0 <= fd' /\ Connected fd' ∈ l /\ exists tr, balanced tr = true /\ trace' = tr ++ [Opened fd']).
Proof.
  revert fd detail trace. induction l as [|a l IH]; intros fd detail trace Hl Hfd Hb E.
  { injection E as <- <- <-. by left. }
  apply list.Forall_cons in Hl as [Ha Hl]. destruct a as [errno|f errno so|f]; cbn [connect_loop] in E.
  - apply IH in E as [?|(? & ? & ?)]; [by left| |done|lia|done]. right. split; [done|]. split; [by right|done].
  - apply IH in E as [?|(? & ? & ?)]; [by left| |done|lia|by apply balanced_app].
    right. split; [done|]. split; [by right|done].
  - injection E as <- <- <-. right. split; [done|]. split; [by left|eauto].
Qed.

(** ** The status line *)

Section delivered.
Context {T : Type} `{Ssl T}.
Context (MBEDTLS_ERR_SSL_BAD_INPUT_DATA : Z).

(** The session hands out the bytes of [line], one per read. *)
Inductive delivers : T -> bytes -> T -> Prop :=
  | delivers_nil t : delivers t [] t
  | delivers_cons t c t1 line t' :
      mbedtls_ssl_read t 1 = (t1, 1, [c]) -> delivers t1 line t' -> delivers t (c :: line) t'.

(** A line whose only line ending is the one it ends with. *)
Definition one_line (line : bytes) : Prop :=
  ends_with_crlf line = true /\ forall n, (n < length line)%nat -> ends_with_crlf (take n line) = false.

Lemma read_line_delivers t line t' room before :
  delivers t line t' -> (length line <= room)%nat -> one_line (before ++ line) -> line <> [] ->
  read_line room t before = (t', inr (before ++ line)).
Proof.
  intros Hd. revert room before. induction Hd as [t|t c t1 line t' Er Hd IH]; intros room before Hr Hone Hne; [done|].
  destruct room as [|room]; [cbn in Hr; lia|]. cbn [read_line]. rewrite Er.
  change (1 <=? 0) with false. cbv iota. cbn [take].
  destruct line as [|c' line].
  - inversion Hd; subst. destruct Hone as [He _]. rewrite He, andb_true_r.
    rewrite (proj2 (Nat.leb_le 2 (length (before ++ [c])))); [done|].
    unfold ends_with_crlf in He. rewrite <-length_rev. destruct (rev (before ++ [c])) as [|a [|b l]]; cbn in *; try lia;
      destruct a as [|[]|]; done || (repeat case_match; done).
  - destruct Hone as [He Hn]. assert (ends_with_crlf (before ++ [c]) = false) as Hx.
    { specialize (Hn (length (before ++ [c]))). rewrite !length_app in Hn. cbn [length] in Hn.
      replace (take (length before + 1) (before ++ c :: c' :: line)) with (before ++ [c]) in Hn.
      - apply Hn. lia.
      - rewrite take_app_add. done. }
    rewrite Hx, andb_false_r. rewrite IH; [by rewrite <-app_assoc|cbn in *; lia| |done].
    by rewrite <-app_assoc.
Qed.

Lemma digit_chars c : isdigit c = true -> isspace c = false /\ (c =? 45) = false /\ (c =? 43) = false /\ (c =? 0) = false.
Proof. unfold isdigit, isspace. lia. Qed.

(** [%3u] on three digits. *)
Lemma scan_three a b c rest :
  isdigit a = true -> isdigit b = true -> isdigit c = true ->
  scan_u 3 (a :: b :: c :: rest) = Some (100 * (a - 48) + 10 * (b - 48) + (c - 48), rest).
Proof.
  intros Ha Hb Hc. destruct (digit_chars a Ha) as (S1 & S2 & S3 & _). unfold scan_u. cbn [skip_space skip_while].
  rewrite S1, S2, S3. cbn [scan_digits]. rewrite Ha, Hb, Hc.
  destruct rest as [|x rest]; cbn [scan_digits Nat.eqb]; f_equal; f_equal; unfold isdigit in *;
    (rewrite u32_id; [lia|unfold is_u32; lia]).
Qed.

Lemma sscanf_status_line m a b c rest :
  isdigit m = true -> isdigit a = true -> isdigit b = true -> isdigit c = true ->
  sscanf_status (str "HTTP/1." ++ m :: 32 :: a :: b :: c :: rest)
  = Some (100 * (a - 48) + 10 * (b - 48) + (c - 48)).
Proof.
  intros Hm Ha Hb Hc. unfold sscanf_status.
  change (scan_literal _ _) with (Some (m :: 32 :: a :: b :: c :: rest)).
  destruct (digit_chars m Hm) as (S1 & S2 & S3 & _).
  assert (scan_u (length (m :: 32 :: a :: b :: c :: rest)) (m :: 32 :: a :: b :: c :: rest)
    = Some (u32 (m - 48), 32 :: a :: b :: c :: rest)) as ->.
  { unfold scan_u. cbn [skip_space skip_while]. rewrite S1. cbn [length]. rewrite S2, S3. cbn [scan_digits].
    rewrite Hm. change (isdigit 32) with false. reflexivity. }
  change (skip_space (32 :: a :: b :: c :: rest)) with (skip_space (a :: b :: c :: rest)).
  cbn [skip_space skip_while]. destruct (digit_chars a Ha) as (A1 & _). rewrite A1.
  by rewrite (scan_three a b c rest Ha Hb Hc).
Qed.

(** A well-formed status line is read exactly: when the session delivers
    [HTTP/1.m abc], anything and a line end within the buffer, the call returns
    success and the three-digit code, and leaves the rest of the answer
    unread. *)
Lemma read_status_line t t' m a b c rest :
  isdigit m = true -> isdigit a = true -> isdigit b = true -> isdigit c = true ->
  let line := str "HTTP/1." ++ m :: 32 :: a :: b :: c :: rest in
  one_line line -> (length line < TLS_TRANSPORT_STATUS_LINE_SIZE)%nat -> delivers t line t' ->
  tlsTransport_ReadStatus MBEDTLS_ERR_SSL_BAD_INPUT_DATA t
  = (t', 0, Some (100 * (a - 48) + 10 * (b - 48) + (c - 48))).
Proof.
  intros Hm Ha Hb Hc line Hone Hl Hd. unfold tlsTransport_ReadStatus.
  rewrite (read_line_delivers t line t' _ [] Hd); [|unfold TLS_TRANSPORT_STATUS_LINE_SIZE in *; lia|done|done].
  cbn [app]. rewrite (proj2 (Nat.ltb_ge (length line) 12)) by (cbn [line str app length]; lia).
  assert (cstr line = str "HTTP/1." ++ m :: 32 :: a :: b :: c :: cstr rest) as ->.
  { destruct (digit_chars m Hm) as (_ & _ & _ & Zm). destruct (digit_chars a Ha) as (_ & _ & _ & Za).
    destruct (digit_chars b Hb) as (_ & _ & _ & Zb). destruct (digit_chars c Hc) as (_ & _ & _ & Zc).
    cbn -[Z.eqb]. by rewrite Zm, Za, Zb, Zc. }
  rewrite sscanf_status_line by done. unfold isdigit in *.
  rewrite (proj2 (Z.ltb_ge 999 _)) by lia. rewrite u16_id by (unfold is_u16; lia). done.
Qed.
End delivered.

(** ** The request *)

Section theory.
Context {T : Type} `{SslLaws T}.
Context (MBEDTLS_ERR_SSL_BAD_INPUT_DATA MBEDTLS_ERR_X509_CERT_VERIFY_FAILED : Z).
Context (anchor : Z -> TlsTrustStore_StatusTypeDef * option bytes).
Context (session : option bytes -> bytes -> Z -> T).

Abbreviation Exchange := (exchange MBEDTLS_ERR_SSL_BAD_INPUT_DATA MBEDTLS_ERR_X509_CERT_VERIFY_FAILED).
Abbreviation Request := (TlsTransport_Request MBEDTLS_ERR_SSL_BAD_INPUT_DATA
  MBEDTLS_ERR_X509_CERT_VERIFY_FAILED anchor session).
Abbreviation ReadStatus := (tlsTransport_ReadStatus MBEDTLS_ERR_SSL_BAD_INPUT_DATA).

(** The session completed a verified handshake, took [text], and then answered
    with a status line that gave [httpStatus]. *)
Definition answered (t : T) (text : bytes) (t' : T) (httpStatus : Z) : Prop :=
  exists t1 t2 status, mbedtls_ssl_handshake t = (t1, 0) /\ mbedtls_ssl_get_verify_result t1 = 0
    /\ WriteAll t1 text = (t2, 0) /\ ReadStatus t2 = (t', 0, status) /\ httpStatus = default 0 status.

Lemma read_status_range t t' r status :
  ReadStatus t = (t', r, status) -> 0 <= default 0 status <= 999.
Proof.
  unfold tlsTransport_ReadStatus. destruct (read_line _ t []) as [t1 [x|line]]; [intros E; injection E as <- <- <-; cbn; lia|].
  destruct (_ <? 12)%nat; [intros E; injection E as <- <- <-; cbn; lia|].
  destruct (sscanf_status (cstr line)) as [v|] eqn:Ev; [|intros E; injection E as <- <- <-; cbn; lia].
  destruct (Z.ltb_spec 999 v); intros E; injection E as <- <- <-; cbn; [lia|].
  pose proof (u16_range v). assert (0 <= v) as Hv.
  { unfold sscanf_status in Ev. destruct (scan_literal _ _) as [s|]; [|done].
    destruct (scan_u _ s) as [[? s']|]; [|done]. unfold scan_u in Ev.
    destruct (match skip_space (skip_space s') with [] => _ | _ => _ end) as [[neg w] s2].
    destruct (scan_digits w s2 0 0) as [[value count] rest]. destruct (count =? 0)%nat; [done|].
    cbn [option_map fst] in Ev. injection Ev as <-. apply u32_range. }
  rewrite u16_id by (unfold is_u16; lia). lia.
Qed.

Lemma exchange_cases t status text t' st detail http expires :
  Exchange t status text = (t', st, detail, http, expires) ->
  status <> TLS_TRANSPORT_OK ->
  0 <= http <= 999 /\ is_u32 expires
  /\ (st = TLS_TRANSPORT_OK -> detail = 0 /\ exists x, text = Some x /\ answered t x t' http).
Proof.
  intros E Hs. unfold exchange in E. destruct (mbedtls_ssl_handshake t) as [t1 d1] eqn:E1.
  assert (is_u32 (peer_expiry t1)) as Hx.
  { unfold peer_expiry. destruct (mbedtls_ssl_get_peer_cert t1); [apply x509_time_u32|by vm_compute]. }
  destruct (Z.eqb_spec d1 0) as [->|]; cbn [negb] in E.
  2: { injection E as <- <- <- <- <-. split; [lia|]. split; [done|]. by destruct (negb _). }
  destruct (Z.eqb_spec (mbedtls_ssl_get_verify_result t1) 0) as [Hv|]; cbn [negb] in E.
  2: { injection E as <- <- <- <- <-. split; [lia|]. by split. }
  destruct text as [text|]; [|injection E as <- <- <- <- <-; split; [lia|by split]].
  destruct (tlsTransport_WriteAll t1 text) as [t2 d2] eqn:E2.
  destruct (Z.eqb_spec d2 0) as [->|]; cbn [negb] in E; [|injection E as <- <- <- <- <-; split; [lia|by split]].
  destruct (ReadStatus t2) as [[t3 d3] status3] eqn:E3. pose proof (read_status_range _ _ _ _ E3).
  destruct (Z.eqb_spec d3 0) as [->|]; cbn [negb] in E; injection E as <- <- <- <- <-; split_and!; try done; try lia.
  intros _. split; [done|]. exists text. split; [done|]. exists t1, t2, status3. by split_and!.
Qed.

(** What a request that reports success has done. *)
Definition authenticated (e : answers) (a : arguments) (o : outcome) : Prop :=
  exists m h r b l fd der text t',
    method a = Some m /\ host a = Some h /\ resource a = Some r /\ body a = Some b
    /\ is_method m = true /\ nth 0 r 0 = 47
    /\ anchor (trustAnchorId a) = (TLS_TRUST_STORE_STATUS_OK, der)
    /\ resolver e = inr l /\ Connected fd ∈ l
    /\ build_request m h r b (port a) (contentType a) = Some text
    /\ answered (session der h fd) text t' (r_httpStatus (o_result o)).

Lemma cleanup_failed e st detail http expires err fd trace :
  r_status (o_result (cleanup e st detail http expires err fd trace)) = st.
Proof. done. Qed.

Lemma arguments_valid a :
  arguments_invalid a = false ->
  exists m h r b, method a = Some m /\ host a = Some h /\ resource a = Some r /\ body a = Some b
    /\ is_method m = true /\ nth 0 r 0 = 47.
Proof.
  unfold arguments_invalid. destruct (method a) as [m|], (host a) as [h|], (resource a) as [r|], (body a) as [b|];
    try done. rewrite !orb_false_iff, !negb_false_iff, Z.eqb_eq. intros [[_ Hr] Hm]. by exists m, h, r, b.
Qed.

(** C13. A request is reported as successful only when it was made over a
    verified session: the arguments were valid, the trust anchor parsed, a
    connection to an address of the host was made, and the handshake of a
    session configured with exactly that anchor and host name succeeded with a
    clean verification result before the request text was written and the
    status line read.  On every path each socket that was opened is closed
    before the next is opened, and the reported HTTP status is at most 999. *)
Theorem transport_request_authenticated e a :
  (forall l, resolver e = inr l -> Forall attempt_ok l) ->
  let o := Request e a in
  balanced (o_trace o) = true /\ 0 <= r_httpStatus (o_result o) <= 999
  /\ is_u32 (r_certificateExpiresAt (o_result o))
  /\ (r_status (o_result o) = TLS_TRANSPORT_OK -> r_detail (o_result o) = 0 /\ authenticated e a o).
Proof.
  intros Hl. unfold TlsTransport_Request. cbv zeta.
  assert (is_u32 0) as Hz by (by vm_compute).
  destruct (arguments_invalid a) eqn:Ea; [cbn; split_and!; done || lia|].
  destruct (negb (locked e)); [cbn; split_and!; done || lia|].
  destruct (negb (seed e =? 0)); [cbn; split_and!; done || lia|].
  destruct (anchor (trustAnchorId a)) as [trust der] eqn:Et.
  case_bool_decide as Htrust; cbn [negb]; [|cbn; split_and!; done || lia].
  destruct (negb (config_defaults e =? 0)); [cbn; split_and!; done || lia|].
  destruct (negb (setup e =? 0)); [cbn; split_and!; done || lia|].
  destruct (negb (set_hostname e =? 0)); [cbn; split_and!; done || lia|].
  destruct (resolver e) as [rr|l] eqn:Er; [cbn; split_and!; done || lia|].
  cbn [tlsTransport_Connect]. destruct (connect_loop l (-1) 0 []) as [[fd detail] trace] eqn:Ec.
  apply connect_loop_spec in Ec as [[Hfd Hb]|(Hfd & Hin & tr & Hb & ->)]; [| |by apply Hl|lia|done].
  - rewrite (proj2 (Z.ltb_lt fd 0) Hfd). unfold cleanup. rewrite (proj2 (Z.leb_gt 0 fd)) by lia.
    cbn. rewrite app_nil_r. split_and!; done || lia.
  - rewrite (proj2 (Z.ltb_ge fd 0) Hfd).
    destruct (arguments_valid a Ea) as (m & h & r & b & Em & Eh & Ers & Eb & Hm & Hr).
    rewrite Em, Eh, Ers, Eb. cbn [default from_option id].
    destruct (Exchange _ _ _) as [[[[t' st] d] http] expires] eqn:Ex.
    apply exchange_cases in Ex as (Hh & Hx & Hok); [|done].
    unfold cleanup. rewrite (proj2 (Z.leb_le 0 fd) Hfd). cbn [o_trace o_result r_httpStatus r_status
      r_certificateExpiresAt r_detail]. rewrite <-app_assoc. cbn [app].
    split; [by apply balanced_app|]. split; [done|]. split; [done|]. intros Hst.
    destruct (Hok Hst) as (-> & text & Htext & Hans). split; [done|].
    exists m, h, r, b, l, fd, der, text, t'. split_and!; try done. by rewrite Htrust in Et.
Qed.

(** A peer that closes the connection without answering is reported as a
    success: when the first read after the request returns zero, the status is
    [TLS_TRANSPORT_OK] and the HTTP status zero. *)
Lemma eof_reports_ok t status text t1 t2 t3 d :
  mbedtls_ssl_handshake t = (t1, 0) -> mbedtls_ssl_get_verify_result t1 = 0 ->
  tlsTransport_WriteAll t1 text = (t2, 0) -> mbedtls_ssl_read t2 1 = (t3, 0, d) ->
  exists expires, Exchange t status (Some text) = (t3, TLS_TRANSPORT_OK, 0, 0, expires).
Proof.
  intros Hh Hv Hw Hr. eexists. unfold exchange. rewrite Hh. cbn [Z.eqb negb]. rewrite Hv. cbn [Z.eqb negb].
  rewrite Hw. cbn [Z.eqb negb]. unfold tlsTransport_ReadStatus. cbn [TLS_TRANSPORT_STATUS_LINE_SIZE Nat.sub read_line].
  rewrite Hr. reflexivity.
Qed.
End theory.

(** ** Concrete requests *)

Definition demo_session (reads : bytes) (der : option bytes) (host : bytes) (fd : Z) : scripted :=
  Scripted 0 0 (Some (X509Time 2027 3 1 0 0 0)) [40] reads 0 0 [].

Definition demo_answers : answers :=
  Answers true 4294967290 29 0 0 0 0 (inr [NoSocket 23; Refused 3 111 (Some 0); Connected 4]).

Definition demo_anchor (id : Z) : TlsTrustStore_StatusTypeDef * option bytes :=
  if id =? 1 then (TLS_TRUST_STORE_STATUS_OK, Some [48; 0]) else (TLS_TRUST_STORE_STATUS_NOT_FOUND, None).

Definition demo_head : arguments :=
  Arguments_ (Some (str "HEAD")) (Some (str "example.org")) 8443 (Some (str "/status")) 1 (Some []) None.

Definition demo_line : bytes := str "HTTP/1.1 204 No Content" ++ crlf.

Example demo_request :
  TlsTransport_Request (-28928) (-9984) demo_anchor (demo_session demo_line) demo_answers demo_head
  = Outcome (TlsResult TLS_TRANSPORT_OK 0 204 35 1803859200) [Opened 3; Closed 3; Opened 4; Closed 4].
Proof. vm_compute. reflexivity. Qed.

Example demo_unknown_anchor :
  r_status (o_result (TlsTransport_Request (-28928) (-9984) (fun _ => (TLS_TRUST_STORE_STATUS_NOT_FOUND, None))
    (demo_session demo_line) demo_answers demo_head)) = TLS_TRANSPORT_CERTIFICATE_ERROR.
Proof. vm_compute. reflexivity. Qed.

Lemma demo_attempts l : resolver demo_answers = inr l -> Forall attempt_ok l.
Proof. intros E. injection E as <-. repeat constructor; cbn; lia. Qed.

Lemma transport_request_authenticated_witness :
  authenticated (-28928) demo_anchor (demo_session demo_line) demo_answers demo_head
    (TlsTransport_Request (-28928) (-9984) demo_anchor (demo_session demo_line) demo_answers demo_head).
Proof.
  destruct (transport_request_authenticated (-28928) (-9984) demo_anchor (demo_session demo_line)
    demo_answers demo_head demo_attempts) as (_ & _ & _ & Hok).
  apply Hok. vm_compute. reflexivity.
Defined.

Lemma scripted_delivers h v c w line rest e err s :
  delivers (Scripted h v c w (line ++ rest) e err s) line (Scripted h v c w rest e err s).
Proof.
  induction line as [|x line IH]; [apply delivers_nil|]. by eapply delivers_cons; [|exact IH].
Qed.

Lemma read_status_line_witness :
  exists t', tlsTransport_ReadStatus (-28928) (demo_session demo_line None [] 0) = (t', 0, Some 204).
Proof.
  eexists. apply (read_status_line (-28928) _ _ 49 50 48 52 (str " No Content" ++ crlf));
    try reflexivity.
  - split; [reflexivity|]. intros n Hn. cbn [length app str crlf] in Hn.
    do 25 (destruct n as [|n]; [reflexivity|]). lia.
  - cbn [length app str crlf]. unfold TLS_TRANSPORT_STATUS_LINE_SIZE. lia.
  - exact (scripted_delivers 0 0 _ _ demo_line [] 0 0 []).
Defined.

(** A session that ends right after the handshake. *)
Lemma eof_reports_ok_witness :
  exists t3 expires, exchange (-28928) (-9984) (demo_session [] None [] 4) TLS_TRANSPORT_CONNECT_ERROR (Some demo_line)
    = (t3, TLS_TRANSPORT_OK, 0, 0, expires).
Proof.
  eexists. eapply (eof_reports_ok (-28928) (-9984) (demo_session [] None [] 4)); reflexivity.
Defined.
