(* ===== verification/CallbackService.v ===== *)
(** [Srv/Src/callback_service.c]: delivery of failed checks to the configured
    callback.

    Models the three-entry queue between the checker and the delivery task, the
    text of the two kinds of callback, one round of the task and the counters.
    The theorems: the queue always holds the newest events and counts what it
    discarded, and every valid configuration and every log entry give a request
    that fits all the buffers on the way to the network, so that no callback is
    ever dropped for its size. *)
From S2P Require Import Prelude CString Codec NorFlash SimFlash AbStore TlsTypes HealthCheckLog CallbackConfig TlsTransport.

Definition CALLBACK_QUEUE_LENGTH : nat := 3.
Definition CALLBACK_BODY_SIZE : nat := 192.
Definition CALLBACK_RESOURCE_SIZE : nat := 256.

Record CallbackService_TelemetryTypeDef := Telemetry {
  deliverySuccessCount : Z;
  deliveryFailureCount : Z;
  droppedCount : Z;
  lastElapsedMs : Z;
  lastDetail : Z;
  lastHttpStatus : Z;
  lastTransportStatus : Z;
  queueDepth : Z;
}.

(** ** Texts *)

Definition callbackService_TransportStatusText (status : Z) : bytes :=
  if status =? status_code TLS_TRANSPORT_OK then str "ok"
  else if status =? status_code TLS_TRANSPORT_DNS_ERROR then str "dns_error"
  else if status =? status_code TLS_TRANSPORT_CONNECT_ERROR then str "connect_error"
  else if status =? status_code TLS_TRANSPORT_CONFIG_ERROR then str "config_error"
  else if status =? status_code TLS_TRANSPORT_CERTIFICATE_ERROR then str "certificate_error"
  else if status =? status_code TLS_TRANSPORT_HANDSHAKE_ERROR then str "handshake_error"
  else if status =? status_code TLS_TRANSPORT_IO_ERROR then str "io_error"
  else if status =? status_code TLS_TRANSPORT_PROTOCOL_ERROR then str "protocol_error"
  else str "unknown".

(** The JSON object of a POST. *)
Definition post_body (e : HealthCheckLog_EntryTypeDef) : bytes :=
  quoted "{'sequence':" ++ fmt_u (e_sequence e) ++ quoted ",'timestamp':" ++ fmt_u (e_timestampUnix e)
  ++ quoted ",'resource_index':" ++ fmt_u (e_resourceIndex e)
  ++ quoted ",'status':'fail','stage':'" ++ callbackService_TransportStatusText (e_status e)
  ++ quoted "','http_status':" ++ fmt_u (e_httpStatus e)
  ++ quoted ",'elapsed_ms':" ++ fmt_u (e_elapsedMs e)
  ++ quoted ",'detail':" ++ fmt_d (e_detail e) ++ str "}".

(** The query of a GET, after the separator. *)
Definition get_query (e : HealthCheckLog_EntryTypeDef) : bytes :=
  str "sequence=" ++ fmt_u (e_sequence e) ++ str "&timestamp=" ++ fmt_u (e_timestampUnix e)
  ++ str "&resource_index=" ++ fmt_u (e_resourceIndex e)
  ++ str "&status=fail&stage=" ++ callbackService_TransportStatusText (e_status e)
  ++ str "&http_status=" ++ fmt_u (e_httpStatus e) ++ str "&elapsed_ms=" ++ fmt_u (e_elapsedMs e)
  ++ str "&detail=" ++ fmt_d (e_detail e).

Definition get_resource (c : CallbackConfig_TypeDef) (e : HealthCheckLog_EntryTypeDef) : bytes :=
  cstr (cb_path c) ++ separator (cb_path c) :: get_query e.

(** [snprintf] wrote [text] completely into [size] bytes. *)
Definition fits (text : bytes) (size : nat) : bool := (0 <? length text)%nat && (length text <? size)%nat.

(** The request for one event, or [None] when the event is skipped. *)
Definition callback_request (c : CallbackConfig_TypeDef) (e : HealthCheckLog_EntryTypeDef) : option arguments :=
  if cb_enabled c =? 0 then None else
  let request m resource body contentType :=
    Arguments_ (Some m) (Some (cstr (cb_host c))) (cb_port c) (Some resource) (cb_trustAnchorId c)
      (Some body) contentType in
  if cb_method c =? CALLBACK_METHOD_POST then
    if fits (post_body e) CALLBACK_BODY_SIZE
    then Some (request (str "POST") (cstr (take (CALLBACK_RESOURCE_SIZE - 1)
                 (strncpy (zeros CALLBACK_RESOURCE_SIZE) (cb_path c) (CALLBACK_RESOURCE_SIZE - 1)) ++ [0]))
                 (post_body e) (Some (str "application/json")))
    else None
  else
    if fits (get_resource c e) CALLBACK_RESOURCE_SIZE
    then Some (request (str "GET") (get_resource c e) [] None)
    else None.

(** ** The queue and the task *)

(** [queue] is [None] before the queue was created. *)
Record state := State {
  queue : option (list HealthCheckLog_EntryTypeDef);
  telemetry : CallbackService_TelemetryTypeDef;
}.

(** A bounded queue of FreeRTOS with no waiting: [None] when it is full. *)
Definition xQueueSendToBack (q : list HealthCheckLog_EntryTypeDef) (e : HealthCheckLog_EntryTypeDef) :
    option (list HealthCheckLog_EntryTypeDef) :=
  if (length q <? CALLBACK_QUEUE_LENGTH)%nat then Some (q ++ [e]) else None.

Definition count_dropped (t : CallbackService_TelemetryTypeDef) :=
  Telemetry (deliverySuccessCount t) (deliveryFailureCount t) (u32 (droppedCount t + 1)) (lastElapsedMs t)
    (lastDetail t) (lastHttpStatus t) (lastTransportStatus t) (queueDepth t).

(** [None] is a [NULL] pointer. *)
Definition CallbackService_Enqueue (s : state) (entry : option HealthCheckLog_EntryTypeDef) : state :=
  match queue s, entry with
  | Some q, Some e =>
      match xQueueSendToBack q e with
      | Some q => State (Some q) (telemetry s)
      | None =>
          let q := tail q in
          let q := default q (xQueueSendToBack q e) in
          State (Some q) (count_dropped (telemetry s))
      end
  | _, _ => s
  end.

Definition delivered (r : TlsTransport_ResultTypeDef) : bool :=
  bool_decide (r_status r = TLS_TRANSPORT_OK) && (200 <=? r_httpStatus r) && (r_httpStatus r <? 300).

Definition count_result (t : CallbackService_TelemetryTypeDef) (r : TlsTransport_ResultTypeDef) :=
  Telemetry (if delivered r then u32 (deliverySuccessCount t + 1) else deliverySuccessCount t)
    (if delivered r then deliveryFailureCount t else u32 (deliveryFailureCount t + 1))
    (droppedCount t) (r_elapsedMs r) (r_detail r) (r_httpStatus r) (status_code (r_status r)) (queueDepth t).

(** One round of [callbackService_Task]: it waits while the queue is empty
    ([None]); [config] is what [CallbackConfig_Get] returns and [transport] the
    result of [TlsTransport_Request] on given arguments. *)
Definition callbackService_Task_round (config : CallbackConfig_TypeDef)
    (transport : arguments -> TlsTransport_ResultTypeDef) (s : state) : option state :=
  match queue s with
  | Some (e :: q) =>
      Some (State (Some q)
        match callback_request config e with
        | Some a => count_result (telemetry s) (transport a)
        | None => telemetry s
        end)
  | _ => None
  end.

(** [queue_created] and [task_created] are what FreeRTOS answers. *)
Definition CallbackService_Init (queue_created task_created : bool) (s : state) : state * bool :=
  if negb queue_created then (State None (telemetry s), false)
  else (State (Some []) (telemetry s), task_created).

Definition CallbackService_GetTelemetry (s : state) : CallbackService_TelemetryTypeDef :=
  let t := telemetry s in
  Telemetry (deliverySuccessCount t) (deliveryFailureCount t) (droppedCount t) (lastElapsedMs t)
    (lastDetail t) (lastHttpStatus t) (lastTransportStatus t)
    match queue s with Some q => u8 (Z.of_nat (length q)) | None => 0 end.

(** ** The queue *)

(** A history of the service: enqueued events ([Some]) and rounds of the task
    ([None]) in the order they happen, with the events enqueued and taken so
    far. *)
Record history := History { h_state : state; enqueued : list HealthCheckLog_EntryTypeDef;
                            taken : list HealthCheckLog_EntryTypeDef }.

Definition act (config : CallbackConfig_TypeDef) (transport : arguments -> TlsTransport_ResultTypeDef)
    (h : history) (a : option HealthCheckLog_EntryTypeDef) : history :=
  match a with
  | Some e => History (CallbackService_Enqueue (h_state h) (Some e)) (enqueued h ++ [e]) (taken h)
  | None =>
      match callbackService_Task_round config transport (h_state h) with
      | Some s => History s (enqueued h)
                    (taken h ++ match queue (h_state h) with Some (e :: _) => [e] | _ => [] end)
      | None => h
      end
  end.

(** The queue is the newest part of what was enqueued; what was taken came in
    order from the older part, and the rest of it was counted as dropped. *)
Definition window (h : history) : Prop :=
  exists old q, queue (h_state h) = Some q /\ (length q <= CALLBACK_QUEUE_LENGTH)%nat
    /\ enqueued h = old ++ q /\ sublist (taken h) old
    /\ droppedCount (telemetry (h_state h)) = u32 (Z.of_nat (length old - length (taken h))).

Lemma enqueue_window config transport h e : window h -> window (act config transport h (Some e)).
Proof.
  intros (old & q & Hq & Hl & He & Hs & Hd). unfold window. cbn [act h_state enqueued taken].
  unfold CallbackService_Enqueue. rewrite Hq. unfold xQueueSendToBack.
  destruct (Nat.ltb_spec (length q) CALLBACK_QUEUE_LENGTH).
  - exists old, (q ++ [e]). cbn [queue telemetry]. rewrite length_app, He. cbn [length].
    split_and!; [done|lia|by rewrite <-app_assoc|done|done].
  - destruct q as [|x q]; [cbn in *; unfold CALLBACK_QUEUE_LENGTH in *; lia|].
    cbn [tail length] in *.
    rewrite (proj2 (Nat.ltb_lt (length q) CALLBACK_QUEUE_LENGTH)) by lia. cbn [default from_option queue telemetry].
    pose proof (sublist_length _ _ Hs).
    exists (old ++ [x]), (q ++ [e]). rewrite !length_app, He, <-!app_assoc. cbn [length app].
    split_and!; [done|lia|done|by apply sublist_inserts_r|].
    cbn [count_dropped droppedCount]. rewrite Hd. unfold u32. rewrite Zplus_mod_idemp_l. f_equal. lia.
Qed.

Lemma round_window config transport h : window h -> window (act config transport h None).
Proof.
  intros (old & q & Hq & Hl & He & Hs & Hd). unfold window, act, callbackService_Task_round. rewrite Hq.
  destruct q as [|x q]; [exists old, []; by rewrite Hq|].
  exists (old ++ [x]), q. cbn [h_state queue telemetry enqueued taken]. cbn [length] in Hl.
  split_and!; [done|lia|by rewrite He, <-app_assoc|by apply sublist_app|].
  rewrite !length_app. cbn [length]. replace (length old + 1 - (length (taken h) + 1))%nat
    with (length old - length (taken h))%nat by lia.
  by destruct (callback_request config x).
Qed.

(** The queue between the checker and the delivery task keeps the newest
    events: whatever the order of enqueued failures and rounds of the task, it
    holds at most three events, which are the last ones enqueued; the task
    takes events in the order they were enqueued, each at most once, and the
    ones it never sees are exactly those counted as dropped. *)
Lemma callback_queue_newest config transport acts h :
  window h -> window (fold_left (act config transport) acts h).
Proof.
  revert h. induction acts as [|[e|] acts IH]; intros h Hw; [done|..]; cbn [fold_left]; apply IH.
  - by apply enqueue_window.
  - by apply round_window.
Qed.

(** ** The size of a callback *)

Lemma dec_digits_length fuel k n : 0 <= n < 10 ^ Z.of_nat k -> (1 <= k)%nat -> (length (dec_digits fuel n) <= k)%nat.
Proof.
  revert k n. induction fuel as [|fuel IH]; intros k n Hn Hk; cbn [dec_digits length]; [lia|].
  destruct (Z.ltb_spec n 10); [cbn; lia|]. rewrite length_app. cbn [length].
  destruct k as [|[|k]]; [lia|cbn in Hn; lia|].
  assert (length (dec_digits fuel (n / 10)) <= S k)%nat; [|lia]. apply IH; [|lia].
  rewrite Nat2Z.inj_succ, Z.pow_succ_r in Hn by lia. Z.div_mod_to_equations. lia.
Qed.

Lemma fmt_u_length k n : 0 <= n < 10 ^ Z.of_nat k -> (1 <= k)%nat -> (length (fmt_u n) <= k)%nat.
Proof. apply dec_digits_length. Qed.

Lemma fmt_d_length n : -2147483648 <= n < 2147483648 -> (length (fmt_d n) <= 11)%nat.
Proof.
  intros Hn. unfold fmt_d. destruct (Z.ltb_spec n 0); cbn [length]; [apply le_n_S|apply le_S];
    apply fmt_u_length; lia.
Qed.

Lemma status_text_length st : (1 <= length (callbackService_TransportStatusText st) <= 17)%nat.
Proof. unfold callbackService_TransportStatusText. repeat case_match; cbn; lia. Qed.

(** A log entry's fields have the width of their types. *)
Definition entry_wf (e : HealthCheckLog_EntryTypeDef) : Prop :=
  is_u32 (e_sequence e) /\ is_u32 (e_timestampUnix e) /\ is_u8 (e_resourceIndex e) /\ is_u16 (e_httpStatus e)
  /\ is_u32 (e_elapsedMs e) /\ -2147483648 <= e_detail e < 2147483648.

(** The lengths of an entry's fields as texts. *)
Lemma entry_lengths e :
  entry_wf e ->
  (length (fmt_u (e_sequence e)) <= 10 /\ length (fmt_u (e_timestampUnix e)) <= 10
   /\ length (fmt_u (e_resourceIndex e)) <= 3 /\ length (fmt_u (e_httpStatus e)) <= 5
   /\ length (fmt_u (e_elapsedMs e)) <= 10 /\ length (fmt_d (e_detail e)) <= 11)%nat.
Proof.
  unfold entry_wf, is_u32, is_u16, is_u8. intros (H1 & H2 & H3 & H4 & H5 & H6).
  split_and!; [apply fmt_u_length..|by apply fmt_d_length]; cbn; lia.
Qed.

Lemma post_body_length e : entry_wf e -> (1 <= length (post_body e) <= 176)%nat.
Proof.
  intros He. pose proof (entry_lengths e He). pose proof (status_text_length (e_status e)).
  unfold post_body, quoted. rewrite !length_app, !length_map. cbn [length str]. lia.
Qed.

Lemma get_query_length e : entry_wf e -> (length (get_query e) <= length longest_query)%nat.
Proof.
  intros He. pose proof (entry_lengths e He). pose proof (status_text_length (e_status e)).
  unfold get_query. rewrite !length_app. change (length longest_query) with 154%nat. cbn [length str]. lia.
Qed.

(** What validation says about the two strings of a configuration. *)
Lemma valid_strings c :
  c_wf c_config c -> CallbackConfig_IsValid c = true ->
  (1 <= strlen (cb_host c) < 64)%nat /\ (strlen (cb_path c) < 80)%nat /\ nth 0 (cstr (cb_path c)) 0 = 47
  /\ 0 < cb_port c < 65536.
Proof.
  intros Hw Hv. destruct (proj1 (config_wf c) Hw) as (_ & _ & _ & _ & Hp & [Hh _] & [Hq _]).
  unfold CallbackConfig_IsValid in Hv. rewrite !andb_true_iff in Hv.
  destruct Hv as [[[[[[_ Hport] _] _] Hhost] Hpath] _].
  unfold callbackConfig_HostValid, callbackConfig_PathValid in *. rewrite !andb_true_iff in Hhost, Hpath.
  destruct Hhost as [Hh0 Hhs], Hpath as [Hp0 Hps]. rewrite take_ge in Hhs, Hps by lia.
  apply scan_until_nul_spec in Hhs as [Hht%terminated_strlen _], Hps as [Hpt%terminated_strlen _].
  unfold CALLBACK_CONFIG_HOST_SIZE, CALLBACK_CONFIG_PATH_SIZE, is_u16 in *. split_and!; try lia.
  - destruct (cb_host c) as [|x h]; [done|]. unfold strlen. cbn in Hh0 |- *. destruct (x =? 0); [done|]. cbn. lia.
  - destruct (cb_path c) as [|x q]; [done|]. cbn in Hp0 |- *. apply Z.eqb_eq in Hp0 as ->. done.
Qed.

Lemma host_header_length h port :
  (1 <= length h < 64)%nat -> 0 < port < 65536 -> (1 <= length (host_header h port) < 70)%nat.
Proof.
  intros Hh Hp. unfold host_header. destruct (port =? 443); [lia|]. rewrite !length_app. cbn [length].
  pose proof (fmt_u_length 5 port ltac:(cbn; lia) ltac:(lia)). lia.
Qed.

(** A request with a short body or none, whose parts are bounded, fits. *)
Lemma build_request_fits m h r b port ct :
  (1 <= length h < 64)%nat -> 0 < port < 65536 -> (length m <= 4)%nat -> (length b <= 176)%nat ->
  ((b = [] /\ (length r <= 255)%nat)
   \/ (m = str "POST" /\ (length r < 80)%nat /\ exists x, ct = Some x /\ (length x <= 16)%nat)) ->
  exists text, build_request m h r b port ct = Some text.
Proof.
  intros Hh Hp Hm Hb Hcase. pose proof (host_header_length h port Hh Hp) as Hl. unfold build_request.
  rewrite (proj2 (Nat.eqb_neq _ 0)) by lia. unfold TLS_TRANSPORT_HOST_HEADER_SIZE.
  rewrite (proj2 (Nat.leb_gt 70 _)) by lia. cbn [orb].
  assert (negb (length b =? 0)%nat && (negb (bool_decide (m = str "POST")) || negb (is_Some_b ct)) = false) as ->.
  { destruct Hcase as [[-> _]|(-> & _ & x & -> & _)]; [done|]. rewrite bool_decide_eq_true_2 by done.
    apply andb_false_r. }
  assert (1 <= length (request_text m r (host_header h port) b (default [] ct)) < 512)%nat as Ht.
  { unfold request_text. rewrite !length_app. cbn [length str crlf].
    destruct Hcase as [[-> Hr]|(-> & Hr & x & -> & Hx)]; cbn [length Nat.eqb default from_option crlf str].
    - lia.
    - pose proof (fmt_u_length 10 (Z.of_nat (length b)) ltac:(cbn; lia) ltac:(lia)).
      destruct (length b =? 0)%nat; cbn [length crlf id]; [lia|]. rewrite !length_app. cbn [length crlf str id]. lia. }
  rewrite (proj2 (Nat.eqb_neq _ 0)) by lia. unfold TLS_TRANSPORT_REQUEST_SIZE.
  rewrite (proj2 (Nat.leb_gt 512 _)) by lia. cbn [orb]. eauto.
Qed.

(** No callback is lost to a buffer: for whatever configuration the store
    holds, when callbacks are enabled every well-formed log entry gives a
    request that the transport accepts as valid and whose host header, target,
    body and complete text fit the fixed buffers, so that the delivery task
    always reaches the network with it. *)
Lemma callback_always_sent {F} `{FlashLaws F} (s : store CallbackConfig_SnapshotTypeDef F) e :
  CallbackConfig.Inv s -> entry_wf e -> cb_enabled (CallbackConfig_Get true s) <> 0 ->
  exists a m h r b text, callback_request (CallbackConfig_Get true s) e = Some a
    /\ arguments_invalid a = false
    /\ method a = Some m /\ host a = Some h /\ resource a = Some r /\ body a = Some b
    /\ build_request m h r b (port a) (contentType a) = Some text.
Proof.
  intros Hi He Hen. pose proof (Inv_config_valid s Hi) as Hv.
  cbn [CallbackConfig_Get] in *. set (c := config (snapshot s)) in *.
  assert (c_wf c_config c) as Hw.
  { pose proof (ab_inv_wf _ _ _ _ _ Hi) as Hs. by apply cbc_snapshot_wf in Hs as (_ & _ & _ & _ & Hc & _). }
  destruct (valid_strings c Hw Hv) as (Hh & Hp & H47 & Hport). pose proof (valid_path_length c Hv) as Hpl.
  pose proof (post_body_length e He) as Hb. pose proof (get_query_length e He) as Hq.
  unfold callback_request. rewrite (proj2 (Z.eqb_neq _ 0) Hen). unfold fits, strlen in *.
  destruct (cb_method c =? CALLBACK_METHOD_POST).
  - rewrite (proj2 (Nat.ltb_lt 0 _)), (proj2 (Nat.ltb_lt _ CALLBACK_BODY_SIZE))
      by (unfold CALLBACK_BODY_SIZE; lia). cbn [andb].
    rewrite cstr_bounded_copy by (unfold CALLBACK_RESOURCE_SIZE, strlen; lia).
    destruct (build_request_fits (str "POST") (cstr (cb_host c)) (cstr (cb_path c)) (post_body e) (cb_port c)
      (Some (str "application/json"))) as [text Ht]; [lia|lia|cbn; lia|lia|right; split_and!; [done|lia|by eexists; split; [done|cbn; lia]]|].
    eexists _, _, _, _, _, text. split_and!; try done. cbn. rewrite H47.
    by rewrite (proj2 (Z.eqb_neq _ 0)) by lia.
  - assert (length (get_resource c e) < 256)%nat as Hr.
    { unfold get_resource. rewrite length_app. cbn [length]. lia. }
    assert (nth 0 (get_resource c e) 0 = 47 /\ (0 < length (get_resource c e))%nat) as [Hn Hpos].
    { unfold get_resource. rewrite length_app. cbn [length]. split; [|lia]. by destruct (cstr (cb_path c)). }
    rewrite (proj2 (Nat.ltb_lt 0 _)), (proj2 (Nat.ltb_lt _ CALLBACK_RESOURCE_SIZE))
      by (unfold CALLBACK_RESOURCE_SIZE; lia). cbn [andb].
    destruct (build_request_fits (str "GET") (cstr (cb_host c)) (get_resource c e) [] (cb_port c) None)
      as [text Ht]; [lia|lia|cbn; lia|cbn; lia|left; split; [done|lia]|].
    eexists _, _, _, _, _, text. split_and!; try done. cbn. rewrite Hn.
    by rewrite (proj2 (Z.eqb_neq _ 0)) by lia.
Qed.

(** ** Concrete runs *)

(** A device restarted after callbacks were configured. *)
Definition demo_store : store CallbackConfig_SnapshotTypeDef simflash :=
  (CallbackConfig_Init true (Store default_snapshot 0
     (AbStore.flash (CallbackConfig_Set true CallbackConfig.demo0 (Some demo_config)).1))).1.

Definition demo_entry : HealthCheckLog_EntryTypeDef := Entry 42 1800000000 9731 (-11) 0 0 0 3 5 2 0.

Lemma demo_store_inv : CallbackConfig.Inv demo_store.
Proof.
  assert ((CallbackConfig_Init true (Store default_snapshot 0
    (AbStore.flash (CallbackConfig_Set true CallbackConfig.demo0 (Some demo_config)).1))).2 = HEALTH_CHECK_STATUS_OK)
    as H by (vm_compute; reflexivity).
  exact (cbc_init_inv _ _ _ (pair_snd _ _ H)).
Qed.

Example demo_callback :
  option_map resource (callback_request (CallbackConfig_Get true demo_store) demo_entry)
  = Some (Some (str "/hook?key=1&sequence=42&timestamp=1800000000&resource_index=3&status=fail" ++
                str "&stage=handshake_error&http_status=0&elapsed_ms=9731&detail=-11")).
Proof. vm_compute. reflexivity. Qed.

Lemma callback_always_sent_witness :
  exists a, callback_request (CallbackConfig_Get true demo_store) demo_entry = Some a /\ arguments_invalid a = false.
Proof.
  destruct (callback_always_sent demo_store demo_entry) as (a & m & h & r & b & text & Ha & Hv & _).
  - exact demo_store_inv.
  - unfold entry_wf, is_u32, is_u16, is_u8. cbn. lia.
  - vm_compute. discriminate.
  - exists a. split; [exact Ha|exact Hv].
Defined.

Definition demo_history : history :=
  History (State (Some []) (Telemetry 0 0 0 0 0 0 0 0)) [] [].

Definition demo_acts : list (option HealthCheckLog_EntryTypeDef) :=
  [Some demo_entry; None; Some demo_entry; Some demo_entry; Some demo_entry; Some demo_entry].

Lemma callback_queue_newest_witness :
  window (fold_left (act demo_config (fun _ => TlsResult TLS_TRANSPORT_OK 0 204 80 0)) demo_acts demo_history).
Proof.
  apply (callback_queue_newest demo_config (fun _ => TlsResult TLS_TRANSPORT_OK 0 204 80 0) demo_acts demo_history).
  exists [], []. repeat split; cbn; try lia. constructor.
Defined.

Example demo_counters :
  let t := CallbackService_GetTelemetry (h_state
    (fold_left (act demo_config (fun _ => TlsResult TLS_TRANSPORT_OK 0 204 80 0)) demo_acts demo_history)) in
  (deliverySuccessCount t, droppedCount t, queueDepth t) = (1, 1, 3).
Proof. vm_compute. reflexivity. Qed.
