(* ===== verification/TimeService.v ===== *)
(** [Srv/Src/time_service.c]: wall-clock time from the last SNTP answer and the
    tick counter.

    The tick is a 32-bit millisecond counter; the time is the last answer plus
    the ticks since it, in seconds.  The lemma says how long that is right. *)
From S2P Require Import Prelude.

Definition configTICK_RATE_HZ : Z := 1000.
Definition portTICK_PERIOD_MS : Z := 1.

Record clock := Clock { synchronizedUnixTime : Z; synchronizedAtTick : Z; synchronized : bool }.

Definition TimeService_IsSynchronized (c : clock) : bool := synchronized c.

(** [None]: the call fails and writes nothing. [tick] is [xTaskGetTickCount()]. *)
Definition TimeService_GetUnixTime (c : clock) (tick : Z) : option Z :=
  if negb (synchronized c) then None
  else Some (u32 (synchronizedUnixTime c + u32 (tick - synchronizedAtTick c) / configTICK_RATE_HZ)).

Definition TimeService_GetUptimeMs (tick : Z) : Z := u32 (tick * portTICK_PERIOD_MS).

Definition TimeService_SetUnixTime (unixTime tick : Z) : clock := Clock unixTime tick true.

(** For 2^32 ms after an answer, across the wrap of the tick counter, the
    clock shows the answer plus the whole seconds that passed. *)
Lemma unix_time_elapsed unixTime tick ms :
  is_u32 unixTime -> is_u32 tick -> 0 <= ms < 4294967296 -> unixTime + ms / 1000 < 4294967296 ->
  TimeService_GetUnixTime (TimeService_SetUnixTime unixTime tick) (u32 (tick + ms)) = Some (unixTime + ms / 1000).
Proof.
  intros Hu Ht Hm Hs. unfold TimeService_GetUnixTime. cbn [negb synchronized TimeService_SetUnixTime
    synchronizedUnixTime synchronizedAtTick]. f_equal.
  assert (u32 (u32 (tick + ms) - tick) = ms) as ->.
  { unfold u32. rewrite Zminus_mod_idemp_l. replace (tick + ms - tick) with ms by lia. by apply Z.mod_small. }
  apply u32_id. unfold is_u32, configTICK_RATE_HZ in *. Z.div_mod_to_equations. lia.
Qed.

Lemma unix_time_u32 c tick t : TimeService_GetUnixTime c tick = Some t -> is_u32 t.
Proof. unfold TimeService_GetUnixTime. destruct (negb _); [done|]. intros E. injection E as <-. apply u32_range. Qed.
