(* ===== verification/TelemetryService.v ===== *)
(** [Srv/Src/telemetry_service.c]: the task handles and the stack telemetry. *)
From S2P Require Import Prelude TimeService.

Definition TELEMETRY_TASK_COUNT : nat := 9.

Record TelemetryService_SnapshotTypeDef := TelemetrySnapshot {
  uptimeMs : Z;
  stackMinFreeBytes : list Z;
}.

(** [taskHandles]: [None] is [NULL]. *)
Definition TelemetryService_RegisterTask (taskHandles : list (option Z)) (taskId : nat) (handle : option Z) :
    list (option Z) :=
  match handle with
  | None => taskHandles
  | Some h => if (TELEMETRY_TASK_COUNT <=? taskId)%nat then taskHandles else <[taskId := Some h]> taskHandles
  end.

(** [uxTaskGetStackHighWaterMark] of FreeRTOS is [watermark], in words of four
    bytes. *)
Definition TelemetryService_GetSnapshot (watermark : Z -> Z) (tick : Z) (taskHandles : list (option Z)) :
    TelemetryService_SnapshotTypeDef :=
  TelemetrySnapshot (TimeService_GetUptimeMs tick)
    (map (fun h => match h with Some h => u32 (u32 (watermark h) * 4) | None => 0 end) taskHandles).
