(* ===== verification/BuzzerService.v ===== *)
(** [Srv/Src/buzzer_service.c]: the queue of audible alerts and the patterns
    the buzzer task plays.

    Alerts queue behind each other; the events of a factory reset empty the
    queue first.  A pattern is the list of buzzer commands and delays of one
    round of the task. *)
From S2P Require Import Prelude.

Definition BUZZER_QUEUE_LENGTH : nat := 12.
Definition BUZZER_DEFAULT_FREQUENCY_HZ : Z := 2500.

Inductive BuzzerService_EventTypeDef :=
  | BUZZER_EVENT_ALERT (count : Z)
  | BUZZER_EVENT_RESET_WARNING
  | BUZZER_EVENT_RESET_CANCELLED
  | BUZZER_EVENT_FAILURE
  | BUZZER_EVENT_CERTIFICATE (count : Z).

(** [None] before the queue was created. *)
Abbreviation buzzer := (option (list BuzzerService_EventTypeDef)).

(** [xQueueSend] without waiting: whether there was room. *)
Definition xQueueSend (q : list BuzzerService_EventTypeDef) (e : BuzzerService_EventTypeDef) :
    list BuzzerService_EventTypeDef * bool :=
  if (length q <? BUZZER_QUEUE_LENGTH)%nat then (q ++ [e], true) else (q, false).

Definition queue_alert (b : buzzer) (resourceId : Z) (e : BuzzerService_EventTypeDef) : buzzer * bool :=
  match b with
  | None => (b, false)
  | Some q => if resourceId =? 0 then (b, false) else let '(q, sent) := xQueueSend q e in (Some q, sent)
  end.

Definition BuzzerService_HealthCheckAlert (b : buzzer) (resourceId : Z) : buzzer * bool :=
  queue_alert b resourceId (BUZZER_EVENT_ALERT resourceId).

Definition BuzzerService_CertificateWarning (b : buzzer) (resourceId : Z) : buzzer * bool :=
  queue_alert b resourceId (BUZZER_EVENT_CERTIFICATE resourceId).

(** [xQueueReset] and [xQueueSendToFront]. *)
Definition interrupt (b : buzzer) (e : BuzzerService_EventTypeDef) : buzzer :=
  match b with None => None | Some _ => Some [e] end.

Definition BuzzerService_FactoryResetWarning (b : buzzer) := interrupt b BUZZER_EVENT_RESET_WARNING.
Definition BuzzerService_FactoryResetCancelled (b : buzzer) := interrupt b BUZZER_EVENT_RESET_CANCELLED.
Definition BuzzerService_FactoryResetFailure (b : buzzer) := interrupt b BUZZER_EVENT_FAILURE.

(** ** Patterns *)

Inductive action := SetFrequency (hz : Z) | On | Off | Delay (ms : Z).

Definition buzzerService_Beep (durationMs : Z) : list action := [On; Delay durationMs; Off].

(** [n] tones with a gap between them. *)
Fixpoint beeps (n : nat) (tone gap : Z) : list action :=
  match n with
  | O => []
  | S O => buzzerService_Beep tone
  | S n => buzzerService_Beep tone ++ Delay gap :: beeps n tone gap
  end.

Definition buzzerService_PlayResourceId (resourceId : Z) : list action :=
  SetFrequency BUZZER_DEFAULT_FREQUENCY_HZ :: beeps (Z.to_nat resourceId) 120 120.

Fixpoint melody (notes : list Z) : list action :=
  match notes with
  | [] => []
  | [hz] => SetFrequency hz :: buzzerService_Beep 120
  | hz :: notes => (SetFrequency hz :: buzzerService_Beep 120) ++ Delay 45 :: melody notes
  end.

Definition buzzerService_PlayResourceWarning (melodyHz : list Z) (resourceId : Z) : list action :=
  melody melodyHz ++ Delay 250 :: buzzerService_PlayResourceId resourceId.

(** Each tone and the pause after it. *)
Definition sos : list (Z * option Z) :=
  [(100, Some 100); (100, Some 100); (100, Some 300); (300, Some 100); (300, Some 100); (300, Some 300);
   (100, Some 100); (100, Some 100); (100, None)].

Definition buzzerService_PlayHealthCheckAlert (resourceId : Z) : list action :=
  SetFrequency 1800
  :: concat (map (fun '(tone, gap) => buzzerService_Beep tone ++
       match gap with Some g => [Delay g] | None => [] end) sos)
  ++ Delay 700 :: buzzerService_PlayResourceId resourceId.

(** One round of [buzzerService_Task]. *)
Definition play (e : BuzzerService_EventTypeDef) : list action :=
  match e with
  | BUZZER_EVENT_RESET_WARNING => beeps 5 350 150
  | BUZZER_EVENT_RESET_CANCELLED => beeps 3 350 150
  | BUZZER_EVENT_FAILURE => beeps 5 70 70
  | BUZZER_EVENT_CERTIFICATE count => buzzerService_PlayResourceWarning [1760; 1175; 1760] count
  | BUZZER_EVENT_ALERT count => buzzerService_PlayHealthCheckAlert count
  end.

Definition BuzzerService_FactoryResetWarningDuration : Z := 5 * 350 + (5 - 1) * 150.

(** The time a pattern takes, and its tones: [None] when the buzzer is switched
    on twice or left on. *)
Definition duration (l : list action) : Z :=
  fold_right (fun a n => match a with Delay ms => ms + n | _ => n end) 0 l.

Fixpoint tones (l : list action) (on : bool) : option nat :=
  match l with
  | [] => if on then None else Some O
  | On :: l => if on then None else option_map S (tones l true)
  | Off :: l => tones l false
  | _ :: l => tones l on
  end.

(** The factory reset waits exactly as long as its warning sounds. *)
Lemma reset_warning_duration : duration (play BUZZER_EVENT_RESET_WARNING) = BuzzerService_FactoryResetWarningDuration.
Proof. reflexivity. Qed.

Lemma beeps_tones n tone gap : tones (beeps n tone gap) false = Some n.
Proof.
  induction n as [|n IH]; [done|]. destruct n as [|n]; [done|]. cbn [beeps] in *.
  change (option_map S (tones (Delay gap :: beeps (S n) tone gap) false) = Some (S (S n))).
  cbn [tones beeps]. by rewrite IH.
Qed.

(** Every pattern leaves the buzzer silent, and an alert ends with as many
    tones as the resource's number. *)
Lemma pattern_tones e :
  tones (play e) false = Some match e with
    | BUZZER_EVENT_ALERT count => 9 + Z.to_nat count
    | BUZZER_EVENT_CERTIFICATE count => 3 + Z.to_nat count
    | BUZZER_EVENT_RESET_CANCELLED => 3
    | _ => 5
    end%nat.
Proof.
  destruct e as [n| | | |n]; try done; cbn -[beeps Z.to_nat]; by rewrite beeps_tones.
Qed.
