(* ===== verification/HealthCheckService.v ===== *)
(** [Srv/Src/health_check_service.c]: the periodic checks.

    One round checks every occupied and enabled resource in slot order: the
    outcome is logged, a failure sounds an alert and is queued for the callback
    once it is durable in the log, and a healthy resource whose certificate
    expires soon sounds a warning at most once an hour.  The model composes the
    configuration, the log, the callback queue, the buzzer queue and the clock;
    the outbound request is the function [head].  The theorem describes a
    whole round on a device that answers. *)
From S2P Require Import Prelude Codec NorFlash SimFlash AbStore TlsTypes HealthCheckConfig HealthCheckLog.
From S2P Require Import CallbackService BuzzerService.

Definition HEALTH_CHECK_OK_STATUS : Z := 200.
Definition CERTIFICATE_WARNING_WINDOW_SECONDS : Z := 10 * 24 * 60 * 60.
Definition CERTIFICATE_WARNING_PERIOD_SECONDS : Z := 60 * 60.
Abbreviation resource := HealthCheckConfig_ResourceTypeDef.

(** ** Certificate warnings *)

(** [certificateWarningAt] and [certificateWarningExpiry]. *)
Record warnings := Warnings { certificateWarningAt : list Z; certificateWarningExpiry : list Z }.

Definition healthCheckService_WarnCertificate (w : warnings) (b : buzzer) (index : nat) (expiresAt now : Z) :
    warnings * buzzer :=
  if (expiresAt =? 0) || (expiresAt <=? now)
     || (CERTIFICATE_WARNING_WINDOW_SECONDS <=? u32 (expiresAt - now)) then (w, b) else
  let w := if negb (nth index (certificateWarningExpiry w) 0 =? expiresAt)
           then Warnings (<[index := 0]> (certificateWarningAt w))
                  (<[index := expiresAt]> (certificateWarningExpiry w)) else w in
  let at_ := nth index (certificateWarningAt w) 0 in
  if negb (at_ =? 0) && (u32 (now - at_) <? CERTIFICATE_WARNING_PERIOD_SECONDS) then (w, b) else
  let '(b, sent) := BuzzerService_CertificateWarning b (u8 (Z.of_nat index + 1)) in
  (if sent then Warnings (<[index := now]> (certificateWarningAt w)) (certificateWarningExpiry w) else w, b).

(** ** Checks *)

Definition resourceHealthy (result : TlsTransport_ResultTypeDef) : bool :=
  bool_decide (r_status result = TLS_TRANSPORT_OK) && (r_httpStatus result =? HEALTH_CHECK_OK_STATUS).

Section service.
Context {F : Type} `{Flash F}.

Record service := Service {
  log : HealthCheckLog.state F;
  callbacks : CallbackService.state;
  buzz : buzzer;
  warned : warnings;
}.

(** [head] is the result of [TlsTransport_Head] for a resource, [now] what
    [TimeService_GetUnixTime] answers, [taken] whether the log's mutex is
    obtained. *)
Context (head : resource -> TlsTransport_ResultTypeDef).

Definition healthCheckService_CheckResource (now : option Z) (taken : bool) (s : service) (index : nat)
    (r : resource) : service :=
  let result := head r in
  let healthy := resourceHealthy result in
  let b := if negb healthy then (BuzzerService_HealthCheckAlert (buzz s) (u8 (Z.of_nat index + 1))).1 else buzz s in
  let checkedAt := default 0 now in
  let '(w, b) := if healthy then healthCheckService_WarnCertificate (warned s) b index
                                   (r_certificateExpiresAt result) checkedAt
                 else (warned s, b) in
  let '(l, logStatus, logEntry) := HealthCheckLog_Append taken (log s) (Z.of_nat index)
                                     (HealthCheckConfig.trustAnchorId r) checkedAt (Some result) in
  let c := match logStatus with
           | HEALTH_CHECK_STATUS_ERROR => callbacks s
           | HEALTH_CHECK_STATUS_OK =>
               if negb healthy then CallbackService_Enqueue (callbacks s) logEntry else callbacks s
           end in
  Service l c b w.

(** The resources a round visits. *)
Definition checked (r : resource) : bool :=
  negb (HealthCheckConfig.occupied r =? 0) && negb (HealthCheckConfig.enabled r =? 0).

(** The loop of [healthCheckService_Task] over the configured resources, from
    slot [index] on; the clock is read again for every check. *)
Fixpoint healthCheckService_Round (now : nat -> option Z) (s : service) (index : nat) (l : list resource) : service :=
  match l with
  | [] => s
  | r :: l =>
      healthCheckService_Round now
        (if checked r then healthCheckService_CheckResource (now index) true s index r else s) (S index) l
  end.

(** One iteration of [healthCheckService_Task] while it is not waiting: the
    state and the ticks it sleeps. *)
Definition healthCheckService_Task_iteration (ready synchronized : bool) (now : nat -> option Z)
    (config : AbStore.store HealthCheckConfig_SnapshotTypeDef F) (s : service) : service * Z :=
  if negb ready || negb synchronized then (s, 1000) else
  (healthCheckService_Round now s 0 (default [] (HealthCheckConfig_GetResources true config (Some []))),
   HealthCheckConfig_GetPeriodSeconds true config * 1000).
End service.

Arguments service : clear implicits.

(** ** A round on a device that answers *)

(** The log record of the check of slot [index], with sequence number [seq]:
    the slot, its anchor, the time and the outcome of its own request. *)
Definition check_record (head : resource -> TlsTransport_ResultTypeDef) (now : nat -> option Z) (seq : Z)
    (index : nat) (r : resource) : healthCheckLog_RecordTypeDef :=
  make_record seq (Z.of_nat index) (HealthCheckConfig.trustAnchorId r) (default 0 (now index)) (head r).

Definition check_entry (head : resource -> TlsTransport_ResultTypeDef) (now : nat -> option Z) (seq : Z)
    (index : nat) (r : resource) : HealthCheckLog_EntryTypeDef :=
  entry_of (check_record head now seq index r).

(** The records of all checks of a round, in the order of the checks. *)
Fixpoint round_records (head : resource -> TlsTransport_ResultTypeDef) (now : nat -> option Z) (seq : Z)
    (index : nat) (l : list resource) : list healthCheckLog_RecordTypeDef :=
  match l with
  | [] => []
  | r :: l =>
      if checked r
      then check_record head now seq index r :: round_records head now (seq + 1) (S index) l
      else round_records head now seq (S index) l
  end.

(** The entries of the failed checks of a round, in the order of the checks;
    every check uses up one sequence number. *)
Fixpoint failures (head : resource -> TlsTransport_ResultTypeDef) (now : nat -> option Z) (seq : Z)
    (index : nat) (l : list resource) : list HealthCheckLog_EntryTypeDef :=
  match l with
  | [] => []
  | r :: l =>
      if checked r then
        (if resourceHealthy (head r) then [] else [check_entry head now seq index r])
        ++ failures head now (seq + 1) (S index) l
      else failures head now seq (S index) l
  end.

Definition checks (l : list resource) : nat := length (filter (fun r => checked r = true) l).

Lemma length_round_records head now seq index l : length (round_records head now seq index l) = checks l.
Proof.
  unfold checks. revert seq index. induction l as [|r l IH]; intros seq index; [done|].
  cbn [round_records]. rewrite filter_cons.
  destruct (checked r); [rewrite decide_True by done|rewrite decide_False by done];
    cbn [length]; by rewrite IH.
Qed.

Section theory.
Context {F : Type} `{FlashLaws F}.
Context (head : resource -> TlsTransport_ResultTypeDef) (now : nat -> option Z).
(** What the transport and the clock return has the width of its types. *)
Context (head_wf : forall r, result_wf (head r)).
Context (now_u32 : forall i t, now i = Some t -> is_u32 t).

Lemma check_ready (s : service F) index r :
  HealthCheckLog.Inv (log s) -> fl_ready (flash (log s)) ->
  nextSequence (log s) < HEALTH_CHECK_LOG_ERASED_SEQUENCE -> (index < 256)%nat ->
  is_u8 (HealthCheckConfig.trustAnchorId r) ->
  let s' := healthCheckService_CheckResource head (now index) true s index r in
  let record := check_record head now (nextSequence (log s)) index r in
  HealthCheckLog.Inv (log s') /\ fl_ready (flash (log s')) /\ nextSequence (log s') = nextSequence (log s) + 1
  /\ log_abs (log s') = log_add (log_abs (log s)) record
  /\ callbacks s' = if resourceHealthy (head r) then callbacks s
       else CallbackService_Enqueue (callbacks s) (Some (entry_of record)).
Proof.
  intros Hi Hr Hs Hx Ha. assert (is_u32 (default 0 (now index))) as Hnow.
  { destruct (now index) as [t|] eqn:E; [exact (now_u32 _ _ E)|by vm_compute]. }
  assert (is_u8 (Z.of_nat index)) as Hidx by (unfold is_u8; lia).
  destruct (append_ready (log s) (Z.of_nat index) (HealthCheckConfig.trustAnchorId r) (default 0 (now index)) (head r))
    as (l & El & Hi' & Hr' & Hq); try done.
  pose proof (append_abs _ _ _ _ _ _ _ Hi Hs Hidx Ha Hnow (head_wf r) El) as Hl.
  unfold healthCheckService_CheckResource. rewrite El. unfold check_record.
  destruct (resourceHealthy (head r)); cbn [negb].
  - destruct (healthCheckService_WarnCertificate _ _ _ _ _) as [w b]. by split_and!.
  - by split_and!.
Qed.

Lemma round_ready (s : service F) index l :
  HealthCheckLog.Inv (log s) -> fl_ready (flash (log s)) ->
  nextSequence (log s) + Z.of_nat (length l) <= HEALTH_CHECK_LOG_ERASED_SEQUENCE ->
  (index + length l <= 256)%nat -> Forall (fun r => is_u8 (HealthCheckConfig.trustAnchorId r)) l ->
  let s' := healthCheckService_Round head now s index l in
  HealthCheckLog.Inv (log s') /\ fl_ready (flash (log s'))
  /\ nextSequence (log s') = nextSequence (log s) + Z.of_nat (checks l)
  /\ log_abs (log s') = fold_left log_add (round_records head now (nextSequence (log s)) index l)
                          (log_abs (log s))
  /\ callbacks s' = fold_left (fun c e => CallbackService_Enqueue c (Some e))
       (failures head now (nextSequence (log s)) index l) (callbacks s).
Proof.
  revert s index. induction l as [|r l IH]; intros s index Hi Hr Hs Hx Ha s'.
  { cbn [s' healthCheckService_Round failures round_records fold_left checks filter length].
    rewrite Z.add_0_r. by split_and!. }
  apply list.Forall_cons in Ha as [Ha Hal]. cbn [length] in Hs, Hx.
  unfold s'. cbn [healthCheckService_Round failures round_records]. unfold checks. rewrite filter_cons.
  destruct (checked r) eqn:Ec.
  - rewrite decide_True by done. cbn [length].
    destruct (check_ready s index r Hi Hr) as (Hi1 & Hr1 & Hq1 & Hl1 & Hc1); [lia|lia|done|].
    destruct (IH (healthCheckService_CheckResource head (now index) true s index r) (S index) Hi1 Hr1)
      as (Hi2 & Hr2 & Hq2 & Hl2 & Hc2); [lia|lia|done|].
    split; [exact Hi2|]. split; [exact Hr2|]. split; [rewrite Hq2, Hq1; unfold checks; lia|].
    split; [rewrite Hl2, Hq1, Hl1; reflexivity|].
    rewrite Hc2, Hq1, Hc1. by destruct (resourceHealthy (head r)).
  - rewrite decide_False by done. apply IH; try done; lia.
Qed.

End theory.

(** ** A concrete round: one healthy, one disabled and one failing resource *)

Definition demo_resource (on : Z) (h : bytes) : resource :=
  Resource 1 on 2 0 443 (strncpy (zeros 64) h 63) (strncpy (zeros 64) (str "/") 63).

Definition demo_resources : list resource :=
  [demo_resource 1 (str "a.example"); demo_resource 0 (str "b.example"); demo_resource 1 (str "c.example")].

Definition demo_head (r : resource) : TlsTransport_ResultTypeDef :=
  if nth 0 (HealthCheckConfig.host r) 0 =? 97 then TlsResult TLS_TRANSPORT_OK 0 200 120 1800400000
  else TlsResult TLS_TRANSPORT_HANDSHAKE_ERROR (-30592) 0 900 0.

Definition demo_now (i : nat) : option Z := Some (1800000000 + Z.of_nat (min i 9)).

Definition demo_service : service simflash :=
  Service HealthCheckLog.demo0 (CallbackService.State (Some []) (Telemetry 0 0 0 0 0 0 0 0)) (Some [])
    (Warnings (zeros 6) (zeros 6)).

Lemma demo_head_wf r : result_wf (demo_head r).
Proof. unfold demo_head, result_wf, is_u32, is_u16. destruct (_ =? 97); cbn; lia. Qed.

Lemma demo_now_u32 i t : demo_now i = Some t -> is_u32 t.
Proof. intros E. injection E as <-. unfold is_u32. lia. Qed.


Example demo_alerts :
  buzz (healthCheckService_Round demo_head demo_now demo_service 0 demo_resources)
  = Some [BUZZER_EVENT_CERTIFICATE 1; BUZZER_EVENT_ALERT 3].
Proof. vm_compute. reflexivity. Qed.
