(* ===== verification/ApiJson.v ===== *)
(** The JSON helpers of [Srv/Src/api_service.c].

    The management API reads members of a request body by searching for the
    quoted key and writes strings into responses with escapes.  The theorems:
    on the objects the API documents (flat, with plain strings) every reader
    returns the member it is asked for, and only that; a written string is
    bounded by its buffer and can be read back.  Two more show what the search
    does outside of that: a value equal to a key is taken for the key, and a
    string that is refused has already overwritten part of the output. *)
From S2P Require Import Prelude CString.

(** [snprintf(pattern, 40, "\"%s\"", key)] *)
Definition pattern (key : bytes) : bytes := take 39 (34 :: key ++ [34]).

(** The copying loop from [cursor] on; [output] is the whole array, of
    [capacity] bytes. *)
Fixpoint copy_string (cursor : bytes) (capacity length : nat) (output : bytes) : bytes * bool :=
  match cursor with
  | [] => (output, false)
  | c :: cursor =>
      if c =? 34 then (<[length := 0]> output, true)
      else if (c =? 92) || (c <? 0x20) || (capacity - 1 <=? length)%nat then (output, false)
      else copy_string cursor capacity (S length) (<[length := c]> output)
  end.

(** The output array afterwards and whether the member was read. *)
Definition apiService_JsonString (json key output : bytes) : bytes * bool :=
  match strstr json (pattern key) with
  | None => (output, false)
  | Some k =>
      let cursor := skip_blank (drop (k + length (pattern key)) json) in
      if negb (chr cursor =? 58) then (output, false) else
      let cursor := skip_blank (tl cursor) in
      if negb (chr cursor =? 34) then (output, false) else
      copy_string (tl cursor) (length output) 0 output
  end.

Definition json_space (c : Z) : bool := (c =? 32) || (c =? 9) || (c =? 13) || (c =? 10).

(** The search goes on behind each occurrence that is not followed by a colon;
    every round consumes the pattern, so the length of the text is fuel
    enough. *)
Fixpoint has_key (fuel : nat) (cursor pat : bytes) : bool :=
  match fuel with
  | O => false
  | S fuel =>
      match strstr cursor pat with
      | None => false
      | Some k =>
          let cursor := drop (k + length pat) cursor in
          if chr (skip_while json_space cursor) =? 58 then true else has_key fuel cursor pat
      end
  end.

Definition apiService_JsonHasKey (json key : bytes) : bool := has_key (S (length json)) json (pattern key).

(** From the first colon behind the key, blanks skipped. *)
Definition after_colon (json key : bytes) : option bytes :=
  match strstr json (pattern key) with
  | None => None
  | Some k =>
      let cursor := drop (k + length (pattern key)) json in
      match strchr cursor 58 with
      | None => None
      | Some c => Some (skip_blank (drop (S c) cursor))
      end
  end.

(** [Some]: the value written to [*value]. *)
Definition apiService_JsonBoolean (json key : bytes) : option Z :=
  match after_colon json key with
  | None => None
  | Some cursor =>
      if starts_with (str "true") cursor then Some 1
      else if starts_with (str "false") cursor then Some 0 else None
  end.

Definition apiService_JsonNumber (json key : bytes) : option Z :=
  match after_colon json key with
  | None => None
  | Some cursor =>
      match strtoul cursor with
      | None => None
      | Some (parsed, _, _) => Some (u32 parsed)
      end
  end.

(** The escaping loop: [text] is what [output] holds so far ([*used] bytes);
    the text afterwards, [None] when it is refused. *)
Fixpoint append_loop (capacity : nat) (text value : bytes) : option bytes :=
  match value with
  | [] => Some text
  | c :: value =>
      if c <? 0x20 then None
      else if (c =? 34) || (c =? 92) then
        if (capacity - length text <=? 2)%nat then None
        else append_loop capacity (text ++ [92; c]) value
      else if (capacity - length text <=? 1)%nat then None
      else append_loop capacity (text ++ [c]) value
  end.

Definition apiService_AppendJsonString (capacity : nat) (text value : bytes) : option bytes :=
  if (capacity <=? length text)%nat then None else append_loop capacity text value.

(** ** Reference: flat objects *)

Inductive json_value := JString (s : bytes) | JNumber (n : Z) | JBool (b : bool).

#[global] Instance json_value_eq_dec : EqDecision json_value.
Proof. solve_decision. Defined.

Definition print_value (v : json_value) : bytes :=
  match v with
  | JString s => 34 :: s ++ [34]
  | JNumber n => fmt_u n
  | JBool b => if b then str "true" else str "false"
  end.

Definition print_member (m : bytes * json_value) : bytes := 34 :: m.1 ++ 34 :: 58 :: print_value m.2.

Fixpoint print_members (ms : list (bytes * json_value)) : bytes :=
  match ms with
  | [] => []
  | [m] => print_member m
  | m :: ms => print_member m ++ 44 :: print_members ms
  end.

Definition print_object (ms : list (bytes * json_value)) : bytes := 123 :: print_members ms ++ [125].

(** Characters of a string that needs no escape. *)
Definition plain (c : Z) : Prop := 32 <= c < 256 /\ c <> 34 /\ c <> 92.
(** Characters of the API's keys. *)
Definition key_char (c : Z) : bool := ((97 <=? c) && (c <=? 122)) || (c =? 95).

Definition value_ok (v : json_value) : Prop :=
  match v with JString s => Forall plain s | JNumber n => is_u32 n | JBool _ => True end.

Definition key_ok (key : bytes) : Prop := key <> [] /\ (length key <= 37)%nat /\ forallb key_char key = true.

Lemma pattern_eq key : (length key <= 37)%nat -> pattern key = 34 :: key ++ [34].
Proof. intros H. unfold pattern. apply take_ge. cbn. rewrite length_app. cbn. lia. Qed.

Lemma key_plain key : forallb key_char key = true -> Forall plain key.
Proof.
  induction key as [|c key IH]; intros H; [constructor|]. cbn in H. apply andb_true_iff in H as [Hc H].
  constructor; [|by apply IH]. unfold key_char, plain in *. lia.
Qed.

Lemma plain_no_quote s : Forall plain s -> Forall (fun c => c <> 34) s.
Proof. apply Forall_impl. by intros c (_ & Hc & _). Qed.

Lemma dec_digits_no_quote fuel n : 0 <= n -> Forall (fun c => c <> 34) (dec_digits fuel n).
Proof.
  revert n. induction fuel as [|k IH]; intros n H; cbn [dec_digits]; [constructor|].
  destruct (Z.ltb_spec n 10); [constructor; [lia|constructor]|].
  apply Forall_app_2; [apply IH; apply Z.div_pos; lia|]. constructor; [|constructor].
  pose proof (Z.mod_pos_bound n 10). lia.
Qed.

Lemma fmt_u_no_quote n : is_u32 n -> Forall (fun c => c <> 34) (fmt_u n).
Proof. intros Hn. apply dec_digits_no_quote. word. Qed.

(** ** Where a key is found *)

Section search.
Context (key : bytes) (Hkey : key_ok key).

Lemma key_no_quote : Forall (fun c => c <> 34) key.
Proof. destruct Hkey as (_ & _ & H). by apply plain_no_quote, key_plain. Qed.

Lemma pattern_key : pattern key = 34 :: (key ++ [34]).
Proof. apply pattern_eq. apply Hkey. Qed.

(** A quoted string matches when it is the key. *)
Lemma pattern_quoted s rest :
  Forall (fun c => c <> 34) s -> starts_with (pattern key) (34 :: s ++ 34 :: rest) = bool_decide (s = key).
Proof.
  intros Hs. rewrite pattern_key. case_bool_decide as E.
  - subst s. apply starts_with_spec. exists rest. cbn. by rewrite <-app_assoc.
  - destruct (starts_with _ _) eqn:H; [|done]. apply starts_with_spec in H as [t H]. cbn in H.
    injection H as H. rewrite <-app_assoc in H. cbn in H.
    apply split_delimiter in H as [-> _]; [done|done|apply key_no_quote].
Qed.

(** A closing quote followed by punctuation is not the start of the key. *)
Lemma pattern_closing rest : key_char (chr rest) = false -> starts_with (pattern key) (34 :: rest) = false.
Proof.
  intros H. rewrite pattern_key. destruct Hkey as (Hne & _ & Hc). destruct key as [|c k]; [done|].
  cbn in Hc. apply andb_true_iff in Hc as [Hc _]. cbn. destruct rest as [|d rest]; [done|].
  destruct (Z.eqb_spec c d); [|done]. subst. cbn in H. congruence.
Qed.

Lemma strstr_no_quote a b :
  Forall (fun c => c <> 34) a -> strstr (a ++ b) (pattern key) = (fun k => (length a + k)%nat) <$> strstr b (pattern key).
Proof. intros H. rewrite pattern_key. by apply strstr_skip_absent. Qed.

Lemma strstr_quoted s rest :
  Forall (fun c => c <> 34) s -> s <> key -> key_char (chr rest) = false ->
  strstr (34 :: s ++ 34 :: rest) (pattern key)
  = (fun k => (length s + 2 + k)%nat) <$> strstr rest (pattern key).
Proof.
  intros Hs Hne Hr.
  change (34 :: s ++ 34 :: rest) with ([34] ++ (s ++ 34 :: rest)).
  rewrite strstr_skip.
  - rewrite strstr_no_quote by done. change (34 :: rest) with ([34] ++ rest). rewrite strstr_skip.
    + destruct (strstr rest (pattern key)); cbn; [f_equal; lia|done].
    + intros [|j] Hj; [|cbn in Hj; lia]. by apply pattern_closing.
  - intros [|j] Hj; [|cbn in Hj; lia]. cbn [drop app]. rewrite pattern_quoted by done.
    by apply bool_decide_eq_false.
Qed.

(** What separates a member from what follows it. *)
Definition ends (rest : bytes) : Prop := exists t, rest = 44 :: t \/ rest = 125 :: t.

Lemma ends_chr rest : ends rest -> key_char (chr rest) = false /\ isdigit (chr rest) = false.
Proof. intros [t [->| ->]]; done. Qed.

Lemma strstr_value v rest :
  value_ok v -> v <> JString key -> ends rest ->
  strstr (print_value v ++ rest) (pattern key)
  = (fun k => (length (print_value v) + k)%nat) <$> strstr rest (pattern key).
Proof.
  intros Hv Hne Hr. destruct v as [s|n|[]]; cbn [print_value value_ok] in *.
  - rewrite <-app_comm_cons, <-app_assoc. cbn [app]. rewrite strstr_quoted.
    + cbn [length]. rewrite length_app. cbn [length]. destruct (strstr _ _); cbn; [f_equal; lia|done].
    + by apply plain_no_quote.
    + congruence.
    + by apply ends_chr.
  - apply strstr_no_quote. by apply fmt_u_no_quote.
  - apply strstr_no_quote. by repeat constructor.
  - apply strstr_no_quote. by repeat constructor.
Qed.

Definition member_ok (m : bytes * json_value) : Prop := Forall plain m.1 /\ value_ok m.2.

(** The quoted key of another member, up to its value. *)
Lemma strstr_member_key k rest :
  Forall plain k -> k <> key ->
  strstr (34 :: k ++ 34 :: 58 :: rest) (pattern key)
  = (fun n => (length k + 3 + n)%nat) <$> strstr rest (pattern key).
Proof.
  intros Hk Hne. rewrite strstr_quoted; [|by apply plain_no_quote|done|done].
  change (58 :: rest) with ([58] ++ rest). rewrite strstr_no_quote by (by repeat constructor).
  destruct (strstr _ _); cbn; [f_equal; lia|done].
Qed.

Lemma strstr_member m rest :
  member_ok m -> m.1 <> key -> m.2 <> JString key -> ends rest ->
  strstr (print_member m ++ rest) (pattern key)
  = (fun n => (length (print_member m) + n)%nat) <$> strstr rest (pattern key).
Proof.
  intros [Hk Hv] Hne Hnv Hr. unfold print_member. rewrite <-app_comm_cons, <-app_assoc. cbn [app].
  rewrite strstr_member_key, strstr_value by done. cbn [length]. rewrite length_app. cbn [length].
  destruct (strstr _ _); cbn; [f_equal; lia|done].
Qed.

Lemma print_members_cons m ms :
  print_members (m :: ms) = print_member m ++ match ms with [] => [] | _ => 44 :: print_members ms end.
Proof. destruct ms; cbn [print_members]; [by rewrite app_nil_r|done]. Qed.

(** The text behind the first member. *)
Definition behind (ms : list (bytes * json_value)) (t : bytes) : bytes :=
  match ms with [] => t | _ => 44 :: print_members ms ++ t end.

Lemma print_members_app m ms t : print_members (m :: ms) ++ t = print_member m ++ behind ms t.
Proof. rewrite print_members_cons. destruct ms; cbn [behind]; by rewrite <-app_assoc. Qed.

Lemma behind_ends ms t : ends t -> ends (behind ms t).
Proof. destruct ms; [done|]. intros _. eexists. by left. Qed.

(** The first occurrence of the pattern is the member's key. *)
Lemma strstr_members pre v post t :
  Forall member_ok pre -> Forall (fun m => m.1 <> key /\ m.2 <> JString key) pre -> ends t ->
  exists k, strstr (print_members (pre ++ (key, v) :: post) ++ t) (pattern key) = Some k
    /\ drop k (print_members (pre ++ (key, v) :: post) ++ t) = print_member (key, v) ++ behind post t.
Proof.
  intros Hok Hne Ht. induction pre as [|m pre IH]; cbn [app].
  - exists 0%nat. rewrite print_members_app. split; [|done].
    unfold print_member. cbn [fst snd]. rewrite pattern_key.
    replace ((34 :: key ++ 34 :: 58 :: print_value v) ++ behind post t)
      with ((34 :: key ++ [34]) ++ 58 :: print_value v ++ behind post t); [apply strstr_here|].
    cbn. by rewrite <-!app_assoc.
  - apply list.Forall_cons in Hok as [Hm Hok]. apply list.Forall_cons in Hne as [[Hk Hv] Hne].
    destruct (IH Hok Hne) as (k & E & D). rewrite print_members_app.
    set (ms := pre ++ (key, v) :: post) in *. assert (behind ms t = [44] ++ (print_members ms ++ t)) as Eb.
    { unfold ms. by destruct pre. }
    exists (length (print_member m) + (1 + k))%nat. split.
    + rewrite strstr_member by (done || by apply behind_ends). rewrite Eb, strstr_no_quote, E by (by repeat constructor).
      done.
    + rewrite Eb, <-!drop_drop, drop_app_length. cbn [app drop]. exact D.
Qed.
End search.

(** ** Reading a member *)

Lemma copy_string_plain s rest a b :
  Forall plain s -> (length s < length b)%nat ->
  copy_string (s ++ 34 :: rest) (length (a ++ b)) (length a) (a ++ b)
  = (a ++ s ++ 0 :: drop (S (length s)) b, true).
Proof.
  revert a b. induction s as [|c s IH]; intros a b Hs Hl; cbn [app copy_string length] in *.
  - destruct b as [|x b]; [cbn in Hl; lia|]. rewrite Z.eqb_refl.
    rewrite insert_app_r_alt, Nat.sub_diag by lia. done.
  - apply list.Forall_cons in Hs as [(Hc & Hq & Hb) Hs]. destruct b as [|x b]; cbn in Hl; [lia|].
    rewrite (proj2 (Z.eqb_neq c 34)), (proj2 (Z.eqb_neq c 92)), (proj2 (Z.ltb_ge c 32)) by lia.
    rewrite (proj2 (Nat.leb_gt _ _)) by (rewrite length_app; cbn; lia). cbn [orb].
    specialize (IH (a ++ [c]) b Hs ltac:(lia)). rewrite insert_app_r_alt, Nat.sub_diag by lia.
    cbn [insert list_insert]. rewrite !length_app, <-!app_assoc in IH. cbn [app length] in IH.
    rewrite length_app. cbn [length]. replace (S (length a)) with (length a + 1)%nat by lia.
    replace (length a + S (length b))%nat with (length a + 1 + length b)%nat by lia. exact IH.
Qed.

(** The text from the member's key on. *)
Lemma member_found pre key v post :
  key_ok key -> Forall member_ok pre -> Forall (fun m => m.1 <> key /\ m.2 <> JString key) pre ->
  exists k rest, strstr (print_object (pre ++ (key, v) :: post)) (pattern key) = Some k
    /\ drop (k + length (pattern key)) (print_object (pre ++ (key, v) :: post)) = 58 :: print_value v ++ rest
    /\ ends rest.
Proof.
  intros Hkey Hok Hne. unfold print_object.
  assert (ends [125]) as He by (exists []; by right).
  destruct (strstr_members key Hkey pre v post [125] Hok Hne He) as (k & E & D).
  exists (S k), (behind post [125]). split_and!; [| |by apply behind_ends].
  - rewrite (app_comm_cons _ [125] 123), <-app_comm_cons.
    change (123 :: print_members (pre ++ (key, v) :: post) ++ [125])
      with ([123] ++ (print_members (pre ++ (key, v) :: post) ++ [125])).
    by rewrite (strstr_no_quote key Hkey), E by (by repeat constructor).
  - cbn [Nat.add drop]. rewrite <-drop_drop, D, (pattern_key key Hkey). unfold print_member. cbn [fst snd length].
    rewrite length_app. cbn [length app drop]. rewrite <-app_assoc.
    rewrite drop_app_ge by lia. by replace (length key + 1 - length key)%nat with 1%nat by lia.
Qed.

Lemma after_colon_found pre key v post :
  key_ok key -> Forall member_ok pre -> Forall (fun m => m.1 <> key /\ m.2 <> JString key) pre ->
  value_ok v -> exists rest, after_colon (print_object (pre ++ (key, v) :: post)) key = Some (print_value v ++ rest) /\ ends rest.
Proof.
  intros Hkey Hok Hne Hv. destruct (member_found pre key v post Hkey Hok Hne) as (k & rest & E & D & He).
  exists rest. split; [|done]. unfold after_colon. rewrite E, D.
  change (strchr (58 :: print_value v ++ rest) 58) with (Some 0%nat). cbn [drop]. f_equal.
  destruct v as [s|n|[]]; try done. cbn [print_value value_ok] in *. unfold fmt_u.
  destruct (dec_digits_chr 10 n) as (d & r & -> & Hd); [word|lia|].
  unfold skip_blank. cbn [app skip_while]. destruct (isblank (48 + d)) eqn:Eb; [unfold isblank in Eb; lia|].
  rewrite drop_0. cbn [skip_while]. by rewrite Eb.
Qed.

(** What the readers are asked for, in terms of the object. *)
Definition reads (json key out : bytes) (v : json_value) : Prop :=
  match v with
  | JString s => (length s < length out)%nat ->
      exists out', apiService_JsonString json key out = (out', true) /\ cstr out' = s /\ length out' = length out
  | JNumber n => apiService_JsonNumber json key = Some n
  | JBool b => apiService_JsonBoolean json key = Some (Z.b2z b)
  end.

(** C38. The readers of request members return what the request says: in a flat
    object with distinct keys and strings that need no escape, with 32-bit numbers
    and booleans, its members in any order, asking for a member (by a key of 1 to
    37 lower-case letters and underscores) yields its value, a string when it fits
    the output array, provided no member has a string value spelled like the key;
    [json_value_taken_for_key] is what happens otherwise. *)
Theorem json_reads_members ms key v out :
  key_ok key -> Forall member_ok ms -> NoDup (map fst ms) -> Forall (fun m => m.2 <> JString key) ms ->
  (key, v) ∈ ms -> reads (print_object ms) key out v.
Proof.
  intros Hkey Hok Hnd Hns Hin. apply list_elem_of_split in Hin as (pre & post & ->).
  apply Forall_app in Hok as [Hok [[_ Hv] _]%list.Forall_cons]. cbn [snd] in Hv.
  apply Forall_app in Hns as [Hns _].
  assert (Forall (fun m => m.1 <> key /\ m.2 <> JString key) pre) as Hpre.
  { apply list.Forall_forall. intros m Hm. split; [|by eapply (proj1 (list.Forall_forall _ _) Hns)]. intros E.
    rewrite map_app in Hnd. apply list.NoDup_app in Hnd as (_ & Hd & _). apply (Hd key); [|cbn; left].
    apply list_elem_of_fmap. by exists m. }
  destruct v as [s|n|b]; cbn [reads].
  - intros Hl. destruct (member_found pre key (JString s) post Hkey Hok Hpre) as (k & rest & E & D & _).
    unfold apiService_JsonString. rewrite E, D. cbn. rewrite <-app_assoc. cbn [app].
    pose proof (copy_string_plain s rest [] out Hv Hl) as Ec. cbn [app length] in Ec. rewrite Ec.
    eexists. split; [done|].
    split; [apply cstr_app_0; eapply Forall_impl; [|exact Hv]; unfold plain; lia|].
    rewrite length_app. cbn. rewrite length_drop. lia.
  - destruct (after_colon_found pre key (JNumber n) post Hkey Hok Hpre Hv) as (rest & E & He).
    unfold apiService_JsonNumber. rewrite E. cbn [print_value].
    rewrite strtoul_fmt_u; [by rewrite u32_id|done|by apply ends_chr].
  - destruct (after_colon_found pre key (JBool b) post Hkey Hok Hpre Hv) as (rest & E & He).
    unfold apiService_JsonBoolean. rewrite E. by destruct b.
Qed.

(** Looking for a member that is not there, or that is. *)
Section has_key.
Context (key : bytes) (Hkey : key_ok key).

Lemma has_key_skip fuel a b :
  strstr (a ++ b) (pattern key) = (fun n => (length a + n)%nat) <$> strstr b (pattern key) ->
  has_key fuel (a ++ b) (pattern key) = has_key fuel b (pattern key).
Proof.
  intros E. destruct fuel as [|fuel]; [done|]. cbn [has_key]. rewrite E.
  destruct (strstr b (pattern key)) as [k|]; [|done]. cbn [fmap option_fmap option_map].
  by rewrite <-Nat.add_assoc, <-drop_drop, drop_app_length.
Qed.

(** The first occurrence is at the front. *)
Lemma has_key_front fuel rest :
  has_key (S fuel) (34 :: key ++ 34 :: rest) (pattern key)
  = if chr (skip_while json_space rest) =? 58 then true else has_key fuel rest (pattern key).
Proof.
  cbn [has_key]. replace (34 :: key ++ 34 :: rest) with (pattern key ++ rest).
  - rewrite strstr_here. cbn [Nat.add]. by rewrite drop_app_length.
  - rewrite (pattern_key key Hkey). cbn. by rewrite <-app_assoc.
Qed.

Lemma has_key_value fuel v rest :
  value_ok v -> ends rest -> (length (print_value v ++ rest) < fuel)%nat ->
  exists fuel', (length rest < fuel')%nat
    /\ has_key fuel (print_value v ++ rest) (pattern key) = has_key fuel' rest (pattern key).
Proof.
  intros Hv He Hf. rewrite length_app in Hf.
  destruct (decide (v = JString key)) as [->|Hne].
  - destruct fuel as [|fuel]; [lia|]. exists fuel. cbn [print_value length] in *. split; [lia|].
    rewrite <-app_comm_cons, <-app_assoc. cbn [app]. rewrite has_key_front.
    by destruct He as [t [->| ->]].
  - exists fuel. split; [lia|]. apply has_key_skip. by apply strstr_value.
Qed.

Lemma has_key_members ms t fuel :
  Forall member_ok ms -> ends t -> (length (print_members ms ++ t) < fuel)%nat ->
  exists fuel', (length t < fuel')%nat /\ has_key fuel (print_members ms ++ t) (pattern key)
    = bool_decide (key ∈ map fst ms) || has_key fuel' t (pattern key).
Proof.
  revert fuel. induction ms as [|m ms IH]; intros fuel Hok Ht Hf.
  { by exists fuel. }
  apply list.Forall_cons in Hok as [[Hk Hv] Hok]. rewrite print_members_app in *.
  unfold print_member in *. rewrite <-app_comm_cons, <-app_assoc in *. cbn [app] in *.
  destruct (decide (m.1 = key)) as [E|Hne].
  { rewrite E in *. destruct fuel as [|fuel]; [lia|]. exists (S (length t)). split; [lia|].
    rewrite has_key_front. cbn [chr nth skip_while json_space Z.eqb orb].
    rewrite bool_decide_eq_true_2; [done|]. cbn. rewrite E. left. }
  assert (34 :: m.1 ++ 34 :: 58 :: print_value m.2 ++ behind ms t
          = (34 :: m.1 ++ [34; 58]) ++ print_value m.2 ++ behind ms t) as Et by (cbn; by rewrite <-app_assoc).
  assert (has_key fuel (34 :: m.1 ++ 34 :: 58 :: print_value m.2 ++ behind ms t) (pattern key)
          = has_key fuel (print_value m.2 ++ behind ms t) (pattern key)) as ->.
  { rewrite Et. apply has_key_skip. rewrite <-Et, (strstr_member_key key Hkey) by done. cbn [length].
    rewrite length_app. cbn [length]. destruct (strstr _ _); cbn; [f_equal; lia|done]. }
  rewrite Et, length_app in Hf.
  destruct (has_key_value fuel m.2 (behind ms t) Hv (behind_ends _ _ Ht) ltac:(lia)) as (fuel' & Hf' & ->).
  assert (bool_decide (key ∈ map fst (m :: ms)) = bool_decide (key ∈ map fst ms)) as ->.
  { apply bool_decide_ext. cbn. rewrite elem_of_cons. split; [intros [?|?]; [congruence|done]|by right]. }
  destruct ms as [|m' ms]; [by exists fuel'|]. cbn [behind length] in *.
  destruct (IH fuel' Hok Ht ltac:(lia)) as (fuel2 & Hf2 & IH'). exists fuel2. split; [done|]. rewrite <-IH'.
  apply (has_key_skip _ [44]). apply (strstr_no_quote key Hkey). by repeat constructor.
Qed.
End has_key.

(** [apiService_JsonHasKey] decides whether an object has a member: in any
    flat object of plain strings, numbers and booleans it answers whether the
    key is among the keys, also when values are spelled like the key. *)
Lemma json_has_key_exact ms key :
  key_ok key -> Forall member_ok ms ->
  apiService_JsonHasKey (print_object ms) key = bool_decide (key ∈ map fst ms).
Proof.
  intros Hkey Hok. unfold apiService_JsonHasKey, print_object.
  set (text := print_members ms ++ [125]).
  transitivity (has_key (S (length (123 :: text))) text (pattern key)).
  { apply (has_key_skip key _ [123]), (strstr_no_quote key Hkey). by repeat constructor. }
  destruct (has_key_members key Hkey ms [125] (S (length (123 :: text))) Hok) as (fuel & Hf & E);
    [exists []; by right|cbn; unfold text; lia|]. fold text in E. rewrite E.
  destruct fuel as [|fuel]; [cbn in Hf; lia|]. cbn [has_key].
  assert (strstr [125] (pattern key) = None) as ->; [|by rewrite orb_false_r].
  rewrite (pattern_key key Hkey). done.
Qed.

(** ** Writing a string *)

(** The JSON encoding of a string without control characters, and its
    inverse. *)
Definition escape (s : bytes) : bytes := concat (map (fun c => if (c =? 34) || (c =? 92) then [92; c] else [c]) s).

Fixpoint unescape (s : bytes) : bytes :=
  match s with
  | [] => []
  | c :: s => if c =? 92 then match s with [] => [] | d :: s => d :: unescape s end else c :: unescape s
  end.

Lemma unescape_escape s : unescape (escape s) = s.
Proof.
  induction s as [|c s IH]; [done|]. unfold escape in *. cbn [map concat].
  destruct (Z.eqb_spec c 34) as [->|]; [cbn; by rewrite IH|].
  destruct (Z.eqb_spec c 92) as [->|H]; cbn [orb app unescape]; [cbn; by rewrite IH|].
  rewrite (proj2 (Z.eqb_neq c 92)) by done. by rewrite IH.
Qed.

Definition printable (s : bytes) : bool := forallb (fun c => 32 <=? c) s.

Lemma escape_cons c s : escape (c :: s) = (if (c =? 34) || (c =? 92) then [92; c] else [c]) ++ escape s.
Proof. done. Qed.

Lemma append_loop_spec capacity text value :
  (length text < capacity)%nat ->
  append_loop capacity text value
  = if decide (printable value = true /\ (length (text ++ escape value) < capacity)%nat)
    then Some (text ++ escape value) else None.
Proof.
  revert text. induction value as [|c value IH]; intros text Hl; cbn [append_loop].
  { rewrite app_nil_r. by rewrite decide_True. }
  rewrite escape_cons. unfold printable in *. cbn [forallb].
  destruct (Z.ltb_spec c 32) as [Hc|Hc].
  { rewrite decide_False; [done|]. rewrite (proj2 (Z.leb_gt 32 c)) by done. by intros [? _]. }
  rewrite (proj2 (Z.leb_le 32 c)) by done. cbn [andb].
  assert (forall e, (length (text ++ e ++ escape value) < capacity)%nat -> (length (text ++ e) < capacity)%nat) as Hm.
  { intros e. rewrite !length_app. lia. }
  destruct ((c =? 34) || (c =? 92)).
  - destruct (Nat.leb_spec (capacity - length text) 2) as [H|H].
    + rewrite decide_False; [done|]. intros [_ Hx%Hm]. rewrite length_app in Hx. cbn in Hx. lia.
    + rewrite IH by (rewrite length_app; cbn; lia). by rewrite <-app_assoc.
  - destruct (Nat.leb_spec (capacity - length text) 1) as [H|H].
    + rewrite decide_False; [done|]. intros [_ Hx%Hm]. rewrite length_app in Hx. cbn in Hx. lia.
    + rewrite IH by (rewrite length_app; cbn; lia). by rewrite <-app_assoc.
Qed.

(** [apiService_AppendJsonString] writes a string that can be read back,
    inside its buffer: with room for a terminator to start with it succeeds
    exactly when the value has no control characters and its encoding fits
    with a terminator, and then the text is extended by an encoding that
    decodes to the value. *)
Lemma json_append_exact capacity text value :
  (length text < capacity)%nat ->
  match apiService_AppendJsonString capacity text value with
  | Some text' => printable value = true /\ (length text' < capacity)%nat
      /\ exists e, text' = text ++ e /\ unescape e = value /\ Forall (fun c => c <> 0) e
  | None => printable value = false \/ (capacity <= length (text ++ escape value))%nat
  end.
Proof.
  intros Hl. unfold apiService_AppendJsonString. rewrite (proj2 (Nat.leb_gt _ _)) by done.
  rewrite append_loop_spec by done. case_decide as Hd.
  - destruct Hd as [Hp Hd]. split_and!; [done|done|]. exists (escape value). split_and!; [done|apply unescape_escape|].
    clear -Hp. induction value as [|c v IH]; [constructor|].
    unfold printable in *. cbn in Hp. apply andb_true_iff in Hp as [Hc Hp]. rewrite escape_cons.
    apply Forall_app_2; [|by apply IH]. destruct (_ || _); repeat constructor; lia.
  - destruct (printable value); [right|by left]. destruct (Nat.le_gt_cases capacity (length (text ++ escape value))); [done|].
    destruct Hd. done.
Qed.

(** ** Outside of the documented form *)

(** A value spelled like a key is taken for the key: in this object the
    member [port] is 8443, and the reader answers with the trust anchor. *)
Lemma json_value_taken_for_key :
  apiService_JsonNumber (quoted "{'host':'port','trust_anchor_id':2,'port':8443}") (str "port") = Some 2
  /\ apiService_JsonHasKey (quoted "{'host':'port','trust_anchor_id':2,'port':8443}") (str "port") = true.
Proof. split; vm_compute; reflexivity. Qed.

(** A string that is refused for an escape has overwritten the start of the
    output array. *)
Lemma copy_string_refused s rest a b :
  Forall plain s -> (length s < length b)%nat ->
  copy_string (s ++ 92 :: rest) (length (a ++ b)) (length a) (a ++ b) = (a ++ s ++ drop (length s) b, false).
Proof.
  revert a b. induction s as [|c s IH]; intros a b Hs Hl; cbn [app copy_string length] in *.
  - destruct b as [|x b]; [cbn in Hl; lia|]. done.
  - apply list.Forall_cons in Hs as [(Hc & Hq & Hb) Hs]. destruct b as [|x b]; cbn in Hl; [lia|].
    rewrite (proj2 (Z.eqb_neq c 34)), (proj2 (Z.eqb_neq c 92)), (proj2 (Z.ltb_ge c 32)) by lia.
    rewrite (proj2 (Nat.leb_gt _ _)) by (rewrite length_app; cbn; lia). cbn [orb].
    specialize (IH (a ++ [c]) b Hs ltac:(lia)). rewrite insert_app_r_alt, Nat.sub_diag by lia.
    cbn [insert list_insert]. rewrite !length_app, <-!app_assoc in IH. cbn [app length] in IH.
    rewrite length_app. cbn [length]. replace (S (length a)) with (length a + 1)%nat by lia.
    replace (length a + S (length b))%nat with (length a + 1 + length b)%nat by lia. exact IH.
Qed.

(** ** Instances *)

Definition demo_members : list (bytes * json_value) :=
  [(str "host", JString (str "example.com")); (str "port", JNumber 8443); (str "enabled", JBool false)].

Lemma json_reads_members_witness : reads (print_object demo_members) (str "port") (zeros 64) (JNumber 8443).
Proof.
  apply (json_reads_members demo_members (str "port") (JNumber 8443) (zeros 64)).
  - split_and!; [done|cbn; lia|done].
  - unfold demo_members. repeat constructor; unfold plain, is_u32; cbn; lia.
  - unfold demo_members. apply (bool_decide_unpack _). vm_compute. done.
  - unfold demo_members. repeat constructor; done.
  - unfold demo_members. right. left.
Defined.

Lemma json_has_key_exact_witness :
  apiService_JsonHasKey (print_object demo_members) (str "path") = bool_decide (str "path" ∈ map fst demo_members).
Proof.
  apply (json_has_key_exact demo_members (str "path")).
  - split_and!; [done|cbn; lia|done].
  - unfold demo_members. repeat constructor; unfold plain, is_u32; cbn; lia.
Defined.

Lemma json_append_exact_witness :
  match apiService_AppendJsonString 8 (str "ab") (quoted "a'b") with
  | Some text' => printable (quoted "a'b") = true /\ (length text' < 8)%nat
      /\ exists e, text' = str "ab" ++ e /\ unescape e = quoted "a'b" /\ Forall (fun c => c <> 0) e
  | None => printable (quoted "a'b") = false \/ (8 <= length (str "ab" ++ escape (quoted "a'b")))%nat
  end.
Proof. apply (json_append_exact 8 (str "ab") (quoted "a'b")). cbn. lia. Defined.
