(* ===== verification/ApiRequest.v ===== *)
(** [apiService_ReadRequest] of [Srv/Src/api_service.c]: receiving one HTTPS
    request into a fixed buffer and taking it apart.

    The bytes of a request arrive in pieces of any size; the code searches the
    buffer again after each piece until the header is there, reads the content
    length, waits for the body and then extracts the method, the path and the
    bearer token.  The theorems: the outcome is that of a parser that sees the
    whole stream at once, so the pieces do not matter; a request that was
    accepted fits every array; a printed request is parsed back; and a peer
    that closes the connection early makes the function report success with a
    request it never wrote. *)
From S2P Require Import Prelude CString TrustStore AuthService Ssl.

Definition API_SERVICE_REQUEST_SIZE : nat := 2560.
Definition API_SERVICE_BODY_SIZE : nat := TLS_TRUST_STORE_MAX_DER_SIZE.

(** The [char] arrays as the strings they hold; [body] is the [bodyLength]
    bytes the body pointer designates. *)
Record ApiService_RequestTypeDef := Request {
  method : bytes;
  path : bytes;
  authorization : bytes;
  body : bytes;
}.

Definition bodyLength (r : ApiService_RequestTypeDef) : nat := length (body r).

Definition with_method (r : ApiService_RequestTypeDef) x := Request x (path r) (authorization r) (body r).
Definition with_path (r : ApiService_RequestTypeDef) x := Request (method r) x (authorization r) (body r).
Definition with_authorization (r : ApiService_RequestTypeDef) x := Request (method r) (path r) x (body r).
Definition with_body (r : ApiService_RequestTypeDef) x := Request (method r) (path r) (authorization r) x.

Definition apiService_FindHeaderEnd (request : bytes) : option nat := strstr request (crlf ++ crlf).

(** The [Content-Length] of a header: zero when there is none, [None] when it
    is refused. *)
Definition content_length (header : bytes) : option nat :=
  let lengthHeader :=
    match strstr header (crlf ++ str "Content-Length:") with
    | Some k => Some k
    | None => strstr header (crlf ++ str "content-length:")
    end in
  match lengthHeader with
  | None => Some 0%nat
  | Some k =>
      let value := skip_blank (drop (k + 17) header) in
      if negb (isdigit (chr value)) then None else
      match strtoul value with
      | None => None
      | Some (parsed, erange, rest) =>
          let rest := skip_blank rest in
          if erange || (negb (chr rest =? 13) && negb (chr rest =? 0)) || (Z.of_nat API_SERVICE_BODY_SIZE <? parsed)
          then None else Some (Z.to_nat parsed)
      end
  end.

(** The conversion [%<width>s]: white space, then at most [width] other
    characters, at least one. *)
Fixpoint scan_word (width : nat) (s : bytes) : bytes * bytes :=
  match s, width with
  | c :: s', S width => if isspace c then ([], s) else let '(w, r) := scan_word width s' in (c :: w, r)
  | _, _ => ([], s)
  end.

Definition scan_s (width : nat) (s : bytes) : option (bytes * bytes) :=
  let '(w, r) := scan_word width (skip_space s) in if (length w =? 0)%nat then None else Some (w, r).

(** [while ((end > value) && blank(end[-1])) --end] *)
Definition trim_end (s : bytes) : bytes := rev (skip_blank (rev s)).

(** The loop over the header lines; [None] when the token is too long.  Every
    round consumes a line end, so the length of the header is fuel enough. *)
Fixpoint find_authorization (fuel : nat) (text : bytes) : option bytes :=
  match fuel with
  | O => Some []
  | S fuel =>
      match strstr text crlf with
      | None => Some []
      | Some k =>
          let line := drop (k + 2) text in
          if lwip_strnicmp line (str "Authorization:") 14 then
            let value := skip_blank (drop 14 line) in
            if negb (lwip_strnicmp value (str "Bearer") 6) || negb (isblank (chr (drop 6 value))) then Some [] else
            let value := skip_blank (drop 6 value) in
            let token := trim_end (match strstr value crlf with Some e => take e value | None => value end) in
            if (AUTH_SERVICE_TOKEN_TEXT_SIZE <=? length token)%nat then None else Some token
          else find_authorization fuel line
      end
  end.

Section read_request.
Context {T : Type} `{Ssl T}.
Context (MBEDTLS_ERR_SSL_BAD_INPUT_DATA : Z).
(** The size of the buffer. *)
Context (capacity : nat).

(** What the first sight of the header end decides: [None] refuses the
    request; otherwise the offset of the header end and the length of the
    body. *)
Definition frame (buffer : bytes) (headerEnd : nat) : option (nat * nat) :=
  match content_length (take headerEnd buffer) with
  | None => None
  | Some expected =>
      let requestLength := (headerEnd + 4)%nat in
      if (capacity <=? requestLength)%nat || (capacity - requestLength - 1 <? expected)%nat then None
      else Some (headerEnd, expected)
  end.

(** The receiving loop: the result of the function when it returns from
    inside, or the buffer, the header end and the body length.  [found] is
    [headerEnd] with [expected].  Every round adds a byte at least, so that the
    capacity is fuel enough. *)
Fixpoint receive (fuel : nat) (t : T) (buffer : bytes) (found : option (nat * nat)) :
    T * (Z + bytes * (nat * nat)) :=
  match fuel with
  | O => (t, inl MBEDTLS_ERR_SSL_BAD_INPUT_DATA)
  | S fuel =>
      if negb (length buffer <? capacity - 1)%nat then (t, inl MBEDTLS_ERR_SSL_BAD_INPUT_DATA) else
      let '(t, result, d) := mbedtls_ssl_read t (capacity - length buffer - 1) in
      if result <=? 0 then (t, inl result) else
      let buffer := buffer ++ take (Z.to_nat result) d in
      let headerEnd :=
        match found with
        | Some _ => Some found
        | None =>
            match apiService_FindHeaderEnd (cstr buffer) with
            | None => Some None
            | Some headerEnd => Some <$> frame buffer headerEnd
            end
        end in
      match headerEnd with
      | None => (t, inl MBEDTLS_ERR_SSL_BAD_INPUT_DATA)
      | Some None => receive fuel t buffer None
      | Some (Some (headerEnd, expected)) =>
          if (headerEnd + 4 + expected <=? length buffer)%nat then (t, inr (buffer, (headerEnd, expected)))
          else receive fuel t buffer (Some (headerEnd, expected))
      end
  end.

(** The part behind the loop. *)
Definition extract (buffer : bytes) (headerEnd expected : nat) (request : ApiService_RequestTypeDef) :
    Z * ApiService_RequestTypeDef :=
  let header := take headerEnd buffer in
  match scan_s 7 header with
  | None => (MBEDTLS_ERR_SSL_BAD_INPUT_DATA, request)
  | Some (m, rest) =>
      let request := with_method request m in
      match scan_s 79 (skip_space rest) with
      | None => (MBEDTLS_ERR_SSL_BAD_INPUT_DATA, request)
      | Some (p, _) =>
          let request := with_authorization (with_path request p) [] in
          match find_authorization (length header) header with
          | None => (MBEDTLS_ERR_SSL_BAD_INPUT_DATA, request)
          | Some token =>
              (0, with_body (with_authorization request token) (take expected (drop (headerEnd + 4) buffer)))
          end
      end
  end.

(** [request] is what the structure held before the call. *)
Definition apiService_ReadRequest (t : T) (request : ApiService_RequestTypeDef) :
    T * Z * ApiService_RequestTypeDef :=
  match receive capacity t [] None with
  | (t, inl result) => (t, result, request)
  | (t, inr (buffer, (headerEnd, expected))) =>
      let '(result, request) := extract buffer headerEnd expected request in (t, result, request)
  end.
End read_request.

(** ** Reference: the whole stream at once *)

(** What a stream is as far as the buffer can see it: refused, a request with
    the given header end and body length, or the beginning of one. *)
Inductive framing := Refused | Framed (headerEnd expected : nat) | Waiting.

Definition classify (capacity : nat) (stream : bytes) : framing :=
  let buffer := take (capacity - 1) stream in
  let more := if (length buffer <? capacity - 1)%nat then Waiting else Refused in
  match apiService_FindHeaderEnd (cstr buffer) with
  | None => more
  | Some headerEnd =>
      match frame capacity buffer headerEnd with
      | None => Refused
      | Some (_, expected) =>
          if (headerEnd + 4 + expected <=? length buffer)%nat then Framed headerEnd expected else more
      end
  end.

(** A session with a known stream of application data still to come, delivered
    in pieces of any positive size. *)
Class SslStream (T : Type) `{Ssl T} := {
  pending : T -> bytes;
  read_pending : forall t n, (0 < n)%nat -> pending t <> [] ->
    exists k t', (0 < k <= n)%nat /\ (k <= length (pending t))%nat
      /\ mbedtls_ssl_read t n = (t', Z.of_nat k, take k (pending t)) /\ pending t' = drop k (pending t);
}.

(** ** The receiving loop against the reference *)

Section framing.
Context {T : Type} `{SslStream T} (BAD_INPUT : Z) (capacity : nat).

Lemma find_stable b more he :
  apiService_FindHeaderEnd (cstr b) = Some he ->
  apiService_FindHeaderEnd (cstr (b ++ more)) = Some he /\ (he + 4 <= length b)%nat
  /\ take he (b ++ more) = take he b.
Proof.
  unfold apiService_FindHeaderEnd. intros E. pose proof (strstr_bound _ _ _ E) as Hb. cbn in Hb.
  destruct (cstr_app b more) as (c & -> & _). pose proof (length_cstr b).
  split_and!; [by apply strstr_app|lia|]. by rewrite take_app_le by lia.
Qed.

Lemma frame_stable b more he :
  (he <= length b)%nat -> frame capacity (b ++ more) he = frame capacity b he.
Proof. intros Hl. unfold frame. by rewrite take_app_le by done. Qed.

Lemma frame_spec b he he' ex :
  frame capacity b he = Some (he', ex) ->
  he' = he /\ (he + 4 + ex < capacity)%nat /\ content_length (take he b) = Some ex.
Proof.
  unfold frame. destruct (content_length _) as [n|]; [|done].
  destruct (Nat.leb_spec capacity (he + 4)); [done|]. cbn [orb].
  destruct (Nat.ltb_spec (capacity - (he + 4) - 1) n); [done|]. intros E. injection E as <- <-.
  split_and!; [done|lia|done].
Qed.

(** What the loop knows of the buffer between two reads. *)
Definition loop_state (buffer : bytes) (found : option (nat * nat)) : Prop :=
  match found with
  | None => apiService_FindHeaderEnd (cstr buffer) = None
  | Some (he, ex) => apiService_FindHeaderEnd (cstr buffer) = Some he
      /\ frame capacity buffer he = Some (he, ex) /\ (length buffer < he + 4 + ex)%nat
  end.

Lemma classify_open buffer found :
  (length buffer <= capacity - 1)%nat -> loop_state buffer found ->
  classify capacity buffer = if (length buffer <? capacity - 1)%nat then Waiting else Refused.
Proof.
  intros Hl Hs. unfold classify. rewrite take_ge by lia. destruct found as [[he ex]|].
  - destruct Hs as (-> & -> & Hs). by rewrite (proj2 (Nat.leb_gt _ _)) by lia.
  - by rewrite Hs.
Qed.

(** The stream is decided once the header end has been seen. *)
Lemma classify_header b more he :
  (length b <= capacity - 1)%nat -> apiService_FindHeaderEnd (cstr b) = Some he ->
  match frame capacity b he with
  | None => classify capacity (b ++ more) = Refused
  | Some (_, ex) => (he + 4 + ex <= length b)%nat -> classify capacity (b ++ more) = Framed he ex
  end.
Proof.
  intros Hl E. unfold classify. rewrite take_app_ge by done. set (m := take _ more).
  destruct (find_stable b m he E) as (-> & Hb & _). rewrite frame_stable by lia.
  destruct (frame capacity b he) as [[he' ex]|]; [|done]. intros Hx.
  by rewrite (proj2 (Nat.leb_le _ _)) by (rewrite length_app; lia).
Qed.

(** The outcome of the loop for each class of streams. *)
Definition loop_outcome (stream : bytes) (r : T * (Z + bytes * (nat * nat))) : Prop :=
  match classify capacity stream with
  | Refused => exists t', r = (t', inl BAD_INPUT)
  | Framed he ex => exists t' b more, r = (t', inr (b, (he, ex))) /\ stream = b ++ more
      /\ (he + 4 + ex <= length b)%nat
  | Waiting => exists t1 n t' z d, pending t1 = [] /\ mbedtls_ssl_read t1 n = (t', z, d)
      /\ (z <= 0 -> r = (t', inl z))
  end.

Lemma receive_outcome fuel t buffer found :
  (length buffer < capacity)%nat -> (capacity <= fuel + length buffer)%nat -> loop_state buffer found ->
  loop_outcome (buffer ++ pending t) (receive BAD_INPUT capacity fuel t buffer found).
Proof.
  revert t buffer found. induction fuel as [|fuel IH]; intros t buffer found Hc Hf Hs; [lia|].
  cbn [receive]. pose proof (classify_open buffer found ltac:(lia) Hs) as Hopen.
  destruct (Nat.ltb_spec (length buffer) (capacity - 1)) as [Hroom|Hfull]; cbn [negb].
  2: { unfold loop_outcome. assert (classify capacity (buffer ++ pending t) = Refused) as ->; [|by eexists].
       rewrite <-Hopen. unfold classify. by rewrite take_app_le by lia. }
  destruct (mbedtls_ssl_read t (capacity - length buffer - 1)) as [[t' z] d] eqn:Er.
  destruct (decide (pending t = [])) as [Hp|Hp].
  { unfold loop_outcome. rewrite Hp, app_nil_r, Hopen. exists t, (capacity - length buffer - 1)%nat, t', z, d.
    split_and!; [done|done|]. intros Hz. by rewrite (proj2 (Z.leb_le z 0)). }
  destruct (read_pending t (capacity - length buffer - 1) ltac:(lia) Hp) as (k & t2 & Hk & Hkp & Er2 & Hp2).
  rewrite Er in Er2. injection Er2 as -> -> ->. rewrite (proj2 (Z.leb_gt (Z.of_nat k) 0)) by lia.
  rewrite Nat2Z.id, take_take, Nat.min_id. set (b := buffer ++ take k (pending t)).
  assert (length b = (length buffer + k)%nat) as Hb by (unfold b; rewrite length_app, length_take; lia).
  assert (buffer ++ pending t = b ++ pending t2) as -> by (unfold b; by rewrite Hp2, <-app_assoc, take_drop).
  assert (forall he ex, apiService_FindHeaderEnd (cstr b) = Some he -> frame capacity b he = Some (he, ex) ->
    loop_outcome (b ++ pending t2)
      (if (he + 4 + ex <=? length b)%nat then (t2, inr (b, (he, ex))) else receive BAD_INPUT capacity fuel t2 b (Some (he, ex))))
    as Hfound.
  { intros he ex Ef Efr. destruct (Nat.leb_spec (he + 4 + ex) (length b)) as [Hd|Hd]; [|by apply IH; lia || done].
    pose proof (classify_header b (pending t2) he ltac:(lia) Ef) as Hcl. rewrite Efr in Hcl.
    unfold loop_outcome. rewrite (Hcl Hd). by exists t2, b, (pending t2). }
  destruct found as [[he ex]|].
  - destruct Hs as (Ef & Efr & _). destruct (find_stable buffer (take k (pending t)) he Ef) as (Ef' & Hl & _).
    apply Hfound; [done|]. unfold b. by rewrite frame_stable by lia.
  - destruct (apiService_FindHeaderEnd (cstr b)) as [he|] eqn:Ef; [|apply IH; [lia|lia|done]].
    destruct (frame capacity b he) as [[he' ex]|] eqn:Efr; cbn [fmap option_fmap option_map].
    + destruct (frame_spec _ _ _ _ Efr) as [-> _]. by apply Hfound.
    + pose proof (classify_header b (pending t2) he ltac:(lia) Ef) as Hcl. rewrite Efr in Hcl.
      unfold loop_outcome. rewrite Hcl. by eexists.
Qed.

Lemma extract_stable b more he ex r :
  (he + 4 + ex <= length b)%nat -> extract BAD_INPUT (b ++ more) he ex r = extract BAD_INPUT b he ex r.
Proof.
  intros Hl. unfold extract. rewrite take_app_le by lia. rewrite drop_app_le by lia.
  by rewrite (take_app_le (drop _ _)) by (rewrite length_drop; lia).
Qed.

(** C37. A request is received whatever the pieces it arrives in: on a session
    with a given stream of data to come, [apiService_ReadRequest] gives what a
    parser of the whole stream gives.  A stream that is refused or framed has
    that outcome for every way of cutting it into pieces, and one that is only
    the beginning of a request yields what the session reports at its end. *)
Theorem request_framing t request :
  (0 < capacity)%nat ->
  match classify capacity (pending t) with
  | Refused => exists t', apiService_ReadRequest BAD_INPUT capacity t request = (t', BAD_INPUT, request)
  | Framed he ex => exists t',
      apiService_ReadRequest BAD_INPUT capacity t request
      = (t', (extract BAD_INPUT (pending t) he ex request).1, (extract BAD_INPUT (pending t) he ex request).2)
  | Waiting => exists t1 n t' z d, pending t1 = [] /\ mbedtls_ssl_read t1 n = (t', z, d)
      /\ (z <= 0 -> apiService_ReadRequest BAD_INPUT capacity t request = (t', z, request))
  end.
Proof.
  intros Hc. pose proof (receive_outcome capacity t [] None ltac:(cbn; lia) ltac:(cbn; lia) eq_refl) as Ho.
  cbn [app] in Ho. unfold loop_outcome in Ho. unfold apiService_ReadRequest.
  destruct (classify capacity (pending t)) as [|he ex|].
  - destruct Ho as [t' ->]. by eexists.
  - destruct Ho as (t' & b & more & -> & -> & Hl). exists t'. rewrite extract_stable by done.
    by destruct (extract _ _ _ _ _).
  - destruct Ho as (t1 & n & t' & z & d & Hp & Er & Hz). exists t1, n, t', z, d. split_and!; [done|done|].
    intros Hle. by rewrite (Hz Hle).
Qed.
End framing.

(** ** Sizes *)

(** The request fits the arrays of [ApiService_RequestTypeDef] and the body
    buffer. *)
Definition request_fits (r : ApiService_RequestTypeDef) : Prop :=
  (1 <= length (method r) <= 7)%nat /\ (1 <= length (path r) <= 79)%nat
  /\ (length (authorization r) < AUTH_SERVICE_TOKEN_TEXT_SIZE)%nat
  /\ (bodyLength r <= API_SERVICE_BODY_SIZE)%nat.

Lemma scan_word_length width s : (length (scan_word width s).1 <= width)%nat.
Proof.
  revert s. induction width as [|w IH]; intros [|c s]; cbn; try lia.
  destruct (isspace c); cbn; [lia|]. specialize (IH s). destruct (scan_word w s). cbn in *. lia.
Qed.

Lemma scan_s_length width s w r : scan_s width s = Some (w, r) -> (1 <= length w <= width)%nat.
Proof.
  unfold scan_s. pose proof (scan_word_length width (skip_space s)) as H. destruct (scan_word _ _) as [w' r'].
  cbn in H. destruct (Nat.eqb_spec (length w') 0); [done|]. intros E. injection E as <- <-. lia.
Qed.

Lemma find_authorization_length fuel text a :
  find_authorization fuel text = Some a -> (length a < AUTH_SERVICE_TOKEN_TEXT_SIZE)%nat.
Proof.
  assert (length (@nil Z) < AUTH_SERVICE_TOKEN_TEXT_SIZE)%nat as H0 by (cbn; unfold AUTH_SERVICE_TOKEN_TEXT_SIZE; lia).
  revert text. induction fuel as [|fuel IH]; intros text; cbn [find_authorization]; [by intros [= <-]|].
  destruct (strstr text crlf); [|by intros [= <-]].
  destruct (lwip_strnicmp _ (str "Authorization:") 14); [|apply IH].
  destruct (_ || _); [by intros [= <-]|].
  match goal with |- context [(_ <=? ?n)%nat] => destruct (Nat.leb_spec AUTH_SERVICE_TOKEN_TEXT_SIZE n) end; [done|].
  by intros [= <-].
Qed.

Lemma content_length_bound h n : content_length h = Some n -> (n <= API_SERVICE_BODY_SIZE)%nat.
Proof.
  unfold content_length.
  destruct (match strstr h _ with Some k => Some k | None => _ end) as [k|]; [|by intros [= <-]; lia].
  destruct (negb _); [done|]. destruct (strtoul _) as [[[v e] rest]|]; [|done].
  destruct (Z.ltb_spec (Z.of_nat API_SERVICE_BODY_SIZE) v); [by rewrite orb_true_r|].
  destruct (_ || _); [done|]. intros [= <-]. lia.
Qed.

Section bounds.
Context {T : Type} `{SslLaws T} (BAD_INPUT : Z) (capacity : nat).

(** Where the receiving loop can end. *)
Lemma receive_ends fuel t buffer found t' r :
  (forall he ex, found = Some (he, ex) -> (ex <= API_SERVICE_BODY_SIZE)%nat) ->
  receive BAD_INPUT capacity fuel t buffer found = (t', r) ->
  match r with
  | inl z => z = BAD_INPUT \/ exists t1 n d, mbedtls_ssl_read t1 n = (t', z, d) /\ z <= 0
  | inr (_, (_, ex)) => (ex <= API_SERVICE_BODY_SIZE)%nat
  end.
Proof.
  revert t buffer found. induction fuel as [|fuel IH]; intros t buffer found Hf; cbn [receive].
  { intros [= <- <-]. by left. }
  destruct (negb _); [intros [= <- <-]; by left|].
  destruct (mbedtls_ssl_read _ _) as [[t1 z] d] eqn:Er. destruct (Z.leb_spec z 0).
  { intros [= <- <-]. right. eauto. }
  set (b := buffer ++ _). destruct found as [[he ex]|].
  - specialize (Hf he ex eq_refl). destruct (_ <=? _)%nat; [by intros [= <- <-]|]. apply IH. by intros ? ? [= <- <-].
  - destruct (apiService_FindHeaderEnd _) as [he|]; [|apply IH; done].
    destruct (frame capacity b he) as [[he' ex]|] eqn:Efr; cbn [fmap option_fmap option_map]; [|intros [= <- <-]; by left].
    apply frame_spec in Efr as (_ & _ & Hx%content_length_bound).
    destruct (_ <=? _)%nat; [by intros [= <- <-]|]. apply IH. by intros ? ? [= <- <-].
Qed.

(** A request that was accepted fits: after a successful
    [apiService_ReadRequest] the method, the path and the token are terminated
    inside their arrays and the body is at most 2048 bytes; the one exception
    is a session whose read reported zero, and then the structure is exactly
    what it was before the call. *)
Lemma request_bounds t request t' r :
  BAD_INPUT < 0 -> apiService_ReadRequest BAD_INPUT capacity t request = (t', 0, r) ->
  request_fits r \/ (r = request /\ exists t1 n d, mbedtls_ssl_read t1 n = (t', 0, d)).
Proof.
  intros Hbad. unfold apiService_ReadRequest.
  destruct (receive _ _ _ _ _ _) as [t1 o] eqn:Er. apply receive_ends in Er; [|done].
  destruct o as [z|[b [he ex]]].
  - intros [= -> -> ->]. right. destruct Er as [Hz|(t1 & n & d & Er & _)]; [lia|]. eauto.
  - unfold extract. destruct (scan_s 7 _) as [[m rest]|] eqn:Em; [|intros [= _ Hz _]; lia].
    destruct (scan_s 79 _) as [[p rest']|] eqn:Ep; [|intros [= _ Hz _]; lia].
    destruct (find_authorization _ _) as [a|] eqn:Ea; [|intros [= _ Hz _]; lia].
    intros [= -> <-]. left. unfold request_fits, bodyLength. cbn.
    split_and!; [by eapply scan_s_length..|by eapply find_authorization_length|].
    rewrite length_take. lia.
Qed.

(** A peer that closes the connection before it has sent a request makes
    [apiService_ReadRequest] report success: Mbed TLS reports the end of the
    stream as zero, the function returns that zero, and the request structure
    is whatever the stack held. *)
Lemma eof_accepts_stale_request t request t' d :
  (1 < capacity)%nat -> mbedtls_ssl_read t (capacity - 1) = (t', 0, d) ->
  apiService_ReadRequest BAD_INPUT capacity t request = (t', 0, request).
Proof.
  intros Hc Er. unfold apiService_ReadRequest. destruct capacity as [|c]; [lia|]. cbn [receive length].
  rewrite (proj2 (Nat.ltb_lt 0 (S c - 1))) by lia. cbn [negb].
  replace (S c - 0 - 1)%nat with (S c - 1)%nat by lia. by rewrite Er.
Qed.
End bounds.

(** ** A printed request *)

(** A printable character that is not a blank. *)
Definition graphic (c : Z) : Prop := 33 <= c <= 126.

(** The lines of the header of a request with a bearer token and a body. *)
Definition request_line (m p : bytes) : bytes := m ++ str " " ++ p ++ str " HTTP/1.1".
Definition host_line (h : bytes) : bytes := str "Host: " ++ h.
Definition authorization_line (token : bytes) : bytes := str "Authorization: Bearer " ++ token.
Definition length_line (b : bytes) : bytes := str "Content-Length: " ++ fmt_u (Z.of_nat (length b)).

Definition print_header (h : bytes) (r : ApiService_RequestTypeDef) : bytes :=
  request_line (method r) (path r) ++ crlf ++ host_line h ++ crlf
  ++ authorization_line (authorization r) ++ crlf ++ length_line (body r).

Definition print_request (h : bytes) (r : ApiService_RequestTypeDef) : bytes :=
  print_header h r ++ crlf ++ crlf ++ body r.

(** The request can be printed: its words are graphic, and it is within the
    limits. *)
Definition printable_request (h : bytes) (r : ApiService_RequestTypeDef) : Prop :=
  Forall graphic h /\ Forall graphic (method r) /\ Forall graphic (path r) /\ Forall graphic (authorization r)
  /\ authorization r <> [] /\ request_fits r.

Abbreviation no_cr := (Forall (fun c => c <> 13)).

Lemma graphic_no_cr s : Forall graphic s -> no_cr s.
Proof. apply Forall_impl. unfold graphic. lia. Qed.

Lemma graphic_no_space s : Forall graphic s -> Forall (fun c => isspace c = false) s.
Proof. apply Forall_impl. unfold graphic, isspace. lia. Qed.

Lemma dec_digits_graphic fuel n : 0 <= n -> Forall graphic (dec_digits fuel n).
Proof.
  revert n. induction fuel as [|k IH]; intros n H; cbn [dec_digits]; [constructor|].
  destruct (Z.ltb_spec n 10); [repeat constructor; lia|].
  apply Forall_app_2; [apply IH; apply Z.div_pos; lia|].
  pose proof (Z.mod_pos_bound n 10). repeat constructor; lia.
Qed.

(** A search for a line end followed by [n], line by line. *)
Lemma strstr_line l rest n :
  no_cr l ->
  strstr (l ++ crlf ++ rest) (crlf ++ n)
  = if starts_with n rest then Some (length l)
    else (fun k => (length l + (2 + k))%nat) <$> strstr rest (crlf ++ n).
Proof.
  intros Hl. cbn [crlf app]. rewrite strstr_skip_absent by done. cbn [strstr starts_with]. rewrite !Z.eqb_refl.
  cbn [andb]. destruct (starts_with n rest); [cbn; f_equal; lia|]. cbn [Z.eqb andb].
  destruct (strstr rest _); cbn; done.
Qed.

Lemma strstr_crlf l rest : no_cr l -> strstr (l ++ crlf ++ rest) crlf = Some (length l).
Proof. apply (strstr_line l rest []). Qed.

Lemma drop_line (l rest : bytes) k : drop (length l + (2 + k)) (l ++ crlf ++ rest) = drop k rest.
Proof.
  rewrite drop_app_ge by lia. by replace (length l + (2 + k) - length l)%nat with (2 + k)%nat by lia.
Qed.

Lemma strstr_last_line l n : no_cr l -> strstr l (crlf ++ n) = None.
Proof. intros Hl. rewrite <-(app_nil_r l). cbn [crlf app]. by rewrite strstr_skip_absent by done. Qed.

Lemma skip_while_none p s : p (chr s) = false \/ s = [] -> skip_while p s = s.
Proof. intros [H| ->]; [|done]. destruct s as [|c s]; [done|]. cbn in *. by rewrite H. Qed.

Lemma scan_word_graphic width w rest :
  Forall graphic w -> (length w <= width)%nat -> isspace (chr rest) = true ->
  scan_word width (w ++ rest) = (w, rest).
Proof.
  revert width. induction w as [|c w IH]; intros width Hw Hl Hr; cbn [app].
  - destruct rest as [|d rest]; [done|]. cbn in Hr. destruct width; cbn; [done|]. by rewrite Hr.
  - apply list.Forall_cons in Hw as [Hc Hw]. cbn in Hl. destruct width as [|width]; [lia|]. cbn [scan_word].
    assert (isspace c = false) as -> by (unfold graphic, isspace in *; lia).
    by rewrite IH by (done || lia).
Qed.

Lemma scan_s_graphic width w rest :
  Forall graphic w -> (1 <= length w <= width)%nat -> isspace (chr rest) = true ->
  scan_s width (w ++ rest) = Some (w, rest).
Proof.
  intros Hw Hl Hr. unfold scan_s, skip_space. rewrite skip_while_none.
  - rewrite scan_word_graphic by (done || lia). by rewrite (proj2 (Nat.eqb_neq _ 0)) by lia.
  - left. destruct w as [|c w]; [cbn in Hl; lia|]. apply list.Forall_cons in Hw as [Hc _]. cbn.
    unfold graphic, isspace in *. lia.
Qed.

Lemma trim_end_graphic s : Forall graphic s -> trim_end s = s.
Proof.
  intros Hs. unfold trim_end, skip_blank. rewrite skip_while_none; [apply rev_involutive|].
  destruct (rev s) as [|c l] eqn:E; [by right|left]. cbn.
  assert (Forall graphic (rev s)) as Hr by (by apply Forall_rev).
  rewrite E in Hr. apply list.Forall_cons in Hr as [Hc _]. unfold graphic, isblank in *. lia.
Qed.

Section printed.
Context (h : bytes) (r : ApiService_RequestTypeDef) (Hp : printable_request h r).

Abbreviation L0 := (request_line (method r) (path r)).
Abbreviation L1 := (host_line h).
Abbreviation L2 := (authorization_line (authorization r)).
Abbreviation L3 := (length_line (body r)).

Lemma printed_lines : no_cr L0 /\ no_cr L1 /\ no_cr L2 /\ no_cr L3.
Proof.
  destruct Hp as (Hh & Hm & Hq & Ha & _).
  unfold request_line, host_line, authorization_line, length_line.
  assert (no_cr (fmt_u (Z.of_nat (length (body r))))) as Hf by (apply graphic_no_cr, dec_digits_graphic; lia).
  split_and!; repeat apply Forall_app_2; try done; try (by apply graphic_no_cr); repeat constructor; done.
Qed.

Lemma printed_header_end c :
  apiService_FindHeaderEnd (print_header h r ++ crlf ++ crlf ++ c) = Some (length (print_header h r)).
Proof.
  destruct printed_lines as (H0 & H1 & H2 & H3). unfold apiService_FindHeaderEnd, print_header.
  rewrite <-!app_assoc. rewrite strstr_line by done. change (starts_with crlf (L1 ++ _)) with false. cbv beta iota.
  rewrite strstr_line by done. change (starts_with crlf (L2 ++ _)) with false. cbv beta iota.
  rewrite strstr_line by done. change (starts_with crlf (L3 ++ _)) with false. cbv beta iota.
  rewrite strstr_line by done. change (starts_with crlf (crlf ++ c)) with true. cbv beta iota.
  cbn [fmap option_fmap option_map]. f_equal. rewrite !length_app. cbn [length crlf]. lia.
Qed.

Lemma printed_content_length : content_length (print_header h r) = Some (length (body r)).
Proof.
  destruct printed_lines as (H0 & H1 & H2 & H3). destruct Hp as (_ & _ & _ & _ & _ & _ & _ & _ & Hb).
  unfold bodyLength, API_SERVICE_BODY_SIZE, TLS_TRUST_STORE_MAX_DER_SIZE in Hb.
  unfold content_length, print_header.
  rewrite strstr_line by done. change (starts_with (str "Content-Length:") (L1 ++ _)) with false. cbv beta iota.
  rewrite strstr_line by done. change (starts_with (str "Content-Length:") (L2 ++ _)) with false. cbv beta iota.
  rewrite strstr_line by done. change (starts_with (str "Content-Length:") L3) with true. cbv beta iota.
  cbn [fmap option_fmap option_map].
  assert (skip_blank (drop (length L0 + (2 + (length L1 + (2 + length L2))) + 17) (L0 ++ crlf ++ L1 ++ crlf ++ L2 ++ crlf ++ L3))
          = fmt_u (Z.of_nat (length (body r)))) as ->.
  { rewrite <-!Nat.add_assoc, drop_line, drop_line, drop_app_ge by lia.
    replace (length L2 + 17 - length L2)%nat with 17%nat by lia. unfold length_line, crlf. cbn [str app drop].
    change (skip_blank (fmt_u (Z.of_nat (length (body r)))) = fmt_u (Z.of_nat (length (body r)))).
    apply skip_while_none. left. unfold fmt_u.
    destruct (dec_digits_chr 10 (Z.of_nat (length (body r)))) as (d & s & -> & Hd); [cbn; lia|lia|]. cbn. unfold isblank. lia. }
  assert (isdigit (chr (fmt_u (Z.of_nat (length (body r))))) = true) as ->.
  { unfold fmt_u. destruct (dec_digits_chr 10 (Z.of_nat (length (body r)))) as (d & s & -> & Hd); [cbn; lia|lia|].
    by apply isdigit_digit. }
  cbn [negb]. rewrite <-(app_nil_r (fmt_u _)), strtoul_fmt_u by (done || word). cbn [skip_blank skip_while chr nth Z.eqb negb andb orb].
  rewrite (proj2 (Z.ltb_ge _ _)) by (unfold API_SERVICE_BODY_SIZE, TLS_TRUST_STORE_MAX_DER_SIZE; lia). by rewrite Nat2Z.id.
Qed.

Lemma printed_authorization fuel :
  find_authorization (2 + fuel) (print_header h r) = Some (authorization r).
Proof.
  destruct printed_lines as (H0 & H1 & H2 & H3). destruct Hp as (_ & _ & _ & Ha & Hne & _ & _ & Hl & _).
  cbn [Nat.add find_authorization]. unfold print_header.
  rewrite strstr_crlf by done. cbv beta iota. change (length L0 + 2)%nat with (length L0 + (2 + 0))%nat.
  rewrite (drop_line _ _ 0), drop_0.
  change (lwip_strnicmp (L1 ++ _) (str "Authorization:") 14) with false. cbv beta iota.
  rewrite strstr_crlf by done. cbv beta iota. change (length L1 + 2)%nat with (length L1 + (2 + 0))%nat.
  rewrite (drop_line _ _ 0), drop_0.
  change (lwip_strnicmp (L2 ++ _) (str "Authorization:") 14) with true. cbv beta iota.
  set (value := skip_blank (drop 14 _)).
  assert (value = str "Bearer " ++ authorization r ++ crlf ++ L3) as -> by (unfold value, authorization_line; by rewrite <-app_assoc).
  change (lwip_strnicmp _ (str "Bearer") 6) with true. change (isblank (chr (drop 6 _))) with true. cbn [negb orb].
  assert (skip_blank (drop 6 (str "Bearer " ++ authorization r ++ crlf ++ L3)) = authorization r ++ crlf ++ L3) as ->.
  { change (skip_blank (authorization r ++ crlf ++ L3) = authorization r ++ crlf ++ L3). apply skip_while_none. left.
    destruct (authorization r) as [|c a]; [done|]. apply list.Forall_cons in Ha as [Hc _]. cbn.
    unfold graphic, isblank in *. lia. }
  rewrite strstr_crlf by (by apply graphic_no_cr). cbv beta iota.
  rewrite take_app_length, trim_end_graphic by done. by rewrite (proj2 (Nat.leb_gt _ _)) by done.
Qed.

Lemma printed_nonzero : Forall (fun c => c <> 0) (print_header h r).
Proof.
  destruct Hp as (Hh & Hm & Hq & Ha & _).
  assert (forall s, Forall graphic s -> Forall (fun c => c <> 0) s) as Hg by (intros s; apply Forall_impl; unfold graphic; lia).
  unfold print_header, request_line, host_line, authorization_line, length_line.
  assert (Forall graphic (fmt_u (Z.of_nat (length (body r))))) as Hf by (apply dec_digits_graphic; lia).
  repeat apply Forall_app_2; try (by apply Hg); repeat constructor; done.
Qed.

Lemma printed_classify capacity extra :
  (length (print_request h r) < capacity)%nat ->
  classify capacity (print_request h r ++ extra) = Framed (length (print_header h r)) (length (body r)).
Proof.
  intros Hc. unfold classify. rewrite take_app_ge by lia. set (more := take _ extra).
  assert (cstr (print_request h r ++ more) = print_header h r ++ crlf ++ crlf ++ cstr (body r ++ more)) as ->.
  { unfold print_request. rewrite <-!app_assoc.
    destruct (cstr_app (print_header h r) (crlf ++ crlf ++ body r ++ more)) as (c & -> & Ec).
    rewrite (cstr_id (print_header h r)) in * by apply printed_nonzero. by rewrite Ec. }
  rewrite printed_header_end. unfold frame, print_request. unfold print_request in Hc. rewrite !length_app in Hc.
  cbn [length crlf] in Hc.
  rewrite <-!app_assoc, take_app_length, printed_content_length.
  rewrite (proj2 (Nat.leb_gt _ _)), (proj2 (Nat.ltb_ge _ _)) by lia. cbn [orb].
  rewrite (proj2 (Nat.leb_le _ _)); [done|]. rewrite !length_app. cbn [length crlf]. lia.
Qed.

Lemma printed_extract BAD_INPUT extra request :
  extract BAD_INPUT (print_request h r ++ extra) (length (print_header h r)) (length (body r)) request = (0, r).
Proof.
  destruct Hp as (_ & Hm & Hq & _ & _ & Hlm & Hlp & _). unfold extract, print_request.
  rewrite <-!app_assoc, take_app_length. rewrite drop_app_ge by lia.
  replace (length (print_header h r) + 4 - length (print_header h r))%nat with 4%nat by lia.
  change (drop 4 (crlf ++ crlf ++ body r ++ extra)) with (drop 0 (body r ++ extra)). rewrite drop_0, take_app_length.
  assert (length (print_header h r) = 2 + (length (print_header h r) - 2))%nat as ->.
  { unfold print_header. rewrite !length_app. cbn [length crlf]. lia. }
  rewrite printed_authorization. unfold print_header, request_line. rewrite <-!app_assoc.
  rewrite scan_s_graphic by done. set (rest := crlf ++ L1 ++ _).
  assert (skip_space (str " " ++ path r ++ str " HTTP/1.1" ++ rest) = path r ++ str " HTTP/1.1" ++ rest) as ->.
  { change (skip_space (path r ++ str " HTTP/1.1" ++ rest) = path r ++ str " HTTP/1.1" ++ rest).
    apply skip_while_none. left. destruct (path r) as [|c q]; [cbn in Hlp; lia|].
    apply list.Forall_cons in Hq as [Hx _]. cbn. unfold graphic, isspace in *. lia. }
  rewrite scan_s_graphic by done. by destruct r.
Qed.
End printed.

(** A printed request is received as it was meant: a request line, a host,
    a bearer token, a content length and a body of any bytes, within the
    limits, whatever follows on the connection and however it is cut into
    pieces, give exactly that method, path, token and body. *)
Lemma request_roundtrip {T} `{SslStream T} BAD_INPUT capacity h r extra t request :
  printable_request h r -> (length (print_request h r) < capacity)%nat ->
  pending t = print_request h r ++ extra ->
  exists t', apiService_ReadRequest BAD_INPUT capacity t request = (t', 0, r).
Proof.
  intros Hp Hl Ht.
  pose proof (receive_outcome BAD_INPUT capacity capacity t [] None ltac:(cbn; lia) ltac:(cbn; lia) eq_refl) as Ho.
  cbn [app] in Ho. unfold loop_outcome in Ho. rewrite Ht, (printed_classify h r Hp) in Ho by done.
  destruct Ho as (t' & b & more & Er & Eb & Hb). exists t'. unfold apiService_ReadRequest. rewrite Er.
  pose proof (extract_stable BAD_INPUT b more _ _ request Hb) as Ex. rewrite <-Eb, (printed_extract h r Hp) in Ex.
  by rewrite <-Ex.
Qed.

(** ** Instances *)

(** A session that delivers its data in pieces of the given sizes, and then
    reports [c_end]. *)
Record chunked := Chunked { c_sizes : list nat; c_data : bytes; c_end : Z }.

Definition chunked_read (t : chunked) (n : nat) : chunked * Z * bytes :=
  match c_data t with
  | [] => (t, Z.min 0 (c_end t), [])
  | _ =>
      let k := (Nat.min n (Nat.min (length (c_data t)) (S (hd 0%nat (c_sizes t)))))%nat in
      (Chunked (tl (c_sizes t)) (drop k (c_data t)) (c_end t), Z.of_nat k, take k (c_data t))
  end.

#[global] Instance chunked_ssl : Ssl chunked := {|
  mbedtls_ssl_handshake := fun t => (t, 0);
  mbedtls_ssl_get_verify_result := fun _ => 0;
  mbedtls_ssl_get_peer_cert := fun _ => None;
  mbedtls_ssl_write := fun t d => (t, -1);
  mbedtls_ssl_read := chunked_read;
  lastError := fun _ => 0;
  sent := fun _ => [];
|}.

#[global] Instance chunked_laws : SslLaws chunked.
Proof.
  split; cbn.
  - intros t d t' r [= <- <-]. by split; [lia|].
  - intros t n t' r d. unfold chunked_read. destruct (c_data t) as [|c l] eqn:E.
    + intros [= <- <- <-]. split_and!; [lia|cbn; lia|done].
    + intros [= <- <- <-]. rewrite Nat2Z.id, length_take. cbn [length]. split_and!; [lia|lia|done].
Qed.

#[global] Instance chunked_stream : SslStream chunked.
Proof.
  refine {| pending := c_data |}. cbn. intros t n Hn Hp. unfold chunked_read.
  destruct (c_data t) as [|c l] eqn:E; [done|].
  eexists _, _. split_and!; [..|reflexivity|reflexivity]; cbn [length]; lia.
Defined.

Definition demo_request : ApiService_RequestTypeDef :=
  Request (str "PUT") (str "/api/v1/health-check/config") (str "0123456789abcdef") (quoted "{'period_seconds':120}").

Definition stale_request : ApiService_RequestTypeDef := Request (str "DELETE") (str "/api/v1/trust-anchors") [] [].

Definition demo_session : chunked := Chunked [0; 3; 40; 1; 0; 7]%nat (print_request (str "device") demo_request) 0.

Lemma request_framing_witness :
  classify 2560 (pending demo_session) = Framed 114 22
  /\ exists t', apiService_ReadRequest (-1) 2560 demo_session stale_request = (t', 0, demo_request).
Proof.
  assert (classify 2560 (pending demo_session) = Framed 114 22) as E by (vm_compute; reflexivity).
  split; [exact E|].
  pose proof (request_framing (-1) 2560 demo_session stale_request ltac:(lia)) as H. rewrite E in H.
  destruct H as [t' H]. exists t'. rewrite H. vm_compute. reflexivity.
Defined.

Lemma request_bounds_witness :
  request_fits demo_request \/ (demo_request = stale_request /\ exists t1 n d, mbedtls_ssl_read t1 n = (Chunked [] [] 0, 0, d)).
Proof.
  apply (request_bounds (-1) 2560 demo_session stale_request (Chunked [] [] 0) demo_request); [lia|].
  vm_compute. reflexivity.
Defined.

Lemma eof_accepts_stale_request_witness :
  apiService_ReadRequest (-1) 2560 (Chunked [] [] 0) stale_request = (Chunked [] [] 0, 0, stale_request).
Proof. apply (eof_accepts_stale_request (-1) 2560 (Chunked [] [] 0) stale_request (Chunked [] [] 0) []); [lia|reflexivity]. Defined.

Lemma request_roundtrip_witness :
  exists t', apiService_ReadRequest (-1) 2560 demo_session stale_request = (t', 0, demo_request).
Proof.
  apply (request_roundtrip (-1) 2560 (str "device") demo_request [] demo_session stale_request).
  - split_and!; try (by repeat constructor); cbn; unfold AUTH_SERVICE_TOKEN_TEXT_SIZE, API_SERVICE_BODY_SIZE, TLS_TRUST_STORE_MAX_DER_SIZE; lia.
  - vm_compute. lia.
  - by rewrite app_nil_r.
Defined.
