(* ===== verification/ApiResponse.v ===== *)
(** The responses of [Srv/Src/api_service.c].

    Every answer of the management API is built in fixed buffers with
    [snprintf] and sent over the session behind [Ssl].  The file models the
    helpers that send an answer, the error tables, and the log listing, which
    is sent in pieces after its length was computed in a first pass.  The
    theorems: the log listing never overflows its fragment buffer and the
    length it announces is the length of what it sends. *)
From S2P Require Import Prelude CString TlsTypes HealthCheckLog AuthService ServerCredentials TrustStore.
From S2P Require Import CivilTime Ssl TlsTransport CallbackService.

Definition API_SERVICE_RESPONSE_SIZE : nat := 2048.

(** The string [snprintf] leaves in an array of [size] bytes. *)
Definition snprintf (size : nat) (text : bytes) : bytes := take (size - 1) text.

(** [%0<width>d] of a number that is not negative. *)
Definition fmt_0d (width : nat) (n : Z) : bytes := replicate (width - length (fmt_u n)) 48 ++ fmt_u n.

Definition apiService_TransportStatusText (status : Z) : bytes :=
  if status =? status_code TLS_TRANSPORT_OK then str "ok"
  else if status =? status_code TLS_TRANSPORT_DNS_ERROR then str "dns_error"
  else if status =? status_code TLS_TRANSPORT_CONNECT_ERROR then str "connect_error"
  else if status =? status_code TLS_TRANSPORT_CONFIG_ERROR then str "config_error"
  else if status =? status_code TLS_TRANSPORT_CERTIFICATE_ERROR then str "certificate_error"
  else if status =? status_code TLS_TRANSPORT_HANDSHAKE_ERROR then str "handshake_error"
  else if status =? status_code TLS_TRANSPORT_IO_ERROR then str "io_error"
  else if status =? status_code TLS_TRANSPORT_PROTOCOL_ERROR then str "protocol_error"
  else str "unknown".

(** The header all answers share. *)
Definition response_header (status : Z) (reason : bytes) (contentLength : nat) : bytes :=
  str "HTTP/1.1 " ++ fmt_d status ++ str " " ++ reason ++ crlf
  ++ str "Content-Type: application/json" ++ crlf
  ++ str "Content-Length: " ++ fmt_u (Z.of_nat contentLength) ++ crlf
  ++ str "Connection: close" ++ crlf
  ++ str "Cache-Control: no-store" ++ crlf ++ crlf.

(** [2026-07-31T12:00:00Z] *)
Definition iso_time (v : mbedtls_x509_time) : bytes :=
  fmt_0d 4 (year v) ++ str "-" ++ fmt_0d 2 (mon v) ++ str "-" ++ fmt_0d 2 (day v) ++ str "T"
  ++ fmt_0d 2 (hour v) ++ str ":" ++ fmt_0d 2 (min v) ++ str ":" ++ fmt_0d 2 (sec v) ++ str "Z".

Definition json_bool (b : bool) : bytes := if b then str "true" else str "false".

(** [expiryFields]: an array of 192 bytes. *)
Definition expiry_fields (e : HealthCheckLog_EntryTypeDef) : bytes :=
  snprintf 192
    (if e_certificateExpiresAt e =? 0 then
       quoted "'expiring_date':null,'days_left':null,'anchor_id':" ++ fmt_u (e_certificateAnchorId e)
       ++ quoted ",'expiring':false"
     else
       quoted "'expiring_date':'" ++ iso_time (gmtime_r (e_certificateExpiresAt e))
       ++ quoted "','days_left':" ++ fmt_d (e_certificateDaysLeft e)
       ++ quoted ",'anchor_id':" ++ fmt_u (e_certificateAnchorId e)
       ++ quoted ",'expiring':" ++ json_bool (negb (e_certificateExpiring e =? 0))).

(** The whole text of [apiService_FormatLogEntry]; its length is the result of
    the call, the output array receives what fits. *)
Definition apiService_FormatLogEntry (e : HealthCheckLog_EntryTypeDef) (first : bool) : bytes :=
  (if first then [] else str ",")
  ++ quoted "{'sequence':" ++ fmt_u (e_sequence e) ++ quoted ",'timestamp':" ++ fmt_u (e_timestampUnix e)
  ++ quoted ",'resource_index':" ++ fmt_u (e_resourceIndex e)
  ++ quoted ",'status':'" ++ apiService_TransportStatusText (e_status e)
  ++ quoted "','http_status':" ++ fmt_u (e_httpStatus e) ++ quoted ",'elapsed_ms':" ++ fmt_u (e_elapsedMs e)
  ++ quoted ",'detail':" ++ fmt_d (e_detail e) ++ quoted ",'certificate':{" ++ expiry_fields e ++ str "}}".

Section responses.
Context {T : Type} `{Ssl T}.
Context (MBEDTLS_ERR_SSL_BUFFER_TOO_SMALL : Z).

Definition apiService_WriteAll : T -> bytes -> T * Z := WriteAll.

(** Send [text] unless it does not fit the response array. *)
Definition send_text (t : T) (size : nat) (text : bytes) : T * Z :=
  if (length text =? 0)%nat || (size <=? length text)%nat then (t, MBEDTLS_ERR_SSL_BUFFER_TOO_SMALL)
  else apiService_WriteAll t text.

Definition apiService_Respond (t : T) (status : Z) (reason json : bytes) : T * Z :=
  send_text t API_SERVICE_RESPONSE_SIZE (response_header status reason (length json) ++ json).

Definition apiService_RespondHeadersOnly (t : T) (status : Z) (reason json : bytes) : T * Z :=
  send_text t API_SERVICE_RESPONSE_SIZE (response_header status reason (length json)).

Definition apiService_Error (t : T) (status : Z) (reason code : bytes) : T * Z :=
  apiService_Respond t status reason (snprintf 96 (quoted "{'error':'" ++ code ++ quoted "'}")).

Definition logs_prefix : bytes := quoted "{'logs':[".
Definition logs_suffix : bytes := str "]}".

(** The first pass over the entries: the length of the fragments, [None] when
    one does not fit the 384 bytes of [fragment]. *)
Fixpoint measure_logs (entries : list HealthCheckLog_EntryTypeDef) (first : bool) : option nat :=
  match entries with
  | [] => Some 0%nat
  | e :: entries =>
      let length := length (apiService_FormatLogEntry e first) in
      if (length =? 0)%nat || (384 <=? length)%nat then None
      else (fun n => (length + n)%nat) <$> measure_logs entries false
  end.

(** The second pass. *)
Fixpoint write_logs (t : T) (entries : list HealthCheckLog_EntryTypeDef) (first : bool) : T * Z :=
  match entries with
  | [] => (t, 0)
  | e :: entries =>
      let fragment := apiService_FormatLogEntry e first in
      if (length fragment =? 0)%nat || (384 <=? length fragment)%nat
      then (t, MBEDTLS_ERR_SSL_BUFFER_TOO_SMALL) else
      let '(t, result) := apiService_WriteAll t fragment in
      if negb (result =? 0) then (t, result) else write_logs t entries false
  end.

Definition apiService_RespondLogs (t : T) (entries : list HealthCheckLog_EntryTypeDef) : T * Z :=
  match measure_logs entries true with
  | None => (t, MBEDTLS_ERR_SSL_BUFFER_TOO_SMALL)
  | Some n =>
      let bodyLength := (length logs_prefix + length logs_suffix + n)%nat in
      let '(t, result) := send_text t 192 (response_header 200 (str "OK") bodyLength) in
      if negb (result =? 0) then (t, result) else
      let '(t, result) := apiService_WriteAll t logs_prefix in
      if negb (result =? 0) then (t, result) else
      let '(t, result) := write_logs t entries true in
      if negb (result =? 0) then (t, result) else
      apiService_WriteAll t logs_suffix
  end.

Definition apiService_TlsCredentialsRespond (t : T) (status : TlsServerCredentials_StatusTypeDef)
    (awaiting invalidError : bytes) : T * Z :=
  match status with
  | TLS_SERVER_CREDENTIALS_STATUS_ACTIVATED =>
      apiService_Respond t 200 (str "OK") (quoted "{'status':'activated'}")
  | TLS_SERVER_CREDENTIALS_STATUS_PENDING =>
      apiService_Respond t 202 (str "Accepted")
        (snprintf 64 (quoted "{'status':'pending','awaiting':'" ++ awaiting ++ quoted "'}"))
  | TLS_SERVER_CREDENTIALS_STATUS_MISMATCH => apiService_Error t 409 (str "Conflict") (str "key_mismatch")
  | TLS_SERVER_CREDENTIALS_STATUS_INVALID_DATA => apiService_Error t 400 (str "Bad Request") invalidError
  | _ => apiService_Error t 500 (str "Internal Server Error") (str "storage_error")
  end.

Definition apiService_TrustStoreError (t : T) (status : TlsTrustStore_StatusTypeDef) : T * Z :=
  match status with
  | TLS_TRUST_STORE_STATUS_INVALID_ARGUMENT =>
      apiService_Error t 400 (str "Bad Request") (str "invalid_certificate_body")
  | TLS_TRUST_STORE_STATUS_INVALID_CERTIFICATE =>
      apiService_Error t 400 (str "Bad Request") (str "invalid_certificate")
  | TLS_TRUST_STORE_STATUS_NO_MEMORY =>
      apiService_Error t 503 (str "Service Unavailable") (str "tls_memory_exhausted")
  | TLS_TRUST_STORE_STATUS_NOT_CA => apiService_Error t 400 (str "Bad Request") (str "certificate_not_ca")
  | TLS_TRUST_STORE_STATUS_NOT_FOUND => apiService_Error t 404 (str "Not Found") (str "trust_anchor_not_found")
  | TLS_TRUST_STORE_STATUS_FULL => apiService_Error t 409 (str "Conflict") (str "trust_anchor_limit_reached")
  | _ => apiService_Error t 500 (str "Internal Server Error") (str "storage_error")
  end.

Definition apiService_Tokens (t : T) (tokens : AuthService_TokenPairTypeDef) : T * Z :=
  apiService_Respond t 200 (str "OK")
    (snprintf 384
       (quoted "{'token_type':'Bearer','access_token':'" ++ cstr (accessToken tokens)
        ++ quoted "','expires_in':" ++ fmt_u (accessExpiresIn tokens)
        ++ quoted ",'refresh_token':'" ++ cstr (refreshToken tokens)
        ++ quoted "','refresh_expires_in':" ++ fmt_u (refreshExpiresIn tokens) ++ str "}")).
End responses.

(** ** The log listing *)

(** The fields of an entry have the width of their types. *)
Definition log_entry_wf (e : HealthCheckLog_EntryTypeDef) : Prop :=
  entry_wf e /\ is_u32 (e_certificateExpiresAt e) /\ -2147483648 <= e_certificateDaysLeft e < 2147483648
  /\ is_u8 (e_certificateAnchorId e).

Fixpoint fragments (entries : list HealthCheckLog_EntryTypeDef) (first : bool) : bytes :=
  match entries with
  | [] => []
  | e :: entries => apiService_FormatLogEntry e first ++ fragments entries false
  end.

(** The body of the listing, and the whole answer. *)
Definition logs_body (entries : list HealthCheckLog_EntryTypeDef) : bytes :=
  logs_prefix ++ fragments entries true ++ logs_suffix.

Definition logs_answer (entries : list HealthCheckLog_EntryTypeDef) : bytes :=
  response_header 200 (str "OK") (length (logs_body entries)) ++ logs_body entries.

Lemma length_fmt_0d w n k :
  0 <= n < 10 ^ Z.of_nat k -> (1 <= k)%nat -> (w <= k)%nat -> (length (fmt_0d w n) <= k)%nat.
Proof.
  intros Hn Hk Hw. unfold fmt_0d. rewrite length_app, length_replicate.
  pose proof (fmt_u_length k n Hn Hk). lia.
Qed.

Lemma length_iso_time t : is_u32 t -> (length (iso_time (gmtime_r t)) <= 20)%nat.
Proof.
  intros Ht. destruct (gmtime_spec t Ht) as (Hv & Hy & _). revert Hv Hy. generalize (gmtime_r t). intros v Hv Hy.
  unfold time_rejected in Hv. rewrite !orb_false_iff, !Z.ltb_ge in Hv.
  unfold iso_time. rewrite !length_app. cbn [length str].
  pose proof (length_fmt_0d 4 (year v) 4 ltac:(cbn; lia) ltac:(lia) ltac:(lia)).
  pose proof (length_fmt_0d 2 (mon v) 2 ltac:(cbn; lia) ltac:(lia) ltac:(lia)).
  pose proof (length_fmt_0d 2 (day v) 2 ltac:(cbn; lia) ltac:(lia) ltac:(lia)).
  pose proof (length_fmt_0d 2 (hour v) 2 ltac:(cbn; lia) ltac:(lia) ltac:(lia)).
  pose proof (length_fmt_0d 2 (min v) 2 ltac:(cbn; lia) ltac:(lia) ltac:(lia)).
  pose proof (length_fmt_0d 2 (sec v) 2 ltac:(cbn; lia) ltac:(lia) ltac:(lia)). lia.
Qed.

Lemma api_status_text_length st : (length (apiService_TransportStatusText st) <= 17)%nat.
Proof. unfold apiService_TransportStatusText. repeat case_match; cbn; lia. Qed.

(** Nothing is cut off the certificate fields. *)
Lemma length_expiry_fields e : log_entry_wf e -> (length (expiry_fields e) <= 100)%nat.
Proof.
  intros (_ & He & Hd & Ha). unfold expiry_fields, snprintf. rewrite length_take.
  pose proof (length_iso_time _ He). pose proof (fmt_d_length _ Hd).
  pose proof (fmt_u_length 3 (e_certificateAnchorId e) ltac:(cbn; unfold is_u8 in Ha; lia) ltac:(lia)).
  destruct (_ =? 0); unfold quoted; rewrite !length_app, !length_map; cbn [length str].
  - lia.
  - destruct (e_certificateExpiring e =? 0); cbn [negb json_bool length str]; lia.
Qed.

Lemma length_log_entry e first :
  log_entry_wf e -> (1 <= length (apiService_FormatLogEntry e first) < 384)%nat.
Proof.
  intros He. pose proof (length_expiry_fields e He). destruct He as [He _].
  pose proof (entry_lengths e He). pose proof (api_status_text_length (e_status e)).
  unfold apiService_FormatLogEntry, quoted. rewrite !length_app, !length_map. cbn [length str].
  destruct first; cbn [length str]; lia.
Qed.

Lemma measure_logs_spec entries first :
  Forall log_entry_wf entries -> measure_logs entries first = Some (length (fragments entries first)).
Proof.
  revert first. induction entries as [|e entries IH]; intros first Hw; [done|].
  apply list.Forall_cons in Hw as [He Hw]. cbn [measure_logs fragments].
  pose proof (length_log_entry e first He).
  rewrite (proj2 (Nat.eqb_neq _ 0)), (proj2 (Nat.leb_gt _ _)), IH by (done || lia).
  cbn. by rewrite length_app.
Qed.

Lemma length_response_header n : (1 <= length (response_header 200 (str "OK") n) < 192)%nat.
Proof.
  unfold response_header. rewrite !length_app. cbn [length str crlf].
  change (length (fmt_d 200)) with 3%nat. pose proof (length_fmt_u (Z.of_nat n)). lia.
Qed.

Section sending.
Context {T : Type} `{SslLaws T} (BUFFER_TOO_SMALL : Z).
(** Mbed TLS reports progress or an error. *)
Context (write_progress : forall t d t' r, mbedtls_ssl_write t d = (t', r) -> d <> [] -> r <> 0).

(** [sends t text (t', r)]: either all of [text] was sent, or a write failed
    with the result [r] and a strict prefix was sent. *)
Definition sends (t : T) (text : bytes) (o : T * Z) : Prop :=
  (o.2 = 0 /\ sent o.1 = sent t ++ text)
  \/ (o.2 < 0 /\ exists n, (n < length text)%nat /\ sent o.1 = sent t ++ take n text).

Lemma write_all_sends t text : sends t text (WriteAll t text).
Proof.
  destruct (WriteAll t text) as [t' r] eqn:E. unfold sends. cbn [fst snd].
  apply write_all_spec in E as [E|(Hr & n & Hn & Es & t1 & Ew)]; [by left|right].
  apply write_progress in Ew; [split; [lia|by exists n]|].
  intros Hd. apply (f_equal length) in Hd. rewrite length_drop in Hd. cbn in Hd. lia.
Qed.

(** Sending one text and then another. *)
Lemma sends_seq t a b (k : T -> T * Z) o :
  sends t a o -> (forall t1, sends t1 b (k t1)) ->
  sends t (a ++ b) (let '(t1, r) := o in if negb (r =? 0) then (t1, r) else k t1).
Proof.
  destruct o as [t1 r]. intros [[Hr Hs]|(Hr & n & Hn & Hs)] Hk; cbn [fst snd] in *.
  - rewrite Hr. cbn [Z.eqb negb]. destruct (Hk t1) as [[E1 E2]|(E1 & n & Hn & E2)].
    + left. by rewrite E2, Hs, <-app_assoc.
    + right. split; [done|]. exists (length a + n)%nat. rewrite length_app. split; [lia|].
      rewrite E2, Hs, <-app_assoc. f_equal. rewrite take_app_ge by lia. by rewrite Nat.add_comm, Nat.add_sub.
  - rewrite (proj2 (Z.eqb_neq r 0)) by lia. right. cbn [fst snd negb]. split; [done|]. exists n.
    rewrite length_app. split; [lia|]. by rewrite take_app_le by lia.
Qed.

Lemma write_logs_sends t entries first :
  Forall log_entry_wf entries -> sends t (fragments entries first) (write_logs BUFFER_TOO_SMALL t entries first).
Proof.
  revert t first. induction entries as [|e entries IH]; intros t first Hw.
  { left. by rewrite app_nil_r. }
  apply list.Forall_cons in Hw as [He Hw]. cbn [write_logs fragments].
  pose proof (length_log_entry e first He).
  rewrite (proj2 (Nat.eqb_neq _ 0)), (proj2 (Nat.leb_gt _ _)) by lia. cbn [orb].
  apply sends_seq; [apply write_all_sends|]. intros t1. by apply IH.
Qed.

(** The log listing is complete and announces its own length: for
    well-formed entries no fragment overflows its buffer, and the answer is a
    header whose content length is the number of bytes of the body, then the
    body with every entry in order; it is sent completely, or a write fails
    and a strict prefix of it was sent. *)
Lemma logs_answer_sent t entries :
  Forall log_entry_wf entries -> sends t (logs_answer entries) (apiService_RespondLogs BUFFER_TOO_SMALL t entries).
Proof.
  intros Hw. unfold apiService_RespondLogs. rewrite measure_logs_spec by done.
  assert (length logs_prefix + length logs_suffix + length (fragments entries true) = length (logs_body entries))%nat as ->.
  { unfold logs_body. rewrite !length_app. lia. }
  unfold logs_answer, logs_body at 2. apply sends_seq.
  - unfold send_text. pose proof (length_response_header (length (logs_body entries))).
    rewrite (proj2 (Nat.eqb_neq _ 0)), (proj2 (Nat.leb_gt _ _)) by lia. apply write_all_sends.
  - intros t1. apply sends_seq; [apply write_all_sends|]. intros t2.
    apply sends_seq; [by apply write_logs_sends|]. intros t3. apply write_all_sends.
Qed.
End sending.

(** ** Instances *)

Definition demo_entry : HealthCheckLog_EntryTypeDef := Entry 7 1800000000 120 (-26) 1900000000 1157 503 2 6 1 0.

(** A session that accepts everything it is given. *)
Definition accepting : Type := bytes.

#[global] Instance accepting_ssl : Ssl accepting := {|
  mbedtls_ssl_handshake := fun t => (t, 0);
  mbedtls_ssl_get_verify_result := fun _ => 0;
  mbedtls_ssl_get_peer_cert := fun _ => None;
  mbedtls_ssl_write := fun t d => (t ++ d, Z.of_nat (length d));
  mbedtls_ssl_read := fun t _ => (t, 0, []);
  lastError := fun _ => 0;
  sent := fun t => t;
|}.

#[global] Instance accepting_laws : SslLaws accepting.
Proof.
  split; cbn.
  - intros t d t' r [= <- <-]. by rewrite Nat2Z.id, take_ge by done.
  - intros t n t' r d [= <- <- <-]. split_and!; [lia|done|done].
Qed.

Lemma logs_answer_sent_witness :
  sends (T := accepting) [] (logs_answer [demo_entry; demo_entry])
    (apiService_RespondLogs (T := accepting) (-27136) [] [demo_entry; demo_entry]).
Proof.
  apply (logs_answer_sent (T := accepting) (-27136)).
  - cbn. intros t d t' r [= <- <-] Hd. destruct d; [done|]. cbn. lia.
  - assert (log_entry_wf demo_entry); [|by repeat constructor].
    unfold log_entry_wf, entry_wf, is_u32, is_u16, is_u8. cbn. lia.
Defined.
