(* ===== verification/Ethernet.v ===== *)
(** [Core/Src/ethernet_ll.c]: the Ethernet MAC driver.

    The processor and the DMA engine share two rings of descriptors.  The
    [OWN] bit of a descriptor says whose it is; the engine walks the ring by
    itself and stops when it meets a descriptor that is not its own, until a
    poll demand wakes it.  The engine's steps ([dma_send], [dma_receive]) follow
    the reference manual of the device; the driver's functions are those of the
    file; a submission is the sequence of its writes, and the engine may step
    between any two of them.  Whatever the interleaving, the rings are bounded queues:
    frames leave and arrive complete, in order and once. *)
From S2P Require Import Prelude.

#[local] Ltac Zify.zify_post_hook ::= Z.to_euclidean_division_equations.

(** [Ethernet_StatusTypeDef] *)
Inductive Ethernet_StatusTypeDef :=
  | ETHERNET_STATUS_OK
  | ETHERNET_STATUS_INVALID_ARGUMENT
  | ETHERNET_STATUS_DMA_TIMEOUT
  | ETHERNET_STATUS_MDIO_TIMEOUT
  | ETHERNET_STATUS_PHY_NEGOTIATING
  | ETHERNET_STATUS_PHY_MODE_ERROR
  | ETHERNET_STATUS_NO_FRAME
  | ETHERNET_STATUS_FRAME_ERROR
  | ETHERNET_STATUS_FRAME_TOO_LARGE
  | ETHERNET_STATUS_TRANSMIT_BUSY.

#[global] Instance Ethernet_Status_eq_dec : EqDecision Ethernet_StatusTypeDef.
Proof. solve_decision. Defined.

(** Both rings have eight descriptors. *)
Definition ETHERNET_DESCRIPTOR_COUNT : nat := 8.
Definition ETHERNET_BUFFER_SIZE : nat := 1536.

Definition ETHERNET_OWN : Z := Z.shiftl 1 31.
Definition ETHERNET_RX_CHAINED : Z := Z.shiftl 1 14.
Definition ETHERNET_RX_BUFFER_MASK : Z := 0x1FFF.
Definition ETHERNET_TX_CHAINED : Z := Z.shiftl 1 20.
Definition ETHERNET_TX_FIRST_SEGMENT : Z := Z.shiftl 1 28.
Definition ETHERNET_TX_LAST_SEGMENT : Z := Z.shiftl 1 29.
Definition ETHERNET_TX_CHECKSUM_FULL : Z := Z.shiftl 3 22.
Definition ETHERNET_RX_ERROR : Z := Z.shiftl 1 15.
Definition ETHERNET_RX_FIRST_SEGMENT : Z := Z.shiftl 1 9.
Definition ETHERNET_RX_LAST_SEGMENT : Z := Z.shiftl 1 8.
Definition ETHERNET_RX_FRAME_LENGTH (status : Z) : Z := Z.land (Z.shiftr status 16) 0x3FFF.

(** Buffers and descriptors are addressed by their place in the arrays. *)
Record EthernetDmaDescriptor_TypeDef := Descriptor {
  status : Z;
  control : Z;
  bufferAddress : nat;
  nextDescriptor : nat;
}.

Definition zero_descriptor := Descriptor 0 0 0 0.

(** A ring: the driver's index, and where the engine is and whether it runs. *)
Record ring := Ring {
  descriptors : list EthernetDmaDescriptor_TypeDef;
  buffers : list bytes;
  index : nat;
  engine_at : nat;
  running : bool;
}.

Definition owned (d : EthernetDmaDescriptor_TypeDef) : bool := negb (Z.land (status d) ETHERNET_OWN =? 0).

Definition descriptor (r : ring) (i : nat) : EthernetDmaDescriptor_TypeDef := nth i (descriptors r) zero_descriptor.
Definition buffer (r : ring) (i : nat) : bytes := nth i (buffers r) [].

(** [(index + 1U) % ETHERNET_..._DESCRIPTOR_COUNT] *)
Definition following (i : nat) : nat := ((i + 1) mod ETHERNET_DESCRIPTOR_COUNT)%nat.

(** ** The transmit engine *)

(** One step of the transmit engine: the frame it puts on the wire. *)
Definition dma_send (r : ring) : ring * option bytes :=
  if negb (running r) then (r, None) else
  let d := descriptor r (engine_at r) in
  if negb (owned d) then (Ring (descriptors r) (buffers r) (index r) (engine_at r) false, None) else
  (Ring (<[engine_at r := Descriptor (Z.land (status d) (Z.lnot ETHERNET_OWN)) (control d) (bufferAddress d) (nextDescriptor d)]>
           (descriptors r)) (buffers r) (index r) (nextDescriptor d) true,
   Some (take (Z.to_nat (control d)) (buffer r (bufferAddress d)))).

(** Several steps, and the frames sent. *)
Fixpoint dma_sends (n : nat) (r : ring) : ring * list bytes :=
  match n with
  | O => (r, [])
  | S n => let '(r, o) := dma_send r in let '(r, l) := dma_sends n r in (r, option_list o ++ l)
  end.

(** ** The driver *)

(** The two loops of [EthernetMac_Init] over the descriptors. *)
Definition init_descriptors (st ctl : Z) : list EthernetDmaDescriptor_TypeDef :=
  map (fun i => Descriptor st ctl i (following i)) (seq 0 ETHERNET_DESCRIPTOR_COUNT).

(** [contents]: what the buffers hold before. *)
Definition init_receive (contents : list bytes) : ring :=
  Ring (init_descriptors ETHERNET_OWN
          (Z.lor (Z.land (Z.of_nat ETHERNET_BUFFER_SIZE) ETHERNET_RX_BUFFER_MASK) ETHERNET_RX_CHAINED))
    contents 0 0 true.
Definition init_transmit (contents : list bytes) : ring :=
  Ring (init_descriptors ETHERNET_TX_CHAINED 0) contents 0 0 true.

Definition tx_status : Z :=
  Z.lor (Z.lor (Z.lor (Z.lor ETHERNET_OWN ETHERNET_TX_FIRST_SEGMENT) ETHERNET_TX_LAST_SEGMENT) ETHERNET_TX_CHECKSUM_FULL)
    ETHERNET_TX_CHAINED.

(** The writes of a submission, in the order of the source: the frame into the
    buffer, its length, behind the barrier the status that hands the descriptor
    over, the driver's index, and the poll demand. *)
Definition write_buffer (frame : bytes) (r : ring) : ring :=
  Ring (descriptors r) (<[index r := frame ++ drop (length frame) (buffer r (index r))]> (buffers r))
    (index r) (engine_at r) (running r).
Definition write_control (n : Z) (r : ring) : ring :=
  let d := descriptor r (index r) in
  Ring (<[index r := Descriptor (status d) n (bufferAddress d) (nextDescriptor d)]> (descriptors r)) (buffers r)
    (index r) (engine_at r) (running r).
Definition write_status (st : Z) (r : ring) : ring :=
  let d := descriptor r (index r) in
  Ring (<[index r := Descriptor st (control d) (bufferAddress d) (nextDescriptor d)]> (descriptors r)) (buffers r)
    (index r) (engine_at r) (running r).
Definition advance (r : ring) : ring := Ring (descriptors r) (buffers r) (following (index r)) (engine_at r) (running r).
Definition poll_demand (r : ring) : ring := Ring (descriptors r) (buffers r) (index r) (engine_at r) true.

Definition transmit_writes (frame : bytes) : list (ring -> ring) :=
  [write_buffer frame; write_control (Z.of_nat (length frame)); write_status tx_status; advance; poll_demand].

(** The writes one after the other; before each the engine takes as many steps as
    [pauses] says (none beyond its end).  With the frames the engine sends. *)
Fixpoint perform (writes : list (ring -> ring)) (pauses : list nat) (r : ring) : ring * list bytes :=
  match writes with
  | [] => (r, [])
  | w :: writes =>
      let '(r, l) := dma_sends (hd 0%nat pauses) r in
      let '(r, l') := perform writes (tl pauses) (w r) in (r, l ++ l')
  end.

(** [EthernetMac_Transmit] while the engine runs. *)
Definition EthernetMac_Transmit_during (pauses : list nat) (r : ring) (frame : option bytes)
  : ring * list bytes * Ethernet_StatusTypeDef :=
  match frame with
  | None => (r, [], ETHERNET_STATUS_INVALID_ARGUMENT)
  | Some frame =>
      if (length frame =? 0)%nat then (r, [], ETHERNET_STATUS_INVALID_ARGUMENT) else
      if (ETHERNET_BUFFER_SIZE <? length frame)%nat then (r, [], ETHERNET_STATUS_FRAME_TOO_LARGE) else
      if owned (descriptor r (index r)) then (r, [], ETHERNET_STATUS_TRANSMIT_BUSY) else
      (perform (transmit_writes frame) pauses r, ETHERNET_STATUS_OK)
  end.

(** The call by itself. *)
Definition EthernetMac_Transmit (r : ring) (frame : option bytes) : ring * Ethernet_StatusTypeDef :=
  let '(r, _, st) := EthernetMac_Transmit_during [] r frame in (r, st).

Definition EthernetMac_ReleaseReceivedFrame (r : ring) : ring :=
  let d := descriptor r (index r) in
  Ring (<[index r := Descriptor ETHERNET_OWN (control d) (bufferAddress d) (nextDescriptor d)]> (descriptors r))
    (buffers r) (following (index r)) (engine_at r) true.

(** The frame is borrowed from the buffer. *)
Definition EthernetMac_GetReceivedFrame (r : ring) : ring * Ethernet_StatusTypeDef * option bytes :=
  let status := status (descriptor r (index r)) in
  if negb (Z.land status ETHERNET_OWN =? 0) then (r, ETHERNET_STATUS_NO_FRAME, None) else
  let frameLength := ETHERNET_RX_FRAME_LENGTH status in
  if negb (Z.land status ETHERNET_RX_ERROR =? 0) || (Z.land status ETHERNET_RX_FIRST_SEGMENT =? 0)
     || (Z.land status ETHERNET_RX_LAST_SEGMENT =? 0) || (frameLength <? 4)
  then (EthernetMac_ReleaseReceivedFrame r, ETHERNET_STATUS_FRAME_ERROR, None) else
  let frameLength := frameLength - 4 in
  if Z.of_nat ETHERNET_BUFFER_SIZE <? frameLength
  then (EthernetMac_ReleaseReceivedFrame r, ETHERNET_STATUS_FRAME_TOO_LARGE, None) else
  (r, ETHERNET_STATUS_OK, Some (take (Z.to_nat frameLength) (buffer r (index r)))).

(** ** The receive engine *)

(** What the receive engine notes of a frame: its length with the checksum,
    whether it is in error, and whether this is all of it. *)
Record arrival := Arrival { payload : bytes; in_error : bool; first_segment : bool; last_segment : bool }.

Definition rx_status (a : arrival) : Z :=
  Z.lor (Z.lor (Z.lor (Z.shiftl (Z.of_nat (length (payload a)) + 4) 16) (if in_error a then ETHERNET_RX_ERROR else 0))
           (if first_segment a then ETHERNET_RX_FIRST_SEGMENT else 0))
    (if last_segment a then ETHERNET_RX_LAST_SEGMENT else 0).

(** A frame arrives, with its four checksum bytes; whether there was room.  The
    start of a frame wakes this engine, as a poll demand does. *)
Definition dma_receive (r : ring) (a : arrival) (checksum : bytes) : ring * bool :=
  let d := descriptor r (engine_at r) in
  if negb (owned d) then (Ring (descriptors r) (buffers r) (index r) (engine_at r) false, false) else
  let data := take ETHERNET_BUFFER_SIZE (payload a ++ checksum) in
  (Ring (<[engine_at r := Descriptor (rx_status a) (control d) (bufferAddress d) (nextDescriptor d)]> (descriptors r))
     (<[bufferAddress d := data ++ drop (length data) (buffer r (bufferAddress d))]> (buffers r))
     (index r) (nextDescriptor d) true, true).

(** ** The shape of a ring *)

Lemma following_lt i : (following i < 8)%nat.
Proof. unfold following, ETHERNET_DESCRIPTOR_COUNT. lia. Qed.

(** The [k]-th place behind [i]. *)
Definition place (i k : nat) : nat := ((i + k) mod 8)%nat.

Lemma place_lt i k : (place i k < 8)%nat.
Proof. unfold place. lia. Qed.

Lemma place_0 i : (i < 8)%nat -> place i 0 = i.
Proof. unfold place. lia. Qed.

Lemma place_S i k : place i (S k) = place (following i) k.
Proof. unfold place, following, ETHERNET_DESCRIPTOR_COUNT. lia. Qed.

Lemma place_next i k : following (place i k) = place i (S k).
Proof. unfold place, following, ETHERNET_DESCRIPTOR_COUNT. lia. Qed.

Lemma place_inj i j k : (j < 8)%nat -> (k < 8)%nat -> place i j = place i k -> j = k.
Proof. unfold place. lia. Qed.

(** Every descriptor has its own buffer and is chained to the next one. *)
Record chained (r : ring) : Prop := {
  ch_count : length (descriptors r) = 8%nat;
  ch_buffers : length (buffers r) = 8%nat;
  ch_sizes : Forall (fun b => length b = ETHERNET_BUFFER_SIZE) (buffers r);
  ch_own : forall i, (i < 8)%nat -> bufferAddress (descriptor r i) = i /\ nextDescriptor (descriptor r i) = following i;
  ch_index : (index r < 8)%nat;
  ch_engine : (engine_at r < 8)%nat;
}.

Lemma descriptor_insert ds bs ix en run i d j :
  (i < length ds)%nat ->
  descriptor (Ring (<[i := d]> ds) bs ix en run) j = (if decide (i = j) then d else nth j ds zero_descriptor).
Proof.
  intros Hi. unfold descriptor. cbn. rewrite !nth_lookup. case_decide as E; [subst j; by rewrite list_lookup_insert_eq|].
  by rewrite list_lookup_insert_ne.
Qed.

Lemma buffer_insert ds bs ix en run i b j :
  (i < length bs)%nat ->
  buffer (Ring ds (<[i := b]> bs) ix en run) j = (if decide (i = j) then b else nth j bs []).
Proof.
  intros Hi. unfold buffer. cbn. rewrite !nth_lookup. case_decide as E; [subst j; by rewrite list_lookup_insert_eq|].
  by rewrite list_lookup_insert_ne.
Qed.

Lemma buffer_size r i : chained r -> (i < 8)%nat -> length (buffer r i) = ETHERNET_BUFFER_SIZE.
Proof.
  intros [H1 H2 H3 _ _ _] Hi. unfold buffer. destruct (nth_in_or_default i (buffers r) []) as [Hin|He].
  - rewrite List.Forall_forall in H3. by apply H3.
  - rewrite List.Forall_forall in H3. apply H3. apply nth_In. lia.
Qed.

(** Only the status and length of a descriptor, and one buffer, change. *)
Lemma chained_update r i st ctl b ix en run :
  chained r -> (i < 8)%nat -> length b = ETHERNET_BUFFER_SIZE -> (ix < 8)%nat -> (en < 8)%nat ->
  chained (Ring (<[i := Descriptor st ctl (bufferAddress (descriptor r i)) (nextDescriptor (descriptor r i))]> (descriptors r))
             (<[i := b]> (buffers r)) ix en run).
Proof.
  intros [H1 H2 H3 H4 H5 H6] Hi Hb Hix Hen. split; cbn [index engine_at descriptors buffers]; try done.
  - by rewrite length_insert.
  - by rewrite length_insert.
  - by apply Forall_insert.
  - intros j Hj. rewrite descriptor_insert by lia. case_decide as E; [subst j; cbn|]; by apply H4.
Qed.

Lemma chained_status r i st ctl ix en run :
  chained r -> (i < 8)%nat -> (ix < 8)%nat -> (en < 8)%nat ->
  chained (Ring (<[i := Descriptor st ctl (bufferAddress (descriptor r i)) (nextDescriptor (descriptor r i))]> (descriptors r))
             (buffers r) ix en run).
Proof.
  intros [H1 H2 H3 H4 H5 H6] Hi Hix Hen. split; cbn [index engine_at descriptors buffers]; try done.
  - by rewrite length_insert.
  - intros j Hj. rewrite descriptor_insert by lia. case_decide as E; [subst j; cbn|]; by apply H4.
Qed.

Lemma chained_running r b : chained r -> chained (Ring (descriptors r) (buffers r) (index r) (engine_at r) b).
Proof. by intros []. Qed.

Lemma init_chained st ctl contents run :
  length contents = 8%nat -> Forall (fun b => length b = ETHERNET_BUFFER_SIZE) contents ->
  chained (Ring (init_descriptors st ctl) contents 0 0 run).
Proof.
  intros Hc Hs. split; cbn [index engine_at descriptors buffers]; try done; try lia.
  intros i Hi. do 8 (destruct i as [|i]; [done|]). lia.
Qed.

Lemma init_descriptor st ctl contents run i :
  (i < 8)%nat -> status (descriptor (Ring (init_descriptors st ctl) contents 0 0 run) i) = st.
Proof. intros Hi. do 8 (destruct i as [|i]; [done|]). lia. Qed.

(** ** Transmission *)

Definition holds_frame (r : ring) (i : nat) (f : bytes) : Prop :=
  owned (descriptor r i) = true /\ control (descriptor r i) = Z.of_nat (length f) /\ take (length f) (buffer r i) = f.

(** The ring holds the frames [q], from the engine's place on. *)
Record tx_queue (r : ring) (q : list bytes) : Prop := {
  tq_ring : chained r;
  tq_length : (length q <= 8)%nat;
  tq_index : index r = place (engine_at r) (length q);
  tq_held : forall k f, q !! k = Some f -> holds_frame r (place (engine_at r) k) f;
  tq_free : forall k, (length q <= k < 8)%nat -> owned (descriptor r (place (engine_at r) k)) = false;
  tq_awake : q <> [] -> running r = true;
}.

Lemma tx_init contents :
  length contents = 8%nat -> Forall (fun b => length b = ETHERNET_BUFFER_SIZE) contents -> tx_queue (init_transmit contents) [].
Proof.
  intros Hc Hs. split; [by apply init_chained|cbn; lia|done|done| |done].
  intros k Hk. unfold owned, init_transmit. by rewrite init_descriptor by apply place_lt.
Qed.

(** A frame that can be sent. *)
Definition sendable (f : bytes) : Prop := (1 <= length f <= ETHERNET_BUFFER_SIZE)%nat.

Lemma tx_full r q : tx_queue r q -> owned (descriptor r (index r)) = true <-> length q = 8%nat.
Proof.
  intros [Hr Hl Hi Hh Hf _]. split.
  - intros Ho. destruct (decide (length q = 8%nat)) as [|Hne]; [done|]. rewrite Hi, Hf in Ho by lia. done.
  - intros H8. rewrite Hi, H8. destruct q as [|f q]; [done|].
    replace (place (engine_at r) 8) with (place (engine_at r) 0) by (unfold place; lia). by apply (Hh 0%nat f).
Qed.

Lemma released_not_owned d a b c : owned (Descriptor (Z.land (status d) (Z.lnot ETHERNET_OWN)) a b c) = false.
Proof.
  unfold owned. cbn [status]. rewrite <-Z.land_assoc. change (Z.land (Z.lnot ETHERNET_OWN) ETHERNET_OWN) with 0.
  by rewrite Z.land_0_r.
Qed.

Lemma tx_send r q :
  tx_queue r q ->
  match q with
  | [] => (dma_send r).2 = None /\ tx_queue (dma_send r).1 []
  | f :: q => (dma_send r).2 = Some f /\ tx_queue (dma_send r).1 q
  end.
Proof.
  intros [Hr Hl Hi Hh Hf Ha]. pose proof (ch_engine r Hr) as He. unfold dma_send. destruct q as [|f q].
  - destruct (running r) eqn:Er; cbn [negb]; [|by split].
    pose proof (Hf 0%nat ltac:(cbn; lia)) as H0. rewrite place_0 in H0 by done. rewrite H0. cbn [negb fst snd].
    split; [done|]. split; [by apply chained_running|cbn; lia|exact Hi|done|exact Hf|done].
  - rewrite Ha by done. cbn [negb]. destruct (Hh 0%nat f eq_refl) as (Ho & Hc & Hb). rewrite place_0 in Ho, Hc, Hb by done.
    rewrite Ho. cbn [negb fst snd]. destruct (ch_own r Hr (engine_at r) He) as [Eb En]. assert (take (Z.to_nat (control (descriptor r (engine_at r)))) (buffer r (bufferAddress (descriptor r (engine_at r)))) = f) as Hout
      by (by rewrite Hc, Nat2Z.id, Eb).
    split; [by rewrite Hout|]. rewrite En at 2. pose proof (ch_count r Hr) as Hcnt. split; cbn [index engine_at running].
    + apply chained_status; [done|done|apply Hr|apply following_lt].
    + cbn in Hl. lia.
    + rewrite Hi. cbn [length]. apply place_S.
    + intros k g Hk. rewrite <-place_S. unfold holds_frame. rewrite descriptor_insert by lia.
      pose proof (lookup_lt_Some _ _ _ Hk). cbn in Hl.
      case_decide as E; [rewrite <-(place_0 (engine_at r) He) in E at 1; apply place_inj in E; lia|]. by apply (Hh (S k)).
    + intros k Hk. rewrite <-place_S. rewrite descriptor_insert by lia. case_decide as E; [apply released_not_owned|].
      apply (Hf (S k)). cbn. split; [lia|]. destruct (decide (k = 7%nat)) as [->|]; [|lia].
      exfalso. apply E. unfold place. lia.
    + done.
Qed.

(** *** A submission while the engine runs *)

(** The ring as it is once the driver has advanced its index to [ix] and woken the
    engine. *)
Definition settled_at (ix : nat) (r : ring) : ring := Ring (descriptors r) (buffers r) ix (engine_at r) true.

(** What the engine leaves alone. *)
Definition same_load (r r' : ring) : Prop :=
  index r' = index r /\ buffers r' = buffers r /\ forall i, control (descriptor r' i) = control (descriptor r i).

Lemma dma_send_load r : (engine_at r < length (descriptors r))%nat -> same_load r (dma_send r).1.
Proof.
  intros He. unfold dma_send. destruct (running r); cbn [negb fst]; [|done]. destruct (owned _); cbn [negb fst]; [|done].
  split; [done|]. split; [done|]. intros i. rewrite descriptor_insert by done. case_decide as E; [by subst i|done].
Qed.

Lemma tx_send_during ix r q :
  tx_queue (settled_at ix r) q ->
  exists q', q = option_list (dma_send r).2 ++ q' /\ tx_queue (settled_at ix (dma_send r).1) q'.
Proof.
  intros Hq. pose proof (tx_send _ _ Hq) as Hs. unfold dma_send in *. cbn [running settled_at negb] in Hs.
  destruct (running r); cbn [negb fst snd]; [|by exists q].
  change (descriptor (settled_at ix r) (engine_at (settled_at ix r))) with (descriptor r (engine_at r)) in Hs.
  destruct (owned (descriptor r (engine_at r))); cbn [negb fst snd] in *; destruct q as [|f q]; destruct Hs as [Ho Hs]; try done.
  - exists q. apply Some_inj in Ho. split; [by rewrite <- Ho|exact Hs].
  - by exists [].
Qed.

Lemma tx_sends_during n ix : forall r q,
  tx_queue (settled_at ix r) q ->
  exists q', q = (dma_sends n r).2 ++ q' /\ tx_queue (settled_at ix (dma_sends n r).1) q' /\ same_load r (dma_sends n r).1.
Proof.
  induction n as [|n IH]; intros r q Hq; [by exists q|]. cbn [dma_sends].
  destruct (tx_send_during ix r q Hq) as (q1 & -> & Hq1).
  pose proof (dma_send_load r) as Hl. destruct Hl as (L1 & L2 & L3).
  { pose proof (tq_ring _ _ Hq) as Hr. pose proof (ch_count _ Hr). pose proof (ch_engine _ Hr). cbn in *. lia. }
  destruct (dma_send r) as [r1 o]. cbn [fst snd] in *. destruct (IH r1 q1 Hq1) as (q2 & -> & Hq2 & M1 & M2 & M3).
  destruct (dma_sends n r1) as [r2 l]. cbn [fst snd] in *. exists q2. rewrite app_assoc. split; [done|]. split; [done|].
  split; [congruence|]. split; [congruence|]. intros i. by rewrite M3.
Qed.

(** Until the status is written the descriptor is the driver's own. *)
Lemma tx_prepare r q st ctl b :
  tx_queue (settled_at (index r) r) q -> (length q < 8)%nat -> owned (Descriptor st ctl 0 0) = false -> length b = ETHERNET_BUFFER_SIZE ->
  tx_queue (settled_at (index r) (Ring (<[index r := Descriptor st ctl (bufferAddress (descriptor r (index r)))
      (nextDescriptor (descriptor r (index r)))]> (descriptors r)) (<[index r := b]> (buffers r)) (index r) (engine_at r) (running r))) q.
Proof.
  intros [Hr Hl Hi Hh Hf _] H8 Ho Hb. cbn [settled_at index engine_at descriptors buffers] in *.
  pose proof (ch_count _ Hr) as Hc. pose proof (ch_buffers _ Hr) as Hbs. cbn in Hc, Hbs. pose proof (ch_index _ Hr) as Hix. cbn in Hix.
  split; cbn [settled_at index engine_at running descriptors buffers]; try done.
  - pose proof (chained_update (settled_at (index r) r) (index r) st ctl b (index r) (engine_at r) true Hr Hix Hb Hix (ch_engine _ Hr)) as Hx.
    exact Hx.
  - intros k g Hk. unfold holds_frame, settled_at; cbn [descriptors buffers index engine_at]. rewrite descriptor_insert, buffer_insert by lia. pose proof (lookup_lt_Some _ _ _ Hk).
    case_decide as E; [rewrite Hi in E; apply place_inj in E; lia|]. by apply Hh.
  - intros k Hk. unfold settled_at; cbn [descriptors buffers index engine_at]. rewrite descriptor_insert by lia. case_decide as E; [exact Ho|]. by apply Hf.
Qed.

(** The status write hands the frame over. *)
Lemma tx_hand_over r q f :
  tx_queue (settled_at (index r) r) q -> (length q < 8)%nat ->
  control (descriptor r (index r)) = Z.of_nat (length f) -> take (length f) (buffer r (index r)) = f ->
  tx_queue (settled_at (following (index r)) (write_status tx_status r)) (q ++ [f]).
Proof.
  intros [Hr Hl Hi Hh Hf _] H8 Hctl Hbuf. cbn [settled_at index engine_at descriptors buffers] in *.
  pose proof (ch_count _ Hr) as Hc. cbn in Hc. pose proof (ch_index _ Hr) as Hix. cbn in Hix.
  unfold write_status. split; cbn [settled_at index engine_at running descriptors buffers]; try done.
  - exact (chained_status (settled_at (index r) r) (index r) _ _ _ (engine_at r) true Hr Hix (following_lt _) (ch_engine _ Hr)).
  - rewrite length_app. cbn. lia.
  - rewrite length_app, Hi, place_next. f_equal. cbn. lia.
  - intros k g Hk. unfold holds_frame, settled_at; cbn [descriptors buffers index engine_at]. rewrite descriptor_insert by lia.
    apply lookup_app_Some in Hk as [Hk|[Hge Hk]].
    + pose proof (lookup_lt_Some _ _ _ Hk). case_decide as E; [rewrite Hi in E; apply place_inj in E; lia|]. by apply Hh.
    + destruct (k - length q)%nat as [|m] eqn:Em; [|done]. injection Hk as <-.
      assert (k = length q) as -> by lia. case_decide as E; [|done]. rewrite <- Hi. by split.
  - intros k Hk. rewrite length_app in Hk. cbn [length] in Hk. unfold settled_at; cbn [descriptors buffers index engine_at]. rewrite descriptor_insert by lia.
    case_decide as E; [rewrite Hi in E; apply place_inj in E; lia|]. apply Hf. lia.
Qed.

Lemma tx_write_buffer r q f :
  tx_queue (settled_at (index r) r) q -> (length q < 8)%nat -> (length f <= ETHERNET_BUFFER_SIZE)%nat ->
  tx_queue (settled_at (index r) (write_buffer f r)) q /\ take (length f) (buffer (write_buffer f r) (index r)) = f.
Proof.
  intros Hq H8 Hf. pose proof (tq_ring _ _ Hq) as Hr. pose proof (ch_count _ Hr) as Hc. pose proof (ch_buffers _ Hr) as Hb.
  pose proof (ch_index _ Hr) as Hix. pose proof (buffer_size _ _ Hr Hix) as Hsz. cbn in Hc, Hb, Hix.
  change (length (buffer r (index r)) = ETHERNET_BUFFER_SIZE) in Hsz. split.
  - pose proof (tx_prepare r q (status (descriptor r (index r))) (control (descriptor r (index r)))
      (f ++ drop (length f) (buffer r (index r))) Hq H8) as Hp.
    replace (<[index r:=_]> (descriptors r)) with (descriptors r) in Hp; [apply Hp|].
    + pose proof (tq_free _ _ Hq (length q) ltac:(lia)) as Ho. rewrite <- (tq_index _ _ Hq) in Ho. exact Ho.
    + rewrite length_app, length_drop. lia.
    + symmetry. apply list_insert_id. unfold descriptor. rewrite nth_lookup.
      destruct (lookup_lt_is_Some_2 (descriptors r) (index r)) as [d Hd]; [lia|]. rewrite Hd. by destruct d.
  - unfold write_buffer. rewrite buffer_insert by lia. rewrite decide_True by done. by rewrite take_app_length.
Qed.

Lemma tx_write_control r q n :
  tx_queue (settled_at (index r) r) q -> (length q < 8)%nat ->
  tx_queue (settled_at (index r) (write_control n r)) q /\ control (descriptor (write_control n r) (index r)) = n.
Proof.
  intros Hq H8. pose proof (tq_ring _ _ Hq) as Hr. pose proof (ch_count _ Hr) as Hc. pose proof (ch_buffers _ Hr) as Hb.
  pose proof (ch_index _ Hr) as Hix. pose proof (buffer_size _ _ Hr Hix) as Hsz. cbn in Hc, Hb, Hix. split.
  - pose proof (tx_prepare r q (status (descriptor r (index r))) n (buffer r (index r)) Hq H8) as Hp.
    replace (<[index r:=_]> (buffers r)) with (buffers r) in Hp; [apply Hp; [|exact Hsz]|].
    + pose proof (tq_free _ _ Hq (length q) ltac:(lia)) as Ho. rewrite <- (tq_index _ _ Hq) in Ho. exact Ho.
    + symmetry. apply list_insert_id. unfold buffer. rewrite nth_lookup.
      destruct (lookup_lt_is_Some_2 (buffers r) (index r)) as [d Hd]; [lia|]. by rewrite Hd.
  - unfold write_control. rewrite descriptor_insert by lia. by rewrite decide_True.
Qed.

(** The writes of a frame, with the engine running between them. *)
Lemma tx_perform r q f pauses :
  tx_queue r q -> (length q < 8)%nat -> (length f <= ETHERNET_BUFFER_SIZE)%nat ->
  exists q', q ++ [f] = (perform (transmit_writes f) pauses r).2 ++ q' /\ tx_queue (perform (transmit_writes f) pauses r).1 q'.
Proof.
  intros Hq H8 Hf. assert (tx_queue (settled_at (index r) r) q) as H0 by (by destruct Hq as [[] ]; split).
  unfold transmit_writes. cbn [perform].
  destruct (tx_sends_during (hd 0%nat pauses) _ _ _ H0) as (q1 & -> & H1 & I1 & _ & _).
  destruct (dma_sends (hd 0%nat pauses) r) as [r1 l1]. cbn [fst snd] in *. rewrite <- I1 in H1. rewrite length_app in H8.
  destruct (tx_write_buffer r1 q1 f H1 ltac:(lia) Hf) as [H2 B2].
  generalize (tl pauses). intros ps1. set (r1' := write_buffer f r1) in *. change (index r1) with (index r1') in H2, B2.
  destruct (tx_sends_during (hd 0%nat ps1) _ _ _ H2) as (q2 & -> & H3 & I2 & B3 & _).
  destruct (dma_sends (hd 0%nat ps1) r1') as [r2 l2]. cbn [fst snd] in *. rewrite <- I2 in H3. rewrite length_app in H8.
  unfold buffer in B2. rewrite <- I2, <- B3 in B2. fold (buffer r2 (index r2)) in B2.
  destruct (tx_write_control r2 q2 (Z.of_nat (length f)) H3 ltac:(lia)) as [H4 C4].
  generalize (tl ps1). intros ps2. set (r2' := write_control _ r2) in *. change (index r2) with (index r2') in H4, C4, B2.
  change (buffer r2) with (buffer r2') in B2.
  destruct (tx_sends_during (hd 0%nat ps2) _ _ _ H4) as (q3 & -> & H5 & I3 & B5 & C5).
  destruct (dma_sends (hd 0%nat ps2) r2') as [r3 l3]. cbn [fst snd] in *. rewrite <- I3 in H5. rewrite length_app in H8.
  unfold buffer in B2. rewrite <- I3, <- B5 in B2. rewrite <- C5, <- I3 in C4.
  pose proof (tx_hand_over r3 q3 f H5 ltac:(lia) C4 B2) as H6.
  generalize (tl ps2). intros ps3. set (r3' := write_status _ r3) in *.
  destruct (tx_sends_during (hd 0%nat ps3) _ _ _ H6) as (q4 & E4 & H7 & I4 & _ & _).
  destruct (dma_sends (hd 0%nat ps3) r3') as [r4 l4]. cbn [fst snd] in *.
  change (index r3) with (index r3') in H7. rewrite <- I4 in H7. change (settled_at (following (index r4)) r4) with
    (settled_at (index (advance r4)) (advance r4)) in H7.
  generalize (tl ps3). intros ps4. destruct (tx_sends_during (hd 0%nat ps4) _ _ _ H7) as (q5 & E5 & H9 & I5 & _ & _).
  destruct (dma_sends (hd 0%nat ps4) (advance r4)) as [r5 l5]. cbn [fst snd] in *. rewrite <- I5 in H9.
  exists q5. split; [|exact H9]. rewrite app_nil_r, <- !app_assoc. do 3 f_equal. by rewrite E4, E5.
Qed.

(** A call, for every argument. *)
Lemma tx_transmit_during pauses r q frame :
  tx_queue r q ->
  match frame with
  | Some f =>
      if (length f =? 0)%nat then EthernetMac_Transmit_during pauses r frame = (r, [], ETHERNET_STATUS_INVALID_ARGUMENT)
      else if (ETHERNET_BUFFER_SIZE <? length f)%nat
      then EthernetMac_Transmit_during pauses r frame = (r, [], ETHERNET_STATUS_FRAME_TOO_LARGE)
      else if (length q =? 8)%nat then EthernetMac_Transmit_during pauses r frame = (r, [], ETHERNET_STATUS_TRANSMIT_BUSY)
      else exists r' l q', EthernetMac_Transmit_during pauses r frame = (r', l, ETHERNET_STATUS_OK)
             /\ q ++ [f] = l ++ q' /\ tx_queue r' q'
  | None => EthernetMac_Transmit_during pauses r frame = (r, [], ETHERNET_STATUS_INVALID_ARGUMENT)
  end.
Proof.
  intros Hq. pose proof (tx_full r q Hq) as Hfull. destruct frame as [f|]; [|done]. unfold EthernetMac_Transmit_during.
  destruct (length f =? 0)%nat; [done|]. destruct (Nat.ltb_spec ETHERNET_BUFFER_SIZE (length f)); [done|].
  destruct (Nat.eqb_spec (length q) 8) as [H8|H8]; [by rewrite (proj2 Hfull H8)|].
  destruct (owned (descriptor r (index r))); [by rewrite (proj1 Hfull eq_refl) in H8|].
  pose proof (tq_length _ _ Hq). destruct (tx_perform r q f pauses Hq ltac:(lia) ltac:(lia)) as (q' & E & Hq').
  destruct (perform _ pauses r) as [r' l]. by exists r', l, q'.
Qed.

(** By itself. *)
Lemma tx_transmit r q f :
  tx_queue r q -> sendable f ->
  if decide (length q = 8%nat) then EthernetMac_Transmit r (Some f) = (r, ETHERNET_STATUS_TRANSMIT_BUSY)
  else exists r', EthernetMac_Transmit r (Some f) = (r', ETHERNET_STATUS_OK) /\ tx_queue r' (q ++ [f]).
Proof.
  intros Hq [Hf1 Hf2]. pose proof (tx_transmit_during [] r q (Some f) Hq) as Ht. cbn beta iota in Ht.
  rewrite (proj2 (Nat.eqb_neq _ _)), (proj2 (Nat.ltb_ge _ _)) in Ht by lia. unfold EthernetMac_Transmit.
  case_decide as H8.
  - rewrite (proj2 (Nat.eqb_eq _ _) H8) in Ht. by rewrite Ht.
  - rewrite (proj2 (Nat.eqb_neq _ _) H8) in Ht. destruct Ht as (r' & l & q' & E & Ea & Hq').
    assert (l = []) as ->.
    { unfold EthernetMac_Transmit_during in E. rewrite (proj2 (Nat.eqb_neq _ _)), (proj2 (Nat.ltb_ge _ _)) in E by lia.
      destruct (owned _); [done|]. by injection E as _ <-. }
    rewrite E. exists r'. split; [done|]. by rewrite Ea.
Qed.

(** What happens on the transmit side: a call of the driver, during which the
    engine may take steps, or a step of the engine at any other time. *)
Inductive tx_event := TxSubmit (frame : option bytes) (pauses : list nat) | TxEngine.

(** The ring, the frames accepted by the driver and those on the wire. *)
Definition tx_step (x : ring * list bytes * list bytes) (e : tx_event) : ring * list bytes * list bytes :=
  let '(r, accepted, sent) := x in
  match e with
  | TxSubmit f pauses =>
      let '(r, l, st) := EthernetMac_Transmit_during pauses r f in
      (r, if decide (st = ETHERNET_STATUS_OK) then accepted ++ option_list f else accepted, sent ++ l)
  | TxEngine => let '(r, o) := dma_send r in (r, accepted, sent ++ option_list o)
  end.

Definition tx_run (r : ring) (l : list tx_event) : ring * list bytes * list bytes := fold_left tx_step l (r, [], []).

Lemma tx_step_queue r accepted sent e r' accepted' sent' :
  (exists q, tx_queue r q /\ accepted = sent ++ q) -> tx_step (r, accepted, sent) e = (r', accepted', sent') ->
  exists q, tx_queue r' q /\ accepted' = sent' ++ q.
Proof.
  intros (q & Hq & ->). destruct e as [f pauses|]; cbn [tx_step].
  - pose proof (tx_transmit_during pauses r q f Hq) as Ht. destruct f as [f|].
    + destruct (length f =? 0)%nat; [rewrite Ht; cbn; rewrite app_nil_r; intros [= <- <- <-]; by exists q|].
      destruct (ETHERNET_BUFFER_SIZE <? length f)%nat; [rewrite Ht; cbn; rewrite app_nil_r; intros [= <- <- <-]; by exists q|].
      destruct (length q =? 8)%nat; [rewrite Ht; cbn; rewrite app_nil_r; intros [= <- <- <-]; by exists q|].
      destruct Ht as (r1 & l & q' & -> & E & Hq'). cbn. intros [= <- <- <-]. exists q'. by rewrite <- !app_assoc, E.
    + rewrite Ht. cbn. rewrite !app_nil_r. intros [= <- <- <-]. by exists q.
  - pose proof (tx_send r q Hq) as Ht. destruct (dma_send r) as [r1 o]. cbn [fst snd] in Ht.
    destruct q as [|f q]; destruct Ht as [-> Hq']; intros [= <- <- <-].
    + exists []. by rewrite !app_nil_r.
    + exists q. split; [done|]. by rewrite <-app_assoc.
Qed.

Lemma tx_run_queue l : forall r accepted sent r' accepted' sent',
  (exists q, tx_queue r q /\ accepted = sent ++ q) -> fold_left tx_step l (r, accepted, sent) = (r', accepted', sent') ->
  exists q, tx_queue r' q /\ accepted' = sent' ++ q.
Proof.
  induction l as [|e l IH]; intros r accepted sent r' accepted' sent' Hq E; [by injection E as <- <- <-|].
  cbn [fold_left] in E. destruct (tx_step (r, accepted, sent) e) as [[r1 a1] s1] eqn:E1.
  eapply IH; [|exact E]. by eapply tx_step_queue.
Qed.

(** What a submission answers when [waiting] frames are waiting. *)
Definition tx_answer (waiting : nat) (frame : option bytes) : Ethernet_StatusTypeDef :=
  match frame with
  | None => ETHERNET_STATUS_INVALID_ARGUMENT
  | Some f =>
      if (length f =? 0)%nat then ETHERNET_STATUS_INVALID_ARGUMENT
      else if (ETHERNET_BUFFER_SIZE <? length f)%nat then ETHERNET_STATUS_FRAME_TOO_LARGE
      else if (waiting =? 8)%nat then ETHERNET_STATUS_TRANSMIT_BUSY else ETHERNET_STATUS_OK
  end.

(** C34. The transmit ring is a queue of eight frames: whatever the submissions
    and the DMA activity, also between the single writes of a submission, the
    frames on the wire are the accepted ones, complete, in order and each once;
    those not yet sent are at most eight, the engine's next step sends the oldest,
    and no buffer outgrows its place.  A submission is refused exactly when its
    frame is missing or empty (invalid argument), longer than a buffer (too large)
    or eight frames are waiting at its start (busy), each with its own status, and
    a refused one changes nothing. *)
Theorem transmit_ring_is_queue contents l r accepted sent :
  length contents = 8%nat -> Forall (fun b => length b = ETHERNET_BUFFER_SIZE) contents ->
  tx_run (init_transmit contents) l = (r, accepted, sent) ->
  exists pending, accepted = sent ++ pending /\ (length pending <= 8)%nat
    /\ (dma_send r).2 = head pending
    /\ Forall (fun b => length b = ETHERNET_BUFFER_SIZE) (buffers r)
    /\ forall frame pauses,
         let '(r', sent', st) := EthernetMac_Transmit_during pauses r frame in
         st = tx_answer (length pending) frame /\ (st <> ETHERNET_STATUS_OK -> r' = r /\ sent' = []).
Proof.
  intros Hc Hs E. destruct (tx_run_queue l (init_transmit contents) [] [] r accepted sent) as (q & Hq & ->);
    [exists []; split; [by apply tx_init|done]|exact E|].
  exists q. split; [done|]. split; [apply Hq|]. split; [|split; [apply (tq_ring _ _ Hq)|]].
  - pose proof (tx_send r q Hq) as Ht. destruct q; apply Ht.
  - intros frame pauses. pose proof (tx_transmit_during pauses r q frame Hq) as Ht. unfold tx_answer.
    destruct frame as [f|]; [|by rewrite Ht]. destruct (length f =? 0)%nat; [by rewrite Ht|].
    destruct (_ <? _)%nat; [by rewrite Ht|]. destruct (_ =? 8)%nat; [by rewrite Ht|].
    destruct Ht as (r' & l' & q' & -> & _). by split.
Qed.

(** ** Reception *)

Definition intact (a : arrival) : bool := negb (in_error a) && first_segment a && last_segment a.

(** A frame with its checksum fits a buffer. *)
Definition arrival_ok (a : arrival) : Prop := (length (payload a) + 4 <= ETHERNET_BUFFER_SIZE)%nat.

(** The status word of such a frame, for every length and all flags. *)
Definition rx_word (n : Z) (e f l : bool) : Z :=
  Z.lor (Z.lor (Z.lor (Z.shiftl (n + 4) 16) (if e then ETHERNET_RX_ERROR else 0)) (if f then ETHERNET_RX_FIRST_SEGMENT else 0))
    (if l then ETHERNET_RX_LAST_SEGMENT else 0).

Definition rx_word_ok (n : Z) (e f l : bool) : bool :=
  (Z.land (rx_word n e f l) ETHERNET_OWN =? 0)
  && Bool.eqb (Z.land (rx_word n e f l) ETHERNET_RX_ERROR =? 0) (negb e)
  && Bool.eqb (Z.land (rx_word n e f l) ETHERNET_RX_FIRST_SEGMENT =? 0) (negb f)
  && Bool.eqb (Z.land (rx_word n e f l) ETHERNET_RX_LAST_SEGMENT =? 0) (negb l)
  && (ETHERNET_RX_FRAME_LENGTH (rx_word n e f l) =? n + 4).

Lemma rx_words_ok :
  forallb (fun n => forallb (fun e => forallb (fun f => forallb (fun l => rx_word_ok (Z.of_nat n) e f l)
    [true; false]) [true; false]) [true; false]) (seq 0 1533) = true.
Proof. vm_compute. reflexivity. Qed.

Lemma rx_status_bits a :
  arrival_ok a ->
  Z.land (rx_status a) ETHERNET_OWN = 0
  /\ (Z.land (rx_status a) ETHERNET_RX_ERROR =? 0) = negb (in_error a)
  /\ (Z.land (rx_status a) ETHERNET_RX_FIRST_SEGMENT =? 0) = negb (first_segment a)
  /\ (Z.land (rx_status a) ETHERNET_RX_LAST_SEGMENT =? 0) = negb (last_segment a)
  /\ ETHERNET_RX_FRAME_LENGTH (rx_status a) = Z.of_nat (length (payload a)) + 4.
Proof.
  intros Ha. unfold arrival_ok, ETHERNET_BUFFER_SIZE in Ha. pose proof rx_words_ok as Hw. rewrite forallb_forall in Hw.
  specialize (Hw (length (payload a)) ltac:(apply in_seq; lia)).
  assert (forall (p : bool -> bool), forallb p [true; false] = true -> forall b, p b = true) as Hb
    by (intros p Hp b; cbn in Hp; rewrite !andb_true_iff in Hp; destruct b; apply Hp).
  pose proof (Hb _ (Hb _ (Hb _ Hw (in_error a)) (first_segment a)) (last_segment a)) as H. cbv beta in H.
  unfold rx_word_ok in H. fold (rx_status a) in H.
  change (rx_word (Z.of_nat (length (payload a))) (in_error a) (first_segment a) (last_segment a)) with (rx_status a) in H.
  rewrite !andb_true_iff, !Bool.eqb_true_iff in H. destruct H as [[[[H1%Z.eqb_eq H2] H3] H4] H5%Z.eqb_eq]. done.
Qed.

(** A descriptor the engine has filled. *)
Definition holds_arrival (r : ring) (i : nat) (a : arrival) : Prop :=
  status (descriptor r i) = rx_status a /\ take (length (payload a)) (buffer r i) = payload a.

(** The ring holds the arrivals [q], from the driver's place on. *)
Record rx_queue (r : ring) (q : list arrival) : Prop := {
  rq_ring : chained r;
  rq_length : (length q <= 8)%nat;
  rq_engine : engine_at r = place (index r) (length q);
  rq_fit : Forall arrival_ok q;
  rq_held : forall k a, q !! k = Some a -> holds_arrival r (place (index r) k) a;
  rq_free : forall k, (length q <= k < 8)%nat -> owned (descriptor r (place (index r) k)) = true;
}.

Lemma rx_init contents :
  length contents = 8%nat -> Forall (fun b => length b = ETHERNET_BUFFER_SIZE) contents -> rx_queue (init_receive contents) [].
Proof.
  intros Hc Hs. split; [by apply init_chained|cbn; lia|done|done|done|].
  intros k Hk. unfold owned, init_receive. by rewrite init_descriptor by apply place_lt.
Qed.

Lemma arrival_not_owned r i a : arrival_ok a -> holds_arrival r i a -> owned (descriptor r i) = false.
Proof. intros Ha [Hs _]. unfold owned. rewrite Hs. by rewrite (proj1 (rx_status_bits a Ha)). Qed.

(** A frame that arrives is stored unless eight are waiting; then it is lost. *)
Lemma rx_arrive r q a checksum :
  rx_queue r q -> arrival_ok a -> length checksum = 4%nat ->
  if decide (length q = 8%nat)
  then (dma_receive r a checksum).2 = false /\ rx_queue (dma_receive r a checksum).1 q
  else (dma_receive r a checksum).2 = true /\ rx_queue (dma_receive r a checksum).1 (q ++ [a]).
Proof.
  intros [Hr Hl He Hfit Hh Hf] Ha Hc. pose proof (ch_engine r Hr) as Hen. unfold dma_receive.
  case_decide as H8.
  - destruct q as [|b q]; [done|].
    assert (place (index r) (length (b :: q)) = place (index r) 0) as E0 by (rewrite H8; unfold place; lia).
    rewrite He, E0, (arrival_not_owned r _ b); [|by apply list.Forall_cons in Hfit as [? _]|by apply (Hh 0%nat)].
    cbn [negb fst snd]. rewrite <-E0, <-He.
    split; [done|]. split; [by apply chained_running|done|done|done|done|done].
  - assert (owned (descriptor r (engine_at r)) = true) as Ho by (rewrite He; apply Hf; lia).
    rewrite Ho. cbn [negb fst snd]. split; [done|]. destruct (ch_own r Hr _ Hen) as [Eb En]. rewrite Eb, En.
    pose proof (buffer_size r _ Hr Hen) as Hsz. pose proof (ch_count r Hr) as Hcnt. pose proof (ch_buffers r Hr) as Hb.
    rewrite (take_ge (payload a ++ checksum)) by (rewrite length_app; unfold arrival_ok in Ha; lia).
    unfold arrival_ok in Ha. split; cbn [index engine_at].
    + pose proof (chained_update r (engine_at r) (rx_status a) (control (descriptor r (engine_at r)))
        ((payload a ++ checksum) ++ drop (length (payload a ++ checksum)) (buffer r (engine_at r)))
        (index r) (following (engine_at r)) true Hr Hen) as Hch.
      rewrite Eb, En in Hch. apply Hch; [|apply Hr|apply following_lt].
      rewrite length_app, length_drop, length_app. lia.
    + rewrite length_app. cbn. lia.
    + rewrite length_app, He, place_next. f_equal. cbn. lia.
    + apply Forall_app. by split; [|constructor].
    + intros k b Hk. unfold holds_arrival. rewrite descriptor_insert by lia. rewrite buffer_insert by lia.
      apply lookup_app_Some in Hk as [Hk|[Hge Hk]].
      * pose proof (lookup_lt_Some _ _ _ Hk). case_decide as E; [rewrite He in E; apply place_inj in E; lia|]. by apply Hh.
      * destruct (k - length q)%nat as [|m] eqn:Em; [|done]. injection Hk as <-.
        assert (k = length q) as -> by lia. case_decide as E; [|done].
        split; [done|]. by rewrite <-app_assoc, take_app_length.
    + intros k Hk. rewrite length_app in Hk. cbn [length] in Hk. rewrite descriptor_insert by lia.
      case_decide as E; [rewrite He in E; apply place_inj in E; lia|]. apply Hf. lia.
Qed.

(** Releasing the oldest frame. *)
Lemma rx_release r a q : rx_queue r (a :: q) -> rx_queue (EthernetMac_ReleaseReceivedFrame r) q.
Proof.
  intros [Hr Hl He Hfit Hh Hf]. cbn in Hl. pose proof (ch_index r Hr) as Hi. pose proof (ch_count r Hr) as Hcnt.
  apply list.Forall_cons in Hfit as [_ Hfit]. unfold EthernetMac_ReleaseReceivedFrame. split; cbn [index engine_at].
  - apply chained_status; [done|done|apply following_lt|apply Hr].
  - lia.
  - rewrite He. cbn [length]. apply place_S.
  - done.
  - intros k b Hk. rewrite <-place_S. unfold holds_arrival. rewrite descriptor_insert by lia.
    pose proof (lookup_lt_Some _ _ _ Hk).
    case_decide as E; [rewrite <-(place_0 (index r) Hi) in E at 1; apply place_inj in E; lia|]. by apply (Hh (S k)).
  - intros k Hk. rewrite <-place_S. rewrite descriptor_insert by lia. case_decide as E; [done|].
    apply (Hf (S k)). cbn. split; [lia|]. destruct (decide (k = 7%nat)) as [->|]; [|lia].
    exfalso. apply E. unfold place. lia.
Qed.

(** Polling the ring: the oldest frame is handed out whole, or dropped if it is
    not intact. *)
Lemma rx_get r q :
  rx_queue r q ->
  EthernetMac_GetReceivedFrame r
  = match q with
    | [] => (r, ETHERNET_STATUS_NO_FRAME, None)
    | a :: _ =>
        if intact a then (r, ETHERNET_STATUS_OK, Some (payload a))
        else (EthernetMac_ReleaseReceivedFrame r, ETHERNET_STATUS_FRAME_ERROR, None)
    end.
Proof.
  intros [Hr Hl He Hfit Hh Hf]. pose proof (ch_index r Hr) as Hi. unfold EthernetMac_GetReceivedFrame. destruct q as [|a q].
  - pose proof (Hf 0%nat ltac:(cbn; lia)) as H0. rewrite place_0 in H0 by done. unfold owned in H0. by rewrite H0.
  - apply list.Forall_cons in Hfit as [Ha _]. destruct (Hh 0%nat a eq_refl) as [Hs Hb]. rewrite place_0 in Hs, Hb by done.
    rewrite Hs. destruct (rx_status_bits a Ha) as (H1 & H2 & H3 & H4 & H5). rewrite H1, H2, H3, H4, H5. cbn [Z.eqb negb].
    unfold intact. rewrite (proj2 (Z.ltb_ge _ 4)) by lia. rewrite orb_false_r, negb_involutive.
    destruct (in_error a), (first_segment a), (last_segment a); cbn [negb orb andb]; try done.
    unfold arrival_ok in Ha. rewrite (proj2 (Z.ltb_ge _ _)) by lia.
    replace (Z.to_nat (Z.of_nat (length (payload a)) + 4 - 4)) with (length (payload a)) by lia. by rewrite Hb.
Qed.

(** What happens on the receive side: a frame arrives with its checksum bytes,
    or the network task polls the ring and, once done with a frame, gives it
    back. *)
Inductive rx_event := RxArrive (a : arrival) (checksum : bytes) | RxPoll.

(** The ring, the arrivals stored and those taken out, with what the poll
    returned for each. *)
Definition rx_step (x : ring * list arrival * list (option bytes)) (e : rx_event) : ring * list arrival * list (option bytes) :=
  let '(r, stored, taken) := x in
  match e with
  | RxArrive a checksum =>
      let '(r, room) := dma_receive r a checksum in (r, if room then stored ++ [a] else stored, taken)
  | RxPoll =>
      let '(r, st, frame) := EthernetMac_GetReceivedFrame r in
      match st, frame with
      | ETHERNET_STATUS_NO_FRAME, _ => (r, stored, taken)
      | ETHERNET_STATUS_OK, Some f => (EthernetMac_ReleaseReceivedFrame r, stored, taken ++ [Some f])
      | _, _ => (r, stored, taken ++ [None])
      end
  end.

Definition rx_event_ok (e : rx_event) : Prop :=
  match e with RxArrive a checksum => arrival_ok a /\ length checksum = 4%nat | RxPoll => True end.

(** What the network task is to see of an arrival. *)
Definition seen (a : arrival) : option bytes := if intact a then Some (payload a) else None.

Lemma rx_step_queue r stored taken e r' stored' taken' :
  (exists gone q, rx_queue r q /\ stored = gone ++ q /\ taken = map seen gone) -> rx_event_ok e ->
  rx_step (r, stored, taken) e = (r', stored', taken') ->
  exists gone q, rx_queue r' q /\ stored' = gone ++ q /\ taken' = map seen gone.
Proof.
  intros (gone & q & Hq & -> & ->) He. destruct e as [a c|]; cbn [rx_step].
  - destruct He as [Ha Hc]. pose proof (rx_arrive r q a c Hq Ha Hc) as H. destruct (dma_receive r a c) as [r1 room].
    cbn [fst snd] in H. case_decide; destruct H as [-> H]; intros [= <- <- <-].
    + by exists gone, q.
    + exists gone, (q ++ [a]). by rewrite <-app_assoc.
  - rewrite (rx_get r q Hq). destruct q as [|a q]; [intros [= <- <- <-]; by exists gone, []|].
    pose proof (rx_release r a q Hq) as Hrel.
    destruct (intact a) eqn:Ei; intros [= <- <- <-]; exists (gone ++ [a]), q;
      rewrite <-app_assoc, map_app; cbn [map]; unfold seen at 3; by rewrite Ei.
Qed.

Lemma rx_run_queue l : forall r stored taken r' stored' taken',
  (exists gone q, rx_queue r q /\ stored = gone ++ q /\ taken = map seen gone) -> Forall rx_event_ok l ->
  fold_left rx_step l (r, stored, taken) = (r', stored', taken') ->
  exists gone q, rx_queue r' q /\ stored' = gone ++ q /\ taken' = map seen gone.
Proof.
  induction l as [|e l IH]; intros r stored taken r' stored' taken' Hq Hl E; [by injection E as <- <- <-|].
  apply list.Forall_cons in Hl as [He Hl]. cbn [fold_left] in E.
  destruct (rx_step (r, stored, taken) e) as [[r1 a1] s1] eqn:E1. eapply IH; [|exact Hl|exact E]. by eapply rx_step_queue.
Qed.

(** The receive ring is a queue of eight frames: whatever the interleaving of
    arrivals and polls, the polls return the stored frames in order and each
    once, an intact frame with exactly its bytes and a damaged or split one as
    an error; a frame is lost only when eight are waiting. *)
Lemma receive_ring_is_queue contents l r stored taken :
  length contents = 8%nat -> Forall (fun b => length b = ETHERNET_BUFFER_SIZE) contents -> Forall rx_event_ok l ->
  fold_left rx_step l (init_receive contents, [], []) = (r, stored, taken) ->
  exists gone waiting, stored = gone ++ waiting /\ taken = map seen gone /\ (length waiting <= 8)%nat
    /\ forall a checksum, arrival_ok a -> length checksum = 4%nat ->
         (dma_receive r a checksum).2 = bool_decide (length waiting < 8)%nat.
Proof.
  intros Hc Hs Hl E. destruct (rx_run_queue l (init_receive contents) [] [] r stored taken) as (gone & q & Hq & -> & ->);
    [exists [], []; split; [by apply rx_init|done]|exact Hl|exact E|].
  exists gone, q. pose proof (rq_length r q Hq) as H8. split; [done|]. split; [done|]. split; [done|].
  intros a c Ha Hk. pose proof (rx_arrive r q a c Hq Ha Hk) as H. case_decide; destruct H as [-> _].
  - by rewrite bool_decide_eq_false_2 by lia.
  - by rewrite bool_decide_eq_true_2 by lia.
Qed.

(** Two frames submitted, the first sent while the second is being submitted; two
    frames received, one damaged. *)
Definition demo_buffers : list bytes := replicate 8 (replicate 1536 0).

Lemma demo_buffers_ok : Forall (fun b => length b = ETHERNET_BUFFER_SIZE) demo_buffers.
Proof. unfold demo_buffers. repeat constructor. Qed.

Definition demo_tx_events : list tx_event := [TxSubmit (Some [1; 2; 3]) []; TxSubmit (Some [4]) [0; 0; 1]%nat; TxSubmit (Some []) []].
Definition demo_rx_events : list rx_event :=
  [RxArrive (Arrival [7; 8] false true true) [0; 0; 0; 0]; RxPoll; RxArrive (Arrival [9] true true true) [0; 0; 0; 0]; RxPoll;
   RxPoll; RxArrive (Arrival [5] false true true) [0; 0; 0; 0]].

Lemma transmit_ring_is_queue_witness :
  exists r accepted sent, tx_run (init_transmit demo_buffers) demo_tx_events = (r, accepted, sent)
    /\ accepted = [[1; 2; 3]; [4]] /\ sent = [[1; 2; 3]]
    /\ exists pending, accepted = sent ++ pending /\ (length pending <= 8)%nat /\ (dma_send r).2 = head pending
         /\ (EthernetMac_Transmit_during [] r (Some (replicate 1537 0))).2 = ETHERNET_STATUS_FRAME_TOO_LARGE.
Proof.
  destruct (tx_run (init_transmit demo_buffers) demo_tx_events) as [[r accepted] sent] eqn:E. exists r, accepted, sent.
  assert ((tx_run (init_transmit demo_buffers) demo_tx_events).1.2 = [[1; 2; 3]; [4]]) as Ha by (vm_compute; reflexivity).
  assert ((tx_run (init_transmit demo_buffers) demo_tx_events).2 = [[1; 2; 3]]) as Hs by (vm_compute; reflexivity).
  rewrite E in Ha, Hs. cbn [fst snd] in Ha, Hs. split; [reflexivity|]. split; [exact Ha|]. split; [exact Hs|].
  destruct (transmit_ring_is_queue demo_buffers demo_tx_events r accepted sent eq_refl demo_buffers_ok E)
    as (q & H1 & H2 & H3 & _ & H4).
  exists q. split; [exact H1|]. split; [exact H2|]. split; [exact H3|].
  specialize (H4 (Some (replicate 1537 0)) []). destruct (EthernetMac_Transmit_during [] r _) as [[r' l'] st].
  destruct H4 as [-> _]. reflexivity.
Defined.

Lemma receive_ring_is_queue_witness :
  exists r stored taken, fold_left rx_step demo_rx_events (init_receive demo_buffers, [], []) = (r, stored, taken)
    /\ taken = [Some [7; 8]; None] /\ length stored = 3%nat
    /\ exists gone waiting, stored = gone ++ waiting /\ taken = map seen gone.
Proof.
  destruct (fold_left rx_step demo_rx_events (init_receive demo_buffers, [], [])) as [[r stored] taken] eqn:E.
  exists r, stored, taken.
  assert (length (fold_left rx_step demo_rx_events (init_receive demo_buffers, [], [])).1.2 = 3%nat) as Ha
    by (vm_compute; reflexivity).
  assert ((fold_left rx_step demo_rx_events (init_receive demo_buffers, [], [])).2 = [Some [7; 8]; None]) as Hs
    by (vm_compute; reflexivity).
  rewrite E in Ha, Hs. cbn [fst snd] in Ha, Hs. split; [reflexivity|]. split; [exact Hs|]. split; [exact Ha|].
  destruct (receive_ring_is_queue demo_buffers demo_rx_events r stored taken eq_refl demo_buffers_ok) as (g & w & H1 & H2 & _);
    [unfold demo_rx_events, rx_event_ok, arrival_ok, ETHERNET_BUFFER_SIZE; repeat constructor; cbn; lia|exact E|].
  exists g, w. split; [exact H1|exact H2].
Defined.
