(* ===== verification/EthernetLink.v ===== *)
(** [Core/Src/ethernet_ll.c] and [Core/Src/init_ll.c]: starting the Ethernet MAC,
    and following the link of the LAN8742 PHY over its management interface.

    The registers of the MAC are plain state, except the three whose contents the
    hardware changes by itself: the DMA bus mode register with its self-clearing
    reset bit, and the two registers of the management interface.  Those are
    behind the interface [Peripheral].  [PhyLaws] is what the data sheets promise
    of a PHY that answers; [SimPhy] is an implementation.  The station address is
    derived from the unique identifier of the microcontroller. *)
From S2P Require Import Prelude Ethernet.

#[local] Ltac Zify.zify_post_hook ::= Z.to_euclidean_division_equations.

(** ** Registers *)

Inductive reg := DMABMR | MACMIIAR | MACMIIDR.

#[global] Instance reg_eq_dec : EqDecision reg.
Proof. solve_decision. Defined.

(** Reading a register may change the state of the hardware. *)
Class Peripheral (H : Type) := {
  read_reg : H -> reg -> H * Z;
  write_reg : H -> reg -> Z -> H;
}.

Definition SET_BIT (r m : Z) : Z := Z.lor r m.
Definition CLEAR_BIT (r m : Z) : Z := Z.land r (Z.lnot m).
Definition MODIFY_REG (r clear set : Z) : Z := Z.lor (Z.land r (Z.lnot clear)) set.

Definition ETH_MACCR_RE : Z := Z.shiftl 1 2.
Definition ETH_MACCR_TE : Z := Z.shiftl 1 3.
Definition ETH_MACCR_IPCO : Z := Z.shiftl 1 10.
Definition ETH_MACCR_DM : Z := Z.shiftl 1 11.
Definition ETH_MACCR_FES : Z := Z.shiftl 1 14.
Definition ETH_DMAOMR_SR : Z := Z.shiftl 1 1.
Definition ETH_DMAOMR_ST : Z := Z.shiftl 1 13.
Definition ETH_DMAOMR_TSF : Z := Z.shiftl 1 21.
Definition ETH_DMAOMR_RSF : Z := Z.shiftl 1 25.
Definition ETH_DMABMR_SR : Z := 1.
Definition ETH_DMABMR_AAB : Z := Z.shiftl 1 25.
Definition ETH_DMABMR_FB : Z := Z.shiftl 1 16.
Definition ETH_DMABMR_RDP : Z := Z.shiftl 0x3F 17.
Definition ETH_DMABMR_RDP_32Beat : Z := 0x400000.
Definition ETH_DMABMR_PBL : Z := Z.shiftl 0x3F 8.
Definition ETH_DMABMR_PBL_32Beat : Z := 0x2000.
Definition ETH_MACMIIAR_MB : Z := 1.
Definition ETH_MACMIIAR_MW : Z := 2.
Definition ETH_MACMIIAR_CR_Pos : Z := 2.
Definition ETH_MACMIIAR_MR_Pos : Z := 6.
Definition ETH_MACMIIAR_PA_Pos : Z := 11.
Definition SYSCFG_PMC_MII_RMII_SEL : Z := Z.shiftl 1 23.
Definition RCC_AHB1RSTR_ETHMACRST : Z := Z.shiftl 1 25.

Definition LAN8742_BCR : Z := 0.
Definition LAN8742_BSR : Z := 1.
Definition LAN8742_PHYSCSR : Z := 0x1F.
Definition LAN8742_BCR_AUTONEGO_EN : Z := 0x1000.
Definition LAN8742_BCR_RESTART_AUTONEGO : Z := 0x0200.
Definition LAN8742_BSR_LINK_STATUS : Z := 4.
Definition LAN8742_PHYSCSR_AUTONEGO_DONE : Z := 0x1000.
Definition LAN8742_PHYSCSR_HCDSPEEDMASK : Z := 0x1C.
Definition LAN8742_PHYSCSR_10BT_HD : Z := 4.
Definition LAN8742_PHYSCSR_10BT_FD : Z := 0x14.
Definition LAN8742_PHYSCSR_100BTX_HD : Z := 8.
Definition LAN8742_PHYSCSR_100BTX_FD : Z := 0x18.

Definition ETHERNET_REGISTER_TIMEOUT : Z := 1000000.

(** The registers only the driver writes, the variables of the file and the two
    rings. *)
Record ethernet (H : Type) := Eth {
  bus : H;
  PMC : Z;
  AHB1RSTR : Z;
  MACCR : Z;
  MACFFR : Z;
  MACFCR : Z;
  MACA0HR : Z;
  MACA0LR : Z;
  DMAOMR : Z;
  ethernetPhyAddress : Z;
  receiving : ring;
  transmitting : ring;
}.
Arguments Eth {H}.
Arguments bus {H}.
Arguments PMC {H}.
Arguments AHB1RSTR {H}.
Arguments MACCR {H}.
Arguments MACFFR {H}.
Arguments MACFCR {H}.
Arguments MACA0HR {H}.
Arguments MACA0LR {H}.
Arguments DMAOMR {H}.
Arguments ethernetPhyAddress {H}.
Arguments receiving {H}.
Arguments transmitting {H}.

Section Driver.
Context {H : Type} `{Peripheral H}.

Definition set_bus (e : ethernet H) (h : H) : ethernet H :=
  Eth h (PMC e) (AHB1RSTR e) (MACCR e) (MACFFR e) (MACFCR e) (MACA0HR e) (MACA0LR e) (DMAOMR e) (ethernetPhyAddress e)
    (receiving e) (transmitting e).
Definition set_MACCR (e : ethernet H) (v : Z) : ethernet H :=
  Eth (bus e) (PMC e) (AHB1RSTR e) v (MACFFR e) (MACFCR e) (MACA0HR e) (MACA0LR e) (DMAOMR e) (ethernetPhyAddress e)
    (receiving e) (transmitting e).

(** [remaining] reads at most. *)
Fixpoint ethernetMac_WaitForClear (remaining : nat) (h : H) (r : reg) (mask : Z) (timeoutStatus : Ethernet_StatusTypeDef) :
    H * Ethernet_StatusTypeDef :=
  let '(h, v) := read_reg h r in
  if Z.land v mask =? 0 then (h, ETHERNET_STATUS_OK) else
  match remaining with
  | S (S _ as remaining) => ethernetMac_WaitForClear remaining h r mask timeoutStatus
  | _ => (h, timeoutStatus)
  end.

Definition wait_mii (h : H) : H * Ethernet_StatusTypeDef :=
  ethernetMac_WaitForClear (Z.to_nat ETHERNET_REGISTER_TIMEOUT) h MACMIIAR ETH_MACMIIAR_MB ETHERNET_STATUS_MDIO_TIMEOUT.

(** The word that starts a management transfer. *)
Definition mii_command (write phyAddress registerAddress : Z) : Z :=
  Z.lor (Z.lor (Z.lor (Z.lor ETH_MACMIIAR_MB write) (Z.shiftl 4 ETH_MACMIIAR_CR_Pos)) (Z.shiftl registerAddress ETH_MACMIIAR_MR_Pos))
    (Z.shiftl phyAddress ETH_MACMIIAR_PA_Pos).

Definition ethernetMac_WritePhy (h : H) (phyAddress registerAddress value : Z) : H * Ethernet_StatusTypeDef :=
  let '(h, status) := wait_mii h in
  if negb (bool_decide (status = ETHERNET_STATUS_OK)) then (h, status) else
  let h := write_reg h MACMIIDR value in
  let h := write_reg h MACMIIAR (mii_command ETH_MACMIIAR_MW phyAddress registerAddress) in
  wait_mii h.

(** The value is written only on success. *)
Definition ethernetMac_ReadPhy (h : H) (phyAddress registerAddress : Z) (value : Z) : H * Ethernet_StatusTypeDef * Z :=
  let '(h, status) := wait_mii h in
  if negb (bool_decide (status = ETHERNET_STATUS_OK)) then (h, status, value) else
  let h := write_reg h MACMIIAR (mii_command 0 phyAddress registerAddress) in
  let '(h, status) := wait_mii h in
  if bool_decide (status = ETHERNET_STATUS_OK)
  then let '(h, v) := read_reg h MACMIIDR in (h, status, u16 v)
  else (h, status, value).

Definition ethernetMac_ConfigureLink (e : ethernet H) (phyAddress : Z) : ethernet H * Ethernet_StatusTypeDef :=
  let '(h, status, phyStatus) := ethernetMac_ReadPhy (bus e) phyAddress LAN8742_PHYSCSR 0 in
  let e := set_bus e h in
  if negb (bool_decide (status = ETHERNET_STATUS_OK)) then (e, status) else
  if Z.land phyStatus LAN8742_PHYSCSR_AUTONEGO_DONE =? 0 then (e, ETHERNET_STATUS_PHY_NEGOTIATING) else
  let e := set_MACCR e (CLEAR_BIT (MACCR e) (Z.lor ETH_MACCR_DM ETH_MACCR_FES)) in
  let mode := Z.land phyStatus LAN8742_PHYSCSR_HCDSPEEDMASK in
  let set_mode bits := (set_MACCR e (SET_BIT (SET_BIT (MACCR e) bits) ETH_MACCR_IPCO), ETHERNET_STATUS_OK) in
  if mode =? LAN8742_PHYSCSR_100BTX_FD then set_mode (Z.lor ETH_MACCR_DM ETH_MACCR_FES)
  else if mode =? LAN8742_PHYSCSR_100BTX_HD then set_mode ETH_MACCR_FES
  else if mode =? LAN8742_PHYSCSR_10BT_FD then set_mode ETH_MACCR_DM
  else if mode =? LAN8742_PHYSCSR_10BT_HD then set_mode 0
  else (e, ETHERNET_STATUS_PHY_MODE_ERROR).

(** [linkUp] is the caller's variable before and after. *)
Definition EthernetMac_UpdateLink (e : ethernet H) (linkUp : bool) : ethernet H * Ethernet_StatusTypeDef * bool :=
  let '(h, status, basicStatus) := ethernetMac_ReadPhy (bus e) (ethernetPhyAddress e) LAN8742_BSR 0 in
  let '(h, status, basicStatus) :=
    if bool_decide (status = ETHERNET_STATUS_OK)
    then ethernetMac_ReadPhy h (ethernetPhyAddress e) LAN8742_BSR basicStatus
    else (h, status, basicStatus) in
  let e := set_bus e h in
  if negb (bool_decide (status = ETHERNET_STATUS_OK)) then (e, status, linkUp) else
  if Z.land basicStatus LAN8742_BSR_LINK_STATUS =? 0 then (e, ETHERNET_STATUS_OK, false) else
  let '(e, status) := ethernetMac_ConfigureLink e (ethernetPhyAddress e) in
  match status with
  | ETHERNET_STATUS_PHY_NEGOTIATING => (e, ETHERNET_STATUS_OK, false)
  | ETHERNET_STATUS_OK => (e, ETHERNET_STATUS_OK, true)
  | _ => (e, status, false)
  end.

(** Resetting the MAC stops both engines; the indices start again. *)
Definition reset_ring (r : ring) : ring := Ring (descriptors r) (buffers r) 0 0 false.
(** The descriptors are laid out and the list address is written. *)
Definition laid_out (st ctl : Z) (r : ring) : ring := Ring (init_descriptors st ctl) (buffers r) 0 0 false.
(** The start bit of the operation mode register. *)
Definition started (r : ring) : ring := Ring (descriptors r) (buffers r) (index r) (engine_at r) true.

Definition rx_control : Z :=
  Z.lor (Z.land (Z.of_nat ETHERNET_BUFFER_SIZE) ETHERNET_RX_BUFFER_MASK) ETHERNET_RX_CHAINED.

(** [EthernetMac_Init]; [a0] .. [a5] are the bytes of [macAddress]. *)
Definition EthernetMac_Init (e : ethernet H) (phyAddress : Z) (macAddress : option (Z * Z * Z * Z * Z * Z)) :
    ethernet H * Ethernet_StatusTypeDef :=
  match macAddress with
  | None => (e, ETHERNET_STATUS_INVALID_ARGUMENT)
  | Some (a0, a1, a2, a3, a4, a5) =>
      if 31 <? phyAddress then (e, ETHERNET_STATUS_INVALID_ARGUMENT) else
      let rstr := CLEAR_BIT (SET_BIT (AHB1RSTR e) RCC_AHB1RSTR_ETHMACRST) RCC_AHB1RSTR_ETHMACRST in
      let '(h, bmr) := read_reg (bus e) DMABMR in
      let h := write_reg h DMABMR (SET_BIT bmr ETH_DMABMR_SR) in
      let '(h, status) :=
        ethernetMac_WaitForClear (Z.to_nat ETHERNET_REGISTER_TIMEOUT) h DMABMR ETH_DMABMR_SR ETHERNET_STATUS_DMA_TIMEOUT in
      let e := Eth h (SET_BIT (PMC e) SYSCFG_PMC_MII_RMII_SEL) rstr (MACCR e) (MACFFR e) (MACFCR e) (MACA0HR e) (MACA0LR e)
                 (DMAOMR e) phyAddress (reset_ring (receiving e)) (reset_ring (transmitting e)) in
      if negb (bool_decide (status = ETHERNET_STATUS_OK)) then (e, status) else
      let '(h, bmr) := read_reg h DMABMR in
      let h := write_reg h DMABMR
        (MODIFY_REG bmr (Z.lor (Z.lor (Z.lor ETH_DMABMR_AAB ETH_DMABMR_FB) ETH_DMABMR_RDP) ETH_DMABMR_PBL)
           (Z.lor (Z.lor (Z.lor ETH_DMABMR_AAB ETH_DMABMR_FB) ETH_DMABMR_RDP_32Beat) ETH_DMABMR_PBL_32Beat)) in
      let e := Eth h (PMC e) (AHB1RSTR e) (CLEAR_BIT (MACCR e) (Z.lor ETH_MACCR_TE ETH_MACCR_RE)) 0 0
                 (Z.lor (Z.shiftl a5 8) a4)
                 (Z.lor (Z.lor (Z.lor (Z.shiftl a3 24) (Z.shiftl a2 16)) (Z.shiftl a1 8)) a0)
                 (SET_BIT (DMAOMR e) (Z.lor ETH_DMAOMR_RSF ETH_DMAOMR_TSF)) phyAddress
                 (laid_out ETHERNET_OWN rx_control (receiving e)) (laid_out ETHERNET_TX_CHAINED 0 (transmitting e)) in
      let '(h, status) :=
        ethernetMac_WritePhy (bus e) phyAddress LAN8742_BCR (Z.lor LAN8742_BCR_AUTONEGO_EN LAN8742_BCR_RESTART_AUTONEGO) in
      let e := set_bus e h in
      if negb (bool_decide (status = ETHERNET_STATUS_OK)) then (e, status) else
      let cr := SET_BIT (MACCR e) (Z.lor (Z.lor ETH_MACCR_DM ETH_MACCR_FES) ETH_MACCR_IPCO) in
      (Eth (bus e) (PMC e) (AHB1RSTR e) (SET_BIT cr (Z.lor ETH_MACCR_RE ETH_MACCR_TE)) (MACFFR e) (MACFCR e)
         (MACA0HR e) (MACA0LR e) (SET_BIT (DMAOMR e) (Z.lor ETH_DMAOMR_SR ETH_DMAOMR_ST)) phyAddress
         (started (receiving e)) (started (transmitting e)), ETHERNET_STATUS_OK)
  end.

Definition EthernetMac_GetAddress (e : ethernet H) : Z * Z * Z * Z * Z * Z :=
  let low := MACA0LR e in
  let high := MACA0HR e in
  (u8 low, u8 (Z.shiftr low 8), u8 (Z.shiftr low 16), u8 (Z.shiftr low 24), u8 high, u8 (Z.shiftr high 8)).

End Driver.

(** ** The station address ([board_GetEthernetMacAddress]) *)

Definition FNV1A_64_OFFSET : Z := 14695981039346656037.
Definition FNV1A_64_PRIME : Z := 1099511628211.

(** [hash ^= byte; hash *= FNV1A_64_PRIME;] *)
Definition fnv1a_step (hash byte : Z) : Z := (Z.lxor hash byte * FNV1A_64_PRIME) mod 2 ^ 64.

(** The two loops over the words of the identifier and the bytes of a word. *)
Definition fnv1a_word (hash word : Z) : Z :=
  fold_left (fun hash byteIndex => fnv1a_step hash (u8 (Z.shiftr word (byteIndex * 8)))) [0; 1; 2; 3] hash.

Definition fnv1a_uid (uid : list Z) : Z := fold_left fnv1a_word uid FNV1A_64_OFFSET.

Definition hash_byte (hash index : Z) : Z := u8 (Z.shiftr hash (index * 8)).

Definition derive_address (uid : list Z) : Z * Z * Z * Z * Z * Z :=
  let hash := fnv1a_uid uid in
  (Z.lor (Z.land (hash_byte hash 0) 0xFC) 0x02, hash_byte hash 1, hash_byte hash 2, hash_byte hash 3, hash_byte hash 4,
   hash_byte hash 5).

(** The address is computed once: [cached] is [ethernetMacAddress] when
    [ethernetMacAddressReady]. *)
Definition board_GetEthernetMacAddress (cached : option (Z * Z * Z * Z * Z * Z)) (uid : list Z) : Z * Z * Z * Z * Z * Z :=
  match cached with Some a => a | None => derive_address uid end.

(** ** A PHY that answers *)

(** The state of the PHY the driver looks at: whether there is a link, whether
    it was lost since the status was last read (the status bit is latched low),
    whether the negotiation is done and which mode it gave; and how often the
    negotiation was started. *)
Record phy := Phy { link : bool; dropped : bool; negotiated : bool; mode : Z; restarts : nat }.

(** Reading a register returns a 16-bit word that describes the PHY; reading the
    status clears its latch. *)
Definition phy_read (p : phy) (registerAddress v : Z) (p' : phy) : Prop :=
  is_u16 v /\
  if registerAddress =? LAN8742_BSR then
    (Z.land v LAN8742_BSR_LINK_STATUS =? 0) = negb (link p && negb (dropped p))
    /\ p' = Phy (link p) false (negotiated p) (mode p) (restarts p)
  else if registerAddress =? LAN8742_PHYSCSR then
    (Z.land v LAN8742_PHYSCSR_AUTONEGO_DONE =? 0) = negb (negotiated p)
    /\ Z.land v LAN8742_PHYSCSR_HCDSPEEDMASK = mode p
    /\ p' = p
  else p' = p.

(** Writing the control register with the restart bit starts a negotiation. *)
Definition phy_written (p : phy) (registerAddress value : Z) (p' : phy) : Prop :=
  if (registerAddress =? LAN8742_BCR) && negb (Z.land value LAN8742_BCR_RESTART_AUTONEGO =? 0)
  then restarts p' = S (restarts p) /\ negotiated p' = false
  else p' = p.

(** [clears_after r mask n h h']: the [n]-th read of [r] is the first in which no
    bit of the mask is set. *)
Inductive clears_after {H} `{Peripheral H} (r : reg) (mask : Z) : nat -> H -> H -> Prop :=
  | clears_now h h' v : read_reg h r = (h', v) -> Z.land v mask = 0 -> clears_after r mask 1 h h'
  | clears_later n h h1 h' v :
      read_reg h r = (h1, v) -> Z.land v mask <> 0 -> clears_after r mask n h1 h' -> clears_after r mask (S n) h h'.

(** In time for the driver's loop. *)
Definition in_time (n : nat) : Prop := (n <= Z.to_nat ETHERNET_REGISTER_TIMEOUT)%nat.

Lemma in_time_small n : (n <= 100)%nat -> in_time n.
Proof. unfold in_time, ETHERNET_REGISTER_TIMEOUT. lia. Qed.

(** What the data sheets promise of the MAC and of the PHY at an address. *)
Class PhyLaws (H : Type) `{Peripheral H} (address : Z) := {
  at_rest : H -> Prop;
  the_phy : H -> phy;
  mii_idle h : at_rest h -> exists n h', in_time n /\ clears_after MACMIIAR ETH_MACMIIAR_MB n h h' /\ at_rest h' /\ the_phy h' = the_phy h;
  mii_read h a :
    at_rest h -> 0 <= a < 32 -> exists n h1 h2 v, in_time n
      /\ clears_after MACMIIAR ETH_MACMIIAR_MB n (write_reg h MACMIIAR (mii_command 0 address a)) h1
      /\ read_reg h1 MACMIIDR = (h2, v) /\ phy_read (the_phy h) a v (the_phy h2) /\ at_rest h2;
  mii_write h a w :
    at_rest h -> 0 <= a < 32 -> exists n h', in_time n
      /\ clears_after MACMIIAR ETH_MACMIIAR_MB n
           (write_reg (write_reg h MACMIIDR w) MACMIIAR (mii_command ETH_MACMIIAR_MW address a)) h'
      /\ phy_written (the_phy h) a w (the_phy h') /\ at_rest h';
  dma_read h h' v : at_rest h -> read_reg h DMABMR = (h', v) -> at_rest h' /\ the_phy h' = the_phy h /\ Z.land v ETH_DMABMR_SR = 0;
  dma_reset h w :
    at_rest h -> exists n h', in_time n
      /\ clears_after DMABMR ETH_DMABMR_SR n (write_reg h DMABMR w) h' /\ at_rest h' /\ the_phy h' = the_phy h;
  dma_write_idle h w :
    at_rest h -> Z.land w ETH_DMABMR_SR = 0 -> at_rest (write_reg h DMABMR w) /\ the_phy (write_reg h DMABMR w) = the_phy h;
}.

Section Link.
Context {H : Type} `{Peripheral H}.

Lemma wait_clears r mask n h h' remaining st :
  clears_after r mask n h h' -> (n <= remaining)%nat -> ethernetMac_WaitForClear remaining h r mask st = (h', ETHERNET_STATUS_OK).
Proof.
  intros Hc. revert remaining. induction Hc as [h h' v E Hv|n h h1 h' v E Hv Hc IH]; intros remaining Hr.
  - destruct remaining; [lia|]. cbn [ethernetMac_WaitForClear]. by rewrite E, Hv.
  - assert (1 <= n)%nat by (destruct Hc; lia). destruct remaining as [|[|m]]; [lia|lia|].
    cbn [ethernetMac_WaitForClear]. rewrite E. rewrite (proj2 (Z.eqb_neq _ _) Hv).
    change (ethernetMac_WaitForClear (S m) h1 r mask st = (h', ETHERNET_STATUS_OK)). apply IH. lia.
Qed.

(** A register whose busy bit stays set: the wait ends with the timeout. *)
Lemma wait_stuck r mask remaining h st :
  (forall h, Z.land (read_reg h r).2 mask <> 0) -> (ethernetMac_WaitForClear remaining h r mask st).2 = st.
Proof.
  intros Hs. revert h. induction remaining as [|m IH]; intros h; cbn [ethernetMac_WaitForClear];
    pose proof (Hs h) as Hh; destruct (read_reg h r) as [h1 v]; cbn [snd] in Hh; rewrite (proj2 (Z.eqb_neq _ _) Hh); [done|].
  destruct m; [done|]. apply IH.
Qed.

Context (address : Z) `{!PhyLaws H address}.

Lemma phy_read_status p v p' :
  phy_read p LAN8742_BSR v p' ->
  (Z.land v LAN8742_BSR_LINK_STATUS =? 0) = negb (link p && negb (dropped p))
  /\ p' = Phy (link p) false (negotiated p) (mode p) (restarts p).
Proof. by intros [_ Hv]. Qed.

Lemma phy_read_mode p v p' :
  phy_read p LAN8742_PHYSCSR v p' ->
  (Z.land v LAN8742_PHYSCSR_AUTONEGO_DONE =? 0) = negb (negotiated p) /\ Z.land v LAN8742_PHYSCSR_HCDSPEEDMASK = mode p /\ p' = p.
Proof. by intros [_ Hv]. Qed.

Lemma wait_mii_idle h : at_rest h -> exists h', wait_mii h = (h', ETHERNET_STATUS_OK) /\ at_rest h' /\ the_phy h' = the_phy h.
Proof.
  intros Hr. destruct (mii_idle h Hr) as (n & h' & Hn & Hc & Hr' & Hp). exists h'. split; [|done].
  by apply (wait_clears _ _ n).
Qed.

Lemma read_phy_answers h a v0 :
  at_rest h -> 0 <= a < 32 -> exists h' v, ethernetMac_ReadPhy h address a v0 = (h', ETHERNET_STATUS_OK, v)
    /\ phy_read (the_phy h) a v (the_phy h') /\ at_rest h'.
Proof.
  intros Hr Hreg. unfold ethernetMac_ReadPhy. destruct (wait_mii_idle h Hr) as (h1 & -> & Hr1 & Hp1). cbn [negb].
  rewrite bool_decide_eq_true_2 by done. cbn [negb].
  destruct (mii_read h1 a Hr1 Hreg) as (n & h2 & h3 & v & Hn & Hc & Ev & Hv & Hr3).
  unfold wait_mii. rewrite (wait_clears _ _ n _ _ _ _ Hc Hn), Ev. rewrite bool_decide_eq_true_2 by done.
  exists h3, v. rewrite Hp1 in Hv. split; [|done]. destruct Hv as [Hu _]. by rewrite u16_id.
Qed.

Lemma write_phy_answers h a w :
  at_rest h -> 0 <= a < 32 -> exists h', ethernetMac_WritePhy h address a w = (h', ETHERNET_STATUS_OK)
    /\ phy_written (the_phy h) a w (the_phy h') /\ at_rest h'.
Proof.
  intros Hr Hreg. unfold ethernetMac_WritePhy. destruct (wait_mii_idle h Hr) as (h1 & -> & Hr1 & Hp1).
  rewrite bool_decide_eq_true_2 by done. cbn [negb].
  destruct (mii_write h1 a w Hr1 Hreg) as (n & h' & Hn & Hc & Hw & Hr'). exists h'. rewrite <-Hp1. split; [|done].
  by apply (wait_clears _ _ n).
Qed.

(** The modes of the PHY and what they mean for the MAC: full duplex, 100 Mbit/s. *)
Definition mode_known (m : Z) : option (bool * bool) :=
  if m =? LAN8742_PHYSCSR_100BTX_FD then Some (true, true)
  else if m =? LAN8742_PHYSCSR_100BTX_HD then Some (false, true)
  else if m =? LAN8742_PHYSCSR_10BT_FD then Some (true, false)
  else if m =? LAN8742_PHYSCSR_10BT_HD then Some (false, false)
  else None.

Lemma bit_of k i : 0 <= k -> Z.testbit (Z.shiftl 1 k) i = bool_decide (i = k).
Proof.
  intros Hk. rewrite Z.shiftl_1_l, Z.pow2_bits_eqb by lia. case_bool_decide; [subst; by rewrite Z.eqb_refl|].
  by apply Z.eqb_neq.
Qed.

(** Every bit of the control register after the mode is set. *)
Lemma configured_bits cr (fd hs : bool) i :
  0 <= i ->
  Z.testbit (SET_BIT (SET_BIT (CLEAR_BIT cr (Z.lor ETH_MACCR_DM ETH_MACCR_FES))
    (Z.lor (if fd then ETH_MACCR_DM else 0) (if hs then ETH_MACCR_FES else 0))) ETH_MACCR_IPCO) i
  = if decide (i = 11) then fd else if decide (i = 14) then hs else if decide (i = 10) then true else Z.testbit cr i.
Proof.
  intros Hi. unfold SET_BIT, CLEAR_BIT. rewrite !Z.lor_spec, Z.land_spec, Z.lnot_spec, Z.lor_spec by done.
  replace (Z.testbit (if fd then ETH_MACCR_DM else 0) i) with (fd && bool_decide (i = 11))
    by (destruct fd; [symmetry; by apply bit_of|by rewrite Z.testbit_0_l]).
  replace (Z.testbit (if hs then ETH_MACCR_FES else 0) i) with (hs && bool_decide (i = 14))
    by (destruct hs; [symmetry; by apply bit_of|by rewrite Z.testbit_0_l]).
  unfold ETH_MACCR_DM, ETH_MACCR_FES, ETH_MACCR_IPCO. rewrite !bit_of by lia.
  repeat case_decide; repeat case_bool_decide; subst; try lia; by destruct fd, hs, (Z.testbit cr _).
Qed.

Lemma configure_link e :
  at_rest (bus e) ->
  exists e' st, ethernetMac_ConfigureLink e address = (e', st) /\ at_rest (bus e') /\ the_phy (bus e') = the_phy (bus e)
    /\ receiving e' = receiving e /\ transmitting e' = transmitting e /\ ethernetPhyAddress e' = ethernetPhyAddress e
    /\ if negotiated (the_phy (bus e)) then
         match mode_known (mode (the_phy (bus e))) with
         | Some (fd, hs) => st = ETHERNET_STATUS_OK
             /\ (forall i, 0 <= i -> Z.testbit (MACCR e') i = if decide (i = 11) then fd else if decide (i = 14) then hs
                                                    else if decide (i = 10) then true else Z.testbit (MACCR e) i)
         | None => st = ETHERNET_STATUS_PHY_MODE_ERROR
         end
       else st = ETHERNET_STATUS_PHY_NEGOTIATING /\ MACCR e' = MACCR e.
Proof.
  intros Hr. unfold ethernetMac_ConfigureLink. destruct (read_phy_answers (bus e) LAN8742_PHYSCSR 0 Hr ltac:(done)) as (h & v & -> & Hv & Hr').
  rewrite bool_decide_eq_true_2 by done. cbn [negb]. apply phy_read_mode in Hv as (Hd & Hm & Hp).
  rewrite Hd. destruct (negotiated (the_phy (bus e))); cbn [negb]; [|by eexists _, _].
  rewrite Hm. unfold mode_known. set (m := mode (the_phy (bus e))).
  pose proof (configured_bits (MACCR e)) as Hb.
  destruct (Z.eqb_spec m LAN8742_PHYSCSR_100BTX_FD);
    [by eexists _, _; do 6 (split; [done|]); split; [done|]; apply (Hb true true)|].
  destruct (Z.eqb_spec m LAN8742_PHYSCSR_100BTX_HD);
    [by eexists _, _; do 6 (split; [done|]); split; [done|]; apply (Hb false true)|].
  destruct (Z.eqb_spec m LAN8742_PHYSCSR_10BT_FD);
    [by eexists _, _; do 6 (split; [done|]); split; [done|]; apply (Hb true false)|].
  destruct (Z.eqb_spec m LAN8742_PHYSCSR_10BT_HD);
    [by eexists _, _; do 6 (split; [done|]); split; [done|]; apply (Hb false false)|].
  by eexists _, _.
Qed.

(** One poll of a PHY that answers reports the link as it is now, although the
    status bit of the PHY is latched low: up exactly when there is a link whose
    negotiation is done; the MAC then has the negotiated duplex mode and speed and
    every other bit of its control register but the checksum offload is as
    before.  A mode the MAC does not have is an error with the link reported
    down, and the frames in the rings are not touched. *)
Lemma follow_link e up0 :
  at_rest (bus e) -> ethernetPhyAddress e = address ->
  let p := the_phy (bus e) in
  exists e' st up, EthernetMac_UpdateLink e up0 = (e', st, up) /\ at_rest (bus e')
    /\ the_phy (bus e') = Phy (link p) false (negotiated p) (mode p) (restarts p)
    /\ receiving e' = receiving e /\ transmitting e' = transmitting e /\ ethernetPhyAddress e' = address
    /\ if link p && negotiated p then
         match mode_known (mode p) with
         | Some (fd, hs) => st = ETHERNET_STATUS_OK /\ up = true
             /\ forall i, 0 <= i -> Z.testbit (MACCR e') i = if decide (i = 11) then fd else if decide (i = 14) then hs
                                                   else if decide (i = 10) then true else Z.testbit (MACCR e) i
         | None => st = ETHERNET_STATUS_PHY_MODE_ERROR /\ up = false
         end
       else st = ETHERNET_STATUS_OK /\ up = false /\ MACCR e' = MACCR e.
Proof.
  intros Hr Ha p. unfold EthernetMac_UpdateLink. rewrite Ha.
  destruct (read_phy_answers (bus e) LAN8742_BSR 0 Hr ltac:(done)) as (h1 & v1 & -> & Hv1 & Hr1). apply phy_read_status in Hv1 as [_ Hp1].
  rewrite bool_decide_eq_true_2 by done.
  destruct (read_phy_answers h1 LAN8742_BSR v1 Hr1 ltac:(done)) as (h2 & v2 & -> & Hv2 & Hr2). apply phy_read_status in Hv2 as [Hl Hp2].
  rewrite bool_decide_eq_true_2 by done. cbn [negb]. rewrite Hp1 in Hl, Hp2. cbn [link dropped negotiated mode restarts negb] in Hl, Hp2.
  rewrite andb_true_r in Hl. rewrite Hl. fold p in Hl, Hp2 |- *.
  destruct (link p) eqn:El; cbn [negb andb]; [|by eexists _, _, _].
  destruct (configure_link (set_bus e h2) Hr2) as (e' & st & E & Hr' & Hp' & Hrx & Htx & Had & Hst).
  change (ethernetPhyAddress (set_bus e h2)) with (ethernetPhyAddress e) in Had |- *. rewrite Ha in Had. rewrite Ha, E.
  cbn [set_bus bus MACCR receiving transmitting] in Hp', Hst, Hrx, Htx.
  rewrite Hp2 in Hp', Hst. cbn [negotiated mode] in Hst. destruct (negotiated p); cbn [andb].
  - destruct (mode_known (mode p)) as [[fd hs]|]; [destruct Hst as [-> Hb]|subst st]; eexists _, _, _; by do 6 (split; [done|]).
  - destruct Hst as [-> Hcr]. eexists _, _, _. by do 6 (split; [done|]).
Qed.

(** The pieces of a word written byte by byte. *)
Lemma lor_shiftl a b k : 0 <= k -> 0 <= b < 2 ^ k -> Z.lor (Z.shiftl a k) b = a * 2 ^ k + b.
Proof.
  intros Hk Hb. rewrite <-(Z.shiftl_mul_pow2 a k Hk). symmetry. rewrite Z.add_nocarry_lxor; [apply Z.lxor_lor|];
    apply Z.bits_inj'; intros i Hi; rewrite Z.land_spec, Z.bits_0; (destruct (decide (i < k)) as [Hlt|Hge];
      [by rewrite Z.shiftl_spec_low|rewrite <-(Z.mod_small b (2 ^ k) Hb), Z.mod_pow2_bits_high by lia; by rewrite andb_false_r]).
Qed.

Definition bytes6 (m : Z * Z * Z * Z * Z * Z) : Prop :=
  let '(a0, a1, a2, a3, a4, a5) := m in Forall is_u8 [a0; a1; a2; a3; a4; a5].

Lemma address_registers a0 a1 a2 a3 a4 a5 :
  bytes6 (a0, a1, a2, a3, a4, a5) ->
  Z.lor (Z.shiftl a5 8) a4 = a5 * 256 + a4
  /\ Z.lor (Z.lor (Z.lor (Z.shiftl a3 24) (Z.shiftl a2 16)) (Z.shiftl a1 8)) a0 = ((a3 * 256 + a2) * 256 + a1) * 256 + a0.
Proof.
  intros Hb. unfold bytes6 in Hb. rewrite !list.Forall_cons in Hb. destruct Hb as (B0 & B1 & B2 & B3 & B4 & B5 & _). unfold is_u8 in *.
  split; [by rewrite lor_shiftl by lia|].
  replace (Z.shiftl a3 24) with (Z.shiftl (Z.shiftl a3 8) 16) by (by rewrite Z.shiftl_shiftl by lia).
  rewrite <-Z.shiftl_lor. rewrite (lor_shiftl a3 a2) by lia. change (2 ^ 8) with 256.
  replace (Z.shiftl (a3 * 256 + a2) 16) with (Z.shiftl (Z.shiftl (a3 * 256 + a2) 8) 8) by (by rewrite Z.shiftl_shiftl by lia).
  rewrite <-Z.shiftl_lor, (lor_shiftl _ a1) by lia. change (2 ^ 8) with 256. rewrite lor_shiftl by lia. done.
Qed.

(** Reading the address registers back. *)
Lemma address_roundtrip (e : ethernet H) m :
  bytes6 m ->
  let '(a0, a1, a2, a3, a4, a5) := m in
  MACA0HR e = Z.lor (Z.shiftl a5 8) a4 ->
  MACA0LR e = Z.lor (Z.lor (Z.lor (Z.shiftl a3 24) (Z.shiftl a2 16)) (Z.shiftl a1 8)) a0 -> EthernetMac_GetAddress e = m.
Proof.
  destruct m as [[[[[a0 a1] a2] a3] a4] a5]. intros Hb. destruct (address_registers _ _ _ _ _ _ Hb) as [Eh El].
  intros Hh Hl. unfold EthernetMac_GetAddress. rewrite Hh, Hl, Eh, El. unfold bytes6 in Hb.
  rewrite !list.Forall_cons in Hb. destruct Hb as (B0 & B1 & B2 & B3 & B4 & B5 & _). unfold is_u8, u8 in *.
  rewrite !Z.shiftr_div_pow2 by lia. change (2 ^ 8) with 256. change (2 ^ 16) with 65536. change (2 ^ 24) with 16777216.
  repeat f_equal; lia.
Qed.

Lemma modified_mode v :
  Z.land v ETH_DMABMR_SR = 0 ->
  Z.land (MODIFY_REG v (Z.lor (Z.lor (Z.lor ETH_DMABMR_AAB ETH_DMABMR_FB) ETH_DMABMR_RDP) ETH_DMABMR_PBL)
    (Z.lor (Z.lor (Z.lor ETH_DMABMR_AAB ETH_DMABMR_FB) ETH_DMABMR_RDP_32Beat) ETH_DMABMR_PBL_32Beat)) ETH_DMABMR_SR = 0.
Proof.
  intros Hv. unfold MODIFY_REG. rewrite Z.land_lor_distr_l, <-Z.land_assoc.
  match goal with |- Z.lor (Z.land v ?c) ?d = 0 => change c with ETH_DMABMR_SR; change d with 0 end. by rewrite Hv.
Qed.

(** Buffers of the size the driver declares. *)
Definition has_buffers (r : ring) : Prop :=
  length (buffers r) = 8%nat /\ Forall (fun b => length b = ETHERNET_BUFFER_SIZE) (buffers r).

(** What [EthernetMac_Init] leaves: both rings empty and running, the address
    registers loaded, receiver and transmitter enabled, a negotiation started. *)
Record mac_ready (e : ethernet H) (m : Z * Z * Z * Z * Z * Z) : Prop := {
  mr_rest : at_rest (bus e);
  mr_phy : ethernetPhyAddress e = address;
  mr_receive : rx_queue (receiving e) [];
  mr_transmit : tx_queue (transmitting e) [];
  mr_address : EthernetMac_GetAddress e = m;
  mr_enabled : forall i, In i [2; 3; 10; 11; 14] -> Z.testbit (MACCR e) i = true;
  mr_running : forall i, In i [1; 13; 21; 25] -> Z.testbit (DMAOMR e) i = true;
}.

(** With a PHY that answers, starting the MAC succeeds. *)
Lemma mac_init_ready e m :
  at_rest (bus e) -> 0 <= address <= 31 -> bytes6 m -> has_buffers (receiving e) -> has_buffers (transmitting e) ->
  exists e', EthernetMac_Init e address (Some m) = (e', ETHERNET_STATUS_OK) /\ mac_ready e' m
    /\ restarts (the_phy (bus e')) = S (restarts (the_phy (bus e))) /\ negotiated (the_phy (bus e')) = false.
Proof.
  intros Hr Ha Hm [Hrx1 Hrx2] [Htx1 Htx2]. pose proof (fun e => address_roundtrip e m Hm) as Hround.
  destruct m as [[[[[a0 a1] a2] a3] a4] a5]. unfold EthernetMac_Init. rewrite (proj2 (Z.ltb_ge _ _)) by lia.
  destruct (read_reg (bus e) DMABMR) as [h1 v1] eqn:E1. destruct (dma_read _ _ _ Hr E1) as (Hr1 & Hp1 & _).
  destruct (dma_reset h1 (SET_BIT v1 ETH_DMABMR_SR) Hr1) as (n & h2 & Hn & Hc & Hr2 & Hp2).
  rewrite (wait_clears _ _ n _ _ _ _ Hc Hn). rewrite bool_decide_eq_true_2 by done. cbn [negb].
  destruct (read_reg h2 DMABMR) as [h3 v3] eqn:E3. destruct (dma_read _ _ _ Hr2 E3) as (Hr3 & Hp3 & Hz).
  destruct (dma_write_idle h3 _ Hr3 (modified_mode v3 Hz)) as [Hr4 Hp4]. cbn [bus MACCR DMAOMR receiving transmitting].
  match goal with |- context [ethernetMac_WritePhy ?h ?x ?y ?z] => destruct (write_phy_answers h y z Hr4 ltac:(done)) as (h5 & -> & Hw & Hr5) end.
  rewrite bool_decide_eq_true_2 by done. cbn [negb]. unfold set_bus. eexists. split; [reflexivity|].
  rewrite Hp4, Hp3, Hp2, Hp1 in Hw. destruct Hw as [Hw1 Hw2].
  split; [|by cbn [bus]]. split; cbn [bus ethernetPhyAddress receiving transmitting MACCR DMAOMR started laid_out reset_ring
    descriptors buffers index engine_at]; try done.
  - by apply rx_init.
  - by apply tx_init.
  - by apply Hround.
  - intros i Hi. unfold SET_BIT. rewrite !Z.lor_spec. unfold ETH_MACCR_RE, ETH_MACCR_TE, ETH_MACCR_DM, ETH_MACCR_FES, ETH_MACCR_IPCO.
    rewrite !bit_of by lia. cbn [In] in Hi. by repeat (destruct Hi as [<-|Hi]; [by destruct (Z.testbit _ _)|]).
  - intros i Hi. unfold SET_BIT. rewrite !Z.lor_spec. unfold ETH_DMAOMR_SR, ETH_DMAOMR_ST, ETH_DMAOMR_RSF, ETH_DMAOMR_TSF.
    rewrite !bit_of by lia. cbn [In] in Hi. by repeat (destruct Hi as [<-|Hi]; [by destruct (Z.testbit _ _)|]).
Qed.

End Link.

(** ** A simulated PHY *)

(** The management interface is busy for [busy] more reads; [reading] is the
    register a read was started for, [data] the data register. *)
Record sim_phy := SimPhy { sp_phy : phy; sp_busy : nat; sp_reading : option Z; sp_data : Z; sp_mode : Z; sp_resetting : nat }.

Definition sp_word (p : phy) (a : Z) : phy * Z :=
  if a =? LAN8742_BSR then
    (Phy (link p) false (negotiated p) (mode p) (restarts p), if link p && negb (dropped p) then LAN8742_BSR_LINK_STATUS else 0)
  else if a =? LAN8742_PHYSCSR then (p, Z.lor (if negotiated p then LAN8742_PHYSCSR_AUTONEGO_DONE else 0) (Z.land (mode p) LAN8742_PHYSCSR_HCDSPEEDMASK))
  else (p, 0).

#[global] Instance SimPhy_peripheral : Peripheral sim_phy := {
  read_reg s r :=
    match r with
    | MACMIIAR =>
        match sp_busy s with
        | O => (s, 0)
        | S n => (SimPhy (sp_phy s) n (sp_reading s) (sp_data s) (sp_mode s) (sp_resetting s), ETH_MACMIIAR_MB)
        end
    | MACMIIDR =>
        match sp_reading s with
        | Some a => let '(p, v) := sp_word (sp_phy s) a in (SimPhy p 0 None v (sp_mode s) (sp_resetting s), v)
        | None => (s, sp_data s)
        end
    | DMABMR =>
        match sp_resetting s with
        | O => (s, CLEAR_BIT (sp_mode s) ETH_DMABMR_SR)
        | S n => (SimPhy (sp_phy s) (sp_busy s) (sp_reading s) (sp_data s) (sp_mode s) n, SET_BIT (sp_mode s) ETH_DMABMR_SR)
        end
    end;
  write_reg s r w :=
    match r with
    | MACMIIAR =>
        let a := Z.land (Z.shiftr w ETH_MACMIIAR_MR_Pos) 0x1F in
        if Z.land w ETH_MACMIIAR_MW =? 0 then SimPhy (sp_phy s) 3 (Some a) (sp_data s) (sp_mode s) (sp_resetting s)
        else
          let p := sp_phy s in
          let p := if (a =? LAN8742_BCR) && negb (Z.land (sp_data s) LAN8742_BCR_RESTART_AUTONEGO =? 0)
                   then Phy (link p) (dropped p) false (mode p) (S (restarts p)) else p in
          SimPhy p 3 None (sp_data s) (sp_mode s) (sp_resetting s)
    | MACMIIDR => SimPhy (sp_phy s) (sp_busy s) (sp_reading s) w (sp_mode s) (sp_resetting s)
    | DMABMR =>
        SimPhy (sp_phy s) (sp_busy s) (sp_reading s) (sp_data s) w (if Z.land w ETH_DMABMR_SR =? 0 then sp_resetting s else 2%nat)
    end;
}.

(** At rest: nothing in progress, and a mode of the three bits the PHY has. *)
Definition sp_at_rest (s : sim_phy) : Prop :=
  sp_busy s = 0%nat /\ sp_resetting s = 0%nat /\ Z.land (mode (sp_phy s)) LAN8742_PHYSCSR_HCDSPEEDMASK = mode (sp_phy s).

(** The register number comes back out of the command word. *)
Lemma command_register w a :
  In w [0; ETH_MACMIIAR_MW] -> 0 <= a < 32 ->
  Z.land (Z.shiftr (mii_command w 0 a) ETH_MACMIIAR_MR_Pos) 0x1F = a
  /\ (Z.land (mii_command w 0 a) ETH_MACMIIAR_MW =? 0) = (w =? 0).
Proof.
  intros Hw Ha.
  assert (forallb (fun w => forallb (fun n => (Z.land (Z.shiftr (mii_command w 0 (Z.of_nat n)) ETH_MACMIIAR_MR_Pos) 0x1F =? Z.of_nat n)
      && Bool.eqb (Z.land (mii_command w 0 (Z.of_nat n)) ETH_MACMIIAR_MW =? 0) (w =? 0)) (seq 0 32)) [0; ETH_MACMIIAR_MW] = true) as Hall
    by reflexivity.
  rewrite forallb_forall in Hall. specialize (Hall w Hw). rewrite forallb_forall in Hall.
  specialize (Hall (Z.to_nat a) ltac:(apply in_seq; lia)). rewrite Z2Nat.id in Hall by lia.
  apply andb_true_iff in Hall as [E1%Z.eqb_eq E2%Bool.eqb_prop]. done.
Qed.

Lemma sp_word_answers p a :
  Z.land (mode p) LAN8742_PHYSCSR_HCDSPEEDMASK = mode p -> phy_read p a (sp_word p a).2 (sp_word p a).1.
Proof.
  intros Hm. unfold phy_read, sp_word. destruct (a =? LAN8742_BSR).
  - cbn [fst snd]. by destruct (link p), (dropped p).
  - destruct (a =? LAN8742_PHYSCSR); [|done]. cbn [fst snd]. rewrite !Z.land_lor_distr_l, <-!Z.land_assoc.
    change (Z.land LAN8742_PHYSCSR_HCDSPEEDMASK LAN8742_PHYSCSR_AUTONEGO_DONE) with 0.
    change (Z.land LAN8742_PHYSCSR_HCDSPEEDMASK LAN8742_PHYSCSR_HCDSPEEDMASK) with LAN8742_PHYSCSR_HCDSPEEDMASK.
    rewrite Z.land_0_r, Z.lor_0_r, Hm. split; [|by destruct (negotiated p)].
    assert (0 <= mode p < 32) as Hmode.
    { rewrite <-Hm. change LAN8742_PHYSCSR_HCDSPEEDMASK with (Z.land 0x1C (Z.ones 5)). rewrite Z.land_assoc, Z.land_ones by lia. lia. }
    destruct (negotiated p); [|unfold is_u16; rewrite Z.lor_0_l; lia].
    change LAN8742_PHYSCSR_AUTONEGO_DONE with (Z.shiftl 1 12). rewrite lor_shiftl by lia. unfold is_u16. lia.
Qed.

#[global] Instance SimPhy_laws : PhyLaws sim_phy 0.
Proof.
  refine {| at_rest := sp_at_rest; the_phy := sp_phy |}.
  - intros h Hr. exists 1%nat, h. split; [apply in_time_small; lia|]. split; [|done].
    apply (clears_now _ _ _ _ 0); [|done]. cbn. by rewrite (proj1 Hr).
  - intros h a (Hb & Hz & Hm) Ha. destruct (command_register 0 a ltac:(by left) Ha) as [E1 E2].
    cbn [write_reg SimPhy_peripheral]. rewrite E1, E2. change (0 =? 0) with true. cbv iota.
    eexists 4%nat, _, (SimPhy (sp_word (sp_phy h) a).1 0 None (sp_word (sp_phy h) a).2 (sp_mode h) (sp_resetting h)),
      (sp_word (sp_phy h) a).2.
    split; [apply in_time_small; lia|]. split; [do 3 (eapply clears_later; [reflexivity|done|]); by eapply clears_now|].
    cbn [read_reg SimPhy_peripheral sp_reading sp_phy sp_mode sp_resetting]. destruct (sp_word (sp_phy h) a) as [p v] eqn:Ew.
    pose proof (sp_word_answers (sp_phy h) a Hm) as Hans. rewrite Ew in Hans. split; [done|]. split; [done|].
    split; [done|]. split; [done|]. unfold sp_word in Ew.
    destruct (a =? LAN8742_BSR), (a =? LAN8742_PHYSCSR); by injection Ew as <- _.
  - intros h a w (Hb & Hz & Hm) Ha. destruct (command_register ETH_MACMIIAR_MW a ltac:(by right; left) Ha) as [E1 E2].
    cbn [write_reg SimPhy_peripheral sp_data sp_phy sp_mode sp_resetting]. rewrite E1, E2. change (ETH_MACMIIAR_MW =? 0) with false. cbv iota.
    eexists 4%nat, _. split; [apply in_time_small; lia|].
    split; [do 3 (eapply clears_later; [reflexivity|done|]); by eapply clears_now|]. cbn [sp_phy]. unfold phy_written.
    by destruct ((a =? LAN8742_BCR) && negb (Z.land w LAN8742_BCR_RESTART_AUTONEGO =? 0)).
  - intros h h' v (Hb & Hz & Hm). cbn [read_reg SimPhy_peripheral]. rewrite Hz. intros [= <- <-]. split; [done|]. split; [done|].
    unfold CLEAR_BIT. rewrite <-Z.land_assoc. change (Z.land (Z.lnot ETH_DMABMR_SR) ETH_DMABMR_SR) with 0. apply Z.land_0_r.
  - intros h w (Hb & Hz & Hm). cbn [write_reg SimPhy_peripheral]. rewrite Hz.
    assert (forall n s, sp_resetting s = n -> exists s', clears_after DMABMR ETH_DMABMR_SR (S n) s s'
      /\ s' = SimPhy (sp_phy s) (sp_busy s) (sp_reading s) (sp_data s) (sp_mode s) 0) as Hwait.
    { intros n. induction n as [|n IH]; intros s Hs.
      - exists s. split; [|by destruct s; cbn in Hs; subst]. eapply clears_now; [cbn; by rewrite Hs|].
        unfold CLEAR_BIT. rewrite <-Z.land_assoc. change (Z.land (Z.lnot ETH_DMABMR_SR) ETH_DMABMR_SR) with 0. apply Z.land_0_r.
      - destruct (IH (SimPhy (sp_phy s) (sp_busy s) (sp_reading s) (sp_data s) (sp_mode s) n) eq_refl) as (s' & Hc & ->).
        eexists. split; [|reflexivity]. eapply clears_later; [cbn; by rewrite Hs| |exact Hc].
        unfold SET_BIT. rewrite Z.land_lor_distr_l. change (Z.land ETH_DMABMR_SR ETH_DMABMR_SR) with 1. intros [_ ?]%Z.lor_eq_0_iff. done. }
    destruct (Z.land w ETH_DMABMR_SR =? 0).
    + destruct (Hwait 0%nat (SimPhy (sp_phy h) (sp_busy h) (sp_reading h) (sp_data h) w 0) eq_refl) as (s' & Hc & ->).
      eexists 1%nat, _. split; [apply in_time_small; lia|]. split; [exact Hc|done].
    + destruct (Hwait 2%nat (SimPhy (sp_phy h) (sp_busy h) (sp_reading h) (sp_data h) w 2) eq_refl) as (s' & Hc & ->).
      eexists 3%nat, _. split; [apply in_time_small; lia|]. split; [exact Hc|done].
  - intros h w (Hb & Hz & Hm) Hw. cbn [write_reg SimPhy_peripheral]. by rewrite Hw.
Defined.

(** A link that dropped and came back since the last poll, at 100 Mbit/s full
    duplex; the MAC was left at half duplex. *)
Definition demo_phy : sim_phy := SimPhy (Phy true true true LAN8742_PHYSCSR_100BTX_FD 1) 0 None 0 0 0.
Definition demo_mac : ethernet sim_phy :=
  Eth demo_phy 0 0 ETH_MACCR_FES 0 0 0 0 0 0 (init_receive demo_buffers) (init_transmit demo_buffers).

Lemma demo_at_rest : @at_rest sim_phy SimPhy_peripheral 0 SimPhy_laws (bus demo_mac).
Proof. unfold at_rest, SimPhy_laws, sp_at_rest. cbn. done. Qed.

Lemma demo_link_up :
  exists e', EthernetMac_UpdateLink demo_mac false = (e', ETHERNET_STATUS_OK, true) /\ Z.testbit (MACCR e') 11 = true.
Proof.
  destruct (follow_link 0 demo_mac false demo_at_rest eq_refl)
    as (e' & st & up & E & _ & _ & _ & _ & _ & Hst & Hup & Hcr).
  exists e'. rewrite E, Hst, Hup. split; [reflexivity|]. by rewrite (Hcr 11).
Qed.
