(* ===== verification/Board.v ===== *)
(** The board: [Core/Src/init_ll.c], [Periph/Src/gpio.c],
    [Periph/Src/user_button.c] and parts of [Core/Src/common.c].

    Pins are configured in the registers of their port; the Ethernet is brought
    up with a station address derived from the identifier of the device. *)
From S2P Require Import Prelude Ethernet EthernetLink.

(** ** Pins *)

Record gpio_port := Gpio { MODER : Z; OTYPER : Z; OSPEEDR : Z; PUPDR : Z; AFRL : Z; AFRH : Z }.

Definition GPIO_MODE_OUTPUT : Z := 1.
Definition GPIO_MODE_ALTERNATE : Z := 2.
Definition GPIO_SPEED_LOW : Z := 0.
Definition GPIO_SPEED_VERY_HIGH : Z := 3.
Definition ETHERNET_PHY_ADDRESS : Z := 0.
Definition ETHERNET_GPIO_AF : Z := 11.

Definition board_ConfigureAlternatePin (p : gpio_port) (pinPosition alternateFunction : Z) : gpio_port :=
  let modeShift := pinPosition * 2 in
  let modeMask := Z.shiftl 3 modeShift in
  let pinMask := Z.shiftl 1 pinPosition in
  let alternateIndex := pinPosition / 8 in
  let alternateShift := (pinPosition mod 8) * 4 in
  let afr r := MODIFY_REG r (Z.shiftl 0xF alternateShift) (Z.shiftl alternateFunction alternateShift) in
  Gpio (MODIFY_REG (MODER p) modeMask (Z.shiftl GPIO_MODE_ALTERNATE modeShift))
    (CLEAR_BIT (OTYPER p) pinMask)
    (MODIFY_REG (OSPEEDR p) modeMask (Z.shiftl GPIO_SPEED_VERY_HIGH modeShift))
    (CLEAR_BIT (PUPDR p) modeMask)
    (if alternateIndex =? 0 then afr (AFRL p) else AFRL p)
    (if alternateIndex =? 0 then AFRH p else afr (AFRH p)).

Definition Gpio_InitOutput (p : gpio_port) (pinPosition : Z) : gpio_port :=
  let modeShift := pinPosition * 2 in
  let modeMask := Z.shiftl 3 modeShift in
  let pinMask := Z.shiftl 1 pinPosition in
  Gpio (MODIFY_REG (MODER p) modeMask (Z.shiftl GPIO_MODE_OUTPUT modeShift))
    (CLEAR_BIT (OTYPER p) pinMask)
    (MODIFY_REG (OSPEEDR p) modeMask (Z.shiftl GPIO_SPEED_LOW modeShift))
    (CLEAR_BIT (PUPDR p) modeMask) (AFRL p) (AFRH p).

Definition USER_BUTTON_PIN_POSITION : Z := 13.

(** The clock enable of the port aside. *)
Definition UserButton_Init (p : gpio_port) : gpio_port :=
  Gpio (Z.land (MODER p) (Z.lnot (Z.shiftl 3 (USER_BUTTON_PIN_POSITION * 2)))) (OTYPER p) (OSPEEDR p)
    (Z.land (PUPDR p) (Z.lnot (Z.shiftl 3 (USER_BUTTON_PIN_POSITION * 2)))) (AFRL p) (AFRH p).

(** The field of [w] bits of pin [n]. *)
Definition field (w r n : Z) : Z := Z.land (Z.shiftr r (n * w)) (Z.ones w).

(** What a pin is: mode, output type, speed, pull and alternate function. *)
Definition pin (p : gpio_port) (n : Z) : Z * Z * Z * Z * Z :=
  (field 2 (MODER p) n, field 1 (OTYPER p) n, field 2 (OSPEEDR p) n, field 2 (PUPDR p) n,
   if n / 8 =? 0 then field 4 (AFRL p) (n mod 8) else field 4 (AFRH p) (n mod 8)).

(** A field is replaced and the others are kept. *)
Lemma field_modified w r n v k :
  0 < w -> 0 <= n -> 0 <= k -> 0 <= v < 2 ^ w ->
  field w (MODIFY_REG r (Z.shiftl (Z.ones w) (n * w)) (Z.shiftl v (n * w))) k = if decide (k = n) then v else field w r k.
Proof.
  intros Hw Hn Hk Hv. unfold field, MODIFY_REG. apply Z.bits_inj'. intros i Hi.
  assert (0 <= k * w) by nia. assert (0 <= n * w) by nia.
  rewrite Z.land_spec, Z.shiftr_spec, Z.lor_spec, Z.land_spec, Z.lnot_spec by lia. rewrite !Z.shiftl_spec by lia.
  destruct (decide (i < w)) as [Hlt|Hge].
  - rewrite (Z.ones_spec_low w i) by lia. rewrite andb_true_r. case_decide as E.
    + subst k. replace (i + n * w - n * w) with i by lia. rewrite Z.ones_spec_low by lia. cbn [negb]. by rewrite andb_false_r.
    + rewrite Z.land_spec, Z.shiftr_spec, (Z.ones_spec_low w i) by lia. rewrite andb_true_r.
      assert (i + k * w - n * w < 0 \/ w <= i + k * w - n * w) as [Hneg|Hbig] by nia.
      * rewrite !(Z.testbit_neg_r _ (i + k * w - n * w)) by lia. cbn [negb]. by rewrite andb_true_r, orb_false_r.
      * rewrite Z.ones_spec_high by lia. cbn [negb]. rewrite andb_true_r.
        rewrite <-(Z.mod_small v (2 ^ w) Hv), Z.mod_pow2_bits_high by lia. by rewrite orb_false_r.
  - rewrite (Z.ones_spec_high w i) by lia. rewrite andb_false_r. case_decide.
    + rewrite <-(Z.mod_small v (2 ^ w) Hv), Z.mod_pow2_bits_high by lia. done.
    + rewrite Z.land_spec, Z.ones_spec_high by lia. by rewrite andb_false_r.
Qed.

Lemma field_cleared w r n k :
  0 < w -> 0 <= n -> 0 <= k -> field w (CLEAR_BIT r (Z.shiftl (Z.ones w) (n * w))) k = if decide (k = n) then 0 else field w r k.
Proof.
  intros Hw Hn Hk. assert (0 < 2 ^ w) by (apply Z.pow_pos_nonneg; lia). rewrite <-(field_modified w r n 0 k) by lia.
  unfold MODIFY_REG, CLEAR_BIT. by rewrite Z.shiftl_0_l, Z.lor_0_r.
Qed.

#[local] Ltac Zify.zify_post_hook ::= Z.to_euclidean_division_equations.

(** Configuring one pin gives it its function and leaves the fifteen others. *)
Lemma configure_pin p n af k :
  0 <= n < 16 -> 0 <= k < 16 -> 0 <= af < 16 ->
  pin (board_ConfigureAlternatePin p n af) k = if decide (k = n) then (GPIO_MODE_ALTERNATE, 0, GPIO_SPEED_VERY_HIGH, 0, af) else pin p k.
Proof.
  intros Hn Hk Haf. unfold pin, board_ConfigureAlternatePin. cbn [MODER OTYPER OSPEEDR PUPDR AFRL AFRH].
  change 3 with (Z.ones 2). change 0xF with (Z.ones 4). change (Z.shiftl 1 n) with (Z.shiftl (Z.ones 1) n).
  replace (Z.shiftl (Z.ones 1) n) with (Z.shiftl (Z.ones 1) (n * 1)) by (by rewrite Z.mul_1_r).
  rewrite !field_modified, !field_cleared by (try done; lia).
  assert (forall r, field 4 (MODIFY_REG r (Z.shiftl (Z.ones 4) (n mod 8 * 4)) (Z.shiftl af (n mod 8 * 4))) (k mod 8)
    = if decide (k mod 8 = n mod 8) then af else field 4 r (k mod 8)) as Haft by (intros r; apply field_modified; lia).
  destruct (Z.eqb_spec (n / 8) 0), (Z.eqb_spec (k / 8) 0); rewrite ?Haft; repeat case_decide; try done; lia.
Qed.

Lemma output_pin p n k :
  0 <= n < 16 -> 0 <= k < 16 ->
  let '(m, t, s, u, a) := pin p k in
  pin (Gpio_InitOutput p n) k = if decide (k = n) then (GPIO_MODE_OUTPUT, 0, GPIO_SPEED_LOW, 0, a) else pin p k.
Proof.
  intros Hn Hk. unfold pin, Gpio_InitOutput. cbn [MODER OTYPER OSPEEDR PUPDR AFRL AFRH].
  change 3 with (Z.ones 2). replace (Z.shiftl 1 n) with (Z.shiftl (Z.ones 1) (n * 1)) by (by rewrite Z.mul_1_r).
  rewrite !field_modified, !field_cleared by (try done; lia). by repeat case_decide.
Qed.

Lemma button_pin p k :
  0 <= k < 16 ->
  let '(m, t, s, u, a) := pin p k in
  pin (UserButton_Init p) k = if decide (k = USER_BUTTON_PIN_POSITION) then (0, t, s, 0, a) else pin p k.
Proof.
  intros Hk. unfold pin, UserButton_Init. cbn [MODER OTYPER OSPEEDR PUPDR AFRL AFRH]. change 3 with (Z.ones 2).
  fold (CLEAR_BIT (MODER p) (Z.shiftl (Z.ones 2) (USER_BUTTON_PIN_POSITION * 2))).
  fold (CLEAR_BIT (PUPDR p) (Z.shiftl (Z.ones 2) (USER_BUTTON_PIN_POSITION * 2))).
  rewrite !field_cleared by (try done; lia). by repeat case_decide.
Qed.

(** ** The Ethernet port of the board *)

Inductive port := GPIOA | GPIOB | GPIOC | GPIOD | GPIOG.

#[global] Instance port_eq_dec : EqDecision port.
Proof. solve_decision. Defined.

(** The GPIO ports, and [ethernetMacAddress] once [ethernetMacAddressReady]. *)
Record board := Board { ports : port -> gpio_port; ethernetMacAddress : option (Z * Z * Z * Z * Z * Z) }.

Definition ethernetPins : list (port * Z) :=
  [(GPIOA, 1); (GPIOA, 2); (GPIOA, 7); (GPIOB, 13); (GPIOC, 1); (GPIOC, 4); (GPIOC, 5); (GPIOG, 11); (GPIOG, 13)].

Definition configure_pins (g : port -> gpio_port) (l : list (port * Z)) (af : Z) : port -> gpio_port :=
  fold_left (fun g '(q, n) q' => if decide (q' = q) then board_ConfigureAlternatePin (g q) n af else g q') l g.

Definition Board_InitEthernet {H} `{Peripheral H} (b : board) (uid : list Z) (e : ethernet H) :
    board * ethernet H * Ethernet_StatusTypeDef :=
  let address := board_GetEthernetMacAddress (ethernetMacAddress b) uid in
  let '(e, st) := EthernetMac_Init e ETHERNET_PHY_ADDRESS (Some address) in
  (Board (configure_pins (ports b) ethernetPins ETHERNET_GPIO_AF) (Some address), e, st).

Lemma configured_pins l af : forall g q n,
  Forall (fun x => 0 <= x.2 < 16) l -> 0 <= af < 16 -> 0 <= n < 16 ->
  pin (configure_pins g l af q) n
  = if decide ((q, n) ∈ l) then (GPIO_MODE_ALTERNATE, 0, GPIO_SPEED_VERY_HIGH, 0, af) else pin (g q) n.
Proof.
  induction l as [|[q' m] l IH]; intros g q n Hl Haf Hn.
  - unfold configure_pins. cbn [fold_left]. case_decide as E; [by apply not_elem_of_nil in E|done].
  - apply list.Forall_cons in Hl as [Hm Hl]. cbn [snd] in Hm. unfold configure_pins. cbn [fold_left].
    fold (configure_pins (fun q'0 => if decide (q'0 = q') then board_ConfigureAlternatePin (g q') m af else g q'0) l af).
    rewrite IH by done. destruct (decide ((q, n) ∈ l)) as [Hin|Hin].
    + case_decide as E; [done|]. exfalso. apply E. by apply list_elem_of_further.
    + case_decide as Eq.
      * subst q'. rewrite configure_pin by done. destruct (decide (n = m)) as [->|Hne].
        -- case_decide as E; [done|]. exfalso. apply E. by apply list_elem_of_here.
        -- case_decide as E; [|done]. apply elem_of_cons in E as [[= ?]|?]; done.
      * case_decide as E; [|done]. apply elem_of_cons in E as [[= ? ?]|?]; done.
Qed.

(** ** The station address *)

Definition unicast (m : Z * Z * Z * Z * Z * Z) : Prop := let '(a0, _, _, _, _, _) := m in Z.testbit a0 0 = false.
Definition locally_administered (m : Z * Z * Z * Z * Z * Z) : Prop := let '(a0, _, _, _, _, _) := m in Z.testbit a0 1 = true.

Lemma hash_byte_u8 h i : is_u8 (hash_byte h i).
Proof. apply u8_range. Qed.

Lemma derived_address uid : let m := derive_address uid in bytes6 m /\ unicast m /\ locally_administered m.
Proof.
  unfold derive_address. set (h := fnv1a_uid uid). cbn zeta. set (b := hash_byte h 0).
  assert (is_u8 b) as Hb by apply hash_byte_u8. clearbody b.
  assert (forallb (fun n => let a := Z.lor (Z.land (Z.of_nat n) 0xFC) 2 in (0 <=? a) && (a <? 256) && negb (Z.testbit a 0) && Z.testbit a 1)
    (seq 0 256) = true) as Hall by reflexivity.
  rewrite forallb_forall in Hall. unfold is_u8 in Hb. specialize (Hall (Z.to_nat b) ltac:(apply in_seq; lia)).
  rewrite Z2Nat.id in Hall by lia. cbn zeta in Hall. rewrite !andb_true_iff in Hall.
  destruct Hall as [[[H1%Z.leb_le H2%Z.ltb_lt] H3%negb_true_iff] H4]. unfold unicast, locally_administered.
  split; [|by split]. unfold bytes6. repeat constructor; unfold is_u8; try lia; apply hash_byte_u8.
Qed.

(** Bringing the Ethernet up on a board whose PHY answers succeeds: the nine RMII
    pins have the Ethernet function and no other pin changes; the station address
    is the one derived from the identifier, is unicast and locally administered,
    and reads back from the MAC as it was computed, byte for byte; both rings are
    empty and running, and the PHY was told to negotiate. *)
Lemma board_ethernet_up {H} `{Peripheral H} `{!PhyLaws H ETHERNET_PHY_ADDRESS} g uid (e : ethernet H) :
  at_rest (bus e) -> has_buffers (receiving e) -> has_buffers (transmitting e) ->
  exists b' e' m, Board_InitEthernet (Board g None) uid e = (b', e', ETHERNET_STATUS_OK)
    /\ board_GetEthernetMacAddress (ethernetMacAddress b') uid = m /\ m = derive_address uid /\ unicast m /\ locally_administered m
    /\ mac_ready ETHERNET_PHY_ADDRESS e' m
    /\ restarts (the_phy (bus e')) = S (restarts (the_phy (bus e)))
    /\ forall q n, 0 <= n < 16 ->
         pin (ports b' q) n = if decide ((q, n) ∈ ethernetPins) then (GPIO_MODE_ALTERNATE, 0, GPIO_SPEED_VERY_HIGH, 0, ETHERNET_GPIO_AF)
                              else pin (g q) n.
Proof.
  intros Hr Hrx Htx. destruct (derived_address uid) as (Hb & Hu & Hl).
  destruct (mac_init_ready ETHERNET_PHY_ADDRESS e (derive_address uid) Hr ltac:(done) Hb Hrx Htx) as (e' & E & Hm & Hre & _).
  unfold Board_InitEthernet. cbn [ethernetMacAddress board_GetEthernetMacAddress]. rewrite E.
  eexists _, e', _. split; [reflexivity|]. split; [reflexivity|]. do 5 (split; [done|]).
  intros q n Hn. apply configured_pins; [|done|done].
  unfold ethernetPins. repeat (apply list.Forall_cons; split; [cbn; lia|]). done.
Qed.

Definition blank_port : gpio_port := Gpio 0 0 0 0 0 0.
Definition demo_uid : list Z := [0x001C0045; 0x35365119; 0x37323838].

Lemma board_ethernet_up_witness :
  exists b' e' m, Board_InitEthernet (Board (fun _ => blank_port) None) demo_uid demo_mac = (b', e', ETHERNET_STATUS_OK)
    /\ m = derive_address demo_uid /\ unicast m /\ EthernetMac_GetAddress e' = m.
Proof.
  destruct (board_ethernet_up (fun _ => blank_port) demo_uid demo_mac demo_at_rest (conj eq_refl demo_buffers_ok)
    (conj eq_refl demo_buffers_ok)) as (b' & e' & m & E & _ & Hm & Hu & _ & Hr & _).
  exists b', e', m. split; [exact E|]. split; [exact Hm|]. split; [exact Hu|]. exact (mr_address _ _ _ Hr).
Defined.
