(* ===== verification/Buzzer.v ===== *)
(** [Periph/Src/buzzer.c]: the buzzer on PA3, driven by channel 4 of timer 2.

    An operation is the sequence of its register writes, so that what the pin
    does between two writes can be stated: whenever the pin is handed to the
    timer, the timer drives it.  The patterns are those of [BuzzerService].  The
    clock enables of [Buzzer_Init] are with the other enables in [Main]. *)
From S2P Require Import Prelude Ethernet EthernetLink Board BuzzerService.

Definition BUZZER_PIN_POSITION : Z := 3.
Definition BUZZER_ALTERNATE_FUNCTION : Z := 1.
Definition BUZZER_TIMER_TICK_HZ : Z := 1000000.
Definition TIM_CR1_CEN : Z := Z.shiftl 1 0.
Definition TIM_CR1_ARPE : Z := Z.shiftl 1 7.
Definition TIM_CCER_CC4E : Z := Z.shiftl 1 12.
Definition TIM_CCMR2_OC4M : Z := 0x1007000.
Definition TIM_CCMR2_OC4M_1 : Z := 0x2000.
Definition TIM_CCMR2_OC4M_2 : Z := 0x4000.
Definition TIM_CCMR2_OC4PE : Z := 0x800.

(** Port A with its output register, and timer 2. *)
Record buzzer_hw := Hw {
  gpioa : gpio_port;
  ODR : Z;
  CR1 : Z;
  CCER : Z;
  PSC : Z;
  ARR : Z;
  CCR4 : Z;
  CCMR2 : Z;
}.

(** ** Register writes (the update event of the timer aside) *)

Definition with_port (h : buzzer_hw) (p : gpio_port) : buzzer_hw := Hw p (ODR h) (CR1 h) (CCER h) (PSC h) (ARR h) (CCR4 h) (CCMR2 h).
Definition set_moder (v : Z) (h : buzzer_hw) : buzzer_hw :=
  let p := gpioa h in
  with_port h (Gpio (MODIFY_REG (MODER p) (Z.shiftl 3 (BUZZER_PIN_POSITION * 2)) (Z.shiftl v (BUZZER_PIN_POSITION * 2)))
    (OTYPER p) (OSPEEDR p) (PUPDR p) (AFRL p) (AFRH p)).
Definition set_speed (v : Z) (h : buzzer_hw) : buzzer_hw :=
  let p := gpioa h in
  with_port h (Gpio (MODER p) (OTYPER p)
    (MODIFY_REG (OSPEEDR p) (Z.shiftl 3 (BUZZER_PIN_POSITION * 2)) (Z.shiftl v (BUZZER_PIN_POSITION * 2))) (PUPDR p) (AFRL p) (AFRH p)).
Definition set_pushpull (h : buzzer_hw) : buzzer_hw :=
  let p := gpioa h in
  with_port h (Gpio (MODER p) (CLEAR_BIT (OTYPER p) (Z.shiftl 1 BUZZER_PIN_POSITION)) (OSPEEDR p) (PUPDR p) (AFRL p) (AFRH p)).
Definition set_nopull (h : buzzer_hw) : buzzer_hw :=
  let p := gpioa h in
  with_port h (Gpio (MODER p) (OTYPER p) (OSPEEDR p) (CLEAR_BIT (PUPDR p) (Z.shiftl 3 (BUZZER_PIN_POSITION * 2))) (AFRL p) (AFRH p)).
Definition set_function (h : buzzer_hw) : buzzer_hw :=
  let p := gpioa h in
  with_port h (Gpio (MODER p) (OTYPER p) (OSPEEDR p) (PUPDR p)
    (MODIFY_REG (AFRL p) (Z.shiftl 0xF (BUZZER_PIN_POSITION * 4)) (Z.shiftl BUZZER_ALTERNATE_FUNCTION (BUZZER_PIN_POSITION * 4))) (AFRH p)).
Definition drive_low (h : buzzer_hw) : buzzer_hw :=
  Hw (gpioa h) (CLEAR_BIT (ODR h) (Z.shiftl 1 BUZZER_PIN_POSITION)) (CR1 h) (CCER h) (PSC h) (ARR h) (CCR4 h) (CCMR2 h).
Definition set_CR1 (v : Z) (h : buzzer_hw) : buzzer_hw := Hw (gpioa h) (ODR h) v (CCER h) (PSC h) (ARR h) (CCR4 h) (CCMR2 h).
Definition set_CCER (v : Z) (h : buzzer_hw) : buzzer_hw := Hw (gpioa h) (ODR h) (CR1 h) v (PSC h) (ARR h) (CCR4 h) (CCMR2 h).
Definition set_PSC (v : Z) (h : buzzer_hw) : buzzer_hw := Hw (gpioa h) (ODR h) (CR1 h) (CCER h) v (ARR h) (CCR4 h) (CCMR2 h).
Definition set_ARR (v : Z) (h : buzzer_hw) : buzzer_hw := Hw (gpioa h) (ODR h) (CR1 h) (CCER h) (PSC h) v (CCR4 h) (CCMR2 h).
Definition set_CCR4 (v : Z) (h : buzzer_hw) : buzzer_hw := Hw (gpioa h) (ODR h) (CR1 h) (CCER h) (PSC h) (ARR h) v (CCMR2 h).
Definition set_CCMR2 (v : Z) (h : buzzer_hw) : buzzer_hw := Hw (gpioa h) (ODR h) (CR1 h) (CCER h) (PSC h) (ARR h) (CCR4 h) v.

Abbreviation writes := (list (buzzer_hw -> buzzer_hw)).

(** [Gpio_InitOutput] and [GPIO_PIN_RESET] on the pin. *)
Definition output_low : writes := [set_moder GPIO_MODE_OUTPUT; set_speed GPIO_SPEED_LOW; set_pushpull; set_nopull; drive_low].

Definition buzzer_ConfigureAlternatePin : writes :=
  [set_moder GPIO_MODE_ALTERNATE; set_speed GPIO_SPEED_VERY_HIGH; set_pushpull; set_nopull; set_function].

Definition Buzzer_SetFrequency (frequencyHz : Z) : writes :=
  if (frequencyHz =? 0) || (BUZZER_TIMER_TICK_HZ <? frequencyHz) then [] else
  let period := BUZZER_TIMER_TICK_HZ / frequencyHz - 1 in
  [set_ARR period; set_CCR4 ((period + 1) / 2)].

Definition Buzzer_Init (pclk1TimerHz : Z) : writes :=
  output_low
  ++ [set_CR1 0; set_CCER 0; set_PSC (pclk1TimerHz / BUZZER_TIMER_TICK_HZ - 1)]
  ++ Buzzer_SetFrequency BUZZER_DEFAULT_FREQUENCY_HZ
  ++ [fun h => set_CCMR2 (MODIFY_REG (CCMR2 h) (Z.lor TIM_CCMR2_OC4M TIM_CCMR2_OC4PE)
                (Z.lor (Z.lor TIM_CCMR2_OC4M_1 TIM_CCMR2_OC4M_2) TIM_CCMR2_OC4PE)) h;
      fun h => set_CR1 (SET_BIT (CR1 h) TIM_CR1_ARPE) h].

Definition Buzzer_On : writes :=
  [fun h => set_CCER (SET_BIT (CCER h) TIM_CCER_CC4E) h; fun h => set_CR1 (SET_BIT (CR1 h) TIM_CR1_CEN) h]
  ++ buzzer_ConfigureAlternatePin.

Definition Buzzer_Off : writes :=
  output_low
  ++ [fun h => set_CR1 (CLEAR_BIT (CR1 h) TIM_CR1_CEN) h; fun h => set_CCER (CLEAR_BIT (CCER h) TIM_CCER_CC4E) h].

(** The writes of a pattern of the buzzer service. *)
Definition action_writes (a : action) : writes :=
  match a with
  | SetFrequency hz => Buzzer_SetFrequency hz
  | On => Buzzer_On
  | Off => Buzzer_Off
  | Delay _ => []
  end.
Definition pattern_writes (l : list action) : writes := concat (map action_writes l).

(** The states after each write, and the last. *)
Fixpoint states (h : buzzer_hw) (l : writes) : list buzzer_hw :=
  match l with [] => [] | w :: l => w h :: states (w h) l end.
Definition after (h : buzzer_hw) (l : writes) : buzzer_hw := fold_left (fun h w => w h) l h.

(** ** The pin *)

Definition pin_mode (h : buzzer_hw) : Z := field 2 (MODER (gpioa h)) BUZZER_PIN_POSITION.
Definition pin_function (h : buzzer_hw) : Z := field 4 (AFRL (gpioa h)) BUZZER_PIN_POSITION.
Definition sounding (h : buzzer_hw) : bool := Z.testbit (CR1 h) 0 && Z.testbit (CCER h) 12.

(** A pin handed to alternate functions is driven by the running timer. *)
Definition driven (h : buzzer_hw) : Prop :=
  pin_mode h = GPIO_MODE_ALTERNATE -> pin_function h = BUZZER_ALTERNATE_FUNCTION /\ sounding h = true.

(** A low output, the timer stopped. *)
Definition silent (h : buzzer_hw) : Prop :=
  pin_mode h = GPIO_MODE_OUTPUT /\ Z.testbit (ODR h) BUZZER_PIN_POSITION = false /\ Z.testbit (CR1 h) 0 = false /\ Z.testbit (CCER h) 12 = false.

Lemma states_app h l1 l2 : states h (l1 ++ l2) = states h l1 ++ states (after h l1) l2.
Proof. revert h. induction l1 as [|w l1 IH]; intros h; [done|]. cbn. by rewrite IH. Qed.

Lemma after_app h l1 l2 : after h (l1 ++ l2) = after (after h l1) l2.
Proof. apply fold_left_app. Qed.

Lemma moder_mode v h : 0 <= v < 4 -> pin_mode (set_moder v h) = v.
Proof.
  intros Hv. unfold pin_mode, set_moder. cbn [with_port gpioa MODER]. change 3 with (Z.ones 2).
  rewrite field_modified by (try done; unfold BUZZER_PIN_POSITION; lia). by case_decide.
Qed.

Lemma function_set h : pin_function (set_function h) = BUZZER_ALTERNATE_FUNCTION.
Proof.
  unfold pin_function, set_function. cbn [with_port gpioa AFRL]. change 0xF with (Z.ones 4).
  rewrite field_modified by done. by case_decide.
Qed.

Lemma bit_set v k : 0 <= k -> Z.testbit (SET_BIT v (Z.shiftl 1 k)) k = true.
Proof. intros Hk. unfold SET_BIT. rewrite Z.lor_spec, bit_of by done. by rewrite bool_decide_eq_true_2, orb_true_r. Qed.

Lemma bit_cleared v k : 0 <= k -> Z.testbit (CLEAR_BIT v (Z.shiftl 1 k)) k = false.
Proof. intros Hk. unfold CLEAR_BIT. rewrite Z.land_spec, Z.lnot_spec, bit_of by done. by rewrite bool_decide_eq_true_2, andb_false_r. Qed.

(** Switching on: the timer runs before the pin is handed over. *)
Lemma on_driven h :
  pin_function h = BUZZER_ALTERNATE_FUNCTION -> driven h ->
  Forall driven (states h Buzzer_On) /\ pin_function (after h Buzzer_On) = BUZZER_ALTERNATE_FUNCTION /\ driven (after h Buzzer_On).
Proof.
  intros Hf Hd. set (h1 := set_CCER (SET_BIT (CCER h) TIM_CCER_CC4E) h). set (h2 := set_CR1 (SET_BIT (CR1 h1) TIM_CR1_CEN) h1).
  assert (sounding h2 = true) as Hs 
    by (change (Z.testbit (SET_BIT (CR1 h) (Z.shiftl 1 0)) 0 && Z.testbit (SET_BIT (CCER h) (Z.shiftl 1 12)) 12 = true);
        by rewrite !bit_set by lia).
  assert (forall g, pin_function g = BUZZER_ALTERNATE_FUNCTION -> sounding g = true -> driven g) as Hok by (by intros g ? ? _).
  assert (pin_function (set_function (set_nopull (set_pushpull (set_speed GPIO_SPEED_VERY_HIGH (set_moder GPIO_MODE_ALTERNATE h2)))))
    = BUZZER_ALTERNATE_FUNCTION) as Hfn by apply function_set.
  split; [|split; [exact Hfn|by apply Hok]].
  assert (driven h1) as H1.
  { intros Hm. destruct (Hd Hm) as [_ Hsd]. split; [exact Hf|]. apply andb_true_iff in Hsd as [Hc _].
    change (Z.testbit (CR1 h) 0 && Z.testbit (SET_BIT (CCER h) (Z.shiftl 1 12)) 12 = true). by rewrite Hc, bit_set by lia. }
  repeat apply List.Forall_cons; try apply List.Forall_nil; [exact H1|by apply Hok..].
Qed.

(** Switching off: the pin is taken back before the timer stops. *)
Lemma off_driven h : Forall driven (states h Buzzer_Off) /\ silent (after h Buzzer_Off) /\ driven (after h Buzzer_Off).
Proof.
  assert (pin_mode (set_moder GPIO_MODE_OUTPUT h) = GPIO_MODE_OUTPUT) as Hm by (by apply moder_mode).
  assert (forall g, pin_mode g = GPIO_MODE_OUTPUT -> driven g) as Hok by (intros g Hg Ha; by rewrite Hg in Ha).
  split; [|split; [|by apply Hok]].
  - repeat apply List.Forall_cons; try apply List.Forall_nil; by apply Hok.
  - split; [exact Hm|]. split; [|split].
    + change (Z.testbit (CLEAR_BIT (ODR h) (Z.shiftl 1 BUZZER_PIN_POSITION)) BUZZER_PIN_POSITION = false). apply (bit_cleared _ _); done.
    + change (Z.testbit (CLEAR_BIT (CR1 h) TIM_CR1_CEN) 0 = false). apply (bit_cleared _ _); done.
    + change (Z.testbit (CLEAR_BIT (CCER h) TIM_CCER_CC4E) 12 = false). apply (bit_cleared _ _); done.
Qed.

Lemma off_function h : pin_function (after h Buzzer_Off) = pin_function h.
Proof. done. Qed.

Lemma frequency_driven h hz :
  driven h -> Forall driven (states h (Buzzer_SetFrequency hz)) /\ driven (after h (Buzzer_SetFrequency hz))
  /\ pin_function (after h (Buzzer_SetFrequency hz)) = pin_function h
  /\ (silent h -> silent (after h (Buzzer_SetFrequency hz))).
Proof.
  intros Hd. unfold Buzzer_SetFrequency. destruct (_ || _); [done|]. split; [by repeat apply List.Forall_cons|]. done.
Qed.

(** A pattern from the middle: [on] is whether the buzzer sounds. *)
Lemma pattern_driven l : forall h n on,
  pin_function h = BUZZER_ALTERNATE_FUNCTION -> driven h -> (on = false -> silent h) -> tones l on = Some n ->
  Forall driven (states h (pattern_writes l)) /\ silent (after h (pattern_writes l)).
Proof.
  induction l as [|a l IH]; intros h n on Hf Hd Hs Ht.
  - cbn in Ht. destruct on; [done|]. split; [apply List.Forall_nil|by apply Hs].
  - unfold pattern_writes. cbn [map concat]. fold (pattern_writes l). rewrite states_app, after_app, Forall_app.
    destruct a as [hz| | |ms]; cbn [tones action_writes] in *.
    + destruct (frequency_driven h hz Hd) as (H1 & H2 & H3 & H4). rewrite <-H3 in Hf.
      destruct (IH _ n on Hf H2 (fun E => H4 (Hs E)) Ht) as [H5 H6]. done.
    + destruct on; [done|]. destruct (tones l true) as [k|] eqn:Ek; [|done].
      destruct (on_driven h Hf Hd) as (H1 & H2 & H3). destruct (IH _ k true H2 H3 ltac:(done) Ek) as [H5 H6]. done.
    + destruct (off_driven h) as (H1 & H2 & H3). rewrite <-(off_function h) in Hf.
      destruct (IH _ n false Hf H3 (fun _ => H2) Ht) as [H5 H6]. done.
    + split; [split; [apply List.Forall_nil|]|]; by apply (IH h n on Hf Hd Hs Ht).
Qed.

(** The buzzer's pin is never left to an idle timer: through every register write
    of every pattern the service can play, once the pin's function has been
    selected, the pin is either a plain output or driven by the running timer, and
    a pattern that switches the buzzer off as often as on ends in silence: a low
    output with the timer stopped. *)
Lemma buzzer_pin_driven h l n :
  pin_function h = BUZZER_ALTERNATE_FUNCTION -> silent h -> tones l false = Some n ->
  Forall driven (states h (pattern_writes l)) /\ silent (after h (pattern_writes l)).
Proof.
  intros Hf Hs Ht. apply (pattern_driven l h n false Hf); [|by intros|exact Ht]. intros Hm. by rewrite (proj1 Hs) in Hm.
Qed.

(** The first time, the pin is handed over before its function is selected. *)
Lemma first_tone_undriven h :
  pin_function h <> BUZZER_ALTERNATE_FUNCTION -> exists g, In g (states h Buzzer_On) /\ ~ driven g.
Proof.
  intros Hf. exists (set_moder GPIO_MODE_ALTERNATE (set_CR1 (SET_BIT (CR1 h) TIM_CR1_CEN) (set_CCER (SET_BIT (CCER h) TIM_CCER_CC4E) h))).
  split; [right; right; by left|]. intros Hd. destruct Hd as [E _]; [by apply moder_mode|]. apply Hf. exact E.
Qed.

(** The tone: a half-on square wave of the requested frequency, rounded up to the
    next period of whole microseconds. *)
Lemma frequency_period h hz :
  1 <= hz <= BUZZER_TIMER_TICK_HZ ->
  let h' := after h (Buzzer_SetFrequency hz) in
  0 <= ARR h' < BUZZER_TIMER_TICK_HZ /\ CCR4 h' = (ARR h' + 1) / 2
  /\ (ARR h' + 1) * hz <= BUZZER_TIMER_TICK_HZ < (ARR h' + 2) * hz.
Proof.
  intros Hz. unfold Buzzer_SetFrequency. rewrite (proj2 (Z.eqb_neq _ _)) by lia. rewrite (proj2 (Z.ltb_ge _ _)) by lia. cbn [orb].
  cbn [after fold_left set_ARR set_CCR4 ARR CCR4]. unfold BUZZER_TIMER_TICK_HZ in *. split; [|split; [done|]].
  - assert (1 <= 1000000 / hz) by (apply Z.div_le_lower_bound; lia). assert (1000000 / hz <= 1000000) by (apply Z.div_le_upper_bound; nia). lia.
  - pose proof (Z.div_mod 1000000 hz ltac:(lia)). pose proof (Z.mod_pos_bound 1000000 hz ltac:(lia)). nia.
Qed.

(** After the start-up tone, a certificate warning for resource 2. *)
Definition demo_hw : buzzer_hw := after (Hw blank_port 0 0 0 0 0 0 0) (Buzzer_Init 108000000 ++ pattern_writes (buzzerService_Beep 150)).

Lemma buzzer_pin_driven_witness :
  Forall driven (states demo_hw (pattern_writes (play (BUZZER_EVENT_CERTIFICATE 2))))
  /\ silent (after demo_hw (pattern_writes (play (BUZZER_EVENT_CERTIFICATE 2)))).
Proof.
  apply (buzzer_pin_driven demo_hw (play (BUZZER_EVENT_CERTIFICATE 2)) 5); [vm_compute; reflexivity| |vm_compute; reflexivity].
  split; [vm_compute; reflexivity|]. split; [vm_compute; reflexivity|]. split; vm_compute; reflexivity.
Defined.
