(* ===== verification/System.v ===== *)
(** [Core/Src/system.c]: clocks, memory protection and the RTC domain at reset.

    [SystemInit] is a sequence of register accesses on a chip whose status bits
    are arbitrary inputs.  The chip keeps a log of the clock configuration after
    every write, so that the limits of the data sheet can be stated for every
    intermediate state, not for the last one only. *)
From S2P Require Import Prelude Ethernet EthernetLink Board.

Definition SYSTEM_CLOCK_TIMEOUT_LOOPS : Z := 1000000.
Definition SYSTEM_LSE_TIMEOUT_LOOPS : Z := 100000000.
Definition ETHERNET_MEMORY_BASE : Z := 0x20078000.
Definition MPU_REGION_SIZE_32_KB : Z := 14.
Definition FLASH_BASE : Z := 0x08000000.

Record SystemClocks_TypeDef := Clocks {
  systemCoreHz : Z;
  hclkHz : Z;
  pclk1Hz : Z;
  pclk1TimerHz : Z;
  pclk2Hz : Z;
  pclk2TimerHz : Z;
  pll48Hz : Z;
}.

Definition systemClocks : SystemClocks_TypeDef :=
  Clocks 216000000 216000000 54000000 108000000 108000000 216000000 48000000.

(** ** The registers *)

Inductive sreg :=
  | VTOR | CCR | AIRCR | MPU_CTRL | MPU_RNR | MPU_RBAR | MPU_RASR
  | FLASH_ACR | PWR_CR1 | PWR_CSR1
  | RCC_CR | RCC_PLLCFGR | RCC_CFGR | RCC_CSR | RCC_BDCR | RCC_DCKCFGR1
  | RCC_AHB1ENR | RCC_APB1ENR | RCC_APB2ENR | DBGMCU_APB1FZ.

#[global] Instance sreg_eq_dec : EqDecision sreg.
Proof. solve_decision. Defined.

Definition BIT (n : Z) : Z := Z.shiftl 1 n.

(** The bits that the hardware sets: ready flags and the clock in use. *)
Definition status_mask (r : sreg) : Z :=
  match r with
  | PWR_CSR1 => 0xFFFFFFFF
  | RCC_CR => Z.lor (BIT 1) (Z.lor (BIT 17) (BIT 25))
  | RCC_CFGR => 0xC
  | RCC_CSR | RCC_BDCR => BIT 1
  | _ => 0
  end.

Definition RTCSEL : Z := 0x300.
Definition RTCSEL_LSE : Z := 0x100.
Definition BDRST : Z := BIT 16.

(** What a write leaves in a register.  A reset of the backup domain clears the
    rest of its register; the clock source of the RTC, once selected, stays
    until such a reset. *)
Definition stored (r : sreg) (old v : Z) : Z :=
  let v := match r with
    | RCC_BDCR =>
        if Z.testbit v 16 then BDRST
        else if Z.land old RTCSEL =? 0 then v else MODIFY_REG v RTCSEL (Z.land old RTCSEL)
    | _ => v
    end in
  Z.land v (Z.lnot (status_mask r)).

Definition upd (g : sreg -> Z) (r : sreg) (v : Z) : sreg -> Z := fun r' => if decide (r' = r) then v else g r'.

(** The registers, the number of reads so far, the status bits each register
    showed when it was last read, and the registers with the ready flags of the
    over-drive and the PLL after each write. *)
Record chip := Chip {
  regs : sreg -> Z;
  reads : nat;
  last_status : sreg -> Z;
  log : list ((sreg -> Z) * bool * bool);
}.

Inductive outcome := Running (c : chip) | Halted (c : chip).
Abbreviation op := (chip -> outcome).

Definition od_ready (c : chip) : bool := Z.testbit (last_status c PWR_CSR1) 17.
Definition pll_ready (c : chip) : bool := Z.testbit (last_status c RCC_CR) 25.

Definition then_ (p q : op) : op := fun c =>
  match p c with Running c => q c | Halted c => Halted c end.

Declare Scope system_scope.
#[local] Notation "p ;; q" := (then_ p q) (at level 100, right associativity) : system_scope.
#[local] Open Scope system_scope.

Section Chip.
(** The status bits a read sees: any function of the time and the register. *)
Context (status : nat -> sreg -> Z).

Definition read (c : chip) (r : sreg) : chip * Z :=
  let s := Z.land (status (reads c) r) (status_mask r) in
  (Chip (regs c) (S (reads c)) (upd (last_status c) r s) (log c), Z.lor (regs c r) s).

Definition write (c : chip) (r : sreg) (v : Z) : chip :=
  let g := upd (regs c) r (stored r (regs c r) v) in
  Chip g (reads c) (last_status c) (log c ++ [(g, od_ready c, pll_ready c)]).

Definition put (r : sreg) (v : Z) : op := fun c => Running (write c r v).
Definition update (r : sreg) (f : Z -> Z) : op := fun c => let '(c, v) := read c r in Running (write c r (f v)).
Definition set_bits (r : sreg) (m : Z) : op := update r (fun v => SET_BIT v m).
Definition clear_bits (r : sreg) (m : Z) : op := update r (fun v => CLEAR_BIT v m).
Definition modify (r : sreg) (clear set : Z) : op := update r (fun v => MODIFY_REG v clear set).
Definition fetch (r : sreg) : op := fun c => Running (fst (read c r)).
Definition skip : op := Running.

(** [System_ErrorHandler] never returns. *)
Definition System_ErrorHandler : op := Halted.

Fixpoint system_WaitForSet (r : sreg) (mask : Z) (remaining : nat) : op := fun c =>
  match remaining with
  | O => System_ErrorHandler c
  | S remaining =>
      let '(c, v) := read c r in
      if Z.land v mask =? mask then Running c else system_WaitForSet r mask remaining c
  end.

Definition clock_loops : nat := Z.to_nat SYSTEM_CLOCK_TIMEOUT_LOOPS.
Definition lse_loops : nat := Z.to_nat SYSTEM_LSE_TIMEOUT_LOOPS.

Definition system_ConfigureEthernetMemory : op :=
  put MPU_CTRL 0 ;;
  put MPU_RNR 0 ;;
  put MPU_RBAR ETHERNET_MEMORY_BASE ;;
  put MPU_RASR (Z.lor (BIT 28) (Z.lor (Z.shiftl 3 24) (Z.lor (BIT 18) (Z.lor (Z.shiftl MPU_REGION_SIZE_32_KB 1) 1)))) ;;
  put MPU_CTRL (Z.lor (BIT 2) 1).

(** The body of the condition of [system_ConfigureRtcClock]. *)
Definition restart_lse : op :=
  set_bits RCC_BDCR BDRST ;;
  clear_bits RCC_BDCR BDRST ;;
  modify RCC_BDCR 0x18 0 ;;
  set_bits RCC_BDCR (BIT 0) ;;
  system_WaitForSet RCC_BDCR (BIT 1) lse_loops ;;
  modify RCC_BDCR RTCSEL RTCSEL_LSE.

(** The condition reads the register once, or twice when the clock source is
    right. *)
Definition check_lse : op := fun c =>
  let '(c, v) := read c RCC_BDCR in
  if negb (Z.land v RTCSEL =? RTCSEL_LSE) then restart_lse c else
  let '(c, v) := read c RCC_BDCR in
  if Z.land v (BIT 1) =? 0 then restart_lse c else Running c.

Definition system_ConfigureRtcClock : op :=
  set_bits PWR_CR1 (BIT 8) ;;
  system_WaitForSet PWR_CR1 (BIT 8) clock_loops ;;
  check_lse ;;
  set_bits RCC_BDCR (BIT 15).

(** [NVIC_SetPriorityGrouping(3)] and the enabling of the caches (CMSIS). *)
Definition priority_grouping : op :=
  modify AIRCR (Z.lor (Z.shiftl 0xFFFF 16) (Z.shiftl 7 8)) (Z.lor (Z.shiftl 0x5FA 16) (Z.shiftl 3 8)).

Definition PLL_SETTING : Z :=
  Z.lor (Z.shiftl 4 0) (Z.lor (Z.shiftl 216 6) (Z.lor (Z.shiftl 0 16) (Z.lor (BIT 22) (Z.shiftl 9 24)))).

Definition set_latency : op :=
  modify FLASH_ACR 0xF 7 ;;
  (fun c => let '(c, v) := read c FLASH_ACR in if negb (Z.land v 0xF =? 7) then System_ErrorHandler c else Running c).

Definition over_drive : op :=
  modify PWR_CR1 0xC000 0xC000 ;;
  set_bits PWR_CR1 (BIT 16) ;;
  system_WaitForSet PWR_CSR1 (BIT 16) clock_loops ;;
  set_bits PWR_CR1 (BIT 17) ;;
  system_WaitForSet PWR_CSR1 (BIT 17) clock_loops.

Definition start_pll : op :=
  put RCC_PLLCFGR PLL_SETTING ;;
  set_bits RCC_CR (BIT 24) ;;
  system_WaitForSet RCC_CR (BIT 25) clock_loops.

Definition switch_clock : op :=
  modify RCC_CFGR 0xF0 0 ;;
  modify RCC_CFGR 0x1C00 0x1400 ;;
  modify RCC_CFGR 0xE000 0x8000 ;;
  modify RCC_CFGR 3 2 ;;
  system_WaitForSet RCC_CFGR 8 clock_loops ;;
  modify RCC_DCKCFGR1 (BIT 24) 0.

Definition ahb1_clocks : Z :=
  Z.lor (BIT 0) (Z.lor (BIT 1) (Z.lor (BIT 2) (Z.lor (BIT 6) (Z.lor (BIT 25) (Z.lor (BIT 26) (BIT 27)))))).

(** [debug] is whether the macro [DEBUG] is defined. *)
Definition SystemInit (debug : bool) : op :=
  put VTOR FLASH_BASE ;;
  system_ConfigureEthernetMemory ;;
  set_bits CCR (BIT 17) ;;
  set_bits CCR (BIT 16) ;;
  set_bits FLASH_ACR (Z.lor (BIT 9) (BIT 8)) ;;
  priority_grouping ;;
  set_bits RCC_APB2ENR (BIT 14) ;;
  set_bits RCC_APB1ENR (BIT 28) ;;
  fetch RCC_APB1ENR ;;
  set_latency ;;
  over_drive ;;
  set_bits RCC_CR (BIT 16) ;;
  system_WaitForSet RCC_CR (BIT 17) clock_loops ;;
  set_bits RCC_CSR (BIT 0) ;;
  system_WaitForSet RCC_CSR (BIT 1) clock_loops ;;
  system_ConfigureRtcClock ;;
  start_pll ;;
  switch_clock ;;
  (if debug then set_bits DBGMCU_APB1FZ (Z.lor (BIT 12) (BIT 11)) else skip) ;;
  set_bits RCC_AHB1ENR ahb1_clocks ;;
  fetch RCC_AHB1ENR.

End Chip.

(** ** The clock tree and its limits

    The board feeds 8 MHz from an external oscillator; the internal one has
    16 MHz.  The prescalers decode as in the reference manual, and the limits
    are those of the data sheet for a supply of 2.7 V to 3.6 V. *)

Definition HSE_HZ : Z := 8000000.
Definition HSI_HZ : Z := 16000000.

Definition bits (v pos width : Z) : Z := Z.land (Z.shiftr v pos) (Z.ones width).

Definition pll_input (g : sreg -> Z) : Z := HSE_HZ / bits (g RCC_PLLCFGR) 0 6.
Definition pll_vco (g : sreg -> Z) : Z := pll_input g * bits (g RCC_PLLCFGR) 6 9.
Definition pll_output (g : sreg -> Z) : Z := pll_vco g / (2 * (bits (g RCC_PLLCFGR) 16 2 + 1)).

Definition ahb_divider (v : Z) : Z := if v <? 8 then 1 else if v <? 12 then 2 ^ (v - 7) else 2 ^ (v - 6).
Definition apb_divider (v : Z) : Z := if v <? 4 then 1 else 2 ^ (v - 3).

Definition hclk (g : sreg -> Z) (sysclk : Z) : Z := sysclk / ahb_divider (bits (g RCC_CFGR) 4 4).
Definition pclk1 (g : sreg -> Z) (sysclk : Z) : Z := hclk g sysclk / apb_divider (bits (g RCC_CFGR) 10 3).
Definition pclk2 (g : sreg -> Z) (sysclk : Z) : Z := hclk g sysclk / apb_divider (bits (g RCC_CFGR) 13 3).

(** The timers of a bus run at the bus clock, or at twice that behind a prescaler;
    with TIMPRE set at the core's clock up to a prescaler of four and at four times
    the bus clock beyond. *)
Definition timer_clock (g : sreg -> Z) (divider hclk : Z) : Z :=
  let pclk := hclk / divider in
  if Z.testbit (g RCC_DCKCFGR1) 24 then if divider <=? 4 then hclk else 4 * pclk
  else if divider =? 1 then pclk else 2 * pclk.

Definition clock_tree (g : sreg -> Z) : SystemClocks_TypeDef :=
  let s := pll_output g in
  Clocks s (hclk g s) (pclk1 g s) (timer_clock g (apb_divider (bits (g RCC_CFGR) 10 3)) (hclk g s))
    (pclk2 g s) (timer_clock g (apb_divider (bits (g RCC_CFGR) 13 3)) (hclk g s))
    (pll_vco g / bits (g RCC_PLLCFGR) 24 4).

(** With a system clock of [s]: the bus clocks, the wait states of the Flash
    and the over-drive that a core clock above 180 MHz needs. *)
Definition bus_limits (g : sreg -> Z) (od : bool) (s : Z) : bool :=
  (hclk g s <=? 216000000) && (pclk1 g s <=? 54000000) && (pclk2 g s <=? 108000000)
  && (hclk g s <=? 30000000 * (bits (g FLASH_ACR) 0 4 + 1))
  && ((hclk g s <=? 180000000) || (od && Z.testbit (g PWR_CR1) 16 && Z.testbit (g PWR_CR1) 17 && (bits (g PWR_CR1) 14 2 =? 3))).

(** Until the switch is requested the core runs from the internal oscillator,
    afterwards from it or from the PLL, which then has to be locked and inside
    its own limits. *)
Definition limits (x : (sreg -> Z) * bool * bool) : bool :=
  let '(g, od, pll) := x in
  bus_limits g od HSI_HZ
  && ((bits (g RCC_CFGR) 0 2 =? 0)
      || ((bits (g RCC_CFGR) 0 2 =? 2) && bus_limits g od (pll_output g)
          && pll && Z.testbit (g RCC_CR) 24 && Z.testbit (g RCC_CR) 16 && Z.testbit (g RCC_PLLCFGR) 22
          && (950000 <=? pll_input g) && (pll_input g <=? 2100000)
          && (100000000 <=? pll_vco g) && (pll_vco g <=? 432000000))).

(** The reset values of the registers that make the clock tree. *)
Definition reset_value (r : sreg) : Z :=
  match r with
  | PWR_CR1 => 0xC000
  | RCC_CR => 0x81
  | RCC_PLLCFGR => 0x24003010
  | _ => 0
  end.

Definition clocked (r : sreg) : bool :=
  match r with
  | FLASH_ACR | PWR_CR1 | PWR_CSR1 | RCC_CR | RCC_PLLCFGR | RCC_CFGR | RCC_DCKCFGR1 => true
  | _ => false
  end.

Definition agrees_on_clocks (k g : sreg -> Z) : Prop := forall r, clocked r = true -> g r = k r.

(** Just after a reset, which the backup domain and the enables survive in any
    state. *)
Definition at_reset (c : chip) : Prop := agrees_on_clocks reset_value (regs c) /\ log c = [].

Lemma limits_agree k g od pll : agrees_on_clocks k g -> limits (g, od, pll) = limits (k, od, pll).
Proof.
  intros A. unfold limits, bus_limits, pll_output, pll_vco, pclk1, pclk2, hclk, pll_input.
  by rewrite (A FLASH_ACR eq_refl), (A PWR_CR1 eq_refl), (A RCC_CR eq_refl), (A RCC_PLLCFGR eq_refl), (A RCC_CFGR eq_refl).
Qed.

Lemma tree_agree k g : agrees_on_clocks k g -> clock_tree g = clock_tree k.
Proof.
  intros A. unfold clock_tree, timer_clock, pll_output, pll_vco, pclk1, pclk2, hclk, pll_input.
  by rewrite (A RCC_PLLCFGR eq_refl), (A RCC_CFGR eq_refl), (A RCC_DCKCFGR1 eq_refl).
Qed.

(** ** Rules for sequences of accesses

    [at_clocks k od pll c]: the clock registers are [k], the ready flags that
    are asked for were seen, and every state so far was inside the limits. *)
Record at_clocks (k : sreg -> Z) (od pll : bool) (c : chip) : Prop := {
  ac_regs : agrees_on_clocks k (regs c);
  ac_od : od = true -> od_ready c = true;
  ac_pll : pll = true -> pll_ready c = true;
  ac_log : forallb limits (log c) = true;
}.

(** When [live], the sequence also has to return. *)
Definition leads (live : bool) (P : chip -> Prop) (p : op) (Q : chip -> Prop) : Prop :=
  forall c, P c ->
  match p c with Running c' => Q c' | Halted c' => live = false /\ forallb limits (log c') = true end.

Lemma leads_then live P p R q Q : leads live P p R -> leads live R q Q -> leads live P (then_ p q) Q.
Proof. intros A B c HP. specialize (A c HP). unfold then_. destruct (p c) as [c'|c']; [by apply B|done]. Qed.

Lemma leads_weaken live P p (Q Q' : chip -> Prop) : (forall c, Q c -> Q' c) -> leads live P p Q -> leads live P p Q'.
Proof. intros W A c HP. specialize (A c HP). destruct (p c); [by apply W|done]. Qed.

Lemma at_clocks_same k k' od pll c : (forall r, clocked r = true -> k r = k' r) -> at_clocks k od pll c -> at_clocks k' od pll c.
Proof. intros S [A B C D]. split; [|done..]. intros r Hr. by rewrite <- S, A. Qed.

(** Every ready flag comes up within the number of polls the code allows. *)
Definition ready_in_time (status : nat -> sreg -> Z) : Prop :=
  forall t r b, Z.testbit (status_mask r) b = true ->
  exists k, (k < clock_loops)%nat /\ Z.testbit (status (t + k)%nat r) b = true.

Section Rules.
Context (status : nat -> sreg -> Z) (live : bool) (Live : live = true -> ready_in_time status).

(** An update of control bits does not see the status bits. *)
Definition ignores_status (r : sreg) (f : Z -> Z) : Prop :=
  forall v s, let m := status_mask r in Z.land (f (Z.lor v (Z.land s m))) (Z.lnot m) = Z.land (f v) (Z.lnot m).

Lemma update_ignores (v s m a b : Z) :
  Z.land (Z.lor (Z.land (Z.lor v (Z.land s m)) a) b) (Z.lnot m) = Z.land (Z.lor (Z.land v a) b) (Z.lnot m).
Proof.
  apply Z.bits_inj'. intros n Hn. rewrite !Z.land_spec, !Z.lor_spec, !Z.land_spec, !Z.lor_spec, !Z.land_spec, Z.lnot_spec by done.
  destruct (Z.testbit v n), (Z.testbit s n), (Z.testbit m n), (Z.testbit a n), (Z.testbit b n); reflexivity.
Qed.

Lemma modify_ignores r clear set : ignores_status r (fun v => MODIFY_REG v clear set).
Proof. intros v s. apply update_ignores. Qed.

Lemma set_ignores r m : ignores_status r (fun v => SET_BIT v m).
Proof. intros v s. pose proof (update_ignores v s (status_mask r) (-1) m) as E. by rewrite !Z.land_m1_r in E. Qed.

Lemma clear_ignores r m : ignores_status r (fun v => CLEAR_BIT v m).
Proof. intros v s. pose proof (update_ignores v s (status_mask r) (Z.lnot m) 0) as E. by rewrite !Z.lor_0_r in E. Qed.

(** The flags a read of [r] may take away. *)
Definition keeps_od (r : sreg) (od : bool) : bool := od && negb (bool_decide (r = PWR_CSR1)).
Definition keeps_pll (r : sreg) (pll : bool) : bool := pll && negb (bool_decide (r = RCC_CR)).

Lemma upd_ne g r r' v : r' <> r -> upd g r v r' = g r'.
Proof. intros N. unfold upd. by destruct (decide (r' = r)). Qed.
Lemma upd_eq g r v : upd g r v r = v.
Proof. unfold upd. by destruct (decide (r = r)). Qed.

Lemma read_rule k od pll r c : at_clocks k od pll c -> at_clocks k (keeps_od r od) (keeps_pll r pll) (fst (read status c r)).
Proof.
  intros [A B C D]. split; [exact A| | |exact D].
  - unfold keeps_od, od_ready. cbn. destruct od; [|done]. intros N. apply negb_true_iff, bool_decide_eq_false in N.
    rewrite upd_ne by congruence. by apply B.
  - unfold keeps_pll, pll_ready. cbn. destruct pll; [|done]. intros N. apply negb_true_iff, bool_decide_eq_false in N.
    rewrite upd_ne by congruence. by apply C.
Qed.

(** A write to a register of the clock tree has to stay inside the limits; any
    other write cannot leave them. *)
Definition next (k : sreg -> Z) (r : sreg) (v : Z) : sreg -> Z := if clocked r then upd k r (Z.land v (Z.lnot (status_mask r))) else k.

Lemma next_agrees k g r v : agrees_on_clocks k g -> agrees_on_clocks (next k r v) (upd g r (stored r (g r) v)).
Proof.
  intros A r' C. unfold next. destruct (clocked r) eqn:E.
  - destruct (decide (r' = r)) as [->|N].
    + rewrite !upd_eq. by destruct r.
    + rewrite !upd_ne by done. by apply A.
  - rewrite upd_ne by congruence. by apply A.
Qed.

Lemma bus_limits_mono g od od' s : (od = true -> od' = true) -> bus_limits g od s = true -> bus_limits g od' s = true.
Proof.
  intros A. destruct od; [by rewrite A|]. unfold bus_limits. cbn [andb]. rewrite orb_false_r.
  intros E. apply andb_true_iff in E as [-> ->]. done.
Qed.

Lemma limits_mono g od pll od' pll' : (od = true -> od' = true) -> (pll = true -> pll' = true) ->
  limits (g, od, pll) = true -> limits (g, od', pll') = true.
Proof.
  intros A B. unfold limits. rewrite !andb_true_iff, !orb_true_iff, !andb_true_iff.
  intros [L [?|?]]; split; try (by eapply bus_limits_mono); [by left|right].
  destruct_and?. repeat split; try done; [by eapply bus_limits_mono|by apply B].
Qed.

Lemma write_rule k od pll r v c : limits (next k r v, od, pll) = true ->
  at_clocks k od pll c -> at_clocks (next k r v) od pll (write c r v).
Proof.
  intros L [A B C D]. assert (N := next_agrees k (regs c) r v A). split; [exact N|exact B|exact C|].
  cbn. rewrite forallb_app, D. cbn [forallb andb]. rewrite andb_true_r.
  rewrite (limits_agree _ _ _ _ N). exact (limits_mono _ _ _ _ _ B C L).
Qed.

Lemma put_rule k od pll r v : limits (next k r v, od, pll) = true ->
  leads live (at_clocks k od pll) (put r v) (at_clocks (next k r v) od pll).
Proof. intros L c A. by apply write_rule. Qed.

Lemma update_rule k od pll r f : ignores_status r f ->
  limits (next k r (f (k r)), keeps_od r od, keeps_pll r pll) = true ->
  leads live (at_clocks k od pll) (update status r f) (at_clocks (next k r (f (k r))) (keeps_od r od) (keeps_pll r pll)).
Proof.
  intros I L c A. assert (R := read_rule k od pll r c A). unfold update, read in R |- *. cbn [fst] in R.
  set (s := Z.land _ _) in *.
  assert (E : next k r (f (k r)) = next k r (f (Z.lor (regs c r) s))).
  { unfold next. destruct (clocked r) eqn:C; [|done]. rewrite (ac_regs _ _ _ _ A r C). unfold s. by rewrite I. }
  rewrite E in L |- *. by apply write_rule.
Qed.

Lemma fetch_rule k od pll r :
  leads live (at_clocks k od pll) (fetch status r) (at_clocks k (keeps_od r od) (keeps_pll r pll)).
Proof. intros c A. by apply read_rule. Qed.

Lemma keeps_twice r od pll : keeps_od r (keeps_od r od) = keeps_od r od /\ keeps_pll r (keeps_pll r pll) = keeps_pll r pll.
Proof. unfold keeps_od, keeps_pll. by destruct od, pll, (bool_decide (r = PWR_CSR1)), (bool_decide (r = RCC_CR)). Qed.

(** The values of the clock registers, evaluated. *)
Definition tabulate (k : sreg -> Z) : sreg -> Z :=
  let acr := k FLASH_ACR in
  let cr1 := k PWR_CR1 in
  let csr1 := k PWR_CSR1 in
  let cr := k RCC_CR in
  let pllcfgr := k RCC_PLLCFGR in
  let cfgr := k RCC_CFGR in
  let dckcfgr1 := k RCC_DCKCFGR1 in
  fun r => match r with
    | FLASH_ACR => acr | PWR_CR1 => cr1 | PWR_CSR1 => csr1 | RCC_CR => cr | RCC_PLLCFGR => pllcfgr
    | RCC_CFGR => cfgr | RCC_DCKCFGR1 => dckcfgr1 | _ => 0
    end.

Lemma tabulate_rule k k' od pll P p : k' = tabulate k ->
  leads live P p (at_clocks k od pll) -> leads live P p (at_clocks k' od pll).
Proof. intros ->. apply leads_weaken. intros c. apply at_clocks_same. by intros []. Qed.

Lemma tabulate_limits k od pll : limits (tabulate k, od, pll) = limits (k, od, pll).
Proof. symmetry. apply limits_agree. by intros []. Qed.

(** The rules for writes with the new register values evaluated. *)
Lemma put_step k k' od pll r v : k' = tabulate (next k r v) -> limits (k', od, pll) = true ->
  leads live (at_clocks k od pll) (put r v) (at_clocks k' od pll).
Proof. intros E L. eapply tabulate_rule; [exact E|]. apply put_rule. by rewrite E, tabulate_limits in L. Qed.

Lemma update_step k k' od pll r f : ignores_status r f ->
  k' = tabulate (next k r (f (k r))) -> limits (k', keeps_od r od, keeps_pll r pll) = true ->
  leads live (at_clocks k od pll) (update status r f) (at_clocks k' (keeps_od r od) (keeps_pll r pll)).
Proof. intros I E L. eapply tabulate_rule; [exact E|]. apply update_rule; [done|]. by rewrite E, tabulate_limits in L. Qed.

(** A wait that returns has seen its bits. *)
Lemma wait_seen k od pll r mask n : forall c, at_clocks k od pll c ->
  match system_WaitForSet status r mask n c with
  | Running c' => at_clocks k (keeps_od r od) (keeps_pll r pll) c' /\ regs c' = regs c
      /\ Z.land (Z.lor (regs c' r) (last_status c' r)) mask = mask
  | Halted c' => forallb limits (log c') = true
  end.
Proof.
  revert od pll. induction n as [|n IH]; intros od pll c A; [exact (ac_log _ _ _ _ A)|].
  cbn [system_WaitForSet]. assert (R := read_rule k od pll r c A).
  destruct (read status c r) as [c1 v] eqn:E. cbn [fst] in R.
  assert (E1 : regs c1 = regs c /\ v = Z.lor (regs c1 r) (last_status c1 r)).
  { unfold read in E. injection E as <- <-. cbn. by rewrite upd_eq. }
  destruct E1 as [E1 ->]. destruct (Z.eqb_spec (Z.land (Z.lor (regs c1 r) (last_status c1 r)) mask) mask) as [S|S]; [done|].
  specialize (IH _ _ c1 R). destruct (keeps_twice r od pll) as [-> ->] in IH. by rewrite E1 in IH.
Qed.

Lemma loops_ordered : (clock_loops <= lse_loops)%nat.
Proof. unfold clock_loops, lse_loops. apply Z2Nat.inj_le; done. Qed.

Lemma wait_returns r mask k : forall n c, (k < n)%nat ->
  Z.land (Z.lor (regs c r) (Z.land (status (reads c + k)%nat r) (status_mask r))) mask = mask ->
  exists c', system_WaitForSet status r mask n c = Running c'.
Proof.
  induction k as [|k IH]; intros [|n] c Hk E; [lia| |lia|]; cbn [system_WaitForSet read].
  - rewrite Nat.add_0_r in E. rewrite E, Z.eqb_refl. by eexists.
  - destruct (_ =? _); [by eexists|]. apply IH; [lia|]. cbn [regs reads]. by rewrite Nat.add_succ_comm.
Qed.

Lemma bit_mask v n : 0 <= n -> Z.testbit v n = true -> Z.land v (BIT n) = BIT n.
Proof.
  intros Hn E. apply Z.bits_inj'. intros i Hi. unfold BIT. rewrite Z.land_spec, Z.shiftl_spec by done.
  destruct (Z.eq_dec i n) as [->|N]; [by rewrite E, Z.sub_diag|].
  replace (Z.testbit 1 (i - n)) with false; [apply andb_false_r|]. symmetry.
  destruct (Z.lt_trichotomy (i - n) 0) as [H|[H|H]]; [by apply Z.testbit_neg_r|lia|].
  change 1 with (2 ^ 0). apply Z.pow2_bits_false. lia.
Qed.

(** A wait for one ready flag. *)
Lemma flag_rule k od pll r b n : 0 <= b -> Z.testbit (status_mask r) b = true -> (clock_loops <= n)%nat ->
  forall c, at_clocks k od pll c ->
  match system_WaitForSet status r (BIT b) n c with
  | Running c' => at_clocks k (keeps_od r od) (keeps_pll r pll) c'
      /\ Z.land (Z.lor (regs c' r) (last_status c' r)) (BIT b) = BIT b
  | Halted c' => live = false /\ forallb limits (log c') = true
  end.
Proof using Live.
  intros Hb M Hn c A. assert (W := wait_seen k od pll r (BIT b) n c A).
  assert (T : live = true -> exists c', system_WaitForSet status r (BIT b) n c = Running c').
  { intros Lv. destruct (Live Lv (reads c) r b M) as (i & Hi & S). apply (wait_returns r (BIT b) i n c); [lia|].
    apply bit_mask; [done|]. by rewrite Z.lor_spec, Z.land_spec, S, M, orb_true_r. }
  destruct (system_WaitForSet _ _ _ _ _) as [c'|c']; [tauto|]. split; [|done].
  destruct live; [|done]. destruct (T eq_refl) as [? ?]. done.
Qed.

Lemma wait_rule k od pll r b n : 0 <= b -> Z.testbit (status_mask r) b = true -> (clock_loops <= n)%nat ->
  leads live (at_clocks k od pll) (system_WaitForSet status r (BIT b) n) (at_clocks k (keeps_od r od) (keeps_pll r pll)).
Proof using Live.
  intros Hb M Hn c A. assert (W := flag_rule k od pll r b n Hb M Hn c A).
  destruct (system_WaitForSet _ _ _ _ _); [apply W|done].
Qed.

(** A wait for bits that were written. *)
Lemma held_rule k od pll r mask n : clocked r = true -> Z.land (Z.lor (k r) 0) mask = mask -> status_mask r = 0 ->
  leads live (at_clocks k od pll) (system_WaitForSet status r mask (S n)) (at_clocks k (keeps_od r od) (keeps_pll r pll)).
Proof.
  intros C E M c A. assert (R := read_rule k od pll r c A). cbn [system_WaitForSet]. unfold read in *. cbn [fst] in R.
  rewrite (ac_regs _ _ _ _ A r C). rewrite M, Z.land_0_r in R |- *. rewrite E, Z.eqb_refl. exact R.
Qed.

Lemma bit_seen a b n : 0 <= n -> Z.testbit a n = false -> Z.land (Z.lor a b) (BIT n) = BIT n -> Z.testbit b n = true.
Proof.
  intros Hn A E. assert (T : Z.testbit (Z.land (Z.lor a b) (BIT n)) n = true).
  { rewrite E. unfold BIT. rewrite Z.shiftl_spec, Z.sub_diag by done. done. }
  rewrite Z.land_spec, Z.lor_spec, A in T. by apply andb_true_iff in T as [T _].
Qed.

Lemma wait_pll_rule k od : Z.testbit (k RCC_CR) 25 = false ->
  leads live (at_clocks k od false) (system_WaitForSet status RCC_CR (BIT 25) clock_loops) (at_clocks k od true).
Proof using Live.
  intros K c A. assert (W := flag_rule k od false RCC_CR 25 clock_loops ltac:(done) ltac:(done) ltac:(done) c A).
  destruct (system_WaitForSet _ _ _ _ _); [|done]. destruct W as ([R O _ L] & S). split; [done| |intros _|done].
  - intros ->. by apply O.
  - eapply bit_seen; [done| |exact S]. by rewrite (R RCC_CR eq_refl).
Qed.

Lemma wait_od_rule k pll : Z.testbit (k PWR_CSR1) 17 = false ->
  leads live (at_clocks k false pll) (system_WaitForSet status PWR_CSR1 (BIT 17) clock_loops) (at_clocks k true pll).
Proof using Live.
  intros K c A. assert (W := flag_rule k false pll PWR_CSR1 17 clock_loops ltac:(done) ltac:(done) ltac:(done) c A).
  destruct (system_WaitForSet _ _ _ _ _); [|done]. destruct W as ([R _ O L] & S). split; [done|intros _| |done].
  - eapply bit_seen; [done| |exact S]. by rewrite (R PWR_CSR1 eq_refl).
  - intros ->. by apply O.
Qed.

(** The read-back of the wait states. *)
Lemma latency_rule k od pll : Z.land (k FLASH_ACR) 0xF = 7 ->
  leads live (at_clocks k od pll)
    (fun c => let '(c, v) := read status c FLASH_ACR in if negb (Z.land v 0xF =? 7) then System_ErrorHandler c else Running c)
    (at_clocks k od pll).
Proof.
  intros E c A. assert (R := read_rule k od pll FLASH_ACR c A). unfold read in *. cbn [fst] in R.
  rewrite (ac_regs _ _ _ _ A FLASH_ACR eq_refl). cbn [status_mask] in R |- *. rewrite Z.land_0_r in R |- *.
  rewrite Z.lor_0_r, E. destruct od, pll; exact R.
Qed.

End Rules.

(** ** The RTC domain *)

Section Rtc.
Context (status : nat -> sreg -> Z) (live : bool) (Live : live = true -> ready_in_time status).

Lemma restart_lse_rule k od pll : limits (k, od, pll) = true ->
  leads live (at_clocks k od pll) (restart_lse status) (at_clocks k od pll).
Proof using Live.
  intros L.
  assert (U : forall f, ignores_status RCC_BDCR f -> leads live (at_clocks k od pll) (update status RCC_BDCR f) (at_clocks k od pll)).
  { intros f I. pose proof (update_rule status live k od pll RCC_BDCR f I) as R. destruct od, pll; exact (R L). }
  assert (W : leads live (at_clocks k od pll) (system_WaitForSet status RCC_BDCR (BIT 1) lse_loops) (at_clocks k od pll)).
  { pose proof (wait_rule status live Live k od pll RCC_BDCR 1 lse_loops ltac:(done) eq_refl loops_ordered) as R.
    destruct od, pll; exact R. }
  unfold restart_lse. repeat eapply leads_then; try exact W; apply U; try apply set_ignores; try apply modify_ignores.
  exact (clear_ignores RCC_BDCR BDRST).
Qed.

Lemma check_lse_rule k od pll : limits (k, od, pll) = true ->
  leads live (at_clocks k od pll) (check_lse status) (at_clocks k od pll).
Proof using Live.
  intros L c A. unfold check_lse.
  assert (D : forall c, at_clocks k od pll c -> at_clocks k od pll (fst (read status c RCC_BDCR))).
  { clear c A. intros c A. pose proof (read_rule status k od pll RCC_BDCR c A) as R. destruct od, pll; exact R. }
  apply D in A. destruct (read status c RCC_BDCR) as [c1 v]. cbn [fst] in A.
  destruct (negb _); [by apply restart_lse_rule|].
  apply D in A. destruct (read status c1 RCC_BDCR) as [c2 v2]. cbn [fst] in A.
  destruct (_ =? _); [by apply restart_lse_rule|exact A].
Qed.

End Rtc.

(** ** The whole sequence *)

Lemma clock_loops_positive : exists n, clock_loops = S n.
Proof. exists (Z.to_nat 999999). unfold clock_loops, SYSTEM_CLOCK_TIMEOUT_LOOPS. lia. Qed.

Section Init.
Context (status : nat -> sreg -> Z) (live : bool) (Live : live = true -> ready_in_time status).

(** The clock registers after [SystemInit]. *)
Definition final_value (r : sreg) : Z :=
  match r with
  | FLASH_ACR => 0x307
  | PWR_CR1 => 0x3C100
  | RCC_CR => 0x1010081
  | RCC_PLLCFGR => PLL_SETTING
  | RCC_CFGR => 0x9402
  | _ => 0
  end.

#[local] Opaque clock_loops lse_loops.

Lemma skip_rule P : leads live P skip P.
Proof. by intros c. Qed.

#[local] Ltac flags :=
  match goal with
  | |- leads _ (at_clocks ?k ?od ?pll) _ _ =>
      let od' := eval vm_compute in od in
      let pll' := eval vm_compute in pll in
      change (at_clocks k od pll) with (at_clocks k od' pll')
  end.

#[local] Ltac access :=
  match goal with
  | |- leads _ (at_clocks ?k _ _) (put ?r ?v) _ =>
      let k' := eval vm_compute in (tabulate (next k r v)) in
      apply (put_step live k k'); (vm_compute; reflexivity)
  | |- leads _ (at_clocks ?k _ _) (set_bits _ ?r ?m) _ =>
      let k' := eval vm_compute in (tabulate (next k r (SET_BIT (k r) m))) in
      apply (update_step status live k k'); [apply set_ignores|(vm_compute; reflexivity)..]
  | |- leads _ (at_clocks ?k _ _) (modify _ ?r ?m ?v) _ =>
      let k' := eval vm_compute in (tabulate (next k r (MODIFY_REG (k r) m v))) in
      apply (update_step status live k k'); [apply modify_ignores|(vm_compute; reflexivity)..]
  | |- leads _ _ (fetch _ _) _ => apply fetch_rule
  | |- leads _ _ (check_lse _) _ => apply (check_lse_rule status live Live); vm_compute; reflexivity
  | |- leads _ _ (system_WaitForSet _ PWR_CSR1 (BIT 17) _) _ => apply (wait_od_rule status live Live); vm_compute; reflexivity
  | |- leads _ _ (system_WaitForSet _ RCC_CR (BIT 25) _) _ => apply (wait_pll_rule status live Live); vm_compute; reflexivity
  | |- leads _ _ (system_WaitForSet _ PWR_CR1 _ _) _ =>
      destruct clock_loops_positive as [? ->]; apply held_rule; [reflexivity|vm_compute; reflexivity|reflexivity]
  | |- leads _ _ (system_WaitForSet _ RCC_CFGR 8 _) _ =>
      change 8 with (BIT 3); apply (wait_rule status live Live); [done|reflexivity|apply Nat.le_refl]
  | |- leads _ _ (system_WaitForSet _ _ _ _) _ => apply (wait_rule status live Live); [done|reflexivity|apply Nat.le_refl]
  | |- leads _ _ skip _ => apply skip_rule
  | |- leads _ _ (fun _ => _) _ => apply latency_rule; vm_compute; reflexivity
  end.

Lemma memory_rule k od pll : limits (k, od, pll) = true ->
  leads live (at_clocks k od pll) system_ConfigureEthernetMemory (at_clocks k od pll).
Proof. intros L. unfold system_ConfigureEthernetMemory. repeat eapply leads_then; by apply put_rule. Qed.

#[local] Ltac run :=
  lazymatch goal with
  | |- leads _ _ (then_ _ _) _ => eapply leads_then; [run|run]
  | |- leads _ _ system_ConfigureEthernetMemory _ => apply memory_rule; vm_compute; reflexivity
  | |- leads _ (at_clocks _ _ _) _ _ => flags; access
  end.

Lemma init_rule debug :
  leads live (at_clocks reset_value false false) (SystemInit status debug) (at_clocks final_value true true).
Proof using Live.
  unfold SystemInit, priority_grouping, set_latency, over_drive, start_pll, switch_clock, system_ConfigureRtcClock.
  destruct debug; cbv iota; (eapply leads_weaken; [|run]);
    intros c; apply at_clocks_same; intros []; (discriminate || intros _; vm_compute; reflexivity).
Qed.

End Init.

(** C36. [SystemInit] never overclocks.  Whatever the status registers show, in
    every state it passes through the bus clocks, the wait states of the Flash,
    the over-drive and the PLL are inside the limits of the data sheet for every
    clock the core may be running from, also when it stops in
    [System_ErrorHandler].  When it returns, the clock tree in the registers is
    the one that [systemClocks] announces, and it does return when every ready
    flag comes up within the polls it allows. *)
Theorem clock_limits_held status debug c : at_reset c ->
  match SystemInit status debug c with
  | Running c' => Forall (fun x => limits x = true) (log c') /\ clock_tree (regs c') = systemClocks
  | Halted c' => Forall (fun x => limits x = true) (log c') /\ ~ ready_in_time status
  end.
Proof.
  intros [A L]. assert (A0 : at_clocks reset_value false false c) by (split; [done|done|done|by rewrite L]).
  assert (F : forall l, forallb limits l = true -> Forall (fun x => limits x = true) l).
  { intros l E. apply List.Forall_forall. by apply forallb_forall. }
  assert (S := init_rule status false ltac:(done) debug c A0).
  assert (T := fun R => init_rule status true (fun _ => R) debug c A0).
  destruct (SystemInit status debug c) as [c'|c'].
  - split; [apply F, S|]. rewrite (tree_agree final_value) by apply S. vm_compute. reflexivity.
  - split; [apply F, S|]. intros R. by destruct (T R).
Qed.

(** ** The backup domain *)

Section Backup.
Context (status : nat -> sreg -> Z).

(** The real-time clock is kept: with the right source selected and its
    oscillator running, the domain is not reset and only the enable bit is set. *)
Lemma rtc_kept b c : regs c RCC_BDCR = b -> Z.land b RTCSEL = RTCSEL_LSE -> Z.testbit b 16 = false -> Z.testbit b 1 = false ->
  Z.testbit (status (S (reads c)) RCC_BDCR) 1 = true ->
  exists c1 c2, check_lse status c = Running c1 /\ set_bits status RCC_BDCR (BIT 15) c1 = Running c2
    /\ regs c2 RCC_BDCR = Z.lor b (BIT 15) /\ (forall r, r <> RCC_BDCR -> regs c2 r = regs c r).
Proof.
  intros Eb Sel N16 N1 R. unfold check_lse, read. cbn [regs reads last_status log]. rewrite Eb.
  assert (M : forall s, Z.land (Z.lor b (Z.land s (BIT 1))) RTCSEL = RTCSEL_LSE).
  { intros s. rewrite Z.land_lor_distr_l, <- Z.land_assoc, Sel. by rewrite Z.land_0_r. }
  rewrite M, Z.eqb_refl. cbn [negb].
  assert (O : (Z.land (Z.lor b (Z.land (status (S (reads c)) RCC_BDCR) (status_mask RCC_BDCR))) (BIT 1) =? 0) = false).
  { apply Z.eqb_neq. intros E. assert (T := f_equal (fun z => Z.testbit z 1) E). cbn beta in T.
    by rewrite Z.land_spec, Z.lor_spec, Z.land_spec, R, orb_true_r in T. }
  rewrite O. eexists _, _. split; [reflexivity|]. split; [reflexivity|]. cbn [write regs]. rewrite Eb.
  split; [|intros r Hr; by rewrite upd_ne]. rewrite upd_eq. unfold stored. set (s := Z.land _ (status_mask RCC_BDCR)).
  assert (S16 : Z.testbit (SET_BIT (Z.lor b s) (BIT 15)) 16 = false).
  { unfold SET_BIT, s. rewrite !Z.lor_spec, Z.land_spec, N16, andb_false_r. reflexivity. }
  rewrite S16, Sel. change (RTCSEL_LSE =? 0) with false. cbv iota.
  apply Z.bits_inj'. intros n Hn. unfold MODIFY_REG, SET_BIT, s.
  rewrite Z.land_spec, Z.lor_spec, Z.land_spec, !Z.lor_spec, Z.land_spec, !Z.lnot_spec by done.
  assert (Bn := f_equal (fun z => Z.testbit z n) Sel). cbn beta in Bn. rewrite Z.land_spec in Bn.
  change (status_mask RCC_BDCR) with (BIT 1). unfold BIT. rewrite !bit_of by done.
  rewrite <- Bn. case_bool_decide as E1; [subst n; by rewrite N1, !andb_false_r|].
  case_bool_decide as E15; [subst n; by rewrite !orb_true_r|].
  destruct (Z.testbit b n), (Z.testbit RTCSEL n), (Z.testbit (status _ RCC_BDCR) n); reflexivity.
Qed.

(** Otherwise the domain is reset once and left with the oscillator running and
    selected, whatever was in it. *)
Lemma stored_ignores f old v s : ignores_status RCC_BDCR f ->
  stored RCC_BDCR old (f (Z.lor v (Z.land s (status_mask RCC_BDCR)))) = stored RCC_BDCR old (f v).
Proof.
  intros I. specialize (I v s). cbn zeta in I. set (x := f (Z.lor _ _)) in *. set (y := f v) in *. unfold stored.
  assert (T : Z.testbit x 16 = Z.testbit y 16).
  { assert (T := f_equal (fun z => Z.testbit z 16) I). cbn beta in T. rewrite !Z.land_spec, !Z.lnot_spec in T by done.
    by rewrite !andb_true_r in T. }
  rewrite T. destruct (Z.testbit y 16); [done|]. destruct (_ =? _); [done|]. unfold MODIFY_REG.
  rewrite !Z.land_lor_distr_l. f_equal. rewrite <- !Z.land_assoc, !(Z.land_comm (Z.lnot RTCSEL)), !Z.land_assoc. by rewrite I.
Qed.

Lemma bdcr_update f c c' : ignores_status RCC_BDCR f -> update status RCC_BDCR f c = Running c' ->
  regs c' RCC_BDCR = stored RCC_BDCR (regs c RCC_BDCR) (f (regs c RCC_BDCR)).
Proof. intros I [= <-]. cbn [write regs read]. rewrite upd_eq. by apply stored_ignores. Qed.

Lemma wait_regs r mask n : forall c c', system_WaitForSet status r mask n c = Running c' -> regs c' = regs c.
Proof.
  induction n as [|n IH]; intros c c'; cbn [system_WaitForSet]; [done|]. unfold read.
  destruct (_ =? _); [by intros [= <-]|]. intros E. by apply IH in E.
Qed.

Lemma then_running p q c c' : then_ p q c = Running c' -> exists c1, p c = Running c1 /\ q c1 = Running c'.
Proof. unfold then_. destruct (p c) as [c1|]; [|done]. by exists c1. Qed.

Lemma rtc_restarted c c' : restart_lse status c = Running c' -> regs c' RCC_BDCR = Z.lor RTCSEL_LSE (BIT 0).
Proof.
  unfold restart_lse. generalize lse_loops. intros n E. apply then_running in E as (c1 & E1 & E). apply then_running in E as (c2 & E2 & E).
  apply then_running in E as (c3 & E3 & E). apply then_running in E as (c4 & E4 & E).
  apply then_running in E as (c5 & E5 & E6).
  apply (bdcr_update _ _ _ (set_ignores _ _)) in E1. apply (bdcr_update _ _ _ (clear_ignores _ _)) in E2.
  apply (bdcr_update _ _ _ (modify_ignores _ _ _)) in E3. apply (bdcr_update _ _ _ (set_ignores _ _)) in E4.
  apply wait_regs in E5. apply (bdcr_update _ _ _ (modify_ignores _ _ _)) in E6.
  assert (R : regs c1 RCC_BDCR = BDRST).
  { rewrite E1. unfold stored. replace (Z.testbit (SET_BIT (regs c RCC_BDCR) BDRST) 16) with true; [done|].
    unfold SET_BIT. by rewrite Z.lor_spec, orb_true_r. }
  by rewrite E6, E5, E4, E3, E2, R.
Qed.

End Backup.

(** ** The memory region of the Ethernet buffers *)

(** The region that [MPU_RASR] and [MPU_RBAR] describe is aligned to its size,
    is the region of the linker script, and holds the descriptors and the
    buffers of both rings. *)
Lemma ethernet_region c :
  match system_ConfigureEthernetMemory c with
  | Running c' =>
      let size := 2 ^ (bits (regs c' MPU_RASR) 1 5 + 1) in
      regs c' MPU_RBAR = 0x20078000 /\ size = 32 * 1024 /\ regs c' MPU_RBAR mod size = 0
      /\ Z.testbit (regs c' MPU_RASR) 0 = true /\ bits (regs c' MPU_RASR) 16 2 = 0 /\ bits (regs c' MPU_RASR) 19 3 = 0
      /\ bits (regs c' MPU_CTRL) 0 3 = 5
      /\ 2 * Z.of_nat ETHERNET_DESCRIPTOR_COUNT * (16 + Z.of_nat ETHERNET_BUFFER_SIZE) <= size
  | Halted _ => False
  end.
Proof. cbn. vm_compute. repeat split; discriminate. Qed.

(** ** A concrete start *)

Definition demo_status (t : nat) (r : sreg) : Z := 0xFFFFFFFF.
Definition demo_chip : chip := Chip reset_value 0 (fun _ => 0) [].

Lemma demo_ready_in_time : ready_in_time demo_status.
Proof.
  intros t r b Hb. destruct clock_loops_positive as [n E]. exists 0%nat. rewrite E. split; [lia|].
  assert (M : Z.land (status_mask r) 0xFFFFFFFF = status_mask r) by (by destruct r).
  rewrite <- M, Z.land_spec in Hb. by apply andb_true_iff in Hb as [_ ?].
Qed.

Lemma clock_limits_held_witness :
  at_reset demo_chip /\ exists c', SystemInit demo_status true demo_chip = Running c' /\ clock_tree (regs c') = systemClocks.
Proof.
  assert (A : at_reset demo_chip) by (by split). split; [exact A|].
  pose proof (clock_limits_held demo_status true demo_chip A) as T.
  destruct (SystemInit demo_status true demo_chip) as [c'|c'].
  - exists c'. split; [reflexivity|apply T].
  - destruct T as [_ T]. destruct (T demo_ready_in_time).
Defined.
