(* ===== verification/Peripherals.v ===== *)
(** Small hardware routines: the busy wait and the console output of
    [Core/Src/common.c], the diagnostic UART of [Core/Src/init_ll.c], and
    [Spi1_Init] of [Periph/Src/spi.c]. *)
From S2P Require Import Prelude Ethernet EthernetLink Board System.

(** ** Busy wait *)

(** The cycle counter is cleared and started; [counter i] is what the [i]-th
    read of it shows.  [None] when [fuel] reads were not enough. *)
Fixpoint delay_loop (fuel : nat) (counter : nat -> Z) (i : nat) (cycles : Z) : option nat :=
  match fuel with
  | O => None
  | S fuel => if counter i <? cycles then delay_loop fuel counter (S i) cycles else Some i
  end.

Definition Common_DelayMicroseconds (fuel : nat) (counter : nat -> Z) (microseconds : Z) : option nat :=
  if microseconds =? 0 then Some 0%nat
  else delay_loop fuel counter 0 (u32 (microseconds * (systemCoreHz systemClocks / 1000000))).

(** A counter that is polled every [step] cycles at most, with the number of
    cycles since its start in [elapsed]. *)
Record polled (step : Z) (elapsed : nat -> Z) : Prop := {
  po_start : 0 <= elapsed 0%nat <= step;
  po_step : forall i, elapsed i < elapsed (S i) <= elapsed i + step;
}.

Lemma polled_grows step elapsed i : polled step elapsed -> Z.of_nat i <= elapsed i.
Proof. intros [A B]. induction i as [|i IH]; [lia|]. specialize (B i). lia. Qed.

Lemma delay_loop_spec step elapsed cycles : polled step elapsed -> 0 <= cycles -> cycles + step < 2 ^ 32 ->
  forall fuel i, (Z.to_nat cycles < fuel + i)%nat -> Z.of_nat i <= cycles -> elapsed i <= cycles + step ->
  exists j, delay_loop fuel (fun n => u32 (elapsed n)) i cycles = Some j /\ cycles <= elapsed j <= cycles + step.
Proof.
  intros P Hc Hs. induction fuel as [|fuel IH]; intros i Hf Hn Hi; [lia|].
  - cbn [delay_loop]. assert (G := polled_grows step elapsed i P).
    rewrite (u32_id (elapsed i)) by (unfold is_u32; lia).
    destruct (Z.ltb_spec (elapsed i) cycles) as [L|L].
    + apply IH; [lia|lia|]. destruct P as [_ B]. specialize (B i). lia.
    + exists i. split; [done|lia].
Qed.

(** The wait ends, lasts as long as it was asked to and not longer than one
    poll more, for every argument up to 19.8 s. *)
Lemma delay_lasts step elapsed microseconds : polled step elapsed -> step <= 1000 -> 0 < microseconds <= 19884000 ->
  exists i, Common_DelayMicroseconds (S (Z.to_nat (216 * microseconds))) (fun n => u32 (elapsed n)) microseconds = Some i
    /\ microseconds * 216 <= elapsed i <= microseconds * 216 + step.
Proof.
  intros P Hs Hm. unfold Common_DelayMicroseconds. rewrite (proj2 (Z.eqb_neq _ _)) by lia.
  change (systemCoreHz systemClocks / 1000000) with 216. rewrite u32_id by (unfold is_u32; lia).
  apply (delay_loop_spec step); [done|lia|lia|lia|lia|]. destruct P as [A _]. lia.
Qed.

(** Above that the product is reduced modulo 2^32: asked for 19.884108 s, the
    routine waits for 32 cycles. *)
Lemma delay_wraps : u32 (19884108 * (systemCoreHz systemClocks / 1000000)) = 32.
Proof. reflexivity. Qed.

(** ** Console output *)

Definition common_WriteCharacter (character : Z) : bytes :=
  (if character =? 10 then [13] else []) ++ [character].

(** The bytes that reach the UART, and the result. *)
Definition _write (data : option bytes) (length : Z) : bytes * Z :=
  match data with
  | None => ([], -1)
  | Some d => if length <? 0 then ([], -1) else (concat (map common_WriteCharacter (take (Z.to_nat length) d)), length)
  end.

(** Undoing the line ends on the receiving side. *)
Fixpoint plain (l : bytes) : bytes :=
  match l with
  | 13 :: ((10 :: _) as rest) => plain rest
  | b :: rest => b :: plain rest
  | [] => []
  end.

Lemma plain_skip b l : (b <> 13 \/ head l <> Some 10) -> plain (b :: l) = b :: plain l.
Proof.
  intros Hb. destruct (Z.eq_dec b 13) as [->|N].
  - destruct l as [|c l]; [done|]. destruct (Z.eq_dec c 10) as [->|N]; [by destruct Hb|].
    destruct c as [|[[[[]|[]|]|[[]|[]|]|]|[[[]|[]|]|[[]|[]|]|]|]|]; try done; lia.
  - destruct b as [|[[[[]|[]|]|[[]|[]|]|]|[[[]|[]|]|[[]|[]|]|]|]|]; try done; lia.
Qed.

(** Every line feed goes out behind a carriage return, and nothing else is
    changed: the receiver recovers the text, and the number of bytes sent is
    that of the text and its line feeds. *)
Lemma console_lines d : ~ In 13 d ->
  let '(out, result) := _write (Some d) (Z.of_nat (length d)) in
  result = Z.of_nat (length d) /\ plain out = d
  /\ length out = (length d + count_occ Z.eq_dec d 10%Z)%nat.
Proof.
  intros N. unfold _write. rewrite (proj2 (Z.ltb_ge _ _)) by lia. rewrite Nat2Z.id, take_ge by lia.
  split; [done|]. induction d as [|b d IH]; [done|]. apply not_in_cons in N as [N1 N2]. destruct (IH N2) as [A B].
  cbn [map concat]. unfold common_WriteCharacter at 1 3. cbn [count_occ length].
  destruct (Z.eqb_spec b 10) as [->|N10]; cbn [app].
  - split; [|cbn [length]; rewrite B; destruct (Z.eq_dec 10 10); lia]. cbn [plain]. f_equal. exact A.
  - split; [|cbn [length]; rewrite B; destruct (Z.eq_dec b 10); [done|lia]].
    rewrite plain_skip by (left; congruence). by rewrite A.
Qed.

(** ** The diagnostic UART *)

Definition BOARD_DIAGNOSTIC_BAUD_RATE : Z := 115200.
Definition DIAGNOSTIC_GPIO_AF : Z := 7.
Definition DIAGNOSTIC_TX_PIN : Z := 8.
Definition DIAGNOSTIC_RX_PIN : Z := 9.
Definition USART_CR1_UE : Z := BIT 0.
Definition USART_CR1_RE : Z := BIT 2.
Definition USART_CR1_TE : Z := BIT 3.

Record uart := Uart { u_cr1 : Z; u_cr2 : Z; u_cr3 : Z; u_brr : Z }.

(** The clock enables of the ports and peripherals that the drivers set. *)
Record enables := Enables { ahb1enr : Z; apb1enr : Z; apb2enr : Z }.

Definition set_port (g : port -> gpio_port) (q : port) (p : gpio_port) : port -> gpio_port :=
  fun x => if decide (x = q) then p else g x.

(** [CR1] is disabled, overwritten and enabled again. *)
Definition Board_InitDiagnosticUart (e : enables) (g : port -> gpio_port) (u : uart) : enables * (port -> gpio_port) * uart :=
  let e := Enables (SET_BIT (ahb1enr e) (BIT 3)) (SET_BIT (apb1enr e) (BIT 18)) (apb2enr e) in
  let p := board_ConfigureAlternatePin (g GPIOD) DIAGNOSTIC_TX_PIN DIAGNOSTIC_GPIO_AF in
  let p := board_ConfigureAlternatePin p DIAGNOSTIC_RX_PIN DIAGNOSTIC_GPIO_AF in
  let brr := (pclk1Hz systemClocks + BOARD_DIAGNOSTIC_BAUD_RATE / 2) / BOARD_DIAGNOSTIC_BAUD_RATE in
  (e, set_port g GPIOD p, Uart (SET_BIT (Z.lor USART_CR1_TE USART_CR1_RE) USART_CR1_UE) 0 0 brr).

(** The rate that the divider gives is within 0.1 % of the announced one. *)
Lemma uart_rate e g u :
  let '(_, _, u') := Board_InitDiagnosticUart e g u in
  let rate := pclk1Hz systemClocks / u_brr u' in
  1000 * Z.abs (rate - BOARD_DIAGNOSTIC_BAUD_RATE) <= BOARD_DIAGNOSTIC_BAUD_RATE /\ u_cr1 u' = 13.
Proof. cbn. vm_compute. by split; [discriminate|]. Qed.

(** ** The set-up of SPI1 *)

Definition SPI1_PIN_ALTERNATE_FUNCTION : Z := 5.
Definition SPI1_PIN_SCK : Z := 3.
Definition SPI1_PIN_MISO : Z := 4.
Definition SPI1_PIN_MOSI : Z := 5.
Definition SPI1_PIN_CHIP_SELECT : Z := 4.
Definition SPI_CR1_SPE : Z := BIT 6.

Record spi_setup := SpiSetup { s_enables : enables; s_ports : port -> gpio_port; odr_a : Z; s_cr1 : Z; s_cr2 : Z }.

Definition on_enables (f : enables -> enables) (s : spi_setup) : spi_setup :=
  SpiSetup (f (s_enables s)) (s_ports s) (odr_a s) (s_cr1 s) (s_cr2 s).
Definition on_port (q : port) (f : gpio_port -> gpio_port) (s : spi_setup) : spi_setup :=
  SpiSetup (s_enables s) (set_port (s_ports s) q (f (s_ports s q))) (odr_a s) (s_cr1 s) (s_cr2 s).
Definition select_high (s : spi_setup) : spi_setup :=
  SpiSetup (s_enables s) (s_ports s) (SET_BIT (odr_a s) (BIT SPI1_PIN_CHIP_SELECT)) (s_cr1 s) (s_cr2 s).
Definition set_cr1 (v : Z) (s : spi_setup) : spi_setup := SpiSetup (s_enables s) (s_ports s) (odr_a s) v (s_cr2 s).
Definition set_cr2 (v : Z) (s : spi_setup) : spi_setup := SpiSetup (s_enables s) (s_ports s) (odr_a s) (s_cr1 s) v.

Definition spi1_ConfigureAlternatePin (pinPosition : Z) (s : spi_setup) : spi_setup :=
  on_port GPIOB (fun p => board_ConfigureAlternatePin p pinPosition SPI1_PIN_ALTERNATE_FUNCTION) s.

(** The steps of [Spi1_Init] in their order. *)
Definition Spi1_Init : list (spi_setup -> spi_setup) :=
  [on_enables (fun e => Enables (SET_BIT (ahb1enr e) (Z.lor (BIT 0) (BIT 1))) (apb1enr e) (apb2enr e));
   on_enables (fun e => Enables (ahb1enr e) (apb1enr e) (SET_BIT (apb2enr e) (BIT 12)));
   select_high;
   on_port GPIOA (fun p => Gpio_InitOutput p SPI1_PIN_CHIP_SELECT);
   spi1_ConfigureAlternatePin SPI1_PIN_SCK;
   spi1_ConfigureAlternatePin SPI1_PIN_MISO;
   spi1_ConfigureAlternatePin SPI1_PIN_MOSI;
   (fun s => set_cr1 (CLEAR_BIT (s_cr1 s) SPI_CR1_SPE) s);
   set_cr1 (Z.lor (BIT 2) (Z.lor (BIT 9) (Z.lor (BIT 8) (BIT 3))));
   set_cr2 (Z.lor (BIT 12) (Z.shiftl 7 8));
   (fun s => set_cr1 (SET_BIT (s_cr1 s) SPI_CR1_SPE) s)].

Fixpoint steps {S : Type} (s : S) (l : list (S -> S)) : list S :=
  match l with [] => [s] | f :: l => s :: steps (f s) l end.
Definition run {S : Type} (s : S) (l : list (S -> S)) : S := fold_left (fun s f => f s) l s.

(** The Flash is selected: the pin is an output and low. *)
Definition selected (s : spi_setup) : Prop :=
  field 2 (MODER (s_ports s GPIOA)) SPI1_PIN_CHIP_SELECT = GPIO_MODE_OUTPUT /\ Z.testbit (odr_a s) SPI1_PIN_CHIP_SELECT = false.

(** The Flash is never selected while the bus is set up, and the bus runs with
    eight-bit frames at 27 MHz, which the plain read command of the Flash
    allows. *)
Lemma spi_setup_quiet s : ~ selected s ->
  Forall (fun x => ~ selected x) (steps s Spi1_Init)
  /\ bits (s_cr2 (run s Spi1_Init)) 8 4 = 7
  /\ pclk2Hz systemClocks / 2 ^ (bits (s_cr1 (run s Spi1_Init)) 3 3 + 1) = 27000000
  /\ Z.testbit (s_cr1 (run s Spi1_Init)) 6 = true /\ Z.testbit (s_cr1 (run s Spi1_Init)) 2 = true.
Proof.
  intros N. split; [|repeat split; vm_compute; reflexivity].
  assert (Hi : forall x, Z.testbit (odr_a x) SPI1_PIN_CHIP_SELECT = true -> ~ selected x) by (intros x E [_ E']; congruence).
  assert (B : forall v, Z.testbit (SET_BIT v (BIT SPI1_PIN_CHIP_SELECT)) SPI1_PIN_CHIP_SELECT = true).
  { intros v. unfold SET_BIT. by rewrite Z.lor_spec, orb_true_r. }
  unfold Spi1_Init. cbn [steps]. repeat (apply list.Forall_cons; split; [first [exact N | apply Hi, B]|]). by apply list.Forall_nil.
Qed.
