(* ===== verification/Main.v ===== *)
(** [Core/Src/main.c]: the start of the board, from the first instruction of
    [main] to the scheduler.

    The drivers of the other files are called in the order of the code, on one
    state of the board.  The theorem says when the scheduler is reached, in what
    state of the Flash, of the pins and of the task table; the other ends are
    the error handler and the restart that completes a factory reset. *)
From S2P Require Import Prelude NorFlash SimFlash FlashLayout Spi W25q64 FactoryReset TelemetryService BuzzerService.
From S2P Require Import Ethernet EthernetLink Board Buzzer System Peripherals.

Definition HEART_BEAT_PIN_POSITION : Z := 14.
Definition TELEMETRY_TASK_HEARTBEAT : nat := 0.
Definition TELEMETRY_TASK_WATCHDOG : nat := 1.
Definition TELEMETRY_TASK_FACTORY_RESET : nat := 2.
Definition TELEMETRY_TASK_NETWORK : nat := 3.
Definition TELEMETRY_TASK_TIME : nat := 4.
Definition TELEMETRY_TASK_BUZZER : nat := 5.
Definition TELEMETRY_TASK_HEALTH_CHECK : nat := 6.

(** The board as [main] sees it.  [tim2] has its own copy of port A only while
    the buzzer is set up. *)
Record machine (D H : Type) := Machine {
  m_flash : driver D;
  m_board : board;
  m_eth : ethernet H;
  m_enables : enables;
  m_uart : uart;
  m_odr_a : Z;
  m_odr_b : Z;
  m_spi_cr1 : Z;
  m_spi_cr2 : Z;
  m_tim2 : buzzer_hw;
  m_queue : bool;
  m_handles : list (option Z);
}.
Arguments Machine {D H}.
Arguments m_flash {D H}.
Arguments m_board {D H}.
Arguments m_eth {D H}.
Arguments m_enables {D H}.
Arguments m_uart {D H}.
Arguments m_odr_a {D H}.
Arguments m_odr_b {D H}.
Arguments m_spi_cr1 {D H}.
Arguments m_spi_cr2 {D H}.
Arguments m_tim2 {D H}.
Arguments m_queue {D H}.
Arguments m_handles {D H}.

(** What the kernel answers: the mutexes, the queue of the buzzer, and the
    handle of each task ([None] is [NULL]). *)
Record kernel := Kernel { k_output : bool; k_flash : bool; k_queue : bool; k_task : nat -> option Z }.

Inductive boot (M : Type) := BootHalted (m : M) | BootRestarted (m : M) | BootScheduled (m : M).
Arguments BootHalted {M}.
Arguments BootRestarted {M}.
Arguments BootScheduled {M}.

Section main.
Context {D H : Type} `{SpiDevice D} `{!W25q64.Chip D} `{Peripheral H}.
Abbreviation machine := (machine D H).

Definition set_flash (m : machine) (f : driver D) : machine :=
  Machine f (m_board m) (m_eth m) (m_enables m) (m_uart m) (m_odr_a m) (m_odr_b m) (m_spi_cr1 m) (m_spi_cr2 m) (m_tim2 m) (m_queue m) (m_handles m).
Definition set_ports (m : machine) (g : port -> gpio_port) : machine :=
  Machine (m_flash m) (Board g (ethernetMacAddress (m_board m))) (m_eth m) (m_enables m) (m_uart m) (m_odr_a m) (m_odr_b m)
    (m_spi_cr1 m) (m_spi_cr2 m) (m_tim2 m) (m_queue m) (m_handles m).
Definition set_handles (m : machine) (l : list (option Z)) : machine :=
  Machine (m_flash m) (m_board m) (m_eth m) (m_enables m) (m_uart m) (m_odr_a m) (m_odr_b m) (m_spi_cr1 m) (m_spi_cr2 m) (m_tim2 m) (m_queue m) l.

Definition init_uart (m : machine) : machine :=
  let '(e, g, u) := Board_InitDiagnosticUart (m_enables m) (ports (m_board m)) (m_uart m) in
  Machine (m_flash m) (Board g (ethernetMacAddress (m_board m))) (m_eth m) e u (m_odr_a m) (m_odr_b m)
    (m_spi_cr1 m) (m_spi_cr2 m) (m_tim2 m) (m_queue m) (m_handles m).

(** [Board_PrintConfiguration] derives the station address. *)
Definition print_configuration (uid : list Z) (m : machine) : machine :=
  Machine (m_flash m) (Board (ports (m_board m)) (Some (board_GetEthernetMacAddress (ethernetMacAddress (m_board m)) uid)))
    (m_eth m) (m_enables m) (m_uart m) (m_odr_a m) (m_odr_b m) (m_spi_cr1 m) (m_spi_cr2 m) (m_tim2 m) (m_queue m) (m_handles m).

Definition init_spi (m : machine) : machine :=
  let s := run (SpiSetup (m_enables m) (ports (m_board m)) (m_odr_a m) (m_spi_cr1 m) (m_spi_cr2 m)) Spi1_Init in
  Machine (m_flash m) (Board (s_ports s) (ethernetMacAddress (m_board m))) (m_eth m) (s_enables s) (m_uart m) (odr_a s) (m_odr_b m)
    (s_cr1 s) (s_cr2 s) (m_tim2 m) (m_queue m) (m_handles m).

Definition init_heart_beat (m : machine) : machine :=
  let g := ports (m_board m) in
  let m := set_ports m (set_port g GPIOB (Gpio_InitOutput (g GPIOB) HEART_BEAT_PIN_POSITION)) in
  Machine (m_flash m) (m_board m) (m_eth m) (m_enables m) (m_uart m) (m_odr_a m)
    (CLEAR_BIT (m_odr_b m) (BIT HEART_BEAT_PIN_POSITION)) (m_spi_cr1 m) (m_spi_cr2 m) (m_tim2 m) (m_queue m) (m_handles m).

Definition init_ethernet (uid : list Z) (m : machine) : machine * Ethernet_StatusTypeDef :=
  let '(b, e, st) := Board_InitEthernet (m_board m) uid (m_eth m) in
  (Machine (m_flash m) b e (m_enables m) (m_uart m) (m_odr_a m) (m_odr_b m) (m_spi_cr1 m) (m_spi_cr2 m) (m_tim2 m) (m_queue m) (m_handles m), st).

Definition init_buzzer (m : machine) : machine :=
  let t := m_tim2 m in
  let h := Hw (ports (m_board m) GPIOA) (m_odr_a m) (CR1 t) (CCER t) (PSC t) (ARR t) (CCR4 t) (CCMR2 t) in
  let h := after h (Buzzer_Init (pclk1TimerHz systemClocks)) in
  let e := m_enables m in
  let e := Enables (SET_BIT (ahb1enr e) (BIT 0)) (SET_BIT (apb1enr e) (BIT 0)) (apb2enr e) in
  Machine (m_flash m) (Board (set_port (ports (m_board m)) GPIOA (gpioa h)) (ethernetMacAddress (m_board m))) (m_eth m)
    e (m_uart m) (ODR h) (m_odr_b m) (m_spi_cr1 m) (m_spi_cr2 m) h (m_queue m) (m_handles m).

Definition init_button (m : machine) : machine :=
  let g := ports (m_board m) in
  let e := m_enables m in
  Machine (m_flash m) (Board (set_port g GPIOC (UserButton_Init (g GPIOC))) (ethernetMacAddress (m_board m))) (m_eth m)
    (Enables (SET_BIT (ahb1enr e) (BIT 2)) (apb1enr e) (apb2enr e)) (m_uart m) (m_odr_a m) (m_odr_b m)
    (m_spi_cr1 m) (m_spi_cr2 m) (m_tim2 m) (m_queue m) (m_handles m).

(** [xTaskCreateStatic] and the registration: the common body of the
    [*_Init] functions of the services.  [None] is the error handler. *)
Definition create_task (k : kernel) (id : nat) (m : machine) : option machine :=
  match k_task k id with
  | None => None
  | Some h => Some (set_handles m (TelemetryService_RegisterTask (m_handles m) id (Some h)))
  end.

Definition BuzzerService_Init (k : kernel) (m : machine) : option machine :=
  let m := Machine (m_flash m) (m_board m) (m_eth m) (m_enables m) (m_uart m) (m_odr_a m) (m_odr_b m) (m_spi_cr1 m) (m_spi_cr2 m)
    (m_tim2 m) (k_queue k) (m_handles m) in
  if negb (k_queue k) then None else create_task k TELEMETRY_TASK_BUZZER m.

Definition or_halt (m : machine) (x : option machine) (continue : machine -> boot machine) : boot machine :=
  match x with None => BootHalted m | Some m => continue m end.

(** The services, from the heart beat on. *)
Definition start_services (k : kernel) (flashReady ethernetReady : bool) (m : machine) : boot machine :=
  or_halt m (create_task k TELEMETRY_TASK_HEARTBEAT m) (fun m =>
  let m := init_buzzer m in
  or_halt m (BuzzerService_Init k m) (fun m =>
  let m := if flashReady then init_button m else m in
  or_halt m (if flashReady then create_task k TELEMETRY_TASK_FACTORY_RESET m else Some m) (fun m =>
  or_halt m (if ethernetReady then create_task k TELEMETRY_TASK_NETWORK m else Some m) (fun m =>
  or_halt m (create_task k TELEMETRY_TASK_TIME m) (fun m =>
  or_halt m (create_task k TELEMETRY_TASK_HEALTH_CHECK m) (fun m =>
  or_halt m (create_task k TELEMETRY_TASK_WATCHDOG m) BootScheduled)))))).

(** From the heart-beat output on. *)
Definition start_outputs (k : kernel) (uid : list Z) (flashReady : bool) (m : machine) : boot machine :=
  let '(m, ethernetStatus) := init_ethernet uid (init_heart_beat m) in
  start_services k flashReady (bool_decide (ethernetStatus = ETHERNET_STATUS_OK)) m.

Definition main (k : kernel) (uid : list Z) (m : machine) : boot machine :=
  let m := init_uart m in
  if negb (k_output k) then BootHalted m else
  let m := init_spi (print_configuration uid m) in
  let '(f, flashStatus) := W25Q64_Init (k_flash k) (m_flash m) in
  let m := set_flash m f in
  if flash_ok flashStatus then
    let '(f, r) := FactoryResetService_ResumePending f in
    let m := set_flash m f in
    match r with
    | Restarted => BootRestarted m
    | Returned status => if flash_ok status then start_outputs k uid true m else BootHalted m
    end
  else start_outputs k uid false m.

End main.

(** ** What the start leaves *)

(** The pins and their functions once everything is set up: the other users of
    a port never take a pin away.  The function of an output pin and the rest
    of the button's pin are what they were. *)
Definition assigned (flashReady : bool) (q : port) (n : Z) (old : Z * Z * Z * Z * Z) : Z * Z * Z * Z * Z :=
  let '(_, t, s, _, a) := old in
  let out := (GPIO_MODE_OUTPUT, 0, GPIO_SPEED_LOW, 0, a) in
  let alt af := (GPIO_MODE_ALTERNATE, 0, GPIO_SPEED_VERY_HIGH, 0, af) in
  if decide ((q, n) ∈ ethernetPins) then alt ETHERNET_GPIO_AF
  else if decide ((q, n) ∈ [(GPIOD, DIAGNOSTIC_TX_PIN); (GPIOD, DIAGNOSTIC_RX_PIN)]) then alt DIAGNOSTIC_GPIO_AF
  else if decide ((q, n) ∈ [(GPIOB, SPI1_PIN_SCK); (GPIOB, SPI1_PIN_MISO); (GPIOB, SPI1_PIN_MOSI)]) then alt SPI1_PIN_ALTERNATE_FUNCTION
  else if decide ((q, n) ∈ [(GPIOA, SPI1_PIN_CHIP_SELECT); (GPIOB, HEART_BEAT_PIN_POSITION); (GPIOA, BUZZER_PIN_POSITION)]) then out
  else if flashReady && bool_decide ((q, n) = (GPIOC, USER_BUTTON_PIN_POSITION)) then (0, t, s, 0, a)
  else old.

(** The ports after the UART and the SPI were set up. *)
Definition early_ports (g : port -> gpio_port) : port -> gpio_port :=
  let g := set_port g GPIOD (board_ConfigureAlternatePin (board_ConfigureAlternatePin (g GPIOD) 8 7) 9 7) in
  let g := set_port g GPIOA (Gpio_InitOutput (g GPIOA) 4) in
  let g := set_port g GPIOB (board_ConfigureAlternatePin (g GPIOB) 3 5) in
  let g := set_port g GPIOB (board_ConfigureAlternatePin (g GPIOB) 4 5) in
  set_port g GPIOB (board_ConfigureAlternatePin (g GPIOB) 5 5).

(** The ports after the steps of [main]. *)
Definition final_ports (flashReady : bool) (g : port -> gpio_port) : port -> gpio_port :=
  let g := early_ports g in
  let g := set_port g GPIOB (Gpio_InitOutput (g GPIOB) 14) in
  let g := configure_pins g ethernetPins ETHERNET_GPIO_AF in
  let g := set_port g GPIOA (Gpio_InitOutput (g GPIOA) 3) in
  if flashReady then set_port g GPIOC (UserButton_Init (g GPIOC)) else g.

Lemma output_pin_at p n k : 0 <= n < 16 -> 0 <= k < 16 ->
  pin (Gpio_InitOutput p n) k = let '(m, t, s, u, a) := pin p k in if decide (k = n) then (GPIO_MODE_OUTPUT, 0, GPIO_SPEED_LOW, 0, a) else (m, t, s, u, a).
Proof. intros Hn Hk. pose proof (output_pin p n k Hn Hk) as E. destruct (pin p k) as [[[[m t] s] u] a]. exact E. Qed.

Lemma button_pin_at p k : 0 <= k < 16 ->
  pin (UserButton_Init p) k = let '(m, t, s, u, a) := pin p k in if decide (k = USER_BUTTON_PIN_POSITION) then (0, t, s, 0, a) else (m, t, s, u, a).
Proof. intros Hk. pose proof (button_pin p k Hk) as E. destruct (pin p k) as [[[[m t] s] u] a]. exact E. Qed.

Lemma ethernet_pins_valid : Forall (fun x : port * Z => 0 <= x.2 < 16) ethernetPins.
Proof. unfold ethernetPins. repeat (apply list.Forall_cons; split; [cbn; lia|]). done. Qed.

Lemma set_port_eq g q p : set_port g q p q = p.
Proof. unfold set_port. by destruct (decide (q = q)). Qed.
Lemma set_port_ne g q p q' : q' <> q -> set_port g q p q' = g q'.
Proof. intros N. unfold set_port. by destruct (decide (q' = q)). Qed.

Lemma final_ports_pins flashReady g q n : 0 <= n < 16 -> pin (final_ports flashReady g q) n = assigned flashReady q n (pin (g q) n).
Proof.
  intros Hn. unfold final_ports, early_ports.
  assert (C : forall g', pin (configure_pins g' ethernetPins ETHERNET_GPIO_AF q) n = if decide ((q, n) ∈ ethernetPins)
    then (GPIO_MODE_ALTERNATE, 0, GPIO_SPEED_VERY_HIGH, 0, ETHERNET_GPIO_AF) else pin (g' q) n).
  { intros g'. apply configured_pins; [apply ethernet_pins_valid|done|done]. }
  destruct (Z_of_nat_complete_inf n) as [i Ei]; [lia|].
  destruct flashReady, q;
    repeat first [rewrite set_port_eq | rewrite set_port_ne by done | rewrite button_pin_at by done | rewrite output_pin_at by done
      | rewrite configure_pin by done | rewrite C];
    match goal with |- context [pin (g ?q) n] => destruct (pin (g q) n) as [[[[? ?] ?] ?] ?] end;
    clear C; subst n; do 16 (destruct i as [|i]; [vm_compute; reflexivity|]); lia.
Qed.

(** ** The tasks *)

(** The services that are started, in their order. *)
Definition services (flashReady ethernetReady : bool) : list nat :=
  [TELEMETRY_TASK_HEARTBEAT; TELEMETRY_TASK_BUZZER] ++ (if flashReady then [TELEMETRY_TASK_FACTORY_RESET] else [])
  ++ (if ethernetReady then [TELEMETRY_TASK_NETWORK] else [])
  ++ [TELEMETRY_TASK_TIME; TELEMETRY_TASK_HEALTH_CHECK; TELEMETRY_TASK_WATCHDOG].

Definition register_all (k : kernel) (l : list (option Z)) (ids : list nat) : list (option Z) :=
  fold_left (fun l id => TelemetryService_RegisterTask l id (k_task k id)) ids l.

Lemma registered k ids : forall l id, length l = TELEMETRY_TASK_COUNT ->
  Forall (fun i => (i < TELEMETRY_TASK_COUNT)%nat /\ is_Some (k_task k i)) ids ->
  length (register_all k l ids) = TELEMETRY_TASK_COUNT
  /\ register_all k l ids !! id = if decide (id ∈ ids) then Some (k_task k id) else l !! id.
Proof.
  induction ids as [|i ids IH]; intros l id Hl F; unfold register_all; cbn [fold_left].
  - split; [done|]. case_decide as E; [by apply not_elem_of_nil in E|done].
  - apply list.Forall_cons in F as [[Hi [h Hh]] F]. fold (register_all k (TelemetryService_RegisterTask l i (k_task k i)) ids).
    rewrite Hh. cbn [TelemetryService_RegisterTask]. rewrite (proj2 (Nat.leb_gt _ _)) by done.
    destruct (IH (<[i := Some h]> l) id) as [L E]; [by rewrite length_insert|done|]. split; [done|]. rewrite E.
    case_decide as E1; [by rewrite decide_True by (by apply list_elem_of_further)|].
    destruct (decide (id = i)) as [->|N].
    + rewrite decide_True by apply list_elem_of_here. rewrite Hh. apply list_lookup_insert_eq. lia.
    + rewrite list_lookup_insert_ne by done. rewrite decide_False; [done|]. intros [?|?]%elem_of_cons; done.
Qed.

(** The kernel could not create an object that the start needs. *)
Definition kernel_failed (k : kernel) : Prop :=
  k_output k = false \/ k_queue k = false \/ exists id, (id < TELEMETRY_TASK_COUNT)%nat /\ k_task k id = None.

Section boot.
Context {D H : Type} `{ChipLaws D} `{Peripheral H}.
Abbreviation machine := (machine D H).

Definition created_all (k : kernel) (ids : list nat) : Prop :=
  Forall (fun i => (i < TELEMETRY_TASK_COUNT)%nat /\ is_Some (k_task k i)) ids.

Lemma start_services_spec k fr er (m : machine) :
  match start_services k fr er m with
  | BootScheduled m' => m_flash m' = m_flash m /\ m_handles m' = register_all k (m_handles m) (services fr er)
      /\ created_all k (services fr er)
      /\ (forall q, ports (m_board m') q =
            (let g := set_port (ports (m_board m)) GPIOA (Gpio_InitOutput (ports (m_board m) GPIOA) 3) in
             if fr then set_port g GPIOC (UserButton_Init (g GPIOC)) else g) q)
      /\ PSC (m_tim2 m') = 107
  | BootHalted m' => m_flash m' = m_flash m /\ kernel_failed k
  | BootRestarted _ => False
  end.
Proof.
  assert (N : forall id, (id < TELEMETRY_TASK_COUNT)%nat -> k_task k id = None -> kernel_failed k) by (intros id ? ?; right; right; by exists id).
  unfold start_services, BuzzerService_Init, services, created_all, register_all, create_task.
  assert (P : forall i h, (i < TELEMETRY_TASK_COUNT)%nat -> k_task k i = Some h -> (i < TELEMETRY_TASK_COUNT)%nat /\ is_Some (k_task k i))
    by (intros i h Hi ->; split; [done|by eexists]).
  destruct (k_task k TELEMETRY_TASK_HEARTBEAT) as [h0|] eqn:E0; cbn [or_halt]; [|split; [done|exact (N 0%nat ltac:(cbv; lia) E0)]].
  destruct (k_queue k) eqn:Eq; cbn [negb or_halt]; [|split; [done|right; by left]].
  destruct (k_task k TELEMETRY_TASK_BUZZER) as [h5|] eqn:E5; cbn [or_halt]; [|split; [done|exact (N 5%nat ltac:(cbv; lia) E5)]].
  destruct fr; cbn [app or_halt];
    [destruct (k_task k TELEMETRY_TASK_FACTORY_RESET) as [h2|] eqn:E2; cbn [or_halt]; [|split; [done|exact (N 2%nat ltac:(cbv; lia) E2)]]|];
    (destruct er; cbn [app or_halt];
      [destruct (k_task k TELEMETRY_TASK_NETWORK) as [h3|] eqn:E3; cbn [or_halt]; [|split; [done|exact (N 3%nat ltac:(cbv; lia) E3)]]|];
      (destruct (k_task k TELEMETRY_TASK_TIME) as [h4|] eqn:E4; cbn [or_halt]; [|split; [done|exact (N 4%nat ltac:(cbv; lia) E4)]];
       destruct (k_task k TELEMETRY_TASK_HEALTH_CHECK) as [h6|] eqn:E6; cbn [or_halt]; [|split; [done|exact (N 6%nat ltac:(cbv; lia) E6)]];
       destruct (k_task k TELEMETRY_TASK_WATCHDOG) as [h1|] eqn:E1; cbn [or_halt]; [|split; [done|exact (N 1%nat ltac:(cbv; lia) E1)]];
       split; [done|]; split; [cbn [fold_left]; by rewrite ?E0, ?E5, ?E2, ?E3, ?E4, ?E6, ?E1|];
       split; [repeat (apply list.Forall_cons; split; [eapply P; [cbv; lia|eassumption]|]); apply list.Forall_nil; exact I|];
       split; [by intros []|done])).
Qed.

Lemma flash_init_keeps create (f f' : driver D) st : idle (W25q64.bus f) -> W25Q64_Init create f = (f', st) ->
  mem_eq (fl_mem f') (fl_mem f).
Proof.
  intros Hi E. unfold W25Q64_Init in E. cbn [fl_mem driver_flash].
  set (f0 := if created f then f else _) in E. assert (B : W25q64.bus f0 = W25q64.bus f) by (unfold f0; by destruct (created f)).
  rewrite <-B in Hi |- *. destruct (created f0); cbn [negb] in E; [|by injection E as <- <-].
  unfold W25Q64_IsAvailable in E. destruct (take_mutex f0) as [f1 t] eqn:Et. pose proof (take_mutex_bus _ _ _ Et) as B1.
  rewrite <-B1 in Hi |- *. destruct t; cbn [negb] in E; [|by injection E as <- <-].
  destruct (w25q64_Command _ _ 3) as [[b st'] rx] eqn:Ec. injection E as <- <-. cbn [with_bus W25q64.bus].
  destruct (command_harmless _ [W25Q64_COMMAND_JEDEC_ID] 3 _ _ _ Hi (cons_ne _ _) eq_refl Ec) as [Hi' Hm].
  by rewrite (settled_idle _ Hi'), Hm, <-(settled_idle _ Hi).
Qed.

(** What the Ethernet driver leaves and answers, at the address of the board. *)
Definition ethernet_start (uid : list Z) (m : machine) : ethernet H * Ethernet_StatusTypeDef :=
  EthernetMac_Init (m_eth m) ETHERNET_PHY_ADDRESS
    (Some (board_GetEthernetMacAddress (ethernetMacAddress (m_board m)) uid)).

Definition ethernet_works (uid : list Z) (m : machine) : bool :=
  bool_decide ((ethernet_start uid m).2 = ETHERNET_STATUS_OK).

(** The steps before the scheduler compose to [final_ports]. *)
Lemma start_outputs_spec k uid fr (m : machine) g :
  ports (m_board m) = early_ports g ->
  let er := ethernet_works uid m in
  match start_outputs k uid fr m with
  | BootScheduled m' => m_flash m' = m_flash m /\ m_handles m' = register_all k (m_handles m) (services fr er)
      /\ created_all k (services fr er) /\ (forall q, ports (m_board m') q = final_ports fr g q)
  | BootHalted m' => m_flash m' = m_flash m /\ kernel_failed k
  | BootRestarted _ => False
  end.
Proof.
  intros G er. unfold start_outputs, init_ethernet, Board_InitEthernet.
  change (m_eth (init_heart_beat m)) with (m_eth m).
  change (ethernetMacAddress (m_board (init_heart_beat m))) with (ethernetMacAddress (m_board m)).
  unfold er, ethernet_works, ethernet_start.
  destruct (EthernetMac_Init _ _ _) as [e st]. cbn [snd].
  match goal with |- context [start_services k fr ?b ?m1] => pose proof (start_services_spec k fr b m1) as S; destruct (start_services k fr b m1) as [m'|m'|m'] end.
  - exact S.
  - exact S.
  - destruct S as (A & B & C & P & _). split; [exact A|]. split; [exact B|]. split; [exact C|].
    intros q. rewrite P. cbn [ports m_board init_heart_beat set_ports]. rewrite G. by destruct fr.
Qed.

Lemma set_flash_twice (m : machine) f f' : set_flash (set_flash m f) f' = set_flash m f'.
Proof. reflexivity. Qed.

Lemma ports_after_spi uid (m : machine) :
  ports (m_board (init_spi (print_configuration uid (init_uart m)))) = early_ports (ports (m_board m)).
Proof. destruct m as [? []]. reflexivity. Qed.

(** The address printed at the start is the one the driver gets. *)
Lemma ethernet_after_spi uid (m : machine) f :
  ethernet_works uid (set_flash (init_spi (print_configuration uid (init_uart m))) f) = ethernet_works uid m.
Proof. destruct m as [? [] ? ? ? ? ? ? ? ? ? ?]. reflexivity. Qed.

(** From a board just reset. *)
Lemma outputs_after_reset k uid fr (m : machine) f : m_handles m = replicate TELEMETRY_TASK_COUNT None ->
  let er := ethernet_works uid m in
  match start_outputs k uid fr (set_flash (init_spi (print_configuration uid (init_uart m))) f) with
  | BootScheduled m' => m_flash m' = f
      /\ (forall q n, 0 <= n < 16 -> pin (ports (m_board m') q) n = assigned fr q n (pin (ports (m_board m) q) n))
      /\ (forall id, m_handles m' !! id =
            if decide (id ∈ services fr er) then Some (k_task k id) else replicate TELEMETRY_TASK_COUNT None !! id)
      /\ created_all k (services fr er)
  | BootHalted m' => m_flash m' = f /\ kernel_failed k
  | BootRestarted _ => False
  end.
Proof.
  intros Hh er. pose proof (start_outputs_spec k uid fr (set_flash (init_spi (print_configuration uid (init_uart m))) f)
    (ports (m_board m)) (ports_after_spi uid m)) as S. cbv zeta in S. rewrite ethernet_after_spi in S. fold er in S.
  destruct (start_outputs _ _ _ _) as [m'|m'|m']; [exact S|exact S|].
  destruct S as (A & B & C & P). split; [exact A|]. split; [|split; [|exact C]].
  - intros q n Hn. rewrite P. by apply final_ports_pins.
  - intros id. rewrite B. change (m_handles (set_flash _ f)) with (m_handles m). rewrite Hh.
    destruct (registered k (services fr er) (replicate TELEMETRY_TASK_COUNT None) id) as [_ E]; [done|exact C|exact E].
Qed.


End boot.

(** ** A concrete start *)

Definition demo_kernel : kernel := Kernel true true true (fun id => Some (Z.of_nat id)).
Definition demo_machine : machine nor sim_phy :=
  Machine (Driver (Spi (Nor (fun _ => 255) false None []) 0 []) false []) (Board (fun _ => blank_port) None) demo_mac
    (Enables 0 0 0) (Uart 0 0 0 0) 0 0 0 0 (Hw blank_port 0 0 0 0 0 0 0) false (replicate TELEMETRY_TASK_COUNT None).

Definition scheduled {M} (b : boot M) : bool := match b with BootScheduled _ => true | _ => false end.

Lemma demo_scheduled : scheduled (main demo_kernel demo_uid demo_machine) = true.
Proof. vm_compute. reflexivity. Qed.

Lemma main_demo_ready :
  flash_ok (W25Q64_Init (k_flash demo_kernel) (m_flash demo_machine)).2 = true
  /\ bool_decide ((EthernetMac_Init (m_eth demo_machine) ETHERNET_PHY_ADDRESS
      (Some (board_GetEthernetMacAddress (ethernetMacAddress (m_board demo_machine)) demo_uid))).2
      = ETHERNET_STATUS_OK) = true.
Proof. split; vm_compute; reflexivity. Qed.

