(* ===== verification/Tasks.v ===== *)
(** The small tasks: [Srv/Src/watchdog_service.c], [Srv/Src/heart_beat.c], the
    task of [Srv/Src/time_service.c], and the part of [apiService_Task] that
    opens the listening socket. *)
From S2P Require Import Prelude NorFlash TimeService.

(** ** The independent watchdog *)

Definition IWDG_KEY_RELOAD : Z := 0xAAAA.
Definition IWDG_KEY_ENABLE : Z := 0xCCCC.
Definition IWDG_KEY_ACCESS : Z := 0x5555.
Definition IWDG_PRESCALER_DIV64 : Z := 4.
Definition IWDG_RELOAD_COUNTER : Z := 0x4AF.
Definition WATCHDOG_FEED_MS : Z := 750.

Inductive iwdg_write := IWDG_KR (v : Z) | IWDG_PR (v : Z) | IWDG_RLR (v : Z).

(** The peripheral: running, its two registers open, the prescaler and reload
    values, the cycles of its oscillator left, and whether it has reset the
    chip. *)
Record iwdg := Iwdg { w_on : bool; w_open : bool; w_pr : Z; w_rlr : Z; w_left : Z; bitten : bool }.

Definition timeout_cycles (pr rlr : Z) : Z := (rlr + 1) * (4 * 2 ^ pr).

Definition iwdg_step (w : iwdg) (x : iwdg_write) : iwdg :=
  match x with
  | IWDG_KR v =>
      if v =? IWDG_KEY_ENABLE then Iwdg true (w_open w) (w_pr w) (w_rlr w) (timeout_cycles (w_pr w) (w_rlr w)) (bitten w)
      else if v =? IWDG_KEY_ACCESS then Iwdg (w_on w) true (w_pr w) (w_rlr w) (w_left w) (bitten w)
      else if v =? IWDG_KEY_RELOAD then Iwdg (w_on w) false (w_pr w) (w_rlr w) (timeout_cycles (w_pr w) (w_rlr w)) (bitten w)
      else w
  | IWDG_PR v => if w_open w then Iwdg (w_on w) true v (w_rlr w) (w_left w) (bitten w) else w
  | IWDG_RLR v => if w_open w then Iwdg (w_on w) true (w_pr w) v (w_left w) (bitten w) else w
  end.

(** [n] cycles of its oscillator pass. *)
Definition iwdg_elapse (w : iwdg) (n : Z) : iwdg :=
  if negb (w_on w) then w else
  Iwdg true (w_open w) (w_pr w) (w_rlr w) (w_left w - n) (bitten w || (w_left w <=? n)).

(** After a reset: off, with a prescaler of four and the largest reload value. *)
Definition iwdg_reset : iwdg := Iwdg false false 0 0xFFF 0 false.

(** The writes of [watchdogService_Start]; [updating] cycles pass in the loop
    that waits for the status register. *)
Definition watchdogService_Start (w : iwdg) (updating : Z) : iwdg :=
  let w := fold_left iwdg_step
    [IWDG_KR IWDG_KEY_ENABLE; IWDG_KR IWDG_KEY_ACCESS; IWDG_PR IWDG_PRESCALER_DIV64; IWDG_RLR IWDG_RELOAD_COUNTER] w in
  iwdg_step (iwdg_elapse w updating) (IWDG_KR IWDG_KEY_RELOAD).

(** The loop of [watchdogService_Task]: before each reload a number of cycles
    has passed. *)
Definition watchdogService_Task (w : iwdg) (updating : Z) (gaps : list Z) : iwdg :=
  fold_left (fun w gap => iwdg_step (iwdg_elapse w gap) (IWDG_KR IWDG_KEY_RELOAD)) gaps (watchdogService_Start w updating).

Definition armed (w : iwdg) : Prop :=
  w_on w = true /\ w_pr w = IWDG_PRESCALER_DIV64 /\ w_rlr w = IWDG_RELOAD_COUNTER /\ w_left w = 76800.

Lemma started_armed updating : 0 <= updating < 16384 ->
  let w := watchdogService_Start iwdg_reset updating in armed w /\ bitten w = false.
Proof.
  intros Hu. cbn. unfold timeout_cycles. cbn. rewrite (proj2 (Z.leb_gt _ _)) by lia. by repeat split.
Qed.

Lemma fed_round w gap : armed w ->
  let w' := iwdg_step (iwdg_elapse w gap) (IWDG_KR IWDG_KEY_RELOAD) in
  armed w' /\ bitten w' = bitten w || (76800 <=? gap).
Proof.
  intros (A & B & C & D). unfold iwdg_elapse. rewrite A, D. cbn. rewrite B, C. unfold timeout_cycles. cbn. by repeat split.
Qed.

Lemma watchdog_task_spec updating gaps : 0 <= updating < 16384 ->
  bitten (watchdogService_Task iwdg_reset updating gaps) = existsb (fun gap => 76800 <=? gap) gaps.
Proof.
  intros Hu. unfold watchdogService_Task. destruct (started_armed updating Hu) as [A B].
  revert A B. generalize (watchdogService_Start iwdg_reset updating). intros w A B.
  transitivity (bitten w || existsb (fun gap => 76800 <=? gap) gaps); [|by rewrite B].
  clear B. revert w A. induction gaps as [|gap gaps IH]; intros w A; cbn [fold_left existsb]; [by rewrite orb_false_r|].
  destruct (fed_round w gap A) as [A' E]. rewrite IH by done. rewrite E. by rewrite orb_assoc.
Qed.

(** The oscillator of the watchdog has between 17 kHz and 47 kHz.  A task that
    is late by no more than 0.88 s after its 750 ms is never reset, at any of
    these frequencies; one that was not scheduled for 4.6 s is reset. *)
Lemma watchdog_tolerance hz updating late : 17000 <= hz <= 47000 -> 0 <= updating < 16384 ->
  let cycles ms := ms * hz / 1000 in
  (Forall (fun ms => 0 <= ms <= 880) late ->
     bitten (watchdogService_Task iwdg_reset updating (map (fun ms => cycles (WATCHDOG_FEED_MS + ms)) late)) = false)
  /\ (Exists (fun ms => 3850 <= ms) late ->
     bitten (watchdogService_Task iwdg_reset updating (map (fun ms => cycles (WATCHDOG_FEED_MS + ms)) late)) = true).
Proof.
  intros Hz Hu cycles. unfold WATCHDOG_FEED_MS, cycles. rewrite watchdog_task_spec by done. split.
  - intros F. induction F as [|ms l Hms F IH]; [done|]. cbn [map existsb]. rewrite IH, orb_false_r.
    apply Z.leb_gt. apply Z.div_lt_upper_bound; [lia|]. nia.
  - intros E. apply existsb_exists. apply Exists_exists in E as (ms & Hin & Hms).
    exists ((750 + ms) * hz / 1000). split.
    + apply in_map_iff. by exists ms.
    + apply Z.leb_le. apply Z.div_le_lower_bound; [lia|]. nia.
Qed.

(** ** The heart beat *)

Definition HEART_BEAT_PERIOD_MS : Z := 1500.
Definition HEART_BEAT_PULSE_MS : Z := 150.

(** One round of [heartBeatService_Task]: the level of the LED and how long it
    stays. *)
Definition heartBeatService_Task_round : list (bool * Z) :=
  let pulseTicks := HEART_BEAT_PULSE_MS in
  let quietTicks := HEART_BEAT_PERIOD_MS - 3 * HEART_BEAT_PULSE_MS in
  [(true, pulseTicks); (false, pulseTicks); (true, pulseTicks); (false, quietTicks)].

Lemma heart_beat_period :
  fold_right Z.add 0 (map snd heartBeatService_Task_round) = HEART_BEAT_PERIOD_MS
  /\ length (filter (fun x => x.1 = true) heartBeatService_Task_round) = 2%nat
  /\ Forall (fun x => 0 < x.2) heartBeatService_Task_round.
Proof. repeat split. by repeat constructor. Qed.

(** ** The time task *)

(** lwIP's SNTP client as far as the task configures it. *)
Record sntp := Sntp { polling : bool; server : option bytes; sntp_running : bool }.

Definition TIME_SNTP_SERVER : bytes := str "pool.ntp.org".

Definition timeService_StartSntp (s : sntp) : sntp := Sntp true (Some TIME_SNTP_SERVER) true.

(** Where the task is after its reads of [NetworkService_IsReady]: still waiting,
    stopped in the error handler, or in its last loop. *)
Inductive time_task := TimeWaiting (s : sntp) | TimeHalted (s : sntp) | TimeRunning (s : sntp).

Fixpoint timeService_Task (ready : list bool) (posted : bool) (s : sntp) : time_task :=
  match ready with
  | [] => TimeWaiting s
  | false :: ready => timeService_Task ready posted s
  | true :: _ => if posted then TimeRunning (timeService_StartSntp s) else TimeHalted s
  end.

(** The client is started exactly when the network has been seen ready. *)
Lemma sntp_started ready posted s : sntp_running s = false ->
  match timeService_Task ready posted s with
  | TimeRunning s' => In true ready /\ posted = true /\ sntp_running s' = true /\ server s' = Some TIME_SNTP_SERVER
  | TimeHalted s' => In true ready /\ posted = false /\ s' = s
  | TimeWaiting s' => Forall (fun r => r = false) ready /\ s' = s
  end.
Proof.
  intros N. induction ready as [|[|] ready IH]; cbn [timeService_Task]; [done| |].
  - destruct posted; repeat split; by left.
  - destruct (timeService_Task ready posted s); [|destruct IH as (? & ?); split; [by right|done]..].
    destruct IH as [IH ->]. split; [|done]. by apply list.Forall_cons.
Qed.

(** ** Opening the listening socket *)

(** One attempt: the descriptor that [lwip_socket] returns, and whether the bind
    and the listen succeed. *)
Record attempt := Attempt { descriptor : Z; bind_ok : bool; listen_ok : bool }.

(** The loop over attempts, with the descriptors that are open.  [None]: every
    attempt failed so far. *)
Fixpoint open_listener (attempts : list attempt) (opened : list Z) : list Z * option Z :=
  match attempts with
  | [] => (opened, None)
  | a :: rest =>
      if descriptor a <? 0 then open_listener rest opened else
      let opened' := descriptor a :: opened in
      if negb (bind_ok a) then open_listener rest (remove Z.eq_dec (descriptor a) opened') else
      if negb (listen_ok a) then open_listener rest (remove Z.eq_dec (descriptor a) opened') else
      (opened', Some (descriptor a))
  end.

(** No descriptor is lost: however many attempts fail, the listener is the only
    socket the loop leaves open.  [lwip_socket] returns a descriptor that is not
    open. *)
Lemma listener_only attempts opened : Forall (fun a => ~ In (descriptor a) opened) attempts ->
  match open_listener attempts opened with
  | (opened', Some l) => opened' = l :: opened /\ exists a, In a attempts /\ descriptor a = l /\ bind_ok a = true /\ listen_ok a = true
  | (opened', None) => opened' = opened
  end.
Proof.
  intros F. induction F as [|a rest Ha F IH]; cbn [open_listener]; [done|].
  assert (R : remove Z.eq_dec (descriptor a) (descriptor a :: opened) = opened).
  { cbn. destruct (Z.eq_dec _ _); [|done]. by apply notin_remove. }
  assert (W : match open_listener rest opened with
    | (opened', Some l) => opened' = l :: opened /\ exists a', In a' (a :: rest) /\ descriptor a' = l /\ bind_ok a' = true /\ listen_ok a' = true
    | (opened', None) => opened' = opened
    end).
  { destruct (open_listener rest opened) as [o [l|]]; [|done]. destruct IH as (-> & a' & Hin & Ha'). split; [done|].
    exists a'. split; [by right|done]. }
  rewrite R. destruct (_ <? 0); [exact W|]. destruct (bind_ok a) eqn:B; [|exact W]. destruct (listen_ok a) eqn:L; [|exact W].
  cbn [negb]. split; [done|]. exists a. split; [by left|done].
Qed.
