(* ===== verification/NetworkInterface.v ===== *)
(** [Core/Src/network_interface.c]: the driver between the Ethernet MAC and the
    network stack.

    The stack's packet buffers are behind an interface: who owns a buffer, and
    what was handed to the stack.  The input loop empties the receive ring while
    the MAC keeps filling it; the output routine flattens a chained packet into
    one frame. *)
From S2P Require Import Prelude Ethernet EthernetLink.

(** lwIP's [err_t], the values this code returns. *)
Inductive err_t := ERR_OK | ERR_ARG | ERR_IF | ERR_MEM.

#[global] Instance err_t_eq_dec : EqDecision err_t.
Proof. solve_decision. Defined.

Definition NETWORK_INTERFACE_MTU : Z := 1500.
Definition NETWORK_INTERFACE_FRAME_SIZE : nat := 1536.

(** ** Input *)

(** The calls into the stack. *)
Class Lwip (L P : Type) := {
  pbuf_alloc : L -> nat -> L * option P;
  pbuf_take : L -> P -> bytes -> L * bool;
  netif_input : L -> P -> L * bool;
  pbuf_free : L -> P -> L;
}.

(** What becomes of one intact frame. *)
Definition deliver {L P} `{Lwip L P} (l : L) (frame : bytes) : L :=
  match pbuf_alloc l (length frame) with
  | (l, None) => l
  | (l, Some packet) =>
      let '(l, taken) := pbuf_take l packet frame in
      if negb taken then pbuf_free l packet else
      let '(l, accepted) := netif_input l packet in
      if negb accepted then pbuf_free l packet else l
  end.

(** The frames that arrive, with their checksum bytes, before a poll. *)
Definition arrive (r : ring) (l : list (arrival * bytes)) : ring :=
  fold_left (fun r x => (dma_receive r x.1 x.2).1) l r.

(** The loop; [env] is what arrives before the first poll, the second, ...;
    [None] when [fuel] polls were not enough. *)
Fixpoint NetworkInterface_ProcessInput {L P} `{Lwip L P} (fuel : nat) (env : list (list (arrival * bytes))) (l : L) (r : ring) :
    option (L * ring) :=
  match fuel with
  | O => None
  | S fuel =>
      let r := arrive r (default [] (head env)) in
      match EthernetMac_GetReceivedFrame r with
      | (r, ETHERNET_STATUS_NO_FRAME, _) => Some (l, r)
      | (r, ETHERNET_STATUS_OK, Some frame) =>
          NetworkInterface_ProcessInput fuel (tail env) (deliver l frame) (EthernetMac_ReleaseReceivedFrame r)
      | (r, _, _) => NetworkInterface_ProcessInput fuel (tail env) l r
      end
  end.

(** What the stack promises: a buffer that was allocated is owned by the caller
    until the stack accepts it or it is freed; an accepted buffer carries the
    bytes it was filled with. *)
Class LwipLaws (L P : Type) `{Lwip L P} := {
  mine : L -> list P;
  contents : L -> P -> bytes;
  delivered : L -> list bytes;
  alloc_law l n l' o :
    pbuf_alloc l n = (l', o) ->
    delivered l' = delivered l /\ mine l' = (match o with Some p => p :: mine l | None => mine l end);
  take_law l p f l' ok :
    pbuf_take l p f = (l', ok) -> mine l' = mine l /\ delivered l' = delivered l /\ (ok = true -> contents l' p = f);
  input_law l p rest l' ok :
    mine l = p :: rest -> netif_input l p = (l', ok) ->
    if ok then mine l' = rest /\ delivered l' = delivered l ++ [contents l p] else mine l' = mine l /\ delivered l' = delivered l;
  free_law l p rest : mine l = p :: rest -> mine (pbuf_free l p) = rest /\ delivered (pbuf_free l p) = delivered l;
}.

Section Input.
Context {L P : Type} `{LwipLaws L P}.

(** Every call of the stack succeeds. *)
Definition generous : Prop :=
  (forall l n, (pbuf_alloc l n).2 <> None) /\ (forall l p f, (pbuf_take l p f).2 = true) /\ forall l p, (netif_input l p).2 = true.

(** A frame is delivered as it is or dropped, and no buffer is kept. *)
Lemma deliver_spec l f :
  mine (deliver l f) = mine l
  /\ (delivered (deliver l f) = delivered l ++ [f] \/ delivered (deliver l f) = delivered l)
  /\ (generous -> delivered (deliver l f) = delivered l ++ [f]).
Proof.
  unfold deliver. destruct (pbuf_alloc l (length f)) as [l1 o] eqn:E1. destruct (alloc_law _ _ _ _ E1) as [Hd1 Hm1].
  destruct o as [p|]; [|split; [done|]; split; [by right|]; intros [Hg _]; by destruct (Hg l (length f)); rewrite E1].
  destruct (pbuf_take l1 p f) as [l2 ok] eqn:E2. destruct (take_law _ _ _ _ _ E2) as (Hm2 & Hd2 & Hc).
  rewrite Hm1 in Hm2. destruct ok; cbn [negb].
  - destruct (netif_input l2 p) as [l3 ok] eqn:E3. pose proof (input_law _ _ _ _ _ Hm2 E3) as H3.
    destruct ok; cbn [negb]; destruct H3 as [Hm3 Hd3].
    + rewrite Hd3, Hd2, Hd1, Hc by done. by split; [|split; [left|]].
    + rewrite Hm2 in Hm3. destruct (free_law _ _ _ Hm3) as [Hm4 Hd4]. rewrite Hd4, Hd3, Hd2, Hd1. split; [done|]. split; [by right|].
      intros (_ & _ & Hg). specialize (Hg l2 p). by rewrite E3 in Hg.
  - destruct (free_law _ _ _ Hm2) as [Hm4 Hd4]. rewrite Hd4, Hd2, Hd1. split; [done|]. split; [by right|].
    intros (_ & Hg & _). specialize (Hg l1 p f). by rewrite E2 in Hg.
Qed.

Definition frame_fits (x : arrival * bytes) : Prop := arrival_ok x.1 /\ length x.2 = 4%nat.

(** Arrivals are appended to the queue or, when it is full, lost. *)
Lemma arrive_queue x : forall r q,
  rx_queue r q -> Forall frame_fits x -> exists new, sublist new (map fst x) /\ rx_queue (arrive r x) (q ++ new).
Proof.
  induction x as [|[a c] x IH]; intros r q Hq Hx; [exists []; by rewrite app_nil_r|].
  apply list.Forall_cons in Hx as [[Ha Hc] Hx]. cbn [fst snd] in Ha, Hc. cbn [arrive fold_left fst snd map].
  pose proof (rx_arrive r q a c Hq Ha Hc) as Hr. case_decide; destruct Hr as [_ Hr].
  - destruct (IH _ _ Hr Hx) as (new & Hn & Hq'). exists new. split; [by apply sublist_cons|exact Hq'].
  - destruct (IH _ _ Hr Hx) as (new & Hn & Hq'). exists (a :: new). split; [by apply sublist_skip|].
    by rewrite <-app_assoc in Hq'.
Qed.

(** The payloads of the intact frames. *)
Definition payloads (q : list arrival) : list bytes := omap seen q.

(** The input loop ends: while frames keep arriving, it polls at most once for
    each frame that was waiting or arrives, and once more.  It leaves the ring
    empty, hands the stack the intact frames byte for byte, in order and at most
    once each, and every buffer it allocated was accepted by the stack or freed;
    if the stack refuses nothing, no intact frame in the ring is lost. *)
Lemma input_loop_terminates env l r q fuel :
  rx_queue r q -> Forall (Forall frame_fits) env -> (length q + length (concat env) < fuel)%nat ->
  exists l' r' more d, NetworkInterface_ProcessInput fuel env l r = Some (l', r') /\ rx_queue r' []
    /\ sublist more (map fst (concat env)) /\ mine l' = mine l /\ delivered l' = delivered l ++ d
    /\ sublist d (payloads (q ++ more)) /\ (generous -> d = payloads (q ++ more)).
Proof.
  revert env l r q. induction fuel as [|fuel IH]; intros env l r q Hq Henv Hf; [lia|]. cbn [NetworkInterface_ProcessInput].
  set (now := default [] (head env)).
  assert (Forall frame_fits now /\ Forall (Forall frame_fits) (tail env) /\ concat env = now ++ concat (tail env)) as (Hnow & Htl & Econ)
    by (subst now; destruct env as [|x env]; cbn; [by repeat constructor|by apply list.Forall_cons in Henv as [? ?]]).
  destruct (arrive_queue now r q Hq Hnow) as (new & Hnew & Hq1). rewrite (rx_get _ _ Hq1).
  rewrite Econ, map_app. rewrite Econ, length_app in Hf. pose proof (sublist_length _ _ Hnew) as Hln. rewrite length_map in Hln.
  destruct (q ++ new) as [|a q1] eqn:Eq.
  - apply app_eq_nil in Eq as [-> ->]. exists l, (arrive r now), [], [].
    rewrite app_nil_r. split; [done|]. split; [done|]. split; [apply sublist_nil_l|]. by repeat split.
  - assert (length q1 + length (concat (tail env)) < fuel)%nat as Hf1.
    { apply (f_equal length) in Eq. rewrite length_app in Eq. cbn in Eq. lia. }
    pose proof (rx_release _ _ _ Hq1) as Hq2. destruct (intact a) eqn:Ei.
    + destruct (IH (tail env) (deliver l (payload a)) _ q1 Hq2 Htl Hf1) as (l' & r' & more & d & E & Hq' & Hm & Hmine & Hd & Hs & Hg).
      destruct (deliver_spec l (payload a)) as (Dm & Dd & Dg).
      assert (payloads ((q ++ new) ++ more) = payload a :: payloads (q1 ++ more)) as Ep
        by (rewrite Eq; cbn; unfold seen at 1; by rewrite Ei).
      exists l', r', (new ++ more). rewrite app_assoc, Ep. destruct Dd as [Dd|Dd].
      * exists (payload a :: d). do 2 (split; [done|]). split; [by apply sublist_app|]. split; [by rewrite Hmine|].
        split; [by rewrite Hd, Dd, <-app_assoc|]. split; [by apply sublist_skip|]. intros G. by rewrite Hg.
      * exists d. do 2 (split; [done|]). split; [by apply sublist_app|]. split; [by rewrite Hmine|].
        split; [by rewrite Hd, Dd|]. split; [by apply sublist_cons|]. intros G. rewrite (Dg G) in Dd.
        exfalso. apply (f_equal length) in Dd. rewrite length_app in Dd. cbn in Dd. lia.
    + destruct (IH (tail env) l _ q1 Hq2 Htl Hf1) as (l' & r' & more & d & E & Hq' & Hm & Hmine & Hd & Hs & Hg).
      exists l', r', (new ++ more), d. rewrite app_assoc, Eq. do 2 (split; [done|]). split; [by apply sublist_app|].
      split; [done|]. split; [done|].
      assert (payloads ((a :: q1) ++ more) = payloads (q1 ++ more)) as -> by (cbn; unfold seen at 1; by rewrite Ei). done.
Qed.

End Input.

(** A stack with a pool of buffers: the free ones, the caller's, what each holds
    and what the stack took.  It refuses when the pool is empty. *)
Record sim_stack := SimStack { ss_free : list nat; ss_mine : list nat; ss_data : nat -> bytes; ss_out : list bytes }.

#[global] Instance SimStack_lwip : Lwip sim_stack nat := {
  pbuf_alloc l _ :=
    match ss_free l with [] => (l, None) | p :: free => (SimStack free (p :: ss_mine l) (ss_data l) (ss_out l), Some p) end;
  pbuf_take l p f := (SimStack (ss_free l) (ss_mine l) (fun k => if decide (k = p) then f else ss_data l k) (ss_out l), true);
  netif_input l p := (SimStack (ss_free l) (tail (ss_mine l)) (ss_data l) (ss_out l ++ [ss_data l p]), true);
  pbuf_free l p := SimStack (p :: ss_free l) (tail (ss_mine l)) (ss_data l) (ss_out l);
}.

#[global] Instance SimStack_laws : LwipLaws sim_stack nat.
Proof.
  refine {| mine := ss_mine; contents := ss_data; delivered := ss_out |}.
  - intros l n l' o. cbn. by destruct (ss_free l); intros [= <- <-].
  - intros l p f l' ok. cbn. intros [= <- <-]. split; [done|]. split; [done|]. intros _. cbn. by case_decide.
  - intros l p rest l' ok Hm. cbn. intros [= <- <-]. cbn. by rewrite Hm.
  - intros l p rest Hm. cbn. by rewrite Hm.
Defined.

(** Two frames arrive before the first poll and one while it is being handled. *)
Definition demo_arrivals : list (list (arrival * bytes)) :=
  [[(Arrival [1; 2] false true true, [0; 0; 0; 0]); (Arrival [3] true true true, [0; 0; 0; 0])];
   [(Arrival [4] false true true, [0; 0; 0; 0])]].

Lemma input_loop_terminates_witness :
  exists l' r', NetworkInterface_ProcessInput 4 demo_arrivals (SimStack [0; 1]%nat [] (fun _ => []) []) (init_receive demo_buffers) = Some (l', r')
    /\ rx_queue r' [] /\ ss_mine l' = [] /\ ss_out l' = [[1; 2]; [4]].
Proof.
  destruct (input_loop_terminates demo_arrivals (SimStack [0; 1]%nat [] (fun _ => []) []) (init_receive demo_buffers) [] 4
    (rx_init demo_buffers eq_refl demo_buffers_ok)) as (l' & r' & more & d & E & Hq & _ & Hm & Hd & _).
  - unfold demo_arrivals, frame_fits, arrival_ok, ETHERNET_BUFFER_SIZE. repeat constructor; cbn; lia.
  - cbn. lia.
  - exists l', r'. split; [exact E|]. split; [exact Hq|]. split; [exact Hm|].
    assert (option_map (fun x => ss_out x.1) (NetworkInterface_ProcessInput 4 demo_arrivals (SimStack [0; 1]%nat [] (fun _ => []) [])
      (init_receive demo_buffers)) = Some [[1; 2]; [4]]) as Hout by (vm_compute; reflexivity).
    rewrite E in Hout. cbn in Hout. congruence.
Defined.

(** ** Output *)

(** A packet: a chain of buffers and the length it claims. *)
Record packet := Packet { tot_len : nat; segments : list bytes }.

(** [pbuf_copy_partial] from offset 0 into the frame: what it copies. *)
Definition pbuf_copy_partial (p : packet) (n : nat) : bytes := take n (concat (segments p)).

Definition networkInterface_Output (transmitFrame : bytes) (r : ring) (packet : option packet) : bytes * ring * err_t :=
  match packet with
  | None => (transmitFrame, r, ERR_ARG)
  | Some packet =>
      if (NETWORK_INTERFACE_FRAME_SIZE <? tot_len packet)%nat then (transmitFrame, r, ERR_ARG) else
      let copied := pbuf_copy_partial packet (tot_len packet) in
      let transmitFrame := copied ++ drop (length copied) transmitFrame in
      if negb (length copied =? tot_len packet)%nat then (transmitFrame, r, ERR_IF) else
      let '(r, status) := EthernetMac_Transmit r (Some (take (tot_len packet) transmitFrame)) in
      (transmitFrame, r, if decide (status = ETHERNET_STATUS_OK) then ERR_OK else ERR_IF)
  end.

(** A packet whose length is the sum of its segments is queued as one frame,
    unless the ring is full. *)
Lemma output_queues frame r q p :
  tx_queue r q -> length frame = NETWORK_INTERFACE_FRAME_SIZE -> tot_len p = length (concat (segments p)) ->
  sendable (concat (segments p)) ->
  exists frame' r', networkInterface_Output frame r (Some p) = (frame', r', if decide (length q = 8%nat) then ERR_IF else ERR_OK)
    /\ length frame' = NETWORK_INTERFACE_FRAME_SIZE
    /\ tx_queue r' (if decide (length q = 8%nat) then q else q ++ [concat (segments p)]).
Proof.
  intros Hq Hf Hp Hs. unfold networkInterface_Output, NETWORK_INTERFACE_FRAME_SIZE in *. pose proof Hs as [_ Hle].
  unfold ETHERNET_BUFFER_SIZE in Hle. rewrite (proj2 (Nat.ltb_ge _ _)) by lia. unfold pbuf_copy_partial.
  rewrite Hp, (take_ge (concat (segments p)) (length _)) by lia. rewrite Nat.eqb_refl. cbn [negb].
  rewrite take_app_length. pose proof (tx_transmit r q (concat (segments p)) Hq Hs) as Ht.
  destruct (decide (length q = 8%nat)).
  - rewrite Ht. eexists _, _. split; [reflexivity|]. split; [|exact Hq]. rewrite length_app, length_drop. lia.
  - destruct Ht as (r' & -> & Hq'). eexists _, _. split; [reflexivity|]. split; [|exact Hq']. rewrite length_app, length_drop. lia.
Qed.

(** A packet that does not fit the frame, or whose chain is short, is refused. *)
Lemma output_refused frame r p :
  (NETWORK_INTERFACE_FRAME_SIZE < tot_len p)%nat \/ (length (concat (segments p)) < tot_len p)%nat ->
  (networkInterface_Output frame r (Some p)).1.2 = r /\ (networkInterface_Output frame r (Some p)).2 <> ERR_OK.
Proof.
  intros Hp. unfold networkInterface_Output. destruct (Nat.ltb_spec NETWORK_INTERFACE_FRAME_SIZE (tot_len p)); [done|].
  unfold pbuf_copy_partial. destruct (Nat.eqb_spec (length (take (tot_len p) (concat (segments p)))) (tot_len p)) as [E|]; [|done].
  rewrite length_take in E. lia.
Qed.
