(* ===== verification/NetworkService.v ===== *)
(** [Srv/Src/network_service.c]: the network task and the link, DHCP and
    static-fallback management it runs on the thread of the network stack.

    The interface of lwIP is modelled as far as this code uses it: the flags and
    addresses of [netif.c], and of the DHCP client whether it is off, searching
    or bound; when it binds or loses a lease is an event of the environment.
    Times are the 32-bit millisecond counter of the system. *)
From S2P Require Import Prelude Ethernet EthernetLink NetworkInterface.

Inductive NetworkConfiguration_TypeDef :=
  | NETWORK_CONFIGURATION_NONE
  | NETWORK_CONFIGURATION_DHCP
  | NETWORK_CONFIGURATION_FALLBACK.

#[global] Instance NetworkConfiguration_eq_dec : EqDecision NetworkConfiguration_TypeDef.
Proof. solve_decision. Defined.

Definition NETWORK_LINK_POLL_PERIOD_MS : Z := 100.
Definition NETWORK_DHCP_TIMEOUT_MS : Z := 10000.

(** [IP4_ADDR] *)
Definition ip4 (a b c d : Z) : Z := ((a * 256 + b) * 256 + c) * 256 + d.

(** ** The interface *)

Inductive dhcp_state := DHCP_STATE_OFF | DHCP_SEARCHING | DHCP_STATE_BOUND.

#[global] Instance dhcp_state_eq_dec : EqDecision dhcp_state.
Proof. solve_decision. Defined.

Record netif := Netif {
  hwaddr : Z * Z * Z * Z * Z * Z;
  mtu : Z;
  is_link_up : bool;
  is_up : bool;
  ip_addr : Z;
  netmask : Z;
  gw : Z;
  dhcp : dhcp_state;
  dns_server : Z;
}.

Definition netif_set_addr (n : netif) (a m g : Z) : netif :=
  Netif (hwaddr n) (mtu n) (is_link_up n) (is_up n) a m g (dhcp n) (dns_server n).
Definition dns_setserver (n : netif) (a : Z) : netif :=
  Netif (hwaddr n) (mtu n) (is_link_up n) (is_up n) (ip_addr n) (netmask n) (gw n) (dhcp n) a.
Definition set_flags (n : netif) (link up : bool) : netif :=
  Netif (hwaddr n) (mtu n) link up (ip_addr n) (netmask n) (gw n) (dhcp n) (dns_server n).
Definition set_dhcp (n : netif) (d : dhcp_state) : netif :=
  Netif (hwaddr n) (mtu n) (is_link_up n) (is_up n) (ip_addr n) (netmask n) (gw n) d (dns_server n).

Definition netif_set_up (n : netif) : netif := set_flags n (is_link_up n) true.
Definition netif_set_down (n : netif) : netif := set_flags n (is_link_up n) false.

(** A client that has a lease gives its address back. *)
Definition dhcp_stop (n : netif) : netif :=
  match dhcp n with
  | DHCP_STATE_OFF => n
  | DHCP_SEARCHING => set_dhcp n DHCP_STATE_OFF
  | DHCP_STATE_BOUND => netif_set_addr (set_dhcp n DHCP_STATE_OFF) 0 0 0
  end.

(** [ok]: there was memory for the client and its first message. *)
Definition dhcp_start (n : netif) (ok : bool) : netif * err_t :=
  if negb (is_up n) then (n, ERR_ARG) else
  if ok then (set_dhcp n DHCP_SEARCHING, ERR_OK) else (set_dhcp n DHCP_STATE_OFF, ERR_MEM).

Definition dhcp_supplied_address (n : netif) : bool := bool_decide (dhcp n = DHCP_STATE_BOUND).

Definition dhcp_network_changed_link_up (n : netif) : netif :=
  match dhcp n with DHCP_STATE_OFF => n | _ => set_dhcp n DHCP_SEARCHING end.

(** ** The service *)

Record service := Service {
  networkInterface : netif;
  networkReady : bool;
  linkPollAt : Z;
  dhcpStartedAt : Z;
  activeConfiguration : NetworkConfiguration_TypeDef;
}.

Definition on_netif (f : netif -> netif) (s : service) : service :=
  Service (f (networkInterface s)) (networkReady s) (linkPollAt s) (dhcpStartedAt s) (activeConfiguration s).

Definition NetworkService_IsReady (s : service) : bool := networkReady s.

(** The message it prints aside. *)
Definition networkService_Report (s : service) : service :=
  Service (networkInterface s) (is_link_up (networkInterface s)) (linkPollAt s) (dhcpStartedAt s) (activeConfiguration s).

Definition fallback_address : Z := ip4 192 168 0 50.

Definition networkService_ApplyFallback (s : service) : service :=
  let n := networkInterface s in
  let n := if negb (is_link_up n) then dhcp_stop n else n in
  let n := netif_set_addr n fallback_address (ip4 255 255 255 0) (ip4 192 168 0 1) in
  let n := dns_setserver n (ip4 8 8 8 8) in
  networkService_Report (Service n (networkReady s) (linkPollAt s) (dhcpStartedAt s) NETWORK_CONFIGURATION_FALLBACK).

Definition networkService_StartDhcp (s : service) (now : Z) (ok : bool) : service :=
  let n := dns_setserver (netif_set_addr (networkInterface s) 0 0 0) 0 in
  let '(n, err) := dhcp_start n ok in
  let s := Service n false (linkPollAt s) (u32 now) NETWORK_CONFIGURATION_NONE in
  if bool_decide (err = ERR_OK) then s else networkService_ApplyFallback s.

Definition networkService_LinkChanged (s : service) (now : Z) (ok : bool) : service :=
  if is_link_up (networkInterface s) then networkService_StartDhcp (on_netif netif_set_up s) now ok
  else
    let n := netif_set_down (dhcp_stop (networkInterface s)) in
    Service n false (linkPollAt s) (u32 now) NETWORK_CONFIGURATION_NONE.

(** Both call the link callback when the flag changes. *)
Definition netif_set_link_up (s : service) (now : Z) (ok : bool) : service :=
  let n := networkInterface s in
  if is_link_up n then s
  else networkService_LinkChanged (on_netif (fun n => dhcp_network_changed_link_up (set_flags n true (is_up n))) s) now ok.
Definition netif_set_link_down (s : service) (now : Z) (ok : bool) : service :=
  let n := networkInterface s in
  if is_link_up n then networkService_LinkChanged (on_netif (fun n => set_flags n false (is_up n)) s) now ok else s.

Section Service.
Context {H : Type} `{Peripheral H}.

Definition NetworkInterface_UpdateLink (e : ethernet H) (s : service) (now : Z) (ok : bool) : ethernet H * service * err_t :=
  let '(e, status, linkUp) := EthernetMac_UpdateLink e false in
  if negb (bool_decide (status = ETHERNET_STATUS_OK)) then (e, s, ERR_IF) else
  if linkUp
  then (e, if negb (is_link_up (networkInterface s)) then netif_set_link_up s now ok else s, ERR_OK)
  else (e, if is_link_up (networkInterface s) then netif_set_link_down s now ok else s, ERR_OK).

(** [changedAt] and [now] are the two readings of the clock, [ok] the outcome of
    starting the DHCP client. *)
Definition networkService_CoreProcess (e : ethernet H) (s : service) (changedAt now : Z) (ok : bool) : ethernet H * service :=
  let '(e, s, err) := NetworkInterface_UpdateLink e s changedAt ok in
  if negb (bool_decide (err = ERR_OK)) then (e, s) else
  if negb (is_link_up (networkInterface s)) then (e, s) else
  if dhcp_supplied_address (networkInterface s) then
    (e, if negb (bool_decide (activeConfiguration s = NETWORK_CONFIGURATION_DHCP))
        then networkService_Report (Service (networkInterface s) (networkReady s) (linkPollAt s) (dhcpStartedAt s) NETWORK_CONFIGURATION_DHCP)
        else s)
  else if bool_decide (activeConfiguration s = NETWORK_CONFIGURATION_NONE)
          && (NETWORK_DHCP_TIMEOUT_MS <=? u32 (u32 now - dhcpStartedAt s))
  then (e, networkService_ApplyFallback s)
  else (e, s).

(** [NetworkInterface_Init] *)
Definition NetworkInterface_Init (e : ethernet H) (n : netif) : netif :=
  Netif (EthernetMac_GetAddress e) NETWORK_INTERFACE_MTU false false (ip_addr n) (netmask n) (gw n) (dhcp n) (dns_server n).

(** The interface before it is added. *)
Definition new_netif : netif := Netif (0, 0, 0, 0, 0, 0) 0 false false 0 0 0 DHCP_STATE_OFF 0.

(** [networkService_CoreInit]: [now] is the first reading of the clock,
    [changedAt] the second. *)
Definition networkService_CoreInit (e : ethernet H) (linkPollAt : Z) (now changedAt : Z) (ok : bool) :
    ethernet H * service * err_t :=
  let s := Service (NetworkInterface_Init e new_netif) false linkPollAt (u32 now) NETWORK_CONFIGURATION_NONE in
  let '(e, s, err) := NetworkInterface_UpdateLink e s changedAt ok in
  if negb (bool_decide (err = ERR_OK)) then (e, s, ERR_IF)
  else (e, if negb (is_link_up (networkInterface s)) then on_netif netif_set_down s else s, ERR_OK).

(** The start of [networkService_Task]: [semaphore] is whether the semaphore was
    created, [signalled] whether it was given in time; [None] is the error
    handler. *)
Definition networkService_Task_start (e : ethernet H) (semaphore signalled : bool) (now changedAt : Z) (ok : bool) :
    option (ethernet H * service) :=
  if negb semaphore then None else
  let '(e, s, networkInitResult) := networkService_CoreInit e 0 now changedAt ok in
  if negb signalled || negb (bool_decide (networkInitResult = ERR_OK)) then None else Some (e, s).

(** One round of the task, after the input loop: [posted] is whether the stack
    took the callback. *)
Record round := Round { at_ms : Z; changed_ms : Z; core_ms : Z; posted : bool; dhcp_ok : bool }.

Definition networkService_Poll (e : ethernet H) (s : service) (r : round) : ethernet H * service :=
  if NETWORK_LINK_POLL_PERIOD_MS <=? u32 (u32 (at_ms r) - linkPollAt s) then
    let s := Service (networkInterface s) (networkReady s) (u32 (at_ms r)) (dhcpStartedAt s) (activeConfiguration s) in
    if posted r then networkService_CoreProcess e s (changed_ms r) (core_ms r) (dhcp_ok r) else (e, s)
  else (e, s).

(** The whole body of the loop of [networkService_Task]. *)
Definition networkService_Task_round {L P} `{Lwip L P} (fuel : nat) (env : list (list (arrival * bytes))) (l : L) (e : ethernet H)
    (s : service) (r : round) : option (L * ethernet H * service) :=
  match NetworkInterface_ProcessInput fuel env l (receiving e) with
  | None => None
  | Some (l, rx) =>
      let e := Eth (bus e) (PMC e) (AHB1RSTR e) (MACCR e) (MACFFR e) (MACFCR e) (MACA0HR e) (MACA0LR e) (DMAOMR e)
                 (ethernetPhyAddress e) rx (transmitting e) in
      let '(e, s) := networkService_Poll e s r in Some (l, e, s)
  end.

(** ** Events *)

(** Besides the rounds of the task: the DHCP client gets a lease, or loses it
    (it expired, or the server refused it), and the hardware changes. *)
Inductive net_event :=
  | NetRound (r : round)
  | NetBound (a m g : Z) (dns : option Z)
  | NetLost
  | NetHardware (h : H).

Definition net_step (x : ethernet H * service) (ev : net_event) : ethernet H * service :=
  let '(e, s) := x in
  match ev with
  | NetRound r => networkService_Poll e s r
  | NetBound a m g dns =>
      match dhcp (networkInterface s) with
      | DHCP_STATE_OFF => (e, s)
      | _ => (e, on_netif (fun n => let n := netif_set_addr (set_dhcp n DHCP_STATE_BOUND) a m g in
                                 match dns with Some d => dns_setserver n d | None => n end) s)
      end
  | NetLost =>
      match dhcp (networkInterface s) with
      | DHCP_STATE_OFF => (e, s)
      | _ => (e, on_netif (fun n => netif_set_addr (set_dhcp n DHCP_SEARCHING) 0 0 0) s)
      end
  | NetHardware h => (set_bus e h, s)
  end.

Definition net_run (x : ethernet H * service) (l : list net_event) : ethernet H * service := fold_left net_step l x.

End Service.
Arguments net_event : clear implicits.

(** ** Safety *)

(** Ready means configured, and configured means that the link is up. *)
Record net_inv (s : service) : Prop := {
  ni_ready : networkReady s = bool_decide (activeConfiguration s <> NETWORK_CONFIGURATION_NONE);
  ni_link : networkReady s = true -> is_link_up (networkInterface s) = true;
  ni_up : is_up (networkInterface s) = is_link_up (networkInterface s);
  ni_down : is_link_up (networkInterface s) = false -> dhcp (networkInterface s) = DHCP_STATE_OFF;
}.

(** Ready means that there is an address: the fallback, until a lease replaces it,
    or the lease. *)
Record addressed (s : service) : Prop := {
  ad_fallback : activeConfiguration s = NETWORK_CONFIGURATION_FALLBACK ->
    ip_addr (networkInterface s) = fallback_address \/ dhcp (networkInterface s) = DHCP_STATE_BOUND;
  ad_dhcp : activeConfiguration s = NETWORK_CONFIGURATION_DHCP -> dhcp (networkInterface s) = DHCP_STATE_BOUND;
  ad_bound : dhcp (networkInterface s) = DHCP_STATE_BOUND -> ip_addr (networkInterface s) <> 0;
}.

Lemma addressed_ready s : net_inv s -> addressed s -> networkReady s = true -> ip_addr (networkInterface s) <> 0.
Proof.
  intros [Hr _ _ _] [Hf Hd Hb] H. rewrite Hr, bool_decide_eq_true in H.
  destruct (activeConfiguration s); [done|by auto|]. destruct (Hf eq_refl) as [->|]; [done|by auto].
Qed.

Lemma ready_means s :
  net_inv s -> networkReady s = true ->
  is_link_up (networkInterface s) = true /\ is_up (networkInterface s) = true
  /\ activeConfiguration s <> NETWORK_CONFIGURATION_NONE.
Proof.
  intros [Hr Hl Hu _] H. pose proof (Hl H) as El. split; [done|]. split; [by rewrite Hu|].
  rewrite Hr in H. by apply bool_decide_eq_true in H.
Qed.

Lemma ready_address s :
  addressed s -> activeConfiguration s <> NETWORK_CONFIGURATION_NONE ->
  (dhcp (networkInterface s) = DHCP_STATE_BOUND /\ ip_addr (networkInterface s) <> 0)
  \/ (activeConfiguration s = NETWORK_CONFIGURATION_FALLBACK /\ ip_addr (networkInterface s) = fallback_address).
Proof.
  intros [Hf Hd Hb] H. destruct (activeConfiguration s); [done| |].
  - left. split; [by apply Hd|by apply Hb, Hd].
  - destruct (Hf eq_refl) as [|Hx]; [by right|]. left. split; [done|by apply Hb].
Qed.

(** The fallback, applied while the link is up. *)
Lemma fallback_inv s :
  is_link_up (networkInterface s) = true -> is_up (networkInterface s) = true -> dhcp (networkInterface s) <> DHCP_STATE_BOUND ->
  net_inv (networkService_ApplyFallback s) /\ addressed (networkService_ApplyFallback s)
  /\ networkReady (networkService_ApplyFallback s) = true.
Proof.
  intros Hl Hu Hd. unfold networkService_ApplyFallback. rewrite Hl. cbn [negb].
  split; [|split; [|exact Hl]]; split; cbn; rewrite ?Hl; try done; try congruence; by left.
Qed.

(** A link that came up: searching for a lease, or already on the fallback. *)
Lemma link_up_inv s now ok :
  is_link_up (networkInterface s) = false -> dhcp (networkInterface s) = DHCP_STATE_OFF ->
  let s' := netif_set_link_up s now ok in
  net_inv s' /\ addressed s' /\ is_link_up (networkInterface s') = true /\ dhcp (networkInterface s') <> DHCP_STATE_BOUND
  /\ linkPollAt s' = linkPollAt s /\ dhcpStartedAt s' = u32 now /\ networkReady s' = negb ok.
Proof.
  intros Hl Hd. destruct s as [[hw m lk u ip nm g d dn] rdy lp ds ac]. cbn in Hl, Hd. subst lk d.
  destruct ok; (split; [by split|]); (split; [by split; auto|]); done.
Qed.

(** A link that went down. *)
Lemma link_down_inv s now ok :
  is_link_up (networkInterface s) = true ->
  let s' := netif_set_link_down s now ok in
  net_inv s' /\ addressed s' /\ networkReady s' = false /\ is_link_up (networkInterface s') = false
  /\ linkPollAt s' = linkPollAt s.
Proof.
  intros Hl. destruct s as [[hw m lk u ip nm g d dn] rdy lp ds ac]. cbn in Hl. subst lk.
  destruct d; (split; [by split|]); (split; [by split|]); done.
Qed.

Section Safety.
Context {H : Type} `{Peripheral H}.
Implicit Types (e : ethernet H) (s : service).

(** What a poll of the link does to the service. *)
Lemma update_link_cases e s now ok e' s' err :
  net_inv s -> NetworkInterface_UpdateLink e s now ok = (e', s', err) ->
  s' = s \/ (is_link_up (networkInterface s) = false /\ s' = netif_set_link_up s now ok)
  \/ (is_link_up (networkInterface s) = true /\ s' = netif_set_link_down s now ok).
Proof.
  intros _. unfold NetworkInterface_UpdateLink. destruct (EthernetMac_UpdateLink e false) as [[e1 st] up].
  destruct (bool_decide (st = ETHERNET_STATUS_OK)); cbn [negb]; [|intros [= _ <- _]; by left].
  destruct up, (is_link_up (networkInterface s)) eqn:El; cbn [negb]; intros [= _ <- _]; auto.
Qed.

Lemma update_link_inv e s now ok e' s' err :
  net_inv s -> NetworkInterface_UpdateLink e s now ok = (e', s', err) ->
  net_inv s' /\ (addressed s -> addressed s') /\ linkPollAt s' = linkPollAt s.
Proof.
  intros Hi E. destruct (update_link_cases _ _ _ _ _ _ _ Hi E) as [->|[[Hl ->]|[Hl ->]]].
  - done.
  - destruct (link_up_inv s now ok Hl (ni_down s Hi Hl)) as (? & ? & _ & _ & ? & _). done.
  - destruct (link_down_inv s now ok Hl) as (? & ? & _ & _ & ?). done.
Qed.

Lemma core_process_inv e s t1 t2 ok :
  net_inv s ->
  let '(_, s') := networkService_CoreProcess e s t1 t2 ok in net_inv s' /\ (addressed s -> addressed s') /\ linkPollAt s' = linkPollAt s.
Proof.
  intros Hi. unfold networkService_CoreProcess. destruct (NetworkInterface_UpdateLink e s t1 ok) as [[e1 s1] err] eqn:E.
  destruct (update_link_inv _ _ _ _ _ _ _ Hi E) as (Hi1 & Ha1 & Hp1).
  destruct (bool_decide (err = ERR_OK)); cbn [negb]; [|done].
  destruct (is_link_up (networkInterface s1)) eqn:El; cbn [negb]; [|done].
  unfold dhcp_supplied_address. case_bool_decide as Eb.
  - case_bool_decide as Ec; cbn [negb]; [done|]. destruct Hi1 as [Hr Hl Hu Hd].
    split; [|split; [|done]]; [split; cbn; rewrite ?El; try done; congruence|].
    intros [Hf Hdh Hb]%Ha1. split; cbn; [done|done|exact Hb].
  - destruct (_ && _); [|done]. destruct (fallback_inv s1 El) as (? & ? & _); [by rewrite (ni_up _ Hi1)|done|].
    by split; [|split].
Qed.

Lemma poll_inv e s r :
  net_inv s -> let '(_, s') := networkService_Poll e s r in net_inv s' /\ (addressed s -> addressed s').
Proof.
  intros Hi. unfold networkService_Poll. destruct (_ <=? _); [|done].
  set (s1 := Service _ _ _ _ _). assert (net_inv s1) as Hi1 by (by destruct Hi).
  assert (addressed s -> addressed s1) as Ha1 by (by intros []). clearbody s1. destruct (posted r); [|done].
  pose proof (core_process_inv e s1 (changed_ms r) (core_ms r) (dhcp_ok r) Hi1) as Hc.
  destruct (networkService_CoreProcess _ _ _ _ _) as [e' s']. destruct Hc as (? & ? & _). auto.
Qed.

(** The events of a network whose leases have an address and are not lost. *)
Definition keeps_leases (ev : net_event H) : Prop :=
  match ev with NetBound a _ _ _ => a <> 0 | NetLost => False | _ => True end.

Lemma net_step_inv e s ev :
  net_inv s -> let '(_, s') := net_step (e, s) ev in net_inv s' /\ (keeps_leases ev -> addressed s -> addressed s').
Proof.
  intros Hi. destruct ev as [r|a m g dns| |h]; cbn [net_step].
  - pose proof (poll_inv e s r Hi) as Hp. destruct (networkService_Poll e s r). by destruct Hp.
  - destruct (dhcp (networkInterface s)) eqn:Ed; [done| |];
      (split; [|intros Ha [Hf Hdh Hb]; split; destruct dns; cbn; by auto]); destruct Hi as [Hr Hl Hu Hd];
      split; destruct dns; cbn; try done; intros Hdown; by rewrite (Hd Hdown) in Ed.
  - destruct (dhcp (networkInterface s)) eqn:Ed; [done| |]; (split; [|done]); destruct Hi as [Hr Hl Hu Hd];
      split; cbn; try done; intros Hdown; by rewrite (Hd Hdown) in Ed.
  - done.
Qed.

Lemma net_run_inv l : forall e s,
  net_inv s -> let '(_, s') := net_run (e, s) l in net_inv s' /\ (Forall keeps_leases l -> addressed s -> addressed s').
Proof.
  induction l as [|ev l IH]; intros e s Hi; [done|]. unfold net_run. cbn [fold_left].
  pose proof (net_step_inv e s ev Hi) as Hs. destruct (net_step (e, s) ev) as [e1 s1]. destruct Hs as [Hi1 Ha1].
  specialize (IH e1 s1 Hi1). fold (net_run (e1, s1) l). destruct (net_run (e1, s1) l) as [e2 s2]. destruct IH as [Hi2 Ha2].
  split; [done|]. intros [Hev Hl]%list.Forall_cons Ha. auto.
Qed.

Lemma core_init_inv e p t1 t2 ok e' s err :
  networkService_CoreInit e p t1 t2 ok = (e', s, err) -> err = ERR_OK -> net_inv s /\ addressed s.
Proof.
  unfold networkService_CoreInit. set (s0 := Service _ _ _ _ _). assert (net_inv s0) as Hi0 by done.
  assert (addressed s0) as Ha0 by done. clearbody s0.
  destruct (NetworkInterface_UpdateLink e s0 t2 ok) as [[e1 s1] er] eqn:E.
  destruct (update_link_inv _ _ _ _ _ _ _ Hi0 E) as (Hi1 & Ha1 & _).
  destruct (bool_decide (er = ERR_OK)); cbn [negb]; intros [= <- <- <-]; [|done]. intros _.
  destruct (is_link_up (networkInterface s1)) eqn:El; cbn [negb]; [by auto|].
  specialize (Ha1 Ha0). destruct Hi1 as [Hr Hl Hu Hd], Ha1 as [Hf Hdh Hb].
  split; split; cbn; try done; by rewrite El.
Qed.

(** After the network was initialised, whatever the link, the DHCP server and the
    clock do: the service reports ready only while the link is up, the interface is
    up and a configuration is active; a link that is down is never reported ready;
    and as long as no lease is lost, ready means that the interface has an address. *)
Lemma network_ready_means_configured e p t1 t2 ok e0 s0 l e' s' :
  networkService_CoreInit e p t1 t2 ok = (e0, s0, ERR_OK) -> net_run (e0, s0) l = (e', s') ->
  (NetworkService_IsReady s' = true -> is_link_up (networkInterface s') = true /\ is_up (networkInterface s') = true
     /\ activeConfiguration s' <> NETWORK_CONFIGURATION_NONE)
  /\ (Forall keeps_leases l -> NetworkService_IsReady s' = true -> ip_addr (networkInterface s') <> 0).
Proof.
  intros E0 El. destruct (core_init_inv _ _ _ _ _ _ _ _ E0 eq_refl) as [Hi Ha].
  pose proof (net_run_inv l e0 s0 Hi) as Hrun. rewrite El in Hrun. destruct Hrun as [Hi' Ha'].
  split; [by apply ready_means|intros Hk; apply addressed_ready; auto].
Qed.

End Safety.

(** ** Liveness *)

Section Liveness.
Context {H : Type} `{Peripheral H} (address : Z) `{!PhyLaws H address}.
Implicit Types (e : ethernet H) (s : service).

(** The PHY answers, and its link is up and negotiated. *)
Record steady e : Prop := {
  st_rest : at_rest (bus e);
  st_address : ethernetPhyAddress e = address;
  st_link : link (the_phy (bus e)) = true;
  st_negotiated : negotiated (the_phy (bus e)) = true;
  st_mode : mode_known (mode (the_phy (bus e))) <> None;
}.

Lemma steady_update e up0 : steady e -> exists e', EthernetMac_UpdateLink e up0 = (e', ETHERNET_STATUS_OK, true) /\ steady e'.
Proof.
  intros [Hr Ha Hl Hn Hm]. destruct (follow_link address e up0 Hr Ha) as (e' & st & up & E & Hr' & Hp & _ & _ & Ha' & Hst).
  rewrite Hl, Hn in Hst. cbn [andb] in Hst. destruct (mode_known (mode (the_phy (bus e)))) as [[fd hs]|] eqn:Em; [|done].
  destruct Hst as (-> & -> & _). exists e'. split; [done|]. split; rewrite ?Hp; cbn; try done. by rewrite Em.
Qed.

(** One run of the callback over a steady link. *)
Lemma core_process_steady e s t1 t2 ok :
  steady e -> net_inv s ->
  let '(e', s') := networkService_CoreProcess e s t1 t2 ok in
  steady e' /\ is_link_up (networkInterface s') = true
  /\ (networkReady s' = true
      \/ (networkReady s = false /\ dhcpStartedAt s' = (if is_link_up (networkInterface s) then dhcpStartedAt s else u32 t1)
          /\ u32 (u32 t2 - dhcpStartedAt s') < NETWORK_DHCP_TIMEOUT_MS)).
Proof.
  intros He Hi. unfold networkService_CoreProcess, NetworkInterface_UpdateLink.
  destruct (steady_update e false He) as (e' & -> & He'). rewrite bool_decide_eq_true_2 by done. cbn [negb].
  set (s1 := if negb (is_link_up (networkInterface s)) then netif_set_link_up s t1 ok else s).
  assert (is_link_up (networkInterface s1) = true /\ net_inv s1
    /\ (networkReady s1 = true \/ networkReady s = false
        /\ dhcpStartedAt s1 = (if is_link_up (networkInterface s) then dhcpStartedAt s else u32 t1))) as (Hl1 & Hi1 & Hs1).
  { subst s1. destruct (is_link_up (networkInterface s)) eqn:El; cbn [negb].
    - split; [done|]. split; [done|]. destruct (networkReady s); auto.
    - destruct (link_up_inv s t1 ok El (ni_down s Hi El)) as (? & _ & ? & _ & _ & ? & _). split; [done|]. split; [done|].
      right. split; [|done]. destruct (networkReady s) eqn:Er; [|done]. by rewrite (ni_link s Hi Er) in El. }
  clearbody s1. rewrite bool_decide_eq_true_2 by done. rewrite Hl1. cbn [negb]. unfold dhcp_supplied_address.
  case_bool_decide as Eb.
  - case_bool_decide as Ec; cbn [negb]; (split; [done|]).
    + split; [done|]. left. by rewrite (ni_ready s1 Hi1), Ec.
    + split; [done|]. by left.
  - destruct (fallback_inv s1 Hl1) as (Hif & _ & Hfb); [by rewrite (ni_up _ Hi1)|done|].
    case_bool_decide as Ec; cbn [andb].
    + destruct (Z.leb_spec NETWORK_DHCP_TIMEOUT_MS (u32 (u32 t2 - dhcpStartedAt s1))).
      * split; [done|]. split; [exact (ni_link _ Hif Hfb)|]. by left.
      * split; [done|]. split; [done|]. destruct Hs1 as [Hs1|[Hs1 Hs2]]; [by left|]. by right.
    + split; [done|]. split; [done|]. left. rewrite (ni_ready s1 Hi1). by apply bool_decide_eq_true.
Qed.

(** Rounds at most [D] milliseconds apart, each done within [D], all taken by the
    stack, with leases coming and going in between.  The times are those of the
    real clock, of which the code sees the low 32 bits. *)
Fixpoint paced (D t : Z) (l : list (net_event H)) : Prop :=
  match l with
  | [] => True
  | NetRound r :: l =>
      t <= at_ms r <= t + D /\ at_ms r <= changed_ms r <= core_ms r /\ core_ms r <= at_ms r + D /\ posted r = true
      /\ paced D (at_ms r) l
  | NetHardware _ :: _ => False
  | _ :: l => paced D t l
  end.

(** The time of the last round. *)
Fixpoint last_time (t : Z) (l : list (net_event H)) : Z :=
  match l with
  | [] => t
  | NetRound r :: l => last_time (at_ms r) l
  | _ :: l => last_time t l
  end.

(** What holds at time [t] of a run that began at [t0] over a steady link: the
    link is polled every hundred milliseconds; from the first poll on it is up;
    then, unless the network is ready, the last poll was less than ten seconds
    after the search for a lease began. *)
Definition waiting (D t0 t : Z) s : Prop :=
  exists p, linkPollAt s = u32 p /\ p <= t /\ (t - p < 100 \/ (t = t0 /\ t - p < 2 ^ 31))
    /\ (networkReady s = true
        \/ (is_link_up (networkInterface s) = false /\ p <= t0)
        \/ (is_link_up (networkInterface s) = true
            /\ exists a, dhcpStartedAt s = u32 a /\ t0 - 2 ^ 31 < a /\ a <= t0 + 100 + 2 * D /\ (p <= t0 \/ p - a < 10000))).

Lemma elapsed a b : 0 <= b - a < 2 ^ 32 -> u32 (u32 b - u32 a) = b - a.
Proof. intros Hab. unfold u32. rewrite <-Zminus_mod. by apply Z.mod_small. Qed.

Lemma waiting_round D t0 t e s r e' s' :
  0 <= D <= 1000 -> t0 <= t -> t - t0 < 2 ^ 30 -> steady e -> net_inv s -> waiting D t0 t s ->
  t <= at_ms r <= t + D -> at_ms r <= changed_ms r <= core_ms r -> core_ms r <= at_ms r + D -> posted r = true ->
  networkService_Poll e s r = (e', s') -> steady e' /\ net_inv s' /\ waiting D t0 (at_ms r) s'.
Proof.
  intros HD Ht0 H30 He Hi (p & Ep & Hp & Hpt & Hw) Hat Hch Hcore Hpost E.
  pose proof (poll_inv e s r Hi) as Hi'. rewrite E in Hi'. destruct Hi' as [Hi' _]. revert E. unfold networkService_Poll.
  rewrite Ep, elapsed by lia. unfold NETWORK_LINK_POLL_PERIOD_MS. destruct (Z.leb_spec 100 (at_ms r - p)) as [Hge|Hlt].
  - rewrite Hpost. set (s1 := Service _ _ _ _ _). assert (net_inv s1) as Hi1 by (by destruct Hi). intros E.
    pose proof (core_process_steady e s1 (changed_ms r) (core_ms r) (dhcp_ok r) He Hi1) as Hc. rewrite E in Hc.
    pose proof (core_process_inv e s1 (changed_ms r) (core_ms r) (dhcp_ok r) Hi1) as Hpoll. rewrite E in Hpoll.
    destruct Hc as (He' & Hl' & Hc), Hpoll as (_ & _ & Hpoll). subst s1. cbn [linkPollAt networkInterface networkReady dhcpStartedAt] in *.
    split; [done|]. split; [done|]. exists (at_ms r). split; [done|]. split; [lia|]. split; [left; lia|].
    destruct Hc as [Hc|(Hr & Ha & Hto)]; [by left|]. right. right. split; [done|]. rewrite Ha in Hto |- *.
    unfold NETWORK_DHCP_TIMEOUT_MS in Hto. destruct Hw as [Hw|[[Hl Hp0]|(Hl & a & Ea & Ha1 & Ha2 & _)]]; [congruence| |].
    + rewrite Hl in Hto |- *. exists (changed_ms r). split; [done|]. split; [lia|]. split; [lia|]. right. lia.
    + rewrite Hl in Hto |- *. exists a. split; [done|]. split; [done|]. split; [done|]. right.
      destruct (decide (core_ms r < a)); [lia|]. rewrite Ea, elapsed in Hto by lia. lia.
  - intros [= <- <-]. split; [done|]. split; [done|]. exists p. split; [done|]. split; [lia|]. split; [left; lia|]. done.
Qed.

Lemma waiting_event D t0 t e s ev e' s' :
  steady e -> net_inv s -> waiting D t0 t s ->
  match ev with NetRound _ | NetHardware _ => False | _ => True end ->
  net_step (e, s) ev = (e', s') -> steady e' /\ net_inv s' /\ waiting D t0 t s'.
Proof.
  intros He Hi Hw Hev E. pose proof (net_step_inv e s ev Hi) as Hi'. rewrite E in Hi'. destruct Hi' as [Hi' _].
  destruct ev as [r|a m g dns| |h]; try done; cbn [net_step] in E;
    destruct (dhcp (networkInterface s)); injection E as <- <-; try destruct dns; done.
Qed.

Lemma waiting_run D t0 l : forall t e s e' s',
  0 <= D <= 1000 -> t0 <= t -> steady e -> net_inv s -> waiting D t0 t s -> paced D t l -> last_time t l - t0 < 2 ^ 30 ->
  net_run (e, s) l = (e', s') -> net_inv s' /\ waiting D t0 (last_time t l) s'.
Proof.
  induction l as [|ev l IH]; intros t e s e' s' HD Ht He Hi Hw Hp H30 E; [by injection E as <- <-|].
  unfold net_run in E. cbn [fold_left] in E. destruct (net_step (e, s) ev) as [e1 s1] eqn:E1.
  fold (net_run (e1, s1) l) in E.
  destruct ev as [r|a m g dns| |h]; cbn [paced last_time] in Hp, H30 |- *; [| | |done].
  - destruct Hp as (Hat & Hch & Hco & Hpo & Hp).
    assert (forall u m, paced D u m -> 0 <= D -> u <= last_time u m) as Hmono.
    { intros u m. revert u. induction m as [|[]]; intros u Hm Hd; cbn [paced last_time] in *; try done; try lia; auto.
      destruct Hm as (? & ? & ? & ? & Hm). specialize (IHm _ Hm Hd). lia. }
    pose proof (Hmono _ _ Hp ltac:(lia)).
    destruct (waiting_round D t0 t e s r e1 s1) as (He1 & Hi1 & Hw1); try done; [lia|].
    apply (IH (at_ms r) e1 s1 e' s'); try done. lia.
  - destruct (waiting_event D t0 t e s (NetBound a m g dns) e1 s1 He Hi Hw I E1) as (He1 & Hi1 & Hw1). by apply (IH t e1 s1 e' s').
  - destruct (waiting_event D t0 t e s NetLost e1 s1 He Hi Hw I E1) as (He1 & Hi1 & Hw1). by apply (IH t e1 s1 e' s').
Qed.

(** C33. The network becomes ready: from any state the service can be in, over a PHY
    that keeps a negotiated link, and whether or not a DHCP server answers or takes
    its leases back, the service reports ready after at most ten seconds, two
    polling periods of 100 ms and twice the jitter of the task, also across a wrap
    of the millisecond counter, and then the interface and its link are up and a
    configuration is active.  If moreover no lease was lost on the way (a lost one
    leaves the service ready without an address, [lost_lease_stays_ready]), the
    interface has the address of a lease, or the service is on the fallback
    configuration with the fallback address. *)
Theorem network_becomes_ready D t0 p a e s l e' s' :
  0 <= D <= 1000 -> steady e -> net_inv s ->
  linkPollAt s = u32 p -> p <= t0 < p + 2 ^ 31 -> dhcpStartedAt s = u32 a -> a <= t0 < a + 2 ^ 31 ->
  paced D t0 l -> 10200 + 2 * D <= last_time t0 l - t0 < 2 ^ 30 ->
  net_run (e, s) l = (e', s') ->
  NetworkService_IsReady s' = true /\ is_link_up (networkInterface s') = true /\ is_up (networkInterface s') = true
  /\ activeConfiguration s' <> NETWORK_CONFIGURATION_NONE
  /\ (addressed s -> Forall keeps_leases l ->
      (dhcp (networkInterface s') = DHCP_STATE_BOUND /\ ip_addr (networkInterface s') <> 0)
      \/ (activeConfiguration s' = NETWORK_CONFIGURATION_FALLBACK /\ ip_addr (networkInterface s') = fallback_address)).
Proof.
  intros HD He Hi Ep Hp Ea Ha Hl Ht E.
  assert (waiting D t0 t0 s) as Hw.
  { exists p. split; [done|]. split; [lia|]. split; [right; lia|]. destruct (is_link_up (networkInterface s)) eqn:El.
    - right. right. split; [done|]. exists a. split; [done|]. split; [lia|]. split; [lia|]. left. lia.
    - right. left. split; [done|lia]. }
  destruct (waiting_run D t0 l t0 e s e' s' HD ltac:(lia) He Hi Hw Hl ltac:(lia) E) as (_ & q & _ & Hq & Hqt & Hend).
  assert (networkReady s' = true) as Hr by (destruct Hend as [?|[[_ Hq0]|(_ & b & _ & _ & Hb & Hqb)]]; [done|lia|lia]).
  pose proof (net_run_inv l e s Hi) as Hrun. rewrite E in Hrun. destruct Hrun as [Hi' Ha'].
  pose proof (ready_means s' Hi' Hr) as (H1 & H2 & H3). do 4 (split; [done|]).
  intros Had Hk. by apply ready_address; auto.
Qed.

End Liveness.

(** ** A lease that is lost *)

(** The service stays ready: nothing looks at the address again while the link is
    up, and the fallback is not applied. *)
Lemma lost_lease_stays_ready {H} `{Peripheral H} address `{!PhyLaws H address} (e : ethernet H) s r :
  steady address e -> net_inv s -> activeConfiguration s = NETWORK_CONFIGURATION_DHCP -> dhcp (networkInterface s) <> DHCP_STATE_OFF ->
  let '(_, s') := net_run (e, s) [NetLost; NetRound r] in
  networkReady s' = true /\ ip_addr (networkInterface s') = 0 /\ activeConfiguration s' = NETWORK_CONFIGURATION_DHCP.
Proof.
  intros He Hi Ha Hd. assert (networkReady s = true) as Hr by (by rewrite (ni_ready s Hi), Ha).
  pose proof (ni_link s Hi Hr) as Hl. destruct s as [[hw m lk u ip nm g d dn] rdy lp ds ac]. cbn in Ha, Hd, Hr, Hl. subst lk rdy ac.
  unfold net_run. cbn [fold_left net_step networkInterface dhcp]. destruct d; [done| |];
    (cbn [net_step]; unfold networkService_Poll; cbn [on_netif linkPollAt networkInterface];
     destruct (_ <=? _); [|done]; destruct (posted r); [|done];
     unfold networkService_CoreProcess, NetworkInterface_UpdateLink; destruct (steady_update address e false He) as (e' & -> & _);
     done).
Qed.

(** ** Examples *)

(** Rounds a hundred milliseconds apart. *)
Fixpoint rounds (n : nat) (t : Z) : list (net_event sim_phy) :=
  match n with
  | O => []
  | S n => NetRound (Round (t + 100) (t + 101) (t + 102) true true) :: rounds n (t + 100)
  end.

Lemma rounds_paced n : forall t, paced 100 t (rounds n t).
Proof. induction n as [|n IH]; intros t; cbn [rounds paced]; [done|]. cbn. split; [lia|]. split; [lia|]. split; [lia|]. by split. Qed.

Lemma rounds_keep n : forall t, Forall keeps_leases (rounds n t).
Proof. induction n as [|n IH]; intros t; cbn [rounds]; constructor; [done|apply IH]. Qed.

Lemma rounds_last n : forall t, last_time t (rounds n t) = t + 100 * Z.of_nat n.
Proof. induction n as [|n IH]; intros t; cbn [rounds last_time]; [lia|]. cbn [at_ms]. rewrite IH. lia. Qed.

(** Five seconds before the millisecond counter wraps, the link still down. *)
Definition demo_start : Z := 2 ^ 32 - 5000.
Definition demo_service : service :=
  Service (NetworkInterface_Init demo_mac new_netif) false (u32 demo_start) (u32 demo_start) NETWORK_CONFIGURATION_NONE.

Lemma network_becomes_ready_witness :
  exists e' s', net_run (demo_mac, demo_service) (rounds 105 demo_start) = (e', s') /\ NetworkService_IsReady s' = true
    /\ ip_addr (networkInterface s') <> 0.
Proof.
  destruct (net_run (demo_mac, demo_service) (rounds 105 demo_start)) as [e' s'] eqn:E. exists e', s'. split; [reflexivity|].
  refine ((fun H => conj (proj1 H) _) (network_becomes_ready 0 100 demo_start demo_start demo_start demo_mac demo_service
    (rounds 105 demo_start) e' s' _ _ _ eq_refl _ eq_refl _ (rounds_paced _ _) _ E)).
  { destruct H as (_ & _ & _ & _ & Hx). destruct Hx as [[_ Hx]|[_ ->]]; [by split|by apply rounds_keep|exact Hx|done]. }
  - lia.
  - by split; [exact demo_at_rest|..].
  - by split.
  - unfold demo_start. lia.
  - unfold demo_start. lia.
  - rewrite rounds_last. unfold demo_start. lia.
Defined.

(** A lease comes three rounds after the link. *)
Definition demo_events : list (net_event sim_phy) :=
  rounds 3 1000 ++ [NetBound (ip4 10 0 0 7) (ip4 255 0 0 0) (ip4 10 0 0 1) None] ++ rounds 2 1300.

Lemma network_ready_means_configured_witness :
  exists e0 s0 e' s', networkService_CoreInit demo_mac 0 900 901 true = (e0, s0, ERR_OK) /\ net_run (e0, s0) demo_events = (e', s')
    /\ NetworkService_IsReady s' = true /\ is_link_up (networkInterface s') = true /\ ip_addr (networkInterface s') <> 0.
Proof.
  destruct (networkService_CoreInit demo_mac 0 900 901 true) as [[e0 s0] err] eqn:E0.
  assert ((networkService_CoreInit demo_mac 0 900 901 true).2 = ERR_OK) as He by (vm_compute; reflexivity).
  rewrite E0 in He. cbn in He. subst err. destruct (net_run (e0, s0) demo_events) as [e' s'] eqn:E. exists e0, s0, e', s'.
  assert (NetworkService_IsReady (net_run (networkService_CoreInit demo_mac 0 900 901 true).1 demo_events).2 = true) as Hr
    by (vm_compute; reflexivity).
  rewrite E0 in Hr. cbn [fst] in Hr. rewrite E in Hr. cbn [snd] in Hr.
  destruct (network_ready_means_configured demo_mac 0 900 901 true e0 s0 demo_events e' s' E0 E) as [H1 H2].
  split; [reflexivity|]. split; [exact E|]. split; [exact Hr|]. split; [apply H1; exact Hr|]. apply H2; [|exact Hr].
  unfold demo_events, keeps_leases. repeat constructor. vm_compute. discriminate.
Defined.
