(* ===== verification/TlsPlatform.v ===== *)
(** [TLS/Src/tls_platform.c]: entropy, time and the lock of the cryptographic
    library.

    The random-number generator and the tick counter are behind an interface: a
    read of a register takes time, and time passes while the code polls.  Under
    the laws of such a clock the polling ends, and a buffer is filled completely
    or the call fails. *)
From S2P Require Import Prelude NorFlash TimeService.

Definition TLS_PLATFORM_RNG_TIMEOUT_MS : Z := 100.
Definition RNG_SR_DRDY : Z := 1.
Definition RNG_SR_CECS : Z := 2.
Definition RNG_SR_SECS : Z := 4.

(** The status and data registers of the generator, and [xTaskGetTickCount]. *)
Class Rng (G : Type) := {
  rng_sr : G -> G * Z;
  rng_dr : G -> G * Z;
  rng_tick : G -> G * Z;
}.

Section Platform.
Context {G : Type} `{Rng G}.

(** The loop of [tlsPlatform_ReadRandom]: [None] when [fuel] rounds were not
    enough, [Some (_, None)] on an error.  The status register is read twice. *)
Fixpoint read_random_loop (fuel : nat) (g : G) (started : Z) : option (G * option Z) :=
  match fuel with
  | O => None
  | S fuel =>
      let '(g, sr) := rng_sr g in
      if negb (Z.land sr RNG_SR_DRDY =? 0) then let '(g, v) := rng_dr g in Some (g, Some v) else
      let '(g, sr) := rng_sr g in
      if negb (Z.land sr (Z.lor RNG_SR_CECS RNG_SR_SECS) =? 0) then Some (g, None) else
      let '(g, tick) := rng_tick g in
      if TLS_PLATFORM_RNG_TIMEOUT_MS <=? u32 (TimeService_GetUptimeMs tick - started) then Some (g, None) else
      read_random_loop fuel g started
  end.

Definition tlsPlatform_ReadRandom (fuel : nat) (g : G) : option (G * option Z) :=
  let '(g, tick) := rng_tick g in read_random_loop fuel g (TimeService_GetUptimeMs tick).

(** The loop of [mbedtls_hardware_poll] from [offset] on: the bytes written and
    whether all were; [words] bounds the number of words. *)
Fixpoint hardware_poll_loop (words fuel : nat) (g : G) (offset length : nat) : option (G * bytes * bool) :=
  match words with
  | O => Some (g, [], (length <=? offset)%nat)
  | S words =>
      if (length <=? offset)%nat then Some (g, [], true) else
      match tlsPlatform_ReadRandom fuel g with
      | None => None
      | Some (g, None) => Some (g, [], false)
      | Some (g, Some randomValue) =>
          let chunk := Nat.min (length - offset) 4 in
          match hardware_poll_loop words fuel g (offset + chunk) length with
          | None => None
          | Some (g, rest, all) => Some (g, take chunk (le_enc 4 randomValue) ++ rest, all)
          end
      end
  end.

(** [mbedtls_hardware_poll] into a buffer: the buffer, how much was written and
    whether the result is zero. *)
Definition mbedtls_hardware_poll (fuel : nat) (g : G) (output : option bytes) (n : nat) :
    option (G * option bytes * nat * bool) :=
  match output with
  | None => Some (g, None, 0%nat, false)
  | Some buf =>
      match hardware_poll_loop n fuel g 0 n with
      | None => None
      | Some (g, written, all) => Some (g, Some (written ++ drop (length written) buf), length written, all)
      end
  end.

(** ** The lock *)

(** [cryptoMutex]: how often its holder took it, once created. *)
Definition TlsPlatform_Lock (m : option nat) (granted : bool) : option nat * bool :=
  match m with
  | None => (m, false)
  | Some d => if granted then (Some (S d), true) else (m, false)
  end.
Definition TlsPlatform_Unlock (m : option nat) : option nat :=
  match m with None => None | Some d => Some (pred d) end.

Definition TlsPlatform_Random (fuel : nat) (g : G) (m : option nat) (granted : bool) (output : option bytes) (n : nat) :
    option (G * option nat * option bytes * HealthCheck_StatusTypeDef) :=
  if bool_decide (output = None) && negb (n =? 0)%nat then Some (g, m, output, HEALTH_CHECK_STATUS_ERROR) else
  let '(m, locked) := TlsPlatform_Lock m granted in
  if negb locked then Some (g, m, output, HEALTH_CHECK_STATUS_ERROR) else
  match mbedtls_hardware_poll fuel g output n with
  | None => None
  | Some (g, output, generated, ok) =>
      Some (g, TlsPlatform_Unlock m, output, if ok && (generated =? n)%nat then HEALTH_CHECK_STATUS_OK else HEALTH_CHECK_STATUS_ERROR)
  end.

(** ** Start and time *)

(** [created], [set_time] and [psa] are the outcomes of the calls into the kernel
    and the library.  The result is the mutex, the seed given to the C library and
    the status. *)
Definition TlsPlatform_Init (fuel : nat) (g : G) (created set_time psa : bool) :
    option (G * option nat * option Z * HealthCheck_StatusTypeDef) :=
  if negb created then Some (g, None, None, HEALTH_CHECK_STATUS_ERROR) else
  match tlsPlatform_ReadRandom fuel g with
  | None => None
  | Some (g, None) => Some (g, Some 0%nat, None, HEALTH_CHECK_STATUS_ERROR)
  | Some (g, Some randomSeed) =>
      Some (g, Some 0%nat, Some randomSeed,
        if negb set_time then HEALTH_CHECK_STATUS_ERROR else if negb psa then HEALTH_CHECK_STATUS_ERROR else HEALTH_CHECK_STATUS_OK)
  end.

(** The value returned and what is stored, if anything. *)
Definition tlsPlatform_GetTime (c : clock) (tick : Z) : Z * option Z :=
  if negb (TimeService_IsSynchronized c) then (0, None) else
  match TimeService_GetUnixTime c tick with None => (0, None) | Some unixTime => (unixTime, Some unixTime) end.

Definition mbedtls_ms_time (tick : Z) : Z := TimeService_GetUptimeMs tick.

End Platform.

(** ** A clock that runs *)

(** [cycles] of the processor, [rate] of them in a millisecond.  Every read takes
    at least one and at most [stall]; the tick counter shows the milliseconds, and
    the data register gives 32-bit words. *)
Class RngLaws (G : Type) `{Rng G} (rate stall : Z) := {
  cycles : G -> Z;
  rate_pos : 0 < rate;
  stall_small : 1 <= stall < 2 ^ 30 * rate;
  sr_time g g' v : rng_sr g = (g', v) -> cycles g < cycles g' <= cycles g + stall;
  dr_time g g' v : rng_dr g = (g', v) -> cycles g < cycles g' <= cycles g + stall /\ is_u32 v;
  tick_time g g' v : rng_tick g = (g', v) -> cycles g < cycles g' <= cycles g + stall /\ v = u32 (cycles g' / rate);
}.

Section Termination.
Context {G : Type} `{Rng G} (rate stall : Z) `{!RngLaws G rate stall}.

(** Polls that are enough for one word, and the longest one word can take. *)
Definition word_fuel : nat := Z.to_nat (100 * rate + 1).
Definition word_time : Z := 100 * rate + 5 * stall.

Lemma elapsed_ms a b : 0 <= b - a < 2 ^ 32 -> u32 (TimeService_GetUptimeMs (u32 b) - u32 a) = b - a.
Proof.
  intros Hab. unfold TimeService_GetUptimeMs, portTICK_PERIOD_MS. rewrite Z.mul_1_r. unfold u32. rewrite Z.mod_mod by lia.
  rewrite <-Zminus_mod. by apply Z.mod_small.
Qed.

(** The loop, [start] being the millisecond in which it began. *)
Lemma read_random_loop_ends fuel : forall g start,
  start * rate <= cycles g < (start + 100) * rate -> (start + 100) * rate - cycles g < Z.of_nat fuel ->
  exists g' o, read_random_loop fuel g (u32 start) = Some (g', o) /\ cycles g < cycles g' <= (start + 100) * rate + 3 * stall
    /\ (forall v, o = Some v -> is_u32 v).
Proof.
  pose proof (rate_pos (rate := rate) (stall := stall)) as Hrate. pose proof (stall_small (rate := rate) (stall := stall)) as Hstall.
  induction fuel as [|fuel IH]; intros g start Hg Hf; [lia|]. cbn [read_random_loop].
  destruct (rng_sr g) as [g1 v1] eqn:E1. pose proof (sr_time _ _ _ E1).
  destruct (negb (Z.land v1 RNG_SR_DRDY =? 0)).
  { destruct (rng_dr g1) as [g2 v2] eqn:E2. destruct (dr_time _ _ _ E2) as [? Hv]. eexists _, _. split; [reflexivity|].
    split; [lia|]. by intros v [= <-]. }
  destruct (rng_sr g1) as [g2 v2] eqn:E2. pose proof (sr_time _ _ _ E2).
  destruct (negb _); [eexists _, _; split; [reflexivity|]; split; [lia|done]|].
  destruct (rng_tick g2) as [g3 v3] eqn:E3. destruct (tick_time _ _ _ E3) as [? ->].
  assert (start <= cycles g3 / rate < start + 100 + 3 * 2 ^ 30 + 3) as Hms.
  { split; [apply Z.div_le_lower_bound; lia|]. apply Z.div_lt_upper_bound; [lia|]. nia. }
  rewrite elapsed_ms by lia. unfold TLS_PLATFORM_RNG_TIMEOUT_MS. destruct (Z.leb_spec 100 (cycles g3 / rate - start)) as [Hto|Hto].
  - eexists _, _. split; [reflexivity|]. split; [lia|done].
  - assert (cycles g3 < (start + 100) * rate) as Hlt.
    { pose proof (Z.div_mod (cycles g3) rate ltac:(lia)). pose proof (Z.mod_pos_bound (cycles g3) rate Hrate). nia. }
    destruct (IH g3 start ltac:(lia) ltac:(lia)) as (g' & o & E & Hc & Hv). exists g', o. split; [done|]. split; [lia|done].
Qed.

Lemma read_random_ends fuel g :
  (word_fuel <= fuel)%nat ->
  exists g' o, tlsPlatform_ReadRandom fuel g = Some (g', o) /\ cycles g < cycles g' <= cycles g + word_time
    /\ (forall v, o = Some v -> is_u32 v).
Proof.
  pose proof (rate_pos (rate := rate) (stall := stall)) as Hrate. pose proof (stall_small (rate := rate) (stall := stall)) as Hstall.
  intros Hf. unfold tlsPlatform_ReadRandom. destruct (rng_tick g) as [g1 v1] eqn:E1. destruct (tick_time _ _ _ E1) as [Ht ->].
  set (start := cycles g1 / rate). pose proof (Z.div_mod (cycles g1) rate ltac:(lia)) as Hdiv. fold start in Hdiv.
  pose proof (Z.mod_pos_bound (cycles g1) rate Hrate) as Hmod.
  assert (TimeService_GetUptimeMs (u32 start) = u32 start) as ->
    by (unfold TimeService_GetUptimeMs, portTICK_PERIOD_MS; rewrite Z.mul_1_r; apply u32_id, u32_range).
  destruct (read_random_loop_ends fuel g1 start) as (g' & o & E & Hc & Hv); [nia|unfold word_fuel in Hf; nia|].
  exists g', o. split; [done|]. split; [unfold word_time; nia|done].
Qed.

(** The number of words a request takes. *)
Definition words_of (n : nat) : nat := ((n + 3) / 4)%nat.

Lemma words_of_step n : (0 < n)%nat -> words_of n = S (words_of (n - Nat.min n 4)).
Proof.
  intros Hn. unfold words_of. destruct (decide (n <= 4)%nat).
  - rewrite Nat.min_l by lia. replace (n - n)%nat with 0%nat by lia. change ((0 + 3) / 4)%nat with 0%nat.
    symmetry. apply (Nat.div_unique _ _ _ (n - 1)%nat); lia.
  - rewrite Nat.min_r by lia. replace (n + 3)%nat with (n - 4 + 3 + 1 * 4)%nat by lia. rewrite Nat.div_add by lia. lia.
Qed.

(** The loop writes the words of the generator one after the other, the last one
    cut; when it fails, fewer bytes. *)
Lemma hardware_poll_loop_ends words fuel : forall g offset n,
  (word_fuel <= fuel)%nat -> (offset <= n)%nat -> (n - offset <= words)%nat ->
  exists g' out all drawn, hardware_poll_loop words fuel g offset n = Some (g', out, all)
    /\ cycles g <= cycles g' <= cycles g + Z.of_nat (words_of (n - offset)) * word_time
    /\ Forall is_u32 drawn /\ out = take (n - offset) (concat (map (le_enc 4) drawn))
    /\ if all then length drawn = words_of (n - offset) /\ length out = (n - offset)%nat else (length out < n - offset)%nat.
Proof.
  pose proof (rate_pos (rate := rate) (stall := stall)) as Hrate. pose proof (stall_small (rate := rate) (stall := stall)) as Hstall.
  assert (0 <= word_time) as Hwt by (unfold word_time; lia).
  induction words as [|words IH]; intros g offset n Hf Ho Hw; cbn [hardware_poll_loop].
  - exists g, [], true, []. rewrite (proj2 (Nat.leb_le _ _)) by lia. replace (n - offset)%nat with 0%nat by lia.
    split; [done|]. split; [cbn; lia|]. done.
  - destruct (Nat.leb_spec n offset).
    { exists g, [], true, []. replace (n - offset)%nat with 0%nat by lia. split; [done|]. split; [cbn; lia|]. done. }
    destruct (read_random_ends fuel g Hf) as (g1 & o & -> & Hc1 & Hv). destruct o as [v|].
    + set (chunk := Nat.min (n - offset) 4). destruct (IH g1 (offset + chunk)%nat n Hf) as (g' & out & all & drawn & E & Hc & Hd & Hout & Hall);
        [lia|lia|].
      rewrite E. exists g', (take chunk (le_enc 4 v) ++ out), all, (v :: drawn).
      replace (n - (offset + chunk))%nat with (n - offset - chunk)%nat in * by lia.
      rewrite (words_of_step (n - offset)) by lia. fold chunk. split; [done|].
      split; [lia|]. split; [constructor; [by apply Hv|done]|]. cbn [map concat].
      rewrite length_app, length_take, length_le_enc. split.
      { rewrite Hout. destruct (decide (n - offset <= 4)%nat).
        - replace chunk with (n - offset)%nat by lia. rewrite Nat.sub_diag, take_0, app_nil_r.
          by rewrite take_app_le by (rewrite length_le_enc; lia).
        - replace chunk with 4%nat by lia. rewrite (take_ge (le_enc 4 v)) by (rewrite length_le_enc; lia).
          rewrite take_app_ge by (rewrite length_le_enc; lia). by rewrite length_le_enc. }
      destruct all; [destruct Hall as [Hl1 Hl2]|]; cbn [length]; lia.
    + exists g1, [], false, []. split; [done|]. rewrite (words_of_step (n - offset)) by lia.
      split; [nia|]. split; [done|]. split; [cbn [map concat]; by rewrite take_nil|]. cbn [length]. lia.
Qed.

(** Asking the generator for random bytes ends, within a hundred milliseconds and a
    few register reads for each four bytes, whatever the generator does; it says OK
    only when the whole buffer was filled, with the words the generator gave in
    order and nothing behind the buffer touched; and the lock is released as it was
    found on every path. *)
Lemma random_fills_or_fails fuel g d granted buf n :
  (word_fuel <= fuel)%nat -> (n <= length buf)%nat ->
  exists g' out st, TlsPlatform_Random fuel g (Some d) granted (Some buf) n = Some (g', Some d, Some out, st)
    /\ cycles g <= cycles g' <= cycles g + Z.of_nat (words_of n) * word_time
    /\ length out = length buf /\ drop n out = drop n buf
    /\ (st = HEALTH_CHECK_STATUS_OK ->
        exists drawn, Forall is_u32 drawn /\ length drawn = words_of n /\ take n out = take n (concat (map (le_enc 4) drawn))).
Proof.
  pose proof (rate_pos (rate := rate) (stall := stall)) as Hrate. pose proof (stall_small (rate := rate) (stall := stall)) as Hstall.
  intros Hf Hn. unfold TlsPlatform_Random. rewrite bool_decide_eq_false_2 by done. cbn [andb]. unfold TlsPlatform_Lock.
  assert (0 <= word_time) by (unfold word_time; lia).
  destruct granted; cbn [negb]; [|exists g, buf, HEALTH_CHECK_STATUS_ERROR; split; [done|]; split; [lia|]; done].
  unfold mbedtls_hardware_poll. destruct (hardware_poll_loop_ends n fuel g 0 n Hf ltac:(lia) ltac:(lia))
    as (g' & out & all & drawn & -> & Hc & Hd & Hout & Hall).
  rewrite Nat.sub_0_r in Hc, Hout, Hall.
  assert (length out <= n)%nat as Hlo by (destruct all; lia).
  eexists g', _, _. split; [reflexivity|]. split; [done|].
  split; [rewrite length_app, length_drop; lia|]. split.
  { rewrite drop_app_ge by lia. rewrite drop_drop. f_equal. lia. }
  destruct all; cbn [andb]; [|by intros]. destruct Hall as [Hl1 Hl2]. intros _. exists drawn. split; [done|]. split; [done|].
  rewrite <-Hl2 at 1. by rewrite take_app_length.
Qed.

End Termination.

(** A generator that answers every fourth read, on a processor of two hundred
    reads to the millisecond. *)
Record sim_rng := SimRng { sr_cycles : Z; sr_next : Z }.

#[global] Instance SimRng_rng : Rng sim_rng := {
  rng_sr g := (SimRng (sr_cycles g + 1) (sr_next g), if sr_cycles g mod 4 =? 0 then RNG_SR_DRDY else 0);
  rng_dr g := (SimRng (sr_cycles g + 1) (u32 (sr_next g * 1664525 + 1013904223)), u32 (sr_next g));
  rng_tick g := (SimRng (sr_cycles g + 1) (sr_next g), u32 ((sr_cycles g + 1) / 200));
}.

#[global] Instance SimRng_laws : RngLaws sim_rng 200 1.
Proof.
  refine {| cycles := sr_cycles |}; try lia.
  - intros g g' v [= <- _]. cbn. lia.
  - intros g g' v [= <- <-]. cbn. split; [lia|apply u32_range].
  - intros g g' v [= <- <-]. cbn. split; [lia|done].
Defined.

Lemma random_fills_or_fails_witness :
  exists g' out, TlsPlatform_Random (word_fuel 200) (SimRng 0 7) (Some 0%nat) true (Some (zeros 8)) 6
    = Some (g', Some 0%nat, Some out, HEALTH_CHECK_STATUS_OK)
  /\ exists drawn, length drawn = 2%nat /\ take 6 out = take 6 (concat (map (le_enc 4) drawn)).
Proof.
  destruct (random_fills_or_fails 200 1 (word_fuel 200) (SimRng 0 7) 0 true (zeros 8) 6) as (g' & out & st & E & _ & _ & _ & Hok);
    [lia|cbn; lia|].
  exists g', out.
  assert (option_map snd (TlsPlatform_Random (word_fuel 200) (SimRng 0 7) (Some 0%nat) true (Some (zeros 8)) 6)
    = Some HEALTH_CHECK_STATUS_OK) as Hst by (vm_compute; reflexivity).
  rewrite E in Hst. cbn in Hst. injection Hst as ->. split; [exact E|].
  destruct (Hok eq_refl) as (drawn & _ & Hl & Ht). exists drawn. split; [exact Hl|exact Ht].
Defined.
