(* ===== verification/SharedFlash.v ===== *)
(** The persistent stores on one Flash.

    Every store keeps its own part of the device.  For each of them the file
    shows that its invariant depends on that part only, and that its operations
    change nothing outside of it.  The parts are disjoint, so that an operation
    of one store keeps the invariants of all the others. *)
From S2P Require Import Prelude Codec NorFlash SimFlash FlashLayout AbStore HealthCheckConfig UserStore.
From S2P Require Import CallbackConfig HealthCheckLog ServerCredentials TrustStore.

(** ** The parts of the device *)

Inductive part := Users | Resources | Callbacks | Anchors | Credentials | Logs.

#[global] Instance part_eq_dec : EqDecision part.
Proof. solve_decision. Defined.

(** First address and length. *)
Definition part_start (p : part) : Z :=
  match p with
  | Users => FLASH_LAYOUT_USER_STORE_SECTOR_A
  | Resources => FLASH_LAYOUT_HEALTH_CHECK_CONFIG_SECTOR_A
  | Callbacks => FLASH_LAYOUT_CALLBACK_CONFIG_SECTOR_A
  | Anchors => FLASH_LAYOUT_TLS_TRUST_STORE_BANK_A
  | Credentials => FLASH_LAYOUT_TLS_SERVER_CREDENTIALS_SECTOR_A
  | Logs => FLASH_LAYOUT_HEALTH_CHECK_LOG_SECTOR_0
  end.

Definition part_length (p : part) : Z :=
  match p with Anchors => 2 * BANK_BYTES | _ => 2 * W25Q64_SECTOR_SIZE end.

Definition in_part (p : part) (x : Z) : Prop := part_start p <= x < part_start p + part_length p.

(** Membership of a concrete address range in a part. *)
Ltac in_part_tac := unfold in_part, part_start, part_length, HEALTH_CHECK_CONFIG_SECTOR_A, HEALTH_CHECK_CONFIG_SECTOR_B,
  FLASH_LAYOUT_USER_STORE_SECTOR_A, FLASH_LAYOUT_USER_STORE_SECTOR_B, FLASH_LAYOUT_HEALTH_CHECK_CONFIG_SECTOR_A,
  FLASH_LAYOUT_HEALTH_CHECK_CONFIG_SECTOR_B, FLASH_LAYOUT_CALLBACK_CONFIG_SECTOR_A, FLASH_LAYOUT_CALLBACK_CONFIG_SECTOR_B,
  FLASH_LAYOUT_TLS_TRUST_STORE_BANK_A, FLASH_LAYOUT_TLS_TRUST_STORE_BANK_B, FLASH_LAYOUT_TLS_SERVER_CREDENTIALS_SECTOR_A,
  FLASH_LAYOUT_TLS_SERVER_CREDENTIALS_SECTOR_B, FLASH_LAYOUT_HEALTH_CHECK_LOG_SECTOR_0,
  FLASH_LAYOUT_HEALTH_CHECK_LOG_SECTOR_1, BANK_BYTES, FLASH_LAYOUT_TLS_TRUST_STORE_BANK_SECTORS, from_top in *; flia.

Lemma parts_disjoint p q x : in_part p x -> in_part q x -> p = q.
Proof.
  destruct p, q; try done; in_part_tac.
Qed.

(** The memory that has in each part what [m] says. *)
Definition overlay (m : part -> mem) : mem := fun x =>
  let at_part p rest := if in_range (part_start p) (part_length p) x then m p x else rest in
  at_part Users (at_part Resources (at_part Callbacks (at_part Anchors (at_part Credentials (at_part Logs 255))))).

Lemma in_range_part p q x : in_part q x -> in_range (part_start p) (part_length p) x = bool_decide (p = q).
Proof.
  intros Hq. destruct (in_range (part_start p) (part_length p) x) eqn:E; symmetry.
  - apply in_range_true in E. apply bool_decide_eq_true. by apply (parts_disjoint p q x).
  - apply bool_decide_eq_false. intros ->. apply in_range_false in E. by apply E.
Qed.

Lemma overlay_part m q x : in_part q x -> overlay m x = m q x.
Proof. intros Hx. unfold overlay. rewrite !(in_range_part _ q x Hx). by destruct q. Qed.

(** Only the given part of the memory changed, and a part that is the same. *)
Definition changes (p : part) (m m' : mem) : Prop := forall x, ~ in_part p x -> m' x = m x.
Definition agrees (p : part) (m m' : mem) : Prop := forall x, in_part p x -> m' x = m x.

Lemma changes_refl p m : changes p m m.
Proof. by intros x _. Qed.

Lemma changes_agrees p q m m' : changes p m m' -> p <> q -> agrees q m m'.
Proof. intros Hc Hne x Hx. apply Hc. intros Hp. by apply Hne, (parts_disjoint p q x). Qed.

Lemma agrees_trans p m1 m2 m3 : agrees p m1 m2 -> agrees p m2 m3 -> agrees p m1 m3.
Proof. intros H1 H2 x Hx. by rewrite H2, H1. Qed.

Lemma mem_eq_changes p m m' : mem_eq m' m -> changes p m m'.
Proof. intros E x _. apply E. Qed.

Lemma mem_eq_agrees p m m' : mem_eq m' m -> agrees p m m'.
Proof. intros E x _. apply E. Qed.

(** ** Alternating pairs *)

Section pairs.
Context {F : Type} `{FlashLaws F}.
Context {S : Type} (cd : codec S) (valid : S -> bool) (generation : S -> Z).
Context (A B len : Z) `{!AbPair cd A B len} `{EqDecision S}.
(** The part holds both images. *)
Context (p : part) (part_A : forall x, A <= x < A + len -> in_part p x) (part_B : forall x, B <= x < B + len -> in_part p x).

Lemma image_agrees m m' a : a = A \/ a = B -> agrees p m m' -> image cd m' a = image cd m a.
Proof.
  intros Ha Hm. unfold image. f_equal. apply slice_ext. intros x Hx. apply Hm.
  pose proof (ab_size_le cd A B len). destruct Ha as [->| ->]; [apply part_A|apply part_B]; lia.
Qed.

Lemma holds_agrees m m' snap a :
  agrees p m m' -> holds cd valid A B m snap a -> holds cd valid A B m' snap a.
Proof. intros Hm (Ha & Hi & Hv). split; [done|]. by rewrite (image_agrees m m' a Ha Hm). Qed.

Lemma boot_agrees m m' : agrees p m m' -> boot cd valid generation A B m' = boot cd valid generation A B m.
Proof.
  intros Hm. unfold boot. by rewrite (image_agrees m m' A (or_introl eq_refl) Hm), (image_agrees m m' B (or_intror eq_refl) Hm).
Qed.

Lemma spare_agrees m m' snap a :
  a = A \/ a = B -> agrees p m m' ->
  spare_older cd valid generation A B m snap a -> spare_older cd valid generation A B m' snap a.
Proof.
  intros Ha Hm Hs. unfold spare_older.
  by rewrite (image_agrees m m' a Ha Hm), (image_agrees m m' _ (other_in A B a) Hm).
Qed.

Lemma other_changes m m' active : same_outside m m' (other A B active) len -> changes p m m'.
Proof.
  intros Ho x Hx. apply Ho. intros Hin. apply Hx. unfold other in Hin.
  destruct (active =? A); [by apply part_B|by apply part_A].
Qed.
End pairs.

Section sector_pairs.
Context {F : Type} `{FlashLaws F}.
Context {S : Type} (cd : codec S) (valid : S -> bool) (generation : S -> Z).
Context (A B : Z) `{!AbPair cd A B W25Q64_SECTOR_SIZE} `{EqDecision S}.
Context (p : part) (part_A : forall x, A <= x < A + W25Q64_SECTOR_SIZE -> in_part p x)
  (part_B : forall x, B <= x < B + W25Q64_SECTOR_SIZE -> in_part p x).

Lemma ab_save_changes (s : store S F) c s' r :
  c_wf cd c -> ab_save cd valid generation A B s c = (s', r) ->
  changes p (fl_mem (AbStore.flash s)) (fl_mem (AbStore.flash s')).
Proof.
  intros Hc E. unfold ab_save in E. destruct (ab_commit _ _ _ _ _ _) as [f st] eqn:Ec.
  eapply (ab_commit_outside (F := F) _ _ _ A B) in Ec; [|by apply (other_pos cd A B)|done].
  apply (other_changes A B W25Q64_SECTOR_SIZE p part_A part_B) in Ec. by destruct st; injection E as <- <-.
Qed.

Lemma ab_fresh_agrees (s s' : store S F) :
  activeAddress s' = activeAddress s -> agrees p (fl_mem (AbStore.flash s)) (fl_mem (AbStore.flash s')) ->
  ab_fresh cd valid A B s -> ab_fresh cd valid A B s'.
Proof.
  intros Ea Hm [Ha Hv]. unfold ab_fresh. rewrite Ea. split; [done|].
  by rewrite (image_agrees cd A B W25Q64_SECTOR_SIZE p part_A part_B _ _ _ Ha Hm).
Qed.

Lemma ab_inv_agrees (s s' : store S F) :
  snapshot s' = snapshot s -> activeAddress s' = activeAddress s ->
  agrees p (fl_mem (AbStore.flash s)) (fl_mem (AbStore.flash s')) -> ab_inv cd valid A B s -> ab_inv cd valid A B s'.
Proof.
  intros Es Ea Hm Hi. unfold ab_inv. rewrite Es, Ea.
  exact (holds_agrees cd valid A B W25Q64_SECTOR_SIZE p part_A part_B _ _ _ _ Hm Hi).
Qed.
End sector_pairs.

(** ** The five stores

    Of each: the invariant survives a device that is the same on the store's
    part, and its operations change that part only. *)

Section stores.
Context {F : Type} `{FlashLaws F}.

Abbreviation moved s f := (Store (snapshot s) (activeAddress s) f).

(** *** Accounts *)

Lemma users_A x : FLASH_LAYOUT_USER_STORE_SECTOR_A <= x < FLASH_LAYOUT_USER_STORE_SECTOR_A + W25Q64_SECTOR_SIZE -> in_part Users x.
Proof. in_part_tac. Qed.
Lemma users_B x : FLASH_LAYOUT_USER_STORE_SECTOR_B <= x < FLASH_LAYOUT_USER_STORE_SECTOR_B + W25Q64_SECTOR_SIZE -> in_part Users x.
Proof. in_part_tac. Qed.

Lemma users_frame (s : store UserStore.UserStore_SnapshotTypeDef F) f :
  agrees Users (fl_mem (AbStore.flash s)) (fl_mem f) -> UserStore.Inv s -> UserStore.Inv (moved s f).
Proof.
  intros Hm [[Hp|[Hf Hz]] Hg]; (split; [|exact Hg]).
  - left. by apply (ab_inv_agrees _ _ _ _ Users users_A users_B s).
  - right. split; [|exact Hz]. by apply (ab_fresh_agrees _ _ _ _ Users users_A users_B s).
Qed.

Lemma users_step (s s' : store UserStore.UserStore_SnapshotTypeDef F) o r :
  UserStore.Inv s -> UserStore.op_wf o -> UserStore.run true s o = (s', r) ->
  changes Users (fl_mem (AbStore.flash s)) (fl_mem (AbStore.flash s')).
Proof.
  intros Hi Ho E. pose proof (usr_run_behaves s o (proj2 Hi) Ho) as Hb. rewrite E in Hb.
  destruct (UserStore.spec _ _); [|injection Hb as -> _; apply changes_refl].
  destruct Hb as (c & [Hw _] & _ & _ & Es). symmetry in Es. rewrite usr_save_ab in Es.
  exact (ab_save_changes _ _ _ _ _ Users users_A users_B _ _ _ _ (usr_stamp_wf _ Hw) Es).
Qed.

(** *** Resources *)

Lemma resources_A x : HEALTH_CHECK_CONFIG_SECTOR_A <= x < HEALTH_CHECK_CONFIG_SECTOR_A + W25Q64_SECTOR_SIZE -> in_part Resources x.
Proof. in_part_tac. Qed.
Lemma resources_B x : HEALTH_CHECK_CONFIG_SECTOR_B <= x < HEALTH_CHECK_CONFIG_SECTOR_B + W25Q64_SECTOR_SIZE -> in_part Resources x.
Proof. in_part_tac. Qed.

Lemma resources_frame (s : store HealthCheckConfig.HealthCheckConfig_SnapshotTypeDef F) f :
  agrees Resources (fl_mem (AbStore.flash s)) (fl_mem f) -> HealthCheckConfig.Inv s -> HealthCheckConfig.Inv (moved s f).
Proof. intros Hm. by apply (ab_inv_agrees _ _ _ _ Resources resources_A resources_B s). Qed.

Lemma resources_step (s s' : store HealthCheckConfig.HealthCheckConfig_SnapshotTypeDef F) o r idx :
  HealthCheckConfig.Inv s -> HealthCheckConfig.op_wf o -> HealthCheckConfig.run true s o = (s', r, idx) ->
  changes Resources (fl_mem (AbStore.flash s)) (fl_mem (AbStore.flash s')).
Proof.
  intros Hi Ho E. pose proof (cfg_run_behaves s o (HealthCheckConfig.Inv_wf s Hi) Ho) as Hb. rewrite E in Hb.
  destruct Hb as [(r0 & _ & [= -> _ _] & _)|(c & i & (_ & Hw & _) & Hres)]; [apply changes_refl|].
  unfold HealthCheckConfig.save_status in Hres. rewrite cfg_save_ab in Hres.
  destruct (ab_save _ _ _ _ _ _ _) as [s1 r1] eqn:Es.
  apply (ab_save_changes _ _ _ _ _ Resources resources_A resources_B _ _ _ _ (cfg_stamp_wf _ Hw)) in Es.
  destruct r1; by injection Hres as -> _ _.
Qed.

(** *** The callback *)

Lemma callbacks_A x : FLASH_LAYOUT_CALLBACK_CONFIG_SECTOR_A <= x < FLASH_LAYOUT_CALLBACK_CONFIG_SECTOR_A + W25Q64_SECTOR_SIZE -> in_part Callbacks x.
Proof. in_part_tac. Qed.
Lemma callbacks_B x : FLASH_LAYOUT_CALLBACK_CONFIG_SECTOR_B <= x < FLASH_LAYOUT_CALLBACK_CONFIG_SECTOR_B + W25Q64_SECTOR_SIZE -> in_part Callbacks x.
Proof. in_part_tac. Qed.

Lemma callbacks_frame (s : store CallbackConfig.CallbackConfig_SnapshotTypeDef F) f :
  agrees Callbacks (fl_mem (AbStore.flash s)) (fl_mem f) -> CallbackConfig.Inv s -> CallbackConfig.Inv (moved s f).
Proof. intros Hm. by apply (ab_inv_agrees _ _ _ _ Callbacks callbacks_A callbacks_B s). Qed.

Lemma callbacks_step (s s' : store CallbackConfig.CallbackConfig_SnapshotTypeDef F) c r :
  CallbackConfig.Inv s -> c_wf CallbackConfig.c_config c -> CallbackConfig_Set true s (Some c) = (s', r) ->
  CallbackConfig.Inv s' /\ changes Callbacks (fl_mem (AbStore.flash s)) (fl_mem (AbStore.flash s'))
  /\ match r with
     | HEALTH_CHECK_STATUS_OK => config (snapshot s') = c
     | HEALTH_CHECK_STATUS_ERROR => snapshot s' = snapshot s
     end.
Proof.
  intros Hi Hc. unfold CallbackConfig_Set.
  destruct (negb _); [intros [= <- <-]; split; [exact Hi|by split; [apply changes_refl|]]|].
  rewrite cbc_save_ab. destruct (ab_save _ _ _ _ _ _ _) as [s1 r1] eqn:Es. intros [= <- <-].
  assert (c_wf CallbackConfig.c_snapshot (with_config (snapshot s) c)) as Hw by (apply with_config_wf; [by eapply ab_inv_wf|done]).
  apply cbc_stamp_wf in Hw. pose proof (ab_save_inv _ _ _ _ _ _ _ _ _ Hw Es) as Hs.
  pose proof (ab_save_changes _ _ _ _ _ Callbacks callbacks_A callbacks_B _ _ _ _ Hw Es) as Hch.
  destruct r1; [destruct Hs as [Hi' Hs]|destruct Hs as (Hs & _ & Hk & _)]; split_and!; try done.
  - by rewrite Hs.
  - exact (Hk Hi).
Qed.

(** *** Trust anchors *)

Lemma anchors_A x : FLASH_LAYOUT_TLS_TRUST_STORE_BANK_A <= x < FLASH_LAYOUT_TLS_TRUST_STORE_BANK_A + BANK_BYTES -> in_part Anchors x.
Proof. in_part_tac. Qed.
Lemma anchors_B x : FLASH_LAYOUT_TLS_TRUST_STORE_BANK_B <= x < FLASH_LAYOUT_TLS_TRUST_STORE_BANK_B + BANK_BYTES -> in_part Anchors x.
Proof. in_part_tac. Qed.

Lemma anchors_frame (s : store TrustStore.TlsTrustStore_SnapshotTypeDef F) f :
  agrees Anchors (fl_mem (AbStore.flash s)) (fl_mem f) -> TrustStore.Inv s -> TrustStore.Inv (moved s f).
Proof. intros Hm. exact (holds_agrees _ _ _ _ _ Anchors anchors_A anchors_B _ _ _ _ Hm). Qed.

Section trust.
Context (parse_der : bytes -> x509).
Context (MBEDTLS_ERR_X509_ALLOC_FAILED MBEDTLS_ERR_PK_ALLOC_FAILED : Z).
Context (MBEDTLS_ERR_MPI_ALLOC_FAILED MBEDTLS_ERR_ASN1_ALLOC_FAILED : Z).
Abbreviation trust_run := (TrustStore.run parse_der MBEDTLS_ERR_X509_ALLOC_FAILED MBEDTLS_ERR_PK_ALLOC_FAILED
  MBEDTLS_ERR_MPI_ALLOC_FAILED MBEDTLS_ERR_ASN1_ALLOC_FAILED).

Lemma anchors_step (s s' : store TrustStore.TlsTrustStore_SnapshotTypeDef F) o st id :
  dn_strings parse_der -> TrustStore.Inv s -> TrustStore.op_ok o -> trust_run true s o = (s', st, id) ->
  changes Anchors (fl_mem (AbStore.flash s)) (fl_mem (AbStore.flash s')).
Proof.
  intros Hdn Hi Ho E.
  destruct (run_outcome _ _ _ _ _ _ _ _ _ _ Hdn Hi Ho E) as [(-> & _)|(c & t & i & Hp & _ & Ec & _)]; [apply changes_refl|].
  apply tts_commit_spec in Ec as [Hout _]; [|apply Hp].
  exact (other_changes _ _ _ Anchors anchors_A anchors_B _ _ _ Hout).
Qed.
End trust.

(** *** Server credentials *)

Lemma credentials_A x : FLASH_LAYOUT_TLS_SERVER_CREDENTIALS_SECTOR_A <= x < FLASH_LAYOUT_TLS_SERVER_CREDENTIALS_SECTOR_A + W25Q64_SECTOR_SIZE -> in_part Credentials x.
Proof. in_part_tac. Qed.
Lemma credentials_B x : FLASH_LAYOUT_TLS_SERVER_CREDENTIALS_SECTOR_B <= x < FLASH_LAYOUT_TLS_SERVER_CREDENTIALS_SECTOR_B + W25Q64_SECTOR_SIZE -> in_part Credentials x.
Proof. in_part_tac. Qed.

Section credentials.
Context (parse_certificate parse_key : bytes -> bool) (check_pair : bytes -> bytes -> bool).
Abbreviation CredentialsInv := (ServerCredentials.Inv parse_certificate parse_key check_pair).

Lemma credentials_frame (s : ServerCredentials.state F) f :
  agrees Credentials (fl_mem (AbStore.flash (st_store s))) (fl_mem f) -> CredentialsInv s ->
  CredentialsInv (ServerCredentials.State (moved (st_store s) f) (hasValidSnapshot s) (stagedCertificate s) (stagedKey s)).
Proof.
  intros Hm [H1 H2 H3 H4]. split; [| |exact H3|exact H4]; cbn [hasValidSnapshot st_store snapshot].
  - intros Hv. destruct (H1 Hv) as [Hp Hu]. split; [|exact Hu].
    by apply (ab_inv_agrees _ _ _ _ Credentials credentials_A credentials_B (st_store s)).
  - intros Hv. destruct (H2 Hv) as [Hf Hz]. split; [|exact Hz].
    by apply (ab_fresh_agrees _ _ _ _ Credentials credentials_A credentials_B (st_store s)).
Qed.

Lemma credentials_step locked seeded (s s' : ServerCredentials.state F) o st :
  CredentialsInv s -> ServerCredentials.op_ok o ->
  ServerCredentials.run parse_certificate parse_key check_pair locked seeded s o = (s', st) ->
  changes Credentials (fl_mem (AbStore.flash (st_store s))) (fl_mem (AbStore.flash (st_store s'))).
Proof.
  intros Hi Ho E. destruct (run_cases _ _ _ _ _ _ _ _ _ Hi Ho E) as [[-> _]|(s0 & Hi0 & Est & _ & Et)]; [apply changes_refl|].
  rewrite <-Est.
  destruct (try_activate_cases _ _ _ _ _ _ _ Et) as [(_ & _ & [->| ->])|(cert & k & s1 & r & Hc & Hk & _ & Es & -> & _)];
    [apply changes_refl..|].
  destruct (chosen_part _ _ _ _ _ _ Hi0 Hc Hk) as [Pc Pk].
  destruct (candidate_spec _ _ _ (snapshot_of_inv _ _ _ s0 Hi0) Pc Pk) as (Hw & _).
  rewrite tsc_save_ab in Es. destruct (ab_save _ _ _ _ _ _ _) as [st1 r1] eqn:Ea. injection Es as <- _.
  exact (ab_save_changes _ _ _ _ _ Credentials credentials_A credentials_B _ _ _ _ (tsc_stamp_wf _ Hw) Ea).
Qed.
End credentials.

(** *** The log *)

Lemma slots_in_part b (n : nat) x : slot_address b 0 <= x < slot_address b n -> (n <= 102)%nat -> in_part Logs x.
Proof. rewrite !slot_address_eq. intros Hx Hn. destruct (b =? 0); in_part_tac. Qed.

Lemma recs_agrees m m' b n : agrees Logs m m' -> (n <= 102)%nat -> recs m' b 0 n = recs m b 0 n.
Proof. intros Hm Hn. apply recs_ext. intros x Hx. apply Hm. by apply (slots_in_part b n). Qed.

Lemma log_frame (s : HealthCheckLog.state F) f :
  agrees Logs (fl_mem (HealthCheckLog.flash s)) (fl_mem f) -> HealthCheckLog.Inv s ->
  history (HealthCheckLog.with_flash s f) = history s /\ HealthCheckLog.Inv (HealthCheckLog.with_flash s f).
Proof.
  intros Hm [H1 H2 H3 H4 H5 H6 H7 H8].
  assert (active_part (HealthCheckLog.with_flash s f) = active_part s) as Ea by (unfold active_part; cbn; by rewrite (recs_agrees _ _ _ _ Hm H2)).
  assert (forall b, view (fl_mem f) b = view (fl_mem (HealthCheckLog.flash s)) b) as Ev
    by (intros b; rewrite !view_recs; by apply recs_agrees).
  assert (other_part (HealthCheckLog.with_flash s f) = other_part s) as Eo by (unfold other_part; cbn; by rewrite Ev).
  assert (history (HealthCheckLog.with_flash s f) = history s) as Eh by (unfold history; by rewrite Ea, Eo).
  split; [exact Eh|].
  split; [exact H1|exact H2|exact H3| | |rewrite Eh; exact H6|rewrite Eh; exact H7|].
  - cbn [activeSector nextSlot HealthCheckLog.flash HealthCheckLog.with_flash].
    rewrite (recs_agrees _ _ _ _ Hm H2). exact H4.
  - intros x Hx. cbn [activeSector nextSlot HealthCheckLog.flash HealthCheckLog.with_flash] in *.
    rewrite Hm; [by apply H5|]. apply (slots_in_part (activeSector s) 102); [|lia].
    rewrite !slot_address_eq in *. lia.
  - rewrite Ea, Eo. cbn [activeSector HealthCheckLog.flash HealthCheckLog.with_flash]. rewrite Ev. exact H8.
Qed.
End stores.
