(* ===== verification/ApiService.v ===== *)
(** [Srv/Src/api_service.c]: the management API.

    [apiService_Dispatch] is modelled route by route: each handler takes the
    state of the whole device, calls the components as the code does and gives
    the answer to send.  The stores share one Flash: what a handler does to the
    device is seen by all of them ([share]).  What the outside answers during a
    request (ticks, random bytes, the state of the network) is the record
    [environment]; the mutexes are waited for without limit and are taken to be
    obtained. *)
From S2P Require Import Prelude CString NorFlash AbStore HealthCheckConfig UserStore CallbackConfig TlsTypes.
From S2P Require Import HealthCheckLog Accounts AuthService ServerCredentials TrustStore CivilTime Ssl.
From S2P Require Import TlsTransport CallbackService TimeService BuzzerService TelemetryService ApiJson.
From S2P Require Import ApiRequest ApiResponse.

Definition HEALTH_CHECK_LOG_MAX_RESULTS : nat := 50.
(** Arrays of [API_SERVICE_RESPONSE_SIZE - 192] bytes. *)
Definition LIST_SIZE : nat := API_SERVICE_RESPONSE_SIZE - 192.

Abbreviation hc_resource := HealthCheckConfig.HealthCheckConfig_ResourceTypeDef.

(** ** The device *)

Record system (F : Type) := System {
  y_auth : AuthService.state (store UserStore.UserStore_SnapshotTypeDef F);
  y_config : store HealthCheckConfig.HealthCheckConfig_SnapshotTypeDef F;
  y_callback : store CallbackConfig.CallbackConfig_SnapshotTypeDef F;
  y_trust : store TrustStore.TlsTrustStore_SnapshotTypeDef F;
  y_credentials : ServerCredentials.state F;
  y_log : HealthCheckLog.state F;
  y_queue : CallbackService.state;
  y_buzzer : buzzer;
  y_clock : clock;
}.
Arguments System {F}.
Arguments y_auth {F}.
Arguments y_config {F}.
Arguments y_callback {F}.
Arguments y_trust {F}.
Arguments y_credentials {F}.
Arguments y_log {F}.
Arguments y_queue {F}.
Arguments y_buzzer {F}.
Arguments y_clock {F}.

Definition on_flash {S F} (f : F) (s : store S F) : store S F := Store (snapshot s) (activeAddress s) f.

(** Every component works on the same device. *)
Definition share {F} (f : F) (y : system F) : system F :=
  System (AuthService.State (sessions (y_auth y)) (on_flash f (accounts_store (y_auth y))))
    (on_flash f (y_config y)) (on_flash f (y_callback y)) (on_flash f (y_trust y))
    (ServerCredentials.State (on_flash f (st_store (y_credentials y))) (hasValidSnapshot (y_credentials y))
       (stagedCertificate (y_credentials y)) (stagedKey (y_credentials y)))
    (HealthCheckLog.with_flash (y_log y) f) (y_queue y) (y_buzzer y) (y_clock y).

Section updates.
Context {F : Type}.

Definition set_auth (y : system F) (a : AuthService.state (store UserStore.UserStore_SnapshotTypeDef F)) : system F :=
  share (AbStore.flash (accounts_store a)) (System a (y_config y) (y_callback y) (y_trust y) (y_credentials y) (y_log y)
    (y_queue y) (y_buzzer y) (y_clock y)).
Definition set_config (y : system F) c : system F :=
  share (AbStore.flash c) (System (y_auth y) c (y_callback y) (y_trust y) (y_credentials y) (y_log y)
    (y_queue y) (y_buzzer y) (y_clock y)).
Definition set_callback (y : system F) c : system F :=
  share (AbStore.flash c) (System (y_auth y) (y_config y) c (y_trust y) (y_credentials y) (y_log y)
    (y_queue y) (y_buzzer y) (y_clock y)).
Definition set_trust (y : system F) c : system F :=
  share (AbStore.flash c) (System (y_auth y) (y_config y) (y_callback y) c (y_credentials y) (y_log y)
    (y_queue y) (y_buzzer y) (y_clock y)).
Definition set_credentials (y : system F) c : system F :=
  share (AbStore.flash (st_store c)) (System (y_auth y) (y_config y) (y_callback y) (y_trust y) c (y_log y)
    (y_queue y) (y_buzzer y) (y_clock y)).
Definition set_log (y : system F) c : system F :=
  share (HealthCheckLog.flash c) (System (y_auth y) (y_config y) (y_callback y) (y_trust y) (y_credentials y) c
    (y_queue y) (y_buzzer y) (y_clock y)).
Definition set_buzzer (y : system F) b : system F :=
  System (y_auth y) (y_config y) (y_callback y) (y_trust y) (y_credentials y) (y_log y)
    (y_queue y) b (y_clock y).
End updates.

(** What the outside answers while one request is served. *)
Record environment := Env {
  networkReady : bool;
  flashAvailable : bool;
  tick : Z;
  (** The tick at the second look at the sessions. *)
  tickLater : Z;
  (** What the random generator gives for a token pair and for a salt. *)
  randomTokens : option (bytes * bytes);
  randomSalt : option bytes;
  (** Whether the generator of the credential check could be seeded. *)
  seeded : bool;
  taskHandles : list (option Z);
}.

(** ** Answers *)

(** The last call of a handler; [Reply] is [apiService_Respond] on a text as
    [snprintf] left it. *)
Inductive answer :=
  | Reply (status : Z) (reason json : bytes)
  | ReplyHeadersOnly (status : Z) (reason json : bytes)
  | Fail (status : Z) (reason code : bytes)
  | ReplyTokens (tokens : AuthService_TokenPairTypeDef)
  | ReplyCredentials (status : TlsServerCredentials_StatusTypeDef) (awaiting invalidError : bytes)
  | FailTrust (status : TlsTrustStore_StatusTypeDef)
  | ReplyLogs (entries : list HealthCheckLog_EntryTypeDef).

Definition ok_200 (json : bytes) : answer := Reply 200 (str "OK") json.
Definition bad_request (code : bytes) : answer := Fail 400 (str "Bad Request") code.
Definition unauthorized (code : bytes) : answer := Fail 401 (str "Unauthorized") code.
Definition forbidden : answer := Fail 403 (str "Forbidden") (str "forbidden").
Definition not_found (code : bytes) : answer := Fail 404 (str "Not Found") code.
Definition conflict (code : bytes) : answer := Fail 409 (str "Conflict") code.
Definition internal_error (code : bytes) : answer := Fail 500 (str "Internal Server Error") code.
Definition unavailable (code : bytes) : answer := Fail 503 (str "Service Unavailable") code.
Definition too_large : answer := internal_error (str "response_too_large").

Definition send {T} `{Ssl T} (BUFFER_TOO_SMALL : Z) (t : T) (a : answer) : T * Z :=
  match a with
  | Reply status reason json => apiService_Respond BUFFER_TOO_SMALL t status reason json
  | ReplyHeadersOnly status reason json => apiService_RespondHeadersOnly BUFFER_TOO_SMALL t status reason json
  | Fail status reason code => apiService_Error BUFFER_TOO_SMALL t status reason code
  | ReplyTokens tokens => apiService_Tokens BUFFER_TOO_SMALL t tokens
  | ReplyCredentials status awaiting invalidError =>
      apiService_TlsCredentialsRespond BUFFER_TOO_SMALL t status awaiting invalidError
  | FailTrust status => apiService_TrustStoreError BUFFER_TOO_SMALL t status
  | ReplyLogs entries => apiService_RespondLogs BUFFER_TOO_SMALL t entries
  end.

(** The body as the C string the JSON readers see. *)
Definition json_body (r : ApiService_RequestTypeDef) : bytes := cstr (body r).

(** [strcmp(request->method, m) == 0], and the path. *)
Definition is_route (r : ApiService_RequestTypeDef) (m p : bytes) : bool :=
  bool_decide (method r = m) && bool_decide (path r = p).
Definition has_prefix (r : ApiService_RequestTypeDef) (m p : bytes) : bool :=
  bool_decide (method r = m) && starts_with p (path r).

(** Append [piece] to the text of an array of [size] bytes; [None] when it does
    not fit. *)
Definition append_piece (size : nat) (text piece : bytes) : option bytes :=
  if (length piece =? 0)%nat || (size - length text <=? length piece)%nat then None else Some (text ++ piece).

(** The last [snprintf] of a listing, whose result is not checked. *)
Definition close_list (size : nat) (text : bytes) : bytes := text ++ take (size - length text - 1) (str "]}").

(** ** Handlers *)

Section handlers.
Context {F : Type} `{FlashLaws F}.
(** Mbed TLS and the generated headers, as the components use them. *)
Context (pbkdf2 : bytes -> bytes -> Z -> option bytes) (sha256 : bytes -> option bytes).
Context (masterPasswordSalt masterPasswordVerifier : bytes) (MASTER_PASSWORD_PBKDF2_ITERATIONS : Z).
Context (validate : option bytes -> TlsTrustStore_StatusTypeDef * TlsTrustStore_AnchorTypeDef).
Context (parse_certificate parse_key : bytes -> bool) (check_pair : bytes -> bytes -> bool).
Context (FIRMWARE_VERSION FIRMWARE_BUILD_DATE : bytes).
Context (watermark : Z -> Z).

Abbreviation sys := (system F).
Abbreviation principal := AuthService_PrincipalTypeDef.

Definition is_admin (p : principal) : bool := p_role p =? UserStore.USER_ROLE_ADMINISTRATOR.

(** [GET] and [HEAD /health] *)
Definition handle_health (e : environment) (y : sys) (r : ApiService_RequestTypeDef) : answer :=
  let timeHealthy := TimeService_IsSynchronized (y_clock y) in
  let healthy := networkReady e && timeHealthy && flashAvailable e in
  let json := snprintf 256
    (quoted "{'status':'" ++ (if healthy then str "ok" else str "failed")
     ++ quoted "','version':'" ++ FIRMWARE_VERSION ++ quoted "','build_date':'" ++ FIRMWARE_BUILD_DATE
     ++ quoted "','uptime':" ++ fmt_u (TimeService_GetUptimeMs (tick e) / 1000)
     ++ quoted ",'systems':{'api':true,'network':" ++ json_bool (networkReady e)
     ++ quoted ",'time':" ++ json_bool timeHealthy ++ quoted ",'flash':" ++ json_bool (flashAvailable e) ++ str "}}") in
  let status := if healthy then 200 else 503 in
  let reason := if healthy then str "OK" else str "Service Unavailable" in
  if bool_decide (method r = str "HEAD") then ReplyHeadersOnly status reason json else Reply status reason json.

(** [POST /api/v1/auth/token]; the arrays are not initialised by the code, and
    not used unless both were read. *)
Definition handle_token (e : environment) (y : sys) (r : ApiService_RequestTypeDef) : sys * answer :=
  let '(username, ok1) := apiService_JsonString (json_body r) (str "username") (zeros UserStore.USER_STORE_USERNAME_SIZE) in
  let '(password, ok2) := apiService_JsonString (json_body r) (str "password") (zeros 129) in
  if negb ok1 || negb ok2 then (y, bad_request (str "invalid_request")) else
  let '(a, status, tokens) :=
    AuthService_Login pbkdf2 sha256 masterPasswordSalt masterPasswordVerifier MASTER_PASSWORD_PBKDF2_ITERATIONS
      true true (TimeService_GetUptimeMs (tick e)) (randomTokens e) (y_auth y) (Some username) (Some (cstr password)) in
  match status, tokens with
  | AUTH_SERVICE_STATUS_OK, Some tokens => (set_auth y a, ReplyTokens tokens)
  | _, _ => (set_auth y a, unauthorized (str "invalid_credentials"))
  end.

(** [POST /api/v1/auth/refresh] *)
Definition handle_refresh (e : environment) (y : sys) (r : ApiService_RequestTypeDef) : sys * answer :=
  let '(refresh, ok) := apiService_JsonString (json_body r) (str "refresh_token") (zeros AUTH_SERVICE_TOKEN_TEXT_SIZE) in
  if negb ok then (y, bad_request (str "invalid_request")) else
  let '(a, status, tokens) :=
    AuthService_Refresh sha256 true (TimeService_GetUptimeMs (tick e)) (randomTokens e) (y_auth y) (Some refresh) in
  match status, tokens with
  | AUTH_SERVICE_STATUS_OK, Some tokens => (set_auth y a, ReplyTokens tokens)
  | _, _ => (set_auth y a, unauthorized (str "invalid_refresh_token"))
  end.

(** The principal, when [apiService_Authorize] accepts the request. *)
Definition apiService_Authorize (e : environment) (y : sys) (r : ApiService_RequestTypeDef) : option principal :=
  match AuthService_Authorize sha256 true (TimeService_GetUptimeMs (tick e)) (y_auth y) (Some (authorization r)) with
  | (AUTH_SERVICE_STATUS_OK, p) => p
  | _ => None
  end.

(** [POST /api/v1/auth/revoke] *)
Definition handle_revoke (e : environment) (y : sys) (r : ApiService_RequestTypeDef) : sys * answer :=
  let '(a, status) := AuthService_Revoke sha256 true true (TimeService_GetUptimeMs (tickLater e)) (y_auth y)
                        (Some (authorization r)) in
  match status with
  | AUTH_SERVICE_STATUS_OK => (set_auth y a, ok_200 (quoted "{'revoked':true}"))
  | _ => (set_auth y a, unauthorized (str "invalid_access_token"))
  end.

(** [GET /api/v1/rtc] *)
Definition handle_rtc (e : environment) (y : sys) : answer :=
  match TimeService_GetUnixTime (y_clock y) (tick e) with
  | None => Reply 503 (str "Service Unavailable") (quoted "{'synchronized':false}")
  | Some unixTime =>
      ok_200 (snprintf 128
        (quoted "{'synchronized':true,'unix_time':" ++ fmt_u unixTime
         ++ quoted ",'utc':'" ++ iso_time (gmtime_r unixTime) ++ quoted "'}"))
  end.

(** One task of the telemetry object. *)
Definition task_json (name : bytes) (free : Z) : bytes :=
  quoted "'" ++ name ++ quoted "':{'stack_min_free_bytes':" ++ fmt_u free ++ str "}".

Definition telemetry_json (s : TelemetryService_SnapshotTypeDef) (c : CallbackService_TelemetryTypeDef) : bytes :=
  let free n := nth n (stackMinFreeBytes s) 0 in
  quoted "{'uptime_ms':" ++ fmt_u (uptimeMs s) ++ quoted ",'dynamic_allocation':false,'tasks':{"
  ++ task_json (str "heartbeat") (free 0%nat) ++ str "," ++ task_json (str "watchdog") (free 1%nat) ++ str ","
  ++ task_json (str "factory_reset") (free 2%nat) ++ str "," ++ task_json (str "network") (free 3%nat) ++ str ","
  ++ task_json (str "time") (free 4%nat) ++ str "," ++ task_json (str "buzzer") (free 5%nat) ++ str ","
  ++ task_json (str "health_check") (free 6%nat) ++ str "," ++ task_json (str "callback") (free 7%nat) ++ str ","
  ++ task_json (str "api") (free 8%nat)
  ++ quoted "},'callback':{'queue_depth':" ++ fmt_u (queueDepth c)
  ++ quoted ",'dropped_count':" ++ fmt_u (droppedCount c)
  ++ quoted ",'delivery_success_count':" ++ fmt_u (deliverySuccessCount c)
  ++ quoted ",'delivery_failure_count':" ++ fmt_u (deliveryFailureCount c)
  ++ quoted ",'last_transport_status':" ++ fmt_u (lastTransportStatus c)
  ++ quoted ",'last_http_status':" ++ fmt_u (lastHttpStatus c)
  ++ quoted ",'last_elapsed_ms':" ++ fmt_u (lastElapsedMs c)
  ++ quoted ",'last_detail':" ++ fmt_d (lastDetail c) ++ str "}}".

(** [GET /api/v1/system/telemetry] *)
Definition handle_telemetry (e : environment) (y : sys) : answer :=
  let json := telemetry_json (TelemetryService_GetSnapshot watermark (tick e) (taskHandles e))
                (CallbackService_GetTelemetry (y_queue y)) in
  if (length json =? 0)%nat || (1024 <=? length json)%nat then too_large else ok_200 json.

(** [POST /api/v1/buzzer/health-check-alert] and [/certificate-expiry-alert] *)
Definition handle_buzzer (p : principal) (y : sys) (r : ApiService_RequestTypeDef) (healthCheck : bool) : sys * answer :=
  if negb (is_admin p) then (y, forbidden) else
  match apiService_JsonNumber (json_body r) (str "resource_index") with
  | None => (y, bad_request (str "invalid_resource_index"))
  | Some resourceIndex =>
      if Z.of_nat HEALTH_CHECK_CONFIG_MAX_RESOURCES <=? resourceIndex
      then (y, bad_request (str "invalid_resource_index")) else
      let resourceId := u8 (u8 resourceIndex + 1) in
      let '(b, queued) := if healthCheck then BuzzerService_HealthCheckAlert (y_buzzer y) resourceId
                          else BuzzerService_CertificateWarning (y_buzzer y) resourceId in
      if negb queued then (set_buzzer y b, unavailable (str "buzzer_busy")) else
      (set_buzzer y b, Reply 202 (str "Accepted") (snprintf 80
         (quoted "{'queued':true,'resource_index':" ++ fmt_u resourceIndex
          ++ quoted ",'resource_id':" ++ fmt_u resourceId ++ str "}")))
  end.

(** *** Accounts *)

Definition user_json (u : UserStore.UserStore_RecordTypeDef) : bytes :=
  quoted ",{'username':'" ++ cstr (u_username u) ++ quoted "','role':'"
  ++ (if u_role u =? UserStore.USER_ROLE_ADMINISTRATOR then str "administrator" else str "user")
  ++ quoted "','enabled':" ++ json_bool (negb (u_enabled u =? 0)) ++ str "}".

Fixpoint users_json (text : bytes) (users : list UserStore.UserStore_RecordTypeDef) : option bytes :=
  match users with
  | [] => Some text
  | u :: users =>
      match append_piece LIST_SIZE text (user_json u) with
      | None => None
      | Some text => users_json text users
      end
  end.

(** [GET /api/v1/users] *)
Definition handle_list_users (p : principal) (y : sys) : answer :=
  if negb (is_admin p) then forbidden else
  match users_json (quoted "{'users':[{'username':'master','role':'administrator','enabled':true}")
          (AuthService_ListUsers (y_auth y) (Some p) UserStore.USER_STORE_MAX_USERS) with
  | None => too_large
  | Some text => ok_200 (close_list LIST_SIZE text)
  end.

(** The account name behind the prefix of the path: [strncpy] and a
    terminator. *)
Definition path_username (r : ApiService_RequestTypeDef) (prefix : bytes) : bytes :=
  take (UserStore.USER_STORE_USERNAME_SIZE - 1)
    (strncpy (zeros UserStore.USER_STORE_USERNAME_SIZE) (drop (length prefix) (path r))
       (UserStore.USER_STORE_USERNAME_SIZE - 1)) ++ [0].

Definition users_prefix : bytes := str "/api/v1/users/".

(** [char roleText[20]] holding [text]. *)
Definition role_text (text : bytes) : bytes := text ++ zeros (20 - length text).

(** The user name, [roleText] and [enabled] before the body's members are read;
    [None] with the answer that ends the request. *)
Definition user_defaults (y : sys) (r : ApiService_RequestTypeDef) (creating : bool) :
    answer + bytes * bytes * Z :=
  if creating then
    let '(username, ok) := apiService_JsonString (json_body r) (str "username") (zeros UserStore.USER_STORE_USERNAME_SIZE) in
    if negb ok then inl (bad_request (str "invalid_request")) else inr (username, role_text (str "user"), 1)
  else
    let username := path_username r users_prefix in
    match UserStore.UserStore_Find true (accounts_store (y_auth y)) (Some username) with
    | None => inl (not_found (str "user_not_found"))
    | Some (existing, _) =>
        inr (username,
             role_text (if u_role existing =? UserStore.USER_ROLE_ADMINISTRATOR then str "administrator" else str "user"),
             u_enabled existing)
    end.

(** [POST /api/v1/users] ([creating]) and [PUT /api/v1/users/<name>] *)
Definition handle_put_user (e : environment) (p : principal) (y : sys) (r : ApiService_RequestTypeDef)
    (creating : bool) : sys * answer :=
  if negb (is_admin p) then (y, forbidden) else
  match user_defaults y r creating with
  | inl a => (y, a)
  | inr (username, roleText, enabled) =>
      let '(password, ok) := apiService_JsonString (json_body r) (str "password") (zeros 129) in
      if negb ok then (y, bad_request (str "password_required")) else
      let '(roleText, _) := apiService_JsonString (json_body r) (str "role") roleText in
      let enabled := default enabled (apiService_JsonBoolean (json_body r) (str "enabled")) in
      let role := if strcmp_eq roleText (str "administrator") then UserStore.USER_ROLE_ADMINISTRATOR
                  else UserStore.USER_ROLE_USER in
      let '(a, status) := AuthService_PutUser pbkdf2 true true (randomSalt e) (y_auth y) (Some p) (Some username)
                            (Some (cstr password)) role enabled (if creating then 0 else 1) in
      let y := set_auth y a in
      match status with
      | AUTH_SERVICE_STATUS_NOT_FOUND => (y, not_found (str "user_not_found"))
      | AUTH_SERVICE_STATUS_OK =>
          (y, let json := snprintf 96 (quoted "{'username':'" ++ cstr username ++ quoted "'}") in
              if creating then Reply 201 (str "Created") json else ok_200 json)
      | _ => (y, bad_request (str "user_not_saved"))
      end
  end.

(** [DELETE /api/v1/users/<name>] *)
Definition handle_delete_user (p : principal) (y : sys) (r : ApiService_RequestTypeDef) : sys * answer :=
  if negb (is_admin p) then (y, forbidden) else
  let username := path_username r users_prefix in
  let '(a, status) := AuthService_DeleteUser true (y_auth y) (Some p) (Some username) in
  let y := set_auth y a in
  (y, match status with
      | AUTH_SERVICE_STATUS_NOT_FOUND => not_found (str "user_not_found")
      | AUTH_SERVICE_STATUS_FORBIDDEN => forbidden
      | AUTH_SERVICE_STATUS_OK =>
          ok_200 (snprintf 64 (quoted "{'username':'" ++ cstr username ++ quoted "','deleted':true}"))
      | _ => internal_error (str "storage_error")
      end).

(** *** The server's own credentials *)

(** [PUT /api/v1/tls/certificate] *)
Definition handle_tls_certificate (e : environment) (p : principal) (y : sys) (r : ApiService_RequestTypeDef) :
    sys * answer :=
  if negb (is_admin p) then (y, forbidden) else
  if (bodyLength r =? 0)%nat then (y, bad_request (str "invalid_certificate_body")) else
  let '(c, status) := TlsServerCredentials_StageCertificate parse_certificate parse_key check_pair true (seeded e)
                        (y_credentials y) (Some (body r)) in
  (set_credentials y c, ReplyCredentials status (str "private_key") (str "invalid_certificate")).

(** [PUT /api/v1/tls/private-key] *)
Definition handle_tls_private_key (e : environment) (p : principal) (y : sys) (r : ApiService_RequestTypeDef) :
    sys * answer :=
  if negb (is_admin p) then (y, forbidden) else
  if (bodyLength r =? 0)%nat then (y, bad_request (str "invalid_private_key_body")) else
  let '(c, status) := TlsServerCredentials_StagePrivateKey parse_certificate parse_key check_pair true (seeded e)
                        (y_credentials y) (Some (body r)) in
  (set_credentials y c, ReplyCredentials status (str "certificate") (str "invalid_private_key")).

(** *** Trust anchors *)

Definition anchor_head (first : bool) (i : TlsTrustStore_InfoTypeDef) : bytes :=
  (if first then [] else str ",") ++ quoted "{'id':" ++ fmt_u (i_id i)
  ++ quoted ",'der_length':" ++ fmt_u (i_derLength i) ++ quoted ",'subject':'".

Fixpoint anchors_json (text : bytes) (infos : list TlsTrustStore_InfoTypeDef) (first : bool) : option bytes :=
  match infos with
  | [] => Some text
  | i :: infos =>
      match append_piece LIST_SIZE text (anchor_head first i) with
      | None => None
      | Some text =>
          match apiService_AppendJsonString LIST_SIZE text (cstr (i_subject i)) with
          | None => None
          | Some text =>
              match append_piece LIST_SIZE text (quoted "'}") with
              | None => None
              | Some text => anchors_json text infos false
              end
          end
      end
  end.

(** [GET /api/v1/trust-anchors] *)
Definition handle_list_anchors (y : sys) : answer :=
  match anchors_json (quoted "{'trust_anchors':[")
          (TlsTrustStore_List true true (y_trust y) (Some TrustStore.TLS_TRUST_STORE_MAX_PERSISTED)) true with
  | None => too_large
  | Some text => ok_200 (close_list LIST_SIZE text)
  end.

(** [POST /api/v1/trust-anchors] *)
Definition handle_add_anchor (p : principal) (y : sys) (r : ApiService_RequestTypeDef) : sys * answer :=
  if negb (is_admin p) then (y, forbidden) else
  let '(s, status, assignedId) := TlsTrustStore_Add validate true true (y_trust y) (Some (body r)) in
  (set_trust y s,
   match status with
   | TLS_TRUST_STORE_STATUS_OK =>
       Reply 201 (str "Created") (snprintf 48 (quoted "{'id':" ++ fmt_u (default 0 assignedId) ++ str "}"))
   | _ => FailTrust status
   end).

(** An enabled callback or a configured resource names the anchor. *)
Definition anchor_in_use (y : sys) (id : Z) : bool :=
  HealthCheckConfig_IsTrustAnchorInUse true (y_config y) id
  || CallbackConfig_IsTrustAnchorInUse true (y_callback y) id.

(** [DELETE /api/v1/trust-anchors] *)
Definition handle_reset_anchors (p : principal) (y : sys) : sys * answer :=
  if negb (is_admin p) then (y, forbidden) else
  if existsb (anchor_in_use y) [1; 2; 3; 4; 5; 6] then (y, conflict (str "trust_anchor_in_use")) else
  let '(s, status) := TlsTrustStore_Reset true true (y_trust y) in
  (set_trust y s,
   match status with
   | TLS_TRUST_STORE_STATUS_OK => ok_200 (quoted "{'reset':true}")
   | _ => FailTrust status
   end).

Definition anchors_prefix : bytes := str "/api/v1/trust-anchors/".

(** The number that ends the path, when it is one between [low] and [high]. *)
Definition path_number (r : ApiService_RequestTypeDef) (prefix : bytes) (low high : Z) : option Z :=
  match strtol (drop (length prefix) (path r)) with
  | None => None
  | Some (value, rest) =>
      if negb (length rest =? 0)%nat || (value <? low) || (high <? value) then None else Some value
  end.

(** [PUT] and [DELETE /api/v1/trust-anchors/<id>] *)
Definition handle_anchor (p : principal) (y : sys) (r : ApiService_RequestTypeDef) (deleting : bool) : sys * answer :=
  if negb (is_admin p) then (y, forbidden) else
  match path_number r anchors_prefix TrustStore.TLS_TRUST_STORE_MIN_ID (Z.of_nat TrustStore.TLS_TRUST_STORE_MAX_PERSISTED) with
  | None => (y, not_found (str "trust_anchor_not_found"))
  | Some id =>
      if deleting then
        if anchor_in_use y id then (y, conflict (str "trust_anchor_in_use")) else
        let '(s, status) := TlsTrustStore_Delete true true (y_trust y) id in
        (set_trust y s,
         match status with
         | TLS_TRUST_STORE_STATUS_OK =>
             ok_200 (snprintf 48 (quoted "{'id':" ++ fmt_u id ++ quoted ",'deleted':true}"))
         | _ => FailTrust status
         end)
      else
        let '(s, status) := TlsTrustStore_Replace validate true true (y_trust y) id (Some (body r)) in
        (set_trust y s,
         match status with
         | TLS_TRUST_STORE_STATUS_OK =>
             ok_200 (snprintf 48 (quoted "{'id':" ++ fmt_u id ++ quoted ",'replaced':true}"))
         | _ => FailTrust status
         end)
  end.

(** *** The callback *)

(** [GET /api/v1/callback/config] *)
Definition handle_get_callback (y : sys) : answer :=
  let c := CallbackConfig_Get true (y_callback y) in
  ok_200 (snprintf 320
    (quoted "{'enabled':" ++ json_bool (negb (cb_enabled c =? 0))
     ++ quoted ",'method':'" ++ (if cb_method c =? CALLBACK_METHOD_POST then str "POST" else str "GET")
     ++ quoted "','host':'" ++ cstr (cb_host c) ++ quoted "','port':" ++ fmt_u (cb_port c)
     ++ quoted ",'path':'" ++ cstr (cb_path c) ++ quoted "','trust_anchor_id':" ++ fmt_u (cb_trustAnchorId c) ++ str "}")).

(** A member that may be absent: [None] when it is there and cannot be read. *)
Definition optional_number (json key : bytes) (value : Z) : option Z :=
  if apiService_JsonHasKey json key then apiService_JsonNumber json key else Some value.
Definition optional_boolean (json key : bytes) (value : Z) : option Z :=
  if apiService_JsonHasKey json key then apiService_JsonBoolean json key else Some value.
Definition optional_string (json key array : bytes) : option bytes :=
  if apiService_JsonHasKey json key
  then let '(array, ok) := apiService_JsonString json key array in if ok then Some array else None
  else Some array.

(** The members of the request, in the order the code reads them. *)
Definition callback_members (json : bytes) (c : CallbackConfig_TypeDef) :
    option (Z * bytes * bytes * bytes * Z * Z) :=
  match optional_boolean json (str "enabled") (cb_enabled c) with
  | None => None
  | Some enabled =>
  match optional_string json (str "method")
          (if cb_method c =? CALLBACK_METHOD_POST then str "POST" ++ zeros 4 else str "GET" ++ zeros 5) with
  | None => None
  | Some m =>
  match optional_string json (str "host") (cb_host c) with
  | None => None
  | Some host =>
  match optional_string json (str "path") (cb_path c) with
  | None => None
  | Some path =>
  match optional_number json (str "port") (cb_port c) with
  | None => None
  | Some port =>
  match optional_number json (str "trust_anchor_id") (cb_trustAnchorId c) with
  | None => None
  | Some trustAnchor => Some (enabled, m, host, path, port, trustAnchor)
  end end end end end end.

(** [PUT /api/v1/callback/config] *)
Definition handle_put_callback (p : principal) (y : sys) (r : ApiService_RequestTypeDef) : sys * answer :=
  if negb (is_admin p) then (y, forbidden) else
  let c := CallbackConfig_Get true (y_callback y) in
  match callback_members (json_body r) c with
  | None => (y, bad_request (str "invalid_request"))
  | Some (enabled, m, host, path, port, trustAnchor) =>
      if negb (strcmp_eq m (str "GET")) && negb (strcmp_eq m (str "POST"))
      then (y, bad_request (str "invalid_method")) else
      if (port =? 0) || (65535 <? port) then (y, bad_request (str "invalid_port")) else
      if (trustAnchor <? CallbackConfig.TLS_TRUST_STORE_MIN_ID) || (CallbackConfig.TLS_TRUST_STORE_MAX_PERSISTED <? trustAnchor)
         || (negb (enabled =? 0) && negb (TlsTrustStore_Exists true true (y_trust y) (u8 trustAnchor)))
      then (y, bad_request (str "invalid_trust_anchor")) else
      let c := CallbackConfig.Config enabled
                 (if strcmp_eq m (str "POST") then CALLBACK_METHOD_POST else CALLBACK_METHOD_GET)
                 (u8 trustAnchor) (cb_reserved c) (u16 port) host path in
      if negb (CallbackConfig_IsValid c) then (y, bad_request (str "invalid_request")) else
      let '(s, status) := CallbackConfig_Set true (y_callback y) (Some c) in
      (set_callback y s,
       match status with
       | HEALTH_CHECK_STATUS_OK => ok_200 (quoted "{'updated':true}")
       | HEALTH_CHECK_STATUS_ERROR => internal_error (str "storage_error")
       end)
  end.

(** *** Resources *)

Definition resource_json (index : Z) (host : bytes) (port : Z) (path : bytes) (enabled anchor : Z) : bytes :=
  quoted "{'index':" ++ fmt_u index ++ quoted ",'host':'" ++ cstr host ++ quoted "','port':" ++ fmt_u port
  ++ quoted ",'path':'" ++ cstr path ++ quoted "','enabled':" ++ json_bool (negb (enabled =? 0))
  ++ quoted ",'trust_anchor_id':" ++ fmt_u anchor ++ str "}".

Fixpoint resources_json (text : bytes) (l : list hc_resource) (index : Z) (first : bool) : option bytes :=
  match l with
  | [] => Some text
  | x :: l =>
      if HealthCheckConfig.occupied x =? 0 then resources_json text l (index + 1) first else
      match append_piece LIST_SIZE text
              ((if first then [] else str ",")
               ++ resource_json index (HealthCheckConfig.host x) (HealthCheckConfig.port x) (HealthCheckConfig.path x)
                    (HealthCheckConfig.enabled x) (HealthCheckConfig.trustAnchorId x)) with
      | None => None
      | Some text => resources_json text l (index + 1) false
      end
  end.

Definition get_resources (y : sys) : list hc_resource :=
  default [] (HealthCheckConfig_GetResources true (y_config y) (Some [])).

(** [GET /api/v1/health-check/config] *)
Definition handle_get_config (y : sys) : answer :=
  match resources_json (quoted "{'period_seconds':" ++ fmt_u (HealthCheckConfig_GetPeriodSeconds true (y_config y))
                        ++ quoted ",'resources':[") (get_resources y) 0 true with
  | None => too_large
  | Some text => ok_200 (close_list LIST_SIZE text)
  end.

(** [PUT /api/v1/health-check/config] *)
Definition handle_put_period (p : principal) (y : sys) (r : ApiService_RequestTypeDef) : sys * answer :=
  if negb (is_admin p) then (y, forbidden) else
  match apiService_JsonNumber (json_body r) (str "period_seconds") with
  | None => (y, bad_request (str "invalid_request"))
  | Some periodValue =>
      let '(s, status) := HealthCheckConfig_SetPeriodSeconds true (y_config y) periodValue in
      (set_config y s,
       match status with
       | HEALTH_CHECK_CONFIG_STATUS_INVALID_ARGUMENT => bad_request (str "invalid_period")
       | HEALTH_CHECK_CONFIG_STATUS_OK =>
           ok_200 (snprintf 48 (quoted "{'period_seconds':" ++ fmt_u periodValue ++ str "}"))
       | _ => internal_error (str "storage_error")
       end)
  end.

(** The checks the two mutators share; [None] when the values pass. *)
Definition resource_refused (y : sys) (portValue trustAnchorValue : Z) : option answer :=
  if (portValue =? 0) || (65535 <? portValue) then Some (bad_request (str "invalid_port")) else
  if (trustAnchorValue <? HealthCheckConfig.TLS_TRUST_STORE_MIN_ID)
     || (HealthCheckConfig.TLS_TRUST_STORE_MAX_PERSISTED <? trustAnchorValue)
     || negb (TlsTrustStore_Exists true true (y_trust y) (u8 trustAnchorValue))
  then Some (bad_request (str "invalid_trust_anchor")) else None.

(** [POST /api/v1/health-check/resources] *)
Definition handle_add_resource (p : principal) (y : sys) (r : ApiService_RequestTypeDef) : sys * answer :=
  if negb (is_admin p) then (y, forbidden) else
  let json := json_body r in
  let '(host, ok1) := apiService_JsonString json (str "host") (zeros HEALTH_CHECK_CONFIG_HOST_SIZE) in
  let '(path, ok2) := apiService_JsonString json (str "path") (zeros HEALTH_CHECK_CONFIG_PATH_SIZE) in
  match apiService_JsonNumber json (str "port"), apiService_JsonNumber json (str "trust_anchor_id") with
  | Some portValue, Some trustAnchorValue =>
      if negb ok1 || negb ok2 then (y, bad_request (str "invalid_request")) else
      let enabled := default 1 (apiService_JsonBoolean json (str "enabled")) in
      match resource_refused y portValue trustAnchorValue with
      | Some a => (y, a)
      | None =>
          let '(s, status, assignedIndex) :=
            HealthCheckConfig_AddResource true (y_config y) (Some host) (u16 portValue) (Some path) enabled
              (u8 trustAnchorValue) in
          (set_config y s,
           match status with
           | HEALTH_CHECK_CONFIG_STATUS_FULL => conflict (str "resource_limit_reached")
           | HEALTH_CHECK_CONFIG_STATUS_OK =>
               Reply 201 (str "Created")
                 (snprintf 256 (resource_json (default 0 assignedIndex) host portValue path enabled trustAnchorValue))
           | _ => bad_request (str "invalid_request")
           end)
      end
  | _, _ => (y, bad_request (str "invalid_request"))
  end.

Definition resources_prefix : bytes := str "/api/v1/health-check/resources/".

(** [DELETE /api/v1/health-check/resources/<index>] *)
Definition delete_resource (y : sys) (index : Z) : sys * answer :=
  let '(s, status) := HealthCheckConfig_DeleteResource true (y_config y) (Z.to_nat index) in
  (set_config y s,
   match status with
   | HEALTH_CHECK_CONFIG_STATUS_NOT_FOUND => not_found (str "resource_not_found")
   | HEALTH_CHECK_CONFIG_STATUS_OK =>
       ok_200 (snprintf 48 (quoted "{'index':" ++ fmt_u index ++ quoted ",'deleted':true}"))
   | _ => internal_error (str "storage_error")
   end).

(** A terminated copy of a stored array. *)
Definition copy_array (size : nat) (source : bytes) : bytes :=
  take (size - 1) (strncpy (zeros size) source (size - 1)) ++ [0].

(** [PUT /api/v1/health-check/resources/<index>]: members that are absent keep
    their value, and so do members that cannot be read. *)
Definition update_resource (y : sys) (r : ApiService_RequestTypeDef) (index : Z) : sys * answer :=
  let x := nth (Z.to_nat index) (get_resources y) HealthCheckConfig.zero_resource in
  if HealthCheckConfig.occupied x =? 0 then (y, not_found (str "resource_not_found")) else
  let json := json_body r in
  let '(host, _) := apiService_JsonString json (str "host")
                      (copy_array HEALTH_CHECK_CONFIG_HOST_SIZE (HealthCheckConfig.host x)) in
  let '(path, _) := apiService_JsonString json (str "path")
                      (copy_array HEALTH_CHECK_CONFIG_PATH_SIZE (HealthCheckConfig.path x)) in
  let portValue := default (HealthCheckConfig.port x) (apiService_JsonNumber json (str "port")) in
  let enabled := default (HealthCheckConfig.enabled x) (apiService_JsonBoolean json (str "enabled")) in
  let trustAnchorValue := default (HealthCheckConfig.trustAnchorId x) (apiService_JsonNumber json (str "trust_anchor_id")) in
  match resource_refused y portValue trustAnchorValue with
  | Some a => (y, a)
  | None =>
      let '(s, status) := HealthCheckConfig_UpdateResource true (y_config y) (Z.to_nat index) (Some host) (u16 portValue)
                            (Some path) enabled (u8 trustAnchorValue) in
      (set_config y s,
       match status with
       | HEALTH_CHECK_CONFIG_STATUS_NOT_FOUND => not_found (str "resource_not_found")
       | HEALTH_CHECK_CONFIG_STATUS_OK =>
           ok_200 (snprintf 256 (resource_json index host portValue path enabled trustAnchorValue))
       | _ => bad_request (str "invalid_request")
       end)
  end.

Definition handle_resource (p : principal) (y : sys) (r : ApiService_RequestTypeDef) (deleting : bool) : sys * answer :=
  if negb (is_admin p) then (y, forbidden) else
  match path_number r resources_prefix 0 (Z.of_nat HEALTH_CHECK_CONFIG_MAX_RESOURCES - 1) with
  | None => (y, not_found (str "resource_not_found"))
  | Some index => if deleting then delete_resource y index else update_resource y r index
  end.

(** [GET /api/v1/health-check/logs] *)
Definition handle_logs (y : sys) : sys * answer :=
  let '(s, entries) := HealthCheckLog_GetRecent true (y_log y) HEALTH_CHECK_LOG_MAX_RESULTS in
  (set_log y s, ReplyLogs entries).

(** ** Routing *)

Definition GET := str "GET".
Definition POST := str "POST".
Definition PUT := str "PUT".
Definition DELETE := str "DELETE".

(** The requests of an authorized user, in the order of the code. *)
Definition dispatch_authorized (e : environment) (p : principal) (y : sys) (r : ApiService_RequestTypeDef) : sys * answer :=
  if is_route r POST (str "/api/v1/auth/revoke") then handle_revoke e y r else
  if is_route r GET (str "/api/v1/rtc") then (y, handle_rtc e y) else
  if is_route r GET (str "/api/v1/system/telemetry") then (y, handle_telemetry e y) else
  if is_route r POST (str "/api/v1/buzzer/health-check-alert") then handle_buzzer p y r true else
  if is_route r POST (str "/api/v1/buzzer/certificate-expiry-alert") then handle_buzzer p y r false else
  if is_route r GET (str "/api/v1/users") then (y, handle_list_users p y) else
  if is_route r POST (str "/api/v1/users") then handle_put_user e p y r true else
  if has_prefix r PUT users_prefix then handle_put_user e p y r false else
  if has_prefix r DELETE users_prefix then handle_delete_user p y r else
  if is_route r PUT (str "/api/v1/tls/certificate") then handle_tls_certificate e p y r else
  if is_route r PUT (str "/api/v1/tls/private-key") then handle_tls_private_key e p y r else
  if is_route r GET (str "/api/v1/trust-anchors") then (y, handle_list_anchors y) else
  if is_route r POST (str "/api/v1/trust-anchors") then handle_add_anchor p y r else
  if is_route r DELETE (str "/api/v1/trust-anchors") then handle_reset_anchors p y else
  if has_prefix r PUT anchors_prefix then handle_anchor p y r false else
  if has_prefix r DELETE anchors_prefix then handle_anchor p y r true else
  if is_route r GET (str "/api/v1/callback/config") then (y, handle_get_callback y) else
  if is_route r PUT (str "/api/v1/callback/config") then handle_put_callback p y r else
  if is_route r GET (str "/api/v1/health-check/config") then (y, handle_get_config y) else
  if is_route r PUT (str "/api/v1/health-check/config") then handle_put_period p y r else
  if is_route r POST (str "/api/v1/health-check/resources") then handle_add_resource p y r else
  if has_prefix r PUT resources_prefix then handle_resource p y r false else
  if has_prefix r DELETE resources_prefix then handle_resource p y r true else
  if is_route r GET (str "/api/v1/health-check/logs") then handle_logs y else
  (y, not_found (str "not_found")).

Definition apiService_Dispatch (e : environment) (y : sys) (r : ApiService_RequestTypeDef) : sys * answer :=
  if is_route r GET (str "/health") || is_route r (str "HEAD") (str "/health") then (y, handle_health e y r) else
  if is_route r POST (str "/api/v1/auth/token") then handle_token e y r else
  if is_route r POST (str "/api/v1/auth/refresh") then handle_refresh e y r else
  match apiService_Authorize e y r with
  | None => (y, unauthorized (str "invalid_access_token"))
  | Some p => dispatch_authorized e p y r
  end.
End handlers.

(** ** One connection *)

Section callbacks.
Context (EAGAIN EWOULDBLOCK MBEDTLS_ERR_SSL_TIMEOUT MBEDTLS_ERR_NET_SEND_FAILED : Z).
Context (MBEDTLS_ERR_NET_RECV_FAILED MBEDTLS_ERR_SSL_CONN_EOF : Z).

(** The results of [lwip_send] and [lwip_recv] with [errno]. *)
Definition apiService_Send (result errno : Z) : Z :=
  if 0 <=? result then result
  else if (errno =? EAGAIN) || (errno =? EWOULDBLOCK) then MBEDTLS_ERR_SSL_TIMEOUT else MBEDTLS_ERR_NET_SEND_FAILED.

Definition apiService_Receive (result errno : Z) : Z :=
  if 0 <? result then result
  else if result =? 0 then MBEDTLS_ERR_SSL_CONN_EOF
  else if (errno =? EAGAIN) || (errno =? EWOULDBLOCK) then MBEDTLS_ERR_SSL_TIMEOUT else MBEDTLS_ERR_NET_RECV_FAILED.
End callbacks.

(** What Mbed TLS answers while a connection is set up: seeding, parsing the
    certificate and the key, and the three configuration calls. *)
Record setup_answers := Setup {
  a_locked : bool;
  a_seed : Z;
  a_certificate : bytes -> Z;
  a_key : bytes -> Z;
  a_defaults : Z;
  a_own_cert : Z;
  a_setup : Z;
}.

Section connection.
Context {F T : Type} `{FlashLaws F} `{Ssl T}.
Context (BAD_INPUT BUFFER_TOO_SMALL : Z).
Context (managementServerCertificate managementServerPrivateKey : bytes).
(** [apiService_Dispatch] with its parameters. *)
Context (dispatch : environment -> system F -> ApiService_RequestTypeDef -> system F * answer).
(** A server context for TLS 1.3 with the given certificate and key. *)
Context (session : bytes -> bytes -> T).

(** [request] is what the stack slot of the request structure holds before and
    after the connection; the session is there when the set-up succeeded. *)
Definition serve_connection (s : setup_answers) (e : environment) (y : system F) (request : ApiService_RequestTypeDef) :
    system F * ApiService_RequestTypeDef * option T :=
  let stop := (y, request, None) in
  if negb (a_locked s) then stop else
  if negb (a_seed s =? 0) then stop else
  let certificate := TlsServerCredentials_GetCertificate managementServerCertificate (y_credentials y) in
  if negb (a_certificate s certificate =? 0) then stop else
  let key := TlsServerCredentials_GetPrivateKey managementServerPrivateKey (y_credentials y) in
  if negb (a_key s key =? 0) then stop else
  if negb (a_defaults s =? 0) then stop else
  if negb (a_own_cert s =? 0) then stop else
  if negb (a_setup s =? 0) then stop else
  let '(t, result) := mbedtls_ssl_handshake (session certificate key) in
  if negb (result =? 0) then (y, request, Some t) else
  let '(t, result, request) := apiService_ReadRequest BAD_INPUT API_SERVICE_REQUEST_SIZE t request in
  if result =? 0 then
    let '(y, a) := dispatch e y request in
    (y, request, Some (send BUFFER_TOO_SMALL t a).1)
  else (y, request, Some (apiService_Error BUFFER_TOO_SMALL t 400 (str "Bad Request") (str "invalid_request")).1).
End connection.
