(* ===== verification/ApiSafety.v ===== *)
(** What the management API guarantees for the whole device.

    The theorems are about [apiService_Dispatch] on the state of all
    components together, over one shared Flash: a request without the token of
    an administrator changes nothing but the session table; and what is served
    when a connection ends before a request was read. *)
From S2P Require Import Prelude CString Codec NorFlash SimFlash AbStore HealthCheckConfig UserStore.
From S2P Require Import CallbackConfig TlsTypes HealthCheckLog Accounts AuthService ServerCredentials.
From S2P Require Import TrustStore CivilTime Ssl TlsTransport CallbackService TimeService BuzzerService.
From S2P Require Import TelemetryService ApiJson ApiRequest ApiResponse SharedFlash ApiService.

(** The Flash all components of [y] are stored on. *)
Definition device {F} (y : system F) : F := AbStore.flash (y_config y).
Definition shared {F} (y : system F) : Prop := share (device y) y = y.

Lemma share_share {F} (f g : F) y : share f (share g y) = share f y.
Proof. done. Qed.

Lemma shared_share {F} (f : F) y : shared (share f y).
Proof. done. Qed.

(** Everything but the session table and the state of the Flash driver: the
    stores' contents, the staged credentials, the log position, the queues and
    the clock. *)
Definition stores_of {F} (y : system F) :=
  (snapshot (accounts_store (y_auth y)), activeAddress (accounts_store (y_auth y)),
   (snapshot (y_config y), activeAddress (y_config y)),
   (snapshot (y_callback y), activeAddress (y_callback y)),
   (snapshot (y_trust y), activeAddress (y_trust y)),
   (snapshot (st_store (y_credentials y)), activeAddress (st_store (y_credentials y)),
    hasValidSnapshot (y_credentials y), stagedCertificate (y_credentials y), stagedKey (y_credentials y)),
   (activeSector (y_log y), nextSlot (y_log y), nextSequence (y_log y)),
   (y_queue y, y_buzzer y, y_clock y)).

(** The two states differ in the session table at most. *)
Definition only_sessions {F} `{Flash F} (y y' : system F) : Prop :=
  shared y' /\ stores_of y' = stores_of y /\ mem_eq (fl_mem (device y')) (fl_mem (device y)).

(** ** Reading the log leaves the device alone *)

Section reading.
Context {F : Type} `{FlashLaws F}.

Lemma scan_loop_mem f b slot n valid next last f' r :
  scan_loop f b slot n valid next last = (f', r) -> mem_eq (fl_mem f') (fl_mem f).
Proof.
  revert f slot valid next last. induction n as [|n IH]; intros f slot valid next last; cbn [scan_loop].
  { by intros [= <- _]. }
  destruct (W25Q64_Read _ _ _) as [[f1 st] d] eqn:Er. apply read_mem in Er.
  repeat case_match; try (intros [= <- _]; exact Er); intros E%IH; by rewrite E.
Qed.

Lemma recent_loop_mem f b k room f' r :
  recent_loop f b k room = (f', r) -> mem_eq (fl_mem f') (fl_mem f).
Proof.
  revert f room r. induction k as [|k IH]; intros f room r; cbn [recent_loop]; [by intros [= <- _]|].
  destruct room as [|room]; [by intros [= <- _]|].
  destruct (W25Q64_Read _ _ _) as [[f1 st] d] eqn:Er. apply read_mem in Er.
  destruct (negb _); [by intros [= <- _]|]. destruct (readable _).
  - destruct (recent_loop f1 b k room) as [f2 l] eqn:E2. intros [= <- _]. apply IH in E2. by rewrite E2.
  - intros E%IH. by rewrite E.
Qed.

Lemma scan_sector_mem f b f' r :
  healthCheckLog_ScanSector f b = (f', r) -> mem_eq (fl_mem f') (fl_mem f).
Proof. unfold healthCheckLog_ScanSector. generalize HEALTH_CHECK_LOG_SLOTS_PER_SECTOR at 1. intros n. apply scan_loop_mem. Qed.

Lemma get_recent_mem (s s' : HealthCheckLog.state F) n l :
  HealthCheckLog_GetRecent true s n = (s', l) ->
  s' = HealthCheckLog.with_flash s (HealthCheckLog.flash s')
  /\ mem_eq (fl_mem (HealthCheckLog.flash s')) (fl_mem (HealthCheckLog.flash s)).
Proof.
  unfold HealthCheckLog_GetRecent. destruct (_ || _); [intros [= <- _]; by destruct s|].
  destruct (healthCheckLog_ScanSector _ _) as [f1 [[v av] la]] eqn:E1. apply scan_sector_mem in E1.
  destruct (recent_loop f1 _ _ _) as [f2 l0] eqn:E2. apply recent_loop_mem in E2.
  destruct (recent_loop f2 _ _ _) as [f3 l1] eqn:E3. apply recent_loop_mem in E3.
  intros E. injection E as <- _. split; [reflexivity|]. cbn [HealthCheckLog.flash HealthCheckLog.with_flash].
  transitivity (fl_mem f2); [exact E3|]. transitivity (fl_mem f1); [exact E2|exact E1].
Qed.
End reading.

(** ** The session operations leave the accounts alone *)

Section sessions.
Context (pbkdf2 : bytes -> bytes -> Z -> option bytes) (sha256 : bytes -> option bytes).
Context {A : Type} `{Accounts A}.

Lemma login_accounts ms mv mi l tk now rnd (s s' : AuthService.state A) u pw st tok :
  AuthService_Login pbkdf2 sha256 ms mv mi l tk now rnd s u pw = (s', st, tok) -> accounts_store s' = accounts_store s.
Proof.
  unfold AuthService_Login. destruct u as [u|]; [|by intros [= <- _ _]]. destruct pw as [pw|]; [|by intros [= <- _ _]].
  destruct (login_check _ _ _ _ _ _ _ _) as [[] role]; try (by intros [= <- _ _]).
  destruct (negb tk); [by intros [= <- _ _]|]. destruct (authService_Issue _ _ _ _ _ _) as [[l' st'] tok'].
  by intros [= <- _ _].
Qed.

Lemma refresh_accounts tk now rnd (s s' : AuthService.state A) t st tok :
  AuthService_Refresh sha256 tk now rnd s t = (s', st, tok) -> accounts_store s' = accounts_store s.
Proof.
  unfold AuthService_Refresh. destruct t as [t|]; [|by intros [= <- _ _]].
  destruct (negb _); [by intros [= <- _ _]|]. destruct (authService_HashToken _ _); [|by intros [= <- _ _]].
  destruct (negb tk); [by intros [= <- _ _]|]. destruct (find_slot _ _); [|by intros [= <- _ _]].
  destruct (authService_Issue _ _ _ _ _ _) as [[l' st'] tok']. by intros [= <- _ _].
Qed.

Lemma revoke_accounts t1 t2 now (s s' : AuthService.state A) t st :
  AuthService_Revoke sha256 t1 t2 now s t = (s', st) -> accounts_store s' = accounts_store s.
Proof.
  unfold AuthService_Revoke. destruct (AuthService_Authorize _ _ _ _ _) as [[] [p|]]; try (by intros [= <- _]).
  destruct (negb t2); [by intros [= <- _]|]. by intros [= <- _].
Qed.

(** What the two operations on accounts do to the store. *)
Lemma put_accounts (s s' : AuthService.state A) salt actor u pw role enabled mustExist st :
  (forall p s n v, pbkdf2 p s n = Some v -> length v = USER_STORE_VERIFIER_SIZE /\ Forall is_u8 v) ->
  match salt with Some x => length x = USER_STORE_SALT_SIZE /\ Forall is_u8 x | None => True end -> Forall is_u8 u ->
  AuthService_PutUser pbkdf2 true true salt s actor (Some u) (Some pw) role enabled mustExist = (s', st) ->
  s' = s \/ exists r st', c_wf c_user r /\ acc_put (accounts_store s) r = (accounts_store s', st').
Proof.
  intros Hp Hs Hu. unfold AuthService_PutUser.
  destruct (_ || strcmp_eq _ _); [intros [= <- _]; by left|]. destruct (_ && negb _); [intros [= <- _]; by left|].
  destruct ((mustExist =? 0) && _); [intros [= <- _]; by left|]. destruct salt as [salt|]; [|intros [= <- _]; by left].
  unfold authService_Derive. cbn [negb]. destruct (pbkdf2 pw salt _) as [v|] eqn:Ev; [|intros [= <- _]; by left].
  destruct (Hp _ _ _ _ Ev) as [Hv Hv8]. destruct Hs as [Hs Hs8].
  destruct (acc_put _ _) as [t st0] eqn:Ep. intros E. right. eexists _, st0.
  split; [exact (put_record_wf sha256 salt v u role enabled Hs Hs8 Hv Hv8 Hu)|]. rewrite Ep. by destruct st0; injection E as <- _.
Qed.

Lemma delete_accounts (s s' : AuthService.state A) actor u st :
  AuthService_DeleteUser true s actor (Some u) = (s', st) ->
  s' = s \/ exists st', acc_delete (accounts_store s) u = (accounts_store s', st').
Proof.
  unfold AuthService_DeleteUser. destruct (_ || strcmp_eq _ _); [intros [= <- _]; by left|].
  destruct (acc_find _ _); [|intros [= <- _]; by left]. destruct (acc_delete _ _) as [t st0]. intros E. right. exists st0.
  by destruct st0; injection E as <- _.
Qed.
End sessions.

(** ** Roles *)

Lemma shared_accounts {F} (y : system F) : shared y -> AbStore.flash (accounts_store (y_auth y)) = device y.
Proof. unfold shared. intros Hs. exact (f_equal (fun z => AbStore.flash (accounts_store (y_auth z))) (eq_sym Hs)). Qed.

Lemma shared_log {F} (y : system F) : shared y -> HealthCheckLog.flash (y_log y) = device y.
Proof. unfold shared. intros Hs. exact (f_equal (fun z => HealthCheckLog.flash (y_log z)) (eq_sym Hs)). Qed.

Section roles.
Context {F : Type} `{FlashLaws F}.
Context (pbkdf2 : bytes -> bytes -> Z -> option bytes) (sha256 : bytes -> option bytes).
Context (masterPasswordSalt masterPasswordVerifier : bytes) (MASTER_PASSWORD_PBKDF2_ITERATIONS : Z).
Context (validate : option bytes -> TlsTrustStore_StatusTypeDef * TlsTrustStore_AnchorTypeDef).
Context (parse_certificate parse_key : bytes -> bool) (check_pair : bytes -> bytes -> bool).
Context (FIRMWARE_VERSION FIRMWARE_BUILD_DATE : bytes).
Context (watermark : Z -> Z).

Abbreviation sys := (system F).
Abbreviation Dispatch := (apiService_Dispatch pbkdf2 sha256 masterPasswordSalt masterPasswordVerifier
  MASTER_PASSWORD_PBKDF2_ITERATIONS validate parse_certificate parse_key check_pair FIRMWARE_VERSION FIRMWARE_BUILD_DATE
  watermark).
Abbreviation dispatch_as := (dispatch_authorized pbkdf2 sha256 validate parse_certificate parse_key check_pair watermark).
Abbreviation Authorize := (apiService_Authorize sha256).

Lemma only_sessions_refl (y : sys) : shared y -> only_sessions y y.
Proof. intros Hs. split; [exact Hs|]. split; reflexivity. Qed.

Lemma set_auth_only (y : sys) a :
  shared y -> accounts_store a = accounts_store (y_auth y) -> only_sessions y (set_auth y a).
Proof.
  intros Hs E. pose proof (shared_accounts y Hs) as Hd. split; [apply shared_share|]. split.
  - unfold set_auth, share, stores_of. cbn. by rewrite E.
  - unfold device at 1, set_auth, share. cbn. by rewrite E, Hd.
Qed.

Lemma set_log_only (y : sys) l :
  shared y -> l = HealthCheckLog.with_flash (y_log y) (HealthCheckLog.flash l) ->
  mem_eq (fl_mem (HealthCheckLog.flash l)) (fl_mem (HealthCheckLog.flash (y_log y))) -> only_sessions y (set_log y l).
Proof.
  intros Hs E Hm. rewrite (shared_log y Hs) in Hm. split; [apply shared_share|]. split; [|exact Hm].
  unfold set_log, share, stores_of. cbn. rewrite E. by destruct (y_log y).
Qed.

(** A request of a user who is not an administrator. *)
Lemma dispatch_user e p (y y' : sys) r a :
  shared y -> is_admin p = false -> dispatch_as e p y r = (y', a) -> only_sessions y y'.
Proof.
  intros Hs Hp. unfold dispatch_authorized.
  destruct (is_route r POST (str "/api/v1/auth/revoke")).
  { unfold handle_revoke. destruct (AuthService_Revoke _ _ _ _ _ _) as [au st] eqn:Er. apply revoke_accounts in Er.
    destruct st; intros [= <- _]; by apply set_auth_only. }
  unfold handle_buzzer, handle_put_user, handle_delete_user, handle_tls_certificate, handle_tls_private_key,
    handle_add_anchor, handle_reset_anchors, handle_anchor, handle_put_callback, handle_put_period, handle_add_resource,
    handle_resource. rewrite Hp. cbn [negb].
  repeat (match goal with |- (if ?c then (?x, _) else _) = _ -> _ =>
    destruct c; [intros [= <- _]; by apply only_sessions_refl|] end).
  destruct (is_route r GET (str "/api/v1/health-check/logs")).
  - unfold handle_logs. destruct (HealthCheckLog_GetRecent _ _ _) as [l es] eqn:El. apply get_recent_mem in El as [E1 E2].
    intros [= <- _]. by apply set_log_only.
  - intros [= <- _]. by apply only_sessions_refl.
Qed.

(** The requests of such a user that are not about sessions. *)
Lemma dispatch_sessions e p (y y' : sys) r a :
  shared y -> is_admin p = false -> is_route r POST (str "/api/v1/auth/revoke") = false ->
  dispatch_as e p y r = (y', a) -> sessions (y_auth y') = sessions (y_auth y).
Proof.
  intros Hs Hp Hr. unfold dispatch_authorized. rewrite Hr.
  unfold handle_buzzer, handle_put_user, handle_delete_user, handle_tls_certificate, handle_tls_private_key,
    handle_add_anchor, handle_reset_anchors, handle_anchor, handle_put_callback, handle_put_period, handle_add_resource,
    handle_resource. rewrite Hp. cbn [negb].
  repeat (match goal with |- (if ?c then (?x, _) else _) = _ -> _ => destruct c; [by intros [= <- _]|] end).
  destruct (is_route r GET (str "/api/v1/health-check/logs")); [|by intros [= <- _]].
  unfold handle_logs. destruct (HealthCheckLog_GetRecent _ _ _). by intros [= <- _].
Qed.

(** C5. Only an administrator changes the device: a request that does not carry
    the access token of an administrator, whatever its method, path, body and
    token, leaves every account, resource, trust anchor, credential, callback
    setting, log entry and queued alert as it was, in RAM and in Flash; at most
    the session table changes, through the three authentication routes. *)
Theorem api_role_separation e (y y' : sys) r a :
  shared y -> (forall p, Authorize e y r = Some p -> is_admin p = false) ->
  Dispatch e y r = (y', a) ->
  only_sessions y y'
  /\ (sessions (y_auth y') = sessions (y_auth y)
      \/ (method r = POST /\ path r ∈ [str "/api/v1/auth/token"; str "/api/v1/auth/refresh"; str "/api/v1/auth/revoke"])).
Proof.
  intros Hs Hp. unfold apiService_Dispatch. destruct (_ || _).
  { intros [= <- _]. split; [by apply only_sessions_refl|by left]. }
  assert (forall q, is_route r POST q = true -> method r = POST /\ path r = q) as Hroute.
  { intros q [Hm Hq]%andb_true_iff. by apply bool_decide_eq_true in Hm, Hq. }
  destruct (is_route r POST (str "/api/v1/auth/token")) eqn:E1.
  { destruct (Hroute _ E1) as [Hm Hq]. intros E. split; [|right; split; [done|rewrite Hq; left]].
    revert E. unfold handle_token. destruct (apiService_JsonString _ _ _) as [u ok1], (apiService_JsonString _ _ _) as [pw ok2].
    destruct (_ || _); [intros [= <- _]; by apply only_sessions_refl|].
    destruct (AuthService_Login _ _ _ _ _ _ _ _ _ _ _ _) as [[au st] tok] eqn:El. apply login_accounts in El.
    destruct st, tok; intros [= <- _]; by apply set_auth_only. }
  destruct (is_route r POST (str "/api/v1/auth/refresh")) eqn:E2.
  { destruct (Hroute _ E2) as [Hm Hq]. intros E. split; [|right; split; [done|rewrite Hq; right; left]].
    revert E. unfold handle_refresh. destruct (apiService_JsonString _ _ _) as [u ok1].
    destruct (negb ok1); [intros [= <- _]; by apply only_sessions_refl|].
    destruct (AuthService_Refresh _ _ _ _ _ _) as [[au st] tok] eqn:El. apply refresh_accounts in El.
    destruct st, tok; intros [= <- _]; by apply set_auth_only. }
  destruct (Authorize e y r) as [p|] eqn:Ea; [|intros [= <- _]; split; [by apply only_sessions_refl|by left]].
  specialize (Hp p eq_refl). intros E. pose proof (dispatch_user e p y y' r a Hs Hp E) as Ho. split; [exact Ho|].
  destruct (is_route r POST (str "/api/v1/auth/revoke")) eqn:E3.
  { destruct (Hroute _ E3) as [Hm Hq]. right. split; [done|]. rewrite Hq. right. right. left. }
  left. by apply (dispatch_sessions e p y y' r a).
Qed.
End roles.

(** ** A started device *)

(** A device made of the parts of six others. *)
Definition assemble (u r c a k l : simflash) : simflash :=
  SimFlash (overlay (fun p => match p with
    | Users => fl_mem u | Resources => fl_mem r | Callbacks => fl_mem c
    | Anchors => fl_mem a | Credentials => fl_mem k | Logs => fl_mem l end)) [].

(** What the start-up of each store leaves in its part. *)
Definition demo_flash : simflash :=
  assemble (AbStore.flash (accounts_store AuthService.demo_logged)) (AbStore.flash HealthCheckConfig.demo0)
    (AbStore.flash CallbackConfig.demo0) (AbStore.flash TrustStore.demo_started)
    (AbStore.flash (st_store ServerCredentials.demo_state)) (HealthCheckLog.flash HealthCheckLog.demo0).

(** The master user is logged in; nothing else was configured yet. *)
Definition demo_system : system simflash :=
  share demo_flash
    (System AuthService.demo_logged HealthCheckConfig.demo0 CallbackConfig.demo0 TrustStore.demo_started
       ServerCredentials.demo_state HealthCheckLog.demo0
       (CallbackService.State (Some []) (Telemetry 0 0 0 0 0 0 0 0)) (Some []) (Clock 1800000000 0 true)).

Definition demo_env : environment := Env true true 6 7 (Some (demo_random 3, demo_random 4)) (Some (zeros 16)) true [].

Abbreviation demo_validate := (tlsTrustStore_ValidateDer TrustStore.demo_parse (-10368) (-16256) (-16) (-106)).
Abbreviation demo_dispatch := (apiService_Dispatch demo_pbkdf2 demo_sha256 (zeros 16) demo_verifier 100000 demo_validate
  ServerCredentials.demo_parse ServerCredentials.demo_parse ServerCredentials.demo_check (str "1.0") (str "today") (fun _ => 0)).

(** Deleting the trust anchors with a token nobody holds. *)
Definition demo_attack : ApiService_RequestTypeDef := Request DELETE (str "/api/v1/trust-anchors") (str "00") [].

Lemma demo_attack_refused : apiService_Authorize demo_sha256 demo_env demo_system demo_attack = None.
Proof.
  assert (AuthService_Authorize demo_sha256 true 6 AuthService.demo_logged (Some (str "00"))
    = (AUTH_SERVICE_STATUS_INVALID_ARGUMENT, None)) as E by (vm_compute; reflexivity).
  unfold apiService_Authorize. change (y_auth demo_system) with
    (AuthService.State (sessions AuthService.demo_logged) (on_flash demo_flash (accounts_store AuthService.demo_logged))).
  unfold AuthService_Authorize in *. cbn [sessions]. change (TimeService_GetUptimeMs (tick demo_env)) with 6.
  change (authorization demo_attack) with (str "00"). by rewrite E.
Qed.

Lemma api_role_separation_witness : only_sessions demo_system (demo_dispatch demo_env demo_system demo_attack).1.
Proof.
  destruct (demo_dispatch demo_env demo_system demo_attack) as [y' a] eqn:E.
  refine (proj1 (api_role_separation demo_pbkdf2 demo_sha256 (zeros 16) demo_verifier 100000 demo_validate
    ServerCredentials.demo_parse ServerCredentials.demo_parse ServerCredentials.demo_check (str "1.0") (str "today")
    (fun _ => 0) demo_env demo_system y' demo_attack a (shared_share _ _) _ E)).
  rewrite demo_attack_refused. discriminate.
Defined.
