(* ===== verification/ApiInvariant.v ===== *)
(** The invariant of the whole device under the management API.

    The invariants of all stores hold together on the one Flash they share, and
    every trust anchor that is referred to exists.  Each handler changes one
    store; the frame lemmas of [SharedFlash] give the invariants of the others,
    and the checks of the handlers the references. *)
From S2P Require Import Prelude CString Codec NorFlash SimFlash AbStore HealthCheckConfig UserStore.
From S2P Require Import CallbackConfig TlsTypes HealthCheckLog Accounts AuthService ServerCredentials.
From S2P Require Import TrustStore CivilTime Ssl TlsTransport CallbackService TimeService BuzzerService.
From S2P Require Import TelemetryService ApiJson ApiRequest ApiResponse SharedFlash ApiService ApiSafety.

(** The leading check of a handler, whose failure leaves the state alone. *)
Ltac pass := match goal with |- (if ?c then _ else _) = _ -> _ => destruct c; [by intros [= <- _]|] end.
Ltac pass_as E := match goal with |- (if ?c then _ else _) = _ -> _ => destruct c eqn:E; [by intros [= <- _]|] end.

(** ** What the readers of the body hand over *)

Lemma skip_while_bytes p s : Forall is_u8 s -> Forall is_u8 (skip_while p s).
Proof. induction 1 as [|c s Hc Hs IH]; cbn; [constructor|]. destruct (p c); [exact IH|by constructor]. Qed.

Lemma tl_bytes s : Forall is_u8 s -> Forall is_u8 (tl s).
Proof. by intros [|]. Qed.

Lemma copy_string_bytes cursor capacity n out :
  Forall is_u8 cursor -> Forall is_u8 out ->
  length (copy_string cursor capacity n out).1 = length out /\ Forall is_u8 (copy_string cursor capacity n out).1.
Proof.
  intros Hc. revert n out. induction Hc as [|c s Hc Hs IH]; intros n out Ho; [done|]. cbn [copy_string].
  destruct (c =? 34).
  { cbn [fst]. rewrite length_insert. split; [done|]. apply Forall_insert; [done|]. unfold is_u8. lia. }
  destruct (_ || _); [done|]. destruct (IH (S n) (<[n := c]> out)) as [Hl Hf]; [by apply Forall_insert|].
  rewrite Hl, length_insert. done.
Qed.

Lemma json_string_bytes json key out :
  Forall is_u8 json -> Forall is_u8 out ->
  length (apiService_JsonString json key out).1 = length out /\ Forall is_u8 (apiService_JsonString json key out).1.
Proof.
  intros Hj Ho. unfold apiService_JsonString. destruct (strstr _ _); [|done]. cbv zeta. do 2 (destruct (negb _); [done|]).
  apply copy_string_bytes; [|done]. apply tl_bytes, skip_while_bytes, tl_bytes, skip_while_bytes, Forall_drop, Hj.
Qed.

Lemma json_number_u32 json key n : apiService_JsonNumber json key = Some n -> is_u32 n.
Proof.
  unfold apiService_JsonNumber. destruct (after_colon _ _); [|done]. destruct (strtoul _) as [[[v e] rest]|]; [|done].
  intros [= <-]. apply u32_range.
Qed.

Lemma json_boolean_u8 json key b : apiService_JsonBoolean json key = Some b -> is_u8 b.
Proof.
  unfold apiService_JsonBoolean. destruct (after_colon _ _); [|done]. destruct (starts_with _ _); [intros [= <-]; done|].
  destruct (starts_with _ _); [intros [= <-]; done|done].
Qed.

(** ** References to trust anchors *)

Definition table_uses (t : HealthCheckConfig.table) (id : Z) : bool :=
  existsb (fun o => match o with Some x => slot_anchor x =? id | None => false end) (t_slots t).

Lemma in_use_table c id :
  existsb (fun r => negb (HealthCheckConfig.occupied r =? 0) && (HealthCheckConfig.trustAnchorId r =? id))
    (HealthCheckConfig.resources c) = table_uses (HealthCheckConfig.abs c) id.
Proof.
  unfold table_uses, HealthCheckConfig.abs. cbn [t_slots]. induction (HealthCheckConfig.resources c) as [|r l IH]; [done|].
  cbn [existsb map]. rewrite IH. f_equal. unfold HealthCheckConfig.abs_slot. by destruct (HealthCheckConfig.occupied r =? 0).
Qed.

Lemma table_uses_insert t i o id :
  table_uses (Table (t_period t) (<[i := o]> (t_slots t))) id = true ->
  table_uses t id = true \/ exists x, o = Some x /\ slot_anchor x = id.
Proof.
  unfold table_uses. cbn [t_slots]. rewrite !existsb_exists. intros (x & Hx & Hid).
  apply list_elem_of_In, list_elem_of_lookup in Hx as (j & Hj).
  destruct (decide (i = j)) as [->|Hne].
  - apply list_lookup_insert_Some in Hj as [(_ & Eo & _)|[[] _]]; [|done]. right. destruct x as [x|]; [|done].
    exists x. split; [done|]. by apply Z.eqb_eq.
  - rewrite list_lookup_insert_ne in Hj by done. left. exists x. split; [|done].
    by apply list_elem_of_In, (list_elem_of_lookup_2 _ j).
Qed.

(** The anchor an operation on the resources names. *)
Definition names_anchor (o : HealthCheckConfig.op) (id : Z) : Prop :=
  match o with
  | HealthCheckConfig.OpAdd _ _ _ _ anchor | HealthCheckConfig.OpUpdate _ _ _ _ _ anchor => anchor = id
  | _ => False
  end.

Lemma request_anchor h p q en anchor x : HealthCheckConfig.request h p q en anchor = Some x -> slot_anchor x = anchor.
Proof. unfold HealthCheckConfig.request. destruct h, q; try done. case_bool_decide; [|done]. by intros [= <-]. Qed.

Lemma spec_uses t o id :
  table_uses (HealthCheckConfig.spec t o).1.1 id = true -> table_uses t id = true \/ names_anchor o id.
Proof.
  destruct o as [p|h p q en anchor|i h p q en anchor|i]; cbn [HealthCheckConfig.spec names_anchor].
  - destruct (period_in_range p); by left.
  - destruct (HealthCheckConfig.request _ _ _ _ _) as [x|] eqn:Ex; [|by left].
    destruct (first_none _) as [i|]; [|by left]. intros Hu. destruct (table_uses_insert t i (Some x) id Hu) as [?|(z & [= <-] & <-)];
      [by left|]. right. symmetry. by eapply request_anchor.
  - destruct (t_slots t !! i) as [[y|]|]; [| |by left]; destruct (HealthCheckConfig.request _ _ _ _ _) as [x|] eqn:Ex; try by left.
    intros Hu. destruct (table_uses_insert t i (Some x) id Hu) as [?|(z & [= <-] & <-)]; [by left|]. right. symmetry.
    by eapply request_anchor.
  - destruct (t_slots t !! i) as [[y|]|]; [|by left..]. intros Hu.
    destruct (table_uses_insert t i None id Hu) as [?|(z & [=] & _)]. by left.
Qed.

(** ** Existence of anchors under the operations of the trust store *)

Section trust_table.
Context (parse_der : bytes -> x509).
Context (MBEDTLS_ERR_X509_ALLOC_FAILED MBEDTLS_ERR_PK_ALLOC_FAILED : Z).
Context (MBEDTLS_ERR_MPI_ALLOC_FAILED MBEDTLS_ERR_ASN1_ALLOC_FAILED : Z).
Abbreviation step := (spec_step parse_der MBEDTLS_ERR_X509_ALLOC_FAILED
  MBEDTLS_ERR_PK_ALLOC_FAILED MBEDTLS_ERR_MPI_ALLOC_FAILED MBEDTLS_ERR_ASN1_ALLOC_FAILED).

Definition removes_anchor (o : TrustStore.op) (id : Z) : Prop :=
  match o with TrustStore.OpDelete i => i = id | TrustStore.OpReset => True | _ => False end.

Lemma lookup_insert_kept (t : TrustStore.table) i (c : certificate) id :
  is_Some (lookup_id t id) -> is_Some (lookup_id (<[i := Some c]> t) id).
Proof.
  unfold lookup_id. destruct (id_valid id); [|done]. intros Hs.
  destruct (decide (i = Z.to_nat (id - 1))) as [->|Hne]; [|by rewrite list_lookup_insert_ne].
  destruct (t !! Z.to_nat (id - 1)) as [x|] eqn:Ex; [|by destruct Hs].
  rewrite list_lookup_insert_eq by (by eapply lookup_lt_Some). by eexists.
Qed.

Lemma step_keeps t o id :
  is_Some (lookup_id t id) -> is_Some (lookup_id (step t o).1.1 id) \/ removes_anchor o id.
Proof.
  intros Hs. destruct o as [d|i d|i|]; cbn [spec_step removes_anchor]; [| | |by right].
  - destruct (_ =? _)%nat; [by left|]. left. unfold set_slot. destruct (accept _ _ _ _ _ _); [done|]. by apply lookup_insert_kept.
  - destruct (_ && _); [|by left]. left. unfold set_slot. destruct (accept _ _ _ _ _ _); [done|]. by apply lookup_insert_kept.
  - destruct (id_valid i && _) eqn:Ei; [|by left]. destruct (decide (i = id)) as [->|Hne]; [by right|]. left.
    apply andb_true_iff in Ei as [Ei _]. cbn [fst]. unfold lookup_id in *. destruct (id_valid id) eqn:Eid; [|done].
    rewrite list_lookup_insert_ne; [done|]. unfold id_valid, TrustStore.TLS_TRUST_STORE_MIN_ID in *. lia.
Qed.
End trust_table.

(** ** The invariant *)

Section invariant.
Context {F : Type} `{FlashLaws F}.
Context (parse_certificate parse_key : bytes -> bool) (check_pair : bytes -> bytes -> bool).

Abbreviation sys := (system F).
Abbreviation dmem y := (fl_mem (device y)).

Definition part_inv (q : part) (y : sys) : Prop :=
  match q with
  | Users => AuthService.Inv (y_auth y)
  | Resources => HealthCheckConfig.Inv (y_config y)
  | Callbacks => CallbackConfig.Inv (y_callback y)
  | Anchors => TrustStore.Inv (y_trust y)
  | Credentials => ServerCredentials.Inv parse_certificate parse_key check_pair (y_credentials y)
  | Logs => HealthCheckLog.Inv (y_log y)
  end.

(** Every anchor that a configured resource or an enabled callback names is in
    the trust store. *)
Definition references_ok (y : sys) : Prop :=
  forall id, anchor_in_use y id = true -> TlsTrustStore_Exists true true (y_trust y) id = true.

Record DeviceInv (y : sys) : Prop := {
  dev_shared : shared y;
  dev_parts : forall q, part_inv q y;
  dev_references : references_ok y;
}.

(** Every component sees the one device. *)
Lemma on_device (g : sys -> F) y : shared y -> g (share (device y) y) = device y -> device y = g y.
Proof. intros Hs <-. by rewrite Hs at 1. Qed.

(** A device that is the same on a part. *)
Lemma part_frame q y f : shared y -> part_inv q y -> agrees q (dmem y) (fl_mem f) -> part_inv q (share f y).
Proof.
  intros Hs Hi Hm. destruct q; cbn [part_inv] in *.
  - rewrite (on_device (fun z => AbStore.flash (accounts_store (y_auth z))) y Hs eq_refl) in Hm.
    destruct Hi as [H1 H2 H3 H4 H5]. split; [|exact H2|exact H3|exact H4|exact H5]. by apply users_frame.
  - by apply resources_frame.
  - rewrite (on_device (fun z => AbStore.flash (y_callback z)) y Hs eq_refl) in Hm. by apply callbacks_frame.
  - rewrite (on_device (fun z => AbStore.flash (y_trust z)) y Hs eq_refl) in Hm. by apply anchors_frame.
  - rewrite (on_device (fun z => AbStore.flash (st_store (y_credentials z))) y Hs eq_refl) in Hm. by apply credentials_frame.
  - rewrite (on_device (fun z => HealthCheckLog.flash (y_log z)) y Hs eq_refl) in Hm. by apply log_frame.
Qed.

(** Components put together on a device that has each one's part. *)
Lemma share_parts f a c cb t cr l q b k :
  AuthService.Inv a -> agrees Users (fl_mem (AbStore.flash (accounts_store a))) (fl_mem f) ->
  HealthCheckConfig.Inv c -> agrees Resources (fl_mem (AbStore.flash c)) (fl_mem f) ->
  CallbackConfig.Inv cb -> agrees Callbacks (fl_mem (AbStore.flash cb)) (fl_mem f) ->
  TrustStore.Inv t -> agrees Anchors (fl_mem (AbStore.flash t)) (fl_mem f) ->
  ServerCredentials.Inv parse_certificate parse_key check_pair cr ->
  agrees Credentials (fl_mem (AbStore.flash (st_store cr))) (fl_mem f) ->
  HealthCheckLog.Inv l -> agrees Logs (fl_mem (HealthCheckLog.flash l)) (fl_mem f) ->
  forall p, part_inv p (share f (System a c cb t cr l q b k)).
Proof.
  intros [H1 H2 H3 H4 H5] ? ? ? ? ? ? ? ? ? ? ? []; cbn [part_inv].
  - split; [|exact H2|exact H3|exact H4|exact H5]. by apply users_frame.
  - by apply resources_frame.
  - by apply callbacks_frame.
  - by apply anchors_frame.
  - by apply credentials_frame.
  - by apply log_frame.
Qed.

(** Replacing one component by one that changed its own part only. *)
Lemma other_parts p y f q :
  shared y -> (forall q, part_inv q y) -> changes p (dmem y) (fl_mem f) -> p <> q -> part_inv q (share f y).
Proof. intros Hs Hi Hc Hne. apply part_frame; [done|apply Hi|by eapply changes_agrees]. Qed.

Lemma set_auth_parts y a :
  shared y -> (forall q, part_inv q y) -> AuthService.Inv a ->
  changes Users (dmem y) (fl_mem (AbStore.flash (accounts_store a))) -> forall q, part_inv q (set_auth y a).
Proof.
  intros Hs Hi Ha Hc q. pose proof (other_parts Users y _ q Hs Hi Hc) as Ho. destruct q; try (by apply Ho).
  destruct a as [l [x d f]]. exact Ha.
Qed.

Lemma set_config_parts y c :
  shared y -> (forall q, part_inv q y) -> HealthCheckConfig.Inv c ->
  changes Resources (dmem y) (fl_mem (AbStore.flash c)) -> forall q, part_inv q (set_config y c).
Proof.
  intros Hs Hi Ha Hc q. pose proof (other_parts Resources y _ q Hs Hi Hc) as Ho. destruct q; try (by apply Ho).
  destruct c as [x d f]. exact Ha.
Qed.

Lemma set_callback_parts y c :
  shared y -> (forall q, part_inv q y) -> CallbackConfig.Inv c ->
  changes Callbacks (dmem y) (fl_mem (AbStore.flash c)) -> forall q, part_inv q (set_callback y c).
Proof.
  intros Hs Hi Ha Hc q. pose proof (other_parts Callbacks y _ q Hs Hi Hc) as Ho. destruct q; try (by apply Ho).
  destruct c as [x d f]. exact Ha.
Qed.

Lemma set_trust_parts y c :
  shared y -> (forall q, part_inv q y) -> TrustStore.Inv c ->
  changes Anchors (dmem y) (fl_mem (AbStore.flash c)) -> forall q, part_inv q (set_trust y c).
Proof.
  intros Hs Hi Ha Hc q. pose proof (other_parts Anchors y _ q Hs Hi Hc) as Ho. destruct q; try (by apply Ho).
  destruct c as [x d f]. exact Ha.
Qed.

Lemma set_credentials_parts y c :
  shared y -> (forall q, part_inv q y) -> ServerCredentials.Inv parse_certificate parse_key check_pair c ->
  changes Credentials (dmem y) (fl_mem (AbStore.flash (st_store c))) -> forall q, part_inv q (set_credentials y c).
Proof.
  intros Hs Hi Ha Hc q. pose proof (other_parts Credentials y _ q Hs Hi Hc) as Ho. destruct q; try (by apply Ho).
  destruct c as [[x d f] v a b]. exact Ha.
Qed.

Lemma set_log_parts y l :
  shared y -> (forall q, part_inv q y) -> l = HealthCheckLog.with_flash (y_log y) (HealthCheckLog.flash l) ->
  mem_eq (fl_mem (HealthCheckLog.flash l)) (fl_mem (HealthCheckLog.flash (y_log y))) -> forall q, part_inv q (set_log y l).
Proof.
  intros Hs Hi El Hm q. rewrite (shared_log y Hs) in Hm.
  pose proof (part_frame q y (HealthCheckLog.flash l) Hs (Hi q) (mem_eq_agrees q _ _ Hm)) as Ho.
  destruct q; try exact Ho. cbn [part_inv set_log share y_log]. rewrite El. exact Ho.
Qed.
End invariant.

(** ** Each store's operations keep it *)

Section steps.
Context {F : Type} `{FlashLaws F}.
Context (parse_certificate parse_key : bytes -> bool) (check_pair : bytes -> bytes -> bool).
Context (parse_der : bytes -> x509).
Context (MBEDTLS_ERR_X509_ALLOC_FAILED MBEDTLS_ERR_PK_ALLOC_FAILED : Z).
Context (MBEDTLS_ERR_MPI_ALLOC_FAILED MBEDTLS_ERR_ASN1_ALLOC_FAILED : Z).

Abbreviation sys := (system F).
Abbreviation dmem y := (fl_mem (device y)).
Abbreviation Dev := (DeviceInv parse_certificate parse_key check_pair).
Abbreviation trust_run := (TrustStore.run parse_der MBEDTLS_ERR_X509_ALLOC_FAILED MBEDTLS_ERR_PK_ALLOC_FAILED
  MBEDTLS_ERR_MPI_ALLOC_FAILED MBEDTLS_ERR_ASN1_ALLOC_FAILED).

Lemma auth_keeps (y : sys) a :
  Dev y -> AuthService.Inv a -> changes Users (dmem y) (fl_mem (AbStore.flash (accounts_store a))) -> Dev (set_auth y a).
Proof. intros [Hs Hp Hr] Ha Hc. split; [apply shared_share|by apply set_auth_parts|exact Hr]. Qed.

(** The resources after an operation use no anchor but the old ones and the
    one it names. *)
Lemma config_uses (s s' : store HealthCheckConfig.HealthCheckConfig_SnapshotTypeDef F) o st idx :
  HealthCheckConfig.Inv s -> HealthCheckConfig.op_wf o -> HealthCheckConfig.run true s o = (s', st, idx) ->
  HealthCheckConfig.Inv s'
  /\ forall id, HealthCheckConfig_IsTrustAnchorInUse true s' id = true ->
       HealthCheckConfig_IsTrustAnchorInUse true s id = true \/ names_anchor o id.
Proof.
  intros Hi Ho E. pose proof (cfg_run_behaves s o (HealthCheckConfig.Inv_wf s Hi) Ho) as Hb. rewrite E in Hb.
  unfold HealthCheckConfig_IsTrustAnchorInUse. cbn [andb]. setoid_rewrite in_use_table.
  destruct Hb as [(r0 & _ & [= -> _ _] & _)|(c & i & (Hspec & Hw & _) & Hres)]; [by split; [|left]|].
  destruct (HealthCheckConfig.save_status s c) as [s1 r1] eqn:Es. injection Hres as -> _ _.
  destruct (save_status_inv s c s1 r1 Hi Hw Es) as [Hi' [[_ Hn]|[_ Hn]]]; (split; [exact Hi'|]); rewrite Hn; intros id Hu;
    [|by left]. apply (spec_uses _ o). by rewrite Hspec.
Qed.

Lemma config_keeps (y : sys) s' o st idx :
  Dev y -> HealthCheckConfig.op_wf o -> HealthCheckConfig.run true (y_config y) o = (s', st, idx) ->
  (forall id, names_anchor o id -> TlsTrustStore_Exists true true (y_trust y) id = true) -> Dev (set_config y s').
Proof.
  intros [Hs Hp Hr] Ho E Hn. destruct (config_uses _ _ _ _ _ (Hp Resources) Ho E) as [Hi Hu].
  pose proof (resources_step _ _ _ _ _ (Hp Resources) Ho E) as Hc.
  split; [apply shared_share|by apply set_config_parts|].
  intros id [Hid|Hid]%orb_true_iff.
  - apply Hu in Hid as [Hid|Hid]; [|by apply Hn]. apply Hr, orb_true_iff. by left.
  - apply Hr, orb_true_iff. right. exact Hid.
Qed.

Lemma callback_keeps (y : sys) c s' st :
  Dev y -> c_wf CallbackConfig.c_config c -> CallbackConfig_Set true (y_callback y) (Some c) = (s', st) ->
  (cb_enabled c <> 0 -> TlsTrustStore_Exists true true (y_trust y) (cb_trustAnchorId c) = true) -> Dev (set_callback y s').
Proof.
  intros [Hs Hp Hr] Hc E Hn. destruct (callbacks_step _ _ _ _ (Hp Callbacks) Hc E) as (Hi & Hch & Hst).
  rewrite <-(on_device (fun z => AbStore.flash (y_callback z)) y Hs eq_refl) in Hch.
  split; [apply shared_share|by apply set_callback_parts|].
  intros id Hid. unfold anchor_in_use in Hid. apply orb_true_iff in Hid as [Hid|Hid].
  - apply Hr, orb_true_iff. left. exact Hid.
  - unfold CallbackConfig_IsTrustAnchorInUse, CallbackConfig_Get in Hid. cbn in Hid.
    destruct st; rewrite Hst in Hid.
    + apply andb_true_iff in Hid as [He Hid%Z.eqb_eq]. subst id. apply Hn. intros E0. by rewrite E0 in He.
    + apply Hr, orb_true_iff. right. exact Hid.
Qed.

Lemma trust_keeps (y : sys) s' o st id :
  dn_strings parse_der -> Dev y -> TrustStore.op_ok o -> trust_run true (y_trust y) o = (s', st, id) ->
  (forall i, removes_anchor o i -> anchor_in_use y i = false) -> Dev (set_trust y s').
Proof.
  intros Hdn [Hs Hp Hr] Ho E Hn. pose proof (run_outcome _ _ _ _ _ _ _ _ _ _ Hdn (Hp Anchors) Ho E) as Hout.
  pose proof (outcome_inv _ _ _ _ _ _ _ _ _ _ (Hp Anchors) Hout) as Hi.
  pose proof (anchors_step _ _ _ _ _ _ _ _ _ _ Hdn (Hp Anchors) Ho E) as Hch.
  rewrite <-(on_device (fun z => AbStore.flash (y_trust z)) y Hs eq_refl) in Hch.
  split; [apply shared_share|by apply set_trust_parts|].
  intros i Hu. change (anchor_in_use y i = true) in Hu.
  change (TlsTrustStore_Exists true true s' i = true). pose proof (Hr i Hu) as Hold.
  rewrite (exists_spec _ _ (Hp Anchors)), bool_decide_eq_true in Hold. rewrite (exists_spec _ _ Hi), bool_decide_eq_true.
  destruct Hout as [(-> & _)|(c & t & j & [Hw _ _ Ht] & Hstep & Ec & _)]; [exact Hold|].
  apply tts_commit_spec in Ec as [_ [(_ & _ & Es & _)|(_ & Es & _)]]; [| |exact Hw]; rewrite Es; [|exact Hold].
  change (table_of (TrustStore.stamp c)) with (table_of c). rewrite Ht.
  destruct (step_keeps parse_der MBEDTLS_ERR_X509_ALLOC_FAILED MBEDTLS_ERR_PK_ALLOC_FAILED
    MBEDTLS_ERR_MPI_ALLOC_FAILED MBEDTLS_ERR_ASN1_ALLOC_FAILED _ o i Hold) as [Hk|Hrm]; [by rewrite Hstep in Hk|].
  apply Hn in Hrm. congruence.
Qed.

Lemma credentials_keeps (y : sys) locked seeded o s' st :
  Dev y -> ServerCredentials.op_ok o ->
  ServerCredentials.run parse_certificate parse_key check_pair locked seeded (y_credentials y) o = (s', st) ->
  Dev (set_credentials y s').
Proof.
  intros [Hs Hp Hr] Ho E. pose proof (run_credentials_inv _ _ _ _ _ _ _ _ _ (Hp Credentials) Ho E) as Hi.
  pose proof (credentials_step _ _ _ _ _ _ _ _ _ (Hp Credentials) Ho E) as Hch.
  rewrite <-(on_device (fun z => AbStore.flash (st_store (y_credentials z))) y Hs eq_refl) in Hch.
  split; [apply shared_share|by apply set_credentials_parts|exact Hr].
Qed.
End steps.

(** ** The handlers keep it *)

Section handlers.
Context {F : Type} `{FlashLaws F}.
Context (pbkdf2 : bytes -> bytes -> Z -> option bytes) (sha256 : bytes -> option bytes).
Context (masterPasswordSalt masterPasswordVerifier : bytes) (MASTER_PASSWORD_PBKDF2_ITERATIONS : Z).
Context (parse_certificate parse_key : bytes -> bool) (check_pair : bytes -> bytes -> bool).
Context (FIRMWARE_VERSION FIRMWARE_BUILD_DATE : bytes).
Context (watermark : Z -> Z).
Context (parse_der : bytes -> x509).
Context (MBEDTLS_ERR_X509_ALLOC_FAILED MBEDTLS_ERR_PK_ALLOC_FAILED : Z).
Context (MBEDTLS_ERR_MPI_ALLOC_FAILED MBEDTLS_ERR_ASN1_ALLOC_FAILED : Z).
Hypothesis pbkdf2_size : forall p s n v,
  pbkdf2 p s n = Some v -> length v = USER_STORE_VERIFIER_SIZE /\ Forall is_u8 v.
Hypothesis subjects_are_strings : dn_strings parse_der.

Abbreviation sys := (system F).
Abbreviation Dev := (DeviceInv parse_certificate parse_key check_pair).
Abbreviation validate := (tlsTrustStore_ValidateDer parse_der MBEDTLS_ERR_X509_ALLOC_FAILED
  MBEDTLS_ERR_PK_ALLOC_FAILED MBEDTLS_ERR_MPI_ALLOC_FAILED MBEDTLS_ERR_ASN1_ALLOC_FAILED).
Abbreviation auth_run := (AuthService.run pbkdf2 sha256 masterPasswordSalt masterPasswordVerifier
  MASTER_PASSWORD_PBKDF2_ITERATIONS).
Abbreviation Dispatch := (apiService_Dispatch pbkdf2 sha256 masterPasswordSalt masterPasswordVerifier
  MASTER_PASSWORD_PBKDF2_ITERATIONS validate parse_certificate parse_key check_pair FIRMWARE_VERSION FIRMWARE_BUILD_DATE
  watermark).

(** A request is made of bytes, and a salt has the size that was asked for. *)
Definition request_ok (r : ApiService_RequestTypeDef) : Prop := Forall is_u8 (body r) /\ Forall is_u8 (path r).
Definition env_ok (e : environment) : Prop :=
  match randomSalt e with Some s => length s = USER_STORE_SALT_SIZE /\ Forall is_u8 s | None => True end.

Lemma json_body_bytes r : request_ok r -> Forall is_u8 (json_body r).
Proof. intros [Hb _]. by apply cstr_bytes. Qed.

(** A call of the authentication service that leaves the accounts alone. *)
Lemma session_keeps (y : sys) o a st :
  Dev y -> AuthService.op_ok o -> auth_run (y_auth y) o = (a, st) -> accounts_store a = accounts_store (y_auth y) ->
  Dev (set_auth y a).
Proof.
  intros Hy Ho E Ea. apply auth_keeps; [done| |].
  - pose proof (run_inv pbkdf2 sha256 masterPasswordSalt masterPasswordVerifier MASTER_PASSWORD_PBKDF2_ITERATIONS pbkdf2_size _ o (dev_parts _ _ _ _ Hy Users) Ho) as Hi. by rewrite E in Hi.
  - rewrite Ea, (shared_accounts y (dev_shared _ _ _ _ Hy)). apply changes_refl.
Qed.

Lemma token_keeps e (y y' : sys) r a :
  Dev y -> handle_token pbkdf2 sha256 masterPasswordSalt masterPasswordVerifier MASTER_PASSWORD_PBKDF2_ITERATIONS e y r = (y', a) ->
  Dev y'.
Proof.
  intros Hy. unfold handle_token. destruct (apiService_JsonString _ _ _) as [u ok1], (apiService_JsonString _ _ _) as [pw ok2].
  pass.
  destruct (AuthService_Login _ _ _ _ _ _ _ _ _ _ _ _) as [[au st] tok] eqn:El. pose proof El as Ha. apply login_accounts in Ha.
  assert (Dev (set_auth y au)) as Hd.
  { eapply (session_keeps y (OpLogin true true _ _ _ _)); [done|exact I| |exact Ha]. cbn [AuthService.run]. by rewrite El. }
  destruct st, tok; by intros [= <- _].
Qed.

Lemma refresh_keeps e (y y' : sys) r a : Dev y -> handle_refresh sha256 e y r = (y', a) -> Dev y'.
Proof.
  intros Hy. unfold handle_refresh. destruct (apiService_JsonString _ _ _) as [u ok1]. pass.
  destruct (AuthService_Refresh _ _ _ _ _ _) as [[au st] tok] eqn:El. pose proof El as Ha. apply refresh_accounts in Ha.
  assert (Dev (set_auth y au)) as Hd.
  { eapply (session_keeps y (OpRefresh true _ _ _)); [done|exact I| |exact Ha]. cbn [AuthService.run]. by rewrite El. }
  destruct st, tok; by intros [= <- _].
Qed.

Lemma revoke_keeps e (y y' : sys) r a : Dev y -> handle_revoke sha256 e y r = (y', a) -> Dev y'.
Proof.
  intros Hy. unfold handle_revoke. destruct (AuthService_Revoke _ _ _ _ _ _) as [au st] eqn:El.
  pose proof El as Ha. apply revoke_accounts in Ha.
  assert (Dev (set_auth y au)) as Hd by (eapply (session_keeps y (OpRevoke true true _ _)); [done|exact I|exact El|exact Ha]).
  destruct st; by intros [= <- _].
Qed.

Lemma path_username_bytes r : request_ok r -> Forall is_u8 (path_username r users_prefix).
Proof.
  intros [_ Hp]. unfold path_username. apply Forall_app_2; [|constructor; [done|constructor]].
  apply Forall_take, strncpy_bytes; [apply zeros_bytes|]. by apply Forall_drop.
Qed.

Lemma user_defaults_bytes (y : sys) r creating u role en :
  request_ok r -> user_defaults y r creating = inr (u, role, en) -> Forall is_u8 u.
Proof.
  intros Hr. unfold user_defaults. destruct creating.
  - destruct (json_string_bytes (json_body r) (str "username") (zeros UserStore.USER_STORE_USERNAME_SIZE) (json_body_bytes r Hr)
      (zeros_bytes _)) as [_ Hu]. destruct (apiService_JsonString _ _ _) as [v ok]. destruct (negb ok); [done|]. by intros [= <- _ _].
  - destruct (UserStore.UserStore_Find _ _ _) as [[x i]|]; [|done]. intros [= <- _ _]. by apply path_username_bytes.
Qed.

Lemma put_user_keeps e p (y y' : sys) r creating a :
  Dev y -> env_ok e -> request_ok r -> handle_put_user pbkdf2 e p y r creating = (y', a) -> Dev y'.
Proof.
  intros Hy He Hr. unfold handle_put_user. pass.
  destruct (user_defaults y r creating) as [x|[[u role] en]] eqn:Eu; [by intros [= <- _]|].
  apply user_defaults_bytes in Eu; [|done].
  destruct (apiService_JsonString _ _ (zeros 129)) as [pw ok]. pass.
  destruct (apiService_JsonString _ _ role) as [roleText ok']. cbv zeta.
  destruct (AuthService_PutUser _ _ _ _ _ _ _ _ _ _ _) as [au st] eqn:Ep.
  assert (Dev (set_auth y au)) as Hd.
  { apply auth_keeps; [done| |].
    - eapply (put_inv pbkdf2 sha256 pbkdf2_size); [apply (dev_parts _ _ _ _ Hy Users)| |exact Ep].
      unfold env_ok in He. cbn [AuthService.op_ok]. destruct (randomSalt e); [|done]. by destruct He.
    - rewrite <-(shared_accounts y (dev_shared _ _ _ _ Hy)).
      destruct (put_accounts pbkdf2 sha256 _ _ _ _ _ _ _ _ _ _ pbkdf2_size He Eu Ep) as [->|(x & st' & Hx & Es)]; [apply changes_refl|].
      apply (users_step _ _ (UserStore.OpPut (Some x)) st'); [apply (dev_parts _ _ _ _ Hy Users)|exact Hx|exact Es]. }
  destruct st; by intros [= <- _].
Qed.

Lemma delete_user_keeps p (y y' : sys) r a : Dev y -> handle_delete_user p y r = (y', a) -> Dev y'.
Proof.
  intros Hy. unfold handle_delete_user. pass. cbv zeta.
  destruct (AuthService_DeleteUser _ _ _ _) as [au st] eqn:Ed. intros [= <- _].
  apply auth_keeps; [done| |].
  - by eapply delete_inv; [apply (dev_parts _ _ _ _ Hy Users)|].
  - rewrite <-(shared_accounts y (dev_shared _ _ _ _ Hy)).
    destruct (delete_accounts _ _ _ _ _ Ed) as [->|(st' & Es)]; [apply changes_refl|].
    apply (users_step _ _ (UserStore.OpDelete (Some (path_username r users_prefix))) st'); [apply (dev_parts _ _ _ _ Hy Users)|done|exact Es].
Qed.
Lemma tls_certificate_keeps e p (y y' : sys) r a :
  Dev y -> request_ok r -> handle_tls_certificate parse_certificate parse_key check_pair e p y r = (y', a) -> Dev y'.
Proof.
  intros Hy [Hb _]. unfold handle_tls_certificate. pass.
  pass. destruct (TlsServerCredentials_StageCertificate _ _ _ _ _ _ _) as [c st] eqn:E.
  intros [= <- _]. exact (credentials_keeps _ _ _ y true (seeded e) (OpCertificate (Some (body r))) c st Hy Hb E).
Qed.

Lemma tls_private_key_keeps e p (y y' : sys) r a :
  Dev y -> request_ok r -> handle_tls_private_key parse_certificate parse_key check_pair e p y r = (y', a) -> Dev y'.
Proof.
  intros Hy [Hb _]. unfold handle_tls_private_key. pass.
  pass. destruct (TlsServerCredentials_StagePrivateKey _ _ _ _ _ _ _) as [c st] eqn:E.
  intros [= <- _]. exact (credentials_keeps _ _ _ y true (seeded e) (OpKey (Some (body r))) c st Hy Hb E).
Qed.

Abbreviation trust_run := (TrustStore.run parse_der MBEDTLS_ERR_X509_ALLOC_FAILED MBEDTLS_ERR_PK_ALLOC_FAILED
  MBEDTLS_ERR_MPI_ALLOC_FAILED MBEDTLS_ERR_ASN1_ALLOC_FAILED).

Lemma anchors_keep (y : sys) s o st id :
  Dev y -> TrustStore.op_ok o -> trust_run true (y_trust y) o = (s, st, id) ->
  (forall i, removes_anchor o i -> anchor_in_use y i = false) -> Dev (set_trust y s).
Proof. by apply trust_keeps. Qed.

Lemma add_anchor_keeps p (y y' : sys) r a : Dev y -> request_ok r -> handle_add_anchor validate p y r = (y', a) -> Dev y'.
Proof.
  intros Hy [Hb _]. unfold handle_add_anchor. pass.
  destruct (TlsTrustStore_Add _ _ _ _ _) as [[s st] id] eqn:E. intros [= <- _].
  by apply (anchors_keep y s (TrustStore.OpAdd (Some (body r))) st id).
Qed.

(** The references to anchors are to the ids the reset looks at. *)
Lemma in_use_valid (y : sys) id : Dev y -> anchor_in_use y id = true -> id ∈ [1; 2; 3; 4; 5; 6].
Proof.
  intros Hy Hu. apply (dev_references _ _ _ _ Hy) in Hu. unfold TlsTrustStore_Exists in Hu.
  rewrite !andb_true_iff in Hu. destruct Hu as [[[Hv _] _] _]. unfold id_valid in Hv.
  apply andb_true_iff in Hv as [H1%Z.leb_le H2%Z.leb_le].
  change (Z.of_nat TrustStore.TLS_TRUST_STORE_MAX_PERSISTED) with 6 in H2. unfold TrustStore.TLS_TRUST_STORE_MIN_ID in H1.
  rewrite !elem_of_cons. lia.
Qed.

Lemma reset_anchors_keeps p (y y' : sys) a : Dev y -> handle_reset_anchors p y = (y', a) -> Dev y'.
Proof.
  intros Hy. unfold handle_reset_anchors. pass.
  pass_as Ex. destruct (TlsTrustStore_Reset _ _ _) as [s st] eqn:E. intros [= <- _].
  apply (anchors_keep y s TrustStore.OpReset st None); [done..|cbn [TrustStore.run]; by rewrite E|].
  intros i _. destruct (anchor_in_use y i) eqn:Hu; [|done]. exfalso.
  assert (existsb (anchor_in_use y) [1; 2; 3; 4; 5; 6] = true) as Ht; [|congruence].
  apply existsb_exists. exists i. split; [|exact Hu]. by apply list_elem_of_In, (in_use_valid y).
Qed.

Lemma anchor_keeps p (y y' : sys) r deleting a :
  Dev y -> request_ok r -> handle_anchor validate p y r deleting = (y', a) -> Dev y'.
Proof.
  intros Hy [Hb _]. unfold handle_anchor. pass.
  destruct (path_number _ _ _ _) as [id|]; [|by intros [= <- _]]. destruct deleting.
  - pass_as Hu.
    destruct (TlsTrustStore_Delete _ _ _ _) as [s st] eqn:E. intros [= <- _].
    apply (anchors_keep y s (TrustStore.OpDelete id) st None); [done..|cbn [TrustStore.run]; by rewrite E|].
    by intros i ->.
  - destruct (TlsTrustStore_Replace _ _ _ _ _ _) as [s st] eqn:E. intros [= <- _].
    apply (anchors_keep y s (TrustStore.OpReplace id (Some (body r))) st None);
      [done..|cbn [TrustStore.run]; by rewrite E|done].
Qed.

Lemma optional_string_wf json key array n out :
  Forall is_u8 json -> length array = n /\ Forall is_u8 array -> optional_string json key array = Some out ->
  length out = n /\ Forall is_u8 out.
Proof.
  intros Hj [Hn Ha]. unfold optional_string. destruct (apiService_JsonHasKey _ _); [|by intros [= <-]].
  destruct (json_string_bytes json key array Hj Ha) as [Hl Hf]. destruct (apiService_JsonString _ _ _) as [x []]; [|done].
  intros [= <-]. rewrite <-Hn. by split.
Qed.

Lemma callback_members_wf json c enabled m h q port anchor :
  Forall is_u8 json -> c_wf CallbackConfig.c_config c -> callback_members json c = Some (enabled, m, h, q, port, anchor) ->
  is_u8 enabled /\ (length h = CALLBACK_CONFIG_HOST_SIZE /\ Forall is_u8 h) /\ (length q = CALLBACK_CONFIG_PATH_SIZE /\ Forall is_u8 q).
Proof.
  intros Hj (H1 & H2 & H3 & H4 & H5 & H6 & H7)%config_wf. unfold callback_members.
  destruct (optional_boolean _ _ _) as [en|] eqn:E1; [|done]. destruct (optional_string _ _ _) as [m'|]; [|done].
  destruct (optional_string json (str "host") _) as [h'|] eqn:E2; [|done].
  destruct (optional_string json (str "path") _) as [q'|] eqn:E3; [|done].
  destruct (optional_number _ _ _); [|done]. destruct (optional_number _ _ _); [|done]. intros [= <- _ <- <- _ _].
  split; [|split; [exact (optional_string_wf _ _ _ _ _ Hj H6 E2)|exact (optional_string_wf _ _ _ _ _ Hj H7 E3)]].
  unfold optional_boolean in E1. destruct (apiService_JsonHasKey _ _); [by eapply json_boolean_u8|]. by injection E1 as <-.
Qed.

Lemma put_callback_keeps p (y y' : sys) r a : Dev y -> request_ok r -> handle_put_callback p y r = (y', a) -> Dev y'.
Proof.
  intros Hy Hr. unfold handle_put_callback. pass. cbv zeta.
  destruct (callback_members _ _) as [[[[[[en m] h] q] port] anchor]|] eqn:Em; [|by intros [= <- _]].
  assert (c_wf CallbackConfig.c_config (CallbackConfig_Get true (y_callback y))) as Hc.
  { pose proof (ab_inv_wf _ _ _ _ _ (dev_parts _ _ _ _ Hy Callbacks)) as Hw. by apply cbc_snapshot_wf in Hw as (_ & _ & _ & _ & Hw & _). }
  destruct (callback_members_wf _ _ _ _ _ _ _ _ (json_body_bytes r Hr) Hc Em) as (He & Hh & Hq).
  pass. pass. pass_as Ea. pass.
  destruct (CallbackConfig_Set _ _ _) as [s st] eqn:Es. intros [= <- _].
  eapply (callback_keeps _ _ _ y); [done| |exact Es|].
  - apply config_wf in Hc as (H1 & H2 & H3 & H4 & H5 & H6 & H7). apply config_wf. cbn.
    split_and!; try done; try apply u8_range; try apply u16_range; [|apply Hh..|apply Hq|apply Hq]. by destruct (strcmp_eq m _).
  - cbn. intros Hen. apply orb_false_iff in Ea as [_ Ea]. apply Z.eqb_neq in Hen. rewrite Hen in Ea. cbn in Ea.
    by apply negb_false_iff in Ea.
Qed.
Lemma put_period_keeps p (y y' : sys) r a : Dev y -> handle_put_period p y r = (y', a) -> Dev y'.
Proof.
  intros Hy. unfold handle_put_period. pass. destruct (apiService_JsonNumber _ _) as [n|] eqn:En; [|by intros [= <- _]].
  apply json_number_u32 in En. destruct (HealthCheckConfig_SetPeriodSeconds _ _ _) as [s st] eqn:E. intros [= <- _].
  apply (config_keeps _ _ _ y s (HealthCheckConfig.OpSetPeriod n) st None); [done|done|cbn [HealthCheckConfig.run]; by rewrite E|done].
Qed.

(** What the shared checks of the two resource mutators establish. *)
Lemma resource_accepted (y : sys) port anchor :
  resource_refused y port anchor = None -> TlsTrustStore_Exists true true (y_trust y) (u8 anchor) = true.
Proof.
  unfold resource_refused. destruct (_ || _); [done|]. destruct (_ || negb (TlsTrustStore_Exists _ _ _ _)) eqn:E; [done|].
  intros _. by apply orb_false_iff in E as [_ E%negb_false_iff].
Qed.

Lemma add_resource_keeps p (y y' : sys) r a : Dev y -> request_ok r -> handle_add_resource p y r = (y', a) -> Dev y'.
Proof.
  intros Hy Hr. unfold handle_add_resource. pass. cbv zeta.
  destruct (json_string_bytes (json_body r) (str "host") (zeros HEALTH_CHECK_CONFIG_HOST_SIZE) (json_body_bytes r Hr) (zeros_bytes _)) as [_ Hh].
  destruct (json_string_bytes (json_body r) (str "path") (zeros HEALTH_CHECK_CONFIG_PATH_SIZE) (json_body_bytes r Hr) (zeros_bytes _)) as [_ Hq].
  destruct (apiService_JsonString _ (str "host") _) as [h ok1], (apiService_JsonString _ (str "path") _) as [q ok2].
  destruct (apiService_JsonNumber _ _) as [port|]; [|by intros [= <- _]].
  destruct (apiService_JsonNumber _ _) as [anchor|]; [|by intros [= <- _]]. pass.
  destruct (resource_refused y port anchor) eqn:Ea; [by intros [= <- _]|]. apply resource_accepted in Ea.
  destruct (HealthCheckConfig_AddResource _ _ _ _ _ _ _) as [[s st] idx] eqn:E. intros [= <- _].
  eapply (config_keeps _ _ _ y s (HealthCheckConfig.OpAdd _ _ _ _ _) st idx); [done| |exact E|by intros id <-].
  cbn [HealthCheckConfig.op_wf]. split_and!; [exact Hh|apply u16_range|exact Hq| |apply u8_range].
  destruct (apiService_JsonBoolean _ _) eqn:Eb; [by eapply json_boolean_u8|done].
Qed.

Lemma copy_array_bytes n source : Forall is_u8 source -> Forall is_u8 (copy_array n source).
Proof.
  intros Hs. unfold copy_array. apply Forall_app_2; [|constructor; [done|constructor]].
  apply Forall_take, strncpy_bytes; [apply zeros_bytes|done].
Qed.

Lemma nth_resource_wf (y : sys) i : Dev y -> c_wf HealthCheckConfig.c_resource (nth i (get_resources y) HealthCheckConfig.zero_resource).
Proof.
  intros Hy. pose proof (HealthCheckConfig.Inv_wf _ (dev_parts _ _ _ _ Hy Resources)) as Hw.
  apply cfg_snapshot_wf in Hw as (_ & _ & _ & _ & _ & [_ Hw] & _). change (get_resources y) with (HealthCheckConfig.resources (snapshot (y_config y))).
  destruct (nth_in_or_default i (HealthCheckConfig.resources (snapshot (y_config y))) HealthCheckConfig.zero_resource) as [Hin| ->];
    [|apply zero_resource_wf]. rewrite List.Forall_forall in Hw. by apply Hw.
Qed.

Lemma resource_keeps p (y y' : sys) r deleting a : Dev y -> request_ok r -> handle_resource p y r deleting = (y', a) -> Dev y'.
Proof.
  intros Hy Hr. unfold handle_resource. pass. destruct (path_number _ _ _ _) as [index|]; [|by intros [= <- _]].
  destruct deleting.
  - unfold delete_resource. destruct (HealthCheckConfig_DeleteResource _ _ _) as [s st] eqn:E. intros [= <- _].
    apply (config_keeps _ _ _ y s (HealthCheckConfig.OpDelete (Z.to_nat index)) st None); [done|done|cbn [HealthCheckConfig.run]; by rewrite E|done].
  - unfold update_resource. cbv zeta.
    pose proof (nth_resource_wf y (Z.to_nat index) Hy) as Hx. revert Hx.
    generalize (nth (Z.to_nat index) (get_resources y) HealthCheckConfig.zero_resource). intros x Hx. pass.
    apply resource_wf in Hx as (Ho & He & Hta & Hrs & Hpo & [_ Hh] & [_ Hq]).
    destruct (json_string_bytes (json_body r) (str "host") (copy_array HEALTH_CHECK_CONFIG_HOST_SIZE (HealthCheckConfig.host x))
      (json_body_bytes r Hr) (copy_array_bytes _ _ Hh)) as [_ Hh'].
    destruct (json_string_bytes (json_body r) (str "path") (copy_array HEALTH_CHECK_CONFIG_PATH_SIZE (HealthCheckConfig.path x))
      (json_body_bytes r Hr) (copy_array_bytes _ _ Hq)) as [_ Hq'].
    destruct (apiService_JsonString _ (str "host") _) as [h ok1], (apiService_JsonString _ (str "path") _) as [q ok2].
    destruct (resource_refused y _ _) eqn:Ea; [by intros [= <- _]|]. apply resource_accepted in Ea.
    destruct (HealthCheckConfig_UpdateResource _ _ _ _ _ _ _ _) as [s st] eqn:E. intros [= <- _].
    eapply (config_keeps _ _ _ y s (HealthCheckConfig.OpUpdate (Z.to_nat index) _ _ _ _ _) st None);
      [done| |cbn [HealthCheckConfig.run]; by rewrite E|by intros id <-].
    cbn [HealthCheckConfig.op_wf]. split_and!; [exact Hh'|apply u16_range|exact Hq'| |apply u8_range].
    destruct (apiService_JsonBoolean _ _) eqn:Eb; [by eapply json_boolean_u8|done].
Qed.

Lemma buzzer_keeps p (y y' : sys) r hc a : Dev y -> handle_buzzer p y r hc = (y', a) -> Dev y'.
Proof.
  intros Hy. unfold handle_buzzer. pass. destruct (apiService_JsonNumber _ _) as [n|]; [|by intros [= <- _]]. pass. cbv zeta.
  assert (forall b, Dev (set_buzzer y b)) as Hb.
  { intros b. destruct Hy as [Hs Hp Hu]. split; [|intros q; specialize (Hp q); by destruct q|exact Hu].
    unfold shared, set_buzzer, device. unfold shared, device in Hs. destruct y. unfold share in *. cbn in *. congruence. }
  destruct (if hc then _ else _) as [b queued]. destruct (negb queued); by intros [= <- _].
Qed.

Lemma logs_keep (y y' : sys) a : Dev y -> handle_logs y = (y', a) -> Dev y'.
Proof.
  intros Hy. unfold handle_logs. destruct (HealthCheckLog_GetRecent _ _ _) as [l es] eqn:El. apply get_recent_mem in El as [E1 E2].
  intros [= <- _]. destruct Hy as [Hs Hp Hu]. split; [apply shared_share|by apply set_log_parts|exact Hu].
Qed.
Lemma authorized_keeps e p (y y' : sys) r a :
  Dev y -> env_ok e -> request_ok r ->
  dispatch_authorized pbkdf2 sha256 validate parse_certificate parse_key check_pair watermark e p y r = (y', a) -> Dev y'.
Proof.
  intros Hy He Hr. unfold dispatch_authorized.
  repeat (match goal with |- (if ?c then _ else _) = _ -> _ => destruct c end;
    [lazymatch goal with
     | |- (_, _) = _ -> _ => by intros [= <- _]
     | |- handle_revoke _ _ _ _ = _ -> _ => by apply revoke_keeps
     | |- handle_buzzer _ _ _ _ = _ -> _ => by apply buzzer_keeps
     | |- handle_put_user _ _ _ _ _ _ = _ -> _ => by apply put_user_keeps
     | |- handle_delete_user _ _ _ = _ -> _ => by apply delete_user_keeps
     | |- handle_tls_certificate _ _ _ _ _ _ _ = _ -> _ => by apply tls_certificate_keeps
     | |- handle_tls_private_key _ _ _ _ _ _ _ = _ -> _ => by apply tls_private_key_keeps
     | |- handle_add_anchor _ _ _ _ = _ -> _ => by apply add_anchor_keeps
     | |- handle_reset_anchors _ _ = _ -> _ => by apply reset_anchors_keeps
     | |- handle_anchor _ _ _ _ _ = _ -> _ => by apply anchor_keeps
     | |- handle_put_callback _ _ _ = _ -> _ => by apply put_callback_keeps
     | |- handle_put_period _ _ _ = _ -> _ => by apply put_period_keeps
     | |- handle_add_resource _ _ _ = _ -> _ => by apply add_resource_keeps
     | |- handle_resource _ _ _ _ = _ -> _ => by apply resource_keeps
     | |- handle_logs _ = _ -> _ => by apply logs_keep
     end|]).
  by intros [= <- _].
Qed.

Lemma dispatch_keeps e (y y' : sys) r a : Dev y -> env_ok e -> request_ok r -> Dispatch e y r = (y', a) -> Dev y'.
Proof.
  intros Hy He Hr. unfold apiService_Dispatch. pass.
  destruct (is_route r POST (str "/api/v1/auth/token")); [by apply token_keeps|].
  destruct (is_route r POST (str "/api/v1/auth/refresh")); [by apply refresh_keeps|].
  destruct (apiService_Authorize _ _ _ _); [by apply authorized_keeps|by intros [= <- _]].
Qed.

(** The device after a sequence of requests. *)
Definition serve (y : sys) (l : list (environment * ApiService_RequestTypeDef)) : sys :=
  fold_left (fun y '(e, r) => (Dispatch e y r).1) l y.

(** C4. No sequence of requests corrupts the device: whatever is asked, by whom,
    in which order, and however the Flash fails in between, every store still
    holds in its sectors what it serves from RAM, no store has touched the
    sectors of another, account names stay unique and sessions entitled, the
    server's certificate and key pair, and every trust anchor a resource or an
    enabled callback names exists. *)
Theorem device_invariant (y : sys) l :
  Dev y -> Forall (fun x => env_ok x.1 /\ request_ok x.2) l ->
  shared (serve y l) /\ (forall q, part_inv parse_certificate parse_key check_pair q (serve y l)) /\ references_ok (serve y l).
Proof.
  intros Hy Hl. assert (Dev (serve y l)) as [Hs Hp Hr]; [|done].
  revert y Hy. induction Hl as [|[e r] l [He Hr] _ IH]; intros y Hy; [exact Hy|].
  apply IH. destruct (Dispatch e y r) as [y' a] eqn:E. exact (dispatch_keeps e y y' r a Hy He Hr E).
Qed.
End handlers.

(** ** The started device *)

Lemma assemble_agrees u r c a k l :
  let f := assemble u r c a k l in
  agrees Users (fl_mem u) (fl_mem f) /\ agrees Resources (fl_mem r) (fl_mem f) /\ agrees Callbacks (fl_mem c) (fl_mem f)
  /\ agrees Anchors (fl_mem a) (fl_mem f) /\ agrees Credentials (fl_mem k) (fl_mem f) /\ agrees Logs (fl_mem l) (fl_mem f).
Proof.
  cbv zeta. assert (forall m q (g : simflash), m q = fl_mem g -> agrees q (fl_mem g) (fl_mem (SimFlash (overlay m) []))) as Hq.
  { intros m q g E x Hx. change (u8 (overlay m x) = fl_mem g x). rewrite (overlay_part _ q x Hx), E.
    apply u8_id. exact (fl_mem_byte g x). }
  split_and!; by apply Hq.
Qed.

Lemma demo_unused id : anchor_in_use demo_system id = false.
Proof.
  unfold anchor_in_use.
  assert (HealthCheckConfig.resources (snapshot HealthCheckConfig.demo0) = replicate 6 HealthCheckConfig.zero_resource) as E1
    by (vm_compute; reflexivity).
  assert (cb_enabled (config (snapshot CallbackConfig.demo0)) = 0) as E2 by (vm_compute; reflexivity).
  change (existsb (fun r => negb (HealthCheckConfig.occupied r =? 0) && (HealthCheckConfig.trustAnchorId r =? id))
      (HealthCheckConfig.resources (snapshot HealthCheckConfig.demo0))
    || (negb (cb_enabled (config (snapshot CallbackConfig.demo0)) =? 0)
        && (cb_trustAnchorId (config (snapshot CallbackConfig.demo0)) =? id)) = false).
  by rewrite E1, E2.
Qed.

Abbreviation demo_inv := (DeviceInv ServerCredentials.demo_parse ServerCredentials.demo_parse ServerCredentials.demo_check).

Lemma demo_system_inv : demo_inv demo_system.
Proof.
  split; [apply shared_share| |intros id Hu; by rewrite demo_unused in Hu].
  destruct (assemble_agrees (AbStore.flash (accounts_store AuthService.demo_logged)) (AbStore.flash HealthCheckConfig.demo0)
    (AbStore.flash CallbackConfig.demo0) (AbStore.flash TrustStore.demo_started)
    (AbStore.flash (st_store ServerCredentials.demo_state)) (HealthCheckLog.flash HealthCheckLog.demo0))
    as (Hu & Hr & Hc & Ha & Hk & Hl).
  exact (share_parts _ _ _ _ _ _ _ _ _ _ _ _ _ demo_logged_inv Hu cfg_demo0_inv Hr cbc_demo0_inv Hc
    (proj1 demo_started_spec) Ha demo_credentials_inv Hk (proj1 log_demo0_inv) Hl).
Qed.

(** The master user adds an anchor, a resource that uses it, and tries to
    delete the anchor. *)
Definition master_request (m p b : bytes) : environment * ApiService_RequestTypeDef :=
  (demo_env, Request m p (authService_Hex (demo_random 1)) b).

Definition demo_requests : list (environment * ApiService_RequestTypeDef) :=
  [master_request POST (str "/api/v1/trust-anchors") [48; 3; 2; 1; 0];
   master_request POST (str "/api/v1/health-check/resources")
     (quoted "{'host':'example.org','path':'/','port':443,'trust_anchor_id':1}");
   master_request DELETE (str "/api/v1/trust-anchors/1") []].

Lemma demo_requests_ok : Forall (fun x : environment * ApiService_RequestTypeDef => env_ok x.1 /\ request_ok x.2) demo_requests.
Proof.
  assert (env_ok demo_env) as He by (split; [reflexivity|apply zeros_bytes]).
  assert (forall l : bytes, forallb (fun c => (0 <=? c) && (c <? 256)) l = true -> Forall is_u8 l) as Hb.
  { intros l Hl. apply List.Forall_forall. intros c Hc. rewrite forallb_forall in Hl. specialize (Hl c Hc). unfold is_u8. lia. }
  assert (forall m p b, forallb (fun c => (0 <=? c) && (c <? 256)) b && forallb (fun c => (0 <=? c) && (c <? 256)) p = true ->
    env_ok (master_request m p b).1 /\ request_ok (master_request m p b).2) as Hm.
  { intros m p b [H1 H2]%andb_true_iff. split; [exact He|]. split; by apply Hb. }
  unfold demo_requests. repeat apply List.Forall_cons; try apply List.Forall_nil; apply Hm; vm_compute; reflexivity.
Qed.

Lemma device_invariant_witness :
  references_ok (serve demo_pbkdf2 demo_sha256 (zeros 16) demo_verifier 100000 ServerCredentials.demo_parse
    ServerCredentials.demo_parse ServerCredentials.demo_check (str "1.0") (str "today") (fun _ => 0)
    TrustStore.demo_parse (-10368) (-16256) (-16) (-106) demo_system demo_requests).
Proof.
  refine (proj2 (proj2 (device_invariant demo_pbkdf2 demo_sha256 (zeros 16) demo_verifier 100000 ServerCredentials.demo_parse
    ServerCredentials.demo_parse ServerCredentials.demo_check (str "1.0") (str "today") (fun _ => 0)
    TrustStore.demo_parse (-10368) (-16256) (-16) (-106) demo_pbkdf2_size demo_strings demo_system demo_requests _ _))).
  - exact demo_system_inv.
  - exact demo_requests_ok.
Defined.
