(* ===== verification/Startup.v ===== *)
(** Starting the services once the scheduler runs: the start of
    [healthCheckService_Task] and of [apiService_Task].

    The stores are started one after the other on the one Flash, from zeroed
    RAM.  The theorem is that a power cycle of a device in whose sectors no
    half-finished save lies brings back what the stores held, with the invariant
    of the whole device; the older sector of the log is given up when the active
    one was full, and what was only in RAM (sessions, uploads, the callback
    queue, telemetry, the clock) is gone. *)
From S2P Require Import Prelude Codec NorFlash SimFlash FlashLayout AbStore HealthCheckConfig UserStore.
From S2P Require Import CallbackConfig TlsTypes HealthCheckLog Accounts AuthService ServerCredentials.
From S2P Require Import TrustStore CallbackService TimeService BuzzerService FactoryReset.
From S2P Require Import SharedFlash ApiService ApiSafety ApiInvariant.

(** ** The start of the stores *)

Definition is_ok (st : HealthCheck_StatusTypeDef) : bool := bool_decide (st = HEALTH_CHECK_STATUS_OK).

(** Whether the mutexes, the queue and the tasks could be created, and whether
    [TlsPlatform_Init] succeeded. *)
Record creations := Creations {
  c_platform : bool;
  c_trust : bool;
  c_callback : bool;
  c_config : bool;
  c_log : bool;
  c_queue : bool;
  c_callback_task : bool;
  c_api_task : bool;
  c_sessions : bool;
  c_users : bool;
}.

Section start.
Context {F : Type} `{Flash F}.

(** The variables of all services after a reset. *)
Definition zero_callback : CallbackConfig_SnapshotTypeDef := CallbackConfig.Snapshot 0 0 0 0 zero_config (zeros 2) 0.
Definition no_upload (max : nat) : staged := Staged (zeros max) 0 false.

Definition power_on (f : F) : system F :=
  System (AuthService.State (replicate AUTH_SERVICE_SESSION_COUNT zero_session) (Store UserStore.zero_snapshot 0 f))
    (Store HealthCheckConfig.zero_snapshot 0 f) (Store zero_callback 0 f) (Store TrustStore.zero_snapshot 0 f)
    (ServerCredentials.State (Store ServerCredentials.zero_snapshot 0 f) false
       (no_upload TLS_SERVER_CREDENTIALS_MAX_CERTIFICATE_SIZE) (no_upload TLS_SERVER_CREDENTIALS_MAX_KEY_SIZE))
    (HealthCheckLog.State 0 0 0 f) (CallbackService.State None (Telemetry 0 0 0 0 0 0 0 0)) None (Clock 0 0 false).

Definition start_trust (o : creations) (y : system F) : system F * bool :=
  let '(t, st) := TlsTrustStore_Init (c_trust o) (y_trust y) in (set_trust y t, is_ok st).
Definition start_callback (o : creations) (y : system F) : system F * bool :=
  let '(t, st) := CallbackConfig_Init (c_callback o) (y_callback y) in (set_callback y t, is_ok st).
Definition start_config (o : creations) (y : system F) : system F * bool :=
  let '(t, st) := HealthCheckConfig_Init (c_config o) (y_config y) in (set_config y t, is_ok st).
Definition start_log (o : creations) (y : system F) : system F * bool :=
  let '(t, st) := HealthCheckLog_Init (c_log o) (y_log y) in (set_log y t, is_ok st).
Definition start_credentials (y : system F) : system F * bool :=
  let '(t, st) := TlsServerCredentials_Init (y_credentials y) in (set_credentials y t, is_ok st).
Definition start_queue (o : creations) (y : system F) : system F * bool :=
  let '(q, ok) := CallbackService_Init (c_queue o) (c_callback_task o) (y_queue y) in
  (System (y_auth y) (y_config y) (y_callback y) (y_trust y) (y_credentials y) (y_log y) q (y_buzzer y) (y_clock y), ok).

(** One operand of the disjunction: the next is evaluated if it succeeded. *)
Definition and_then (x : system F * bool) (k : system F -> system F * bool) : system F * bool :=
  let '(y, ok) := x in if ok then k y else (y, false).

(** The initialisation in [healthCheckService_Task]; [false]: the error handler. *)
Definition healthCheckService_Start (o : creations) (y : system F) : system F * bool :=
  and_then (y, c_platform o) (fun y =>
  and_then (start_trust o y) (fun y =>
  and_then (start_callback o y) (fun y =>
  and_then (start_config o y) (fun y =>
  and_then (start_log o y) (fun y =>
  and_then (start_credentials y) (fun y =>
  and_then (start_queue o y) (fun y => (y, c_api_task o)))))))).

(** The initialisation in [apiService_Task]; [false]: the task idles. *)
Definition apiService_Start (o : creations) (y : system F) : system F * bool :=
  let '(a, st) := AuthService_Init (c_sessions o) (UserStore_Init (c_users o)) (y_auth y) in
  (set_auth y a, bool_decide (st = AUTH_SERVICE_STATUS_OK)).

Definition start (o : creations) (y : system F) : system F * bool :=
  and_then (healthCheckService_Start o y) (apiService_Start o).

End start.

Definition all_created : creations := Creations true true true true true true true true true true.

(** ** Starting each store on what it holds *)

Section reload.
Context {F : Type} `{FlashLaws F}.

Lemma trust_reload (r : TlsTrustStore_SnapshotTypeDef) a0 (f : F) x a :
  fl_ready f -> TrustStore.boots (Store r a0 f) = Some (x, a) ->
  exists f', TlsTrustStore_Init true (Store r a0 f) = (Store x a f', HEALTH_CHECK_STATUS_OK) /\ fl_ready f'
    /\ mem_eq (fl_mem f') (fl_mem f).
Proof.
  intros Hr Hb. destruct (TlsTrustStore_Init true (Store r a0 f)) as [s' st] eqn:E.
  pose proof (init_current_ready (Store r a0 f) s' st Hr E) as Hc. rewrite Hb in Hc. destruct Hc as (-> & <- & <- & M & Hr').
  exists (AbStore.flash s'). split; [by destruct s'|]. by split.
Qed.

Lemma callback_reload (r : CallbackConfig_SnapshotTypeDef) a0 (f : F) x a :
  fl_ready f -> CallbackConfig.boots (Store r a0 f) = Some (x, a) ->
  exists f', CallbackConfig_Init true (Store r a0 f) = (Store x a f', HEALTH_CHECK_STATUS_OK) /\ fl_ready f'
    /\ mem_eq (fl_mem f') (fl_mem f).
Proof.
  intros Hr Hb. unfold CallbackConfig_Init. cbn [negb AbStore.flash].
  match goal with |- context [load_newest ?c ?v ?g ?A ?B ?f] => destruct (load_newest_ready c v g A B f Hr) as (f' & E & Hr' & M) end.
  rewrite E. unfold CallbackConfig.boots, ab_boots in Hb. cbn [AbStore.flash] in Hb. rewrite Hb. by exists f'.
Qed.

Lemma config_reload (r : HealthCheckConfig_SnapshotTypeDef) a0 (f : F) x a :
  fl_ready f -> HealthCheckConfig.boots (Store r a0 f) = Some (x, a) ->
  exists f', HealthCheckConfig_Init true (Store r a0 f) = (Store x a f', HEALTH_CHECK_STATUS_OK) /\ fl_ready f'
    /\ mem_eq (fl_mem f') (fl_mem f).
Proof.
  intros Hr Hb. destruct (config_init (Store r a0 f) Hr) as (s' & E & Hr' & _ & _ & Hs). rewrite Hb in Hs.
  destruct Hs as (<- & <- & M). exists (AbStore.flash s'). split; [rewrite E; by destruct s'|]. by split.
Qed.

(** Credentials and accounts may never have been stored. *)
Lemma credentials_reload (r : TlsServerCredentials_SnapshotTypeDef) a0 (f : F) v c k :
  fl_ready f ->
  exists f', TlsServerCredentials_Init (ServerCredentials.State (Store r a0 f) v c k)
    = (match ServerCredentials.boots (ServerCredentials.State (Store r a0 f) v c k) with
       | Some (x, a) => ServerCredentials.State (Store x a f') true c k
       | None => ServerCredentials.State (Store ServerCredentials.zero_snapshot FLASH_LAYOUT_TLS_SERVER_CREDENTIALS_SECTOR_B f') false c k
       end, HEALTH_CHECK_STATUS_OK) /\ fl_ready f' /\ mem_eq (fl_mem f') (fl_mem f).
Proof.
  intros Hr. unfold TlsServerCredentials_Init. cbn [st_store AbStore.flash].
  match goal with |- context [load_newest ?c ?v ?g ?A ?B ?f] => destruct (load_newest_ready c v g A B f Hr) as (f' & E & Hr' & M) end.
  rewrite E. unfold ServerCredentials.boots, ab_boots. cbn [AbStore.flash st_store stagedCertificate stagedKey].
  exists f'. split; [|by split]. by destruct (boot _ _ _ _ _ _) as [[x a]|].
Qed.

Lemma users_reload (r : UserStore_SnapshotTypeDef) a0 (f : F) :
  fl_ready f ->
  exists f', UserStore_Init true (Store r a0 f)
    = (match UserStore.boots (Store r a0 f) with
       | Some (x, a) => Store x a f'
       | None => Store UserStore.zero_snapshot USER_STORE_SECTOR_B f'
       end, HEALTH_CHECK_STATUS_OK) /\ fl_ready f' /\ mem_eq (fl_mem f') (fl_mem f).
Proof.
  intros Hr. unfold UserStore_Init. cbn [negb AbStore.flash].
  match goal with |- context [load_newest ?c ?v ?g ?A ?B ?f] => destruct (load_newest_ready c v g A B f Hr) as (f' & E & Hr' & M) end.
  rewrite E. unfold UserStore.boots, ab_boots. cbn [AbStore.flash]. exists f'. split; [|by split].
  by destruct (boot _ _ _ _ _ _) as [[x a]|].
Qed.

End reload.

Section restart.
Context {F : Type} `{FlashLaws F}.
Context (parse_certificate parse_key : bytes -> bool) (check_pair : bytes -> bytes -> bool).

Lemma roll_changes (s : HealthCheckLog.state F) b s' ok :
  b = 0 \/ b = 1 -> healthCheckLog_RollToSector s b = (s', ok) ->
  changes Logs (fl_mem (HealthCheckLog.flash s)) (fl_mem (HealthCheckLog.flash s')).
Proof.
  intros Hb. unfold healthCheckLog_RollToSector. destruct (W25Q64_EraseSector _ _) as [f st] eqn:E.
  apply erase_outside in E; [|apply sector_base_pos]. intros Er.
  assert (HealthCheckLog.flash s' = f) as -> by (destruct (negb (flash_ok st)); by injection Er as <- _).
  intros x Hx. apply E. intros Hin. apply Hx. unfold healthCheckLog_SectorBase in Hin. destruct Hb as [->| ->]; cbn [Z.eqb] in Hin; in_part_tac.
Qed.

(** Starting the log writes nothing outside its sectors. *)
Lemma log_init_changes (s s' : HealthCheckLog.state F) st :
  fl_ready (HealthCheckLog.flash s) -> HealthCheckLog_Init true s = (s', st) ->
  changes Logs (fl_mem (HealthCheckLog.flash s)) (fl_mem (HealthCheckLog.flash s')).
Proof.
  intros Hr. unfold HealthCheckLog_Init. cbn [negb].
  destruct (scan_sector_spec (HealthCheckLog.flash s) _ 0 Hr (reflexivity _)) as (f1 & -> & Hr1 & M1).
  destruct (scan_sector_spec f1 _ 1 Hr1 M1) as (f2 & -> & Hr2 & M2).
  assert (forall q n k b s'' ok, b = 0 \/ b = 1 -> healthCheckLog_RollToSector (HealthCheckLog.State q n k f2) b = (s'', ok) ->
    changes Logs (fl_mem (HealthCheckLog.flash s)) (fl_mem (HealthCheckLog.flash s''))) as Hroll.
  { intros q n k b s'' ok Hb E x Hx. rewrite (roll_changes _ _ _ _ Hb E x Hx). apply M2. }
  destruct (_ && _).
  { unfold roll_status. destruct (healthCheckLog_RollToSector _ _) as [s1 ok] eqn:E. intros [= <- _].
    eapply Hroll; [|exact E]. by left. }
  destruct (_ <? _)%nat; [intros [= <- _]; by apply mem_eq_changes|].
  unfold roll_status. destruct (healthCheckLog_RollToSector _ _) as [s1 ok] eqn:E. intros [= <- _].
  eapply Hroll; [|exact E]. destruct (_ <=? _); [by right|by left].
Qed.

(** What a restart would load is what is served: no save was cut half way. *)
Record settled (y : system F) : Prop := {
  se_trust : TrustStore.boots (y_trust y) = Some (snapshot (y_trust y), activeAddress (y_trust y));
  se_callback : CallbackConfig.boots (y_callback y) = Some (snapshot (y_callback y), activeAddress (y_callback y));
  se_config : HealthCheckConfig.boots (y_config y) = Some (snapshot (y_config y), activeAddress (y_config y));
  se_credentials : ServerCredentials.boots (y_credentials y) =
    if hasValidSnapshot (y_credentials y) then Some (snapshot (st_store (y_credentials y)), activeAddress (st_store (y_credentials y))) else None;
  se_builtin : hasValidSnapshot (y_credentials y) = false ->
    activeAddress (st_store (y_credentials y)) = FLASH_LAYOUT_TLS_SERVER_CREDENTIALS_SECTOR_B;
  se_users : let s := accounts_store (y_auth y) in
    match UserStore.boots s with
    | Some (x, a) => snapshot s = x /\ activeAddress s = a
    | None => snapshot s = UserStore.zero_snapshot /\ activeAddress s = USER_STORE_SECTOR_B
    end;
}.

(** What a store loads depends on its part of the device only. *)
Lemma trust_boots (s s' : store TlsTrustStore_SnapshotTypeDef F) :
  agrees Anchors (fl_mem (AbStore.flash s)) (fl_mem (AbStore.flash s')) -> TrustStore.boots s' = TrustStore.boots s.
Proof. exact (boot_agrees _ _ _ _ _ BANK_BYTES Anchors anchors_A anchors_B _ _). Qed.
Lemma callback_boots (s s' : store CallbackConfig_SnapshotTypeDef F) :
  agrees Callbacks (fl_mem (AbStore.flash s)) (fl_mem (AbStore.flash s')) -> CallbackConfig.boots s' = CallbackConfig.boots s.
Proof. exact (boot_agrees _ _ _ _ _ W25Q64_SECTOR_SIZE Callbacks callbacks_A callbacks_B _ _). Qed.
Lemma config_boots (s s' : store HealthCheckConfig_SnapshotTypeDef F) :
  agrees Resources (fl_mem (AbStore.flash s)) (fl_mem (AbStore.flash s')) -> HealthCheckConfig.boots s' = HealthCheckConfig.boots s.
Proof. exact (boot_agrees _ _ _ _ _ W25Q64_SECTOR_SIZE Resources resources_A resources_B _ _). Qed.
Lemma credentials_boots (s s' : ServerCredentials.state F) :
  agrees Credentials (fl_mem (AbStore.flash (st_store s))) (fl_mem (AbStore.flash (st_store s'))) ->
  ServerCredentials.boots s' = ServerCredentials.boots s.
Proof. exact (boot_agrees _ _ _ _ _ W25Q64_SECTOR_SIZE Credentials credentials_A credentials_B _ _). Qed.
Lemma users_boots (s s' : store UserStore_SnapshotTypeDef F) :
  agrees Users (fl_mem (AbStore.flash s)) (fl_mem (AbStore.flash s')) -> UserStore.boots s' = UserStore.boots s.
Proof. exact (boot_agrees _ _ _ _ _ W25Q64_SECTOR_SIZE Users users_A users_B _ _). Qed.

(** No save was cut half way in a manner a start-up would notice: in every pair
    of sectors, the one not in use holds nothing that passes the validity check
    and is not older than what is served ([spare_older]); and a store that was
    never saved to counts its second sector as active, as a start-up leaves it. *)
Record undisturbed (y : system F) : Prop := {
  un_trust : spare_older TrustStore.c_snapshot tlsTrustStore_IsSnapshotValid TrustStore.generation
    FLASH_LAYOUT_TLS_TRUST_STORE_BANK_A FLASH_LAYOUT_TLS_TRUST_STORE_BANK_B
    (fl_mem (AbStore.flash (y_trust y))) (snapshot (y_trust y)) (activeAddress (y_trust y));
  un_callback : spare_older CallbackConfig.c_snapshot callbackConfig_IsValid CallbackConfig.generation
    FLASH_LAYOUT_CALLBACK_CONFIG_SECTOR_A FLASH_LAYOUT_CALLBACK_CONFIG_SECTOR_B
    (fl_mem (AbStore.flash (y_callback y))) (snapshot (y_callback y)) (activeAddress (y_callback y));
  un_config : spare_older HealthCheckConfig.c_snapshot healthCheckConfig_IsValid HealthCheckConfig.generation
    HEALTH_CHECK_CONFIG_SECTOR_A HEALTH_CHECK_CONFIG_SECTOR_B
    (fl_mem (AbStore.flash (y_config y))) (snapshot (y_config y)) (activeAddress (y_config y));
  un_credentials : let s := st_store (y_credentials y) in
    spare_older ServerCredentials.c_snapshot tlsServerCredentials_IsValid ServerCredentials.generation
      FLASH_LAYOUT_TLS_SERVER_CREDENTIALS_SECTOR_A FLASH_LAYOUT_TLS_SERVER_CREDENTIALS_SECTOR_B
      (fl_mem (AbStore.flash s)) (snapshot s) (activeAddress s);
  un_builtin : hasValidSnapshot (y_credentials y) = false ->
    activeAddress (st_store (y_credentials y)) = FLASH_LAYOUT_TLS_SERVER_CREDENTIALS_SECTOR_B;
  un_users : let s := accounts_store (y_auth y) in
    spare_older UserStore.c_snapshot userStore_IsValid UserStore.generation USER_STORE_SECTOR_A USER_STORE_SECTOR_B
      (fl_mem (AbStore.flash s)) (snapshot s) (activeAddress s);
  un_no_users : let s := accounts_store (y_auth y) in
    ab_fresh UserStore.c_snapshot userStore_IsValid USER_STORE_SECTOR_A USER_STORE_SECTOR_B s ->
    activeAddress s = USER_STORE_SECTOR_B;
}.

(** On such a device a start-up finds what is served. *)
Lemma undisturbed_settled y :
  (forall q, part_inv parse_certificate parse_key check_pair q y) -> undisturbed y -> settled y.
Proof.
  intros Hp [U1 U2 U3 U4 U5 U6 U7]. pose proof (Hp Anchors) as Ha. pose proof (Hp Callbacks) as Hc.
  pose proof (Hp Resources) as Hr. pose proof (Hp Credentials) as Hk. pose proof (Hp Users) as Hu. cbn [part_inv] in *.
  split.
  - exact (boot_spare _ _ _ _ _ BANK_BYTES _ _ _ Ha U1).
  - exact (boot_spare _ _ _ _ _ W25Q64_SECTOR_SIZE _ _ _ Hc U2).
  - exact (boot_spare _ _ _ _ _ W25Q64_SECTOR_SIZE _ _ _ Hr U3).
  - destruct Hk as [K1 K2 _ _]. unfold ServerCredentials.boots, ab_boots. destruct (hasValidSnapshot (y_credentials y)).
    + exact (boot_spare _ _ _ _ _ W25Q64_SECTOR_SIZE _ _ _ (proj1 (K1 eq_refl)) U4).
    + destruct (K2 eq_refl) as [[F1 F2] _]. exact (boot_spare_fresh _ _ _ _ _ W25Q64_SECTOR_SIZE _ _ _ F1 F2 U4).
  - exact U5.
  - destruct Hu as [[Hst _] _ _ _ _]. cbv zeta in *. set (s := accounts_store (y_auth y)) in *.
    unfold UserStore.boots, ab_boots. destruct Hst as [Hpub|[Hf Hz]].
    + rewrite (boot_spare _ _ _ _ _ W25Q64_SECTOR_SIZE _ _ _ Hpub U6). done.
    + destruct Hf as [F1 F2]. rewrite (boot_spare_fresh _ _ _ _ _ W25Q64_SECTOR_SIZE _ _ _ F1 F2 U6).
      split; [done|]. apply U7. by split.
Qed.

(** The device after a restart: the stores as before on the device as it is now,
    the log as it was found, no session and no upload. *)
Definition restarted (y : system F) (l : HealthCheckLog.state F) (f : F) : system F :=
  share f (System (AuthService.State (replicate AUTH_SERVICE_SESSION_COUNT zero_session) (accounts_store (y_auth y)))
    (y_config y) (y_callback y) (y_trust y)
    (ServerCredentials.State (st_store (y_credentials y)) (hasValidSnapshot (y_credentials y))
       (no_upload TLS_SERVER_CREDENTIALS_MAX_CERTIFICATE_SIZE) (no_upload TLS_SERVER_CREDENTIALS_MAX_KEY_SIZE))
    l (CallbackService.State (Some []) (Telemetry 0 0 0 0 0 0 0 0)) None (Clock 0 0 false)).

Lemma restarted_inv y l f :
  DeviceInv parse_certificate parse_key check_pair y -> HealthCheckLog.Inv l ->
  (forall q, q <> Logs -> agrees q (fl_mem (device y)) (fl_mem f)) ->
  agrees Logs (fl_mem (HealthCheckLog.flash l)) (fl_mem f) ->
  DeviceInv parse_certificate parse_key check_pair (restarted y l f).
Proof.
  intros [Hs Hp Hr] Hl Hq Hlog. pose proof (fun g E => on_device (F := F) g y Hs E) as Hdev. split.
  - apply shared_share.
  - pose proof (Hp Users) as Hu. pose proof (Hp Resources) as Hre. pose proof (Hp Callbacks) as Hc. pose proof (Hp Anchors) as Ha.
    pose proof (Hp Credentials) as Hk. cbn [part_inv] in *. apply share_parts; try done.
    + destruct Hu as [H1 H2 H3 H4 H5]. split; cbn [accounts_store sessions]; [done|done|done| |].
      * intros i j x z Hx. apply lookup_replicate in Hx as [-> _]. done.
      * intros i x Hx. apply lookup_replicate in Hx as [-> _]. done.
    + cbn [accounts_store]. rewrite <-(Hdev (fun z => AbStore.flash (accounts_store (y_auth z))) eq_refl). by apply Hq.
    + rewrite <-(Hdev (fun z => AbStore.flash (y_config z)) eq_refl). by apply Hq.
    + rewrite <-(Hdev (fun z => AbStore.flash (y_callback z)) eq_refl). by apply Hq.
    + rewrite <-(Hdev (fun z => AbStore.flash (y_trust z)) eq_refl). by apply Hq.
    + destruct Hk as [H1 H2 H3 H4]. split; cbn [hasValidSnapshot st_store stagedCertificate stagedKey]; [done|done| |];
        (split; [apply length_zeros|]; split; [apply zeros_bytes|cbn; lia]).
    + cbn [st_store]. rewrite <-(Hdev (fun z => AbStore.flash (st_store (y_credentials z))) eq_refl). by apply Hq.
  - exact Hr.
Qed.

(** Undisturbed components put together on a device that has each one's part. *)
Lemma share_undisturbed f a c cb t cr l q b k :
  let y := System a c cb t cr l q b k in
  undisturbed y -> (forall p, part_inv parse_certificate parse_key check_pair p y) ->
  agrees Anchors (fl_mem (AbStore.flash t)) (fl_mem f) ->
  agrees Callbacks (fl_mem (AbStore.flash cb)) (fl_mem f) ->
  agrees Resources (fl_mem (AbStore.flash c)) (fl_mem f) ->
  agrees Credentials (fl_mem (AbStore.flash (st_store cr))) (fl_mem f) ->
  agrees Users (fl_mem (AbStore.flash (accounts_store a))) (fl_mem f) ->
  undisturbed (share f y).
Proof.
  intros y [U1 U2 U3 U4 U5 U6 U7] Hp A1 A2 A3 A4 A5. pose proof (Hp Anchors) as Ha. pose proof (Hp Callbacks) as Hc.
  pose proof (Hp Resources) as Hr. pose proof (Hp Credentials) as Hk. pose proof (Hp Users) as Hu. cbn [part_inv] in *.
  assert (Husers : activeAddress (accounts_store a) = USER_STORE_SECTOR_A \/ activeAddress (accounts_store a) = USER_STORE_SECTOR_B).
  { destruct Hu as [[[[? _]|[[? _] _]] _] _ _ _ _]; done. }
  split; cbn [y share y_trust y_callback y_config y_credentials y_auth accounts_store st_store hasValidSnapshot
    on_flash snapshot activeAddress AbStore.flash] in *.
  - exact (spare_agrees _ _ _ _ _ BANK_BYTES Anchors anchors_A anchors_B _ _ _ _ (proj1 Ha) A1 U1).
  - exact (spare_agrees _ _ _ _ _ W25Q64_SECTOR_SIZE Callbacks callbacks_A callbacks_B _ _ _ _ (proj1 Hc) A2 U2).
  - exact (spare_agrees _ _ _ _ _ W25Q64_SECTOR_SIZE Resources resources_A resources_B _ _ _ _ (proj1 Hr) A3 U3).
  - refine (spare_agrees _ _ _ _ _ W25Q64_SECTOR_SIZE Credentials credentials_A credentials_B _ _ _ _ _ A4 U4).
    destruct Hk as [K1 K2 _ _]. cbn [y y_credentials] in *.
    destruct (hasValidSnapshot cr); [exact (proj1 (proj1 (K1 eq_refl)))|exact (proj1 (proj1 (K2 eq_refl)))].
  - exact U5.
  - exact (spare_agrees _ _ _ _ _ W25Q64_SECTOR_SIZE Users users_A users_B _ _ _ _ Husers A5 U6).
  - intros [F1 F2]. apply U7. split; [exact F1|].
    pose proof (image_agrees UserStore.c_snapshot _ _ W25Q64_SECTOR_SIZE Users users_A users_B _ _ _ Husers A5) as Hi.
    cbn [on_flash activeAddress AbStore.flash] in F2. rewrite Hi in F2. exact F2.
Qed.

Lemma restarted_undisturbed y l f :
  shared y -> (forall p, part_inv parse_certificate parse_key check_pair p y) -> undisturbed y ->
  (forall q, q <> Logs -> agrees q (fl_mem (device y)) (fl_mem f)) ->
  undisturbed (restarted y l f).
Proof.
  intros Hs Hp Hu Hq. pose proof (fun g E => on_device (F := F) g y Hs E) as Hdev.
  assert (undisturbed (share f y)) as [U1 U2 U3 U4 U5 U6 U7].
  { assert (forall q g, q <> Logs -> g (share (device y) y) = device y -> agrees q (fl_mem (g y)) (fl_mem f)) as Ha
      by (intros q g Hne E; rewrite <-(Hdev g E); by apply Hq).
    pose proof (Ha Anchors (fun z => AbStore.flash (y_trust z)) ltac:(done) eq_refl) as A1.
    pose proof (Ha Callbacks (fun z => AbStore.flash (y_callback z)) ltac:(done) eq_refl) as A2.
    pose proof (Ha Resources (fun z => AbStore.flash (y_config z)) ltac:(done) eq_refl) as A3.
    pose proof (Ha Credentials (fun z => AbStore.flash (st_store (y_credentials z))) ltac:(done) eq_refl) as A4.
    pose proof (Ha Users (fun z => AbStore.flash (accounts_store (y_auth z))) ltac:(done) eq_refl) as A5.
    destruct y as [a c cb t cr l0 q b k]. by apply share_undisturbed. }
  split; assumption.
Qed.

(** The start of the stores before the log: nothing is written. *)
Lemma start_first y :
  shared y -> settled y -> fl_ready (device y) ->
  exists f, let y1 := share f (System (y_auth (power_on f)) (y_config y) (y_callback y) (y_trust y)
                        (y_credentials (power_on f)) (y_log (power_on f)) (y_queue (power_on f)) None (Clock 0 0 false)) in
    (forall k, and_then (start_trust all_created (power_on (device y))) (fun z => and_then (start_callback all_created z)
       (fun z => and_then (start_config all_created z) k)) = k y1)
    /\ fl_ready f /\ mem_eq (fl_mem f) (fl_mem (device y)).
Proof.
  intros Hs Hse Hr. pose proof (fun g E => on_device (F := F) g y Hs E) as Hdev.
  destruct (trust_reload TrustStore.zero_snapshot 0 (device y) (snapshot (y_trust y)) (activeAddress (y_trust y)) Hr) as (f1 & E1 & Hr1 & M1).
  { rewrite <-(se_trust y Hse). apply trust_boots. cbn [AbStore.flash].
    by rewrite <-(Hdev (fun z => AbStore.flash (y_trust z)) eq_refl). }
  destruct (callback_reload zero_callback 0 f1 (snapshot (y_callback y)) (activeAddress (y_callback y)) Hr1) as (f2 & E2 & Hr2 & M2).
  { rewrite <-(se_callback y Hse). apply callback_boots. cbn [AbStore.flash].
    rewrite <-(Hdev (fun z => AbStore.flash (y_callback z)) eq_refl). by apply mem_eq_agrees. }
  destruct (config_reload HealthCheckConfig.zero_snapshot 0 f2 (snapshot (y_config y)) (activeAddress (y_config y)) Hr2) as (f3 & E3 & Hr3 & M3).
  { rewrite <-(se_config y Hse). apply config_boots. cbn [AbStore.flash].
    rewrite <-(Hdev (fun z => AbStore.flash (y_config z)) eq_refl). apply mem_eq_agrees. by rewrite M2. }
  exists f3. split; [|split; [done|by rewrite M3, M2]]. intros k.
  unfold start_trust at 1. change (TlsTrustStore_Init _ _) with (TlsTrustStore_Init true (Store TrustStore.zero_snapshot 0 (device y))). rewrite E1. change (is_ok HEALTH_CHECK_STATUS_OK) with true. cbn [and_then].
  unfold start_callback at 1. change (CallbackConfig_Init _ _) with (CallbackConfig_Init true (Store zero_callback 0 f1)). rewrite E2. change (is_ok HEALTH_CHECK_STATUS_OK) with true. cbn [and_then].
  unfold start_config at 1. change (HealthCheckConfig_Init _ _) with (HealthCheckConfig_Init true (Store HealthCheckConfig.zero_snapshot 0 f2)). rewrite E3. change (is_ok HEALTH_CHECK_STATUS_OK) with true. cbn [and_then]. reflexivity.
Qed.

Lemma start_credentials_again y f c k :
  DeviceInv parse_certificate parse_key check_pair y -> settled y -> fl_ready f -> agrees Credentials (fl_mem (device y)) (fl_mem f) ->
  exists f', TlsServerCredentials_Init (ServerCredentials.State (Store ServerCredentials.zero_snapshot 0 f) false c k)
    = (ServerCredentials.State (on_flash f' (st_store (y_credentials y))) (hasValidSnapshot (y_credentials y)) c k, HEALTH_CHECK_STATUS_OK)
    /\ fl_ready f' /\ mem_eq (fl_mem f') (fl_mem f).
Proof.
  intros [Hs Hp _] Hse Hr Hag. destruct (credentials_reload ServerCredentials.zero_snapshot 0 f false c k Hr) as (f' & E & Hr' & M).
  exists f'. split; [|done]. rewrite E, (credentials_boots (y_credentials y)).
  2: { cbn [st_store AbStore.flash].
       by rewrite <-(on_device (F := F) (fun z => AbStore.flash (st_store (y_credentials z))) y Hs eq_refl). }
  rewrite (se_credentials y Hse). pose proof (Hp Credentials) as Hk. cbn [part_inv] in Hk.
  destruct (hasValidSnapshot (y_credentials y)) eqn:Ev; [done|].
  destruct (ServerCredentials.inv_builtin _ _ _ _ Hk Ev) as [_ Hz]. unfold on_flash. by rewrite Hz, (se_builtin y Hse Ev).
Qed.

Lemma start_users_again y f :
  shared y -> settled y -> fl_ready f -> agrees Users (fl_mem (device y)) (fl_mem f) ->
  exists f', UserStore_Init true (Store UserStore.zero_snapshot 0 f) = (on_flash f' (accounts_store (y_auth y)), HEALTH_CHECK_STATUS_OK)
    /\ fl_ready f' /\ mem_eq (fl_mem f') (fl_mem f).
Proof.
  intros Hs Hse Hr Hag. destruct (users_reload UserStore.zero_snapshot 0 f Hr) as (f' & E & Hr' & M).
  exists f'. split; [|done]. rewrite E, (users_boots (accounts_store (y_auth y))).
  2: { cbn [AbStore.flash]. by rewrite <-(on_device (F := F) (fun z => AbStore.flash (accounts_store (y_auth z))) y Hs eq_refl). }
  pose proof (se_users y Hse) as Hu. cbv zeta in Hu. unfold on_flash.
  destruct (UserStore.boots (accounts_store (y_auth y))) as [[x a]|]; destruct Hu as [-> ->]; done.
Qed.

(** C14. A power cycle keeps what was stored.  Of a device whose invariant holds
    and in whose store sectors no half-finished save lies (the sector of each
    pair that is not in use holds no valid image that is not older, which a
    start-up and every successful save leave so: [ab_save_spare], [tts_commit_spare]), a start from zeroed
    RAM, with every kernel object created and a Flash that answers, succeeds and
    brings back the resources, the callback configuration, the trust anchors,
    the accounts and the server credentials as they were served; the invariant of
    the whole device holds again and the next power cycle can be taken the same
    way.  The log is the same, except that when its active sector was full the
    start has rolled over: the records of that full sector are kept and those of
    the older sector are gone.  What was only in RAM is lost: no session is
    active, no upload is staged, the callback queue is empty, its telemetry and
    the clock are back at their reset values. *)
Theorem restart_keeps_device y :
  DeviceInv parse_certificate parse_key check_pair y -> undisturbed y -> fl_ready (device y) ->
  exists y', start all_created (power_on (device y)) = (y', true)
    /\ DeviceInv parse_certificate parse_key check_pair y' /\ undisturbed y' /\ fl_ready (device y')
    /\ snapshot (y_config y') = snapshot (y_config y) /\ snapshot (y_callback y') = snapshot (y_callback y)
    /\ snapshot (y_trust y') = snapshot (y_trust y)
    /\ snapshot (accounts_store (y_auth y')) = snapshot (accounts_store (y_auth y))
    /\ hasValidSnapshot (y_credentials y') = hasValidSnapshot (y_credentials y)
    /\ snapshot (st_store (y_credentials y')) = snapshot (st_store (y_credentials y))
    /\ (HealthCheckLog.history (y_log y') = HealthCheckLog.history (y_log y)
        \/ nextSlot (y_log y) = 102%nat /\ HealthCheckLog.history (y_log y') = active_part (y_log y))
    /\ Forall (fun x => is_active x = false) (sessions (y_auth y'))
    /\ stagedCertificate (y_credentials y') = no_upload TLS_SERVER_CREDENTIALS_MAX_CERTIFICATE_SIZE
    /\ stagedKey (y_credentials y') = no_upload TLS_SERVER_CREDENTIALS_MAX_KEY_SIZE
    /\ y_queue y' = CallbackService.State (Some []) (Telemetry 0 0 0 0 0 0 0 0)
    /\ y_clock y' = Clock 0 0 false.
Proof.
  intros Hd Hun Hr. pose proof Hd as [Hs Hp Href]. pose proof (undisturbed_settled y Hp Hun) as Hse.
  pose proof (fun g E => on_device (F := F) g y Hs E) as Hdev.
  pose proof (start_first y Hs Hse Hr) as Hfirst. cbv zeta in Hfirst. destruct Hfirst as (f3 & Efirst & Hr3 & M3).
  pose proof (Hp Logs) as Hlog. cbn [part_inv] in Hlog.
  assert (agrees Logs (fl_mem (HealthCheckLog.flash (y_log y))) (fl_mem f3)) as Hag3
    by (rewrite <-(Hdev (fun z => HealthCheckLog.flash (y_log z)) eq_refl); by apply mem_eq_agrees).
  destruct (log_frame (y_log y) f3 Hag3 Hlog) as [Hh3 Hi3].
  destruct (log_restart (HealthCheckLog.with_flash (y_log y) f3) (HealthCheckLog.State 0 0 0 f3) Hi3 Hr3 eq_refl)
    as (l4 & E4 & Hr4 & Hi4 & Hh4).
  pose proof (log_init_changes (HealthCheckLog.State 0 0 0 f3) l4 _ Hr3 E4) as Hch4. cbn [HealthCheckLog.flash] in Hch4.
  set (f4 := HealthCheckLog.flash l4) in *.
  assert (forall q, q <> Logs -> agrees q (fl_mem (device y)) (fl_mem f4)) as Hq4.
  { intros q Hne. eapply agrees_trans; [by apply mem_eq_agrees, M3|]. by eapply changes_agrees; [exact Hch4|]. }
  destruct (start_credentials_again y f4 (no_upload TLS_SERVER_CREDENTIALS_MAX_CERTIFICATE_SIZE)
    (no_upload TLS_SERVER_CREDENTIALS_MAX_KEY_SIZE) Hd Hse Hr4 (Hq4 Credentials ltac:(done))) as (f5 & E5 & Hr5 & M5).
  assert (forall q, q <> Logs -> agrees q (fl_mem (device y)) (fl_mem f5)) as Hq5
    by (intros q Hne; eapply agrees_trans; [by apply Hq4|by apply mem_eq_agrees]).
  destruct (start_users_again y f5 Hs Hse Hr5 (Hq5 Users ltac:(done))) as (f6 & E6 & Hr6 & M6).
  assert (forall q, q <> Logs -> agrees q (fl_mem (device y)) (fl_mem f6)) as Hq6
    by (intros q Hne; eapply agrees_trans; [by apply Hq5|by apply mem_eq_agrees]).
  assert (agrees Logs (fl_mem (HealthCheckLog.flash l4)) (fl_mem f6)) as Hl6 by (apply mem_eq_agrees; by rewrite M6).
  assert (start all_created (power_on (device y)) = (restarted y l4 f6, true)) as E.
  { unfold start, healthCheckService_Start. cbn [and_then c_platform all_created].
    change (Creations true true true true true true true true true true) with all_created. rewrite Efirst.
    unfold start_log at 1. change (HealthCheckLog_Init _ _) with (HealthCheckLog_Init true (HealthCheckLog.State 0 0 0 f3)). rewrite E4.
    change (is_ok HEALTH_CHECK_STATUS_OK) with true. cbn [and_then]. unfold start_credentials at 1.
    match goal with |- context [TlsServerCredentials_Init ?s] => change s with
      (ServerCredentials.State (Store ServerCredentials.zero_snapshot 0 f4) false (no_upload TLS_SERVER_CREDENTIALS_MAX_CERTIFICATE_SIZE)
        (no_upload TLS_SERVER_CREDENTIALS_MAX_KEY_SIZE)) end.
    rewrite E5. change (is_ok HEALTH_CHECK_STATUS_OK) with true. cbn [and_then].
    unfold start_queue at 1. change (CallbackService_Init _ _ _) with (CallbackService.State (Some []) (Telemetry 0 0 0 0 0 0 0 0), true).
    cbn [and_then c_api_task all_created]. unfold apiService_Start, AuthService_Init. cbn [c_sessions all_created negb].
    change (UserStore_Init _ _) with (UserStore_Init true (Store UserStore.zero_snapshot 0 f5)). rewrite E6. reflexivity. }
  exists (restarted y l4 f6). split; [exact E|].
  split; [by apply restarted_inv|]. split; [by apply restarted_undisturbed|].
  split; [exact Hr6|]. do 6 (split; [reflexivity|]).
  split; [|split; [by apply Forall_replicate|by split_and!]].
  destruct (log_frame l4 f6 Hl6 Hi4) as [Hhf _].
  change (y_log (restarted y l4 f6)) with (HealthCheckLog.with_flash l4 f6). rewrite Hhf.
  destruct Hh4 as [Hh4|[Hn Hh4]]; [left; exact (eq_trans Hh4 Hh3)|right]. split; [exact Hn|]. rewrite Hh4.
  exact (f_equal newest (recs_agrees _ _ (activeSector (y_log y)) (nextSlot (y_log y)) Hag3 (HealthCheckLog.inv_slot _ Hlog))).
Qed.
End restart.

(** ** A started device is powered off and on *)

(** The components of the concrete device before they share it. *)
Definition demo_parts : system simflash :=
  System AuthService.demo_logged HealthCheckConfig.demo0 CallbackConfig.demo0 TrustStore.demo_started
    ServerCredentials.demo_state HealthCheckLog.demo0 (y_queue demo_system) (y_buzzer demo_system) (y_clock demo_system).

Lemma demo_parts_undisturbed : undisturbed demo_parts.
Proof.
  split; cbv zeta.
  1-4,6: intros Hv; exfalso; revert Hv; vm_compute; discriminate.
  - intros _. vm_compute. reflexivity.
  - intros _. vm_compute. reflexivity.
Qed.

Lemma demo_undisturbed : undisturbed demo_system.
Proof.
  destruct (assemble_agrees (AbStore.flash (accounts_store AuthService.demo_logged)) (AbStore.flash HealthCheckConfig.demo0)
    (AbStore.flash CallbackConfig.demo0) (AbStore.flash TrustStore.demo_started)
    (AbStore.flash (st_store ServerCredentials.demo_state)) (HealthCheckLog.flash HealthCheckLog.demo0))
    as (Hu & Hr & Hc & Ha & Hk & Hl).
  refine (share_undisturbed ServerCredentials.demo_parse ServerCredentials.demo_parse ServerCredentials.demo_check
    _ _ _ _ _ _ _ _ _ _ demo_parts_undisturbed _ Ha Hc Hr Hk Hu).
  intros []; [exact demo_logged_inv|exact cfg_demo0_inv|exact cbc_demo0_inv|exact (proj1 demo_started_spec)
    |exact demo_credentials_inv|exact (proj1 log_demo0_inv)].
Qed.

Lemma assemble_ready u r c a k l : fl_ready (assemble u r c a k l).
Proof. exact (List.Forall_nil _). Qed.

Lemma demo_ready : fl_ready (device demo_system).
Proof. change (device demo_system) with demo_flash. unfold demo_flash. apply assemble_ready. Qed.

Lemma restart_keeps_device_witness :
  exists y', start all_created (power_on (device demo_system)) = (y', true) /\ references_ok y'
    /\ snapshot (y_trust y') = snapshot (y_trust demo_system) /\ undisturbed y'.
Proof.
  destruct (restart_keeps_device ServerCredentials.demo_parse ServerCredentials.demo_parse ServerCredentials.demo_check demo_system
    demo_system_inv demo_undisturbed demo_ready) as (y' & E & [_ _ Hr] & Hun & _ & _ & _ & Ht & _).
  exists y'. split; [exact E|]. split; [exact Hr|]. split; [exact Ht|exact Hun].
Defined.
