(* ===== verification/KernelList.v ===== *)
(** * The kernel's linked lists ([FreeRTOS-Kernel/list.c], [include/list.h])

    The scheduler keeps its tasks, and every queue the tasks waiting for it, in
    circular doubly linked lists with an end marker.  [heap] is the memory the
    lists live in, one map per structure member; the operations are the pointer
    manipulations of [list.c] and of the inline versions of [list.h].  [alist] is
    what such a list stands for, a sequence with a position in it, and
    [heap_repr] the representation of a family of disjoint lists.  Every
    operation on the pointers implements the operation of the same name on the
    sequences and leaves the other lists alone, which is what [KernelTasks] and
    [KernelQueue] build on. *)

From S2P Require Import Prelude.
From stdpp Require Import list gmap.
#[local] Open Scope Z_scope.

(** [portMAX_DELAY] of a 32-bit tick. *)
Definition portMAX_DELAY : Z := 4294967295.

(** ** The pointer structures *)

(** Memory, by member: a pointer is the address of a list item or of an end
    marker, [0] is [NULL].  A list is named by its address. *)
Record heap := Heap {
  xItemValue : Z -> Z;
  pxNext : Z -> Z;
  pxPrevious : Z -> Z;
  pvOwner : Z -> Z;
  pxContainer : Z -> Z;
  uxNumberOfItems : Z -> Z;
  pxIndex : Z -> Z
}.

(** The end marker follows the two words [uxNumberOfItems] and [pxIndex]. *)
Definition xListEnd (pxList : Z) : Z := pxList + 8.

Definition assign (f : Z -> Z) (p v : Z) : Z -> Z := fun q => if q =? p then v else f q.

Definition set_value (p v : Z) (h : heap) : heap :=
  Heap (assign (xItemValue h) p v) (pxNext h) (pxPrevious h) (pvOwner h) (pxContainer h)
    (uxNumberOfItems h) (pxIndex h).
Definition set_next (p v : Z) (h : heap) : heap :=
  Heap (xItemValue h) (assign (pxNext h) p v) (pxPrevious h) (pvOwner h) (pxContainer h)
    (uxNumberOfItems h) (pxIndex h).
Definition set_prev (p v : Z) (h : heap) : heap :=
  Heap (xItemValue h) (pxNext h) (assign (pxPrevious h) p v) (pvOwner h) (pxContainer h)
    (uxNumberOfItems h) (pxIndex h).
Definition set_container (p v : Z) (h : heap) : heap :=
  Heap (xItemValue h) (pxNext h) (pxPrevious h) (pvOwner h) (assign (pxContainer h) p v)
    (uxNumberOfItems h) (pxIndex h).
Definition set_count (p v : Z) (h : heap) : heap :=
  Heap (xItemValue h) (pxNext h) (pxPrevious h) (pvOwner h) (pxContainer h)
    (assign (uxNumberOfItems h) p v) (pxIndex h).
Definition set_index (p v : Z) (h : heap) : heap :=
  Heap (xItemValue h) (pxNext h) (pxPrevious h) (pvOwner h) (pxContainer h)
    (uxNumberOfItems h) (assign (pxIndex h) p v).

Definition vListInitialise (pxList : Z) (h : heap) : heap :=
  let h := set_index pxList (xListEnd pxList) h in
  let h := set_value (xListEnd pxList) portMAX_DELAY h in
  let h := set_next (xListEnd pxList) (xListEnd pxList) h in
  let h := set_prev (xListEnd pxList) (xListEnd pxList) h in
  set_count pxList 0 h.

Definition vListInitialiseItem (pxItem : Z) (h : heap) : heap := set_container pxItem 0 h.

Definition vListInsertEnd (pxList pxNewListItem : Z) (h : heap) : heap :=
  let index := pxIndex h pxList in
  let h := set_next pxNewListItem index h in
  let h := set_prev pxNewListItem (pxPrevious h index) h in
  let h := set_next (pxPrevious h index) pxNewListItem h in
  let h := set_prev index pxNewListItem h in
  let h := set_container pxNewListItem pxList h in
  set_count pxList (u32 (uxNumberOfItems h pxList + 1)) h.

(** The loop of [vListInsert] that looks for the insertion position, from
    [pxIterator]; [None] when the fuel runs out. *)
Fixpoint insert_position (fuel : nat) (h : heap) (xValueOfInsertion pxIterator : Z) : option Z :=
  match fuel with
  | O => None
  | S fuel =>
    if xItemValue h (pxNext h pxIterator) <=? xValueOfInsertion
    then insert_position fuel h xValueOfInsertion (pxNext h pxIterator)
    else Some pxIterator
  end.

(** [None] stands for a search that does not end; a list of [n] items needs at
    most [n + 1] tests. *)
Definition vListInsert (pxList pxNewListItem : Z) (h : heap) : option heap :=
  let xValueOfInsertion := xItemValue h pxNewListItem in
  let iterator :=
    if xValueOfInsertion =? portMAX_DELAY then Some (pxPrevious h (xListEnd pxList))
    else insert_position (S (Z.to_nat (uxNumberOfItems h pxList))) h xValueOfInsertion
           (xListEnd pxList) in
  match iterator with
  | None => None
  | Some pxIterator =>
    let h := set_next pxNewListItem (pxNext h pxIterator) h in
    let h := set_prev (pxNext h pxNewListItem) pxNewListItem h in
    let h := set_prev pxNewListItem pxIterator h in
    let h := set_next pxIterator pxNewListItem h in
    let h := set_container pxNewListItem pxList h in
    Some (set_count pxList (u32 (uxNumberOfItems h pxList + 1)) h)
  end.

Definition uxListRemove (pxItemToRemove : Z) (h : heap) : heap * Z :=
  let pxList := pxContainer h pxItemToRemove in
  let h := set_prev (pxNext h pxItemToRemove) (pxPrevious h pxItemToRemove) h in
  let h := set_next (pxPrevious h pxItemToRemove) (pxNext h pxItemToRemove) h in
  let h := if pxIndex h pxList =? pxItemToRemove
           then set_index pxList (pxPrevious h pxItemToRemove) h else h in
  let h := set_container pxItemToRemove 0 h in
  let h := set_count pxList (u32 (uxNumberOfItems h pxList - 1)) h in
  (h, uxNumberOfItems h pxList).

(** [listGET_OWNER_OF_NEXT_ENTRY]: the owner of the next item after the index,
    which moves there and skips the end marker. *)
Definition listGET_OWNER_OF_NEXT_ENTRY (pxList : Z) (h : heap) : heap * Z :=
  let h := set_index pxList (pxNext h (pxIndex h pxList)) h in
  let h := if pxIndex h pxList =? xListEnd pxList
           then set_index pxList (pxNext h (xListEnd pxList)) h else h in
  (h, pvOwner h (pxIndex h pxList)).

Definition listLIST_IS_EMPTY (pxList : Z) (h : heap) : bool := uxNumberOfItems h pxList =? 0.
Definition listGET_OWNER_OF_HEAD_ENTRY (pxList : Z) (h : heap) : Z :=
  pvOwner h (pxNext h (xListEnd pxList)).
Definition listGET_ITEM_VALUE_OF_HEAD_ENTRY (pxList : Z) (h : heap) : Z :=
  xItemValue h (pxNext h (xListEnd pxList)).

(** ** The sequences the lists stand for *)

(** The items in order and the item the index points at, [None] for the end
    marker. *)
Record alist := AList { al_items : list Z; al_index : option Z }.

Definition al_empty : alist := AList [] None.

(** The longest prefix of items that [before] accepts, and the rest. *)
Fixpoint span_while (before : Z -> bool) (l : list Z) : list Z * list Z :=
  match l with
  | [] => ([], [])
  | x :: l => if before x then let '(a, b) := span_while before l in (x :: a, b)
              else ([], x :: l)
  end.

(** Insertion after all items whose value is at most that of the new one. *)
Definition insert_sorted (value : Z -> Z) (p : Z) (l : list Z) : list Z :=
  let '(a, b) := span_while (fun x => value x <=? value p) l in a ++ p :: b.

(** The items before [i], and [i] with the ones after it. *)
Definition split_at (i : Z) (l : list Z) : list Z * list Z :=
  span_while (fun x => negb (x =? i)) l.

Definition al_insert (value : Z -> Z) (p : Z) (a : alist) : alist :=
  AList (insert_sorted value p (al_items a)) (al_index a).

Definition al_insert_end (p : Z) (a : alist) : alist :=
  match al_index a with
  | None => AList (al_items a ++ [p]) None
  | Some i => let '(l, r) := split_at i (al_items a) in AList (l ++ p :: r) (Some i)
  end.

Definition al_remove (p : Z) (a : alist) : alist :=
  let '(l, r) := split_at p (al_items a) in
  AList (l ++ tail r)
    (if bool_decide (al_index a = Some p) then last l else al_index a).

(** The item after the index, wrapping at the end. *)
Definition al_next (a : alist) : alist * option Z :=
  let after := match al_index a with
               | None => al_items a
               | Some i => tail (snd (split_at i (al_items a)))
               end in
  let p := match after with [] => head (al_items a) | x :: _ => Some x end in
  (AList (al_items a) p, p).

(** ** Representation *)

(** The nodes of [l] follow [s], linked in both directions. *)
Fixpoint path (h : heap) (s : Z) (l : list Z) : Prop :=
  match l with
  | [] => True
  | x :: l => pxNext h s = x /\ pxPrevious h x = s /\ path h x l
  end.

(** The last of the nodes [s :: l]. *)
Definition final (s : Z) (l : list Z) : Z := default s (last l).

Definition marker (L : Z) (o : option Z) : Z := default (xListEnd L) o.

Record list_repr (h : heap) (L : Z) (a : alist) : Prop := ListRepr {
  lr_path : path h (xListEnd L) (al_items a ++ [xListEnd L]);
  lr_nodup : NoDup (al_items a);
  lr_addr : Forall (fun p => 0 < p < 4294967296) (al_items a);
  lr_container : Forall (fun p => pxContainer h p = L) (al_items a);
  lr_count : uxNumberOfItems h L = Z.of_nat (length (al_items a));
  lr_index : pxIndex h L = marker L (al_index a);
  lr_index_in : forall i, al_index a = Some i -> (i ∈ al_items a);
  lr_end : xItemValue h (xListEnd L) = portMAX_DELAY;
  lr_values : Forall (fun p => 0 <= xItemValue h p <= portMAX_DELAY) (al_items a)
}.

(** A family of lists: no end marker is an item of any list.  That the lists
    share no item follows from the containers. *)
Record heap_repr (h : heap) (A : gmap Z alist) : Prop := HeapRepr {
  hr_lists : forall L a, A !! L = Some a -> list_repr h L a;
  hr_ends : forall L L' a a', A !! L = Some a -> A !! L' = Some a' ->
    xListEnd L ∉ al_items a'
}.

(** [p] is an item of no list and no end marker. *)
Definition free_item (A : gmap Z alist) (p : Z) : Prop :=
  map_Forall (fun L a => (p ∉ al_items a) /\ p <> xListEnd L) A.

(** ** Lemmas on paths *)

Lemma assign_eq f p v : assign f p v p = v.
Proof. unfold assign. by rewrite Z.eqb_refl. Qed.
Lemma assign_ne f p v q : q <> p -> assign f p v q = f q.
Proof. unfold assign. intros. by rewrite (proj2 (Z.eqb_neq _ _)). Qed.

(** Looks a member up after assignments, deciding each address by the
    inequalities in the context. *)
Ltac look :=
  cbn [fst snd set_value set_next set_prev set_container set_count set_index xItemValue pxNext
       pxPrevious pvOwner pxContainer uxNumberOfItems pxIndex];
  repeat (rewrite assign_eq || (rewrite assign_ne by congruence)).

Lemma final_snoc s l x : final s (l ++ [x]) = x.
Proof. unfold final. by rewrite last_snoc. Qed.
Lemma final_cons s x l : final s (x :: l) = final x l.
Proof. unfold final. destruct l as [|y l] using rev_ind; [done|].
  rewrite last_snoc. by rewrite app_comm_cons, last_snoc. Qed.
Lemma final_in s l : final s l = s \/ final s l ∈ l.
Proof.
  unfold final. destruct (last l) as [x|] eqn:E; [|by left].
  right. apply last_Some_elem_of in E. done.
Qed.

Lemma path_app h s l1 l2 : path h s (l1 ++ l2) <-> path h s l1 /\ path h (final s l1) l2.
Proof.
  revert s; induction l1 as [|x l1 IH]; intros s; cbn [path app].
  - unfold final. cbn. tauto.
  - rewrite IH, final_cons. tauto.
Qed.

(** A path depends on the forward links of all its nodes but the last and on
    the backward links of all but the first. *)
Lemma path_ext h h' s l :
  path h s l ->
  (forall q, q ∈ removelast (s :: l) -> pxNext h' q = pxNext h q) ->
  (forall q, q ∈ l -> pxPrevious h' q = pxPrevious h q) ->
  path h' s l.
Proof.
  revert s; induction l as [|x l IH]; intros s Hp Hn Hv; [done|].
  destruct Hp as (H1 & H2 & H3). change (removelast (s :: x :: l)) with (s :: removelast (x :: l)) in Hn.
  cbn [path]. split_and!.
  - rewrite Hn; [done|apply list_elem_of_here].
  - rewrite Hv; [done|apply list_elem_of_here].
  - apply IH; [done| |].
    + intros q Hq. apply Hn. by apply list_elem_of_further.
    + intros q Hq. apply Hv. by apply list_elem_of_further.
Qed.

Lemma final_not_before s l : NoDup (s :: l) -> final s l ∉ removelast (s :: l).
Proof.
  intros H. destruct l as [|x l _] using rev_ind; [apply not_elem_of_nil|].
  rewrite final_snoc, app_comm_cons, removelast_last.
  rewrite app_comm_cons in H. apply NoDup_app in H as (_ & H & _).
  intros Hx. apply (H x Hx). apply list_elem_of_here.
Qed.

Lemma elem_removelast (x : Z) l : x ∈ removelast l -> x ∈ l.
Proof.
  destruct l as [|y l _] using rev_ind; [done|]. rewrite removelast_last.
  intros. apply elem_of_app. by left.
Qed.

(** Linking [p] in between [l1] and [l2]: [a] is the node before it and [b] the
    node after it. *)
Lemma path_insert h h' s l1 l2 p b r :
  path h s (l1 ++ l2 ++ [s]) -> NoDup (s :: l1 ++ l2) -> p ∉ s :: l1 ++ l2 ->
  l2 ++ [s] = b :: r ->
  pxNext h' p = b -> pxPrevious h' p = final s l1 ->
  pxNext h' (final s l1) = p -> pxPrevious h' b = p ->
  (forall q, q <> final s l1 -> q <> p -> pxNext h' q = pxNext h q) ->
  (forall q : Z, q <> b -> q <> p -> pxPrevious h' q = pxPrevious h q) ->
  path h' s (l1 ++ p :: l2 ++ [s]).
Proof.
  intros Hp Hd Hf Hb Hnp Hvp Hna Hvb Hn Hv.
  rewrite Hb in Hp |- *. apply path_app in Hp as [Hp1 (Hab & Hba & Hp2)].
  apply NoDup_cons in Hd as [Hs Hd]. apply NoDup_app in Hd as (Hd1 & Hd12 & Hd2).
  apply not_elem_of_cons in Hf as [Hfs Hf]. apply not_elem_of_app in Hf as [Hf1 Hf2].
  rewrite not_elem_of_app in Hs. destruct Hs as [Hs1 Hs2].
  assert (Hbl : forall q, q ∈ l1 -> q <> b).
  { intros q Hq ->. destruct l2 as [|y l2]; injection Hb as Hb1 Hb2; [by rewrite Hb1 in Hs1|].
    apply (Hd12 _ Hq). rewrite Hb1. apply list_elem_of_here. }
  assert (Har : final s l1 ∉ removelast (b :: r)).
  { rewrite <- Hb, removelast_last.
    destruct (final_in s l1) as [->|?]; [done|by apply Hd12]. }
  assert (Hpr : p ∉ r).
  { intros Hx. assert (p ∈ l2 ++ [s]) as Hy by (rewrite Hb; by apply list_elem_of_further).
    apply elem_of_app in Hy as [?|Hy]; [done|]. by apply list_elem_of_singleton in Hy. }
  assert (Hbr : b ∉ r).
  { assert (NoDup (l2 ++ [s])) as Hx.
    { apply NoDup_app; split_and!; [done| |apply NoDup_singleton].
      intros x Hx Hy. apply list_elem_of_singleton in Hy. by subst. }
    rewrite Hb in Hx. by apply NoDup_cons in Hx as [? _]. }
  apply path_app; split; [|cbn [path]; split_and!; try done].
  - eapply path_ext; [exact Hp1| |].
    + intros q Hq. apply Hn.
      * intros ->. revert Hq. apply final_not_before. by constructor.
      * intros ->. apply elem_removelast, elem_of_cons in Hq as [?|?]; done.
    + intros q Hq. apply Hv; [by apply Hbl|]. by intros ->.
  - eapply path_ext; [exact Hp2| |].
    + intros q Hq. apply Hn; [by intros ->|]. intros ->.
      rewrite <- Hb, removelast_last in Hq. done.
    + intros q Hq. apply Hv; by intros ->.
Qed.

(** Unlinking [p]. *)
Lemma path_remove h h' s l1 l2 p b r :
  path h s (l1 ++ p :: l2 ++ [s]) -> NoDup (s :: l1 ++ p :: l2) ->
  l2 ++ [s] = b :: r ->
  pxNext h' (final s l1) = b -> pxPrevious h' b = final s l1 ->
  (forall q, q <> final s l1 -> pxNext h' q = pxNext h q) ->
  (forall q : Z, q <> b -> pxPrevious h' q = pxPrevious h q) ->
  path h' s (l1 ++ l2 ++ [s]).
Proof.
  intros Hp Hd Hb Hna Hvb Hn Hv.
  rewrite Hb in Hp |- *. apply path_app in Hp as [Hp1 (_ & _ & _ & _ & Hp2)].
  apply NoDup_cons in Hd as [Hs Hd]. apply NoDup_app in Hd as (Hd1 & Hd12 & Hd2).
  rewrite not_elem_of_app, not_elem_of_cons in Hs. destruct Hs as (Hs1 & Hsp & Hs2).
  apply NoDup_cons in Hd2 as [_ Hd2].
  assert (Hbl : forall q, q ∈ l1 -> q <> b).
  { intros q Hq ->. destruct l2 as [|y l2]; injection Hb as Hb1 Hb2; [by rewrite Hb1 in Hs1|].
    apply (Hd12 _ Hq). rewrite Hb1. apply list_elem_of_further, list_elem_of_here. }
  apply path_app; split; [|cbn [path]; split_and!; try done].
  - eapply path_ext; [exact Hp1| |].
    + intros q Hq. apply Hn. intros ->. revert Hq. apply final_not_before. by constructor.
    + intros q Hq. apply Hv. by apply Hbl.
  - eapply path_ext; [exact Hp2| |].
    + intros q Hq. apply Hn. intros ->. rewrite <- Hb, removelast_last in Hq.
      destruct (final_in s l1) as [E|E]; [by rewrite E in Hq|].
      apply (Hd12 _ E). by apply list_elem_of_further.
    + intros q Hq. apply Hv. intros ->.
      assert (NoDup (l2 ++ [s])) as Hx.
      { apply NoDup_app; split_and!; [done| |apply NoDup_singleton].
        intros x Hx Hy. apply list_elem_of_singleton in Hy. by subst. }
      rewrite Hb in Hx. by apply NoDup_cons in Hx as [? _].
Qed.

(** ** Lemmas on sequences *)

Lemma span_while_app f l : fst (span_while f l) ++ snd (span_while f l) = l.
Proof.
  induction l as [|x l IH]; cbn; [done|].
  destruct (f x); [|done]. destruct (span_while f l) as [a b]. cbn in *. by rewrite IH.
Qed.

Lemma span_while_accepts f l : Forall (fun x => f x = true) (fst (span_while f l)).
Proof.
  induction l as [|x l IH]; cbn; [constructor|].
  destruct (f x) eqn:E; [|constructor]. destruct (span_while f l) as [a b]. by constructor.
Qed.

Lemma span_while_rest f l x r : snd (span_while f l) = x :: r -> f x = false.
Proof.
  induction l as [|y l IH]; cbn; [done|].
  destruct (f y) eqn:E; [|by intros [= <- <-]].
  destruct (span_while f l) as [a b]. exact IH.
Qed.

Lemma split_at_in (i : Z) l :
  i ∈ l -> exists a r, split_at i l = (a, i :: r) /\ l = a ++ i :: r /\ i ∉ a.
Proof.
  intros Hi. pose proof (span_while_app (fun x => negb (x =? i)) l) as Happ.
  pose proof (span_while_accepts (fun x => negb (x =? i)) l) as Hacc.
  unfold split_at. destruct (span_while _ l) as [a b] eqn:E. cbn in *.
  assert (Hia : i ∉ a).
  { intros Hx. rewrite Forall_forall in Hacc. specialize (Hacc i Hx). lia. }
  destruct b as [|y r].
  - rewrite app_nil_r in Happ. by subst.
  - pose proof (span_while_rest (fun x => negb (x =? i)) l y r) as Hy.
    rewrite E in Hy. specialize (Hy eq_refl). assert (y = i) as -> by lia.
    exists a, r. by split_and!.
Qed.

(** The split is the only one when the item occurs once. *)
Lemma split_at_mid (i : Z) l r : i ∉ l -> split_at i (l ++ i :: r) = (l, i :: r).
Proof.
  unfold split_at. induction l as [|x l IH]; intros Hi; cbn.
  - by rewrite Z.eqb_refl.
  - apply not_elem_of_cons in Hi as [Hx Hi]. rewrite (IH Hi).
    destruct (Z.eqb_spec x i); [congruence|done].
Qed.

(** Distinct addresses fit the 32-bit count. *)
Lemma addresses_count (l : list Z) :
  NoDup l -> Forall (fun p => 0 < p < 4294967296) l -> Z.of_nat (length l) < 4294967296.
Proof.
  intros Hd Ha.
  assert (length l <= length (seqZ 1 4294967295))%nat as H.
  { apply submseteq_length, NoDup_submseteq; [done|]. intros x Hx.
    rewrite Forall_forall in Ha. specialize (Ha x Hx). apply elem_of_seqZ. lia. }
  rewrite length_seqZ in H. lia.
Qed.

(** The search of [vListInsert] stops at the end marker at the latest, within
    one test per item and one for the marker. *)
Lemma insert_position_ok h v s e l fuel :
  path h s (l ++ [e]) -> v < xItemValue h e -> (length l < fuel)%nat ->
  insert_position fuel h v s =
    Some (final s (fst (span_while (fun x => xItemValue h x <=? v) l))).
Proof.
  revert s fuel; induction l as [|x l IH]; intros s fuel Hp He Hf;
    (destruct fuel as [|fuel]; [cbn in Hf; lia|]).
  - destruct Hp as (Hn & _). cbn. rewrite Hn.
    destruct (Z.leb_spec (xItemValue h e) v); [lia|done].
  - destruct Hp as (Hn & _ & Hp). cbn [insert_position span_while]. rewrite Hn.
    destruct (xItemValue h x <=? v) eqn:E; [|done].
    rewrite (IH x) by (done || (cbn in Hf; lia)).
    destruct (span_while _ l) as [a b]. cbn [fst]. by rewrite final_cons.
Qed.

(** ** One list *)

(** Nothing a list is made of changed. *)
Lemma list_frame h h' L a :
  list_repr h L a ->
  (forall q, q ∈ xListEnd L :: al_items a ->
     pxNext h' q = pxNext h q /\ pxPrevious h' q = pxPrevious h q /\
     xItemValue h' q = xItemValue h q) ->
  (forall q, q ∈ al_items a -> pxContainer h' q = pxContainer h q) ->
  uxNumberOfItems h' L = uxNumberOfItems h L -> pxIndex h' L = pxIndex h L ->
  list_repr h' L a.
Proof.
  intros [H1 H2 H3 H4 H5 H6 H7 H8 H9] Hq Hc Hn Hi. split; try congruence.
  - eapply path_ext; [done| |]; intros q Hx; apply Hq.
    + rewrite app_comm_cons, removelast_last in Hx. done.
    + apply elem_of_app in Hx as [Hx|Hx%list_elem_of_singleton];
        [by apply list_elem_of_further|subst; apply list_elem_of_here].
  - apply Forall_forall. intros q Hx. rewrite Hc by done. rewrite Forall_forall in H4. auto.
  - done.
  - destruct (Hq (xListEnd L)) as (_ & _ & ->); [apply list_elem_of_here|done].
  - apply Forall_forall. intros q Hx. destruct (Hq q) as (_ & _ & ->).
    + by apply list_elem_of_further.
    + rewrite Forall_forall in H9. auto.
Qed.

(** An item that can be put into a list. *)
Definition insertable (h : heap) (L p : Z) (a : alist) : Prop :=
  (p ∉ xListEnd L :: al_items a) /\ 0 < p < 4294967296 /\ 0 <= xItemValue h p <= portMAX_DELAY.

(** Linking an item in between two parts of a list, as [vListInsert] and
    [vListInsertEnd] do. *)
Lemma list_link h h' L a l1 l2 p b r :
  list_repr h L a -> xListEnd L ∉ al_items a -> insertable h L p a ->
  al_items a = l1 ++ l2 -> l2 ++ [xListEnd L] = b :: r ->
  pxNext h' p = b -> pxPrevious h' p = final (xListEnd L) l1 ->
  pxNext h' (final (xListEnd L) l1) = p -> pxPrevious h' b = p ->
  (forall q : Z, q <> final (xListEnd L) l1 -> q <> p -> pxNext h' q = pxNext h q) ->
  (forall q : Z, q <> b -> q <> p -> pxPrevious h' q = pxPrevious h q) ->
  (forall q, xItemValue h' q = xItemValue h q) ->
  pxContainer h' p = L -> (forall q : Z, q <> p -> pxContainer h' q = pxContainer h q) ->
  uxNumberOfItems h' L = u32 (uxNumberOfItems h L + 1) -> pxIndex h' L = pxIndex h L ->
  list_repr h' L (AList (l1 ++ p :: l2) (al_index a)).
Proof.
  intros [H1 H2 H3 H4 H5 H6 H7 H8 H9] He (Hp & Ha & Hv) Hl Hb Hnp Hvp Hna Hvb Hn Hpv Hval
    Hcp Hc Hk Hi.
  rewrite Hl in *. apply not_elem_of_cons in Hp as [Hpe Hp].
  assert (Hperm : l1 ++ p :: l2 ≡ₚ p :: l1 ++ l2) by (symmetry; apply Permutation_middle).
  assert (Hd' : NoDup (l1 ++ p :: l2)) by (rewrite Hperm; by constructor).
  assert (Ha' : Forall (fun p => 0 < p < 4294967296) (l1 ++ p :: l2))
    by (rewrite Hperm; by constructor).
  split; cbn [al_items al_index]; try done.
  - rewrite <- (app_assoc l1 (p :: l2)). rewrite <- app_assoc in H1.
    eapply path_insert; try done; [by constructor|].
    apply not_elem_of_cons. done.
  - rewrite Hperm. constructor; [done|]. apply Forall_forall. intros q Hq.
    rewrite Hc by (intros ->; done). rewrite Forall_forall in H4. auto.
  - rewrite Hk, H5. pose proof (addresses_count _ Hd' Ha').
    rewrite Hperm in *. cbn [length] in *. word.
  - congruence.
  - intros i Hx. rewrite Hperm. apply list_elem_of_further. auto.
  - by rewrite Hval.
  - rewrite Hperm. constructor; [by rewrite Hval|].
    apply Forall_forall. intros q Hq. rewrite Hval. rewrite Forall_forall in H9. auto.
Qed.

(** The node after [l1] and the one before it. *)
Lemma list_neighbours h L a l1 l2 :
  list_repr h L a -> al_items a = l1 ++ l2 ->
  pxNext h (final (xListEnd L) l1) = default (xListEnd L) (head l2) /\
  pxPrevious h (default (xListEnd L) (head l2)) = final (xListEnd L) l1.
Proof.
  intros [H1 _ _ _ _ _ _ _ _] Hl. rewrite Hl, <- app_assoc in H1.
  apply path_app in H1 as [_ H1]. destruct l2 as [|x l2]; cbn in *; tauto.
Qed.

(** The neighbours of a node are nodes of the same list. *)
Lemma prev_inside h L a q :
  list_repr h L a -> q ∈ xListEnd L :: al_items a -> pxPrevious h q ∈ xListEnd L :: al_items a.
Proof.
  intros H Hq. assert (exists l1 l2, al_items a = l1 ++ l2 /\ q = default (xListEnd L) (head l2))
    as (l1 & l2 & Hl & ->).
  { apply elem_of_cons in Hq as [->|Hq].
    - exists (al_items a), []. by rewrite app_nil_r.
    - apply list_elem_of_split in Hq as (l1 & l2 & ->). by exists l1, (q :: l2). }
  destruct (list_neighbours _ _ _ _ _ H Hl) as [_ ->]. rewrite Hl.
  destruct (final_in (xListEnd L) l1) as [->|?]; [apply list_elem_of_here|].
  apply list_elem_of_further, elem_of_app. by left.
Qed.

Lemma head_rest (s : Z) l2 : exists r, l2 ++ [s] = default s (head l2) :: r.
Proof. destruct l2 as [|x l2]; cbn; eauto. Qed.

Lemma insertable_ne h L p a l1 l2 :
  insertable h L p a -> al_items a = l1 ++ l2 ->
  final (xListEnd L) l1 <> p /\ default (xListEnd L) (head l2) <> p.
Proof.
  intros (Hp & _) Hl. rewrite Hl in Hp. apply not_elem_of_cons in Hp as [He Hp].
  apply not_elem_of_app in Hp as [Hp1 Hp2]. split.
  - destruct (final_in (xListEnd L) l1) as [->|?]; [done|]. by intros <-.
  - destruct l2 as [|x l2]; cbn; [done|]. intros ->. apply Hp2, list_elem_of_here.
Qed.

Lemma vListInsertEnd_list h L a p :
  list_repr h L a -> xListEnd L ∉ al_items a -> insertable h L p a ->
  list_repr (vListInsertEnd L p h) L (al_insert_end p a).
Proof.
  intros H He Hp. pose proof (lr_index h L a H) as Hi.
  assert (exists l1 l2, al_items a = l1 ++ l2 /\ pxIndex h L = default (xListEnd L) (head l2) /\
            al_insert_end p a = AList (l1 ++ p :: l2) (al_index a)) as (l1 & l2 & Hl & Hx & ->).
  { unfold al_insert_end. destruct (al_index a) as [i|] eqn:E.
    - destruct (split_at_in i (al_items a)) as (l1 & r & -> & Hl & _); [by eapply lr_index_in|].
      exists l1, (i :: r). by rewrite Hi.
    - exists (al_items a), []. by rewrite Hi, app_nil_r. }
  pose proof (list_neighbours _ _ _ _ _ H Hl) as [Hn Hv].
  pose proof (insertable_ne _ _ _ _ _ _ Hp Hl) as [Ha Hb].
  destruct (head_rest (xListEnd L) l2) as [r Hr].
  unfold vListInsertEnd. rewrite Hx. cbv zeta.
  cbn [set_next set_prev pxPrevious]. rewrite (assign_ne _ p _ _ Hb), Hv.
  eapply list_link; try exact H; try exact Hr; try done; intros; look; done.
Qed.

Lemma vListInsert_list h L a p :
  list_repr h L a -> xListEnd L ∉ al_items a -> insertable h L p a ->
  exists h', vListInsert L p h = Some h' /\ list_repr h' L (al_insert (xItemValue h) p a) /\
    forall q, (q ∉ xListEnd L :: p :: al_items a) ->
      pxNext h' q = pxNext h q /\ pxPrevious h' q = pxPrevious h q.
Proof.
  intros H He Hp. unfold al_insert, insert_sorted.
  pose proof (span_while_app (fun x => xItemValue h x <=? xItemValue h p) (al_items a)) as Hl.
  destruct (span_while _ (al_items a)) as [l1 l2] eqn:Espan. cbn in Hl. symmetry in Hl.
  assert (Hit : (if xItemValue h p =? portMAX_DELAY then Some (pxPrevious h (xListEnd L))
     else insert_position (S (Z.to_nat (uxNumberOfItems h L))) h (xItemValue h p) (xListEnd L))
     = Some (final (xListEnd L) l1)).
  { destruct (Z.eqb_spec (xItemValue h p) portMAX_DELAY) as [E|E].
    - assert (l2 = []) as ->.
      { destruct l2 as [|x l2]; [done|]. exfalso.
        pose proof (span_while_rest _ _ x l2 (f_equal snd Espan)) as Hx. cbn in Hx.
        pose proof (lr_values _ _ _ H) as Hv. rewrite Hl, Forall_app, list.Forall_cons in Hv. lia. }
      pose proof (list_neighbours _ _ _ _ _ H Hl) as [_ Hv]. by rewrite <- Hv.
    - erewrite insert_position_ok; [|apply (lr_path _ _ _ H)| |].
      + by rewrite Espan.
      + rewrite (lr_end _ _ _ H). destruct Hp as (_ & _ & ?). lia.
      + rewrite (lr_count _ _ _ H). lia. }
  unfold vListInsert. rewrite Hit.
  pose proof (list_neighbours _ _ _ _ _ H Hl) as [Hn Hv].
  pose proof (insertable_ne _ _ _ _ _ _ Hp Hl) as [Ha Hb].
  destruct (head_rest (xListEnd L) l2) as [r Hr].
  cbv zeta. cbn [set_next set_prev pxNext pxPrevious]. rewrite assign_eq, Hn.
  eexists; split_and!; [reflexivity| |].
  - eapply list_link; try exact H; try exact Hr; try done; intros; look; done.
  - intros q Hq. rewrite Hl in Hq. rewrite !not_elem_of_cons, not_elem_of_app in Hq.
    destruct Hq as (Hq1 & Hq2 & Hq3 & Hq4).
    assert (q <> final (xListEnd L) l1) by (destruct (final_in (xListEnd L) l1) as [->|?]; [done|by intros ->]).
    assert (q <> default (xListEnd L) (head l2)).
    { destruct l2 as [|x l2]; cbn; [done|]. intros ->. apply Hq4, list_elem_of_here. }
    look. done.
Qed.

Lemma uxListRemove_list h L a p :
  list_repr h L a -> xListEnd L ∉ al_items a -> p ∈ al_items a ->
  list_repr (fst (uxListRemove p h)) L (al_remove p a) /\
  snd (uxListRemove p h) = Z.of_nat (length (al_items (al_remove p a))) /\
  (forall q, (q ∉ xListEnd L :: al_items a) ->
      pxNext (fst (uxListRemove p h)) q = pxNext h q /\
      pxPrevious (fst (uxListRemove p h)) q = pxPrevious h q).
Proof.
  intros H He Hp. destruct (split_at_in p (al_items a) Hp) as (l1 & l2 & Esp & Hl & Hp1).
  pose proof (lr_nodup _ _ _ H) as Hd. rewrite Hl in Hd.
  assert (Hp2 : p ∉ l2) by (by apply NoDup_app in Hd as (_ & _ & [? _]%NoDup_cons)).
  assert (Hc : pxContainer h p = L) by (pose proof (lr_container _ _ _ H) as Hc;
    rewrite Forall_forall in Hc; by apply Hc).
  pose proof (list_neighbours _ _ _ l1 (p :: l2) H Hl) as [Hn1 Hv1].
  pose proof (list_neighbours _ _ _ (l1 ++ [p]) l2 H ltac:(by rewrite Hl, <- app_assoc)) as [Hn2 Hv2].
  rewrite final_snoc in Hn2, Hv2. change (default (xListEnd L) (head (p :: l2))) with p in Hn1, Hv1.
  assert (Hpe : xListEnd L <> p) by (by intros <-).
  assert (Ha : final (xListEnd L) l1 <> p).
  { destruct (final_in (xListEnd L) l1) as [->|?]; [done|]. by intros <-. }
  assert (Hb : default (xListEnd L) (head l2) <> p).
  { destruct l2 as [|x l2]; cbn; [done|]. intros ->. apply Hp2, list_elem_of_here. }
  destruct (head_rest (xListEnd L) l2) as [r Hr].
  assert (Hnew : al_items (al_remove p a) = l1 ++ l2) by (unfold al_remove; by rewrite Esp).
  set (h1 := set_next (final (xListEnd L) l1) (default (xListEnd L) (head l2))
    (set_prev (default (xListEnd L) (head l2)) (final (xListEnd L) l1) h)).
  assert (Eh : uxListRemove p h =
    let h2 := if pxIndex h L =? p then set_index L (final (xListEnd L) l1) h1 else h1 in
    let h3 := set_count L (u32 (uxNumberOfItems h L - 1)) (set_container p 0 h2) in
    (h3, uxNumberOfItems h3 L)).
  { unfold uxListRemove. rewrite Hc, Hn2, Hv1. cbv zeta.
    unfold h1. look. rewrite Hv1, Hn2.
    destruct (pxIndex h L =? p); look; rewrite ?Hv1; done. }
  assert (Hk : u32 (uxNumberOfItems h L - 1) = Z.of_nat (length (l1 ++ l2))).
  { rewrite (lr_count _ _ _ H), Hl.
    pose proof (addresses_count _ (lr_nodup _ _ _ H) (lr_addr _ _ _ H)) as Hx. rewrite Hl in Hx.
    rewrite length_app in *. cbn [length] in *. rewrite length_app. word. }
  assert (Hperm : al_items a ≡ₚ p :: l1 ++ l2) by (rewrite Hl; symmetry; apply Permutation_middle).
  rewrite Eh. cbn [fst snd]. split_and!.
  - destruct H as [H1 H2 H3 H4 H5 H6 H7 H8 H9]. rewrite Hl in He.
    split; rewrite ?Hnew.
    + rewrite Hl in H1. rewrite <- app_assoc in H1 |- *.
      eapply path_remove with (p := p); [exact H1| |exact Hr|..].
      * constructor; [done|by rewrite <- Hl].
      * destruct (pxIndex h L =? p); unfold h1; look; done.
      * destruct (pxIndex h L =? p); unfold h1; look; done.
      * intros q Hq. destruct (pxIndex h L =? p); unfold h1; look; done.
      * intros q Hq. destruct (pxIndex h L =? p); unfold h1; look; done.
    + rewrite Hperm in H2. by apply NoDup_cons in H2 as [_ ?].
    + rewrite Hperm in H3. by apply list.Forall_cons in H3 as [_ ?].
    + rewrite Hperm in H4. apply list.Forall_cons in H4 as [_ H4].
      apply Forall_forall. intros q Hq. rewrite Forall_forall in H4.
      assert (q <> p) by (intros ->; apply elem_of_app in Hq as [?|?]; done).
      destruct (pxIndex h L =? p); unfold h1; look; auto.
    + destruct (pxIndex h L =? p); unfold h1; look; done.
    + unfold al_remove. rewrite Esp. cbn [al_index]. rewrite H6. unfold marker.
      destruct (al_index a) as [i|] eqn:Ei.
      * change (default (xListEnd L) (Some i)) with i. case_bool_decide as Ex.
        -- injection Ex as ->. rewrite Z.eqb_refl. look. unfold final. done.
        -- change (default (xListEnd L) (Some i)) with i. destruct (Z.eqb_spec i p); [congruence|]. unfold h1; look. by rewrite H6.
      * change (default (xListEnd L) None) with (xListEnd L). destruct (Z.eqb_spec (xListEnd L) p); [done|]. unfold h1; look. by rewrite H6.
    + unfold al_remove. rewrite Esp. cbn [al_index]. intros i. case_bool_decide as Ex; intros Hi.
      * apply elem_of_app. left. by apply last_Some_elem_of.
      * specialize (H7 i Hi). rewrite Hperm in H7. apply elem_of_cons in H7 as [->|?]; done.
    + destruct (pxIndex h L =? p); unfold h1; look; done.
    + rewrite Hperm in H9. apply list.Forall_cons in H9 as [_ H9].
      destruct (pxIndex h L =? p); unfold h1; look; done.
  - rewrite Hnew. look. done.
  - intros q Hq. rewrite Hperm in Hq. rewrite !not_elem_of_cons, not_elem_of_app in Hq.
    destruct Hq as (Hq1 & Hq2 & Hq3 & Hq4).
    assert (q <> final (xListEnd L) l1) by (destruct (final_in (xListEnd L) l1) as [->|?]; [done|by intros ->]).
    assert (q <> default (xListEnd L) (head l2)).
    { destruct l2 as [|x l2]; cbn; [done|]. intros ->. apply Hq4, list_elem_of_here. }
    destruct (pxIndex h L =? p); unfold h1; look; done.
Qed.

(** Only the index of the list moves. *)
Lemma listGET_OWNER_OF_NEXT_ENTRY_form L h :
  let n := pxNext h (pxIndex h L) in
  let p := if n =? xListEnd L then pxNext h (xListEnd L) else n in
  exists f, listGET_OWNER_OF_NEXT_ENTRY L h =
    (Heap (xItemValue h) (pxNext h) (pxPrevious h) (pvOwner h) (pxContainer h)
       (uxNumberOfItems h) f, pvOwner h p) /\
    f L = p /\ forall L', L' <> L -> f L' = pxIndex h L'.
Proof.
  cbv zeta. unfold listGET_OWNER_OF_NEXT_ENTRY. look.
  destruct (pxNext h (pxIndex h L) =? xListEnd L); look;
    (eexists; split_and!; [reflexivity|by look|intros; by look]).
Qed.

Lemma listGET_OWNER_OF_NEXT_ENTRY_list h L a :
  list_repr h L a -> xListEnd L ∉ al_items a -> al_items a <> [] ->
  exists p, snd (al_next a) = Some p /\ (p ∈ al_items a) /\
    snd (listGET_OWNER_OF_NEXT_ENTRY L h) = pvOwner h p /\
    list_repr (fst (listGET_OWNER_OF_NEXT_ENTRY L h)) L (fst (al_next a)).
Proof.
  intros H He Hne.
  assert (exists l1 l2, al_items a = l1 ++ l2 /\ pxIndex h L = final (xListEnd L) l1 /\
    snd (al_next a) = match l2 with [] => head (al_items a) | x :: _ => Some x end)
    as (l1 & l2 & Hl & Hi & Hs).
  { rewrite (lr_index _ _ _ H). unfold al_next. destruct (al_index a) as [i|] eqn:E.
    - destruct (split_at_in i (al_items a)) as (l1 & r & -> & Hl & _); [by eapply lr_index_in|].
      exists (l1 ++ [i]), r. rewrite <- app_assoc, final_snoc. done.
    - exists [], (al_items a). done. }
  pose proof (list_neighbours _ _ _ _ _ H Hl) as [Hn _].
  pose proof (list_neighbours _ _ _ [] (al_items a) H eq_refl) as [Hz _].
  change (final (xListEnd L) []) with (xListEnd L) in Hz.
  destruct (listGET_OWNER_OF_NEXT_ENTRY_form L h) as (f & Hf & HfL & _).
  rewrite Hf. rewrite Hi, Hn in HfL |- *.
  assert (exists p, snd (al_next a) = Some p /\ p ∈ al_items a /\ f L = p) as (p & Hp & Hin & Hx).
  { rewrite Hs. destruct l2 as [|x l2].
    - destruct (al_items a) as [|y l] eqn:E; [done|]. exists y. split_and!; [done|apply list_elem_of_here|].
      rewrite HfL. change (default (xListEnd L) (head [])) with (xListEnd L).
      rewrite Z.eqb_refl. exact Hz.
    - assert (x ∈ al_items a) as Hxin by (rewrite Hl; apply elem_of_app; right; apply list_elem_of_here).
      exists x. split_and!; [done|done|]. rewrite HfL.
      change (default (xListEnd L) (head (x :: l2))) with x.
      destruct (Z.eqb_spec x (xListEnd L)) as [->|]; done. }
  exists p. split_and!; [done|done| |].
  - cbn [snd]. by rewrite <- HfL, Hx.
  - unfold al_next in Hp |- *. cbn [fst snd] in *. rewrite Hp.
    destruct H as [H1 H2 H3 H4 H5 H6 H7 H8 H9].
    split; cbn [al_items al_index]; try done; [|by intros i [= <-]].
    eapply path_ext; [exact H1|done|done].
Qed.

(** ** Families of lists *)

(** The operations of the interface; [ORemove] names the list for the sake of the
    specification, the code finds it in the item. *)
Inductive list_op :=
| OInitialise (L : Z) | OSetValue (p v : Z) | OInsert (L p : Z) | OInsertEnd (L p : Z)
| ORemove (L p : Z) | ONext (L : Z).

(** What the lists are worth to their users: the value and the owner of every
    item, and the sequences. *)
Record aheap := AHeap { a_value : Z -> Z; a_owner : Z -> Z; a_lists : gmap Z alist }.

(** The code of an operation, and the value it returns ([0] for [void]). *)
Definition run_op (o : list_op) (h : heap) : option (heap * Z) :=
  match o with
  | OInitialise L => Some (vListInitialise L h, 0)
  | OSetValue p v => Some (set_value p v h, 0)
  | OInsert L p => match vListInsert L p h with Some h => Some (h, 0) | None => None end
  | OInsertEnd L p => Some (vListInsertEnd L p h, 0)
  | ORemove _ p => Some (uxListRemove p h)
  | ONext L => Some (listGET_OWNER_OF_NEXT_ENTRY L h)
  end.

(** What it does to the sequences. *)
Definition spec_op (o : list_op) (s : aheap) : aheap * Z :=
  let '(AHeap value owner A) := s in
  match o with
  | OInitialise L =>
    (AHeap (assign value (xListEnd L) portMAX_DELAY) owner (<[L := al_empty]> A), 0)
  | OSetValue p v => (AHeap (assign value p v) owner A, 0)
  | OInsert L p => (AHeap value owner (alter (al_insert value p) L A), 0)
  | OInsertEnd L p => (AHeap value owner (alter (al_insert_end p) L A), 0)
  | ORemove L p =>
    let A := alter (al_remove p) L A in
    (AHeap value owner A, Z.of_nat (length (al_items (default al_empty (A !! L)))))
  | ONext L => (AHeap value owner (alter (fun a => fst (al_next a)) L A),
                owner (default 0 (snd (al_next (default al_empty (A !! L))))))
  end.

(** When an operation may be called: a fresh list is initialised, the value of
    an item (not of an end marker) set, an item that is in no list inserted, an
    item of the list removed, and the next entry taken of a list that has one. *)
Definition op_ok (o : list_op) (s : aheap) : Prop :=
  let '(AHeap value owner A) := s in
  match o with
  | OInitialise L => A !! L = None /\ map_Forall (fun _ a => xListEnd L ∉ al_items a) A
  | OSetValue p v => 0 <= v <= portMAX_DELAY /\ map_Forall (fun L _ => p <> xListEnd L) A
  | OInsert L p | OInsertEnd L p =>
    is_Some (A !! L) /\ free_item A p /\ 0 < p < 4294967296 /\ 0 <= value p <= portMAX_DELAY
  | ORemove L p => exists a, A !! L = Some a /\ p ∈ al_items a
  | ONext L => exists a, A !! L = Some a /\ al_items a <> []
  end.

#[global] Instance op_ok_dec o s : Decision (op_ok o s).
Proof.
  destruct s as [value owner A]. destruct o as [L|p v|L p|L p|L p|L]; cbn; unfold free_item; try apply _.
  - destruct (A !! L) as [a|]; [|right; by intros (a & [=] & _)].
    destruct (decide (p ∈ al_items a)); [left; eauto|right; by intros (b & [= <-] & ?)].
  - destruct (A !! L) as [a|]; [|right; by intros (a & [=] & _)].
    destruct (al_items a) eqn:E; [right; by intros (b & [= <-] & ?)|left; exists a; by rewrite E].
Defined.

(** The memory holds the lists, the values and the owners. *)
Record lists_repr (h : heap) (s : aheap) : Prop := ListsRepr {
  ls_heap : heap_repr h (a_lists s);
  ls_value : forall q, xItemValue h q = a_value s q;
  ls_owner : forall q, pvOwner h q = a_owner s q
}.

(** A sequence of operations, and the values they return. *)
Fixpoint run_ops (os : list list_op) (h : heap) : option (heap * list Z) :=
  match os with
  | [] => Some (h, [])
  | o :: os =>
    match run_op o h with
    | None => None
    | Some (h, r) => match run_ops os h with None => None | Some (h, rs) => Some (h, r :: rs) end
    end
  end.

Fixpoint spec_ops (os : list list_op) (s : aheap) : aheap * list Z :=
  match os with
  | [] => (s, [])
  | o :: os => let '(s, r) := spec_op o s in let '(s, rs) := spec_ops os s in (s, r :: rs)
  end.

Fixpoint ops_ok (os : list list_op) (s : aheap) : Prop :=
  match os with
  | [] => True
  | o :: os => op_ok o s /\ ops_ok os (fst (spec_op o s))
  end.

#[global] Instance ops_ok_dec os s : Decision (ops_ok os s).
Proof. revert s; induction os as [|o os IH]; intros s; cbn; apply _. Defined.

(** Replacing one list of a family: the others are untouched when every node
    outside it is. *)
Lemma heap_update h h' A L a a' :
  heap_repr h A -> A !! L = Some a -> list_repr h' L a' ->
  (forall p, p ∈ al_items a' -> p ∈ al_items a \/ free_item A p) ->
  (forall L' b q, A !! L' = Some b -> L' <> L -> q ∈ xListEnd L' :: al_items b ->
     pxNext h' q = pxNext h q /\ pxPrevious h' q = pxPrevious h q /\
     xItemValue h' q = xItemValue h q /\ pxContainer h' q = pxContainer h q) ->
  (forall L', L' <> L -> uxNumberOfItems h' L' = uxNumberOfItems h L' /\ pxIndex h' L' = pxIndex h L') ->
  heap_repr h' (<[L := a']> A).
Proof.
  intros [Hl He] HL Ha Hi Hq Hk. split.
  - intros L' b Hb. destruct (decide (L = L')) as [<-|Hne].
    + rewrite lookup_insert_eq in Hb. by simplify_eq.
    + rewrite lookup_insert_ne in Hb by done. destruct (Hk L') as [H1 H2]; [done|].
      apply (list_frame h); [by apply Hl| | |done|done].
      * intros q Hx. destruct (Hq L' b q) as (? & ? & ? & _); done.
      * intros q Hx. destruct (Hq L' b q) as (_ & _ & _ & ?); [done..|by apply list_elem_of_further|done].
  - intros L1 L2 b1 b2 H1 H2.
    assert (exists c1, A !! L1 = Some c1) as [c1 Hc1].
    { destruct (decide (L = L1)) as [<-|]; [eauto|rewrite lookup_insert_ne in H1; eauto]. }
    destruct (decide (L = L2)) as [<-|].
    + rewrite lookup_insert_eq in H2. simplify_eq. intros Hx.
      destruct (Hi _ Hx) as [Hy|Hy]; [by eapply He in Hy|].
      by destruct (Hy L1 c1 Hc1).
    + rewrite lookup_insert_ne in H2 by done. eauto.
Qed.

Lemma heap_disjoint h A L L' a b q :
  heap_repr h A -> A !! L = Some a -> A !! L' = Some b -> L' <> L ->
  q ∈ xListEnd L' :: al_items b -> q ∉ xListEnd L :: al_items a.
Proof.
  intros [Hl He] Ha Hb Hne Hq Hq'.
  pose proof (lr_container _ _ _ (Hl _ _ Ha)) as Hca. pose proof (lr_container _ _ _ (Hl _ _ Hb)) as Hcb.
  rewrite Forall_forall in Hca, Hcb.
  apply elem_of_cons in Hq as [->|Hq]; apply elem_of_cons in Hq' as [Hq'|Hq'].
  - unfold xListEnd in Hq'. lia.
  - by eapply (He L' L) in Hq'.
  - subst. by eapply (He L L') in Hq.
  - apply Hne. rewrite <- (Hca q Hq'), <- (Hcb q Hq). done.
Qed.

Lemma free_insertable h A L a p :
  heap_repr h A -> A !! L = Some a -> free_item A p -> 0 < p < 4294967296 ->
  0 <= xItemValue h p <= portMAX_DELAY -> insertable h L p a.
Proof.
  intros H Ha Hf Hp Hv. split_and!; try lia. apply not_elem_of_cons.
  destruct (Hf L a Ha). done.
Qed.

Lemma free_elsewhere A L' b p q :
  free_item A p -> A !! L' = Some b -> q ∈ xListEnd L' :: al_items b -> q <> p.
Proof.
  intros Hf Hb Hq ->. destruct (Hf L' b Hb). apply elem_of_cons in Hq as [?|?]; done.
Qed.

Lemma alter_some (f : alist -> alist) (L : Z) (A : gmap Z alist) a : A !! L = Some a -> alter f L A = <[L := f a]> A.
Proof.
  intros H. apply map_eq. intros L'. destruct (decide (L = L')) as [<-|].
  - by rewrite lookup_alter_eq, lookup_insert_eq, H.
  - by rewrite lookup_alter_ne, lookup_insert_ne by done.
Qed.

Lemma vListInitialise_heap h A L :
  heap_repr h A -> A !! L = None ->
  (forall L' a, A !! L' = Some a -> xListEnd L ∉ al_items a) ->
  heap_repr (vListInitialise L h) (<[L := al_empty]> A).
Proof.
  intros [Hl He] HL Hx.
  assert (forall L' b q, A !! L' = Some b -> q ∈ xListEnd L' :: al_items b -> q <> xListEnd L) as Hne.
  { intros L' b q Hb Hq ->. apply elem_of_cons in Hq as [Hq|Hq]; [|by eapply Hx in Hq].
    unfold xListEnd in Hq. assert (L = L') as <- by lia. by rewrite HL in Hb. }
  split.
  - intros L' b Hb. destruct (decide (L = L')) as [<-|Hd].
    + rewrite lookup_insert_eq in Hb. simplify_eq. unfold vListInitialise.
      split; cbn [al_items al_index al_empty app path]; try (by look); try constructor; try (by look).
    + rewrite lookup_insert_ne in Hb by done. unfold vListInitialise.
      apply (list_frame h); [by apply Hl| | |by look|by look].
      * intros q Hq. pose proof (Hne L' b q Hb Hq). by look.
      * intros q Hq. by look.
  - intros L1 L2 b1 b2 H1 H2. destruct (decide (L = L2)) as [<-|].
    + rewrite lookup_insert_eq in H2. simplify_eq. apply not_elem_of_nil.
    + rewrite lookup_insert_ne in H2 by done.
      destruct (decide (L = L1)) as [<-|]; [eauto|].
      rewrite lookup_insert_ne in H1 by done. eauto.
Qed.

Lemma insert_sorted_elem v p l q : q ∈ insert_sorted v p l <-> q = p \/ q ∈ l.
Proof.
  unfold insert_sorted. pose proof (span_while_app (fun x => v x <=? v p) l) as H.
  destruct (span_while _ l) as [a b]. cbn in H. rewrite <- H.
  rewrite !elem_of_app, elem_of_cons. tauto.
Qed.

Lemma al_insert_ext v v' p a : (forall q, v q = v' q) -> al_insert v p a = al_insert v' p a.
Proof.
  intros H. unfold al_insert, insert_sorted. f_equal. rewrite (H p).
  replace (span_while (fun x => v x <=? v' p) (al_items a))
    with (span_while (fun x => v' x <=? v' p) (al_items a)); [done|].
  induction (al_items a) as [|x l IH]; cbn; [done|]. by rewrite H, IH.
Qed.

Lemma al_insert_end_elem p a q : q ∈ al_items (al_insert_end p a) <-> q = p \/ q ∈ al_items a.
Proof.
  unfold al_insert_end. destruct (al_index a) as [i|]; cbn.
  - pose proof (span_while_app (fun x => negb (x =? i)) (al_items a)) as H. unfold split_at.
    destruct (span_while _ _) as [l r]. cbn in *. rewrite <- H, !elem_of_app, elem_of_cons. tauto.
  - rewrite elem_of_app, list_elem_of_singleton. tauto.
Qed.

Lemma al_remove_elem p a q : q ∈ al_items (al_remove p a) -> q ∈ al_items a.
Proof.
  unfold al_remove, split_at. pose proof (span_while_app (fun x => negb (x =? p)) (al_items a)) as H.
  destruct (span_while _ _) as [l r]. cbn in *. rewrite <- H, !elem_of_app.
  destruct r as [|y r]; cbn; rewrite ?elem_of_cons; tauto.
Qed.

Lemma vListInsertEnd_heap h A L a p :
  heap_repr h A -> A !! L = Some a -> free_item A p -> 0 < p < 4294967296 ->
  0 <= xItemValue h p <= portMAX_DELAY ->
  heap_repr (vListInsertEnd L p h) (<[L := al_insert_end p a]> A).
Proof.
  intros H HL Hf Hp Hv. pose proof (hr_lists _ _ H L a HL) as Hl.
  pose proof (hr_ends _ _ H L L a a HL HL) as He.
  eapply heap_update; [exact H|exact HL|by apply vListInsertEnd_list; [| |eapply free_insertable]|..].
  - intros q Hq. apply al_insert_end_elem in Hq as [->|?]; [by right|by left].
  - intros L' b q Hb Hne Hq. pose proof (heap_disjoint _ _ _ _ _ _ _ H HL Hb Hne Hq) as Hd.
    pose proof (free_elsewhere _ _ _ _ _ Hf Hb Hq).
    assert (pxIndex h L ∈ xListEnd L :: al_items a) as Hix.
    { rewrite (lr_index _ _ _ Hl). destruct (al_index a) eqn:E; cbn; [|apply list_elem_of_here].
      apply list_elem_of_further. by eapply lr_index_in. }
    assert (pxPrevious h (pxIndex h L) ∈ xListEnd L :: al_items a) as Hpx.
    { by apply (prev_inside h L a). }
    assert (pxIndex h L <> p /\ pxPrevious h (pxIndex h L) <> p) as [? ?].
    { split; apply (free_elsewhere A L a p); done. }
    assert (q <> pxIndex h L) by (by intros ->).
    assert (q <> pxPrevious h (pxIndex h L)) by (by intros ->).
    unfold vListInsertEnd. cbv zeta. cbn [set_next set_prev pxPrevious].
    rewrite (assign_ne _ p _ (pxIndex h L)) by done. look. done.
  - intros L' Hne. unfold vListInsertEnd. by look.
Qed.

Lemma vListInsert_heap h A L a p :
  heap_repr h A -> A !! L = Some a -> free_item A p -> 0 < p < 4294967296 ->
  0 <= xItemValue h p <= portMAX_DELAY ->
  exists h', vListInsert L p h = Some h' /\
    heap_repr h' (<[L := al_insert (xItemValue h) p a]> A).
Proof.
  intros H HL Hf Hp Hv. pose proof (hr_lists _ _ H L a HL) as Hl.
  pose proof (hr_ends _ _ H L L a a HL HL) as He.
  destruct (vListInsert_list h L a p Hl He (free_insertable _ _ _ _ _ H HL Hf Hp Hv))
    as (h' & Hh & Hl' & Hout).
  exists h'. split; [done|].
  eapply heap_update; [exact H|exact HL|exact Hl'|..].
  - intros q Hq. apply insert_sorted_elem in Hq as [->|?]; [by right|by left].
  - intros L' b q Hb Hne Hq. pose proof (heap_disjoint _ _ _ _ _ _ _ H HL Hb Hne Hq) as Hd.
    pose proof (free_elsewhere _ _ _ _ _ Hf Hb Hq) as Hqp.
    destruct (Hout q) as [-> ->].
    { apply not_elem_of_cons in Hd as [? ?]. by rewrite !not_elem_of_cons. }
    unfold vListInsert in Hh. case_match; [|done]. injection Hh as <-. look. done.
  - intros L' Hne. unfold vListInsert in Hh. case_match; [|done]. injection Hh as <-. by look.
Qed.

Lemma uxListRemove_heap h A L a p :
  heap_repr h A -> A !! L = Some a -> p ∈ al_items a ->
  heap_repr (fst (uxListRemove p h)) (<[L := al_remove p a]> A) /\
  snd (uxListRemove p h) = Z.of_nat (length (al_items (al_remove p a))).
Proof.
  intros H HL Hp. pose proof (hr_lists _ _ H L a HL) as Hl.
  pose proof (hr_ends _ _ H L L a a HL HL) as He.
  destruct (uxListRemove_list h L a p Hl He Hp) as (Hl' & Hc & Hout).
  split; [|done]. pose proof (lr_container _ _ _ Hl) as Hcont. rewrite Forall_forall in Hcont.
  eapply heap_update; [exact H|exact HL|exact Hl'|..].
  - intros q Hq. left. by eapply al_remove_elem.
  - intros L' b q Hb Hne Hq. pose proof (heap_disjoint _ _ _ _ _ _ _ H HL Hb Hne Hq) as Hd.
    destruct (Hout q Hd) as [-> ->]. assert (q <> p) by (intros ->; apply Hd, list_elem_of_further, Hp).
    unfold uxListRemove. cbv zeta. destruct (_ =? p); look; done.
  - intros L' Hne. unfold uxListRemove. rewrite (Hcont p Hp). cbv zeta.
    destruct (_ =? p); look; done.
Qed.

Lemma listGET_OWNER_OF_NEXT_ENTRY_heap h A L a :
  heap_repr h A -> A !! L = Some a -> al_items a <> [] ->
  heap_repr (fst (listGET_OWNER_OF_NEXT_ENTRY L h)) (<[L := fst (al_next a)]> A) /\
  snd (listGET_OWNER_OF_NEXT_ENTRY L h) = pvOwner h (default 0 (snd (al_next a))).
Proof.
  intros H HL Hne. pose proof (hr_lists _ _ H L a HL) as Hl.
  pose proof (hr_ends _ _ H L L a a HL HL) as He.
  destruct (listGET_OWNER_OF_NEXT_ENTRY_list h L a Hl He Hne) as (p & Hp & Hin & Ho & Hl').
  destruct (listGET_OWNER_OF_NEXT_ENTRY_form L h) as (f & Hf & _ & Hfo).
  split; [|by rewrite Ho, Hp].
  eapply heap_update; [exact H|exact HL|exact Hl'|..].
  - intros q Hq. by left.
  - intros L' b q _ _ _. by rewrite Hf.
  - intros L' Hx. rewrite Hf. cbn. auto.
Qed.

Lemma set_value_heap h A p v :
  heap_repr h A -> 0 <= v <= portMAX_DELAY -> map_Forall (fun L _ => p <> xListEnd L) A ->
  heap_repr (set_value p v h) A.
Proof.
  intros [Hl He] Hv Hp. split; [|done]. intros L a HL.
  destruct (Hl L a HL) as [H1 H2 H3 H4 H5 H6 H7 H8 H9].
  split; try done.
  - eapply path_ext; [exact H1|done|done].
  - cbn. rewrite assign_ne; [done|]. intros E. symmetry in E. revert E. by eapply Hp.
  - apply Forall_forall. intros q Hq. cbn. unfold assign. rewrite Forall_forall in H9.
    destruct (q =? p); [done|auto].
Qed.

(** The operations change no value but the one set, and no owner. *)
Lemma run_op_value o h h' r :
  run_op o h = Some (h', r) ->
  pvOwner h' = pvOwner h /\
  xItemValue h' = match o with
                  | OInitialise L => assign (xItemValue h) (xListEnd L) portMAX_DELAY
                  | OSetValue p v => assign (xItemValue h) p v
                  | _ => xItemValue h
                  end.
Proof.
  destruct o; cbn [run_op]; try (intros [= <- <-]; done).
  - unfold vListInsert. destruct (if xItemValue h p =? portMAX_DELAY then _ else _); [|done].
    by intros [= <- <-].
  - intros Heq. apply (inj Some), (f_equal fst) in Heq. cbn [fst] in Heq. subst.
    unfold uxListRemove. cbn [fst]. by destruct (_ =? p).
  - destruct (listGET_OWNER_OF_NEXT_ENTRY_form L h) as (f & Hf & _). rewrite Hf. by intros [= <- <-].
Qed.

(** Every operation on the pointers ends, implements the operation on sequences
    and keeps the representation of all lists. *)
Lemma list_op_refines o h s :
  lists_repr h s -> op_ok o s ->
  exists h', run_op o h = Some (h', snd (spec_op o s)) /\ lists_repr h' (fst (spec_op o s)).
Proof.
  destruct s as [value owner A]. intros [H Hv Ho] Hok. cbn in H, Hv, Ho.
  assert (exists h', run_op o h = Some (h', snd (spec_op o (AHeap value owner A))) /\
    heap_repr h' (a_lists (fst (spec_op o (AHeap value owner A))))) as (h' & Hr & Hh).
  { destruct o as [L|p v|L p|L p|L p|L]; cbn [run_op spec_op fst snd a_lists op_ok] in *.
    - destruct Hok. eexists; split; [reflexivity|]. by apply vListInitialise_heap.
    - destruct Hok. eexists; split; [reflexivity|]. by apply set_value_heap.
    - destruct Hok as ([a HL] & Hf & Hp & Hb). rewrite (alter_some _ _ _ _ HL).
      destruct (vListInsert_heap h A L a p) as (h' & -> & Hh'); [done..|by rewrite Hv|].
      exists h'. split; [done|]. by rewrite <- (al_insert_ext _ _ p a Hv).
    - destruct Hok as ([a HL] & Hf & Hp & Hb). rewrite (alter_some _ _ _ _ HL).
      eexists; split; [reflexivity|]. apply vListInsertEnd_heap; [done..|by rewrite Hv].
    - destruct Hok as (a & HL & Hp). rewrite (alter_some _ _ _ _ HL), lookup_insert_eq. cbn.
      destruct (uxListRemove_heap h A L a p H HL Hp) as [H1 H2].
      eexists; split; [|exact H1]. rewrite <- H2. by destruct (uxListRemove p h).
    - destruct Hok as (a & HL & Hne). rewrite (alter_some _ _ _ _ HL), HL.
      change (default al_empty (Some a)) with a.
      destruct (listGET_OWNER_OF_NEXT_ENTRY_heap h A L a H HL Hne) as [H1 H2].
      eexists; split; [|exact H1]. rewrite <- Ho, <- H2.
      by destruct (listGET_OWNER_OF_NEXT_ENTRY L h). }
  exists h'. split; [done|]. destruct (run_op_value _ _ _ _ Hr) as [Eo Ev].
  split; [done|rewrite Ev|rewrite Eo];
    destruct o; cbn [spec_op fst a_value a_owner]; try done; intros q; unfold assign; case_match; done.
Qed.

(** C21. The scheduler's linked lists are sequences: any sequence of
    initialisations, value assignments, sorted insertions, insertions before the
    index, removals and round-robin steps, each called as [list.h] asks (an item
    is inserted when it is in no list, removed from the list it is in), runs to
    its end, returns the values the operations on sequences return, and leaves
    every list of the memory a well-linked circular list of exactly the items of
    its sequence, in order; the search of an insertion always ends. *)
Theorem list_api_refines os h s :
  lists_repr h s -> ops_ok os s ->
  exists h', run_ops os h = Some (h', snd (spec_ops os s)) /\ lists_repr h' (fst (spec_ops os s)).
Proof.
  revert h s; induction os as [|o os IH]; intros h s H Hok; [by exists h|].
  destruct Hok as [Ho Hok]. destruct (list_op_refines o h s H Ho) as (h1 & Hr & H1).
  cbn [run_ops spec_ops]. rewrite Hr. destruct (spec_op o s) as [s1 r]. cbn [fst snd] in *.
  destruct (IH h1 s1 H1 Hok) as (h2 & Hr2 & H2). rewrite Hr2.
  destruct (spec_ops os s1) as [s2 rs]. eauto.
Qed.

(** A ready list of two items, walked, and one of them removed. *)
Definition sample_ops : list list_op :=
  [OInitialise 100; OSetValue 200 7; OInsert 100 200; OSetValue 300 5; OInsert 100 300;
   OSetValue 400 5; OInsert 100 400; ONext 100; OInsertEnd 100 500; ORemove 100 200].

Definition sample_lists : aheap := AHeap (fun _ => 0) (fun q => q + 1) ∅.

Lemma list_api_refines_witness :
  ops_ok sample_ops sample_lists /\
  exists h, lists_repr h sample_lists /\
  exists h', run_ops sample_ops h = Some (h', [0; 0; 0; 0; 0; 0; 0; 301; 0; 3]) /\
    list_repr h' 100 (AList [500; 300; 400] (Some 300)).
Proof.
  split; [apply (bool_decide_unpack _); vm_compute; exact I|].
  set (h := Heap (fun _ => 0) (fun _ => 0) (fun _ => 0) (fun q => q + 1) (fun _ => 0) (fun _ => 0)
              (fun _ => 0)).
  assert (lists_repr h sample_lists) as H by (split; [split; by intros|done|done]).
  exists h. split; [exact H|].
  destruct (list_api_refines sample_ops h sample_lists H) as (h' & Hr & Hs).
  { apply (bool_decide_unpack _); vm_compute; exact I. }
  exists h'. split; [exact Hr|]. apply (hr_lists _ _ (ls_heap _ _ Hs)). vm_compute. reflexivity.
Defined.
