(* ===== verification/KernelTasks.v ===== *)
(** * The scheduler ([FreeRTOS-Kernel/tasks.c], [portable/GCC/ARM_CM7])

    The scheduler as [FreeRTOSConfig.h] configures it: one core, five
    priorities, preemption with time slicing, the ready priorities in a bitmap,
    static allocation, mutexes with priority inheritance, and no suspended-task
    list.  A task is named by its control block's address; the lists are the
    sequences of [KernelList], each task's two list items standing for the task.
    A critical section is one step, since interrupts are masked in it.

    The theorems: every operation keeps the scheduler's structures consistent
    ([kernel_wf]); a task that delays becomes ready at exactly its tick, across
    the wrap of the tick count and whatever the other tasks do; the context
    switch picks a ready task of the highest priority and serves equal ones in
    turn. *)

From Stdlib Require Import Sorted.
From S2P Require Import Prelude KernelList.
From stdpp Require Import list gmap.
#[local] Open Scope Z_scope.

Definition configMAX_PRIORITIES : Z := 5.

(** ** State *)

(** The members of a control block the scheduler works with.  [xStateItemValue]
    and [xEventItemValue] are the values of its two list items. *)
Record TCB := mkTCB {
  uxPriority : Z;
  uxBasePriority : Z;
  uxMutexesHeld : Z;
  xStateItemValue : Z;
  xEventItemValue : Z
}.

#[global] Instance TCB_inhabited : Inhabited TCB := populate (mkTCB 0 0 0 0 0).

(** The lists a state item can be in: the ready list of a priority and the two
    delayed lists. *)
Inductive state_list := SReady (p : nat) | SDelayed1 | SDelayed2.
#[global] Instance state_list_eq_dec : EqDecision state_list.
Proof. solve_decision. Defined.

(** The lists an event item can be in: the pending ready list, and the event
    lists of the queues, by address. *)
Inductive event_list := EPending | EEvent (e : Z).
#[global] Instance event_list_eq_dec : EqDecision event_list.
Proof. solve_decision. Defined.
#[global] Instance event_list_countable : Countable event_list.
Proof.
  refine (inj_countable' (fun l => match l with EPending => None | EEvent e => Some e end)
    (fun o => match o with None => EPending | Some e => EEvent e end) _).
  by intros [].
Defined.

Record kernel := Kernel {
  tcbs : gmap Z TCB;
  pxCurrentTCB : Z;
  pxReadyTasksLists : list alist;
  xDelayedTaskList1 : alist;
  xDelayedTaskList2 : alist;
  pxDelayedTaskList : state_list;
  events : gmap event_list alist;
  uxTopReadyPriority : Z;
  uxSchedulerSuspended : Z;
  xTickCount : Z;
  xPendedTicks : Z;
  xNumOfOverflows : Z;
  xNextTaskUnblockTime : Z;
  xYieldPending : bool;
  (** The PendSV exception is pending: a context switch follows. *)
  xPendSV : bool;
  xSchedulerRunning : bool
}.

(** *** Members *)

Definition tcb (k : kernel) (t : Z) : TCB := default inhabitant (tcbs k !! t).

Definition slist (k : kernel) (l : state_list) : alist :=
  match l with
  | SReady p => nth p (pxReadyTasksLists k) al_empty
  | SDelayed1 => xDelayedTaskList1 k
  | SDelayed2 => xDelayedTaskList2 k
  end.

(** The control blocks are those of the tasks created. *)
Definition uxCurrentNumberOfTasks (k : kernel) : Z := Z.of_nat (size (tcbs k)).

Definition elist (k : kernel) (l : event_list) : alist := default al_empty (events k !! l).

Definition pxOverflowDelayedTaskList (k : kernel) : state_list :=
  if decide (pxDelayedTaskList k = SDelayed1) then SDelayed2 else SDelayed1.

Definition set_tcbs f (k : kernel) : kernel :=
  Kernel (f (tcbs k)) (pxCurrentTCB k) (pxReadyTasksLists k) (xDelayedTaskList1 k)
    (xDelayedTaskList2 k) (pxDelayedTaskList k) (events k) (uxTopReadyPriority k)
    (uxSchedulerSuspended k) (xTickCount k) (xPendedTicks k) (xNumOfOverflows k)
    (xNextTaskUnblockTime k) (xYieldPending k) (xPendSV k) (xSchedulerRunning k).

Definition set_tcb (t : Z) (f : TCB -> TCB) : kernel -> kernel := set_tcbs (alter f t).

Definition set_slist (l : state_list) (f : alist -> alist) (k : kernel) : kernel :=
  let '(Kernel ts c r d1 d2 d ev top su ti pe ov nx yp sv ru) := k in
  match l with
  | SReady p => Kernel ts c (alter f p r) d1 d2 d ev top su ti pe ov nx yp sv ru
  | SDelayed1 => Kernel ts c r (f d1) d2 d ev top su ti pe ov nx yp sv ru
  | SDelayed2 => Kernel ts c r d1 (f d2) d ev top su ti pe ov nx yp sv ru
  end.

Definition set_elist (l : event_list) (f : alist -> alist) (k : kernel) : kernel :=
  Kernel (tcbs k) (pxCurrentTCB k) (pxReadyTasksLists k) (xDelayedTaskList1 k)
    (xDelayedTaskList2 k) (pxDelayedTaskList k) (alter f l (events k)) (uxTopReadyPriority k)
    (uxSchedulerSuspended k) (xTickCount k) (xPendedTicks k) (xNumOfOverflows k)
    (xNextTaskUnblockTime k) (xYieldPending k) (xPendSV k) (xSchedulerRunning k).

Definition set_current (t : Z) (k : kernel) : kernel :=
  Kernel (tcbs k) t (pxReadyTasksLists k) (xDelayedTaskList1 k)
    (xDelayedTaskList2 k) (pxDelayedTaskList k) (events k) (uxTopReadyPriority k)
    (uxSchedulerSuspended k) (xTickCount k) (xPendedTicks k) (xNumOfOverflows k)
    (xNextTaskUnblockTime k) (xYieldPending k) (xPendSV k) (xSchedulerRunning k).

Definition set_top (z : Z) (k : kernel) : kernel :=
  Kernel (tcbs k) (pxCurrentTCB k) (pxReadyTasksLists k) (xDelayedTaskList1 k)
    (xDelayedTaskList2 k) (pxDelayedTaskList k) (events k) z
    (uxSchedulerSuspended k) (xTickCount k) (xPendedTicks k) (xNumOfOverflows k)
    (xNextTaskUnblockTime k) (xYieldPending k) (xPendSV k) (xSchedulerRunning k).

Definition set_suspended (z : Z) (k : kernel) : kernel :=
  Kernel (tcbs k) (pxCurrentTCB k) (pxReadyTasksLists k) (xDelayedTaskList1 k)
    (xDelayedTaskList2 k) (pxDelayedTaskList k) (events k) (uxTopReadyPriority k)
    z (xTickCount k) (xPendedTicks k) (xNumOfOverflows k)
    (xNextTaskUnblockTime k) (xYieldPending k) (xPendSV k) (xSchedulerRunning k).

(** The tick count, the pended ticks and the next time a task unblocks. *)
Definition set_time (tick pended next : Z) (k : kernel) : kernel :=
  Kernel (tcbs k) (pxCurrentTCB k) (pxReadyTasksLists k) (xDelayedTaskList1 k)
    (xDelayedTaskList2 k) (pxDelayedTaskList k) (events k) (uxTopReadyPriority k)
    (uxSchedulerSuspended k) tick pended (xNumOfOverflows k) next (xYieldPending k) (xPendSV k) (xSchedulerRunning k).

Definition set_yield (pending sv : bool) (k : kernel) : kernel :=
  Kernel (tcbs k) (pxCurrentTCB k) (pxReadyTasksLists k) (xDelayedTaskList1 k)
    (xDelayedTaskList2 k) (pxDelayedTaskList k) (events k) (uxTopReadyPriority k)
    (uxSchedulerSuspended k) (xTickCount k) (xPendedTicks k) (xNumOfOverflows k)
    (xNextTaskUnblockTime k) pending sv (xSchedulerRunning k).

Definition set_next_unblock (z : Z) (k : kernel) : kernel :=
  set_time (xTickCount k) (xPendedTicks k) z k.

(** [portYIELD]: PendSV is requested. *)
Definition portYIELD (k : kernel) : kernel := set_yield (xYieldPending k) true k.

(** The state and the event list a task's items are in, [pxContainer] of the
    items. *)
Definition is_member (t : Z) (a : alist) : bool := bool_decide (t ∈ al_items a).

Definition state_container (k : kernel) (t : Z) : option state_list :=
  List.find (fun l => is_member t (slist k l))
    (map SReady (seq 0 (length (pxReadyTasksLists k))) ++ [SDelayed1; SDelayed2]).

Definition event_container (k : kernel) (t : Z) : option event_list :=
  List.find (fun l => is_member t (elist k l)) (map fst (map_to_list (events k))).

(** [uxListRemove] of a task's state item: the number of items left in its list. *)
Definition remove_state (t : Z) (k : kernel) : kernel * nat :=
  match state_container k t with
  | None => (k, O)
  | Some l => let k := set_slist l (al_remove t) k in (k, length (al_items (slist k l)))
  end.

Definition remove_event (t : Z) (k : kernel) : kernel :=
  match event_container k t with
  | None => k
  | Some l => set_elist l (al_remove t) k
  end.

(** [vListInsert] of a task's state or event item. *)
Definition insert_state (l : state_list) (t : Z) (k : kernel) : kernel :=
  set_slist l (al_insert (fun u => xStateItemValue (tcb k u)) t) k.
Definition insert_event (l : event_list) (t : Z) (k : kernel) : kernel :=
  set_elist l (al_insert (fun u => xEventItemValue (tcb k u)) t) k.

(** ** Ready lists *)

Definition portRECORD_READY_PRIORITY (p : Z) (k : kernel) : kernel :=
  set_top (Z.lor (uxTopReadyPriority k) (Z.shiftl 1 p)) k.
Definition portRESET_READY_PRIORITY (p : Z) (k : kernel) : kernel :=
  set_top (Z.ldiff (uxTopReadyPriority k) (Z.shiftl 1 p)) k.

(** The number of zero bits above the highest one of a 32-bit word. *)
Definition ucPortCountLeadingZeros (w : Z) : Z := if w =? 0 then 32 else 31 - Z.log2 w.
Definition portGET_HIGHEST_PRIORITY (k : kernel) : Z :=
  u32 (31 - ucPortCountLeadingZeros (uxTopReadyPriority k)).

Definition prvAddTaskToReadyList (t : Z) (k : kernel) : kernel :=
  let k := portRECORD_READY_PRIORITY (uxPriority (tcb k t)) k in
  set_slist (SReady (Z.to_nat (uxPriority (tcb k t)))) (al_insert_end t) k.

(** ** Delayed lists *)

Definition set_state_value (t v : Z) : kernel -> kernel :=
  set_tcb t (fun b => mkTCB (uxPriority b) (uxBasePriority b) (uxMutexesHeld b) v (xEventItemValue b)).
Definition set_event_value (t v : Z) : kernel -> kernel :=
  set_tcb t (fun b => mkTCB (uxPriority b) (uxBasePriority b) (uxMutexesHeld b) (xStateItemValue b) v).
Definition set_priority (t p : Z) : kernel -> kernel :=
  set_tcb t (fun b => mkTCB p (uxBasePriority b) (uxMutexesHeld b) (xStateItemValue b) (xEventItemValue b)).
Definition set_mutexes (t n : Z) : kernel -> kernel :=
  set_tcb t (fun b => mkTCB (uxPriority b) (uxBasePriority b) n (xStateItemValue b) (xEventItemValue b)).

(** [xCanBlockIndefinitely] has no effect without a suspended-task list. *)
Definition prvAddCurrentTaskToDelayedList (xTicksToWait : Z) (k : kernel) : kernel :=
  let t := pxCurrentTCB k in
  let xConstTickCount := xTickCount k in
  let '(k, remaining) := remove_state t k in
  let k := if (remaining =? 0)%nat then portRESET_READY_PRIORITY (uxPriority (tcb k t)) k else k in
  let xTimeToWake := u32 (xConstTickCount + xTicksToWait) in
  let k := set_state_value t xTimeToWake k in
  if xTimeToWake <? xConstTickCount then insert_state (pxOverflowDelayedTaskList k) t k
  else
    let k := insert_state (pxDelayedTaskList k) t k in
    if xTimeToWake <? xNextTaskUnblockTime k then set_next_unblock xTimeToWake k else k.

Definition prvResetNextTaskUnblockTime (k : kernel) : kernel :=
  match al_items (slist k (pxDelayedTaskList k)) with
  | [] => set_next_unblock portMAX_DELAY k
  | t :: _ => set_next_unblock (xStateItemValue (tcb k t)) k
  end.

Definition taskSWITCH_DELAYED_LISTS (k : kernel) : kernel :=
  let k := Kernel (tcbs k) (pxCurrentTCB k) (pxReadyTasksLists k) (xDelayedTaskList1 k)
    (xDelayedTaskList2 k) (pxOverflowDelayedTaskList k) (events k) (uxTopReadyPriority k)
    (uxSchedulerSuspended k) (xTickCount k) (xPendedTicks k) (i32 (xNumOfOverflows k + 1))
    (xNextTaskUnblockTime k) (xYieldPending k) (xPendSV k) (xSchedulerRunning k) in
  prvResetNextTaskUnblockTime k.

(** The loop of [xTaskIncrementTick] over the tasks whose time has come; it
    removes an item of the delayed list in each turn. *)
Fixpoint unblock_loop (fuel : nat) (xConstTickCount : Z) (k : kernel) (xSwitchRequired : bool)
  : kernel * bool :=
  match fuel with
  | O => (k, xSwitchRequired)
  | S fuel =>
    match al_items (slist k (pxDelayedTaskList k)) with
    | [] => (set_next_unblock portMAX_DELAY k, xSwitchRequired)
    | t :: _ =>
      let xItemValue := xStateItemValue (tcb k t) in
      if xConstTickCount <? xItemValue then (set_next_unblock xItemValue k, xSwitchRequired)
      else
        let k := fst (remove_state t k) in
        let k := match event_container k t with None => k | Some _ => remove_event t k end in
        let k := prvAddTaskToReadyList t k in
        unblock_loop fuel xConstTickCount k
          (xSwitchRequired || (uxPriority (tcb k (pxCurrentTCB k)) <? uxPriority (tcb k t)))
    end
  end.

Definition xTaskIncrementTick (k : kernel) : kernel * bool :=
  if uxSchedulerSuspended k =? 0 then
    let xConstTickCount := u32 (xTickCount k + 1) in
    let k := set_time xConstTickCount (xPendedTicks k) (xNextTaskUnblockTime k) k in
    let k := if xConstTickCount =? 0 then taskSWITCH_DELAYED_LISTS k else k in
    let '(k, sw) :=
      if xNextTaskUnblockTime k <=? xConstTickCount then
        unblock_loop (S (length (al_items (slist k (pxDelayedTaskList k))))) xConstTickCount k false
      else (k, false) in
    let here := slist k (SReady (Z.to_nat (uxPriority (tcb k (pxCurrentTCB k))))) in
    (k, sw || (1 <? length (al_items here))%nat || xYieldPending k)
  else
    (set_time (xTickCount k) (u32 (xPendedTicks k + 1)) (xNextTaskUnblockTime k) k, false).

(** ** Suspending the scheduler *)

Definition vTaskSuspendAll (k : kernel) : kernel :=
  set_suspended (u32 (uxSchedulerSuspended k + 1)) k.

(** The tasks of the pending ready list become ready. *)
Fixpoint pending_loop (fuel : nat) (k : kernel) : kernel :=
  match fuel with
  | O => k
  | S fuel =>
    match al_items (elist k EPending) with
    | [] => k
    | t :: _ =>
      let k := remove_event t k in
      let k := fst (remove_state t k) in
      let k := prvAddTaskToReadyList t k in
      let k := if uxPriority (tcb k (pxCurrentTCB k)) <? uxPriority (tcb k t)
               then set_yield true (xPendSV k) k else k in
      pending_loop fuel k
    end
  end.

(** The ticks missed while the scheduler was suspended. *)
Fixpoint pended_loop (n : nat) (k : kernel) : kernel :=
  match n with
  | O => k
  | S n =>
    let '(k, sw) := xTaskIncrementTick k in
    pended_loop n (if sw then set_yield true (xPendSV k) k else k)
  end.

Definition xTaskResumeAll (k : kernel) : kernel * bool :=
  let k := set_suspended (u32 (uxSchedulerSuspended k - 1)) k in
  if (uxSchedulerSuspended k =? 0) && (0 <? uxCurrentNumberOfTasks k) then
    let waiting := al_items (elist k EPending) in
    let k := pending_loop (length waiting) k in
    let k := match waiting with [] => k | _ :: _ => prvResetNextTaskUnblockTime k end in
    let k := pended_loop (Z.to_nat (xPendedTicks k)) k in
    let k := set_time (xTickCount k) 0 (xNextTaskUnblockTime k) k in
    if xYieldPending k then (portYIELD k, true) else (k, false)
  else (k, false).

(** ** Context switch *)

(** [configASSERT] of an empty list stops the program: [None]. *)
Definition taskSELECT_HIGHEST_PRIORITY_TASK (k : kernel) : option kernel :=
  let l := SReady (Z.to_nat (portGET_HIGHEST_PRIORITY k)) in
  match snd (al_next (slist k l)) with
  | None => None
  | Some t => Some (set_current t (set_slist l (fun a => fst (al_next a)) k))
  end.

Definition vTaskSwitchContext (k : kernel) : option kernel :=
  if uxSchedulerSuspended k =? 0 then
    taskSELECT_HIGHEST_PRIORITY_TASK (set_yield false (xPendSV k) k)
  else Some (set_yield true (xPendSV k) k).

(** The exception handler clears its pending bit and switches. *)
Definition xPortPendSVHandler (k : kernel) : option kernel :=
  vTaskSwitchContext (set_yield (xYieldPending k) false k).

Definition xPortSysTickHandler (k : kernel) : kernel :=
  let '(k, sw) := xTaskIncrementTick k in if sw then portYIELD k else k.

(** ** Delays *)

Definition vTaskDelay (xTicksToDelay : Z) (k : kernel) : kernel :=
  let '(k, xAlreadyYielded) :=
    if 0 <? xTicksToDelay then
      xTaskResumeAll (prvAddCurrentTaskToDelayedList xTicksToDelay (vTaskSuspendAll k))
    else (k, false) in
  if xAlreadyYielded then k else portYIELD k.

(** Whether [xTaskDelayUntil] waits, at the tick count [now]. *)
Definition xShouldDelay (previous wake now : Z) : bool :=
  if now <? previous then (wake <? previous) && (now <? wake)
  else (wake <? previous) || (now <? wake).

(** The new [*pxPreviousWakeTime] and the result. *)
Definition xTaskDelayUntil (previous xTimeIncrement : Z) (k : kernel) : kernel * Z * bool :=
  let k := vTaskSuspendAll k in
  let now := xTickCount k in
  let xTimeToWake := u32 (previous + xTimeIncrement) in
  let should := xShouldDelay previous xTimeToWake now in
  let k := if should then prvAddCurrentTaskToDelayedList (u32 (xTimeToWake - now)) k else k in
  let '(k, xAlreadyYielded) := xTaskResumeAll k in
  (if xAlreadyYielded then k else portYIELD k, xTimeToWake, should).

(** ** Event lists *)

Definition vTaskPlaceOnEventList (e : event_list) (xTicksToWait : Z) (k : kernel) : kernel :=
  prvAddCurrentTaskToDelayedList xTicksToWait (insert_event e (pxCurrentTCB k) k).

(** Called with a list that is not empty. *)
Definition xTaskRemoveFromEventList (e : event_list) (k : kernel) : kernel * bool :=
  match al_items (elist k e) with
  | [] => (k, false)
  | t :: _ =>
    let k := remove_event t k in
    let k := if uxSchedulerSuspended k =? 0
             then prvAddTaskToReadyList t (fst (remove_state t k))
             else set_elist EPending (al_insert_end t) k in
    if uxPriority (tcb k (pxCurrentTCB k)) <? uxPriority (tcb k t)
    then (set_yield true (xPendSV k) k, true) else (k, false)
  end.

(** ** Priority inheritance *)

(** Tasks are [option]s where the code passes [NULL] for none. *)
Definition taskEVENT_LIST_ITEM_VALUE_IN_USE : Z := 2147483648.

Definition value_in_use (v : Z) : bool := negb (Z.land v taskEVENT_LIST_ITEM_VALUE_IN_USE =? 0).

(** The event item takes the priority it will be sorted by. *)
Definition event_value_for (p : Z) : Z := u32 (configMAX_PRIORITIES - p).

Definition xTaskPriorityInherit (pxMutexHolder : option Z) (k : kernel) : kernel * bool :=
  match pxMutexHolder with
  | None => (k, false)
  | Some m =>
    let p := uxPriority (tcb k (pxCurrentTCB k)) in
    if uxPriority (tcb k m) <? p then
      let k := if value_in_use (xEventItemValue (tcb k m)) then k
               else set_event_value m (event_value_for p) k in
      let own := SReady (Z.to_nat (uxPriority (tcb k m))) in
      if is_member m (slist k own) then
        let '(k, remaining) := remove_state m k in
        let k := if (remaining =? 0)%nat
                 then portRESET_READY_PRIORITY (uxPriority (tcb k m)) k else k in
        (prvAddTaskToReadyList m (set_priority m p k), true)
      else (set_priority m p k, true)
    else (k, uxBasePriority (tcb k m) <? p)
  end.

(** [None]: a [configASSERT] fails (the holder is not the running task, or
    holds no mutex). *)
Definition xTaskPriorityDisinherit (pxMutexHolder : option Z) (k : kernel) : option (kernel * bool) :=
  match pxMutexHolder with
  | None => Some (k, false)
  | Some t =>
    if negb (t =? pxCurrentTCB k) || (uxMutexesHeld (tcb k t) =? 0) then None
    else
      let k := set_mutexes t (u32 (uxMutexesHeld (tcb k t) - 1)) k in
      if (uxPriority (tcb k t) =? uxBasePriority (tcb k t)) || negb (uxMutexesHeld (tcb k t) =? 0)
      then Some (k, false)
      else
        let '(k, remaining) := remove_state t k in
        let k := if (remaining =? 0)%nat
                 then portRESET_READY_PRIORITY (uxPriority (tcb k t)) k else k in
        let k := set_priority t (uxBasePriority (tcb k t)) k in
        let k := set_event_value t (event_value_for (uxPriority (tcb k t))) k in
        Some (prvAddTaskToReadyList t k, true)
  end.

Definition vTaskPriorityDisinheritAfterTimeout (pxMutexHolder : option Z)
    (uxHighestPriorityWaitingTask : Z) (k : kernel) : option kernel :=
  match pxMutexHolder with
  | None => Some k
  | Some t =>
    if uxMutexesHeld (tcb k t) =? 0 then None
    else
      let uxPriorityToUse :=
        if uxBasePriority (tcb k t) <? uxHighestPriorityWaitingTask
        then uxHighestPriorityWaitingTask else uxBasePriority (tcb k t) in
      if (uxPriority (tcb k t) =? uxPriorityToUse) || negb (uxMutexesHeld (tcb k t) =? 1)
      then Some k
      else if t =? pxCurrentTCB k then None
      else
        let uxPriorityUsedOnEntry := uxPriority (tcb k t) in
        let k := set_priority t uxPriorityToUse k in
        let k := if value_in_use (xEventItemValue (tcb k t)) then k
                 else set_event_value t (event_value_for uxPriorityToUse) k in
        if is_member t (slist k (SReady (Z.to_nat uxPriorityUsedOnEntry))) then
          let '(k, remaining) := remove_state t k in
          let k := if (remaining =? 0)%nat
                   then portRESET_READY_PRIORITY (uxPriority (tcb k t)) k else k in
          Some (prvAddTaskToReadyList t k)
        else Some k
  end.

Definition pvTaskIncrementMutexHeldCount (k : kernel) : kernel * Z :=
  let t := pxCurrentTCB k in
  (set_mutexes t (u32 (uxMutexesHeld (tcb k t) + 1)) k, t).

(** ** Timeouts *)

Record TimeOut := mkTimeOut { xOverflowCount : Z; xTimeOnEntering : Z }.

Definition vTaskInternalSetTimeOutState (k : kernel) : TimeOut :=
  mkTimeOut (xNumOfOverflows k) (xTickCount k).

(** Whether the time is over; the timeout and the remaining ticks are updated. *)
Definition xTaskCheckForTimeOut (o : TimeOut) (xTicksToWait : Z) (k : kernel) : bool * TimeOut * Z :=
  let xConstTickCount := xTickCount k in
  let xElapsedTime := u32 (xConstTickCount - xTimeOnEntering o) in
  if negb (xNumOfOverflows k =? xOverflowCount o) && (xTimeOnEntering o <=? xConstTickCount)
  then (true, o, 0)
  else if xElapsedTime <? xTicksToWait
  then (false, vTaskInternalSetTimeOutState k, u32 (xTicksToWait - xElapsedTime))
  else (true, o, 0).

(** ** Creating tasks and starting *)

(** The data before the first task is created: zeroed by the loader. *)
Definition kernel_zero : kernel :=
  Kernel ∅ 0 [] al_empty al_empty SDelayed1 ∅ 0 0 0 0 0 0 false false false.

Definition prvInitialiseTaskLists (k : kernel) : kernel :=
  Kernel (tcbs k) (pxCurrentTCB k) (replicate (Z.to_nat configMAX_PRIORITIES) al_empty)
    al_empty al_empty SDelayed1 (<[EPending := al_empty]> (events k)) (uxTopReadyPriority k)
    (uxSchedulerSuspended k) (xTickCount k) (xPendedTicks k) (xNumOfOverflows k)
    (xNextTaskUnblockTime k) (xYieldPending k) (xPendSV k) (xSchedulerRunning k).

(** [prvInitialiseNewTask] as far as the scheduler's members go ([None]: its
    assertion on the priority), with the control block zeroed before. *)
Definition prvInitialiseNewTask (t priority : Z) (k : kernel) : option kernel :=
  if priority <? configMAX_PRIORITIES
  then Some (set_tcbs (insert t (mkTCB priority priority 0 0 (event_value_for priority))) k)
  else None.

(** The first task initialises the lists; before the scheduler runs a task of at
    least the current one's priority becomes the current one, afterwards a task
    of a higher priority preempts it. *)
Definition prvAddNewTaskToReadyList (t : Z) (k : kernel) : kernel :=
  let k := if pxCurrentTCB k =? 0 then prvInitialiseTaskLists (set_current t k)
           else if negb (xSchedulerRunning k)
                   && (uxPriority (tcb k (pxCurrentTCB k)) <=? uxPriority (tcb k t))
                then set_current t k else k in
  let k := prvAddTaskToReadyList t k in
  if xSchedulerRunning k && (uxPriority (tcb k (pxCurrentTCB k)) <? uxPriority (tcb k t))
  then portYIELD k else k.

Definition xTaskCreateStatic (t priority : Z) (k : kernel) : option kernel :=
  match prvInitialiseNewTask t priority k with
  | None => None
  | Some k => Some (prvAddNewTaskToReadyList t k)
  end.

Definition set_running (k : kernel) : kernel :=
  Kernel (tcbs k) (pxCurrentTCB k) (pxReadyTasksLists k) (xDelayedTaskList1 k)
    (xDelayedTaskList2 k) (pxDelayedTaskList k) (events k) (uxTopReadyPriority k)
    (uxSchedulerSuspended k) (xTickCount k) (xPendedTicks k) (xNumOfOverflows k)
    (xNextTaskUnblockTime k) (xYieldPending k) (xPendSV k) true.

(** The idle task has priority 0; [configINITIAL_TICK_COUNT] is 0. *)
Definition vTaskStartScheduler (idle : Z) (k : kernel) : option kernel :=
  match xTaskCreateStatic idle 0 k with
  | None => None
  | Some k => Some (set_running (set_time 0 (xPendedTicks k) portMAX_DELAY k))
  end.

Inductive scheduler_state := taskSCHEDULER_SUSPENDED | taskSCHEDULER_NOT_STARTED | taskSCHEDULER_RUNNING.

Definition xTaskGetSchedulerState (k : kernel) : scheduler_state :=
  if negb (xSchedulerRunning k) then taskSCHEDULER_NOT_STARTED
  else if uxSchedulerSuspended k =? 0 then taskSCHEDULER_RUNNING else taskSCHEDULER_SUSPENDED.

(** A queue initialises its event lists. *)
Definition vListInitialise_event (e : event_list) (k : kernel) : kernel :=
  Kernel (tcbs k) (pxCurrentTCB k) (pxReadyTasksLists k) (xDelayedTaskList1 k)
    (xDelayedTaskList2 k) (pxDelayedTaskList k) (<[e := al_empty]> (events k))
    (uxTopReadyPriority k) (uxSchedulerSuspended k) (xTickCount k) (xPendedTicks k)
    (xNumOfOverflows k) (xNextTaskUnblockTime k) (xYieldPending k) (xPendSV k) (xSchedulerRunning k).

(** ** Lemmas on sequences with an index *)

Record alist_ok (a : alist) : Prop := AListOk {
  ao_nodup : NoDup (al_items a);
  ao_index : forall i, al_index a = Some i -> (i ∈ al_items a)
}.

Lemma al_empty_ok : alist_ok al_empty.
Proof. split; [constructor|done]. Qed.

(** Removing an item that is in no list is nothing, removing one that is takes
    it out of its place. *)
Lemma al_remove_absent t a : alist_ok a -> t ∉ al_items a -> al_remove t a = a.
Proof.
  intros [Hd Hi] Ht. unfold al_remove, split_at.
  pose proof (span_while_app (fun x => negb (x =? t)) (al_items a)) as Happ.
  destruct (span_while _ (al_items a)) as [l r] eqn:E. cbn in Happ.
  destruct r as [|y r].
  - rewrite app_nil_r in Happ. subst. cbn [tail]. rewrite app_nil_r.
    destruct a as [items [i|]]; cbn in *; [|done]. case_bool_decide as Hx; [|done].
    injection Hx as ->. by destruct Ht; apply Hi.
  - pose proof (span_while_rest (fun x => negb (x =? t)) (al_items a) y r) as Hy.
    rewrite E in Hy. specialize (Hy eq_refl). assert (y = t) as -> by lia.
    destruct Ht. rewrite <- Happ. apply elem_of_app. right. apply list_elem_of_here.
Qed.

Lemma al_remove_items t a :
  t ∈ al_items a -> exists l r, al_items a = l ++ t :: r /\ al_items (al_remove t a) = l ++ r /\
    al_index (al_remove t a) = (if bool_decide (al_index a = Some t) then last l else al_index a).
Proof.
  intros Ht. unfold al_remove. destruct (split_at_in t (al_items a) Ht) as (l & r & -> & Hl & _).
  exists l, r. done.
Qed.

Lemma al_remove_in t a q :
  alist_ok a -> q ∈ al_items (al_remove t a) <-> q ∈ al_items a /\ q <> t.
Proof.
  intros Ha. destruct (decide (t ∈ al_items a)) as [Ht|Ht].
  - destruct (al_remove_items t a Ht) as (l & r & Hl & -> & _).
    pose proof (ao_nodup a Ha) as Hd. rewrite Hl in Hd |- *.
    apply NoDup_app in Hd as (_ & H1 & [H2 _]%NoDup_cons).
    rewrite !elem_of_app, elem_of_cons. split.
    + intros [H|H]; (split; [tauto|]); intros ->.
      * apply (H1 t H). apply list_elem_of_here.
      * done.
    + tauto.
  - rewrite al_remove_absent by done. split; [|tauto]. intros H. split; [done|]. by intros ->.
Qed.

Lemma al_remove_ok t a : alist_ok a -> alist_ok (al_remove t a).
Proof.
  intros Ha. destruct (decide (t ∈ al_items a)) as [Ht|Ht];
    [|by rewrite al_remove_absent].
  destruct (al_remove_items t a Ht) as (l & r & Hl & Hi & Hx). destruct Ha as [Hd Hin].
  rewrite Hl in Hd, Hin. split; rewrite Hi.
  - apply NoDup_app in Hd as (H1 & H2 & [H3 H4]%NoDup_cons). apply NoDup_app. split_and!; [done| |done].
    intros x Hx1 Hx2. apply (H2 x Hx1). by apply list_elem_of_further.
  - intros i. rewrite Hx. case_bool_decide as Hb; intros H.
    + apply elem_of_app. left. by apply last_Some_elem_of.
    + specialize (Hin i H). rewrite elem_of_app in Hin |- *. rewrite elem_of_cons in Hin.
      destruct Hin as [?|[->|?]]; [by left|done|by right].
Qed.

Lemma al_insert_end_ok t a : alist_ok a -> t ∉ al_items a -> alist_ok (al_insert_end t a).
Proof.
  intros [Hd Hi] Ht. split.
  - unfold al_insert_end. destruct (al_index a) as [i|]; cbn.
    + pose proof (span_while_app (fun x => negb (x =? i)) (al_items a)) as H. unfold split_at.
      destruct (span_while _ _) as [l r]. cbn in *. rewrite <- H in Hd, Ht.
      rewrite <- Permutation_middle. by constructor.
    + apply NoDup_app. split_and!; [done| |apply NoDup_singleton].
      intros x Hx Hy. apply list_elem_of_singleton in Hy. by subst.
  - intros i Hx. apply al_insert_end_elem. right. apply Hi. revert Hx. unfold al_insert_end.
    destruct (al_index a) as [j|]; [|done]. by destruct (split_at j _).
Qed.

Lemma al_insert_ok v t a : alist_ok a -> t ∉ al_items a -> alist_ok (al_insert v t a).
Proof.
  intros [Hd Hi] Ht. split.
  - unfold al_insert, insert_sorted. cbn. pose proof (span_while_app (fun x => v x <=? v t) (al_items a)) as H.
    destruct (span_while _ _) as [l r]. cbn in *. rewrite <- H in Hd, Ht.
    rewrite <- Permutation_middle. by constructor.
  - intros i Hx. apply insert_sorted_elem. right. by apply Hi.
Qed.

(** *** Sorted sequences *)

Definition sorted_by (v : Z -> Z) (l : list Z) : Prop := StronglySorted (fun x y => v x <= v y) l.

Lemma sorted_by_app v l1 l2 :
  sorted_by v (l1 ++ l2) <-> sorted_by v l1 /\ sorted_by v l2 /\
    (forall x y, x ∈ l1 -> y ∈ l2 -> v x <= v y).
Proof.
  unfold sorted_by. induction l1 as [|a l1 IH]; cbn.
  - split; [intros H; split_and!; [constructor|done|]|tauto]. intros x y Hx. by apply elem_of_nil in Hx.
  - split.
    + intros H. apply StronglySorted_inv in H as [H1 H2]. apply IH in H1 as (Ha & Hb & Hc).
      rewrite Forall_app in H2. destruct H2 as [H2 H3]. split_and!; [by constructor|done|].
      intros x y Hx Hy. apply elem_of_cons in Hx as [->|Hx]; [|auto].
      rewrite Forall_forall in H3. auto.
    + intros (H1 & H2 & H3). apply StronglySorted_inv in H1 as [H1 H4]. constructor.
      * apply IH. split_and!; [done|done|]. intros x y Hx. apply H3. by apply list_elem_of_further.
      * apply Forall_app. split; [done|]. apply Forall_forall. intros y Hy.
        apply H3; [apply list_elem_of_here|done].
Qed.

Lemma sorted_by_ext v v' l :
  (forall x, x ∈ l -> v x = v' x) -> sorted_by v l -> sorted_by v' l.
Proof.
  unfold sorted_by. induction l as [|a l IH]; intros H Hs; [constructor|].
  apply StronglySorted_inv in Hs as [H1 H2]. constructor.
  - apply IH; [|done]. intros x Hx. apply H. by apply list_elem_of_further.
  - apply Forall_forall. intros x Hx. rewrite Forall_forall in H2. rewrite <- !H.
    + by apply H2.
    + by apply list_elem_of_further.
    + apply list_elem_of_here.
Qed.

(** [vListInsert] keeps a list sorted. *)
Lemma insert_sorted_sorted v t l : sorted_by v l -> sorted_by v (insert_sorted v t l).
Proof.
  intros Hs. unfold insert_sorted.
  pose proof (span_while_app (fun x => v x <=? v t) l) as H.
  pose proof (span_while_accepts (fun x => v x <=? v t) l) as Ha.
  pose proof (span_while_rest (fun x => v x <=? v t) l) as Hr.
  destruct (span_while _ l) as [a b]. cbn in *. rewrite <- H in Hs.
  apply sorted_by_app in Hs as (H1 & H2 & H3). rewrite Forall_forall in Ha.
  assert (forall y, y ∈ b -> v t < v y) as Hb.
  { destruct b as [|z b]; [intros y Hy; by apply elem_of_nil in Hy|].
    specialize (Hr z b eq_refl). cbn in Hr. apply StronglySorted_inv in H2 as [_ H2].
    rewrite Forall_forall in H2. intros y Hy. apply elem_of_cons in Hy as [->|Hy]; [lia|].
    specialize (H2 y Hy). lia. }
  apply sorted_by_app. split_and!; [done| |].
  - constructor; [done|]. apply Forall_forall. intros y Hy. specialize (Hb y Hy). lia.
  - intros x y Hx Hy. specialize (Ha x Hx). cbn in Ha.
    apply elem_of_cons in Hy as [->|Hy]; [lia|auto].
Qed.

Lemma al_remove_sorted v t a :
  alist_ok a -> sorted_by v (al_items a) -> sorted_by v (al_items (al_remove t a)).
Proof.
  intros Ha Hs. destruct (decide (t ∈ al_items a)) as [Ht|Ht]; [|by rewrite al_remove_absent].
  destruct (al_remove_items t a Ht) as (l & r & Hl & -> & _). rewrite Hl in Hs.
  apply sorted_by_app in Hs as (H1 & H2 & H3). apply StronglySorted_inv in H2 as [H2 _].
  apply sorted_by_app. split_and!; [done|done|]. intros x y Hx Hy. apply H3; [done|].
  by apply list_elem_of_further.
Qed.

(** ** The scheduler's structures *)

(** The task's state item, or event item, is in the list. *)
Definition inS (k : kernel) (l : state_list) (t : Z) : Prop := t ∈ al_items (slist k l).
Definition inE (k : kernel) (e : event_list) (t : Z) : Prop := t ∈ al_items (elist k e).

Definition is_delayed (l : state_list) : Prop := l = SDelayed1 \/ l = SDelayed2.
Definition state_value (k : kernel) (t : Z) : Z := xStateItemValue (tcb k t).

(** The consistency of the lists, with the exception of a task [F] that is being
    moved and is in no state list, and with the wake times measured from [n]: the
    tick count, or the one before it while a tick is processed. *)
Record lists_wf (F : option Z) (n : Z) (k : kernel) : Prop := ListsWf {
  w_len : length (pxReadyTasksLists k) = 5%nat;
  w_cur : is_delayed (pxDelayedTaskList k);
  w_slists : forall l, alist_ok (slist k l);
  w_once : forall t l l', inS k l t -> inS k l' t -> l = l';
  w_moving : forall t, F = Some t -> is_Some (tcbs k !! t) /\ forall l, ~ inS k l t;
  w_tasks : forall t, is_Some (tcbs k !! t) <-> F = Some t \/ exists l, inS k l t;
  w_prio : forall p t, inS k (SReady p) t -> uxPriority (tcb k t) = Z.of_nat p;
  w_prios : forall t b, tcbs k !! t = Some b -> 0 <= uxPriority b < configMAX_PRIORITIES;
  w_top : forall p, Z.testbit (uxTopReadyPriority k) p = true <->
    0 <= p /\ exists t, inS k (SReady (Z.to_nat p)) t;
  w_sorted : forall l, is_delayed l -> sorted_by (state_value k) (al_items (slist k l));
  w_delayed : forall t, inS k (pxDelayedTaskList k) t ->
    n < state_value k t < 4294967296;
  w_overflow : forall t, inS k (pxOverflowDelayedTaskList k) t ->
    0 <= state_value k t < n;
  w_next : forall t, inS k (pxDelayedTaskList k) t -> xNextTaskUnblockTime k <= state_value k t;
  w_elists : forall e, alist_ok (elist k e);
  w_eonce : forall t e e', inE k e t -> inE k e' t -> e = e';
  w_event : forall t e, inE k e t -> F = Some t \/ inS k SDelayed1 t \/ inS k SDelayed2 t;
  w_pending : is_Some (events k !! EPending);
  w_current : is_Some (tcbs k !! pxCurrentTCB k)
}.

(** *** Members after an assignment *)

Definition valid (k : kernel) (l : state_list) : Prop :=
  match l with SReady p => (p < length (pxReadyTasksLists k))%nat | _ => True end.

Lemma slist_set k l l' f :
  valid k l -> slist (set_slist l f k) l' = if decide (l = l') then f (slist k l) else slist k l'.
Proof.
  intros Hv. destruct k as [ts c r d1 d2 d ev top su ti pe ov nx yp sv ru].
  destruct l as [p| |], l' as [q| |]; cbn [set_slist slist pxReadyTasksLists xDelayedTaskList1
    xDelayedTaskList2]; try (case_decide; congruence); try done.
  cbn in Hv. rewrite !nth_lookup. case_decide as E.
  - injection E as <-. rewrite list_lookup_alter_eq.
    destruct (lookup_lt_is_Some_2 r p Hv) as [a Ha]. by rewrite Ha.
  - by rewrite list_lookup_alter_ne by congruence.
Qed.

Lemma elist_set k e e' f :
  is_Some (events k !! e) ->
  elist (set_elist e f k) e' = if decide (e = e') then f (elist k e) else elist k e'.
Proof.
  intros [a Ha]. unfold elist. cbn. case_decide as E.
  - subst. by rewrite lookup_alter_eq, Ha.
  - by rewrite lookup_alter_ne.
Qed.

(** An assignment to one list leaves every other member alone. *)
Lemma set_slist_rest k l f :
  tcbs (set_slist l f k) = tcbs k /\ pxCurrentTCB (set_slist l f k) = pxCurrentTCB k /\
  length (pxReadyTasksLists (set_slist l f k)) = length (pxReadyTasksLists k) /\
  pxDelayedTaskList (set_slist l f k) = pxDelayedTaskList k /\
  events (set_slist l f k) = events k /\
  uxTopReadyPriority (set_slist l f k) = uxTopReadyPriority k /\
  uxSchedulerSuspended (set_slist l f k) = uxSchedulerSuspended k /\
  xTickCount (set_slist l f k) = xTickCount k /\ xPendedTicks (set_slist l f k) = xPendedTicks k /\
  xNumOfOverflows (set_slist l f k) = xNumOfOverflows k /\
  xNextTaskUnblockTime (set_slist l f k) = xNextTaskUnblockTime k /\
  xYieldPending (set_slist l f k) = xYieldPending k /\ xPendSV (set_slist l f k) = xPendSV k /\
  xSchedulerRunning (set_slist l f k) = xSchedulerRunning k.
Proof.
  destruct k as [ts c r d1 d2 d ev top su ti pe ov nx yp sv ru].
  destruct l; cbn; rewrite ?length_alter; done.
Qed.

Lemma tcb_set_slist k l f t : tcb (set_slist l f k) t = tcb k t.
Proof. unfold tcb. by rewrite (proj1 (set_slist_rest k l f)). Qed.

Lemma elist_set_slist k l f e : elist (set_slist l f k) e = elist k e.
Proof. unfold elist. by destruct (set_slist_rest k l f) as (_ & _ & _ & _ & -> & _). Qed.

Lemma overflow_set_slist k l f :
  pxOverflowDelayedTaskList (set_slist l f k) = pxOverflowDelayedTaskList k.
Proof. unfold pxOverflowDelayedTaskList. by destruct (set_slist_rest k l f) as (_ & _ & _ & -> & _). Qed.

(** Rewrites the members of [set_slist l f k]. *)
Ltac slist_rest k l f :=
  destruct (set_slist_rest k l f) as (?Rt & ?Rc & ?Rl & ?Rd & ?Re & ?Rp & ?Rs & ?Ri & ?Rq & ?Ro &
    ?Rn & ?Ry & ?Rv & ?Rr).

Lemma delayed_overflow k :
  is_delayed (pxDelayedTaskList k) ->
  is_delayed (pxOverflowDelayedTaskList k) /\ pxDelayedTaskList k <> pxOverflowDelayedTaskList k /\
  forall l, is_delayed l -> l = pxDelayedTaskList k \/ l = pxOverflowDelayedTaskList k.
Proof.
  unfold is_delayed, pxOverflowDelayedTaskList.
  intros [E|E]; rewrite E; (split_and!; [by cbn; eauto|by cbn|]); intros l [->| ->]; cbn; eauto.
Qed.

(** The list found for a task is the one it is in. *)
Lemma wf_valid F n k l t : lists_wf F n k -> inS k l t -> valid k l.
Proof.
  intros Hw Ht. destruct l as [p| |]; [|done..]. cbn. rewrite (w_len _ _ _ Hw).
  destruct (decide (p < 5)%nat) as [|Hp]; [done|]. exfalso. unfold inS in Ht. cbn in Ht.
  rewrite nth_overflow in Ht by (rewrite (w_len _ _ _ Hw); lia). by apply elem_of_nil in Ht.
Qed.

Lemma state_container_in F n k l t : lists_wf F n k -> inS k l t -> state_container k t = Some l.
Proof.
  intros Hw Ht. unfold state_container.
  assert (Hmem : List.In l (map SReady (seq 0 (length (pxReadyTasksLists k))) ++ [SDelayed1; SDelayed2])).
  { apply in_or_app. pose proof (wf_valid _ _ _ _ _ Hw Ht) as Hv. destruct l as [p| |]; cbn; [|tauto..].
    left. apply in_map, in_seq. cbn in Hv. lia. }
  destruct (List.find _ _) as [l'|] eqn:E.
  - apply find_some in E as [_ E]. unfold is_member in E. apply bool_decide_eq_true in E.
    f_equal. by eapply (w_once _ _ _ Hw t).
  - exfalso. eapply find_none in E; [|exact Hmem]. unfold is_member in E.
    by apply bool_decide_eq_false in E.
Qed.

Lemma event_container_in F n k e t : lists_wf F n k -> inE k e t -> event_container k t = Some e.
Proof.
  intros Hw Ht. unfold event_container.
  assert (Hmem : List.In e (map fst (map_to_list (events k)))).
  { unfold inE, elist in Ht. destruct (events k !! e) as [a|] eqn:Ea; [|by apply elem_of_nil in Ht].
    apply in_map_iff. exists (e, a). split; [done|]. apply list_elem_of_In. by apply elem_of_map_to_list. }
  destruct (List.find _ _) as [e'|] eqn:E.
  - apply find_some in E as [_ E]. unfold is_member in E. apply bool_decide_eq_true in E.
    f_equal. by eapply (w_eonce _ _ _ Hw t).
  - exfalso. eapply find_none in E; [|exact Hmem]. unfold is_member in E.
    by apply bool_decide_eq_false in E.
Qed.

Lemma event_container_none F n k t :
  lists_wf F n k -> event_container k t = None -> forall e, ~ inE k e t.
Proof. intros Hw Hn e He. by rewrite (event_container_in _ _ _ _ _ Hw He) in Hn. Qed.

(** The bit of a priority. *)
Lemma testbit_one_shifted p q : 0 <= p -> 0 <= q -> Z.testbit (Z.shiftl 1 p) q = (q =? p).
Proof.
  intros Hp Hq. rewrite Z.shiftl_spec by done.
  destruct (Z.eqb_spec q p) as [->|Hne]; [by rewrite Z.sub_diag|].
  destruct (Z.ltb_spec q p); [rewrite Z.testbit_neg_r by lia; done|].
  apply Z.bits_above_log2; cbn; lia.
Qed.

(** *** Moving a task between state lists *)

Lemma remove_state_form F n k l t :
  lists_wf F n k -> inS k l t ->
  remove_state t k =
    (set_slist l (al_remove t) k, length (al_items (al_remove t (slist k l)))).
Proof.
  intros Hw Ht. unfold remove_state. rewrite (state_container_in _ _ _ _ _ Hw Ht).
  rewrite slist_set by (by eapply wf_valid). by rewrite decide_True.
Qed.

Lemma inS_remove F n k l t l' q :
  lists_wf F n k -> valid k l ->
  (inS (set_slist l (al_remove t) k) l' q <-> inS k l' q /\ (l = l' -> q <> t)).
Proof.
  intros Hw Hv. unfold inS. rewrite slist_set by done. case_decide as E.
  - subst. rewrite al_remove_in by apply (w_slists _ _ _ Hw). tauto.
  - tauto.
Qed.

(** The task leaves its list; [z] is the bitmap of the ready lists that remain
    nonempty. *)
Lemma wf_detach n k l t z :
  lists_wf None n k -> inS k l t ->
  (forall p, Z.testbit z p = true <->
     0 <= p /\ exists u, inS (set_slist l (al_remove t) k) (SReady (Z.to_nat p)) u) ->
  lists_wf (Some t) n (set_top z (set_slist l (al_remove t) k)).
Proof.
  intros Hw Ht Hz. pose proof (wf_valid _ _ _ _ _ Hw Ht) as Hv.
  set (k1 := set_slist l (al_remove t) k).
  assert (HS : forall l' q, inS (set_top z k1) l' q <-> inS k l' q /\ (l = l' -> q <> t)).
  { intros l' q. apply (inS_remove _ _ _ _ _ _ _ Hw Hv). }
  assert (Hnt : forall l', ~ inS (set_top z k1) l' t).
  { intros l' [H1 H2]%HS. apply H2; [|done]. by eapply (w_once _ _ _ Hw t). }
  slist_rest k l (al_remove t). fold k1 in Rt, Rc, Rl, Rd, Re, Rp, Rs, Ri, Rq, Ro, Rn, Ry, Rv, Rr.
  assert (HT : forall u, tcb (set_top z k1) u = tcb k u) by (intros u; unfold tcb; cbn; by rewrite Rt).
  assert (HO : pxOverflowDelayedTaskList (set_top z k1) = pxOverflowDelayedTaskList k)
    by (unfold pxOverflowDelayedTaskList; cbn; by rewrite Rd).
  assert (HE : forall e, elist (set_top z k1) e = elist k e) by (intros e; unfold elist; cbn; by rewrite Re).
  assert (HV : forall u, state_value (set_top z k1) u = state_value k u)
    by (intros u; unfold state_value; by rewrite HT).
  split; cbn [set_top pxReadyTasksLists pxDelayedTaskList xTickCount xNextTaskUnblockTime events
    tcbs uxTopReadyPriority pxCurrentTCB]; rewrite ?Rt, ?Rc, ?Rl, ?Rd, ?Re, ?Ri, ?Rn, ?HO.
  - apply (w_len _ _ _ Hw).
  - apply (w_cur _ _ _ Hw).
  - intros l'. change (slist (set_top z k1) l') with (slist k1 l'). unfold k1. rewrite slist_set by done.
    case_decide; [apply al_remove_ok|]; apply (w_slists _ _ _ Hw).
  - intros u l1 l2 [H1 _]%HS [H2 _]%HS. by eapply (w_once _ _ _ Hw u).
  - intros u [= <-]. split; [|done]. apply (w_tasks _ _ _ Hw). eauto.
  - intros u. rewrite (w_tasks _ _ _ Hw). split.
    + intros [?|[l' Hl']]; [done|]. destruct (decide (u = t)) as [->|]; [by left|].
      right. exists l'. apply HS. done.
    + intros [[= <-]|[l' Hl']]; right; [eauto|]. apply HS in Hl' as [? _]. eauto.
  - intros p u [H1 _]%HS. rewrite HT. by apply (w_prio _ _ _ Hw).
  - apply (w_prios _ _ _ Hw).
  - exact Hz.
  - intros l' Hl'. change (slist (set_top z k1) l') with (slist k1 l').
    assert (sorted_by (state_value k) (al_items (slist k1 l'))) as Hs.
    { unfold k1. rewrite slist_set by done. case_decide; [subst|by apply (w_sorted _ _ _ Hw)].
      apply al_remove_sorted; [apply (w_slists _ _ _ Hw)|by apply (w_sorted _ _ _ Hw)]. }
    eapply sorted_by_ext; [|exact Hs]. intros u _. by rewrite HV.
  - intros u [H1 _]%HS. rewrite HV. by apply (w_delayed _ _ _ Hw).
  - intros u [H1 _]%HS. rewrite HV. by apply (w_overflow _ _ _ Hw).
  - intros u [H1 _]%HS. rewrite HV. by apply (w_next _ _ _ Hw).
  - intros e. rewrite HE. apply (w_elists _ _ _ Hw).
  - intros u e e'. unfold inE. rewrite !HE. apply (w_eonce _ _ _ Hw).
  - intros u e. unfold inE. rewrite HE. intros H. destruct (decide (u = t)) as [->|]; [by left|].
    right. rewrite !HS. destruct (w_event _ _ _ Hw u e H) as [?|[?|?]]; [done|by left|by right].
  - apply (w_pending _ _ _ Hw).
  - apply (w_current _ _ _ Hw).
Qed.

Lemma set_top_same k : set_top (uxTopReadyPriority k) k = k.
Proof. by destruct k. Qed.

Lemma wf_detach_delayed n k l t :
  lists_wf None n k -> is_delayed l -> inS k l t ->
  lists_wf (Some t) n (set_slist l (al_remove t) k).
Proof.
  intros Hw Hl Ht. rewrite <- set_top_same. apply wf_detach; [done..|].
  slist_rest k l (al_remove t). rewrite Rp. intros p. rewrite (w_top _ _ _ Hw).
  split; intros [Hp [u Hu]]; (split; [done|exists u]); revert Hu;
    rewrite (inS_remove _ _ _ _ _ _ _ Hw) by (by eapply wf_valid); [|tauto].
  intros Hu. split; [done|]. intros ->. by destruct Hl.
Qed.

Lemma wf_detach_ready n k p t :
  lists_wf None n k -> inS k (SReady p) t ->
  lists_wf (Some t) n
    (let '(k1, remaining) := remove_state t k in
     if (remaining =? 0)%nat then portRESET_READY_PRIORITY (Z.of_nat p) k1 else k1).
Proof.
  intros Hw Ht. pose proof (wf_valid _ _ _ _ _ Hw Ht) as Hv.
  rewrite (remove_state_form _ _ _ _ _ Hw Ht).
  slist_rest k (SReady p) (al_remove t).
  assert (Hother : forall q u, q <> p ->
    (inS (set_slist (SReady p) (al_remove t) k) (SReady q) u <-> inS k (SReady q) u)).
  { intros q u Hq. rewrite (inS_remove _ _ _ _ _ _ _ Hw Hv). split; [tauto|].
    intros H. split; [done|]. intros [= ->]. done. }
  assert (Hown : (exists u, inS (set_slist (SReady p) (al_remove t) k) (SReady p) u) <->
    al_items (al_remove t (slist k (SReady p))) <> []).
  { unfold inS. rewrite slist_set, decide_True by done.
    destruct (al_items (al_remove t _)) as [|x l]; split; try done.
    - intros [u Hu]. by apply elem_of_nil in Hu.
    - intros _. exists x. apply list_elem_of_here. }
  destruct (Nat.eqb_spec (length (al_items (al_remove t (slist k (SReady p))))) 0) as [E|E].
  - apply length_zero_iff_nil in E. unfold portRESET_READY_PRIORITY. apply wf_detach; [done..|].
    rewrite Rp. intros q. rewrite Z.ldiff_spec, andb_true_iff, (w_top _ _ _ Hw), negb_true_iff. split.
    + intros [[Hq [u Hu]] Hb]. split; [done|]. rewrite testbit_one_shifted in Hb by lia.
      assert (Z.to_nat q <> p) as Hne by (intros <-; lia).
      exists u. by apply Hother.
    + intros [Hq [u Hu]]. destruct (decide (Z.to_nat q = p)) as [Hqp|Hne].
      * exfalso. rewrite Hqp in Hu. apply (proj1 Hown); [by eexists|done].
      * rewrite testbit_one_shifted by lia. split; [|lia]. split; [done|]. exists u. by apply Hother.
  - rewrite <- set_top_same. apply wf_detach; [done..|]. rewrite Rp. intros q.
    rewrite (w_top _ _ _ Hw). split; intros [Hq [u Hu]]; (split; [done|]).
    + destruct (decide (Z.to_nat q = p)) as [Hqp|Hne].
      * rewrite Hqp. apply Hown. intros Hn. rewrite Hn in E. done.
      * exists u. by apply Hother.
    + exists u. by apply (inS_remove _ _ _ _ _ _ _ Hw Hv) in Hu as [? _].
Qed.

(** The moving task enters a list: the ready list of its priority, or the
    delayed list its wake time belongs to. *)
Lemma wf_attach n k l t f z nx :
  lists_wf (Some t) n k -> valid k l ->
  alist_ok (f (slist k l)) ->
  (forall q, q ∈ al_items (f (slist k l)) <-> q = t \/ q ∈ al_items (slist k l)) ->
  (forall p, Z.testbit z p = true <->
     0 <= p /\ exists u, inS (set_slist l f k) (SReady (Z.to_nat p)) u) ->
  (forall p, l = SReady p -> uxPriority (tcb k t) = Z.of_nat p /\ forall e, ~ inE k e t) ->
  (is_delayed l -> sorted_by (state_value k) (al_items (f (slist k l)))) ->
  (l = pxDelayedTaskList k -> n < state_value k t < 4294967296 /\ nx <= state_value k t) ->
  (l = pxOverflowDelayedTaskList k -> 0 <= state_value k t < n) ->
  nx <= xNextTaskUnblockTime k ->
  lists_wf None n (set_next_unblock nx (set_top z (set_slist l f k))).
Proof.
  intros Hw Hv Hok Hin Hz Hready Hsort Hdel Hov Hnx.
  set (k1 := set_slist l f k). set (k2 := set_next_unblock nx (set_top z k1)).
  assert (HS : forall l' q, inS k2 l' q <-> inS k l' q \/ (l = l' /\ q = t)).
  { intros l' q. change (inS k2 l' q) with (inS k1 l' q). unfold inS, k1. rewrite slist_set by done.
    case_decide as E; [rewrite <- E, Hin|]; tauto. }
  destruct (w_moving _ _ _ Hw t eq_refl) as [Htcb Hnt].
  slist_rest k l f. fold k1 in Rt, Rc, Rl, Rd, Re, Rp, Rs, Ri, Rq, Ro, Rn, Ry, Rv, Rr.
  assert (HT : forall u, tcb k2 u = tcb k u) by (intros u; unfold tcb, k2; cbn; by rewrite Rt).
  assert (HO : pxOverflowDelayedTaskList k2 = pxOverflowDelayedTaskList k)
    by (unfold pxOverflowDelayedTaskList, k2; cbn; by rewrite Rd).
  assert (HE : forall e, elist k2 e = elist k e) by (intros e; unfold elist, k2; cbn; by rewrite Re).
  assert (HV : forall u, state_value k2 u = state_value k u)
    by (intros u; unfold state_value; by rewrite HT).
  assert (Hd2 : pxDelayedTaskList k2 = pxDelayedTaskList k) by done.
  assert (Hi2 : xTickCount k2 = xTickCount k) by done.
  assert (Hn2 : xNextTaskUnblockTime k2 = nx) by done.
  assert (Ht2 : tcbs k2 = tcbs k) by done.
  assert (Hc2 : pxCurrentTCB k2 = pxCurrentTCB k) by done.
  assert (He2 : events k2 = events k) by done.
  split; rewrite ?Hd2, ?Hi2, ?Hn2, ?Ht2, ?Hc2, ?He2, ?HO.
  - change (length (pxReadyTasksLists k1) = 5%nat). rewrite Rl. apply (w_len _ _ _ Hw).
  - apply (w_cur _ _ _ Hw).
  - intros l'. change (alist_ok (slist k1 l')). unfold k1. rewrite slist_set by done.
    case_decide; [done|apply (w_slists _ _ _ Hw)].
  - intros u l1 l2 [H1|[E1 ->]]%HS [H2|[E2 H2]]%HS; [by eapply (w_once _ _ _ Hw u)|..].
    + rewrite H2 in H1. by apply Hnt in H1.
    + by apply Hnt in H2.
    + congruence.
  - done.
  - intros u. rewrite (w_tasks _ _ _ Hw). setoid_rewrite HS. split.
    + intros [[= <-]|[l' Hl']]; right; eauto.
    + intros [?|[l' [Hl'|[_ ->]]]]; [done|eauto|by left].
  - intros p u [H1|[-> ->]]%HS; rewrite HT; [by apply (w_prio _ _ _ Hw)|]. by apply Hready.
  - apply (w_prios _ _ _ Hw).
  - exact Hz.
  - intros l' Hl'. change (sorted_by (state_value k2) (al_items (slist k1 l'))).
    eapply sorted_by_ext; [intros u _; symmetry; by apply HV|].
    unfold k1. rewrite slist_set by done. case_decide as E; [|by apply (w_sorted _ _ _ Hw)].
    apply Hsort. by rewrite E.
  - intros u Hu. apply HS in Hu as [Hu|[E ->]]; rewrite HV.
    + by apply (w_delayed _ _ _ Hw).
    + by apply Hdel.
  - intros u Hu. apply HS in Hu as [Hu|[E ->]]; rewrite HV; [by apply (w_overflow _ _ _ Hw)|by apply Hov].
  - intros u Hu. apply HS in Hu as [Hu|[E ->]]; rewrite HV.
    + pose proof (w_next _ _ _ Hw u Hu). lia.
    + by apply Hdel.
  - intros e. rewrite HE. apply (w_elists _ _ _ Hw).
  - intros u e e'. unfold inE. rewrite !HE. apply (w_eonce _ _ _ Hw).
  - intros u e. unfold inE. rewrite HE. intros H. rewrite !HS.
    destruct (w_event _ _ _ Hw u e H) as [[= <-]|[?|?]]; [|tauto..].
    destruct l as [p| |]; [|tauto..]. by apply (proj2 (Hready p eq_refl)) in H.
  - apply (w_pending _ _ _ Hw).
  - apply (w_current _ _ _ Hw).
Qed.

Lemma set_next_same k : set_next_unblock (xNextTaskUnblockTime k) k = k.
Proof. by destruct k. Qed.

Lemma wf_attach_ready n k t :
  lists_wf (Some t) n k -> (forall e, ~ inE k e t) -> lists_wf None n (prvAddTaskToReadyList t k).
Proof.
  intros Hw He. destruct (w_moving _ _ _ Hw t eq_refl) as [[b Hb] Hnt].
  pose proof (w_prios _ _ _ Hw t b Hb) as Hp.
  assert (Et : tcb k t = b) by (unfold tcb; by rewrite Hb).
  unfold prvAddTaskToReadyList. cbv zeta.
  change (tcb (portRECORD_READY_PRIORITY (uxPriority (tcb k t)) k) t) with (tcb k t). rewrite Et.
  set (p := Z.to_nat (uxPriority b)).
  set (z := Z.lor (uxTopReadyPriority k) (Z.shiftl 1 (uxPriority b))).
  replace (set_slist (SReady p) (al_insert_end t) (portRECORD_READY_PRIORITY (uxPriority b) k))
    with (set_next_unblock (xNextTaskUnblockTime k) (set_top z (set_slist (SReady p) (al_insert_end t) k)))
    by (by destruct k).
  assert (Hv : valid k (SReady p)).
  { cbn. rewrite (w_len _ _ _ Hw). unfold p, configMAX_PRIORITIES in *. lia. }
  apply (wf_attach n k (SReady p) t (al_insert_end t)); try done.
  - apply al_insert_end_ok; [apply (w_slists _ _ _ Hw)|apply Hnt].
  - intros q. apply al_insert_end_elem.
  - intros q. unfold z. rewrite Z.lor_spec, orb_true_iff, (w_top _ _ _ Hw).
    assert (forall l' u, inS (set_slist (SReady p) (al_insert_end t) k) l' u <->
      inS k l' u \/ (SReady p = l' /\ u = t)) as HS.
    { intros l' u. unfold inS. rewrite slist_set by done. case_decide as E; [|tauto].
      subst. rewrite al_insert_end_elem. tauto. }
    setoid_rewrite HS. split.
    + intros [[Hq [u Hu]]|Hq].
      * split; [done|]. exists u. by left.
      * destruct (Z.ltb_spec q 0) as [|Hq0]; [by rewrite Z.testbit_neg_r in Hq|].
        rewrite testbit_one_shifted in Hq by lia. split; [done|]. exists t. right.
        split; [|done]. f_equal. unfold p. lia.
    + intros [Hq [u [Hu|[E ->]]]]; [left; eauto|]. right.
      rewrite testbit_one_shifted by lia. injection E. unfold p. lia.
  - intros q [= <-]. rewrite Et. split; [|done]. unfold p. lia.
  - by intros [?|?].
  - intros E. by destruct (w_cur _ _ _ Hw) as [H|H]; rewrite H in E.
  - intros E. destruct (delayed_overflow k (w_cur _ _ _ Hw)) as ([H|H] & _ & _); by rewrite H in E.
Qed.

(** The wake time of a moving task is set, then it enters a delayed list. *)
Lemma wf_set_state_value n k t v :
  lists_wf (Some t) n k -> lists_wf (Some t) n (set_state_value t v k).
Proof.
  intros Hw. destruct (w_moving _ _ _ Hw t eq_refl) as [[b Hb] Hnt].
  assert (HT : forall u, u <> t -> tcb (set_state_value t v k) u = tcb k u).
  { intros u Hu. unfold tcb. cbn. by rewrite lookup_alter_ne. }
  assert (HP : forall u, uxPriority (tcb (set_state_value t v k) u) = uxPriority (tcb k u)).
  { intros u. destruct (decide (u = t)) as [->|]; [|by rewrite HT].
    unfold tcb. cbn. by rewrite lookup_alter_eq, Hb. }
  assert (HV : forall l u, inS k l u -> state_value (set_state_value t v k) u = state_value k u).
  { intros l u Hu. unfold state_value. rewrite HT; [done|]. intros ->. by eapply Hnt. }
  assert (HD : forall u, is_Some (tcbs (set_state_value t v k) !! u) <-> is_Some (tcbs k !! u)).
  { intros u. cbn. rewrite lookup_alter_is_Some. done. }
  destruct Hw. split; try done.
  - intros u Hu. rewrite HD. auto.
  - intros u. rewrite HD. auto.
  - intros p u Hu. rewrite HP. auto.
  - intros u b' Hb'. destruct (decide (u = t)) as [->|Hne].
    + cbn in Hb'. rewrite lookup_alter_eq, Hb in Hb'. injection Hb' as <-. cbn. eauto.
    + cbn in Hb'. rewrite lookup_alter_ne in Hb' by done. eauto.
  - intros l Hl. eapply sorted_by_ext; [|by apply w_sorted0].
    intros u Hu. symmetry. eapply HV. exact Hu.
  - intros u Hu. erewrite HV by exact Hu. auto.
  - intros u Hu. erewrite HV by exact Hu. auto.
  - intros u Hu. erewrite HV by exact Hu. auto.
  - by apply HD.
Qed.

(** *** Event lists and scalars *)

Lemma wf_set_elist F n k e f :
  lists_wf F n k -> is_Some (events k !! e) -> alist_ok (f (elist k e)) ->
  (forall q, q ∈ al_items (f (elist k e)) ->
     inE k e q \/ ((forall e', ~ inE k e' q) /\ (F = Some q \/ inS k SDelayed1 q \/ inS k SDelayed2 q))) ->
  lists_wf F n (set_elist e f k).
Proof.
  intros Hw He Hok Hin.
  assert (HE : forall e', elist (set_elist e f k) e' = if decide (e = e') then f (elist k e) else elist k e')
    by (intros; by apply elist_set).
  assert (Hq : forall e' q, inE (set_elist e f k) e' q ->
    inE k e' q \/ (e = e' /\ (forall e'', ~ inE k e'' q) /\ (F = Some q \/ inS k SDelayed1 q \/ inS k SDelayed2 q))).
  { intros e' q. unfold inE at 1. rewrite HE. case_decide as E; [subst|by left].
    intros Hx. destruct (Hin q Hx) as [?|[? ?]]; [by left|right; eauto]. }
  destruct Hw. split; try done.
  - intros e'. rewrite HE. case_decide; auto.
  - intros u e1 e2 H1 H2. destruct (Hq _ _ H1) as [H1'|(E1 & N1 & _)], (Hq _ _ H2) as [H2'|(E2 & N2 & _)].
    + eauto.
    + by apply N2 in H1'.
    + by apply N1 in H2'.
    + congruence.
  - intros u e' Hu. destruct (Hq _ _ Hu) as [Hu'|(_ & _ & ?)]; [by eapply w_event0|done].
  - cbn. by rewrite lookup_alter_is_Some.
Qed.

Lemma inE_some k e t : inE k e t -> is_Some (events k !! e).
Proof. unfold inE, elist. destruct (events k !! e); [done|]. intros H. by apply elem_of_nil in H. Qed.

(** The task's event item is in no list afterwards; nothing else moves. *)
Lemma wf_remove_event F n k t :
  lists_wf F n k ->
  lists_wf F n (remove_event t k) /\ (forall e q, inE (remove_event t k) e q <-> inE k e q /\ q <> t).
Proof.
  intros Hw. unfold remove_event. destruct (event_container k t) as [e|] eqn:E.
  - assert (Ht : inE k e t).
    { apply find_some in E as [_ E]. by apply bool_decide_eq_true in E. }
    pose proof (inE_some _ _ _ Ht) as Hs. split.
    + apply wf_set_elist; [done|done|apply al_remove_ok, (w_elists _ _ _ Hw)|].
      intros q Hq. left. apply al_remove_in in Hq as [? _]; [done|apply (w_elists _ _ _ Hw)].
    + intros e' q. unfold inE at 1. rewrite elist_set by done. case_decide as Ee.
      * subst. apply al_remove_in, (w_elists _ _ _ Hw).
      * split; [|tauto]. intros Hq. split; [done|]. intros ->. by eapply Ee, (w_eonce _ _ _ Hw t).
  - split; [done|]. intros e q. split; [|tauto]. intros Hq. split; [done|].
    intros ->. by eapply event_container_none in Hq.
Qed.

(** [remove_event] changes the event lists only. *)
Lemma remove_event_form t k : exists ev, remove_event t k =
  Kernel (tcbs k) (pxCurrentTCB k) (pxReadyTasksLists k) (xDelayedTaskList1 k)
    (xDelayedTaskList2 k) (pxDelayedTaskList k) ev (uxTopReadyPriority k)
    (uxSchedulerSuspended k) (xTickCount k) (xPendedTicks k) (xNumOfOverflows k)
    (xNextTaskUnblockTime k) (xYieldPending k) (xPendSV k) (xSchedulerRunning k).
Proof.
  unfold remove_event. destruct (event_container k t); [eexists; reflexivity|].
  exists (events k). by destruct k.
Qed.

Lemma wf_set_yield F n k a b : lists_wf F n k -> lists_wf F n (set_yield a b k).
Proof. by intros []; split. Qed.
Lemma wf_set_suspended F n k z : lists_wf F n k -> lists_wf F n (set_suspended z k).
Proof. by intros []; split. Qed.
Lemma wf_set_pended F n k i z : lists_wf F n k -> lists_wf F n (set_time i z (xNextTaskUnblockTime k) k).
Proof. by intros []; split. Qed.
Lemma wf_set_current F n k t : is_Some (tcbs k !! t) -> lists_wf F n k -> lists_wf F n (set_current t k).
Proof. by intros ? []; split. Qed.

Create HintDb kernel.
#[export] Hint Resolve wf_set_yield wf_set_suspended wf_set_pended : kernel.

(** The first task of the delayed list is the first to wake. *)
Lemma wf_set_next F n k nx :
  lists_wf F n k -> (forall t, inS k (pxDelayedTaskList k) t -> nx <= state_value k t) ->
  lists_wf F n (set_next_unblock nx k).
Proof. by intros [] ?; split. Qed.

Lemma delayed_head F n k t l u :
  lists_wf F n k -> al_items (slist k (pxDelayedTaskList k)) = t :: l ->
  inS k (pxDelayedTaskList k) u -> state_value k t <= state_value k u.
Proof.
  intros Hw Hl Hu. pose proof (w_sorted _ _ _ Hw _ (w_cur _ _ _ Hw)) as Hs.
  unfold inS in Hu. rewrite Hl in Hs, Hu. apply StronglySorted_inv in Hs as [_ Hs].
  rewrite Forall_forall in Hs. apply elem_of_cons in Hu as [->|Hu]; [done|by apply Hs].
Qed.

Lemma wf_reset_next F n k : lists_wf F n k -> lists_wf F n (prvResetNextTaskUnblockTime k).
Proof.
  intros Hw. unfold prvResetNextTaskUnblockTime.
  destruct (al_items (slist k (pxDelayedTaskList k))) as [|t l] eqn:E.
  - apply wf_set_next; [done|]. intros u Hu. unfold inS in Hu. rewrite E in Hu. by apply elem_of_nil in Hu.
  - apply wf_set_next; [done|]. intros u Hu. by eapply delayed_head.
Qed.

(** *** Delaying the running task *)

Lemma wf_attach_delayed n k t l :
  lists_wf (Some t) n k -> is_delayed l ->
  (l = pxDelayedTaskList k -> n < state_value k t < 4294967296) ->
  (l = pxOverflowDelayedTaskList k -> 0 <= state_value k t < n) ->
  lists_wf None n (set_next_unblock
    (if decide (l = pxDelayedTaskList k) then Z.min (xNextTaskUnblockTime k) (state_value k t)
     else xNextTaskUnblockTime k) (insert_state l t k)).
Proof.
  intros Hw Hl H1 H2. set (nx := if decide _ then _ else _).
  destruct (w_moving _ _ _ Hw t eq_refl) as [_ Hnt].
  replace (set_next_unblock nx (insert_state l t k)) with
    (set_next_unblock nx (set_top (uxTopReadyPriority k) (set_slist l (al_insert (state_value k) t) k)))
    by (unfold insert_state; slist_rest k l (al_insert (state_value k) t);
        rewrite <- Rp, set_top_same; done).
  assert (Hv : valid k l) by (by destruct Hl; subst).
  apply (wf_attach n k l t); try done.
  - apply al_insert_ok; [apply (w_slists _ _ _ Hw)|apply Hnt].
  - intros q. apply insert_sorted_elem.
  - intros p. rewrite (w_top _ _ _ Hw).
    assert (forall u, inS (set_slist l (al_insert (state_value k) t) k) (SReady (Z.to_nat p)) u <->
      inS k (SReady (Z.to_nat p)) u) as HS.
    { intros u. unfold inS. rewrite slist_set by done. case_decide; [|done]. by destruct Hl; subst. }
    by setoid_rewrite HS.
  - intros p ->. by destruct Hl.
  - intros _. apply insert_sorted_sorted. by apply (w_sorted _ _ _ Hw).
  - intros E. split; [by apply H1|]. unfold nx. rewrite decide_True by done. lia.
  - unfold nx. case_decide; lia.
Qed.

(** The running task leaves its ready list for the delayed list of its wake
    time. *)
Lemma wf_delay_current n k p ticks :
  lists_wf None n k -> n = xTickCount k -> is_u32 n -> 0 < ticks < 4294967296 ->
  inS k (SReady p) (pxCurrentTCB k) ->
  lists_wf None n (prvAddCurrentTaskToDelayedList ticks k).
Proof.
  intros Hw Hn Hu Ht Hin. unfold prvAddCurrentTaskToDelayedList.
  set (t := pxCurrentTCB k) in *.
  pose proof (wf_detach_ready _ _ _ _ Hw Hin) as Hd.
  rewrite (remove_state_form _ _ _ _ _ Hw Hin) in Hd |- *.
  cbv beta iota in Hd |- *. rewrite tcb_set_slist, (w_prio _ _ _ Hw p t Hin).
  match type of Hd with lists_wf _ _ ?x => set (k1 := x) in * end. cbv zeta.
  set (wake := u32 (xTickCount k + ticks)).
  assert (Htick : xTickCount k1 = n).
  { unfold k1. slist_rest k (SReady p) (al_remove t). destruct (_ =? 0)%nat; cbn; congruence. }
  pose proof (wf_set_state_value _ _ _ wake Hd) as Hv.
  set (k2 := set_state_value t wake k1) in *.
  destruct (w_moving _ _ _ Hv t eq_refl) as [[b Hb] _].
  assert (Hsv : state_value k2 t = wake).
  { unfold state_value, tcb, k2, set_state_value, set_tcb. cbn.
    destruct (w_moving _ _ _ Hd t eq_refl) as [[b' Hb'] _]. by rewrite lookup_alter_eq, Hb'. }
  destruct (delayed_overflow k2 (w_cur _ _ _ Hv)) as (Ho & Hne & _).
  assert (Hw32 : 0 <= wake < 4294967296) by apply u32_range.
  destruct (Z.ltb_spec wake (xTickCount k)) as [Hlt|Hge].
  - pose proof (wf_attach_delayed n k2 t _ Hv Ho) as Ha. rewrite decide_False in Ha by congruence.
    replace (insert_state (pxOverflowDelayedTaskList k2) t k2) with
      (set_next_unblock (xNextTaskUnblockTime k2) (insert_state (pxOverflowDelayedTaskList k2) t k2)).
    + apply Ha; rewrite Hsv; [congruence|intros _; lia].
    + unfold insert_state. slist_rest k2 (pxOverflowDelayedTaskList k2)
        (al_insert (fun u => xStateItemValue (tcb k2 u)) t). rewrite <- Rn. apply set_next_same.
  - pose proof (wf_attach_delayed n k2 t _ Hv (w_cur _ _ _ Hv)) as Ha. rewrite decide_True in Ha by done.
    rewrite Hsv in Ha.
    assert (Hx : n < wake) by (unfold wake in *; rewrite <- Hn in *; word).
    set (k3 := insert_state (pxDelayedTaskList k2) t k2) in *.
    assert (Hn3 : xNextTaskUnblockTime k3 = xNextTaskUnblockTime k2).
    { unfold k3, insert_state. by slist_rest k2 (pxDelayedTaskList k2)
        (al_insert (fun u => xStateItemValue (tcb k2 u)) t). }
    rewrite <- Hn3 in Ha. specialize (Ha ltac:(lia) ltac:(congruence)).
    destruct (Z.ltb_spec wake (xNextTaskUnblockTime k3)).
    + rewrite Z.min_r in Ha by lia. exact Ha.
    + rewrite Z.min_l, set_next_same in Ha by lia. exact Ha.
Qed.

(** *** Waking a task *)

(** [t] left its delayed list and its event list for the ready list of its
    priority; nothing else changed. *)
Record wakes (t : Z) (k k' : kernel) : Prop := Wakes {
  wk_state : forall l u, inS k' l u <->
    (u <> t /\ inS k l u) \/ (u = t /\ l = SReady (Z.to_nat (uxPriority (tcb k t))));
  wk_event : forall e u, inE k' e u <-> inE k e u /\ u <> t;
  wk_tcbs : tcbs k' = tcbs k;
  wk_delayed : pxDelayedTaskList k' = pxDelayedTaskList k;
  wk_current : pxCurrentTCB k' = pxCurrentTCB k;
  wk_suspended : uxSchedulerSuspended k' = uxSchedulerSuspended k;
  wk_tick : xTickCount k' = xTickCount k;
  wk_pended : xPendedTicks k' = xPendedTicks k;
  wk_overflows : xNumOfOverflows k' = xNumOfOverflows k;
  wk_next : xNextTaskUnblockTime k' = xNextTaskUnblockTime k
}.

Lemma remove_event_set_slist t l f k :
  remove_event t (set_slist l f k) = set_slist l f (remove_event t k).
Proof.
  unfold remove_event. replace (event_container (set_slist l f k) t) with (event_container k t).
  - destruct (event_container k t) as [e|]; [|done]. unfold set_elist.
    destruct k as [ts c r d1 d2 d ev top su ti pe ov nx yp sv ru]. by destruct l.
  - unfold event_container. slist_rest k l f. unfold elist. by rewrite Re.
Qed.

Lemma remove_event_match t k :
  match event_container k t with None => k | Some _ => remove_event t k end = remove_event t k.
Proof. unfold remove_event. by destruct (event_container k t). Qed.

Lemma inS_add_ready F n t k l u :
  lists_wf F n k -> valid k (SReady (Z.to_nat (uxPriority (tcb k t)))) ->
  inS (prvAddTaskToReadyList t k) l u <->
    inS k l u \/ (u = t /\ l = SReady (Z.to_nat (uxPriority (tcb k t)))).
Proof.
  intros Hw Hv. unfold prvAddTaskToReadyList. cbv zeta.
  change (tcb (portRECORD_READY_PRIORITY (uxPriority (tcb k t)) k) t) with (tcb k t).
  unfold inS. rewrite slist_set by exact Hv.
  change (slist (portRECORD_READY_PRIORITY (uxPriority (tcb k t)) k)) with (slist k).
  case_decide as E.
  - rewrite <- E, al_insert_end_elem. split; [intros [?|?]|intros [?|[? ?]]]; tauto.
  - split; [tauto|]. intros [?|[_ ?]]; [done|congruence].
Qed.

Lemma wf_wake n k l t k' :
  lists_wf None n k -> is_delayed l -> inS k l t ->
  k' = prvAddTaskToReadyList t (remove_event t (fst (remove_state t k))) ->
  lists_wf None n k' /\ wakes t k k'.
Proof.
  intros Hw Hl Ht ->. rewrite (remove_state_form _ _ _ _ _ Hw Ht). cbn [fst].
  pose proof (wf_detach_delayed _ _ _ _ Hw Hl Ht) as H1.
  set (k1 := set_slist l (al_remove t) k) in *.
  destruct (wf_remove_event _ _ _ t H1) as [H2 He].
  set (k2 := remove_event t k1) in *.
  assert (Hne : forall e, ~ inE k2 e t) by (intros e [_ ?]%He; done).
  pose proof (wf_attach_ready _ _ _ H2 Hne) as H3. split; [done|].
  destruct (remove_event_form t k1) as [ev Eev]. fold k2 in Eev.
  slist_rest k l (al_remove t). fold k1 in Rt, Rc, Rl, Rd, Re, Rp, Rs, Ri, Rq, Ro, Rn, Ry, Rv, Rr.
  assert (Hv : valid k l) by (by destruct Hl; subst).
  assert (HT : tcb k2 t = tcb k t) by (rewrite Eev; unfold tcb; cbn; by rewrite Rt).
  assert (Hvr : valid k2 (SReady (Z.to_nat (uxPriority (tcb k2 t))))).
  { destruct (w_moving _ _ _ H2 t eq_refl) as [[b Hb] _].
    pose proof (w_prios _ _ _ H2 t b Hb) as Hp. cbn. rewrite (w_len _ _ _ H2).
    unfold tcb. rewrite Hb. cbn. unfold configMAX_PRIORITIES in Hp. lia. }
  pose proof (set_slist_rest (portRECORD_READY_PRIORITY (uxPriority (tcb k2 t)) k2)
    (SReady (Z.to_nat (uxPriority (tcb k2 t)))) (al_insert_end t)) as HR.
  change (set_slist (SReady (Z.to_nat (uxPriority (tcb k2 t)))) (al_insert_end t)
    (portRECORD_READY_PRIORITY (uxPriority (tcb k2 t)) k2)) with (prvAddTaskToReadyList t k2) in HR.
  destruct HR as (Q1 & Q2 & _ & Q4 & Q5 & _ & Q7 & Q8 & Q9 & Q10 & Q11 & _).
  assert (HS2 : forall l' u, inS k2 l' u <-> inS k1 l' u) by (intros; rewrite Eev; done).
  split.
  - intros l' u. rewrite (inS_add_ready _ _ _ _ _ _ H2 Hvr), HS2, HT.
    unfold k1. rewrite (inS_remove _ _ _ _ _ _ _ Hw Hv). split.
    + intros [[Hu Hx]|[-> ->]]; [left|right; done]. split; [|done].
      intros ->. apply Hx; [by eapply (w_once _ _ _ Hw t)|done].
    + intros [[Hu Hx]|[-> ->]]; [left|right; done]. done.
  - intros e u. unfold inE. unfold elist. rewrite Q5. change (events (portRECORD_READY_PRIORITY _ k2)) with (events k2).
    change (inE k2 e u <-> inE k e u /\ u <> t). rewrite He. unfold k1, inE. by rewrite elist_set_slist.
  - rewrite Q1, Eev. cbn. done.
  - rewrite Q4, Eev. cbn. done.
  - rewrite Q2, Eev. cbn. done.
  - rewrite Q7, Eev. cbn. done.
  - rewrite Q8, Eev. cbn. done.
  - rewrite Q9, Eev. cbn. done.
  - rewrite Q10, Eev. cbn. done.
  - rewrite Q11, Eev. cbn. done.
Qed.

(** ** A tick *)

(** What processing a tick does: with the wake times measured from [n] before and
    from [n + 1] after, the tasks of the delayed list whose time [n + 1] has come
    are ready, and all others stay where they were. *)
Record ticked (now : Z) (k k' : kernel) : Prop := Ticked {
  tk_due : forall t, inS k (pxDelayedTaskList k) t -> state_value k t = now ->
    inS k' (SReady (Z.to_nat (uxPriority (tcb k t)))) t;
  tk_rest : forall l t, inS k l t -> (l = pxDelayedTaskList k -> state_value k t <> now) -> inS k' l t;
  tk_event : forall e t, inE k' e t -> inE k e t;
  tk_tcbs : tcbs k' = tcbs k;
  tk_delayed : pxDelayedTaskList k' = pxDelayedTaskList k;
  tk_current : pxCurrentTCB k' = pxCurrentTCB k;
  tk_suspended : uxSchedulerSuspended k' = uxSchedulerSuspended k;
  tk_tick : xTickCount k' = xTickCount k;
  tk_pended : xPendedTicks k' = xPendedTicks k
}.

Lemma wakes_value t k k' u : wakes t k k' -> state_value k' u = state_value k u.
Proof. intros H. unfold state_value, tcb. by rewrite (wk_tcbs _ _ _ H). Qed.

Lemma wakes_tcb t k k' u : wakes t k k' -> tcb k' u = tcb k u.
Proof. intros H. unfold tcb. by rewrite (wk_tcbs _ _ _ H). Qed.

(** With no task due, the wake times may be measured from the tick. *)
Lemma wf_advance F n k :
  lists_wf F n k -> (forall t, inS k (pxDelayedTaskList k) t -> n + 1 < state_value k t) ->
  lists_wf F (n + 1) k.
Proof.
  intros [] H. split; try done.
  - intros t Ht. split; [by apply H|]. by apply w_delayed0.
  - intros t Ht. specialize (w_overflow0 t Ht). lia.
Qed.

Lemma wakes_ticked n t k k' k'' :
  lists_wf None n k -> inS k (pxDelayedTaskList k) t -> state_value k t = n + 1 ->
  wakes t k k' -> ticked (n + 1) k' k'' -> ticked (n + 1) k k''.
Proof.
  intros Hw Ht Hv Hk Hk'. pose proof (wk_delayed _ _ _ Hk) as Hd.
  assert (Hr : forall l, l = SReady (Z.to_nat (uxPriority (tcb k t))) -> l <> pxDelayedTaskList k).
  { intros l -> E. by destruct (w_cur _ _ _ Hw) as [H|H]; rewrite H in E. }
  split.
  - intros u Hu Hx. destruct (decide (u = t)) as [->|Hne].
    + apply (tk_rest _ _ _ Hk'); [apply (wk_state _ _ _ Hk); by right|].
      rewrite Hd. intros E. by apply Hr in E.
    + rewrite <- (wakes_tcb _ _ _ _ Hk). apply (tk_due _ _ _ Hk').
      * rewrite Hd. apply (wk_state _ _ _ Hk). by left.
      * by rewrite (wakes_value _ _ _ _ Hk).
  - intros l u Hu Hx. apply (tk_rest _ _ _ Hk').
    + apply (wk_state _ _ _ Hk). left. split; [|done]. intros ->.
      apply Hx; [|done]. by eapply (w_once _ _ _ Hw t).
    + rewrite Hd, (wakes_value _ _ _ _ Hk). done.
  - intros e u H%(tk_event _ _ _ Hk'). by apply (wk_event _ _ _ Hk) in H as [? _].
  - by rewrite (tk_tcbs _ _ _ Hk'), (wk_tcbs _ _ _ Hk).
  - by rewrite (tk_delayed _ _ _ Hk'), Hd.
  - by rewrite (tk_current _ _ _ Hk'), (wk_current _ _ _ Hk).
  - by rewrite (tk_suspended _ _ _ Hk'), (wk_suspended _ _ _ Hk).
  - by rewrite (tk_tick _ _ _ Hk'), (wk_tick _ _ _ Hk).
  - by rewrite (tk_pended _ _ _ Hk'), (wk_pended _ _ _ Hk).
Qed.

(** No task is due: the next unblock time is all that changes. *)
Lemma idle_ticked n k nx :
  lists_wf None n k -> (forall t, inS k (pxDelayedTaskList k) t -> n + 1 < state_value k t) ->
  ticked (n + 1) k (set_next_unblock nx k).
Proof.
  intros Hw H. split; try done. intros t Ht E. specialize (H t Ht). lia.
Qed.

(** The loop has one turn less to go after a wake-up. *)
Lemma wake_shrinks n k t l fuel :
  lists_wf None n k -> al_items (slist k (pxDelayedTaskList k)) = t :: l ->
  (length (t :: l) < S fuel)%nat ->
  let k1 := prvAddTaskToReadyList t (remove_event t (fst (remove_state t k))) in
  lists_wf None n k1 /\ wakes t k k1 /\ (length (al_items (slist k1 (pxDelayedTaskList k1))) < fuel)%nat.
Proof.
  intros Hw E Hf k1.
  assert (Ht : inS k (pxDelayedTaskList k) t) by (unfold inS; rewrite E; apply list_elem_of_here).
  destruct (wf_wake n k _ t _ Hw (w_cur _ _ _ Hw) Ht eq_refl) as [Hw' Hk]. fold k1 in Hw', Hk.
  split; [done|]. split; [done|]. rewrite (wk_delayed _ _ _ Hk).
  assert (al_items (slist k1 (pxDelayedTaskList k)) ⊆+ l) as Hsub.
  { apply NoDup_submseteq; [apply (w_slists _ _ _ Hw')|]. intros u Hu.
    apply (wk_state _ _ _ Hk) in Hu as [[Hne Hu]|[_ Hu]].
    - unfold inS in Hu. rewrite E in Hu. by apply elem_of_cons in Hu as [?|?].
    - by destruct (w_cur _ _ _ Hw) as [H|H]; rewrite H in Hu. }
  apply submseteq_length in Hsub. cbn in Hf. lia.
Qed.

Lemma unblock_loop_ticked n fuel k sw :
  lists_wf None n k -> (length (al_items (slist k (pxDelayedTaskList k))) < fuel)%nat ->
  let k' := fst (unblock_loop fuel (n + 1) k sw) in
  lists_wf None (n + 1) k' /\ ticked (n + 1) k k'.
Proof.
  revert k sw; induction fuel as [|fuel IH]; intros k sw Hw Hf; [lia|].
  cbn [unblock_loop]. destruct (al_items (slist k (pxDelayedTaskList k))) as [|t l] eqn:E.
  - assert (forall t, ~ inS k (pxDelayedTaskList k) t) as Hno.
    { intros t Ht. unfold inS in Ht. rewrite E in Ht. by apply elem_of_nil in Ht. }
    cbn. split; [|apply idle_ticked; [done|]; intros t Ht; by apply Hno in Ht].
    apply wf_set_next; [apply wf_advance; [done|]|]; intros t Ht; by apply Hno in Ht.
  - assert (Ht : inS k (pxDelayedTaskList k) t) by (unfold inS; rewrite E; apply list_elem_of_here).
    pose proof (w_delayed _ _ _ Hw t Ht) as Hb. fold (state_value k t).
    destruct (Z.ltb_spec (n + 1) (state_value k t)) as [Hlt|Hge].
    + assert (Hall : forall u, inS k (pxDelayedTaskList k) u -> state_value k t <= state_value k u)
        by (intros u Hu; by eapply delayed_head).
      cbn. split; [|apply idle_ticked; [done|]; intros u Hu; specialize (Hall u Hu); lia].
      apply wf_set_next; [apply wf_advance; [done|]; intros u Hu; specialize (Hall u Hu); lia|done].
    + rewrite remove_event_match.
      destruct (wake_shrinks n k t l fuel Hw E Hf) as (Hw' & Hk & Hlen).
      set (k1 := prvAddTaskToReadyList t (remove_event t (fst (remove_state t k)))) in *.
      destruct (IH k1 (sw || (uxPriority (tcb k1 (pxCurrentTCB k1)) <? uxPriority (tcb k1 t))) Hw' Hlen)
        as [H1 H2]. split; [exact H1|].
      eapply wakes_ticked; [exact Hw|exact Ht|lia|exact Hk|exact H2].
Qed.

(** The loop leaves a next unblock time after the tick it processed. *)
Lemma unblock_loop_ahead n fuel k sw :
  lists_wf None n k -> (length (al_items (slist k (pxDelayedTaskList k))) < fuel)%nat ->
  let k' := fst (unblock_loop fuel (n + 1) k sw) in
  n + 1 < xNextTaskUnblockTime k' \/ xNextTaskUnblockTime k' = portMAX_DELAY.
Proof.
  revert k sw; induction fuel as [|fuel IH]; intros k sw Hw Hf; [lia|].
  cbn [unblock_loop]. destruct (al_items (slist k (pxDelayedTaskList k))) as [|t l] eqn:E; [by right|].
  destruct (Z.ltb_spec (n + 1) (xStateItemValue (tcb k t))) as [Hlt|Hge]; [by left|].
  rewrite remove_event_match. destruct (wake_shrinks n k t l fuel Hw E Hf) as (Hw' & _ & Hlen).
  by apply IH.
Qed.

(** The lists fit the tick count. *)
Record core_wf (k : kernel) : Prop := CoreWf {
  kw_lists : lists_wf None (xTickCount k) k;
  kw_tick : is_u32 (xTickCount k)
}.

(** The invariant of the scheduler between critical sections: moreover, nothing
    is left to be done later unless the scheduler is suspended. *)
Record kernel_wf (k : kernel) : Prop := KernelWf {
  kw_core : core_wf k;
  kw_suspended : is_u32 (uxSchedulerSuspended k);
  kw_pending : uxSchedulerSuspended k = 0 -> al_items (elist k EPending) = [];
  kw_pended : is_u32 (xPendedTicks k);
  kw_processed : uxSchedulerSuspended k = 0 -> xPendedTicks k = 0
}.

(** The task waits for its time, the number of ticks still to go. *)
Definition waiting (k : kernel) (t : Z) : Prop := inS k SDelayed1 t \/ inS k SDelayed2 t.
Definition ready (k : kernel) (t : Z) : Prop := exists p, inS k (SReady p) t.
Definition remaining (k : kernel) (t : Z) : Z := u32 (state_value k t - xTickCount k).

Lemma waiting_in k t :
  is_delayed (pxDelayedTaskList k) ->
  waiting k t <-> inS k (pxDelayedTaskList k) t \/ inS k (pxOverflowDelayedTaskList k) t.
Proof.
  unfold is_delayed, pxOverflowDelayedTaskList, waiting. intros [E|E]; rewrite E; cbn; tauto.
Qed.

(** The ticks to go of a waiting task, by the list it is in. *)
Lemma remaining_spec k t :
  core_wf k -> waiting k t ->
  (inS k (pxDelayedTaskList k) t /\ remaining k t = state_value k t - xTickCount k \/
   inS k (pxOverflowDelayedTaskList k) t /\ remaining k t = state_value k t - xTickCount k + 4294967296)
  /\ 0 < remaining k t < 4294967296.
Proof.
  intros [Hw Hn] Ht. apply waiting_in in Ht; [|apply (w_cur _ _ _ Hw)].
  destruct Ht as [Ht|Ht].
  - pose proof (w_delayed _ _ _ Hw t Ht). split; [left; split; [done|]|]; unfold remaining; word.
  - pose proof (w_overflow _ _ _ Hw t Ht). split; [right; split; [done|]|]; unfold remaining; word.
Qed.

(** The tick interrupt's effect on every task, when the scheduler runs. *)
Record tick_effect (k k' : kernel) : Prop := TickEffect {
  te_tick : xTickCount k' = u32 (xTickCount k + 1);
  te_wait : forall t, waiting k t ->
    if remaining k t =? 1 then inS k' (SReady (Z.to_nat (uxPriority (tcb k t)))) t
    else waiting k' t /\ remaining k' t = remaining k t - 1;
  te_ready : forall p t, inS k (SReady p) t -> inS k' (SReady p) t;
  te_tcbs : tcbs k' = tcbs k;
  te_current : pxCurrentTCB k' = pxCurrentTCB k;
  te_suspended : uxSchedulerSuspended k' = uxSchedulerSuspended k;
  te_pended : xPendedTicks k' = xPendedTicks k;
  te_event : forall e t, inE k' e t -> inE k e t
}.

(** The structures when a tick starts: the count is advanced and, at the wrap, the
    delayed lists are switched.  The wake times are measured from [n], the count
    before, or [-1] at the wrap. *)
Lemma tick_start k :
  core_wf k ->
  let now := u32 (xTickCount k + 1) in
  let k0 := set_time now (xPendedTicks k) (xNextTaskUnblockTime k) k in
  let k1 := if now =? 0 then taskSWITCH_DELAYED_LISTS k0 else k0 in
  lists_wf None (now - 1) k1 /\ xTickCount k1 = now /\
  (forall l t, inS k1 l t <-> inS k l t) /\ tcbs k1 = tcbs k /\ pxCurrentTCB k1 = pxCurrentTCB k /\
  uxSchedulerSuspended k1 = uxSchedulerSuspended k /\ xPendedTicks k1 = xPendedTicks k /\
  events k1 = events k /\
  (forall t, waiting k t ->
     inS k1 (pxDelayedTaskList k1) t /\ remaining k t = state_value k t - now + 1 \/
     inS k1 (pxOverflowDelayedTaskList k1) t /\
       remaining k t = state_value k t - now + 1 + 4294967296).
Proof.
  intros Hk. pose proof (kw_lists k Hk) as Hw. pose proof (kw_tick k Hk) as Hn. cbv zeta.
  destruct (Z.eqb_spec (u32 (xTickCount k + 1)) 0) as [E|E].
  - assert (Ht : xTickCount k = 4294967295) by word. rewrite E.
    set (k0 := Kernel (tcbs k) (pxCurrentTCB k) (pxReadyTasksLists k) (xDelayedTaskList1 k)
      (xDelayedTaskList2 k) (pxOverflowDelayedTaskList k) (events k) (uxTopReadyPriority k)
      (uxSchedulerSuspended k) 0 (xPendedTicks k) (i32 (xNumOfOverflows k + 1))
      (xNextTaskUnblockTime k) (xYieldPending k) (xPendSV k) (xSchedulerRunning k)).
    change (taskSWITCH_DELAYED_LISTS _) with (prvResetNextTaskUnblockTime k0).
    destruct (delayed_overflow k (w_cur _ _ _ Hw)) as (Ho & Hne & _).
    assert (Hempty : forall t, ~ inS k (pxDelayedTaskList k) t).
    { intros t Ht0. pose proof (w_delayed _ _ _ Hw t Ht0). lia. }
    assert (Hov : pxOverflowDelayedTaskList k0 = pxDelayedTaskList k).
    { unfold pxOverflowDelayedTaskList at 1. cbn [pxDelayedTaskList k0]. unfold pxOverflowDelayedTaskList.
      destruct (w_cur _ _ _ Hw) as [H|H]; rewrite H; done. }
    assert (Hr : exists nx, prvResetNextTaskUnblockTime k0 = set_next_unblock nx k0 /\
      (forall t, inS k0 (pxDelayedTaskList k0) t -> nx <= state_value k0 t)).
    { unfold prvResetNextTaskUnblockTime.
      destruct (al_items (slist k0 (pxDelayedTaskList k0))) as [|t l] eqn:El; eexists; (split; [reflexivity|]).
      - intros u Hu. unfold inS in Hu. rewrite El in Hu. by apply elem_of_nil in Hu.
      - intros u Hu. pose proof (w_sorted _ _ _ Hw (pxOverflowDelayedTaskList k) Ho) as Hs.
        unfold inS in Hu. rewrite El in Hu.
        change (slist k0 (pxDelayedTaskList k0)) with (slist k (pxOverflowDelayedTaskList k)) in El.
        rewrite El in Hs. apply StronglySorted_inv in Hs as [_ Hs]. rewrite Forall_forall in Hs.
        apply elem_of_cons in Hu as [->|Hu]; [done|by apply Hs]. }
    destruct Hr as (nx & -> & Hnx). split_and!; try done.
    + destruct Hw. split; try done.
      * intros t Ht0. change (inS k (pxOverflowDelayedTaskList k) t) in Ht0.
        specialize (w_overflow0 t Ht0). change (state_value (set_next_unblock nx k0) t) with (state_value k t). lia.
      * intros t Ht0. change (pxOverflowDelayedTaskList (set_next_unblock nx k0)) with
          (pxOverflowDelayedTaskList k0) in Ht0. rewrite Hov in Ht0. by apply Hempty in Ht0.
    + intros t Ht0. apply waiting_in in Ht0; [|apply (w_cur _ _ _ Hw)].
      destruct Ht0 as [Ht0|Ht0]; [by apply Hempty in Ht0|]. left. split; [exact Ht0|].
      pose proof (w_overflow _ _ _ Hw t Ht0). unfold remaining. rewrite Ht. word.
  - assert (Ht : u32 (xTickCount k + 1) = xTickCount k + 1) by word. rewrite Ht.
    replace (xTickCount k + 1 - 1) with (xTickCount k) by lia.
    split_and!; try done; [by apply wf_set_pended|].
    intros t Ht0. destruct (remaining_spec k t Hk Ht0) as [[[H1 H2]|[H1 H2]] _]; [left|right];
      (split; [exact H1|lia]).
Qed.

Lemma ticked_effect k k1 k2 now :
  core_wf k -> now = u32 (xTickCount k + 1) ->
  lists_wf None now k2 -> ticked now k1 k2 ->
  xTickCount k1 = now -> (forall l t, inS k1 l t <-> inS k l t) -> tcbs k1 = tcbs k ->
  pxCurrentTCB k1 = pxCurrentTCB k -> uxSchedulerSuspended k1 = uxSchedulerSuspended k ->
  xPendedTicks k1 = xPendedTicks k -> events k1 = events k ->
  is_delayed (pxDelayedTaskList k1) ->
  (forall t, waiting k t ->
     inS k1 (pxDelayedTaskList k1) t /\ remaining k t = state_value k t - now + 1 \/
     inS k1 (pxOverflowDelayedTaskList k1) t /\
       remaining k t = state_value k t - now + 1 + 4294967296) ->
  tick_effect k k2.
Proof.
  intros Hk Hnow Hw2 Htk H1 HS Ht Hc Hs Hp He Hd Hwait.
  assert (Hu32 : is_u32 now) by (rewrite Hnow; apply u32_range).
  assert (Hval : forall t, state_value k2 t = state_value k t).
  { intros t. unfold state_value, tcb. by rewrite (tk_tcbs _ _ _ Htk), Ht. }
  assert (Hval1 : forall t, state_value k1 t = state_value k t).
  { intros t. unfold state_value, tcb. by rewrite Ht. }
  assert (Hnow2 : xTickCount k2 = now) by (by rewrite (tk_tick _ _ _ Htk)).
  split.
  - by rewrite Hnow2.
  - intros t Hwt. destruct (remaining_spec k t Hk Hwt) as [_ Hr].
    specialize (Hwait t Hwt). destruct (Z.eqb_spec (remaining k t) 1) as [E|E].
    + destruct Hwait as [[Hin Hx]|[Hin Hx]].
      * replace (tcb k t) with (tcb k1 t) by (unfold tcb; by rewrite Ht).
        apply (tk_due _ _ _ Htk); [done|]. rewrite Hval1. lia.
      * exfalso. apply HS in Hin. pose proof (kw_lists k Hk) as Hw.
        assert (0 <= state_value k t < 4294967296).
        { apply waiting_in in Hwt as [Hq|Hq]; [| |apply (w_cur _ _ _ Hw)].
          - pose proof (w_delayed _ _ _ Hw t Hq). pose proof (kw_tick k Hk). word.
          - pose proof (w_overflow _ _ _ Hw t Hq). pose proof (kw_tick k Hk). word. }
        word.
    + assert (Hin : exists l, is_delayed l /\ inS k1 l t /\ (l = pxDelayedTaskList k1 -> state_value k1 t <> now)).
      { destruct (delayed_overflow k1 Hd) as (Ho & Hne & _).
        destruct Hwait as [[Hin Hx]|[Hin Hx]].
        - exists (pxDelayedTaskList k1). split_and!; [done|done|]. intros _. rewrite Hval1. lia.
        - exists (pxOverflowDelayedTaskList k1). split_and!; [done|done|]. intros Heq. congruence. }
      destruct Hin as (l & Hl & Hin & Hx). pose proof (tk_rest _ _ _ Htk l t Hin Hx) as Hin2.
      split; [unfold waiting; destruct Hl as [->| ->]; tauto|].
      unfold remaining. rewrite Hval, Hnow2. unfold remaining in Hr, E.
      pose proof (kw_tick k Hk). word.
  - intros p t Hin. apply (tk_rest _ _ _ Htk); [by apply HS|].
    intros E. by destruct Hd as [H|H]; rewrite H in E.
  - by rewrite (tk_tcbs _ _ _ Htk).
  - by rewrite (tk_current _ _ _ Htk).
  - by rewrite (tk_suspended _ _ _ Htk).
  - by rewrite (tk_pended _ _ _ Htk).
  - intros e t Hin. apply (tk_event _ _ _ Htk) in Hin. unfold inE, elist in *. by rewrite He in Hin.
Qed.

Lemma xTaskIncrementTick_effect k :
  core_wf k -> uxSchedulerSuspended k = 0 ->
  lists_wf None (u32 (xTickCount k + 1)) (fst (xTaskIncrementTick k)) /\
  tick_effect k (fst (xTaskIncrementTick k)).
Proof.
  intros Hk Hs. unfold xTaskIncrementTick. rewrite Hs, Z.eqb_refl.
  destruct (tick_start k Hk) as (Hw1 & Htick & HS & Ht & Hc & Hsu & Hp & He & Hwait).
  set (now := u32 (xTickCount k + 1)) in *. cbv zeta.
  match type of Hw1 with lists_wf _ _ ?x => set (k1 := x) in * end.
  assert (Hdel : is_delayed (pxDelayedTaskList k1)) by apply (w_cur _ _ _ Hw1).
  assert (exists k2 sw, (if xNextTaskUnblockTime k1 <=? now then
      unblock_loop (S (length (al_items (slist k1 (pxDelayedTaskList k1))))) now k1 false
      else (k1, false)) = (k2, sw) /\ lists_wf None now k2 /\ ticked now k1 k2)
    as (k2 & sw & Ek & Hw2 & Htk).
  { destruct (Z.leb_spec (xNextTaskUnblockTime k1) now) as [Hle|Hgt].
    - pose proof (unblock_loop_ticked (now - 1) (S (length (al_items (slist k1 (pxDelayedTaskList k1)))))
        k1 false Hw1 ltac:(lia)) as [H1 H2]. rewrite !Z.sub_add in H1, H2.
      destruct (unblock_loop _ _ _ _) as [k2 sw]. exists k2, sw. done.
    - assert (forall t, inS k1 (pxDelayedTaskList k1) t -> now - 1 + 1 < state_value k1 t) as Hno.
      { intros t Hin. pose proof (w_next _ _ _ Hw1 t Hin). lia. }
      pose proof (wf_advance _ _ _ Hw1 Hno) as H1.
      pose proof (idle_ticked _ _ (xNextTaskUnblockTime k1) Hw1 Hno) as H2.
      rewrite set_next_same in H2. rewrite !Z.sub_add in H1, H2. exists k1, false. done. }
  rewrite Ek. cbn [fst]. split; [done|]. by eapply (ticked_effect k k1 k2 now).
Qed.

(** ** Steps *)

(** Everything a step of task [c] leaves alone: the other tasks' lists, wake times
    and events, and the clock. *)
Record moves (c : Z) (k k' : kernel) : Prop := Moves {
  mv_state : forall l u, u <> c -> inS k' l u <-> inS k l u;
  mv_event : forall e u, u <> c -> inE k' e u -> exists e', inE k e' u;
  mv_value : forall u, u <> c -> state_value k' u = state_value k u;
  mv_tick : xTickCount k' = xTickCount k;
  mv_current : pxCurrentTCB k' = pxCurrentTCB k;
  mv_suspended : uxSchedulerSuspended k' = uxSchedulerSuspended k;
  mv_pended : xPendedTicks k' = xPendedTicks k;
  mv_tasks : forall u, is_Some (tcbs k' !! u) <-> is_Some (tcbs k !! u)
}.

Lemma moves_refl c k : moves c k k.
Proof. split; try done. intros e u _ H. eauto. Qed.

Lemma moves_trans c k1 k2 k3 : moves c k1 k2 -> moves c k2 k3 -> moves c k1 k3.
Proof.
  intros [] []. split; try congruence.
  - intros l u Hu. rewrite mv_state1 by done. auto.
  - intros e u Hu H. destruct (mv_event1 _ _ Hu H) as [e' H']. eauto.
  - intros u Hu. rewrite mv_value1 by done. auto.
  - intros u. rewrite mv_tasks1. auto.
Qed.

Lemma wakes_moves t k k' : wakes t k k' -> moves t k k'.
Proof.
  intros H. split.
  - intros l u Hu. rewrite (wk_state _ _ _ H). split; [by intros [[_ ?]|[? _]]|]. intros. by left.
  - intros e u Hu [Hx _]%(wk_event _ _ _ H). eauto.
  - intros u _. by apply wakes_value with t.
  - apply (wk_tick _ _ _ H).
  - apply (wk_current _ _ _ H).
  - apply (wk_suspended _ _ _ H).
  - apply (wk_pended _ _ _ H).
  - intros u. by rewrite (wk_tcbs _ _ _ H).
Qed.

(** Changing the place of [c] in one list. *)
Lemma moves_set_slist c k l f :
  valid k l -> (forall q, q <> c -> q ∈ al_items (f (slist k l)) <-> q ∈ al_items (slist k l)) ->
  moves c k (set_slist l f k).
Proof.
  intros Hv Hf. slist_rest k l f. split; try congruence.
  - intros l' u Hu. unfold inS. rewrite slist_set by done. case_decide as E; [|done].
    subst. by apply Hf.
  - intros e u _. unfold inE. rewrite elist_set_slist. eauto.
  - intros u _. unfold state_value. by rewrite tcb_set_slist.
  - intros u. by rewrite Rt.
Qed.

Lemma moves_set_tcb c k f : moves c k (set_tcb c f k).
Proof.
  split; try done.
  - intros e u _ H. eauto.
  - intros u Hu. unfold state_value, tcb. cbn. by rewrite lookup_alter_ne.
  - intros u. cbn. by rewrite lookup_alter_is_Some.
Qed.

Lemma moves_remove_state F n c k l :
  lists_wf F n k -> inS k l c -> moves c k (fst (remove_state c k)).
Proof.
  intros Hw Hin. rewrite (remove_state_form _ _ _ _ _ Hw Hin). cbn [fst].
  apply moves_set_slist; [by eapply wf_valid|].
  intros q Hq. rewrite al_remove_in by apply (w_slists _ _ _ Hw). tauto.
Qed.

Lemma moves_scalar c k k' :
  slist k' = slist k -> elist k' = elist k -> tcbs k' = tcbs k -> xTickCount k' = xTickCount k ->
  pxCurrentTCB k' = pxCurrentTCB k -> uxSchedulerSuspended k' = uxSchedulerSuspended k ->
  xPendedTicks k' = xPendedTicks k -> moves c k k'.
Proof.
  intros Hs He Ht. split; try done.
  - intros l u _. unfold inS. by rewrite Hs.
  - intros e u _. unfold inE. rewrite He. eauto.
  - intros u _. unfold state_value, tcb. by rewrite Ht.
  - by rewrite Ht.
Qed.

Lemma moves_ready n c k :
  lists_wf (Some c) n k -> moves c k (prvAddTaskToReadyList c k).
Proof.
  intros Hw. eapply moves_trans; [|apply moves_set_slist].
  - by apply moves_scalar.
  - destruct (w_moving _ _ _ Hw c eq_refl) as [[b Hb] _].
    pose proof (w_prios _ _ _ Hw c b Hb) as Hp. cbn. rewrite (w_len _ _ _ Hw).
    change (tcb (portRECORD_READY_PRIORITY (uxPriority (tcb k c)) k) c) with (tcb k c).
    unfold tcb. rewrite Hb. cbn. unfold configMAX_PRIORITIES in Hp. lia.
  - intros q Hq. rewrite al_insert_end_elem. tauto.
Qed.

Lemma moves_delay n k p ticks :
  lists_wf None n k -> n = xTickCount k -> is_u32 n -> 0 < ticks < 4294967296 ->
  inS k (SReady p) (pxCurrentTCB k) ->
  let t := pxCurrentTCB k in
  let k' := prvAddCurrentTaskToDelayedList ticks k in
  moves t k k' /\ waiting k' t /\ remaining k' t = ticks /\ (forall e, inE k' e t <-> inE k e t).
Proof.
  intros Hw Hn Hu Ht Hin. cbv zeta. unfold prvAddCurrentTaskToDelayedList.
  set (t := pxCurrentTCB k) in *.
  pose proof (wf_detach_ready _ _ _ _ Hw Hin) as Hd.
  pose proof (moves_remove_state _ _ _ _ _ Hw Hin) as Hm0.
  rewrite (remove_state_form _ _ _ _ _ Hw Hin) in Hd, Hm0 |- *. cbn [fst] in Hm0.
  cbv beta iota in Hd |- *. rewrite tcb_set_slist, (w_prio _ _ _ Hw p t Hin).
  match type of Hd with lists_wf _ _ ?x => set (k1 := x) in * end. cbv zeta.
  assert (Hm1 : moves t k k1).
  { unfold k1. destruct (_ =? 0)%nat; [|done]. eapply moves_trans; [exact Hm0|by apply moves_scalar]. }
  set (wake := u32 (xTickCount k + ticks)).
  pose proof (wf_set_state_value _ _ _ wake Hd) as Hv.
  assert (Hm2 : moves t k (set_state_value t wake k1)) by (eapply moves_trans; [exact Hm1|apply moves_set_tcb]).
  assert (He1 : forall e, elist k1 e = elist k e).
  { intros e. unfold k1. destruct (_ =? 0)%nat; [change (elist (portRESET_READY_PRIORITY _ ?x) e) with (elist x e)|];
      apply elist_set_slist. }
  set (k2 := set_state_value t wake k1) in *.
  assert (Hsv : state_value k2 t = wake).
  { unfold state_value, tcb, k2, set_state_value, set_tcb. cbn.
    destruct (w_moving _ _ _ Hd t eq_refl) as [[b' Hb'] _]. by rewrite lookup_alter_eq, Hb'. }
  assert (Hkey : forall l, is_delayed l ->
    moves t k (insert_state l t k2) /\ waiting (insert_state l t k2) t /\
    remaining (insert_state l t k2) t = ticks /\ forall e, inE (insert_state l t k2) e t <-> inE k e t).
  { intros l Hl. assert (Hvl : valid k2 l) by (by destruct Hl; subst).
    assert (Hm3 : moves t k (insert_state l t k2)).
    { eapply moves_trans; [exact Hm2|]. apply moves_set_slist; [done|].
      intros q Hq. cbn [al_items al_insert]. rewrite insert_sorted_elem. tauto. }
    split_and!; [done| | |].
    - assert (inS (insert_state l t k2) l t) as Hi.
      { unfold inS, insert_state. rewrite slist_set, decide_True by done. apply insert_sorted_elem. by left. }
      unfold waiting. destruct Hl; subst; tauto.
    - unfold remaining. rewrite (mv_tick _ _ _ Hm3). unfold state_value, insert_state. rewrite tcb_set_slist.
      fold (state_value k2 t). rewrite Hsv. unfold wake. word.
    - intros e. unfold inE, insert_state. rewrite elist_set_slist. change (elist k2 e) with (elist k1 e).
      by rewrite He1. }
  destruct (delayed_overflow k2 (w_cur _ _ _ Hv)) as (Ho & _ & _).
  destruct (wake <? xTickCount k); [by apply Hkey|].
  destruct (Hkey _ (w_cur _ _ _ Hv)) as (H1 & H2 & H3 & H4).
  destruct (wake <? _); [|done]. split_and!; try done.
  eapply moves_trans; [exact H1|by apply moves_scalar].
Qed.
