(* ===== verification/KernelSched.v ===== *)
(** * Steps of the scheduler

    The scheduler of [KernelTasks] seen as a machine: the tick interrupt, the
    context switch, and the critical sections in which the running task blocks,
    wakes another one, takes or returns a mutex or creates a task, in any order
    (a mutex take that times out is left out: it breaks the invariant, as the last
    theorem shows).  The invariant holds after every sequence of them, a delayed task becomes ready at exactly
    its tick, and the context switch picks a task of the highest ready
    priority. *)

From S2P Require Import Prelude KernelList KernelTasks.
From stdpp Require Import list gmap.
#[local] Open Scope Z_scope.

(** ** The machine *)

Inductive kop :=
| KTick | KSwitch | KSuspendAll | KResumeAll
| KBlock (ticks : Z) | KPlace (e : event_list) (ticks : Z) | KUnblock (e : event_list)
| KHold | KInherit (holder : Z) | KDisinherit | KNewList (e : event_list)
| KCreate (task priority : Z).

(** A critical section or an interrupt of the kernel; [None] when an assertion
    stops the program. *)
Definition kstep (o : kop) (k : kernel) : option kernel :=
  match o with
  | KTick => Some (xPortSysTickHandler k)
  | KSwitch => xPortPendSVHandler k
  | KSuspendAll => Some (vTaskSuspendAll k)
  | KResumeAll => Some (fst (xTaskResumeAll k))
  | KBlock ticks => Some (prvAddCurrentTaskToDelayedList ticks k)
  | KPlace e ticks => Some (vTaskPlaceOnEventList e ticks k)
  | KUnblock e => Some (fst (xTaskRemoveFromEventList e k))
  | KHold => Some (fst (pvTaskIncrementMutexHeldCount k))
  | KInherit m => Some (fst (xTaskPriorityInherit (Some m) k))
  | KDisinherit =>
    match xTaskPriorityDisinherit (Some (pxCurrentTCB k)) k with
    | Some (k, _) => Some k
    | None => None
    end
  | KNewList e => Some (vListInitialise_event e k)
  | KCreate task priority => xTaskCreateStatic task priority k
  end.

(** The ticks a step processes: an interrupt counts at once, or when the scheduler
    is resumed. *)
Definition ticks_of (o : kop) (k : kernel) : Z :=
  match o with
  | KTick => if uxSchedulerSuspended k =? 0 then 1 else 0
  | KResumeAll => if uxSchedulerSuspended k =? 1 then xPendedTicks k else 0
  | _ => 0
  end.

(** When the kernel takes the step: some task is ready (the idle task always is),
    a task blocks while it runs with the scheduler suspended and for at least a
    tick, waits in one event list at a time, an event list is signalled when a task
    waits in it, a new queue initialises lists of its own, and a task that runs
    creates another one with a control block that is not in use. *)
Definition kop_ok (o : kop) (k : kernel) : Prop :=
  match o with
  | KTick | KHold => True
  | KSwitch => exists t, ready k t
  | KSuspendAll => uxSchedulerSuspended k < 4294967295
  | KResumeAll => 0 < uxSchedulerSuspended k
  | KBlock ticks =>
    0 < uxSchedulerSuspended k /\ 0 < ticks < 4294967296 /\ ready k (pxCurrentTCB k)
  | KPlace e ticks =>
    0 < uxSchedulerSuspended k /\ 0 < ticks < 4294967296 /\ ready k (pxCurrentTCB k) /\
    is_Some (events k !! e) /\ forall e', ~ inE k e' (pxCurrentTCB k)
  | KUnblock e => e <> EPending /\ exists t, inE k e t
  | KInherit m => is_Some (tcbs k !! m)
  | KDisinherit => ready k (pxCurrentTCB k) /\ 0 < uxMutexesHeld (tcb k (pxCurrentTCB k)) /\
    0 <= uxBasePriority (tcb k (pxCurrentTCB k)) < configMAX_PRIORITIES
  | KNewList e => events k !! e = None
  | KCreate t p => xSchedulerRunning k = true /\ pxCurrentTCB k <> 0 /\ tcbs k !! t = None /\
    0 <= p < configMAX_PRIORITIES
  end.

(** A run of permitted steps, and the ticks it processed. *)
Inductive run : list kop -> kernel -> kernel -> Z -> Prop :=
| run_nil k : run [] k k 0
| run_cons o os k k1 k2 n :
    kop_ok o k -> kstep o k = Some k1 -> run os k1 k2 n -> run (o :: os) k k2 (ticks_of o k + n).

(** ** The waiting tasks under a step *)

(** What a step that processes [m] ticks does to a task that waits for its time
    only: it goes on waiting, [m] ticks nearer, or is ready. *)
Definition advances (t m : Z) (k k' : kernel) : Prop :=
  waiting k t -> (forall e, ~ inE k e t) ->
  if m <? remaining k t
  then waiting k' t /\ remaining k' t = remaining k t - m /\ forall e, ~ inE k' e t
  else ready k' t.

Lemma moves_advances c t k k' :
  core_wf k -> moves c k k' -> t <> c -> advances t 0 k k'.
Proof.
  intros Hk Hm Hne Hw He. destruct (remaining_spec k t Hk Hw) as [_ Hr].
  rewrite (proj2 (Z.ltb_lt _ _)) by lia. split_and!.
  - unfold waiting. by rewrite !(mv_state _ _ _ Hm) by done.
  - unfold remaining. rewrite (mv_value _ _ _ Hm), (mv_tick _ _ _ Hm) by done. unfold remaining in Hr. lia.
  - intros e Hx. destruct (mv_event _ _ _ Hm e t Hne Hx) as [e' Hx']. by eapply He.
Qed.

Lemma tick_advances t k k' :
  core_wf k -> tick_effect k k' -> advances t 1 k k'.
Proof.
  intros Hk Ht Hw He. pose proof (te_wait _ _ Ht t Hw) as H.
  destruct (remaining_spec k t Hk Hw) as [_ Hr].
  destruct (Z.eqb_spec (remaining k t) 1) as [E|E].
  - rewrite (proj2 (Z.ltb_ge _ _)) by lia. by eexists.
  - rewrite (proj2 (Z.ltb_lt _ _)) by lia. destruct H as [H1 H2]. split_and!; [done|done|].
    intros e Hx. by apply (te_event _ _ Ht), He in Hx.
Qed.

Lemma advances_trans t m1 m2 k k1 k2 :
  0 <= m1 -> 0 <= m2 -> (ready k1 t -> ready k2 t) ->
  advances t m1 k k1 -> advances t m2 k1 k2 -> advances t (m1 + m2) k k2.
Proof.
  intros Hm1 Hm2 Hr H1 H2 Hw He. specialize (H1 Hw He).
  destruct (Z.ltb_spec m1 (remaining k t)) as [Hlt|Hge].
  - destruct H1 as (Hw1 & Hr1 & He1). specialize (H2 Hw1 He1). rewrite Hr1 in H2.
    destruct (Z.ltb_spec m2 (remaining k t - m1)), (Z.ltb_spec (m1 + m2) (remaining k t)); try lia.
    + destruct H2 as (? & -> & ?). split_and!; [done|lia|done].
    + done.
  - rewrite (proj2 (Z.ltb_ge _ _)) by lia. auto.
Qed.

(** Not waiting and ready are the same for a task. *)
Lemma ready_not_waiting F n k t p : lists_wf F n k -> inS k (SReady p) t -> ~ waiting k t.
Proof. intros Hw Hp [H|H]; pose proof (w_once _ _ _ Hw t _ _ Hp H); done. Qed.

(** *** Scalars *)

Lemma core_scalar k k' :
  core_wf k -> lists_wf None (xTickCount k) k' -> xTickCount k' = xTickCount k -> core_wf k'.
Proof. intros [H1 H2] H3 H4. split; rewrite H4; done. Qed.

Lemma wf_yield k a b : kernel_wf k -> kernel_wf (set_yield a b k).
Proof. intros [[H1 H2] H3 H4 H5 H6]. split; try done. split; [by apply wf_set_yield|done]. Qed.

(** *** The tick interrupt *)

Lemma no_events k : (forall t, ~ inE k EPending t) -> al_items (elist k EPending) = [].
Proof.
  intros H. destruct (al_items (elist k EPending)) as [|t l] eqn:E; [done|].
  exfalso. apply (H t). unfold inE. rewrite E. apply list_elem_of_here.
Qed.

Lemma tick_step k :
  core_wf k -> uxSchedulerSuspended k = 0 -> al_items (elist k EPending) = [] ->
  let k' := fst (xTaskIncrementTick k) in
  core_wf k' /\ al_items (elist k' EPending) = [] /\ uxSchedulerSuspended k' = 0 /\
  xPendedTicks k' = xPendedTicks k /\ pxCurrentTCB k' = pxCurrentTCB k /\
  (forall t, ready k t -> ready k' t) /\ (forall t, advances t 1 k k').
Proof.
  intros Hk Hs Hp. cbv zeta. destruct (xTaskIncrementTick_effect k Hk Hs) as [Hw Ht].
  set (k' := fst (xTaskIncrementTick k)) in *. split_and!.
  - split; rewrite (te_tick _ _ Ht); [done|apply u32_range].
  - apply no_events. intros t H%(te_event _ _ Ht). unfold inE in H. rewrite Hp in H. by apply elem_of_nil in H.
  - by rewrite (te_suspended _ _ Ht).
  - apply (te_pended _ _ Ht).
  - apply (te_current _ _ Ht).
  - intros t [p H]. exists p. by apply (te_ready _ _ Ht).
  - intros t. by apply tick_advances.
Qed.

Lemma pended_loop_step n k :
  core_wf k -> uxSchedulerSuspended k = 0 -> al_items (elist k EPending) = [] ->
  let k' := pended_loop n k in
  core_wf k' /\ al_items (elist k' EPending) = [] /\ uxSchedulerSuspended k' = 0 /\
  pxCurrentTCB k' = pxCurrentTCB k /\
  (forall t, ready k t -> ready k' t) /\ (forall t, advances t (Z.of_nat n) k k').
Proof.
  revert k; induction n as [|n IH]; intros k Hk Hs Hp.
  - cbn. split_and!; try done. intros t. apply (moves_advances (t + 1)); [done|apply moves_refl|lia].
  - destruct (tick_step k Hk Hs Hp) as (H1 & H2 & H3 & H4 & H5 & H6 & H7).
    cbn [pended_loop]. destruct (xTaskIncrementTick k) as [k1 sw]. cbn [fst] in *.
    set (k2 := if sw then set_yield true (xPendSV k1) k1 else k1).
    assert (Hk2 : core_wf k2) by (unfold k2; destruct sw; [|done]; destruct H1; split; [by apply wf_set_yield|done]).
    assert (Hs2 : slist k2 = slist k1 /\ elist k2 = elist k1 /\ tcbs k2 = tcbs k1 /\
      xTickCount k2 = xTickCount k1 /\ uxSchedulerSuspended k2 = uxSchedulerSuspended k1 /\
      pxCurrentTCB k2 = pxCurrentTCB k1 /\ xPendedTicks k2 = xPendedTicks k1) by (unfold k2; by destruct sw).
    destruct Hs2 as (E1 & E2 & E3 & E4 & E5 & E6 & E7).
    destruct (IH k2 Hk2) as (G1 & G2 & G3 & G4 & G5 & G6); [congruence|by rewrite E2|].
    split_and!; try congruence; try done.
    + intros t Hr. apply G5. destruct (H6 t Hr) as [p Hx]. exists p. unfold inS. by rewrite E1.
    + intros t. replace (Z.of_nat (S n)) with (1 + Z.of_nat n) by lia.
      apply advances_trans with k1; [lia|lia| |apply H7|].
      * intros [p Hx]. apply G5. exists p. unfold inS. by rewrite E1.
      * replace (Z.of_nat n) with (0 + Z.of_nat n) by lia.
        apply advances_trans with k2; [lia|lia|apply G5| |apply G6].
        apply (moves_advances (t + 1)); [done| |lia]. by apply moves_scalar.
Qed.

(** *** Resuming the scheduler *)

Lemma pending_loop_step fuel n k :
  lists_wf None n k -> length (al_items (elist k EPending)) = fuel ->
  let k' := pending_loop fuel k in
  lists_wf None n k' /\ al_items (elist k' EPending) = [] /\
  xTickCount k' = xTickCount k /\ uxSchedulerSuspended k' = uxSchedulerSuspended k /\
  xPendedTicks k' = xPendedTicks k /\ pxCurrentTCB k' = pxCurrentTCB k /\ tcbs k' = tcbs k /\
  (forall t, (forall e, ~ inE k e t) ->
     (forall l, inS k' l t <-> inS k l t) /\ forall e, ~ inE k' e t).
Proof.
  revert k; induction fuel as [|fuel IH]; intros k Hw Hf.
  - apply length_zero_iff_nil in Hf. cbn. split_and!; try done.
  - cbn [pending_loop]. destruct (al_items (elist k EPending)) as [|t l] eqn:E; [done|].
    assert (Ht : inE k EPending t) by (unfold inE; rewrite E; apply list_elem_of_here).
    assert (exists d, is_delayed d /\ inS k d t) as (d & Hd & Hin).
    { destruct (w_event _ _ _ Hw t _ Ht) as [?|[?|?]]; [done|exists SDelayed1|exists SDelayed2];
        (split; [unfold is_delayed; tauto|done]). }
    assert (Ek : fst (remove_state t (remove_event t k)) = remove_event t (fst (remove_state t k))).
    { rewrite (remove_state_form _ _ _ _ _ Hw Hin). cbn [fst]. rewrite remove_event_set_slist.
      destruct (wf_remove_event _ _ _ t Hw) as [Hw' _].
      rewrite (remove_state_form _ _ _ d _ Hw'); [done|].
      destruct (remove_event_form t k) as [ev ->]. exact Hin. }
    rewrite Ek.
    destruct (wf_wake n k d t _ Hw Hd Hin eq_refl) as [Hw1 Hk].
    set (k1 := prvAddTaskToReadyList t (remove_event t (fst (remove_state t k)))) in *. cbv zeta.
    set (k2 := if _ <? _ then set_yield true (xPendSV k1) k1 else k1).
    assert (Hs2 : slist k2 = slist k1 /\ elist k2 = elist k1 /\ tcbs k2 = tcbs k1 /\
      xTickCount k2 = xTickCount k1 /\ uxSchedulerSuspended k2 = uxSchedulerSuspended k1 /\
      pxCurrentTCB k2 = pxCurrentTCB k1 /\ xPendedTicks k2 = xPendedTicks k1 /\ lists_wf None n k2)
      by (unfold k2; destruct (_ <? _); split_and!; try done; by apply wf_set_yield).
    destruct Hs2 as (E1 & E2 & E3 & E4 & E5 & E6 & E7 & Hw2).
    assert (Hlen : length (al_items (elist k2 EPending)) = fuel).
    { rewrite E2. assert (al_items (elist k1 EPending) ≡ₚ l) as ->; [|cbn in Hf; lia].
      pose proof (w_elists _ _ _ Hw EPending) as [Hnd _]. rewrite E in Hnd. apply NoDup_cons in Hnd as [Hn1 Hn2].
      apply NoDup_Permutation; [apply (w_elists _ _ _ Hw1)|done|]. intros u.
      change (u ∈ al_items (elist k1 EPending)) with (inE k1 EPending u).
      rewrite (wk_event _ _ _ Hk). unfold inE. rewrite E, elem_of_cons.
      split; [intros [[?|?] ?]; done|]. intros Hu. split; [by right|]. by intros ->. }
    destruct (IH k2 Hw2 Hlen) as (G1 & G2 & G3 & G4 & G5 & G6 & G7 & G8).
    split_and!; try done.
    + by rewrite G3, E4, (wk_tick _ _ _ Hk).
    + by rewrite G4, E5, (wk_suspended _ _ _ Hk).
    + by rewrite G5, E7, (wk_pended _ _ _ Hk).
    + by rewrite G6, E6, (wk_current _ _ _ Hk).
    + by rewrite G7, E3, (wk_tcbs _ _ _ Hk).
    + intros u Hu. assert (u <> t) as Hne by (intros ->; by eapply Hu).
      destruct (G8 u) as [G9 G10].
      { intros e He. unfold inE in He. rewrite E2 in He. apply (wk_event _ _ _ Hk) in He as [He _]. by eapply Hu. }
      split; [|done]. intros l'. rewrite G9. unfold inS. rewrite E1.
      change (inS k1 l' u <-> inS k l' u). rewrite (wk_state _ _ _ Hk).
      split; [by intros [[_ ?]|[? _]]|]. intros. by left.
Qed.

Lemma resume_step k :
  kernel_wf k -> kop_ok KResumeAll k ->
  let k' := fst (xTaskResumeAll k) in
  kernel_wf k' /\ forall t, advances t (ticks_of KResumeAll k) k k'.
Proof.
  intros Hk Hs. cbn in Hs. pose proof (kw_core k Hk) as Hc. pose proof (kw_suspended k Hk) as Hu.
  assert (Hsu : u32 (uxSchedulerSuspended k - 1) = uxSchedulerSuspended k - 1) by word.
  cbv zeta. unfold xTaskResumeAll. rewrite Hsu. set (k0 := set_suspended (uxSchedulerSuspended k - 1) k).
  assert (Hw0 : lists_wf None (xTickCount k) k0) by (apply wf_set_suspended, (kw_lists k Hc)).
  assert (Hsize : 0 < uxCurrentNumberOfTasks k0).
  { unfold uxCurrentNumberOfTasks. destruct (w_current _ _ _ Hw0) as [b Hb].
    assert (size (tcbs k0) <> 0%nat); [|lia]. rewrite map_size_non_empty_iff. intros E.
    rewrite E, lookup_empty in Hb. done. }
  assert (Hmv : forall t, advances t 0 k k0).
  { intros t Hw He. destruct (remaining_spec k t Hc Hw) as [_ Hr].
    rewrite (proj2 (Z.ltb_lt _ _)) by lia. split_and!; [done| |done].
    change (remaining k0 t) with (remaining k t). lia. }
  rewrite (proj2 (Z.ltb_lt _ _) Hsize), andb_true_r.
  change (uxSchedulerSuspended k0) with (uxSchedulerSuspended k - 1). cbn [ticks_of].
  destruct (Z.eqb_spec (uxSchedulerSuspended k - 1) 0) as [E|E].
  - rewrite (proj2 (Z.eqb_eq _ _)) by lia.
    destruct (pending_loop_step _ _ k0 Hw0 eq_refl) as (H1 & H2 & H3 & H4 & H5 & H6 & H7 & H8).
    set (k1 := pending_loop (length (al_items (elist k0 EPending))) k0) in *. cbv zeta.
    set (k2 := match al_items (elist k0 EPending) with [] => k1 | _ :: _ => prvResetNextTaskUnblockTime k1 end).
    assert (Hs2 : slist k2 = slist k1 /\ elist k2 = elist k1 /\ tcbs k2 = tcbs k1 /\
      xTickCount k2 = xTickCount k1 /\ uxSchedulerSuspended k2 = uxSchedulerSuspended k1 /\
      pxCurrentTCB k2 = pxCurrentTCB k1 /\ xPendedTicks k2 = xPendedTicks k1 /\
      lists_wf None (xTickCount k) k2).
    { unfold k2. destruct (al_items (elist k0 EPending)); [done|].
      split_and!; [..|by apply wf_reset_next]; unfold prvResetNextTaskUnblockTime;
        by destruct (al_items (slist k1 (pxDelayedTaskList k1))). }
    destruct Hs2 as (E1 & E2 & E3 & E4 & E5 & E6 & E7 & Hw2).
    assert (Htick : xTickCount k2 = xTickCount k) by (rewrite E4, H3; done).
    assert (Hc2 : core_wf k2) by (split; rewrite Htick; [done|apply Hc]).
    assert (Hpend : xPendedTicks k2 = xPendedTicks k) by (rewrite E7, H5; done).
    destruct (pended_loop_step (Z.to_nat (xPendedTicks k2)) k2 Hc2) as (G1 & G2 & G3 & G4 & G5 & G6).
    { rewrite E5, H4. exact E. } { by rewrite E2. }
    set (k3 := pended_loop (Z.to_nat (xPendedTicks k2)) k2) in *.
    set (k4 := set_time (xTickCount k3) 0 (xNextTaskUnblockTime k3) k3).
    assert (Hwf4 : kernel_wf k4).
    { split; try done; [|unfold is_u32; cbn; lia].
      destruct G1. split; [by apply wf_set_pended|done]. }
    assert (Hadv : forall t, advances t (xPendedTicks k) k k4).
    { intros t Hw He. replace (xPendedTicks k) with (0 + xPendedTicks k) by lia.
      pose proof (kw_pended k Hk) as Hpk. apply (advances_trans t 0 _ k k2); try done; [apply Hpk|..].
      - intros Hr. exact (G5 t Hr).
      - intros _ _. destruct (remaining_spec k t Hc Hw) as [_ Hr].
        rewrite (proj2 (Z.ltb_lt _ _)) by lia. destruct (H8 t He) as [H9 H10]. split_and!.
        + unfold waiting, inS. rewrite E1. change (inS k1 SDelayed1 t \/ inS k1 SDelayed2 t).
          rewrite !H9. exact Hw.
        + unfold remaining. rewrite Htick. unfold state_value, tcb. rewrite E3, H7.
          change (remaining k t = remaining k t - 0). lia.
        + intros e. unfold inE. rewrite E2. apply H10.
      - rewrite <- Hpend, <- (Z2Nat.id (xPendedTicks k2)) by (rewrite Hpend; apply Hpk). exact (G6 t). }
    destruct (xYieldPending k4); cbn [fst]; [|done]. split; [by apply wf_yield|exact Hadv].
  - rewrite (proj2 (Z.eqb_neq _ _)) by lia. cbn [fst]. split; [|done].
    destruct Hk as [Hk1 Hk2 Hk3 Hk4 Hk5].
    split; cbn [k0 set_suspended uxSchedulerSuspended]; try done.
    + destruct Hk1. by split.
    + word.
Qed.

(** *** Updates that keep every task in its list *)

Lemma wf_set_index F n k l f :
  lists_wf F n k -> valid k l -> alist_ok (f (slist k l)) ->
  al_items (f (slist k l)) = al_items (slist k l) ->
  lists_wf F n (set_slist l f k).
Proof.
  intros Hw Hv Hok Hit. slist_rest k l f.
  assert (HI : forall l', al_items (slist (set_slist l f k) l') = al_items (slist k l')).
  { intros l'. rewrite slist_set by done. case_decide; [by subst|done]. }
  assert (HS : forall l' u, inS (set_slist l f k) l' u <-> inS k l' u) by (intros; unfold inS; by rewrite HI).
  assert (HV : forall u, state_value (set_slist l f k) u = state_value k u)
    by (intros; unfold state_value; by rewrite tcb_set_slist).
  assert (HE : forall e, elist (set_slist l f k) e = elist k e) by (intros; apply elist_set_slist).
  pose proof (overflow_set_slist k l f) as HO.
  destruct Hw. split; rewrite ?Rt, ?Rc, ?Rd, ?Re, ?HO, ?Rn; try done.
  - by rewrite Rl.
  - intros l'. rewrite slist_set by done. case_decide; [done|auto].
  - intros t l1 l2. rewrite !HS. eauto.
  - intros t Ht. destruct (w_moving t Ht) as [? Hx]. split; [done|]. intros l'. rewrite HS. auto.
  - intros t. rewrite w_tasks. by setoid_rewrite HS.
  - intros p t. rewrite HS, tcb_set_slist. auto.
  - intros p. rewrite Rp, w_top. by setoid_rewrite HS.
  - intros l' Hl'. rewrite HI. eapply sorted_by_ext; [|by apply w_sorted]. intros; by rewrite HV.
  - intros t. rewrite HS, HV. auto.
  - intros t. rewrite HS, HV. auto.
  - intros t. rewrite HS, HV. auto.
  - intros e. rewrite HE. auto.
  - intros t e e'. unfold inE. rewrite !HE. apply w_eonce.
  - intros t e. unfold inE. rewrite HE, !HS. apply w_event.
Qed.

Lemma wf_set_tcb F n k t f :
  lists_wf F n k ->
  (forall b, tcbs k !! t = Some b ->
     xStateItemValue (f b) = xStateItemValue b /\ 0 <= uxPriority (f b) < configMAX_PRIORITIES /\
     ((exists p, inS k (SReady p) t) -> uxPriority (f b) = uxPriority b)) ->
  lists_wf F n (set_tcb t f k).
Proof.
  intros Hw Hf.
  assert (HL : forall u, tcbs (set_tcb t f k) !! u = if decide (u = t) then f <$> (tcbs k !! t) else tcbs k !! u).
  { intros u. cbn. case_decide as E; [subst; by rewrite lookup_alter_eq|]. by rewrite lookup_alter_ne. }
  assert (HD : forall u, is_Some (tcbs (set_tcb t f k) !! u) <-> is_Some (tcbs k !! u)).
  { intros u. cbn. by rewrite lookup_alter_is_Some. }
  assert (HV : forall u, state_value (set_tcb t f k) u = state_value k u).
  { intros u. unfold state_value, tcb. rewrite HL. case_decide as E; [|done]. subst.
    destruct (tcbs k !! t) as [b|] eqn:Eb; [|done]. cbn. by destruct (Hf b eq_refl). }
  destruct Hw. split; try done.
  - intros u Hu. rewrite HD. auto.
  - intros u. rewrite HD. auto.
  - intros p u Hu. rewrite <- (w_prio p u Hu). unfold tcb. rewrite HL. case_decide as E; [|done]. subst.
    destruct (tcbs k !! t) as [b|] eqn:Eb; [|done]. cbn. destruct (Hf b eq_refl) as (_ & _ & H).
    apply H. by exists p.
  - intros u b. rewrite HL. case_decide as E; [|apply w_prios]. subst.
    destruct (tcbs k !! t) as [b'|] eqn:Eb; [|done]. cbn. intros [= <-]. by destruct (Hf b' eq_refl) as (_ & ? & _).
  - intros l Hl. eapply sorted_by_ext; [|by apply w_sorted]. intros; by rewrite HV.
  - intros u Hu. rewrite HV. auto.
  - intros u Hu. rewrite HV. auto.
  - intros u Hu. rewrite HV. auto.
  - by rewrite HD.
Qed.

(** An update of one task's control block moves nothing. *)
Lemma set_tcb_advances k c f t :
  core_wf k -> (forall b, xStateItemValue (f b) = xStateItemValue b) -> advances t 0 k (set_tcb c f k).
Proof.
  intros Hk Hf Hw He. destruct (remaining_spec k t Hk Hw) as [_ Hr].
  rewrite (proj2 (Z.ltb_lt _ _)) by lia. split_and!; [done| |done].
  unfold remaining in *. rewrite Z.sub_0_r. do 2 f_equal. unfold state_value, tcb. cbn.
  destruct (decide (t = c)) as [->|Hne].
  - rewrite lookup_alter_eq. destruct (tcbs k !! c); cbn; auto.
  - by rewrite lookup_alter_ne.
Qed.

(** *** Context switch *)

Lemma al_next_in a :
  alist_ok a -> al_items a <> [] ->
  exists t, snd (al_next a) = Some t /\ (t ∈ al_items a) /\ alist_ok (fst (al_next a)) /\
    al_items (fst (al_next a)) = al_items a.
Proof.
  intros [Hd Hi] Hne.
  assert (exists t, snd (al_next a) = Some t /\ t ∈ al_items a) as (t & Ht & Hin).
  { unfold al_next. cbn [snd]. destruct (al_index a) as [i|] eqn:Ei.
    - destruct (split_at_in i (al_items a) (Hi i eq_refl)) as (l & r & -> & Hl & _). cbn [snd tail].
      destruct r as [|x r].
      + destruct (al_items a) as [|y l']; [done|]. exists y. split; [done|apply list_elem_of_here].
      + exists x. split; [done|]. rewrite Hl. apply elem_of_app. right.
        apply list_elem_of_further, list_elem_of_here.
    - destruct (al_items a) as [|y l']; [done|]. exists y. split; [done|apply list_elem_of_here]. }
  exists t. split_and!; [done|done| |done]. unfold al_next in Ht |- *. cbn [fst snd] in *. rewrite Ht.
  split; [done|]. by intros i [= <-].
Qed.

(** The highest ready priority, read from the bitmap. *)
Lemma highest_priority F n k :
  lists_wf F n k -> (exists t, ready k t) ->
  let p := portGET_HIGHEST_PRIORITY k in
  0 <= p < configMAX_PRIORITIES /\ (exists t, inS k (SReady (Z.to_nat p)) t) /\
  forall q t, inS k (SReady q) t -> Z.of_nat q <= p.
Proof.
  intros Hw [t [q Hq]].
  assert (Hbit : Z.testbit (uxTopReadyPriority k) (Z.of_nat q) = true).
  { apply (w_top _ _ _ Hw). split; [lia|]. rewrite Nat2Z.id. by exists t. }
  assert (Hle : forall q t, inS k (SReady q) t -> (q < 5)%nat).
  { intros q' t' H. pose proof (wf_valid _ _ _ _ _ Hw H) as Hv. cbn in Hv. by rewrite (w_len _ _ _ Hw) in Hv. }
  assert (Hpos : 0 < uxTopReadyPriority k).
  { destruct (Z.lt_trichotomy (uxTopReadyPriority k) 0) as [Hneg|[Hz|]]; [| |done].
    - exfalso. assert (Z.testbit (uxTopReadyPriority k) (Z.max 5 (Z.log2 (- uxTopReadyPriority k - 1) + 1)) = true) as Hb.
      { apply Z.bits_above_log2_neg; [done|]. pose proof (Z.log2_nonneg (- uxTopReadyPriority k - 1)).
        replace (Z.pred (- uxTopReadyPriority k)) with (- uxTopReadyPriority k - 1) by lia. lia. }
      apply (w_top _ _ _ Hw) in Hb as [_ [t' Ht']]. apply Hle in Ht'. lia.
    - rewrite Hz, Z.bits_0 in Hbit. done. }
  assert (Hlog : Z.testbit (uxTopReadyPriority k) (Z.log2 (uxTopReadyPriority k)) = true)
    by (apply Z.bit_log2; lia).
  apply (w_top _ _ _ Hw) in Hlog as [Hl0 [t' Ht']]. pose proof (Hle _ _ Ht') as Hl5.
  assert (Ep : portGET_HIGHEST_PRIORITY k = Z.log2 (uxTopReadyPriority k)).
  { unfold portGET_HIGHEST_PRIORITY, ucPortCountLeadingZeros.
    rewrite (proj2 (Z.eqb_neq _ _)) by lia. replace (31 - (31 - _)) with (Z.log2 (uxTopReadyPriority k)) by lia.
    apply u32_id. unfold is_u32. lia. }
  cbv zeta. rewrite Ep. split_and!; [lia|unfold configMAX_PRIORITIES; lia|by exists t'|].
  intros q' u Hu. destruct (Z.le_gt_cases (Z.of_nat q') (Z.log2 (uxTopReadyPriority k))) as [|Hgt]; [done|].
  exfalso. assert (Z.testbit (uxTopReadyPriority k) (Z.of_nat q') = true) as Hb.
  { apply (w_top _ _ _ Hw). split; [lia|]. rewrite Nat2Z.id. by exists u. }
  rewrite Z.bits_above_log2 in Hb by lia. done.
Qed.

(** The context switch: a task of the highest ready priority becomes the running
    one; the lists keep their items. *)
Lemma switch_step k :
  kernel_wf k -> (exists t, ready k t) ->
  exists k', xPortPendSVHandler k = Some k' /\ kernel_wf k' /\
    (forall l t, inS k' l t <-> inS k l t) /\ tcbs k' = tcbs k /\ xTickCount k' = xTickCount k /\
    (forall e, elist k' e = elist k e) /\ uxSchedulerSuspended k' = uxSchedulerSuspended k /\
    (uxSchedulerSuspended k = 0 ->
       ready k (pxCurrentTCB k') /\
       forall t, ready k t -> uxPriority (tcb k t) <= uxPriority (tcb k (pxCurrentTCB k'))).
Proof.
  intros Hk Hr. unfold xPortPendSVHandler, vTaskSwitchContext.
  set (k0 := set_yield (xYieldPending k) false k).
  change (uxSchedulerSuspended k0) with (uxSchedulerSuspended k).
  destruct (Z.eqb_spec (uxSchedulerSuspended k) 0) as [E|E].
  - set (k1 := set_yield false (xPendSV k0) k0).
    assert (Hk1 : kernel_wf k1) by (unfold k1, k0; by do 2 apply wf_yield).
    pose proof (kw_lists _ (kw_core _ Hk1)) as Hw.
    destruct (highest_priority _ _ k1 Hw Hr) as (Hp & [u Hu] & Hmax). unfold taskSELECT_HIGHEST_PRIORITY_TASK.
    set (p := portGET_HIGHEST_PRIORITY k1) in *. set (l := SReady (Z.to_nat p)) in *.
    assert (Hv : valid k1 l) by (by eapply wf_valid).
    assert (Hne : al_items (slist k1 l) <> []).
    { intros H. unfold inS in Hu. rewrite H in Hu. by apply elem_of_nil in Hu. }
    destruct (al_next_in _ (w_slists _ _ _ Hw l) Hne) as (t & Ht & Hin & Hok & Hit).
    rewrite Ht. eexists; split; [reflexivity|].
    slist_rest k1 l (fun a => fst (al_next a)).
    assert (HS : forall l' q, inS (set_slist l (fun a => fst (al_next a)) k1) l' q <-> inS k l' q).
    { intros l' q. unfold inS. rewrite slist_set by done. case_decide; [|done]. subst. by rewrite Hit. }
    assert (Htcb : is_Some (tcbs k1 !! t)) by (apply (w_tasks _ _ _ Hw); right; by exists l).
    split_and!; try done.
    + destruct Hk1 as [[H1 H2] H3 H4 H5 H6].
      split; cbn [set_current uxSchedulerSuspended xPendedTicks]; rewrite ?Rs, ?Rq; try done.
      split; cbn [set_current xTickCount]; rewrite Ri; [|done].
      apply wf_set_current; [by rewrite Rt|]. by apply wf_set_index.
    + intros _. cbn [set_current pxCurrentTCB]. split; [by exists (Z.to_nat p)|].
      intros q [pq Hq]. pose proof (Hmax pq q Hq). rewrite (w_prio _ _ _ Hw _ _ Hq : uxPriority (tcb k q) = _).
      rewrite (w_prio _ _ _ Hw _ _ Hin : uxPriority (tcb k t) = _). lia.
  - eexists; split; [reflexivity|]. split_and!; try done. by do 2 apply wf_yield.
Qed.

(** *** Blocking *)

Lemma block_step k ticks :
  kernel_wf k -> kop_ok (KBlock ticks) k ->
  kernel_wf (prvAddCurrentTaskToDelayedList ticks k) /\
  forall t, advances t 0 k (prvAddCurrentTaskToDelayedList ticks k).
Proof.
  intros Hk (Hs & Ht & [p Hp]). pose proof (kw_core k Hk) as [Hw Hn].
  destruct (moves_delay _ _ _ _ Hw eq_refl Hn Ht Hp) as (Hm & Hwt & Hrem & Hev).
  pose proof (wf_delay_current _ _ _ _ Hw eq_refl Hn Ht Hp) as Hw'.
  set (k' := prvAddCurrentTaskToDelayedList ticks k) in *. split.
  - split; rewrite ?(mv_suspended _ _ _ Hm), ?(mv_pended _ _ _ Hm); try apply Hk; [|lia].
    split; rewrite (mv_tick _ _ _ Hm); done.
  - intros t. destruct (decide (t = pxCurrentTCB k)) as [->|Hne]; [|by eapply moves_advances].
    intros H. by apply (ready_not_waiting _ _ _ _ _ Hw Hp) in H.
Qed.

(** Blocking does not read the event lists. *)
Lemma delay_set_elist e f ticks k :
  prvAddCurrentTaskToDelayedList ticks (set_elist e f k) =
  set_elist e f (prvAddCurrentTaskToDelayedList ticks k).
Proof.
  unfold prvAddCurrentTaskToDelayedList, remove_state.
  change (state_container (set_elist e f k)) with (state_container k).
  change (pxCurrentTCB (set_elist e f k)) with (pxCurrentTCB k).
  change (xTickCount (set_elist e f k)) with (xTickCount k).
  destruct k as [ts c r d1 d2 d ev top su ti pe ov nx yp sv ru].
  cbn [pxCurrentTCB xTickCount]. set (wake := u32 (ti + ticks)).
  destruct (state_container _ c) as [[p| |]|].
  all: cbn [set_elist set_slist tcbs slist pxReadyTasksLists xDelayedTaskList1 xDelayedTaskList2].
  all: destruct (_ =? 0)%nat; destruct (wake <? ti).
  all: unfold set_elist, pxOverflowDelayedTaskList; cbn.
  all: destruct d as [q| |]; cbn; try done; destruct (wake <? nx); done.
Qed.

Lemma delay_events ticks k : events (prvAddCurrentTaskToDelayedList ticks k) = events k.
Proof.
  unfold prvAddCurrentTaskToDelayedList, remove_state.
  destruct k as [ts c r d1 d2 d ev top su ti pe ov nx yp sv ru].
  cbn [pxCurrentTCB xTickCount]. set (wake := u32 (ti + ticks)).
  destruct (state_container _ c) as [[p| |]|].
  all: cbn [set_slist tcbs slist pxReadyTasksLists xDelayedTaskList1 xDelayedTaskList2].
  all: destruct (_ =? 0)%nat; destruct (wake <? ti).
  all: unfold pxOverflowDelayedTaskList; cbn.
  all: destruct d as [q| |]; cbn; try done; destruct (wake <? nx); done.
Qed.

Lemma place_step e k ticks :
  kernel_wf k -> kop_ok (KPlace e ticks) k ->
  kernel_wf (vTaskPlaceOnEventList e ticks k) /\
  forall t, advances t 0 k (vTaskPlaceOnEventList e ticks k).
Proof.
  intros Hk (Hs & Ht & Hr & He & Hno). pose proof Hr as [p Hp]. pose proof (kw_core k Hk) as [Hw Hn].
  destruct (block_step k ticks Hk) as [Hk1 Ha]; [done|].
  destruct (moves_delay _ _ _ _ Hw eq_refl Hn Ht Hp) as (Hm & Hwt & _ & Hev).
  unfold vTaskPlaceOnEventList, insert_event. rewrite delay_set_elist.
  set (c := pxCurrentTCB k) in *. set (k1 := prvAddCurrentTaskToDelayedList ticks k) in *.
  set (v := fun u => xEventItemValue (tcb k u)).
  assert (Hel : forall e', elist k1 e' = elist k e').
  { intros e'. unfold elist, k1. by rewrite delay_events. }
  assert (He1 : is_Some (events k1 !! e)) by (unfold k1; by rewrite delay_events).
  assert (Hno1 : forall e', ~ inE k1 e' c) by (intros e'; rewrite Hev; apply Hno).
  assert (Hw2 : lists_wf None (xTickCount k) (set_elist e (al_insert v c) k1)).
  { pose proof (kw_lists _ (kw_core _ Hk1)) as Hw1. rewrite (mv_tick _ _ _ Hm) in Hw1.
    apply wf_set_elist; [done|done|apply al_insert_ok; [apply (w_elists _ _ _ Hw1)|apply Hno1]|].
    intros q Hq. cbn in Hq. apply insert_sorted_elem in Hq as [->|Hq]; [right|by left].
    split; [exact Hno1|right; exact Hwt]. }
  split.
  - split; cbn [set_elist uxSchedulerSuspended xPendedTicks].
    + split; cbn [set_elist xTickCount]; rewrite (mv_tick _ _ _ Hm); done.
    + apply Hk1.
    + rewrite (mv_suspended _ _ _ Hm). lia.
    + apply Hk1.
    + apply Hk1.
  - intros t Hwt0 Het. destruct (decide (t = c)) as [->|Hne].
    { by apply (ready_not_waiting _ _ _ _ _ Hw Hp) in Hwt0. }
    specialize (Ha t Hwt0 Het). destruct (0 <? remaining k t); [|done].
    destruct Ha as (A1 & A2 & A3). split_and!; [done|done|].
    intros e' Hx. unfold inE in Hx. rewrite elist_set in Hx by done. case_decide; [|by eapply A3].
    subst. cbn in Hx. apply insert_sorted_elem in Hx as [?|Hx]; [done|by eapply A3].
Qed.

(** *** Waking a task that waits for an event *)

Lemma unblock_step e k :
  kernel_wf k -> kop_ok (KUnblock e) k ->
  kernel_wf (fst (xTaskRemoveFromEventList e k)) /\
  forall t, advances t 0 k (fst (xTaskRemoveFromEventList e k)).
Proof.
  intros Hk [Hne [t0 Ht0]]. pose proof (kw_core k Hk) as Hc. pose proof Hc as [Hw Hn].
  unfold xTaskRemoveFromEventList. destruct (al_items (elist k e)) as [|t l] eqn:E.
  { unfold inE in Ht0. rewrite E in Ht0. by apply elem_of_nil in Ht0. }
  assert (Ht : inE k e t) by (unfold inE; rewrite E; apply list_elem_of_here). clear t0 Ht0.
  assert (exists d, is_delayed d /\ inS k d t) as (d & Hd & Hin).
  { destruct (w_event _ _ _ Hw t _ Ht) as [?|[?|?]]; [done|exists SDelayed1|exists SDelayed2];
      (split; [unfold is_delayed; tauto|done]). }
  destruct (wf_remove_event _ _ _ t Hw) as [Hw1 Hev].
  destruct (remove_event_form t k) as [ev Eev].
  assert (Hs1 : uxSchedulerSuspended (remove_event t k) = uxSchedulerSuspended k) by (by rewrite Eev).
  rewrite Hs1.
  assert (exists k2, (if uxSchedulerSuspended k =? 0
      then prvAddTaskToReadyList t (fst (remove_state t (remove_event t k)))
      else set_elist EPending (al_insert_end t) (remove_event t k)) = k2 /\
      kernel_wf k2 /\ forall u, advances u 0 k k2) as (k2 & Ek & Hk2 & Ha).
  { destruct (Z.eqb_spec (uxSchedulerSuspended k) 0) as [Es|Es].
    - assert (Ecom : fst (remove_state t (remove_event t k)) = remove_event t (fst (remove_state t k))).
      { rewrite (remove_state_form _ _ _ _ _ Hw Hin). cbn [fst]. rewrite remove_event_set_slist.
        rewrite (remove_state_form _ _ _ d _ Hw1); [done|]. rewrite Eev. exact Hin. }
      rewrite Ecom. destruct (wf_wake _ k d t _ Hw Hd Hin eq_refl) as [Hw2 Hk'].
      eexists; split; [reflexivity|]. set (k' := prvAddTaskToReadyList _ _) in *. split.
      + split; rewrite ?(wk_suspended _ _ _ Hk'), ?(wk_pended _ _ _ Hk'); try apply Hk.
        * split; rewrite (wk_tick _ _ _ Hk'); done.
        * intros _. apply no_events. intros u [Hu _]%(wk_event _ _ _ Hk').
          unfold inE in Hu. rewrite (kw_pending k Hk Es) in Hu. by apply elem_of_nil in Hu.
      + intros u Hwu Heu. assert (u <> t) by (intros ->; by eapply Heu).
        by apply (moves_advances t); [|by apply wakes_moves| |..].
    - eexists; split; [reflexivity|].
      assert (Hp : is_Some (events (remove_event t k) !! EPending)) by apply (w_pending _ _ _ Hw1).
      assert (Hnt : forall e', ~ inE (remove_event t k) e' t) by (intros e' [_ ?]%Hev; done).
      split.
      + split; cbn [set_elist uxSchedulerSuspended xPendedTicks]; rewrite ?Hs1; try (rewrite Eev; apply Hk); try apply Hk; try done.
          split; cbn [set_elist xTickCount]; (replace (xTickCount (remove_event t k)) with (xTickCount k) by (by rewrite Eev)); [|done].
          apply wf_set_elist; [done|done|apply al_insert_end_ok; [apply (w_elists _ _ _ Hw1)|apply Hnt]|].
          intros q Hq. apply al_insert_end_elem in Hq as [->|Hq]; [right|by left].
          split; [exact Hnt|]. right. rewrite Eev. destruct Hd; subst; [by left|by right].
      + intros u Hwu Heu. destruct (remaining_spec k u Hc Hwu) as [_ Hr].
        rewrite (proj2 (Z.ltb_lt _ _)) by lia. split_and!.
        * rewrite Eev. exact Hwu.
        * rewrite Eev. change (remaining k u = remaining k u - 0). lia.
        * intros e' Hx. unfold inE in Hx. rewrite elist_set in Hx by done. case_decide.
          -- apply al_insert_end_elem in Hx as [->|Hx]; [by eapply Heu|].
             apply Hev in Hx as [Hx _]. by eapply Heu.
          -- apply Hev in Hx as [Hx _]. by eapply Heu. }
  rewrite Ek. destruct (_ <? _); cbn [fst]; [|done]. split; [by apply wf_yield|exact Ha].
Qed.

(** *** Mutexes *)

(** An update of a control block that keeps the wake time and, for a ready task,
    the priority. *)
Lemma set_tcb_step k t f :
  kernel_wf k ->
  (forall b, tcbs k !! t = Some b ->
     0 <= uxPriority (f b) < configMAX_PRIORITIES /\
     ((exists p, inS k (SReady p) t) -> uxPriority (f b) = uxPriority b)) ->
  (forall b, xStateItemValue (f b) = xStateItemValue b) ->
  kernel_wf (set_tcb t f k) /\ forall u, advances u 0 k (set_tcb t f k).
Proof.
  intros Hk Hf Hv. pose proof (kw_core k Hk) as Hc. split; [|intros u; by apply set_tcb_advances].
  destruct Hk as [[H1 H2] H3 H4 H5 H6]. split; try done. split; [|done].
  apply wf_set_tcb; [done|]. intros b Hb. split; [apply Hv|by apply Hf].
Qed.

Lemma kernel_prio k t b : kernel_wf k -> tcbs k !! t = Some b -> 0 <= uxPriority b < configMAX_PRIORITIES.
Proof. intros Hk. apply (w_prios _ _ _ (kw_lists _ (kw_core _ Hk))). Qed.

(** A ready task moves to the ready list of another priority, with its control
    block updated by [f]. *)
Lemma reprioritise_step k t p f :
  kernel_wf k -> inS k (SReady p) t ->
  (forall b, tcbs k !! t = Some b -> 0 <= uxPriority (f b) < configMAX_PRIORITIES) ->
  (forall b, xStateItemValue (f b) = xStateItemValue b) ->
  let k1 := (let '(k, left_) := remove_state t k in
             if (left_ =? 0)%nat then portRESET_READY_PRIORITY (Z.of_nat p) k else k) in
  kernel_wf (prvAddTaskToReadyList t (set_tcb t f k1)) /\
  forall u, advances u 0 k (prvAddTaskToReadyList t (set_tcb t f k1)).
Proof.
  intros Hk Hin Hf Hv. cbv zeta. pose proof (kw_core k Hk) as Hc. pose proof Hc as [Hw Hn].
  pose proof (wf_detach_ready _ _ _ _ Hw Hin) as Hd.
  pose proof (moves_remove_state _ _ _ _ _ Hw Hin) as Hm0.
  rewrite (remove_state_form _ _ _ _ _ Hw Hin) in Hd, Hm0 |- *. cbn [fst] in Hm0. cbv beta iota in Hd |- *.
  match type of Hd with lists_wf _ _ ?x => set (k1 := x) in * end.
  slist_rest k (SReady p) (al_remove t).
  assert (Et : tcbs k1 = tcbs k) by (unfold k1; destruct (_ =? 0)%nat; done).
  assert (Hm1 : moves t k k1).
  { unfold k1. destruct (_ =? 0)%nat; [|done]. eapply moves_trans; [exact Hm0|by apply moves_scalar]. }
  assert (Ev : events k1 = events k) by (unfold k1; destruct (_ =? 0)%nat; done).
  assert (Hno : forall e, ~ inE k e t).
  { intros e He. destruct (w_event _ _ _ Hw t e He) as [?|H]; [done|].
    by apply (ready_not_waiting _ _ _ _ _ Hw Hin) in H. }
  destruct (w_moving _ _ _ Hd t eq_refl) as [_ Hnt].
  assert (Hw2 : lists_wf (Some t) (xTickCount k) (set_tcb t f k1)).
  { apply wf_set_tcb; [done|]. rewrite Et. intros b Hb. split_and!; [apply Hv|by apply Hf|by apply Hf|].
    intros [q Hq]. by apply Hnt in Hq. }
  assert (Hw3 : lists_wf None (xTickCount k) (prvAddTaskToReadyList t (set_tcb t f k1))).
  { apply wf_attach_ready; [done|]. intros e He. apply (Hno e). unfold inE, elist in *. cbn in He. by rewrite Ev in He. }
  assert (Hm2 : moves t k (prvAddTaskToReadyList t (set_tcb t f k1))).
  { eapply moves_trans; [exact Hm1|]. eapply moves_trans; [apply moves_set_tcb|by eapply moves_ready]. }
  set (k2 := prvAddTaskToReadyList t (set_tcb t f k1)) in *. split.
  - split; rewrite ?(mv_suspended _ _ _ Hm2), ?(mv_pended _ _ _ Hm2); try apply Hk.
    + split; rewrite (mv_tick _ _ _ Hm2); done.
    + intros Hs. apply no_events. intros u Hu.
      assert (inE k EPending u) as Hx; [|unfold inE in Hx; rewrite (kw_pending k Hk Hs) in Hx; by apply elem_of_nil in Hx].
      unfold inE, k2, prvAddTaskToReadyList in Hu. rewrite elist_set_slist in Hu.
      unfold inE, elist in *. cbn in Hu. by rewrite Ev in Hu.
  - intros u. destruct (decide (u = t)) as [->|Hne]; [|by eapply moves_advances].
    intros H. by apply (ready_not_waiting _ _ _ _ _ Hw Hin) in H.
Qed.

Lemma advances_trans0 t k k1 k2 :
  core_wf k -> advances t 0 k k1 -> advances t 0 k1 k2 -> advances t 0 k k2.
Proof.
  intros Hc H1 H2 Hw He. destruct (remaining_spec k t Hc Hw) as [_ Hr]. specialize (H1 Hw He).
  rewrite (proj2 (Z.ltb_lt _ _)) in H1 by lia. destruct H1 as (Hw1 & Hr1 & He1).
  specialize (H2 Hw1 He1). rewrite Hr1, Z.sub_0_r in H2. exact H2.
Qed.

Lemma hold_step k :
  kernel_wf k ->
  kernel_wf (fst (pvTaskIncrementMutexHeldCount k)) /\
  forall t, advances t 0 k (fst (pvTaskIncrementMutexHeldCount k)).
Proof. intros Hk. apply set_tcb_step; [done| |done]. intros b Hb. cbn. split; [by eapply kernel_prio|done]. Qed.

Lemma event_value_step k m v :
  kernel_wf k -> kernel_wf (set_event_value m v k) /\ forall t, advances t 0 k (set_event_value m v k).
Proof. intros Hk. apply set_tcb_step; [done| |done]. intros b Hb. cbn. split; [by eapply kernel_prio|done]. Qed.

Lemma inherit_step m k :
  kernel_wf k -> is_Some (tcbs k !! m) ->
  kernel_wf (fst (xTaskPriorityInherit (Some m) k)) /\
  forall t, advances t 0 k (fst (xTaskPriorityInherit (Some m) k)).
Proof.
  intros Hk Hm. pose proof (kw_core k Hk) as Hc. unfold xTaskPriorityInherit.
  set (p := uxPriority (tcb k (pxCurrentTCB k))).
  assert (Hp : 0 <= p < configMAX_PRIORITIES).
  { destruct (w_current _ _ _ (kw_lists _ Hc)) as [b Hb]. unfold p, tcb. rewrite Hb. by eapply kernel_prio. }
  destruct (uxPriority (tcb k m) <? p).
  2:{ split; [done|]. intros t. apply (moves_advances (t + 1)); [done|apply moves_refl|lia]. }
  cbv zeta.
  set (k1 := if value_in_use (xEventItemValue (tcb k m)) then k else set_event_value m (event_value_for p) k).
  assert (Hk1 : kernel_wf k1 /\ forall t, advances t 0 k k1).
  { unfold k1. destruct (value_in_use _); [|by apply event_value_step].
    split; [done|]. intros t. apply (moves_advances (t + 1)); [done|apply moves_refl|lia]. }
  destruct Hk1 as [Hk1 Ha1]. pose proof (kw_lists _ (kw_core _ Hk1)) as Hw1.
  assert (Hm1 : is_Some (tcbs k1 !! m)).
  { unfold k1. destruct (value_in_use _); [done|]. cbn. by rewrite lookup_alter_is_Some. }
  destruct Hm1 as [b Hb]. pose proof (kernel_prio _ _ _ Hk1 Hb) as Hpm.
  assert (Etm : tcb k1 m = b) by (unfold tcb; by rewrite Hb).
  set (pm := Z.to_nat (uxPriority (tcb k1 m))).
  assert (Hpm' : Z.of_nat pm = uxPriority (tcb k1 m)) by (unfold pm; rewrite Etm; lia).
  unfold is_member. case_bool_decide as Hin.
  - change (inS k1 (SReady pm) m) in Hin.
    destruct (reprioritise_step k1 m pm (fun b => mkTCB p (uxBasePriority b) (uxMutexesHeld b)
      (xStateItemValue b) (xEventItemValue b)) Hk1 Hin) as [H1 H2]; [done|done|].
    rewrite (remove_state_form _ _ _ _ _ Hw1 Hin) in H1, H2 |- *.
    rewrite tcb_set_slist, <- Hpm'. cbn [fst]. split; [exact H1|].
    intros t. eapply advances_trans0; [done|apply Ha1|exact (H2 t)].
  - cbn [fst]. destruct (set_tcb_step k1 m (fun b => mkTCB p (uxBasePriority b) (uxMutexesHeld b)
      (xStateItemValue b) (xEventItemValue b)) Hk1) as [H1 H2]; [|done|].
    + intros b' Hb'. split; [done|]. intros [q Hq]. exfalso. apply Hin.
      pose proof (w_prio _ _ _ Hw1 _ _ Hq) as Hx. assert (pm = q) as -> by (unfold pm; lia). exact Hq.
    + split; [exact H1|]. intros t. eapply advances_trans0; [done|apply Ha1|exact (H2 t)].
Qed.

Lemma disinherit_step k :
  kernel_wf k -> kop_ok KDisinherit k ->
  exists k' y, xTaskPriorityDisinherit (Some (pxCurrentTCB k)) k = Some (k', y) /\
    kernel_wf k' /\ forall t, advances t 0 k k'.
Proof.
  intros Hk (Hr & Hheld & Hbase). pose proof (kw_core k Hk) as Hc. unfold xTaskPriorityDisinherit.
  set (t := pxCurrentTCB k) in *. rewrite Z.eqb_refl. cbn [negb orb].
  rewrite (proj2 (Z.eqb_neq _ 0)) by lia. cbv zeta.
  set (k1 := set_mutexes t (u32 (uxMutexesHeld (tcb k t) - 1)) k).
  assert (Hk1 : kernel_wf k1 /\ forall u, advances u 0 k k1).
  { apply set_tcb_step; [done| |done]. intros b Hb. cbn. split; [by eapply kernel_prio|done]. }
  destruct Hk1 as [Hk1 Ha1]. destruct (_ || _); [by exists k1, false|].
  destruct (w_current _ _ _ (kw_lists _ Hc)) as [b Hb].
  assert (E1 : uxBasePriority (tcb k1 t) = uxBasePriority (tcb k t)).
  { unfold tcb. cbn. unfold t. by rewrite lookup_alter_eq, Hb. }
  destruct Hr as [p Hin]. change (inS k1 (SReady p) t) in Hin.
  pose proof (kw_lists _ (kw_core _ Hk1)) as Hw1.
  set (bp := uxBasePriority (tcb k1 t)).
  destruct (reprioritise_step k1 t p (fun b => mkTCB bp (uxBasePriority b) (uxMutexesHeld b)
    (xStateItemValue b) (event_value_for bp)) Hk1 Hin) as [H1 H2]; [unfold bp; by rewrite E1|done|].
  pose proof (w_prio _ _ _ Hw1 _ _ Hin) as Hprio.
  rewrite (remove_state_form _ _ _ _ _ Hw1 Hin) in H1, H2 |- *. cbv beta iota in H1, H2 |- *.
  rewrite tcb_set_slist, Hprio.
  match type of H1 with kernel_wf (prvAddTaskToReadyList t (set_tcb t _ ?x)) => set (k2 := x) in * end.
  assert (E2 : tcbs k2 = tcbs k1).
  { slist_rest k1 (SReady p) (al_remove t). unfold k2. by destruct (_ =? 0)%nat. }
  assert (Ebp : uxBasePriority (tcb k2 t) = bp) by (unfold bp, tcb; by rewrite E2).
  rewrite Ebp.
  assert (Ek : set_event_value t (event_value_for (uxPriority (tcb (set_priority t bp k2) t))) (set_priority t bp k2)
    = set_tcb t (fun b => mkTCB bp (uxBasePriority b) (uxMutexesHeld b) (xStateItemValue b) (event_value_for bp)) k2).
  { assert (uxPriority (tcb (set_priority t bp k2) t) = bp) as ->.
    { unfold tcb. cbn. rewrite E2. cbn. unfold t. by rewrite !lookup_alter_eq, Hb. }
    unfold set_event_value, set_priority, set_tcb, set_tcbs. cbn. by rewrite alter_alter_eq. }
  rewrite Ek. eexists _, true. split; [reflexivity|]. split; [exact H1|].
  intros u. eapply advances_trans0; [done|apply Ha1|exact (H2 u)].
Qed.

(** A new, empty event list. *)
Lemma new_list_step e k :
  kernel_wf k -> events k !! e = None ->
  kernel_wf (vListInitialise_event e k) /\ forall t, advances t 0 k (vListInitialise_event e k).
Proof.
  intros Hk He. pose proof (kw_core k Hk) as Hc.
  assert (Hel : forall e', elist (vListInitialise_event e k) e' = elist k e').
  { intros e'. unfold elist. cbn. destruct (decide (e = e')) as [<-|].
    - by rewrite lookup_insert_eq, He.
    - by rewrite lookup_insert_ne. }
  split.
  - destruct Hk as [[H1 H2] H3 H4 H5 H6]. split; try done; [|rewrite Hel; done].
    split; [|done]. destruct H1. split; try done.
    + intros e'. rewrite Hel. auto.
    + intros t e1 e2. unfold inE. rewrite !Hel. apply w_eonce.
    + intros t e'. unfold inE. rewrite Hel. apply w_event.
    + cbn. rewrite lookup_insert_is_Some'. by right.
  - intros t Hw Het. destruct (remaining_spec k t Hc Hw) as [_ Hr].
    rewrite (proj2 (Z.ltb_lt _ _)) by lia. split_and!; [done| |].
    + change (remaining k t = remaining k t - 0). lia.
    + intros e'. unfold inE. rewrite Hel. apply Het.
Qed.

(** A new control block, before its state item is in a list. *)
Lemma wf_insert_tcb n k t b :
  lists_wf None n k -> tcbs k !! t = None -> 0 <= uxPriority b < configMAX_PRIORITIES ->
  lists_wf (Some t) n (set_tcbs (insert t b) k).
Proof.
  intros Hw Hn Hb.
  assert (Hin : forall l u, inS k l u -> u <> t).
  { intros l u Hu ->. assert (is_Some (tcbs k !! t)) as [? Hx]; [|congruence].
    apply (w_tasks _ _ _ Hw). right. eauto. }
  assert (Hin' : forall l u, inS (set_tcbs (insert t b) k) l u -> u <> t) by exact Hin.
  assert (HT : forall u, u <> t -> tcb (set_tcbs (insert t b) k) u = tcb k u).
  { intros u Hu. unfold tcb. cbn. by rewrite lookup_insert_ne. }
  destruct Hw. split; try done.
  - intros u [= <-]. cbn. rewrite lookup_insert_eq. split; [eauto|]. intros l Hl. by apply Hin in Hl.
  - intros u. cbn. destruct (decide (u = t)) as [->|Hne].
    + rewrite lookup_insert_eq. split; [by left|eauto].
    + rewrite lookup_insert_ne, w_tasks by done. split; [intros [?|?]; [done|by right]|].
      intros [[= <-]|?]; [done|by right].
  - intros p u Hu. rewrite HT by exact (Hin' _ _ Hu). auto.
  - intros u b' Hb'. cbn in Hb'. destruct (decide (u = t)) as [->|Hne].
    + rewrite lookup_insert_eq in Hb'. by injection Hb' as <-.
    + rewrite lookup_insert_ne in Hb' by done. eauto.
  - intros l Hl. eapply sorted_by_ext; [|by apply w_sorted]. intros u Hu. unfold state_value.
    symmetry. f_equal. apply HT. exact (Hin' _ _ Hu).
  - intros u Hu. unfold state_value. rewrite HT by exact (Hin' _ _ Hu). by apply w_delayed.
  - intros u Hu. unfold state_value. rewrite HT by exact (Hin' _ _ Hu). by apply w_overflow.
  - intros u Hu. unfold state_value. rewrite HT by exact (Hin' _ _ Hu). by apply w_next.
  - intros u e Hu. right. by destruct (w_event u e Hu) as [?|?].
  - cbn. rewrite lookup_insert_is_Some'. by right.
Qed.

Lemma create_step t p k :
  kernel_wf k -> kop_ok (KCreate t p) k ->
  exists k', xTaskCreateStatic t p k = Some k' /\ kernel_wf k' /\ forall u, advances u 0 k k'.
Proof.
  intros Hk (Hru & Hc & Hn & Hp). pose proof (kw_core k Hk) as Hco. pose proof Hco as [Hw Hti].
  unfold xTaskCreateStatic, prvInitialiseNewTask. rewrite (proj2 (Z.ltb_lt _ _)) by apply Hp.
  eexists; split; [reflexivity|]. set (b := mkTCB p p 0 0 (event_value_for p)).
  unfold prvAddNewTaskToReadyList. set (k1 := set_tcbs (insert t b) k).
  change (pxCurrentTCB k1) with (pxCurrentTCB k). rewrite (proj2 (Z.eqb_neq _ _)) by done.
  change (xSchedulerRunning k1) with (xSchedulerRunning k). rewrite Hru. cbn [negb andb].
  pose proof (wf_insert_tcb _ k t b Hw Hn Hp) as Hw1. fold k1 in Hw1.
  assert (Hno : forall l, ~ inS k l t).
  { intros l Hl. assert (is_Some (tcbs k !! t)) as [? Hx]; [|congruence]. apply (w_tasks _ _ _ Hw). eauto. }
  assert (Hev : forall e, ~ inE k1 e t).
  { intros e He. destruct (w_event _ _ _ Hw t e He) as [?|[?|?]]; [done|by eapply Hno..]. }
  pose proof (wf_attach_ready _ _ _ Hw1 Hev) as Hw2. pose proof (moves_ready _ _ _ Hw1) as Hm.
  set (k2 := prvAddTaskToReadyList t k1) in *.
  assert (Hr : events k2 = events k) by reflexivity.
  assert (Hk2 : kernel_wf k2).
  { destruct Hk as [_ H3 H4 H5 H6].
    split; rewrite ?(mv_suspended _ _ _ Hm), ?(mv_pended _ _ _ Hm); done. }
  assert (Ha : forall u, advances u 0 k k2).
  { intros u Hu He. destruct (remaining_spec k u Hco Hu) as [_ Hrem].
    assert (u <> t) as Hne by (intros ->; destruct Hu as [Hu|Hu]; by eapply Hno).
    rewrite (proj2 (Z.ltb_lt _ _)) by lia. split_and!.
    - unfold waiting. by rewrite !(mv_state _ _ _ Hm) by done.
    - unfold remaining. rewrite (mv_value _ _ _ Hm), (mv_tick _ _ _ Hm) by done.
      unfold state_value, tcb, k1. cbn [set_tcbs tcbs]. rewrite lookup_insert_ne by done.
      change (remaining k u = remaining k u - 0). lia.
    - intros e. unfold inE, elist. rewrite Hr. apply He. }
  destruct (_ && _); [|done]. split; [by apply wf_yield|exact Ha].
Qed.

(** Every permitted step keeps the invariant and advances the waiting tasks by
    the ticks it processes. *)
Lemma kstep_ok o k :
  kernel_wf k -> kop_ok o k ->
  exists k', kstep o k = Some k' /\ kernel_wf k' /\ forall t, advances t (ticks_of o k) k k'.
Proof.
  intros Hk Hok. pose proof (kw_core k Hk) as Hc. destruct o; cbn [kstep].
  - unfold xPortSysTickHandler. cbn [ticks_of]. destruct (Z.eqb_spec (uxSchedulerSuspended k) 0) as [E|E].
    + destruct (tick_step k Hc E (kw_pending k Hk E)) as (H1 & H2 & H3 & H4 & H5 & H6 & H7).
      destruct (xTaskIncrementTick k) as [k1 sw]. cbn [fst] in *.
      assert (Hk1 : kernel_wf k1).
      { split; [done|rewrite H3; unfold is_u32; lia|done|rewrite H4; apply Hk|].
        intros _. rewrite H4. by apply Hk. }
      eexists; split; [reflexivity|]. destruct sw; [|done]. split; [by apply wf_yield|exact H7].
    + unfold xTaskIncrementTick. rewrite (proj2 (Z.eqb_neq _ _)) by done.
      eexists; split; [reflexivity|]. destruct Hk as [[H1 H2] H3 H4 H5 H6]. split.
      * split; cbn [set_time uxSchedulerSuspended xPendedTicks]; try done; [|apply u32_range].
        split; [by apply wf_set_pended|done].
      * intros t Hw Het. destruct (remaining_spec k t Hc Hw) as [_ Hr].
        rewrite (proj2 (Z.ltb_lt _ _)) by lia. split_and!; [done| |done].
        change (remaining k t = remaining k t - 0). lia.
  - destruct (switch_step k Hk Hok) as (k' & E & Hk' & HS & Ht & Hti & He & _).
    exists k'. split; [done|]. split; [done|]. intros t Hw Het. cbn [ticks_of].
    destruct (remaining_spec k t Hc Hw) as [_ Hr]. rewrite (proj2 (Z.ltb_lt _ _)) by lia. split_and!.
    + unfold waiting. by rewrite !HS.
    + unfold remaining, state_value, tcb. rewrite Ht, Hti. change (remaining k t = remaining k t - 0). lia.
    + intros e. unfold inE. rewrite He. apply Het.
  - eexists; split; [reflexivity|]. destruct Hk as [[H1 H2] H3 H4 H5 H6]. cbn in Hok. split.
    + assert (u32 (uxSchedulerSuspended k + 1) = uxSchedulerSuspended k + 1) as Es by (unfold is_u32 in H3; word).
      split; cbn [vTaskSuspendAll set_suspended uxSchedulerSuspended xPendedTicks]; try done.
      * split; [by apply wf_set_suspended|done].
      * apply u32_range.
      * unfold is_u32 in H3. intros Hx. exfalso. change (u32 (uxSchedulerSuspended k + 1) = 0) in Hx. lia.
      * unfold is_u32 in H3. intros Hx. exfalso. change (u32 (uxSchedulerSuspended k + 1) = 0) in Hx. lia.
    + intros t Hw Het. destruct (remaining_spec k t Hc Hw) as [_ Hr].
      rewrite (proj2 (Z.ltb_lt _ _)) by (cbn; lia). split_and!; [done| |done].
      change (remaining k t = remaining k t - 0). lia.
  - destruct (resume_step k Hk Hok). eauto.
  - destruct (block_step k ticks Hk Hok). eauto.
  - destruct (place_step e k ticks Hk Hok). eauto.
  - destruct (unblock_step e k Hk Hok). eauto.
  - destruct (hold_step k Hk). eauto.
  - destruct (inherit_step holder k Hk Hok). eauto.
  - destruct (disinherit_step k Hk Hok) as (k' & y & -> & H1 & H2). eauto.
  - destruct (new_list_step e k Hk Hok). eauto.
  - exact (create_step task priority k Hk Hok).
Qed.

(** ** From the start *)

(** The tasks [main] creates, in order, by control block and priority; then the
    scheduler is started with its idle task. *)
Fixpoint create_tasks (ts : list (Z * Z)) (k : kernel) : option kernel :=
  match ts with
  | [] => Some k
  | (t, p) :: ts => match xTaskCreateStatic t p k with None => None | Some k => create_tasks ts k end
  end.

Definition boot (ts : list (Z * Z)) (idle : Z) : option kernel :=
  match create_tasks ts kernel_zero with
  | None => None
  | Some k => vTaskStartScheduler idle k
  end.

(** Before the scheduler runs nothing waits and nothing is pending. *)
Record created (k : kernel) : Prop := Created {
  cr_lists : lists_wf None 0 k;
  cr_idle : uxSchedulerSuspended k = 0 /\ xTickCount k = 0 /\ xPendedTicks k = 0 /\
    xSchedulerRunning k = false;
  cr_nowait : forall t, ~ waiting k t;
  cr_events : events k = {[EPending := al_empty]};
  cr_current : pxCurrentTCB k <> 0
}.

Lemma ready_list_created k t :
  lists_wf (Some t) 0 k -> (forall u, ~ waiting k u) -> events k = {[EPending := al_empty]} ->
  uxSchedulerSuspended k = 0 -> xTickCount k = 0 -> xPendedTicks k = 0 -> xSchedulerRunning k = false ->
  pxCurrentTCB k <> 0 -> created (prvAddTaskToReadyList t k).
Proof.
  intros Hw Hn He Hs Ht Hp Hr Hc. pose proof (moves_ready _ _ _ Hw) as Hm.
  assert (Hev : forall e, ~ inE k e t).
  { intros e Hx. destruct (w_event _ _ _ Hw t e Hx) as [_|H]; [|by apply Hn in H].
    unfold inE, elist in Hx. rewrite He in Hx. destruct (decide (e = EPending)) as [->|].
    - rewrite lookup_singleton_eq in Hx. by apply elem_of_nil in Hx.
    - rewrite lookup_singleton_ne in Hx by done. by apply elem_of_nil in Hx. }
  pose proof (wf_attach_ready _ _ _ Hw Hev) as Hw'.
  assert (Hrest : events (prvAddTaskToReadyList t k) = events k /\
    xSchedulerRunning (prvAddTaskToReadyList t k) = xSchedulerRunning k).
  { unfold prvAddTaskToReadyList. destruct k as [ts c r d1 d2 d ev top su ti pe ov nx yp sv ru]. done. }
  destruct Hrest as [R1 R2]. split; [done| | | |].
  - rewrite (mv_suspended _ _ _ Hm), (mv_tick _ _ _ Hm), (mv_pended _ _ _ Hm), R2. done.
  - intros u Hu. destruct (decide (u = t)) as [->|Hne].
    + assert (ready (prvAddTaskToReadyList t k) t) as [p Hp'].
      { destruct (w_moving _ _ _ Hw t eq_refl) as [Hs' _].
        assert (is_Some (tcbs (prvAddTaskToReadyList t k) !! t)) as Hx by (by apply (mv_tasks _ _ _ Hm)).
        exists (Z.to_nat (uxPriority (tcb k t))). apply (inS_add_ready _ _ _ _ _ _ Hw); [|by right].
        destruct Hs' as [b Hb]. pose proof (w_prios _ _ _ Hw t b Hb) as Hpr. cbn. rewrite (w_len _ _ _ Hw).
        unfold tcb. rewrite Hb. cbn. unfold configMAX_PRIORITIES in Hpr. lia. }
      by apply (ready_not_waiting _ _ _ _ _ Hw' Hp') in Hu.
    + apply (Hn u). unfold waiting in *. by rewrite !(mv_state _ _ _ Hm) in Hu by done.
  - by rewrite R1.
  - by rewrite (mv_current _ _ _ Hm).
Qed.

Lemma create_first t p :
  t <> 0 -> 0 <= p < configMAX_PRIORITIES ->
  exists k, xTaskCreateStatic t p kernel_zero = Some k /\ created k /\ dom (tcbs k) = {[t]}.
Proof.
  intros Ht Hp. unfold xTaskCreateStatic, prvInitialiseNewTask. rewrite (proj2 (Z.ltb_lt _ _)) by apply Hp.
  eexists; split; [reflexivity|]. unfold prvAddNewTaskToReadyList.
  change (pxCurrentTCB (set_tcbs _ kernel_zero) =? 0) with true. cbv iota.
  set (b := mkTCB p p 0 0 (event_value_for p)).
  set (k1 := prvInitialiseTaskLists (set_current t (set_tcbs (insert t b) kernel_zero))).
  assert (Hnone : forall l u, ~ inS k1 l u).
  { intros l u Hu. unfold inS in Hu. destruct l as [q| |]; cbn in Hu; try by apply elem_of_nil in Hu.
    do 5 (destruct q as [|q]; [by apply elem_of_nil in Hu|]). destruct q; by apply elem_of_nil in Hu. }
  assert (Hlist : forall l, slist k1 l = al_empty).
  { intros [q| |]; [|done..]. cbn. do 5 (destruct q as [|q]; [done|]). by destruct q. }
  assert (Hel : forall e, elist k1 e = al_empty).
  { intros e. unfold elist. cbn. destruct (decide (e = EPending)) as [->|].
    - by rewrite lookup_insert_eq.
    - by rewrite lookup_insert_ne, lookup_empty. }
  assert (Hev : forall e u, ~ inE k1 e u) by (intros e u Hu; unfold inE in Hu; rewrite Hel in Hu; by apply elem_of_nil in Hu).
  assert (Hw : lists_wf (Some t) 0 k1).
  { split; try (intros; exfalso; by eapply Hnone); try (intros; exfalso; by eapply Hev).
    - done.
    - by left.
    - intros l. rewrite Hlist. apply al_empty_ok.
    - intros u [= <-]. split; [|intros l; apply Hnone]. cbn. rewrite lookup_insert_eq. eauto.
    - intros u. cbn. destruct (decide (u = t)) as [->|].
      + rewrite lookup_insert_eq. split; [by left|eauto].
      + rewrite lookup_insert_ne, lookup_empty by done. split; [by intros [? ?]|].
        intros [[= <-]|[l Hl]]; [done|by apply Hnone in Hl].
    - intros u b'. cbn. destruct (decide (u = t)) as [->|].
      + rewrite lookup_insert_eq. intros [= <-]. exact Hp.
      + by rewrite lookup_insert_ne, lookup_empty.
    - intros q. cbn. rewrite Z.bits_0. split; [done|]. intros [_ [u Hu]]. by apply Hnone in Hu.
    - intros l _. rewrite Hlist. constructor.
    - intros e. rewrite Hel. apply al_empty_ok.
    - cbn. rewrite lookup_insert_eq. eauto.
    - cbn. rewrite lookup_insert_eq. eauto. }
  assert (Hcr : created (prvAddTaskToReadyList t k1)).
  { apply ready_list_created; try done. intros u [Hu|Hu]; by apply Hnone in Hu. }
  destruct (cr_idle _ Hcr) as (_ & _ & _ & ->). cbn [andb]. split; [done|].
  assert (tcbs (prvAddTaskToReadyList t k1) = <[t := b]> ∅) as -> by reflexivity.
  by rewrite dom_insert_L, dom_empty_L, union_empty_r_L.
Qed.

Lemma create_next t p k :
  created k -> tcbs k !! t = None -> t <> 0 -> 0 <= p < configMAX_PRIORITIES ->
  exists k', xTaskCreateStatic t p k = Some k' /\ created k' /\ dom (tcbs k') = {[t]} ∪ dom (tcbs k).
Proof.
  intros Hk Hn Ht Hp. unfold xTaskCreateStatic, prvInitialiseNewTask.
  rewrite (proj2 (Z.ltb_lt _ _)) by apply Hp. eexists; split; [reflexivity|].
  set (b := mkTCB p p 0 0 (event_value_for p)). destruct Hk as [Hw (Hs & Hti & Hpe & Hru) Hnw Hev Hc].
  unfold prvAddNewTaskToReadyList. set (k1 := set_tcbs (insert t b) k).
  change (pxCurrentTCB k1) with (pxCurrentTCB k). rewrite (proj2 (Z.eqb_neq _ _)) by done.
  change (xSchedulerRunning k1) with (xSchedulerRunning k). rewrite Hru. cbn [negb andb].
  pose proof (wf_insert_tcb 0 k t b Hw Hn Hp) as Hw1. fold k1 in Hw1.
  set (k2 := if _ <=? _ then set_current t k1 else k1).
  assert (Hk2 : lists_wf (Some t) 0 k2 /\ slist k2 = slist k1 /\ events k2 = events k1 /\ tcbs k2 = tcbs k1 /\
    uxSchedulerSuspended k2 = 0 /\ xTickCount k2 = 0 /\ xPendedTicks k2 = 0 /\ xSchedulerRunning k2 = false /\
    pxCurrentTCB k2 <> 0).
  { unfold k2. destruct (_ <=? _); split_and!; try done.
    apply wf_set_current; [|done]. cbn. rewrite lookup_insert_eq. eauto. }
  destruct Hk2 as (Hw2 & E1 & E2 & E3 & E4 & E5 & E6 & E7 & E8).
  assert (Hcr : created (prvAddTaskToReadyList t k2)).
  { apply ready_list_created; try done; [|by rewrite E2]. intros u Hu. apply (Hnw u).
    unfold waiting, inS in *. by rewrite !E1 in Hu. }
  destruct (cr_idle _ Hcr) as (_ & _ & _ & ->). cbn [andb]. split; [done|].
  assert (tcbs (prvAddTaskToReadyList t k2) = tcbs k2) as ->.
  { unfold prvAddTaskToReadyList. by destruct (set_slist_rest (portRECORD_READY_PRIORITY (uxPriority (tcb k2 t)) k2)
      (SReady (Z.to_nat (uxPriority (tcb (portRECORD_READY_PRIORITY (uxPriority (tcb k2 t)) k2) t)))) (al_insert_end t)) as (-> & _). }
  rewrite E3. cbn. by rewrite dom_insert_L.
Qed.

Definition tasks_ok (ts : list (Z * Z)) (idle : Z) : Prop :=
  ts <> [] /\ NoDup (idle :: map fst ts) /\ Forall (fun t => fst t <> 0 /\ 0 <= snd t < configMAX_PRIORITIES) ts /\
  idle <> 0.

Lemma create_tasks_ok ts k :
  created k -> NoDup (map fst ts) -> (forall t, t ∈ map fst ts -> tcbs k !! t = None) ->
  Forall (fun t => fst t <> 0 /\ 0 <= snd t < configMAX_PRIORITIES) ts ->
  exists k', create_tasks ts k = Some k' /\ created k' /\
    forall t, tcbs k' !! t = None <-> tcbs k !! t = None /\ t ∉ map fst ts.
Proof.
  revert k; induction ts as [|[t p] ts IH]; intros k Hk Hd Hn Ha; cbn [create_tasks map fst] in *.
  - exists k. split_and!; try done. intros t. split; [|tauto]. intros; split; [done|apply not_elem_of_nil].
  - apply NoDup_cons in Hd as [Hd1 Hd2]. apply list.Forall_cons in Ha as [[Ht Hp] Ha]. cbn in Ht, Hp.
    destruct (create_next t p k Hk (Hn t (list_elem_of_here _ _)) Ht Hp) as (k1 & -> & Hk1 & Hdom).
    assert (Hnone : forall u, tcbs k1 !! u = None <-> tcbs k !! u = None /\ u <> t).
    { intros u. rewrite <- !not_elem_of_dom, Hdom, not_elem_of_union, not_elem_of_singleton. tauto. }
    destruct (IH k1 Hk1 Hd2) as (k2 & -> & Hk2 & Hn2); [|done|].
    + intros u Hu. apply Hnone. split; [apply Hn; by apply list_elem_of_further|]. by intros ->.
    + exists k2. split_and!; [done|done|]. intros u. rewrite Hn2, Hnone, not_elem_of_cons. tauto.
Qed.

(** The scheduler starts in a consistent state. *)
Lemma boot_wf ts idle :
  tasks_ok ts idle -> exists k, boot ts idle = Some k /\ kernel_wf k /\ ready k idle.
Proof.
  intros (Hne & Hd & Ha & Hi). destruct ts as [|[t p] ts]; [done|].
  apply NoDup_cons in Hd as [Hd0 Hd]. cbn [map fst] in *. apply NoDup_cons in Hd as [Hd1 Hd2].
  apply list.Forall_cons in Ha as [[Ht Hp] Ha]. cbn in Ht, Hp. unfold boot. cbn [create_tasks].
  destruct (create_first t p Ht Hp) as (k1 & -> & Hk1 & Hdom).
  assert (Hnone : forall u, tcbs k1 !! u = None <-> u <> t).
  { intros u. by rewrite <- not_elem_of_dom, Hdom, not_elem_of_singleton. }
  destruct (create_tasks_ok ts k1 Hk1 Hd2) as (k2 & -> & Hk2 & Hn2); [|done|].
  { intros u Hu. apply Hnone. by intros ->. }
  unfold vTaskStartScheduler.
  destruct (create_next idle 0 k2 Hk2) as (k3 & -> & [Hw (Hs & Hti & Hpe & Hru) Hnw Hev Hc] & Hdom3);
    [|done|unfold configMAX_PRIORITIES; lia|].
  { apply Hn2. rewrite Hnone. rewrite not_elem_of_cons in Hd0. done. }
  eexists; split; [reflexivity|].
  assert (Hw' : lists_wf None 0 (set_running (set_time 0 (xPendedTicks k3) portMAX_DELAY k3))).
  { assert (forall u, inS k3 (pxDelayedTaskList k3) u -> False) as Hno.
    { intros u Hu. apply (Hnw u). apply waiting_in; [apply (w_cur _ _ _ Hw)|by left]. }
    destruct Hw. split; try done. intros u Hu. by apply Hno in Hu. }
  split.
  - assert (Hz : is_u32 0) by (unfold is_u32; lia). split.
    + split; [exact Hw'|exact Hz].
    + cbn. by rewrite Hs.
    + intros _. unfold elist. cbn. rewrite Hev. by rewrite lookup_singleton_eq.
    + cbn. by rewrite Hpe.
    + intros _. exact Hpe.
  - assert (is_Some (tcbs k3 !! idle)) as Hid by (apply elem_of_dom; rewrite Hdom3; by apply elem_of_union_l, elem_of_singleton).
    apply (w_tasks _ _ _ Hw) in Hid as [?|[l Hl]]; [done|].
    destruct l as [q| |]; [by exists q|exfalso; apply (Hnw idle); by left|exfalso; apply (Hnw idle); by right].
Qed.

Lemma run_wf os k k' n : run os k k' n -> kernel_wf k -> kernel_wf k'.
Proof.
  induction 1 as [|o os k k1 k2 n Hok Hs _ IH]; intros Hk; [done|].
  destruct (kstep_ok o k Hk Hok) as (k1' & Hs' & Hk1 & _). simplify_eq. auto.
Qed.

Lemma ticks_nonneg o k : kernel_wf k -> 0 <= ticks_of o k.
Proof.
  intros Hk. pose proof (kw_pended k Hk) as [? _]. destruct o; cbn; try lia; destruct (_ =? _); lia.
Qed.

Lemma run_ticks_nonneg os k k' n : run os k k' n -> kernel_wf k -> 0 <= n.
Proof.
  induction 1 as [|o os k k1 k2 n Hok Hs Hr IH]; intros Hk; [done|].
  pose proof (ticks_nonneg o k Hk). destruct (kstep_ok o k Hk Hok) as (k1' & Hs' & Hk1 & _).
  simplify_eq. specialize (IH Hk1). lia.
Qed.

(** A task that waits for its time only goes on waiting until its tick. *)
Lemma run_waits os k k' n t :
  run os k k' n -> kernel_wf k -> waiting k t -> (forall e, ~ inE k e t) -> n < remaining k t ->
  waiting k' t /\ remaining k' t = remaining k t - n /\ forall e, ~ inE k' e t.
Proof.
  induction 1 as [|o os k k1 k2 n Hok Hs Hr IH]; intros Hk Hw He Hn.
  - rewrite Z.sub_0_r. done.
  - destruct (kstep_ok o k Hk Hok) as (k1' & Hs' & Hk1 & Ha). simplify_eq.
    pose proof (run_ticks_nonneg _ _ _ _ Hr Hk1). specialize (Ha t Hw He).
    rewrite (proj2 (Z.ltb_lt _ _)) in Ha by lia. destruct Ha as (A1 & A2 & A3).
    destruct (IH Hk1 A1 A3) as (B1 & B2 & B3); [lia|]. split_and!; [done|lia|done].
Qed.

(** ** The next unblock time lies ahead *)

(** The tick interrupt looks into the delayed list no more often than it has to:
    the next unblock time is later than the tick count, or is the time that
    stands for an empty list. *)
Definition next_ahead (k : kernel) : Prop :=
  xTickCount k < xNextTaskUnblockTime k \/ xNextTaskUnblockTime k = portMAX_DELAY.

(** What the test of the tick interrupt reads. *)
Definition times (k : kernel) : Z * Z := (xTickCount k, xNextTaskUnblockTime k).

Lemma next_ahead_times k k' : times k' = times k -> next_ahead k -> next_ahead k'.
Proof. unfold times, next_ahead. intros [= -> ->]. done. Qed.

Lemma times_set_slist l f k : times (set_slist l f k) = times k.
Proof. by destruct k, l. Qed.
Lemma times_remove_state t k : times (fst (remove_state t k)) = times k.
Proof. unfold remove_state. case_match; [apply times_set_slist|done]. Qed.
Lemma times_remove_event t k : times (remove_event t k) = times k.
Proof. unfold remove_event. by case_match. Qed.
Lemma times_add_ready t k : times (prvAddTaskToReadyList t k) = times k.
Proof. unfold prvAddTaskToReadyList. cbv zeta. by rewrite times_set_slist. Qed.
Lemma times_insert_state l t k : times (insert_state l t k) = times k.
Proof. apply times_set_slist. Qed.

Lemma times_pending_loop fuel k : times (pending_loop fuel k) = times k.
Proof.
  revert k; induction fuel as [|fuel IH]; intros k; [done|]. cbn [pending_loop].
  case_match; [done|]. rewrite IH.
  match goal with |- times (if _ then set_yield _ _ ?x else _) = _ =>
    transitivity (times x); [by case_match|] end.
  by rewrite times_add_ready, times_remove_state, times_remove_event.
Qed.

Lemma increment_ahead k :
  core_wf k -> uxSchedulerSuspended k = 0 -> next_ahead (fst (xTaskIncrementTick k)).
Proof.
  intros Hk Hs. destruct (xTaskIncrementTick_effect k Hk Hs) as [_ He].
  unfold next_ahead. rewrite (te_tick _ _ He). clear He.
  unfold xTaskIncrementTick. rewrite Hs, Z.eqb_refl.
  destruct (tick_start k Hk) as (Hw1 & _). set (now := u32 (xTickCount k + 1)) in *. cbv zeta.
  match type of Hw1 with lists_wf _ _ ?x => set (k1 := x) in * end.
  destruct (Z.leb_spec (xNextTaskUnblockTime k1) now) as [Hle|Hgt]; [|by left].
  pose proof (unblock_loop_ahead (now - 1) (S (length (al_items (slist k1 (pxDelayedTaskList k1)))))
    k1 false Hw1 ltac:(lia)) as H1. rewrite !Z.sub_add in H1.
  by destruct (unblock_loop _ _ _ _) as [k2 sw].
Qed.

Lemma tick_ahead k : kernel_wf k -> next_ahead k -> next_ahead (xPortSysTickHandler k).
Proof.
  intros Hk Ha. unfold xPortSysTickHandler. destruct (xTaskIncrementTick k) as [k1 sw] eqn:E.
  assert (next_ahead k1) as H1; [|by destruct sw].
  destruct (Z.eqb_spec (uxSchedulerSuspended k) 0) as [Hs|Hs].
  - change k1 with (fst (k1, sw)). rewrite <-E. by apply increment_ahead, Hs; apply Hk.
  - unfold xTaskIncrementTick in E. rewrite (proj2 (Z.eqb_neq _ _) Hs) in E. by injection E as <- <-.
Qed.

Lemma pended_ahead n k :
  core_wf k -> uxSchedulerSuspended k = 0 -> al_items (elist k EPending) = [] -> next_ahead k ->
  next_ahead (pended_loop n k).
Proof.
  revert k; induction n as [|n IH]; intros k Hk Hs He Ha; [done|]. cbn [pended_loop].
  pose proof (increment_ahead k Hk Hs) as H1. destruct (tick_step k Hk Hs He) as (Hk1 & He1 & Hs1 & _).
  destruct (xTaskIncrementTick k) as [k1 sw]. cbn [fst] in *. apply IH; destruct sw; try done.
  destruct Hk1. split; [by apply wf_set_yield|done].
Qed.

Lemma reset_ahead k :
  lists_wf None (xTickCount k) k -> next_ahead (prvResetNextTaskUnblockTime k).
Proof.
  intros Hw. unfold prvResetNextTaskUnblockTime.
  destruct (al_items (slist k (pxDelayedTaskList k))) as [|t l] eqn:E; [by right|left].
  assert (Ht : inS k (pxDelayedTaskList k) t) by (unfold inS; rewrite E; apply list_elem_of_here).
  pose proof (w_delayed _ _ _ Hw t Ht) as Hb. exact (proj1 Hb).
Qed.

Lemma resume_ahead k :
  kernel_wf k -> kop_ok KResumeAll k -> next_ahead k -> next_ahead (fst (xTaskResumeAll k)).
Proof.
  intros Hk Hs Ha. cbn in Hs. pose proof (kw_core k Hk) as Hc. pose proof (kw_suspended k Hk) as Hu.
  unfold xTaskResumeAll. replace (u32 (uxSchedulerSuspended k - 1)) with (uxSchedulerSuspended k - 1) by word.
  set (k0 := set_suspended (uxSchedulerSuspended k - 1) k).
  assert (Hw0 : lists_wf None (xTickCount k) k0) by (apply wf_set_suspended, (kw_lists k Hc)).
  destruct (_ && _) eqn:E; [|done]. apply andb_true_iff in E as [E%Z.eqb_eq _].
  destruct (pending_loop_step _ _ k0 Hw0 eq_refl) as (H1 & H2 & H3 & H4 & _).
  pose proof (times_pending_loop (length (al_items (elist k0 EPending))) k0) as Ht.
  set (k1 := pending_loop (length (al_items (elist k0 EPending))) k0) in *. cbv zeta.
  set (k2 := match al_items (elist k0 EPending) with [] => k1 | _ :: _ => prvResetNextTaskUnblockTime k1 end).
  assert (next_ahead k2 /\ lists_wf None (xTickCount k) k2 /\ xTickCount k2 = xTickCount k
    /\ uxSchedulerSuspended k2 = 0 /\ al_items (elist k2 EPending) = []) as (A2 & W2 & T2 & S2 & P2).
  { assert (xTickCount k1 = xTickCount k) as T1 by (rewrite H3; done). unfold k2.
    destruct (al_items (elist k0 EPending)).
    - split; [exact (next_ahead_times k0 k1 Ht Ha)|]. rewrite E in H4. done.
    - split; [apply reset_ahead; by rewrite T1|]. split; [by apply wf_reset_next|]. rewrite E in H4.
      unfold prvResetNextTaskUnblockTime. by destruct (al_items (slist k1 (pxDelayedTaskList k1))). }
  assert (core_wf k2) as C2 by (split; rewrite T2; [done|apply Hc]).
  pose proof (pended_ahead (Z.to_nat (xPendedTicks k2)) k2 C2 S2 P2 A2) as A3.
  by destruct (xYieldPending _).
Qed.

Lemma block_ahead ticks k :
  kernel_wf k -> 0 < ticks < 4294967296 -> next_ahead k ->
  next_ahead (prvAddCurrentTaskToDelayedList ticks k).
Proof.
  intros Hk Ht Ha. pose proof (kw_tick k (kw_core k Hk)) as Hn. unfold prvAddCurrentTaskToDelayedList.
  pose proof (times_remove_state (pxCurrentTCB k) k) as E1.
  destruct (remove_state (pxCurrentTCB k) k) as [k1 r]. cbn [fst] in E1. cbv zeta.
  match goal with |- context [set_state_value _ _ ?x] =>
    assert (times x = times k) as E2 by (rewrite <-E1; by case_match); set (k2 := set_state_value (pxCurrentTCB k) (u32 (xTickCount k + ticks)) x) in * end.
  assert (times k2 = times k) as E3 by exact E2.
  destruct (Z.ltb_spec (u32 (xTickCount k + ticks)) (xTickCount k)) as [Hlt|Hge].
  - apply (next_ahead_times k); [|done]. by rewrite times_insert_state.
  - assert (times (insert_state (pxDelayedTaskList k2) (pxCurrentTCB k) k2) = times k) as E4
      by (by rewrite times_insert_state).
    generalize dependent (insert_state (pxDelayedTaskList k2) (pxCurrentTCB k) k2). intros k3 E4.
    destruct (_ <? xNextTaskUnblockTime _); [|by apply (next_ahead_times k)].
    left. apply (f_equal fst) in E4. cbn [fst times] in E4.
    change (xTickCount k3 < u32 (xTickCount k + ticks)). rewrite E4. word.
Qed.

Lemma times_remove_from_event_list e k : times (fst (xTaskRemoveFromEventList e k)) = times k.
Proof.
  unfold xTaskRemoveFromEventList. destruct (al_items (elist k e)) as [|z l]; [done|].
  match goal with |- context [uxPriority (tcb ?x (pxCurrentTCB ?x)) <? _] => transitivity (times x) end;
    [by case_match|].
  rewrite <-(times_remove_event z k). destruct (_ =? 0); [|done].
  by rewrite times_add_ready, times_remove_state.
Qed.

Lemma times_inherit m k : times (fst (xTaskPriorityInherit m k)) = times k.
Proof.
  unfold xTaskPriorityInherit. destruct m as [m|]; [|done]. cbv zeta. case_match; [|done].
  match goal with |- context [is_member _ (slist ?x _)] => assert (times x = times k) as E by (by case_match) end.
  revert E. match goal with |- context [is_member _ (slist ?x _)] => generalize x end. intros k1 E.
  case_match; [|exact E]. pose proof (times_remove_state m k1) as E1.
  destruct (remove_state m k1) as [k2 r]. cbn [fst] in *. rewrite times_add_ready, <-E, <-E1. by case_match.
Qed.

Lemma times_disinherit m k k' b : xTaskPriorityDisinherit m k = Some (k', b) -> times k' = times k.
Proof.
  unfold xTaskPriorityDisinherit. destruct m as [t|]; [|by intros [= <- _]].
  case_match; [done|]. cbv zeta. case_match; [by intros [= <- _]|].
  pose proof (times_remove_state t (set_mutexes t (u32 (uxMutexesHeld (tcb k t) - 1)) k)) as E1.
  destruct (remove_state _ _) as [k2 r]. cbn [fst] in *. intros [= <- _].
  rewrite times_add_ready. transitivity (times k2); [by case_match|exact E1].
Qed.

Lemma times_switch k k' : xPortPendSVHandler k = Some k' -> times k' = times k.
Proof.
  unfold xPortPendSVHandler, vTaskSwitchContext, taskSELECT_HIGHEST_PRIORITY_TASK.
  case_match; [|by intros [= <-]]. case_match; [|done]. intros [= <-].
  unfold set_current, times. pose proof (times_set_slist (SReady (Z.to_nat (portGET_HIGHEST_PRIORITY
    (set_yield false (xPendSV (set_yield (xYieldPending k) false k)) (set_yield (xYieldPending k) false k)))))
    (fun a => fst (al_next a)) (set_yield false (xPendSV (set_yield (xYieldPending k) false k))
    (set_yield (xYieldPending k) false k))) as E. exact E.
Qed.

Lemma kstep_ahead o k k' :
  kernel_wf k -> kop_ok o k -> kstep o k = Some k' -> next_ahead k -> next_ahead k'.
Proof.
  intros Hk Ho Hs Ha. destruct o; cbn [kstep] in Hs.
  - injection Hs as <-. by apply tick_ahead.
  - by apply times_switch, next_ahead_times in Hs.
  - by injection Hs as <-.
  - injection Hs as <-. by apply resume_ahead.
  - injection Hs as <-. apply block_ahead; [done|apply Ho|done].
  - injection Hs as <-. unfold vTaskPlaceOnEventList, insert_event. rewrite delay_set_elist.
    apply (next_ahead_times (prvAddCurrentTaskToDelayedList ticks k)); [done|].
    apply block_ahead; [done|apply Ho|done].
  - injection Hs as <-. apply (next_ahead_times k); [apply times_remove_from_event_list|done].
  - by injection Hs as <-.
  - apply Some_inj in Hs as <-. apply (next_ahead_times k); [apply times_inherit|done].
  - destruct (xTaskPriorityDisinherit _ k) as [[k1 b]|] eqn:E; [|done]. injection Hs as <-.
    by apply times_disinherit, next_ahead_times in E.
  - by injection Hs as <-.
  - apply (next_ahead_times k); [|done]. unfold xTaskCreateStatic, prvInitialiseNewTask in Hs.
    destruct (priority <? configMAX_PRIORITIES); [|done]. apply Some_inj in Hs as <-.
    destruct Ho as (Hru & Hc & _). unfold prvAddNewTaskToReadyList.
    set (k1 := set_tcbs (insert task (mkTCB priority priority 0 0 (event_value_for priority))) k).
    change (pxCurrentTCB k1) with (pxCurrentTCB k). rewrite (proj2 (Z.eqb_neq _ _)) by done.
    change (xSchedulerRunning k1) with (xSchedulerRunning k). rewrite Hru. cbn [negb andb].
    change (times k) with (times k1). rewrite <-(times_add_ready task k1). by case_match.
Qed.

Lemma run_ahead os k k' n : run os k k' n -> kernel_wf k -> next_ahead k -> next_ahead k'.
Proof.
  induction 1 as [|o os k k1 k2 n Hok Hs Hr IH]; intros Hk Ha; [done|].
  destruct (kstep_ok o k Hk Hok) as (k1' & Hs' & Hk1 & _). simplify_eq.
  apply IH; [done|]. exact (kstep_ahead o k _ Hk Hok Hs Ha).
Qed.

Lemma boot_ahead ts idle k : boot ts idle = Some k -> next_ahead k.
Proof.
  unfold boot, vTaskStartScheduler. intros E. right.
  destruct (create_tasks ts kernel_zero) as [k1|]; [|done].
  destruct (xTaskCreateStatic idle 0 k1) as [k2|]; [|done]. by apply Some_inj in E as <-.
Qed.

(** ** Properties *)

(** C15. The scheduler's structures stay consistent.  From the state in which
    [vTaskStartScheduler] leaves the kernel, after any sequence of tick
    interrupts, context switches, suspensions and resumptions of the scheduler,
    delays, waits on event lists, wake-ups, mutex accounting, priority
    inheritance and disinheritance, new event lists and new tasks, each as the
    kernel permits it: every task is in exactly one state list, a ready task in the list of its
    priority, the bitmap marks exactly the nonempty ready lists, the delayed lists
    are sorted by wake time and separate the wake times before and after the wrap
    of the tick count, [xNextTaskUnblockTime] is not later than the wake time of
    any task in the current delayed list and is later than the tick count (or is
    the value for an empty list), and a task is in at most one event list and then
    in a delayed list too; and every permitted one of these steps can be taken: no
    assertion of the kernel stops it.  Not among the steps is
    [vTaskPriorityDisinheritAfterTimeout], the step of a mutex take that times
    out while it lent its priority, which does break the bitmap:
    [mutex_timeout_leaves_stale_ready_bit]. *)
Theorem scheduler_invariant ts idle k0 os k n :
  tasks_ok ts idle -> boot ts idle = Some k0 -> run os k0 k n ->
  kernel_wf k /\ next_ahead k /\ forall o, kop_ok o k -> is_Some (kstep o k).
Proof.
  intros Ht Hb Hr. destruct (boot_wf ts idle Ht) as (k1 & Hb1 & Hk1 & _).
  simplify_eq. pose proof (run_wf _ _ _ _ Hr Hk1) as Hk. split; [done|].
  split; [eapply run_ahead; [done|done|]; by eapply boot_ahead|].
  intros o Ho. destruct (kstep_ok o k Hk Ho) as (k' & -> & _). eauto.
Qed.

(** C19. A delayed task wakes on time.  When the running task delays itself for
    [d] ticks, 0 < d < 2^32, then whatever the kernel does next (other tasks
    delaying, waiting, waking each other, changing priorities, the scheduler
    being suspended with ticks pending, the tick count wrapping around), the task
    is not ready as long as fewer than [d] ticks are processed, and the step that
    processes the [d]-th tick makes it ready. *)
Theorem delayed_task_wakes_on_time d k os k1 m :
  kernel_wf k -> kop_ok (KBlock d) k -> (forall e, ~ inE k e (pxCurrentTCB k)) ->
  run os (prvAddCurrentTaskToDelayedList d k) k1 m -> m < d ->
  let t := pxCurrentTCB k in
  waiting k1 t /\ ~ ready k1 t /\ remaining k1 t = d - m /\
  forall o k2, kop_ok o k1 -> kstep o k1 = Some k2 -> d <= m + ticks_of o k1 -> ready k2 t.
Proof.
  intros Hk (Hs & Hd & Hr) He Hrun Hm. cbv zeta. pose proof (kw_core k Hk) as [Hw Hn].
  pose proof Hr as [p Hp].
  destruct (moves_delay _ _ _ _ Hw eq_refl Hn Hd Hp) as (_ & Hwt & Hrem & Hev).
  destruct (block_step k d Hk) as [Hk' _]; [done|].
  set (k' := prvAddCurrentTaskToDelayedList d k) in *.
  destruct (run_waits _ _ _ _ (pxCurrentTCB k) Hrun Hk' Hwt) as (A1 & A2 & A3);
    [intros e; rewrite Hev; apply He|lia|].
  pose proof (run_wf _ _ _ _ Hrun Hk') as Hk1. split_and!; [done| |lia|].
  - intros [q Hq]. by apply (ready_not_waiting _ _ _ _ _ (kw_lists _ (kw_core _ Hk1)) Hq).
  - intros o k2 Ho Hs2 Ht. destruct (kstep_ok o k1 Hk1 Ho) as (k2' & Hs2' & _ & Ha). simplify_eq.
    specialize (Ha _ A1 A3). rewrite (proj2 (Z.ltb_ge _ _)) in Ha by lia. exact Ha.
Qed.

(** ** Round robin *)

(** The order in which the items will be served: from the one after the index. *)
Definition service (a : alist) : list Z :=
  match al_index a with
  | None => al_items a
  | Some i => let '(l, r) := split_at i (al_items a) in tail r ++ l ++ [i]
  end.

Lemma service_perm a : alist_ok a -> service a ≡ₚ al_items a.
Proof.
  intros [Hd Hi]. unfold service. destruct (al_index a) as [i|]; [|done].
  destruct (split_at_in i (al_items a) (Hi i eq_refl)) as (l & r & -> & Hl & _). cbn [tail].
  rewrite Hl, app_assoc, (Permutation_app_comm r l), <- app_assoc.
  by rewrite (Permutation_app_comm r [i]).
Qed.

Lemma service_next a x s :
  alist_ok a -> service a = x :: s -> snd (al_next a) = Some x /\ service (fst (al_next a)) = s ++ [x].
Proof.
  intros [Hd Hi] Hs. unfold service in Hs. unfold al_next. cbn [fst snd].
  destruct (al_index a) as [i|] eqn:Ei.
  - destruct (split_at_in i (al_items a) (Hi i eq_refl)) as (l & r & Esp & Hl & Hil). rewrite Esp in Hs |- *.
    cbn [snd tail] in *. rewrite Hl in Hd. apply NoDup_app in Hd as (Hd1 & Hd2 & [Hd3 Hd4]%NoDup_cons).
    destruct r as [|y r].
    + destruct l as [|z l]; cbn [app] in Hs; injection Hs as -> <-; rewrite Hl; cbn [app head];
        (split; [done|]); unfold service; cbn [al_index al_items]; unfold split_at; cbn;
        rewrite Z.eqb_refl; done.
    + injection Hs as -> <-. split; [done|]. unfold service. cbn [al_index al_items]. rewrite Hl.
      replace (l ++ i :: x :: r) with ((l ++ [i]) ++ x :: r) by (by rewrite <- app_assoc).
      assert (x ∉ l ++ [i]) as Hx.
      { rewrite elem_of_app, list_elem_of_singleton. intros [Hx| ->].
        - apply (Hd2 x Hx). apply list_elem_of_further, list_elem_of_here.
        - apply Hd3, list_elem_of_here. }
      rewrite split_at_mid by done. cbn [tail]. by rewrite <- !app_assoc.
  - rewrite Hs. split; [done|]. unfold service. cbn [al_index al_items].
    unfold split_at. cbn. by rewrite Z.eqb_refl.
Qed.

(** The tasks that run after [n] context switches in a row. *)
Fixpoint switches (n : nat) (k : kernel) : option (list Z) :=
  match n with
  | O => Some []
  | S n =>
    match xPortPendSVHandler k with
    | None => None
    | Some k => match switches n k with None => None | Some ts => Some (pxCurrentTCB k :: ts) end
    end
  end.

(** The ready list the context switch serves. *)
Definition top_list (k : kernel) : alist := slist k (SReady (Z.to_nat (portGET_HIGHEST_PRIORITY k))).

Lemma switch_service k x s :
  kernel_wf k -> uxSchedulerSuspended k = 0 -> (exists t, ready k t) -> service (top_list k) = x :: s ->
  exists k', xPortPendSVHandler k = Some k' /\ kernel_wf k' /\ uxSchedulerSuspended k' = 0 /\
    pxCurrentTCB k' = x /\ service (top_list k') = s ++ [x] /\ (exists t, ready k' t).
Proof.
  intros Hk Hs Hr Hx. destruct (switch_step k Hk Hr) as (k' & E & Hk' & HS & _ & _ & _ & Hsu & _).
  exists k'. split; [done|]. pose proof (kw_lists _ (kw_core _ Hk)) as Hw.
  assert (Hv : valid k (SReady (Z.to_nat (portGET_HIGHEST_PRIORITY k)))).
  { destruct (highest_priority _ _ k Hw Hr) as (_ & [u Hu] & _). by eapply wf_valid. }
  destruct (service_next (top_list k) x s (w_slists _ _ _ Hw _) Hx) as [Hn1 Hn2].
  assert (Ek : pxCurrentTCB k' = x /\ top_list k' = fst (al_next (top_list k))).
  { revert E. unfold xPortPendSVHandler, vTaskSwitchContext.
    change (uxSchedulerSuspended (set_yield (xYieldPending k) false k)) with (uxSchedulerSuspended k).
    rewrite Hs, Z.eqb_refl. unfold taskSELECT_HIGHEST_PRIORITY_TASK.
    set (k0 := set_yield _ _ _).
    change (portGET_HIGHEST_PRIORITY k0) with (portGET_HIGHEST_PRIORITY k).
    change (slist k0) with (slist k). fold (top_list k). rewrite Hn1. intros E'%(inj Some). rewrite <- E'.
    split; [done|]. unfold top_list at 1. set (l := SReady (Z.to_nat (portGET_HIGHEST_PRIORITY k))) in *.
    slist_rest k0 l (fun a => fst (al_next a)).
    assert (portGET_HIGHEST_PRIORITY (set_current x (set_slist l (fun a => fst (al_next a)) k0)) =
      portGET_HIGHEST_PRIORITY k) as ->.
    { unfold portGET_HIGHEST_PRIORITY. cbn [set_current uxTopReadyPriority]. by rewrite Rp. }
    fold l. change (slist (set_slist l (fun a => fst (al_next a)) k0) l = fst (al_next (top_list k))).
    rewrite slist_set by exact Hv. by rewrite decide_True. }
  destruct Ek as [E1 E2]. split_and!; [done|congruence|done|by rewrite E2|].
  destruct Hr as [t [p Hp]]. exists t, p. by apply HS.
Qed.

Lemma switches_service s1 s2 k :
  kernel_wf k -> uxSchedulerSuspended k = 0 -> (exists t, ready k t) -> service (top_list k) = s1 ++ s2 ->
  switches (length s1) k = Some s1.
Proof.
  revert s2 k; induction s1 as [|x s1 IH]; intros s2 k Hk Hs Hr Hx; [done|].
  destruct (switch_service k x (s1 ++ s2) Hk Hs Hr Hx) as (k' & E & Hk' & Hs' & Hc & Hsv & Hr').
  cbn [length switches]. rewrite E. rewrite (IH (s2 ++ [x]) k'); [by rewrite Hc|done|done|done|].
  by rewrite Hsv, <- app_assoc.
Qed.

(** C23. The context switch runs the most urgent task and shares the processor:
    with the scheduler running, the task it selects is ready and no ready task has
    a higher priority; and as many switches in a row as there are ready tasks of
    that priority run each of them exactly once. *)
Theorem context_switch_priority_and_turns k k' :
  kernel_wf k -> uxSchedulerSuspended k = 0 -> (exists t, ready k t) -> xPortPendSVHandler k = Some k' ->
  ready k (pxCurrentTCB k') /\
  (forall t, ready k t -> uxPriority (tcb k t) <= uxPriority (tcb k (pxCurrentTCB k'))) /\
  exists ts, switches (length (al_items (top_list k))) k = Some ts /\ NoDup ts /\
    forall t, t ∈ ts <-> ready k t /\ uxPriority (tcb k t) = uxPriority (tcb k (pxCurrentTCB k')).
Proof.
  intros Hk Hs Hr E. pose proof (kw_lists _ (kw_core _ Hk)) as Hw.
  destruct (switch_step k Hk Hr) as (k1 & E1 & _ & _ & _ & _ & _ & _ & Hmax). simplify_eq.
  destruct (Hmax Hs) as [H1 H2]. split_and!; [done|done|].
  pose proof (w_slists _ _ _ Hw (SReady (Z.to_nat (portGET_HIGHEST_PRIORITY k)))) as Hok.
  pose proof (service_perm (top_list k) Hok) as Hp.
  exists (service (top_list k)). rewrite <- (Permutation_length Hp). split_and!.
  - apply switches_service with []; [done..|]. by rewrite app_nil_r.
  - rewrite Hp. apply Hok.
  - intros t. rewrite Hp. destruct (highest_priority _ _ k Hw Hr) as (Hb & [u Hu] & Htop).
    set (p := portGET_HIGHEST_PRIORITY k) in *.
    assert (Hcur : uxPriority (tcb k (pxCurrentTCB k')) = p).
    { destruct H1 as [q Hq]. pose proof (Htop q _ Hq). rewrite (w_prio _ _ _ Hw _ _ Hq).
      pose proof (H2 u ltac:(by eexists)) as Hle. rewrite (w_prio _ _ _ Hw _ _ Hu), (w_prio _ _ _ Hw _ _ Hq) in Hle. lia. }
    rewrite Hcur. change (t ∈ al_items (top_list k)) with (inS k (SReady (Z.to_nat p)) t). split.
    + intros Ht. split; [by eexists|]. rewrite (w_prio _ _ _ Hw _ _ Ht). lia.
    + intros [[q Hq] Hx]. rewrite (w_prio _ _ _ Hw _ _ Hq) in Hx. by replace (Z.to_nat p) with q by lia.
Qed.

(** ** Concrete runs *)

(** The conditions of a step, as a test. *)
Definition ready_b (k : kernel) (t : Z) : bool :=
  existsb (fun p => is_member t (slist k (SReady p))) (seq 0 5).

Definition kop_ok_b (o : kop) (k : kernel) : bool :=
  match o with
  | KTick | KHold => true
  | KSwitch => existsb (fun p => existsb (fun _ => true) (al_items (slist k (SReady p)))) (seq 0 5)
  | KSuspendAll => uxSchedulerSuspended k <? 4294967295
  | KResumeAll => 0 <? uxSchedulerSuspended k
  | KBlock ticks =>
    (0 <? uxSchedulerSuspended k) && (0 <? ticks) && (ticks <? 4294967296) && ready_b k (pxCurrentTCB k)
  | KPlace e ticks =>
    (0 <? uxSchedulerSuspended k) && (0 <? ticks) && (ticks <? 4294967296) && ready_b k (pxCurrentTCB k) &&
    bool_decide (is_Some (events k !! e)) &&
    bool_decide (map_Forall (fun _ a => pxCurrentTCB k ∉ al_items a) (events k))
  | KUnblock e => negb (bool_decide (e = EPending)) && existsb (fun _ => true) (al_items (elist k e))
  | KInherit m => bool_decide (is_Some (tcbs k !! m))
  | KDisinherit => ready_b k (pxCurrentTCB k) && (0 <? uxMutexesHeld (tcb k (pxCurrentTCB k))) &&
    (0 <=? uxBasePriority (tcb k (pxCurrentTCB k))) &&
    (uxBasePriority (tcb k (pxCurrentTCB k)) <? configMAX_PRIORITIES)
  | KNewList e => bool_decide (events k !! e = None)
  | KCreate t p => xSchedulerRunning k && negb (pxCurrentTCB k =? 0) && bool_decide (tcbs k !! t = None) &&
    (0 <=? p) && (p <? configMAX_PRIORITIES)
  end.

Lemma ready_b_sound k t : ready_b k t = true -> ready k t.
Proof.
  intros H. apply existsb_exists in H as (p & _ & H). exists p. by apply bool_decide_eq_true in H.
Qed.

Lemma nonempty_b (l : list Z) : existsb (fun _ => true) l = true -> exists t, t ∈ l.
Proof. destruct l as [|t l]; [done|]. intros _. exists t. apply list_elem_of_here. Qed.

Lemma no_event_lists k t :
  map_Forall (fun _ a => t ∉ al_items a) (events k) -> forall e, ~ inE k e t.
Proof.
  intros H e Hx. unfold inE, elist in Hx. destruct (events k !! e) as [a|] eqn:E.
  - by apply (H e a E) in Hx.
  - by apply elem_of_nil in Hx.
Qed.

Lemma kop_ok_b_sound o k : kop_ok_b o k = true -> kop_ok o k.
Proof.
  destruct o; cbn [kop_ok_b kop_ok]; rewrite ?andb_true_iff, ?Z.ltb_lt, ?bool_decide_eq_true; try done.
  - intros (p & _ & H)%existsb_exists. apply nonempty_b in H as [t Ht]. by exists t, p.
  - intros [[[? ?] ?] ?%ready_b_sound]. done.
  - intros [[[[[? ?] ?] ?%ready_b_sound] ?] Hno]. split_and!; [done..|by apply no_event_lists].
  - intros [H1 H2]. apply nonempty_b in H2 as [t Ht]. split; [|by exists t].
    by apply negb_true_iff, bool_decide_eq_false in H1.
  - intros [[[?%ready_b_sound ?] ?] ?]. rewrite Z.leb_le in *. done.
  - intros [[[[? H%negb_true_iff%Z.eqb_neq] ?] ?%Z.leb_le] ?]. done.
Qed.

(** Runs a sequence of steps, checking that each is permitted. *)
Fixpoint check_run (os : list kop) (k : kernel) : option (kernel * Z) :=
  match os with
  | [] => Some (k, 0)
  | o :: os =>
    if kop_ok_b o k then
      match kstep o k with
      | None => None
      | Some k1 => match check_run os k1 with None => None | Some (k2, n) => Some (k2, ticks_of o k + n) end
      end
    else None
  end.

Lemma check_run_sound os k k' n : check_run os k = Some (k', n) -> run os k k' n.
Proof.
  revert k n; induction os as [|o os IH]; intros k n; cbn [check_run].
  - intros [= <- <-]. constructor.
  - destruct (kop_ok_b o k) eqn:Ho; [|done]. destruct (kstep o k) as [k1|] eqn:Hs; [|done].
    destruct (check_run os k1) as [[k2 m]|] eqn:Hr; [|done]. intros [= <- <-].
    econstructor; [by apply kop_ok_b_sound|done|auto].
Qed.

(** Without waiting tasks the clock can stand anywhere. *)
Lemma kernel_at_tick k tick :
  kernel_wf k -> (forall t, ~ waiting k t) -> is_u32 tick ->
  kernel_wf (set_time tick (xPendedTicks k) (xNextTaskUnblockTime k) k).
Proof.
  intros Hk Hn Ht. destruct Hk as [[Hw Hu] H2 H3 H4 H5]. split; try done. split; [|done].
  assert (forall t, inS k (pxDelayedTaskList k) t \/ inS k (pxOverflowDelayedTaskList k) t -> False) as Hno.
  { intros t Hx. apply (Hn t). by apply waiting_in; [apply (w_cur _ _ _ Hw)|]. }
  destruct Hw. split; try done.
  - intros t Hx. exfalso. apply (Hno t). by left.
  - intros t Hx. exfalso. apply (Hno t). by right.
Qed.

Definition sample_tasks : list (Z * Z) := [(100, 1); (200, 3); (300, 1)].
Definition sample_kernel : kernel := default kernel_zero (boot sample_tasks 400).

Lemma sample_tasks_ok : tasks_ok sample_tasks 400.
Proof.
  split_and!; [done|apply (bool_decide_unpack _); vm_compute; exact I| |done].
  repeat constructor; cbn; unfold configMAX_PRIORITIES; lia.
Qed.

Lemma sample_boot : boot sample_tasks 400 = Some sample_kernel.
Proof. vm_compute. reflexivity. Qed.

Lemma scheduler_invariant_witness :
  tasks_ok sample_tasks 400 /\ boot sample_tasks 400 = Some sample_kernel /\
  exists k, run [KSuspendAll; KBlock 2; KTick; KResumeAll; KSwitch] sample_kernel k 1 /\
    kernel_wf k /\ pxCurrentTCB k = 100.
Proof.
  split; [exact sample_tasks_ok|]. split; [exact sample_boot|].
  eexists. assert (Hr : run [KSuspendAll; KBlock 2; KTick; KResumeAll; KSwitch] sample_kernel _ 1)
    by (apply check_run_sound; vm_compute; reflexivity).
  split; [exact Hr|]. split; [|reflexivity].
  apply (scheduler_invariant _ _ _ _ _ _ sample_tasks_ok sample_boot Hr).
Defined.

(** Two ticks before the wrap, with the scheduler suspended by the running task. *)
Definition late_kernel : kernel :=
  Eval vm_compute in vTaskSuspendAll (set_time 4294967294 0 portMAX_DELAY sample_kernel).

Lemma late_kernel_wf : kernel_wf late_kernel.
Proof.
  destruct (boot_wf sample_tasks 400 sample_tasks_ok) as (k & Hb & Hk & _).
  rewrite sample_boot in Hb. injection Hb as Hb. subst k.
  assert (kernel_wf (set_time 4294967294 (xPendedTicks sample_kernel)
    (xNextTaskUnblockTime sample_kernel) sample_kernel)) as H1.
  { apply kernel_at_tick; [done| |unfold is_u32; lia].
    intros t [Ht|Ht]; vm_compute in Ht; by apply elem_of_nil in Ht. }
  destruct (kstep_ok KSuspendAll _ H1) as (k2 & E & Hk2 & _); [vm_compute; reflexivity|].
  vm_compute in E. injection E as <-. exact Hk2.
Qed.

(** A delay of four ticks that crosses the wrap, the last tick but one while the
    scheduler is suspended again by another task. *)
Lemma delayed_task_wakes_on_time_witness :
  kernel_wf late_kernel /\ kop_ok (KBlock 4) late_kernel /\
  exists k1 k2, run [KResumeAll; KSwitch; KTick; KTick; KSuspendAll; KTick; KTick]
      (prvAddCurrentTaskToDelayedList 4 late_kernel) k1 2 /\
    xTickCount k1 = 0 /\ ~ ready k1 200 /\ kstep KResumeAll k1 = Some k2 /\ ready k2 200.
Proof.
  assert (Hok : kop_ok (KBlock 4) late_kernel) by (apply kop_ok_b_sound; vm_compute; reflexivity).
  split; [exact late_kernel_wf|]. split; [exact Hok|].
  assert (Hno : forall e, ~ inE late_kernel e (pxCurrentTCB late_kernel)).
  { apply no_event_lists. apply (bool_decide_unpack _). vm_compute. exact I. }
  eexists. assert (Hr : run [KResumeAll; KSwitch; KTick; KTick; KSuspendAll; KTick; KTick]
      (prvAddCurrentTaskToDelayedList 4 late_kernel) _ 2) by (apply check_run_sound; vm_compute; reflexivity).
  destruct (delayed_task_wakes_on_time 4 late_kernel _ _ 2 late_kernel_wf Hok Hno Hr)
    as (_ & Hn & _ & Hwake); [lia|].
  eexists. split_and!; [exact Hr|reflexivity|exact Hn|reflexivity|].
  apply (Hwake KResumeAll); [apply kop_ok_b_sound; vm_compute; reflexivity|reflexivity|].
  vm_compute. discriminate.
Defined.

(** The two tasks of priority 1 of the sample take turns when the urgent one
    waits. *)
Definition turn_kernel : kernel :=
  Eval vm_compute in fst (xTaskResumeAll (prvAddCurrentTaskToDelayedList 4 late_kernel)).

Lemma turn_kernel_wf : kernel_wf turn_kernel.
Proof.
  destruct (kstep_ok (KBlock 4) late_kernel late_kernel_wf) as (k1 & E1 & Hk1 & _).
  { apply kop_ok_b_sound. vm_compute. reflexivity. }
  cbn [kstep] in E1. injection E1 as <-.
  destruct (kstep_ok KResumeAll _ Hk1) as (k2 & E2 & Hk2 & _); [vm_compute; reflexivity|].
  vm_compute in E2. injection E2 as <-. exact Hk2.
Qed.

Lemma context_switch_priority_and_turns_witness :
  kernel_wf turn_kernel /\ uxSchedulerSuspended turn_kernel = 0 /\
  switches 2 turn_kernel = Some [100; 300] /\ exists k', xPortPendSVHandler turn_kernel = Some k' /\
    ready turn_kernel (pxCurrentTCB k').
Proof.
  split; [exact turn_kernel_wf|]. split; [reflexivity|]. split; [vm_compute; reflexivity|].
  assert (Hr : exists t, ready turn_kernel t) by (exists 100; apply ready_b_sound; vm_compute; reflexivity).
  destruct (switch_step turn_kernel turn_kernel_wf Hr) as (k' & E & _).
  exists k'. split; [exact E|].
  apply (context_switch_priority_and_turns turn_kernel k' turn_kernel_wf eq_refl Hr E).
Defined.

(** ** A stale ready bit *)

(** A low task 100 (priority 1), a middle task 200 (2) and an urgent task 300 (3). *)
Definition mutex_tasks : list (Z * Z) := [(100, 1); (200, 2); (300, 3)].
Definition mutex_kernel : kernel := Eval vm_compute in default kernel_zero (boot mutex_tasks 400).

(** The critical sections of a task that blocks on a mutex held by [m]. *)
Definition blocks_on (m : Z) (e : event_list) (ticks : Z) : list kop :=
  [KSuspendAll; KInherit m; KPlace e ticks; KResumeAll; KSwitch].
Definition delays (ticks : Z) : list kop := [KSuspendAll; KBlock ticks; KResumeAll; KSwitch].

(** 200 takes one mutex, 100 another one; 200 waits for five ticks for the mutex
    of 100, which inherits priority 2; 300 then waits for the mutex of 200, which
    inherits priority 3 while it is blocked; the five ticks pass and 200 runs. *)
Definition timeout_run : list kop :=
  [KNewList (EEvent 1); KNewList (EEvent 2)] ++ delays 2 ++ [KHold] ++ delays 1 ++ [KHold; KTick; KSwitch] ++
  blocks_on 100 (EEvent 1) 5 ++ [KTick; KSwitch] ++ blocks_on 200 (EEvent 2) 100 ++
  [KTick; KTick; KTick; KTick; KSwitch].

Fixpoint ksteps (os : list kop) (k : kernel) : option kernel :=
  match os with
  | [] => Some k
  | o :: os => match kstep o k with None => None | Some k => ksteps os k end
  end.

(** What [xQueueSemaphoreTake] does when its time is over: nobody else waits for
    the mutex of 100, so the priority to keep is 0. *)
Definition after_timeout (k : kernel) : option kernel :=
  vTaskPriorityDisinheritAfterTimeout (Some 100) 0 k.

(** C40. A timeout on a mutex can leave the scheduler's bitmap inconsistent and
    stop the program.  The run of the kernel's critical sections described at
    [timeout_run] is one the kernel permits, and the structures are consistent at
    its end; there [vTaskPriorityDisinheritAfterTimeout] takes the low task out of
    the ready list of priority 2, which becomes empty, but clears the bit of the
    priority it has just assigned instead of the one it leaves: bit 2 stays set.
    When the running task next delays itself, the context switch looks for a task
    of priority 2 and stops in its assertion.  (Every wait of the firmware on a
    mutex uses [portMAX_DELAY], which is finite in its configuration.) *)
Theorem mutex_timeout_leaves_stale_ready_bit :
  exists k k', run timeout_run mutex_kernel k 6 /\ kernel_wf k /\ pxCurrentTCB k = 200 /\
    after_timeout k = Some k' /\
    Z.testbit (uxTopReadyPriority k') 2 = true /\ al_items (slist k' (SReady 2)) = [] /\
    ksteps [KSuspendAll; KBlock 3; KResumeAll] k' <> None /\ ksteps (delays 3) k' = None.
Proof.
  eexists. assert (Hr : run timeout_run mutex_kernel _ 6) by (apply check_run_sound; vm_compute; reflexivity).
  eexists. split_and!; [exact Hr| |reflexivity|vm_compute; reflexivity|reflexivity|reflexivity|..].
  - apply (run_wf _ _ _ _ Hr). destruct (boot_wf mutex_tasks 400) as (k & Hb & Hk & _).
    + split_and!; [done|apply (bool_decide_unpack _); vm_compute; exact I| |done].
      repeat constructor; cbn; unfold configMAX_PRIORITIES; lia.
    + vm_compute in Hb. injection Hb as <-. exact Hk.
  - vm_compute. discriminate.
  - vm_compute. reflexivity.
Qed.
