(* ===== verification/KernelQueue.v ===== *)
(** * Queues, semaphores and mutexes ([FreeRTOS-Kernel/queue.c])

    A queue is the control block and the bytes of its storage area; the pointers
    into the storage are offsets from its start.  A semaphore is a queue whose
    items have no bytes, a mutex one whose [pcHead] is [NULL] and whose union
    holds the holder and the recursion count.  The tasks waiting for a queue are
    in two event lists of the scheduler ([KernelTasks]).

    The functions that may block are loops around two sections in which no other
    task runs: the attempt, a critical section, and the decision to block, with
    the scheduler suspended.  Each section is a definition ([send_attempt],
    [receive_attempt], [take_attempt], [block_section]); the loop is a state
    machine over them, between whose steps other tasks and interrupts act.

    The theorems: the storage implements a bounded sequence of items with both
    ends writable, with every copy inside the storage; a recursive mutex
    implements a recursive lock, for any interleaving; a blocking call gives up
    only after its time. *)

From S2P Require Import Prelude KernelList KernelTasks.
From stdpp Require Import list gmap.
#[local] Open Scope Z_scope.

(** ** State *)

Definition queueUNLOCKED : Z := -1.
Definition queueLOCKED_UNMODIFIED : Z := 0.
Definition queueINT8_MAX : Z := 127.

Inductive position := queueSEND_TO_BACK | queueSEND_TO_FRONT | queueOVERWRITE.
#[global] Instance position_eq_dec : EqDecision position.
Proof. solve_decision. Defined.

(** The union [u]: the member last written. *)
Inductive queue_union :=
| xQueue (pcTail pcReadFrom : Z)
| xSemaphore (xMutexHolder : option Z) (uxRecursiveCallCount : Z).

Record Queue := mkQueue {
  (** [None] is [NULL], the mark of a mutex; otherwise the start of the storage. *)
  pcHead : option Z;
  pcWriteTo : Z;
  u : queue_union;
  xTasksWaitingToSend : event_list;
  xTasksWaitingToReceive : event_list;
  uxMessagesWaiting : Z;
  uxLength : Z;
  uxItemSize : Z;
  cRxLock : Z;
  cTxLock : Z;
  storage : bytes
}.

Definition is_mutex (q : Queue) : bool := match pcHead q with None => true | Some _ => false end.
Definition head_of (q : Queue) : Z := default 0 (pcHead q).
Definition pcTail (q : Queue) : Z := match u q with xQueue t _ => t | xSemaphore _ _ => 0 end.
Definition pcReadFrom (q : Queue) : Z := match u q with xQueue _ r => r | xSemaphore _ _ => 0 end.
Definition xMutexHolder (q : Queue) : option Z :=
  match u q with xQueue _ _ => None | xSemaphore h _ => h end.
Definition uxRecursiveCallCount (q : Queue) : Z :=
  match u q with xQueue _ _ => 0 | xSemaphore _ n => n end.

Definition set_write (p : Z) (bs : bytes) (q : Queue) : Queue :=
  mkQueue (pcHead q) p (u q) (xTasksWaitingToSend q) (xTasksWaitingToReceive q) (uxMessagesWaiting q)
    (uxLength q) (uxItemSize q) (cRxLock q) (cTxLock q) bs.
Definition set_union (x : queue_union) (bs : bytes) (q : Queue) : Queue :=
  mkQueue (pcHead q) (pcWriteTo q) x (xTasksWaitingToSend q) (xTasksWaitingToReceive q)
    (uxMessagesWaiting q) (uxLength q) (uxItemSize q) (cRxLock q) (cTxLock q) bs.
Definition set_waiting (n : Z) (q : Queue) : Queue :=
  mkQueue (pcHead q) (pcWriteTo q) (u q) (xTasksWaitingToSend q) (xTasksWaitingToReceive q) n
    (uxLength q) (uxItemSize q) (cRxLock q) (cTxLock q) (storage q).
Definition set_locks (rx tx : Z) (q : Queue) : Queue :=
  mkQueue (pcHead q) (pcWriteTo q) (u q) (xTasksWaitingToSend q) (xTasksWaitingToReceive q)
    (uxMessagesWaiting q) (uxLength q) (uxItemSize q) rx tx (storage q).

(** [memcpy] into the storage and out of it; [None] outside its bounds. *)
Definition copy_in (st : bytes) (off : Z) (item : bytes) : option bytes :=
  if (0 <=? off) && (off + Z.of_nat (length item) <=? Z.of_nat (length st))
  then Some (take (Z.to_nat off) st ++ item ++ drop (Z.to_nat off + length item) st)
  else None.
Definition copy_out (st : bytes) (off n : Z) : option bytes :=
  if (0 <=? off) && (0 <=? n) && (off + n <=? Z.of_nat (length st))
  then Some (take (Z.to_nat n) (drop (Z.to_nat off) st))
  else None.

(** ** Items *)

Definition prvIsQueueEmpty (q : Queue) : bool := uxMessagesWaiting q =? 0.
Definition prvIsQueueFull (q : Queue) : bool := uxMessagesWaiting q =? uxLength q.

(** The item is the caller's [uxItemSize] bytes. *)
Definition prvCopyDataToQueue (item : bytes) (xPosition : position) (q : Queue) (k : kernel)
  : option (Queue * kernel * bool) :=
  let waiting := uxMessagesWaiting q in
  if uxItemSize q =? 0 then
    if is_mutex q then
      match xTaskPriorityDisinherit (xMutexHolder q) k with
      | None => None
      | Some (k, xReturn) =>
        let q := set_union (xSemaphore None (uxRecursiveCallCount q)) (storage q) q in
        Some (set_waiting (u32 (waiting + 1)) q, k, xReturn)
      end
    else Some (set_waiting (u32 (waiting + 1)) q, k, false)
  else if decide (xPosition = queueSEND_TO_BACK) then
    match copy_in (storage q) (pcWriteTo q) item with
    | None => None
    | Some st =>
      let w := pcWriteTo q + uxItemSize q in
      let q := set_write (if pcTail q <=? w then head_of q else w) st q in
      Some (set_waiting (u32 (waiting + 1)) q, k, false)
    end
  else
    match copy_in (storage q) (pcReadFrom q) item with
    | None => None
    | Some st =>
      let r := pcReadFrom q - uxItemSize q in
      let r := if r <? head_of q then pcTail q - uxItemSize q else r in
      let q := set_union (xQueue (pcTail q) r) st q in
      let waiting := if decide (xPosition = queueOVERWRITE)
                     then if 0 <? waiting then u32 (waiting - 1) else waiting
                     else waiting in
      Some (set_waiting (u32 (waiting + 1)) q, k, false)
    end.

Definition prvCopyDataFromQueue (q : Queue) : option (Queue * bytes) :=
  if uxItemSize q =? 0 then Some (q, [])
  else
    let r := pcReadFrom q + uxItemSize q in
    let r := if pcTail q <=? r then head_of q else r in
    let q := set_union (xQueue (pcTail q) r) (storage q) q in
    match copy_out (storage q) r (uxItemSize q) with
    | None => None
    | Some item => Some (q, item)
    end.

(** ** Creation *)

(** [configASSERT(xReturn != pdFAIL)] stops the program: [None]. *)
Definition xQueueGenericReset (new : bool) (q : Queue) (k : kernel) : option (Queue * kernel) :=
  if (1 <=? uxLength q) && (uxItemSize q <=? 4294967295 / uxLength q) then
    let h := head_of q in
    let q := mkQueue (pcHead q) h
      (xQueue (h + u32 (uxLength q * uxItemSize q)) (h + u32 (u32 (uxLength q - 1) * uxItemSize q)))
      (xTasksWaitingToSend q) (xTasksWaitingToReceive q) 0 (uxLength q) (uxItemSize q)
      queueUNLOCKED queueUNLOCKED (storage q) in
    if new then
      Some (q, vListInitialise_event (xTasksWaitingToReceive q) (vListInitialise_event (xTasksWaitingToSend q) k))
    else
      match al_items (elist k (xTasksWaitingToSend q)) with
      | [] => Some (q, k)
      | _ :: _ =>
        let '(k, yield) := xTaskRemoveFromEventList (xTasksWaitingToSend q) k in
        Some (q, if yield then portYIELD k else k)
      end
  else None.

(** The queue at an address has its event lists there: [xTasksWaitingToSend] at
    offset 16, [xTasksWaitingToReceive] at offset 36. *)
Definition prvInitialiseNewQueue (addr uxQueueLength itemSize : Z) (st : bytes) (k : kernel)
  : option (Queue * kernel) :=
  xQueueGenericReset true
    (mkQueue (Some 0) 0 (xQueue 0 0) (EEvent (addr + 16)) (EEvent (addr + 36)) 0 uxQueueLength itemSize
       0 0 st) k.

(** [pucQueueStorage] is [None] for [NULL]; the assertion on the result stops the
    program when a condition fails. *)
Definition xQueueGenericCreateStatic (addr uxQueueLength itemSize : Z) (pucQueueStorage : option bytes)
    (k : kernel) : option (Queue * kernel) :=
  let given := match pucQueueStorage with Some _ => true | None => false end in
  if (0 <? uxQueueLength) && negb (given && (itemSize =? 0)) && negb (negb given && negb (itemSize =? 0))
  then prvInitialiseNewQueue addr uxQueueLength itemSize (default [] pucQueueStorage) k
  else None.

(** ** Locks and event lists *)

Definition prvLockQueue (q : Queue) : Queue :=
  set_locks (if cRxLock q =? queueUNLOCKED then queueLOCKED_UNMODIFIED else cRxLock q)
    (if cTxLock q =? queueUNLOCKED then queueLOCKED_UNMODIFIED else cTxLock q) q.

(** The loops of [prvUnlockQueue]: a waiting task per item that came or went while
    the queue was locked. *)
Fixpoint unlock_loop (n : nat) (e : event_list) (k : kernel) : kernel :=
  match n with
  | O => k
  | S n =>
    match al_items (elist k e) with
    | [] => k
    | _ :: _ =>
      let '(k, yield) := xTaskRemoveFromEventList e k in
      unlock_loop n e (if yield then set_yield true (xPendSV k) k else k)
    end
  end.

Definition prvUnlockQueue (q : Queue) (k : kernel) : Queue * kernel :=
  let k := unlock_loop (Z.to_nat (cTxLock q)) (xTasksWaitingToReceive q) k in
  let k := unlock_loop (Z.to_nat (cRxLock q)) (xTasksWaitingToSend q) k in
  (set_locks queueUNLOCKED queueUNLOCKED q, k).

(** [prvIncrementQueueTxLock], with [None] for its assertion. *)
Definition prvIncrementQueueTxLock (q : Queue) (k : kernel) : option Queue :=
  if cTxLock q <? uxCurrentNumberOfTasks k then
    if cTxLock q =? queueINT8_MAX then None else Some (set_locks (cRxLock q) (cTxLock q + 1) q)
  else Some q.

(** After an item came: a waiting receiver is unblocked, and a yield requested when
    that or the returned mutex asks for it. *)
Definition signal_receivers (xYieldRequired : bool) (q : Queue) (k : kernel) : kernel :=
  match al_items (elist k (xTasksWaitingToReceive q)) with
  | [] => if xYieldRequired then portYIELD k else k
  | _ :: _ =>
    let '(k, yield) := xTaskRemoveFromEventList (xTasksWaitingToReceive q) k in
    if yield then portYIELD k else k
  end.

Definition signal_senders (q : Queue) (k : kernel) : kernel :=
  match al_items (elist k (xTasksWaitingToSend q)) with
  | [] => k
  | _ :: _ =>
    let '(k, yield) := xTaskRemoveFromEventList (xTasksWaitingToSend q) k in
    if yield then portYIELD k else k
  end.

(** ** Attempts *)

(** The assertions at the start of the calls.  An item of no bytes stands for a
    [NULL] pointer. *)
Definition may_block (ticks : Z) (k : kernel) : bool :=
  match xTaskGetSchedulerState k with taskSCHEDULER_SUSPENDED => ticks =? 0 | _ => true end.
Definition item_given (item : bytes) (q : Queue) : bool :=
  match item with [] => uxItemSize q =? 0 | _ => true end.
Definition may_overwrite (pos : position) (q : Queue) : bool :=
  match pos with queueOVERWRITE => uxLength q =? 1 | _ => true end.

(** The result of a call's critical section: it returns, or goes on to block. *)
Inductive outcome (A : Type) := Returns (a : A) | Waits.
Arguments Returns {A}.
Arguments Waits {A}.

(** Is there room, or will the item be overwritten? *)
Definition send_attempt (item : bytes) (xCopyPosition : position) (q : Queue) (k : kernel)
  : option (Queue * kernel * outcome bool) :=
  if (uxMessagesWaiting q <? uxLength q) || bool_decide (xCopyPosition = queueOVERWRITE) then
    match prvCopyDataToQueue item xCopyPosition q k with
    | None => None
    | Some (q, k, xYieldRequired) => Some (q, signal_receivers xYieldRequired q k, Returns true)
    end
  else Some (q, k, Waits).

Definition receive_attempt (q : Queue) (k : kernel) : option (Queue * kernel * outcome bytes) :=
  if 0 <? uxMessagesWaiting q then
    match prvCopyDataFromQueue q with
    | None => None
    | Some (q, item) =>
      let q := set_waiting (u32 (uxMessagesWaiting q - 1)) q in
      Some (q, signal_senders q k, Returns item)
    end
  else Some (q, k, Waits).

Definition take_attempt (q : Queue) (k : kernel) : Queue * kernel * outcome bool :=
  if 0 <? uxMessagesWaiting q then
    let q := set_waiting (u32 (uxMessagesWaiting q - 1)) q in
    let '(q, k) :=
      if is_mutex q then
        let '(k, t) := pvTaskIncrementMutexHeldCount k in
        (set_union (xSemaphore (Some t) (uxRecursiveCallCount q)) (storage q) q, k)
      else (q, k) in
    (q, signal_senders q k, Returns true)
  else (q, k, Waits).

(** [xQueueGenericSendFromISR]: the result and whether a task was woken; a locked
    queue counts the item instead of unblocking a task. *)
Definition xQueueGenericSendFromISR (item : bytes) (xCopyPosition : position) (q : Queue) (k : kernel)
  : option (Queue * kernel * bool * bool) :=
  if negb (item_given item q && may_overwrite xCopyPosition q) then None
  else if (uxMessagesWaiting q <? uxLength q) || bool_decide (xCopyPosition = queueOVERWRITE) then
    match prvCopyDataToQueue item xCopyPosition q k with
    | None => None
    | Some (q, k, _) =>
      if cTxLock q =? queueUNLOCKED then
        match al_items (elist k (xTasksWaitingToReceive q)) with
        | [] => Some (q, k, true, false)
        | _ :: _ =>
          let '(k, woken) := xTaskRemoveFromEventList (xTasksWaitingToReceive q) k in
          Some (q, k, true, woken)
        end
      else
        match prvIncrementQueueTxLock q k with
        | None => None
        | Some q => Some (q, k, true, false)
        end
    end
  else Some (q, k, false, false).

(** ** Blocking calls *)

(** The local variables of a call: the ticks left, the timeout once it is set, and
    for a mutex whether its holder inherited this task's priority. *)
Record call := mkCall {
  xTicksToWait : Z;
  xTimeOut : option TimeOut;
  xInheritanceOccurred : bool
}.

(** A call that starts. *)
Definition new_call (ticks : Z) : call := mkCall ticks None false.

(** The end of a failed attempt: without a block time the call returns, otherwise
    the entry time is set, once. *)
Definition attempt_failed (c : call) (k : kernel) : option call :=
  if xTicksToWait c =? 0 then None
  else match xTimeOut c with
       | None => Some (mkCall (xTicksToWait c) (Some (vTaskInternalSetTimeOutState k)) (xInheritanceOccurred c))
       | Some _ => Some c
       end.

(** What other tasks, interrupts and the passing of time made of the queue and the
    kernel before each section of a turn: the attempt, the decision to block, the
    test that follows an expired block time, and the return of an inherited
    priority.  While the decision is made the scheduler is suspended and only
    interrupts act, after the queue is locked and before it is unlocked. *)
Record view := View {
  at_attempt : Queue * kernel;
  at_block : Queue * kernel;
  on_locked : Queue * kernel -> Queue * kernel;
  on_placed : Queue * kernel -> Queue * kernel;
  at_expiry : Queue * kernel;
  at_disinherit : Queue * kernel
}.

(** The section with the scheduler suspended: whether the time is over, and the
    call's variables for the next turn.  [busy] tells that the task has to wait,
    [inherit] is what a mutex does before. *)
Definition block_section (busy : Queue -> bool) (e : Queue -> event_list)
    (inherit : Queue -> kernel -> kernel * bool) (c : call) (v : view) : Queue * kernel * bool * call :=
  let '(q, k) := at_block v in
  let '(q, k) := on_locked v (prvLockQueue q, vTaskSuspendAll k) in
  let '(expired, o, ticks) :=
    xTaskCheckForTimeOut (default (mkTimeOut 0 0) (xTimeOut c)) (xTicksToWait c) k in
  let c := mkCall ticks (Some o) (xInheritanceOccurred c) in
  if expired then
    let '(q, k) := on_placed v (q, k) in
    let '(q, k) := prvUnlockQueue q k in
    (q, fst (xTaskResumeAll k), true, c)
  else if busy q then
    let '(k, inherited) := inherit q k in
    let c := mkCall ticks (Some o) inherited in
    let '(q, k) := on_placed v (q, vTaskPlaceOnEventList (e q) ticks k) in
    let '(q, k) := prvUnlockQueue q k in
    let '(k, yielded) := xTaskResumeAll k in
    (q, if yielded then k else portYIELD k, false, c)
  else
    let '(q, k) := on_placed v (q, k) in
    let '(q, k) := prvUnlockQueue q k in
    (q, fst (xTaskResumeAll k), false, c).

Definition no_inheritance (_ : Queue) (k : kernel) : kernel * bool := (k, false).

Definition mutex_inheritance (q : Queue) (k : kernel) : kernel * bool :=
  if is_mutex q then xTaskPriorityInherit (xMutexHolder q) k else (k, false).

(** The priority the holder of a mutex keeps: the highest of those who still
    wait. *)
Definition prvGetDisinheritPriorityAfterTimeout (q : Queue) (k : kernel) : Z :=
  match al_items (elist k (xTasksWaitingToReceive q)) with
  | [] => 0
  | t :: _ => u32 (configMAX_PRIORITIES - xEventItemValue (tcb k t))
  end.

(** The result of a call over the views of its turns; [None] when it is still
    waiting after the last one, or an assertion stopped it. *)
Fixpoint send_loop (item : bytes) (pos : position) (c : call) (vs : list view)
  : option (Queue * kernel * bool) :=
  match vs with
  | [] => None
  | v :: vs =>
    let '(q, k) := at_attempt v in
    match send_attempt item pos q k with
    | None => None
    | Some (q, k, Returns r) => Some (q, k, r)
    | Some (q, k, Waits) =>
      match attempt_failed c k with
      | None => Some (q, k, false)
      | Some c =>
        let '(q, k, expired, c) := block_section prvIsQueueFull xTasksWaitingToSend no_inheritance c v in
        if expired then Some (q, k, false) else send_loop item pos c vs
      end
    end
  end.

Definition xQueueGenericSend (item : bytes) (pos : position) (ticks : Z) (vs : list view)
  : option (Queue * kernel * bool) :=
  match vs with
  | [] => None
  | v :: _ =>
    let '(q, k) := at_attempt v in
    if item_given item q && may_overwrite pos q && may_block ticks k
    then send_loop item pos (new_call ticks) vs else None
  end.

(** The item received, [None] inside for [errQUEUE_EMPTY]. *)
Fixpoint receive_loop (c : call) (vs : list view) : option (Queue * kernel * option bytes) :=
  match vs with
  | [] => None
  | v :: vs =>
    let '(q, k) := at_attempt v in
    match receive_attempt q k with
    | None => None
    | Some (q, k, Returns item) => Some (q, k, Some item)
    | Some (q, k, Waits) =>
      match attempt_failed c k with
      | None => Some (q, k, None)
      | Some c =>
        let '(q, k, expired, c) :=
          block_section prvIsQueueEmpty xTasksWaitingToReceive no_inheritance c v in
        if expired then
          let '(q, k) := at_expiry v in
          if prvIsQueueEmpty q then Some (q, k, None) else receive_loop c vs
        else receive_loop c vs
      end
    end
  end.

Definition xQueueReceive (ticks : Z) (vs : list view) : option (Queue * kernel * option bytes) :=
  match vs with
  | [] => None
  | v :: _ => if may_block ticks (snd (at_attempt v)) then receive_loop (new_call ticks) vs else None
  end.

Fixpoint take_loop (c : call) (vs : list view) : option (Queue * kernel * bool) :=
  match vs with
  | [] => None
  | v :: vs =>
    let '(q, k) := at_attempt v in
    match take_attempt q k with
    | (q, k, Returns r) => Some (q, k, r)
    | (q, k, Waits) =>
      match attempt_failed c k with
      | None => Some (q, k, false)
      | Some c =>
        let '(q, k, expired, c) :=
          block_section prvIsQueueEmpty xTasksWaitingToReceive mutex_inheritance c v in
        if expired then
          let '(q, k) := at_expiry v in
          if prvIsQueueEmpty q then
            if xInheritanceOccurred c then
              let '(q, k) := at_disinherit v in
              match vTaskPriorityDisinheritAfterTimeout (xMutexHolder q)
                      (prvGetDisinheritPriorityAfterTimeout q k) k with
              | None => None
              | Some k => Some (q, k, false)
              end
            else Some (q, k, false)
          else take_loop c vs
        else take_loop c vs
      end
    end
  end.

Definition xQueueSemaphoreTake (ticks : Z) (vs : list view) : option (Queue * kernel * bool) :=
  match vs with
  | [] => None
  | v :: _ =>
    let '(q, k) := at_attempt v in
    if (uxItemSize q =? 0) && may_block ticks k then take_loop (new_call ticks) vs else None
  end.

(** A call that does not block has one attempt. *)
Definition still (q : Queue) (k : kernel) : view := View (q, k) (q, k) (fun s => s) (fun s => s) (q, k) (q, k).
Definition send_now (item : bytes) (pos : position) (q : Queue) (k : kernel) :=
  xQueueGenericSend item pos 0 [still q k].
Definition receive_now (q : Queue) (k : kernel) := xQueueReceive 0 [still q k].
Definition take_now (q : Queue) (k : kernel) := xQueueSemaphoreTake 0 [still q k].

(** ** Mutexes *)

Definition prvInitialiseMutex (q : Queue) (k : kernel) : option (Queue * kernel) :=
  let q := mkQueue None (pcWriteTo q) (xSemaphore None 0) (xTasksWaitingToSend q)
    (xTasksWaitingToReceive q) (uxMessagesWaiting q) (uxLength q) (uxItemSize q) (cRxLock q)
    (cTxLock q) (storage q) in
  match send_now [] queueSEND_TO_BACK q k with
  | None => None
  | Some (q, k, _) => Some (q, k)
  end.

Definition xQueueCreateMutexStatic (addr : Z) (k : kernel) : option (Queue * kernel) :=
  match xQueueGenericCreateStatic addr 1 0 None k with
  | None => None
  | Some (q, k) => prvInitialiseMutex q k
  end.

Definition set_recursion (n : Z) (q : Queue) : Queue :=
  set_union (xSemaphore (xMutexHolder q) n) (storage q) q.

(** Not the holder: [None]; otherwise a call less is open. *)
Definition give_begin (q : Queue) (k : kernel) : option Queue :=
  if decide (xMutexHolder q = Some (pxCurrentTCB k))
  then Some (set_recursion (u32 (uxRecursiveCallCount q - 1)) q) else None.

(** [env] is what happens between the sections of the call. *)
Definition xQueueGiveMutexRecursive (env : Queue * kernel -> Queue * kernel) (q : Queue) (k : kernel)
  : option (Queue * kernel * bool) :=
  match give_begin q k with
  | None => Some (q, k, false)
  | Some q =>
    if uxRecursiveCallCount q =? 0 then
      let '(q, k) := env (q, k) in
      match send_now [] queueSEND_TO_BACK q k with
      | None => None
      | Some (q, k, _) => Some (q, k, true)
      end
    else Some (q, k, true)
  end.

(** [( pxMutex->u.xSemaphore.uxRecursiveCallCount )++]. *)
Definition count_call (q : Queue) : Queue := set_recursion (u32 (uxRecursiveCallCount q + 1)) q.

(** [q] and [k] are what the call sees first; [vs] the views of the turns of
    [xQueueSemaphoreTake], [env] what happens after it. *)
Definition xQueueTakeMutexRecursive (ticks : Z) (vs : list view) (env : Queue * kernel -> Queue * kernel)
    (q : Queue) (k : kernel) : option (Queue * kernel * bool) :=
  if decide (xMutexHolder q = Some (pxCurrentTCB k)) then Some (count_call q, k, true)
  else
    match xQueueSemaphoreTake ticks vs with
    | None => None
    | Some (q, k, true) => let '(q, k) := env (q, k) in Some (count_call q, k, true)
    | Some (q, k, false) => Some (q, k, false)
    end.

(** ** The storage as a bounded sequence *)

(** The bytes of the [i]-th slot of [s] bytes. *)
Definition slot (st : bytes) (s i : Z) : bytes := take (Z.to_nat s) (drop (Z.to_nat (i * s)) st).

(** The queue holds [items], the first in the slot after the one last read.  The
    pointers stand on slot boundaries inside the storage, which has room for
    [uxLength] items. *)
Record queue_repr (q : Queue) (items : list bytes) : Prop := QueueRepr {
  qr_head : pcHead q = Some 0;
  qr_length : 1 <= uxLength q < 4294967296;
  qr_size : 0 <= uxItemSize q /\ uxLength q * uxItemSize q < 4294967296;
  qr_count : uxMessagesWaiting q = Z.of_nat (length items) /\ uxMessagesWaiting q <= uxLength q;
  qr_items : Forall (fun x => Z.of_nat (length x) = uxItemSize q) items;
  qr_slots : 0 < uxItemSize q ->
    uxLength q * uxItemSize q <= Z.of_nat (length (storage q)) /\
    exists r, 0 <= r < uxLength q /\
      u q = xQueue (uxLength q * uxItemSize q) (r * uxItemSize q) /\
      pcWriteTo q = (r + 1 + uxMessagesWaiting q) mod uxLength q * uxItemSize q /\
      forall j x, items !! j = Some x ->
        slot (storage q) (uxItemSize q) ((r + 1 + Z.of_nat j) mod uxLength q) = x
}.

(** *** Copies *)

Lemma copy_in_slot st s n i x :
  0 < s -> 0 <= i < n -> n * s <= Z.of_nat (length st) -> Z.of_nat (length x) = s ->
  exists st', copy_in st (i * s) x = Some st' /\ length st' = length st /\ slot st' s i = x /\
    forall j, 0 <= j < n -> j <> i -> slot st' s j = slot st s j.
Proof.
  intros Hs Hi Hst Hx. unfold copy_in.
  assert (Hb : 0 <= i * s /\ i * s + s <= n * s) by nia.
  rewrite (proj2 (Z.leb_le 0 _)), (proj2 (Z.leb_le _ (Z.of_nat (length st)))) by lia. cbn [andb].
  set (o := Z.to_nat (i * s)). assert (Ho : (o + length x <= length st)%nat) by (unfold o; lia).
  eexists; split; [reflexivity|]. split_and!.
  - rewrite !length_app, length_take, length_drop. lia.
  - unfold slot. fold o. rewrite drop_app_length' by (rewrite length_take; lia).
    by rewrite take_app_length' by lia.
  - intros j Hj Hne. unfold slot. set (p := Z.to_nat (j * s)).
    assert (Hcase : (p + length x <= o)%nat \/ (o + length x <= p)%nat).
    { unfold p, o. destruct (Z.lt_ge_cases j i); [left|right]; nia. }
    assert (Hp : (p + length x <= length st)%nat) by (unfold p; nia).
    replace (Z.to_nat s) with (length x) by lia.
    destruct Hcase as [Hc|Hc].
    + rewrite drop_app_le by (rewrite length_take; lia).
      rewrite take_app_le by (rewrite length_drop, length_take; lia).
      rewrite skipn_firstn_comm, take_take. by rewrite Nat.min_l by lia.
    + rewrite drop_app_ge by (rewrite length_take; lia). rewrite length_take, Nat.min_l by lia.
      rewrite drop_app_ge by lia. rewrite drop_drop. do 2 f_equal. lia.
Qed.

Lemma copy_out_slot st s n i :
  0 < s -> 0 <= i < n -> n * s <= Z.of_nat (length st) ->
  copy_out st (i * s) s = Some (slot st s i).
Proof.
  intros Hs Hi Hst. unfold copy_out. assert (Hb : 0 <= i * s /\ i * s + s <= n * s) by nia.
  rewrite !(proj2 (Z.leb_le _ _)) by lia. done.
Qed.

(** *** Slot arithmetic *)

Lemma slot_distinct n c a b :
  0 < n -> 0 <= a < n -> 0 <= b < n -> (c + a) mod n = (c + b) mod n -> a = b.
Proof.
  intros Hn Ha Hb H. pose proof (Z.div_mod (c + a) n ltac:(lia)) as H1.
  pose proof (Z.div_mod (c + b) n ltac:(lia)) as H2. rewrite H in H1.
  set (x := (c + a) / n) in *. set (y := (c + b) / n) in *. set (z := (c + b) mod n) in *.
  assert (x = y) by nia. subst x. nia.
Qed.

(** Moving a pointer one slot on, or back, with the tests of the code. *)
Lemma slot_next n s w :
  0 < s -> 0 <= w < n -> (if n * s <=? w * s + s then 0 else w * s + s) = (w + 1) mod n * s.
Proof.
  intros Hs Hw. destruct (Z.leb_spec (n * s) (w * s + s)).
  - assert (w + 1 = n) as -> by nia. by rewrite Z.mod_same by lia.
  - rewrite Z.mod_small by nia. lia.
Qed.

Lemma slot_prev n s r :
  0 < s -> 0 <= r < n ->
  (if r * s - s <? 0 then n * s - s else r * s - s) = (if r =? 0 then n - 1 else r - 1) * s.
Proof.
  intros Hs Hr. destruct (Z.ltb_spec (r * s - s) 0), (Z.eqb_spec r 0); nia.
Qed.

(** The slot before [r], and the slots counted from it. *)
Lemma slot_prev_mod n r j :
  0 <= r < n -> ((if r =? 0 then n - 1 else r - 1) + 1 + j) mod n = (r + j) mod n.
Proof.
  intros Hr. destruct (Z.eqb_spec r 0) as [->|].
  - replace (n - 1 + 1 + j) with (j + 1 * n) by lia. by rewrite Z.mod_add by lia.
  - f_equal. lia.
Qed.

Lemma mod_next n x : 0 < n -> (x mod n + 1) mod n = (x + 1) mod n.
Proof. intros. by rewrite Z.add_mod_idemp_l by lia. Qed.

(** *** The operations *)

(** The part of the representation that does not depend on the storage. *)
Lemma repr_count q items q' items' :
  queue_repr q items ->
  pcHead q' = pcHead q -> uxLength q' = uxLength q -> uxItemSize q' = uxItemSize q ->
  uxMessagesWaiting q' = Z.of_nat (length items') -> (Z.of_nat (length items') <= uxLength q) ->
  Forall (fun x => Z.of_nat (length x) = uxItemSize q) items' ->
  (0 < uxItemSize q -> length (storage q') = length (storage q) /\
    exists r, 0 <= r < uxLength q /\
      u q' = xQueue (uxLength q * uxItemSize q) (r * uxItemSize q) /\
      pcWriteTo q' = (r + 1 + Z.of_nat (length items')) mod uxLength q * uxItemSize q /\
      forall j x, items' !! j = Some x ->
        slot (storage q') (uxItemSize q) ((r + 1 + Z.of_nat j) mod uxLength q) = x) ->
  queue_repr q' items'.
Proof.
  intros [H1 H2 H3 H4 H5 H6] Eh El Es Ec Hle Hall Hsl.
  split; rewrite ?Eh, ?El, ?Es, ?Ec; try done.
  intros Hs. destruct (Hsl Hs) as (Hl & r & Hr & Hu & Hw & Hj). destruct (H6 Hs) as (Hst & _).
  split; [by rewrite Hl|]. exists r. done.
Qed.

Lemma items_lookup_app (l : list bytes) x j y :
  (l ++ [x]) !! j = Some y -> l !! j = Some y /\ (j < length l)%nat \/ j = length l /\ y = x.
Proof.
  intros H. destruct (decide (j < length l)%nat) as [Hlt|Hge].
  - left. by rewrite lookup_app_l in H.
  - right. rewrite lookup_app_r in H by lia. destruct (j - length l)%nat as [|m] eqn:E; cbn in H; [|done].
    injection H as ->. split; [lia|done].
Qed.

Lemma send_back_repr q items item k :
  queue_repr q items -> Z.of_nat (length item) = uxItemSize q -> (Z.of_nat (length items) < uxLength q) ->
  exists q' y, prvCopyDataToQueue item queueSEND_TO_BACK q k = Some (q', k, y) /\ queue_repr q' (items ++ [item]).
Proof.
  intros Hq Hi Hlt. pose proof Hq as [H1 H2 [H3 H3'] [H4 H4'] H5 H6]. unfold prvCopyDataToQueue, is_mutex. rewrite H1.
  assert (Hu : u32 (uxMessagesWaiting q + 1) = Z.of_nat (length (items ++ [item]))).
  { rewrite length_app. cbn [length]. rewrite u32_id; [lia|]. unfold is_u32. lia. }
  assert (Hall : Forall (fun x => Z.of_nat (length x) = uxItemSize q) (items ++ [item]))
    by (apply Forall_app; split; [done|by constructor]).
  assert (Hle : Z.of_nat (length (items ++ [item])) <= uxLength q) by (rewrite length_app; cbn [length]; lia).
  destruct (Z.eqb_spec (uxItemSize q) 0) as [E|E].
  - eexists _, _. split; [reflexivity|]. by eapply repr_count; try exact Hq; try done; lia.
  - destruct (H6 ltac:(lia)) as (Hst & r & Hr & Hun & Hw & Hj). rewrite decide_True by done.
    set (w := (r + 1 + uxMessagesWaiting q) mod uxLength q) in *.
    assert (Hwb : 0 <= w < uxLength q) by (apply Z.mod_pos_bound; lia). rewrite Hw.
    destruct (copy_in_slot (storage q) (uxItemSize q) (uxLength q) w item) as (st' & -> & Hl' & Hs1 & Hs2);
      [lia|done|done|done|].
    eexists _, _. split; [reflexivity|]. eapply repr_count; try exact Hq; try done. intros _. split; [done|].
    exists r. split_and!; [lia|lia|done| |].
    + cbn [pcWriteTo set_waiting set_write]. unfold pcTail, head_of. rewrite Hun, H1. cbn [default].
      change (default 0 (Some 0)) with 0. rewrite slot_next by lia. f_equal. unfold w. rewrite mod_next by lia.
      rewrite length_app. cbn [length]. f_equal. lia.
    + intros j x Hx. cbn [storage set_waiting set_write]. apply items_lookup_app in Hx as [[Hx Hlj]|[-> ->]].
      * rewrite Hs2; [by apply Hj|apply Z.mod_pos_bound; lia|]. unfold w. intros Heq.
        apply (slot_distinct (uxLength q) (r + 1)) in Heq; lia.
      * rewrite <- H4. exact Hs1.
Qed.

Lemma send_front_repr q items item k :
  queue_repr q items -> Z.of_nat (length item) = uxItemSize q -> (Z.of_nat (length items) < uxLength q) ->
  exists q' y, prvCopyDataToQueue item queueSEND_TO_FRONT q k = Some (q', k, y) /\ queue_repr q' (item :: items).
Proof.
  intros Hq Hi Hlt. pose proof Hq as [H1 H2 [H3 H3'] [H4 H4'] H5 H6]. unfold prvCopyDataToQueue, is_mutex. rewrite H1.
  assert (Hu : u32 (uxMessagesWaiting q + 1) = Z.of_nat (length (item :: items))).
  { cbn [length]. rewrite u32_id; [lia|]. unfold is_u32. lia. }
  assert (Hle : Z.of_nat (length (item :: items)) <= uxLength q) by (cbn [length]; lia).
  destruct (Z.eqb_spec (uxItemSize q) 0) as [E|E].
  - eexists _, _. split; [reflexivity|]. eapply repr_count; try exact Hq; try done; [by constructor|lia].
  - destruct (H6 ltac:(lia)) as (Hst & r & Hr & Hun & Hw & Hj).
    rewrite !decide_False by done. unfold pcReadFrom, pcTail, head_of. rewrite Hun, H1.
    change (default 0 (Some 0)) with 0.
    destruct (copy_in_slot (storage q) (uxItemSize q) (uxLength q) r item) as (st' & -> & Hl' & Hs1 & Hs2);
      [lia|done|done|done|].
    eexists _, _. split; [reflexivity|]. set (r' := if r =? 0 then uxLength q - 1 else r - 1).
    eapply repr_count; try exact Hq; try done; [by constructor|]. intros _. split; [done|].
    exists r'. split_and!.
    + unfold r'. destruct (r =? 0) eqn:E0; lia.
    + unfold r'. destruct (Z.eqb_spec r 0); lia.
    + cbn [u set_waiting set_union]. f_equal. by apply slot_prev; lia.
    + cbn [pcWriteTo set_waiting set_union]. rewrite Hw. f_equal. unfold r'. rewrite slot_prev_mod by lia.
      f_equal. cbn [length]. lia.
    + intros [|j] x Hx; cbn [storage set_waiting set_union]; unfold r'; rewrite slot_prev_mod by lia.
      * injection Hx as ->. rewrite Z.add_0_r, Z.mod_small by lia. exact Hs1.
      * cbn in Hx. pose proof (lookup_lt_Some _ _ _ Hx) as Hlj.
        replace (r + Z.of_nat (S j)) with (r + 1 + Z.of_nat j) by lia.
        rewrite Hs2; [by apply Hj|apply Z.mod_pos_bound; lia|]. intros Heq.
        assert (Hr0 : (r + 0) mod uxLength q = r) by (rewrite Z.add_0_r; apply Z.mod_small; lia).
        replace (r + 1 + Z.of_nat j) with (r + (1 + Z.of_nat j)) in Heq by lia.
        rewrite <- Hr0 in Heq at 2. apply slot_distinct in Heq; lia.
Qed.

(** A queue of one item can be overwritten. *)
Lemma overwrite_repr q items item k :
  queue_repr q items -> Z.of_nat (length item) = uxItemSize q -> uxLength q = 1 -> 0 < uxItemSize q ->
  exists q' y, prvCopyDataToQueue item queueOVERWRITE q k = Some (q', k, y) /\ queue_repr q' [item].
Proof.
  intros Hq Hi Hone Hs. pose proof Hq as [H1 H2 [H3 H3'] [H4 H4'] H5 H6]. unfold prvCopyDataToQueue, is_mutex. rewrite H1.
  rewrite (proj2 (Z.eqb_neq _ 0)) by lia. destruct (H6 Hs) as (Hst & r & Hr & Hun & Hw & Hj).
  assert (r = 0) as -> by lia. rewrite decide_False, decide_True by done.
  unfold pcReadFrom, pcTail, head_of. rewrite Hun, H1. change (default 0 (Some 0)) with 0.
  destruct (copy_in_slot (storage q) (uxItemSize q) (uxLength q) 0 item) as (st' & -> & Hl' & Hs1 & _);
    [lia|lia|done|done|].
  eexists _, _. split; [reflexivity|]. eapply repr_count; try exact Hq; try done.
  - cbn. destruct (Z.ltb_spec 0 (uxMessagesWaiting q)); rewrite ?u32_id; unfold is_u32; try lia;
      rewrite ?u32_id; unfold is_u32; lia.
  - cbn. lia.
  - by constructor.
  - intros _. split; [done|]. exists 0. rewrite Hone. split_and!; [lia|lia| | |].
    + cbn [u set_waiting set_union]. f_equal. rewrite (proj2 (Z.ltb_lt _ _)) by lia. lia.
    + cbn [pcWriteTo set_waiting set_union]. rewrite Hw, Hone. by rewrite !Z.mod_1_r.
    + intros j x Hx. rewrite Z.mod_1_r. destruct j as [|j]; [|done]. injection Hx as <-. exact Hs1.
Qed.

Lemma receive_repr q item items :
  queue_repr q (item :: items) ->
  exists q', prvCopyDataFromQueue q = Some (q', item) /\
    queue_repr (set_waiting (u32 (uxMessagesWaiting q' - 1)) q') items.
Proof.
  intros Hq. pose proof Hq as [H1 H2 [H3 H3'] [H4 H4'] H5 H6]. unfold prvCopyDataFromQueue.
  apply list.Forall_cons in H5 as [Hx H5].
  assert (Hu : u32 (uxMessagesWaiting q - 1) = Z.of_nat (length items)).
  { cbn [length] in H4. rewrite u32_id; unfold is_u32; lia. }
  assert (Hle : Z.of_nat (length items) <= uxLength q) by (cbn [length] in H4; lia).
  destruct (Z.eqb_spec (uxItemSize q) 0) as [E|E].
  - exists q. split; [|by eapply repr_count; try exact Hq; try done; lia].
    do 2 f_equal. symmetry. apply length_zero_iff_nil. lia.
  - destruct (H6 ltac:(lia)) as (Hst & r & Hr & Hun & Hw & Hj). unfold pcReadFrom, pcTail, head_of.
    rewrite Hun, H1. change (default 0 (Some 0)) with 0. rewrite slot_next by lia.
    set (r' := (r + 1) mod uxLength q). assert (Hr' : 0 <= r' < uxLength q) by (apply Z.mod_pos_bound; lia).
    cbn [storage set_union uxItemSize]. rewrite (copy_out_slot _ _ (uxLength q)) by (done || lia).
    assert (Hitem : slot (storage q) (uxItemSize q) r' = item).
    { rewrite <- (Hj 0%nat item eq_refl). unfold r'. by rewrite Z.add_0_r. }
    rewrite Hitem. eexists. split; [reflexivity|].
    eapply repr_count; try exact Hq; try done. intros _. split; [done|]. exists r'.
    assert (Hshift : forall x, (r' + 1 + x) mod uxLength q = (r + 1 + (1 + x)) mod uxLength q).
    { intros x. unfold r'. rewrite <- Z.add_assoc, Z.add_mod_idemp_l by lia. f_equal; lia. }
    split_and!; [lia|lia|done| |].
    + cbn [pcWriteTo set_waiting set_union]. rewrite Hw, Hshift. cbn [length] in H4. do 2 f_equal; lia.
    + intros j y Hy. cbn [storage set_waiting set_union]. rewrite Hshift.
      rewrite <- (Hj (S j) y Hy). do 2 f_equal; lia.
Qed.

(** ** Queues are bounded sequences *)

(** The operations of the interface that do not block. *)
Inductive qop :=
| QSend (item : bytes) | QSendToFront (item : bytes) | QOverwrite (item : bytes)
| QSendFromISR (item : bytes) | QReceive.

Inductive answer := Sent (ok : bool) | Received (item : option bytes).

Definition run_qop (o : qop) (q : Queue) (k : kernel) : option (Queue * kernel * answer) :=
  match o with
  | QSend x => match send_now x queueSEND_TO_BACK q k with
               | Some (q, k, r) => Some (q, k, Sent r) | None => None end
  | QSendToFront x => match send_now x queueSEND_TO_FRONT q k with
               | Some (q, k, r) => Some (q, k, Sent r) | None => None end
  | QOverwrite x => match send_now x queueOVERWRITE q k with
               | Some (q, k, r) => Some (q, k, Sent r) | None => None end
  | QSendFromISR x => match xQueueGenericSendFromISR x queueSEND_TO_BACK q k with
               | Some (q, k, r, _) => Some (q, k, Sent r) | None => None end
  | QReceive => match receive_now q k with
               | Some (q, k, r) => Some (q, k, Received r) | None => None end
  end.

(** The bounded sequence: what the interface promises. *)
Definition spec_qop (n : Z) (o : qop) (items : list bytes) : list bytes * answer :=
  let room := Z.of_nat (length items) <? n in
  match o with
  | QSend x | QSendFromISR x => if room then (items ++ [x], Sent true) else (items, Sent false)
  | QSendToFront x => if room then (x :: items, Sent true) else (items, Sent false)
  | QOverwrite x => ([x], Sent true)
  | QReceive => match items with [] => ([], Received None) | x :: l => (l, Received (Some x)) end
  end.

(** Items of the queue's size; overwriting is for queues of one item. *)
Definition qop_ok (n s : Z) (o : qop) : Prop :=
  match o with
  | QSend x | QSendToFront x | QSendFromISR x => Z.of_nat (length x) = s
  | QOverwrite x => Z.of_nat (length x) = s /\ n = 1 /\ 0 < s
  | QReceive => True
  end.

Fixpoint run_qops (os : list qop) (q : Queue) (k : kernel) : option (Queue * kernel * list answer) :=
  match os with
  | [] => Some (q, k, [])
  | o :: os =>
    match run_qop o q k with
    | None => None
    | Some (q, k, a) =>
      match run_qops os q k with None => None | Some (q, k, l) => Some (q, k, a :: l) end
    end
  end.

Fixpoint spec_qops (n : Z) (os : list qop) (items : list bytes) : list bytes * list answer :=
  match os with
  | [] => (items, [])
  | o :: os =>
    let '(items, a) := spec_qop n o items in
    let '(items, l) := spec_qops n os items in (items, a :: l)
  end.

(** The queue's constants and lock counts survive; the queue is unlocked between
    the calls of tasks. *)
Lemma copy_to_rest item pos q k q' k' y :
  prvCopyDataToQueue item pos q k = Some (q', k', y) ->
  uxLength q' = uxLength q /\ uxItemSize q' = uxItemSize q /\ cRxLock q' = cRxLock q /\ cTxLock q' = cTxLock q.
Proof.
  unfold prvCopyDataToQueue. repeat case_match; try done; intros; simplify_eq; done.
Qed.

Lemma may_block_now k : may_block 0 k = true.
Proof. unfold may_block. by destruct (xTaskGetSchedulerState k). Qed.

Lemma item_given_length item q : Z.of_nat (length item) = uxItemSize q -> item_given item q = true.
Proof. destruct item; [|done]. cbn. intros <-. done. Qed.

Lemma send_now_attempt item pos q k :
  item_given item q = true -> may_overwrite pos q = true ->
  send_now item pos q k =
    match send_attempt item pos q k with
    | Some (q, k, Returns r) => Some (q, k, r)
    | Some (q, k, Waits) => Some (q, k, false)
    | None => None
    end.
Proof.
  intros H1 H2. unfold send_now, xQueueGenericSend. cbn [at_attempt still]. rewrite H1, H2, may_block_now.
  cbn. by destruct (send_attempt item pos q k) as [[[q' k'] [r|]]|].
Qed.

Lemma send_now_spec item pos q items k items' :
  queue_repr q items -> cTxLock q = queueUNLOCKED ->
  item_given item q = true -> may_overwrite pos q = true ->
  ((uxMessagesWaiting q <? uxLength q) || bool_decide (pos = queueOVERWRITE) = true ->
     exists q' y, prvCopyDataToQueue item pos q k = Some (q', k, y) /\ queue_repr q' items') ->
  exists q' k' r, send_now item pos q k = Some (q', k', r) /\ cTxLock q' = queueUNLOCKED /\
    uxLength q' = uxLength q /\ uxItemSize q' = uxItemSize q /\
    if (Z.of_nat (length items) <? uxLength q) || bool_decide (pos = queueOVERWRITE)
    then r = true /\ queue_repr q' items' else r = false /\ queue_repr q' items.
Proof.
  intros Hq Hl Hgiven Hover Hs. destruct (qr_count _ _ Hq) as [Hc _].
  rewrite send_now_attempt by done. unfold send_attempt. rewrite Hc in Hs |- *.
  destruct ((Z.of_nat (length items) <? uxLength q) || bool_decide (pos = queueOVERWRITE)).
  - destruct (Hs eq_refl) as (q' & y & E & Hq'). rewrite E.
    destruct (copy_to_rest _ _ _ _ _ _ _ E) as (R1 & R2 & R3 & R4).
    exists q', (signal_receivers y q' k), true. split; [done|]. split_and!; try done. congruence.
  - exists q, k, false. done.
Qed.

Lemma qop_refines o q k items :
  queue_repr q items -> cTxLock q = queueUNLOCKED -> qop_ok (uxLength q) (uxItemSize q) o ->
  exists q' k', run_qop o q k = Some (q', k', snd (spec_qop (uxLength q) o items)) /\
    queue_repr q' (fst (spec_qop (uxLength q) o items)) /\ cTxLock q' = queueUNLOCKED /\
    uxLength q' = uxLength q /\ uxItemSize q' = uxItemSize q.
Proof.
  intros Hq Hl Hok. destruct (qr_count _ _ Hq) as [Hc _].
  destruct o as [x|x|x|x|]; cbn [run_qop spec_qop qop_ok] in *.
  - destruct (send_now_spec x queueSEND_TO_BACK q items k (items ++ [x]) Hq Hl (item_given_length x q Hok) eq_refl) as (q' & k' & r & -> & H1 & H2 & H3 & H4).
    { rewrite orb_false_r. intros Hr. apply send_back_repr; [done|done|lia]. }
    rewrite orb_false_r in H4. exists q', k'. destruct (_ <? _), H4 as [-> ?]; done.
  - destruct (send_now_spec x queueSEND_TO_FRONT q items k (x :: items) Hq Hl (item_given_length x q Hok) eq_refl) as (q' & k' & r & -> & H1 & H2 & H3 & H4).
    { rewrite orb_false_r. intros Hr. apply send_front_repr; [done|done|lia]. }
    rewrite orb_false_r in H4. exists q', k'. destruct (_ <? _), H4 as [-> ?]; done.
  - destruct Hok as (Hx & Hone & Hs).
    destruct (send_now_spec x queueOVERWRITE q items k [x] Hq Hl (item_given_length x q Hx) (proj2 (Z.eqb_eq _ _) Hone)) as (q' & k' & r & -> & H1 & H2 & H3 & H4).
    { intros _. by apply overwrite_repr with items. }
    rewrite orb_true_r in H4. exists q', k'. destruct H4 as [-> ?]. done.
  - unfold xQueueGenericSendFromISR. rewrite (item_given_length x q Hok). cbn [andb negb may_overwrite]. rewrite Hc, orb_false_r.
    destruct (Z.ltb_spec (Z.of_nat (length items)) (uxLength q)).
    + destruct (send_back_repr q items x k Hq Hok ltac:(lia)) as (q' & y & E & Hq').
      destruct (copy_to_rest _ _ _ _ _ _ _ E) as (R1 & R2 & R3 & R4). rewrite E, R4, Hl, Z.eqb_refl.
      destruct (al_items _); [by exists q', k; rewrite R4|].
      destruct (xTaskRemoveFromEventList _ k) as [k' w]. exists q', k'. by rewrite R4.
    + exists q, k. done.
  - unfold receive_now, xQueueReceive. cbn [at_attempt still snd]. rewrite may_block_now. cbn [receive_loop at_attempt still].
    unfold receive_attempt. rewrite Hc.
    destruct items as [|x items]; cbn [length].
    + exists q, k. done.
    + rewrite (proj2 (Z.ltb_lt _ _)) by lia.
      destruct (receive_repr q x items Hq) as (q' & E & Hq'). rewrite E.
      assert (cTxLock q' = cTxLock q /\ uxLength q' = uxLength q /\ uxItemSize q' = uxItemSize q) as (R1 & R2 & R3).
      { revert E. unfold prvCopyDataFromQueue. repeat case_match; try done; intros; simplify_eq; done. }
      eexists _, _. split; [reflexivity|]. cbn. rewrite R1. done.
Qed.

(** C18. A queue is a bounded sequence of items.  Whatever sequence of sends to
    the back, to the front and from interrupts, overwrites (on queues of one item)
    and receives is made on a queue in use, with items of its size, every copy
    stays inside the storage area, every call returns what the bounded sequence
    returns (a send fails exactly when [uxLength] items wait, a receive exactly
    when none does, and items come out in the order of the sequence, byte for
    byte), and the storage holds the sequence afterwards.  Semaphores are the case
    of items without bytes. *)
Theorem queue_refines_sequence os q k items :
  queue_repr q items -> cTxLock q = queueUNLOCKED ->
  Forall (qop_ok (uxLength q) (uxItemSize q)) os ->
  exists q' k', run_qops os q k = Some (q', k', snd (spec_qops (uxLength q) os items)) /\
    queue_repr q' (fst (spec_qops (uxLength q) os items)).
Proof.
  revert q k items; induction os as [|o os IH]; intros q k items Hq Hl Hok; [by exists q, k|].
  apply list.Forall_cons in Hok as [Ho Hok].
  destruct (qop_refines o q k items Hq Hl Ho) as (q1 & k1 & E & Hq1 & Hl1 & H1 & H2).
  cbn [run_qops spec_qops]. rewrite E. destruct (spec_qop (uxLength q) o items) as [items1 a]. cbn [fst snd] in *.
  destruct (IH q1 k1 items1 Hq1 Hl1) as (q2 & k2 & E2 & Hq2); [by rewrite H1, H2|].
  rewrite H1 in E2, Hq2. destruct (spec_qops (uxLength q) os items1) as [items2 l]. rewrite E2. eauto.
Qed.

(** A new queue is empty. *)
Lemma create_repr addr n s st k :
  1 <= n < 4294967296 -> 0 <= s -> n * s < 4294967296 ->
  match st with Some st => 0 < s /\ n * s <= Z.of_nat (length st) | None => s = 0 end ->
  exists q k', xQueueGenericCreateStatic addr n s st k = Some (q, k') /\ queue_repr q [] /\
    cTxLock q = queueUNLOCKED /\ cRxLock q = queueUNLOCKED /\ uxLength q = n /\ uxItemSize q = s /\
    k' = vListInitialise_event (EEvent (addr + 36)) (vListInitialise_event (EEvent (addr + 16)) k).
Proof.
  intros Hn Hs Hb Hst. unfold xQueueGenericCreateStatic, prvInitialiseNewQueue, xQueueGenericReset.
  rewrite (proj2 (Z.ltb_lt 0 n)) by lia. cbn [uxLength uxItemSize].
  assert (Hg : negb ((match st with Some _ => true | None => false end) && (s =? 0)) &&
    negb (negb (match st with Some _ => true | None => false end) && negb (s =? 0)) = true).
  { destruct st as [st|]; [|by subst]. rewrite (proj2 (Z.eqb_neq s 0)) by lia. done. }
  cbn [andb]. rewrite Hg. rewrite (proj2 (Z.leb_le 1 n)) by lia.
  rewrite (proj2 (Z.leb_le s _)) by (apply Z.div_le_lower_bound; nia). cbn [andb].
  eexists _, _. split; [reflexivity|]. split_and!; try done. unfold head_of. cbn [pcHead].
  change (default 0 (Some 0)) with 0. split; cbn; [done|lia|lia|lia|constructor|].
  intros Hs0. destruct st as [st|]; [|lia]. destruct Hst as [_ Hst]. split; [exact Hst|].
  exists (n - 1). split_and!; [lia|lia| |rewrite Z.sub_add, Z.add_0_r, Z.mod_same by lia; lia|done].
  rewrite (u32_id (n * s)), (u32_id (n - 1)), u32_id by (unfold is_u32; nia). done.
Qed.

(** A queue of three items of two bytes, and a binary semaphore. *)
Definition sample_kernel_empty : kernel := prvInitialiseTaskLists kernel_zero.
Definition sample_item (a b : Z) : bytes := [a; b].
Definition sample_queue : Queue :=
  match xQueueGenericCreateStatic 1000 3 2 (Some (replicate 6 0)) sample_kernel_empty with
  | Some (q, _) => q
  | None => mkQueue None 0 (xQueue 0 0) EPending EPending 0 0 0 0 0 []
  end.

Lemma sample_queue_repr : queue_repr sample_queue [] /\ cTxLock sample_queue = queueUNLOCKED.
Proof.
  destruct (create_repr 1000 3 2 (Some (replicate 6 0)) sample_kernel_empty) as (q & k & E & H1 & H2 & _);
    [lia|lia|lia|done|].
  unfold sample_queue. rewrite E. done.
Qed.

(** Five sends to a queue of three, the fourth refused and one to the front, and
    the receives. *)
Definition sample_qops : list qop :=
  [QSend (sample_item 1 2); QSendFromISR (sample_item 3 4); QSendToFront (sample_item 5 6);
   QSend (sample_item 7 8); QReceive; QSend (sample_item 9 10); QReceive; QReceive; QReceive; QReceive].

Lemma queue_refines_sequence_witness :
  exists q k, run_qops sample_qops sample_queue sample_kernel_empty =
    Some (q, k, [Sent true; Sent true; Sent true; Sent false; Received (Some (sample_item 5 6)); Sent true;
                 Received (Some (sample_item 1 2)); Received (Some (sample_item 3 4));
                 Received (Some (sample_item 9 10)); Received None]) /\
    queue_repr q [].
Proof.
  apply (queue_refines_sequence sample_qops sample_queue sample_kernel_empty []).
  - apply sample_queue_repr.
  - apply sample_queue_repr.
  - repeat (apply list.Forall_cons; split; [reflexivity || exact I|]). apply list.Forall_nil. exact I.
Defined.
