(* ===== verification/KernelSync.v ===== *)
(** * Using queues: types, the recursive mutex and block times

    Three groups of theorems on [KernelQueue], for calls whose sections interleave
    with those of other tasks and with interrupts:

    - every section of every call keeps a queue well typed, the pointers on item
      boundaries inside the storage and the union read by the member that was
      written, and stops only at an assertion of the source;
    - the recursive mutex, taken and given in several sections, refines a
      recursive lock;
    - a call that gives up does so after its block time, and not before. *)

From S2P Require Import Prelude KernelList KernelTasks KernelSched KernelQueue.
From stdpp Require Import list gmap functions.
#[local] Open Scope Z_scope.

(** ** Well-typed queues *)

(** A pointer to an item of the storage. *)
Definition item_pointer (q : Queue) (p : Z) : Prop :=
  exists i, 0 <= i < uxLength q /\ p = i * uxItemSize q.

Record queue_typed (q : Queue) : Prop := QueueTyped {
  qt_length : 1 <= uxLength q < 4294967296;
  qt_size : 0 <= uxItemSize q /\ uxLength q * uxItemSize q < 4294967296;
  qt_count : 0 <= uxMessagesWaiting q <= uxLength q;
  qt_locks : queueUNLOCKED <= cRxLock q <= queueINT8_MAX /\ queueUNLOCKED <= cTxLock q <= queueINT8_MAX;
  qt_union :
    if is_mutex q
    then uxItemSize q = 0 /\ uxLength q = 1 /\ exists h n, u q = xSemaphore h n /\ is_u32 n
    else pcHead q = Some 0 /\
      exists r, u q = xQueue (uxLength q * uxItemSize q) r /\ item_pointer q r /\
        item_pointer q (pcWriteTo q) /\
        (0 < uxItemSize q -> uxLength q * uxItemSize q <= Z.of_nat (length (storage q)))
}.

(** The sections of the calls; the block section with the queue it is for. *)
Inductive section :=
| QsSend (item : bytes) (pos : position) | QsReceive | QsTake
| QsSendFromISR (item : bytes) (pos : position) | QsLock | QsUnlock | QsReset
| QsGive | QsCount.

Definition run_section (s : section) (q : Queue) (k : kernel) : option (Queue * kernel) :=
  match s with
  | QsSend item pos => match send_attempt item pos q k with Some (q, k, _) => Some (q, k) | None => None end
  | QsReceive => match receive_attempt q k with Some (q, k, _) => Some (q, k) | None => None end
  | QsTake => Some (fst (take_attempt q k))
  | QsSendFromISR item pos =>
    match xQueueGenericSendFromISR item pos q k with Some (q, k, _, _) => Some (q, k) | None => None end
  | QsLock => Some (prvLockQueue q, vTaskSuspendAll k)
  | QsUnlock => let '(q, k) := prvUnlockQueue q k in Some (q, fst (xTaskResumeAll k))
  | QsReset => xQueueGenericReset false q k
  | QsGive => Some (default q (give_begin q k), k)
  | QsCount => Some (count_call q, k)
  end.

(** What a caller passes: items of the queue's size, and only to a queue that has
    items is one overwritten; only mutexes are given and counted, and they are
    not reset. *)
Definition section_typed (s : section) (q : Queue) : Prop :=
  match s with
  | QsSend item pos | QsSendFromISR item pos =>
    Z.of_nat (length item) = uxItemSize q /\
    (pos = queueOVERWRITE -> uxLength q = 1 /\ 0 < uxItemSize q)
  | QsReset => is_mutex q = false
  | QsGive | QsCount => is_mutex q = true
  | _ => True
  end.

(** The assertions of the source that can stop a section: a mutex returned by a
    task that does not hold it or holds none, and the count of a locked queue at
    its limit, with more than 127 tasks. *)
Definition stopped (s : section) (q : Queue) (k : kernel) : Prop :=
  match s with
  | QsSend _ _ => is_mutex q = true /\ xTaskPriorityDisinherit (xMutexHolder q) k = None
  | QsSendFromISR _ _ =>
    (is_mutex q = true /\ xTaskPriorityDisinherit (xMutexHolder q) k = None) \/
    (cTxLock q = queueINT8_MAX)
  | _ => False
  end.

Lemma mod_slot q i :
  queue_typed q -> item_pointer q (i mod uxLength q * uxItemSize q).
Proof. intros [H _ _ _ _]. exists (i mod uxLength q). split; [apply Z.mod_pos_bound; lia|done]. Qed.

(** The fields the types speak of, with those of a queue made from it. *)
Lemma typed_update q q' :
  queue_typed q ->
  pcHead q' = pcHead q -> uxLength q' = uxLength q -> uxItemSize q' = uxItemSize q ->
  length (storage q') = length (storage q) ->
  (0 <= uxMessagesWaiting q' <= uxLength q) ->
  (queueUNLOCKED <= cRxLock q' <= queueINT8_MAX /\ queueUNLOCKED <= cTxLock q' <= queueINT8_MAX) ->
  (if is_mutex q then exists h n, u q' = xSemaphore h n /\ is_u32 n
   else exists r, u q' = xQueue (uxLength q * uxItemSize q) r /\ item_pointer q r /\
     item_pointer q (pcWriteTo q')) ->
  queue_typed q'.
Proof.
  intros [H1 H2 H3 H4 H5] Eh El Es Est Hc Hl Hu.
  assert (Ep : forall p, item_pointer q p -> item_pointer q' p) by (unfold item_pointer; by rewrite El, Es).
  assert (Em : is_mutex q' = is_mutex q) by (unfold is_mutex; by rewrite Eh).
  split; rewrite ?El, ?Es, ?Em; try done. destruct (is_mutex q).
  - destruct H5 as (? & ? & _). done.
  - destruct H5 as (Hh & r0 & _ & _ & _ & Hst), Hu as (r & Hr & Hp & Hw).
    split; [congruence|]. exists r. rewrite Est. auto.
Qed.

Lemma copy_to_typed item pos q k :
  queue_typed q -> Z.of_nat (length item) = uxItemSize q ->
  (uxMessagesWaiting q < uxLength q \/ pos = queueOVERWRITE /\ uxLength q = 1 /\ 0 < uxItemSize q) ->
  match prvCopyDataToQueue item pos q k with
  | Some (q', _, _) => queue_typed q' /\ cTxLock q' = cTxLock q
  | None => is_mutex q = true /\ xTaskPriorityDisinherit (xMutexHolder q) k = None
  end.
Proof.
  intros Hq Hi Hroom. pose proof Hq as [H1 H2 H3 H4 H5]. unfold prvCopyDataToQueue.
  destruct (Z.eqb_spec (uxItemSize q) 0) as [E|E].
  - assert (Hc : 0 <= u32 (uxMessagesWaiting q + 1) <= uxLength q) by (rewrite u32_id; unfold is_u32; lia).
    destruct (is_mutex q) eqn:Em.
    + destruct (xTaskPriorityDisinherit _ k) as [[k' y]|] eqn:Ed; [|done].
      destruct H5 as (_ & _ & h & n & Hu & Hn).
      split; [|done]. eapply typed_update; try exact Hq; try done.
      rewrite Em. exists None, n. unfold uxRecursiveCallCount. cbn. by rewrite Hu.
    + destruct H5 as (_ & r & Hu & Hr & Hw & _). split; [|done].
      eapply typed_update; try exact Hq; try done. rewrite Em. by exists r.
  - destruct (is_mutex q) eqn:Em; [lia|]. destruct H5 as (Hh & r & Hu & Hr & Hw & Hst).
    specialize (Hst ltac:(lia)). destruct Hr as (i & Hir & ->), Hw as (w & Hwr & Hw).
    unfold pcReadFrom, pcTail, head_of. rewrite Hu, Hh. change (default 0 (Some 0)) with 0.
    case_decide as Hback.
    + destruct (copy_in_slot (storage q) (uxItemSize q) (uxLength q) w item) as (st & Ec & El & _ & _);
        [lia|done|done|done|].
      rewrite Hw, Ec, slot_next by lia. split; [|done]. eapply typed_update; try exact Hq; try done.
      * destruct Hroom as [Hroom|[-> _]]; [|done]. cbn. rewrite u32_id; unfold is_u32; lia.
      * rewrite Em. exists (i * uxItemSize q). split; [done|]. split; [by exists i|by apply mod_slot].
    + destruct (copy_in_slot (storage q) (uxItemSize q) (uxLength q) i item) as (st & Ec & El & _ & _);
        [lia|done|done|done|].
      rewrite Ec, slot_prev by lia. split; [|done]. eapply typed_update; try exact Hq; try done.
      * cbn. case_decide; destruct Hroom as [Hroom|(-> & Hone & _)]; try done; try lia;
          repeat case_match; rewrite ?u32_id; unfold is_u32; rewrite ?u32_id; unfold is_u32; lia.
      * rewrite Em. eexists. split; [reflexivity|]. split; [|by exists w].
        eexists. split; [|reflexivity]. destruct (Z.eqb_spec i 0); lia.
Qed.

Lemma copy_from_typed q :
  queue_typed q -> exists q' item, prvCopyDataFromQueue q = Some (q', item) /\ queue_typed q' /\
    uxMessagesWaiting q' = uxMessagesWaiting q.
Proof.
  intros Hq. pose proof Hq as [H1 H2 H3 H4 H5]. unfold prvCopyDataFromQueue.
  destruct (Z.eqb_spec (uxItemSize q) 0) as [E|E]; [by exists q, []|].
  destruct (is_mutex q) eqn:Em; [lia|]. destruct H5 as (Hh & r & Hu & Hr & Hw & Hst).
  specialize (Hst ltac:(lia)). destruct Hr as (i & Hir & ->).
  unfold pcReadFrom, pcTail, head_of. rewrite Hu, Hh. change (default 0 (Some 0)) with 0.
  rewrite slot_next by lia. cbn [storage set_union uxItemSize].
  rewrite (copy_out_slot _ _ (uxLength q)) by (done || (apply Z.mod_pos_bound; lia) || lia).
  eexists _, _. split; [reflexivity|]. split; [|done]. eapply typed_update; try exact Hq; try done.
  rewrite Em. eexists. split; [reflexivity|]. split; [by apply mod_slot|done].
Qed.

Lemma typed_count q n : queue_typed q -> 0 <= n <= uxLength q -> queue_typed (set_waiting n q).
Proof.
  intros Hq Hn. pose proof Hq as [H1 H2 H3 H4 H5]. eapply typed_update; try exact Hq; try done.
  destruct (is_mutex q); [by destruct H5 as (_ & _ & ?)|]. destruct H5 as (_ & r & ? & ? & ? & _). by exists r.
Qed.

Lemma typed_locks q rx tx :
  queue_typed q -> queueUNLOCKED <= rx <= queueINT8_MAX -> queueUNLOCKED <= tx <= queueINT8_MAX ->
  queue_typed (set_locks rx tx q).
Proof.
  intros Hq Hr Ht. pose proof Hq as [H1 H2 H3 H4 H5]. eapply typed_update; try exact Hq; try done.
  destruct (is_mutex q); [by destruct H5 as (_ & _ & ?)|]. destruct H5 as (_ & r & ? & ? & ? & _). by exists r.
Qed.

Lemma typed_semaphore q h n :
  queue_typed q -> is_mutex q = true -> is_u32 n -> queue_typed (set_union (xSemaphore h n) (storage q) q).
Proof.
  intros Hq Hm Hn. pose proof Hq as [H1 H2 H3 H4 H5]. eapply typed_update; try exact Hq; try done.
  rewrite Hm. by exists h, n.
Qed.

Lemma send_attempt_typed item pos q k :
  queue_typed q -> section_typed (QsSend item pos) q ->
  match send_attempt item pos q k with
  | Some (q', _, _) => queue_typed q'
  | None => stopped (QsSend item pos) q k
  end.
Proof.
  intros Hq [Hi Ho]. unfold send_attempt.
  destruct (Z.ltb_spec (uxMessagesWaiting q) (uxLength q)) as [Hlt|Hge]; cbn [orb].
  - pose proof (copy_to_typed item pos q k Hq Hi (or_introl Hlt)) as Hc.
    destruct (prvCopyDataToQueue item pos q k) as [[[q' k'] y]|]; [apply Hc|done].
  - case_bool_decide as E; [|done].
    pose proof (copy_to_typed item pos q k Hq Hi (or_intror (conj E (Ho E)))) as Hc.
    destruct (prvCopyDataToQueue item pos q k) as [[[q' k'] y]|]; [apply Hc|done].
Qed.

Lemma isr_typed item pos q k :
  queue_typed q -> section_typed (QsSendFromISR item pos) q ->
  match xQueueGenericSendFromISR item pos q k with
  | Some (q', _, _, _) => queue_typed q'
  | None => stopped (QsSendFromISR item pos) q k
  end.
Proof.
  intros Hq [Hi Ho]. unfold xQueueGenericSendFromISR. rewrite item_given_length by done.
  assert (Hov : may_overwrite pos q = true).
  { destruct pos; try done. cbn. destruct (Ho eq_refl) as [-> _]. done. }
  rewrite Hov. cbn [andb negb].
  destruct ((uxMessagesWaiting q <? uxLength q) || bool_decide (pos = queueOVERWRITE)) eqn:E; [|done].
  apply orb_true_iff in E. rewrite Z.ltb_lt, bool_decide_eq_true in E.
  pose proof (copy_to_typed item pos q k Hq Hi) as Hc.
  destruct (prvCopyDataToQueue item pos q k) as [[[q' k'] y]|].
  - destruct Hc as [Hq' Etx]; [destruct E as [?|E]; [by left|right; auto]|].
    destruct (cTxLock q' =? queueUNLOCKED).
    + destruct (al_items _); [done|]. by destruct (xTaskRemoveFromEventList _ k').
    + unfold prvIncrementQueueTxLock. destruct (_ <? _); [|done].
      destruct (Z.eqb_spec (cTxLock q') queueINT8_MAX) as [Em|Em]; [right; congruence|].
      destruct (qt_locks _ Hq') as [Hr Ht]. apply typed_locks; [done|done|lia].
  - left. apply Hc. destruct E as [?|E]; [by left|right; auto].
Qed.

Lemma receive_attempt_typed q k :
  queue_typed q -> match receive_attempt q k with Some (q', _, _) => queue_typed q' | None => False end.
Proof.
  intros Hq. unfold receive_attempt. destruct (Z.ltb_spec 0 (uxMessagesWaiting q)) as [Hp|]; [|done].
  destruct (copy_from_typed q Hq) as (q' & item & -> & Hq' & Ec). apply typed_count; [done|].
  pose proof (qt_count _ Hq'). pose proof (qt_length _ Hq'). rewrite u32_id; unfold is_u32; lia.
Qed.

Lemma take_attempt_typed q k : queue_typed q -> queue_typed (fst (fst (take_attempt q k))).
Proof.
  intros Hq. unfold take_attempt. destruct (Z.ltb_spec 0 (uxMessagesWaiting q)) as [Hp|]; [|done].
  pose proof (qt_count _ Hq). pose proof (qt_length _ Hq).
  assert (Hq' : queue_typed (set_waiting (u32 (uxMessagesWaiting q - 1)) q)).
  { apply typed_count; [done|]. rewrite u32_id; unfold is_u32; lia. }
  destruct (is_mutex (set_waiting _ q)) eqn:Em; [|done]. cbn [fst pvTaskIncrementMutexHeldCount].
  apply (typed_semaphore (set_waiting _ q)); [done|done|].
  pose proof (qt_union _ Hq') as Hu. rewrite Em in Hu. destruct Hu as (_ & _ & h & n & Hu & Hn).
  unfold uxRecursiveCallCount. by rewrite Hu.
Qed.

Lemma reset_typed q k :
  queue_typed q -> is_mutex q = false ->
  exists q' k', xQueueGenericReset false q k = Some (q', k') /\ queue_typed q'.
Proof.
  intros Hq Hm. pose proof Hq as [H1 H2 H3 H4 H5]. rewrite Hm in H5. destruct H5 as (Hh & r & Hu & Hr & Hw & Hst).
  unfold xQueueGenericReset. rewrite (proj2 (Z.leb_le 1 _)) by lia.
  rewrite (proj2 (Z.leb_le (uxItemSize q) _)) by (apply Z.div_le_lower_bound; nia). cbn [andb].
  unfold head_of. rewrite Hh. change (default 0 (Some 0)) with 0.
  match goal with |- context [mkQueue (Some 0) 0 ?x ?a ?b ?c ?d ?e ?f ?g ?h] =>
    set (q' := mkQueue (Some 0) 0 x a b c d e f g h) end.
  assert (Hq' : queue_typed q').
  { eapply typed_update; try exact Hq; try done; [cbn; lia|]. rewrite Hm. cbn [u q']. eexists.
    rewrite (u32_id (uxLength q - 1)), !u32_id by (unfold is_u32; nia). split; [reflexivity|].
    split; [|by exists 0; split; [lia|]]. exists (uxLength q - 1). split; [lia|done]. }
  destruct (al_items _); [by exists q', k|]. destruct (xTaskRemoveFromEventList _ k) as [k' y].
  exists q'. by eexists.
Qed.

Lemma section_type_safe s q k :
  queue_typed q -> section_typed s q ->
  match run_section s q k with Some (q', _) => queue_typed q' | None => stopped s q k end.
Proof.
  intros Hq Ht. destruct (qt_locks _ Hq) as [Hrx Htx].
  destruct s as [item pos| | |item pos| | | | |]; cbn [run_section].
  - pose proof (send_attempt_typed item pos q k Hq Ht) as H.
    by destruct (send_attempt item pos q k) as [[[??]?]|].
  - pose proof (receive_attempt_typed q k Hq) as H. by destruct (receive_attempt q k) as [[[??]?]|].
  - pose proof (take_attempt_typed q k Hq) as H. by destruct (take_attempt q k) as [[??]?].
  - pose proof (isr_typed item pos q k Hq Ht) as H.
    by destruct (xQueueGenericSendFromISR item pos q k) as [[[[??]?]?]|].
  - unfold prvLockQueue. apply typed_locks; [done| |]; case_match; unfold queueUNLOCKED, queueLOCKED_UNMODIFIED, queueINT8_MAX in *; lia.
  - unfold prvUnlockQueue. by apply typed_locks.
  - destruct (reset_typed q k Hq Ht) as (q' & k' & -> & H). done.
  - unfold give_begin. case_decide; [|done]. cbn [default]. apply typed_semaphore; [done|done|apply u32_range].
  - apply typed_semaphore; [done|done|apply u32_range].
Qed.

Lemma create_typed addr n s st k q k' :
  is_u32 n -> is_u32 s -> (forall b, st = Some b -> n * s <= Z.of_nat (length b)) ->
  xQueueGenericCreateStatic addr n s st k = Some (q, k') -> queue_typed q /\ is_mutex q = false /\
    uxMessagesWaiting q = 0 /\ uxItemSize q = s /\ uxLength q = n.
Proof.
  intros Hn Hs Hst. unfold xQueueGenericCreateStatic, prvInitialiseNewQueue, xQueueGenericReset.
  destruct (0 <? n) eqn:E0; [|done]. cbn [andb uxLength uxItemSize].
  destruct (negb (match st with Some _ => true | None => false end && (s =? 0))) eqn:E1; [|done].
  destruct (negb (negb (match st with Some _ => true | None => false end) && negb (s =? 0))) eqn:E2; [|done].
  destruct (1 <=? n) eqn:E3; [|done]. destruct (Z.leb_spec s (4294967295 / n)) as [E4|]; [|done].
  unfold is_u32 in *. assert (Hb : n * s < 4294967296).
  { pose proof (Z.mul_div_le 4294967295 n ltac:(lia)). nia. }
  cbn [andb head_of pcHead]. change (default 0 (Some 0)) with 0. intros [= <- _].
  split; [|done]. rewrite (u32_id (n * s)), (u32_id (n - 1)), u32_id by (unfold is_u32; nia).
  split; cbn; [lia|lia|lia|unfold queueUNLOCKED, queueINT8_MAX; lia|]. split; [done|].
  exists ((n - 1) * s). split; [done|]. split; [exists (n - 1); split; [cbn; lia|done]|].
  split; [by exists 0; split; [cbn; lia|]|]. intros Hpos. destruct st as [b|]; [by apply Hst|].
  cbn in E2. rewrite (proj2 (Z.eqb_neq s 0)) in E2 by lia. done.
Qed.

(** A new mutex is free. *)
Lemma mutex_created addr k q k' :
  xQueueCreateMutexStatic addr k = Some (q, k') ->
  queue_typed q /\ is_mutex q = true /\ uxMessagesWaiting q = 1 /\ u q = xSemaphore None 0.
Proof.
  unfold xQueueCreateMutexStatic.
  destruct (xQueueGenericCreateStatic addr 1 0 None k) as [[q1 k1]|] eqn:E; [|done].
  apply create_typed in E as (Hq & _ & Hw & Hs & Hl); [|done..].
  unfold prvInitialiseMutex. rewrite send_now_attempt by (cbn; by rewrite ?Hs).
  unfold send_attempt. cbn [uxMessagesWaiting uxLength]. rewrite Hw, Hl. cbn [Z.ltb Z.compare orb].
  unfold prvCopyDataToQueue. cbn [uxItemSize]. rewrite Hs. cbn. rewrite ?Hw.
  intros E. apply (inj Some) in E. injection E as <- _.
  split; [|done]. destruct (qt_locks _ Hq) as [Hrx Htx].
  split; cbn; [lia|lia|vm_compute; split; done|done|]. split; [done|]. split; [done|]. by exists None, 0.
Qed.

(** A queue or mutex in use: created, then any sections. *)
Inductive in_use : Queue -> Prop :=
| new_queue addr n s st k q k' :
    is_u32 n -> is_u32 s -> (forall b, st = Some b -> n * s <= Z.of_nat (length b)) ->
    xQueueGenericCreateStatic addr n s st k = Some (q, k') -> in_use q
| new_mutex addr k q k' : xQueueCreateMutexStatic addr k = Some (q, k') -> in_use q
| next_section s q k q' k' :
    in_use q -> section_typed s q -> run_section s q k = Some (q', k') -> in_use q'.

(** C22. A queue stays well typed.  Whatever sections of sends, receives, takes,
    interrupts, locks and unlocks, resets, gives and counts have run on a queue or
    a mutex since its creation, by whatever tasks and with whatever kernel state,
    the count of its items is within its length, the read and the write pointers
    stand on items of the storage, the lock counts fit their type, and the union
    holds the member that its kind of queue reads; a next section of a caller that
    passes items of the queue's size has a result, unless an assertion of the
    source stops it. *)
Theorem queue_type_safety q s k :
  in_use q -> section_typed s q ->
  queue_typed q /\
  match run_section s q k with Some (q', _) => queue_typed q' | None => stopped s q k end.
Proof.
  intros Hu Hs. assert (Hq : queue_typed q); [clear s k Hs|by split; [|apply section_type_safe]].
  induction Hu as [addr n s st k q k' Hn Hsz Hst E|addr k q k' E|s q k q' k' _ Hq Hs E].
  - by apply create_typed in E as (? & _).
  - by apply mutex_created in E as (? & _).
  - pose proof (section_type_safe s q k Hq Hs) as H. by rewrite E in H.
Qed.

Definition sample_mutex : Queue :=
  match xQueueCreateMutexStatic 2000 sample_kernel_empty with Some (q, _) => q | None => sample_queue end.

Lemma sample_queue_in_use : in_use sample_queue.
Proof.
  apply (new_queue 1000 3 2 (Some (replicate 6 0)) sample_kernel_empty sample_queue
    (vListInitialise_event (EEvent 1036) (vListInitialise_event (EEvent 1016) sample_kernel_empty))).
  - unfold is_u32; lia.
  - unfold is_u32; lia.
  - intros b E. injection E as <-. vm_compute. discriminate.
  - vm_compute. reflexivity.
Qed.

Lemma sample_mutex_in_use : in_use sample_mutex.
Proof.
  apply (new_mutex 2000 sample_kernel_empty sample_mutex
    (vListInitialise_event (EEvent 2036) (vListInitialise_event (EEvent 2016) sample_kernel_empty))).
  vm_compute. reflexivity.
Qed.

(** A send to the front of a new queue, and an unlock of a new mutex. *)
Lemma queue_type_safety_witness :
  (queue_typed sample_queue /\
   match run_section (QsSend (sample_item 5 6) queueSEND_TO_FRONT) sample_queue sample_kernel_empty with
   | Some (q', _) => queue_typed q'
   | None => stopped (QsSend (sample_item 5 6) queueSEND_TO_FRONT) sample_queue sample_kernel_empty
   end) /\
  (queue_typed sample_mutex /\
   match run_section QsUnlock sample_mutex sample_kernel_empty with
   | Some (q', _) => queue_typed q'
   | None => stopped QsUnlock sample_mutex sample_kernel_empty
   end).
Proof.
  split.
  - apply queue_type_safety; [exact sample_queue_in_use|]. split; [vm_compute; reflexivity|discriminate].
  - apply queue_type_safety; [exact sample_mutex_in_use|exact I].
Defined.

(** ** The recursive mutex *)

(** Where a task is in [xQueueTakeMutexRecursive] or [xQueueGiveMutexRecursive]:
    before an attempt or a decision to block of [xQueueSemaphoreTake], after an
    expired block time, between the take and the count of the call, between the
    last give and the release. *)
Inductive pc :=
| Outside | Trying (c : call) | Blocking (c : call) | Expired (c : call) | Counting | Releasing.

Record mstate := MState { m_queue : Queue; m_kernel : kernel; m_pc : Z -> pc }.

(** What a call tells its task: acquired, gave up, released, refused a give. *)
Inductive event := Silent | Acquired (t : Z) | GaveUp (t : Z) | Released (t : Z) | Refused (t : Z).

(** The fields of a queue that make a mutex. *)
Definition core (q : Queue) := (pcHead q, u q, uxMessagesWaiting q, uxLength q, uxItemSize q).

(** Interrupts do not take or give mutexes. *)
Definition irq_safe (f : Queue * kernel -> Queue * kernel) : Prop := forall s, core (fst (f s)) = core (fst s).

(** A section of the running task's call, or anything that leaves the mutex
    alone: switches to other tasks, time, other objects. *)
Inductive mstep : mstate -> event -> mstate -> Prop :=
| step_environment q k pcs k' : mstep (MState q k pcs) Silent (MState q k' pcs)
| step_take_again q k pcs :
    pcs (pxCurrentTCB k) = Outside -> xMutexHolder q = Some (pxCurrentTCB k) ->
    uxRecursiveCallCount q < 4294967295 ->
    mstep (MState q k pcs) Silent (MState q k (<[pxCurrentTCB k := Counting]> pcs))
| step_take q k pcs ticks :
    pcs (pxCurrentTCB k) = Outside -> xMutexHolder q <> Some (pxCurrentTCB k) ->
    mstep (MState q k pcs) Silent (MState q k (<[pxCurrentTCB k := Trying (new_call ticks)]> pcs))
| step_attempt q k pcs c q' k' :
    pcs (pxCurrentTCB k) = Trying c -> take_attempt q k = (q', k', Returns true) ->
    mstep (MState q k pcs) Silent (MState q' k' (<[pxCurrentTCB k := Counting]> pcs))
| step_no_time q k pcs c q' k' :
    pcs (pxCurrentTCB k) = Trying c -> take_attempt q k = (q', k', Waits) -> attempt_failed c k' = None ->
    mstep (MState q k pcs) (GaveUp (pxCurrentTCB k)) (MState q' k' (<[pxCurrentTCB k := Outside]> pcs))
| step_wait q k pcs c q' k' c' :
    pcs (pxCurrentTCB k) = Trying c -> take_attempt q k = (q', k', Waits) -> attempt_failed c k' = Some c' ->
    mstep (MState q k pcs) Silent (MState q' k' (<[pxCurrentTCB k := Blocking c']> pcs))
| step_block q k pcs c v q' k' expired c' :
    pcs (pxCurrentTCB k) = Blocking c -> at_block v = (q, k) ->
    irq_safe (on_locked v) -> irq_safe (on_placed v) ->
    block_section prvIsQueueEmpty xTasksWaitingToReceive mutex_inheritance c v = (q', k', expired, c') ->
    mstep (MState q k pcs) Silent
      (MState q' k' (<[pxCurrentTCB k := if expired then Expired c' else Trying c']> pcs))
| step_retry q k pcs c :
    pcs (pxCurrentTCB k) = Expired c -> prvIsQueueEmpty q = false ->
    mstep (MState q k pcs) Silent (MState q k (<[pxCurrentTCB k := Trying c]> pcs))
| step_give_up q k pcs c k' :
    pcs (pxCurrentTCB k) = Expired c ->
    (if xInheritanceOccurred c
     then vTaskPriorityDisinheritAfterTimeout (xMutexHolder q) (prvGetDisinheritPriorityAfterTimeout q k) k = Some k'
     else k' = k) ->
    mstep (MState q k pcs) (GaveUp (pxCurrentTCB k)) (MState q k' (<[pxCurrentTCB k := Outside]> pcs))
| step_count q k pcs :
    pcs (pxCurrentTCB k) = Counting ->
    mstep (MState q k pcs) (Acquired (pxCurrentTCB k))
      (MState (count_call q) k (<[pxCurrentTCB k := Outside]> pcs))
| step_refused q k pcs :
    pcs (pxCurrentTCB k) = Outside -> give_begin q k = None ->
    mstep (MState q k pcs) (Refused (pxCurrentTCB k)) (MState q k pcs)
| step_give q k pcs q' :
    pcs (pxCurrentTCB k) = Outside -> give_begin q k = Some q' ->
    mstep (MState q k pcs) (Released (pxCurrentTCB k))
      (MState q' k (<[pxCurrentTCB k := if uxRecursiveCallCount q' =? 0 then Releasing else Outside]> pcs))
| step_release q k pcs q' k' r :
    pcs (pxCurrentTCB k) = Releasing -> send_now [] queueSEND_TO_BACK q k = Some (q', k', r) ->
    mstep (MState q k pcs) Silent (MState q' k' (<[pxCurrentTCB k := Outside]> pcs)).

Inductive mrun : mstate -> list event -> mstate -> Prop :=
| mrun_nil s : mrun s [] s
| mrun_step s1 e s2 l s3 : mstep s1 e s2 -> mrun s2 l s3 -> mrun s1 (e :: l) s3.

(** *** The specification *)

(** A recursive lock: free, or its owner and how often it was acquired. *)
Definition lock := option (Z * Z).

Inductive lock_step : lock -> event -> lock -> Prop :=
| lock_silent l : lock_step l Silent l
| lock_first t : lock_step None (Acquired t) (Some (t, 1))
| lock_again t n : 1 <= n -> lock_step (Some (t, n)) (Acquired t) (Some (t, n + 1))
| lock_gave_up l t : (forall n, l <> Some (t, n)) -> lock_step l (GaveUp t) l
| lock_release t : lock_step (Some (t, 1)) (Released t) None
| lock_release_one t n : 1 < n -> lock_step (Some (t, n)) (Released t) (Some (t, n - 1))
| lock_refused l t : (forall n, l <> Some (t, n)) -> lock_step l (Refused t) l.

Inductive lock_run : lock -> list event -> lock -> Prop :=
| lock_run_nil l : lock_run l [] l
| lock_run_step l1 e l2 es l3 : lock_step l1 e l2 -> lock_run l2 es l3 -> lock_run l1 (e :: es) l3.

(** *** Simulation *)

(** Not between acquiring and counting, nor between giving and releasing. *)
Definition settled (p : pc) : Prop := match p with Counting | Releasing => False | _ => True end.

(** The mutex, where the tasks are, and the lock they implement. *)
Definition simulates (s : mstate) (l : lock) : Prop :=
  let q := m_queue s in
  is_mutex q = true /\ uxItemSize q = 0 /\ uxLength q = 1 /\
  exists h n, u q = xSemaphore h n /\
  match h with
  | None => uxMessagesWaiting q = 1 /\ n = 0 /\ l = None /\ forall t, settled (m_pc s t)
  | Some t =>
    uxMessagesWaiting q = 0 /\ (forall u, u <> t -> settled (m_pc s u)) /\
    match m_pc s t with
    | Outside => 1 <= n < 4294967296 /\ l = Some (t, n)
    | Counting => 0 <= n < 4294967295 /\ l = (if n =? 0 then None else Some (t, n))
    | Releasing => n = 0 /\ l = None
    | _ => False
    end
  end.

Lemma core_eq q q' :
  core q' = core q ->
  is_mutex q' = is_mutex q /\ u q' = u q /\ uxMessagesWaiting q' = uxMessagesWaiting q /\
  uxLength q' = uxLength q /\ uxItemSize q' = uxItemSize q.
Proof. unfold core, is_mutex. intros [= -> -> -> -> ->]. done. Qed.

Lemma unlock_core q k : core (fst (prvUnlockQueue q k)) = core q.
Proof. done. Qed.

Lemma block_core busy e inherit c v :
  irq_safe (on_locked v) -> irq_safe (on_placed v) ->
  core (fst (fst (fst (block_section busy e inherit c v)))) = core (fst (at_block v)).
Proof.
  intros H1 H2. unfold block_section. destruct (at_block v) as [q k]. cbn [fst].
  pose proof (H1 (prvLockQueue q, vTaskSuspendAll k)) as E1.
  destruct (on_locked v (prvLockQueue q, vTaskSuspendAll k)) as [q1 k1]. cbn [fst] in E1.
  assert (E2 : forall k2, core (fst (on_placed v (q1, k2))) = core q).
  { intros k2. rewrite H2. exact E1. }
  destruct (xTaskCheckForTimeOut _ _ _) as [[expired o] ticks].
  destruct expired; [|destruct (busy q1); [destruct (inherit q1 k1) as [k2 i]|]];
    repeat match goal with |- context [on_placed v (q1, ?k)] =>
      specialize (E2 k); destruct (on_placed v (q1, k)) as [q3 k3]; cbn [fst] in E2 end;
    unfold prvUnlockQueue; try exact E2.
  destruct (xTaskResumeAll _). exact E2.
Qed.

(** A task that tries, waits or has run out of time does not hold the mutex. *)
Definition in_take (p : pc) : Prop := match p with Trying _ | Blocking _ | Expired _ => True | _ => False end.

Lemma trying_not_holder q k pcs l t :
  simulates (MState q k pcs) l -> in_take (pcs t) -> xMutexHolder q <> Some t.
Proof.
  intros (_ & _ & _ & h & n & Hu & H) Ht. cbn [m_queue] in Hu. unfold xMutexHolder. rewrite Hu. intros ->.
  destruct H as (_ & _ & H). cbn [m_pc] in H. by destruct (pcs t).
Qed.

Lemma not_owner q k pcs l t :
  simulates (MState q k pcs) l -> xMutexHolder q <> Some t -> forall n, l <> Some (t, n).
Proof.
  intros (_ & _ & _ & h & m & Hu & H). cbn [m_queue] in Hu. unfold xMutexHolder. rewrite Hu. intros Hne n ->.
  destruct h as [t'|]; [|by destruct H as (_ & _ & H & _)].
  destruct H as (_ & _ & H). cbn [m_pc] in H.
  destruct (pcs t'); try done; destruct H as [_ H]; simplify_eq; try (by destruct (m =? 0); simplify_eq).
Qed.

(** A step of another task than the holder, which leaves the mutex as it was. *)
Lemma simulates_other q k pcs l t p q' k' :
  simulates (MState q k pcs) l -> xMutexHolder q <> Some t -> settled p -> core q' = core q ->
  simulates (MState q' k' (<[t := p]> pcs)) l.
Proof.
  intros (H1 & H2 & H3 & h & n & Hu & H) Hne Hp Hc. cbn [m_queue] in *. apply core_eq in Hc as (E1 & E2 & E3 & E4 & E5).
  unfold xMutexHolder in Hne. rewrite Hu in Hne.
  unfold simulates. cbn [m_queue m_pc]. rewrite E1, E2, E3, E4, E5. do 3 (split; [done|]). exists h, n.
  split; [done|]. destruct h as [t'|].
  - destruct H as (Hw & Ho & H). split; [done|]. rewrite (fn_lookup_insert_ne _ t t') by congruence. split; [|done].
    intros u Hut. destruct (decide (u = t)) as [->|Hut2]; [by rewrite fn_lookup_insert|].
    rewrite fn_lookup_insert_ne by done. by apply Ho.
  - destruct H as (Hw & Hn & Hl & Hall). split_and!; try done. intros u.
    destruct (decide (u = t)) as [->|Hut2]; [by rewrite fn_lookup_insert|].
    rewrite fn_lookup_insert_ne by done. apply Hall.
Qed.

Lemma take_attempt_waits q k q' k' : take_attempt q k = (q', k', Waits) -> q' = q /\ k' = k.
Proof. unfold take_attempt. repeat case_match; intros; simplify_eq; done. Qed.

Lemma take_simulates q k pcs l t q' k' :
  t = pxCurrentTCB k ->
  simulates (MState q k pcs) l -> settled (pcs t) -> take_attempt q k = (q', k', Returns true) ->
  simulates (MState q' k' (<[t := Counting]> pcs)) l.
Proof.
  intros Et (H1 & H2 & H3 & h & n & Hu & H) Ht E. unfold take_attempt in E. cbn [m_queue] in *.
  destruct h as [t'|].
  { destruct H as (Hw & _). rewrite Hw in E. done. }
  destruct H as (Hw & -> & -> & Hall). cbn [m_pc] in Hall. rewrite Hw in E. cbn [Z.ltb Z.compare] in E.
  change (is_mutex (set_waiting (u32 (1 - 1)) q)) with (is_mutex q) in E. rewrite H1 in E.
  cbn [pvTaskIncrementMutexHeldCount] in E. injection E as <- <-.
  unfold simulates. cbn [m_queue m_pc]. do 3 (split; [done|]). exists (Some t), 0.
  split; [unfold uxRecursiveCallCount; cbn; rewrite Hu; by subst|]. rewrite fn_lookup_insert.
  split; [done|]. split; [|split; [lia|done]]. intros v Hv. rewrite fn_lookup_insert_ne by done. apply Hall.
Qed.

Lemma count_simulates q k pcs l t :
  simulates (MState q k pcs) l -> pcs t = Counting ->
  exists l', lock_step l (Acquired t) l' /\ simulates (MState (count_call q) k (<[t := Outside]> pcs)) l'.
Proof.
  intros (H1 & H2 & H3 & h & n & Hu & H) Ht. cbn [m_queue m_pc] in *.
  destruct h as [t'|]; [|destruct H as (_ & _ & _ & Hall); specialize (Hall t); by rewrite Ht in Hall].
  destruct H as (Hw & Ho & H). destruct (decide (t = t')) as [<-|Hne]; [|specialize (Ho t Hne); by rewrite Ht in Ho].
  rewrite Ht in H. destruct H as (Hn & ->). exists (Some (t, n + 1)). split.
  - destruct (Z.eqb_spec n 0) as [->|]; [constructor|]. apply lock_again. lia.
  - unfold simulates. cbn [m_queue m_pc]. do 3 (split; [done|]). exists (Some t), (n + 1).
    unfold count_call, set_recursion, xMutexHolder, uxRecursiveCallCount. rewrite Hu. cbn [u set_union].
    rewrite u32_id by (unfold is_u32; lia). split; [done|]. rewrite fn_lookup_insert.
    split; [done|]. split; [|split; [lia|done]]. intros v Hv. rewrite fn_lookup_insert_ne by done. by apply Ho.
Qed.

Lemma give_simulates q k pcs l t q' :
  t = pxCurrentTCB k ->
  simulates (MState q k pcs) l -> pcs t = Outside -> give_begin q k = Some q' ->
  exists l', lock_step l (Released t) l' /\
    simulates (MState q' k (<[t := if uxRecursiveCallCount q' =? 0 then Releasing else Outside]> pcs)) l'.
Proof.
  intros Et (H1 & H2 & H3 & h & n & Hu & H) Ht. cbn [m_queue m_pc] in *.
  unfold give_begin, xMutexHolder. rewrite Hu, <- Et. case_decide as Eh; [|done]. subst h. intros [= <-].
  destruct H as (Hw & Ho & H). rewrite Ht in H. destruct H as (Hn & ->).
  unfold set_recursion, uxRecursiveCallCount, xMutexHolder. rewrite Hu. cbn [u set_union].
  rewrite u32_id by (unfold is_u32; lia).
  exists (if n - 1 =? 0 then None else Some (t, n - 1)). split.
  - destruct (Z.eqb_spec (n - 1) 0); [replace n with 1 by lia; constructor|apply lock_release_one; lia].
  - unfold simulates. cbn [m_queue m_pc]. do 3 (split; [done|]). exists (Some t), (n - 1). split; [done|].
    rewrite fn_lookup_insert. split; [done|]. split.
    + intros v Hv. rewrite fn_lookup_insert_ne by done. by apply Ho.
    + destruct (Z.eqb_spec (n - 1) 0); [by split|]. split; [lia|done].
Qed.

Lemma release_simulates q k pcs l t q' k' r :
  simulates (MState q k pcs) l -> pcs t = Releasing -> send_now [] queueSEND_TO_BACK q k = Some (q', k', r) ->
  simulates (MState q' k' (<[t := Outside]> pcs)) l.
Proof.
  intros (H1 & H2 & H3 & h & n & Hu & H) Ht. cbn [m_queue m_pc] in *.
  destruct h as [t'|]; [|destruct H as (_ & _ & _ & Hall); specialize (Hall t); by rewrite Ht in Hall].
  destruct H as (Hw & Ho & H). destruct (decide (t = t')) as [<-|Hne]; [|specialize (Ho t Hne); by rewrite Ht in Ho].
  rewrite Ht in H. destruct H as (-> & ->).
  rewrite send_now_attempt by (cbn; by rewrite ?H2). unfold send_attempt. rewrite Hw, H3.
  cbn [Z.ltb Z.compare orb]. unfold prvCopyDataToQueue. rewrite H2, H1. cbn [Z.eqb].
  destruct (xTaskPriorityDisinherit _ k) as [[k1 y]|]; [|done]. intros [= <- <- <-].
  unfold simulates. cbn [m_queue m_pc]. do 3 (split; [done|]). exists None, 0.
  split; [unfold uxRecursiveCallCount; cbn; by rewrite Hu|]. split; [cbn; by rewrite Hw|]. split_and!; [done..|].
  intros v. destruct (decide (v = t)) as [->|Hv]; [by rewrite fn_lookup_insert|].
  rewrite fn_lookup_insert_ne by done. by apply Ho.
Qed.

Lemma simulates_env q k k' pcs l : simulates (MState q k pcs) l -> simulates (MState q k' pcs) l.
Proof. done. Qed.

Lemma take_again_simulates q k pcs l t :
  simulates (MState q k pcs) l -> pcs t = Outside -> xMutexHolder q = Some t ->
  uxRecursiveCallCount q < 4294967295 -> simulates (MState q k (<[t := Counting]> pcs)) l.
Proof.
  intros (H1 & H2 & H3 & h & n & Hu & H) Ht. cbn [m_queue m_pc] in *.
  unfold xMutexHolder, uxRecursiveCallCount. rewrite Hu. intros -> Hn. destruct H as (Hw & Ho & H).
  rewrite Ht in H. destruct H as (Hb & ->). unfold simulates. cbn [m_queue m_pc]. do 3 (split; [done|]).
  exists (Some t), n. split; [done|]. rewrite fn_lookup_insert. split; [done|]. split.
  - intros v Hv. rewrite fn_lookup_insert_ne by done. by apply Ho.
  - rewrite (proj2 (Z.eqb_neq n 0)) by lia. split; [lia|done].
Qed.

Lemma mstep_simulates s e s' l :
  mstep s e s' -> simulates s l -> exists l', lock_step l e l' /\ simulates s' l'.
Proof.
  intros Hstep Hs.
  assert (Hold : forall q k pcs, simulates (MState q k pcs) l -> in_take (pcs (pxCurrentTCB k)) ->
    xMutexHolder q <> Some (pxCurrentTCB k)) by (intros; by eapply trying_not_holder).
  assert (Hsil : forall s'', simulates s'' l -> exists l', lock_step l Silent l' /\ simulates s'' l')
    by (intros s'' ?; exists l; split; [constructor|done]).
  destruct Hstep as [q k pcs k'|q k pcs Hp Hh Hb|q k pcs ticks Hp Hh|q k pcs c q' k' Hp E
    |q k pcs c q' k' Hp E Hf|q k pcs c q' k' c' Hp E Hf|q k pcs c v q' k' ex c' Hp Ev Hi1 Hi2 E|q k pcs c Hp E
    |q k pcs c k' Hp E|q k pcs Hp|q k pcs Hp E|q k pcs q' Hp E|q k pcs q' k' r Hp E].
  - by apply Hsil.
  - apply Hsil. by apply take_again_simulates.
  - apply Hsil. by eapply simulates_other.
  - apply Hsil. eapply take_simulates; try done. by rewrite Hp.
  - apply take_attempt_waits in E as [-> ->]. assert (xMutexHolder q <> Some (pxCurrentTCB k))
      by (eapply Hold; [done|by rewrite Hp]).
    exists l. split; [constructor; by eapply not_owner|by eapply simulates_other].
  - apply take_attempt_waits in E as [-> ->]. apply Hsil.
    eapply simulates_other; try done. eapply Hold; [done|by rewrite Hp].
  - apply Hsil. eapply simulates_other; try done.
    + eapply Hold; [done|by rewrite Hp].
    + by destruct ex.
    + pose proof (block_core prvIsQueueEmpty xTasksWaitingToReceive mutex_inheritance c v Hi1 Hi2) as Hc.
      by rewrite E, Ev in Hc.
  - apply Hsil. eapply simulates_other; try done. eapply Hold; [done|by rewrite Hp].
  - assert (xMutexHolder q <> Some (pxCurrentTCB k)) by (eapply Hold; [done|by rewrite Hp]).
    exists l. split; [constructor; by eapply not_owner|by eapply simulates_other].
  - by eapply count_simulates.
  - exists l. split; [|done]. constructor. eapply not_owner; [done|]. revert E. unfold give_begin. by case_decide.
  - by eapply give_simulates.
  - apply Hsil. by eapply release_simulates.
Qed.

Lemma mrun_simulates s es s' l :
  mrun s es s' -> simulates s l -> exists l', lock_run l es l' /\ simulates s' l'.
Proof.
  intros Hr; revert l; induction Hr as [s|s1 e s2 es s3 Hs Hr IH]; intros l Hl.
  - exists l. split; [constructor|done].
  - destruct (mstep_simulates _ _ _ _ Hs Hl) as (l2 & Hl1 & Hl2). destruct (IH l2 Hl2) as (l3 & H1 & H2).
    exists l3. split; [by econstructor|done].
Qed.

(** The release of a task that is counted as a holder does not stop. *)
Lemma release_progress q k pcs l t :
  t = pxCurrentTCB k -> simulates (MState q k pcs) l -> pcs t = Releasing ->
  uxMutexesHeld (tcb k t) <> 0 -> is_Some (send_now [] queueSEND_TO_BACK q k).
Proof.
  intros Et (H1 & H2 & H3 & h & n & Hu & H) Ht Hm. cbn [m_queue m_pc] in *.
  destruct h as [t'|]; [|destruct H as (_ & _ & _ & Hall); specialize (Hall t); by rewrite Ht in Hall].
  destruct H as (Hw & Ho & H). destruct (decide (t = t')) as [<-|Hne]; [|specialize (Ho t Hne); by rewrite Ht in Ho].
  rewrite send_now_attempt by (cbn; by rewrite ?H2). unfold send_attempt. rewrite Hw, H3.
  cbn [Z.ltb Z.compare orb]. unfold prvCopyDataToQueue. rewrite H2, H1. cbn [Z.eqb].
  unfold xMutexHolder, xTaskPriorityDisinherit. rewrite Hu, <- Et, Z.eqb_refl.
  rewrite (proj2 (Z.eqb_neq _ 0)) by done. cbn [negb orb].
  repeat case_match; simplify_eq; eauto.
Qed.

(** C17. A recursive mutex is a recursive lock.  Take a new mutex and any
    interleaving of the sections of its takes (with any block times, and whatever
    interrupts do to other objects) and gives by any tasks with each other and with
    anything else that the kernel does.  What the calls tell the tasks is a history
    of a recursive lock: a task acquires it only when it is free or its own, a give
    counts only from the owner and frees the lock when it is the last, and a give
    from another task is refused.  While the lock is held the mutex records its
    owner, and the release of a task that the scheduler counts as holding a mutex
    does not stop.  (The count of nested takes stays below [2^32 - 1].) *)
Theorem recursive_mutex_refines_lock addr k0 q k1 es s :
  xQueueCreateMutexStatic addr k0 = Some (q, k1) -> mrun (MState q k1 (fun _ => Outside)) es s ->
  exists l, lock_run None es l /\
    (forall t n, l = Some (t, n) -> xMutexHolder (m_queue s) = Some t /\ prvIsQueueEmpty (m_queue s) = true) /\
    (forall t, t = pxCurrentTCB (m_kernel s) -> m_pc s t = Releasing -> uxMutexesHeld (tcb (m_kernel s) t) <> 0 ->
       is_Some (send_now [] queueSEND_TO_BACK (m_queue s) (m_kernel s))).
Proof.
  intros Hc Hr. apply mutex_created in Hc as (Hq & Hm & Hw & Hu).
  pose proof (qt_union _ Hq) as Hun. rewrite Hm in Hun. destruct Hun as (Hsz & Hlen & _).
  destruct (mrun_simulates _ _ _ None Hr) as (l & Hl & Hs).
  { split_and!; try done. by exists None, 0. }
  exists l. split; [done|]. destruct s as [q' k' pcs]. split.
  - intros t n ->. destruct (decide (xMutexHolder q' = Some t)) as [E|E];
      [|by pose proof (not_owner _ _ _ _ _ Hs E n)].
    split; [done|]. destruct Hs as (_ & _ & _ & h & m & Hu' & H). unfold xMutexHolder in E. cbn [m_queue] in *.
    rewrite Hu' in E. subst h. destruct H as (Hw' & _). unfold prvIsQueueEmpty. by rewrite Hw'.
  - intros t Et Hp Hh. by eapply release_progress.
Qed.

(** Task 100 takes the mutex twice; task 200 finds it held, without and with a
    block time, and its give is refused; task 100 gives it back. *)
Definition mutex_events : list event :=
  [Silent; Silent; Silent; Acquired 100; Silent; Acquired 100; Silent; Silent; GaveUp 200; Silent; Silent; Silent;
   Refused 300; Silent; Released 100; Released 100; Silent].

Definition booted_kernel : kernel := Eval vm_compute in sample_kernel.
Definition task_runs (t : Z) : kernel := Eval cbv in set_current t booted_kernel.

Lemma mutex_events_run :
  exists q k s, xQueueCreateMutexStatic 2000 sample_kernel = Some (q, k) /\ mrun (MState q k (fun _ => Outside)) mutex_events s.
Proof.
  eexists _, _, _. split; [vm_compute; reflexivity|].
  eapply mrun_step; [eapply (step_environment _ _ _ (task_runs 100))|].
  eapply mrun_step; [eapply (step_take _ _ _ 0); vm_compute; done|].
  eapply mrun_step; [eapply (step_attempt _ _ _ (new_call 0)); [vm_compute; reflexivity|vm_compute; reflexivity]|].
  eapply mrun_step; [eapply step_count; vm_compute; reflexivity|].
  eapply mrun_step; [eapply step_take_again; vm_compute; reflexivity|].
  eapply mrun_step; [eapply step_count; vm_compute; reflexivity|].
  eapply mrun_step; [eapply (step_environment _ _ _ (task_runs 200))|].
  eapply mrun_step; [eapply (step_take _ _ _ 0); vm_compute; done|].
  eapply mrun_step; [eapply (step_no_time _ (task_runs 200) _ (new_call 0)); vm_compute; reflexivity|].
  eapply mrun_step; [eapply (step_take _ _ _ 5); vm_compute; done|].
  eapply mrun_step; [eapply (step_wait _ _ _ (new_call 5)); vm_compute; reflexivity|].
  eapply mrun_step; [eapply (step_environment _ _ _ (task_runs 300))|].
  eapply mrun_step; [eapply (step_refused _ (task_runs 300)); vm_compute; reflexivity|].
  eapply mrun_step; [eapply (step_environment _ _ _ (set_mutexes 100 1 (task_runs 100)))|].
  eapply mrun_step; [eapply (step_give _ (set_mutexes 100 1 (task_runs 100))); vm_compute; reflexivity|].
  eapply mrun_step; [eapply (step_give _ (set_mutexes 100 1 (task_runs 100))); vm_compute; reflexivity|].
  eapply mrun_step; [eapply step_release; vm_compute; reflexivity|].
  apply mrun_nil.
Qed.

Lemma recursive_mutex_refines_lock_witness : exists l, lock_run None mutex_events l.
Proof.
  destruct mutex_events_run as (q & k & s & E & Hr).
  destruct (recursive_mutex_refines_lock 2000 sample_kernel q k mutex_events s E Hr) as (l & Hl & _).
  exists l. exact Hl.
Defined.
