(* ===== verification/KernelTimeout.v ===== *)
(** * Block times

    The ticks of the kernel are counted modulo [2^32], with a count of the
    overflows; a blocking call measures its time from both.  The theorem: whatever
    the interleaving, and across the overflow of the tick count, a blocking call of
    [KernelQueue] fails only when its block time is over, and one whose time is
    over returns. *)

From S2P Require Import Prelude KernelList KernelTasks KernelSched KernelQueue KernelSync.
From stdpp Require Import list gmap.
#[local] Open Scope Z_scope.

(** ** The clock *)

(** [T] ticks have been counted since the scheduler started. *)
Definition clock (k : kernel) (T : Z) : Prop :=
  0 <= T /\ xTickCount k = T mod 4294967296 /\ xNumOfOverflows k = i32 (T / 4294967296).

Definition time_of (k : kernel) : Z * Z := (xTickCount k, xNumOfOverflows k).

Lemma time_set_slist l f k : time_of (set_slist l f k) = time_of k.
Proof. by destruct k, l. Qed.

Lemma time_wake t k : time_of (prvAddTaskToReadyList t k) = time_of k.
Proof. unfold prvAddTaskToReadyList. by rewrite time_set_slist. Qed.

Lemma time_remove_state t k : time_of (fst (remove_state t k)) = time_of k.
Proof. unfold remove_state. destruct (state_container k t); [apply time_set_slist|done]. Qed.

Lemma time_remove_event t k : time_of (remove_event t k) = time_of k.
Proof. unfold remove_event. by destruct (event_container k t). Qed.

Lemma time_unblock_loop fuel now k sw : time_of (fst (unblock_loop fuel now k sw)) = time_of k.
Proof.
  revert k sw; induction fuel as [|fuel IH]; intros k sw; [done|]. cbn [unblock_loop].
  destruct (al_items _) as [|t l]; [done|]. case_match; [done|].
  rewrite IH, time_wake. case_match; rewrite ?time_remove_event; apply time_remove_state.
Qed.

Lemma time_switch k : time_of (taskSWITCH_DELAYED_LISTS k) = (xTickCount k, i32 (xNumOfOverflows k + 1)).
Proof. unfold taskSWITCH_DELAYED_LISTS, prvResetNextTaskUnblockTime. by case_match. Qed.

Lemma i32_succ z : i32 (i32 z + 1) = i32 (z + 1).
Proof. unfold i32, u32. repeat case_match; Z.div_mod_to_equations; lia. Qed.

Lemma i32_neq_succ z : i32 (z + 1) <> i32 z.
Proof. unfold i32, u32. repeat case_match; Z.div_mod_to_equations; lia. Qed.

(** The tick interrupt counts one. *)
Lemma tick_clock k T :
  clock k T -> uxSchedulerSuspended k = 0 -> clock (fst (xTaskIncrementTick k)) (T + 1).
Proof.
  intros (HT & Ht & Ho) Hs. unfold xTaskIncrementTick. rewrite Hs. cbn [Z.eqb].
  set (now := u32 (xTickCount k + 1)). set (k1 := set_time now _ _ k).
  set (k2 := if now =? 0 then _ else _).
  assert (E : time_of k2 = (now, if now =? 0 then i32 (xNumOfOverflows k + 1) else xNumOfOverflows k)).
  { unfold k2. destruct (now =? 0); [by rewrite time_switch|done]. }
  match goal with |- context [let '(k, sw) := ?x in _] =>
    assert (E2 : time_of (fst x) = time_of k2) by (clearbody k2; destruct (xNextTaskUnblockTime k2 <=? now); [apply time_unblock_loop|done]);
    destruct x as [k3 sw] end.
  cbn [fst] in *. rewrite E in E2. injection E2 as E3 E4. clear k1 k2 E.
  unfold clock. rewrite E3, E4, Ho. unfold now. rewrite Ht. unfold u32.
  pose proof (Z.div_mod T 4294967296 ltac:(lia)). pose proof (Z.mod_pos_bound T 4294967296 ltac:(lia)).
  split; [lia|]. rewrite Z.add_mod_idemp_l by lia. split; [done|].
  destruct (Z.eqb_spec ((T + 1) mod 4294967296) 0) as [E0|E0].
  - assert ((T + 1) / 4294967296 = T / 4294967296 + 1) as ->.
    { pose proof (Z.div_mod (T + 1) 4294967296 ltac:(lia)). lia. }
    apply i32_succ.
  - f_equal. pose proof (Z.div_mod (T + 1) 4294967296 ltac:(lia)).
    pose proof (Z.mod_pos_bound (T + 1) 4294967296 ltac:(lia)). lia.
Qed.

(** ** Measuring a block time *)

Definition timeout_at (t : Z) : TimeOut := mkTimeOut (i32 (t / 4294967296)) (t mod 4294967296).

Lemma clock_timeout k T : clock k T -> vTaskInternalSetTimeOutState k = timeout_at T.
Proof. intros (_ & H1 & H2). unfold vTaskInternalSetTimeOutState. by rewrite H1, H2. Qed.

(** A check after less than [2^32] ticks measures them. *)
Lemma check_measures k t T ticks :
  clock k T -> 0 <= t <= T -> T - t < 4294967296 -> is_u32 ticks ->
  xTaskCheckForTimeOut (timeout_at t) ticks k =
    if ticks <=? T - t then (true, timeout_at t, 0) else (false, timeout_at T, ticks - (T - t)).
Proof.
  intros Hk Ht Hgap Hticks. pose proof (clock_timeout k T Hk) as Hset. destruct Hk as (_ & H1 & H2).
  unfold xTaskCheckForTimeOut. rewrite Hset. cbn [timeout_at xTimeOnEntering xOverflowCount]. rewrite H1, H2.
  pose proof (Z.div_mod t 4294967296 ltac:(lia)). pose proof (Z.mod_pos_bound t 4294967296 ltac:(lia)).
  pose proof (Z.div_mod T 4294967296 ltac:(lia)). pose proof (Z.mod_pos_bound T 4294967296 ltac:(lia)).
  assert (Hel : u32 (T mod 4294967296 - t mod 4294967296) = T - t).
  { unfold u32. rewrite <- Zminus_mod. apply Z.mod_small. lia. }
  rewrite Hel.
  assert (Hno : negb (i32 (T / 4294967296) =? i32 (t / 4294967296)) && (t mod 4294967296 <=? T mod 4294967296) = false).
  { assert (T / 4294967296 = t / 4294967296 \/ T / 4294967296 = t / 4294967296 + 1) as [E|E] by lia.
    - by rewrite E, Z.eqb_refl.
    - rewrite (proj2 (Z.leb_gt _ _)) by lia. apply andb_false_r. }
  rewrite Hno. unfold is_u32 in Hticks.
  destruct (Z.ltb_spec (T - t) ticks), (Z.leb_spec ticks (T - t)); try lia; [|done].
  rewrite u32_id by (unfold is_u32; lia). done.
Qed.

(** The variables of a call that started with a block time [d]: before its first
    failed attempt at [t0]; between, its last section at [t]; or out of time. *)
Definition phase (c : call) (d t0 t : Z) : Prop :=
  (xTimeOut c = None /\ xTicksToWait c = d /\ t = t0) \/
  (is_Some (xTimeOut c) /\ xTicksToWait c = 0 /\ d <= t - t0) \/
  (xTimeOut c = Some (timeout_at t) /\ 0 <= t0 <= t /\ t - t0 < d /\ xTicksToWait c = d - (t - t0)).

(** The variables when the call decides whether to block. *)
Definition measuring (c : call) (d t0 t : Z) : Prop :=
  xTimeOut c = Some (timeout_at t) /\ 0 <= t0 <= t /\ t - t0 < d /\ xTicksToWait c = d - (t - t0).

Lemma attempt_failed_phase c d t0 t a k :
  phase c d t0 t -> (xTimeOut c = None -> a = t0) -> clock k a ->
  0 <= d ->
  match attempt_failed c k with
  | None => d <= t - t0
  | Some c' => measuring c' d t0 t
  end.
Proof.
  intros Hp Ha Hk Hd. unfold attempt_failed. destruct Hp as [(Ht & Hx & ->)|[(Ht & Hx & Hd')|(Ht & Hb & Hd' & Hx)]].
  - rewrite Hx, Ht. destruct (Z.eqb_spec d 0); [lia|]. specialize (Ha Ht) as ->.
    unfold measuring. cbn. rewrite (clock_timeout _ _ Hk). destruct Hk as [? _]. split_and!; try done; lia.
  - rewrite Hx. cbn. lia.
  - rewrite (proj2 (Z.eqb_neq _ 0)) by lia. rewrite Ht. done.
Qed.

(** The kernel that the check of a turn sees. *)
Definition locked_kernel (v : view) : kernel :=
  snd (on_locked v (prvLockQueue (fst (at_block v)), vTaskSuspendAll (snd (at_block v)))).

Lemma block_section_phase busy e inherit c v d t0 t b :
  measuring c d t0 t -> is_u32 d -> clock (locked_kernel v) b -> t <= b -> b - t < 4294967296 ->
  let '(_, _, expired, c') := block_section busy e inherit c v in
  expired = (d <=? b - t0) /\ is_Some (xTimeOut c') /\ phase c' d t0 b.
Proof.
  intros (Ht & Hb & Hd & Hx) Hdu Hk Htb Hgap. unfold block_section, locked_kernel in *.
  destruct (at_block v) as [q k]. cbn [fst snd] in Hk.
  destruct (on_locked v (prvLockQueue q, vTaskSuspendAll k)) as [q1 k1]. cbn [snd] in Hk.
  rewrite Ht. change (default _ (Some (timeout_at t))) with (timeout_at t).
  rewrite (check_measures k1 t b), Hx by (done || lia || (unfold is_u32 in *; lia)).
  replace (d - (t - t0) <=? b - t) with (d <=? b - t0) by (destruct (Z.leb_spec d (b - t0)), (Z.leb_spec (d - (t - t0)) (b - t)); lia).
  destruct (Z.leb_spec d (b - t0)) as [He|He].
  - destruct (on_placed v (q1, k1)) as [q2 k2]. cbn. split; [done|]. split; [by eexists|]. right; left.
    cbn. split; [by eexists|done].
  - assert (Hph : forall i, phase (mkCall (d - (t - t0) - (b - t)) (Some (timeout_at b)) i) d t0 b).
    { intros i. right; right. cbn. split_and!; try done; lia. }
    destruct (busy q1).
    + destruct (inherit q1 k1) as [k2 i]. destruct (on_placed v _) as [q3 k3].
      destruct (prvUnlockQueue q3 k3) as [q4 k4], (xTaskResumeAll k4) as [k5 y].
      split; [done|]. split; [by eexists|apply Hph].
    + destruct (on_placed v _) as [q3 k3]. cbn. split; [done|]. split; [by eexists|apply Hph].
Qed.

(** ** Calls over time *)

(** The views of a call's turns with the times of its attempts and checks, after a
    section at [t]: time does not go back, and less than [2^32] ticks pass between a
    section and the next check. *)
Fixpoint timed (t : Z) (vs : list view) (ts : list (Z * Z)) : Prop :=
  match vs, ts with
  | [], [] => True
  | v :: vs, (a, b) :: ts =>
    t <= a <= b /\ b - t < 4294967296 /\ clock (snd (at_attempt v)) a /\ clock (locked_kernel v) b /\ timed b vs ts
  | _, _ => False
  end.

(** The first attempt is at [t0]. *)
Definition starts (ts : list (Z * Z)) (t0 : Z) : Prop := match ts with (a, _) :: _ => a = t0 | [] => False end.

(** Some check found the time over. *)
Definition time_over (d t0 : Z) (ts : list (Z * Z)) : Prop := exists p, (p ∈ ts) /\ d <= snd p - t0.

(** A turn after that is in the list. *)
Definition turn_after (d t0 : Z) (ts : list (Z * Z)) : Prop :=
  exists i p, ts !! i = Some p /\ d <= snd p - t0 /\ (S i < length ts)%nat.

Lemma turn_after_next d t0 p ts :
  turn_after d t0 (p :: ts) -> (d <= snd p - t0 /\ ts <> []) \/ turn_after d t0 ts.
Proof.
  intros ([|i] & p' & Hi & Hd & Hl).
  - injection Hi as <-. left. split; [done|]. by destruct ts; [cbn in Hl; lia|].
  - right. exists i, p'. split_and!; try done. cbn in Hl. lia.
Qed.

Lemma send_attempt_waits item pos q k q' k' : send_attempt item pos q k = Some (q', k', Waits) -> q' = q /\ k' = k.
Proof. unfold send_attempt. repeat case_match; intros; simplify_eq; done. Qed.
Lemma send_attempt_true item pos q k q' k' r : send_attempt item pos q k = Some (q', k', Returns r) -> r = true.
Proof. unfold send_attempt. repeat case_match; intros; simplify_eq; done. Qed.
Lemma receive_attempt_waits q k q' k' : receive_attempt q k = Some (q', k', Waits) -> q' = q /\ k' = k.
Proof. unfold receive_attempt. repeat case_match; intros; simplify_eq; done. Qed.
Lemma take_attempt_true q k q' k' r : take_attempt q k = (q', k', Returns r) -> r = true.
Proof. unfold take_attempt. repeat case_match; intros; simplify_eq; done. Qed.

(** What one turn does to the time: the call gives up without blocking, or the
    check knows whether the time is over. *)
Lemma turn_phase c d t0 t v a b busy e inherit :
  phase c d t0 t -> is_u32 d -> (xTimeOut c = None -> a = t0) ->
  t <= a <= b -> b - t < 4294967296 -> clock (snd (at_attempt v)) a -> clock (locked_kernel v) b ->
  match attempt_failed c (snd (at_attempt v)) with
  | None => d <= t - t0
  | Some c1 =>
    let '(_, _, expired, c2) := block_section busy e inherit c1 v in
    expired = (d <=? b - t0) /\ is_Some (xTimeOut c2) /\ phase c2 d t0 b
  end.
Proof.
  intros Hp Hd Ha Hab Hgap Hka Hkb.
  pose proof (attempt_failed_phase c d t0 t a _ Hp Ha Hka (proj1 Hd)) as Hf.
  destruct (attempt_failed c _) as [c1|]; [|done]. apply (block_section_phase busy e inherit c1 v d t0 t); try done; lia.
Qed.

Lemma late_here d t0 a b ts : d <= b - t0 -> time_over d t0 ((a, b) :: ts).
Proof. intros. exists (a, b). split; [constructor|done]. Qed.
Lemma late_there d t0 t p ts :
  d <= snd p - t0 \/ time_over d t0 ts -> d <= t - t0 \/ time_over d t0 (p :: ts).
Proof.
  intros [H|(p' & H1 & H2)]; right; [exists p|exists p']; split; try done; by constructor.
Qed.

Section Loops.
Context (d t0 : Z) (Hd : is_u32 d).

Lemma send_loop_late item pos c t vs ts q k :
  phase c d t0 t -> timed t vs ts -> (xTimeOut c = None -> starts ts t0) ->
  send_loop item pos c vs = Some (q, k, false) -> d <= t - t0 \/ time_over d t0 ts.
Proof.
  revert c t ts; induction vs as [|v vs IH]; intros c t [|[a b] ts] Hp Ht Hs; try done.
  destruct Ht as (Hab & Hgap & Hka & Hkb & Ht). cbn [send_loop].
  pose proof (turn_phase c d t0 t v a b prvIsQueueFull xTasksWaitingToSend no_inheritance Hp Hd Hs Hab Hgap Hka Hkb) as Hf.
  destruct (at_attempt v) as [q1 k1]. cbn [snd] in *.
  destruct (send_attempt item pos q1 k1) as [[[q2 k2] [r|]]|] eqn:E; [apply send_attempt_true in E as ->; done| |done].
  apply send_attempt_waits in E as [-> ->]. destruct (attempt_failed c k1) as [c1|]; [|by left].
  destruct (block_section _ _ _ c1 v) as [[[q3 k3] expired] c2]. destruct Hf as (-> & [o Ho] & Hf).
  destruct (Z.leb_spec d (b - t0)) as [Hl|Hl]; [intros _; right; by apply late_here|].
  intros Hr. apply late_there. eapply IH; try done. by rewrite Ho.
Qed.

Lemma receive_loop_late c t vs ts q k :
  phase c d t0 t -> timed t vs ts -> (xTimeOut c = None -> starts ts t0) ->
  receive_loop c vs = Some (q, k, None) -> d <= t - t0 \/ time_over d t0 ts.
Proof.
  revert c t ts; induction vs as [|v vs IH]; intros c t [|[a b] ts] Hp Ht Hs; try done.
  destruct Ht as (Hab & Hgap & Hka & Hkb & Ht). cbn [receive_loop].
  pose proof (turn_phase c d t0 t v a b prvIsQueueEmpty xTasksWaitingToReceive no_inheritance Hp Hd Hs Hab Hgap Hka Hkb) as Hf.
  destruct (at_attempt v) as [q1 k1]. cbn [snd] in *.
  destruct (receive_attempt q1 k1) as [[[q2 k2] [r|]]|] eqn:E; [done| |done].
  apply receive_attempt_waits in E as [-> ->]. destruct (attempt_failed c k1) as [c1|]; [|by left].
  destruct (block_section _ _ _ c1 v) as [[[q3 k3] expired] c2]. destruct Hf as (-> & [o Ho] & Hf).
  destruct (Z.leb_spec d (b - t0)) as [Hl|Hl]; [intros _; right; by apply late_here|].
  intros Hr. apply late_there. eapply IH; try done. by rewrite Ho.
Qed.

Lemma take_loop_late c t vs ts q k :
  phase c d t0 t -> timed t vs ts -> (xTimeOut c = None -> starts ts t0) ->
  take_loop c vs = Some (q, k, false) -> d <= t - t0 \/ time_over d t0 ts.
Proof.
  revert c t ts; induction vs as [|v vs IH]; intros c t [|[a b] ts] Hp Ht Hs; try done.
  destruct Ht as (Hab & Hgap & Hka & Hkb & Ht). cbn [take_loop].
  pose proof (turn_phase c d t0 t v a b prvIsQueueEmpty xTasksWaitingToReceive mutex_inheritance Hp Hd Hs Hab Hgap Hka Hkb) as Hf.
  destruct (at_attempt v) as [q1 k1]. cbn [snd] in *.
  destruct (take_attempt q1 k1) as [[q2 k2] [r|]] eqn:E; [apply take_attempt_true in E as ->; done|].
  apply take_attempt_waits in E as [-> ->]. destruct (attempt_failed c k1) as [c1|]; [|by left].
  destruct (block_section _ _ _ c1 v) as [[[q3 k3] expired] c2]. destruct Hf as (-> & [o Ho] & Hf).
  destruct (Z.leb_spec d (b - t0)) as [Hl|Hl]; [intros _; right; by apply late_here|].
  intros Hr. apply late_there. eapply IH; try done. by rewrite Ho.
Qed.

(** A call whose time is over does not block again. *)
Definition due (t : Z) (vs : list view) (ts : list (Z * Z)) : Prop :=
  (d <= t - t0 /\ vs <> []) \/ turn_after d t0 ts.

Lemma due_no_wait c t k : phase c d t0 t -> d <= t - t0 -> attempt_failed c k = None.
Proof.
  intros Hp Hl. unfold attempt_failed. destruct Hp as [(_ & Hx & ->)|[(_ & Hx & _)|(_ & _ & ? & _)]]; [| |lia].
  - rewrite Hx. destruct Hd. by replace d with 0 by lia.
  - by rewrite Hx.
Qed.

Lemma due_next t v vs a b ts :
  timed b vs ts -> due t (v :: vs) ((a, b) :: ts) -> ~ d <= t - t0 -> due b vs ts.
Proof.
  intros Ht [[? _]|Hn] Hno; [done|]. apply turn_after_next in Hn as [[Hl Hne]|Hn]; [left|by right].
  split; [done|]. intros ->. by destruct ts.
Qed.

(** The sections of a send to a queue of items do not stop, nor those of a receive
    from any queue; a take may stop where it returns an inherited priority. *)
Definition send_runs (item : bytes) (pos : position) (v : view) : Prop :=
  let q := fst (at_attempt v) in
  queue_typed q /\ is_mutex q = false /\ section_typed (QsSend item pos) q.
Definition receive_runs (v : view) : Prop := queue_typed (fst (at_attempt v)).
Definition take_runs (v : view) : Prop :=
  let '(q, k) := at_disinherit v in
  is_Some (vTaskPriorityDisinheritAfterTimeout (xMutexHolder q) (prvGetDisinheritPriorityAfterTimeout q k) k).

Lemma send_loop_returns item pos c t vs ts :
  phase c d t0 t -> timed t vs ts -> (xTimeOut c = None -> starts ts t0) -> Forall (send_runs item pos) vs ->
  due t vs ts -> is_Some (send_loop item pos c vs).
Proof.
  revert c t ts; induction vs as [|v vs IH]; intros c t [|[a b] ts] Hp Ht Hs Hok Hdue; try done;
    [by destruct Hdue as [[_ ?]|(i & p & ? & _)]|].
  destruct Ht as (Hab & Hgap & Hka & Hkb & Ht). cbn [send_loop].
  apply list.Forall_cons in Hok as [(Hq & Hm & Hit) Hok].
  pose proof (turn_phase c d t0 t v a b prvIsQueueFull xTasksWaitingToSend no_inheritance Hp Hd Hs Hab Hgap Hka Hkb) as Hf.
  destruct (at_attempt v) as [q1 k1]. cbn [fst snd] in *.
  pose proof (send_attempt_typed item pos q1 k1 Hq Hit) as Hst.
  destruct (send_attempt item pos q1 k1) as [[[q2 k2] [r|]]|] eqn:E; [by eexists| |].
  2:{ destruct Hst as [Hst _]. congruence. }
  apply send_attempt_waits in E as [-> ->]. destruct (attempt_failed c k1) as [c1|] eqn:Ef; [|by eexists].
  destruct (block_section _ _ _ c1 v) as [[[q3 k3] expired] c2]. destruct Hf as (-> & [o Ho] & Hf).
  destruct (Z.leb_spec d (b - t0)) as [Hl|Hl]; [by eexists|].
  eapply IH; try done; [by rewrite Ho|]. eapply due_next; try done.
  intros Hl'. by rewrite (due_no_wait c t k1 Hp Hl') in Ef.
Qed.

Lemma receive_loop_returns c t vs ts :
  phase c d t0 t -> timed t vs ts -> (xTimeOut c = None -> starts ts t0) -> Forall receive_runs vs ->
  due t vs ts -> is_Some (receive_loop c vs).
Proof.
  revert c t ts; induction vs as [|v vs IH]; intros c t [|[a b] ts] Hp Ht Hs Hok Hdue; try done;
    [by destruct Hdue as [[_ ?]|(i & p & ? & _)]|].
  destruct Ht as (Hab & Hgap & Hka & Hkb & Ht). cbn [receive_loop].
  apply list.Forall_cons in Hok as [Hq Hok]. unfold receive_runs in Hq.
  pose proof (turn_phase c d t0 t v a b prvIsQueueEmpty xTasksWaitingToReceive no_inheritance Hp Hd Hs Hab Hgap Hka Hkb) as Hf.
  destruct (at_attempt v) as [q1 k1]. cbn [fst snd] in *.
  pose proof (receive_attempt_typed q1 k1 Hq) as Hst.
  destruct (receive_attempt q1 k1) as [[[q2 k2] [r|]]|] eqn:E; [by eexists| |done].
  apply receive_attempt_waits in E as [-> ->]. destruct (attempt_failed c k1) as [c1|] eqn:Ef; [|by eexists].
  destruct (block_section _ _ _ c1 v) as [[[q3 k3] expired] c2]. destruct Hf as (-> & [o Ho] & Hf).
  assert (Hrest : is_Some (receive_loop c2 vs)).
  { eapply IH; try done; [by rewrite Ho|]. eapply due_next; try done.
    intros Hl'. by rewrite (due_no_wait c t k1 Hp Hl') in Ef. }
  destruct (d <=? b - t0); [|done]. destruct (at_expiry v) as [q4 k4].
  destruct (prvIsQueueEmpty q4); [by eexists|done].
Qed.

Lemma take_loop_returns c t vs ts :
  phase c d t0 t -> timed t vs ts -> (xTimeOut c = None -> starts ts t0) -> Forall take_runs vs ->
  due t vs ts -> is_Some (take_loop c vs).
Proof.
  revert c t ts; induction vs as [|v vs IH]; intros c t [|[a b] ts] Hp Ht Hs Hok Hdue; try done;
    [by destruct Hdue as [[_ ?]|(i & p & ? & _)]|].
  destruct Ht as (Hab & Hgap & Hka & Hkb & Ht). cbn [take_loop].
  apply list.Forall_cons in Hok as [Hq Hok]. unfold take_runs in Hq.
  pose proof (turn_phase c d t0 t v a b prvIsQueueEmpty xTasksWaitingToReceive mutex_inheritance Hp Hd Hs Hab Hgap Hka Hkb) as Hf.
  destruct (at_attempt v) as [q1 k1]. cbn [fst snd] in *.
  destruct (take_attempt q1 k1) as [[q2 k2] [r|]] eqn:E; [by eexists|].
  apply take_attempt_waits in E as [-> ->]. destruct (attempt_failed c k1) as [c1|] eqn:Ef; [|by eexists].
  destruct (block_section _ _ _ c1 v) as [[[q3 k3] expired] c2]. destruct Hf as (-> & [o Ho] & Hf).
  assert (Hrest : is_Some (take_loop c2 vs)).
  { eapply IH; try done; [by rewrite Ho|]. eapply due_next; try done.
    intros Hl'. by rewrite (due_no_wait c t k1 Hp Hl') in Ef. }
  destruct (d <=? b - t0); [|done]. destruct (at_expiry v) as [q4 k4].
  destruct (prvIsQueueEmpty q4); [|done]. destruct (xInheritanceOccurred c2); [|by eexists].
  destruct (at_disinherit v) as [q5 k5]. destruct Hq as [k6 ->]. by eexists.
Qed.
End Loops.

(** The entry of a call. *)
Lemma entered {A} (b : bool) (x : option A) r : (if b then x else None) = Some r -> x = Some r.
Proof. by destruct b. Qed.

Lemma new_call_phase d t0 : phase (new_call d) d t0 t0.
Proof. by left. Qed.

(** A call that failed had no block time, or its time was over. *)
Lemma send_fails d t0 vs ts item pos q k :
  is_u32 d -> timed t0 vs ts -> starts ts t0 ->
  xQueueGenericSend item pos d vs = Some (q, k, false) -> d = 0 \/ time_over d t0 ts.
Proof.
  intros Hd Ht Hs H. unfold xQueueGenericSend in H. destruct vs as [|v vs]; [done|].
  destruct (at_attempt v) as [q1 k1] eqn:Ev. apply entered in H.
  destruct (send_loop_late d t0 Hd _ _ _ t0 _ ts _ _ (new_call_phase d t0) Ht (fun _ => Hs) H) as [?|?]; [|by right].
  left. destruct Hd. lia.
Qed.

Lemma receive_fails d t0 vs ts q k :
  is_u32 d -> timed t0 vs ts -> starts ts t0 ->
  xQueueReceive d vs = Some (q, k, None) -> d = 0 \/ time_over d t0 ts.
Proof.
  intros Hd Ht Hs H. unfold xQueueReceive in H. destruct vs as [|v vs]; [done|]. apply entered in H.
  destruct (receive_loop_late d t0 Hd _ t0 _ ts _ _ (new_call_phase d t0) Ht (fun _ => Hs) H) as [?|?]; [|by right].
  left. destruct Hd. lia.
Qed.

Lemma take_fails d t0 vs ts q k :
  is_u32 d -> timed t0 vs ts -> starts ts t0 ->
  xQueueSemaphoreTake d vs = Some (q, k, false) -> d = 0 \/ time_over d t0 ts.
Proof.
  intros Hd Ht Hs H. unfold xQueueSemaphoreTake in H. destruct vs as [|v vs]; [done|].
  destruct (at_attempt v) as [q1 k1] eqn:Ev. apply entered in H.
  destruct (take_loop_late d t0 Hd _ t0 _ ts _ _ (new_call_phase d t0) Ht (fun _ => Hs) H) as [?|?]; [|by right].
  left. destruct Hd. lia.
Qed.

(** C20. A blocking call keeps its block time.  Take a send, a receive or a take
    with a block time of [d] ticks, whose first attempt is at tick [t0], and any
    behaviour of other tasks and interrupts between and within its turns, with less
    than [2^32] ticks from a section to the next check, across any number of
    overflows of the tick count.  If the call fails, then [d] is zero or a check of
    the call came [d] ticks or more after [t0]; and if a check of a turn comes [d]
    ticks or more after [t0] and the next turn runs, the call has returned.  In
    particular [portMAX_DELAY] is a finite block time. *)
Theorem blocking_calls_keep_time d t0 vs ts :
  is_u32 d -> timed t0 vs ts -> starts ts t0 ->
  (forall item pos q k, xQueueGenericSend item pos d vs = Some (q, k, false) -> d = 0 \/ time_over d t0 ts) /\
  (forall q k, xQueueReceive d vs = Some (q, k, None) -> d = 0 \/ time_over d t0 ts) /\
  (forall q k, xQueueSemaphoreTake d vs = Some (q, k, false) -> d = 0 \/ time_over d t0 ts) /\
  (turn_after d t0 ts ->
    (forall item pos, Forall (send_runs item pos) vs -> is_Some (send_loop item pos (new_call d) vs)) /\
    (Forall receive_runs vs -> is_Some (receive_loop (new_call d) vs)) /\
    (Forall take_runs vs -> is_Some (take_loop (new_call d) vs))).
Proof.
  intros Hd Ht Hs. pose proof (new_call_phase d t0) as Hp. split_and!.
  - intros item pos q k. by apply send_fails.
  - intros q k. by apply receive_fails.
  - intros q k. by apply take_fails.
  - intros Hn. split_and!; intros; [eapply send_loop_returns|eapply receive_loop_returns|eapply take_loop_returns];
      try done; by right.
Qed.

(** A receive of ten ticks that starts six ticks before the tick count overflows. *)
Definition kernel_at (T : Z) : kernel :=
  let k := sample_kernel_empty in
  Kernel (tcbs k) (pxCurrentTCB k) (pxReadyTasksLists k) (xDelayedTaskList1 k) (xDelayedTaskList2 k)
    (pxDelayedTaskList k) (events k) (uxTopReadyPriority k) (uxSchedulerSuspended k) (T mod 4294967296)
    (xPendedTicks k) (i32 (T / 4294967296)) (xNextTaskUnblockTime k) (xYieldPending k) (xPendSV k)
    (xSchedulerRunning k).
Definition view_at (a b : Z) : view :=
  View (sample_queue, kernel_at a) (sample_queue, kernel_at b) (fun s => s) (fun s => s)
    (sample_queue, kernel_at b) (sample_queue, kernel_at b).
Definition sample_start : Z := 4294967290.
Definition sample_times : list (Z * Z) :=
  [(sample_start, sample_start + 2); (sample_start + 7, sample_start + 9); (sample_start + 13, sample_start + 14);
   (sample_start + 15, sample_start + 16)].
Definition sample_views : list view := map (fun '(a, b) => view_at a b) sample_times.

Lemma kernel_at_clock T : 0 <= T -> clock (kernel_at T) T.
Proof. done. Qed.
Lemma locked_at_clock a b : 0 <= b -> clock (locked_kernel (view_at a b)) b.
Proof. done. Qed.

Lemma sample_views_timed : timed sample_start sample_views sample_times.
Proof.
  assert (0 <= sample_start) by done. unfold sample_views, sample_times. cbn [map timed].
  repeat match goal with
    | |- clock (snd (at_attempt (view_at ?a ?b))) ?a => apply (kernel_at_clock a); lia
    | |- clock (locked_kernel (view_at ?a ?b)) ?b => apply (locked_at_clock a b); lia
    | |- _ /\ _ => split
    | |- True => exact I
    | |- _ => lia
    end.
Qed.

Lemma blocking_calls_keep_time_witness :
  (exists q k, xQueueReceive 10 sample_views = Some (q, k, None)) /\
  (forall q k, xQueueReceive 10 sample_views = Some (q, k, None) ->
     10 = 0 \/ time_over 10 sample_start sample_times) /\
  (Forall take_runs sample_views -> is_Some (take_loop (new_call 10) sample_views)).
Proof.
  destruct (blocking_calls_keep_time 10 sample_start sample_views sample_times) as (_ & H1 & _ & H2).
  - unfold is_u32. lia.
  - exact sample_views_timed.
  - reflexivity.
  - split; [vm_compute; eexists _, _; reflexivity|]. split; [exact H1|]. apply H2.
    exists 2%nat, (sample_start + 13, sample_start + 14). split; [reflexivity|]. cbn. lia.
Defined.
