(* ===== verification/SysArch.v ===== *)
(** * The lwIP system layer ([lwip/system/OS/sys_arch.c])

    The project's own adaptation of lwIP's system interface to FreeRTOS:
    time, critical sections, mutexes, binary semaphores, mailboxes and threads,
    all in static storage, on the queues of [KernelQueue].  A handle that is not
    [NULL] is the queue in the object; a call on an object without one prints its
    assertion and stops at the one of the queue functions ([None]).

    The theorems: a mailbox delivers the messages it accepted once and in order,
    whatever tasks and interrupts post and fetch; a wait tells a timeout only after
    its time, and otherwise the time it took; threads get distinct slots. *)

From S2P Require Import Prelude KernelList KernelTasks KernelSched KernelQueue KernelSync KernelTimeout.
From stdpp Require Import list gmap.
#[local] Open Scope Z_scope.

(** ** Constants *)

Definition ERR_OK : Z := 0.
Definition ERR_MEM : Z := -1.
Definition ERR_ARG : Z := -16.
Definition SYS_ARCH_TIMEOUT : Z := 4294967295.
Definition SYS_MBOX_EMPTY : Z := SYS_ARCH_TIMEOUT.
Definition SYS_ARCH_MBOX_CAPACITY : Z := 16.
Definition SYS_ARCH_THREAD_COUNT : Z := 2.
Definition SYS_ARCH_THREAD_STACK_WORDS : Z := 512.
Definition configTICK_RATE_HZ : Z := 1000.
Definition portTICK_PERIOD_MS : Z := 1000 / configTICK_RATE_HZ.

(** The product has 64 bits. *)
Definition pdMS_TO_TICKS (ms : Z) : Z := u32 (ms * configTICK_RATE_HZ / 1000).

(** ** Time *)

Definition sys_now (k : kernel) : Z := u32 (xTickCount k * portTICK_PERIOD_MS).
Definition sys_jiffies (k : kernel) : Z := xTickCount k.

Definition sys_arch_msleep (delayMs : Z) (k : kernel) : kernel :=
  let delay := pdMS_TO_TICKS delayMs in
  vTaskDelay (if 0 <? delay then delay else 1) k.

(** ** Critical sections *)

(** The port's nesting count, whether interrupts are masked, and the number of the
    active exception ([portVECTACTIVE_MASK] of the control register). *)
Record critical := Critical { uxCriticalNesting : Z; masked : bool; vectactive : Z }.

Definition vPortEnterCritical (c : critical) : option critical :=
  let c := Critical (u32 (uxCriticalNesting c + 1)) true (vectactive c) in
  if (uxCriticalNesting c =? 1) && negb (vectactive c =? 0) then None else Some c.

Definition vPortExitCritical (c : critical) : option critical :=
  if uxCriticalNesting c =? 0 then None
  else
    let n := u32 (uxCriticalNesting c - 1) in
    Some (Critical n (if n =? 0 then false else masked c) (vectactive c)).

Definition sys_arch_protect (c : critical) : option (critical * Z) :=
  match vPortEnterCritical c with Some c => Some (c, 1) | None => None end.
Definition sys_arch_unprotect (protection : Z) (c : critical) : option critical := vPortExitCritical c.

(** ** Mutexes and semaphores *)

(** The object at the address of its storage: [None] for a [NULL] argument.  The
    kernel's creation functions stop instead of returning [NULL]. *)
Definition sys_mutex_new (mutex : option Z) (k : kernel) : option (option Queue * kernel * Z) :=
  match mutex with
  | None => Some (None, k, ERR_ARG)
  | Some storage =>
    match xQueueCreateMutexStatic storage k with
    | Some (q, k) => Some (Some q, k, ERR_OK)
    | None => None
    end
  end.

(** The views and environment of [xQueueTakeMutexRecursive]; the result is not
    used. *)
Definition sys_mutex_lock (vs : list view) (env : Queue * kernel -> Queue * kernel) (handle : option Queue)
    (k : kernel) : option (Queue * kernel) :=
  match handle with
  | None => None
  | Some q =>
    match xQueueTakeMutexRecursive portMAX_DELAY vs env q k with
    | Some (q, k, _) => Some (q, k)
    | None => None
    end
  end.

Definition sys_mutex_unlock (env : Queue * kernel -> Queue * kernel) (handle : option Queue) (k : kernel)
  : option (Queue * kernel) :=
  match handle with
  | None => None
  | Some q =>
    match xQueueGiveMutexRecursive env q k with
    | Some (q, k, _) => Some (q, k)
    | None => None
    end
  end.

(** [vQueueDelete] has no storage to free: the handle becomes [NULL]. *)
Definition sys_mutex_free (handle : option Queue) : option Queue := None.

Definition xSemaphoreGive (q : Queue) (k : kernel) := send_now [] queueSEND_TO_BACK q k.

Definition sys_sem_new (semaphore : option Z) (initialCount : Z) (k : kernel)
  : option (option Queue * kernel * Z) :=
  match semaphore with
  | None => Some (None, k, ERR_ARG)
  | Some storage =>
    if 1 <? initialCount then Some (None, k, ERR_ARG)
    else
      match xQueueGenericCreateStatic storage 1 0 None k with
      | None => None
      | Some (q, k) =>
        if initialCount =? 0 then Some (Some q, k, ERR_OK)
        else match xSemaphoreGive q k with
             | Some (q, k, _) => Some (Some q, k, ERR_OK)
             | None => None
             end
      end
  end.

Definition sys_sem_signal (handle : option Queue) (k : kernel) : option (Queue * kernel) :=
  match handle with
  | None => None
  | Some q => match xSemaphoreGive q k with Some (q, k, _) => Some (q, k) | None => None end
  end.

(** The block time of a wait. *)
Definition wait_ticks (timeoutMs : Z) : Z :=
  let timeout := if timeoutMs =? 0 then portMAX_DELAY else pdMS_TO_TICKS timeoutMs in
  if negb (timeoutMs =? 0) && (timeout =? 0) then 1 else timeout.

(** [start] is the tick count at the call, [finish] the kernel after the take. *)
Definition sys_arch_sem_wait (timeoutMs : Z) (start : Z) (vs : list view) (finish : kernel -> kernel)
  : option (Queue * kernel * Z) :=
  match xQueueSemaphoreTake (wait_ticks timeoutMs) vs with
  | None => None
  | Some (q, k, false) => Some (q, k, SYS_ARCH_TIMEOUT)
  | Some (q, k, true) =>
    let k := finish k in Some (q, k, u32 (u32 (xTickCount k - start) * portTICK_PERIOD_MS))
  end.

Definition sys_sem_free (handle : option Queue) : option Queue := None.

(** ** Mailboxes *)

(** A [void*] as it is stored. *)
Definition pointer (message : Z) : bytes := le_enc 4 message.
Definition message_of (received : bytes) : Z := Prelude.le_dec received.

(** [messages] is the array of the object. *)
Definition sys_mbox_new (mailbox : option (Z * bytes)) (size : Z) (k : kernel)
  : option (option Queue * kernel * Z) :=
  match mailbox with
  | None => Some (None, k, ERR_ARG)
  | Some (queue, messages) =>
    if (size <=? 0) || (SYS_ARCH_MBOX_CAPACITY <? u32 size) then Some (None, k, ERR_ARG)
    else
      match xQueueGenericCreateStatic queue (u32 size) 4 (Some messages) k with
      | Some (q, k) => Some (Some q, k, ERR_OK)
      | None => None
      end
  end.

Definition sys_mbox_post (message : Z) (vs : list view) : option (Queue * kernel) :=
  match xQueueGenericSend (pointer message) queueSEND_TO_BACK portMAX_DELAY vs with
  | Some (q, k, _) => Some (q, k)
  | None => None
  end.

Definition sys_mbox_trypost (message : Z) (q : Queue) (k : kernel) : option (Queue * kernel * Z) :=
  match send_now (pointer message) queueSEND_TO_BACK q k with
  | Some (q, k, r) => Some (q, k, if r then ERR_OK else ERR_MEM)
  | None => None
  end.

Definition sys_mbox_trypost_fromisr (message : Z) (q : Queue) (k : kernel) : option (Queue * kernel * Z) :=
  match xQueueGenericSendFromISR (pointer message) queueSEND_TO_BACK q k with
  | Some (q, k, r, taskWoken) =>
    Some (q, if taskWoken then portYIELD k else k, if r then ERR_OK else ERR_MEM)
  | None => None
  end.

(** The time, and the message for a caller that asks for it. *)
Definition sys_arch_mbox_fetch (timeoutMs start : Z) (vs : list view) (finish : kernel -> kernel)
  : option (Queue * kernel * Z * option Z) :=
  match xQueueReceive (wait_ticks timeoutMs) vs with
  | None => None
  | Some (q, k, None) => Some (q, k, SYS_ARCH_TIMEOUT, None)
  | Some (q, k, Some received) =>
    let k := finish k in
    Some (q, k, u32 (u32 (xTickCount k - start) * portTICK_PERIOD_MS), Some (message_of received))
  end.

Definition sys_arch_mbox_tryfetch (q : Queue) (k : kernel) : option (Queue * kernel * Z * option Z) :=
  match receive_now q k with
  | None => None
  | Some (q, k, None) => Some (q, k, SYS_MBOX_EMPTY, None)
  | Some (q, k, Some received) => Some (q, k, 0, Some (message_of received))
  end.

Definition sys_mbox_free (handle : option Queue) : option Queue := None.

(** ** Threads *)

(** Which of the slots are allocated; slot [i] has its control block at
    [thread_block i]. *)
Record sys_threads := SysThreads { allocated : list bool }.

Section Threads.
Context (thread_block : nat -> Z).

(** The loop over the slots from [index]. *)
Fixpoint find_slot (slots : list bool) (index : nat) : option nat :=
  match slots with
  | [] => None
  | a :: slots => if a then find_slot slots (S index) else Some index
  end.

(** The handle is the control block; [None] outside for the kernel's assertion on
    the priority.  The whole stack of the slot is used, whatever [stackSize] is. *)
Definition sys_thread_new (function_given : bool) (stackSize priority : Z) (s : sys_threads) (k : kernel)
  : option (sys_threads * kernel * option Z) :=
  if negb function_given || (stackSize <=? 0) || (SYS_ARCH_THREAD_STACK_WORDS * 4 <? u32 stackSize)
  then Some (s, k, None)
  else
    match find_slot (allocated s) 0 with
    | None => Some (s, k, None)
    | Some i =>
      match xTaskCreateStatic (thread_block i) (u32 priority) k with
      | None => None
      | Some k => Some (SysThreads (<[i := true]> (allocated s)), k, Some (thread_block i))
      end
    end.
End Threads.

(** ** Mailboxes deliver in order *)

(** What a section tells: nothing, a message accepted or refused, a message
    delivered, or that there is none. *)
Inductive mevent := Quiet | Accepted (m : Z) | Rejected (m : Z) | Delivered (m : Z) | NoMessage.

(** The sections on a mailbox, by any task or interrupt: the attempts of
    [sys_mbox_post] and [sys_arch_mbox_fetch], which go on to block when they fail,
    the calls that do not block, and the lock and unlock of a decision to block. *)
Inductive mbox_step : Queue -> mevent -> Queue -> Prop :=
| mbox_post m q k q' k' : is_u32 m ->
    send_attempt (pointer m) queueSEND_TO_BACK q k = Some (q', k', Returns true) -> mbox_step q (Accepted m) q'
| mbox_post_full m q k q' k' : is_u32 m ->
    send_attempt (pointer m) queueSEND_TO_BACK q k = Some (q', k', Waits) -> mbox_step q (Rejected m) q'
| mbox_trypost m q k q' k' e : is_u32 m ->
    sys_mbox_trypost m q k = Some (q', k', e) ->
    mbox_step q (if e =? ERR_OK then Accepted m else Rejected m) q'
| mbox_fromisr m q k q' k' e : is_u32 m ->
    sys_mbox_trypost_fromisr m q k = Some (q', k', e) ->
    mbox_step q (if e =? ERR_OK then Accepted m else Rejected m) q'
| mbox_fetch q k q' k' item :
    receive_attempt q k = Some (q', k', Returns item) -> mbox_step q (Delivered (message_of item)) q'
| mbox_fetch_empty q k q' k' : receive_attempt q k = Some (q', k', Waits) -> mbox_step q NoMessage q'
| mbox_tryfetch q k q' k' r m :
    sys_arch_mbox_tryfetch q k = Some (q', k', r, m) ->
    mbox_step q (match m with Some m => Delivered m | None => NoMessage end) q'
| mbox_lock q : mbox_step q Quiet (prvLockQueue q)
| mbox_unlock q k : mbox_step q Quiet (fst (prvUnlockQueue q k)).

Inductive mbox_run : Queue -> list mevent -> Queue -> Prop :=
| mbox_run_nil q : mbox_run q [] q
| mbox_run_step q1 e q2 es q3 : mbox_step q1 e q2 -> mbox_run q2 es q3 -> mbox_run q1 (e :: es) q3.

(** The bounded queue of messages that lwIP expects. *)
Inductive fifo_step (n : Z) : list Z -> mevent -> list Z -> Prop :=
| fifo_quiet l : fifo_step n l Quiet l
| fifo_accept l m : Z.of_nat (length l) < n -> fifo_step n l (Accepted m) (l ++ [m])
| fifo_reject l m : Z.of_nat (length l) = n -> fifo_step n l (Rejected m) l
| fifo_deliver l m : fifo_step n (m :: l) (Delivered m) l
| fifo_none : fifo_step n [] NoMessage [].

Inductive fifo_run (n : Z) : list Z -> list mevent -> list Z -> Prop :=
| fifo_run_nil l : fifo_run n l [] l
| fifo_run_step l1 e l2 es l3 : fifo_step n l1 e l2 -> fifo_run n l2 es l3 -> fifo_run n l1 (e :: es) l3.

Definition accepted (es : list mevent) : list Z := omap (fun e => match e with Accepted m => Some m | _ => None end) es.
Definition delivered (es : list mevent) : list Z := omap (fun e => match e with Delivered m => Some m | _ => None end) es.

(** What a run of the specification accepted is what it delivered and what waits. *)
Lemma fifo_run_order n l es l' : fifo_run n l es l' -> l ++ accepted es = delivered es ++ l'.
Proof.
  induction 1 as [l|l1 e l2 es l3 Hs Hr IH]; [by rewrite app_nil_r|].
  unfold accepted, delivered in *. destruct Hs; cbn in *; try done.
  - by rewrite <- IH, <- app_assoc.
  - by rewrite IH.
Qed.

(** The mailbox with its capacity and the messages in it. *)
Record mbox_repr (n : Z) (q : Queue) (ms : list Z) : Prop := MboxRepr {
  mr_queue : queue_repr q (map pointer ms);
  mr_length : uxLength q = n;
  mr_size : uxItemSize q = 4;
  mr_words : Forall is_u32 ms
}.

Lemma length_pointer m : Z.of_nat (length (pointer m)) = 4.
Proof. unfold pointer. by rewrite length_le_enc. Qed.

Lemma message_pointer m : is_u32 m -> message_of (pointer m) = m.
Proof. intros H. apply le_dec_enc. done. Qed.

Lemma mbox_locks n q ms rx tx : mbox_repr n q ms -> mbox_repr n (set_locks rx tx q) ms.
Proof.
  intros [[H1 H2 H3 H4 H5 H6] Hl Hs Hm]. split; [|done..]. by split.
Qed.

Lemma mbox_full n q ms : mbox_repr n q ms -> uxMessagesWaiting q = Z.of_nat (length ms) /\ Z.of_nat (length ms) <= n.
Proof.
  intros [Hq Hl _ _]. destruct (qr_count _ _ Hq) as [H1 H2]. rewrite length_map in H1. lia.
Qed.

Lemma mbox_copy n q ms m k :
  mbox_repr n q ms -> is_u32 m -> Z.of_nat (length ms) < n ->
  exists q' y, prvCopyDataToQueue (pointer m) queueSEND_TO_BACK q k = Some (q', k, y) /\
    mbox_repr n q' (ms ++ [m]) /\ cTxLock q' = cTxLock q.
Proof.
  intros [Hq Hl Hs Hm] Hu Hlt.
  destruct (send_back_repr q (map pointer ms) (pointer m) k Hq) as (q' & y & E & Hq').
  { by rewrite length_pointer, Hs. }
  { rewrite length_map. lia. }
  destruct (copy_to_rest _ _ _ _ _ _ _ E) as (R1 & R2 & _ & R4).
  exists q', y. split; [done|]. split; [|done]. split; [|congruence|congruence|].
  - by rewrite map_app.
  - apply Forall_app. split; [done|by constructor].
Qed.

Lemma mbox_send n q ms m k :
  mbox_repr n q ms -> is_u32 m ->
  if Z.of_nat (length ms) <? n
  then exists q' k', send_attempt (pointer m) queueSEND_TO_BACK q k = Some (q', k', Returns true) /\
         mbox_repr n q' (ms ++ [m])
  else Z.of_nat (length ms) = n /\ send_attempt (pointer m) queueSEND_TO_BACK q k = Some (q, k, Waits).
Proof.
  intros Hq Hm. destruct (mbox_full _ _ _ Hq) as [Hc Hn]. unfold send_attempt. rewrite Hc, (mr_length _ _ _ Hq).
  destruct (Z.ltb_spec (Z.of_nat (length ms)) n); [|split; [lia|done]].
  destruct (mbox_copy n q ms m k Hq Hm) as (q' & y & -> & Hq' & _); [done|]. eauto.
Qed.

Lemma mbox_trypost_spec n q ms m k :
  mbox_repr n q ms -> is_u32 m ->
  if Z.of_nat (length ms) <? n
  then exists q' k', sys_mbox_trypost m q k = Some (q', k', ERR_OK) /\ mbox_repr n q' (ms ++ [m])
  else Z.of_nat (length ms) = n /\ sys_mbox_trypost m q k = Some (q, k, ERR_MEM).
Proof.
  intros Hq Hm. pose proof (mbox_send n q ms m k Hq Hm) as H. unfold sys_mbox_trypost.
  rewrite send_now_attempt; [|by apply item_given_length; rewrite length_pointer, (mr_size _ _ _ Hq)|done].
  destruct (_ <? n).
  - destruct H as (q' & k' & -> & ?). eauto.
  - by destruct H as [? ->].
Qed.

Lemma mbox_isr_spec n q ms m k q' k' e :
  mbox_repr n q ms -> is_u32 m -> sys_mbox_trypost_fromisr m q k = Some (q', k', e) ->
  if Z.of_nat (length ms) <? n then e = ERR_OK /\ mbox_repr n q' (ms ++ [m])
  else Z.of_nat (length ms) = n /\ e = ERR_MEM /\ q' = q.
Proof.
  intros Hq Hm. destruct (mbox_full _ _ _ Hq) as [Hc Hn]. unfold sys_mbox_trypost_fromisr, xQueueGenericSendFromISR.
  rewrite item_given_length by (by rewrite length_pointer, (mr_size _ _ _ Hq)).
  cbn [andb negb may_overwrite]. rewrite Hc, (mr_length _ _ _ Hq).
  destruct (Z.ltb_spec (Z.of_nat (length ms)) n); cbn [orb].
  - destruct (mbox_copy n q ms m k Hq Hm) as (q1 & y & -> & Hq' & Htx); [done|].
    destruct (cTxLock q1 =? queueUNLOCKED).
    + destruct (al_items _); [by intros [= <- <- <-]|].
      destruct (xTaskRemoveFromEventList _ k). by intros [= <- <- <-].
    + unfold prvIncrementQueueTxLock. destruct (_ <? _); [destruct (_ =? _); [done|]|];
        intros [= <- <- <-]; split; try done. by apply mbox_locks.
  - intros [= <- <- <-]. split; [lia|done].
Qed.

Lemma mbox_receive n q ms k :
  mbox_repr n q ms ->
  match ms with
  | [] => receive_attempt q k = Some (q, k, Waits)
  | m :: ms => exists q' k', receive_attempt q k = Some (q', k', Returns (pointer m)) /\ mbox_repr n q' ms
  end.
Proof.
  intros Hq. destruct (mbox_full _ _ _ Hq) as [Hc Hn]. unfold receive_attempt. rewrite Hc.
  destruct ms as [|m ms]; [done|]. rewrite (proj2 (Z.ltb_lt _ _)) by (cbn [length]; lia).
  destruct Hq as [Hq Hl Hs Hm]. destruct (receive_repr q (pointer m) (map pointer ms) Hq) as (q' & E & Hq').
  rewrite E. eexists _, _. split; [reflexivity|]. apply list.Forall_cons in Hm as [_ Hm].
  assert (uxLength q' = uxLength q /\ uxItemSize q' = uxItemSize q) as (R1 & R2).
  { revert E. unfold prvCopyDataFromQueue. repeat case_match; try done; intros; simplify_eq; done. }
  split; cbn; [done|congruence|congruence|done].
Qed.

Lemma mbox_tryfetch_spec n q ms k :
  mbox_repr n q ms ->
  match ms with
  | [] => sys_arch_mbox_tryfetch q k = Some (q, k, SYS_MBOX_EMPTY, None)
  | m :: ms => exists q' k', sys_arch_mbox_tryfetch q k = Some (q', k', 0, Some m) /\ mbox_repr n q' ms
  end.
Proof.
  intros Hq. pose proof (mbox_receive n q ms k Hq) as H. unfold sys_arch_mbox_tryfetch, receive_now, xQueueReceive.
  cbn [at_attempt still snd]. rewrite may_block_now. cbn [receive_loop at_attempt still].
  destruct ms as [|m ms]; [by rewrite H|]. destruct H as (q' & k' & -> & Hq').
  eexists _, _. split; [|done]. rewrite message_pointer; [done|]. by destruct (list.Forall_cons_1 _ _ _ (mr_words _ _ _ Hq)).
Qed.

Lemma mbox_step_refines n q ms e q' :
  mbox_repr n q ms -> mbox_step q e q' -> exists ms', fifo_step n ms e ms' /\ mbox_repr n q' ms'.
Proof.
  intros Hq Hstep. destruct Hstep as [m q k q' k' Hm E|m q k q' k' Hm E|m q k q' k' e Hm E|m q k q' k' e Hm E
    |q k q' k' item E|q k q' k' E|q k q' k' r m E|q|q k].
  - pose proof (mbox_send n q ms m k Hq Hm) as H. destruct (Z.ltb_spec (Z.of_nat (length ms)) n).
    + destruct H as (q1 & k1 & E1 & H1). rewrite E in E1. injection E1 as -> ->. exists (ms ++ [m]). by split; [constructor|].
    + destruct H as [_ H]. by rewrite E in H.
  - pose proof (mbox_send n q ms m k Hq Hm) as H. destruct (Z.of_nat (length ms) <? n).
    + destruct H as (q1 & k1 & E1 & H1). by rewrite E in E1.
    + destruct H as [Hn H]. rewrite E in H. injection H as -> ->. exists ms. by split; [constructor|].
  - pose proof (mbox_trypost_spec n q ms m k Hq Hm) as H. destruct (Z.ltb_spec (Z.of_nat (length ms)) n).
    + destruct H as (q1 & k1 & E1 & H1). rewrite E in E1. injection E1 as -> -> ->. exists (ms ++ [m]). by split; [constructor|].
    + destruct H as [Hn H]. rewrite E in H. injection H as -> -> ->. exists ms. by split; [constructor|].
  - pose proof (mbox_isr_spec n q ms m k q' k' e Hq Hm E) as H. destruct (Z.ltb_spec (Z.of_nat (length ms)) n).
    + destruct H as [-> H1]. exists (ms ++ [m]). by split; [constructor|].
    + destruct H as (Hn & -> & ->). exists ms. by split; [constructor|].
  - pose proof (mbox_receive n q ms k Hq) as H. destruct ms as [|m ms]; [by rewrite E in H|].
    destruct H as (q1 & k1 & E1 & H1). rewrite E in E1. injection E1 as -> -> ->.
    destruct (list.Forall_cons_1 _ _ _ (mr_words _ _ _ Hq)) as [Hm _]. rewrite message_pointer by done.
    exists ms. by split; [constructor|].
  - pose proof (mbox_receive n q ms k Hq) as H. destruct ms as [|m ms].
    + rewrite E in H. injection H as -> ->. exists []. by split; [constructor|].
    + destruct H as (q1 & k1 & E1 & H1). by rewrite E in E1.
  - pose proof (mbox_tryfetch_spec n q ms k Hq) as H. destruct ms as [|m' ms].
    + rewrite E in H. injection H as -> -> -> ->. exists []. by split; [constructor|].
    + destruct H as (q1 & k1 & E1 & H1). rewrite E in E1. injection E1 as -> -> -> ->. exists ms. by split; [constructor|].
  - exists ms. split; [constructor|]. by apply mbox_locks.
  - exists ms. split; [constructor|]. by apply (mbox_locks n q ms).
Qed.

Lemma mbox_run_refines n q ms es q' :
  mbox_run q es q' -> mbox_repr n q ms -> exists ms', fifo_run n ms es ms' /\ mbox_repr n q' ms'.
Proof.
  intros Hr; revert ms; induction Hr as [q|q1 e q2 es q3 Hs Hr IH]; intros ms Hq.
  - exists ms. split; [constructor|done].
  - destruct (mbox_step_refines n q1 ms e q2 Hq Hs) as (ms2 & Hf & Hq2). destruct (IH ms2 Hq2) as (ms3 & Hf3 & Hq3).
    exists ms3. split; [by econstructor|done].
Qed.

Lemma mbox_new_repr queue messages size k q k1 :
  size < 2147483648 -> length messages = 64%nat ->
  sys_mbox_new (Some (queue, messages)) size k = Some (Some q, k1, ERR_OK) -> mbox_repr size q [].
Proof.
  intros Hi Hlen. unfold sys_mbox_new, SYS_ARCH_MBOX_CAPACITY.
  destruct (Z.leb_spec size 0); [done|]. cbn [orb]. rewrite u32_id by (unfold is_u32; lia).
  destruct (Z.ltb_spec 16 size); [done|].
  destruct (create_repr queue size 4 (Some messages) k) as (q1 & k2 & -> & Hq & _ & _ & Hl & Hs & _); [lia..| |].
  { split; [lia|]. rewrite Hlen. lia. }
  intros [= -> ->]. split; [exact Hq|done|done|constructor].
Qed.

(** C16. A mailbox delivers what it accepted, once and in order.  Take a mailbox
    that [sys_mbox_new] created with a size of 1 to 16, and any interleaving of the
    attempts of posts and fetches that may block, of the posts and fetches that do
    not, of posts from interrupts, and of the locks and unlocks of waiting calls,
    with any states of the kernel.  What the sections tell is a history of a
    bounded FIFO queue: a post is refused only when [size] messages wait, a fetch
    finds none only when none waits, the accepted messages are the delivered ones
    followed by those that still wait, each pointer as it was posted; and a post or
    a fetch that does not block always returns. *)
Theorem mailbox_delivers_in_order queue messages size k q k1 es q' :
  size < 2147483648 -> length messages = 64%nat ->
  sys_mbox_new (Some (queue, messages)) size k = Some (Some q, k1, ERR_OK) -> mbox_run q es q' ->
  exists waiting, fifo_run size [] es waiting /\
    accepted es = delivered es ++ waiting /\ Z.of_nat (length waiting) <= size <= 16 /\
    (forall m k, is_u32 m -> is_Some (sys_mbox_trypost m q' k)) /\
    (forall k, is_Some (sys_arch_mbox_tryfetch q' k)).
Proof.
  intros Hi Hlen Hnew Hr. pose proof (mbox_new_repr _ _ _ _ _ _ Hi Hlen Hnew) as Hq.
  assert (H16 : size <= 16).
  { revert Hnew. unfold sys_mbox_new, SYS_ARCH_MBOX_CAPACITY. destruct (Z.leb_spec size 0); [lia|].
    cbn [orb]. rewrite u32_id by (unfold is_u32; lia). destruct (Z.ltb_spec 16 size); [done|lia]. }
  destruct (mbox_run_refines size q [] es q' Hr Hq) as (ms & Hf & Hq'). exists ms.
  split; [done|]. split; [by apply fifo_run_order in Hf|]. split; [by destruct (mbox_full _ _ _ Hq')|].
  split.
  - intros m k2 Hm. pose proof (mbox_trypost_spec size q' ms m k2 Hq' Hm) as H.
    destruct (_ <? size); [destruct H as (? & ? & -> & _)|destruct H as [_ ->]]; by eexists.
  - intros k2. pose proof (mbox_tryfetch_spec size q' ms k2 Hq') as H.
    destruct ms; [rewrite H|destruct H as (? & ? & -> & _)]; by eexists.
Qed.

Definition sample_mbox : Queue :=
  match sys_mbox_new (Some (3000, replicate 64 0)) 2 sample_kernel_empty with
  | Some (Some q, _, _) => q
  | _ => sample_queue
  end.

(** Two posts fill the mailbox, the next from an interrupt is refused; a waiting
    post locks the mailbox, a fetch makes room. *)
Definition sample_mevents : list mevent :=
  [Accepted 536875000; Quiet; Accepted 536879096; Rejected 7; Delivered 536875000; Quiet; Accepted 9; Delivered 536879096].

Lemma sample_mbox_run : exists q', mbox_run sample_mbox sample_mevents q'.
Proof.
  eexists.
  eapply mbox_run_step; [eapply (mbox_trypost 536875000 sample_mbox sample_kernel_empty _ _ ERR_OK); [unfold is_u32; lia|vm_compute; reflexivity]|].
  eapply mbox_run_step; [eapply mbox_lock|].
  eapply mbox_run_step; [eapply (mbox_fromisr 536879096 _ sample_kernel_empty _ _ ERR_OK); [unfold is_u32; lia|vm_compute; reflexivity]|].
  eapply mbox_run_step; [eapply (mbox_fromisr 7 _ sample_kernel_empty _ _ ERR_MEM); [unfold is_u32; lia|vm_compute; reflexivity]|].
  eapply mbox_run_step; [eapply (mbox_fetch _ sample_kernel_empty _ _ (pointer 536875000)); vm_compute; reflexivity|].
  eapply mbox_run_step; [eapply (mbox_unlock _ sample_kernel_empty)|].
  eapply mbox_run_step; [eapply (mbox_post 9 _ sample_kernel_empty); [unfold is_u32; lia|vm_compute; reflexivity]|].
  eapply mbox_run_step; [eapply (mbox_tryfetch _ sample_kernel_empty _ _ 0 (Some 536879096)); vm_compute; reflexivity|].
  apply mbox_run_nil.
Qed.

Lemma mailbox_delivers_in_order_witness :
  exists waiting, accepted sample_mevents = delivered sample_mevents ++ waiting /\ waiting = [9].
Proof.
  destruct sample_mbox_run as [q' Hr].
  destruct (mailbox_delivers_in_order 3000 (replicate 64 0) 2 sample_kernel_empty sample_mbox
    (vListInitialise_event (EEvent 3036) (vListInitialise_event (EEvent 3016) sample_kernel_empty))
    sample_mevents q') as (waiting & _ & Hw & _).
  - lia.
  - reflexivity.
  - vm_compute. reflexivity.
  - exact Hr.
  - exists waiting. split; [exact Hw|]. injection Hw as ->. reflexivity.
Defined.

(** ** Waits tell the time *)

(** The ticks of a wait are its milliseconds; zero stands for [2^32 - 1]. *)
Lemma wait_ticks_spec ms : is_u32 ms -> wait_ticks ms = if ms =? 0 then 4294967295 else ms.
Proof.
  intros H. unfold wait_ticks, pdMS_TO_TICKS, configTICK_RATE_HZ, portMAX_DELAY.
  rewrite Z.div_mul, u32_id by (done || lia). destruct (Z.eqb_spec ms 0); [done|].
  cbn [negb andb]. by rewrite (proj2 (Z.eqb_neq ms 0)).
Qed.

Lemma wait_ticks_range ms : is_u32 ms -> is_u32 (wait_ticks ms) /\ wait_ticks ms <> 0.
Proof. intros H. rewrite wait_ticks_spec by done. unfold is_u32 in *. destruct (Z.eqb_spec ms 0); lia. Qed.

(** The difference of two tick counts less than [2^32] ticks apart. *)
Lemma elapsed_ticks s T k :
  clock k T -> 0 <= s -> s <= T < s + 4294967296 ->
  u32 (u32 (xTickCount k - s mod 4294967296) * portTICK_PERIOD_MS) = T - s.
Proof.
  intros (_ & -> & _) Hs HT. unfold portTICK_PERIOD_MS, configTICK_RATE_HZ. change (1000 / 1000) with 1.
  rewrite Z.mul_1_r. unfold u32. rewrite <- Zminus_mod, Z.mod_mod by lia. apply Z.mod_small. lia.
Qed.

(** A wait tells a timeout only after its time, and otherwise how long it
    took.  Take a wait for a semaphore or a fetch from a mailbox with a timeout in
    milliseconds, called at tick [s] with its first attempt at tick [t0], that ends
    at tick [T], with any behaviour of other tasks and interrupts and across
    overflows of the tick count.  If it returns, the value is the number of ticks
    (milliseconds) from [s] to [T], or [SYS_ARCH_TIMEOUT], and then a check of the
    call came [timeoutMs] or more after [t0]; a timeout of zero is a wait of
    [2^32 - 1] milliseconds, not one without end.  A fetch gives a message exactly
    when it does not tell a timeout. *)
Lemma waits_tell_time timeoutMs s t0 T vs ts finish :
  is_u32 timeoutMs -> timed t0 vs ts -> starts ts t0 ->
  0 <= s -> s <= T < s + 4294967296 -> (forall k, clock (finish k) T) ->
  let over := time_over (if timeoutMs =? 0 then 4294967295 else timeoutMs) t0 ts in
  (forall q k r, sys_arch_sem_wait timeoutMs (s mod 4294967296) vs finish = Some (q, k, r) ->
     r = T - s \/ r = SYS_ARCH_TIMEOUT /\ over) /\
  (forall q k r m, sys_arch_mbox_fetch timeoutMs (s mod 4294967296) vs finish = Some (q, k, r, m) ->
     match m with Some _ => r = T - s | None => r = SYS_ARCH_TIMEOUT /\ over end).
Proof.
  intros Hms Ht Hst Hs HT Hfin over. destruct (wait_ticks_range timeoutMs Hms) as [Hd Hnz].
  assert (Hover : forall P : Prop, (P -> wait_ticks timeoutMs = 0 \/ time_over (wait_ticks timeoutMs) t0 ts) -> P -> over).
  { intros P HP H. destruct (HP H) as [?|H']; [done|]. by rewrite wait_ticks_spec in H'. }
  split.
  - intros q k r. unfold sys_arch_sem_wait.
    destruct (xQueueSemaphoreTake _ vs) as [[[q1 k1] [|]]|] eqn:E; [| |done]; intros [= <- <- <-].
    + left. by apply elapsed_ticks.
    + right. split; [done|]. refine (Hover _ _ E).
      by apply (take_fails _ t0 vs ts).
  - intros q k r m. unfold sys_arch_mbox_fetch.
    destruct (xQueueReceive _ vs) as [[[q1 k1] [item|]]|] eqn:E; [| |done]; intros [= <- <- <- <-].
    + by apply elapsed_ticks.
    + split; [done|]. refine (Hover _ _ E). by apply (receive_fails _ t0 vs ts).
Qed.

(** A fetch of ten milliseconds from an empty queue, across the overflow of the
    tick count. *)
Lemma waits_tell_time_witness :
  (exists q k, sys_arch_mbox_fetch 10 (sample_start mod 4294967296) sample_views
                 (fun _ => kernel_at (sample_start + 14)) = Some (q, k, SYS_ARCH_TIMEOUT, None)) /\
  (forall q k r m, sys_arch_mbox_fetch 10 (sample_start mod 4294967296) sample_views
                     (fun _ => kernel_at (sample_start + 14)) = Some (q, k, r, m) ->
     match m with
     | Some _ => r = sample_start + 14 - sample_start
     | None => r = SYS_ARCH_TIMEOUT /\ time_over 10 sample_start sample_times
     end).
Proof.
  split; [vm_compute; eexists _, _; reflexivity|].
  apply (waits_tell_time 10 sample_start sample_start (sample_start + 14) sample_views sample_times
    (fun _ => kernel_at (sample_start + 14))).
  - unfold is_u32. lia.
  - exact sample_views_timed.
  - reflexivity.
  - unfold sample_start. lia.
  - unfold sample_start. lia.
  - intros _. apply kernel_at_clock. unfold sample_start. lia.
Defined.

(** ** Critical sections and threads *)

(** Critical sections nest: a task that unprotects as often as it protected is
    where it was, and interrupts stay masked between. *)
Lemma protect_unprotect c c' p :
  is_u32 (uxCriticalNesting c + 1) -> masked c = negb (uxCriticalNesting c =? 0) ->
  is_u32 (uxCriticalNesting c) ->
  sys_arch_protect c = Some (c', p) -> masked c' = true /\ sys_arch_unprotect p c' = Some c.
Proof.
  intros H1 Hm H0. unfold sys_arch_protect, sys_arch_unprotect, vPortEnterCritical, vPortExitCritical.
  cbn [uxCriticalNesting vectactive]. destruct (_ && _); [done|]. intros [= <- <-]. cbn [uxCriticalNesting masked vectactive].
  rewrite (u32_id (_ + 1)) by done. rewrite (proj2 (Z.eqb_neq _ 0)) by (unfold is_u32 in *; lia).
  rewrite Z.add_simpl_r, u32_id by done. split; [done|]. destruct c as [n b v]. cbn [uxCriticalNesting masked vectactive] in *.
  rewrite Hm. by destruct (n =? 0).
Qed.

Lemma find_slot_free slots index i :
  find_slot slots index = Some i -> exists j, i = (index + j)%nat /\ slots !! j = Some false.
Proof.
  revert index; induction slots as [|[|] slots IH]; intros index H; [done| |].
  - destruct (IH (S index) H) as (j & -> & Hj). exists (S j). split; [lia|done].
  - injection H as <-. exists O. split; [lia|done].
Qed.

(** A thread gets a slot that was free and is taken from then on, so that no two
    threads share a control block or a stack. *)
Lemma thread_slot_free block given stackSize priority s k s' k' h :
  sys_thread_new block given stackSize priority s k = Some (s', k', Some h) ->
  given = true /\ exists i, h = block i /\ allocated s !! i = Some false /\ allocated s' = <[i := true]> (allocated s).
Proof.
  unfold sys_thread_new. destruct given; [|done]. cbn [negb orb]. case_match; [done|].
  destruct (find_slot (allocated s) 0) as [i|] eqn:E; [|done].
  destruct (xTaskCreateStatic _ _ k) as [k1|]; [|done]. intros [= <- <- <-]. split; [done|].
  apply find_slot_free in E as (j & -> & Hj). by exists j.
Qed.
