(* ===== verification/Timeouts.v ===== *)
(** * The timers of lwIP ([lwip/core/timeouts.c])

    A list of timers in the order of their times, which are milliseconds modulo
    [2^32]; [tcpip_thread] sleeps until the first and calls the handlers whose time
    has come.  The pool of timers has [MEMP_NUM_SYS_TIMEOUT] entries.  A handler
    and its argument are one value here.

    The theorems: the list is a priority queue of deadlines on an unbounded clock,
    as long as deadlines are less than [2^30] milliseconds from the present; and
    the loop over the expired timers ends. *)

From S2P Require Import Prelude.
From stdpp Require Import list sets sorting.
#[local] Open Scope Z_scope.

Definition LWIP_MAX_TIMEOUT : Z := 2147483647.
Definition MEMP_NUM_SYS_TIMEOUT : nat := 15.
Definition SYS_TIMEOUTS_SLEEPTIME_INFINITE : Z := 4294967295.

Definition TIME_LESS_THAN (t compare_to : Z) : bool := LWIP_MAX_TIMEOUT <? u32 (t - compare_to).

Section Timers.
Context {H : Type} `{!EqDecision H}.

Record sys_timeo := Timeo { time : Z; handler : H }.

Record timers := Timers { next_timeout : list sys_timeo; current_timeout_due_time : Z }.

(** A timer goes before the first later one. *)
Fixpoint insert_timeout (timeout : sys_timeo) (l : list sys_timeo) : list sys_timeo :=
  match l with
  | [] => [timeout]
  | t :: rest => if TIME_LESS_THAN (time timeout) (time t) then timeout :: t :: rest
                 else t :: insert_timeout timeout rest
  end.

(** With an empty pool the message of the assertion is all that happens. *)
Definition sys_timeout_abs (abs_time : Z) (h : H) (s : timers) : timers :=
  if (MEMP_NUM_SYS_TIMEOUT <=? length (next_timeout s))%nat then s
  else Timers (insert_timeout (Timeo abs_time h) (next_timeout s)) (current_timeout_due_time s).

(** [now] is the value of [sys_now]. *)
Definition sys_timeout (now msecs : Z) (h : H) (s : timers) : timers :=
  sys_timeout_abs (u32 (now + msecs)) h s.

Fixpoint remove_timeout (h : H) (l : list sys_timeo) : list sys_timeo :=
  match l with
  | [] => []
  | t :: rest => if decide (handler t = h) then rest else t :: remove_timeout h rest
  end.

Definition sys_untimeout (h : H) (s : timers) : timers :=
  Timers (remove_timeout h (next_timeout s)) (current_timeout_due_time s).

(** One turn of the loop of [sys_check_timeouts], up to the call of the handler. *)
Definition expire (now : Z) (s : timers) : option (H * timers) :=
  match next_timeout s with
  | [] => None
  | t :: rest => if TIME_LESS_THAN now (time t) then None else Some (handler t, Timers rest (time t))
  end.

Definition sys_timeouts_sleeptime (now : Z) (s : timers) : Z :=
  match next_timeout s with
  | [] => SYS_TIMEOUTS_SLEEPTIME_INFINITE
  | t :: _ => if TIME_LESS_THAN (time t) now then 0 else u32 (time t - now)
  end.

(** The time at which a cyclic timer of the given interval runs again; its handler
    has run, and [now] is the time after it. *)
Definition lwip_cyclic_timer (now interval_ms : Z) (h : H) (s : timers) : timers :=
  let next_timeout_time := u32 (current_timeout_due_time s + interval_ms) in
  if TIME_LESS_THAN next_timeout_time now then sys_timeout_abs (u32 (now + interval_ms)) h s
  else sys_timeout_abs next_timeout_time h s.

Definition sys_timeouts_init (now : Z) (cyclic : list (Z * H)) (s : timers) : timers :=
  fold_left (fun s '(interval, h) => sys_timeout now interval h s) cyclic s.

(** ** The loop over expired timers *)

(** The handlers change a state that holds the timers. *)
Section Check.
Context {S : Type} (timers_of : S -> timers) (with_timers : timers -> S -> S) (call : H -> S -> S).

(** [None]: the fuel is not enough. *)
Fixpoint sys_check_timeouts (fuel : nat) (now : Z) (s : S) : option S :=
  match fuel with
  | O => None
  | Datatypes.S fuel =>
    match expire now (timers_of s) with
    | None => Some s
    | Some (h, t) => sys_check_timeouts fuel now (call h (with_timers t s))
    end
  end.
End Check.

(** ** Deadlines *)

(** A timer and the time it stands for. *)
Definition deadline : Type := Z * H.

Definition stands_for (t : sys_timeo) (d : deadline) : Prop := time t = u32 (fst d) /\ handler t = snd d.

(** Deadlines are at most [2^30 - 1] ms from the present, [LWIP_UINT32_MAX / 4]. *)
Definition near (now : Z) (d : deadline) : Prop := - 1073741823 <= fst d - now <= 1073741823.

Definition in_order (D : list deadline) : Prop := StronglySorted (fun a b : deadline => fst a <= fst b) D.

Record deadlines (s : timers) (D : list deadline) : Prop := Deadlines {
  dl_stands : Forall2 stands_for (next_timeout s) D;
  dl_order : in_order D
}.

(** The comparison of the code is that of the times it stands for. *)
Lemma time_less_than a b : - LWIP_MAX_TIMEOUT <= a - b <= LWIP_MAX_TIMEOUT ->
  TIME_LESS_THAN (u32 a) (u32 b) = (a <? b).
Proof.
  unfold TIME_LESS_THAN, LWIP_MAX_TIMEOUT, u32. intros Hab. rewrite <- Zminus_mod.
  destruct (Z.ltb_spec a b) as [Hl|Hl].
  - apply Z.ltb_lt. replace (a - b) with (a - b + 4294967296 + (-1) * 4294967296) by lia.
    rewrite Z.mod_add by lia. rewrite Z.mod_small by lia. lia.
  - apply Z.ltb_ge. rewrite Z.mod_small by lia. lia.
Qed.

(** The specification: a queue ordered by deadline, equal ones in the order they
    were set. *)
Fixpoint schedule (d : deadline) (D : list deadline) : list deadline :=
  match D with
  | [] => [d]
  | e :: rest => if fst d <? fst e then d :: e :: rest else e :: schedule d rest
  end.

Fixpoint cancel (h : H) (D : list deadline) : list deadline :=
  match D with
  | [] => []
  | e :: rest => if decide (snd e = h) then rest else e :: cancel h rest
  end.

Lemma insert_schedule t d l D now :
  stands_for t d -> Forall2 stands_for l D -> near now d -> Forall (near now) D ->
  Forall2 stands_for (insert_timeout t l) (schedule d D).
Proof.
  intros Ht Hl Hd HD. induction Hl as [|t' d' l D Ht' Hl IH]; cbn [insert_timeout schedule]; [by constructor|].
  apply list.Forall_cons in HD as [Hd' HD].
  assert (Hc : TIME_LESS_THAN (time t) (time t') = (fst d <? fst d')).
  { destruct Ht as [-> _], Ht' as [-> _]. apply time_less_than. unfold near, LWIP_MAX_TIMEOUT in *. lia. }
  rewrite Hc. destruct (fst d <? fst d'); repeat (constructor; try done). by apply IH.
Qed.

Lemma schedule_in d D e : e ∈ schedule d D <-> e = d \/ e ∈ D.
Proof.
  induction D as [|a D IH]; cbn [schedule]; [by rewrite list_elem_of_singleton, elem_of_nil; intuition|].
  destruct (fst d <? fst a); rewrite !elem_of_cons, ?IH; tauto.
Qed.

Lemma schedule_order d D : in_order D -> in_order (schedule d D).
Proof.
  unfold in_order. induction 1 as [|a D Hs IH Hall]; cbn [schedule]; [repeat constructor|].
  destruct (Z.ltb_spec (fst d) (fst a)) as [Hl|Hl].
  - constructor; [by constructor|]. constructor; [lia|]. eapply Forall_impl; [exact Hall|]. cbn. intros. lia.
  - constructor; [done|]. apply Forall_forall. intros e [->|He]%schedule_in; [done|].
    by apply (proj1 (Forall_forall _ _) Hall).
Qed.

Lemma remove_cancel h l D : Forall2 stands_for l D -> Forall2 stands_for (remove_timeout h l) (cancel h D).
Proof.
  induction 1 as [|t d l D [Ht Hh] Hl IH]; cbn [remove_timeout cancel]; [constructor|]. rewrite Hh.
  case_decide; [done|]. constructor; [by split|done].
Qed.

Lemma cancel_in h D e : e ∈ cancel h D -> e ∈ D.
Proof.
  induction D as [|a D IH]; cbn [cancel]; [done|]. case_decide; rewrite !elem_of_cons; tauto.
Qed.

Lemma cancel_order h D : in_order D -> in_order (cancel h D).
Proof.
  unfold in_order. induction 1 as [|a D Hs IH Hall]; cbn [cancel]; [constructor|]. case_decide; [done|].
  constructor; [done|]. apply Forall_forall. intros e He%cancel_in. by apply (proj1 (Forall_forall _ _) Hall).
Qed.

(** ** The operations on deadlines *)

Inductive timer_op := TSet (msecs : Z) (h : H) | TCancel (h : H) | TExpire | TSleep.
Inductive timer_answer := TDone | TFired (h : option H) | TSleeps (ms : Z).

Definition run_timer_op (now : Z) (o : timer_op) (s : timers) : timers * timer_answer :=
  match o with
  | TSet msecs h => (sys_timeout now msecs h s, TDone)
  | TCancel h => (sys_untimeout h s, TDone)
  | TExpire => match expire now s with
               | Some (h, s) => (s, TFired (Some h))
               | None => (s, TFired None)
               end
  | TSleep => (s, TSleeps (sys_timeouts_sleeptime now s))
  end.

(** On a clock [now] that does not wrap. *)
Definition spec_timer_op (now : Z) (o : timer_op) (D : list deadline) : list deadline * timer_answer :=
  match o with
  | TSet msecs h => (schedule (now + msecs, h) D, TDone)
  | TCancel h => (cancel h D, TDone)
  | TExpire => match D with
               | (T, h) :: D' => if T <=? now then (D', TFired (Some h)) else (D, TFired None)
               | [] => (D, TFired None)
               end
  | TSleep => (D, TSleeps match D with
                          | (T, _) :: _ => Z.max 0 (T - now)
                          | [] => SYS_TIMEOUTS_SLEEPTIME_INFINITE
                          end)
  end.

(** A timer is set for at most [LWIP_UINT32_MAX / 4] ms and finds room in the pool;
    no timer is forgotten for as long. *)
Definition timer_op_ok (now : Z) (o : timer_op) (D : list deadline) : Prop :=
  Forall (near now) D /\
  match o with
  | TSet msecs _ => 0 <= msecs <= 1073741823 /\ (length D < MEMP_NUM_SYS_TIMEOUT)%nat
  | _ => True
  end.

Lemma stands_length l D : Forall2 stands_for l D -> length l = length D.
Proof. apply Forall2_length. Qed.

Lemma u32_u32_add a b : u32 (u32 a + b) = u32 (a + b).
Proof. unfold u32. by rewrite Z.add_mod_idemp_l by lia. Qed.

Lemma timer_op_refines now o s D :
  deadlines s D -> timer_op_ok now o D ->
  deadlines (fst (run_timer_op (u32 now) o s)) (fst (spec_timer_op now o D)) /\
  snd (run_timer_op (u32 now) o s) = snd (spec_timer_op now o D).
Proof.
  intros [Hl Ho] [Hn Hok]. pose proof (stands_length _ _ Hl) as Hlen. destruct o as [ms h|h| |]; cbn [run_timer_op spec_timer_op fst snd].
  - destruct Hok as [Hms Hroom]. split; [|done]. unfold sys_timeout, sys_timeout_abs.
    rewrite (proj2 (Nat.leb_gt _ _)) by lia. split; cbn [next_timeout]; [|by apply schedule_order].
    apply insert_schedule with now; try done.
    + split; cbn; [apply u32_u32_add|done].
    + unfold near. cbn. lia.
  - split; [|done]. split; cbn; [by apply remove_cancel|by apply cancel_order].
  - unfold expire. destruct s as [l c]. cbn [next_timeout] in *. destruct Hl as [|t d l D [Ht Hh] Hl]; [by repeat constructor|].
    destruct d as [T h]. cbn [fst snd] in *. apply list.Forall_cons in Hn as [Hnear _].
    rewrite Ht, time_less_than by (unfold near, LWIP_MAX_TIMEOUT in *; cbn in *; lia).
    destruct (Z.ltb_spec now T), (Z.leb_spec T now); try lia; cbn [fst snd].
    + split; [|done]. split; cbn; [by constructor|done].
    + rewrite Hh. split; [|done]. split; cbn; [done|]. by inversion Ho.
  - unfold sys_timeouts_sleeptime. split; [done|]. destruct s as [l c]. cbn [next_timeout] in *.
    destruct Hl as [|t d l D [Ht Hh] Hl]; [done|]. destruct d as [T h]. cbn [fst snd] in *.
    apply list.Forall_cons in Hn as [Hnear _]. unfold near in Hnear. cbn in Hnear.
    rewrite Ht, time_less_than by (unfold LWIP_MAX_TIMEOUT; lia). f_equal.
    destruct (Z.ltb_spec T now); [lia|]. unfold u32. rewrite <- Zminus_mod, Z.mod_small by lia. lia.
Qed.

(** Operations at the times of a clock. *)
Fixpoint run_timer_ops (os : list (Z * timer_op)) (s : timers) : timers * list timer_answer :=
  match os with
  | [] => (s, [])
  | (now, o) :: os =>
    let '(s, a) := run_timer_op (u32 now) o s in
    let '(s, l) := run_timer_ops os s in (s, a :: l)
  end.

Fixpoint spec_timer_ops (os : list (Z * timer_op)) (D : list deadline) : list deadline * list timer_answer :=
  match os with
  | [] => (D, [])
  | (now, o) :: os =>
    let '(D, a) := spec_timer_op now o D in
    let '(D, l) := spec_timer_ops os D in (D, a :: l)
  end.

Fixpoint timer_ops_ok (os : list (Z * timer_op)) (D : list deadline) : Prop :=
  match os with
  | [] => True
  | (now, o) :: os => timer_op_ok now o D /\ timer_ops_ok os (fst (spec_timer_op now o D))
  end.

(** C28. The timers are a queue of deadlines.  Take any sequence of setting,
    cancelling and expiring timers and asking for the time to sleep, at the times
    of a clock of milliseconds that does not wrap, with every deadline less than
    [2^30] ms from the present and room in the pool.  The list of the code, whose
    times and clock are taken modulo [2^32], fires the same handlers in the same
    order as a queue ordered by deadline (equal deadlines in the order they were
    set), never before its time, and tells to sleep exactly until the first
    deadline. *)
Theorem timers_are_deadlines os s D :
  deadlines s D -> timer_ops_ok os D ->
  snd (run_timer_ops os s) = snd (spec_timer_ops os D) /\
  deadlines (fst (run_timer_ops os s)) (fst (spec_timer_ops os D)).
Proof.
  revert s D; induction os as [|[now o] os IH]; intros s D Hs Hok; [done|].
  destruct Hok as [Ho Hok]. destruct (timer_op_refines now o s D Hs Ho) as [Hs' Ha].
  cbn [run_timer_ops spec_timer_ops]. destruct (run_timer_op (u32 now) o s) as [s' a], (spec_timer_op now o D) as [D' a'].
  cbn [fst snd] in *. subst a'. destruct (IH s' D' Hs' Hok) as [IHa IHd].
  destruct (run_timer_ops os s'), (spec_timer_ops os D'). cbn [fst snd] in *. by subst.
Qed.

(** ** The loop ends *)

(** How long a deadline is overdue, in milliseconds begun. *)
Definition overdue (now : Z) (d : deadline) : nat := Z.to_nat (now + 1 - fst d).
Definition backlog (now : Z) (D : list deadline) : nat := sum_list_with (overdue now) D.

Lemma backlog_submseteq now D D' : D ⊆+ D' -> (backlog now D <= backlog now D')%nat.
Proof.
  unfold backlog. induction 1; cbn [sum_list_with]; lia.
Qed.

Lemma backlog_later now N : Forall (fun d => now < fst d) N -> backlog now N = 0%nat.
Proof. unfold backlog, overdue. induction 1; cbn [sum_list_with]; lia. Qed.

(** What a handler may do to the deadlines when the one of time [T] has come:
    cancel any, set new ones for the future, or itself once, later than [T]. *)
Definition reschedules (now T : Z) (D D' : list deadline) : Prop :=
  exists N, (D' ⊆+ N ++ D) /\ (Forall (fun d => now < fst d) N \/ exists d, N = [d] /\ T < fst d).

Lemma reschedules_backlog now T h D D' :
  reschedules now T D D' -> T <= now -> (backlog now D' < backlog now ((T, h) :: D))%nat.
Proof.
  intros (N & Hsub & HN) HT. apply (backlog_submseteq now) in Hsub. unfold backlog in *.
  rewrite sum_list_with_app in Hsub. cbn [sum_list_with]. unfold overdue at 2. cbn [fst].
  destruct HN as [HN|(d & -> & Hd)].
  - apply backlog_later in HN. unfold backlog in HN. lia.
  - cbn [sum_list_with] in Hsub. unfold overdue at 2 in Hsub. lia.
Qed.

Section Loop.
Context {S : Type} (timers_of : S -> timers) (with_timers : timers -> S -> S) (call : H -> S -> S).
Context (with_timers_of : forall t s, timers_of (with_timers t s) = t).

(** Handlers that keep the deadlines near and reschedule. *)
Definition well_behaved (now : Z) : Prop :=
  forall h s D T, deadlines (timers_of s) D -> Forall (near now) D ->
    current_timeout_due_time (timers_of s) = u32 T -> near now (T, h) -> T <= now ->
    exists D', deadlines (timers_of (call h s)) D' /\ Forall (near now) D' /\ reschedules now T D D'.

Lemma check_loop_ends now fuel s D :
  well_behaved now -> deadlines (timers_of s) D -> Forall (near now) D -> (backlog now D < fuel)%nat ->
  exists s' D', sys_check_timeouts timers_of with_timers call fuel (u32 now) s = Some s' /\
    deadlines (timers_of s') D' /\ Forall (fun d => now < fst d) D'.
Proof.
  intros Hwb. revert s D; induction fuel as [|fuel IH]; intros s D Hs Hn Hf; [lia|]. cbn [sys_check_timeouts].
  pose proof (timer_op_refines now TExpire (timers_of s) D Hs (conj Hn I)) as [Hs' Ha].
  cbn [run_timer_op spec_timer_op] in *. destruct D as [|[T h] D].
  - destruct (expire (u32 now) (timers_of s)) as [[h t]|]; [done|]. exists s, []. split; [done|]. split; [done|constructor].
  - destruct (Z.leb_spec T now) as [HT|HT].
    + destruct (expire (u32 now) (timers_of s)) as [[h' t]|] eqn:Ee; [|done]. cbn [fst snd] in *. injection Ha as ->.
      assert (Hcur : current_timeout_due_time t = u32 T).
      { destruct Hs as [Hl _]. unfold expire in Ee. destruct (next_timeout (timers_of s)) as [|t0 l]; [done|].
        inversion Hl as [|? ? ? ? [Ht _]]; subst. destruct (TIME_LESS_THAN _ _); [done|]. injection Ee as _ <-. done. }
      apply list.Forall_cons in Hn as [HnT Hn].
      destruct (Hwb h (with_timers t s) D T) as (D' & Hd' & Hn' & Hr); rewrite ?with_timers_of; try done.
      apply (IH _ D' Hd' Hn').
      eapply Nat.lt_le_trans; [exact (reschedules_backlog now T h D D' Hr HT)|]. by apply Nat.lt_succ_r.
    + destruct (expire (u32 now) (timers_of s)) as [[h' t]|] eqn:Ee; [done|].
      exists s, ((T, h) :: D). split; [done|]. split; [done|]. destruct Hs as [_ Ho].
      inversion Ho as [|? ? ? Hall]; subst. constructor; [done|]. eapply Forall_impl; [exact Hall|]. cbn. intros. lia.
Qed.

(** C31. The loop over the expired timers ends.  If every handler keeps the
    deadlines near the present, and may cancel timers, set any number for the
    future and itself once for a time after the one that has come, then
    [sys_check_timeouts] returns, whatever timers have expired, and leaves no
    expired timer behind. *)
Theorem check_timeouts_terminates now s D :
  well_behaved now -> deadlines (timers_of s) D -> Forall (near now) D ->
  exists fuel s' D', sys_check_timeouts timers_of with_timers call fuel (u32 now) s = Some s' /\
    deadlines (timers_of s') D' /\ Forall (fun d => now < fst d) D'.
Proof.
  intros Hwb Hs Hn. exists (Datatypes.S (backlog now D)). apply (check_loop_ends now _ s D); try done. lia.
Qed.
End Loop.

(** Setting a timer in a full pool changes nothing. *)
Lemma set_abs_deadlines now T h s D :
  deadlines s D -> Forall (near now) D -> near now (T, h) ->
  exists D', deadlines (sys_timeout_abs (u32 T) h s) D' /\ Forall (near now) D' /\ (D' ⊆+ [(T, h)] ++ D).
Proof.
  intros [Hl Ho] Hn HT. unfold sys_timeout_abs. destruct (_ <=? _)%nat.
  - exists D. split; [done|]. split; [done|]. by apply submseteq_cons.
  - exists (schedule (T, h) D). split; [split; cbn; [by apply insert_schedule with now|by apply schedule_order]|].
    split; [apply Forall_forall; intros e [->|He]%schedule_in; [done|by apply (proj1 (Forall_forall _ _) Hn)]|].
    cbn. assert (Hp : schedule (T, h) D ≡ₚ (T, h) :: D); [|by rewrite Hp].
    clear. induction D as [|a D IH]; cbn [schedule]; [done|]. destruct (_ <? _); [done|]. rewrite IH. apply Permutation_swap.
Qed.

(** Cyclic timers are such handlers, with the clock read again after the work. *)
Lemma cyclic_well_behaved now later interval h s D T :
  deadlines s D -> Forall (near now) D -> current_timeout_due_time s = u32 T -> near now (T, h) -> T <= now ->
  now <= later -> 0 < interval -> later - now + interval <= 1073741823 ->
  exists D', deadlines (lwip_cyclic_timer (u32 later) interval h s) D' /\ Forall (near now) D' /\ reschedules now T D D'.
Proof.
  intros Hs Hn Hc HT Hdue Hlater Hi Hb. unfold lwip_cyclic_timer. rewrite Hc, !u32_u32_add.
  unfold near in HT. cbn in HT.
  rewrite time_less_than by (unfold LWIP_MAX_TIMEOUT; lia).
  destruct (Z.ltb_spec (T + interval) later) as [Hl|Hl].
  - destruct (set_abs_deadlines now (later + interval) h s D Hs Hn) as (D' & Hd & Hn' & Hsub); [unfold near; cbn; lia|].
    exists D'. split; [done|]. split; [done|]. exists [(later + interval, h)]. split; [done|]. left.
    constructor; [cbn; lia|constructor].
  - destruct (set_abs_deadlines now (T + interval) h s D Hs Hn) as (D' & Hd & Hn' & Hsub); [unfold near; cbn; lia|].
    exists D'. split; [done|]. split; [done|]. exists [(T + interval, h)]. split; [done|]. right. eexists. split; [done|]. cbn. lia.
Qed.
End Timers.

(** Two timers set shortly before the clock wraps, and their expiry. *)
Definition sample_timers : @timers nat := Timers [] 0.
Definition sample_now : Z := 4294967000.
Definition sample_timer_ops : list (Z * @timer_op nat) :=
  [(sample_now, TSet 500 1%nat); (sample_now, TSet 100 2%nat); (sample_now + 1, TSleep);
   (sample_now + 150, TExpire); (sample_now + 150, TExpire); (sample_now + 400, TSleep); (sample_now + 600, TExpire)].

Lemma timers_are_deadlines_witness :
  snd (run_timer_ops sample_timer_ops sample_timers) =
    [TDone; TDone; TSleeps 99; TFired (Some 2%nat); TFired None; TSleeps 100; TFired (Some 1%nat)].
Proof.
  destruct (timers_are_deadlines sample_timer_ops sample_timers []) as [E _].
  - split; constructor.
  - unfold sample_timer_ops.
    repeat (cbn [timer_ops_ok spec_timer_op schedule fst snd length];
      repeat match goal with
        | |- context [?a <? ?b] => let r := eval vm_compute in (a <? b) in change (a <? b) with r
        | |- context [?a <=? ?b] => let r := eval vm_compute in (a <=? b) in change (a <=? b) with r
        end;
      match goal with
      | |- _ /\ _ => split
      | |- True => exact I
      | |- Forall _ _ => constructor
      | |- timer_op_ok _ _ _ => unfold timer_op_ok
      | |- _ => unfold near, MEMP_NUM_SYS_TIMEOUT, sample_now; cbn [fst length]; lia
      end).
  - rewrite E. reflexivity.
Defined.

(** Two cyclic timers of 100 ms that were not looked at for 250 ms. *)
Lemma sample_cyclic_behaved now :
  0 <= now -> well_behaved (fun s : @timers nat => s) (fun h s => lwip_cyclic_timer (u32 now) 100 h s) now.
Proof.
  intros _ h s D T Hs Hn Hc HT Hdue. by apply cyclic_well_behaved; try done; lia.
Qed.

Lemma check_timeouts_terminates_witness :
  exists fuel s' D',
    sys_check_timeouts (fun s : @timers nat => s) (fun t _ => t) (fun h s => lwip_cyclic_timer (u32 sample_now) 100 h s)
      fuel (u32 sample_now) (Timers [Timeo (sample_now - 250) 1%nat; Timeo (sample_now - 30) 2%nat] 0) = Some s' /\
    deadlines s' D' /\ Forall (fun d => sample_now < fst d) D'.
Proof.
  apply (check_timeouts_terminates (fun s : @timers nat => s) (fun t _ => t)
    (fun h s => lwip_cyclic_timer (u32 sample_now) 100 h s) (fun _ _ => eq_refl) sample_now _
    [(sample_now - 250, 1%nat); (sample_now - 30, 2%nat)]).
  - apply sample_cyclic_behaved. unfold sample_now. lia.
  - split; [repeat constructor|]. repeat constructor; cbn; unfold sample_now; lia.
  - repeat constructor; cbn; unfold sample_now; lia.
Defined.
