(* ===== verification/Sntp.v ===== *)
(** * The SNTP client ([lwip/apps/sntp/sntp.c])

    The client that [time_service.c] starts: one server with a name, requests that
    are repeated every hour, retried after 15 s and then more and more slowly, and
    answers that set the clock of [TimeService].  Its timers are those of
    [Timeouts]; the resolver, the memory for a request and the datagrams that
    arrive are inputs.  As compiled, the client does not compare an answer with
    its request ([SNTP_CHECK_RESPONSE] is 0).

    The theorems: an answer sets the clock to the time of the server, for every
    32-bit Unix time; and the client never stops asking, whatever answers,
    failures and other timers come. *)

From S2P Require Import Prelude TimeService Timeouts.
From stdpp Require Import list.
#[local] Open Scope Z_scope.

(** ** Constants *)

Definition SNTP_MSG_LEN : nat := 48.
Definition SNTP_MODE_MASK : Z := 7.
Definition SNTP_MODE_CLIENT : Z := 3.
Definition SNTP_MODE_SERVER : Z := 4.
Definition SNTP_MODE_BROADCAST : Z := 5.
Definition SNTP_VERSION : Z := 32.
Definition SNTP_STRATUM_KOD : Z := 0.
Definition SNTP_OFFSET_TRANSMIT_TIME : nat := 40.
Definition DIFF_SEC_1970_2036 : Z := 2085978496.
Definition SNTP_RECV_TIMEOUT : Z := 15000.
Definition SNTP_RETRY_TIMEOUT : Z := SNTP_RECV_TIMEOUT.
Definition SNTP_RETRY_TIMEOUT_MAX : Z := SNTP_RETRY_TIMEOUT * 10.
Definition SNTP_UPDATE_DELAY : Z := 3600000.

Inductive opmode := SNTP_OPMODE_POLL | SNTP_OPMODE_LISTENONLY.

(** The timers: [sntp_request], [sntp_retry] (which is [sntp_try_next_server] with
    one server), and those of the rest of lwIP. *)
Inductive timer := sntp_request_timer | sntp_retry_timer | other_timer (n : nat).
#[global] Instance timer_eq_dec : EqDecision timer.
Proof. solve_decision. Defined.

(** ** State *)

Record client := Client {
  sntp_opmode : opmode;
  sntp_pcb : bool;
  name : option bytes;
  (** The address as a number; zero is no address. *)
  addr : Z;
  reachability : Z;
  sntp_retry_timeout : Z;
  timer_list : @timers timer;
  (** Questions to the resolver without an answer yet. *)
  queries : nat;
  (** The datagrams sent, the last first. *)
  sent : list (Z * bytes);
  time_clock : TimeService.clock
}.

Definition set_timers (t : @timers timer) (s : client) : client :=
  Client (sntp_opmode s) (sntp_pcb s) (name s) (addr s) (reachability s) (sntp_retry_timeout s) t (queries s)
    (sent s) (time_clock s).
Definition set_retry (r : Z) (s : client) : client :=
  Client (sntp_opmode s) (sntp_pcb s) (name s) (addr s) (reachability s) r (timer_list s) (queries s)
    (sent s) (time_clock s).
Definition set_addr (a : Z) (s : client) : client :=
  Client (sntp_opmode s) (sntp_pcb s) (name s) a (reachability s) (sntp_retry_timeout s) (timer_list s) (queries s)
    (sent s) (time_clock s).
Definition set_queries (n : nat) (s : client) : client :=
  Client (sntp_opmode s) (sntp_pcb s) (name s) (addr s) (reachability s) (sntp_retry_timeout s) (timer_list s) n
    (sent s) (time_clock s).
Definition set_reach (r : Z) (s : client) : client :=
  Client (sntp_opmode s) (sntp_pcb s) (name s) (addr s) r (sntp_retry_timeout s) (timer_list s) (queries s)
    (sent s) (time_clock s).
Definition set_clock (c : TimeService.clock) (s : client) : client :=
  Client (sntp_opmode s) (sntp_pcb s) (name s) (addr s) (reachability s) (sntp_retry_timeout s) (timer_list s)
    (queries s) (sent s) c.
Definition set_pcb (b : bool) (s : client) : client :=
  Client (sntp_opmode s) b (name s) (addr s) (reachability s) (sntp_retry_timeout s) (timer_list s)
    (queries s) (sent s) (time_clock s).
Definition set_opmode (o : opmode) (s : client) : client :=
  Client o (sntp_pcb s) (name s) (addr s) (reachability s) (sntp_retry_timeout s) (timer_list s)
    (queries s) (sent s) (time_clock s).
Definition set_name (n : option bytes) (s : client) : client :=
  Client (sntp_opmode s) (sntp_pcb s) n (addr s) (reachability s) (sntp_retry_timeout s) (timer_list s)
    (queries s) (sent s) (time_clock s).
Definition send_datagram (a : Z) (d : bytes) (s : client) : client :=
  Client (sntp_opmode s) (sntp_pcb s) (name s) (addr s) (reachability s) (sntp_retry_timeout s) (timer_list s)
    (queries s) ((a, d) :: sent s) (time_clock s).

(** Cancel a timer and set it again. *)
Definition timeout (now ms : Z) (h : timer) (s : client) : client :=
  set_timers (sys_timeout now ms h (timer_list s)) s.
Definition untimeout (h : timer) (s : client) : client := set_timers (sys_untimeout h (timer_list s)) s.
Definition rearm (now ms : Z) (h : timer) (s : client) : client := timeout now ms h (untimeout h s).

(** ** Operations *)

(** [lwip_ntohl] of four bytes of a message. *)
Definition ntohl (d : bytes) : Z := Prelude.le_dec (rev d).

(** [tick] is the tick count, for [TimeService_SetUnixTime]. *)
Definition sntp_process (tick : Z) (xmit_sec : bytes) (s : client) : client :=
  let sec := i32 (ntohl xmit_sec) in
  set_clock (TimeService_SetUnixTime (u32 (sec + DIFF_SEC_1970_2036)) tick) s.

Definition sntp_initialize_request : bytes :=
  Z.lor 0 (Z.lor SNTP_VERSION SNTP_MODE_CLIENT) :: replicate (SNTP_MSG_LEN - 1) 0.

Definition sntp_retry (now : Z) (s : client) : client :=
  let s := rearm now (sntp_retry_timeout s) sntp_request_timer s in
  let new_retry_timeout := u32 (Z.shiftl (sntp_retry_timeout s) 1) in
  if (new_retry_timeout <=? SNTP_RETRY_TIMEOUT_MAX) && (sntp_retry_timeout s <? new_retry_timeout)
  then set_retry new_retry_timeout s else set_retry SNTP_RETRY_TIMEOUT_MAX s.

(** What the checks of [sntp_recv] make of a datagram. *)
Inductive verdict := RecvOk (xmit_sec : bytes) | RecvKod | RecvInvalid.

Definition examine (o : opmode) (p : bytes) : verdict :=
  if (length p =? SNTP_MSG_LEN)%nat then
    let mode := Z.land (nth 0 p 0) SNTP_MODE_MASK in
    if match o with
       | SNTP_OPMODE_POLL => mode =? SNTP_MODE_SERVER
       | SNTP_OPMODE_LISTENONLY => mode =? SNTP_MODE_BROADCAST
       end
    then
      if nth 1 p 0 =? SNTP_STRATUM_KOD then RecvKod
      else RecvOk (take 4 (drop SNTP_OFFSET_TRANSMIT_TIME p))
    else RecvInvalid
  else RecvInvalid.

Definition sntp_recv (now tick : Z) (p : bytes) (s : client) : client :=
  match examine (sntp_opmode s) p with
  | RecvOk xmit_sec =>
    let s := sntp_process tick xmit_sec s in
    let s := set_reach (Z.lor (reachability s) 1) s in
    match sntp_opmode s with
    | SNTP_OPMODE_POLL =>
      let s := untimeout sntp_retry_timer s in
      let s := untimeout sntp_request_timer s in
      let s := set_retry SNTP_RETRY_TIMEOUT s in
      timeout now SNTP_UPDATE_DELAY sntp_request_timer s
    | SNTP_OPMODE_LISTENONLY => s
    end
  | RecvKod =>
    match sntp_opmode s with
    | SNTP_OPMODE_POLL => sntp_retry now s
    | SNTP_OPMODE_LISTENONLY => s
    end
  | RecvInvalid => s
  end.

(** [memory]: [pbuf_alloc] succeeds. *)
Definition sntp_send_request (now : Z) (memory : bool) (server_addr : Z) (s : client) : client :=
  if memory then
    let s := send_datagram server_addr sntp_initialize_request s in
    let s := set_reach (u8 (Z.shiftl (reachability s) 1)) s in
    rearm now SNTP_RECV_TIMEOUT sntp_retry_timer s
  else rearm now SNTP_RETRY_TIMEOUT sntp_request_timer s.

Definition sntp_dns_found (now : Z) (memory : bool) (ipaddr : option Z) (s : client) : client :=
  match ipaddr with
  | Some a => sntp_send_request now memory a (set_addr a s)
  | None => sntp_retry now s
  end.

(** The result of [dns_gethostbyname]. *)
Inductive dns_result := DnsOk (a : Z) | DnsInProgress | DnsError.

Definition sntp_request (now : Z) (memory : bool) (dns : dns_result) (s : client) : client :=
  match name s with
  | Some _ =>
    let s := set_addr 0 s in
    match dns with
    | DnsInProgress => set_queries (S (queries s)) s
    | DnsOk a => sntp_send_request now memory a (set_addr a s)
    | DnsError => rearm now SNTP_RETRY_TIMEOUT sntp_retry_timer s
    end
  | None =>
    if addr s =? 0 then rearm now SNTP_RETRY_TIMEOUT sntp_retry_timer s
    else sntp_send_request now memory (addr s) s
  end.

(** [pcb]: [udp_new_ip_type] succeeds; [random] is [LWIP_RAND()]. *)
Definition sntp_init (now random : Z) (pcb : bool) (s : client) : client :=
  if sntp_pcb s then s
  else if negb pcb then s
  else
    let s := set_pcb true s in
    match sntp_opmode s with
    | SNTP_OPMODE_POLL =>
      timeout now (random mod 5000) sntp_request_timer (set_retry SNTP_RETRY_TIMEOUT s)
    | SNTP_OPMODE_LISTENONLY => s
    end.

Definition sntp_stop (s : client) : client :=
  if sntp_pcb s then
    set_pcb false (untimeout sntp_retry_timer (untimeout sntp_request_timer (set_reach 0 s)))
  else s.

Definition sntp_setoperatingmode (o : opmode) (s : client) : client := set_opmode o s.
Definition sntp_setservername (idx : Z) (server : option bytes) (s : client) : client :=
  if idx <? 1 then set_name server s else s.
Definition sntp_setserver (idx : Z) (server : option Z) (s : client) : client :=
  if idx <? 1 then set_name None (set_addr (default 0 server) s) else s.
Definition sntp_getreachability (idx : Z) (s : client) : Z := if idx <? 1 then reachability s else 0.

(** ** Timers of the client *)

Definition armed (h : timer) (s : client) : nat :=
  length (filter (fun t => handler t = h) (next_timeout (timer_list s))).

Definition is_other (h : timer) : Prop := match h with other_timer _ => True | _ => False end.
#[global] Instance is_other_dec h : Decision (is_other h).
Proof. destruct h; apply _. Defined.

Definition others (s : client) : nat := length (filter (fun t => is_other (handler t)) (next_timeout (timer_list s))).

Lemma insert_timeout_perm (t : @sys_timeo timer) l : insert_timeout t l ≡ₚ t :: l.
Proof.
  induction l as [|a l IH]; cbn [insert_timeout]; [done|]. destruct (TIME_LESS_THAN _ _); [done|].
  rewrite IH. apply Permutation_swap.
Qed.

(** Counting the timers with a property of their handler. *)
Definition tally (P : timer -> Prop) `{!forall h, Decision (P h)} (s : client) : nat :=
  length (filter (fun t => P (handler t)) (next_timeout (timer_list s))).

Lemma tally_cons P `{!forall h, Decision (P h)} (t : @sys_timeo timer) l :
  length (filter (fun t => P (handler t)) (t :: l)) =
  ((if decide (P (handler t)) then 1 else 0) + length (filter (fun t => P (handler t)) l))%nat.
Proof. rewrite filter_cons. by case_decide. Qed.

Lemma tally_timeout P `{!forall h, Decision (P h)} now ms h s :
  (length (next_timeout (timer_list s)) < MEMP_NUM_SYS_TIMEOUT)%nat ->
  tally P (timeout now ms h s) = ((if decide (P h) then 1 else 0) + tally P s)%nat.
Proof.
  intros Hroom. unfold tally, timeout, sys_timeout, sys_timeout_abs. cbn [timer_list set_timers].
  rewrite (proj2 (Nat.leb_gt _ _)) by lia. cbn [next_timeout]. rewrite insert_timeout_perm. apply tally_cons.
Qed.

Lemma tally_remove P `{!forall h, Decision (P h)} h (l : list (@sys_timeo timer)) :
  length (filter (fun t => P (handler t)) (remove_timeout h l)) =
  (length (filter (fun t => P (handler t)) l) -
     (if decide (P h) then Nat.min 1 (length (filter (fun t => handler t = h) l)) else 0))%nat.
Proof.
  induction l as [|t l IH]; cbn [remove_timeout]; [cbn; case_decide; lia|]. rewrite !filter_cons.
  destruct (decide (handler t = h)) as [E|E].
  - rewrite E. destruct (decide (P h)); cbn [length]; lia.
  - rewrite filter_cons. destruct (decide (P h)) as [Hp|Hp].
    + assert (length (filter (fun t => handler t = h) l) <= length (filter (fun t => P (handler t)) l))%nat.
      { clear -Hp. induction l as [|a l IH]; [done|]. rewrite !filter_cons.
        destruct (decide (handler a = h)) as [<-|]; [rewrite decide_True by done; cbn; lia|].
        case_decide; cbn; lia. }
      destruct (decide (P (handler t))); cbn [length]; rewrite IH; lia.
    + destruct (decide (P (handler t))); cbn [length]; rewrite IH; lia.
Qed.

Lemma armed_tally h s : armed h s = tally (fun x => x = h) s.
Proof. done. Qed.
Lemma others_tally s : others s = tally is_other s.
Proof. done. Qed.

Lemma tally_untimeout P `{!forall h, Decision (P h)} h s :
  tally P (untimeout h s) = (tally P s - (if decide (P h) then Nat.min 1 (armed h s) else 0))%nat.
Proof. apply tally_remove. Qed.

(** The pool holds the client's timers and the others. *)
Lemma timers_count s :
  length (next_timeout (timer_list s)) =
  (armed sntp_request_timer s + armed sntp_retry_timer s + others s)%nat.
Proof.
  unfold armed, others. induction (next_timeout (timer_list s)) as [|t l IH]; [done|].
  rewrite !filter_cons. cbn [length]. rewrite IH.
  destruct (handler t); repeat case_decide; cbn [length]; try done; try lia.
Qed.

(** ** The client never stops asking *)

(** At most one timer of each kind, room for them in the pool, a retry time within
    its limits, and something that leads to the next request. *)
Record asking (s : client) : Prop := Asking {
  ask_running : sntp_pcb s = true /\ sntp_opmode s = SNTP_OPMODE_POLL;
  ask_request : (armed sntp_request_timer s <= 1)%nat;
  ask_retry : (armed sntp_retry_timer s <= 1)%nat;
  ask_others : (others s <= 12)%nat;
  ask_backoff : SNTP_RETRY_TIMEOUT <= sntp_retry_timeout s <= SNTP_RETRY_TIMEOUT_MAX;
  ask_next : (1 <= armed sntp_request_timer s + armed sntp_retry_timer s + queries s)%nat
}.

(** The same without a next action: a timer has just fired or an answer came. *)
Record between (s : client) : Prop := Between {
  btw_running : sntp_pcb s = true /\ sntp_opmode s = SNTP_OPMODE_POLL;
  btw_request : (armed sntp_request_timer s <= 1)%nat;
  btw_retry : (armed sntp_retry_timer s <= 1)%nat;
  btw_others : (others s <= 12)%nat;
  btw_backoff : SNTP_RETRY_TIMEOUT <= sntp_retry_timeout s <= SNTP_RETRY_TIMEOUT_MAX
}.

Lemma room_left h s : between s -> (length (next_timeout (timer_list (untimeout h s))) < MEMP_NUM_SYS_TIMEOUT)%nat.
Proof.
  intros [_ H1 H2 H3 _]. unfold MEMP_NUM_SYS_TIMEOUT.
  rewrite timers_count, !armed_tally, others_tally, !tally_untimeout, <- !armed_tally, <- others_tally. lia.
Qed.

Lemma tally_rearm P `{!forall h, Decision (P h)} now ms h s :
  between s ->
  tally P (rearm now ms h s) =
    ((if decide (P h) then 1 else 0) + (tally P s - (if decide (P h) then Nat.min 1 (armed h s) else 0)))%nat.
Proof. intros Hb. unfold rearm. by rewrite tally_timeout, tally_untimeout by (by apply room_left). Qed.

Lemma rearm_asking now ms h s : between s -> ~ is_other h -> asking (rearm now ms h s).
Proof.
  intros Hb Hh. pose proof Hb as [H1 H2 H3 H4 H5]. rewrite armed_tally in H2, H3. rewrite others_tally in H4.
  split; [done| | | |done|]; rewrite ?armed_tally, ?others_tally, ?tally_rearm by done; rewrite ?armed_tally;
    destruct h; try (exfalso; by apply Hh); repeat case_decide; try done; cbn [is_other] in *; try done; lia.
Qed.

(** States that differ in nothing the invariant looks at. *)
Lemma between_same s s' :
  between s -> sntp_pcb s' = sntp_pcb s -> sntp_opmode s' = sntp_opmode s ->
  timer_list s' = timer_list s -> sntp_retry_timeout s' = sntp_retry_timeout s -> between s'.
Proof.
  intros [H1 H2 H3 H4 H5] E1 E2 E3 E4. unfold armed, others in *. split; unfold armed, others; rewrite ?E1, ?E2, ?E3, ?E4; done.
Qed.

Lemma asking_between s : asking s -> between s.
Proof. intros [H1 H2 H3 H4 H5 _]. by split. Qed.

Lemma sntp_retry_asking now s : between s -> asking (sntp_retry now s).
Proof.
  intros Hb. pose proof (rearm_asking now (sntp_retry_timeout s) sntp_request_timer s Hb ltac:(cbn; tauto)) as [H1 H2 H3 H4 H5 H6].
  unfold sntp_retry. set (s1 := rearm _ _ _ s) in *.
  unfold SNTP_RETRY_TIMEOUT_MAX, SNTP_RETRY_TIMEOUT, SNTP_RECV_TIMEOUT in *.
  rewrite Z.shiftl_mul_pow2 by lia. change (2 ^ 1) with 2. rewrite u32_id by (unfold is_u32; lia).
  case_match; split; try done; cbn [sntp_retry_timeout set_retry];
    unfold SNTP_RETRY_TIMEOUT_MAX, SNTP_RETRY_TIMEOUT, SNTP_RECV_TIMEOUT; lia.
Qed.

Lemma sntp_send_asking now memory a s : between s -> asking (sntp_send_request now memory a s).
Proof.
  intros Hb. unfold sntp_send_request. destruct memory; apply rearm_asking; try (cbn; tauto).
  by eapply between_same.
Qed.

Lemma sntp_dns_asking now memory a s : between s -> asking (sntp_dns_found now memory a s).
Proof.
  intros Hb. destruct a as [a|]; cbn [sntp_dns_found]; [|by apply sntp_retry_asking].
  apply sntp_send_asking. by eapply between_same.
Qed.

Lemma sntp_request_asking now memory dns s : between s -> asking (sntp_request now memory dns s).
Proof.
  intros Hb. assert (H0 : forall a, between (set_addr a s)) by (intros a; by eapply between_same).
  unfold sntp_request. destruct (name s).
  - destruct dns as [a| |].
    + apply sntp_send_asking. by eapply between_same.
    + destruct (H0 0) as [H1 H2 H3 H4 H5]. split; try done. cbn. lia.
    + apply rearm_asking; [done|cbn; tauto].
  - destruct (addr s =? 0); [apply rearm_asking; [done|cbn; tauto]|by apply sntp_send_asking].
Qed.

Lemma sntp_recv_asking now tick p s : asking s -> asking (sntp_recv now tick p s).
Proof.
  intros Ha. pose proof (asking_between s Ha) as Hb. unfold sntp_recv. destruct (examine (sntp_opmode s) p).
  - set (s1 := set_reach _ _). assert (Hb1 : between s1) by (by eapply between_same).
    change (sntp_opmode s1) with (sntp_opmode s). destruct (ask_running _ Ha) as [_ ->].
    set (s2 := set_retry SNTP_RETRY_TIMEOUT (untimeout sntp_retry_timer s1)).
    assert (Hb2 : between s2).
    { destruct Hb1 as [H1 H2 H3 H4 H5]. rewrite armed_tally in H2, H3. rewrite others_tally in H4.
      unfold s2. split; [done| | | |unfold SNTP_RETRY_TIMEOUT_MAX, SNTP_RETRY_TIMEOUT, SNTP_RECV_TIMEOUT; cbn; lia];
        [change (tally (fun x => x = sntp_request_timer) (untimeout sntp_retry_timer s1) <= 1)%nat
        |change (tally (fun x => x = sntp_retry_timer) (untimeout sntp_retry_timer s1) <= 1)%nat
        |change (tally is_other (untimeout sntp_retry_timer s1) <= 12)%nat]; rewrite tally_untimeout; lia. }
    exact (rearm_asking now SNTP_UPDATE_DELAY sntp_request_timer s2 Hb2 ltac:(cbn; tauto)).
  - destruct (ask_running _ Ha) as [_ ->]. by apply sntp_retry_asking.
  - done.
Qed.

(** *** Events *)

(** The handler of an expired timer. *)
Definition fire (now : Z) (memory : bool) (dns : dns_result) (h : timer) (s : client) : client :=
  match h with
  | sntp_request_timer => sntp_request now memory dns s
  | sntp_retry_timer => sntp_retry now s
  | other_timer _ => s
  end.

(** What happens to the client: a turn of [sys_check_timeouts], an answer of the
    resolver, a datagram, and the other timers of lwIP, of which there are at most
    twelve. *)
Inductive client_step : client -> client -> Prop :=
| step_fire now memory dns h t s :
    expire now (timer_list s) = Some (h, t) -> client_step s (fire now memory dns h (set_timers t s))
| step_resolved now memory a n s :
    queries s = S n -> client_step s (sntp_dns_found now memory a (set_queries n s))
| step_datagram now tick p s : client_step s (sntp_recv now tick p s)
| step_other_set now ms n s :
    (others s < 12)%nat -> client_step s (timeout now ms (other_timer n) s)
| step_other_cancel n s : client_step s (untimeout (other_timer n) s).

Inductive client_run : client -> client -> Prop :=
| client_run_nil s : client_run s s
| client_run_step s1 s2 s3 : client_step s1 s2 -> client_run s2 s3 -> client_run s1 s3.

(** An expired timer leaves the list. *)
Lemma expire_tally P `{!forall h, Decision (P h)} now s h t :
  expire now (timer_list s) = Some (h, t) ->
  tally P s = ((if decide (P h) then 1 else 0) + tally P (set_timers t s))%nat.
Proof.
  unfold expire, tally. destruct (next_timeout (timer_list s)) as [|x l]; [done|].
  destruct (TIME_LESS_THAN _ _); [done|]. intros [= <- <-]. rewrite filter_cons. by case_decide.
Qed.

Lemma expire_tally_le P `{!forall h, Decision (P h)} now s h t :
  expire now (timer_list s) = Some (h, t) -> (tally P (set_timers t s) <= tally P s)%nat.
Proof. intros E. rewrite (expire_tally P now s h t E). apply Nat.le_add_l. Qed.

Lemma client_step_asking s s' : client_step s s' -> asking s -> asking s'.
Proof.
  intros Hstep Ha. pose proof Ha as [H1 H2 H3 H4 H5 H6]. rewrite armed_tally in H2, H3. rewrite !armed_tally in H6.
  rewrite others_tally in H4. destruct Hstep as [now memory dns h t s E|now memory a n s E|now tick p s|now ms n s E|n s].
  - pose proof (expire_tally_le (fun x => x = sntp_request_timer) now s h t E) as T1.
    pose proof (expire_tally_le (fun x => x = sntp_retry_timer) now s h t E) as T2.
    pose proof (expire_tally_le is_other now s h t E) as T3.
    assert (Hb : between (set_timers t s)) by (split; try done; rewrite ?armed_tally, ?others_tally; lia).
    destruct h as [| |n]; cbn [fire]; [by apply sntp_request_asking|by apply sntp_retry_asking|].
    destruct Hb as [B1 B2 B3 B4 B5]. split; try done. rewrite !armed_tally. cbn [queries set_timers].
    rewrite (expire_tally (fun x => x = sntp_request_timer) now s _ t E) in H6.
    rewrite (expire_tally (fun x => x = sntp_retry_timer) now s _ t E) in H6.
    rewrite !decide_False in H6 by done. exact H6.
  - apply sntp_dns_asking. eapply between_same; [by apply asking_between|done..].
  - by apply sntp_recv_asking.
  - assert (Hroom : (length (next_timeout (timer_list s)) < MEMP_NUM_SYS_TIMEOUT)%nat).
    { rewrite timers_count, !armed_tally. unfold MEMP_NUM_SYS_TIMEOUT. lia. }
    rewrite others_tally in E.
    split; try done; change (queries (timeout now ms (other_timer n) s)) with (queries s);
      rewrite ?armed_tally, ?others_tally, ?tally_timeout by done; repeat case_decide; try done; try lia;
      cbn [is_other] in *; try done.
  - split; try done; change (queries (untimeout (other_timer n) s)) with (queries s);
      rewrite ?armed_tally, ?others_tally, ?tally_untimeout by done; repeat case_decide; try done; lia.
Qed.

Lemma client_run_asking s s' : client_run s s' -> asking s -> asking s'.
Proof. induction 1; eauto using client_step_asking. Qed.

(** The client as [timeService_StartSntp] starts it: in poll mode, with the name of
    the server. *)
Definition start_client (now random : Z) (server : bytes) (s : client) : client :=
  sntp_init now random true (sntp_setservername 0 (Some server) (sntp_setoperatingmode SNTP_OPMODE_POLL s)).

(** C29. The SNTP client never stops asking.  Start the client beside at most twelve
    other timers, and let any timers expire, the resolver answer or fail, requests
    find no memory, any datagrams arrive and other timers come and go.  At every
    point the client has at most one request timer and one retry timer, and one of
    them or a question to the resolver is outstanding, so that a next request
    follows; the retry time stays between 15 and 150 seconds. *)
Theorem sntp_keeps_asking now random server s s' :
  sntp_pcb s = false -> armed sntp_request_timer s = 0%nat -> armed sntp_retry_timer s = 0%nat ->
  (others s <= 12)%nat -> client_run (start_client now random server s) s' -> asking s'.
Proof.
  intros Hp Hr Ht Ho Hrun. apply (client_run_asking _ _ Hrun). unfold start_client, sntp_init.
  cbn [sntp_pcb sntp_setservername Z.ltb Z.compare set_name sntp_setoperatingmode set_opmode]. rewrite Hp. cbn [negb].
  set (s1 := set_retry _ _). change (asking (timeout now (random mod 5000) sntp_request_timer s1)).
  assert (Hb : between s1).
  { split; [done|change (armed sntp_request_timer s <= 1)%nat; lia|change (armed sntp_retry_timer s <= 1)%nat; lia|exact Ho|].
    change (sntp_retry_timeout s1) with SNTP_RETRY_TIMEOUT.
    unfold SNTP_RETRY_TIMEOUT_MAX, SNTP_RETRY_TIMEOUT, SNTP_RECV_TIMEOUT. lia. }
  assert (E1 : tally (fun x => x = sntp_request_timer) s1 = 0%nat) by exact Hr.
  assert (Hroom : (length (next_timeout (timer_list s1)) < MEMP_NUM_SYS_TIMEOUT)%nat).
  { rewrite timers_count. unfold MEMP_NUM_SYS_TIMEOUT.
    change (armed sntp_request_timer s + armed sntp_retry_timer s + others s < 15)%nat. lia. }
  destruct Hb as [B1 B2 B3 B4 B5]. rewrite armed_tally in B2, B3. rewrite others_tally in B4.
  split; try done; rewrite ?armed_tally, ?others_tally, ?tally_timeout by done; repeat case_decide; try done;
    cbn [is_other] in *; try done; lia.
Qed.

(** *** Answers *)

(** Seconds from 1900 to 1970. *)
Definition UNIX_TO_NTP : Z := 2208988800.

(** An answer of a server at Unix time [t]: its seconds since 1900, modulo [2^32],
    in network order. *)
Definition server_answer (p : bytes) (t : Z) : Prop :=
  length p = SNTP_MSG_LEN /\ Z.land (nth 0 p 0) SNTP_MODE_MASK = SNTP_MODE_SERVER /\
  nth 1 p 0 <> SNTP_STRATUM_KOD /\
  take 4 (drop SNTP_OFFSET_TRANSMIT_TIME p) = rev (le_enc 4 (u32 (t + UNIX_TO_NTP))).

(** C30. An answer sets the clock to the server's time.  For every Unix time of 32
    bits, across the end of the NTP era in 2036 and the sign of the seconds, an
    answer that arrives at a tick sets the clock of the time service to that time
    and tick, so that the service shows the server's time plus the seconds that
    passed; the next request is an hour away, and no retry is pending. *)
Theorem sntp_answer_sets_clock now tick p t s :
  asking s -> server_answer p t -> is_u32 t -> is_u32 tick ->
  let s' := sntp_recv now tick p s in
  time_clock s' = Clock t tick true /\
  (forall ms, 0 <= ms < 4294967296 -> t + ms / 1000 < 4294967296 ->
     TimeService_GetUnixTime (time_clock s') (u32 (tick + ms)) = Some (t + ms / 1000)) /\
  armed sntp_retry_timer s' = 0%nat /\ armed sntp_request_timer s' = 1%nat /\
  In (Timeo (u32 (now + SNTP_UPDATE_DELAY)) sntp_request_timer) (next_timeout (timer_list s')).
Proof.
  intros Ha (Hl & Hm & Hst & Hx) Ht Htick. pose proof (sntp_recv_asking now tick p s Ha) as Ha'.
  unfold sntp_recv, examine in *. destruct (ask_running _ Ha) as [_ Hop]. rewrite Hop, Hl, Hm in *.
  change ((SNTP_MSG_LEN =? SNTP_MSG_LEN)%nat) with true in *. rewrite Z.eqb_refl in *.
  rewrite (proj2 (Z.eqb_neq _ _) Hst) in *. cbv zeta iota in *. rewrite Hx in *.
  set (s1 := set_reach _ _) in *. change (sntp_opmode s1) with (sntp_opmode s) in *. rewrite Hop in *. cbv iota in *.
  assert (Hc : time_clock s1 = Clock t tick true).
  { cbn [s1 time_clock set_reach sntp_process set_clock]. unfold ntohl. rewrite rev_involutive, le_dec_enc
      by (apply u32_range). unfold TimeService_SetUnixTime. f_equal. unfold DIFF_SEC_1970_2036, UNIX_TO_NTP, i32, is_u32 in *.
    unfold u32. case_match; Z.div_mod_to_equations; lia. }
  set (s2 := timeout now SNTP_UPDATE_DELAY _ _) in *.
  split; [exact Hc|]. split; [intros ms H1 H2; change (time_clock s2) with (time_clock s1); rewrite Hc; by apply unix_time_elapsed|].
  pose proof (asking_between s Ha) as Hb.
  set (s3 := set_retry SNTP_RETRY_TIMEOUT (untimeout sntp_request_timer (untimeout sntp_retry_timer s1))) in *.
  assert (T1 : tally (fun x => x = sntp_retry_timer) s3 = 0%nat).
  { change (tally (fun x => x = sntp_retry_timer) (untimeout sntp_request_timer (untimeout sntp_retry_timer s)) = 0%nat).
    rewrite !tally_untimeout, !armed_tally, ?tally_untimeout, ?armed_tally. destruct Hb as [_ B2 B3 _ _]. rewrite armed_tally in B3. repeat case_decide; try done; lia. }
  assert (T2 : tally (fun x => x = sntp_request_timer) s3 = 0%nat).
  { change (tally (fun x => x = sntp_request_timer) (untimeout sntp_request_timer (untimeout sntp_retry_timer s)) = 0%nat).
    rewrite !tally_untimeout, !armed_tally, !tally_untimeout, ?armed_tally. destruct Hb as [_ B2 B3 _ _]. rewrite armed_tally in B2. repeat case_decide; try done; lia. }
  assert (T3 : (tally is_other s3 <= 12)%nat).
  { change (tally is_other (untimeout sntp_request_timer (untimeout sntp_retry_timer s)) <= 12)%nat.
    rewrite !tally_untimeout. destruct Hb as [_ _ _ B4 _]. rewrite others_tally in B4. repeat case_decide; try done; lia. }
  assert (Hroom : (length (next_timeout (timer_list s3)) < MEMP_NUM_SYS_TIMEOUT)%nat).
  { rewrite timers_count, !armed_tally, T1, T2, others_tally. unfold MEMP_NUM_SYS_TIMEOUT. lia. }
  rewrite !armed_tally. unfold s2. rewrite !tally_timeout by done. rewrite T1, T2.
  split_and!; [by repeat case_decide|by repeat case_decide|].
  unfold timeout, sys_timeout, sys_timeout_abs. rewrite (proj2 (Nat.leb_gt _ _)) by lia. cbn [timer_list set_timers next_timeout].
  apply list_elem_of_In. rewrite insert_timeout_perm. constructor.
Qed.

(** A client beside two other timers, that asks the resolver in vain and gets an
    answer of the 15th of August 2040 later. *)
Definition sample_client : client :=
  Client SNTP_OPMODE_LISTENONLY false None 0 0 0
    (Timers [Timeo 1000 (other_timer 1); Timeo 2000 (other_timer 2)] 0) 0 [] (Clock 0 0 false).
Definition sample_server : bytes := [112; 111; 111; 108].
Definition sample_started : client := start_client 500 1234 sample_server sample_client.
Definition sample_time : Z := 2228601600.
Definition sample_answer : bytes :=
  [36; 2; 6; 236] ++ replicate 36 0 ++ rev (le_enc 4 (u32 (sample_time + UNIX_TO_NTP))) ++ replicate 4 0.

Lemma sntp_keeps_asking_witness :
  asking (sntp_dns_found 1800 true None (set_queries 0 (sntp_request 1800 true DnsInProgress
    (set_timers (Timers [Timeo 2000 (other_timer 2)] 1734) (set_timers (Timers [Timeo 1734 sntp_request_timer; Timeo 2000 (other_timer 2)] 1000) sample_started))))).
Proof.
  apply (sntp_keeps_asking 500 1234 sample_server sample_client).
  - reflexivity.
  - reflexivity.
  - reflexivity.
  - vm_compute. repeat constructor.
  - eapply client_run_step.
    { apply (step_fire 1800 true DnsError (other_timer 1) (Timers [Timeo 1734 sntp_request_timer; Timeo 2000 (other_timer 2)] 1000)).
      reflexivity. }
    eapply client_run_step.
    { apply (step_fire 1800 true DnsInProgress sntp_request_timer (Timers [Timeo 2000 (other_timer 2)] 1734)). reflexivity. }
    eapply client_run_step; [|apply client_run_nil].
    apply (step_resolved 1800 true None 0). reflexivity.
Defined.

Lemma sample_started_asking : asking sample_started.
Proof.
  split; [done|..]; try (vm_compute; repeat constructor; done).
Qed.

Lemma sntp_answer_sets_clock_witness :
  time_clock (sntp_recv 2500 2500 sample_answer sample_started) = Clock sample_time 2500 true /\
  armed sntp_request_timer (sntp_recv 2500 2500 sample_answer sample_started) = 1%nat.
Proof.
  destruct (sntp_answer_sets_clock 2500 2500 sample_answer sample_time sample_started) as (H1 & _ & _ & H2 & _).
  - exact sample_started_asking.
  - split; [reflexivity|]. split; [reflexivity|]. split; [vm_compute; discriminate|reflexivity].
  - unfold is_u32, sample_time. lia.
  - unfold is_u32. lia.
  - split; [exact H1|exact H2].
Defined.
