(* ===== verification/Console.v ===== *)
(** * Console output and system stubs ([Core/Src/common.c], [Core/Src/syscalls.c],
    [Core/Src/stm32f7xx_it.c])

    [Common_Printf] prints a message under a mutex of the kernel.  It is the tree of
    the calls it makes, which the step relation of the console carries out section
    by section; formatting is newlib's and enters as the text it gives.  The
    characters go to [_write] of [Peripherals].  The stubs of [syscalls.c] are functions of their arguments
    that return the value and the [errno] they set; [_gettimeofday] is the clock
    that Mbed TLS sees.

    The theorem: whatever tasks call [Common_Printf] at the same time, the console
    shows whole messages one after the other. *)

From S2P Require Import Prelude KernelList KernelTasks KernelSched KernelQueue KernelSync Peripherals TimeService.
From stdpp Require Import list gmap functions.
#[local] Open Scope Z_scope.

(** ** [common.c] *)

(** The handle of the mutex, [None] before it is created; the kernel's creation
    function stops instead of failing. *)
Definition Common_InitOutput (address : Z) (outputMutex : option Queue) (k : kernel)
  : option (option Queue * kernel * bool) :=
  match outputMutex with
  | Some q => Some (Some q, k, true)
  | None =>
    match xQueueCreateMutexStatic address k with
    | Some (q, k) => Some (Some q, k, true)
    | None => None
    end
  end.

(** The characters of a message on the line. *)
Definition printed (text : bytes) : bytes := concat (map common_WriteCharacter text).

(** What [Common_Printf] does to the outside: a call of the kernel or of newlib
    with what follows each of its results, or its return. *)
Inductive command :=
| Return (result : Z)
| SemaphoreTake (xTicksToWait : Z) (next : bool -> command)
| Vprintf (text : bytes) (next : Z -> command)
| SemaphoreGive (next : command).

(** [format] is [None] for [NULL], otherwise the text that newlib makes of it and
    its arguments. *)
Definition Common_Printf (outputMutex : option Queue) (format : option bytes) : command :=
  match format with
  | None => Return (-1)
  | Some text =>
    let print :=
      Vprintf text (fun result => if bool_decide (is_Some outputMutex) then SemaphoreGive (Return result) else Return result) in
    if bool_decide (is_Some outputMutex)
    then SemaphoreTake portMAX_DELAY (fun taken => if taken then print else Return (-1))
    else print
  end.

(** ** [syscalls.c] *)

Definition EINVAL : Z := 22.
Definition ECHILD : Z := 10.
Definition ENOENT : Z := 2.
Definition EMLINK : Z := 31.
Definition EAGAIN : Z := 11.
Definition ENOMEM : Z := 12.
Definition S_IFCHR : Z := 8192.

(** The result and the value of [errno], unless it is left alone. *)
Definition syscall : Type := Z * option Z.

Definition _getpid : syscall := (1, None).
Definition _kill (pid sig : Z) : syscall := (-1, Some EINVAL).
Definition _close (file : Z) : syscall := (-1, None).
(** With the mode it stores. *)
Definition _fstat (file : Z) : syscall * Z := ((0, None), S_IFCHR).
Definition _isatty (file : Z) : syscall := (1, None).
Definition _lseek (file ptr dir : Z) : syscall := (0, None).
Definition _open (path : bytes) (flags : Z) : syscall := (-1, None).
Definition _wait : syscall := (-1, Some ECHILD).
Definition _unlink (name : bytes) : syscall := (-1, Some ENOENT).
Definition _times : syscall := (-1, None).
Definition _stat (file : bytes) : syscall * Z := ((0, None), S_IFCHR).
Definition _link (old new : bytes) : syscall := (-1, Some EMLINK).
Definition _fork : syscall := (-1, Some EAGAIN).
Definition _execve (name : bytes) : syscall := (-1, Some ENOMEM).

(** The seconds and microseconds it stores; [given]: the pointer is not [NULL]. *)
Definition _gettimeofday (given : bool) (c : clock) (tick : Z) : syscall * option (Z * Z) :=
  match (if given then TimeService_GetUnixTime c tick else None) with
  | None => ((-1, Some EINVAL), None)
  | Some unixTime => ((0, None), Some (unixTime, 0))
  end.

(** ** [stm32f7xx_it.c] *)

Inductive exception := NMI | HardFault | MemManage | BusFault | UsageFault | DebugMon.

(** Whether the handler returns; the others call [System_ErrorHandler], which masks
    interrupts and does not. *)
Definition handler_returns (e : exception) : bool := match e with DebugMon => true | _ => false end.

(** ** Messages are not interleaved *)

(** Where a task is: outside [Common_Printf], before its next command, inside a
    take of the mutex, or inside [vprintf] with what it has still to write. *)
Inductive thread :=
| Idle
| At (c : command)
| Taking (c : call) (next : bool -> command)
| Waiting (c : call) (next : bool -> command)
| TimedOut (c : call) (next : bool -> command)
| Writing (rest : bytes) (next : Z -> command).

Record console := Console {
  c_mutex : option Queue; c_kernel : kernel; c_tasks : Z -> thread;
  c_out : bytes;
  (** The messages whose printing has started, in this order. *)
  c_started : list bytes
}.

(** The running task calls [Common_Printf], or takes the next step of its call: a
    command, a section of the kernel's [xQueueSemaphoreTake], one character on the
    line.  Or anything else happens that leaves the mutex and the line alone. *)
Inductive console_step : console -> console -> Prop :=
| con_environment m k ts out ms k' : console_step (Console m k ts out ms) (Console m k' ts out ms)
| con_call m k ts out ms format :
    ts (pxCurrentTCB k) = Idle ->
    console_step (Console m k ts out ms) (Console m k (<[pxCurrentTCB k := At (Common_Printf m format)]> ts) out ms)
| con_return m k ts out ms r :
    ts (pxCurrentTCB k) = At (Return r) ->
    console_step (Console m k ts out ms) (Console m k (<[pxCurrentTCB k := Idle]> ts) out ms)
| con_take m k ts out ms ticks next :
    ts (pxCurrentTCB k) = At (SemaphoreTake ticks next) ->
    console_step (Console m k ts out ms) (Console m k (<[pxCurrentTCB k := Taking (new_call ticks) next]> ts) out ms)
| con_taken q k ts out ms c next q' k' :
    ts (pxCurrentTCB k) = Taking c next -> take_attempt q k = (q', k', Returns true) ->
    console_step (Console (Some q) k ts out ms) (Console (Some q') k' (<[pxCurrentTCB k := At (next true)]> ts) out ms)
| con_wait q k ts out ms c next q' k' :
    ts (pxCurrentTCB k) = Taking c next -> take_attempt q k = (q', k', Waits) ->
    console_step (Console (Some q) k ts out ms)
      (Console (Some q') k'
         (<[pxCurrentTCB k := match attempt_failed c k' with Some c' => Waiting c' next | None => At (next false) end]> ts) out ms)
| con_block q k ts out ms c next v q' k' expired c' :
    ts (pxCurrentTCB k) = Waiting c next -> at_block v = (q, k) ->
    irq_safe (on_locked v) -> irq_safe (on_placed v) ->
    block_section prvIsQueueEmpty xTasksWaitingToReceive mutex_inheritance c v = (q', k', expired, c') ->
    console_step (Console (Some q) k ts out ms)
      (Console (Some q') k' (<[pxCurrentTCB k := if expired then TimedOut c' next else Taking c' next]> ts) out ms)
| con_retry q k ts out ms c next :
    ts (pxCurrentTCB k) = TimedOut c next -> prvIsQueueEmpty q = false ->
    console_step (Console (Some q) k ts out ms) (Console (Some q) k (<[pxCurrentTCB k := Taking c next]> ts) out ms)
| con_give_up q k ts out ms c next k' :
    ts (pxCurrentTCB k) = TimedOut c next ->
    (if xInheritanceOccurred c
     then vTaskPriorityDisinheritAfterTimeout (xMutexHolder q) (prvGetDisinheritPriorityAfterTimeout q k) k = Some k'
     else k' = k) ->
    console_step (Console (Some q) k ts out ms) (Console (Some q) k' (<[pxCurrentTCB k := At (next false)]> ts) out ms)
| con_print m k ts out ms text next :
    ts (pxCurrentTCB k) = At (Vprintf text next) ->
    console_step (Console m k ts out ms) (Console m k (<[pxCurrentTCB k := Writing text next]> ts) out (ms ++ [text]))
| con_character m k ts out ms b rest next :
    ts (pxCurrentTCB k) = Writing (b :: rest) next ->
    console_step (Console m k ts out ms)
      (Console m k (<[pxCurrentTCB k := Writing rest next]> ts) (out ++ common_WriteCharacter b) ms)
| con_printed m k ts out ms next result :
    ts (pxCurrentTCB k) = Writing [] next ->
    console_step (Console m k ts out ms) (Console m k (<[pxCurrentTCB k := At (next result)]> ts) out ms)
| con_give q k ts out ms next q' k' r :
    ts (pxCurrentTCB k) = At (SemaphoreGive next) -> send_now [] queueSEND_TO_BACK q k = Some (q', k', r) ->
    console_step (Console (Some q) k ts out ms) (Console (Some q') k' (<[pxCurrentTCB k := At next]> ts) out ms).

Inductive console_run : console -> console -> Prop :=
| console_run_nil s : console_run s s
| console_run_step s1 s2 s3 : console_step s1 s2 -> console_run s2 s3 -> console_run s1 s3.

(** What follows the take and [vprintf] in a call that found the mutex. *)
Definition after_print (result : Z) : command := SemaphoreGive (Return result).
Definition after_take (text : bytes) (taken : bool) : command := if taken then Vprintf text after_print else Return (-1).

(** The places of a call before it has the mutex and after it gave it back ... *)
Inductive outside : thread -> Prop :=
| out_idle : outside Idle
| out_return r : outside (At (Return r))
| out_take text : outside (At (SemaphoreTake portMAX_DELAY (after_take text)))
| out_taking text c : outside (Taking c (after_take text))
| out_waiting text c : outside (Waiting c (after_take text))
| out_timed_out text c : outside (TimedOut c (after_take text)).

(** ... and those in between, with the part of the message that is announced but
    not yet written. *)
Inductive inside : bytes -> thread -> Prop :=
| in_print text : inside [] (At (Vprintf text after_print))
| in_writing rest : inside rest (Writing rest after_print)
| in_give r : inside [] (At (SemaphoreGive (Return r))).

(** The mutex records the one task that is inside, and the line holds the messages
    up to what that task still has to write. *)
Definition console_inv (s : console) : Prop :=
  exists q h n, c_mutex s = Some q /\ is_mutex q = true /\ uxItemSize q = 0 /\ uxLength q = 1 /\ u q = xSemaphore h n /\
  match h with
  | None =>
    uxMessagesWaiting q = 1 /\ (forall t, outside (c_tasks s t)) /\ c_out s = concat (map printed (c_started s))
  | Some t =>
    uxMessagesWaiting q = 0 /\ (forall t', t' <> t -> outside (c_tasks s t')) /\
    exists rest, inside rest (c_tasks s t) /\ c_out s ++ printed rest = concat (map printed (c_started s))
  end.

Create HintDb console.
#[local] Hint Constructors outside inside : console.

Lemma outside_update (ts : Z -> thread) t p t' :
  outside p -> (t' <> t -> outside (ts t')) -> outside (<[t := p]> ts t').
Proof.
  intros Hp Ho. destruct (decide (t' = t)) as [->|Hne]; [by rewrite fn_lookup_insert|].
  rewrite fn_lookup_insert_ne by done. by apply Ho.
Qed.

(** A task cannot be inside and outside. *)
Lemma outside_inside rest p : outside p -> inside rest p -> False.
Proof. intros Ho Hi. destruct Hi; inversion Ho. Qed.

(** A step of a task that is outside and stays there. *)
Lemma console_other q k ts out ms t p q' k' :
  console_inv (Console (Some q) k ts out ms) -> outside (ts t) -> outside p -> core q' = core q ->
  console_inv (Console (Some q') k' (<[t := p]> ts) out ms).
Proof.
  intros (q0 & h & n & [= <-] & H1 & H2 & H3 & Hu & Hh) Ht Hp Hc. apply core_eq in Hc as (E1 & E2 & E3 & E4 & E5).
  exists q', h, n. cbn [c_mutex c_tasks c_out c_started] in *. rewrite E1, E2, E3, E4, E5. do 5 (split; [done|]).
  destruct h as [t0|].
  - destruct Hh as (Hw & Ho & rest & Hr & Hout). split; [done|]. split; [intros t' Hne; apply outside_update; auto|].
    exists rest. split; [|done]. rewrite fn_lookup_insert_ne; [done|]. intros ->. eauto using outside_inside.
  - destruct Hh as (Hw & Ho & Hout). split; [done|]. split; [intros t'; apply outside_update; auto|done].
Qed.

(** A step of the task that is inside and stays there. *)
Lemma console_holder q k ts out ms t rest p rest' out' ms' :
  console_inv (Console (Some q) k ts out ms) -> inside rest (ts t) -> inside rest' p ->
  (out ++ printed rest = concat (map printed ms) -> out' ++ printed rest' = concat (map printed ms')) ->
  console_inv (Console (Some q) k (<[t := p]> ts) out' ms').
Proof.
  intros (q0 & h & n & [= <-] & H1 & H2 & H3 & Hu & Hh) Ht Hp Hout'. exists q, h, n.
  cbn [c_mutex c_tasks c_out c_started] in *. do 5 (split; [done|]). destruct h as [t0|].
  - destruct Hh as (Hw & Ho & rest0 & Hr & Hout). split; [done|].
    assert (t = t0) as ->.
    { destruct (decide (t = t0)); [done|]. exfalso. eauto using outside_inside. }
    assert (rest0 = rest) as -> by (destruct Ht; by inversion Hr).
    split; [intros t' Hne; rewrite fn_lookup_insert_ne by done; auto|].
    exists rest'. rewrite fn_lookup_insert. auto.
  - destruct Hh as (_ & Ho & _). exfalso. eauto using outside_inside.
Qed.

Lemma console_take q k ts out ms text c q' k' :
  console_inv (Console (Some q) k ts out ms) -> ts (pxCurrentTCB k) = Taking c (after_take text) ->
  take_attempt q k = (q', k', Returns true) ->
  console_inv (Console (Some q') k' (<[pxCurrentTCB k := At (after_take text true)]> ts) out ms).
Proof.
  intros (q0 & h & n & [= <-] & H1 & H2 & H3 & Hu & Hh) Ht E. cbn [c_mutex c_tasks c_out c_started] in *.
  unfold take_attempt in E. destruct h as [t|]; [destruct Hh as (Hw & _); by rewrite Hw in E|].
  destruct Hh as (Hw & Ho & Hout). rewrite Hw in E. cbn [Z.ltb Z.compare] in E.
  change (is_mutex (set_waiting (u32 (1 - 1)) q)) with (is_mutex q) in E. rewrite H1 in E.
  cbn [pvTaskIncrementMutexHeldCount] in E. injection E as <- <-.
  eexists _, (Some (pxCurrentTCB k)), n. cbn [c_mutex c_tasks c_out c_started]. split; [reflexivity|]. do 3 (split; [done|]).
  split; [unfold uxRecursiveCallCount; cbn; by rewrite Hu|].
  split; [done|]. split; [intros t' Hne; rewrite fn_lookup_insert_ne by done; apply Ho|].
  exists []. rewrite fn_lookup_insert. split; [apply in_print|]. by rewrite app_nil_r.
Qed.

Lemma console_release q k ts out ms t r q' k' b :
  console_inv (Console (Some q) k ts out ms) -> ts t = At (SemaphoreGive (Return r)) ->
  send_now [] queueSEND_TO_BACK q k = Some (q', k', b) ->
  console_inv (Console (Some q') k' (<[t := At (Return r)]> ts) out ms).
Proof.
  intros (q0 & h & n & [= <-] & H1 & H2 & H3 & Hu & Hh) Ht. cbn [c_mutex c_tasks c_out c_started] in *.
  assert (Hin : inside [] (ts t)) by (rewrite Ht; apply in_give).
  destruct h as [t0|]; [|destruct Hh as (_ & Ho & _); exfalso; eauto using outside_inside].
  destruct Hh as (Hw & Ho & rest & Hr & Hout).
  assert (t = t0) as -> by (destruct (decide (t = t0)); [done|exfalso; eauto using outside_inside]).
  assert (rest = []) as -> by (rewrite Ht in Hr; by inversion Hr). cbn in Hout. rewrite app_nil_r in Hout.
  rewrite send_now_attempt by (cbn; by rewrite ?H2). unfold send_attempt. rewrite Hw, H3.
  cbn [Z.ltb Z.compare orb]. unfold prvCopyDataToQueue. rewrite H2, H1. cbn [Z.eqb].
  destruct (xTaskPriorityDisinherit _ k) as [[k1 y]|]; [|done]. intros [= <- <- <-].
  eexists _, None, n. cbn [c_mutex c_tasks c_out c_started]. split; [reflexivity|]. do 3 (split; [done|]).
  split; [unfold uxRecursiveCallCount; cbn; by rewrite Hu|]. split; [cbn; by rewrite Hw|]. split; [|done].
  intros t'. apply outside_update; auto with console.
Qed.

Lemma printed_cons b text : printed (b :: text) = common_WriteCharacter b ++ printed text.
Proof. done. Qed.

(** What a task may be doing, in a state of the invariant. *)
Lemma console_thread m k ts out ms t :
  console_inv (Console m k ts out ms) -> exists q, m = Some q /\ (outside (ts t) \/ exists rest, inside rest (ts t)).
Proof.
  intros (q & h & n & Em & _ & _ & _ & _ & Hh). exists q. split; [exact Em|]. cbn [c_tasks] in Hh. destruct h as [t0|].
  - destruct Hh as (_ & Ho & rest & Hr & _). destruct (decide (t = t0)) as [->|]; eauto.
  - destruct Hh as (_ & Ho & _). auto.
Qed.

#[local] Ltac outside_step Hi Hp Hx :=
  eapply console_other; [exact Hi|rewrite Hp; exact Hx|eauto with console|done].

Lemma console_step_inv s s' : console_step s s' -> console_inv s -> console_inv s'.
Proof.
  intros Hstep Hi. destruct Hstep as [m k ts out ms k'|m k ts out ms format Hp|m k ts out ms r Hp|m k ts out ms ticks next Hp
    |q k ts out ms c next q' k' Hp E|q k ts out ms c next q' k' Hp E|q k ts out ms c next v q' k' ex c' Hp Ev I1 I2 E
    |q k ts out ms c next Hp E|q k ts out ms c next k' Hp E|m k ts out ms text next Hp|m k ts out ms b rest next Hp
    |m k ts out ms next result Hp|q k ts out ms next q' k' r Hp E];
    [done|..]; destruct (console_thread _ _ _ _ _ (pxCurrentTCB k) Hi) as (q0 & Em & Hx); rewrite Hp in Hx;
    destruct Hx as [Hx|[rest0 Hx]]; try (by inversion Hx); try (subst m); try (apply Some_inj in Em as <-).
  - eapply console_other; [exact Hi|by rewrite Hp| |done]. destruct format as [text|]; [apply (out_take text)|apply out_return].
  - outside_step Hi Hp Hx.
  - inversion Hx; subst. eapply console_other; [exact Hi|by rewrite Hp|apply out_taking|done].
  - inversion Hx; subst. by eapply console_take.
  - apply take_attempt_waits in E as [-> ->]. inversion Hx; subst. eapply console_other; [exact Hi|by rewrite Hp| |done].
    destruct (attempt_failed c k); [apply out_waiting|apply out_return].
  - inversion Hx; subst. eapply console_other; [exact Hi|by rewrite Hp|destruct ex; eauto with console|].
    pose proof (block_core prvIsQueueEmpty xTasksWaitingToReceive mutex_inheritance c v I1 I2) as Hc. by rewrite E, Ev in Hc.
  - inversion Hx; subst. outside_step Hi Hp Hx.
  - inversion Hx; subst. eapply console_other; [exact Hi|by rewrite Hp|apply out_return|done].
  - inversion Hx; subst. eapply console_holder; [exact Hi|rewrite Hp; exact Hx|apply in_writing|].
    rewrite map_app, concat_app. cbn. rewrite !app_nil_r. by intros ->.
  - inversion Hx; subst. eapply console_holder; [exact Hi|rewrite Hp; exact Hx|apply in_writing|].
    by rewrite printed_cons, app_assoc.
  - inversion Hx; subst. eapply console_holder; [exact Hi|rewrite Hp; exact Hx|apply in_give|done].
  - inversion Hx; subst. by eapply console_release.
Qed.

Lemma console_run_inv s s' : console_run s s' -> console_inv s -> console_inv s'.
Proof. induction 1; eauto using console_step_inv. Qed.

(** A task is in [vprintf]. *)
Definition writing (p : thread) : Prop := match p with Writing _ _ => True | _ => False end.

(** C32. The messages of [Common_Printf] are whole.  After [Common_InitOutput], let
    any tasks call [Common_Printf] at any time, with or without a format, block on
    the mutex with or without success, and be switched between any two commands and
    any two characters.  Then at most one task is in [vprintf] at a time, and the
    line shows the messages whose printing has started, whole and in this order,
    except that the last one may still miss what the one task in [vprintf] has to
    write; when no task is there, nothing is missing.  Calls before
    [Common_InitOutput], which take no mutex, and what reaches the line without
    [Common_Printf] (the assertions of lwIP print by themselves) are not covered. *)
Theorem console_messages_whole address k0 m k1 s :
  Common_InitOutput address None k0 = Some (m, k1, true) ->
  console_run (Console m k1 (fun _ => Idle) [] []) s ->
  (forall t1 t2, writing (c_tasks s t1) -> writing (c_tasks s t2) -> t1 = t2) /\
  (exists rest, c_out s ++ printed rest = concat (map printed (c_started s)) /\
     (rest = [] \/ exists t next, c_tasks s t = Writing rest next)) /\
  ((forall t, ~ writing (c_tasks s t)) -> c_out s = concat (map printed (c_started s))).
Proof.
  intros Hinit Hr. unfold Common_InitOutput in Hinit.
  destruct (xQueueCreateMutexStatic address k0) as [[q k']|] eqn:Hc; [|done]. injection Hinit as <- <-.
  apply mutex_created in Hc as (Hq & Hm & Hw & Hu). pose proof (qt_union _ Hq) as Hun. rewrite Hm in Hun.
  destruct Hun as (Hsz & Hlen & _).
  destruct (console_run_inv _ _ Hr) as (q0 & h & n & _ & _ & _ & _ & _ & Hh).
  { exists q, None, 0. do 5 (split; [done|]). split; [done|]. split; [|done]. intros t. apply out_idle. }
  assert (Hno : forall t, outside (c_tasks s t) -> ~ writing (c_tasks s t)) by (intros t []; cbn; tauto).
  destruct h as [t|].
  - destruct Hh as (_ & Ho & rest & Ht & Hout). assert (Hone : forall t', writing (c_tasks s t') -> t' = t).
    { intros t' Hwr. destruct (decide (t' = t)); [done|]. exfalso. by apply (Hno t'); [apply Ho|]. }
    split; [intros t1 t2 H1%Hone H2%Hone; congruence|]. inversion Ht as [text Ep|rest' Er Ep|r Ep]; subst.
    + split; [exists []; auto|]. intros _. by rewrite <- Hout, app_nil_r.
    + split; [exists rest; split; [done|right; exists t, after_print; congruence]|]. intros Hn. exfalso. apply (Hn t).
      by rewrite <- Ep.
    + split; [exists []; auto|]. intros _. by rewrite <- Hout, app_nil_r.
  - destruct Hh as (_ & Ho & Hout). split; [intros t1 t2 H1; by destruct (Hno t1 (Ho t1))|]. split; [|done].
    exists []. split; [by rewrite app_nil_r|by left].
Qed.

(** Task 100 is switched out in its message; task 200 waits for the mutex. *)
Definition hello : bytes := [72; 105; 10].

Lemma console_sample_run :
  exists m k s, Common_InitOutput 2000 None sample_kernel = Some (m, k, true) /\
    console_run (Console m k (fun _ => Idle) [] []) s /\ c_out s = [72] /\ c_started s = [hello].
Proof.
  eexists _, _, _. split; [vm_compute; reflexivity|]. split.
  - eapply console_run_step; [eapply (con_environment _ _ _ _ _ (task_runs 100))|].
    eapply console_run_step; [eapply (con_call _ (task_runs 100) _ _ _ (Some hello)); vm_compute; reflexivity|].
    eapply console_run_step; [eapply (con_take _ (task_runs 100) _ _ _ portMAX_DELAY (after_take hello)); vm_compute; reflexivity|].
    eapply console_run_step; [eapply (con_taken _ (task_runs 100) _ _ _ (new_call portMAX_DELAY) (after_take hello)); vm_compute; reflexivity|].
    eapply console_run_step; [eapply (con_environment _ _ _ _ _ (task_runs 100))|].
    eapply console_run_step; [eapply (con_print _ (task_runs 100) _ _ _ hello after_print); vm_compute; reflexivity|].
    eapply console_run_step; [eapply (con_character _ (task_runs 100) _ _ _ 72 [105; 10] after_print); vm_compute; reflexivity|].
    eapply console_run_step; [eapply (con_environment _ _ _ _ _ (task_runs 200))|].
    eapply console_run_step; [eapply (con_call _ (task_runs 200) _ _ _ (Some hello)); vm_compute; reflexivity|].
    eapply console_run_step; [eapply (con_take _ (task_runs 200) _ _ _ portMAX_DELAY (after_take hello)); vm_compute; reflexivity|].
    eapply console_run_step; [eapply (con_wait _ (task_runs 200) _ _ _ (new_call portMAX_DELAY) (after_take hello)); vm_compute; reflexivity|].
    apply console_run_nil.
  - split; reflexivity.
Qed.

Lemma console_messages_whole_witness :
  exists s rest, c_out s = [72] /\ c_started s = [hello] /\ c_out s ++ printed rest = concat (map printed (c_started s)).
Proof.
  destruct console_sample_run as (m & k & s & E & Hr & Ho & Hm).
  destruct (console_messages_whole 2000 sample_kernel m k s E Hr) as (_ & (rest & H & _) & _).
  exists s, rest. split; [exact Ho|]. split; [exact Hm|exact H].
Defined.
