(* ===== verification/Mem.v ===== *)
(** * The heap of lwIP ([lwip/core/mem.c])

    [MEM_SIZE] bytes with a header in front of each block; the headers are linked
    in both directions by their offsets in the heap, and [lfree] is the first free
    block.  Pointers are offsets from [ram]; the end marker [ram_end] is the header
    at offset [MEM_SIZE_ALIGNED].  An assertion that fails prints its message, which
    is recorded, and execution goes on, as in this build.  The calls are made under
    the mutex of the heap.

    The theorems: the heap refines a first-fit allocator on a list of segments, for
    any calls and any writes of the owners into their blocks; live blocks are
    aligned, disjoint and as large as asked, and nothing is lost when they are
    returned. *)

From S2P Require Import Prelude.
From stdpp Require Import list functions strings sorting.
#[local] Open Scope Z_scope.

(** ** Constants *)

Definition MEM_ALIGNMENT : Z := 4.
Definition MEM_SIZE : Z := 10 * 1024.
Definition MIN_SIZE : Z := 12.

(** [LWIP_MEM_ALIGN_SIZE], in unsigned arithmetic. *)
Definition LWIP_MEM_ALIGN_SIZE (size : Z) : Z := Z.land (u32 (size + MEM_ALIGNMENT - 1)) (u32 (Z.lnot (MEM_ALIGNMENT - 1))).

Definition MIN_SIZE_ALIGNED : Z := Eval vm_compute in LWIP_MEM_ALIGN_SIZE MIN_SIZE.
(** Two 16-bit offsets and a byte, padded to six bytes. *)
Definition SIZEOF_STRUCT_MEM : Z := Eval vm_compute in LWIP_MEM_ALIGN_SIZE 6.
Definition MEM_SIZE_ALIGNED : Z := Eval vm_compute in LWIP_MEM_ALIGN_SIZE MEM_SIZE.

(** ** Data *)

Record mem := Mem { m_next : Z; m_prev : Z; m_used : bool }.

Record heap := Heap {
  (** The header an offset would have: those of blocks, and what data or old
      headers look like at other offsets. *)
  ram : Z -> mem;
  lfree : Z;
  (** Messages of failed assertions. *)
  complaints : list string
}.

Definition set_ram (r : Z -> mem) (h : heap) : heap := Heap r (lfree h) (complaints h).
Definition set_mem (p : Z) (m : mem) (h : heap) : heap := set_ram (<[p := m]> (ram h)) h.
Definition set_lfree (p : Z) (h : heap) : heap := Heap (ram h) p (complaints h).
Definition set_next (p v : Z) (h : heap) : heap := set_mem p (Mem v (m_prev (ram h p)) (m_used (ram h p))) h.
Definition set_prev (p v : Z) (h : heap) : heap := set_mem p (Mem (m_next (ram h p)) v (m_used (ram h p))) h.
Definition set_used (p : Z) (u : bool) (h : heap) : heap := set_mem p (Mem (m_next (ram h p)) (m_prev (ram h p)) u) h.

Definition LWIP_ASSERT (message : string) (assertion : bool) (h : heap) : heap :=
  if assertion then h else Heap (ram h) (lfree h) (complaints h ++ [message]).

(** ** Operations *)

(** The block [b] becomes part of the block [a] before it. *)
Definition absorb (a b : Z) (h : heap) : heap :=
  let h := if lfree h =? b then set_lfree a h else h in
  let h := set_next a (m_next (ram h b)) h in
  if negb (m_next (ram h b) =? MEM_SIZE_ALIGNED) then set_prev (m_next (ram h b)) a h else h.

Definition plug_holes (mem : Z) (h : heap) : heap :=
  let h := LWIP_ASSERT "plug_holes: mem >= ram" (0 <=? mem) h in
  let h := LWIP_ASSERT "plug_holes: mem < ram_end" (mem <? MEM_SIZE_ALIGNED) h in
  let h := LWIP_ASSERT "plug_holes: mem->used == 0" (negb (m_used (ram h mem))) h in
  let h := LWIP_ASSERT "plug_holes: mem->next <= MEM_SIZE_ALIGNED" (m_next (ram h mem) <=? MEM_SIZE_ALIGNED) h in
  let nmem := m_next (ram h mem) in
  let h :=
    if negb (mem =? nmem) && negb (m_used (ram h nmem)) && negb (nmem =? MEM_SIZE_ALIGNED)
    then absorb mem nmem h else h in
  let pmem := m_prev (ram h mem) in
  if negb (pmem =? mem) && negb (m_used (ram h pmem)) then absorb pmem mem h else h.

(** [r] is the memory before. *)
Definition mem_init (r : Z -> mem) : heap :=
  let h := Heap r 0 [] in
  let h := set_mem 0 (Mem MEM_SIZE_ALIGNED 0 false) h in
  set_mem MEM_SIZE_ALIGNED (Mem MEM_SIZE_ALIGNED MEM_SIZE_ALIGNED true) h.

Definition mem_link_valid (mem : Z) (h : heap) : bool :=
  let nmem := m_next (ram h mem) in
  let pmem := m_prev (ram h mem) in
  negb ((MEM_SIZE_ALIGNED <? m_next (ram h mem)) || (MEM_SIZE_ALIGNED <? m_prev (ram h mem))
        || (negb (m_prev (ram h mem) =? mem) && negb (m_next (ram h pmem) =? mem))
        || (negb (nmem =? MEM_SIZE_ALIGNED) && negb (m_prev (ram h nmem) =? mem))).

Definition mem_free (rmem : option Z) (h : heap) : heap :=
  match rmem with
  | None => h
  | Some rmem =>
    if negb (Z.land rmem (MEM_ALIGNMENT - 1) =? 0) then LWIP_ASSERT "mem_free: sanity check alignment" false h
    else
      let mem := rmem - SIZEOF_STRUCT_MEM in
      if (mem <? 0) || (MEM_SIZE_ALIGNED <? rmem + MIN_SIZE_ALIGNED) then
        LWIP_ASSERT "mem_free: illegal memory" false h
      else if negb (m_used (ram h mem)) then LWIP_ASSERT "mem_free: illegal memory: double free" false h
      else if negb (mem_link_valid mem h) then
        LWIP_ASSERT "mem_free: illegal memory: non-linked: double free" false h
      else
        let h := set_used mem false h in
        let h := if mem <? lfree h then set_lfree mem h else h in
        plug_holes mem h
  end.

(** The block at [ptr] gives up what is behind [newsize] bytes, if that joins a free
    block or is large enough for one. *)
Definition trim_block (ptr newsize size : Z) (h : heap) : heap :=
  let mem2 := m_next (ram h ptr) in
  let ptr2 := u16 (ptr + SIZEOF_STRUCT_MEM + newsize) in
  if negb (m_used (ram h mem2)) then
    let h := LWIP_ASSERT "invalid next ptr" (negb (m_next (ram h ptr) =? MEM_SIZE_ALIGNED)) h in
    let next := m_next (ram h mem2) in
    let h := if lfree h =? mem2 then set_lfree ptr2 h else h in
    let h := set_mem ptr2 (Mem next ptr false) h in
    let h := set_next ptr ptr2 h in
    if negb (m_next (ram h ptr2) =? MEM_SIZE_ALIGNED) then set_prev (m_next (ram h ptr2)) ptr2 h else h
  else if newsize + SIZEOF_STRUCT_MEM + MIN_SIZE_ALIGNED <=? size then
    let h := LWIP_ASSERT "invalid next ptr" (negb (m_next (ram h ptr) =? MEM_SIZE_ALIGNED)) h in
    let h := if ptr2 <? lfree h then set_lfree ptr2 h else h in
    let h := set_mem ptr2 (Mem (m_next (ram h ptr)) ptr false) h in
    let h := set_next ptr ptr2 h in
    if negb (m_next (ram h ptr2) =? MEM_SIZE_ALIGNED) then set_prev (m_next (ram h ptr2)) ptr2 h else h
  else h.

Definition mem_trim (rmem new_size : Z) (h : heap) : heap * option Z :=
  let newsize := u16 (LWIP_MEM_ALIGN_SIZE new_size) in
  let newsize := if newsize <? MIN_SIZE_ALIGNED then MIN_SIZE_ALIGNED else newsize in
  if (MEM_SIZE_ALIGNED <? newsize) || (newsize <? new_size) then (h, None)
  else
    let legal := (0 <=? rmem) && (rmem <? MEM_SIZE_ALIGNED) in
    let h := LWIP_ASSERT "mem_trim: legal memory" legal h in
    if negb legal then (h, Some rmem)
    else
      let ptr := u16 (rmem - SIZEOF_STRUCT_MEM) in
      let size := u16 (u16 (m_next (ram h (rmem - SIZEOF_STRUCT_MEM)) - ptr) - SIZEOF_STRUCT_MEM) in
      let h := LWIP_ASSERT "mem_trim can only shrink memory" (newsize <=? size) h in
      if size <? newsize then (h, None)
      else if newsize =? size then (h, Some rmem)
      else (trim_block ptr newsize size h, Some rmem).

(** The loop that finds the next free block after [lfree] was taken; [None]: the
    fuel is not enough. *)
Fixpoint adjust_lfree (fuel : nat) (cur : Z) (h : heap) : option heap :=
  match fuel with
  | O => None
  | S fuel =>
    if m_used (ram h cur) && negb (cur =? MEM_SIZE_ALIGNED) then adjust_lfree fuel (m_next (ram h cur)) h
    else
      let h := set_lfree cur h in
      Some (LWIP_ASSERT "mem_malloc: !lfree->used" ((cur =? MEM_SIZE_ALIGNED) || negb (m_used (ram h cur))) h)
  end.

(** The block is taken, and split when the rest can hold another. *)
Definition take_block (fuel : nat) (ptr size : Z) (h : heap) : option (heap * option Z) :=
  let h :=
    if size + SIZEOF_STRUCT_MEM + MIN_SIZE_ALIGNED <=? u32 (m_next (ram h ptr) - (ptr + SIZEOF_STRUCT_MEM)) then
      let ptr2 := u16 (ptr + SIZEOF_STRUCT_MEM + size) in
      let h := LWIP_ASSERT "invalid next ptr" (negb (ptr2 =? MEM_SIZE_ALIGNED)) h in
      let h := set_mem ptr2 (Mem (m_next (ram h ptr)) ptr false) h in
      let h := set_used ptr true (set_next ptr ptr2 h) in
      if negb (m_next (ram h ptr2) =? MEM_SIZE_ALIGNED) then set_prev (m_next (ram h ptr2)) ptr2 h else h
    else set_used ptr true h in
  match (if ptr =? lfree h then adjust_lfree fuel (lfree h) h else Some h) with
  | None => None
  | Some h =>
    let h := LWIP_ASSERT "mem_malloc: allocated memory not above ram_end."
               (ptr + SIZEOF_STRUCT_MEM + size <=? MEM_SIZE_ALIGNED) h in
    let h := LWIP_ASSERT "mem_malloc: allocated memory properly aligned."
               ((ptr + SIZEOF_STRUCT_MEM) mod MEM_ALIGNMENT =? 0) h in
    let h := LWIP_ASSERT "mem_malloc: sanity check alignment" (Z.land ptr (MEM_ALIGNMENT - 1) =? 0) h in
    Some (h, Some (ptr + SIZEOF_STRUCT_MEM))
  end.

(** The search from [ptr]. *)
Fixpoint malloc_loop (fuel : nat) (ptr size : Z) (h : heap) : option (heap * option Z) :=
  match fuel with
  | O => None
  | S fuel' =>
    if ptr <? MEM_SIZE_ALIGNED - size then
      if negb (m_used (ram h ptr)) && (size <=? u32 (m_next (ram h ptr) - (ptr + SIZEOF_STRUCT_MEM)))
      then take_block fuel ptr size h
      else malloc_loop fuel' (m_next (ram h ptr)) size h
    else Some (h, None)
  end.

(** A heap has at most [MEM_SIZE_ALIGNED / (SIZEOF_STRUCT_MEM + MIN_SIZE_ALIGNED)]
    blocks. *)
Definition malloc_fuel : nat := 514.

Definition mem_malloc (size_in : Z) (h : heap) : option (heap * option Z) :=
  if size_in =? 0 then Some (h, None)
  else
    let size := u16 (LWIP_MEM_ALIGN_SIZE size_in) in
    let size := if size <? MIN_SIZE_ALIGNED then MIN_SIZE_ALIGNED else size in
    if (MEM_SIZE_ALIGNED <? size) || (size <? size_in) then Some (h, None)
    else malloc_loop malloc_fuel (lfree h) size h.

(** With the number of bytes set to zero behind the pointer. *)
Definition mem_calloc (count size : Z) (h : heap) : option (heap * option (Z * Z)) :=
  let alloc_size := u32 (count * size) in
  if negb (u16 alloc_size =? alloc_size) then Some (h, None)
  else match mem_malloc (u16 alloc_size) h with
       | None => None
       | Some (h, None) => Some (h, None)
       | Some (h, Some p) => Some (h, Some (p, alloc_size))
       end.

(** ** Segments *)

(** The specification: the heap is cut into segments, each with its size, header
    included, and whether it is in use. *)
Notation segment := (Z * bool)%type.

Definition total (l : list segment) : Z := foldr (fun s t => fst s + t) 0 l.

(** Sizes are multiples of the alignment with room for the smallest block. *)
Definition seg_ok (s : segment) : Prop := SIZEOF_STRUCT_MEM + MIN_SIZE_ALIGNED <= fst s /\ fst s mod MEM_ALIGNMENT = 0.

(** No two free segments side by side. *)
Definition opens_used (l : list segment) : bool := match l with (_, false) :: _ => false | _ => true end.
Fixpoint no_holes (l : list segment) : Prop :=
  match l with
  | [] => True
  | (_, u) :: r => (u = true \/ opens_used r = true) /\ no_holes r
  end.

(** The first free segment, or the end. *)
Fixpoint first_free (p : Z) (l : list segment) : Z :=
  match l with
  | [] => p
  | (n, u) :: r => if u then first_free (p + n) r else p
  end.

(** The segments lie in the heap from offset [p], the block before at [prev]. *)
Fixpoint chain (r : Z -> mem) (prev p : Z) (l : list segment) : Prop :=
  match l with
  | [] => True
  | (n, u) :: l => r p = Mem (p + n) prev u /\ chain r p (p + n) l
  end.

Record laid_out (h : heap) (l : list segment) : Prop := LaidOut {
  lo_chain : chain (ram h) 0 0 l;
  lo_end : ram h MEM_SIZE_ALIGNED = Mem MEM_SIZE_ALIGNED MEM_SIZE_ALIGNED true;
  lo_total : total l = MEM_SIZE_ALIGNED;
  lo_sizes : Forall seg_ok l;
  lo_lfree : lfree h = first_free 0 l
}.

Definition represents (h : heap) (l : list segment) : Prop := laid_out h l /\ no_holes l.

(** The first segment that is large enough, cut when the rest is a segment; the
    offset of the segment. *)
Fixpoint spec_malloc (size : Z) (l : list segment) : option (list segment * Z) :=
  match l with
  | [] => None
  | (n, u) :: r =>
    if negb u && (size + SIZEOF_STRUCT_MEM <=? n) then
      if size + 2 * SIZEOF_STRUCT_MEM + MIN_SIZE_ALIGNED <=? n
      then Some ((size + SIZEOF_STRUCT_MEM, true) :: (n - (size + SIZEOF_STRUCT_MEM), false) :: r, 0)
      else Some ((n, true) :: r, 0)
    else match spec_malloc size r with
         | None => None
         | Some (r, o) => Some ((n, u) :: r, n + o)
         end
  end.

(** Change the segment at an offset, with the ones that follow. *)
Fixpoint at_offset (o : Z) (f : Z -> list segment -> list segment) (l : list segment) : list segment :=
  match l with
  | [] => []
  | (n, u) :: r => if o =? 0 then f n r else (n, u) :: at_offset (o - n) f r
  end.

Fixpoint merge (l : list segment) : list segment :=
  match l with
  | [] => []
  | (n, true) :: r => (n, true) :: merge r
  | (n, false) :: r => match merge r with
                       | (m, false) :: r => (n + m, false) :: r
                       | r => (n, false) :: r
                       end
  end.

Definition spec_free (o : Z) (l : list segment) : list segment :=
  merge (at_offset o (fun n r => (n, false) :: r) l).

(** The rest of a trimmed block joins a free segment behind it, or becomes one when
    it is large enough. *)
Definition shrink (newsize n : Z) (r : list segment) : list segment :=
  if newsize + SIZEOF_STRUCT_MEM =? n then (n, true) :: r
  else match r with
       | (m, false) :: r => (newsize + SIZEOF_STRUCT_MEM, true) :: (n - (newsize + SIZEOF_STRUCT_MEM) + m, false) :: r
       | _ => if newsize + 2 * SIZEOF_STRUCT_MEM + MIN_SIZE_ALIGNED <=? n
              then (newsize + SIZEOF_STRUCT_MEM, true) :: (n - (newsize + SIZEOF_STRUCT_MEM), false) :: r
              else (n, true) :: r
       end.

Definition spec_trim (o newsize : Z) (l : list segment) : list segment := at_offset o (shrink newsize) l.

(** ** Chains *)

Lemma total_app l r : total (l ++ r) = total l + total r.
Proof. unfold total. induction l as [|[n u] l IH]; cbn [app foldr fst]; [done|]. rewrite IH. lia. Qed.

Lemma total_cons n u l : total ((n, u) :: l) = n + total l.
Proof. done. Qed.

Lemma total_nonneg l : Forall seg_ok l -> 0 <= total l.
Proof.
  induction 1 as [|[n u] l [Hn _] Hl IH]; [done|]. cbn in Hn. rewrite total_cons.
  unfold SIZEOF_STRUCT_MEM, MIN_SIZE_ALIGNED in Hn. lia.
Qed.

Fixpoint last_start (prev p : Z) (l : list segment) : Z :=
  match l with
  | [] => prev
  | (n, _) :: l => last_start p (p + n) l
  end.

Lemma chain_app r prev p l l' :
  chain r prev p (l ++ l') <-> chain r prev p l /\ chain r (last_start prev p l) (p + total l) l'.
Proof.
  revert prev p. induction l as [|[n u] l IH]; intros prev p; cbn [app chain last_start].
  - cbn. rewrite Z.add_0_r. tauto.
  - rewrite IH, total_cons, Z.add_assoc. tauto.
Qed.

Lemma chain_frame r r' prev p l :
  Forall seg_ok l -> (forall q, p <= q < p + total l -> r' q = r q) -> chain r prev p l -> chain r' prev p l.
Proof.
  intros Hok. revert prev p. induction Hok as [|[n u] l [Hn _] Hl IH]; intros prev p Hq; [done|].
  cbn in Hn. unfold SIZEOF_STRUCT_MEM, MIN_SIZE_ALIGNED in Hn. pose proof (total_nonneg l Hl). rewrite total_cons in Hq.
  cbn [chain]. intros [Hp Hc]. split; [rewrite Hq by lia; done|]. apply IH; [|done]. intros q ?. apply Hq. lia.
Qed.

Lemma last_start_range prev p l :
  Forall seg_ok l -> l <> [] -> p <= last_start prev p l < p + total l.
Proof.
  intros Hok. revert prev p. induction Hok as [|[n u] l [Hn _] Hl IH]; intros prev p; [done|]. intros _.
  cbn in Hn. unfold SIZEOF_STRUCT_MEM, MIN_SIZE_ALIGNED in Hn. cbn [last_start]. rewrite total_cons.
  pose proof (total_nonneg l Hl). destruct (decide (l = [])) as [->|Hne]; [cbn; lia|].
  specialize (IH p (p + n) Hne). lia.
Qed.

(** The header at the head of a chain, with another block before it. *)
Definition relink (q prev : Z) (h : heap) : heap := if negb (q =? MEM_SIZE_ALIGNED) then set_prev q prev h else h.

Lemma chain_relink h prev prev' p l :
  Forall seg_ok l -> p + total l = MEM_SIZE_ALIGNED -> chain (ram h) prev p l -> chain (ram (relink p prev' h)) prev' p l.
Proof.
  intros Hok Ht Hc. destruct Hok as [|[n u] l [Hn _] Hl]; [done|]. cbn in Hn. unfold SIZEOF_STRUCT_MEM, MIN_SIZE_ALIGNED in Hn.
  pose proof (total_nonneg l Hl) as Hl0. rewrite total_cons in Ht. unfold relink.
  destruct (Z.eqb_spec p MEM_SIZE_ALIGNED) as [E|_]; [lia|]. cbn [negb chain] in *. destruct Hc as [Hp Hc]. split.
  - unfold set_prev, set_mem, set_ram. cbn [ram]. rewrite fn_lookup_insert, Hp. done.
  - revert Hc. apply chain_frame; [done|]. intros q Hq. unfold set_prev, set_mem, set_ram. cbn [ram].
    apply fn_lookup_insert_ne. lia.
Qed.

Lemma relink_other p prev h q : q <> p -> ram (relink p prev h) q = ram h q.
Proof. intros. unfold relink. destruct (_ =? _); [done|]. cbn. by rewrite fn_lookup_insert_ne. Qed.

Lemma relink_end p prev h : ram (relink p prev h) MEM_SIZE_ALIGNED = ram h MEM_SIZE_ALIGNED.
Proof. unfold relink. destruct (Z.eqb_spec p MEM_SIZE_ALIGNED); [done|]. cbn. by rewrite fn_lookup_insert_ne. Qed.

Lemma relink_lfree p prev h : lfree (relink p prev h) = lfree h.
Proof. unfold relink. by destruct (_ =? _). Qed.

Lemma relink_complaints p prev h : complaints (relink p prev h) = complaints h.
Proof. unfold relink. by destruct (_ =? _). Qed.

Lemma last_start_snoc prev p l n u : last_start prev p (l ++ [(n, u)]) = p + total l.
Proof.
  revert prev p. induction l as [|[m v] l IH]; intros prev p; cbn [app last_start]; [by cbn; rewrite Z.add_0_r|].
  rewrite IH, total_cons. lia.
Qed.

Ltac sizes := unfold seg_ok, SIZEOF_STRUCT_MEM, MIN_SIZE_ALIGNED, MEM_ALIGNMENT, MEM_SIZE_ALIGNED in *; cbn [fst snd] in *.

Lemma laid_split h l n u r :
  laid_out h (l ++ (n, u) :: r) ->
  ram h (total l) = Mem (total l + n) (last_start 0 0 l) u /\ chain (ram h) 0 0 l /\ chain (ram h) (total l) (total l + n) r /\
  Forall seg_ok l /\ seg_ok (n, u) /\ Forall seg_ok r /\ 0 <= total l /\ 0 <= total r /\ total l + n + total r = MEM_SIZE_ALIGNED.
Proof.
  intros [Hc _ Ht Hs _]. apply chain_app in Hc as [Hl [Hp Hr]]. apply Forall_app in Hs as [Hsl [Hsn Hsr]%list.Forall_cons].
  rewrite total_app, total_cons in Ht. rewrite Z.add_0_l in *.
  do 4 (split; [done|]). split; [done|]. split; [done|]. split; [by apply total_nonneg|]. split; [by apply total_nonneg|]. lia.
Qed.

(** Where the first free segment is. *)
Definition all_used (l : list segment) : bool := forallb snd l.

Lemma first_free_app p l r :
  first_free p (l ++ r) = if all_used l then first_free (p + total l) r else first_free p l.
Proof.
  revert p. induction l as [|[n []] l IH]; intros p; cbn [app first_free all_used forallb snd andb].
  - f_equal. cbn. lia.
  - rewrite IH, total_cons, Z.add_assoc. done.
  - done.
Qed.

Lemma first_free_range p l : Forall seg_ok l -> p <= first_free p l <= p + total l.
Proof.
  intros Hok. revert p. induction Hok as [|[n []] l [Hn _] Hl IH]; intros p; cbn [first_free]; [cbn; lia| |];
    rewrite total_cons; sizes; pose proof (total_nonneg l Hl); [specialize (IH (p + n))|]; lia.
Qed.

Lemma first_free_before p l : Forall seg_ok l -> all_used l = false -> p <= first_free p l < p + total l.
Proof.
  intros Hok. revert p. induction Hok as [|[n []] l [Hn _] Hl IH]; intros p; cbn [first_free all_used forallb snd andb]; [done| |];
    rewrite total_cons; sizes; pose proof (total_nonneg l Hl); intros Hu; [specialize (IH (p + n) Hu)|]; lia.
Qed.

(** ** Joining free segments *)

Lemma absorb_laid h l n m r :
  laid_out h (l ++ (n, false) :: (m, false) :: r) ->
  laid_out (absorb (total l) (total l + n) h) (l ++ (n + m, false) :: r) /\
  complaints (absorb (total l) (total l + n) h) = complaints h.
Proof.
  intros H. destruct (laid_split _ _ _ _ _ H) as (Hp & Hl & [Hm Hr] & Hsl & Hn & [Hsm Hsr]%list.Forall_cons & Hl0 & Hr0 & Ht).
  pose proof (total_nonneg r Hsr). rewrite total_cons in *. destruct H as [_ He _ _ Hf].
  assert (Hlf : (lfree h =? total l + n) = false).
  { apply Z.eqb_neq. rewrite Hf, first_free_app. destruct (all_used l) eqn:Eu; cbn [first_free].
    - sizes. lia.
    - pose proof (first_free_before 0 l Hsl Eu). sizes. lia. }
  unfold absorb. rewrite Hlf. set (h1 := set_next (total l) (m_next (ram h (total l + n))) h).
  assert (E1 : ram h1 (total l + n) = ram h (total l + n)) by (cbn; apply fn_lookup_insert_ne; sizes; lia).
  rewrite E1, Hm. cbn [m_next]. fold (relink (total l + n + m) (total l) h1).
  split; [|by rewrite relink_complaints].
  constructor.
  - apply chain_app. split.
    + revert Hl. apply chain_frame; [done|]. intros q Hq. rewrite relink_other by (sizes; lia).
      cbn. apply fn_lookup_insert_ne. lia.
    + cbn [chain]. split.
      * rewrite relink_other by (sizes; lia). cbn. rewrite fn_lookup_insert, Hp, Hm. cbn. f_equal. lia.
      * replace (0 + total l + (n + m)) with (total l + n + m) by lia. apply (chain_relink h1 (total l + n)); [done|lia|].
        revert Hr. apply chain_frame; [done|]. intros q Hq. cbn. apply fn_lookup_insert_ne. sizes. lia.
  - rewrite relink_end. cbn. rewrite fn_lookup_insert_ne; [done|]. sizes. lia.
  - rewrite total_app, total_cons. lia.
  - apply Forall_app. split; [done|]. constructor; [|done]. sizes. destruct Hn, Hsm. split; [lia|].
    rewrite Z.add_mod by lia. rewrite H1, H3. done.
  - rewrite relink_lfree. cbn. rewrite Hf, !first_free_app. by destruct (all_used l).
Qed.

Definition ends_used (l : list segment) : bool := match last l with Some (_, false) => false | _ => true end.

Lemma ends_used_cons s l : l <> [] -> ends_used (s :: l) = ends_used l.
Proof. intros. unfold ends_used. by destruct l. Qed.

Lemma no_holes_app l r : no_holes (l ++ r) <-> no_holes l /\ no_holes r /\ (ends_used l = true \/ opens_used r = true).
Proof.
  induction l as [|[n u] l IH]; cbn [app no_holes]; [unfold ends_used; cbn; tauto|]. rewrite IH.
  destruct l as [|s l]; [|rewrite (ends_used_cons (n, u) (s :: l)) by done; cbn [app]; destruct s as [m []]; cbn; tauto].
  unfold ends_used. cbn. destruct u; cbn; intuition.
Qed.

Lemma opens_used_merge l : opens_used (merge l) = opens_used l.
Proof. destruct l as [|[n []] l]; [done|done|]. cbn [merge]. by destruct (merge l) as [|[m []] l']. Qed.

Lemma merge_id l : no_holes l -> merge l = l.
Proof.
  induction l as [|[n []] l IH]; cbn [no_holes merge]; [done| |]; intros [Ho Hl]; rewrite IH by done; [done|].
  destruct l as [|[m []] l]; [done|done|]. destruct Ho; done.
Qed.

Lemma merge_app l r : no_holes l -> ends_used l = true -> merge (l ++ r) = l ++ merge r.
Proof.
  induction l as [|[n u] l IH]; [done|]. intros [Ho Hl] He. cbn [app merge].
  destruct (decide (l = [])) as [->|Hne]; [by destruct u|]. rewrite ends_used_cons in He by done.
  rewrite IH by done. destruct u; [done|]. destruct Ho as [|Ho]; [done|]. by destruct l as [|[m []] l].
Qed.

(** A free segment between others joins its free neighbours. *)
Lemma merge_next l n r : no_holes r ->
  merge (l ++ (n, false) :: r) =
  merge (match r with (m, false) :: r => l ++ (n + m, false) :: r | _ => l ++ (n, false) :: r end).
Proof.
  intros Hr. induction l as [|[k u] l IH]; cbn [app].
  - cbn [merge]. rewrite (merge_id r Hr). destruct r as [|[m []] r]; [done|cbn [merge]; destruct Hr; by rewrite merge_id|].
    cbn [merge]. destruct Hr as [[|Ho] Hr]; [done|]. rewrite merge_id by done. by destruct r as [|[? []] r].
  - cbn [merge]. rewrite IH. by destruct r as [|[m []] r].
Qed.

Lemma merge_prev l n r :
  no_holes l -> no_holes r -> opens_used r = true ->
  no_holes (merge (l ++ (n, false) :: r)) /\
  merge (l ++ (n, false) :: r) =
    match last l with
    | Some (k, false) => removelast l ++ (k + n, false) :: r
    | _ => l ++ (n, false) :: r
    end.
Proof.
  intros Hl Hr Ho.
  assert (Hm : merge ((n, false) :: r) = (n, false) :: r) by (by apply merge_id; split; [right|]).
  destruct l as [|[k u] l _] using rev_ind; [cbn [app last]; rewrite Hm; by split; [split; [right|]|]|].
  rewrite last_snoc, removelast_last. destruct u.
  - rewrite merge_app by (done || (unfold ends_used; by rewrite last_snoc)). rewrite Hm. split; [|done].
    apply no_holes_app. split; [done|]. split; [by split; [right|]|]. left. unfold ends_used. by rewrite last_snoc.
  - apply no_holes_app in Hl as (Hl & _ & [He|]); [|done]. rewrite <- app_assoc. cbn [app].
    assert (E : merge ((k, false) :: (n, false) :: r) = (k + n, false) :: r)
      by (change (merge ((k, false) :: (n, false) :: r)) with
            (match merge ((n, false) :: r) with (m, false) :: r => (k + m, false) :: r | r => (k, false) :: r end); by rewrite Hm).
    rewrite merge_app, E by done. split; [|done]. apply no_holes_app. split; [done|]. split; [by split; [right|]|by left].
Qed.

Lemma assert_true message h : LWIP_ASSERT message true h = h.
Proof. done. Qed.

Lemma plug_holes_laid h l n r :
  laid_out h (l ++ (n, false) :: r) -> no_holes l -> no_holes r ->
  represents (plug_holes (total l) h) (merge (l ++ (n, false) :: r)) /\
  complaints (plug_holes (total l) h) = complaints h.
Proof.
  intros H Hnl Hnr. destruct (laid_split _ _ _ _ _ H) as (Hp & Hl & Hc & Hsl & Hn & Hsr & Hl0 & Hr0 & Ht).
  unfold plug_holes.
  replace (0 <=? total l) with true by (symmetry; apply Z.leb_le; lia).
  replace (total l <? MEM_SIZE_ALIGNED) with true by (symmetry; apply Z.ltb_lt; sizes; lia).
  rewrite !assert_true, Hp. cbn [m_used m_next negb]. rewrite !assert_true, Hp. cbn [m_used m_next negb].
  replace (total l + n <=? MEM_SIZE_ALIGNED) with true by (symmetry; apply Z.leb_le; lia).
  rewrite !assert_true, Hp. cbn [m_used m_next negb].
  replace (total l =? total l + n) with false by (symmetry; apply Z.eqb_neq; sizes; lia). cbn [negb andb].
  rewrite merge_next by done. set (h1 := if _ && _ then _ else h).
  assert (H1 : exists n1 r1, laid_out h1 (l ++ (n1, false) :: r1) /\ complaints h1 = complaints h /\ no_holes r1 /\
            opens_used r1 = true /\
            match r with (m, false) :: r => l ++ (n + m, false) :: r | _ => l ++ (n, false) :: r end = l ++ (n1, false) :: r1).
  { destruct r as [|[m []] r].
    - exists n, []. subst h1. cbn in Ht. replace (total l + n) with MEM_SIZE_ALIGNED by lia. rewrite (lo_end _ _ H). done.
    - exists n, ((m, true) :: r). subst h1. destruct Hc as [-> _]. done.
    - exists (n + m), r. subst h1. destruct Hc as [E _]. rewrite E. cbn [m_used negb andb].
      rewrite total_cons in Ht. apply list.Forall_cons in Hsr as [Hm Hsr]. pose proof (total_nonneg r Hsr).
      replace (total l + n =? MEM_SIZE_ALIGNED) with false by (symmetry; apply Z.eqb_neq; sizes; lia). cbn [negb].
      destruct (absorb_laid _ _ _ _ _ H) as [Ha Hca]. destruct Hnr as [[|Ho] Hnr]; [done|]. done. }
  destruct H1 as (n1 & r1 & H1 & Hc1 & Hn1 & Ho1 & ->). clearbody h1. destruct (merge_prev l n1 r1 Hnl Hn1 Ho1) as [Hnm ->].
  destruct (laid_split _ _ _ _ _ H1) as (Hp1 & _). rewrite Hp1. cbn [m_prev].
  destruct l as [|[k u] l _] using rev_ind; [cbn; split; [split; [done|by split; [right|]]|done]|].
  rewrite last_start_snoc, last_snoc, removelast_last, total_app, total_cons. cbn [total foldr].
  apply Forall_app in Hsl as [Hsl [Hk _]%list.Forall_cons].
  replace (0 + total l =? total l + (k + 0)) with false by (symmetry; apply Z.eqb_neq; sizes; lia). cbn [negb andb].
  assert (H1' : laid_out h1 (l ++ (k, u) :: (n1, false) :: r1)) by (by rewrite <- app_assoc in H1).
  destruct (laid_split _ _ _ _ _ H1') as (Hpk & _). rewrite Z.add_0_l, Hpk. cbn [m_used].
  apply no_holes_app in Hnl as (Hnl & _ & Hk').
  destruct u; cbn [negb].
  - split; [|done]. split; [done|]. apply no_holes_app. split; [by apply no_holes_app; split; [|split; [by split; [left|]|right]]|].
    split; [by split; [right|]|]. left. unfold ends_used. by rewrite last_snoc.
  - destruct (absorb_laid _ _ _ _ _ H1') as [Ha Hca]. replace (total l + (k + 0)) with (total l + k) by lia.
    split; [|by rewrite Hca]. split; [done|]. apply no_holes_app. split; [done|]. split; [by split; [right|]|].
    left. by destruct Hk'.
Qed.

(** ** Returning a block *)

Lemma total_aligned l : Forall seg_ok l -> total l mod 4 = 0.
Proof.
  induction 1 as [|[n u] l [_ Hn] Hl IH]; [done|]. rewrite total_cons. sizes. rewrite Z.add_mod, Hn, IH by lia. done.
Qed.

Lemma land_alignment z : Z.land z (MEM_ALIGNMENT - 1) = z mod 4.
Proof. apply (Z.land_ones z 2). lia. Qed.

Lemma at_offset_app l n u r f : Forall seg_ok l -> at_offset (total l) f (l ++ (n, u) :: r) = l ++ f n r.
Proof.
  induction 1 as [|[m v] l [Hm _] Hl IH]; [done|]. cbn [app at_offset]. rewrite total_cons. pose proof (total_nonneg l Hl). sizes.
  destruct (Z.eqb_spec (m + total l) 0); [lia|]. replace (m + total l - m) with (total l) by lia. by rewrite IH.
Qed.

Lemma link_valid_laid h l n u r : laid_out h (l ++ (n, u) :: r) -> mem_link_valid (total l) h = true.
Proof.
  intros H. destruct (laid_split _ _ _ _ _ H) as (Hp & Hl & Hc & Hsl & Hn & Hsr & Hl0 & Hr0 & Ht).
  unfold mem_link_valid. rewrite Hp. cbn [m_next m_prev]. apply negb_true_iff. rewrite !orb_false_iff. repeat split.
  - apply Z.ltb_ge. lia.
  - apply Z.ltb_ge. destruct (decide (l = [])) as [->|Hne]; [cbn; sizes; lia|].
    pose proof (last_start_range 0 0 l Hsl Hne). sizes. lia.
  - destruct l as [|[k v] l _] using rev_ind; [done|]. rewrite last_start_snoc.
    rewrite <- app_assoc in H. cbn [app] in H. destruct (laid_split _ _ _ _ _ H) as (Hpk & _). rewrite Z.add_0_l, Hpk. cbn [m_next].
    rewrite total_app, total_cons. cbn [total foldr]. rewrite Z.add_0_r, Z.eqb_refl, andb_false_r. done.
  - destruct r as [|[m v] r].
    + cbn in Ht. replace (total l + n) with MEM_SIZE_ALIGNED by lia. done.
    + destruct Hc as [-> _]. cbn [m_prev]. by rewrite Z.eqb_refl, andb_false_r.
Qed.

(** The headers of a heap; [laid_out] without [lfree]. *)
Definition headers (h : heap) (l : list segment) : Prop :=
  chain (ram h) 0 0 l /\ ram h MEM_SIZE_ALIGNED = Mem MEM_SIZE_ALIGNED MEM_SIZE_ALIGNED true /\
  total l = MEM_SIZE_ALIGNED /\ Forall seg_ok l.

(** A block marked as used or free. *)
Lemma headers_mark h l n u v r : laid_out h (l ++ (n, u) :: r) -> headers (set_used (total l) v h) (l ++ (n, v) :: r).
Proof.
  intros H. destruct (laid_split _ _ _ _ _ H) as (Hp & Hl & Hc & Hsl & Hsn & Hsr & Hl0 & Hr0 & Ht). split; [|split; [|split]].
  - apply chain_app. rewrite Z.add_0_l. split; [|split].
    + revert Hl. apply chain_frame; [done|]. intros q Hq. cbn. apply fn_lookup_insert_ne. lia.
    + cbn. by rewrite fn_lookup_insert, Hp.
    + revert Hc. apply chain_frame; [done|]. intros q Hq. cbn. apply fn_lookup_insert_ne. sizes. lia.
  - cbn. rewrite fn_lookup_insert_ne; [apply (lo_end _ _ H)|]. sizes. lia.
  - rewrite total_app, total_cons. lia.
  - apply Forall_app. split; [done|]. by constructor.
Qed.

(** Marking a block as free, and [lfree]. *)
Lemma release_laid h l n r :
  laid_out h (l ++ (n, true) :: r) ->
  let h1 := set_used (total l) false h in
  laid_out (if total l <? lfree h1 then set_lfree (total l) h1 else h1) (l ++ (n, false) :: r).
Proof.
  intros H h1. destruct (laid_split _ _ _ _ _ H) as (Hp & Hl & Hc & Hsl & Hn & Hsr & Hl0 & Hr0 & Ht).
  destruct (headers_mark _ _ _ _ false _ H) as (Hc1 & He1 & Ht1 & Hs1). fold h1 in Hc1, He1.
  assert (Hf : first_free 0 (l ++ (n, false) :: r) = if total l <? lfree h then total l else lfree h).
  { rewrite (lo_lfree _ _ H), !first_free_app. destruct (all_used l) eqn:Eu; cbn [first_free].
    - pose proof (first_free_range (0 + total l + n) r Hsr). sizes.
      destruct (Z.ltb_spec (total l) (first_free (0 + total l + n) r)); lia.
    - pose proof (first_free_before 0 l Hsl Eu). destruct (Z.ltb_spec (total l) (first_free 0 l)); lia. }
  change (lfree h1) with (lfree h). destruct (total l <? lfree h); by constructor.
Qed.

Lemma mem_free_refines h l n r :
  represents h (l ++ (n, true) :: r) ->
  let h' := mem_free (Some (total l + SIZEOF_STRUCT_MEM)) h in
  represents h' (spec_free (total l) (l ++ (n, true) :: r)) /\ complaints h' = complaints h.
Proof.
  intros [H Hn] h'. destruct (laid_split _ _ _ _ _ H) as (Hp & Hl & Hc & Hsl & Hsn & Hsr & Hl0 & Hr0 & Ht).
  subst h'. unfold mem_free. rewrite land_alignment.
  replace ((total l + SIZEOF_STRUCT_MEM) mod 4) with 0
    by (rewrite Z.add_mod, (total_aligned l Hsl) by lia; done).
  cbn [Z.eqb negb]. replace (total l + SIZEOF_STRUCT_MEM - SIZEOF_STRUCT_MEM) with (total l) by lia.
  replace (total l <? 0) with false by (symmetry; apply Z.ltb_ge; lia).
  replace (MEM_SIZE_ALIGNED <? total l + SIZEOF_STRUCT_MEM + MIN_SIZE_ALIGNED) with false
    by (symmetry; apply Z.ltb_ge; sizes; lia).
  cbn [orb]. rewrite Hp, (link_valid_laid _ _ _ _ _ H). cbn [m_used negb].
  apply no_holes_app in Hn as (Hnl & [_ Hnr] & _).
  pose proof (release_laid _ _ _ _ H) as Hr. cbv zeta in Hr.
  unfold spec_free. rewrite at_offset_app by done.
  destruct (plug_holes_laid _ _ _ _ Hr Hnl Hnr) as [Hrep Hcom]. split; [exact Hrep|]. rewrite Hcom.
  by destruct (_ <? _).
Qed.

(** ** Taking a block *)

(** A block cut in two, the second part free, reaching up to the segments [r]. *)
Lemma headers_cut h h1 l a b u r prev :
  chain (ram h) 0 0 l -> chain (ram h) prev (total l + a + b) r ->
  ram h MEM_SIZE_ALIGNED = Mem MEM_SIZE_ALIGNED MEM_SIZE_ALIGNED true -> total l + a + b + total r = MEM_SIZE_ALIGNED ->
  Forall seg_ok l -> seg_ok (a, u) -> seg_ok (b, false) -> Forall seg_ok r ->
  ram h1 (total l) = Mem (total l + a) (last_start 0 0 l) u ->
  ram h1 (total l + a) = Mem (total l + a + b) (total l) false ->
  (forall q, q <> total l -> q <> total l + a -> ram h1 q = ram h q) ->
  headers (relink (total l + a + b) (total l + a) h1) (l ++ (a, u) :: (b, false) :: r).
Proof.
  intros Hl Hr He Ht Hsl Ha Hb Hsr E1 E2 Eo. pose proof (total_nonneg l Hsl). pose proof (total_nonneg r Hsr).
  split; [|split; [|split]].
  - apply chain_app. rewrite Z.add_0_l. split; [|split; [|split]].
    + revert Hl. apply chain_frame; [done|]. intros q Hq. rewrite relink_other by (sizes; lia). apply Eo; sizes; lia.
    + by rewrite relink_other by (sizes; lia).
    + by rewrite relink_other by (sizes; lia).
    + apply (chain_relink h1 prev); [done|lia|]. revert Hr. apply chain_frame; [done|]. intros q Hq. apply Eo; sizes; lia.
  - rewrite relink_end. rewrite Eo; [done|sizes; lia|sizes; lia].
  - rewrite total_app, !total_cons. lia.
  - apply Forall_app. split; [done|]. constructor; [done|]. by constructor.
Qed.

Lemma adjust_lfree_laid h prev p r fuel :
  chain (ram h) prev p r -> Forall seg_ok r -> p + total r = MEM_SIZE_ALIGNED -> (length r < fuel)%nat ->
  adjust_lfree fuel p h = Some (set_lfree (first_free p r) h).
Proof.
  intros Hc Hr. revert prev p fuel Hc. induction Hr as [|[n u] r [Hn _] Hr IH]; intros prev p fuel Hc Ht Hf;
    (destruct fuel as [|fuel]; [cbn in Hf; lia|]); cbn [adjust_lfree].
  - cbn in Ht. rewrite Z.add_0_r in Ht. subst p. by rewrite Z.eqb_refl, andb_false_r.
  - destruct Hc as [Hp Hc]. rewrite Hp. rewrite total_cons in Ht. pose proof (total_nonneg r Hr). sizes. cbn [m_used m_next first_free].
    replace (p =? 10240) with false by (symmetry; apply Z.eqb_neq; lia). destruct u; cbn [andb negb].
    + apply (IH p); [done|lia|cbn in Hf; lia].
    + cbn. by rewrite Hp.
Qed.

Lemma u16_small z : 0 <= z < 65536 -> u16 z = z.
Proof. apply Z.mod_small. Qed.
Lemma u32_small z : 0 <= z < 4294967296 -> u32 z = z.
Proof. apply Z.mod_small. Qed.

Definition size_ok (size : Z) : Prop := MIN_SIZE_ALIGNED <= size <= MEM_SIZE_ALIGNED /\ size mod MEM_ALIGNMENT = 0.

(** The last part of [take_block]: [lfree] and the assertions. *)
Lemma take_finish h1 l r1 size fuel :
  headers h1 (l ++ r1) -> (length r1 < fuel)%nat ->
  lfree h1 = (if all_used l then total l else first_free 0 l) -> total l + SIZEOF_STRUCT_MEM + size <= MEM_SIZE_ALIGNED ->
  exists h2,
    match (if total l =? lfree h1 then adjust_lfree fuel (lfree h1) h1 else Some h1) with
    | None => None
    | Some h =>
      let h := LWIP_ASSERT "mem_malloc: allocated memory not above ram_end."
                 (total l + SIZEOF_STRUCT_MEM + size <=? MEM_SIZE_ALIGNED) h in
      let h := LWIP_ASSERT "mem_malloc: allocated memory properly aligned."
                 ((total l + SIZEOF_STRUCT_MEM) mod MEM_ALIGNMENT =? 0) h in
      let h := LWIP_ASSERT "mem_malloc: sanity check alignment" (Z.land (total l) (MEM_ALIGNMENT - 1) =? 0) h in
      Some (h, Some (total l + SIZEOF_STRUCT_MEM))
    end = Some (h2, Some (total l + SIZEOF_STRUCT_MEM)) /\
    laid_out h2 (l ++ r1) /\ complaints h2 = complaints h1.
Proof.
  intros (Hc & He & Ht & Hs) Hf Hlf Hsz. pose proof (proj1 (Forall_app _ _ _) Hs) as [Hsl Hsr].
  pose proof (proj1 (chain_app _ _ _ _ _) Hc) as [_ Hcr]. pose proof Ht as Ht'. rewrite total_app in Ht'.
  assert (Ha : exists h2, (if total l =? lfree h1 then adjust_lfree fuel (lfree h1) h1 else Some h1) = Some h2 /\
            laid_out h2 (l ++ r1) /\ complaints h2 = complaints h1).
  { destruct (Z.eqb_spec (total l) (lfree h1)) as [E|E].
    - exists (set_lfree (first_free (total l) r1) h1). rewrite <- E. split.
      + eapply adjust_lfree_laid; [by rewrite Z.add_0_l in Hcr|done|done|done].
      + split; [|done]. constructor; try done. cbn. rewrite first_free_app. destruct (all_used l) eqn:Eu; [done|].
        pose proof (first_free_before 0 l Hsl Eu). lia.
    - exists h1. split; [done|]. split; [|done]. constructor; try done. rewrite first_free_app, Hlf.
      destruct (all_used l); [lia|done]. }
  destruct Ha as (h2 & -> & Hl & Hcom). exists h2. split; [|done]. rewrite land_alignment, (total_aligned l Hsl).
  replace ((total l + SIZEOF_STRUCT_MEM) mod MEM_ALIGNMENT) with 0
    by (unfold MEM_ALIGNMENT; rewrite Z.add_mod, (total_aligned l Hsl) by lia; done).
  replace (total l + SIZEOF_STRUCT_MEM + size <=? MEM_SIZE_ALIGNED) with true by (symmetry; by apply Z.leb_le). done.
Qed.

Lemma take_block_refines h l n r size fuel :
  represents h (l ++ (n, false) :: r) -> size_ok size -> size + SIZEOF_STRUCT_MEM <= n -> (length r + 2 < fuel)%nat ->
  exists h2 r1,
    spec_malloc size ((n, false) :: r) = Some (r1, 0) /\
    take_block fuel (total l) size h = Some (h2, Some (total l + SIZEOF_STRUCT_MEM)) /\
    represents h2 (l ++ r1) /\ complaints h2 = complaints h.
Proof.
  intros [H Hn] [Hsz Hsa] Hfit Hfu. destruct (laid_split _ _ _ _ _ H) as (Hp & Hl & Hc & Hsl & Hsn & Hsr & Hl0 & Hr0 & Ht).
  pose proof (lo_end _ _ H) as He. pose proof (lo_lfree _ _ H) as Hlf. rewrite first_free_app in Hlf. cbn [first_free] in Hlf.
  rewrite Z.add_0_l in Hlf. apply no_holes_app in Hn as (Hnl & [[|Hor] Hnr] & Hu); [done|]. destruct Hu as [Hu|]; [|done].
  cbn [spec_malloc negb andb]. rewrite (proj2 (Z.leb_le _ _) Hfit).
  unfold take_block. rewrite Hp. cbn [m_next].
  replace (u32 (total l + n - (total l + SIZEOF_STRUCT_MEM))) with (n - SIZEOF_STRUCT_MEM)
    by (rewrite u32_small; sizes; lia).
  destruct (Z.leb_spec (size + 2 * SIZEOF_STRUCT_MEM + MIN_SIZE_ALIGNED) n) as [Hcut|Hcut].
  - replace (size + SIZEOF_STRUCT_MEM + MIN_SIZE_ALIGNED <=? n - SIZEOF_STRUCT_MEM) with true by (symmetry; apply Z.leb_le; lia).
    rewrite u16_small by (sizes; lia).
    replace (total l + SIZEOF_STRUCT_MEM + size =? MEM_SIZE_ALIGNED) with false by (symmetry; apply Z.eqb_neq; sizes; lia).
    cbn [negb]. rewrite assert_true. set (a := size + SIZEOF_STRUCT_MEM).
    replace (total l + SIZEOF_STRUCT_MEM + size) with (total l + a) by (subst a; lia). rewrite Hp. cbn [m_next].
    set (h1 := set_used _ _ _).
    assert (E2 : ram h1 (total l + a) = Mem (total l + n) (total l) false).
    { subst h1. cbn. rewrite !fn_lookup_insert_ne by (subst a; sizes; lia). by rewrite fn_lookup_insert. }
    assert (E1 : ram h1 (total l) = Mem (total l + a) (last_start 0 0 l) true).
    { subst h1. cbn. rewrite !fn_lookup_insert. cbn. rewrite fn_lookup_insert_ne by (subst a; sizes; lia). by rewrite Hp. }
    assert (Eo : forall q, q <> total l -> q <> total l + a -> ram h1 q = ram h q).
    { intros q H1 H2. subst h1. cbn. by rewrite !fn_lookup_insert_ne by congruence. }
    assert (El : lfree h1 = lfree h) by done. assert (Ec : complaints h1 = complaints h) by done.
    clearbody h1. rewrite E2. cbn [m_next]. fold (relink (total l + n) (total l + a) h1).
    destruct (take_finish (relink (total l + n) (total l + a) h1) l ((a, true) :: (n - a, false) :: r) size fuel)
      as (h2 & Hr2 & Hl2 & Hc2).
    + replace (total l + n) with (total l + a + (n - a)) by lia.
      apply (headers_cut h _ _ _ _ _ _ (total l)); try done; replace (total l + a + (n - a)) with (total l + n) by lia; try done.
      * subst a; sizes. split; [lia|]. rewrite Z.add_mod, Hsa by lia. done.
      * subst a; sizes. split; [lia|]. destruct Hsn as [_ Hsn]. rewrite Zminus_mod, Hsn, (Z.add_mod size), Hsa by lia. done.
    + cbn [length]. lia.
    + by rewrite relink_lfree, El.
    + subst a. sizes. lia.
    + replace (total l + SIZEOF_STRUCT_MEM + size) with (total l + a) in Hr2 by (subst a; lia).
      exists h2, ((a, true) :: (n - a, false) :: r). split; [done|]. split; [exact Hr2|].
      split; [split; [done|]|by rewrite Hc2, relink_complaints].
      apply no_holes_app. split; [done|]. split; [|by left]. split; [by left|]. split; [by right|done].
  - replace (size + SIZEOF_STRUCT_MEM + MIN_SIZE_ALIGNED <=? n - SIZEOF_STRUCT_MEM) with false by (symmetry; apply Z.leb_gt; lia).
    set (h1 := set_used (total l) true h).
    destruct (take_finish h1 l ((n, true) :: r) size fuel) as (h2 & Hr2 & Hl2 & Hc2); subst h1.
    + by apply (headers_mark _ _ _ false).
    + cbn [length]. lia.
    + done.
    + sizes. lia.
    + exists h2, ((n, true) :: r). split; [done|]. split; [exact Hr2|]. split; [split; [done|]|done].
      apply no_holes_app. split; [done|]. split; [|by left]. split; [by left|done].
Qed.

Lemma align_size_spec s : 0 <= s < 65536 ->
  s <= LWIP_MEM_ALIGN_SIZE s < s + 4 /\ LWIP_MEM_ALIGN_SIZE s mod 4 = 0.
Proof.
  intros Hs. assert (E : LWIP_MEM_ALIGN_SIZE s = 4 * ((s + 3) / 4)).
  { unfold LWIP_MEM_ALIGN_SIZE, MEM_ALIGNMENT. rewrite u32_small by lia.
    replace (u32 (Z.lnot (4 - 1))) with (Z.shiftl (Z.ones 30) 2) by done. replace (s + 4 - 1) with (s + 3) by lia.
    rewrite Z.mul_comm. change 4 with (2 ^ 2). rewrite <- Z.shiftr_div_pow2, <- Z.shiftl_mul_pow2 by lia.
    apply Z.bits_inj'. intros i Hi. rewrite Z.land_spec, !Z.shiftl_spec by done.
    destruct (decide (i < 2)) as [Hlt|Hge].
    - rewrite !(Z.testbit_neg_r _ (i - 2)) by lia. by rewrite andb_false_r.
    - rewrite Z.shiftr_spec by lia. replace (i - 2 + 2) with i by lia. destruct (decide (i < 32)).
      + rewrite Z.ones_spec_low by lia. by rewrite andb_true_r.
      + rewrite (Z.bits_above_log2 (s + 3)); [done|lia|]. apply Z.log2_lt_pow2; [lia|].
        apply Z.lt_le_trans with (2 ^ 32); [lia|]. apply Z.pow_le_mono_r; lia. }
  rewrite E. pose proof (Z.div_mod (s + 3) 4 ltac:(lia)). pose proof (Z.mod_pos_bound (s + 3) 4 ltac:(lia)).
  split; [lia|]. rewrite Z.mul_comm. apply Z.mod_mul. lia.
Qed.

(** The size of a block for a request. *)
Definition block_size (s : Z) : Z := Z.max MIN_SIZE_ALIGNED (4 * ((s + 3) / 4)).

Lemma rounded_size s : 0 <= s < 65536 ->
  let size := u16 (LWIP_MEM_ALIGN_SIZE s) in
  let size := if size <? MIN_SIZE_ALIGNED then MIN_SIZE_ALIGNED else size in
  (MEM_SIZE_ALIGNED <? size) || (size <? s) = (MEM_SIZE_ALIGNED <? block_size s) /\
  (block_size s <= MEM_SIZE_ALIGNED -> size = block_size s).
Proof.
  intros Hs size0 size. destruct (align_size_spec s Hs) as [Hr Hm].
  assert (E : LWIP_MEM_ALIGN_SIZE s = 4 * ((s + 3) / 4)).
  { pose proof (Z.div_mod (LWIP_MEM_ALIGN_SIZE s) 4 ltac:(lia)). pose proof (Z.div_mod (s + 3) 4 ltac:(lia)).
    pose proof (Z.mod_pos_bound (s + 3) 4 ltac:(lia)). lia. }
  unfold block_size. rewrite <- E. set (A := LWIP_MEM_ALIGN_SIZE s) in *. clearbody A. sizes.
  destruct (decide (A < 65536)) as [HA|HA].
  - assert (Es : size0 = A) by (subst size0; rewrite u16_small; lia). subst size. rewrite Es.
    split.
    + destruct (Z.ltb_spec A 12); [replace (Z.max 12 A) with 12 by lia|replace (Z.max 12 A) with A by lia];
        [|destruct (Z.ltb_spec A s); [lia|by rewrite orb_false_r]]. destruct (Z.ltb_spec 12 s); [lia|done].
    + intros _. destruct (Z.ltb_spec A 12); lia.
  - assert (A = 65536) as -> by (pose proof (Z.div_mod A 4 ltac:(lia)); lia).
    subst size size0. change (u16 65536) with 0. cbn. split; [|done]. apply Z.ltb_lt. lia.
Qed.

Lemma block_size_ok s : block_size s <= MEM_SIZE_ALIGNED -> size_ok (block_size s).
Proof.
  intros H. split; [split; [apply Z.le_max_l|done]|]. unfold block_size, MEM_ALIGNMENT.
  destruct (Z.max_spec MIN_SIZE_ALIGNED (4 * ((s + 3) / 4))) as [[_ ->]|[_ ->]]; [|done].
  rewrite Z.mul_comm. apply Z.mod_mul. lia.
Qed.

(** ** The search *)

Lemma spec_malloc_none size r : Forall seg_ok r -> total r < size + SIZEOF_STRUCT_MEM -> spec_malloc size r = None.
Proof.
  induction 1 as [|[n u] r [Hn _] Hr IH]; [done|]. rewrite total_cons. pose proof (total_nonneg r Hr). sizes. intros Ht.
  cbn [spec_malloc]. sizes. destruct (Z.leb_spec (size + 8) n); [lia|]. rewrite andb_false_r, IH by lia. done.
Qed.

Lemma spec_malloc_used size l r :
  all_used l = true ->
  spec_malloc size (l ++ r) = match spec_malloc size r with
                              | Some (r', o) => Some (l ++ r', total l + o)
                              | None => None
                              end.
Proof.
  induction l as [|[n []] l IH]; cbn [app all_used forallb snd andb spec_malloc negb]; [|intros H; rewrite IH by done|done].
  - by destruct (spec_malloc size r) as [[r' o]|].
  - destruct (spec_malloc size r) as [[r' o]|]; [|done]. rewrite total_cons. do 2 f_equal. lia.
Qed.

Lemma malloc_loop_refines h r l size fuel :
  represents h (l ++ r) -> size_ok size -> (length r + 1 < fuel)%nat ->
  match spec_malloc size r with
  | None => malloc_loop fuel (total l) size h = Some (h, None)
  | Some (r', o) =>
    exists h', malloc_loop fuel (total l) size h = Some (h', Some (total l + o + SIZEOF_STRUCT_MEM)) /\
      represents h' (l ++ r') /\ complaints h' = complaints h
  end.
Proof.
  revert l fuel. induction r as [|[n u] r IH]; intros l fuel H Hsz Hf; (destruct fuel as [|fuel]; [cbn in Hf; lia|]);
    cbn [malloc_loop].
  - destruct H as [H _]. pose proof (lo_total _ _ H) as Ht. rewrite app_nil_r in Ht. rewrite Ht. cbn [spec_malloc].
    destruct Hsz as [Hsz _]. by rewrite (proj2 (Z.ltb_ge _ _)) by (sizes; lia).
  - destruct (laid_split _ _ _ _ _ (proj1 H)) as (Hp & Hl & Hc & Hsl & Hsn & Hsr & Hl0 & Hr0 & Ht).
    destruct (Z.ltb_spec (total l) (MEM_SIZE_ALIGNED - size)) as [Hin|Hout].
    + rewrite Hp. cbn [m_used m_next].
      replace (u32 (total l + n - (total l + SIZEOF_STRUCT_MEM))) with (n - SIZEOF_STRUCT_MEM)
        by (rewrite u32_small; sizes; lia).
      destruct u; cbn [negb andb]; [|destruct (Z.leb_spec size (n - SIZEOF_STRUCT_MEM)) as [Hfit|Hfit]].
      2: { destruct (take_block_refines h l n r size (S fuel) H Hsz) as (h2 & r1 & -> & -> & Hr & Hco); [lia|cbn in Hf; lia|].
           exists h2. by rewrite Z.add_0_r. }
      all: assert (Hs : represents h ((l ++ [(n, _)]) ++ r)) by (rewrite <- app_assoc; exact H);
        specialize (IH _ fuel Hs Hsz ltac:(cbn in Hf; lia)); rewrite total_app, total_cons in IH; cbn [total foldr] in IH;
        rewrite Z.add_0_r in IH; cbn [spec_malloc negb andb]; try rewrite (proj2 (Z.leb_gt _ _)) by lia;
        destruct (spec_malloc size r) as [[r' o]|]; [|done]; rewrite <- app_assoc in IH; by rewrite Z.add_assoc.
    + rewrite spec_malloc_none; [done|by constructor|]. rewrite total_cons. sizes. lia.
Qed.

Lemma segments_count l : Forall seg_ok l -> 20 * Z.of_nat (length l) <= total l.
Proof. induction 1 as [|[n u] l [Hn _] Hl IH]; [done|]. rewrite total_cons. cbn [length]. sizes. lia. Qed.

(** The blocks before [lfree]. *)
Lemma first_free_split p l : exists l1 l2, l = l1 ++ l2 /\ all_used l1 = true /\ first_free p l = p + total l1.
Proof.
  revert p. induction l as [|[n []] l IH]; intros p.
  - exists [], []. cbn. by rewrite Z.add_0_r.
  - destruct (IH (p + n)) as (l1 & l2 & -> & Hu & E). exists ((n, true) :: l1), l2. cbn [first_free]. rewrite E, total_cons.
    split; [done|]. split; [done|]. lia.
  - exists [], ((n, false) :: l). cbn. by rewrite Z.add_0_r.
Qed.

Lemma mem_malloc_refines h l s :
  represents h l -> 0 <= s < 65536 ->
  match (if (s =? 0) || (MEM_SIZE_ALIGNED <? block_size s) then None else spec_malloc (block_size s) l) with
  | None => mem_malloc s h = Some (h, None)
  | Some (l', o) =>
    exists h', mem_malloc s h = Some (h', Some (o + SIZEOF_STRUCT_MEM)) /\ represents h' l' /\ complaints h' = complaints h
  end.
Proof.
  intros H Hs. unfold mem_malloc. destruct (s =? 0); cbn [orb]; [done|]. destruct (rounded_size s Hs) as [-> Hsz]. cbv zeta in Hsz.
  destruct (Z.ltb_spec MEM_SIZE_ALIGNED (block_size s)) as [|Hle]; [done|]. rewrite Hsz by done.
  rewrite (lo_lfree _ _ (proj1 H)). destruct (first_free_split 0 l) as (l1 & l2 & -> & Hu & ->). rewrite Z.add_0_l.
  rewrite spec_malloc_used by done.
  assert (Hlen : (length l2 + 1 < malloc_fuel)%nat).
  { pose proof (segments_count _ (lo_sizes _ _ (proj1 H))) as Hc. rewrite (lo_total _ _ (proj1 H)), length_app in Hc.
    unfold malloc_fuel. sizes. lia. }
  pose proof (malloc_loop_refines h l2 l1 (block_size s) malloc_fuel H (block_size_ok s Hle) Hlen) as Hm.
  by destruct (spec_malloc (block_size s) l2) as [[r' o]|].
Qed.

(** ** Trimming a block *)

(** The header of the rest behind a block of [a] bytes, up to [next]. *)
Definition cut_off (p a next : Z) (h : heap) : heap :=
  let h := set_mem (p + a) (Mem next p false) h in
  let h := set_next p (p + a) h in
  relink next (p + a) h.

Lemma cut_off_laid h l n r a b r' prev f :
  laid_out h (l ++ (n, true) :: r) -> chain (ram h) prev (total l + a + b) r' ->
  total l + a + b + total r' = MEM_SIZE_ALIGNED -> seg_ok (a, true) -> seg_ok (b, false) -> Forall seg_ok r' ->
  f = first_free 0 (l ++ (a, true) :: (b, false) :: r') ->
  laid_out (cut_off (total l) a (total l + a + b) (set_lfree f h)) (l ++ (a, true) :: (b, false) :: r').
Proof.
  intros H Hr' Ht' Ha Hb Hsr' Hf. destruct (laid_split _ _ _ _ _ H) as (Hp & Hl & Hc & Hsl & Hsn & Hsr & Hl0 & Hr0 & Ht).
  unfold cut_off. set (h1 := set_next _ _ _).
  destruct (headers_cut h h1 l a b true r' prev) as (Hc1 & He1 & Ht1 & Hs1); try done; subst h1.
  - apply (lo_end _ _ H).
  - cbn. rewrite fn_lookup_insert, !fn_lookup_insert_ne by (sizes; lia). by rewrite Hp.
  - cbn. rewrite fn_lookup_insert_ne by (sizes; lia). by rewrite fn_lookup_insert.
  - intros q H1 H2. cbn. by rewrite !fn_lookup_insert_ne by congruence.
  - constructor; try done. by rewrite relink_lfree.
Qed.

Lemma cut_off_code p a next h : 0 < a ->
  (let h := set_next p (p + a) (set_mem (p + a) (Mem next p false) h) in
   if negb (m_next (ram h (p + a)) =? MEM_SIZE_ALIGNED) then set_prev (m_next (ram h (p + a))) (p + a) h else h)
  = cut_off p a next h.
Proof.
  intros Ha. cbv zeta. set (h1 := set_next _ _ _).
  assert (E : m_next (ram h1 (p + a)) = next)
    by (subst h1; cbn; rewrite fn_lookup_insert_ne by lia; by rewrite fn_lookup_insert).
  by rewrite E.
Qed.

Lemma cut_off_complaints p a next h : complaints (cut_off p a next h) = complaints h.
Proof. unfold cut_off. by rewrite relink_complaints. Qed.

Lemma assert_complaints message b h :
  ram (LWIP_ASSERT message b h) = ram h /\ lfree (LWIP_ASSERT message b h) = lfree h.
Proof. by destruct b. Qed.

(** A complaint changes no header. *)
Lemma assert_laid message b h l : laid_out h l -> laid_out (LWIP_ASSERT message b h) l.
Proof. intros [? ? ? ? ?]. by destruct b; constructor. Qed.

Lemma set_lfree_same h : set_lfree (lfree h) h = h.
Proof. by destruct h. Qed.

Lemma lfree_if (c : bool) f h : (if c then set_lfree f h else h) = set_lfree (if c then f else lfree h) h.
Proof. destruct c; [done|]. by rewrite set_lfree_same. Qed.

Lemma trimmed_size s n : 0 <= s <= n - SIZEOF_STRUCT_MEM -> seg_ok (n, true) -> block_size s <= n - SIZEOF_STRUCT_MEM.
Proof.
  intros Hs [Hn Hm]. unfold block_size. sizes. pose proof (Z.div_mod (s + 3) 4 ltac:(lia)).
  pose proof (Z.mod_pos_bound (s + 3) 4 ltac:(lia)). pose proof (Z.div_mod n 4 ltac:(lia)). lia.
Qed.

Section Trim.
Context (h : heap) (l : list segment) (n : Z) (r : list segment) (bs : Z).
Hypothesis Hrep : represents h (l ++ (n, true) :: r).
Hypothesis Hbs : size_ok bs.
Let a := bs + SIZEOF_STRUCT_MEM.
Hypothesis Hlt : a < n.

Lemma trim_part : seg_ok (a, true).
Proof. destruct Hbs as [Hb Hm]. subst a. sizes. split; [lia|]. rewrite Z.add_mod, Hm by lia. done. Qed.

Lemma trim_rest_aligned : (n - a) mod 4 = 0.
Proof.
  destruct (laid_split _ _ _ _ _ (proj1 Hrep)) as (_ & _ & _ & _ & [_ En] & _). destruct trim_part as [_ Ea].
  sizes. rewrite Zminus_mod. by rewrite Ea, En.
Qed.

Lemma trim_ptr2 : u16 (total l + SIZEOF_STRUCT_MEM + bs) = total l + a.
Proof.
  destruct (laid_split _ _ _ _ _ (proj1 Hrep)) as (_ & _ & _ & _ & Hsn & _ & Hl0 & Hr0 & Ht).
  destruct Hbs as [Hb _]. subst a. rewrite u16_small; sizes; lia.
Qed.

Lemma trim_holes b r' : no_holes r' -> opens_used r' = true -> no_holes (l ++ (a, true) :: (b, false) :: r').
Proof.
  intros Hn Ho. destruct Hrep as [_ Hno]. apply no_holes_app in Hno as (Hnl & _ & _).
  apply no_holes_app. split; [done|]. split; [|by right]. split; [by left|]. split; [by right|done].
Qed.

(** The rest joins the free segment behind the block. *)
Lemma trim_join m r' :
  r = (m, false) :: r' ->
  let h' := trim_block (total l) bs (n - SIZEOF_STRUCT_MEM) h in
  represents h' (l ++ (a, true) :: (n - a + m, false) :: r') /\ complaints h' = complaints h.
Proof.
  intros Er h'. destruct Hrep as [H Hno]. destruct (laid_split _ _ _ _ _ H) as (Hp & Hl & Hc & Hsl & Hsn & Hsr & Hl0 & Hr0 & Ht).
  pose proof (proj1 (no_holes_app _ _) Hno) as (_ & [_ Hnr] & _). rewrite Er in Hc, Hsr, Ht, Hnr.
  destruct Hc as [Hm Hc]. apply list.Forall_cons in Hsr as [Hsm Hsr]. destruct Hnr as [[|Hor] Hnr]; [done|].
  rewrite total_cons in Ht. pose proof (total_nonneg r' Hsr). pose proof trim_part as Ha. pose proof trim_rest_aligned as Hra.
  subst h'. unfold trim_block. rewrite trim_ptr2, Hp. cbn [m_next]. rewrite Hm. cbn [m_used negb].
  rewrite (proj2 (Z.eqb_neq (total l + n) MEM_SIZE_ALIGNED)) by (sizes; lia). cbn [negb]. rewrite assert_true, Hm, lfree_if. cbn [m_next].
  rewrite cut_off_code by (sizes; lia). split; [split; [|by apply trim_holes]|by rewrite cut_off_complaints].
  replace (total l + n + m) with (total l + a + (n - a + m)) by lia.
  apply (cut_off_laid h l n r a (n - a + m) r' (total l + n)); try done; try lia.
  - by replace (total l + a + (n - a + m)) with (total l + n + m) by lia.
  - sizes. split; [lia|]. rewrite Z.add_mod, Hra by lia. by destruct Hsm as [_ ->].
  - rewrite (lo_lfree _ _ H), !first_free_app, Er. cbn [first_free]. destruct (all_used l) eqn:Eu; rewrite ?Z.add_0_l.
    + by rewrite Z.eqb_refl.
    + pose proof (first_free_before 0 l Hsl Eu). rewrite (proj2 (Z.eqb_neq _ _)); [done|]. sizes. lia.
Qed.

(** The rest becomes a segment, or stays with the block. *)
Lemma trim_cut :
  opens_used r = true ->
  let h' := trim_block (total l) bs (n - SIZEOF_STRUCT_MEM) h in
  represents h' (l ++ if a + SIZEOF_STRUCT_MEM + MIN_SIZE_ALIGNED <=? n then (a, true) :: (n - a, false) :: r else (n, true) :: r) /\
  (complaints h' = complaints h \/ r = [] /\ complaints h' = complaints h ++ ["invalid next ptr"]).
Proof.
  intros Hor h'. destruct Hrep as [H Hno]. destruct (laid_split _ _ _ _ _ H) as (Hp & Hl & Hc & Hsl & Hsn & Hsr & Hl0 & Hr0 & Ht).
  pose proof (proj1 (no_holes_app _ _) Hno) as (_ & [_ Hnr] & _). pose proof trim_part as Ha. pose proof trim_rest_aligned as Hra.
  assert (Hu : m_used (ram h (total l + n)) = true /\ (total l + n = MEM_SIZE_ALIGNED -> r = [])).
  { destruct r as [|[m []] r']; [|destruct Hc as [-> _]|done].
    - cbn in Ht. replace (total l + n) with MEM_SIZE_ALIGNED by lia. by rewrite (lo_end _ _ H).
    - split; [done|]. apply list.Forall_cons in Hsr as [Hsm Hsr]. pose proof (total_nonneg r' Hsr). rewrite total_cons in Ht. sizes. lia. }
  destruct Hu as [Hu Hend]. subst h'. unfold trim_block. rewrite trim_ptr2, Hp. cbn [m_next]. rewrite Hu. cbn [negb].
  replace (bs + SIZEOF_STRUCT_MEM + MIN_SIZE_ALIGNED <=? n - SIZEOF_STRUCT_MEM) with (a + SIZEOF_STRUCT_MEM + MIN_SIZE_ALIGNED <=? n)
    by (subst a; destruct (Z.leb_spec (bs + SIZEOF_STRUCT_MEM + SIZEOF_STRUCT_MEM + MIN_SIZE_ALIGNED) n),
          (Z.leb_spec (bs + SIZEOF_STRUCT_MEM + MIN_SIZE_ALIGNED) (n - SIZEOF_STRUCT_MEM)); lia).
  destruct (Z.leb_spec (a + SIZEOF_STRUCT_MEM + MIN_SIZE_ALIGNED) n) as [Hbig|Hsmall]; [|by split; [|left]].
  set (h0 := LWIP_ASSERT _ _ h). rewrite lfree_if.
  assert (E0 : ram h0 = ram h /\ lfree h0 = lfree h) by apply assert_complaints. destruct E0 as [Er0 Ef0].
  replace (m_next (ram (set_lfree (if total l + a <? lfree h0 then total l + a else lfree h0) h0) (total l)))
    with (total l + n) by (cbn; by rewrite Er0, Hp).
  rewrite cut_off_code by (sizes; lia). split.
  - split; [|by apply trim_holes]. replace (total l + n) with (total l + a + (n - a)) by lia.
    apply (cut_off_laid h0 l n r a (n - a) r (total l)); try done; try lia; rewrite ?Er0, ?Ef0.
    + by apply assert_laid.
    + by replace (total l + a + (n - a)) with (total l + n) by lia.
    + sizes. split; [lia|done].
    + rewrite (lo_lfree _ _ H), !first_free_app. cbn [first_free]. destruct (all_used l) eqn:Eu; rewrite ?Z.add_0_l.
      * pose proof (first_free_range (total l + n) r Hsr). by rewrite (proj2 (Z.ltb_lt _ _)) by lia.
      * pose proof (first_free_before 0 l Hsl Eu). rewrite (proj2 (Z.ltb_ge _ _)); [done|]. sizes. lia.
  - rewrite cut_off_complaints. subst h0. cbn. destruct (Z.eqb_spec (total l + n) MEM_SIZE_ALIGNED) as [E|_]; [|by left].
    right. by rewrite Hend.
Qed.
End Trim.

Lemma mem_trim_refines h l n r s :
  represents h (l ++ (n, true) :: r) -> 0 <= s <= n - SIZEOF_STRUCT_MEM ->
  exists h', mem_trim (total l + SIZEOF_STRUCT_MEM) s h = (h', Some (total l + SIZEOF_STRUCT_MEM)) /\
    represents h' (l ++ shrink (block_size s) n r) /\
    (complaints h' = complaints h \/ r = [] /\ complaints h' = complaints h ++ ["invalid next ptr"]).
Proof.
  intros H Hs. destruct (laid_split _ _ _ _ _ (proj1 H)) as (Hp & Hl & Hc & Hsl & Hsn & Hsr & Hl0 & Hr0 & Ht).
  pose proof (trimmed_size s n Hs Hsn) as Hb. pose proof (block_size_ok s ltac:(sizes; lia)) as Hok.
  assert (Hs16 : 0 <= s < 65536) by (sizes; lia). destruct (rounded_size s Hs16) as [Eg Ez]. cbv zeta in Eg, Ez.
  unfold mem_trim. rewrite Eg, Ez by (sizes; lia). clear Eg Ez.
  replace (MEM_SIZE_ALIGNED <? block_size s) with false by (symmetry; apply Z.ltb_ge; sizes; lia).
  replace (0 <=? total l + SIZEOF_STRUCT_MEM) with true by (symmetry; apply Z.leb_le; sizes; lia).
  replace (total l + SIZEOF_STRUCT_MEM <? MEM_SIZE_ALIGNED) with true by (symmetry; apply Z.ltb_lt; sizes; lia).
  cbn [negb andb]. rewrite assert_true. replace (total l + SIZEOF_STRUCT_MEM - SIZEOF_STRUCT_MEM) with (total l) by lia.
  rewrite Hp. cbn [m_next]. rewrite (u16_small (total l)) by (sizes; lia).
  replace (u16 (u16 (total l + n - total l) - SIZEOF_STRUCT_MEM)) with (n - SIZEOF_STRUCT_MEM)
    by (rewrite (u16_small (total l + n - total l)) by (sizes; lia); rewrite u16_small; sizes; lia).
  rewrite (proj2 (Z.leb_le _ _) Hb), (proj2 (Z.ltb_ge _ _) Hb), assert_true. unfold shrink.
  destruct (Z.eqb_spec (block_size s) (n - SIZEOF_STRUCT_MEM)) as [E|E].
  { exists h. rewrite E, Z.sub_add, Z.eqb_refl. split; [done|]. by split; [|left]. }
  rewrite (proj2 (Z.eqb_neq (block_size s + SIZEOF_STRUCT_MEM) n)) by lia. eexists. split; [done|].
  assert (Hlt : block_size s + SIZEOF_STRUCT_MEM < n) by lia.
  replace (block_size s + 2 * SIZEOF_STRUCT_MEM + MIN_SIZE_ALIGNED)
    with (block_size s + SIZEOF_STRUCT_MEM + SIZEOF_STRUCT_MEM + MIN_SIZE_ALIGNED) by lia.
  destruct r as [|[m []] r']; [by apply trim_cut|by apply trim_cut|].
  destruct (trim_join h l n _ _ H Hok Hlt m r' eq_refl) as [Hj Hcom]. by split; [|left].
Qed.

(** ** Used blocks *)

(** The blocks in use, from offset [p]: the address behind the header and the room. *)
Fixpoint used_blocks (p : Z) (l : list segment) : list (Z * Z) :=
  match l with
  | [] => []
  | (n, u) :: l => (if u then [(p + SIZEOF_STRUCT_MEM, n - SIZEOF_STRUCT_MEM)] else []) ++ used_blocks (p + n) l
  end.

Lemma used_blocks_app p l r : used_blocks p (l ++ r) = used_blocks p l ++ used_blocks (p + total l) r.
Proof.
  revert p. induction l as [|[n u] l IH]; intros p; cbn [app used_blocks]; [cbn; by rewrite Z.add_0_r|].
  rewrite IH, total_cons, Z.add_assoc. by rewrite app_assoc.
Qed.

Lemma used_blocks_merge p l : used_blocks p (merge l) = used_blocks p l.
Proof.
  revert p. induction l as [|[n []] l IH]; intros p; cbn [merge used_blocks]; [done|by rewrite IH|].
  rewrite <- IH. destruct (merge l) as [|[m []] r]; [done|done|]. cbn [used_blocks app]. by rewrite Z.add_assoc.
Qed.

Lemma used_blocks_range p l : Forall seg_ok l ->
  Forall (fun b => p + SIZEOF_STRUCT_MEM <= fst b /\ MIN_SIZE_ALIGNED <= snd b /\ fst b + snd b <= p + total l) (used_blocks p l).
Proof.
  intros Hok. revert p. induction Hok as [|[n u] l [Hn _] Hl IH]; intros p; cbn [used_blocks]; [constructor|].
  rewrite total_cons. pose proof (total_nonneg l Hl). apply Forall_app. split.
  - destruct u; [|constructor]. constructor; [|constructor]. sizes. lia.
  - eapply Forall_impl; [exact (IH (p + n))|]. intros b Hb. cbn in Hb. sizes. lia.
Qed.

Lemma used_blocks_aligned p l : p mod 4 = 0 -> Forall seg_ok l -> Forall (fun b => fst b mod 4 = 0) (used_blocks p l).
Proof.
  intros Hp Hok. revert p Hp. induction Hok as [|[n u] l [_ Hn] Hl IH]; intros p Hp; cbn [used_blocks]; [constructor|].
  apply Forall_app. split; [|apply IH; sizes; by rewrite Z.add_mod, Hp, Hn by lia].
  destruct u; [|constructor]. constructor; [|constructor]. sizes. by rewrite Z.add_mod, Hp by lia.
Qed.

(** Blocks do not overlap, headers included. *)
Definition before (a b : Z * Z) : Prop := fst a + snd a + SIZEOF_STRUCT_MEM <= fst b.

Lemma used_blocks_sorted p l : Forall seg_ok l -> StronglySorted before (used_blocks p l).
Proof.
  intros Hok. revert p. induction Hok as [|[n []] l [Hn _] Hl IH]; intros p; cbn [used_blocks app]; [constructor| |done].
  constructor; [done|]. eapply Forall_impl; [exact (used_blocks_range (p + n) l Hl)|]. intros b Hb. unfold before. cbn in *. lia.
Qed.

Lemma sorted_apart (L : list (Z * Z)) a b : StronglySorted before L -> a ∈ L -> b ∈ L -> a = b \/ before a b \/ before b a.
Proof.
  induction 1 as [|x L Hs IH Hall]; [by intros ?%elem_of_nil|]. rewrite !elem_of_cons.
  rewrite Forall_forall in Hall. intros [->|Ha] [->|Hb]; auto.
Qed.

Lemma sorted_nodup (L : list (Z * Z)) :
  StronglySorted before L -> Forall (fun b => MIN_SIZE_ALIGNED <= snd b) L -> NoDup L.*1.
Proof.
  induction 1 as [|x L Hs IH Hall]; intros HF; cbn; constructor.
  - intros (y & E & Hy)%list_elem_of_fmap. rewrite Forall_forall in Hall. pose proof (Hall y Hy) as Hb.
    apply list.Forall_cons in HF as [Hx _]. unfold before in Hb. sizes. lia.
  - apply IH. by apply list.Forall_cons in HF as [_ ?].
Qed.

(** A block in use is a segment of the list. *)
Lemma used_block_split p l b : Forall seg_ok l -> b ∈ used_blocks p l ->
  exists l1 n r, l = l1 ++ (n, true) :: r /\ fst b = p + total l1 + SIZEOF_STRUCT_MEM /\ snd b = n - SIZEOF_STRUCT_MEM.
Proof.
  intros Hok. revert p. induction Hok as [|[n u] l _ Hl IH]; intros p; cbn [used_blocks]; [by intros ?%elem_of_nil|].
  rewrite elem_of_app. intros [Hb|Hb].
  - destruct u; [|by apply elem_of_nil in Hb]. apply list_elem_of_singleton in Hb. subst b. exists [], n, l. cbn. split; [done|]. lia.
  - destruct (IH _ Hb) as (l1 & m & r & -> & Ha & Hs). exists ((n, u) :: l1), m, r. rewrite total_cons. split; [done|]. lia.
Qed.

Lemma spec_malloc_blocks size l l' o p : Forall seg_ok l -> spec_malloc size l = Some (l', o) ->
  exists room, used_blocks p l' ≡ₚ (p + o + SIZEOF_STRUCT_MEM, room) :: used_blocks p l /\ size <= room.
Proof.
  intros Hok. revert l' o p. induction Hok as [|[n u] l _ Hl IH]; intros l' o p; cbn [spec_malloc]; [done|].
  destruct (negb u && (size + SIZEOF_STRUCT_MEM <=? n)) eqn:E.
  - apply andb_true_iff in E as [Eu En]. apply negb_true_iff in Eu. subst u. apply Z.leb_le in En.
    destruct (_ <=? n); intros [= <- <-]; cbn [used_blocks app]; rewrite Z.add_0_r.
    + exists size. split; [|lia]. replace (size + SIZEOF_STRUCT_MEM - SIZEOF_STRUCT_MEM) with size by lia.
      by replace (p + (size + SIZEOF_STRUCT_MEM) + (n - (size + SIZEOF_STRUCT_MEM))) with (p + n) by lia.
    + exists (n - SIZEOF_STRUCT_MEM). split; [done|lia].
  - destruct (spec_malloc size l) as [[r' o']|] eqn:Em; [|done]. intros [= <- <-].
    destruct (IH _ _ (p + n) eq_refl) as (room & Hp & Hr). exists room. split; [|done]. cbn [used_blocks]. rewrite Hp.
    rewrite <- Permutation_middle. by rewrite Z.add_assoc.
Qed.

(** ** Runs *)

(** The blocks that are handed out: the address and the bytes asked for. *)
Fixpoint forget (p : Z) (live : list (Z * Z)) : list (Z * Z) :=
  match live with
  | [] => []
  | b :: live => if fst b =? p then live else b :: forget p live
  end.

Fixpoint resize (p s : Z) (live : list (Z * Z)) : list (Z * Z) :=
  match live with
  | [] => []
  | b :: live => if fst b =? p then (p, s) :: live else b :: resize p s live
  end.

(** The owner of a block writes to it: what could be taken for headers there is
    arbitrary afterwards. *)
Definition owner_writes (p s : Z) (data : Z -> mem) (h : heap) : heap :=
  set_ram (fun q => if (p - SIZEOF_STRUCT_MEM <? q) && (q <? p + s) then data q else ram h q) h.

Inductive heap_run (r0 : Z -> mem) : heap -> list (Z * Z) -> Prop :=
| run_init : heap_run r0 (mem_init r0) []
| run_malloc h live s h' p :
    heap_run r0 h live -> is_u16 s -> mem_malloc s h = Some (h', Some p) -> heap_run r0 h' ((p, s) :: live)
| run_refused h live s h' :
    heap_run r0 h live -> is_u16 s -> mem_malloc s h = Some (h', None) -> heap_run r0 h' live
| run_calloc h live c s h' p z :
    heap_run r0 h live -> is_u16 c -> is_u16 s -> mem_calloc c s h = Some (h', Some (p, z)) -> heap_run r0 h' ((p, c * s) :: live)
| run_free h live p s :
    heap_run r0 h live -> (p, s) ∈ live -> heap_run r0 (mem_free (Some p) h) (forget p live)
| run_free_null h live : heap_run r0 h live -> heap_run r0 (mem_free None h) live
| run_trim h live p s s' h' o :
    heap_run r0 h live -> (p, s) ∈ live -> 0 <= s' <= s -> mem_trim p s' h = (h', o) -> heap_run r0 h' (resize p s' live)
| run_write h live p s data :
    heap_run r0 h live -> (p, s) ∈ live -> heap_run r0 (owner_writes p s data h) live.

(** The blocks handed out are those in use, each with room for what was asked. *)
Definition accounted (live : list (Z * Z)) (l : list segment) : Prop :=
  exists U, U ≡ₚ used_blocks 0 l /\ Forall2 (fun b u => fst b = fst u /\ 0 <= snd b <= snd u) live U.

Lemma accounted_split live l p s : accounted live l -> (p, s) ∈ live -> Forall seg_ok l ->
  exists l1 n r, l = l1 ++ (n, true) :: r /\ p = total l1 + SIZEOF_STRUCT_MEM /\ 0 <= s <= n - SIZEOF_STRUCT_MEM.
Proof.
  intros (U & HU & HF) Hp Hok. apply list_elem_of_lookup_1 in Hp as [i Hi].
  destruct (Forall2_lookup_l _ _ _ _ _ HF Hi) as (u & Hu & Ha & Hs).
  assert (Hin : u ∈ used_blocks 0 l) by (rewrite <- HU; by apply list_elem_of_lookup_2 in Hu).
  destruct (used_block_split _ _ _ Hok Hin) as (l1 & n & r & -> & E1 & E2). exists l1, n, r. cbn in *. split; [done|]. lia.
Qed.

(** Taking a block away from both sides, or changing it. *)
Lemma forget_perm p U V b : U ≡ₚ b :: V -> fst b = p -> NoDup U.*1 -> forget p U ≡ₚ V.
Proof.
  intros HU Hb Hnd. assert (Hin : b ∈ U) by (rewrite HU; left).
  assert (E : U ≡ₚ b :: forget p U).
  { clear HU V. induction U as [|x U IH]; [by apply elem_of_nil in Hin|]. cbn in Hnd. apply NoDup_cons in Hnd as [Hx Hnd].
    cbn [forget]. apply elem_of_cons in Hin as [->|Hin]; [by rewrite (proj2 (Z.eqb_eq _ _) Hb)|].
    rewrite (proj2 (Z.eqb_neq _ _)); [rewrite IH at 1 by done; apply Permutation_swap|].
    intros E. apply Hx. rewrite E, <- Hb. by apply list_elem_of_fmap_2. }
  apply (Permutation_cons_inv (a := b)). by rewrite <- E.
Qed.

Definition holds_room (b u : Z * Z) : Prop := fst b = fst u /\ 0 <= snd b <= snd u.

Lemma forget_paired p live U : Forall2 holds_room live U -> Forall2 holds_room (forget p live) (forget p U).
Proof.
  induction 1 as [|x u live U [Hx Hs] HF IH]; cbn [forget]; [constructor|]. rewrite <- Hx. destruct (_ =? p); [done|]. by constructor.
Qed.

Lemma resize_paired p s live U b b' :
  Forall2 holds_room live U -> b ∈ U -> fst b = p -> fst b' = p -> 0 <= s <= snd b' ->
  exists W, W ≡ₚ b' :: forget p U /\ Forall2 holds_room (resize p s live) W.
Proof.
  intros HF Hin Hb Hb' Hs. induction HF as [|x u live U [Hx Hsx] HF IH]; [by apply elem_of_nil in Hin|].
  cbn [forget resize]. rewrite Hx. destruct (Z.eqb_spec (fst u) p) as [E|E].
  - exists (b' :: U). split; [done|]. constructor; [|done]. by split.
  - apply elem_of_cons in Hin as [->|Hin]; [done|]. destruct (IH Hin) as (W & HW & HF'). exists (u :: W).
    split; [rewrite HW; apply Permutation_swap|]. by constructor.
Qed.

Lemma used_nodup h l : laid_out h l -> NoDup (used_blocks 0 l).*1.
Proof.
  intros H. pose proof (lo_sizes _ _ H) as Hok. apply sorted_nodup; [by apply used_blocks_sorted|].
  eapply Forall_impl; [exact (used_blocks_range 0 l Hok)|]. cbn. tauto.
Qed.

Lemma mem_init_represents r0 : represents (mem_init r0) [(MEM_SIZE_ALIGNED, false)].
Proof. split; [|by split; [right|]]. by constructor; try done; repeat constructor. Qed.

Lemma used_blocks_at l1 n r :
  used_blocks 0 (l1 ++ (n, true) :: r) ≡ₚ
    (total l1 + SIZEOF_STRUCT_MEM, n - SIZEOF_STRUCT_MEM) :: used_blocks 0 l1 ++ used_blocks (total l1 + n) r.
Proof. rewrite used_blocks_app. cbn [used_blocks app]. rewrite Z.add_0_l. by rewrite <- Permutation_middle. Qed.

Lemma shrink_blocks l1 n r s : block_size s + SIZEOF_STRUCT_MEM <= n ->
  exists room, block_size s <= room /\
    used_blocks 0 (l1 ++ shrink (block_size s) n r) ≡ₚ
      (total l1 + SIZEOF_STRUCT_MEM, room) :: used_blocks 0 l1 ++ used_blocks (total l1 + n) r.
Proof.
  intros Hle. set (bs := block_size s) in *. unfold shrink.
  assert (Hcut : forall m r', used_blocks 0 (l1 ++ (bs + SIZEOF_STRUCT_MEM, true) :: (m, false) :: r') ≡ₚ
            (total l1 + SIZEOF_STRUCT_MEM, bs) :: used_blocks 0 l1 ++ used_blocks (total l1 + (bs + SIZEOF_STRUCT_MEM + m)) r').
  { intros m r'. rewrite used_blocks_at. cbn [used_blocks app]. rewrite Z.add_simpl_r.
    by replace (total l1 + (bs + SIZEOF_STRUCT_MEM) + m) with (total l1 + (bs + SIZEOF_STRUCT_MEM + m)) by lia. }
  destruct (Z.eqb_spec (bs + SIZEOF_STRUCT_MEM) n) as [E|E].
  { exists (n - SIZEOF_STRUCT_MEM). split; [lia|]. by rewrite used_blocks_at. }
  assert (Hown : opens_used r = true -> exists room, bs <= room /\
    used_blocks 0 (l1 ++ if bs + 2 * SIZEOF_STRUCT_MEM + MIN_SIZE_ALIGNED <=? n
                         then (bs + SIZEOF_STRUCT_MEM, true) :: (n - (bs + SIZEOF_STRUCT_MEM), false) :: r else (n, true) :: r) ≡ₚ
      (total l1 + SIZEOF_STRUCT_MEM, room) :: used_blocks 0 l1 ++ used_blocks (total l1 + n) r).
  { intros _. destruct (_ <=? n).
    - exists bs. split; [lia|]. rewrite Hcut. by replace (bs + SIZEOF_STRUCT_MEM + (n - (bs + SIZEOF_STRUCT_MEM))) with n by lia.
    - exists (n - SIZEOF_STRUCT_MEM). split; [lia|apply used_blocks_at]. }
  destruct r as [|[m []] r']; [by apply Hown|by apply Hown|]. exists bs. split; [lia|]. rewrite Hcut. cbn [used_blocks app].
  by replace (total l1 + n + m) with (total l1 + (bs + SIZEOF_STRUCT_MEM + (n - (bs + SIZEOF_STRUCT_MEM) + m))) by lia.
Qed.

Lemma writes_represents h l1 n r s data :
  represents h (l1 ++ (n, true) :: r) -> 0 <= s <= n - SIZEOF_STRUCT_MEM ->
  represents (owner_writes (total l1 + SIZEOF_STRUCT_MEM) s data h) (l1 ++ (n, true) :: r).
Proof.
  intros [H Hno] Hs. split; [|done]. destruct (laid_split _ _ _ _ _ H) as (Hp & Hl & Hc & Hsl & Hsn & Hsr & Hl0 & Hr0 & Ht).
  assert (Eq : forall q, q <= total l1 \/ total l1 + n <= q ->
            ram (owner_writes (total l1 + SIZEOF_STRUCT_MEM) s data h) q = ram h q).
  { intros q Hq. cbn. destruct (Z.ltb_spec (total l1 + SIZEOF_STRUCT_MEM - SIZEOF_STRUCT_MEM) q); [|done].
    destruct (Z.ltb_spec q (total l1 + SIZEOF_STRUCT_MEM + s)); [lia|done]. }
  destruct H as [_ He Htot Hs' Hf]. constructor; try done.
  - apply chain_app. rewrite Z.add_0_l. split; [|split].
    + revert Hl. apply chain_frame; [done|]. intros q Hq. apply Eq. lia.
    + rewrite Eq by lia. done.
    + revert Hc. apply chain_frame; [done|]. intros q Hq. apply Eq. sizes. lia.
  - rewrite Eq; [done|]. sizes. lia.
Qed.

(** What every run keeps. *)
Definition heap_inv (h : heap) (live : list (Z * Z)) : Prop :=
  exists l, represents h l /\ accounted live l /\ Forall (fun m => m = "invalid next ptr"%string) (complaints h).

Lemma malloc_inv h live s h' p :
  heap_inv h live -> is_u16 s -> mem_malloc s h = Some (h', Some p) -> heap_inv h' ((p, s) :: live).
Proof.
  intros (l & H & (U & HU & HF) & Hm) Hs E. pose proof (mem_malloc_refines h l s H Hs) as Hr. rewrite E in Hr.
  destruct (_ || _) eqn:Eg; [done|]. destruct (spec_malloc (block_size s) l) as [[l' o]|] eqn:Es; [|done].
  destruct Hr as (h2 & [= -> ->] & Hrep & Hco). exists l'. split; [done|]. split; [|by rewrite Hco].
  destruct (spec_malloc_blocks _ _ _ _ 0 (lo_sizes _ _ (proj1 H)) Es) as (room & Hp & Hroom).
  exists ((0 + o + SIZEOF_STRUCT_MEM, room) :: U). split; [by rewrite Hp, HU|]. constructor; [|done].
  split; [done|]. cbn. apply orb_false_iff in Eg as [Eg _]. unfold is_u16 in Hs. split; [lia|].
  etransitivity; [|exact Hroom]. unfold block_size. pose proof (Z.div_mod (s + 3) 4 ltac:(lia)).
  pose proof (Z.mod_pos_bound (s + 3) 4 ltac:(lia)). lia.
Qed.

Lemma refused_inv h live s h' : heap_inv h live -> is_u16 s -> mem_malloc s h = Some (h', None) -> h' = h.
Proof.
  intros (l & H & _) Hs E. pose proof (mem_malloc_refines h l s H Hs) as Hr. rewrite E in Hr.
  destruct (_ || _); [by injection Hr|]. destruct (spec_malloc _ l) as [[l' o]|]; [by destruct Hr as (? & ? & _)|]. by injection Hr.
Qed.

Lemma free_inv h live p s : heap_inv h live -> (p, s) ∈ live -> heap_inv (mem_free (Some p) h) (forget p live).
Proof.
  intros (l & H & Ha & Hm) Hin. destruct (accounted_split _ _ _ _ Ha Hin (lo_sizes _ _ (proj1 H))) as (l1 & n & r & -> & -> & Hs).
  destruct (mem_free_refines _ _ _ _ H) as [Hrep Hco]. pose proof (laid_split _ _ _ _ _ (proj1 H)) as (_ & _ & _ & Hsl & _).
  eexists. split; [exact Hrep|]. split; [|by rewrite Hco]. destruct Ha as (U & HU & HF).
  exists (forget (total l1 + SIZEOF_STRUCT_MEM) U). split; [|by apply forget_paired].
  unfold spec_free. rewrite at_offset_app, used_blocks_merge by done.
  rewrite used_blocks_app. cbn [used_blocks app]. rewrite Z.add_0_l.
  eapply forget_perm; [by rewrite HU, used_blocks_at|done|]. rewrite HU. by apply (used_nodup h), H.
Qed.

Lemma trim_inv h live p s s' h' o :
  heap_inv h live -> (p, s) ∈ live -> 0 <= s' <= s -> mem_trim p s' h = (h', o) -> heap_inv h' (resize p s' live).
Proof.
  intros (l & H & Ha & Hm) Hin Hs' E. destruct (accounted_split _ _ _ _ Ha Hin (lo_sizes _ _ (proj1 H))) as (l1 & n & r & -> & -> & Hs).
  destruct (mem_trim_refines h l1 n r s' H ltac:(lia)) as (h2 & E2 & Hrep & Hco). rewrite E2 in E. injection E as <- <-.
  pose proof (laid_split _ _ _ _ _ (proj1 H)) as (_ & _ & _ & _ & Hsn & _).
  pose proof (trimmed_size s' n ltac:(lia) Hsn) as Hbs.
  eexists. split; [exact Hrep|]. split; [|destruct Hco as [->|[_ ->]]; [done|]; by apply Forall_app; split; [|constructor]].
  destruct Ha as (U & HU & HF). destruct (shrink_blocks l1 n r s' ltac:(lia)) as (room & Hroom & Hp).
  assert (Hroom' : 0 <= s' <= room).
  { split; [lia|]. etransitivity; [|exact Hroom]. unfold block_size. pose proof (Z.div_mod (s' + 3) 4 ltac:(lia)).
    pose proof (Z.mod_pos_bound (s' + 3) 4 ltac:(lia)). lia. }
  destruct (resize_paired (total l1 + SIZEOF_STRUCT_MEM) s' live U (total l1 + SIZEOF_STRUCT_MEM, n - SIZEOF_STRUCT_MEM)
    (total l1 + SIZEOF_STRUCT_MEM, room) HF) as (W & HW & HF'); try done.
  - rewrite HU, used_blocks_at. left.
  - exists W. split; [|done]. rewrite HW, Hp. f_equiv.
    eapply forget_perm; [by rewrite HU, used_blocks_at|done|]. rewrite HU. by apply (used_nodup h), H.
Qed.

Lemma heap_run_inv r0 h live : heap_run r0 h live -> heap_inv h live.
Proof.
  induction 1 as [|h live s h' p _ IH Hs E|h live s h' _ IH Hs E|h live c s h' p z _ IH Hc Hs E|h live p s _ IH Hin|h live _ IH
    |h live p s s' h' o _ IH Hin Hs E|h live p s data _ IH Hin].
  - eexists. split; [apply mem_init_represents|]. split; [|constructor]. exists []. by split.
  - by eapply malloc_inv.
  - by rewrite (refused_inv _ _ _ _ IH Hs E).
  - unfold mem_calloc in E. destruct (Z.eqb_spec (u16 (u32 (c * s))) (u32 (c * s))) as [Eu|]; [|done]. cbn [negb] in E.
    destruct (mem_malloc _ h) as [[h2 [q|]]|] eqn:Em; try done. injection E as -> -> <-.
    pose proof (malloc_inv _ _ _ _ _ IH (u16_range _) Em) as Hi. rewrite Eu in Hi.
    rewrite u32_small in Hi by (unfold is_u16 in *; nia). done.
  - by eapply free_inv.
  - done.
  - by eapply trim_inv.
  - destruct IH as (l & H & Ha & Hm). destruct (accounted_split _ _ _ _ Ha Hin (lo_sizes _ _ (proj1 H))) as (l1 & n & r & -> & -> & Hs).
    eexists. split; [by apply writes_represents|]. by split.
Qed.

(** C24. The heap is a first-fit allocator.  After any calls of [mem_malloc],
    [mem_calloc], [mem_free] and [mem_trim] by callers that return and trim only
    what they got, and write only to their blocks, the headers in memory describe
    a list of segments without two free ones side by side, and the next call does
    what the list says: [mem_malloc] returns, and takes the first free segment
    with room for the rounded size, cut when the rest can be a segment, or
    refuses if there is none; [mem_free] makes the segment free and joins it with
    its free neighbours; [mem_trim] returns the address it got and gives the rest
    to the free segment behind it, or makes one of it. *)
Theorem heap_refines_first_fit r0 h live :
  heap_run r0 h live ->
  exists l, represents h l /\
    (forall s, is_u16 s ->
       match (if (s =? 0) || (MEM_SIZE_ALIGNED <? block_size s) then None else spec_malloc (block_size s) l) with
       | None => mem_malloc s h = Some (h, None)
       | Some (l', o) => exists h', mem_malloc s h = Some (h', Some (o + SIZEOF_STRUCT_MEM)) /\ represents h' l'
       end) /\
    (forall p s, (p, s) ∈ live -> represents (mem_free (Some p) h) (spec_free (p - SIZEOF_STRUCT_MEM) l)) /\
    (forall p s s', (p, s) ∈ live -> 0 <= s' <= s ->
       exists h', mem_trim p s' h = (h', Some p) /\ represents h' (spec_trim (p - SIZEOF_STRUCT_MEM) (block_size s') l)).
Proof.
  intros Hr. destruct (heap_run_inv _ _ _ Hr) as (l & H & Ha & _). exists l. split; [done|]. split; [|split].
  - intros s Hs. pose proof (mem_malloc_refines h l s H Hs) as Hm. destruct (_ || _); [done|].
    destruct (spec_malloc _ l) as [[l' o]|]; [|done]. destruct Hm as (h' & E & Hrep & _). by exists h'.
  - intros p s Hin. destruct (accounted_split _ _ _ _ Ha Hin (lo_sizes _ _ (proj1 H))) as (l1 & n & r & -> & -> & Hs).
    rewrite Z.add_simpl_r. by apply mem_free_refines.
  - intros p s s' Hin Hs'. destruct (accounted_split _ _ _ _ Ha Hin (lo_sizes _ _ (proj1 H))) as (l1 & n & r & -> & -> & Hs).
    destruct (mem_trim_refines h l1 n r s' H ltac:(lia)) as (h' & E & Hrep & _). exists h'. split; [done|].
    rewrite Z.add_simpl_r. unfold spec_trim. rewrite at_offset_app; [done|]. by destruct (laid_split _ _ _ _ _ (proj1 H)) as (_ & _ & _ & ? & _).
Qed.

(** Without used segments the heap is one free segment. *)
Lemma unused_whole h l : represents h l -> used_blocks 0 l = [] -> l = [(MEM_SIZE_ALIGNED, false)].
Proof.
  intros [H Hno] Hu. pose proof (lo_total _ _ H) as Ht. destruct l as [|[n []] l]; [done|done|].
  destruct Hno as [[|Ho] _]; [done|]. destruct l as [|[m []] l]; [|done|done]. unfold total in Ht. cbn [foldr fst] in Ht.
  do 2 f_equal. lia.
Qed.

(** C25. Blocks of the heap are safe.  After any such calls, the blocks handed out
    are distinct, aligned, inside the heap, and do not overlap one another's bytes
    or headers; no assertion of the heap was violated but one of [mem_trim]; and
    once every block has been returned, the heap is one free block again, so that
    a request up to its full size succeeds. *)
Theorem heap_blocks_safe r0 h live :
  heap_run r0 h live ->
  NoDup live.*1 /\
  (forall p s, (p, s) ∈ live -> SIZEOF_STRUCT_MEM <= p /\ p mod MEM_ALIGNMENT = 0 /\ p + s <= MEM_SIZE_ALIGNED) /\
  (forall p s p' s', (p, s) ∈ live -> (p', s') ∈ live -> p <> p' ->
     p + s + SIZEOF_STRUCT_MEM <= p' \/ p' + s' + SIZEOF_STRUCT_MEM <= p) /\
  Forall (fun m => m = "invalid next ptr"%string) (complaints h) /\
  (live = [] -> forall s, 0 < s <= MEM_SIZE_ALIGNED - SIZEOF_STRUCT_MEM ->
     exists h', mem_malloc s h = Some (h', Some SIZEOF_STRUCT_MEM)).
Proof.
  intros Hr. destruct (heap_run_inv _ _ _ Hr) as (l & H & Ha & Hm). pose proof (lo_sizes _ _ (proj1 H)) as Hok.
  pose proof Ha as (U & HU & HF).
  assert (Hblock : forall p s, (p, s) ∈ live -> exists n, (p, n) ∈ used_blocks 0 l /\ 0 <= s <= n).
  { intros p s Hin. apply list_elem_of_lookup_1 in Hin as [i Hi]. destruct (Forall2_lookup_l _ _ _ _ _ HF Hi) as ([q n] & Hu & Ep & Hs).
    cbn in Ep, Hs. subst q. exists n. split; [|done]. rewrite <- HU. by apply list_elem_of_lookup_2 in Hu. }
  split; [|split; [|split; [|split; [done|]]]].
  - replace live.*1 with U.*1; [rewrite HU; by apply (used_nodup h), H|].
    clear -HF. induction HF as [|b u live U [E _] HF IH]; [done|]. cbn. by rewrite IH, E.
  - intros p s Hin. destruct (Hblock p s Hin) as (n & Hn & Hs).
    pose proof (proj1 (Forall_forall _ _) (used_blocks_range 0 l Hok) _ Hn) as Hra.
    pose proof (proj1 (Forall_forall _ _) (used_blocks_aligned 0 l eq_refl Hok) _ Hn) as Hal.
    rewrite (lo_total _ _ (proj1 H)) in Hra. cbn in Hra, Hal. split; [lia|]. split; [done|lia].
  - intros p s p' s' Hin Hin' Hne. destruct (Hblock p s Hin) as (n & Hn & Hs), (Hblock p' s' Hin') as (n' & Hn' & Hs').
    destruct (sorted_apart _ _ _ (used_blocks_sorted 0 l Hok) Hn Hn') as [E|[Hb|Hb]]; [congruence| |]; unfold before in Hb; cbn in Hb; lia.
  - intros -> s Hs. inversion HF; subst. apply Permutation_nil_l in HU. rewrite (unused_whole h l H (eq_sym HU)) in H.
    pose proof (mem_malloc_refines h _ s H ltac:(sizes; lia)) as Hmm.
    assert (Hb : block_size s <= MEM_SIZE_ALIGNED - SIZEOF_STRUCT_MEM)
      by (unfold block_size; sizes; pose proof (Z.div_mod (s + 3) 4 ltac:(lia)); pose proof (Z.mod_pos_bound (s + 3) 4 ltac:(lia)); lia).
    rewrite (proj2 (Z.eqb_neq s 0)), (proj2 (Z.ltb_ge MEM_SIZE_ALIGNED (block_size s))) in Hmm by (sizes; lia).
    cbn [orb spec_malloc negb andb] in Hmm. rewrite (proj2 (Z.leb_le _ MEM_SIZE_ALIGNED)) in Hmm by lia.
    destruct (_ <=? MEM_SIZE_ALIGNED); destruct Hmm as (h' & E & _); by exists h'.
Qed.

(** Trimming the block at the end of the heap is correct, but fails an assertion. *)
Lemma trim_last_block_complains :
  exists h h' h'', mem_malloc 10232 (mem_init (fun _ => Mem 0 0 false)) = Some (h, Some 8) /\
    mem_trim 8 100 h = (h', Some 8) /\ complaints h' = ["invalid next ptr"%string] /\
    mem_malloc 10000 h' = Some (h'', Some 116).
Proof.
  do 3 eexists. split; [vm_compute; reflexivity|]. split; [vm_compute; reflexivity|]. split; vm_compute; reflexivity.
Qed.

(** A run with a block that is written to and trimmed, one that is returned, and
    one put in its place. *)
Definition sample_memory : Z -> mem := fun _ => Mem 7 7 true.
Definition sample_heap_1 : heap := default (mem_init sample_memory) (fst <$> mem_malloc 100 (mem_init sample_memory)).
Definition sample_heap_2 : heap := default sample_heap_1 (fst <$> mem_malloc 50 sample_heap_1).
Definition sample_heap_3 : heap := owner_writes 116 50 sample_memory (mem_free (Some 8) sample_heap_2).
Definition sample_heap_4 : heap := fst (mem_trim 116 10 sample_heap_3).
Definition sample_heap_5 : heap := default sample_heap_4 (fst <$> mem_malloc 40 sample_heap_4).

Lemma sample_heap_run : heap_run sample_memory sample_heap_5 [(8, 40); (116, 10)].
Proof.
  apply (run_malloc _ sample_heap_4 _ 40); [|done|vm_compute; reflexivity].
  apply (run_trim _ sample_heap_3 [(116, 50)] 116 50 10 _ (Some 116)); [|left|lia|vm_compute; reflexivity].
  apply (run_write _ (mem_free (Some 8) sample_heap_2) _ 116 50); [|left].
  apply (run_free _ sample_heap_2 [(116, 50); (8, 100)] 8 100); [|right; left].
  apply (run_malloc _ sample_heap_1); [|done|vm_compute; reflexivity].
  apply (run_malloc _ (mem_init sample_memory)); [|done|vm_compute; reflexivity].
  apply run_init.
Qed.

Lemma heap_refines_first_fit_witness :
  exists l, represents sample_heap_5 l /\ represents (mem_free (Some 8) sample_heap_5) (spec_free 0 l).
Proof.
  destruct (heap_refines_first_fit sample_memory sample_heap_5 _ sample_heap_run) as (l & H & _ & Hf & _).
  exists l. split; [exact H|]. apply (Hf 8 40). left.
Defined.

Lemma heap_blocks_safe_witness :
  8 + 40 + SIZEOF_STRUCT_MEM <= 116 \/ 116 + 10 + SIZEOF_STRUCT_MEM <= 8.
Proof.
  destruct (heap_blocks_safe sample_memory sample_heap_5 _ sample_heap_run) as (_ & _ & Hd & _).
  apply (Hd 8 40 116 10); [left|right; left|lia].
Defined.
