(* ===== verification/Memp.v ===== *)
(** * The pools of lwIP ([lwip/core/memp.c])

    A pool is an array of elements of one size; the free ones are linked through
    their first word, and [tab] points to the first.  Addresses are numbers, and
    zero is the null pointer.  Each call is one critical section.  The links of the
    elements that are handed out are their owners' data.

    The lemmas: the links form a list without repetition, from which [memp_malloc]
    takes the first element and to which [memp_free] adds one, whatever owners
    write to their elements; [Pbuf] uses that list. *)

From S2P Require Import Prelude.
From stdpp Require Import list functions.
#[local] Open Scope Z_scope.

(** The constant part of a pool, [struct memp_desc]. *)
Record memp_desc := Desc { size : Z; num : nat; base : Z }.

Record pool_state := PoolState { tab : option Z; link : Z -> option Z }.

(** The loop of [memp_init_pool]: [n] elements from [memp]. *)
Fixpoint init_loop (n : nat) (sz memp : Z) (s : pool_state) : pool_state :=
  match n with
  | O => s
  | S n => init_loop n sz (memp + sz) (PoolState (Some memp) (<[memp := tab s]> (link s)))
  end.

(** [words] is the memory before; [base] is aligned. *)
Definition memp_init_pool (desc : memp_desc) (words : Z -> option Z) : pool_state :=
  init_loop (num desc) (size desc) (base desc) (PoolState None words).

Definition do_memp_malloc_pool (s : pool_state) : pool_state * option Z :=
  match tab s with
  | Some memp => (PoolState (link s memp) (link s), Some memp)
  | None => (s, None)
  end.

Definition memp_malloc (s : pool_state) : pool_state * option Z := do_memp_malloc_pool s.

Definition do_memp_free_pool (mem : Z) (s : pool_state) : pool_state :=
  PoolState (Some mem) (<[mem := tab s]> (link s)).

Definition memp_free (mem : option Z) (s : pool_state) : pool_state :=
  match mem with
  | None => s
  | Some mem => do_memp_free_pool mem s
  end.

(** ** Free lists *)

Fixpoint links (f : Z -> option Z) (p : option Z) (l : list Z) : Prop :=
  match l with
  | [] => p = None
  | x :: l => p = Some x /\ links f (f x) l
  end.

Definition free_list (s : pool_state) (l : list Z) : Prop := links (link s) (tab s) l /\ NoDup l.

Lemma links_ext f g p l : (forall x, x ∈ l -> g x = f x) -> links f p l -> links g p l.
Proof.
  intros H. revert p. induction l as [|x l IH]; intros p; cbn [links]; [done|]. intros [-> Hl]. split; [done|].
  rewrite H by left. apply IH; [|done]. intros y Hy. apply H. by right.
Qed.

Lemma memp_malloc_takes_first s l : free_list s l ->
  match l with
  | [] => memp_malloc s = (s, None)
  | x :: l => exists s', memp_malloc s = (s', Some x) /\ free_list s' l
  end.
Proof.
  intros [Hl Hnd]. unfold memp_malloc, do_memp_malloc_pool. destruct l as [|x l]; cbn [links] in Hl; [by rewrite Hl|].
  destruct Hl as [-> Hl]. eexists. split; [done|]. apply list.NoDup_cons in Hnd as [_ Hnd]. done.
Qed.

Lemma memp_free_adds_first s l x : free_list s l -> x ∉ l -> free_list (memp_free (Some x) s) (x :: l).
Proof.
  intros [Hl Hnd] Hx. split; [|by apply list.NoDup_cons]. cbn. split; [done|]. rewrite fn_lookup_insert.
  revert Hl. apply links_ext. intros y Hy. apply fn_lookup_insert_ne. by intros ->.
Qed.

(** An owner writes the first word of its element. *)
Lemma memp_owner_writes s l x w : free_list s l -> x ∉ l -> free_list (PoolState (tab s) (<[x := w]> (link s))) l.
Proof.
  intros [Hl Hnd] Hx. split; [|done]. cbn. revert Hl. apply links_ext. intros y Hy. apply fn_lookup_insert_ne. by intros ->.
Qed.

(** After initialisation every element is free, the last one first. *)
Lemma memp_init_all_free desc words : 0 < size desc ->
  free_list (memp_init_pool desc words) (rev (map (fun i => base desc + Z.of_nat i * size desc) (seq 0 (num desc)))).
Proof.
  intros Hs. unfold memp_init_pool. set (sz := size desc) in *. generalize (base desc). intros b.
  assert (Hg : forall n memp s l, free_list s l -> (forall x, x ∈ l -> x < memp) ->
            free_list (init_loop n sz memp s) (rev (map (fun i => memp + Z.of_nat i * sz) (seq 0 n)) ++ l)).
  { induction n as [|n IH]; intros memp s l Hl Hlt; [done|]. cbn [init_loop].
    specialize (IH (memp + sz) (do_memp_free_pool memp s) (memp :: l)). cbn [seq map rev].
    rewrite <- seq_shift, map_map, <- app_assoc. cbn [app].
    replace (memp + Z.of_nat 0 * sz) with memp by lia.
    replace (map (fun x => memp + Z.of_nat (S x) * sz) (seq 0 n)) with (map (fun i => memp + sz + Z.of_nat i * sz) (seq 0 n))
      by (apply map_ext; intros; lia).
    apply IH.
    - apply (memp_free_adds_first s l memp Hl). intros Hin. specialize (Hlt _ Hin). lia.
    - intros x [->|Hx]%elem_of_cons; [lia|]. specialize (Hlt _ Hx). lia. }
  specialize (Hg (num desc) b (PoolState None words) []). rewrite app_nil_r in Hg. apply Hg.
  - split; [done|constructor].
  - by intros x ?%elem_of_nil.
Qed.
