(* ===== verification/Pbuf.v ===== *)
(** * Packet buffers of lwIP ([lwip/core/pbuf.c])

    A packet is a chain of [struct pbuf]s, each with a part of the data.  The
    structures of the two pools are numbered; those of type [PBUF_RAM] are blocks of
    the heap of [Mem].  Data is memory behind the structure ([Block]) or memory of
    the caller ([Outside]); several structures may refer to the same memory.  A free
    list of [memp.c] is the list of its elements: [Memp] shows that the links in
    memory are such a list.

    A failed assertion only prints, and is not recorded here; [LWIP_ERROR] returns.
    The request to the TCP code to give up segments when the pool is empty, and the
    functions that copy between packets, are left out.
    Following a null pointer, a wrong pool, or custom buffers, which the code
    modelled here does not create, end the model with [None], and so does fuel that
    is not enough for a chain.

    The theorems: on packets, the operations are those on byte strings; buffers of
    the pool are not lost. *)

From S2P Require Import Prelude Mem.
From stdpp Require Import list functions.
#[local] Open Scope Z_scope.

(** ** Constants *)

Definition SIZEOF_STRUCT_PBUF : Z := 16.
Definition PBUF_POOL_BUFSIZE_ALIGNED : Z := Eval vm_compute in LWIP_MEM_ALIGN_SIZE (LWIP_MEM_ALIGN_SIZE (536 + 20 + 20 + 0 + 14)).
Definition PBUF_TYPE_FLAG_STRUCT_DATA_CONTIGUOUS : Z := 0x80.
Definition PBUF_TYPE_ALLOC_SRC_MASK : Z := 0x0F.
Definition PBUF_FLAG_IS_CUSTOM : Z := 2.

Inductive pbuf_layer := PBUF_TRANSPORT | PBUF_IP | PBUF_LINK | PBUF_RAW_TX | PBUF_RAW.
Definition layer_offset (l : pbuf_layer) : Z :=
  match l with PBUF_TRANSPORT => 54 | PBUF_IP => 34 | PBUF_LINK => 14 | PBUF_RAW_TX => 0 | PBUF_RAW => 0 end.

Inductive pbuf_type := PBUF_RAM | PBUF_ROM | PBUF_REF | PBUF_POOL.
Definition type_value (t : pbuf_type) : Z :=
  match t with PBUF_RAM => 0x280 | PBUF_ROM => 0x01 | PBUF_REF => 0x41 | PBUF_POOL => 0x182 end.

Inductive err_t := ERR_OK | ERR_MEM | ERR_ARG.

(** ** Data *)

Inductive ptr := InPool (i : Z) | InMemp (i : Z) | InHeap (offset : Z).
#[global] Instance ptr_eq_dec : EqDecision ptr.
Proof. solve_decision. Defined.

Inductive place := Block (p : ptr) | Outside (a : Z).
#[global] Instance place_eq_dec : EqDecision place.
Proof. solve_decision. Defined.

#[global] Instance InPool_inj : Inj eq eq InPool.
Proof. by intros ? ? [=]. Qed.
#[global] Instance Block_inj : Inj eq eq Block.
Proof. by intros ? ? [=]. Qed.

Record pbuf := Pbuf {
  next : option ptr;
  (** A place and the offset in it. *)
  payload : place * Z;
  tot_len : Z;
  len : Z;
  type_internal : Z;
  flags : Z;
  ref : Z
}.

Record state := State {
  pbufs : ptr -> pbuf;
  memory : place -> bytes;
  pool : list Z;
  memp : list Z;
  mem_heap : Mem.heap
}.

Definition set_pbufs (f : ptr -> pbuf) (s : state) : state := State f (memory s) (pool s) (memp s) (mem_heap s).
Definition set_memory (f : place -> bytes) (s : state) : state := State (pbufs s) f (pool s) (memp s) (mem_heap s).
Definition set_pool (l : list Z) (s : state) : state := State (pbufs s) (memory s) l (memp s) (mem_heap s).
Definition set_memp (l : list Z) (s : state) : state := State (pbufs s) (memory s) (pool s) l (mem_heap s).
Definition set_heap (h : Mem.heap) (s : state) : state := State (pbufs s) (memory s) (pool s) (memp s) h.

Definition set_pbuf (p : ptr) (b : pbuf) (s : state) : state := set_pbufs (<[p := b]> (pbufs s)) s.
Definition with_next (n : option ptr) (b : pbuf) : pbuf :=
  Pbuf n (payload b) (tot_len b) (len b) (type_internal b) (flags b) (ref b).
Definition with_lens (o t l : Z) (b : pbuf) : pbuf :=
  Pbuf (next b) (fst (payload b), o) t l (type_internal b) (flags b) (ref b).
Definition with_tot_len (t : Z) (b : pbuf) : pbuf :=
  Pbuf (next b) (payload b) t (len b) (type_internal b) (flags b) (ref b).
Definition with_ref (r : Z) (b : pbuf) : pbuf :=
  Pbuf (next b) (payload b) (tot_len b) (len b) (type_internal b) (flags b) r.
Definition update (p : ptr) (f : pbuf -> pbuf) (s : state) : state := set_pbuf p (f (pbufs s p)) s.

(** [MEMCPY] to and from the payload of a buffer. *)
Definition splice (o : nat) (d b : bytes) : bytes := take o b ++ d ++ drop (o + length d) b.
Definition copy_in (p : ptr) (o : Z) (d : bytes) (s : state) : state :=
  let '(m, base) := payload (pbufs s p) in
  set_memory (<[m := splice (Z.to_nat (base + o)) d (memory s m)]> (memory s)) s.
Definition copy_out (p : ptr) (o n : Z) (s : state) : bytes :=
  let '(m, base) := payload (pbufs s p) in take (Z.to_nat n) (drop (Z.to_nat (base + o)) (memory s m)).

(** ** Memory *)

(** [n] bytes of memory that held [b]. *)
Definition resize_bytes (n : nat) (b : bytes) : bytes := take n b ++ replicate (n - length b) 0.

Definition pbuf_init_alloced_pbuf (p : ptr) (pay : place * Z) (tot l : Z) (t : pbuf_type) (s : state) : state :=
  set_pbuf p (Pbuf None pay tot l (u8 (type_value t)) 0 1) s.

(** [memp_malloc] of the two pools. *)
Definition malloc_pool (s : state) : state * option ptr :=
  match pool s with [] => (s, None) | i :: l => (set_pool l s, Some (InPool i)) end.
Definition malloc_memp (s : state) : state * option ptr :=
  match memp s with [] => (s, None) | i :: l => (set_memp l s, Some (InMemp i)) end.

(** What [pbuf_free] does with a structure nobody refers to. *)
Definition release (p : ptr) (s : state) : option state :=
  let alloc_src := Z.land (type_internal (pbufs s p)) PBUF_TYPE_ALLOC_SRC_MASK in
  if negb (Z.land (flags (pbufs s p)) PBUF_FLAG_IS_CUSTOM =? 0) then None
  else
    match p with
    | InPool i => if alloc_src =? 2 then Some (set_pool (i :: pool s) s) else None
    | InMemp i => if alloc_src =? 1 then Some (set_memp (i :: memp s) s) else None
    | InHeap o => if alloc_src =? 0 then Some (set_heap (mem_free (Some o) (mem_heap s)) s) else None
    end.

(** The loop of [pbuf_free], with the number of structures given back. *)
Fixpoint free_loop (fuel : nat) (p : option ptr) (count : Z) (s : state) : option (state * Z) :=
  match p with
  | None => Some (s, count)
  | Some p =>
    match fuel with
    | O => None
    | S fuel =>
      let r := u8 (ref (pbufs s p) - 1) in
      let s := update p (with_ref r) s in
      if r =? 0 then
        let q := next (pbufs s p) in
        match release p s with
        | None => None
        | Some s => free_loop fuel q (u8 (count + 1)) s
        end
      else Some (s, count)
    end
  end.

Definition pbuf_free (fuel : nat) (p : option ptr) (s : state) : option (state * Z) := free_loop fuel p 0 s.

(** The [do] loop of [pbuf_alloc] for [PBUF_POOL]: the chain so far from [p] to
    [last]; [all] is the fuel for giving a chain back. *)
Fixpoint alloc_loop (all fuel : nat) (p last : option ptr) (rem_len offset : Z) (s : state) : option (state * option ptr) :=
  match fuel with
  | O => None
  | S fuel =>
    match malloc_pool s with
    | (s, None) =>
      match p with
      | None => Some (s, None)
      | Some _ => match pbuf_free all p s with
                  | None => None
                  | Some (s, _) => Some (s, None)
                  end
      end
    | (s, Some q) =>
      let room := u16 (PBUF_POOL_BUFSIZE_ALIGNED - LWIP_MEM_ALIGN_SIZE offset) in
      let qlen := Z.min rem_len room in
      let s := pbuf_init_alloced_pbuf q (Block q, LWIP_MEM_ALIGN_SIZE offset) rem_len qlen PBUF_POOL s in
      let s := match last with None => s | Some l => update l (with_next (Some q)) s end in
      let p := match p with None => Some q | Some _ => p end in
      let rem_len := u16 (rem_len - qlen) in
      if 0 <? rem_len then alloc_loop all fuel p (Some q) rem_len 0 s else Some (s, p)
    end
  end.

Definition pbuf_alloc_reference (pay : place * Z) (length : Z) (type : pbuf_type) (s : state) : state * option ptr :=
  match malloc_memp s with
  | (s, None) => (s, None)
  | (s, Some p) => (pbuf_init_alloced_pbuf p pay length length type s, Some p)
  end.

(** The payload of a [PBUF_REF] or [PBUF_ROM] is null until the caller sets it. *)
Definition pbuf_alloc (fuel : nat) (layer : pbuf_layer) (length : Z) (type : pbuf_type) (s : state)
  : option (state * option ptr) :=
  let offset := layer_offset layer in
  match type with
  | PBUF_REF | PBUF_ROM => Some (pbuf_alloc_reference (Outside 0, 0) length type s)
  | PBUF_POOL => alloc_loop fuel fuel None None length offset s
  | PBUF_RAM =>
    let payload_len := u16 (LWIP_MEM_ALIGN_SIZE offset + LWIP_MEM_ALIGN_SIZE length) in
    let alloc_len := u16 (LWIP_MEM_ALIGN_SIZE SIZEOF_STRUCT_PBUF + payload_len) in
    if (payload_len <? LWIP_MEM_ALIGN_SIZE length) || (alloc_len <? LWIP_MEM_ALIGN_SIZE length) then Some (s, None)
    else
      match mem_malloc alloc_len (mem_heap s) with
      | None => None
      | Some (h, None) => Some (set_heap h s, None)
      | Some (h, Some o) =>
        let s := set_heap h s in
        (* the memory of the block, with whatever it held *)
        let s := set_memory (<[Block (InHeap o) := resize_bytes (Z.to_nat payload_len) (memory s (Block (InHeap o)))]> (memory s)) s in
        Some (pbuf_init_alloced_pbuf (InHeap o) (Block (InHeap o), LWIP_MEM_ALIGN_SIZE offset) length length PBUF_RAM s,
              Some (InHeap o))
      end
  end.

(** ** Headers *)

(** [1] is failure. *)
Definition pbuf_add_header_impl (p : ptr) (header_size_increment : Z) (force : bool) (s : state) : state * Z :=
  let b := pbufs s p in
  if 0xFFFF <? header_size_increment then (s, 1)
  else if header_size_increment =? 0 then (s, 0)
  else
    let increment_magnitude := header_size_increment in
    if u16 (increment_magnitude + tot_len b) <? increment_magnitude then (s, 1)
    else
      let o := snd (payload b) - header_size_increment in
      let moved := (update p (with_lens o (u16 (tot_len b + increment_magnitude)) (u16 (len b + increment_magnitude))) s, 0) in
      if negb (Z.land (type_internal b) PBUF_TYPE_FLAG_STRUCT_DATA_CONTIGUOUS =? 0) then
        if o <? 0 then (s, 1) else moved
      else if force then moved else (s, 1).

Definition pbuf_add_header (p : ptr) (n : Z) (s : state) : state * Z := pbuf_add_header_impl p n false s.
Definition pbuf_add_header_force (p : ptr) (n : Z) (s : state) : state * Z := pbuf_add_header_impl p n true s.

Definition pbuf_remove_header (p : ptr) (header_size_decrement : Z) (s : state) : state * Z :=
  let b := pbufs s p in
  if 0xFFFF <? header_size_decrement then (s, 1)
  else if header_size_decrement =? 0 then (s, 0)
  else if negb (header_size_decrement <=? len b) then (s, 1)
  else (update p (with_lens (snd (payload b) + header_size_decrement) (u16 (tot_len b - header_size_decrement))
                    (u16 (len b - header_size_decrement))) s, 0).

Definition pbuf_header_impl (p : ptr) (header_size_increment : Z) (force : bool) (s : state) : state * Z :=
  if header_size_increment <? 0 then pbuf_remove_header p (- header_size_increment) s
  else pbuf_add_header_impl p header_size_increment force s.
Definition pbuf_header (p : ptr) (n : Z) (s : state) : state * Z := pbuf_header_impl p n false s.
Definition pbuf_header_force (p : ptr) (n : Z) (s : state) : state * Z := pbuf_header_impl p n true s.

Fixpoint pbuf_free_header (fuel : nat) (q : option ptr) (free_left : Z) (s : state) : option (state * option ptr) :=
  match fuel with
  | O => None
  | S fuel' =>
    match q with
    | None => Some (s, None)
    | Some p =>
      if free_left =? 0 then Some (s, q)
      else if len (pbufs s p) <=? free_left then
        let free_left := u16 (free_left - len (pbufs s p)) in
        let n := next (pbufs s p) in
        match pbuf_free 1 (Some p) (update p (with_next None) s) with
        | None => None
        | Some (s, _) => pbuf_free_header fuel' n free_left s
        end
      else Some (fst (pbuf_remove_header p free_left s), q)
    end
  end.

(** ** Chains *)

(** The loop of [pbuf_realloc] up to the structure that holds the new end. *)
Fixpoint realloc_loop (fuel : nat) (q : ptr) (rem_len shrink : Z) (s : state) : option (state * ptr * Z) :=
  match fuel with
  | O => None
  | S fuel =>
    if len (pbufs s q) <? rem_len then
      let rem_len := u16 (rem_len - len (pbufs s q)) in
      let s := update q (fun b => with_tot_len (u16 (tot_len b - shrink)) b) s in
      match next (pbufs s q) with
      | None => None
      | Some n => realloc_loop fuel n rem_len shrink s
      end
    else Some (s, q, rem_len)
  end.

Definition pbuf_realloc (fuel : nat) (p : ptr) (new_len : Z) (s : state) : option state :=
  if tot_len (pbufs s p) <=? new_len then Some s
  else
    let shrink := u16 (tot_len (pbufs s p) - new_len) in
    match realloc_loop fuel p new_len shrink s with
    | None => None
    | Some (s, q, rem_len) =>
      let b := pbufs s q in
      let s :=
        if (Z.land (type_internal b) PBUF_TYPE_ALLOC_SRC_MASK =? 0) && negb (rem_len =? len b)
           && (Z.land (flags b) PBUF_FLAG_IS_CUSTOM =? 0) then
          match q with
          | InHeap o => set_heap (fst (mem_trim o (u16 (SIZEOF_STRUCT_PBUF + snd (payload b) + rem_len)) (mem_heap s))) s
          | _ => s
          end
        else s in
      let s := update q (with_lens (snd (payload b)) rem_len rem_len) s in
      match (match next (pbufs s q) with
             | None => Some (s, 0)
             | Some n => pbuf_free fuel (Some n) s
             end) with
      | None => None
      | Some (s, _) => Some (update q (with_next None) s)
      end
    end.

Fixpoint pbuf_clen (fuel : nat) (p : option ptr) (l : Z) (s : state) : option Z :=
  match p with
  | None => Some l
  | Some p => match fuel with
              | O => None
              | S fuel => pbuf_clen fuel (next (pbufs s p)) (u16 (l + 1)) s
              end
  end.

Definition pbuf_ref (p : option ptr) (s : state) : state :=
  match p with
  | None => s
  | Some p => update p (fun b => with_ref (u8 (ref b + 1)) b) s
  end.

(** The loop of [pbuf_cat] to the last structure of the head. *)
Fixpoint cat_loop (fuel : nat) (p : ptr) (t_len : Z) (s : state) : option (state * ptr) :=
  match fuel with
  | O => None
  | S fuel =>
    match next (pbufs s p) with
    | None => Some (s, p)
    | Some n => cat_loop fuel n t_len (update p (fun b => with_tot_len (u16 (tot_len b + t_len)) b) s)
    end
  end.

Definition pbuf_cat (fuel : nat) (h t : option ptr) (s : state) : option state :=
  match h, t with
  | Some h, Some t =>
    match cat_loop fuel h (tot_len (pbufs s t)) s with
    | None => None
    | Some (s, p) =>
      let s := update p (fun b => with_tot_len (u16 (tot_len b + tot_len (pbufs s t))) b) s in
      Some (update p (with_next (Some t)) s)
    end
  | _, _ => Some s
  end.

Definition pbuf_chain (fuel : nat) (h t : option ptr) (s : state) : option state :=
  match pbuf_cat fuel h t s with
  | None => None
  | Some s => Some (pbuf_ref t s)
  end.

Definition pbuf_dechain (fuel : nat) (p : ptr) (s : state) : option (state * option ptr) :=
  match next (pbufs s p) with
  | None => Some (s, None)
  | Some q =>
    let s := update q (with_tot_len (u16 (tot_len (pbufs s p) - len (pbufs s p)))) s in
    let s := update p (with_next None) s in
    let s := update p (fun b => with_tot_len (len b) b) s in
    match pbuf_free fuel (Some q) s with
    | None => None
    | Some (s, tail_gone) => Some (s, if 0 <? tail_gone then None else Some q)
    end
  end.

(** ** Data *)

(** The bytes copied; their number is the result. *)
Fixpoint copy_partial_loop (fuel : nat) (p : option ptr) (n offset : Z) (s : state) : option bytes :=
  match fuel with
  | O => None
  | S fuel =>
    match p with
    | None => Some []
    | Some p =>
      if n =? 0 then Some []
      else
        let b := pbufs s p in
        if negb (offset =? 0) && (len b <=? offset) then copy_partial_loop fuel (next b) n (u16 (offset - len b)) s
        else
          let buf_copy_len := Z.min (u16 (len b - offset)) n in
          match copy_partial_loop fuel (next b) (u16 (n - buf_copy_len)) 0 s with
          | None => None
          | Some d => Some (copy_out p offset buf_copy_len s ++ d)
          end
    end
  end.

Definition pbuf_copy_partial (fuel : nat) (buf : option ptr) (n offset : Z) (s : state) : option bytes :=
  match buf with
  | None => Some []
  | Some _ => copy_partial_loop fuel buf n offset s
  end.

Fixpoint pbuf_skip_const (fuel : nat) (q : option ptr) (offset_left : Z) (s : state) : option (option ptr * Z) :=
  match fuel with
  | O => None
  | S fuel =>
    match q with
    | None => Some (None, offset_left)
    | Some p => if len (pbufs s p) <=? offset_left
                then pbuf_skip_const fuel (next (pbufs s p)) (u16 (offset_left - len (pbufs s p))) s
                else Some (Some p, offset_left)
    end
  end.

Definition pbuf_skip (fuel : nat) (q : option ptr) (in_offset : Z) (s : state) : option (option ptr * Z) :=
  pbuf_skip_const fuel q in_offset s.

Fixpoint take_loop (fuel : nat) (p : option ptr) (d : bytes) (s : state) : option state :=
  match d with
  | [] => Some s
  | _ =>
    match fuel, p with
    | S fuel, Some p =>
      let buf_copy_len := Z.to_nat (Z.min (Z.of_nat (length d)) (len (pbufs s p))) in
      take_loop fuel (next (pbufs s p)) (drop buf_copy_len d) (copy_in p 0 (take buf_copy_len d) s)
    | _, _ => None
    end
  end.

Definition pbuf_take (fuel : nat) (buf : option ptr) (dataptr : option bytes) (s : state) : option (state * err_t) :=
  match buf, dataptr with
  | Some p, Some d =>
    if tot_len (pbufs s p) <? Z.of_nat (length d) then Some (s, ERR_MEM)
    else match take_loop fuel buf d s with
         | None => None
         | Some s => Some (s, ERR_OK)
         end
  | _, _ => Some (s, ERR_ARG)
  end.

Definition pbuf_take_at (fuel : nat) (buf : option ptr) (d : bytes) (offset : Z) (s : state) : option (state * err_t) :=
  match pbuf_skip fuel buf offset s with
  | None => None
  | Some (None, _) => Some (s, ERR_MEM)
  | Some (Some q, target_offset) =>
    if target_offset + Z.of_nat (length d) <=? tot_len (pbufs s q) then
      let first_copy_len := Z.to_nat (u16 (Z.min (len (pbufs s q) - target_offset) (Z.of_nat (length d)))) in
      let s := copy_in q target_offset (take first_copy_len d) s in
      match drop first_copy_len d with
      | [] => Some (s, ERR_OK)
      | rest => pbuf_take fuel (next (pbufs s q)) (Some rest) s
      end
    else Some (s, ERR_MEM)
  end.

(** [None] is [-1]. *)
Definition pbuf_try_get_at (fuel : nat) (p : option ptr) (offset : Z) (s : state) : option (option Z) :=
  match pbuf_skip_const fuel p offset s with
  | None => None
  | Some (Some q, q_idx) => if q_idx <? len (pbufs s q) then Some (head (copy_out q q_idx 1 s)) else Some None
  | Some (None, _) => Some None
  end.

Definition pbuf_get_at (fuel : nat) (p : option ptr) (offset : Z) (s : state) : option Z :=
  match pbuf_try_get_at fuel p offset s with
  | None => None
  | Some r => Some (default 0 r)
  end.

Definition pbuf_put_at (fuel : nat) (p : option ptr) (offset data : Z) (s : state) : option state :=
  match pbuf_skip fuel p offset s with
  | None => None
  | Some (Some q, q_idx) => if q_idx <? len (pbufs s q) then Some (copy_in q q_idx [data] s) else Some s
  | Some (None, _) => Some s
  end.

Fixpoint memcmp_loop (fuel : nat) (q : option ptr) (start i : Z) (s2 : bytes) (s : state) : option Z :=
  match s2 with
  | [] => Some 0
  | b :: s2 =>
    match pbuf_get_at fuel q (u16 (start + i)) s with
    | None => None
    | Some a => if a =? b then memcmp_loop fuel q start (i + 1) s2 s else Some (u16 (Z.min (i + 1) 0xFFFF))
    end
  end.

Definition pbuf_memcmp (fuel : nat) (p : ptr) (offset : Z) (s2 : bytes) (s : state) : option Z :=
  if tot_len (pbufs s p) <? offset + Z.of_nat (length s2) then Some 0xFFFF
  else match pbuf_skip_const fuel (Some p) offset s with
       | None => None
       | Some (q, start) => memcmp_loop fuel q start 0 s2 s
       end.

(** [n] is the number of turns left, [max_cmp_start - i + 1]. *)
Fixpoint memfind_loop (n fuel : nat) (p : ptr) (mem : bytes) (i : Z) (s : state) : option Z :=
  match n with
  | O => Some 0xFFFF
  | S n => match pbuf_memcmp fuel p i mem s with
           | None => None
           | Some plus => if plus =? 0 then Some i else memfind_loop n fuel p mem (i + 1) s
           end
  end.

Definition pbuf_memfind (fuel : nat) (p : ptr) (mem : bytes) (start_offset : Z) (s : state) : option Z :=
  let max_cmp_start := u16 (tot_len (pbufs s p) - Z.of_nat (length mem)) in
  if Z.of_nat (length mem) + start_offset <=? tot_len (pbufs s p)
  then memfind_loop (Z.to_nat (max_cmp_start - start_offset + 1)) fuel p mem start_offset s
  else Some 0xFFFF.

(** ** Packets *)

Definition place_of (s : state) (p : ptr) : place := fst (payload (pbufs s p)).
Definition slice (s : state) (p : ptr) : bytes := copy_out p 0 (len (pbufs s p)) s.
Definition data (s : state) (ps : list ptr) : bytes := concat (slice s <$> ps).
Definition lens (s : state) (ps : list ptr) : Z := foldr (fun p t => len (pbufs s p) + t) 0 ps.

(** The payload is inside its memory. *)
Definition node_ok (s : state) (p : ptr) : Prop :=
  0 <= snd (payload (pbufs s p)) /\ 0 <= len (pbufs s p) /\
  snd (payload (pbufs s p)) + len (pbufs s p) <= Z.of_nat (length (memory s (place_of s p))).

(** From [p] the structures [ps] are linked, each with the length of the rest. *)
Fixpoint linked (s : state) (p : option ptr) (ps : list ptr) : Prop :=
  match ps with
  | [] => p = None
  | q :: ps => p = Some q /\ node_ok s q /\ tot_len (pbufs s q) = len (pbufs s q) + lens s ps /\ linked s (next (pbufs s q)) ps
  end.

Record packet (s : state) (p : option ptr) (ps : list ptr) : Prop := Packet {
  pk_linked : linked s p ps;
  pk_size : is_u16 (lens s ps);
  pk_nodup : NoDup ps;
  pk_places : NoDup (place_of s <$> ps)
}.

Lemma slice_length s p : node_ok s p -> Z.of_nat (length (slice s p)) = len (pbufs s p).
Proof.
  unfold node_ok, place_of, slice, copy_out. destruct (payload (pbufs s p)) as [m o]. cbn [fst snd]. intros (Ho & Hl & Hb).
  rewrite length_take, length_drop. lia.
Qed.

Lemma linked_nodes s p ps : linked s p ps -> Forall (node_ok s) ps.
Proof. revert p. induction ps as [|q ps IH]; intros p; [constructor|]. intros (_ & Hq & _ & Hn). constructor; [done|]. by eapply IH. Qed.

Lemma data_cons s p ps : data s (p :: ps) = slice s p ++ data s ps.
Proof. done. Qed.

Lemma data_app s ps qs : data s (ps ++ qs) = data s ps ++ data s qs.
Proof. unfold data. by rewrite fmap_app, concat_app. Qed.

Lemma lens_cons s p ps : lens s (p :: ps) = len (pbufs s p) + lens s ps.
Proof. done. Qed.

Lemma lens_app s ps qs : lens s (ps ++ qs) = lens s ps + lens s qs.
Proof. unfold lens. induction ps as [|p ps IH]; cbn [app foldr]; [done|]. rewrite IH. lia. Qed.

Lemma data_length s ps : Forall (node_ok s) ps -> Z.of_nat (length (data s ps)) = lens s ps.
Proof.
  induction 1 as [|p ps Hp Hps IH]; [done|]. rewrite data_cons, length_app, Nat2Z.inj_add, slice_length, IH by done. done.
Qed.

Lemma lens_nonneg s ps : Forall (node_ok s) ps -> 0 <= lens s ps.
Proof. intros H. rewrite <- data_length by done. lia. Qed.

Lemma copy_out_slice s p o n : node_ok s p -> 0 <= o -> 0 <= n -> o + n <= len (pbufs s p) ->
  copy_out p o n s = take (Z.to_nat n) (drop (Z.to_nat o) (slice s p)).
Proof.
  unfold node_ok, place_of, slice, copy_out. destruct (payload (pbufs s p)) as [m b]. cbn [fst snd]. intros (Hb & Hl & Hm) Ho Hn Hon.
  rewrite skipn_firstn_comm, drop_drop, take_take.
  replace (Z.to_nat n `min` (Z.to_nat (len (pbufs s p)) - Z.to_nat o))%nat with (Z.to_nat n) by lia.
  by replace (Z.to_nat (b + 0) + Z.to_nat o)%nat with (Z.to_nat (b + o)) by lia.
Qed.

(** ** Reading *)

Lemma copy_partial_spec s fuel p ps n o :
  linked s p ps -> is_u16 (lens s ps) -> is_u16 n -> is_u16 o -> (length ps < fuel)%nat ->
  copy_partial_loop fuel p n o s = Some (take (Z.to_nat n) (drop (Z.to_nat o) (data s ps))).
Proof.
  unfold is_u16. revert p ps n o. induction fuel as [|fuel IH]; intros p ps n o Hl Hs Hn Ho Hf; [lia|]. cbn [copy_partial_loop].
  destruct ps as [|q ps]; cbn [linked] in Hl.
  { rewrite Hl. cbn. by rewrite drop_nil, take_nil. }
  destruct Hl as (-> & Hq & _ & Hl). pose proof (linked_nodes _ _ _ Hl) as Hns. pose proof (lens_nonneg _ _ Hns) as Hn0.
  pose proof (slice_length _ _ Hq) as Hsl. pose proof Hq as (_ & Hq0 & _). rewrite lens_cons in Hs. cbn [length] in Hf.
  destruct (Z.eqb_spec n 0) as [->|Hn1]; [done|]. rewrite data_cons.
  destruct (negb (o =? 0) && (len (pbufs s q) <=? o)) eqn:E.
  - apply andb_true_iff in E as [_ E]. apply Z.leb_le in E. rewrite u16_small by lia. rewrite (IH _ ps) by (done || lia).
    rewrite drop_app_ge by lia. by replace (Z.to_nat o - length (slice s q))%nat with (Z.to_nat (o - len (pbufs s q))) by lia.
  - assert (Hlt : o <= len (pbufs s q)) by (apply andb_false_iff in E as [E|E]; [apply negb_false_iff, Z.eqb_eq in E|apply Z.leb_gt in E]; lia).
    rewrite (u16_small (len (pbufs s q) - o)) by lia.
    rewrite u16_small by lia. rewrite (IH _ ps) by (done || lia). f_equal.
    rewrite copy_out_slice by (done || lia). rewrite drop_app_le by lia.
    destruct (Z.min_spec (len (pbufs s q) - o) n) as [[Hlt' ->]|[Hge ->]].
    + rewrite (take_ge (drop (Z.to_nat o) (slice s q)) (Z.to_nat (len (pbufs s q) - o))) by (rewrite length_drop; lia).
      rewrite take_app_ge by (rewrite length_drop; lia). rewrite length_drop. cbn [Z.to_nat drop].
      by replace (Z.to_nat n - (length (slice s q) - Z.to_nat o))%nat with (Z.to_nat (n - (len (pbufs s q) - o))) by lia.
    + rewrite Z.sub_diag. cbn [Z.to_nat take]. rewrite app_nil_r. rewrite take_app_le by (rewrite length_drop; lia). done.
Qed.

(** Where an offset lies in a packet. *)
Lemma skip_spec s fuel p ps o :
  linked s p ps -> is_u16 (lens s ps) -> is_u16 o -> (length ps < fuel)%nat ->
  if o <? lens s ps then
    exists ps1 q ps2 o', ps = ps1 ++ q :: ps2 /\ pbuf_skip_const fuel p o s = Some (Some q, o') /\
      o = lens s ps1 + o' /\ 0 <= o' < len (pbufs s q)
  else pbuf_skip_const fuel p o s = Some (None, o - lens s ps).
Proof.
  unfold is_u16. revert p ps o. induction fuel as [|fuel IH]; intros p ps o Hl Hs Ho Hf; [lia|]. cbn [pbuf_skip_const].
  destruct ps as [|q ps]; cbn [linked] in Hl.
  { rewrite Hl. cbn. rewrite (proj2 (Z.ltb_ge _ _)) by lia. by rewrite Z.sub_0_r. }
  destruct Hl as (-> & Hq & _ & Hl). pose proof (linked_nodes _ _ _ Hl) as Hns. pose proof (lens_nonneg _ _ Hns) as Hn0.
  pose proof Hq as (_ & Hq0 & _). rewrite lens_cons in *. cbn [length] in Hf.
  destruct (Z.leb_spec (len (pbufs s q)) o) as [Hle|Hgt].
  - rewrite u16_small by lia. specialize (IH _ ps (o - len (pbufs s q)) Hl ltac:(lia) ltac:(lia) ltac:(lia)).
    destruct (Z.ltb_spec (o - len (pbufs s q)) (lens s ps)), (Z.ltb_spec o (len (pbufs s q) + lens s ps)); try lia.
    + destruct IH as (ps1 & q' & ps2 & o' & -> & E & Eo & Hr). exists (q :: ps1), q', ps2, o'. rewrite lens_cons.
      split; [done|]. split; [done|]. lia.
    + rewrite IH. do 2 f_equal. lia.
  - rewrite (proj2 (Z.ltb_lt _ _)) by lia. exists [], q, ps, o. cbn. split; [done|]. split; [done|]. lia.
Qed.

Lemma try_get_spec s fuel p ps o :
  linked s p ps -> is_u16 (lens s ps) -> is_u16 o -> (length ps < fuel)%nat ->
  pbuf_try_get_at fuel p o s = Some (data s ps !! Z.to_nat o).
Proof.
  intros Hl Hs Ho Hf. pose proof (skip_spec s fuel p ps o Hl Hs Ho Hf) as Hk. pose proof (linked_nodes _ _ _ Hl) as Hns.
  unfold pbuf_try_get_at. pose proof (data_length s ps Hns) as Hdl. unfold is_u16 in Ho.
  destruct (Z.ltb_spec o (lens s ps)) as [Hlt|Hge].
  - destruct Hk as (ps1 & q & ps2 & o' & -> & -> & -> & Hr). apply Forall_app in Hns as [Hn1 [Hq Hn2]%list.Forall_cons].
    pose proof (lens_nonneg _ _ Hn1). pose proof (data_length _ _ Hn1) as Hd1. pose proof (slice_length _ _ Hq) as Hsl.
    rewrite (proj2 (Z.ltb_lt _ _)) by lia. f_equal. rewrite copy_out_slice by (done || lia).
    rewrite data_app, data_cons, lookup_app_r by lia. rewrite lookup_app_l by lia.
    replace (Z.to_nat (lens s ps1 + o') - length (data s ps1))%nat with (Z.to_nat o') by lia.
    destruct (drop (Z.to_nat o') (slice s q)) as [|x d] eqn:Ed.
    + apply (f_equal length) in Ed. rewrite length_drop in Ed. cbn in Ed. lia.
    + cbn. rewrite <- (Nat.add_0_r (Z.to_nat o')), <- lookup_drop, Ed. done.
  - rewrite Hk. f_equal. symmetry. apply lookup_ge_None. lia.
Qed.

Lemma get_spec s fuel p ps o :
  linked s p ps -> is_u16 (lens s ps) -> is_u16 o -> (length ps < fuel)%nat ->
  pbuf_get_at fuel p o s = Some (nth (Z.to_nat o) (data s ps) 0).
Proof.
  intros Hl Hs Ho Hf. unfold pbuf_get_at. rewrite (try_get_spec s fuel p ps o) by done. f_equal.
  by rewrite nth_lookup.
Qed.

(** ** Comparing and searching *)

(** The bytes [m] lie at an offset. *)
Definition found_at (s : state) (ps : list ptr) (m : bytes) (o : Z) : Prop :=
  o + Z.of_nat (length m) <= lens s ps /\ take (length m) (drop (Z.to_nat o) (data s ps)) = m.

Lemma linked_suffix s p ps1 q ps2 : linked s p (ps1 ++ q :: ps2) -> linked s (Some q) (q :: ps2).
Proof.
  revert p. induction ps1 as [|x ps1 IH]; intros p; cbn [app linked].
  - intros (_ & H). by split.
  - intros (_ & _ & _ & H). exact (IH _ H).
Qed.

Lemma memcmp_loop_spec s fuel p ps start m i :
  linked s p ps -> is_u16 (lens s ps) -> 0 <= start -> 0 <= i -> start + i + Z.of_nat (length m) <= lens s ps ->
  (length ps < fuel)%nat ->
  exists r, memcmp_loop fuel p start i m s = Some r /\
    (r = 0 <-> take (length m) (drop (Z.to_nat (start + i)) (data s ps)) = m).
Proof.
  intros Hl Hs Hst Hi. revert i Hi. induction m as [|b m IH]; intros i Hi Hb Hf; [by exists 0|]. cbn [memcmp_loop length] in *.
  pose proof (data_length s ps (linked_nodes _ _ _ Hl)) as Hdl. unfold is_u16 in Hs.
  rewrite u16_small by lia. rewrite (get_spec s fuel p ps) by (done || unfold is_u16; lia).
  assert (Hd : drop (Z.to_nat (start + i)) (data s ps)
             = nth (Z.to_nat (start + i)) (data s ps) 0 :: drop (Z.to_nat (start + (i + 1))) (data s ps)).
  { replace (Z.to_nat (start + (i + 1))) with (S (Z.to_nat (start + i))) by lia.
    destruct (lookup_lt_is_Some_2 (data s ps) (Z.to_nat (start + i))) as [x Hx]; [lia|].
    rewrite (drop_S _ _ _ Hx), nth_lookup, Hx. done. }
  rewrite Hd. cbn [take]. destruct (Z.eqb_spec (nth (Z.to_nat (start + i)) (data s ps) 0) b) as [->|Hne].
  - destruct (IH (i + 1)) as (r & -> & Hr); [lia|lia|lia|]. exists r. split; [done|]. rewrite Hr. split; [by intros ->|]. by intros [= ->].
  - eexists. split; [done|]. rewrite u16_small by lia. split; [lia|]. intros [= E _]. done.
Qed.

Lemma memcmp_spec s fuel p ps o m :
  packet s (Some p) ps -> is_u16 o -> (length ps < fuel)%nat ->
  exists r, pbuf_memcmp fuel p o m s = Some r /\ (r = 0 <-> found_at s ps m o).
Proof.
  intros [Hl Hs _ _] Ho Hf. unfold pbuf_memcmp, found_at. pose proof Hl as Hl'. destruct ps as [|q ps]; [done|].
  destruct Hl' as ([= <-] & _ & -> & _). rewrite <- lens_cons.
  destruct (Z.ltb_spec (lens s (p :: ps)) (o + Z.of_nat (length m))) as [Hlt|Hle]; [exists 0xFFFF; split; [done|]; split; [done|lia]|].
  pose proof (skip_spec s fuel _ _ o Hl Hs Ho Hf) as Hk. unfold is_u16 in Ho.
  destruct (Z.ltb_spec o (lens s (p :: ps))) as [Hin|Hout].
  - destruct Hk as (ps1 & q & ps2 & o' & E & -> & -> & Hr). rewrite E in *. pose proof (linked_suffix _ _ _ _ _ Hl) as Hl2.
    pose proof (linked_nodes _ _ _ Hl) as Hns. apply Forall_app in Hns as [Hn1 _]. pose proof (lens_nonneg _ _ Hn1).
    pose proof (data_length _ _ Hn1) as Hd1. rewrite lens_app in Hs, Hle. rewrite length_app in Hf. cbn [length] in Hf.
    unfold is_u16 in Hs. destruct (memcmp_loop_spec s fuel (Some q) (q :: ps2) o' m 0 Hl2) as (r & -> & Hr0); try (unfold is_u16; cbn [length]; lia).
    exists r. split; [done|]. rewrite Hr0, lens_app, data_app, drop_app_ge by lia. rewrite Z.add_0_r.
    replace (Z.to_nat (lens s ps1 + o') - length (data s ps1))%nat with (Z.to_nat o') by lia. split; [intros ->; split; [lia|done]|by intros [_ ->]].
  - rewrite Hk. assert (m = []) as -> by (destruct m; [done|cbn [length] in Hle; lia]). exists 0. cbn [length] in *.
    split; [done|]. split; [|done]. intros _. split; [lia|done].
Qed.

Lemma memfind_loop_spec n s fuel p ps m i :
  packet s (Some p) ps -> 0 <= i -> i + Z.of_nat n + Z.of_nat (length m) = lens s ps + 1 -> (length ps < fuel)%nat ->
  exists r, memfind_loop n fuel p m i s = Some r /\
    ((i <= r /\ found_at s ps m r /\ forall j, i <= j < r -> ~ found_at s ps m j) \/
     (r = 0xFFFF /\ forall j, i <= j -> ~ found_at s ps m j)).
Proof.
  intros Hp. revert i. induction n as [|n IH]; intros i Hi Hn Hf; cbn [memfind_loop].
  - exists 0xFFFF. split; [done|]. right. split; [done|]. intros j Hj [Hb _]. lia.
  - pose proof (pk_size _ _ _ Hp) as Hs. unfold is_u16 in Hs.
    destruct (memcmp_spec s fuel p ps i m Hp) as (c & -> & Hc); [unfold is_u16; lia|done|].
    destruct (Z.eqb_spec c 0) as [E|E].
    + exists i. split; [done|]. left. split; [lia|]. split; [by apply Hc|]. intros j Hj. lia.
    + assert (Hno : ~ found_at s ps m i) by (by rewrite <- Hc).
      destruct (IH (i + 1)) as (r & -> & Hr); [lia|lia|done|]. exists r. split; [done|].
      destruct Hr as [(Hle & Hfd & Hj)|(-> & Hj)]; [left|right].
      * split; [lia|]. split; [done|]. intros j Hj'. destruct (decide (j = i)) as [->|]; [done|]. apply Hj. lia.
      * split; [done|]. intros j Hj'. destruct (decide (j = i)) as [->|]; [done|]. apply Hj. lia.
Qed.

Lemma memfind_spec s fuel p ps m o :
  packet s (Some p) ps -> is_u16 o -> (length ps < fuel)%nat ->
  exists r, pbuf_memfind fuel p m o s = Some r /\
    ((o <= r /\ found_at s ps m r /\ forall j, o <= j < r -> ~ found_at s ps m j) \/
     (r = 0xFFFF /\ forall j, o <= j -> ~ found_at s ps m j)).
Proof.
  intros Hp Ho Hf. unfold pbuf_memfind. pose proof (pk_size _ _ _ Hp) as Hs. unfold is_u16 in *.
  pose proof (pk_linked _ _ _ Hp) as Hl. assert (Et : tot_len (pbufs s p) = lens s ps).
  { destruct ps as [|q ps]; [done|]. by destruct Hl as ([= <-] & _ & -> & _). }
  rewrite Et. destruct (Z.leb_spec (Z.of_nat (length m) + o) (lens s ps)) as [Hle|Hgt].
  - rewrite u16_small by lia. apply memfind_loop_spec; try done; lia.
  - exists 0xFFFF. split; [done|]. right. split; [done|]. intros j Hj [Hb _]. lia.
Qed.

(** ** Writing *)

(** All but the contents of memory is the same. *)
Definition same_shape (s s' : state) : Prop :=
  s' = set_memory (memory s') s /\ forall m, length (memory s' m) = length (memory s m).

Lemma same_shape_pbufs s s' : same_shape s s' -> pbufs s' = pbufs s.
Proof. by intros [-> _]. Qed.

Lemma same_shape_linked s s' p ps : same_shape s s' -> linked s p ps -> linked s' p ps.
Proof.
  intros H. pose proof (same_shape_pbufs _ _ H) as Hp. destruct H as [_ Hm]. revert p.
  induction ps as [|q ps IH]; intros p; cbn [linked]; [done|].
  unfold node_ok, place_of, lens. rewrite Hp, Hm. intros (? & ? & ? & ?). split; [done|]. split; [done|]. split; [done|]. by apply IH.
Qed.

Lemma same_shape_packet s s' p ps : same_shape s s' -> packet s p ps -> packet s' p ps.
Proof.
  intros H [Hl Hs Hn Hp]. constructor; [by eapply same_shape_linked| |done|];
    apply same_shape_pbufs in H; unfold lens, place_of; by rewrite H.
Qed.

Lemma same_shape_trans s1 s2 s3 : same_shape s1 s2 -> same_shape s2 s3 -> same_shape s1 s3.
Proof. intros [H1 H2] [H3 H4]. split; [by rewrite H3, H1|]. intros m. by rewrite H4, H2. Qed.

Lemma splice_length o d b : (o + length d <= length b)%nat -> length (splice o d b) = length b.
Proof. intros. unfold splice. rewrite !length_app, length_take, length_drop. lia. Qed.

Lemma splice_app_r a b o d : splice (length a + o) d (a ++ b) = a ++ splice o d b.
Proof.
  unfold splice. rewrite take_app_add, <- Nat.add_assoc, drop_app_add. by rewrite <- app_assoc.
Qed.

Lemma splice_app_l a b o d : (o + length d <= length a)%nat -> splice o d (a ++ b) = splice o d a ++ b.
Proof. intros. unfold splice. rewrite take_app_le, drop_app_le by lia. by rewrite <- !app_assoc. Qed.

Lemma splice_slice (b : bytes) base n o d :
  (base + n <= length b)%nat -> (o + length d <= n)%nat ->
  take n (drop base (splice (base + o) d b)) = splice o d (take n (drop base b)).
Proof.
  intros Hb Ho. assert (E : b = take base b ++ take n (drop base b) ++ drop n (drop base b)) by (by rewrite !take_drop).
  rewrite E at 1. set (x := take base b). set (y := take n (drop base b)). set (z := drop n (drop base b)).
  assert (Hx : length x = base) by (subst x; rewrite length_take; lia).
  assert (Hy : length y = n) by (subst y; rewrite length_take, length_drop; lia).
  rewrite <- Hx at 2. rewrite splice_app_r, splice_app_l by lia. rewrite drop_app_length' by done.
  rewrite take_app_length' by (rewrite splice_length; lia). done.
Qed.

Lemma copy_in_shape s p o d : node_ok s p -> 0 <= o -> o + Z.of_nat (length d) <= len (pbufs s p) ->
  same_shape s (copy_in p o d s) /\ (forall m, m <> place_of s p -> memory (copy_in p o d s) m = memory s m).
Proof.
  unfold node_ok, place_of, copy_in. destruct (payload (pbufs s p)) as [m b]. cbn [fst snd]. intros (Hb & Hl & Hm) Ho Hd.
  split; [split; [done|]|]; intros m'; cbn.
  - destruct (decide (m' = m)) as [->|Hne]; [rewrite fn_lookup_insert; apply splice_length; lia|by rewrite fn_lookup_insert_ne by congruence].
  - intros Hne. by rewrite fn_lookup_insert_ne by congruence.
Qed.

Lemma copy_in_slice s p o d : node_ok s p -> 0 <= o -> o + Z.of_nat (length d) <= len (pbufs s p) ->
  slice (copy_in p o d s) p = splice (Z.to_nat o) d (slice s p).
Proof.
  unfold node_ok, place_of, slice, copy_in, copy_out. destruct (payload (pbufs s p)) as [m b] eqn:E. cbn [fst snd pbufs set_memory memory].
  rewrite E. intros (Hb & Hl & Hm) Ho Hd. rewrite fn_lookup_insert.
  replace (Z.to_nat (b + o)) with (Z.to_nat (b + 0) + Z.to_nat o)%nat by lia. apply splice_slice; lia.
Qed.

Lemma slice_other s s' p : pbufs s' = pbufs s -> memory s' (place_of s p) = memory s (place_of s p) -> slice s' p = slice s p.
Proof. unfold slice, copy_out, place_of. intros ->. destruct (payload (pbufs s p)) as [m b]. cbn. by intros ->. Qed.

Lemma data_other s s' ps : pbufs s' = pbufs s ->
  (forall m, m ∈ place_of s <$> ps -> memory s' m = memory s m) -> data s' ps = data s ps.
Proof.
  intros Hp Hm. unfold data. f_equal. apply list_fmap_ext. intros i p Hi. apply slice_other; [done|]. apply Hm.
  apply list_elem_of_fmap_2. by apply list_elem_of_lookup_2 in Hi.
Qed.

Lemma same_shape_refl s : same_shape s s.
Proof. split; [by destruct s|done]. Qed.

Lemma splice_nil o b : (o <= length b)%nat -> splice o [] b = b.
Proof. intros. unfold splice. cbn. rewrite Nat.add_0_r. apply take_drop. Qed.

(** Writing bytes over a chain. *)
Lemma take_loop_spec ps : forall s p d fuel,
  linked s p ps -> NoDup (place_of s <$> ps) -> Z.of_nat (length d) <= lens s ps -> (length ps <= fuel)%nat ->
  exists s', take_loop fuel p d s = Some s' /\ same_shape s s' /\
    (forall m, m ∉ place_of s <$> ps -> memory s' m = memory s m) /\ data s' ps = splice 0 d (data s ps).
Proof.
  induction ps as [|q ps IH]; intros s p d fuel Hl Hnd Hd Hf.
  { cbn in Hd. destruct d; [|cbn in Hd; lia]. exists s. destruct fuel; (split; [done|]); (split; [apply same_shape_refl|]); done. }
  destruct (decide (d = [])) as [->|Hne].
  { exists s. split; [by destruct fuel|]. split; [apply same_shape_refl|]. split; [done|]. rewrite splice_nil by lia. done. }
  cbn [linked] in Hl. destruct Hl as (-> & Hq & _ & Hl). pose proof (linked_nodes _ _ _ Hl) as Hns. pose proof (slice_length _ _ Hq) as Hsl.
  rewrite lens_cons in Hd. cbn [length] in Hf. destruct fuel as [|fuel]; [lia|]. pose proof Hq as (_ & Hq0 & _).
  cbn in Hnd. apply list.NoDup_cons in Hnd as [Hnq Hnd].
  set (k := Z.to_nat (Z.min (Z.of_nat (length d)) (len (pbufs s q)))).
  assert (Hkz : Z.of_nat k = Z.min (Z.of_nat (length d)) (len (pbufs s q))) by (subst k; lia).
  assert (Hk : length (take k d) = k) by (rewrite length_take; lia).
  destruct (copy_in_shape s q 0 (take k d) Hq) as [Hsh Hoth]; [lia|rewrite Hk; lia|].
  pose proof (copy_in_slice s q 0 (take k d) Hq ltac:(lia) ltac:(rewrite Hk; lia)) as Hsli.
  set (s1 := copy_in q 0 (take k d) s) in *. pose proof (same_shape_pbufs _ _ Hsh) as Hpb.
  destruct (IH s1 (next (pbufs s q)) (drop k d) fuel) as (s' & Et & Hsh' & Hoth' & Hda).
  { by eapply same_shape_linked. }
  { unfold place_of. by rewrite Hpb. }
  { assert (lens s1 ps = lens s ps) as -> by (unfold lens; by rewrite Hpb).
    pose proof (lens_nonneg _ _ Hns). rewrite length_drop. lia. }
  { lia. }
  assert (Epl : (place_of s1 <$> ps) = (place_of s <$> ps)) by (unfold place_of; by rewrite Hpb).
  rewrite Epl in Hoth'. exists s'. split; [|split; [|split]].
  - destruct d; [done|]. exact Et.
  - by eapply same_shape_trans.
  - intros m [Hm1 Hm2]%not_elem_of_cons. rewrite Hoth', Hoth by done. done.
  - rewrite data_cons. rewrite (slice_other s1 s'); [|by apply same_shape_pbufs|apply Hoth'; unfold place_of; by rewrite Hpb].
    rewrite Hsli, Hda, (data_other s s1 ps Hpb); [|intros m Hm; apply Hoth; intros Em; apply Hnq; by rewrite <- Em].
    rewrite data_cons.
    unfold splice. change (Z.to_nat 0) with 0%nat. rewrite !take_0, !Nat.add_0_l, !app_nil_l, Hk, length_drop.
    destruct (Z.min_spec (Z.of_nat (length d)) (len (pbufs s q))) as [[Hlt E]|[Hge E]].
    + assert (Ek : k = length d) by (subst k; rewrite E; lia). rewrite (take_ge d k), (drop_ge d k) by lia.
      rewrite Ek, Nat.sub_diag, drop_0, app_nil_l. rewrite drop_app_le by lia. by rewrite <- app_assoc.
    + assert (Ek : k = length (slice s q)) by (subst k; rewrite E; lia). rewrite (drop_ge (slice s q)) by lia.
      rewrite app_nil_r, app_assoc, take_drop. rewrite drop_app_ge by lia. by rewrite Ek.
Qed.

Lemma take_spec s fuel p ps d :
  packet s (Some p) ps -> (length ps <= fuel)%nat ->
  if lens s ps <? Z.of_nat (length d) then pbuf_take fuel (Some p) (Some d) s = Some (s, ERR_MEM)
  else exists s', pbuf_take fuel (Some p) (Some d) s = Some (s', ERR_OK) /\ same_shape s s' /\
    (forall m, m ∉ place_of s <$> ps -> memory s' m = memory s m) /\ data s' ps = splice 0 d (data s ps).
Proof.
  intros [Hl Hs Hn Hp] Hf. unfold pbuf_take. assert (Et : tot_len (pbufs s p) = lens s ps).
  { destruct ps as [|q ps]; [done|]. by destruct Hl as ([= <-] & _ & -> & _). }
  rewrite Et. destruct (Z.ltb_spec (lens s ps) (Z.of_nat (length d))); [done|].
  destruct (take_loop_spec ps s (Some p) d fuel) as (s' & -> & H'); [done..|]. by exists s'.
Qed.

Lemma splice_split o k d (x y : bytes) : (o + k = length x)%nat -> (k <= length d)%nat ->
  splice o d (x ++ y) = splice o (take k d) x ++ splice 0 (drop k d) y.
Proof.
  intros Hx Hd. unfold splice. rewrite length_take, length_drop, take_0, app_nil_l, Nat.add_0_l.
  rewrite (take_app_le x y) by lia. rewrite (drop_ge x) by lia. rewrite app_nil_r, drop_app_ge by lia. rewrite <- app_assoc. f_equal.
  rewrite app_assoc, take_drop. do 2 f_equal. lia.
Qed.

(** A part of a packet is written. *)
Lemma copy_in_data s p ps1 q ps2 o d :
  packet s p (ps1 ++ q :: ps2) -> 0 <= o -> o + Z.of_nat (length d) <= len (pbufs s q) ->
  data (copy_in q o d s) (ps1 ++ q :: ps2) = data s ps1 ++ splice (Z.to_nat o) d (slice s q) ++ data s ps2.
Proof.
  intros [Hl _ _ Hpl] Ho Hd. pose proof (linked_nodes _ _ _ Hl) as Hns. apply Forall_app in Hns as [Hn1 [Hq Hn2]%list.Forall_cons].
  destruct (copy_in_shape s q o d Hq Ho Hd) as [Hsh Hoth]. pose proof (same_shape_pbufs _ _ Hsh) as Hpb.
  rewrite data_app, data_cons, (copy_in_slice s q o d Hq Ho Hd).
  rewrite fmap_app, fmap_cons in Hpl. apply list.NoDup_app in Hpl as (_ & Hd1 & [Hd2 _]%list.NoDup_cons).
  rewrite !(data_other s (copy_in q o d s)); [done|done| |done|].
  - intros m Hm. apply Hoth. intros ->. done.
  - intros m Hm. apply Hoth. intros ->. apply (Hd1 _ Hm). left.
Qed.

Lemma put_spec s fuel p ps o b :
  packet s (Some p) ps -> is_u16 o -> (length ps < fuel)%nat ->
  exists s', pbuf_put_at fuel (Some p) o b s = Some s' /\ same_shape s s' /\
    data s' ps = if o <? lens s ps then splice (Z.to_nat o) [b] (data s ps) else data s ps.
Proof.
  intros Hp Ho Hf. pose proof Hp as [Hl Hs _ _]. pose proof (skip_spec s fuel _ _ o Hl Hs Ho Hf) as Hk.
  unfold pbuf_put_at, pbuf_skip. unfold is_u16 in Ho. destruct (Z.ltb_spec o (lens s ps)) as [Hlt|Hge].
  - destruct Hk as (ps1 & q & ps2 & o' & -> & -> & -> & Hr). rewrite (proj2 (Z.ltb_lt _ _)) by lia. eexists. split; [done|].
    pose proof (linked_nodes _ _ _ Hl) as Hns. apply Forall_app in Hns as [Hn1 [Hq Hn2]%list.Forall_cons].
    pose proof (data_length _ _ Hn1) as Hd1. pose proof (slice_length _ _ Hq) as Hsl. pose proof (lens_nonneg _ _ Hn1).
    destruct (copy_in_shape s q o' [b] Hq) as [Hsh _]; [lia|cbn; lia|]. split; [done|].
    rewrite (copy_in_data _ _ _ _ _ _ _ Hp) by (cbn; lia). rewrite data_app, data_cons.
    replace (Z.to_nat (lens s ps1 + o')) with (length (data s ps1) + Z.to_nat o')%nat by lia.
    rewrite splice_app_r, splice_app_l by (cbn; lia). done.
  - rewrite Hk. exists s. split; [done|]. by split; [apply same_shape_refl|].
Qed.

(** What is left of the data goes to the structures behind [q]. *)
Lemma take_rest s fuel p ps1 q ps2 d :
  packet s p (ps1 ++ q :: ps2) -> (length ps2 <= fuel)%nat -> d <> [] -> Z.of_nat (length d) <= lens s ps2 ->
  exists s', pbuf_take fuel (next (pbufs s q)) (Some d) s = Some (s', ERR_OK) /\ same_shape s s' /\
    data s' (ps1 ++ q :: ps2) = data s ps1 ++ slice s q ++ splice 0 d (data s ps2).
Proof.
  intros [Hl _ _ Hpl] Hf Hne Hd. pose proof (linked_suffix _ _ _ _ _ Hl) as (_ & _ & _ & Hl2).
  rewrite fmap_app, fmap_cons in Hpl. apply list.NoDup_app in Hpl as (_ & Hdis & [Hq2 Hnd2]%list.NoDup_cons).
  destruct (take_loop_spec ps2 s (next (pbufs s q)) d fuel) as (s' & Et & Hsh & Hoth & Hda); try done.
  assert (E2 : forall ps, (forall m, m ∈ place_of s <$> ps -> m ∉ place_of s <$> ps2) -> data s' ps = data s ps).
  { intros ps' Hm. apply data_other; [by apply same_shape_pbufs|]. intros m Hin. apply Hoth. by apply Hm. }
  exists s'. split; [|split; [done|]].
  - destruct (next (pbufs s q)) as [t|]; [|destruct ps2; [destruct d; [done|cbn in Hd; lia]|by destruct Hl2]].
    unfold pbuf_take. assert (Etr : tot_len (pbufs s t) = lens s ps2)
      by (destruct ps2; [done|]; by destruct Hl2 as ([= <-] & _ & -> & _)).
    by rewrite Etr, (proj2 (Z.ltb_ge _ _)), Et by lia.
  - rewrite data_app, data_cons, Hda, (E2 ps1); [|intros m Hm Hm2; apply (Hdis m Hm); by right].
    assert (E2q : data s' [q] = data s [q]) by (apply E2; intros m ->%list_elem_of_singleton; done).
    rewrite !data_cons, !app_nil_r in E2q. by rewrite E2q.
Qed.

Lemma take_at_spec s fuel p ps d o :
  packet s (Some p) ps -> is_u16 o -> (length ps < fuel)%nat -> d <> [] ->
  if o + Z.of_nat (length d) <=? lens s ps then
    exists s', pbuf_take_at fuel (Some p) d o s = Some (s', ERR_OK) /\ same_shape s s' /\
      data s' ps = splice (Z.to_nat o) d (data s ps)
  else pbuf_take_at fuel (Some p) d o s = Some (s, ERR_MEM).
Proof.
  intros Hp Ho Hf Hd. pose proof Hp as [Hl Hs _ Hpl]. pose proof (skip_spec s fuel _ _ o Hl Hs Ho Hf) as Hk. unfold is_u16 in Ho, Hs.
  assert (Hd0 : 0 < Z.of_nat (length d)) by (destruct d; [done|cbn; lia]). unfold pbuf_take_at, pbuf_skip.
  destruct (Z.ltb_spec o (lens s ps)) as [Hlt|Hge]; [|by rewrite Hk, (proj2 (Z.leb_gt _ _)) by lia].
  destruct Hk as (ps1 & q & ps2 & o' & -> & -> & -> & Hr). pose proof (linked_suffix _ _ _ _ _ Hl) as (_ & Hq & Et & Hl2).
  pose proof (linked_nodes _ _ _ Hl) as Hns. apply Forall_app in Hns as [Hn1 [_ Hn2]%list.Forall_cons].
  pose proof (data_length _ _ Hn1) as Hd1. pose proof (slice_length _ _ Hq) as Hsl. pose proof (lens_nonneg _ _ Hn1).
  pose proof (lens_nonneg _ _ Hn2). rewrite Et. rewrite lens_app, lens_cons in *.
  destruct (Z.leb_spec (lens s ps1 + o' + Z.of_nat (length d)) (lens s ps1 + (len (pbufs s q) + lens s ps2))) as [Hle|Hgt];
    [|by rewrite (proj2 (Z.leb_gt _ _)) by lia].
  rewrite (proj2 (Z.leb_le _ _)) by lia. rewrite u16_small by lia. set (k := Z.to_nat (Z.min _ _)).
  assert (Hkz : Z.of_nat k = Z.min (len (pbufs s q) - o') (Z.of_nat (length d))) by (subst k; lia). clearbody k.
  assert (Hkl : length (take k d) = k) by (rewrite length_take; lia).
  destruct (copy_in_shape s q o' (take k d) Hq) as [Hsh Hoth]; [lia|rewrite Hkl; lia|]. pose proof (same_shape_pbufs _ _ Hsh) as Hpb.
  pose proof (copy_in_data _ _ _ _ _ o' (take k d) Hp ltac:(lia) ltac:(rewrite Hkl; lia)) as Hda.
  set (s1 := copy_in q o' (take k d) s) in *. rewrite Hpb.
  assert (Etot : splice (Z.to_nat (lens s ps1 + o')) d (data s (ps1 ++ q :: ps2))
               = data s ps1 ++ splice (Z.to_nat o') d (slice s q ++ data s ps2)).
  { rewrite data_app, data_cons. replace (Z.to_nat (lens s ps1 + o')) with (length (data s ps1) + Z.to_nat o')%nat by lia. apply splice_app_r. }
  rewrite Etot. destruct (drop k d) as [|x rest] eqn:Edr.
  - assert (Ek : take k d = d) by (rewrite <- (take_drop k d) at 2; by rewrite Edr, app_nil_r).
    exists s1. split; [done|]. split; [done|]. rewrite Hda, Ek. rewrite Ek in Hkl. by rewrite splice_app_l by lia.
  - assert (Hlen : length (x :: rest) = (length d - k)%nat) by (rewrite <- Edr; apply length_drop).
    assert (Hp1 : packet s1 (Some p) (ps1 ++ q :: ps2)) by (by eapply same_shape_packet).
    assert (Hlens : lens s1 ps2 = lens s ps2) by (unfold lens; by rewrite Hpb).
    rewrite length_app in Hf. cbn [length] in Hf.
    destruct (take_rest s1 fuel (Some p) ps1 q ps2 (x :: rest) Hp1) as (s2 & E2 & Hsh2 & Hd2); [lia|done|lia|].
    rewrite Hpb in E2. exists s2. split; [exact E2|]. split; [by eapply same_shape_trans|]. rewrite Hd2.
    assert (Hd12 : data s1 ps1 ++ slice s1 q = data s ps1 ++ splice (Z.to_nat o') (take k d) (slice s q) /\ data s1 ps2 = data s ps2).
    { rewrite data_app, data_cons, !app_assoc in Hda. apply app_inj_2 in Hda; [done|]. apply Nat2Z.inj.
      rewrite !data_length; [done|done|]. pose proof (linked_nodes _ _ _ (pk_linked _ _ _ Hp1)) as Hns1.
      by apply Forall_app in Hns1 as [_ [_ ?]%list.Forall_cons]. }
    destruct Hd12 as [Hd12 ->]. rewrite app_assoc, Hd12, <- app_assoc. f_equal. rewrite <- Edr. symmetry. cbn [length] in Hlen. apply splice_split; lia.
Qed.

(** ** Joining packets *)

Lemma linked_ext s s' p ps :
  (forall q, q ∈ ps -> pbufs s' q = pbufs s q) -> memory s' = memory s -> linked s p ps -> linked s' p ps.
Proof.
  intros Hq Hm. revert p. induction ps as [|q ps IH]; intros p; cbn [linked]; [done|].
  assert (El : lens s' ps = lens s ps).
  { clear IH. unfold lens. induction ps as [|x ps IH]; [done|]. cbn [foldr]. rewrite Hq by (right; left). f_equal. apply IH.
    intros y Hy. apply Hq. apply elem_of_cons in Hy as [->|Hy]; [left|by right; right]. }
  unfold node_ok, place_of. rewrite Hq, Hm, El by left. intros (? & ? & ? & ?). split; [done|]. split; [done|]. split; [done|].
  apply IH; [|done]. intros x Hx. apply Hq. by right.
Qed.

(** Everything but links and lengths of the rest. *)
Definition same_parts (s s' : state) : Prop :=
  memory s' = memory s /\ forall q, payload (pbufs s' q) = payload (pbufs s q) /\ len (pbufs s' q) = len (pbufs s q).

Lemma same_parts_lens s s' ps : same_parts s s' -> lens s' ps = lens s ps.
Proof. intros [_ H]. unfold lens. induction ps as [|q ps IH]; [done|]. cbn [foldr]. destruct (H q) as [_ ->]. by rewrite IH. Qed.

Lemma same_parts_data s s' ps : same_parts s s' -> data s' ps = data s ps.
Proof.
  intros [Hm H]. unfold data. f_equal. apply list_fmap_ext. intros i q _. unfold slice, copy_out. destruct (H q) as [-> ->].
  by rewrite Hm.
Qed.

Lemma same_parts_places s s' (ps : list ptr) : same_parts s s' -> (place_of s' <$> ps) = (place_of s <$> ps).
Proof. intros [_ H]. apply list_fmap_ext. intros i q _. unfold place_of. by destruct (H q) as [-> _]. Qed.

Lemma same_parts_node s s' q : same_parts s s' -> node_ok s q -> node_ok s' q.
Proof. intros [Hm H]. unfold node_ok, place_of. destruct (H q) as [-> ->]. by rewrite Hm. Qed.

Lemma update_same_parts p f s : (forall b, payload (f b) = payload b /\ len (f b) = len b) -> same_parts s (update p f s).
Proof.
  intros Hf. split; [done|]. intros q. unfold update, set_pbuf. cbn.
  destruct (decide (q = p)) as [->|Hne]; [rewrite fn_lookup_insert; apply Hf|by rewrite fn_lookup_insert_ne by congruence].
Qed.

Lemma same_parts_trans s1 s2 s3 : same_parts s1 s2 -> same_parts s2 s3 -> same_parts s1 s3.
Proof. intros [H1 H2] [H3 H4]. split; [congruence|]. intros q. destruct (H2 q), (H4 q). split; congruence. Qed.

(** The loop of [pbuf_cat] and the links after it. *)
Definition cat_all (fuel : nat) (p t : ptr) (n : Z) (s : state) : option state :=
  match cat_loop fuel p n s with
  | None => None
  | Some (s, p) =>
    let s := update p (fun b => with_tot_len (u16 (tot_len b + tot_len (pbufs s t))) b) s in
    Some (update p (with_next (Some t)) s)
  end.

Lemma cat_all_spec ps : forall s p t qs fuel,
  linked s (Some p) ps -> linked s (Some t) qs -> NoDup ps -> (forall x, x ∈ ps -> x ∉ qs) ->
  is_u16 (lens s ps + lens s qs) -> (length ps <= fuel)%nat ->
  exists s', cat_all fuel p t (lens s qs) s = Some s' /\ linked s' (Some p) (ps ++ qs) /\ same_parts s s' /\
    (forall x, x ∉ ps -> pbufs s' x = pbufs s x).
Proof.
  induction ps as [|q ps IH]; intros s p t qs fuel Hl Ht Hnd Hdis Hs Hf; [done|].
  cbn [linked] in Hl. destruct Hl as ([= <-] & Hq & Et & Hl). apply list.NoDup_cons in Hnd as [Hqn Hnd]. cbn [length] in Hf.
  destruct fuel as [|fuel]; [lia|]. pose proof (linked_nodes _ _ _ Hl) as Hns. pose proof (lens_nonneg _ _ Hns).
  pose proof (lens_nonneg _ _ (linked_nodes _ _ _ Ht)). pose proof Hq as (_ & Hq0 & _). rewrite lens_cons in Hs. unfold is_u16 in Hs.
  assert (Htp : t <> p) by (intros ->; apply (Hdis p); [left|]; destruct qs; [done|]; destruct Ht as ([= <-] & _); left).
  assert (Ett : tot_len (pbufs s t) = lens s qs) by (destruct qs; [done|]; by destruct Ht as ([= <-] & _ & -> & _)).
  unfold cat_all. cbn [cat_loop]. destruct ps as [|q2 ps].
  - cbn [linked] in Hl. rewrite Hl, Ett. eexists. split; [done|]. set (s1 := update p _ s).
    set (s2 := update p (with_next (Some t)) s1).
    assert (H2 : same_parts s s2) by (eapply same_parts_trans; by apply update_same_parts).
    assert (Hx : forall x, x <> p -> pbufs s2 x = pbufs s x)
      by (intros x Hx; subst s2 s1; cbn; by rewrite !fn_lookup_insert_ne by congruence).
    split; [|split; [done|intros x Hx'; apply Hx; by intros ->; apply Hx'; left]]. cbn [app linked].
    split; [done|]. split; [by eapply same_parts_node|].
    assert (Ep : pbufs s2 p = with_next (Some t) (with_tot_len (len (pbufs s p) + lens s qs) (pbufs s p))).
    { subst s2 s1. cbn. rewrite !fn_lookup_insert, Et. f_equal. f_equal. cbn. rewrite Z.add_0_r, u16_small by (cbn in *; lia). done. }
    rewrite Ep, (same_parts_lens s s2) by done. split; [done|]. cbn [next with_next].
    revert Ht. apply linked_ext; [|done]. intros x Hx'. apply Hx. intros ->. apply (Hdis p); [left|done].
  - pose proof Hl as (En & _). rewrite En. fold (cat_all fuel q2 t (lens s qs) (update p (fun b => with_tot_len (u16 (tot_len b + lens s qs)) b) s)).
    set (s1 := update p _ s). assert (H1 : same_parts s s1) by (by apply update_same_parts).
    assert (Hx1 : forall x, x <> p -> pbufs s1 x = pbufs s x) by (intros x Hx; subst s1; cbn; by rewrite fn_lookup_insert_ne by congruence).
    destruct (IH s1 q2 t qs fuel) as (s' & E' & Hl' & H' & Hx').
    { rewrite <- En. revert Hl. apply linked_ext; [|done]. intros x Hx. apply Hx1. by intros ->. }
    { revert Ht. apply linked_ext; [|done]. intros x Hx. apply Hx1. intros ->. apply (Hdis p); [left|done]. }
    { done. }
    { intros x Hx. apply Hdis. by right. }
    { rewrite !(same_parts_lens s s1) by done. unfold is_u16. lia. }
    { lia. }
    rewrite (same_parts_lens s s1) in E' by done. exists s'. split; [exact E'|]. split; [|split].
    + cbn [app linked]. split; [done|]. split; [by eapply same_parts_node, same_parts_node; [| |exact Hq]|].
      assert (Ep : pbufs s' p = with_tot_len (len (pbufs s p) + lens s (q2 :: ps) + lens s qs) (pbufs s p)).
      { rewrite Hx' by done. subst s1. cbn [pbufs update set_pbuf set_pbufs]. rewrite fn_lookup_insert, Et. by rewrite u16_small by lia. }
      rewrite Ep. cbn [tot_len next len with_tot_len].
      rewrite (same_parts_lens s1 s' _ H'), (same_parts_lens s s1 _ H1), app_comm_cons, lens_app, Z.add_assoc. split; [done|]. by rewrite En.
    + by eapply same_parts_trans.
    + intros x [Hxp Hxs]%not_elem_of_cons. by rewrite Hx', Hx1.
Qed.

Lemma cat_spec s fuel h t ps qs :
  packet s (Some h) ps -> packet s (Some t) qs -> NoDup (ps ++ qs) -> NoDup (place_of s <$> ps ++ qs) ->
  is_u16 (lens s ps + lens s qs) -> (length ps <= fuel)%nat ->
  exists s', pbuf_cat fuel (Some h) (Some t) s = Some s' /\ packet s' (Some h) (ps ++ qs) /\
    data s' (ps ++ qs) = data s ps ++ data s qs.
Proof.
  intros [Hl1 _ _ _] [Hl2 _ _ _] Hnd Hpl Hs Hf. pose proof Hnd as (Hn1 & Hdis & _)%list.NoDup_app.
  destruct (cat_all_spec ps s h t qs fuel) as (s' & E & Hl & Hp & _); try done.
  assert (Ett : tot_len (pbufs s t) = lens s qs) by (destruct qs; [done|]; by destruct Hl2 as ([= <-] & _ & -> & _)).
  exists s'. unfold pbuf_cat. rewrite Ett. split; [exact E|]. split.
  - constructor; [done| |done|by rewrite (same_parts_places s s')]. by rewrite (same_parts_lens s s'), lens_app.
  - by rewrite (same_parts_data s s'), data_app.
Qed.

(** ** Headers *)

Lemma remove_header_spec s p ps n :
  packet s (Some p) (p :: ps) -> 0 <= n <= len (pbufs s p) ->
  exists s', pbuf_remove_header p n s = (s', 0) /\ packet s' (Some p) (p :: ps) /\
    data s' (p :: ps) = drop (Z.to_nat n) (data s (p :: ps)).
Proof.
  intros Hp Hn. pose proof Hp as [(_ & Hq & Et & Hl) Hs Hnd Hpl]. pose proof (lens_nonneg _ _ (linked_nodes _ _ _ Hl)).
  unfold pbuf_remove_header. rewrite lens_cons in Hs. unfold is_u16 in Hs. pose proof (slice_length _ _ Hq) as Hsl.
  rewrite (proj2 (Z.ltb_ge _ _)) by lia. destruct (Z.eqb_spec n 0) as [->|Hn0]; [by exists s|].
  rewrite (proj2 (Z.leb_le _ _)) by lia. cbn [negb]. set (s1 := update p _ s). exists s1. split; [done|].
  assert (Ep : pbufs s1 p = with_lens (snd (payload (pbufs s p)) + n) (len (pbufs s p) - n + lens s ps) (len (pbufs s p) - n) (pbufs s p)).
  { subst s1. cbn. rewrite fn_lookup_insert, Et, !u16_small by lia. f_equal. lia. }
  assert (Hx : forall x, x <> p -> pbufs s1 x = pbufs s x) by (intros x Hx; subst s1; cbn; by rewrite fn_lookup_insert_ne by congruence).
  assert (Hm : memory s1 = memory s) by done. clearbody s1. apply list.NoDup_cons in Hnd as [Hpn Hnd].
  assert (Hext : forall x, x ∈ ps -> pbufs s1 x = pbufs s x) by (intros x Hin; apply Hx; by intros ->).
  assert (El : lens s1 ps = lens s ps).
  { clear -Hext. unfold lens. induction ps as [|x ps IH]; [done|]. cbn [foldr]. rewrite Hext by left. f_equal. apply IH.
    intros y Hy. apply Hext. by right. }
  split; [constructor|].
  - cbn [linked]. split; [done|]. split; [|split; [by rewrite Ep, El|rewrite Ep; revert Hl; by apply linked_ext]].
    unfold node_ok, place_of in *. rewrite Ep, Hm. cbn. destruct Hq as (? & ? & ?). lia.
  - rewrite lens_cons, El, Ep. cbn. unfold is_u16. lia.
  - by constructor.
  - replace (place_of s1 <$> p :: ps) with (place_of s <$> p :: ps); [done|]. rewrite !fmap_cons. f_equal; [unfold place_of; by rewrite Ep|].
    apply list_fmap_ext. intros i x Hi. unfold place_of. rewrite Hext; [done|]. by apply list_elem_of_lookup_2 in Hi.
  - rewrite !data_cons. replace (data s1 ps) with (data s ps).
    2: { unfold data. f_equal. apply list_fmap_ext. intros i x Hi. unfold slice, copy_out. rewrite Hext, Hm; [done|].
         by apply list_elem_of_lookup_2 in Hi. }
    rewrite drop_app_le by lia. f_equal. unfold slice, copy_out. rewrite Ep, Hm. unfold node_ok, place_of in Hq.
    destruct (payload (pbufs s p)) as [m o] eqn:Eb. cbn [fst snd payload len with_lens] in *. rewrite Eb. cbn [fst].
    rewrite skipn_firstn_comm, drop_drop.
    replace (Z.to_nat (o + n + 0)) with (Z.to_nat (o + 0) + Z.to_nat n)%nat by lia.
    by replace (Z.to_nat (len (pbufs s p)) - Z.to_nat n)%nat with (Z.to_nat (len (pbufs s p) - n)) by lia.
Qed.

(** A header that was removed can be added again. *)
Lemma header_roundtrip s p ps n :
  packet s (Some p) (p :: ps) -> 0 <= n <= len (pbufs s p) ->
  Z.land (type_internal (pbufs s p)) PBUF_TYPE_FLAG_STRUCT_DATA_CONTIGUOUS <> 0 ->
  exists s', pbuf_add_header p n (fst (pbuf_remove_header p n s)) = (s', 0) /\ memory s' = memory s /\
    forall x, pbufs s' x = pbufs s x.
Proof.
  intros [(_ & Hq & Et & Hl) Hs Hnd Hpl] Hn Hty. pose proof (lens_nonneg _ _ (linked_nodes _ _ _ Hl)).
  rewrite lens_cons in Hs. unfold is_u16 in Hs. unfold pbuf_remove_header, pbuf_add_header, pbuf_add_header_impl.
  rewrite (proj2 (Z.ltb_ge _ _)) by lia. destruct (Z.eqb_spec n 0) as [->|Hn0]; [by exists s|].
  rewrite (proj2 (Z.leb_le _ _)) by lia. cbn [negb fst]. cbn [pbufs update set_pbuf set_pbufs]. rewrite fn_lookup_insert.
  cbn [tot_len len payload type_internal with_lens snd]. 
  rewrite Et, (u16_small (len (pbufs s p) + lens s ps - n)), (u16_small (len (pbufs s p) - n)) by lia.
  rewrite !u16_small by lia. rewrite (proj2 (Z.ltb_ge _ n)) by lia.
  rewrite (proj2 (Z.eqb_neq _ _) Hty). cbn [negb]. destruct Hq as (Hq0 & _).
  rewrite (proj2 (Z.ltb_ge (snd (payload (pbufs s p)) + n - n) 0)) by lia. eexists. split; [done|]. split; [done|].
  intros x. cbn. destruct (decide (x = p)) as [->|Hx]; [|by rewrite !fn_lookup_insert_ne by congruence].
  rewrite !fn_lookup_insert. destruct (pbufs s p) as [nx [m o] tl l ty fl rf] eqn:E. unfold with_lens. cbn in *. f_equal; [f_equal; lia|lia|lia].
Qed.

(** ** The pool *)

(** A chain of structures of the pool that has one owner. *)
Fixpoint owned (s : state) (p : option ptr) (ids : list Z) : Prop :=
  match ids with
  | [] => p = None
  | i :: ids => p = Some (InPool i) /\ ref (pbufs s (InPool i)) = 1 /\ type_internal (pbufs s (InPool i)) = 0x82 /\
               flags (pbufs s (InPool i)) = 0 /\ owned s (next (pbufs s (InPool i))) ids
  end.

Lemma owned_ext s s' p ids : (forall i, i ∈ ids -> pbufs s' (InPool i) = pbufs s (InPool i)) -> owned s p ids -> owned s' p ids.
Proof.
  intros H. revert p. induction ids as [|i ids IH]; intros p; cbn [owned]; [done|]. rewrite H by left. intros (? & ? & ? & ? & ?).
  do 4 (split; [done|]). apply IH; [|done]. intros j Hj. apply H. by right.
Qed.

(** Giving such a chain back. *)
Lemma free_owned ids : forall s p fuel c,
  owned s p ids -> NoDup ids -> (length ids <= fuel)%nat ->
  exists s' c', free_loop fuel p c s = Some (s', c') /\ pool s' = rev ids ++ pool s /\ memory s' = memory s /\
    memp s' = memp s /\ mem_heap s' = mem_heap s /\ (forall x, x ∉ InPool <$> ids -> pbufs s' x = pbufs s x).
Proof.
  induction ids as [|i ids IH]; intros s p fuel c Ho Hnd Hf; cbn [owned] in Ho.
  { subst p. exists s, c. split; [by destruct fuel|]. done. }
  destruct Ho as (-> & Hr & Ht & Hfl & Ho). apply list.NoDup_cons in Hnd as [Hi Hnd]. cbn [length] in Hf.
  destruct fuel as [|fuel]; [lia|]. cbn [free_loop]. rewrite Hr. change (u8 (1 - 1)) with 0. cbn [Z.eqb].
  set (s1 := update (InPool i) (with_ref 0) s).
  assert (E1 : pbufs s1 (InPool i) = with_ref 0 (pbufs s (InPool i))) by (subst s1; cbn; by rewrite fn_lookup_insert).
  assert (Hx1 : forall x, x <> InPool i -> pbufs s1 x = pbufs s x) by (intros x Hx; subst s1; cbn; by rewrite fn_lookup_insert_ne by congruence).
  unfold release. rewrite E1. cbn [type_internal flags with_ref next]. rewrite Ht, Hfl. change (Z.land 130 PBUF_TYPE_ALLOC_SRC_MASK =? 2) with true.
  change (Z.land 0 PBUF_FLAG_IS_CUSTOM =? 0) with true. cbn [negb].
  destruct (IH (set_pool (i :: pool s1) s1) (next (pbufs s (InPool i))) fuel (u8 (c + 1))) as (s' & c' & E & Hp & Hm & Hmp & Hh & Hx).
  { revert Ho. apply owned_ext. intros j Hj. apply Hx1. intros [= ->]. done. }
  { done. }
  { lia. }
  exists s', c'. split; [exact E|]. split; [rewrite Hp; cbn; by rewrite <- app_assoc|]. split; [done|]. split; [done|]. split; [done|].
  intros x Hin. rewrite fmap_cons in Hin. apply not_elem_of_cons in Hin as [Hne Hin]. rewrite Hx by done. by apply Hx1.
Qed.

Definition blocks_sized (s : state) : Prop :=
  forall i, length (memory s (Block (InPool i))) = Z.to_nat PBUF_POOL_BUFSIZE_ALIGNED.

(** What the loop makes of the rest of a packet: the structures [ids] in front of the
    pool, behind [l]. *)
Record grown (s s' : state) (l : ptr) (ids : list Z) : Prop := Grown {
  gr_owned : owned s' (next (pbufs s' l)) ids;
  gr_last : pbufs s' l = with_next (next (pbufs s' l)) (pbufs s l);
  gr_memory : memory s' = memory s;
  gr_memp : memp s' = memp s;
  gr_heap : mem_heap s' = mem_heap s;
  gr_places : (place_of s' <$> (InPool <$> ids)) = (Block <$> (InPool <$> ids));
  gr_other : forall x, x <> l -> x ∉ InPool <$> ids -> pbufs s' x = pbufs s x
}.

(** One more structure between [l] and the rest. *)
Lemma grown_cons s s1 s' l i js rem k o :
  pbufs s1 l = with_next (Some (InPool i)) (pbufs s l) ->
  pbufs s1 (InPool i) = Pbuf None (Block (InPool i), o) rem k 0x82 0 1 ->
  (forall x, x <> l -> x <> InPool i -> pbufs s1 x = pbufs s x) ->
  memory s1 = memory s -> memp s1 = memp s -> mem_heap s1 = mem_heap s ->
  l <> InPool i -> l ∉ InPool <$> js -> grown s1 s' (InPool i) js ->
  grown s s' l (i :: js) /\ next (pbufs s' l) = Some (InPool i) /\
  pbufs s' (InPool i) = Pbuf (next (pbufs s' (InPool i))) (Block (InPool i), o) rem k 0x82 0 1.
Proof.
  intros E1 Eq Hx1 Hm1 Hmp1 Hh1 Hli Hlj Hg. pose proof (gr_last _ _ _ _ Hg) as Eq'. rewrite Eq in Eq'.
  assert (E1' : pbufs s' l = with_next (Some (InPool i)) (pbufs s l)) by (by rewrite (gr_other _ _ _ _ Hg)).
  split; [|by rewrite E1'; split; [|exact Eq']]. constructor; rewrite ?E1'; cbn [next with_next].
  - cbn [owned]. rewrite Eq'. cbn. do 4 (split; [done|]). pose proof (gr_owned _ _ _ _ Hg) as Ho. by rewrite Eq' in Ho.
  - done.
  - by rewrite (gr_memory _ _ _ _ Hg).
  - by rewrite (gr_memp _ _ _ _ Hg).
  - by rewrite (gr_heap _ _ _ _ Hg).
  - rewrite !fmap_cons. f_equal; [unfold place_of; by rewrite Eq'|apply (gr_places _ _ _ _ Hg)].
  - intros x Hxl Hx. rewrite fmap_cons in Hx. apply not_elem_of_cons in Hx as [Hxq Hxj].
    rewrite (gr_other _ _ _ _ Hg) by done. by apply Hx1.
Qed.

Lemma grown_refl s l : next (pbufs s l) = None -> grown s s l [].
Proof. intros Hn. constructor; try done. by destruct (pbufs s l). Qed.

(** The rest of a packet, from a structure whose part of it is known. *)
Lemma linked_fresh s i js nx o rem k :
  blocks_sized s -> 0 <= o -> 0 <= k -> o + k <= PBUF_POOL_BUFSIZE_ALIGNED ->
  pbufs s (InPool i) = Pbuf nx (Block (InPool i), o) rem k 0x82 0 1 ->
  linked s nx (InPool <$> js) -> k + lens s (InPool <$> js) = rem ->
  linked s (Some (InPool i)) (InPool <$> (i :: js)) /\ lens s (InPool <$> (i :: js)) = rem.
Proof.
  intros Hb Ho Hk Hok E Hl Hr. rewrite fmap_cons, lens_cons. cbn [linked]. rewrite E. cbn [len tot_len next].
  split; [|done]. split; [done|]. split; [|done]. unfold node_ok, place_of. rewrite E. cbn. rewrite Hb. lia.
Qed.

Lemma alloc_rest fuel : forall all p l rem s,
  (length (pool s) < fuel)%nat -> 0 < rem < 65536 -> NoDup (pool s) -> l ∉ InPool <$> pool s ->
  next (pbufs s l) = None -> blocks_sized s ->
  (exists ids rest s', pool s = ids ++ rest /\ alloc_loop all fuel (Some p) (Some l) rem 0 s = Some (s', Some p) /\
     pool s' = rest /\ grown s s' l ids /\ linked s' (next (pbufs s' l)) (InPool <$> ids) /\ lens s' (InPool <$> ids) = rem) \/
  (PBUF_POOL_BUFSIZE_ALIGNED * Z.of_nat (length (pool s)) < rem /\
   exists s1, alloc_loop all fuel (Some p) (Some l) rem 0 s
     = match pbuf_free all (Some p) s1 with None => None | Some (s, _) => Some (s, None) end /\
     pool s1 = [] /\ grown s s1 l (pool s)).
Proof.
  induction fuel as [|fuel IH]; intros all p l rem s Hf Hrem Hnd Hl Hn Hb; [lia|]. cbn [alloc_loop]. unfold malloc_pool.
  destruct (pool s) as [|i ids] eqn:Ep.
  { right. split; [cbn; lia|]. exists s. split; [done|]. split; [done|]. by apply grown_refl. }
  apply list.NoDup_cons in Hnd as [Hi Hnd]. rewrite fmap_cons in Hl. apply not_elem_of_cons in Hl as [Hli Hl]. cbn [length] in Hf.
  change (LWIP_MEM_ALIGN_SIZE 0) with 0. rewrite Z.sub_0_r. change (u16 PBUF_POOL_BUFSIZE_ALIGNED) with PBUF_POOL_BUFSIZE_ALIGNED.
  set (k := Z.min rem PBUF_POOL_BUFSIZE_ALIGNED).
  assert (Hk : 0 < k <= PBUF_POOL_BUFSIZE_ALIGNED /\ k <= rem) by (subst k; unfold PBUF_POOL_BUFSIZE_ALIGNED; lia).
  set (s1 := update l (with_next (Some (InPool i))) (pbuf_init_alloced_pbuf (InPool i) (Block (InPool i), 0) rem k PBUF_POOL (set_pool ids s))).
  assert (E1 : pbufs s1 l = with_next (Some (InPool i)) (pbufs s l))
    by (subst s1; cbn; rewrite fn_lookup_insert, fn_lookup_insert_ne by congruence; done).
  assert (Eq : pbufs s1 (InPool i) = Pbuf None (Block (InPool i), 0) rem k 0x82 0 1)
    by (subst s1; cbn; rewrite fn_lookup_insert_ne by done; by rewrite fn_lookup_insert).
  assert (Hx1 : forall x, x <> l -> x <> InPool i -> pbufs s1 x = pbufs s x)
    by (intros x H1 H2; subst s1; cbn; by rewrite !fn_lookup_insert_ne by congruence).
  assert (Hs1 : memory s1 = memory s /\ pool s1 = ids /\ memp s1 = memp s /\ mem_heap s1 = mem_heap s) by done. clearbody s1.
  destruct Hs1 as (Hm1 & Hp1 & Hmp1 & Hh1). assert (Hb1 : blocks_sized s1) by (unfold blocks_sized; by rewrite Hm1).
  rewrite u16_small by lia. destruct (Z.ltb_spec 0 (rem - k)) as [Hmore|Hdone].
  - assert (Ek : k = PBUF_POOL_BUFSIZE_ALIGNED) by (subst k; lia).
    destruct (IH all p (InPool i) (rem - k) s1) as [(js & rest & s' & Er & Ea & Hp' & Hg & Hlk & Hln)|(Hlt & s2 & Ea & Hp' & Hg)].
    { rewrite Hp1. lia. } { lia. } { by rewrite Hp1. } { rewrite Hp1. intros (j & [= ->] & Hj)%list_elem_of_fmap. done. }
    { by rewrite Eq. } { done. }
    + left. exists (i :: js), rest, s'. rewrite Hp1 in Er.
      assert (Hlj : l ∉ InPool <$> js) by (intros H; apply Hl; rewrite Er, fmap_app; by apply elem_of_app; left).
      destruct (grown_cons s s1 s' l i js rem k 0) as (Hg' & En & Ei); try done.
      assert (Hb' : blocks_sized s') by (unfold blocks_sized; by rewrite (gr_memory _ _ _ _ Hg)).
      destruct (linked_fresh s' i js _ 0 rem k Hb' ltac:(lia) ltac:(lia) ltac:(lia) Ei Hlk) as [Hl' Hlen]; [lia|].
      split; [by rewrite Er|]. split; [exact Ea|]. by rewrite En.
    + right. rewrite Hp1 in Hlt, Hg. split; [cbn [length]; lia|]. exists s2. split; [exact Ea|]. split; [done|].
      by destruct (grown_cons s s1 s2 l i ids rem k 0) as (Hg' & _).
  - left. exists [i], ids, s1. split; [done|]. split; [done|]. split; [done|].
    destruct (grown_cons s s1 s1 l i [] rem k 0) as (Hg' & En & Ei); try done; [by apply not_elem_of_nil|by apply grown_refl; rewrite Eq|].
    split; [done|]. rewrite En. apply (linked_fresh s1 i [] None 0 rem k); try done; [lia|lia|cbn; lia].
Qed.

(** A packet of the pool in the making: the first structure and what was grown
    behind it. *)
Lemma grown_packet s1 s' i js o n k :
  grown s1 s' (InPool i) js -> blocks_sized s1 -> 0 <= o -> 0 <= k -> o + k <= PBUF_POOL_BUFSIZE_ALIGNED ->
  pbufs s1 (InPool i) = Pbuf None (Block (InPool i), o) n k 0x82 0 1 ->
  linked s' (next (pbufs s' (InPool i))) (InPool <$> js) -> k + lens s' (InPool <$> js) = n -> is_u16 n -> NoDup (i :: js) ->
  packet s' (Some (InPool i)) (InPool <$> (i :: js)) /\ owned s' (Some (InPool i)) (i :: js) /\ lens s' (InPool <$> (i :: js)) = n /\
  (place_of s' <$> (InPool <$> (i :: js))) = (Block <$> (InPool <$> (i :: js))).
Proof.
  intros Hg Hb Ho Hk Hok E Hl Hn Hu Hnd. pose proof (gr_last _ _ _ _ Hg) as E'. rewrite E in E'. cbn in E'.
  assert (Hb' : blocks_sized s') by (unfold blocks_sized; by rewrite (gr_memory _ _ _ _ Hg)).
  destruct (linked_fresh s' i js _ o n k Hb' Ho Hk Hok E' Hl Hn) as [Hlk Hln].
  assert (Hpl : (place_of s' <$> (InPool <$> (i :: js))) = (Block <$> (InPool <$> (i :: js)))).
  { rewrite !fmap_cons, (gr_places _ _ _ _ Hg). f_equal. unfold place_of. by rewrite E'. }
  split; [|split; [|done]].
  - assert (Hnp : NoDup (InPool <$> i :: js)) by (by apply (NoDup_fmap_2 InPool)).
    constructor; [done|by rewrite Hln|done|]. rewrite Hpl. by apply (NoDup_fmap_2 Block).
  - cbn [owned]. rewrite E'. cbn. do 4 (split; [done|]). pose proof (gr_owned _ _ _ _ Hg) as Hown. by rewrite E' in Hown.
Qed.

(** Allocation from the pool: the packet, or nothing and every element back. *)
Lemma alloc_pool_spec s fuel layer n :
  NoDup (pool s) -> blocks_sized s -> is_u16 n -> (length (pool s) < fuel)%nat ->
  exists s' r, pbuf_alloc fuel layer n PBUF_POOL s = Some (s', r) /\ memory s' = memory s /\
    memp s' = memp s /\ mem_heap s' = mem_heap s /\
    match r with
    | Some p => exists ids rest, pool s = ids ++ rest /\ pool s' = rest /\ packet s' (Some p) (InPool <$> ids) /\
        owned s' (Some p) ids /\ lens s' (InPool <$> ids) = n /\
        (place_of s' <$> (InPool <$> ids)) = (Block <$> (InPool <$> ids)) /\
        (forall x, x ∉ InPool <$> ids -> pbufs s' x = pbufs s x)
    | None => pool s' ≡ₚ pool s /\ (forall x, x ∉ InPool <$> pool s -> pbufs s' x = pbufs s x) /\
        (pool s = [] \/ PBUF_POOL_BUFSIZE_ALIGNED * Z.of_nat (length (pool s)) < n + LWIP_MEM_ALIGN_SIZE (layer_offset layer))
    end.
Proof.
  intros Hnd Hb Hu Hf. pose proof Hu as Hn. unfold is_u16 in Hn. unfold pbuf_alloc. destruct fuel as [|fuel]; [lia|].
  cbn [alloc_loop]. unfold malloc_pool.
  destruct (pool s) as [|i ids] eqn:Ep; [exists s, None; rewrite Ep; do 4 (split; [done|]); split; [done|]; by split; [|left]|].
  set (o := LWIP_MEM_ALIGN_SIZE (layer_offset layer)).
  assert (Ho : 0 <= o <= 56) by (subst o; by destruct layer).
  set (room := u16 (PBUF_POOL_BUFSIZE_ALIGNED - o)). assert (Hroom : room = PBUF_POOL_BUFSIZE_ALIGNED - o)
    by (apply u16_small; unfold PBUF_POOL_BUFSIZE_ALIGNED; lia).
  set (k := Z.min n room).
  assert (Hk : 0 <= k <= n /\ o + k <= PBUF_POOL_BUFSIZE_ALIGNED) by (subst k; unfold PBUF_POOL_BUFSIZE_ALIGNED in *; lia).
  set (s1 := pbuf_init_alloced_pbuf (InPool i) (Block (InPool i), o) n k PBUF_POOL (set_pool ids s)).
  assert (Eq : pbufs s1 (InPool i) = Pbuf None (Block (InPool i), o) n k 0x82 0 1) by (subst s1; cbn; by rewrite fn_lookup_insert).
  assert (Hx1 : forall x, x <> InPool i -> pbufs s1 x = pbufs s x) by (intros x H1; subst s1; cbn; by rewrite fn_lookup_insert_ne by congruence).
  assert (Hs1 : memory s1 = memory s /\ pool s1 = ids /\ memp s1 = memp s /\ mem_heap s1 = mem_heap s) by done. clearbody s1.
  destruct Hs1 as (Hm1 & Hp1 & Hmp1 & Hh1). assert (Hb1 : blocks_sized s1) by (unfold blocks_sized; by rewrite Hm1).
  pose proof Hnd as [Hi Hnd']%list.NoDup_cons. rewrite u16_small by lia. cbn [length] in Hf.
  assert (Hother : forall s' js x, grown s1 s' (InPool i) js -> x ∉ InPool <$> i :: js -> pbufs s' x = pbufs s x).
  { intros s' js x Hg Hx. rewrite fmap_cons in Hx. apply not_elem_of_cons in Hx as [Hxi Hxj]. by rewrite (gr_other _ _ _ _ Hg), Hx1. }
  destruct (Z.ltb_spec 0 (n - k)) as [Hmore|Hdone].
  - assert (Ek : k = PBUF_POOL_BUFSIZE_ALIGNED - o) by (subst k; lia).
    destruct (alloc_rest fuel (S fuel) (InPool i) (InPool i) (n - k) s1)
      as [(js & rest & s' & Er & -> & Hp' & Hg & Hlk & Hln)|(Hlt & s2 & -> & Hp' & Hg)]; try done.
    { rewrite Hp1. lia. } { lia. } { by rewrite Hp1. } { rewrite Hp1. intros (j & [= ->] & Hj)%list_elem_of_fmap. done. }
    { by rewrite Eq. }
    + rewrite Hp1 in Er. rewrite Er, app_comm_cons in Hnd. apply list.NoDup_app in Hnd as [Hnj _].
      destruct (grown_packet s1 s' i js o n k) as (Hpk & Hown & Hlen & Hpl); try done; try lia.
      exists s', (Some (InPool i)). split; [done|]. rewrite (gr_memory _ _ _ _ Hg), (gr_memp _ _ _ _ Hg), (gr_heap _ _ _ _ Hg).
      do 3 (split; [done|]). exists (i :: js), rest. split; [by rewrite Er|]. do 5 (split; [done|]). intros x. by apply Hother.
    + rewrite Hp1 in Hlt, Hg. pose proof (gr_last _ _ _ _ Hg) as E'. rewrite Eq in E'. cbn in E'.
      destruct (free_owned (i :: ids) s2 (Some (InPool i)) (S fuel) 0) as (s' & c & Ef & Hp2 & Hm2 & Hmp2 & Hh2 & Hx2); [|done|cbn [length]; lia|].
      { cbn [owned]. rewrite E'. cbn. do 4 (split; [done|]). pose proof (gr_owned _ _ _ _ Hg) as Hown. by rewrite E' in Hown. }
      exists s', None. split; [unfold pbuf_free; by rewrite Ef|]. rewrite Hm2, Hmp2, Hh2, (gr_memory _ _ _ _ Hg), (gr_memp _ _ _ _ Hg), (gr_heap _ _ _ _ Hg).
      do 3 (split; [done|]). split; [rewrite Hp2, Hp', app_nil_r; symmetry; apply Permutation_rev|].
      split; [intros x Hx; rewrite Hx2 by done; by eapply Hother|]. right. cbn [length]. lia.
  - assert (Hg : grown s1 s1 (InPool i) []) by (apply grown_refl; by rewrite Eq).
    destruct (grown_packet s1 s1 i [] o n k) as (Hpk & Hown & Hlen & Hpl); try done; try lia; [by rewrite Eq|cbn; lia|by apply NoDup_singleton|].
    exists s1, (Some (InPool i)). do 4 (split; [done|]). exists [i], ids. do 6 (split; [done|]). intros x. by apply Hother.
Qed.

(** A header that does not lie in the first structure is not removed. *)
Lemma remove_header_refused s p n :
  node_ok s p -> len (pbufs s p) < n -> pbuf_remove_header p n s = (s, 1).
Proof.
  intros Hn Hlt. assert (0 <= len (pbufs s p)) as H0 by (by destruct Hn as (_ & ? & _)).
  unfold pbuf_remove_header. destruct (Z.ltb_spec 0xFFFF n); [done|].
  destruct (Z.eqb_spec n 0); [lia|]. destruct (Z.leb_spec n (len (pbufs s p))); [lia|done].
Qed.

(** ** Theorems *)

(** C26. Packets are byte strings.  However a packet is spread over a chain of
    structures, copying a part of it gives that part of its bytes, reading a byte
    gives that byte or zero behind the end, searching finds the first place where
    the given bytes lie, or reports that there is none; storing bytes at the front,
    or at least one byte at an offset, replaces exactly those bytes when they lie
    inside the packet and is refused with nothing changed when they do not; storing
    a single byte behind the end does nothing; removing a header drops it when it
    lies in the first structure, and is refused with nothing changed when it does
    not; and joining two packets without a common structure or place, whose lengths
    add up to at most 65535, appends their bytes (the code does not test the sum:
    a larger one wraps).  The operations return, and leave a well-formed packet. *)
Theorem packets_are_bytes s fuel p ps :
  packet s (Some p) (p :: ps) -> (length (p :: ps) < fuel)%nat ->
  let bytes_of s := data s (p :: ps) in
  let kept s' := packet s' (Some p) (p :: ps) in
  (forall n o, is_u16 n -> is_u16 o ->
     pbuf_copy_partial fuel (Some p) n o s = Some (take (Z.to_nat n) (drop (Z.to_nat o) (bytes_of s)))) /\
  (forall o, is_u16 o -> pbuf_get_at fuel (Some p) o s = Some (nth (Z.to_nat o) (bytes_of s) 0)) /\
  (forall m o, is_u16 o -> exists r, pbuf_memfind fuel p m o s = Some r /\
     ((o <= r /\ found_at s (p :: ps) m r /\ forall j, o <= j < r -> ~ found_at s (p :: ps) m j) \/
      (r = 0xFFFF /\ forall j, o <= j -> ~ found_at s (p :: ps) m j))) /\
  (forall d, if Z.of_nat (length (bytes_of s)) <? Z.of_nat (length d)
             then pbuf_take fuel (Some p) (Some d) s = Some (s, ERR_MEM)
             else exists s', pbuf_take fuel (Some p) (Some d) s = Some (s', ERR_OK) /\ kept s' /\
               bytes_of s' = splice 0 d (bytes_of s)) /\
  (forall d o, is_u16 o -> d <> [] ->
     if o + Z.of_nat (length d) <=? Z.of_nat (length (bytes_of s))
     then exists s', pbuf_take_at fuel (Some p) d o s = Some (s', ERR_OK) /\ kept s' /\
       bytes_of s' = splice (Z.to_nat o) d (bytes_of s)
     else pbuf_take_at fuel (Some p) d o s = Some (s, ERR_MEM)) /\
  (forall o b, is_u16 o -> exists s', pbuf_put_at fuel (Some p) o b s = Some s' /\ kept s' /\
     bytes_of s' = if o <? Z.of_nat (length (bytes_of s)) then splice (Z.to_nat o) [b] (bytes_of s) else bytes_of s) /\
  (forall n, 0 <= n ->
     if n <=? len (pbufs s p)
     then exists s', pbuf_remove_header p n s = (s', 0) /\ kept s' /\
       bytes_of s' = drop (Z.to_nat n) (bytes_of s)
     else pbuf_remove_header p n s = (s, 1)) /\
  (forall t qs, packet s (Some t) qs -> NoDup ((p :: ps) ++ qs) -> NoDup (place_of s <$> (p :: ps) ++ qs) ->
     is_u16 (Z.of_nat (length (bytes_of s)) + Z.of_nat (length (data s qs))) ->
     exists s', pbuf_cat fuel (Some p) (Some t) s = Some s' /\ packet s' (Some p) ((p :: ps) ++ qs) /\
       data s' ((p :: ps) ++ qs) = bytes_of s ++ data s qs).
Proof.
  intros Hp Hf bytes_of kept. pose proof Hp as [Hl Hs _ _]. pose proof (linked_nodes _ _ _ Hl) as Hns.
  assert (Hlen : Z.of_nat (length (bytes_of s)) = lens s (p :: ps)) by (by apply data_length). rewrite Hlen.
  assert (Hk : forall s', same_shape s s' -> kept s') by (intros s' Hsh; by eapply same_shape_packet).
  repeat split.
  - intros n o Hn Ho. by apply (copy_partial_spec s fuel (Some p) (p :: ps)).
  - intros o Ho. by apply get_spec.
  - intros m o Ho. by apply memfind_spec.
  - intros d. pose proof (take_spec s fuel p (p :: ps) d Hp ltac:(lia)) as H. destruct (_ <? _); [done|].
    destruct H as (s' & E & Hsh & _ & Hd). exists s'. split; [done|]. split; [by apply Hk|done].
  - intros d o Ho Hd. pose proof (take_at_spec s fuel p (p :: ps) d o Hp Ho Hf Hd) as H. destruct (_ <=? _); [|done].
    destruct H as (s' & E & Hsh & Hda). exists s'. split; [done|]. split; [by apply Hk|done].
  - intros o b Ho. destruct (put_spec s fuel p (p :: ps) o b Hp Ho Hf) as (s' & E & Hsh & Hda). exists s'.
    split; [done|]. split; [by apply Hk|done].
  - intros n Hn. destruct (Z.leb_spec n (len (pbufs s p))); [apply remove_header_spec; [done|lia]|].
    apply remove_header_refused; [exact (proj1 (proj2 Hl))|lia].
  - intros t qs Hq Hnd Hpl Hu. rewrite (data_length s qs) in Hu by (by eapply linked_nodes, pk_linked).
    apply cat_spec; try done. lia.
Qed.

(** C27. Frames and the pool.  Storing a received frame in buffers of the pool
    either fails, because the pool is empty or too small for the frame, and then
    every element is back in the pool; or gives a packet of its own elements of the
    pool whose bytes are exactly the frame once it is copied in, and freeing the
    packet brings every element back.  Nothing else is touched: no other structure
    and no memory outside the packet. *)
Theorem pool_packets_come_back s fuel layer f :
  NoDup (pool s) -> blocks_sized s -> is_u16 (Z.of_nat (length f)) -> (length (pool s) < fuel)%nat ->
  exists s1 r, pbuf_alloc fuel layer (Z.of_nat (length f)) PBUF_POOL s = Some (s1, r) /\
    match r with
    | None => pool s1 ≡ₚ pool s /\ memory s1 = memory s /\ (forall x, x ∉ InPool <$> pool s -> pbufs s1 x = pbufs s x) /\
        (pool s = [] \/
         PBUF_POOL_BUFSIZE_ALIGNED * Z.of_nat (length (pool s)) < Z.of_nat (length f) + LWIP_MEM_ALIGN_SIZE (layer_offset layer))
    | Some p => exists ids s2 s3 c,
        pool s = ids ++ pool s1 /\ pbuf_take fuel (Some p) (Some f) s1 = Some (s2, ERR_OK) /\
        packet s2 (Some p) (InPool <$> ids) /\ data s2 (InPool <$> ids) = f /\
        (forall x, x ∉ InPool <$> ids -> pbufs s2 x = pbufs s x) /\
        (forall i, i ∉ ids -> memory s2 (Block (InPool i)) = memory s (Block (InPool i))) /\
        pbuf_free fuel (Some p) s2 = Some (s3, c) /\ pool s3 ≡ₚ pool s /\ memory s3 = memory s2
    end.
Proof.
  intros Hnd Hb Hf Hfu. destruct (alloc_pool_spec s fuel layer _ Hnd Hb Hf Hfu) as (s1 & r & -> & Hm & _ & _ & Hr).
  exists s1, r. split; [done|]. destruct r as [p|]; [|by destruct Hr as (? & ? & ?)].
  destruct Hr as (ids & rest & Ep & Ep1 & Hpk & Hown & Hlen & Hpl & Hoth). rewrite Ep in Hnd, Hfu. rewrite length_app in Hfu.
  apply list.NoDup_app in Hnd as (Hnd & _ & _). pose proof (linked_nodes _ _ _ (pk_linked _ _ _ Hpk)) as Hns.
  pose proof (data_length _ _ Hns) as Hdl.
  pose proof (take_spec s1 fuel p (InPool <$> ids) f Hpk ltac:(rewrite length_fmap; lia)) as Ht.
  rewrite (proj2 (Z.ltb_ge _ _)) in Ht by lia. destruct Ht as (s2 & E2 & Hsh & Hom & Hd2).
  pose proof (same_shape_pbufs _ _ Hsh) as Hpb.
  destruct (free_owned ids s2 (Some p) fuel 0) as (s3 & c & E3 & Hp3 & Hm3 & _); [|done|lia|].
  { revert Hown. apply owned_ext. intros i _. by rewrite Hpb. }
  exists ids, s2, s3, c. split; [by rewrite Ep1|]. split; [done|]. split; [by eapply same_shape_packet|]. split.
  { rewrite Hd2. unfold splice. rewrite take_0, app_nil_l, drop_ge, app_nil_r by lia. done. }
  split; [intros x Hx; rewrite Hpb; by apply Hoth|]. split.
  { intros i Hi. rewrite Hom, Hm; [done|]. rewrite Hpl. intros (q & [= <-] & (j & [= <-] & Hj)%list_elem_of_fmap)%list_elem_of_fmap. done. }
  split; [exact E3|]. split; [|done]. destruct Hsh as [Hsh _]. rewrite Hp3, Hsh. cbn. rewrite Ep1, Ep. f_equiv. symmetry. apply Permutation_rev.
Qed.

(** ** Examples *)

(** A packet of five bytes in two structures, the first behind a byte of header. *)
Definition sample_state : state :=
  State
    (fun p => if decide (p = InPool 0) then Pbuf (Some (InPool 1)) (Block (InPool 0), 1) 5 3 0x82 0 1
              else Pbuf None (Block (InPool 1), 0) 2 2 0x82 0 1)
    (fun m => if decide (m = Block (InPool 0)) then [9; 1; 2; 3] else [4; 5; 6])
    [7] [] (mem_init (fun _ => Mem 0 0 false)).

Lemma sample_packet : packet sample_state (Some (InPool 0)) [InPool 0; InPool 1].
Proof.
  constructor.
  - unfold linked, node_ok. repeat split; try reflexivity; vm_compute; discriminate.
  - by apply (bool_decide_unpack _).
  - by apply (bool_decide_unpack _).
  - by apply (bool_decide_unpack _).
Qed.

Example realloc_returns_tail :
  exists s', pbuf_realloc 3 (InPool 0) 2 sample_state = Some s' /\ pool s' = [1; 7] /\ data s' [InPool 0] = [1; 2] /\
    next (pbufs s' (InPool 0)) = None.
Proof. eexists. split; [reflexivity|]. done. Qed.

Example free_header_drops_front :
  exists s', pbuf_free_header 4 (Some (InPool 0)) 4 sample_state = Some (s', Some (InPool 1)) /\ pool s' = [0; 7] /\
    data s' [InPool 1] = [5].
Proof. eexists. split; [reflexivity|]. done. Qed.

Example dechain_keeps_referenced_tail :
  exists s', pbuf_dechain 3 (InPool 0) (pbuf_ref (Some (InPool 1)) sample_state) = Some (s', Some (InPool 1)) /\
    pool s' = [7] /\ ref (pbufs s' (InPool 1)) = 1 /\ tot_len (pbufs s' (InPool 0)) = 3 /\ pbuf_clen 3 (Some (InPool 0)) 0 s' = Some 1.
Proof. eexists. split; [reflexivity|]. done. Qed.

Lemma packets_are_bytes_witness :
  pbuf_copy_partial 3 (Some (InPool 0)) 3 1 sample_state = Some [2; 3; 4] /\
  exists s', pbuf_take_at 3 (Some (InPool 0)) [8; 8] 2 sample_state = Some (s', ERR_OK) /\
    data s' [InPool 0; InPool 1] = [1; 2; 8; 8; 5].
Proof.
  destruct (packets_are_bytes sample_state 3 (InPool 0) [InPool 1] sample_packet ltac:(cbn; lia))
    as (Hc & _ & _ & _ & Ht & _).
  split.
  - rewrite (Hc 3 1); [reflexivity|unfold is_u16; lia|unfold is_u16; lia].
  - destruct (Ht [8; 8] 2 ltac:(unfold is_u16; lia) ltac:(discriminate)) as (s' & E & _ & Hd). exists s'. split; [exact E|exact Hd].
Defined.

(** A pool of three buffers. *)
Definition sample_pool : state :=
  State (fun _ => Pbuf None (Outside 0, 0) 0 0 0 0 0) (fun _ => replicate 592 0) [0; 1; 2] [] (mem_init (fun _ => Mem 0 0 false)).

Lemma pool_packets_come_back_witness :
  exists s1 r, pbuf_alloc 4 PBUF_RAW 1000 PBUF_POOL sample_pool = Some (s1, Some r) /\
    exists s2, pbuf_take 4 (Some r) (Some (replicate 1000 5)) s1 = Some (s2, ERR_OK).
Proof.
  destruct (pool_packets_come_back sample_pool 4 PBUF_RAW (replicate 1000 5)) as (s1 & r & E & Hr).
  - by apply (bool_decide_unpack _).
  - intros i. reflexivity.
  - unfold is_u16. rewrite length_replicate. lia.
  - cbn. lia.
  - destruct r as [p|].
    + destruct Hr as (ids & s2 & s3 & c & _ & Et & _). exists s1, p. split; [exact E|]. exists s2. exact Et.
    + exfalso. destruct Hr as (_ & _ & _ & [H|H]); [discriminate H|vm_compute in H; discriminate H].
Defined.
